(* ===== verification/_CoqProject ===== *)
-Q . S2P
Prelude.v
MmHeap.v
MmFreeList.v
MmLayout.v
MmHeapOps.v
MmHeapProps.v
MmHeapInit.v
MmHeapResize.v
MmHeapRealloc.v
MmHeapClient.v
MmHeapTheorems.v
MmGran.v
MmGranProps.v
Queue.v
QueueProps.v
QueueTheorems.v
Sched.v
SchedProps.v
SchedOps.v
SchedKernel.v
SchedPriority.v
SchedTheorems.v
Sem.v
SemHolder.v
SemPrio.v
SemOps.v
SemCalls.v
SemSystem.v
SemSteps.v
SemTheorems.v
SemIds.v
Wdog.v
WdogProps.v
WdogTick.v
WdogTimers.v
WdogTheorems.v
Calendar.v
CalendarTheorems.v
Clock.v
ClockTheorems.v
Timer.v
TimerOps.v
TimerTheorems.v
SemTimed.v
SemTimedSteps.v
SemTimedTick.v
SemTimedCall.v
SemTimedTheorems.v
Bytes.v
Qsort.v
QsortSort.v
QsortTheorems.v
CString.v
CStringProps.v
CStringCopy.v
CStringTheorems.v
Conv.v
ConvTheorems.v
Crc.v
CrcTheorems.v
Env.v
EnvOps.v
EnvCalls.v
EnvTheorems.v
Mqueue.v
MqueueMsgs.v
MqueueInv.v
MqueueCalls.v
MqueueInit.v
MqueueTheorems.v
Pthread.v
PthreadSem.v
PthreadMutex.v
PthreadSystem.v
PthreadTheorems.v
Signal.v
SignalLists.v
SignalDeliver.v
SignalCalls.v
SignalTheorems.v
