(* ===== verification/Prelude.v ===== *)
(** * A verification of the TinyAra kernel

    TinyAra is an RTOS in C derived from NuttX.  This library translates the
    core of the kernel and parts of its C library into Rocq functions and
    proves what they promise.  The translation is shallow: a C function is a
    Rocq function with the same name, structs are records, pointers are
    addresses ([Z], 0 is NULL), and the mutable state is passed explicitly.
    A definition returns [None] where the code would trip an assertion, panic,
    dereference a null pointer, access an array out of range or not return;
    the theorems show that this does not happen.  Machine integers are [Z]
    with the wrap-around of their C type written out ([u8], [i16], [u32], ...).

    The configuration is that of [build/configs/sidk_s5jt200/tc/defconfig]:
    32-bit ARM, 10 ms ticks, round robin slices of 100 ms, priority
    inheritance, 16 tasks, 32 watchdogs, 8 timers, debug assertions on.
    [time_t] is [uint32_t], [pid_t] is [int16_t].

    ** The parts and how they interact

    The scheduler keeps tasks on linked lists (C library queues).  Semaphores
    block and wake tasks through the scheduler and change their priorities.
    Watchdogs are started by POSIX timers and by timed waits, and expire in the
    timer interrupt, which also advances the clock and the time slices.  The
    clock converts deadlines into ticks.  The heap allocator serves the whole
    system.

    - [MmHeap] models [os/mm/mm_heap] at the level of memory words: malloc,
      free, realloc, memalign, zalloc, extension, statistics and the recursive
      lock.  [MmFreeList] and [MmLayout] hold its invariant, [MmHeapOps],
      [MmHeapProps], [MmHeapInit], [MmHeapResize] and [MmHeapRealloc] the
      behaviour of the operations, [MmHeapClient] the abstract heap (a finite
      map of blocks in use) it refines, [MmHeapTheorems] the results.
    - [MmGran] and [MmGranProps]: the granule allocator [os/mm/mm_gran], and
      clients that allocate and free in any order.
    - [Queue], [QueueProps], [QueueTheorems]: [lib/libc/queue]; queues refine
      lists under every sequence of operations.
    - [Sched] models [os/kernel/sched] and the context switches of
      [os/arch/arm/src/armv7-r]: task lists by their link fields, priorities,
      the preemption lock, time slices.  [SchedProps], [SchedOps],
      [SchedKernel], [SchedPriority]: the invariant and its
      preservation; [SchedTheorems]: in every reachable state the processor
      runs the task that the policy asks for.
    - [Sem] models [os/kernel/semaphore] over [Sched], with the containers that
      record holders.  [SemHolder], [SemPrio], [SemOps], [SemCalls]: the calls;
      [SemSystem], [SemSteps]: tasks and interrupt handlers as a transition
      system in which a call that gives up the processor is split there;
      [SemTheorems]: counts balance under every interleaving, priority
      inheritance and where it fails; [SemIds]: pids are stable.
    - [Wdog], [WdogProps], [WdogTick], [WdogTimers],
      [WdogTheorems]: [os/kernel/wdog]; the delta queue refines a set of
      timers.  What a watchdog function must satisfy is the interface
      [handler_ok]; [timer_timeout] and [sem_timeout] meet it.
    - [Calendar], [CalendarTheorems]: the date conversions of
      [lib/libc/time] against a reference calendar that counts days.
    - [Clock], [ClockTheorems]: [os/kernel/clock].
    - [Timer], [TimerOps], [TimerTheorems]: [os/kernel/timer],
      as a client of the watchdogs and the clock.
    - [SemTimed] composes semaphores, watchdogs and clock as
      [sem_timedwait.c] and [sched_processtimer.c] do.
      [SemTimedSteps], [SemTimedTick], [SemTimedCall], [SemTimedTheorems]:
      counts still balance, and a timed wait ends on time.
    - [Bytes] is the byte memory the functions of the C library work on.
      [Qsort] models [stdlib/lib_qsort.c] and [lib_bsearch.c]; [QsortSort],
      [QsortTheorems] show that it sorts.
    - [CString] models [lib/libc/string]: [CStringProps],
      [CStringCopy], [CStringTheorems].
    - [Conv], [ConvTheorems]: the integer conversions of
      [lib/libc/stdlib].
    - [Crc], [CrcTheorems]: the checksums of [lib/libc/misc],
      against shift registers that take in one bit at a time.
    - [Env] models [os/kernel/environ], the environment of a task group in one
      block of memory, as a client of [CString] and of the class [Allocator];
      [EnvOps] and [EnvCalls] tie it to a map from names to values,
      [EnvTheorems] has an instance of the class and the theorems.
    - [Mqueue] models [os/kernel/mqueue] over [Sched]: the calls are split into
      the pieces that run with interrupts off, and interrupts come between
      them.  [MqueueMsgs]: the places of messages; [MqueueInv]: the invariant
      of the system, and what the scheduler does to it; [MqueueCalls]: every
      piece and every interrupt keeps it; [MqueueInit]:
      initialisation, notifications, descriptors; [MqueueTheorems].
    - [Pthread] models the mutexes, condition variables and barriers of
      [os/kernel/pthread] as programs over the semaphores, run one step at a
      time.  [PthreadSem]: what the semaphores promise to threads;
      [PthreadMutex]: a logic of ownership for the programs; [PthreadSystem]:
      the invariant of all threads together; [PthreadTheorems].
    - [Signal] models [os/kernel/signal], [lib/libc/signal] and the delivery of
      signals in [os/arch/arm/src/armv7-r], over [Sched], [Sem] and [Mqueue].
      [SignalLists]: sets as sets of numbers, the lists of structures and their
      invariant; [SignalDeliver]: handlers nested in each other;
      [SignalCalls]: the other calls and initialisation; [SignalTheorems].

    ** What the theorems show

    Refinement: the heap implements a finite map of blocks, queues implement
    lists, watchdogs implement timers, for all sequences of calls.  Invariants
    and safety: scheduling policy, semaphore counts, absence of overlap between
    allocations, under all interleavings of the modelled events.  Functional
    theorems state single operations on every branch.  Liveness: signals and
    timeouts come at the right tick.  A few theorems prove that the code does
    not do what its comments say; each is recorded as a finding.
    For the C library: qsort ends for any comparison function and sorts for a
    total preorder; strtok_r yields the tokens of a string; strstr, bsearch and
    strlcpy do what they promise within the memory of their arguments; itoa and
    strtol are inverse; optimised and table-driven routines equal their simple
    references.
    For the environment: calls in any order behave as on a map from names to
    values, for every allocator with the contract, and the copy of a child is
    its own.
    For message queues: under every interleaving they behave as priority
    queues, lose no message and no wake-up, up to one race, which makes an
    assertion of the code fail.
    For POSIX threads: mutexes exclude and their calls return what they have
    to, whatever happens between the steps of a call; runs show where
    condition variables and barriers fail.
    For signals: unmasking delivers each pending signal once and in order;
    sending, waiting and installing actions behave as on maps from signal
    numbers; a handler that sends a signal makes [sig_deliver] go on with an
    action that was delivered and released.

    The conditions of the theorems on runs are those that the code leaves to
    its callers; where the code fails without one, a theorem shows that.  A wait
    for a semaphore needs room to note one more priority for each task
    ([nest_room]; [sem_boost_overflows]).  No mutex is destroyed, or used
    recursively with a condition variable ([left_out];
    [cond_wait_forgets_locks]).  Message queues are priority queues up to a race
    between a receiver and a timeout ([races]; [mq_receive_races_timeout]).
    Signal handlers return in their task and leave signals alone
    ([handlers_ok]; [sig_deliver_repeats]).  A granule heap has at most 32
    granules ([gran_alloc_wrong_word]).

    ** Fuel

    Loops over linked structures recurse on fuel.  The invariants bound the
    structures, and the theorems about an operation state that it returns, so
    that the fuel is enough: [list_fuel] exceeds the number of tasks (resp.
    free chunks), [wd_fuel] the number of watchdogs a system of the modelled
    size can have active.
    A loop along a string has as much fuel as bytes are mapped and one more
    ([string_fuel]): it ends at an unmapped byte if not before.  The recursion
    of qsort has the number of elements as its bound, bsearch 33 turns, one
    more than a [size_t] has bits.
    Lists of signals have [sig_fuel] turns, more than there are signal numbers;
    deliveries are nested at most as deep as signals are pending.

    ** Parameters

    The real-time clock driver, delivery of signals by POSIX timers
    ([sig_dispatch]) and the memory the heap returns for a watchdog are
    arguments of the definitions.
    The comparison functions of qsort and bsearch, and the allocator under
    strdup and the environment, are parameters too.
    The address that kmm_malloc returns for a message is an argument of the
    step that allocates it.
    A signal handler is any function on the state; the theorem on delivery
    takes handlers with the contract [handlers_ok].  The results of kmm_malloc are a
    list in the state.

    ** Not modelled

    Interrupts are off while a kernel operation runs, so operations are atomic
    up to the points where they give up the processor.  Register contents,
    stacks, and the creation and exit of tasks are left out: they depend on
    assembly in [os/arch].  Waits for signals with a timeout and nanosleep are
    left out.  Device drivers, file systems, networking, the
    external packages and the applications are I/O.  The manifest lists every
    part with its reason. *)

From stdpp Require Import base tactics numbers list gmap.

#[global] Open Scope Z_scope.

(** ** Machine integers

    The target (ARM Cortex-R4, [CONFIG_ARCH_ARM]) has 32-bit [int], [size_t]
    and pointers.  A machine integer is a [Z] together with the wrap-around
    that the C type performs. *)

Definition u8 (z : Z) : Z := z mod 256.
Definition u16 (z : Z) : Z := z mod 65536.
Definition u32 (z : Z) : Z := z mod 4294967296.

(** Conversion of a 32-bit pattern to the C type [int]. *)
Definition i32 (z : Z) : Z :=
  let w := u32 z in if w <? 2147483648 then w else w - 4294967296.

(** Conversion to [int16_t]. *)
Definition i16 (z : Z) : Z :=
  let w := u16 z in if w <? 32768 then w else w - 65536.

Lemma i16_small z : -32768 <= z <= 32767 -> i16 z = z.
Proof.
  intros H. unfold i16, u16. destruct (Z.ltb_spec (z mod 65536) 32768); destruct (Z.ltb_spec z 0).
  - rewrite <- (Z_mod_plus_full z 1), Z.mod_small in * by lia. lia.
  - rewrite Z.mod_small by lia. lia.
  - rewrite <- (Z_mod_plus_full z 1), Z.mod_small in * by lia. lia.
  - rewrite Z.mod_small in * by lia. lia.
Qed.

Lemma u32_small z : 0 <= z < 4294967296 -> u32 z = z.
Proof. intros. unfold u32. by apply Z.mod_small. Qed.

Lemma u32_range z : 0 <= u32 z < 4294967296.
Proof. unfold u32. apply Z.mod_pos_bound. lia. Qed.

Lemma i32_range z : -2147483648 <= i32 z <= 2147483647.
Proof. unfold i32. pose proof (u32_range z). destruct (Z.ltb_spec (u32 z) 2147483648); lia. Qed.

Lemma i32_small z : -2147483648 <= z < 2147483648 -> i32 z = z.
Proof.
  intros Hz. unfold i32, u32.
  destruct (Z.ltb_spec (z mod 4294967296) 2147483648) as [Hlt | Hge];
    destruct (decide (0 <= z)).
  - rewrite Z.mod_small; lia.
  - rewrite <- (Z_mod_plus_full z 1), Z.mod_small in Hlt by lia. lia.
  - rewrite Z.mod_small in Hge; lia.
  - rewrite <- (Z_mod_plus_full z 1), Z.mod_small by lia. lia.
Qed.

(** A [size_t] negated and read back as an [int]. *)
Lemma i32_u32_opp s : 0 <= s < 2147483648 -> i32 (u32 (- s)) = - s.
Proof.
  intros Hs. destruct (decide (s = 0)) as [-> | ?]; [done|].
  unfold i32. rewrite (u32_small (u32 _)) by apply u32_range. unfold u32.
  rewrite <- (Z_mod_plus_full (- s) 1), Z.mod_small by lia.
  destruct (Z.ltb_spec (- s + 1 * 4294967296) 2147483648); lia.
Qed.

(** Clearing the low [k] bits, [x & ~(2^k - 1)], as arithmetic. *)
Lemma land_lnot_mask x k :
  0 <= x < 4294967296 -> 0 <= k <= 32 ->
  Z.land x (u32 (Z.lnot (2 ^ k - 1))) = x - x mod 2 ^ k.
Proof.
  intros Hx Hk. assert (0 < 2 ^ k) by (apply Z.pow_pos_nonneg; lia).
  replace (x - x mod 2 ^ k) with (Z.shiftl (Z.shiftr x k) k).
  2:{ rewrite Z.shiftl_mul_pow2, Z.shiftr_div_pow2 by lia. pose proof (Z.div_mod x (2 ^ k)). lia. }
  change 4294967296 with (2 ^ 32) in Hx.
  apply Z.bits_inj'. intros n Hn. unfold u32. change 4294967296 with (2 ^ 32).
  rewrite Z.land_spec, Z.shiftl_spec by lia. destruct (decide (n < 32)).
  - rewrite Z.mod_pow2_bits_low by lia. rewrite Z.lnot_spec by lia.
    replace (2 ^ k - 1) with (Z.ones k) by (rewrite Z.ones_equiv; lia).
    destruct (decide (n < k)).
    + rewrite Z.ones_spec_low, (Z.testbit_neg_r _ (n - k)) by lia. by rewrite andb_false_r.
    + rewrite Z.ones_spec_high, Z.shiftr_spec by lia. rewrite andb_true_r. f_equal. lia.
  - rewrite Z.mod_pow2_bits_high, andb_false_r by lia. symmetry.
    rewrite Z.shiftr_spec by lia. replace (n - k + k) with n by lia.
    rewrite <- (Z.mod_small x (2 ^ 32)) by lia. apply Z.mod_pow2_bits_high. lia.
Qed.

(** The top bit of a 32-bit word, [x & 0x80000000]. *)
Lemma land_top_bit p b :
  0 <= p < 2147483648 ->
  Z.land (p + (if b : bool then 2147483648 else 0)) 2147483648 = if b then 2147483648 else 0.
Proof.
  intros Hp. change 2147483648 with (2 ^ 31) in *. apply Z.bits_inj'. intros n Hn.
  rewrite Z.land_spec, Z.pow2_bits_eqb by lia.
  destruct (Z.eqb_spec 31 n) as [<- | Hne]; rewrite ?andb_false_r, ?andb_true_r.
  - rewrite Z.testbit_eqb by lia. destruct b.
    + replace (p + 2 ^ 31) with (p + 1 * 2 ^ 31) by lia.
      rewrite Z.div_add, Z.div_small by lia. by rewrite Z.pow2_bits_true by lia.
    + rewrite Z.add_0_r, Z.div_small by lia. done.
  - destruct b; [|by rewrite Z.bits_0]. symmetry. apply Z.pow2_bits_false. lia.
Qed.

Lemma lor_top_bit p b :
  0 <= p < 2147483648 ->
  Z.lor p (if b : bool then 2147483648 else 0) = p + (if b then 2147483648 else 0).
Proof.
  intros Hp. rewrite <- Z.add_lor_land. pose proof (land_top_bit p false Hp) as H0.
  destruct b.
  - rewrite Z.add_0_r in H0. rewrite H0. lia.
  - rewrite Z.land_0_r. lia.
Qed.

(** [x & ~0x80000000]. *)
Lemma land_low_bits p b :
  0 <= p < 2147483648 ->
  Z.land (p + (if b : bool then 2147483648 else 0)) (u32 (Z.lnot 2147483648)) = p.
Proof.
  intros Hp. change (u32 (Z.lnot 2147483648)) with (Z.ones 31). rewrite Z.land_ones by lia.
  change 2147483648 with (2 ^ 31) in *. destruct b.
  - replace (p + 2 ^ 31) with (p + 1 * 2 ^ 31) by lia. rewrite Z_mod_plus_full. by apply Z.mod_small.
  - rewrite Z.add_0_r. by apply Z.mod_small.
Qed.

(** ** Word-addressed memory

    Pointer-level components read and write 32-bit words.  A memory is a total
    map from byte addresses to word values; only 4-aligned addresses are used.
    [m .[ a ]] is [*(uint32_t * )a] and [m .[ a <- v ]] the memory after the
    assignment. *)

Definition mem : Type := Z -> Z.

Definition load (m : mem) (a : Z) : Z := m a.

Definition store (m : mem) (a v : Z) : mem := fun b => if b =? a then v else m b.

Declare Scope mem_scope.
Delimit Scope mem_scope with mem.
Notation "m .[ a ]" := (load m a) (at level 1, left associativity, format "m .[ a ]") : mem_scope.
Notation "m .[ a <- v ]" := (store m a v) (at level 1, left associativity, format "m .[ a  <-  v ]") : mem_scope.
#[global] Open Scope mem_scope.

Lemma load_store m a v b : (m.[a <- v]).[b] = if decide (b = a) then v else m.[b].
Proof. unfold load, store. case_decide; destruct (Z.eqb_spec b a); congruence. Qed.

Lemma load_store_eq m a v : (m.[a <- v]).[a] = v.
Proof. rewrite load_store. by rewrite decide_True. Qed.

Lemma load_store_ne m a v b : b <> a -> (m.[a <- v]).[b] = m.[b].
Proof. intros. rewrite load_store. by rewrite decide_False. Qed.

(** Simplify loads from a memory built by stores whose addresses [lia] can
    tell apart. *)
Ltac mem_simpl :=
  repeat first [ rewrite load_store_eq | rewrite load_store_ne by lia ].

(** Equality of results, component by component. *)
Ltac split_eq :=
  repeat match goal with
  | |- Some _ = Some _ => apply f_equal
  | |- (_, _) = (_, _) => apply pair_equal_spec; split
  end; try reflexivity; try lia.

(** ** Bits of words

    A mask that covers the bits [lo] to [hi - 1]. *)
Definition is_range (mask lo hi : Z) : Prop :=
  forall k, 0 <= k -> Z.testbit mask k = (lo <=? k) && (k <? hi).

Lemma ones32_bits k : 0 <= k -> Z.testbit 4294967295 k = (k <? 32).
Proof.
  intros. change 4294967295 with (Z.ones 32). destruct (Z.ltb_spec k 32).
  - apply Z.ones_spec_low. lia.
  - apply Z.ones_spec_high. lia.
Qed.

Lemma u32_bits z k : 0 <= k -> Z.testbit (u32 z) k = (k <? 32) && Z.testbit z k.
Proof.
  intros. unfold u32. change 4294967296 with (2 ^ 32). destruct (Z.ltb_spec k 32).
  - by rewrite Z.mod_pow2_bits_low by lia.
  - by rewrite Z.mod_pow2_bits_high by lia.
Qed.

Lemma word_high z k : 0 <= z < 4294967296 -> 32 <= k -> Z.testbit z k = false.
Proof.
  intros Hz Hk. rewrite <- (u32_small z Hz), u32_bits by lia. destruct (Z.ltb_spec k 32); [lia|done].
Qed.

Lemma word_bound z : 0 <= z -> (forall k, 32 <= k -> Z.testbit z k = false) -> 0 <= z < 4294967296.
Proof.
  intros Hz Hk. split; [done|]. assert (z = u32 z) as ->; [|apply u32_range].
  apply Z.bits_inj'. intros k Hk0. rewrite u32_bits by done. destruct (Z.ltb_spec k 32); [done|]. by apply Hk.
Qed.

Lemma range_shiftl b : 0 <= b < 32 -> is_range (u32 (Z.shiftl 4294967295 b)) b 32.
Proof.
  intros Hb k Hk. rewrite u32_bits, Z.shiftl_spec by lia.
  destruct (Z.leb_spec b k), (Z.ltb_spec k 32); try done; [|by rewrite Z.testbit_neg_r by lia].
  rewrite ones32_bits by lia. destruct (Z.ltb_spec (k - b) 32); [done|lia].
Qed.

Lemma range_shiftr n : 0 <= n <= 32 -> is_range (Z.shiftr 4294967295 (32 - n)) 0 n.
Proof.
  intros Hn k Hk. rewrite Z.shiftr_spec, ones32_bits by lia.
  destruct (Z.leb_spec 0 k), (Z.ltb_spec k n), (Z.ltb_spec (k + (32 - n)) 32); lia || done.
Qed.

Lemma range_shift_up mask n b : is_range mask 0 n -> 0 <= b -> b + n <= 32 -> is_range (u32 (Z.shiftl mask b)) b (b + n).
Proof.
  intros Hm Hb Hn k Hk. rewrite u32_bits, Z.shiftl_spec by lia.
  destruct (Z.leb_spec b k); [|rewrite Z.testbit_neg_r by lia; by rewrite andb_false_r].
  rewrite Hm by lia. destruct (Z.leb_spec 0 (k - b)), (Z.ltb_spec (k - b) n), (Z.ltb_spec k (b + n)), (Z.ltb_spec k 32);
    lia || done.
Qed.

(** [(g & mask) == 0]: none of the bits is set. *)
Lemma range_clear g mask lo hi :
  is_range mask lo hi -> 0 <= lo ->
  Z.land g mask = 0 <-> forall k, lo <= k < hi -> Z.testbit g k = false.
Proof.
  intros Hm Hlo. split.
  - intros H0 k Hk. pose proof (f_equal (fun z => Z.testbit z k) H0) as Hb. simpl in Hb.
    rewrite Z.land_spec, Hm, Z.bits_0 in Hb by lia.
    destruct (Z.leb_spec lo k), (Z.ltb_spec k hi); try lia. by rewrite andb_true_r in Hb.
  - intros H0. apply Z.bits_inj'. intros k Hk. rewrite Z.land_spec, Hm, Z.bits_0 by done.
    destruct (Z.leb_spec lo k), (Z.ltb_spec k hi); rewrite ?andb_false_r; try done. by rewrite H0.
Qed.

(** [(g & mask) == mask]: all of the bits are set. *)
Lemma range_full g mask lo hi :
  is_range mask lo hi -> 0 <= lo ->
  Z.land g mask = mask <-> forall k, lo <= k < hi -> Z.testbit g k = true.
Proof.
  intros Hm Hlo. split.
  - intros H0 k Hk. pose proof (f_equal (fun z => Z.testbit z k) H0) as Hb. simpl in Hb.
    rewrite Z.land_spec, Hm in Hb by lia.
    destruct (Z.leb_spec lo k), (Z.ltb_spec k hi); try lia. by rewrite andb_true_r in Hb.
  - intros H0. apply Z.bits_inj'. intros k Hk. rewrite Z.land_spec, Hm by done.
    destruct (Z.leb_spec lo k), (Z.ltb_spec k hi); rewrite ?andb_false_r; try done. by rewrite H0.
Qed.

(** ** Assertions

    [ASSERT] and [DEBUGASSERT]: a call whose assertion fails does not return. *)
Definition assert (b : bool) : option unit := if b then Some tt else None.

Lemma assert_true b : b = true -> assert b = Some tt.
Proof. by intros ->. Qed.
