(* ===== verification/MmHeap.v ===== *)
(** * The kernel heap: data and operations

    Model of [os/mm/mm_heap] (types in [os/include/tinyara/mm/mm.h]) in the
    configuration every board of the repository uses: 32-bit [size_t], one
    region ([CONFIG_MM_REGIONS=1]), [CONFIG_MM_SMALL] off,
    [CONFIG_DEBUG_MM_HEAPINFO=y] and [CONFIG_DEBUG=y].

    The heap lives in a word memory: a chunk header at address [a] has its
    [size] at [a], [preceding] at [a+4]; a free node has [flink] at [a+8] and
    [blink] at [a+12], the words that hold [alloc_call_addr] and
    [pid]/[reserved] when the chunk is allocated.  [None] is a call that does
    not return: it blocks on the heap semaphore, trips a [DEBUGASSERT], or
    walks the node list for longer than the fuel allows (the correctness
    theorems show that none of these happens on a well-formed heap). *)

From stdpp Require Import base tactics numbers list gmap.
From S2P Require Import Prelude.

(** ** Constants of mm.h *)

Definition MM_MIN_SHIFT : Z := 4.
Definition MM_MAX_SHIFT : Z := 22.
Definition MM_MIN_CHUNK : Z := 16.
Definition MM_MAX_CHUNK : Z := 4194304.
Definition MM_NNODES : Z := 19.
Definition MM_GRAN_MASK : Z := 15.
Definition MM_ALLOC_BIT : Z := 2147483648.
Definition SIZEOF_MM_ALLOCNODE : Z := 16.
Definition SIZEOF_MM_FREENODE : Z := 16.

Definition MM_ALIGN_UP (a : Z) : Z := Z.land (u32 (a + MM_GRAN_MASK)) (u32 (Z.lnot MM_GRAN_MASK)).
Definition MM_ALIGN_DOWN (a : Z) : Z := Z.land (u32 a) (u32 (Z.lnot MM_GRAN_MASK)).

(** Field offsets of [struct mm_allocnode_s] and [struct mm_freenode_s]. *)

Definition f_size (a : Z) : Z := a.
Definition f_preceding (a : Z) : Z := a + 4.
Definition f_flink (a : Z) : Z := a + 8.
Definition f_blink (a : Z) : Z := a + 12.
Definition f_alloc_call_addr (a : Z) : Z := a + 8.
Definition f_pid_reserved (a : Z) : Z := a + 12.

(** The heap accounting fields of a TCB ([struct tcb_s] in sched.h). *)
Record tcb_info := mk_tcb_info {
  tcb_curr_alloc_size : Z;
  tcb_peak_alloc_size : Z;
  tcb_num_alloc_free : Z
}.

(** [struct mm_heap_s].  [mm_nodelist] is the address of the array of list
    heads; [mm_mem] holds its words and those of the heap region.  [mm_tcbs]
    is what [sched_gettcb] finds. *)
Record mm_heap_s := mk_heap {
  mm_mem : mem;
  mm_nodelist : Z;
  mm_semaphore : Z;
  mm_holder : Z;
  mm_counts_held : Z;
  mm_heapsize : Z;
  mm_peak_alloc_size : Z;
  mm_total_alloc_size : Z;
  mm_heapstart : Z;
  mm_heapend : Z;
  mm_tcbs : gmap Z tcb_info
}.

(** What the heap code asks of its caller's context. *)
Record env := mk_env {
  getpid : Z;
  up_interrupt_context : bool
}.

Definition with_mem (h : mm_heap_s) (m : mem) : mm_heap_s :=
  mk_heap m (mm_nodelist h) (mm_semaphore h) (mm_holder h) (mm_counts_held h)
    (mm_heapsize h) (mm_peak_alloc_size h) (mm_total_alloc_size h)
    (mm_heapstart h) (mm_heapend h) (mm_tcbs h).
Definition with_sem (h : mm_heap_s) (s holder counts : Z) : mm_heap_s :=
  mk_heap (mm_mem h) (mm_nodelist h) s holder counts
    (mm_heapsize h) (mm_peak_alloc_size h) (mm_total_alloc_size h)
    (mm_heapstart h) (mm_heapend h) (mm_tcbs h).
Definition with_heapsize (h : mm_heap_s) (s : Z) : mm_heap_s :=
  mk_heap (mm_mem h) (mm_nodelist h) (mm_semaphore h) (mm_holder h) (mm_counts_held h)
    s (mm_peak_alloc_size h) (mm_total_alloc_size h)
    (mm_heapstart h) (mm_heapend h) (mm_tcbs h).
Definition with_region (h : mm_heap_s) (s e : Z) : mm_heap_s :=
  mk_heap (mm_mem h) (mm_nodelist h) (mm_semaphore h) (mm_holder h) (mm_counts_held h)
    (mm_heapsize h) (mm_peak_alloc_size h) (mm_total_alloc_size h)
    s e (mm_tcbs h).
Definition with_total (h : mm_heap_s) (peak total : Z) : mm_heap_s :=
  mk_heap (mm_mem h) (mm_nodelist h) (mm_semaphore h) (mm_holder h) (mm_counts_held h)
    (mm_heapsize h) peak total (mm_heapstart h) (mm_heapend h) (mm_tcbs h).
Definition with_tcbs (h : mm_heap_s) (t : gmap Z tcb_info) : mm_heap_s :=
  mk_heap (mm_mem h) (mm_nodelist h) (mm_semaphore h) (mm_holder h) (mm_counts_held h)
    (mm_heapsize h) (mm_peak_alloc_size h) (mm_total_alloc_size h)
    (mm_heapstart h) (mm_heapend h) t.

(** ** The heap semaphore (mm_sem.c) *)

(** [sem_init(&heap->mm_semaphore, 0, 1)]. *)
Definition mm_seminitialize (h : mm_heap_s) : mm_heap_s := with_sem h 1 (-1) 0.

Definition mm_trysemaphore (e : env) (h : mm_heap_s) : bool * mm_heap_s :=
  if mm_holder h =? getpid e
  then (true, with_sem h (mm_semaphore h) (mm_holder h) (mm_counts_held h + 1))
  else if mm_semaphore h <=? 0
  then (false, h)
  else (true, with_sem h (mm_semaphore h - 1) (getpid e) 1).

(** [sem_wait] on a semaphore that is not available does not return here. *)
Definition mm_takesemaphore (e : env) (h : mm_heap_s) : option mm_heap_s :=
  if mm_holder h =? getpid e
  then Some (with_sem h (mm_semaphore h) (mm_holder h) (mm_counts_held h + 1))
  else if mm_semaphore h <=? 0
  then None
  else Some (with_sem h (mm_semaphore h - 1) (getpid e) 1).

Definition mm_givesemaphore (e : env) (h : mm_heap_s) : option mm_heap_s :=
  if mm_holder h =? getpid e
  then if 1 <? mm_counts_held h
       then Some (with_sem h (mm_semaphore h) (mm_holder h) (mm_counts_held h - 1))
       else Some (with_sem h (mm_semaphore h + 1) (-1) 0)
  else None.

(** ** Allocation accounting (mm_heapinfo.c) *)

Definition heapinfo_add_size (pid size : Z) (h : mm_heap_s) : mm_heap_s :=
  match mm_tcbs h !! pid with
  | Some t =>
      let curr := i32 (tcb_curr_alloc_size t + size) in
      let peak := if tcb_peak_alloc_size t <? curr then curr else tcb_peak_alloc_size t in
      with_tcbs h (<[pid := mk_tcb_info curr peak (i32 (tcb_num_alloc_free t + 1))]> (mm_tcbs h))
  | None => h
  end.

Definition heapinfo_subtract_size (pid size : Z) (h : mm_heap_s) : mm_heap_s :=
  match mm_tcbs h !! pid with
  | Some t =>
      with_tcbs h (<[pid := mk_tcb_info (i32 (tcb_curr_alloc_size t - size))
                              (tcb_peak_alloc_size t) (i32 (tcb_num_alloc_free t - 1))]> (mm_tcbs h))
  | None => h
  end.

Definition heapinfo_update_total_size (h : mm_heap_s) (size : Z) : mm_heap_s :=
  let total := i32 (mm_total_alloc_size h + size) in
  with_total h (if mm_peak_alloc_size h <? total then total else mm_peak_alloc_size h) total.

(** [pid] is an [int16_t] in the low half of its word, [reserved] the high half. *)
Definition node_pid (m : mem) (node : Z) : Z :=
  let w := u16 m.[f_pid_reserved node] in if w <? 32768 then w else w - 65536.

Definition heapinfo_update_node (e : env) (m : mem) (node caller_retaddr : Z) : mem :=
  let m := m.[f_alloc_call_addr node <- caller_retaddr] in
  let pid := if up_interrupt_context e then -1 else getpid e in
  m.[f_pid_reserved node <- u16 pid].

(** ** The free list *)

(** The loop of [mm_size2ndx]; a [size_t] is zero after 32 shifts. *)
Fixpoint size2ndx_loop (fuel : nat) (ndx size : Z) : Z :=
  match fuel with
  | O => ndx
  | S fuel => if 1 <? size then size2ndx_loop fuel (ndx + 1) (Z.shiftr size 1) else ndx
  end.

Definition mm_size2ndx (size : Z) : Z :=
  if MM_MAX_CHUNK <=? size then MM_NNODES - 1
  else size2ndx_loop 32 0 (Z.shiftr size MM_MIN_SHIFT).

(** [&heap->mm_nodelist[ndx]]. *)
Definition nodelist_entry (nl ndx : Z) : Z := nl + SIZEOF_MM_FREENODE * ndx.

(** The most steps a walk of the node list can take: one per list head, one
    per minimal chunk of the region (tail guard included), and the final null
    test. *)
Definition list_fuel (h : mm_heap_s) : nat :=
  Z.to_nat ((mm_heapend h - mm_heapstart h) / MM_MIN_CHUNK + MM_NNODES + 2).

(** The search loop of [mm_addfreechunk]: the final [prev] and [next]. *)
Fixpoint find_slot (fuel : nat) (m : mem) (size prev next : Z) : option (Z * Z) :=
  match fuel with
  | O => None
  | S fuel =>
      if negb (next =? 0) && negb (m.[f_size next] =? 0) && (m.[f_size next] <? size)
      then find_slot fuel m size next m.[f_flink next]
      else Some (prev, next)
  end.

Definition mm_addfreechunk (fuel : nat) (nl : Z) (m : mem) (node : Z) : option mem :=
  let ndx := mm_size2ndx m.[f_size node] in
  let head := nodelist_entry nl ndx in
  '(prev, next) ← find_slot fuel m m.[f_size node] head m.[f_flink head];
  let m := m.[f_flink prev <- node] in
  let m := m.[f_blink node <- prev] in
  let m := m.[f_flink node <- next] in
  Some (if next =? 0 then m else m.[f_blink next <- node]).

(** The removal of a node from the list, written out in [mm_malloc],
    [mm_free], [mm_shrinkchunk] and [mm_realloc]. *)
Definition mm_unlink (m : mem) (node : Z) : option mem :=
  if m.[f_blink node] =? 0 then None
  else
    let m := m.[f_flink m.[f_blink node] <- m.[f_flink node]] in
    Some (if m.[f_flink node] =? 0 then m
          else m.[f_blink m.[f_flink node] <- m.[f_blink node]]).

Definition is_free (m : mem) (node : Z) : bool := Z.land m.[f_preceding node] MM_ALLOC_BIT =? 0.

(** [node->preceding = size | (node->preceding & MM_ALLOC_BIT)]. *)
Definition set_preceding (m : mem) (node size : Z) : mem :=
  m.[f_preceding node <- Z.lor size (Z.land m.[f_preceding node] MM_ALLOC_BIT)].

(** ** mm_malloc *)

(** The search loop of [mm_malloc]. *)
Fixpoint find_fit (fuel : nat) (m : mem) (size node : Z) : option Z :=
  match fuel with
  | O => None
  | S fuel =>
      if negb (node =? 0) && (m.[f_size node] <? size)
      then find_fit fuel m size m.[f_flink node]
      else Some node
  end.

(** The memory effect of taking [size] bytes out of the free chunk [node]. *)
Definition malloc_carve (fuel : nat) (nl : Z) (m : mem) (node size : Z) : option mem :=
  m ← mm_unlink m node;
  let remaining := u32 (m.[f_size node] - size) in
  m ← (if SIZEOF_MM_FREENODE <=? remaining then
         let next := node + m.[f_size node] in
         let remainder := node + size in
         let m := m.[f_size remainder <- remaining] in
         let m := m.[f_preceding remainder <- size] in
         let m := m.[f_size node <- size] in
         let m := set_preceding m next remaining in
         mm_addfreechunk fuel nl m remainder
       else Some m);
  Some (m.[f_preceding node <- Z.lor m.[f_preceding node] MM_ALLOC_BIT]).

(** Record the caller in the node and charge the node to it. *)
Definition heapinfo_charge (e : env) (h : mm_heap_s) (node caller_retaddr : Z) : mm_heap_s :=
  let m := heapinfo_update_node e (mm_mem h) node caller_retaddr in
  let h := with_mem h m in
  let h := heapinfo_add_size (node_pid m node) m.[f_size node] h in
  heapinfo_update_total_size h (i32 m.[f_size node]).

(** Take the node's recorded size off its owner and off the heap's total. *)
Definition heapinfo_discharge (h : mm_heap_s) (node size : Z) : mm_heap_s :=
  let h := heapinfo_subtract_size (node_pid (mm_mem h) node) size h in
  heapinfo_update_total_size h (i32 (u32 (- size))).

#[global] Arguments heapinfo_charge : simpl never.
#[global] Arguments heapinfo_discharge : simpl never.

Definition mm_malloc (e : env) (h : mm_heap_s) (size caller_retaddr : Z) : option (Z * mm_heap_s) :=
  if size <? 1 then Some (0, h)
  else
    let size := MM_ALIGN_UP (u32 (size + SIZEOF_MM_ALLOCNODE)) in
    h ← mm_takesemaphore e h;
    let m := mm_mem h in
    let ndx := if MM_MAX_CHUNK <=? size then MM_NNODES - 1 else mm_size2ndx size in
    node ← find_fit (list_fuel h) m size m.[f_flink (nodelist_entry (mm_nodelist h) ndx)];
    if node =? 0 then
      h ← mm_givesemaphore e h;
      Some (0, h)
    else
      m ← malloc_carve (list_fuel h) (mm_nodelist h) m node size;
      let h := heapinfo_charge e (with_mem h m) node caller_retaddr in
      h ← mm_givesemaphore e h;
      Some (node + SIZEOF_MM_ALLOCNODE, h).

(** ** mm_free *)

(** The merge with the following chunk: the memory and the new [next]. *)
Definition free_merge_next (m : mem) (node : Z) : option (mem * Z) :=
  let next := node + m.[f_size node] in
  if is_free m next then
    let andbeyond := next + m.[f_size next] in
    m ← mm_unlink m next;
    let m := m.[f_size node <- u32 (m.[f_size node] + m.[f_size next])] in
    let m := set_preceding m andbeyond m.[f_size node] in
    Some (m, andbeyond)
  else Some (m, next).

(** The merge with the preceding chunk: the memory and the merged node. *)
Definition free_merge_prev (m : mem) (node next : Z) : option (mem * Z) :=
  let prev := node - m.[f_preceding node] in
  if is_free m prev then
    m ← mm_unlink m prev;
    let m := m.[f_size prev <- u32 (m.[f_size prev] + m.[f_size node])] in
    let m := set_preceding m next m.[f_size prev] in
    Some (m, prev)
  else Some (m, node).

Definition free_chunk (fuel : nat) (nl : Z) (m : mem) (node : Z) : option mem :=
  let m := m.[f_preceding node <- Z.land m.[f_preceding node] (u32 (Z.lnot MM_ALLOC_BIT))] in
  '(m, next) ← free_merge_next m node;
  '(m, node) ← free_merge_prev m node next;
  mm_addfreechunk fuel nl m node.

Definition mm_free (e : env) (h : mm_heap_s) (ptr : Z) : option mm_heap_s :=
  if ptr =? 0 then Some h
  else
    h ← mm_takesemaphore e h;
    let node := ptr - SIZEOF_MM_ALLOCNODE in
    let h := if is_free (mm_mem h) node then h
             else heapinfo_discharge h node (mm_mem h).[f_size node] in
    m ← free_chunk (list_fuel h) (mm_nodelist h) (mm_mem h) node;
    mm_givesemaphore e (with_mem h m).

(** ** mm_shrinkchunk *)

Definition mm_shrinkchunk (fuel : nat) (nl : Z) (m : mem) (node size : Z) : option mem :=
  let next := node + m.[f_size node] in
  if is_free m next then
    let andbeyond := next + m.[f_size next] in
    m ← mm_unlink m next;
    let newnode := node + size in
    let m := m.[f_size newnode <- u32 (m.[f_size next] + m.[f_size node] - size)] in
    let m := m.[f_preceding newnode <- size] in
    let m := m.[f_size node <- size] in
    let m := set_preceding m andbeyond m.[f_size newnode] in
    mm_addfreechunk fuel nl m newnode
  else if u32 (size + SIZEOF_MM_FREENODE) <=? m.[f_size node] then
    let newnode := node + size in
    let m := m.[f_size newnode <- u32 (m.[f_size node] - size)] in
    let m := m.[f_preceding newnode <- size] in
    let m := m.[f_size node <- size] in
    let m := m.[f_preceding next <- Z.lor m.[f_size newnode] MM_ALLOC_BIT] in
    mm_addfreechunk fuel nl m newnode
  else Some m.

(** ** mm_realloc *)

(** [memcpy] over [n] words, lowest address first (lib/libc/string/lib_memcpy.c
    copies upwards; the heap copies whole words only). *)
Fixpoint memcpy_words (m : mem) (dst src : Z) (n : nat) : mem :=
  match n with
  | O => m
  | S n => memcpy_words (m.[dst <- m.[src]]) (dst + 4) (src + 4) n
  end.

(** How much to take from the free neighbours: [takeprev] and [takenext]. *)
Definition realloc_take (prevsize nextsize needed : Z) : Z * Z :=
  let '(takeprev, takenext, needed) :=
    if (0 <? prevsize) && ((prevsize <=? nextsize) || (nextsize <? 1)) then
      if prevsize <? needed then (prevsize, needed - prevsize, 0) else (needed, 0, 0)
    else (0, 0, needed) in
  if (0 <? nextsize) && negb (needed =? 0) then
    if nextsize <? needed then (needed - nextsize, nextsize) else (0, needed)
  else (takeprev, takenext).

(** The headers of the extension into the previous free chunk, already off
    the node list: the memory and the new node. *)
Definition realloc_prev_headers (fuel : nat) (nl : Z) (m : mem)
    (prev next oldnode oldsize prevsize takeprev : Z) : option (mem * Z) :=
  if SIZEOF_MM_FREENODE <=? prevsize - takeprev then
    let newnode := oldnode - takeprev in
    let m := m.[f_size prev <- u32 (m.[f_size prev] - takeprev)] in
    let m := m.[f_size newnode <- u32 (oldsize + takeprev)] in
    let m := m.[f_preceding newnode <- Z.lor m.[f_size prev] MM_ALLOC_BIT] in
    let m := set_preceding m next m.[f_size newnode] in
    m ← mm_addfreechunk fuel nl m prev;
    Some (m, newnode)
  else
    let takeprev := m.[f_size prev] in
    let newnode := oldnode - takeprev in
    let m := m.[f_size newnode <- u32 (m.[f_size newnode] + oldsize)] in
    let m := m.[f_preceding newnode <- Z.lor m.[f_preceding newnode] MM_ALLOC_BIT] in
    Some (set_preceding m next m.[f_size newnode], newnode).

(** The extension into the previous free chunk: the memory, the new [oldnode]
    and [oldsize].  The user contents are moved down. *)
Definition realloc_prev (fuel : nat) (nl : Z) (m : mem)
    (prev next oldnode oldsize prevsize takeprev : Z) : option (mem * Z * Z) :=
  if takeprev =? 0 then Some (m, oldnode, oldsize)
  else
    m ← mm_unlink m prev;
    '(m, newnode) ← realloc_prev_headers fuel nl m prev next oldnode oldsize prevsize takeprev;
    let newsize := m.[f_size newnode] in
    let newmem := newnode + SIZEOF_MM_ALLOCNODE in
    let m := memcpy_words m newmem (oldnode + SIZEOF_MM_ALLOCNODE)
               (Z.to_nat ((newsize - SIZEOF_MM_ALLOCNODE) / 4)) in
    Some (m, newnode, newsize).

(** The extension into the next free chunk. *)
Definition realloc_next (fuel : nat) (nl : Z) (m : mem)
    (next oldnode oldsize nextsize takenext : Z) : option mem :=
  if takenext =? 0 then Some m
  else
    let andbeyond := next + nextsize in
    m ← mm_unlink m next;
    if SIZEOF_MM_FREENODE <=? nextsize - takenext then
      let m := m.[f_size oldnode <- u32 (oldsize + takenext)] in
      let newnode := oldnode + m.[f_size oldnode] in
      let m := m.[f_size newnode <- u32 (nextsize - takenext)] in
      let m := m.[f_preceding newnode <- m.[f_size oldnode]] in
      let m := set_preceding m andbeyond m.[f_size newnode] in
      mm_addfreechunk fuel nl m newnode
    else
      let takenext := nextsize in
      let m := m.[f_size oldnode <- u32 (oldsize + takenext)] in
      Some (set_preceding m andbeyond m.[f_size oldnode]).

Definition mm_realloc (e : env) (h : mm_heap_s) (oldmem size caller_retaddr : Z)
    : option (Z * mm_heap_s) :=
  if oldmem =? 0 then mm_malloc e h size caller_retaddr
  else if size <? 1 then
    h ← mm_free e h oldmem;
    Some (0, h)
  else
    let size := MM_ALIGN_UP (u32 (size + SIZEOF_MM_ALLOCNODE)) in
    let oldnode := oldmem - SIZEOF_MM_ALLOCNODE in
    h ← mm_takesemaphore e h;
    let m := mm_mem h in
    let oldsize := m.[f_size oldnode] in
    if size <=? oldsize then
      h ← (if size <? oldsize then
             let h := heapinfo_discharge h oldnode oldsize in
             m ← mm_shrinkchunk (list_fuel h) (mm_nodelist h) (mm_mem h) oldnode size;
             Some (heapinfo_charge e (with_mem h m) oldnode caller_retaddr)
           else Some h);
      h ← mm_givesemaphore e h;
      Some (oldmem, h)
    else
      let next := oldnode + m.[f_size oldnode] in
      let nextsize := if is_free m next then m.[f_size next] else 0 in
      let prev := oldnode - Z.land m.[f_preceding oldnode] (u32 (Z.lnot MM_ALLOC_BIT)) in
      let prevsize := if is_free m prev then m.[f_size prev] else 0 in
      if size <=? u32 (nextsize + prevsize + oldsize) then
        let '(takeprev, takenext) := realloc_take prevsize nextsize (size - oldsize) in
        let h := heapinfo_discharge h oldnode oldsize in
        '(m, node, nodesize) ← realloc_prev (list_fuel h) (mm_nodelist h) (mm_mem h)
                                 prev next oldnode oldsize prevsize takeprev;
        m ← realloc_next (list_fuel h) (mm_nodelist h) m next node nodesize nextsize takenext;
        let h := heapinfo_charge e (with_mem h m) node caller_retaddr in
        h ← mm_givesemaphore e h;
        Some (node + SIZEOF_MM_ALLOCNODE, h)
      else
        h ← mm_givesemaphore e h;
        '(newmem, h) ← mm_malloc e h size caller_retaddr;
        if newmem =? 0 then Some (0, h)
        else
          let m := memcpy_words (mm_mem h) newmem oldmem (Z.to_nat (oldsize / 4)) in
          h ← mm_free e (with_mem h m) oldmem;
          Some (newmem, h).

(** ** mm_memalign *)

(** Give back the space before the aligned address: the memory, the aligned
    node, the aligned address and its malloc-compatible size. *)
Definition memalign_lead (fuel : nat) (nl : Z) (m : mem) (node rawchunk alignment allocsize : Z)
    : option (mem * Z * Z * Z) :=
  let mask := u32 (alignment - 1) in
  let alignedchunk := Z.land (u32 (rawchunk + mask)) (u32 (Z.lnot mask)) in
  if alignedchunk =? rawchunk then Some (m, node, alignedchunk, allocsize)
  else
    let next := node + m.[f_size node] in
    if alignedchunk <? rawchunk + 8 then None
    else
      let precedingsize := alignedchunk - SIZEOF_MM_ALLOCNODE - node in
      let alignedchunk := if precedingsize <? SIZEOF_MM_FREENODE
                          then alignedchunk + alignment else alignedchunk in
      let newnode := alignedchunk - SIZEOF_MM_ALLOCNODE in
      let precedingsize := newnode - node in
      let m := m.[f_size newnode <- u32 (next - newnode)] in
      let m := m.[f_preceding newnode <- Z.lor precedingsize MM_ALLOC_BIT] in
      let m := m.[f_size node <- precedingsize] in
      let m := m.[f_preceding node <- Z.land m.[f_preceding node] (u32 (Z.lnot MM_ALLOC_BIT))] in
      let m := set_preceding m next m.[f_size newnode] in
      let allocsize := u32 (m.[f_size newnode] - SIZEOF_MM_ALLOCNODE) in
      m ← mm_addfreechunk fuel nl m node;
      Some (m, newnode, alignedchunk, allocsize).

(** What follows the [mm_malloc] of the enlarged chunk, under the semaphore. *)
Definition memalign_fit (e : env) (h : mm_heap_s) (rawchunk alignment size allocsize caller_retaddr : Z)
    : option (Z * mm_heap_s) :=
  h ← mm_takesemaphore e h;
  let node := rawchunk - SIZEOF_MM_ALLOCNODE in
  let h := heapinfo_discharge h node (mm_mem h).[f_size node] in
  '(m, node, alignedchunk, allocsize) ←
    memalign_lead (list_fuel h) (mm_nodelist h) (mm_mem h) node rawchunk alignment allocsize;
  m ← (if size <? allocsize
       then mm_shrinkchunk (list_fuel h) (mm_nodelist h) m node (u32 (size + SIZEOF_MM_ALLOCNODE))
       else Some m);
  let h := heapinfo_charge e (with_mem h m) node caller_retaddr in
  h ← mm_givesemaphore e h;
  Some (alignedchunk, h).

Definition mm_memalign (e : env) (h : mm_heap_s) (alignment size caller_retaddr : Z)
    : option (Z * mm_heap_s) :=
  if alignment <=? MM_MIN_CHUNK then mm_malloc e h size caller_retaddr
  else
    let size := MM_ALIGN_UP size in
    let allocsize := u32 (size + 2 * alignment) in
    '(rawchunk, h) ← mm_malloc e h allocsize caller_retaddr;
    if rawchunk =? 0 then Some (0, h)
    else memalign_fit e h rawchunk alignment size allocsize caller_retaddr.

(** ** mm_zalloc and mm_calloc *)

(** [memset(dst, 0, n)]: whole words, then the low [n mod 4] bytes of the next
    word (the target is little-endian). *)
Fixpoint memzero_words (m : mem) (dst : Z) (n : nat) : mem :=
  match n with
  | O => m
  | S n => memzero_words (m.[dst <- 0]) (dst + 4) n
  end.

Definition memzero (m : mem) (dst n : Z) : mem :=
  let m := memzero_words m dst (Z.to_nat (n / 4)) in
  let last := dst + 4 * (n / 4) in
  if n mod 4 =? 0 then m
  else m.[last <- m.[last] - m.[last] mod 2 ^ (8 * (n mod 4))].

Definition mm_zalloc (e : env) (h : mm_heap_s) (size caller_retaddr : Z) : option (Z * mm_heap_s) :=
  '(alloc, h) ← mm_malloc e h size caller_retaddr;
  if alloc =? 0 then Some (0, h)
  else Some (alloc, with_mem h (memzero (mm_mem h) alloc size)).

Definition mm_calloc (e : env) (h : mm_heap_s) (n elem_size caller_retaddr : Z)
    : option (Z * mm_heap_s) :=
  if (0 <? n) && (0 <? elem_size)
  then mm_zalloc e h (u32 (n * elem_size)) caller_retaddr
  else Some (0, h).

(** ** Regions: mm_addregion, mm_initialize, mm_extend, mm_brkaddr *)

Definition mm_addregion (e : env) (h : mm_heap_s) (heapstart heapsize : Z) : option mm_heap_s :=
  let heapbase := MM_ALIGN_UP heapstart in
  let heapend := MM_ALIGN_DOWN (u32 (heapstart + heapsize)) in
  let heapsize := u32 (heapend - heapbase) in
  let h := with_heapsize h (u32 (mm_heapsize h + heapsize)) in
  let m := mm_mem h in
  let m := m.[f_size heapbase <- SIZEOF_MM_ALLOCNODE] in
  let m := m.[f_preceding heapbase <- MM_ALLOC_BIT] in
  let m := heapinfo_update_node e m heapbase 57005 in
  let node := heapbase + SIZEOF_MM_ALLOCNODE in
  let m := m.[f_size node <- u32 (heapsize - 2 * SIZEOF_MM_ALLOCNODE)] in
  let m := m.[f_preceding node <- SIZEOF_MM_ALLOCNODE] in
  let tail := heapend - SIZEOF_MM_ALLOCNODE in
  let m := m.[f_size tail <- SIZEOF_MM_ALLOCNODE] in
  let m := m.[f_preceding tail <- Z.lor m.[f_size node] MM_ALLOC_BIT] in
  let m := heapinfo_update_node e m tail 3735936685 in
  let h := with_region h heapbase tail in
  m ← mm_addfreechunk (list_fuel h) (mm_nodelist h) m node;
  Some (with_mem h m).

(** The loop that chains the list heads. *)
Fixpoint link_nodes (n : nat) (nl i : Z) (m : mem) : mem :=
  match n with
  | O => m
  | S n =>
      let m := m.[f_flink (nodelist_entry nl (i - 1)) <- nodelist_entry nl i] in
      let m := m.[f_blink (nodelist_entry nl i) <- nodelist_entry nl (i - 1)] in
      link_nodes n nl (i + 1) m
  end.

Definition mm_initialize (e : env) (h : mm_heap_s) (heapstart heapsize : Z) : option mm_heap_s :=
  let h := with_heapsize h 0 in
  let nl := mm_nodelist h in
  let m := memzero_words (mm_mem h) nl (Z.to_nat (SIZEOF_MM_FREENODE * MM_NNODES / 4)) in
  let m := link_nodes (Z.to_nat (MM_NNODES - 1)) nl 1 m in
  mm_addregion e (mm_seminitialize (with_mem h m)) heapstart heapsize.

Definition MIN_EXTEND : Z := 2 * SIZEOF_MM_ALLOCNODE.

Definition mm_extend (e : env) (h : mm_heap_s) (block size region : Z) : option mm_heap_s :=
  let blockend := u32 (block + size) in
  if negb ((negb (block =? 0)) && (MIN_EXTEND <=? size) && (region =? 0)
           && (MM_ALIGN_UP block =? block) && (MM_ALIGN_DOWN blockend =? blockend))
  then None
  else
    h ← mm_takesemaphore e h;
    let oldnode := mm_heapend h in
    if negb (oldnode + SIZEOF_MM_ALLOCNODE =? block) then None
    else
      let m := mm_mem h in
      let m := m.[f_size oldnode <- size] in
      if is_free m oldnode then None
      else
        let newnode := blockend - SIZEOF_MM_ALLOCNODE in
        let m := m.[f_size newnode <- SIZEOF_MM_ALLOCNODE] in
        let m := m.[f_preceding newnode <- Z.lor m.[f_size oldnode] MM_ALLOC_BIT] in
        let h := with_region (with_mem h m) (mm_heapstart h) newnode in
        h ← mm_givesemaphore e h;
        mm_free e h block.

Definition mm_brkaddr (h : mm_heap_s) : Z :=
  if mm_heapend h =? 0 then 0 else mm_heapend h + SIZEOF_MM_ALLOCNODE.

(** ** mm_mallinfo *)

(** [struct mallinfo]. *)
Record mallinfo := mk_mallinfo {
  arena : Z;
  ordblks : Z;
  mxordblk : Z;
  uordblks : Z;
  fordblks : Z
}.

(** The walk over the nodes of the region: the node it stops at and the sums. *)
Fixpoint mallinfo_walk (fuel : nat) (m : mem) (node heapend ordblks mxordblk uordblks fordblks : Z)
    : option (Z * Z * Z * Z * Z) :=
  match fuel with
  | O => None
  | S fuel =>
      if node <? heapend then
        let next := node + m.[f_size node] in
        if is_free m node then
          mallinfo_walk fuel m next heapend (ordblks + 1)
            (if mxordblk <? m.[f_size node] then m.[f_size node] else mxordblk)
            uordblks (u32 (fordblks + m.[f_size node]))
        else mallinfo_walk fuel m next heapend ordblks mxordblk
               (u32 (uordblks + m.[f_size node])) fordblks
      else Some (node, ordblks, mxordblk, uordblks, fordblks)
  end.

Definition mm_mallinfo (e : env) (h : mm_heap_s) : option (mallinfo * mm_heap_s) :=
  h ← mm_takesemaphore e h;
  '(node, ordblks, mxordblk, uordblks, fordblks) ←
    mallinfo_walk (list_fuel h) (mm_mem h) (mm_heapstart h) (mm_heapend h) 0 0 0 0;
  h ← mm_givesemaphore e h;
  if negb (node =? mm_heapend h) then None
  else
    let uordblks := u32 (uordblks + SIZEOF_MM_ALLOCNODE) in
    if negb (u32 (uordblks + fordblks) =? mm_heapsize h) then None
    else Some (mk_mallinfo (mm_heapsize h) ordblks mxordblk uordblks fordblks, h).
