(* ===== verification/MmFreeList.v ===== *)
(** * The kernel heap: the ordered, doubly linked node list

    The list that [mm_addfreechunk] (mm_addfreechunk.c) inserts into and that
    [mm_malloc], [mm_free], [mm_shrinkchunk] and [mm_realloc] unlink from: the
    19 list heads of [mm_nodelist] chained with the free chunks, ordered so
    that a bucket's chunks follow its head in order of size. *)

From stdpp Require Import base tactics numbers list sorting gmap.
From S2P Require Import Prelude MmHeap.

Ltac fields := unfold f_size, f_preceding, f_flink, f_blink, f_alloc_call_addr, f_pid_reserved in *.

(** ** Representation *)

(** [dlseg m p l n]: the nodes [l] are linked both ways in [m], entered from
    [p] and left towards [n]. *)
Fixpoint dlseg (m : mem) (p : Z) (l : list Z) (n : Z) : Prop :=
  match l with
  | [] => True
  | x :: l' => m.[f_blink x] = p /\ m.[f_flink x] = default n (head l') /\ dlseg m x l' n
  end.

(** Node records of 16 bytes do not overlap. *)
Definition spaced (l : list Z) : Prop :=
  forall x y, x ∈ l -> y ∈ l -> x = y \/ x + 16 <= y \/ y + 16 <= x.

Definition is_head (nl x : Z) : Prop := exists i, 0 <= i < 19 /\ x = nl + 16 * i.

(** The position of a node in the order: head [i] stands just before the sizes
    of its bucket, [2^(i+4)] to [2^(i+5) - 1] (doubled to leave room). *)
Definition key (m : mem) (nl x : Z) : Z :=
  if (nl <=? x) && (x <? nl + 304) then 2 ^ ((x - nl) / 16 + 5) - 1 else 2 * m.[f_size x].

Record free_list (m : mem) (nl : Z) (fl : list Z) : Prop := {
  fl_heads : forall i, 0 <= i < 19 -> m.[f_size (nl + 16 * i)] = 0;
  fl_links : dlseg m 0 fl 0;
  fl_sorted : StronglySorted (fun x y => key m nl x <= key m nl y) fl;
  fl_nodup : NoDup fl;
  fl_spaced : spaced fl;
  fl_pos : forall x, x ∈ fl -> 0 < x;
  fl_nodelist : forall i, 0 <= i < 19 -> nl + 16 * i ∈ fl;
  fl_chunk : forall x, x ∈ fl -> is_head nl x \/ 16 <= m.[f_size x] < 2147483648
}.

(** [m'] differs from [m] only in the link words of the nodes [l]. *)
Definition same_but_links (l : list Z) (m m' : mem) : Prop :=
  forall b, (forall y, y ∈ l -> b <> f_flink y /\ b <> f_blink y) -> m'.[b] = m.[b].

(** ** Links *)

Lemma dlseg_app m p l1 l2 n :
  dlseg m p (l1 ++ l2) n <->
  dlseg m p l1 (default n (head l2)) /\ dlseg m (default p (last l1)) l2 n.
Proof.
  revert p. induction l1 as [|x l1 IH]; intros p; simpl; [naive_solver|].
  rewrite IH. replace (default n (head (l1 ++ l2))) with (default (default n (head l2)) (head l1))
    by (by destruct l1).
  replace (default p (last (x :: l1))) with (default x (last l1)); [naive_solver|].
  destruct l1 as [|y l1]; [done|]. rewrite last_cons_cons.
  destruct (last (y :: l1)) eqn:E; [done|]. by apply last_None in E.
Qed.

Lemma dlseg_ext m m' p l n :
  (forall x, x ∈ l -> m'.[f_blink x] = m.[f_blink x] /\ m'.[f_flink x] = m.[f_flink x]) ->
  dlseg m p l n -> dlseg m' p l n.
Proof.
  revert p. induction l as [|x l IH]; intros p Hext; simpl; [done|].
  intros (Hb & Hf & Hl). destruct (Hext x) as [-> ->]; [set_solver|].
  split_and!; [done..|]. apply IH; [|done]. intros y Hy. apply Hext. set_solver.
Qed.

Lemma spaced_sub l l' : l' ⊆ l -> spaced l -> spaced l'.
Proof. unfold spaced. set_solver. Qed.

Lemma spaced_cons x l :
  spaced l -> (forall y, y ∈ l -> x = y \/ x + 16 <= y \/ y + 16 <= x) -> spaced (x :: l).
Proof.
  unfold spaced. intros Hl Hx a b Ha Hb.
  rewrite elem_of_cons in Ha, Hb. destruct Ha as [-> | Ha], Hb as [-> | Hb].
  - by left.
  - by apply Hx.
  - destruct (Hx a Ha) as [-> | ?]; [by left | lia].
  - by apply Hl.
Qed.

(** ** Buckets *)

Lemma size2ndx_loop_spec fuel ndx size :
  1 <= size < 2 ^ Z.of_nat fuel -> size2ndx_loop fuel ndx size = ndx + Z.log2 size.
Proof.
  revert ndx size. induction fuel as [|fuel IH]; intros ndx size Hs.
  { simpl in Hs. lia. }
  simpl. destruct (Z.ltb_spec 1 size) as [Hgt | Hle].
  - rewrite Z.shiftr_div_pow2, Z.pow_1_r by lia.
    assert (Hh : size / 2 < 2 ^ Z.of_nat fuel).
    { rewrite Nat2Z.inj_succ, Z.pow_succ_r in Hs by lia. apply Z.div_lt_upper_bound; lia. }
    assert (1 <= size / 2) by (apply Z.div_le_lower_bound; lia).
    rewrite IH by lia.
    pose proof (Z.log2_shiftr size 1 ltac:(lia)) as Hlog.
    rewrite Z.shiftr_div_pow2, Z.pow_1_r in Hlog by lia.
    assert (1 <= Z.log2 size) by (apply Z.log2_le_pow2; lia). lia.
  - replace size with 1 by lia. simpl. lia.
Qed.

Lemma mm_size2ndx_log2 size :
  16 <= size -> mm_size2ndx size = Z.min 18 (Z.log2 size - 4).
Proof.
  intros Hs. unfold mm_size2ndx, MM_MAX_CHUNK, MM_NNODES, MM_MIN_SHIFT.
  destruct (Z.leb_spec 4194304 size).
  - assert (22 <= Z.log2 size) by (apply Z.log2_le_pow2; lia). lia.
  - assert (Z.log2 size < 22) by (apply Z.log2_lt_pow2; lia).
    assert (4 <= Z.log2 size) by (apply Z.log2_le_pow2; lia).
    rewrite size2ndx_loop_spec, Z.log2_shiftr by
      (rewrite ?Z.shiftr_div_pow2 by lia; try split;
       first [apply Z.div_le_lower_bound; lia | apply Z.div_lt_upper_bound; lia | lia]).
    lia.
Qed.

Lemma mm_size2ndx_bucket size :
  16 <= size ->
  let i := mm_size2ndx size in
  0 <= i < 19 /\ 2 ^ (i + 4) <= size /\ (i < 18 -> size < 2 ^ (i + 5)).
Proof.
  intros Hs i. subst i. rewrite mm_size2ndx_log2 by done.
  assert (4 <= Z.log2 size) by (apply Z.log2_le_pow2; lia).
  destruct (Z.log2_spec size) as [Hlo Hhi]; [lia|].
  split; [lia|]. split.
  - etransitivity; [|exact Hlo]. apply Z.pow_le_mono_r; lia.
  - intros. replace (Z.min 18 (Z.log2 size - 4) + 5) with (Z.succ (Z.log2 size)) by lia. done.
Qed.

Lemma key_head m nl i : 0 <= i < 19 -> key m nl (nl + 16 * i) = 2 ^ (i + 5) - 1.
Proof.
  intros Hi. unfold key.
  destruct (Z.leb_spec nl (nl + 16 * i)); [|lia].
  destruct (Z.ltb_spec (nl + 16 * i) (nl + 304)); [|lia].
  simpl. replace ((nl + 16 * i - nl) / 16) with i; [done|].
  replace (nl + 16 * i - nl) with (i * 16) by lia. by rewrite Z.div_mul.
Qed.

Lemma is_head_dec nl x : Decision (is_head nl x).
Proof.
  destruct (decide (nl <= x < nl + 304 /\ (x - nl) mod 16 = 0)) as [[Hr Hm] | Hn].
  - left. exists ((x - nl) / 16). pose proof (Z.div_mod (x - nl) 16). lia.
  - right. intros (i & Hi & ->). apply Hn. split; [lia|].
    replace (nl + 16 * i - nl) with (i * 16) by lia. by apply Z.mod_mul.
Defined.
#[export] Existing Instance is_head_dec.

Lemma outside_heads nl (fl : list Z) x :
  (forall i, 0 <= i < 19 -> nl + 16 * i ∈ fl) ->
  (forall y, y ∈ fl -> x = y \/ x + 16 <= y \/ y + 16 <= x) ->
  ~ is_head nl x -> x + 16 <= nl \/ nl + 304 <= x.
Proof.
  intros Hnl Hsp Hn. destruct (decide (x + 16 <= nl)) as [|H1]; [by left|].
  destruct (decide (nl + 304 <= x)) as [|H2]; [by right|]. exfalso. apply Hn.
  destruct (decide (x < nl)).
  - pose proof (Hsp _ (Hnl 0 ltac:(lia))). lia.
  - exists ((x - nl) / 16).
    pose proof (Z.div_mod (x - nl) 16). pose proof (Z.mod_pos_bound (x - nl) 16).
    pose proof (Hsp _ (Hnl ((x - nl) / 16) ltac:(lia))). lia.
Qed.

(** A member of the list that is not a head is outside the array of heads. *)
Lemma not_head_outside m nl fl x :
  free_list m nl fl -> x ∈ fl -> ~ is_head nl x -> x + 16 <= nl \/ nl + 304 <= x.
Proof.
  intros Hfl Hx. apply outside_heads with fl; [apply Hfl|].
  intros y Hy. by apply (fl_spaced _ _ _ Hfl).
Qed.

Lemma key_chunk m nl x : x + 16 <= nl \/ nl + 304 <= x -> key m nl x = 2 * m.[f_size x].
Proof.
  intros Hx. unfold key.
  destruct (Z.leb_spec nl x), (Z.ltb_spec x (nl + 304)); simpl; lia.
Qed.

Lemma key_ext m m' nl x : m'.[f_size x] = m.[f_size x] -> key m' nl x = key m nl x.
Proof. unfold key. intros ->. done. Qed.

Lemma StronglySorted_impl_elem {A} (R R' : A -> A -> Prop) l :
  (forall x y, x ∈ l -> y ∈ l -> R x y -> R' x y) -> StronglySorted R l -> StronglySorted R' l.
Proof.
  intros HR. induction 1 as [|x l Hl IH Hx]; constructor.
  - apply IH. intros. apply HR; set_solver.
  - rewrite Forall_forall in *. intros. apply HR; set_solver.
Qed.

(** Changes outside the list's nodes keep the list. *)
Lemma free_list_ext m m' nl fl :
  (forall x, x ∈ fl -> m'.[f_size x] = m.[f_size x] /\ m'.[f_flink x] = m.[f_flink x]
                       /\ m'.[f_blink x] = m.[f_blink x]) ->
  free_list m nl fl -> free_list m' nl fl.
Proof.
  intros Hext [Hh Hl Hs Hn Hsp Hp Hnl Hc]. constructor; try done.
  - intros i Hi. destruct (Hext (nl + 16 * i)) as [-> _]; auto.
  - eapply dlseg_ext; [|done]. intros x Hx. by destruct (Hext x) as (_ & ? & ?).
  - eapply StronglySorted_impl_elem; [|exact Hs]. simpl. intros x y Hx Hy.
    rewrite !(key_ext m m') by (by apply Hext). done.
  - intros x Hx. destruct (Hext x) as [-> _]; auto.
Qed.

(** ** Relinking *)

Lemma dlseg_set_last m m' p l q n n' :
  dlseg m p (l ++ [q]) n ->
  (forall x, x ∈ l -> m'.[f_blink x] = m.[f_blink x] /\ m'.[f_flink x] = m.[f_flink x]) ->
  m'.[f_blink q] = m.[f_blink q] -> m'.[f_flink q] = n' ->
  dlseg m' p (l ++ [q]) n'.
Proof.
  rewrite !dlseg_app. simpl. intros (Hl & Hb & _ & _) Hext Hbq Hfq.
  split_and!; [|by rewrite Hbq|done|done]. by eapply dlseg_ext.
Qed.

Lemma dlseg_set_first m m' p p' q l n :
  dlseg m p (q :: l) n ->
  (forall x, x ∈ l -> m'.[f_blink x] = m.[f_blink x] /\ m'.[f_flink x] = m.[f_flink x]) ->
  m'.[f_flink q] = m.[f_flink q] -> m'.[f_blink q] = p' ->
  dlseg m' p' (q :: l) n.
Proof.
  simpl. intros (_ & Hf & Hl) Hext Hfq Hbq.
  split_and!; [done|by rewrite Hfq|by eapply dlseg_ext].
Qed.

Lemma free_list_shrink m m' nl f1 x f2 :
  free_list m nl (f1 ++ x :: f2) -> ~ is_head nl x ->
  dlseg m' 0 (f1 ++ f2) 0 ->
  (forall y, y ∈ f1 ++ f2 -> m'.[f_size y] = m.[f_size y]) ->
  free_list m' nl (f1 ++ f2).
Proof.
  intros [Hh Hl Hs Hn Hsp Hp Hnl Hc] Hx Hl' Hsz.
  assert (Hsub : f1 ++ f2 ⊆ f1 ++ x :: f2) by set_solver.
  assert (Hheads : forall i, 0 <= i < 19 -> nl + 16 * i ∈ f1 ++ f2).
  { intros i Hi. specialize (Hnl i Hi).
    assert (nl + 16 * i <> x) by (intros <-; apply Hx; by exists i). set_solver. }
  constructor; try done.
  - intros i Hi. rewrite Hsz by auto. by apply Hh.
  - rewrite !StronglySorted_app, ?StronglySorted_cons in Hs.
    destruct Hs as (H12 & H1 & _ & H2). apply StronglySorted_impl_elem with (R := fun x y => key m nl x <= key m nl y).
    { intros a b Ha Hb. rewrite !(key_ext m m') by auto. done. }
    rewrite StronglySorted_app. split_and!; [|done..]. intros a b Ha Hb. apply H12; set_solver.
  - apply NoDup_app in Hn as (H1 & H12 & [Hx2 H2]%NoDup_cons). apply NoDup_app.
    split_and!; [done| |done]. set_solver.
  - eapply spaced_sub; done.
  - intros. apply Hp. set_solver.
  - intros y Hy. rewrite Hsz by done. apply Hc. set_solver.
Qed.

Lemma free_list_grow m m' nl f1 x f2 :
  free_list m nl (f1 ++ f2) -> x ∉ f1 ++ f2 -> spaced (x :: f1 ++ f2) -> 0 < x ->
  16 <= m'.[f_size x] < 2147483648 ->
  dlseg m' 0 (f1 ++ x :: f2) 0 ->
  (forall y, y ∈ f1 ++ f2 -> m'.[f_size y] = m.[f_size y]) ->
  (forall y, y ∈ f1 -> key m nl y <= 2 * m'.[f_size x]) ->
  (forall y, y ∈ f2 -> 2 * m'.[f_size x] <= key m nl y) ->
  x + 16 <= nl \/ nl + 304 <= x ->
  free_list m' nl (f1 ++ x :: f2).
Proof.
  intros [Hh Hl Hs Hn Hsp Hp Hnl Hc] Hx Hsp' Hpos Hsize Hl' Hsz H1 H2 Hout.
  constructor; try done.
  - intros i Hi. rewrite Hsz by auto. by apply Hh.
  - apply StronglySorted_app in Hs as (H12 & Hs1 & Hs2).
    rewrite StronglySorted_app, StronglySorted_cons, Forall_forall. split_and!.
    + intros a b Ha Hb. rewrite (key_ext m m' _ a) by (apply Hsz; set_solver).
      apply elem_of_cons in Hb as [-> | Hb].
      * rewrite (key_chunk m') by done. auto.
      * rewrite (key_ext m m') by (apply Hsz; set_solver). apply H12; done.
    + eapply StronglySorted_impl_elem; [|exact Hs1]. simpl. intros.
      rewrite !(key_ext m m') by (apply Hsz; set_solver). done.
    + intros b Hb. rewrite (key_chunk m'), (key_ext m m') by (done || (apply Hsz; set_solver)). auto.
    + eapply StronglySorted_impl_elem; [|exact Hs2]. simpl. intros.
      rewrite !(key_ext m m') by (apply Hsz; set_solver). done.
  - apply NoDup_app in Hn as (? & ? & ?). apply NoDup_app.
    split_and!; [done| |apply NoDup_cons; set_solver].
    intros y Hy. apply not_elem_of_cons. split; [|auto]. intros ->. set_solver.
  - eapply spaced_sub; [|done]. set_solver.
  - intros y Hy. destruct (decide (y = x)) as [-> | ]; [done|]. apply Hp. set_solver.
  - intros i Hi. specialize (Hnl i Hi). set_solver.
  - intros y Hy. destruct (decide (y = x)) as [-> | ]; [by right|].
    rewrite Hsz by set_solver. apply Hc. set_solver.
Qed.

(** The first list head precedes every chunk. *)
Lemma chunk_has_pred m nl f1 x f2 :
  free_list m nl (f1 ++ x :: f2) -> ~ is_head nl x -> exists f1' p, f1 = f1' ++ [p].
Proof.
  intros Hfl Hx. assert (Hout := not_head_outside _ _ _ x Hfl ltac:(set_solver) Hx).
  destruct Hfl as [Hh Hl Hs Hn Hsp Hp Hnl Hc].
  destruct f1 as [|y f1 _] using rev_ind; [|by eauto]. exfalso. simpl in *.
  apply StronglySorted_cons in Hs as [Hk _]. rewrite Forall_forall in Hk.
  pose proof (Hnl 0 ltac:(lia)) as H0.
  assert (nl + 16 * 0 ∈ f2).
  { apply elem_of_cons in H0 as [<- | ?]; [|done]. exfalso. apply Hx. exists 0. lia. }
  specialize (Hk (nl + 16 * 0) ltac:(done)).
  rewrite key_head, key_chunk in Hk by (lia || done).
  destruct (Hc x) as [? | ?]; [set_solver|done|].
  change (2 ^ (0 + 5)) with 32 in Hk. lia.
Qed.

(** [p] is made to point to [n] and, unless it is null, [n] back to [p]. *)
Definition link (p n : Z) (m : mem) : mem :=
  let m := m.[f_flink p <- n] in if n =? 0 then m else m.[f_blink n <- p].

Lemma link_other p n m b :
  b <> f_flink p -> (n <> 0 -> b <> f_blink n) -> (link p n m).[b] = m.[b].
Proof.
  intros. unfold link. destruct (Z.eqb_spec n 0); rewrite ?load_store_ne by auto; done.
Qed.

Lemma link_flink p n m : (n <> 0 -> f_flink p <> f_blink n) -> (link p n m).[f_flink p] = n.
Proof.
  intros. unfold link. destruct (Z.eqb_spec n 0); rewrite ?load_store_ne, load_store_eq by auto; done.
Qed.

Lemma link_blink p n m : n <> 0 -> (link p n m).[f_blink n] = p.
Proof. intros. unfold link. destruct (Z.eqb_spec n 0); [done|]. by rewrite load_store_eq. Qed.

(** Two segments are joined by one [link]. *)
Lemma dlseg_link m p0 f1 p a b f2 :
  dlseg m p0 (f1 ++ [p]) a -> dlseg m b f2 0 ->
  NoDup ((f1 ++ [p]) ++ f2) -> spaced ((f1 ++ [p]) ++ f2) ->
  (forall x, x ∈ (f1 ++ [p]) ++ f2 -> 0 < x) ->
  dlseg (link p (default 0 (head f2)) m) p0 ((f1 ++ [p]) ++ f2) 0.
Proof.
  intros H1 H2 Hnd Hsp Hpos. set (n := default 0 (head f2)).
  apply NoDup_app in Hnd as (Hnd1 & Hd & Hnd2).
  apply NoDup_app in Hnd1 as (_ & Hd1 & _).
  assert (Hsepp : forall y, y ∈ f1 ++ f2 -> y + 16 <= p \/ p + 16 <= y).
  { intros y Hy. destruct (Hsp y p) as [-> | ?]; [set_solver..| |done]. set_solver. }
  assert (Hsepn : n <> 0 -> forall y, y ∈ (f1 ++ [p]) ++ tail f2 -> y + 16 <= n \/ n + 16 <= y).
  { intros Hn y Hy. destruct f2 as [|n' f2]; [done|]. simpl in n. subst n.
    apply NoDup_cons in Hnd2 as [? ?].
    destruct (Hsp y n') as [-> | ?]; [set_solver..| |done]. set_solver. }
  assert (Hother : forall y, y ∈ f1 ++ tail f2 ->
            (link p n m).[f_blink y] = m.[f_blink y] /\ (link p n m).[f_flink y] = m.[f_flink y]).
  { intros y Hy. assert (Hy2 : y ∈ f1 ++ f2) by (destruct f2; set_solver).
    specialize (Hsepp y Hy2).
    assert (n <> 0 -> y + 16 <= n \/ n + 16 <= y) by (intros; apply Hsepn; [done | set_solver]).
    split; apply link_other; fields; lia. }
  assert (Hpn : n <> 0 -> p + 16 <= n \/ n + 16 <= p) by (intros; apply Hsepn; [done | set_solver]).
  apply dlseg_app. split.
  - eapply dlseg_set_last; [exact H1| | |].
    + intros y Hy. apply Hother. set_solver.
    + apply link_other; fields; lia.
    + apply link_flink. fields; lia.
  - rewrite last_snoc. simpl. destruct f2 as [|n' f2]; [done|]. simpl in n. subst n.
    specialize (Hpos n' ltac:(set_solver)).
    eapply dlseg_set_first; [exact H2| | |].
    + intros y Hy. apply Hother. set_solver.
    + apply link_other; fields; [|lia]. specialize (Hsepp n' ltac:(set_solver)). lia.
    + apply link_blink. lia.
Qed.

(** ** Removal *)

Lemma mm_unlink_spec m nl f1 x f2 :
  free_list m nl (f1 ++ x :: f2) -> ~ is_head nl x ->
  exists m', mm_unlink m x = Some m' /\ free_list m' nl (f1 ++ f2) /\ same_but_links (f1 ++ f2) m m'.
Proof.
  intros Hfl Hx. destruct (chunk_has_pred _ _ _ _ _ Hfl Hx) as (f1' & p & ->).
  pose proof (fl_links _ _ _ Hfl) as Hl. pose proof (fl_spaced _ _ _ Hfl) as Hsp.
  pose proof (fl_nodup _ _ _ Hfl) as Hnd. pose proof (fl_pos _ _ _ Hfl) as Hpos.
  apply dlseg_app in Hl as [Hl1 Hl2]. rewrite last_snoc in Hl2. simpl in Hl1, Hl2.
  destruct Hl2 as (Hxb & Hxf & Hl2). set (n := default 0 (head f2)) in *.
  assert (Hp0 : 0 < p) by (apply Hpos; set_solver).
  apply NoDup_app in Hnd as (Hnd1 & Hd1 & [Hx2 Hnd2]%NoDup_cons).
  assert (Hxp : x + 16 <= p \/ p + 16 <= x).
  { destruct (Hsp x p) as [-> | ?]; [set_solver..| |done]. set_solver. }
  assert (Hn : n = 0 \/ n ∈ f2) by (subst n; destruct f2; set_solver).
  exists (link p n m). split; [|split].
  - unfold mm_unlink. rewrite Hxb, Hxf. destruct (Z.eqb_spec p 0); [lia|].
    rewrite !load_store_ne, Hxb, Hxf by (fields; lia). done.
  - eapply free_list_shrink; [done..| |].
    + eapply dlseg_link; [exact Hl1|exact Hl2| | |].
      * apply NoDup_app. set_solver.
      * eapply spaced_sub; [|exact Hsp]. set_solver.
      * intros y Hy. apply Hpos. set_solver.
    + intros y Hy. assert (Hpy := Hsp y p ltac:(set_solver) ltac:(set_solver)).
      apply link_other; [fields; lia|]. intros Hn0. destruct Hn as [? | Hn]; [done|].
      assert (Hny := Hsp y n ltac:(set_solver) ltac:(set_solver)). fields; lia.
  - intros b Hb. apply link_other; [apply Hb; set_solver|].
    intros Hn0. apply Hb. destruct Hn; [done|set_solver].
Qed.

(** ** Insertion *)

Lemma find_slot_spec m size f2 fuel prev :
  dlseg m prev f2 0 -> (forall x, x ∈ f2 -> 0 < x) -> (length f2 < fuel)%nat ->
  exists g1 g2, f2 = g1 ++ g2 /\ find_slot fuel m size prev (default 0 (head f2))
      = Some (default prev (last g1), default 0 (head g2)) /\ Forall (fun x => m.[f_size x] <> 0 /\ m.[f_size x] < size) g1 /\ (forall y, head g2 = Some y -> m.[f_size y] = 0 \/ size <= m.[f_size y]).
Proof.
  revert fuel prev. induction f2 as [|x f2 IH]; intros fuel prev Hl Hpos Hfuel.
  { exists [], []. destruct fuel; [simpl in *; lia|]. naive_solver. }
  destruct fuel as [|fuel]; [lia|]. destruct Hl as (_ & Hf & Hl). simpl.
  assert (0 < x) by (apply Hpos; set_solver).
  destruct (Z.eqb_spec x 0); [lia|].
  destruct (Z.eqb_spec m.[f_size x] 0) as [Hz | Hz]; simpl.
  { exists [], (x :: f2). naive_solver. }
  destruct (Z.ltb_spec m.[f_size x] size) as [Hlt | Hge].
  - rewrite Hf. destruct (IH fuel x Hl) as (g1 & g2 & -> & Hs & Hg1 & Hg2);
      [set_solver|simpl in *; lia|].
    exists (x :: g1), g2. split_and!; [done| |by constructor|done].
    rewrite Hs. by rewrite last_cons; destruct (last g1).
  - exists [], (x :: f2). naive_solver.
Qed.

Lemma head_size_zero m nl fl x :
  free_list m nl fl -> x ∈ fl -> (is_head nl x <-> m.[f_size x] = 0).
Proof.
  intros Hfl Hx. split.
  - intros (i & Hi & ->). by apply (fl_heads _ _ _ Hfl).
  - intros Hz. destruct (fl_chunk _ _ _ Hfl x Hx) as [? | ?]; [done | lia].
Qed.

Lemma key_nonhead m nl fl x :
  free_list m nl fl -> x ∈ fl -> m.[f_size x] <> 0 -> key m nl x = 2 * m.[f_size x].
Proof.
  intros Hfl Hx Hz. apply key_chunk. eapply not_head_outside; [done..|].
  by rewrite (head_size_zero m nl fl).
Qed.

(** Everything up to the end of the skipped part sorts before [size]. *)
Lemma slot_before m nl f1 g1 g2 size :
  let hd := nl + 16 * mm_size2ndx size in
  free_list m nl (f1 ++ hd :: g1 ++ g2) -> 16 <= size ->
  Forall (fun x => m.[f_size x] <> 0 /\ m.[f_size x] < size) g1 ->
  forall y, y ∈ f1 ++ hd :: g1 -> key m nl y <= 2 * size.
Proof.
  intros hd Hfl Hs Hg1 y Hy. destruct (mm_size2ndx_bucket size Hs) as (Hi & Hlo & _).
  assert (Hhd : key m nl hd <= 2 * size).
  { subst hd. rewrite key_head by done.
    replace (mm_size2ndx size + 5) with (Z.succ (mm_size2ndx size + 4)) by lia.
    rewrite Z.pow_succ_r by lia. lia. }
  pose proof (fl_sorted _ _ _ Hfl) as Hso. apply StronglySorted_app in Hso as (H12 & _ & _).
  apply elem_of_app in Hy as [Hy | [-> | Hy]%elem_of_cons]; [|done|].
  - specialize (H12 y hd Hy ltac:(set_solver)). simpl in H12. lia.
  - rewrite Forall_forall in Hg1. destruct (Hg1 y Hy).
    rewrite (key_nonhead m nl (f1 ++ hd :: g1 ++ g2)) by (done || set_solver). lia.
Qed.

(** Everything from the stopping point on sorts after [size]. *)
Lemma slot_after m nl f1 g1 g2 size :
  let hd := nl + 16 * mm_size2ndx size in
  free_list m nl (f1 ++ hd :: g1 ++ g2) -> 16 <= size ->
  (forall y, head g2 = Some y -> m.[f_size y] = 0 \/ size <= m.[f_size y]) ->
  forall y, y ∈ g2 -> 2 * size <= key m nl y.
Proof.
  intros hd Hfl Hs Hg2 y Hy. destruct (mm_size2ndx_bucket size Hs) as (Hi & Hlo & Hup).
  destruct g2 as [|y0 g2]; [set_solver|]. specialize (Hg2 y0 eq_refl).
  pose proof (fl_sorted _ _ _ Hfl) as Hso. pose proof (fl_nodup _ _ _ Hfl) as Hnd.
  apply StronglySorted_app in Hso as (_ & _ & [Hhd Hso]%StronglySorted_cons).
  apply StronglySorted_app in Hso as (_ & _ & [Hy0 _]%StronglySorted_cons).
  apply NoDup_app in Hnd as (_ & _ & [Hnd _]%NoDup_cons).
  rewrite Forall_forall in Hhd, Hy0.
  assert (Hk0 : 2 * size <= key m nl y0).
  { destruct Hg2 as [Hz | Hge].
    - assert (Hh : is_head nl y0) by (apply (head_size_zero m nl _ _ Hfl); [set_solver|done]).
      destruct Hh as (j & Hj & ->). specialize (Hhd (nl + 16 * j) ltac:(set_solver)).
      subst hd. rewrite !key_head in * by done.
      assert (mm_size2ndx size <> j) by (intros <-; set_solver).
      assert (mm_size2ndx size < j).
      { apply Z.le_neq. split; [|done]. apply Z.nlt_ge. intros Hlt.
        assert (2 ^ (j + 5) < 2 ^ (mm_size2ndx size + 5)) by (apply Z.pow_lt_mono_r; lia). lia. }
      assert (2 ^ (mm_size2ndx size + 6) <= 2 ^ (j + 5)) by (apply Z.pow_le_mono_r; lia).
      replace (mm_size2ndx size + 6) with (Z.succ (mm_size2ndx size + 5)) in * by lia.
      rewrite Z.pow_succ_r in * by lia. lia.
    - rewrite (key_nonhead m nl _ _ Hfl) by (lia || set_solver). lia. }
  apply elem_of_cons in Hy as [-> | Hy]; [done|]. specialize (Hy0 y Hy). simpl in Hy0. lia.
Qed.

(** Where [mm_addfreechunk] inserts a node of the given size. *)
Lemma slot_split m nl fl size fuel :
  let hd := nl + 16 * mm_size2ndx size in
  free_list m nl fl -> 16 <= size -> (length fl < fuel)%nat ->
  exists pre prev g2, fl = (pre ++ [prev]) ++ g2 /\
    find_slot fuel m size hd m.[f_flink hd] = Some (prev, default 0 (head g2)) /\
    (forall y, y ∈ pre ++ [prev] -> key m nl y <= 2 * size) /\
    (forall y, y ∈ g2 -> 2 * size <= key m nl y).
Proof.
  intros hd Hfl Hs Hfuel. destruct (mm_size2ndx_bucket size Hs) as (Hi & _).
  destruct (list_elem_of_split fl hd) as (f1 & f2 & ->); [by apply (fl_nodelist _ _ _ Hfl)|].
  pose proof (fl_links _ _ _ Hfl) as [_ (_ & Hhf & Hl2)]%dlseg_app.
  destruct (find_slot_spec m size f2 fuel hd Hl2) as (g1 & g2 & -> & Hslot & Hg1 & Hg2).
  { intros. apply (fl_pos _ _ _ Hfl). set_solver. }
  { rewrite length_app in Hfuel. simpl in Hfuel. lia. }
  assert (Hpre : exists pre, f1 ++ hd :: g1 = pre ++ [default hd (last g1)]).
  { destruct g1 as [|y g1 _] using rev_ind; [by exists f1|].
    exists (f1 ++ hd :: g1). rewrite last_snoc. simpl. by rewrite <- app_assoc. }
  destruct Hpre as (pre & Hpre).
  exists pre, (default hd (last g1)), g2. rewrite <- Hpre, Hhf, Hslot. split_and!.
  - by rewrite <- app_assoc.
  - done.
  - by eapply slot_before.
  - by eapply slot_after.
Qed.

Lemma dlseg_insert m pre prev g2 node :
  dlseg m 0 ((pre ++ [prev]) ++ g2) 0 ->
  NoDup (node :: (pre ++ [prev]) ++ g2) -> spaced (node :: (pre ++ [prev]) ++ g2) ->
  (forall x, x ∈ node :: (pre ++ [prev]) ++ g2 -> 0 < x) ->
  dlseg (link prev node (link node (default 0 (head g2)) m)) 0 ((pre ++ [prev]) ++ node :: g2) 0.
Proof.
  intros [Hl1 Hl2]%dlseg_app Hnd Hsp Hpos. set (next := default 0 (head g2)) in *.
  assert (Hnext : next = 0 \/ next ∈ g2) by (subst next; destruct g2; set_solver).
  pose proof Hnd as [Hnode (_ & Hd & Hnd2)%NoDup_app]%NoDup_cons.
  apply (dlseg_link _ 0 pre prev next m.[f_blink node] (node :: g2)).
  - eapply dlseg_ext; [|exact Hl1]. intros y Hy.
    destruct (Hsp y node) as [-> | ?]; [set_solver..|].
    assert (next <> 0 -> y + 16 <= next \/ next + 16 <= y).
    { intros. destruct Hnext as [? | Hn]; [done|].
      destruct (Hsp y next) as [E | ?]; [set_solver..| |done]. rewrite <- E in Hn. set_solver. }
    split; apply link_other; fields; lia.
  - apply (dlseg_link m m.[f_blink node] [] node m.[f_flink node] (default 0 (last (pre ++ [prev]))) g2).
    + done.
    + done.
    + apply NoDup_cons. set_solver.
    + eapply spaced_sub; [|exact Hsp]. set_solver.
    + intros. apply Hpos. set_solver.
  - by rewrite <- Permutation_middle.
  - eapply spaced_sub; [|exact Hsp]. set_solver.
  - intros. apply Hpos. set_solver.
Qed.

Lemma mm_addfreechunk_spec m nl fl node fuel :
  free_list m nl fl -> node ∉ fl -> spaced (node :: fl) -> 0 < node ->
  16 <= m.[f_size node] < 2147483648 -> (length fl < fuel)%nat ->
  exists m' f1 f2, fl = f1 ++ f2 /\ mm_addfreechunk fuel nl m node = Some m' /\
    free_list m' nl (f1 ++ node :: f2) /\ same_but_links (node :: fl) m m'.
Proof.
  intros Hfl Hnode Hsp Hpos Hsize Hfuel. set (size := m.[f_size node]) in *.
  destruct (slot_split m nl fl size fuel Hfl ltac:(lia) Hfuel)
    as (pre & prev & g2 & -> & Hslot & Hbefore & Hafter).
  set (next := default 0 (head g2)) in *.
  eexists _, (pre ++ [prev]), g2. split; [done|].
  split; [unfold mm_addfreechunk; fold size; unfold nodelist_entry, SIZEOF_MM_FREENODE;
    rewrite Hslot; simpl; reflexivity|].
  set (m' := if next =? 0 then _ else _).
  assert (Hnext : next = 0 \/ next ∈ g2) by (subst next; destruct g2; set_solver).
  assert (Hm' : forall b, m'.[b] = (link prev node (link node next m)).[b]).
  { intros b. subst m'. unfold link. pose proof (Hsp node prev ltac:(set_solver) ltac:(set_solver)).
    assert (node <> prev) by set_solver.
    assert (next <> 0 -> (node + 16 <= next \/ next + 16 <= node)
                         /\ (next = prev \/ prev + 16 <= next \/ next + 16 <= prev)).
    { intros. destruct Hnext as [? | ?]; [done|]. assert (node <> next) by set_solver.
      pose proof (Hsp node next ltac:(set_solver) ltac:(set_solver)).
      pose proof (Hsp next prev ltac:(set_solver) ltac:(set_solver)). lia. }
    destruct (Z.eqb_spec node 0); [lia|].
    destruct (Z.eqb_spec next 0); rewrite !load_store; repeat case_decide; fields;
      try congruence; try lia. }
  assert (Hframe : same_but_links (node :: (pre ++ [prev]) ++ g2) m m').
  { intros b Hb. rewrite Hm'. rewrite !link_other; [done|..]; intros; apply Hb; set_solver. }
  split; [|done].
  assert (Hsz : forall y, y ∈ node :: (pre ++ [prev]) ++ g2 -> m'.[f_size y] = m.[f_size y]).
  { intros y Hy. apply Hframe. intros z Hz. pose proof (Hsp y z Hy Hz). fields; lia. }
  eapply free_list_grow; [exact Hfl|done..| | | | | |].
  - by rewrite Hsz by set_solver.
  - eapply dlseg_ext; [intros y _; split; apply Hm'|]. apply dlseg_insert.
    + apply Hfl.
    + apply NoDup_cons. split; [done|apply Hfl].
    + done.
    + intros x [-> | Hx]%elem_of_cons; [done|]. by apply (fl_pos _ _ _ Hfl).
  - intros. apply Hsz. set_solver.
  - by rewrite Hsz by set_solver.
  - by rewrite Hsz by set_solver.
  - eapply outside_heads; [apply Hfl| |].
    + intros y Hy. apply Hsp; set_solver.
    + intros (i & Hi & ->). apply Hnode. by apply (fl_nodelist _ _ _ Hfl).
Qed.

(** ** Search *)

Lemma find_fit_spec m size p f2 fuel :
  dlseg m p f2 0 -> (forall x, x ∈ f2 -> 0 < x) -> (length f2 < fuel)%nat ->
  exists g1 g2, f2 = g1 ++ g2 /\
    find_fit fuel m size (default 0 (head f2)) = Some (default 0 (head g2)) /\
    Forall (fun x => m.[f_size x] < size) g1 /\
    (forall y, head g2 = Some y -> size <= m.[f_size y]).
Proof.
  revert fuel p. induction f2 as [|x f2 IH]; intros fuel p Hl Hpos Hfuel.
  { exists [], []. destruct fuel; [simpl in *; lia|]. naive_solver. }
  destruct fuel as [|fuel]; [lia|]. destruct Hl as (_ & Hf & Hl). simpl.
  assert (0 < x) by (apply Hpos; set_solver).
  destruct (Z.eqb_spec x 0); [lia|]. simpl.
  destruct (Z.ltb_spec m.[f_size x] size) as [Hlt | Hge].
  - rewrite Hf. destruct (IH fuel x Hl) as (g1 & g2 & -> & Hs & Hg1 & Hg2);
      [set_solver|simpl in *; lia|].
    exists (x :: g1), g2. split_and!; [done..|by constructor|done].
  - exists [], (x :: f2). naive_solver.
Qed.

(** The search from the request's bucket finds a smallest chunk that fits, or
    shows that no chunk of the list fits. *)
Lemma find_fit_best m nl fl size fuel :
  free_list m nl fl -> 16 <= size -> (length fl < fuel)%nat ->
  exists node,
    find_fit fuel m size m.[f_flink (nodelist_entry nl (mm_size2ndx size))] = Some node /\
    ((node = 0 /\ forall x, x ∈ fl -> m.[f_size x] < size) \/
     (node ∈ fl /\ ~ is_head nl node /\ size <= m.[f_size node] /\
      forall x, x ∈ fl -> size <= m.[f_size x] -> m.[f_size node] <= m.[f_size x])).
Proof.
  intros Hfl Hs Hfuel. destruct (mm_size2ndx_bucket size Hs) as (Hi & Hlo & _).
  unfold nodelist_entry, SIZEOF_MM_FREENODE. set (hd := nl + 16 * mm_size2ndx size) in *.
  destruct (list_elem_of_split fl hd) as (f1 & f2 & ->); [by apply (fl_nodelist _ _ _ Hfl)|].
  pose proof (fl_links _ _ _ Hfl) as [_ (_ & Hhf & Hl2)]%dlseg_app.
  destruct (find_fit_spec m size hd f2 fuel Hl2) as (g1 & g2 & -> & Hslot & Hg1 & Hg2).
  { intros. apply (fl_pos _ _ _ Hfl). set_solver. }
  { rewrite length_app in Hfuel. simpl in Hfuel. lia. }
  rewrite Forall_forall in Hg1. pose proof (fl_sorted _ _ _ Hfl) as Hso.
  assert (Hf1 : forall x, x ∈ f1 ++ [hd] -> m.[f_size x] < size).
  { intros x [Hx | ->%list_elem_of_singleton]%elem_of_app.
    - destruct (decide (m.[f_size x] = 0)); [lia|].
      apply StronglySorted_app in Hso as (H12 & _ & _).
      specialize (H12 x hd Hx ltac:(set_solver)). simpl in H12.
      rewrite (key_nonhead m nl _ _ Hfl) in H12 by set_solver.
      subst hd. rewrite key_head in H12 by done.
      replace (mm_size2ndx size + 5) with (Z.succ (mm_size2ndx size + 4)) in H12 by lia.
      rewrite Z.pow_succ_r in H12 by lia. lia.
    - subst hd. rewrite (fl_heads _ _ _ Hfl) by done. lia. }
  exists (default 0 (head g2)). rewrite Hhf. split; [done|].
  destruct g2 as [|y g2].
  - left. split; [done|]. rewrite app_nil_r in *. intros x Hx.
    destruct (decide (x ∈ g1)); [auto|]. apply Hf1. set_solver.
  - right. simpl. specialize (Hg2 y eq_refl). split_and!; [set_solver| |done|].
    + rewrite (head_size_zero m nl _ _ Hfl) by set_solver. lia.
    + intros x Hx Hge. destruct (decide (x ∈ f1 ++ [hd])) as [Hin | Hni]; [specialize (Hf1 x Hin); lia|].
      destruct (decide (x ∈ g1)) as [Hin1 | Hni1]; [specialize (Hg1 x Hin1); lia|].
      destruct (decide (x = y)) as [-> | Hne]; [done|].
      apply StronglySorted_app in Hso as (_ & _ & [_ Hso]%StronglySorted_cons).
      apply StronglySorted_app in Hso as (_ & _ & [Hy _]%StronglySorted_cons).
      rewrite Forall_forall in Hy. specialize (Hy x ltac:(set_solver)). simpl in Hy.
      rewrite !(key_nonhead m nl _ _ Hfl) in Hy by (lia || set_solver). lia.
Qed.
