(* ===== verification/MmLayout.v ===== *)
(** * The kernel heap: chunk layout and the heap invariant

    The region between the two guard nodes as a list of chunks, each a size
    and an allocated flag; the header words ([size], [preceding] with
    [MM_ALLOC_BIT]) that represent it; and the invariant that ties the chunks
    to the node list. *)

From stdpp Require Import base tactics numbers list sorting gmap.
From S2P Require Import Prelude MmHeap MmFreeList.

(** ** Chunks *)

Abbreviation chunk := (Z * bool)%type.

Definition flag (al : bool) : Z := if al then MM_ALLOC_BIT else 0.

Fixpoint total (cs : list chunk) : Z :=
  match cs with
  | [] => 0
  | c :: cs => c.1 + total cs
  end.

(** The size of the last chunk, [p] if there is none. *)
Fixpoint lastsz (p : Z) (cs : list chunk) : Z :=
  match cs with
  | [] => p
  | c :: cs => lastsz c.1 cs
  end.

(** Addresses of all chunks, and of the free ones, of a layout that starts at [a]. *)
Fixpoint addrs (a : Z) (cs : list chunk) : list Z :=
  match cs with
  | [] => []
  | c :: cs => a :: addrs (a + c.1) cs
  end.

Fixpoint free_addrs (a : Z) (cs : list chunk) : list Z :=
  match cs with
  | [] => []
  | c :: cs => (if c.2 then [] else [a]) ++ free_addrs (a + c.1) cs
  end.

(** The headers of [cs] are in memory from [a] on, after a chunk of size [p]. *)
Fixpoint hdrs (m : mem) (a p : Z) (cs : list chunk) : Prop :=
  match cs with
  | [] => True
  | c :: cs => m.[f_size a] = c.1 /\ m.[f_preceding a] = p + flag c.2 /\ hdrs m (a + c.1) c.1 cs
  end.

(** No two neighbouring chunks are free. *)
Fixpoint coalesced (cs : list chunk) : bool :=
  match cs with
  | c1 :: ((c2 :: _) as cs') => (c1.2 || c2.2) && coalesced cs'
  | _ => true
  end.

Definition chunk_ok (c : chunk) : Prop := 16 <= c.1 /\ (16 | c.1).

Lemma total_app cs1 cs2 : total (cs1 ++ cs2) = total cs1 + total cs2.
Proof. induction cs1; simpl; lia. Qed.

Lemma lastsz_app p cs1 cs2 : lastsz p (cs1 ++ cs2) = lastsz (lastsz p cs1) cs2.
Proof. revert p. induction cs1; simpl; auto. Qed.

Lemma addrs_app a cs1 cs2 : addrs a (cs1 ++ cs2) = addrs a cs1 ++ addrs (a + total cs1) cs2.
Proof.
  revert a. induction cs1 as [|c cs1 IH]; intros a; simpl; [by rewrite Z.add_0_r|].
  by rewrite IH, Z.add_assoc.
Qed.

Lemma free_addrs_app a cs1 cs2 :
  free_addrs a (cs1 ++ cs2) = free_addrs a cs1 ++ free_addrs (a + total cs1) cs2.
Proof.
  revert a. induction cs1 as [|c cs1 IH]; intros a; simpl; [by rewrite Z.add_0_r|].
  by rewrite IH, <- app_assoc, Z.add_assoc.
Qed.

Lemma hdrs_app m a p cs1 cs2 :
  hdrs m a p (cs1 ++ cs2) <-> hdrs m a p cs1 /\ hdrs m (a + total cs1) (lastsz p cs1) cs2.
Proof.
  revert a p. induction cs1 as [|c cs1 IH]; intros a p; simpl.
  - rewrite Z.add_0_r. naive_solver.
  - rewrite IH, Z.add_assoc. naive_solver.
Qed.

Create Rewrite HintDb layout.
#[export] Hint Rewrite total_app lastsz_app addrs_app free_addrs_app : layout.

Lemma hdrs_ext m m' a p cs :
  (forall x, x ∈ addrs a cs -> m'.[f_size x] = m.[f_size x] /\ m'.[f_preceding x] = m.[f_preceding x]) ->
  hdrs m a p cs -> hdrs m' a p cs.
Proof.
  revert a p. induction cs as [|c cs IH]; intros a p Hext; simpl; [done|].
  intros (Hs & Hp & Hc). destruct (Hext a) as [-> ->]; [set_solver|].
  split_and!; [done..|]. apply IH; [|done]. intros x Hx. apply Hext. set_solver.
Qed.

Lemma total_nonneg cs : Forall chunk_ok cs -> 0 <= total cs.
Proof. induction 1 as [|c cs [? ?]]; simpl; lia. Qed.

Lemma lastsz_range p cs : Forall chunk_ok cs -> 0 <= lastsz p cs <= Z.max p (total cs) \/ p < 0.
Proof.
  intros Hcs. revert p. induction Hcs as [|c cs [? ?] Hcs IH]; intros p; simpl; [lia|].
  pose proof (total_nonneg cs Hcs). destruct (IH c.1); lia.
Qed.

Lemma addrs_range a cs x :
  Forall chunk_ok cs -> x ∈ addrs a cs -> a <= x /\ x + 16 <= a + total cs.
Proof.
  intros Hcs. revert a. induction Hcs as [|c cs [? ?] Hcs IH]; intros a; simpl; [set_solver|].
  pose proof (total_nonneg cs Hcs).
  intros [-> | Hx]%elem_of_cons; [lia|]. specialize (IH _ Hx). lia.
Qed.

Lemma total_aligned cs : Forall chunk_ok cs -> (16 | total cs).
Proof.
  induction 1 as [|c cs [_ Hc] Hcs IH]; simpl; [apply Z.divide_0_r|]. by apply Z.divide_add_r.
Qed.

Lemma addrs_aligned a cs x : Forall chunk_ok cs -> (16 | a) -> x ∈ addrs a cs -> (16 | x).
Proof.
  intros Hcs. revert a. induction Hcs as [|c cs [? ?] Hcs IH]; intros a Ha; simpl; [set_solver|].
  intros [-> | Hx]%elem_of_cons; [done|]. eapply IH; [|done]. by apply Z.divide_add_r.
Qed.

Lemma addrs_spaced a cs : Forall chunk_ok cs -> spaced (addrs a cs).
Proof.
  intros Hcs. revert a. induction Hcs as [|c cs [? ?] Hcs IH]; intros a; simpl.
  { unfold spaced. set_solver. }
  apply spaced_cons; [done|]. intros y Hy. apply addrs_range in Hy; [lia|done].
Qed.

Lemma addrs_NoDup a cs : Forall chunk_ok cs -> NoDup (addrs a cs).
Proof.
  intros Hcs. revert a. induction Hcs as [|c cs [? ?] Hcs IH]; intros a; simpl; constructor; [|done].
  intros Hin. apply addrs_range in Hin; [lia|done].
Qed.

Lemma free_addrs_sub a cs : free_addrs a cs ⊆ addrs a cs.
Proof.
  revert a. induction cs as [|c cs IH]; intros a; simpl; [done|]. specialize (IH (a + c.1)).
  destruct c.2; set_solver.
Qed.

Lemma free_addrs_NoDup a cs : Forall chunk_ok cs -> NoDup (free_addrs a cs).
Proof.
  intros Hcs. revert a. induction Hcs as [|c cs [? ?] Hcs IH]; intros a; simpl; [constructor|].
  destruct c.2; simpl; [done|]. constructor; [|done].
  intros Hin%free_addrs_sub. apply addrs_range in Hin; [lia|done].
Qed.

(** A chunk address splits the layout. *)
Lemma addrs_split a cs x :
  x ∈ addrs a cs -> exists l1 c l2, cs = l1 ++ c :: l2 /\ x = a + total l1.
Proof.
  revert a. induction cs as [|c cs IH]; intros a; simpl; [set_solver|].
  intros [-> | Hx]%elem_of_cons.
  - exists [], c, cs. simpl. split; [done | lia].
  - destruct (IH _ Hx) as (l1 & c' & l2 & -> & ->). exists (c :: l1), c', l2. simpl. split; [done | lia].
Qed.

Lemma free_addrs_split a cs x :
  x ∈ free_addrs a cs -> exists l1 s l2, cs = l1 ++ (s, false) :: l2 /\ x = a + total l1.
Proof.
  revert a. induction cs as [|c cs IH]; intros a; simpl; [set_solver|].
  intros [Hx | Hx]%elem_of_app.
  - destruct c as [s [|]]; simpl in Hx; [set_solver|]. apply list_elem_of_singleton in Hx as ->.
    exists [], s, cs. simpl. split; [done | lia].
  - destruct (IH _ Hx) as (l1 & s & l2 & -> & ->). exists (c :: l1), s, l2. simpl. split; [done | lia].
Qed.

Lemma hdrs_at m a p l1 c l2 :
  hdrs m a p (l1 ++ c :: l2) ->
  m.[f_size (a + total l1)] = c.1 /\ m.[f_preceding (a + total l1)] = lastsz p l1 + flag c.2.
Proof. intros (_ & ? & ? & _)%hdrs_app. done. Qed.

(** Coalescing of a concatenation: no free chunk on both sides of the seam. *)
Definition ends_free (cs : list chunk) : bool :=
  match last cs with Some c => negb c.2 | None => false end.

Definition starts_free (cs : list chunk) : bool :=
  match cs with c :: _ => negb c.2 | [] => false end.

Lemma coalesced_concat l1 l2 :
  coalesced (l1 ++ l2) = coalesced l1 && coalesced l2 && negb (ends_free l1 && starts_free l2).
Proof.
  induction l1 as [|c1 l1 IH]; [simpl; by rewrite andb_true_r|].
  destruct l1 as [|c2 l1].
  - destruct l2 as [|c2 l2]; [simpl; by rewrite andb_false_r|].
    change (coalesced ([c1] ++ c2 :: l2)) with ((c1.2 || c2.2) && coalesced (c2 :: l2)).
    unfold ends_free. simpl last. change (coalesced [c1]) with true. simpl starts_free.
    destruct c1 as [? [|]], c2 as [? [|]]; simpl snd; by destruct (coalesced _).
  - simpl in IH |- *. rewrite IH. unfold ends_free. rewrite last_cons_cons, !andb_assoc. done.
Qed.

Lemma ends_free_app l c : ends_free (l ++ [c]) = negb c.2.
Proof. unfold ends_free. by rewrite last_snoc. Qed.

(** ** The heap representation *)

Definition heads (nl : Z) : list Z := (fun i => nl + 16 * i) <$> seqZ 0 19.

(** Memory [m] holds the chunks [cs] from [base] on and the node list [fl],
    which consists of the list heads and the chunks at the addresses [L].
    While an operation is under way [L] need not be all free chunks. *)
Record heap_rep (m : mem) (nl base : Z) (cs : list chunk) (L fl : list Z) : Prop := {
  hr_base : 0 < base /\ (16 | base);
  hr_sizes : Forall chunk_ok cs;
  hr_end : base + total cs <= 4294967296;
  hr_total : total cs < 2147483648;
  hr_nl : 0 < nl /\ (nl + 304 <= base \/ base + total cs <= nl);
  hr_hdrs : hdrs m base 0 cs;
  hr_list : free_list m nl fl;
  hr_perm : fl ≡ₚ heads nl ++ L;
  hr_sub : L ⊆ addrs base cs
}.

(** An allocated guard node at each end of the region. *)
Definition guarded (cs : list chunk) : Prop :=
  head cs = Some (16, true) /\ last cs = Some (16, true) /\ (2 <= length cs)%nat.

(** The invariant between operations: guards at both ends, eager coalescing,
    and the node list holds exactly the free chunks. *)
Definition heap_inv (m : mem) (nl base : Z) (cs : list chunk) : Prop :=
  coalesced cs = true /\ guarded cs /\
  exists fl, heap_rep m nl base cs (free_addrs base cs) fl.

Lemma guarded_free_inside l1 s l2 :
  guarded (l1 ++ (s, false) :: l2) -> l1 <> [] /\ last l2 = Some (16, true).
Proof.
  intros (Hh & Hl & _). split.
  - intros ->. done.
  - rewrite last_app, last_cons in Hl. by destruct (last l2); simplify_eq.
Qed.

Lemma guarded_replace l1 mid mid' l2 :
  l1 <> [] -> last l2 = Some (16, true) -> guarded (l1 ++ mid ++ l2) -> guarded (l1 ++ mid' ++ l2).
Proof.
  intros Hl1 Hl2 (Hh & _ & _). destruct l1 as [|c l1]; [done|]. split_and!; [done| |].
  - rewrite !last_app, Hl2. done.
  - destruct l2; [done|]. rewrite !length_app. simpl. lia.
Qed.

Lemma guarded_tail l1 x l2 :
  l1 <> [] -> guarded (l1 ++ x) -> last l2 = Some (16, true) -> guarded (l1 ++ l2).
Proof.
  intros Hl1 (Hh & _ & _) Hl2. destruct l1 as [|c l1]; [done|]. split_and!; [done| |].
  - by rewrite last_app, Hl2.
  - destruct l2; [done|]. rewrite length_app. simpl. lia.
Qed.

(** [b] is in the payload of an allocated chunk. *)
Fixpoint payload (a : Z) (cs : list chunk) (b : Z) : Prop :=
  match cs with
  | [] => False
  | c :: cs => (c.2 = true /\ a + 16 <= b < a + c.1) \/ payload (a + c.1) cs b
  end.

(** A word no heap operation may change: in the payload of an allocated chunk,
    or neither in the region nor among the list heads. *)
Definition foreign (nl base : Z) (cs : list chunk) (b : Z) : Prop :=
  payload base cs b \/
  ((b < base \/ base + total cs <= b) /\ (b < nl \/ nl + 304 <= b)).

Lemma payload_app a cs1 cs2 b :
  payload a (cs1 ++ cs2) b <-> payload a cs1 b \/ payload (a + total cs1) cs2 b.
Proof.
  revert a. induction cs1 as [|c cs1 IH]; intros a; simpl.
  - rewrite Z.add_0_r. naive_solver.
  - rewrite IH, Z.add_assoc. naive_solver.
Qed.

Lemma payload_range a cs b : Forall chunk_ok cs -> payload a cs b -> a + 16 <= b < a + total cs.
Proof.
  intros Hcs. revert a. induction Hcs as [|c cs [? ?] Hcs IH]; intros a; simpl; [done|].
  pose proof (total_nonneg _ Hcs). intros [? | ?%IH]; lia.
Qed.

Lemma payload_not_node a cs b y :
  Forall chunk_ok cs -> payload a cs b -> y ∈ addrs a cs -> b < y \/ y + 16 <= b.
Proof.
  intros Hcs. revert a. induction Hcs as [|c cs [? ?] Hcs IH]; intros a; simpl; [done|].
  intros Hb Hy. rewrite elem_of_cons in Hy.
  destruct Hb as [[_ ?] | Hb], Hy as [-> | Hy].
  - lia.
  - apply addrs_range in Hy; [lia|done].
  - apply payload_range in Hb; [lia|done].
  - by eapply IH.
Qed.

(** Rearranging chunks none of which is allocated changes no foreign word. *)
Lemma payload_free a cs b : Forall (fun c => c.2 = false) cs -> ~ payload a cs b.
Proof.
  intros Hcs. revert a. induction Hcs as [|c cs Hc Hcs IH]; intros a; simpl; [tauto|].
  rewrite Hc. intros [[? _] | ?]; [done|by eapply IH].
Qed.

Lemma foreign_mid nl base l1 mid mid' l2 b :
  total mid' = total mid ->
  (payload (base + total l1) mid b -> payload (base + total l1) mid' b) ->
  foreign nl base (l1 ++ mid ++ l2) b -> foreign nl base (l1 ++ mid' ++ l2) b.
Proof.
  unfold foreign. intros Ht Hp. rewrite !payload_app, !total_app, Ht. naive_solver.
Qed.

Lemma foreign_free nl base l1 mid mid' l2 b :
  Forall (fun c => c.2 = false) mid -> total mid' = total mid ->
  foreign nl base (l1 ++ mid ++ l2) b -> foreign nl base (l1 ++ mid' ++ l2) b.
Proof. intros Hmid Ht. apply foreign_mid; [done|]. by intros []%payload_free. Qed.

Lemma elem_of_heads nl x : x ∈ heads nl <-> is_head nl x.
Proof.
  unfold heads. rewrite list_elem_of_fmap. unfold is_head. split.
  - intros (i & -> & Hi). rewrite elem_of_seqZ in Hi. exists i. lia.
  - intros (i & Hi & ->). exists i. rewrite elem_of_seqZ. lia.
Qed.

Lemma node_of_addr nl base cs x : x ∈ addrs base cs -> x ∈ heads nl ++ addrs base cs.
Proof. rewrite elem_of_app. by right. Qed.

Section rep.
Context {m : mem} {nl base : Z} {cs : list chunk} {L fl : list Z}.
Hypothesis Hrep : heap_rep m nl base cs L fl.

Lemma rep_total_ge : 0 <= total cs.
Proof. apply total_nonneg, Hrep. Qed.

Lemma rep_node_cases x :
  x ∈ heads nl ++ addrs base cs ->
  (nl <= x /\ x + 16 <= nl + 304) \/ (base <= x /\ x + 16 <= base + total cs).
Proof.
  intros [(i & Hi & ->)%elem_of_heads | Hx]%elem_of_app; [lia|].
  right. apply addrs_range; [apply Hrep|done].
Qed.

Lemma rep_spaced : spaced (heads nl ++ addrs base cs).
Proof.
  pose proof (hr_nl _ _ _ _ _ _ Hrep) as [_ Hnl].
  pose proof (addrs_spaced base cs (hr_sizes _ _ _ _ _ _ Hrep)) as Hsp.
  intros x y Hx Hy.
  rewrite elem_of_app, elem_of_heads in Hx, Hy.
  destruct Hx as [(i & Hi & ->) | Hx], Hy as [(j & Hj & ->) | Hy].
  - lia.
  - apply addrs_range in Hy; [|apply Hrep]. lia.
  - apply addrs_range in Hx; [|apply Hrep]. lia.
  - by apply Hsp.
Qed.

Lemma rep_list_sub : fl ⊆ heads nl ++ addrs base cs.
Proof.
  intros x Hx. rewrite (hr_perm _ _ _ _ _ _ Hrep) in Hx.
  apply elem_of_app in Hx as [? | ?]; apply elem_of_app; [by left|].
  right. by apply (hr_sub _ _ _ _ _ _ Hrep).
Qed.

Lemma rep_length : Z.of_nat (length fl) <= 19 + total cs / 16.
Proof.
  pose proof (fl_nodup _ _ _ (hr_list _ _ _ _ _ _ Hrep)) as Hnd.
  rewrite (hr_perm _ _ _ _ _ _ Hrep) in Hnd |- *. rewrite length_app.
  apply NoDup_app in Hnd as (_ & _ & Hnd).
  assert (Hlen : (length L <= length (addrs base cs))%nat).
  { apply submseteq_length, NoDup_submseteq; [done|]. apply Hrep. }
  assert (Hadd : forall a l, Forall chunk_ok l -> 16 * Z.of_nat (length (addrs a l)) <= total l).
  { intros a l Hl. revert a. induction Hl as [|c l [? ?] Hl IH]; intros a; simpl; [lia|].
    specialize (IH (a + c.1)). lia. }
  specialize (Hadd base cs (hr_sizes _ _ _ _ _ _ Hrep)).
  assert (Z.of_nat (length L) <= total cs / 16) by (apply Z.div_le_lower_bound; lia).
  unfold heads. rewrite length_fmap, length_seqZ. lia.
Qed.

Lemma rep_not_head x : x ∈ addrs base cs -> ~ is_head nl x.
Proof.
  intros Hx (i & Hi & ->). apply addrs_range in Hx; [|apply Hrep].
  pose proof (hr_nl _ _ _ _ _ _ Hrep). lia.
Qed.

(** Header and link words of nodes are not foreign. *)
Lemma foreign_not_node b y :
  foreign nl base cs b -> y ∈ heads nl ++ addrs base cs -> b < y \/ y + 16 <= b.
Proof.
  intros Hb Hy. pose proof (hr_nl _ _ _ _ _ _ Hrep) as [_ Hnl].
  pose proof (hr_sizes _ _ _ _ _ _ Hrep) as Hsz.
  destruct Hb as [Hb | [Hb1 Hb2]].
  - pose proof (payload_range _ _ _ Hsz Hb).
    apply elem_of_app in Hy as [(i & Hi & ->)%elem_of_heads | Hy]; [lia|].
    by eapply payload_not_node.
  - pose proof (rep_node_cases y Hy). lia.
Qed.

Lemma rep_unlink x L' :
  L ≡ₚ x :: L' ->
  exists m' fl', mm_unlink m x = Some m' /\ heap_rep m' nl base cs L' fl' /\
    (forall b, foreign nl base cs b -> m'.[b] = m.[b]) /\
    m'.[f_size x] = m.[f_size x] /\ m'.[f_preceding x] = m.[f_preceding x] /\ x ∉ L'.
Proof.
  intros HL. pose proof (fl_nodup _ _ _ (hr_list _ _ _ _ _ _ Hrep)) as Hnd.
  assert (HxL : x ∈ L) by (rewrite HL; set_solver).
  assert (Hxa : x ∈ addrs base cs) by (by apply (hr_sub _ _ _ _ _ _ Hrep)).
  destruct (list_elem_of_split fl x) as (f1 & f2 & Hf).
  { rewrite (hr_perm _ _ _ _ _ _ Hrep). set_solver. }
  destruct (mm_unlink_spec m nl f1 x f2) as (m' & Hm' & Hfl & Hsame);
    [rewrite <- Hf; apply Hrep|by apply rep_not_head|].
  assert (Hsub : f1 ++ f2 ⊆ heads nl ++ addrs base cs).
  { etransitivity; [|exact rep_list_sub]. rewrite Hf. set_solver. }
  assert (Hhdr : forall y, y ∈ addrs base cs ->
            m'.[f_size y] = m.[f_size y] /\ m'.[f_preceding y] = m.[f_preceding y]).
  { intros y Hy. split; apply Hsame; intros z Hz;
      pose proof (rep_spaced y z (node_of_addr nl base cs y Hy) (Hsub z Hz)); fields; lia. }
  exists m', (f1 ++ f2). split; [done|]. split; [|split; [|split_and!]].
  - destruct Hrep as [? ? ? ? ? Hh ? Hp Hs]. constructor; try done.
    + eapply hdrs_ext; [|exact Hh]. done.
    + apply (Permutation_cons_inv (a := x)). rewrite Permutation_middle, <- Hf, Hp, HL.
      by rewrite Permutation_middle.
    + intros y Hy. apply Hs. rewrite HL. set_solver.
  - intros b Hb. apply Hsame. intros y Hy.
    destruct (foreign_not_node b y Hb (Hsub y Hy)); fields; lia.
  - by apply Hhdr.
  - by apply Hhdr.
  - rewrite (hr_perm _ _ _ _ _ _ Hrep), HL, NoDup_app in Hnd. destruct Hnd as (_ & _ & Hnd).
    by apply NoDup_cons in Hnd as [? ?].
Qed.

Lemma rep_add x fuel :
  x ∈ addrs base cs -> x ∉ L -> (Z.to_nat (19 + total cs / 16) < fuel)%nat ->
  exists m' fl', mm_addfreechunk fuel nl m x = Some m' /\ heap_rep m' nl base cs (x :: L) fl' /\
    (forall b, foreign nl base cs b -> m'.[b] = m.[b]) /\
    (forall y, y ∈ addrs base cs -> m'.[f_size y] = m.[f_size y] /\ m'.[f_preceding y] = m.[f_preceding y]).
Proof.
  intros Hx HxL Hfuel. pose proof rep_list_sub as Hsub. pose proof rep_length as Hlen.
  assert (Hxfl : x ∉ fl).
  { rewrite (hr_perm _ _ _ _ _ _ Hrep), elem_of_app, elem_of_heads.
    intros [? | ?]; [by eapply rep_not_head|done]. }
  assert (Hsub' : x :: fl ⊆ heads nl ++ addrs base cs).
  { intros y [-> | Hy]%elem_of_cons; [by apply node_of_addr|by apply Hsub]. }
  assert (Hpos : 0 < x).
  { pose proof (addrs_range _ _ _ (hr_sizes _ _ _ _ _ _ Hrep) Hx).
    pose proof (hr_base _ _ _ _ _ _ Hrep). lia. }
  assert (Hsize : 16 <= m.[f_size x] < 2147483648).
  { destruct (addrs_split _ _ _ Hx) as (l1 & c & l2 & Hcs & ->).
    pose proof (hr_hdrs _ _ _ _ _ _ Hrep) as Hh. rewrite Hcs in Hh.
    apply hdrs_at in Hh as [-> _]. pose proof (hr_total _ _ _ _ _ _ Hrep) as Ht.
    pose proof (hr_sizes _ _ _ _ _ _ Hrep) as Hsz. rewrite Hcs in Hsz, Ht.
    apply Forall_app in Hsz as [Hl1 [[? ?] Hl2]%Forall_cons].
    rewrite total_app in Ht. simpl in Ht.
    pose proof (total_nonneg _ Hl1). pose proof (total_nonneg _ Hl2). lia. }
  destruct (mm_addfreechunk_spec m nl fl x fuel) as (m' & f1 & f2 & Hf & Hm' & Hfl & Hsame); try done.
  { apply Hrep. }
  { eapply spaced_sub; [exact Hsub'|]. apply rep_spaced. }
  { lia. }
  assert (Hhdr : forall y, y ∈ addrs base cs ->
            m'.[f_size y] = m.[f_size y] /\ m'.[f_preceding y] = m.[f_preceding y]).
  { intros y Hy. split; apply Hsame; intros z Hz;
      pose proof (rep_spaced y z (node_of_addr nl base cs y Hy) (Hsub' z Hz)); fields; lia. }
  exists m', (f1 ++ x :: f2). split; [done|]. split; [|split].
  - destruct Hrep as [? ? ? ? ? Hh ? Hp Hs]. constructor; try done.
    + eapply hdrs_ext; [|exact Hh]. done.
    + rewrite <- Permutation_middle, <- Hf, Hp. by rewrite Permutation_middle.
    + set_solver.
  - intros b Hb. apply Hsame. intros y Hy.
    destruct (foreign_not_node b y Hb (Hsub' y Hy)); fields; lia.
  - done.
Qed.

End rep.

(** Rewriting the headers of a run of chunks that are not on the node list,
    and the [preceding] word of the chunk after it. *)
Lemma rep_rewrite m m' nl base l1 mid mid' c l2 L fl :
  let lo := base + total l1 in
  let hi := lo + total mid in
  heap_rep m nl base (l1 ++ mid ++ c :: l2) L fl ->
  (forall x, x ∈ L -> x ∉ addrs lo mid) ->
  Forall chunk_ok mid' -> total mid' = total mid ->
  (forall b, (forall y, y ∈ addrs lo mid ++ addrs lo mid' -> b < y \/ y + 16 <= b) ->
             b <> f_preceding hi -> m'.[b] = m.[b]) ->
  hdrs m' lo (lastsz 0 l1) mid' ->
  m'.[f_preceding hi] = lastsz (lastsz 0 l1) mid' + flag c.2 ->
  heap_rep m' nl base (l1 ++ mid' ++ c :: l2) L fl /\
  (forall b, foreign nl base (l1 ++ mid ++ c :: l2) b ->
             foreign nl base (l1 ++ mid' ++ c :: l2) b -> m'.[b] = m.[b]).
Proof.
  intros lo hi Hrep HL Hmid' Htot Hsame Hh' Hp'.
  pose proof (hr_sizes _ _ _ _ _ _ Hrep) as Hsz.
  apply Forall_app in Hsz as [Hl1 Hsz]. apply Forall_app in Hsz as [Hmid Hsz].
  pose proof Hsz as [[Hc _] Hl2]%Forall_cons.
  pose proof (total_nonneg _ Hl1). pose proof (total_nonneg _ Hmid). pose proof (total_nonneg _ Hl2).
  assert (Hout : forall b, b < lo \/ hi <= b -> b <> f_preceding hi -> m'.[b] = m.[b]).
  { intros b Hb Hne. apply Hsame; [|done]. intros y [Hy | Hy]%elem_of_app;
      apply addrs_range in Hy; lia || done. }
  assert (Hcases : forall x, x ∈ L -> x ∈ addrs base l1 \/ x ∈ addrs hi (c :: l2)).
  { intros x Hx. pose proof (hr_sub _ _ _ _ _ _ Hrep x Hx) as Hin. specialize (HL x Hx).
    rewrite !addrs_app in Hin. fold lo hi in Hin.
    rewrite !elem_of_app in Hin. tauto. }
  assert (Hfar : forall x, x ∈ fl -> x + 16 <= lo \/ hi <= x /\ (x = hi \/ hi + 16 <= x)
                                      \/ hi + 16 <= x).
  { intros x Hx. rewrite (hr_perm _ _ _ _ _ _ Hrep), elem_of_app, elem_of_heads in Hx.
    destruct Hx as [(i & Hi & ->) | [Hx | Hx]%Hcases].
    - pose proof (hr_nl _ _ _ _ _ _ Hrep) as [_ Hn]. rewrite !total_app in Hn. simpl in Hn. lia.
    - apply addrs_range in Hx; [lia|done].
    - simpl in Hx. apply elem_of_cons in Hx as [-> | Hx]; [lia|].
      apply addrs_range in Hx; [lia|done]. }
  assert (Hrep' : heap_rep m' nl base (l1 ++ mid' ++ c :: l2) L fl).
  { destruct Hrep as [Hbase Hsizes Hend Htotal Hnl Hh Hl Hp Hs].
    rewrite !total_app in Hend, Htotal, Hnl. constructor; try done.
    + by rewrite !Forall_app.
    + by rewrite !total_app, Htot.
    + by rewrite !total_app, Htot.
    + by rewrite !total_app, Htot.
    + rewrite !hdrs_app in Hh |- *. fold lo in Hh |- *. rewrite Htot. fold hi in Hh |- *.
      destruct Hh as (Hh1 & _ & Hhc). simpl in Hhc |- *. destruct Hhc as (Hcs & Hcp & Hh2).
      split_and!; [|done| |done|].
      * eapply hdrs_ext; [|exact Hh1]. intros x Hx. apply addrs_range in Hx; [|done].
        split; apply Hout; fields; lia.
      * rewrite <- Hcs. apply Hout; fields; lia.
      * eapply hdrs_ext; [|exact Hh2]. intros x Hx. apply addrs_range in Hx; [|done].
        split; apply Hout; fields; lia.
    + eapply free_list_ext; [|exact Hl]. intros x Hx. specialize (Hfar x Hx).
      split_and!; apply Hout; fields; lia.
    + intros x [Hx | Hx]%Hcases; rewrite !addrs_app; fold lo; rewrite Htot; fold hi; rewrite !elem_of_app; tauto. }
  split; [done|]. intros b Hb Hb'.
  pose proof (foreign_not_node Hrep b) as Hn. pose proof (foreign_not_node Hrep' b) as Hn'.
  rewrite !addrs_app in Hn, Hn'. fold lo hi in Hn, Hn'. rewrite Htot in Hn'. fold hi in Hn'.
  apply Hsame.
  - intros y [Hy | Hy]%elem_of_app; [apply Hn|apply Hn']; try done; rewrite !elem_of_app; tauto.
  - destruct (Hn hi Hb) as [? | ?]; [rewrite !elem_of_app; simpl; rewrite elem_of_cons; tauto| |]; fields; lia.
Qed.
