(* ===== verification/MmHeapOps.v ===== *)
(** * The kernel heap: what each operation does to the layout

    For the internal routines of malloc, free, shrink, memalign and realloc:
    on memory that represents a layout they return, and the memory they leave
    represents the layout with the chunks concerned rearranged; no foreign
    word (payload of an allocated chunk, memory outside the heap) changes. *)

From stdpp Require Import base tactics numbers list sorting gmap.
From S2P Require Import Prelude MmHeap MmFreeList MmLayout.

Lemma rep_perm m nl base cs L L' fl :
  L ≡ₚ L' -> heap_rep m nl base cs L fl -> heap_rep m nl base cs L' fl.
Proof.
  intros HL [? ? ? ? ? ? ? Hp Hs]. constructor; try done.
  - by rewrite Hp, HL.
  - intros x Hx. apply Hs. by rewrite HL.
Qed.

(** Numeric facts about a layout split at a chunk. *)
Lemma rep_split_facts m nl base l1 c l2 L fl :
  heap_rep m nl base (l1 ++ c :: l2) L fl ->
  0 <= total l1 /\ 0 <= total l2 /\ chunk_ok c /\ total l1 + c.1 + total l2 < 2147483648 /\
  0 < base /\ base + total l1 + c.1 + total l2 <= 4294967296 /\
  0 <= lastsz 0 l1 < 2147483648 /\
  Forall chunk_ok l1 /\ Forall chunk_ok l2.
Proof.
  intros Hrep. pose proof (hr_sizes _ _ _ _ _ _ Hrep) as [Hl1 [Hc Hl2]%Forall_cons]%Forall_app.
  pose proof (hr_total _ _ _ _ _ _ Hrep) as Ht. pose proof (hr_end _ _ _ _ _ _ Hrep) as He.
  rewrite total_app in Ht, He. simpl in Ht, He. pose proof (hr_base _ _ _ _ _ _ Hrep).
  pose proof (total_nonneg _ Hl1). pose proof (total_nonneg _ Hl2). destruct Hc as [Hc1 Hc2].
  pose proof (lastsz_range 0 l1 Hl1). split_and!; done || lia.
Qed.

Lemma is_free_flag m x p al :
  0 <= p < 2147483648 -> m.[f_preceding x] = p + flag al -> is_free m x = negb al.
Proof.
  intros Hp Hx. unfold is_free. rewrite Hx. unfold flag, MM_ALLOC_BIT.
  rewrite land_top_bit by done. by destruct al.
Qed.

Lemma rep_is_free m nl base l1 c l2 L fl :
  heap_rep m nl base (l1 ++ c :: l2) L fl -> is_free m (base + total l1) = negb c.2.
Proof.
  intros Hrep. pose proof (rep_split_facts _ _ _ _ _ _ _ _ Hrep) as (? & ? & ? & ? & ? & ? & ? & ?).
  pose proof (hdrs_at _ _ _ _ _ _ (hr_hdrs _ _ _ _ _ _ Hrep)) as [_ Hp].
  by eapply is_free_flag.
Qed.

(** [set_preceding] stores the size and keeps the flag. *)
Lemma set_preceding_eq m x size p al :
  0 <= p < 2147483648 -> 0 <= size < 2147483648 -> m.[x + 4] = p + flag al ->
  set_preceding m x size = m.[x + 4 <- size + flag al].
Proof.
  intros Hp Hs Hx. unfold set_preceding. fields. rewrite Hx. unfold flag, MM_ALLOC_BIT.
  rewrite land_top_bit, lor_top_bit by done. done.
Qed.

(** [x | MM_ALLOC_BIT] on a size. *)
Lemma lor_alloc_bit p : 0 <= p < 2147483648 -> Z.lor p MM_ALLOC_BIT = p + flag true.
Proof. intros. exact (lor_top_bit p true ltac:(done)). Qed.

(** [x & ~MM_ALLOC_BIT] on a [preceding] word. *)
Lemma land_alloc_bit p al :
  0 <= p < 2147483648 -> Z.land (p + flag al) (u32 (Z.lnot MM_ALLOC_BIT)) = p.
Proof. intros. exact (land_low_bits p al ltac:(done)). Qed.

(** Setting or clearing the allocated bit of a chunk that is not listed. *)
Lemma rep_set_flag m nl base l1 s al al' c l2 L fl :
  let node := base + total l1 in
  heap_rep m nl base (l1 ++ (s, al) :: c :: l2) L fl -> node ∉ L ->
  heap_rep (m.[f_preceding node <- lastsz 0 l1 + flag al']) nl base (l1 ++ (s, al') :: c :: l2) L fl.
Proof.
  intros node Hrep HL. pose proof (rep_split_facts _ _ _ _ _ _ _ _ Hrep) as
    (? & ? & Hc & ? & ? & ? & ? & ? & [[? ?] ?]%Forall_cons).
  pose proof (hr_hdrs _ _ _ _ _ _ Hrep) as (_ & Hs & Hp & Hcs & Hcp & _)%hdrs_app.
  fold node in Hs, Hp, Hcs, Hcp. simpl in Hs, Hp, Hcs, Hcp, Hc.
  destruct Hc as [Hc1 Hc2]. simpl in Hc1.
  refine (proj1 (rep_rewrite m _ nl base l1 [(s, al)] [(s, al')] c l2 L fl Hrep _ _ _ _ _ _));
    simpl; fold node; rewrite ?Z.add_0_r.
  - intros x Hx ->%list_elem_of_singleton. done.
  - by repeat constructor.
  - lia.
  - intros b Hb _. specialize (Hb node ltac:(set_solver)). rewrite load_store_ne by (fields; lia). done.
  - split_and!; [|by rewrite load_store_eq|done]. rewrite load_store_ne by (fields; lia). done.
  - rewrite load_store_ne by (fields; lia). done.
Qed.

(** ** mm_malloc *)

(** The chunks a free chunk of size [s] becomes when [size] bytes are taken. *)
Definition carve (size s : Z) : list chunk :=
  (size, true) :: if 16 <=? s - size then [(s - size, false)] else [].

Lemma total_carve size s : (16 | size) -> (16 | s) -> size <= s -> total (carve size s) = s.
Proof.
  intros [a ->] [b ->] ?. unfold carve. destruct (Z.leb_spec 16 (b * 16 - a * 16)); simpl; lia.
Qed.

(** Splitting an unlisted free chunk in two, as [mm_malloc] writes it. *)
Lemma rep_split m nl base l1 s c l2 L fl size :
  let node := base + total l1 in
  heap_rep m nl base (l1 ++ (s, false) :: c :: l2) L fl -> node ∉ L ->
  16 <= size -> (16 | size) -> 16 <= s - size ->
  let m' := ((m.[node + size <- s - size]).[node + size + 4 <- size]).[node <- size]
            .[node + s + 4 <- s - size + flag c.2] in
  heap_rep m' nl base (l1 ++ [(size, false); (s - size, false)] ++ c :: l2) L fl /\
  (forall b, foreign nl base (l1 ++ (s, false) :: c :: l2) b -> m'.[b] = m.[b]).
Proof.
  intros node Hrep HL Hsz Hdiv Hrem m'. pose proof (rep_split_facts _ _ _ _ _ _ _ _ Hrep) as
    (? & ? & [? Hds] & ? & ? & ? & ? & ? & [[? ?] ?]%Forall_cons). simpl in *.
  pose proof (hr_hdrs _ _ _ _ _ _ Hrep) as (_ & Hs & Hp & Hcs & Hcp & _)%hdrs_app.
  fold node in Hs, Hp, Hcs, Hcp. simpl in Hs, Hp, Hcs, Hcp.
  destruct (rep_rewrite m m' nl base l1 [(s, false)] [(size, false); (s - size, false)] c l2 L fl Hrep)
    as [Hrep' Hfor]; simpl; fold node; rewrite ?Z.add_0_r.
  - intros x Hx ->%list_elem_of_singleton. done.
  - repeat constructor; simpl; try done; try lia. by apply Z.divide_sub_r.
  - lia.
  - intros b Hb Hne. pose proof (Hb node ltac:(set_solver)). pose proof (Hb (node + size) ltac:(set_solver)).
    subst m'. fields. mem_simpl. done.
  - subst m'. fields. rewrite ?Z.add_0_r. split_and!; mem_simpl; try done; unfold flag; lia.
  - subst m'. fields. mem_simpl. done.
  - split; [done|]. intros b Hb. apply Hfor; [done|].
    apply (foreign_mid nl base l1 [(s, false)]); [simpl; lia| |done].
    simpl. intros [[? _] | ?]; done.
Qed.

(** A run of steps of fuel that covers every node of the layout. *)
Definition enough_fuel (fuel : nat) (cs : list chunk) : Prop :=
  (Z.to_nat (19 + total cs / 16) < fuel)%nat.

Lemma enough_fuel_eq fuel cs cs' : total cs = total cs' -> enough_fuel fuel cs -> enough_fuel fuel cs'.
Proof. unfold enough_fuel. by intros ->. Qed.

Lemma free_addrs_mid base l1 s l2 :
  free_addrs base (l1 ++ (s, false) :: l2)
  ≡ₚ base + total l1 :: free_addrs base l1 ++ free_addrs (base + total l1 + s) l2.
Proof. rewrite free_addrs_app. simpl. by rewrite Permutation_middle. Qed.

Lemma malloc_carve_spec m nl base l1 s c l2 size fuel fl :
  let cs := l1 ++ (s, false) :: c :: l2 in
  let cs' := l1 ++ carve size s ++ c :: l2 in
  let node := base + total l1 in
  heap_rep m nl base cs (free_addrs base cs) fl ->
  16 <= size <= s -> (16 | size) -> enough_fuel fuel cs ->
  exists m' fl', malloc_carve fuel nl m node size = Some m' /\
    heap_rep m' nl base cs' (free_addrs base cs') fl' /\
    (forall b, foreign nl base cs b -> m'.[b] = m.[b]).
Proof.
  intros cs cs' node Hrep Hsize Hdiv Hfuel. subst cs cs'.
  pose proof (rep_split_facts _ _ _ _ _ _ _ _ Hrep) as
    (? & ? & [? Hds] & ? & ? & ? & Hlast & Hok1 & [[? ?] Hok2]%Forall_cons). simpl in *.
  destruct (rep_unlink Hrep node _ (free_addrs_mid base l1 s (c :: l2)))
    as (m1 & f1 & Hun & Hrep1 & Hfor1 & Hsz1 & Hpr1 & Hnode).
  pose proof (hdrs_at _ _ _ _ _ _ (hr_hdrs _ _ _ _ _ _ Hrep1)) as [Hs Hp]. fold node in Hs, Hp.
  pose proof (hr_hdrs _ _ _ _ _ _ Hrep1) as (_ & _ & _ & _ & Hcp & _)%hdrs_app.
  fold node in Hcp. simpl in Hs, Hp, Hcp. rewrite Z.add_0_r in Hp.
  unfold malloc_carve. rewrite Hun. simpl. fields. rewrite Hs, u32_small by lia.
  unfold SIZEOF_MM_FREENODE. unfold carve in *.
  destruct (Z.leb_spec 16 (s - size)) as [Hrem | Hrem].
  - destruct (rep_split m1 nl base l1 s c l2 _ f1 size Hrep1 Hnode ltac:(lia) Hdiv Hrem) as [Hrep2 Hfor2].
    fold node in Hrep2, Hfor2.
    set (m1' := ((m1.[node + size <- s - size]).[node + size + 4 <- size]).[node <- size]) in *.
    rewrite (set_preceding_eq _ _ _ s c.2) by (lia || (subst m1'; mem_simpl; done)).
    set (m2 := m1'.[node + s + 4 <- s - size + flag c.2]) in *.
    destruct (rep_add Hrep2 (node + size) fuel) as (m3 & f3 & Hadd & Hrep3 & Hfor3 & Hhdr3).
    { rewrite addrs_app. simpl. fold node. set_solver. }
    { pose proof Hrep1 as Hr1. intros Hin. pose proof (hr_sub _ _ _ _ _ _ Hr1 _ Hin) as Hin'.
      rewrite addrs_app in Hin'. simpl in Hin'. fold node in Hin'.
      apply elem_of_app in Hin' as [Hin' | [Hin' | [Hin' | Hin']%elem_of_cons]%elem_of_cons];
        try lia; apply addrs_range in Hin'; lia || done. }
    { eapply enough_fuel_eq; [|exact Hfuel]. rewrite !total_app. simpl. lia. }
    rewrite Hadd. simpl.
    destruct (Hhdr3 node) as [_ Hp3]; [rewrite addrs_app; simpl; fold node; set_solver|].
    assert (Hp3' : m3.[node + 4] = lastsz 0 l1).
    { fields. rewrite Hp3. subst m2 m1'. mem_simpl. done. }
    rewrite Hp3', lor_alloc_bit by done.
    eexists _, f3. split; [done|]. split.
    + eapply rep_perm; [|eapply (rep_set_flag _ _ _ l1 size false true (s - size, false)); [exact Hrep3|]].
      * rewrite free_addrs_app. simpl. fold node. rewrite <- Permutation_middle.
        replace (node + size + (s - size)) with (node + s) by lia. done.
      * fold node. intros [? | ?]%elem_of_cons; [lia|done].
    + intros b Hb. assert (Hb2 : foreign nl base (l1 ++ [(size, false); (s - size, false)] ++ c :: l2) b).
      { apply (foreign_mid nl base l1 [(s, false)]); [simpl; lia| |done]. simpl. intros [[? _] | ?]; done. }
      rewrite load_store_ne, Hfor3, Hfor2, Hfor1; try done.
      destruct (foreign_not_node Hrep b node Hb) as [? | ?]; [|lia..].
      apply node_of_addr. rewrite addrs_app. simpl. fold node. set_solver.
  - assert (size = s) as ->.
    { destruct Hdiv as [i ->], Hds as [j ->]. lia. }
    simpl. rewrite Hp, lor_alloc_bit by done.
    eexists _, f1. split; [done|]. split.
    + eapply rep_perm; [|eapply (rep_set_flag _ _ _ l1 s false true c l2); [exact Hrep1|done]].
      by rewrite free_addrs_app.
    + intros b Hb. rewrite load_store_ne, Hfor1; try done.
      destruct (foreign_not_node Hrep b node Hb) as [? | ?]; [|lia..].
      apply node_of_addr. rewrite addrs_app. simpl. fold node. set_solver.
Qed.

(** ** mm_free *)

(** Joining two neighbouring unlisted free chunks. *)
Lemma rep_merge m nl base l1 s1 s2 c l2 L fl :
  let node := base + total l1 in
  heap_rep m nl base (l1 ++ (s1, false) :: (s2, false) :: c :: l2) L fl ->
  node ∉ L -> node + s1 ∉ L ->
  let m' := (m.[node <- s1 + s2]).[node + (s1 + s2) + 4 <- s1 + s2 + flag c.2] in
  heap_rep m' nl base (l1 ++ (s1 + s2, false) :: c :: l2) L fl /\
  (forall b, foreign nl base (l1 ++ (s1, false) :: (s2, false) :: c :: l2) b -> m'.[b] = m.[b]).
Proof.
  intros node Hrep HL1 HL2 m'. pose proof (rep_split_facts _ _ _ _ _ _ _ _ Hrep) as
    (? & ? & [? Hds] & ? & ? & ? & ? & ? & [[? ?] [[? ?] ?]%Forall_cons]%Forall_cons). simpl in *.
  pose proof (hr_hdrs _ _ _ _ _ _ Hrep) as (_ & Hs & Hp & Hs2 & Hp2 & Hcs & Hcp & _)%hdrs_app.
  fold node in Hs, Hp, Hs2, Hp2, Hcs, Hcp. simpl in Hs, Hp, Hs2, Hp2, Hcs, Hcp.
  destruct (rep_rewrite m m' nl base l1 [(s1, false); (s2, false)] [(s1 + s2, false)] c l2 L fl Hrep)
    as [Hrep' Hfor]; simpl; fold node; rewrite ?Z.add_0_r.
  - intros x Hx [-> | ->%list_elem_of_singleton]%elem_of_cons; done.
  - repeat constructor; simpl; try done; try lia. by apply Z.divide_add_r.
  - lia.
  - intros b Hb Hne. pose proof (Hb node ltac:(set_solver)).
    subst m'. fields. mem_simpl. done.
  - subst m'. fields. split_and!; mem_simpl; try done; unfold flag; lia.
  - subst m'. fields. mem_simpl. done.
  - split; [done|]. intros b Hb. apply Hfor; [done|].
    apply (foreign_mid nl base l1 [(s1, false); (s2, false)]); [simpl; lia| |done].
    intros []%payload_free. by repeat constructor.
Qed.

(** The size and the following chunks after the merge with a free successor. *)
Definition merge_next (s : Z) (l2 : list chunk) : Z * list chunk :=
  match l2 with
  | (s2, false) :: l2 => (s + s2, l2)
  | _ => (s, l2)
  end.

(** The preceding chunks and the size after the merge with a free predecessor. *)
Definition merge_prev (l1 : list chunk) (s : Z) : list chunk * Z :=
  match last l1 with
  | Some (s1, false) => (removelast l1, s1 + s)
  | _ => (l1, s)
  end.

(** The node list when the free chunk between [l1] and [l2] is not on it. *)
Definition listed (base : Z) (l1 : list chunk) (s : Z) (l2 : list chunk) : list Z :=
  free_addrs base l1 ++ free_addrs (base + total l1 + s) l2.

Lemma not_listed base l1 s al l2 :
  Forall chunk_ok (l1 ++ (s, al) :: l2) -> base + total l1 ∉ listed base l1 s l2.
Proof.
  intros [Hl1 [[? ?] Hl2]%Forall_cons]%Forall_app. unfold listed. simpl in *.
  intros [Hin%free_addrs_sub | Hin%free_addrs_sub]%elem_of_app; apply addrs_range in Hin; lia || done.
Qed.

Lemma listed_next_free base l1 s s2 l2 :
  listed base l1 s ((s2, false) :: l2) ≡ₚ base + total l1 + s :: listed base l1 (s + s2) l2.
Proof.
  unfold listed. simpl. rewrite Permutation_middle.
  by replace (base + total l1 + (s + s2)) with (base + total l1 + s + s2) by lia.
Qed.

Lemma listed_prev_free base l1 s1 s l2 :
  listed base (l1 ++ [(s1, false)]) s l2 ≡ₚ base + total l1 :: listed base l1 (s1 + s) l2.
Proof.
  unfold listed. rewrite free_addrs_app, total_app. simpl. rewrite <- app_assoc. simpl.
  rewrite Permutation_middle.
  by replace (base + (total l1 + (s1 + 0)) + s) with (base + total l1 + (s1 + s)) by lia.
Qed.

Lemma free_merge_next_spec m nl base l1 s c l2 fl :
  let cs := l1 ++ (s, false) :: c :: l2 in
  let node := base + total l1 in
  let '(s', l2') := merge_next s (c :: l2) in
  heap_rep m nl base cs (listed base l1 s (c :: l2)) fl -> l2' <> [] ->
  exists m' fl', free_merge_next m node = Some (m', node + s') /\
    heap_rep m' nl base (l1 ++ (s', false) :: l2') (listed base l1 s' l2') fl' /\
    (forall b, foreign nl base cs b -> m'.[b] = m.[b]).
Proof.
  intros cs node. destruct c as [s2 [|]]; simpl; intros Hrep Hne.
  - exists m, fl. split; [|done]. unfold free_merge_next. fields.
    pose proof (hdrs_at _ _ _ _ _ _ (hr_hdrs _ _ _ _ _ _ Hrep)) as [Hs Hp]. fold node in Hs, Hp.
    fields. rewrite Hs. simpl.
    replace (node + s) with (base + total (l1 ++ [(s, false)])) by (subst node; rewrite total_app; simpl; lia).
    erewrite rep_is_free; [|rewrite <- app_assoc; exact Hrep]. done.
  - destruct l2 as [|c l2]; [done|]. subst cs.
    pose proof (hr_hdrs _ _ _ _ _ _ Hrep) as (_ & Hs & Hp & Hs2 & Hp2 & _)%hdrs_app.
    fold node in Hs, Hp, Hs2, Hp2. simpl in Hs, Hp, Hs2, Hp2.
    pose proof (rep_split_facts _ _ _ _ _ _ _ _ Hrep) as
      (? & ? & [? Hds] & ? & ? & ? & ? & Hok1 & [[? ?] [[? ?] Hok2]%Forall_cons]%Forall_cons). simpl in *.
    pose proof (total_nonneg _ Hok2).
    destruct (rep_unlink Hrep (node + s) (listed base l1 (s + s2) (c :: l2)))
      as (m1 & f1 & Hun & Hrep1 & Hfor1 & Hsz1 & Hpr1 & Hnx).
    { apply listed_next_free. }
    assert (Hnode : node ∉ listed base l1 (s + s2) (c :: l2)).
    { apply (not_listed base l1 (s + s2) false).
      apply Forall_app; split; [done|]. repeat constructor; simpl; try done; try lia.
      by apply Z.divide_add_r. }
    destruct (rep_merge m1 nl base l1 s s2 c l2 _ f1 Hrep1 Hnode Hnx) as [Hrep2 Hfor2].
    fold node in Hrep2, Hfor2. eexists _, f1.
    split; [|split; [exact Hrep2|intros b Hb; rewrite Hfor2, Hfor1 by done; done]].
    pose proof (hr_hdrs _ _ _ _ _ _ Hrep1) as (_ & Hs' & _ & Hs2' & _ & _ & Hcp' & _)%hdrs_app.
    fold node in Hs', Hs2', Hcp'. simpl in Hs', Hs2', Hcp'.
    unfold free_merge_next. fields. rewrite Hs.
    rewrite (is_free_flag m (node + s) s false) by (fields; done || lia). simpl.
    rewrite Hs2, Hun. simpl. rewrite Hs', Hs2', u32_small, load_store_eq by lia.
    rewrite (set_preceding_eq _ _ _ s2 c.2) by (lia || (mem_simpl; done)).
    by replace (node + s + s2) with (node + (s + s2)) by lia.
Qed.

Lemma free_merge_prev_spec m nl base l1 s c l2 fl :
  let cs := l1 ++ (s, false) :: c :: l2 in
  let node := base + total l1 in
  let '(l1', s') := merge_prev l1 s in
  heap_rep m nl base cs (listed base l1 s (c :: l2)) fl -> l1 <> [] ->
  exists m' fl', free_merge_prev m node (node + s) = Some (m', base + total l1') /\
    heap_rep m' nl base (l1' ++ (s', false) :: c :: l2) (listed base l1' s' (c :: l2)) fl' /\
    (forall b, foreign nl base cs b -> m'.[b] = m.[b]).
Proof.
  intros cs node. unfold merge_prev. destruct l1 as [|[s1 al] l1 _] using rev_ind.
  { destruct (last []) as [[? [|]]|]; intros _ []; done. }
  rewrite last_snoc, removelast_last. subst cs.
  assert (Hp : forall L, heap_rep m nl base ((l1 ++ [(s1, al)]) ++ (s, false) :: c :: l2) L fl ->
            m.[f_preceding node] = s1).
  { intros L Hrep. apply hr_hdrs, hdrs_at in Hrep as [_ Hp]. fold node in Hp.
    rewrite Hp, lastsz_app. simpl. lia. }
  assert (Hnode : node - s1 = base + total l1) by (subst node; rewrite total_app; simpl; lia).
  destruct al; simpl; intros Hrep _.
  - exists m, fl. split; [|done]. unfold free_merge_prev.
    rewrite (Hp _ Hrep), Hnode.
    erewrite rep_is_free; [|rewrite <- app_assoc in Hrep; exact Hrep]. done.
  - specialize (Hp _ Hrep). rewrite <- app_assoc in Hrep. simpl in Hrep.
    pose proof (rep_split_facts _ _ _ _ _ _ _ _ Hrep) as
      (? & ? & [? Hds] & ? & ? & ? & ? & Hok1 & [[? ?] [[? ?] Hok2]%Forall_cons]%Forall_cons). simpl in *.
    pose proof (total_nonneg _ Hok2). pose proof (rep_is_free _ _ _ _ _ _ _ _ Hrep) as Hfree.
    set (prev := base + total l1) in *.
    destruct (rep_unlink Hrep prev (listed base l1 (s1 + s) (c :: l2)))
      as (m1 & f1 & Hun & Hrep1 & Hfor1 & Hsz1 & Hpr1 & Hnx).
    { apply listed_prev_free. }
    assert (Hns : prev + s1 ∉ listed base l1 (s1 + s) (c :: l2)).
    { unfold listed. fold prev.
      intros [Hin%free_addrs_sub | Hin%free_addrs_sub]%elem_of_app; apply addrs_range in Hin;
        try lia; try done. repeat constructor; done. }
    destruct (rep_merge m1 nl base l1 s1 s c l2 _ f1 Hrep1 Hnx Hns) as [Hrep2 Hfor2].
    fold prev in Hrep2, Hfor2. eexists _, f1.
    split; [|split; [exact Hrep2|]].
    + pose proof (hr_hdrs _ _ _ _ _ _ Hrep1) as (_ & Hs' & _ & Hs2' & _ & _ & Hcp' & _)%hdrs_app.
      fold prev in Hs', Hs2', Hcp'. simpl in Hs', Hs2', Hcp'.
      unfold free_merge_prev. rewrite Hp, Hnode.
      rewrite Hfree. simpl. fields. rewrite Hun. simpl.
      replace node with (prev + s1) by (subst prev; lia).
      rewrite Hs', Hs2', u32_small, load_store_eq by lia.
      rewrite (set_preceding_eq _ _ _ s c.2) by (lia || (mem_simpl; done)).
      by replace (prev + s1 + s) with (prev + (s1 + s)) by lia.
    + intros b Hb. rewrite <- app_assoc in Hb. rewrite Hfor2, Hfor1 by done. done.
Qed.

(** The layout after freeing the chunk of size [s] between [l1] and [l2]. *)
Definition freed (l1 : list chunk) (s : Z) (l2 : list chunk) : list chunk :=
  let '(s, l2) := merge_next s l2 in
  let '(l1, s) := merge_prev l1 s in
  l1 ++ (s, false) :: l2.

(** Where the freed chunk starts. *)
Definition freed_start (base : Z) (l1 : list chunk) (s : Z) : Z :=
  base + total (merge_prev l1 s).1.

Lemma merge_prev_total l1 s : let '(l1', s') := merge_prev l1 s in total l1' + s' = total l1 + s.
Proof.
  unfold merge_prev. destruct l1 as [|[s1 [|]] l1 _] using rev_ind; [done|..];
    rewrite last_snoc; rewrite ?removelast_last, ?total_app; simpl; lia.
Qed.

Lemma merge_next_total s l2 : let '(s', l2') := merge_next s l2 in s' + total l2' = s + total l2.
Proof. destruct l2 as [|[s2 [|]] l2]; simpl; lia. Qed.

(** The chunk after the freed one and its free neighbours is allocated. *)
Lemma merge_next_nonempty s l2 :
  last l2 = Some (16, true) -> (merge_next s l2).2 <> [].
Proof. destruct l2 as [|[s2 [|]] [|c l2]]; simpl; done. Qed.

Lemma foreign_merge_next nl base l1 s l2 b :
  let '(s', l2') := merge_next s l2 in
  foreign nl base (l1 ++ (s, false) :: l2) b -> foreign nl base (l1 ++ (s', false) :: l2') b.
Proof.
  destruct l2 as [|[s2 [|]] l2]; simpl; [done..|].
  apply (foreign_mid nl base l1 [(s, false); (s2, false)] [(s + s2, false)]); [simpl; lia|].
  intros []%payload_free. by repeat constructor.
Qed.

Lemma foreign_merge_prev nl base l1 s l2 b :
  let '(l1', s') := merge_prev l1 s in
  foreign nl base (l1 ++ (s, false) :: l2) b -> foreign nl base (l1' ++ (s', false) :: l2) b.
Proof.
  unfold merge_prev. destruct l1 as [|[s1 [|]] l1 _] using rev_ind; [simpl; tauto|..];
    rewrite last_snoc, ?removelast_last; [done|]. rewrite <- app_assoc.
  apply (foreign_mid nl base l1 [(s1, false); (s, false)] [(s1 + s, false)]); [simpl; lia|].
  intros []%payload_free. by repeat constructor.
Qed.

Lemma free_chunk_spec m nl base l1 s al l2 fuel fl :
  let cs := l1 ++ (s, al) :: l2 in
  let cs' := freed l1 s l2 in
  let node := base + total l1 in
  heap_rep m nl base cs (listed base l1 s l2) fl ->
  l1 <> [] -> last l2 = Some (16, true) -> enough_fuel fuel cs ->
  exists m' fl', free_chunk fuel nl m node = Some m' /\
    heap_rep m' nl base cs' (free_addrs base cs') fl' /\
    (forall b, foreign nl base (l1 ++ (s, false) :: l2) b -> m'.[b] = m.[b]).
Proof.
  intros cs cs' node Hrep Hl1 Hl2 Hfuel. subst cs.
  pose proof (rep_split_facts _ _ _ _ _ _ _ _ Hrep) as (? & ? & [? ?] & ? & ? & ? & Hlast & Hok1 & Hok2).
  pose proof (not_listed base l1 s al l2 (hr_sizes _ _ _ _ _ _ Hrep)) as HnL.
  pose proof (hdrs_at _ _ _ _ _ _ (hr_hdrs _ _ _ _ _ _ Hrep)) as [_ Hp]. fold node in Hp.
  destruct l2 as [|c l2]; [done|]. simpl in Hp.
  pose proof (rep_set_flag _ _ _ _ _ _ false _ _ _ _ Hrep HnL) as Hrep0. fold node in Hrep0.
  unfold free_chunk. rewrite Hp, land_alloc_bit by done. unfold flag in Hrep0. rewrite Z.add_0_r in Hrep0.
  set (m0 := m.[f_preceding node <- lastsz 0 l1]) in *.
  assert (Hfor0 : forall b, foreign nl base (l1 ++ (s, false) :: c :: l2) b -> m0.[b] = m.[b]).
  { intros b Hb. subst m0. apply load_store_ne. intros ->.
    destruct (foreign_not_node Hrep0 _ node Hb) as [? | ?]; [|fields; lia..].
    apply node_of_addr. rewrite addrs_app. simpl. fold node. set_solver. }
  pose proof (free_merge_next_spec m0 nl base l1 s c l2 fl) as Hn. cbn zeta in Hn. fold node in Hn.
  pose proof (merge_next_nonempty s _ Hl2) as Hne. pose proof (merge_next_total s (c :: l2)) as Ht1.
  pose proof (fun b => foreign_merge_next nl base l1 s (c :: l2) b) as Hf1.
  subst cs'. unfold freed. destruct (merge_next s (c :: l2)) as [s1 l2'].
  destruct (Hn Hrep0 Hne) as (m1 & f1 & -> & Hrep1 & Hfor1). simpl in Hne |- *.
  destruct l2' as [|c' l2']; [done|].
  pose proof (free_merge_prev_spec m1 nl base l1 s1 c' l2' f1) as Hv. cbn zeta in Hv. fold node in Hv.
  pose proof (merge_prev_total l1 s1) as Ht2.
  pose proof (fun b => foreign_merge_prev nl base l1 s1 (c' :: l2') b) as Hf2.
  destruct (merge_prev l1 s1) as [l1' s2]. destruct (Hv Hrep1 Hl1) as (m2 & f2 & -> & Hrep2 & Hfor2). simpl.
  destruct (rep_add Hrep2 (base + total l1') fuel) as (m3 & f3 & Hadd & Hrep3 & Hfor3 & _).
  { rewrite addrs_app. simpl. set_solver. }
  { apply (not_listed _ _ _ false). apply Hrep2. }
  { eapply enough_fuel_eq; [|exact Hfuel]. rewrite !total_app. simpl in *. lia. }
  exists m3, f3. split; [done|]. split.
  - eapply rep_perm; [|exact Hrep3]. symmetry. apply free_addrs_mid.
  - intros b Hb. rewrite Hfor3, Hfor2, Hfor1, Hfor0; auto.
Qed.
