(* ===== verification/MmHeapProps.v ===== *)
(** * The kernel heap: correctness of the public operations *)

From stdpp Require Import base tactics numbers list sorting gmap.
From S2P Require Import Prelude MmHeap MmFreeList MmLayout MmHeapOps.

(** ** Well-formed heaps *)

(** The heap is laid out as [cs]. *)
Definition heap_wf (h : mm_heap_s) (cs : list chunk) : Prop :=
  heap_inv (mm_mem h) (mm_nodelist h) (mm_heapstart h) cs /\
  mm_heapend h = mm_heapstart h + total cs - 16.

(** No task holds the heap semaphore. *)
Definition unlocked (h : mm_heap_s) : Prop :=
  mm_semaphore h = 1 /\ mm_holder h = -1 /\ mm_counts_held h = 0.

(** Memory outside the chunks under change is kept. *)
Definition keeps (cs : list chunk) (h h' : mm_heap_s) : Prop :=
  forall b, foreign (mm_nodelist h) (mm_heapstart h) cs b -> (mm_mem h').[b] = (mm_mem h).[b].

(** The bytes in allocated chunks, guards included. *)
Fixpoint allocated (cs : list chunk) : Z :=
  match cs with
  | [] => 0
  | c :: cs => (if c.2 then c.1 else 0) + allocated cs
  end.

(** [total_alloc_size] is the size of the allocated chunks but for the guards. *)
Definition accounted (h : mm_heap_s) (cs : list chunk) : Prop :=
  mm_total_alloc_size h + 2 * SIZEOF_MM_ALLOCNODE = allocated cs.

(** The chunk size that serves a request of [size] bytes. *)
Definition request (size : Z) : Z := 16 * ((size + 31) / 16).

Lemma allocated_app cs1 cs2 : allocated (cs1 ++ cs2) = allocated cs1 + allocated cs2.
Proof. induction cs1; simpl; lia. Qed.

Lemma allocated_bound cs : Forall chunk_ok cs -> 0 <= allocated cs <= total cs.
Proof. induction 1 as [|c cs [? ?] Hcs IH]; simpl; [lia|]. destruct c.2; lia. Qed.

Lemma MM_ALIGN_UP_eq a : 0 <= a -> a + 15 < 4294967296 -> MM_ALIGN_UP a = 16 * ((a + 15) / 16).
Proof.
  intros. unfold MM_ALIGN_UP, MM_GRAN_MASK. rewrite u32_small by lia.
  change 15 with (2 ^ 4 - 1) at 2. rewrite land_lnot_mask by lia.
  pose proof (Z.div_mod (a + 15) 16). change (2 ^ 4) with 16. lia.
Qed.

Lemma MM_ALIGN_DOWN_eq a : 0 <= a < 4294967296 -> MM_ALIGN_DOWN a = 16 * (a / 16).
Proof.
  intros. unfold MM_ALIGN_DOWN, MM_GRAN_MASK. rewrite u32_small by lia.
  change 15 with (2 ^ 4 - 1). rewrite land_lnot_mask by lia.
  pose proof (Z.div_mod a 16). change (2 ^ 4) with 16. lia.
Qed.

Lemma request_eq size :
  1 <= size <= 4294967264 -> MM_ALIGN_UP (u32 (size + SIZEOF_MM_ALLOCNODE)) = request size.
Proof.
  intros. unfold SIZEOF_MM_ALLOCNODE. rewrite u32_small, MM_ALIGN_UP_eq by lia.
  unfold request. do 2 f_equal. lia.
Qed.

Lemma request_bounds size :
  1 <= size <= 4294967264 -> size + 16 <= request size <= size + 31 /\ 32 <= request size /\ (16 | request size).
Proof.
  intros. unfold request. pose proof (Z.div_mod (size + 31) 16). pose proof (Z.mod_pos_bound (size + 31) 16).
  split_and!; try lia. apply Z.divide_factor_l.
Qed.

(** ** Locking *)

Lemma take_unlocked e h :
  unlocked h -> 0 <= getpid e -> mm_takesemaphore e h = Some (with_sem h 0 (getpid e) 1).
Proof.
  intros (Hs & Hh & Hc) Hp. unfold mm_takesemaphore. rewrite Hh, Hs.
  destruct (Z.eqb_spec (-1) (getpid e)); [lia|]. done.
Qed.

(** The state of the semaphore while [e] holds it once. *)
Definition held (e : env) (h : mm_heap_s) : Prop :=
  mm_semaphore h = 0 /\ mm_holder h = getpid e /\ mm_counts_held h = 1.

Lemma give_held e h : held e h -> mm_givesemaphore e h = Some (with_sem h 1 (-1) 0).
Proof.
  intros (Hs & Hh & Hc). unfold mm_givesemaphore. rewrite Hh, Hc, Hs, Z.eqb_refl. done.
Qed.

(** ** Accounting *)

(** [h'] agrees with [h] on everything but memory and accounting. *)
Definition same_frame (h h' : mm_heap_s) : Prop :=
  mm_nodelist h' = mm_nodelist h /\ mm_heapstart h' = mm_heapstart h /\ mm_heapend h' = mm_heapend h /\
  mm_semaphore h' = mm_semaphore h /\ mm_holder h' = mm_holder h /\
  mm_counts_held h' = mm_counts_held h /\ mm_heapsize h' = mm_heapsize h.

Lemma heapinfo_add_size_frame pid size h :
  same_frame h (heapinfo_add_size pid size h) /\ mm_mem (heapinfo_add_size pid size h) = mm_mem h /\
  mm_total_alloc_size (heapinfo_add_size pid size h) = mm_total_alloc_size h.
Proof. unfold heapinfo_add_size. destruct (mm_tcbs h !! pid); by repeat split. Qed.

Lemma heapinfo_subtract_size_frame pid size h :
  same_frame h (heapinfo_subtract_size pid size h) /\ mm_mem (heapinfo_subtract_size pid size h) = mm_mem h /\
  mm_total_alloc_size (heapinfo_subtract_size pid size h) = mm_total_alloc_size h.
Proof. unfold heapinfo_subtract_size. destruct (mm_tcbs h !! pid); by repeat split. Qed.

Lemma same_frame_trans h1 h2 h3 : same_frame h1 h2 -> same_frame h2 h3 -> same_frame h1 h3.
Proof. unfold same_frame. intuition congruence. Qed.

Lemma heapinfo_charge_spec e h node ra :
  let h' := heapinfo_charge e h node ra in
  same_frame h h' /\
  (exists v, mm_mem h' = ((mm_mem h).[node + 8 <- ra]).[node + 12 <- v]) /\
  mm_total_alloc_size h' = i32 (mm_total_alloc_size h + i32 (mm_mem h').[f_size node]).
Proof.
  intros h'. subst h'. unfold heapinfo_charge.
  set (m := heapinfo_update_node e (mm_mem h) node ra).
  destruct (heapinfo_add_size_frame (node_pid m node) m.[f_size node] (with_mem h m)) as (Hf & Hm & Ht).
  set (h1 := heapinfo_add_size _ _ _) in *.
  split; [|split].
  - eapply same_frame_trans; [|eapply same_frame_trans; [exact Hf|]]; by repeat split.
  - eexists. simpl. rewrite Hm. reflexivity.
  - simpl. rewrite Ht, Hm. done.
Qed.

Lemma heapinfo_discharge_spec h node size :
  let h' := heapinfo_discharge h node size in
  same_frame h h' /\ mm_mem h' = mm_mem h /\
  mm_total_alloc_size h' = i32 (mm_total_alloc_size h + i32 (u32 (- size))).
Proof.
  intros h'. subst h'. unfold heapinfo_discharge.
  destruct (heapinfo_subtract_size_frame (node_pid (mm_mem h) node) size h) as (Hf & Hm & Ht).
  set (h1 := heapinfo_subtract_size _ _ _) in *. split; [|split].
  - eapply same_frame_trans; [exact Hf|]. by repeat split.
  - done.
  - simpl. by rewrite Ht.
Qed.

(** The record in a node's last two words is not part of the layout. *)
Lemma rep_record m nl base l1 s al l2 L fl v1 v2 :
  let node := base + total l1 in
  let m' := (m.[node + 8 <- v1]).[node + 12 <- v2] in
  heap_rep m nl base (l1 ++ (s, al) :: l2) L fl -> node ∉ L ->
  heap_rep m' nl base (l1 ++ (s, al) :: l2) L fl /\
  m'.[f_size node] = m.[f_size node] /\
  (forall b, foreign nl base (l1 ++ (s, al) :: l2) b -> m'.[b] = m.[b]).
Proof.
  intros node m' Hrep HL.
  assert (Hin : node ∈ heads nl ++ addrs base (l1 ++ (s, al) :: l2)).
  { apply node_of_addr. rewrite addrs_app. simpl. fold node. set_solver. }
  pose proof (rep_spaced Hrep) as Hsp. pose proof (rep_list_sub Hrep) as Hsub.
  assert (Hnl : node ∉ fl).
  { rewrite (hr_perm _ _ _ _ _ _ Hrep), elem_of_app, elem_of_heads. intros [Hh | ?]; [|done].
    eapply (rep_not_head Hrep); [|exact Hh]. rewrite addrs_app. simpl. fold node. set_solver. }
  split; [|split].
  - destruct Hrep as [? ? ? ? ? Hh Hl Hp Hs]. constructor; try done.
    + eapply hdrs_ext; [|exact Hh]. intros x Hx.
      pose proof (Hsp x node (node_of_addr _ _ _ _ Hx) Hin). subst m'. fields. mem_simpl. done.
    + eapply free_list_ext; [|exact Hl]. intros x Hx.
      destruct (Hsp x node (Hsub x Hx) Hin) as [-> | ?]; [done|]. subst m'. fields. mem_simpl. done.
  - subst m'. fields. mem_simpl. done.
  - intros b Hb. destruct (foreign_not_node Hrep b node Hb Hin); subst m'; mem_simpl; done.
Qed.

(** ** Plumbing between heaps and layouts *)

Lemma wf_fuel h cs : heap_wf h cs -> enough_fuel (list_fuel h) cs.
Proof.
  intros [(_ & _ & fl & Hrep) Hend]. pose proof (rep_total_ge Hrep).
  unfold enough_fuel, list_fuel, MM_MIN_CHUNK, MM_NNODES. rewrite Hend.
  replace (mm_heapstart h + total cs - 16 - mm_heapstart h) with (total cs + (-1) * 16) by lia.
  rewrite Z.div_add by lia. pose proof (Z.div_pos (total cs) 16). lia.
Qed.

(** Sizes on the node list are the sizes of the free chunks. *)
Lemma rep_listed_size m nl base cs fl x :
  heap_rep m nl base cs (free_addrs base cs) fl -> x ∈ fl -> ~ is_head nl x ->
  exists l1 s l2, cs = l1 ++ (s, false) :: l2 /\ x = base + total l1 /\ m.[f_size x] = s.
Proof.
  intros Hrep Hx Hn. rewrite (hr_perm _ _ _ _ _ _ Hrep), elem_of_app, elem_of_heads in Hx.
  destruct Hx as [? | Hx]; [done|]. destruct (free_addrs_split _ _ _ Hx) as (l1 & s & l2 & -> & ->).
  exists l1, s, l2. split_and!; [done..|]. by apply hr_hdrs, hdrs_at in Hrep as [? _].
Qed.

Lemma rep_free_listed m nl base cs fl s :
  heap_rep m nl base cs (free_addrs base cs) fl -> (s, false) ∈ cs ->
  exists x, x ∈ fl /\ m.[f_size x] = s.
Proof.
  intros Hrep Hs. destruct (list_elem_of_split _ _ Hs) as (l1 & l2 & ->).
  exists (base + total l1). split.
  - rewrite (hr_perm _ _ _ _ _ _ Hrep), elem_of_app. right.
    rewrite free_addrs_app. simpl. set_solver.
  - by apply hr_hdrs, hdrs_at in Hrep as [? _].
Qed.

Lemma coalesced_carve l1 size s l2 :
  coalesced (l1 ++ (s, false) :: l2) = true -> coalesced (l1 ++ carve size s ++ l2) = true.
Proof.
  change ((s, false) :: l2) with ([(s, false)] ++ l2). rewrite !coalesced_concat.
  unfold carve. destruct (16 <=? s - size); cbn;
    destruct (coalesced l1), (coalesced l2), (ends_free l1), (starts_free l2); done.
Qed.

(** Assembling a well-formed heap from its parts. *)
Lemma heap_wf_intro h m cs fl :
  coalesced cs = true -> guarded cs -> mm_mem h = m ->
  mm_heapend h = mm_heapstart h + total cs - 16 ->
  heap_rep m (mm_nodelist h) (mm_heapstart h) cs (free_addrs (mm_heapstart h) cs) fl ->
  heap_wf h cs.
Proof. intros ? ? <- ? ?. split; [|done]. split_and!; [done..|]. by exists fl. Qed.

(** The whole effect of charging a node on a heap whose memory represents
    a layout in which the node is allocated. *)
Lemma charge_spec e h node ra l1 s l2 fl :
  let cs := l1 ++ (s, true) :: l2 in
  let h' := heapinfo_charge e h node ra in
  node = mm_heapstart h + total l1 ->
  heap_rep (mm_mem h) (mm_nodelist h) (mm_heapstart h) cs (free_addrs (mm_heapstart h) cs) fl ->
  same_frame h h' /\
  heap_rep (mm_mem h') (mm_nodelist h) (mm_heapstart h) cs (free_addrs (mm_heapstart h) cs) fl /\
  (forall b, foreign (mm_nodelist h) (mm_heapstart h) cs b -> (mm_mem h').[b] = (mm_mem h).[b]) /\
  mm_total_alloc_size h' = i32 (mm_total_alloc_size h + i32 s).
Proof.
  intros cs h' -> Hrep. set (node := mm_heapstart h + total l1) in *.
  destruct (heapinfo_charge_spec e h node ra) as (Hf & [v Hm] & Ht). fold h' in Hf, Hm, Ht.
  assert (HL : node ∉ free_addrs (mm_heapstart h) cs).
  { subst cs. rewrite free_addrs_app. simpl. apply (not_listed _ _ _ true). apply Hrep. }
  destruct (rep_record _ _ _ _ _ _ _ _ _ ra v Hrep HL) as (Hrep' & Hs & Hfor).
  fold node in Hrep', Hs, Hfor. rewrite <- Hm in Hrep', Hs, Hfor.
  pose proof (hdrs_at _ _ _ _ _ _ (hr_hdrs _ _ _ _ _ _ Hrep)) as [Hsz _]. fold node in Hsz.
  split_and!; [done..|]. rewrite Ht, Hs, Hsz. done.
Qed.

(** ** mm_malloc *)

(** What taking a chunk of [req] bytes makes of a layout: a free chunk that is
    large enough, and no larger than any other such chunk, is cut. *)
Definition malloc_fit (cs : list chunk) (base req r : Z) (cs' : list chunk) : Prop :=
  exists l1 s l2, cs = l1 ++ (s, false) :: l2 /\ r = base + total l1 + 16 /\
    req <= s /\ (forall s', (s', false) ∈ cs -> req <= s' -> s <= s') /\
    cs' = l1 ++ carve req s ++ l2.

(** What a successful allocation of [size] bytes makes of a layout. *)
Definition malloc_result (cs : list chunk) (base size r : Z) (cs' : list chunk) : Prop :=
  malloc_fit cs base (request size) r cs'.

(** Accounting and release of the semaphore after a chunk was taken. *)
Lemma malloc_charge e h m1 fl1 ra l1 req s l2 :
  let cs := l1 ++ (s, false) :: l2 in
  let cs' := l1 ++ carve req s ++ l2 in
  let h1 := with_mem (with_sem h 0 (getpid e) 1) m1 in
  let base := mm_heapstart h in
  heap_wf h cs -> unlocked h -> l1 <> [] -> last l2 = Some (16, true) -> (16 | req) -> 16 <= req <= s ->
  heap_rep m1 (mm_nodelist h) base cs' (free_addrs base cs') fl1 ->
  (forall b, foreign (mm_nodelist h) base cs b -> m1.[b] = (mm_mem h).[b]) ->
  exists h', mm_givesemaphore e (heapinfo_charge e h1 (base + total l1) ra) = Some h' /\
    unlocked h' /\ keeps cs h h' /\ mm_nodelist h' = mm_nodelist h /\ mm_heapstart h' = base /\
    mm_heapsize h' = mm_heapsize h /\ heap_wf h' cs' /\ (accounted h cs -> accounted h' cs').
Proof.
  intros cs cs' h1 base Hwf Hul Hl1 Hl2 Hdiv Hle Hrep1 Hfor1.
  destruct Hwf as [(Hco & Hg & fl & Hrep) Hend].
  pose proof (rep_split_facts _ _ _ _ _ _ _ _ Hrep) as (_ & _ & [_ Hds] & _). simpl in Hds.
  assert (Htot : total cs' = total cs) by (subst cs cs'; by rewrite !total_app, total_carve by (done || lia)).
  destruct (charge_spec e h1 (base + total l1) ra l1 req
              ((if 16 <=? s - req then [(s - req, false)] else []) ++ l2) fl1)
    as (Hframe & Hrep2 & Hfor2 & Htotal); [done|exact Hrep1|].
  set (h2 := heapinfo_charge e h1 (base + total l1) ra) in *. clearbody h2.
  destruct Hframe as (Hf1 & Hf2 & Hf3 & Hf4 & Hf5 & Hf6 & Hf7). simpl in Hf1, Hf2, Hf3, Hf4, Hf5, Hf6, Hf7.
  rewrite give_held by (by split_and!). eexists. split; [done|]. split; [done|]. split.
  { intros b Hb. simpl. rewrite Hfor2; [by apply Hfor1|].
    apply (foreign_free _ _ l1 [(s, false)] (carve req s) l2); [by repeat constructor| |done].
    rewrite total_carve by (done || lia). simpl. lia. }
  simpl. rewrite Hf1, Hf2, Hf7. do 3 (split; [done|]). split.
  - eapply heap_wf_intro with (fl := fl1).
    + by apply coalesced_carve.
    + apply (guarded_replace l1 [(s, false)]); done.
    + reflexivity.
    + simpl. rewrite Hf2, Hf3, Htot. done.
    + simpl. rewrite Hf1, Hf2. exact Hrep2.
  - unfold accounted. simpl. intros Hacc. rewrite Htotal. simpl.
    pose proof (allocated_bound _ (hr_sizes _ _ _ _ _ _ Hrep1)) as Hb.
    pose proof (hr_total _ _ _ _ _ _ Hrep1) as Ht.
    assert (Hal : allocated cs' = allocated cs + req).
    { subst cs cs'. rewrite !allocated_app. unfold carve. destruct (16 <=? s - req); simpl; lia. }
    pose proof (allocated_bound _ (hr_sizes _ _ _ _ _ _ Hrep)) as Hb0.
    unfold SIZEOF_MM_ALLOCNODE in *. rewrite (i32_small req), i32_small; lia.
Qed.

(** [mm_malloc] by the chunk size [req] it computes. *)
Lemma mm_malloc_chunk e h cs size ra req :
  heap_wf h cs -> unlocked h -> 0 <= getpid e ->
  1 <= size -> MM_ALIGN_UP (u32 (size + SIZEOF_MM_ALLOCNODE)) = req -> 16 <= req -> (16 | req) ->
  exists r h', mm_malloc e h size ra = Some (r, h') /\ unlocked h' /\ keeps cs h h' /\
    mm_nodelist h' = mm_nodelist h /\ mm_heapstart h' = mm_heapstart h /\ mm_heapsize h' = mm_heapsize h /\
    ((r = 0 /\ heap_wf h' cs /\ (forall s, (s, false) ∈ cs -> s < req) /\
      mm_total_alloc_size h' = mm_total_alloc_size h) \/
     (exists cs', malloc_fit cs (mm_heapstart h) req r cs' /\ heap_wf h' cs' /\
      (accounted h cs -> accounted h' cs'))).
Proof.
  intros Hwf Hul Hpid Hsize Hreq Hreq16 Hdiv. pose proof (wf_fuel _ _ Hwf) as Hfuel.
  pose proof Hwf as [(Hco & Hg & fl & Hrep) Hend].
  unfold mm_malloc. destruct (Z.ltb_spec size 1); [lia|].
  rewrite Hreq, take_unlocked by done. simpl.
  assert (Hndx : (if MM_MAX_CHUNK <=? req then MM_NNODES - 1 else mm_size2ndx req) = mm_size2ndx req).
  { unfold mm_size2ndx. destruct (MM_MAX_CHUNK <=? req); done. }
  rewrite Hndx. set (h1 := with_sem h 0 (getpid e) 1).
  destruct (find_fit_best (mm_mem h) (mm_nodelist h) fl req (list_fuel h1))
    as (node & Hfind & Hcase); [apply Hrep|lia| |].
  { pose proof (rep_length Hrep). unfold enough_fuel in Hfuel. change (list_fuel h1) with (list_fuel h). lia. }
  rewrite Hfind. simpl.
  destruct Hcase as [[-> Hnone] | (Hin & Hnh & Hge & Hbest)].
  - rewrite give_held by done. simpl. eexists _, _. split; [done|].
    split; [done|]. split; [by intros ? ?|]. do 3 (split; [done|]). left.
    split; [done|]. split.
    { eapply heap_wf_intro; [done..|]. exact Hrep. }
    split; [|done]. intros s Hs. destruct (rep_free_listed _ _ _ _ _ _ Hrep Hs) as (x & Hx & <-). auto.
  - destruct (rep_listed_size _ _ _ _ _ _ Hrep Hin Hnh) as (l1 & s & l2 & -> & Hnode & Hs).
    destruct (guarded_free_inside _ _ _ Hg) as [Hl1 Hl2].
    destruct (Z.eqb_spec node 0).
    { pose proof (fl_pos _ _ _ (hr_list _ _ _ _ _ _ Hrep) node Hin). lia. }
    rewrite Hs in Hge, Hbest. destruct l2 as [|c l2]; [done|].
    destruct (malloc_carve_spec (mm_mem h) (mm_nodelist h) (mm_heapstart h) l1 s c l2 req (list_fuel h1) fl)
      as (m1 & fl1 & Hcarve & Hrep1 & Hfor1); [done|lia|done|done|].
    rewrite Hnode, Hcarve. simpl.
    destruct (malloc_charge e h m1 fl1 ra l1 req s (c :: l2))
      as (h' & Hgive & Hul' & Hk & Hn' & Hb' & Hs' & Hwf' & Hacc'); try done.
    fold h1 in Hgive. rewrite Hgive. simpl. eexists _, h'. split; [done|]. do 5 (split; [done|]). right.
    exists (l1 ++ carve req s ++ c :: l2). split; [|done].
    exists l1, s, (c :: l2). split_and!; try done.
    intros s' Hs'' Hge'. destruct (rep_free_listed _ _ _ _ _ _ Hrep Hs'') as (x & Hx & Hsx).
    rewrite <- Hsx. apply Hbest; [done|]. by rewrite Hsx.
Qed.

Lemma mm_malloc_spec e h cs size ra :
  heap_wf h cs -> unlocked h -> 0 <= getpid e -> 1 <= size <= 4294967264 ->
  exists r h', mm_malloc e h size ra = Some (r, h') /\ unlocked h' /\ keeps cs h h' /\
    mm_nodelist h' = mm_nodelist h /\ mm_heapstart h' = mm_heapstart h /\ mm_heapsize h' = mm_heapsize h /\
    ((r = 0 /\ heap_wf h' cs /\ (forall s, (s, false) ∈ cs -> s < request size) /\
      mm_total_alloc_size h' = mm_total_alloc_size h) \/
     (exists cs', malloc_result cs (mm_heapstart h) size r cs' /\ heap_wf h' cs' /\
      (accounted h cs -> accounted h' cs'))).
Proof.
  intros Hwf Hul Hpid Hsize. destruct (request_bounds size Hsize) as (_ & ? & Hdiv).
  apply mm_malloc_chunk; try done; [lia|by apply request_eq|lia].
Qed.

(** ** mm_free *)

Lemma merge_next_starts s l2 :
  coalesced l2 = true -> let '(_, l2') := merge_next s l2 in coalesced l2' = true /\ starts_free l2' = false.
Proof.
  destruct l2 as [|[s2 [|]] l2]; [done..|]. simpl merge_next. intros Hco.
  change ((s2, false) :: l2) with ([(s2, false)] ++ l2) in Hco. rewrite coalesced_concat in Hco.
  cbn in Hco |- *. destruct (coalesced l2), (starts_free l2); done.
Qed.

Lemma merge_prev_ends l1 s :
  coalesced l1 = true -> let '(l1', _) := merge_prev l1 s in coalesced l1' = true /\ ends_free l1' = false.
Proof.
  unfold merge_prev. destruct l1 as [|[s1 al] l1 _] using rev_ind; [done|].
  rewrite last_snoc, removelast_last. destruct al.
  - intros ->. by rewrite ends_free_app.
  - rewrite coalesced_concat. cbn. destruct (coalesced l1), (ends_free l1); done.
Qed.

Lemma coalesced_freed l1 s al l2 :
  coalesced (l1 ++ (s, al) :: l2) = true -> coalesced (freed l1 s l2) = true.
Proof.
  change ((s, al) :: l2) with ([(s, al)] ++ l2). rewrite !coalesced_concat, !andb_true_iff.
  intros ((Hl1 & (_ & Hl2) & _) & _). unfold freed.
  pose proof (merge_next_starts s l2 Hl2) as Hn. destruct (merge_next s l2) as [s' l2'].
  pose proof (merge_prev_ends l1 s' Hl1) as Hp. destruct (merge_prev l1 s') as [l1' s''].
  destruct Hn as [Hn1 Hn2], Hp as [Hp1 Hp2].
  change ((s'', false) :: l2') with ([(s'', false)] ++ l2'). rewrite !coalesced_concat.
  rewrite Hn1, Hp1, Hn2, Hp2. done.
Qed.

Lemma freed_total l1 s al l2 : total (freed l1 s l2) = total (l1 ++ (s, al) :: l2).
Proof.
  unfold freed. pose proof (merge_next_total s l2). destruct (merge_next s l2) as [s' l2'].
  pose proof (merge_prev_total l1 s'). destruct (merge_prev l1 s') as [l1' s''].
  rewrite !total_app. simpl. lia.
Qed.

Lemma freed_allocated l1 s l2 : allocated (freed l1 s l2) = allocated l1 + allocated l2.
Proof.
  unfold freed. assert (Hn : allocated (merge_next s l2).2 = allocated l2)
    by (destruct l2 as [|[s2 [|]] l2]; done).
  destruct (merge_next s l2) as [s' l2']. simpl in Hn.
  assert (Hp : allocated (merge_prev l1 s').1 = allocated l1).
  { unfold merge_prev. destruct l1 as [|[s1 [|]] l1 _] using rev_ind; [done|..];
      rewrite last_snoc; simpl; rewrite ?removelast_last, ?allocated_app; simpl; lia. }
  destruct (merge_prev l1 s') as [l1' s'']. simpl in Hp. rewrite allocated_app. simpl. lia.
Qed.

Lemma merge_prev_guarded l1 s l2 s' l2' :
  l1 <> [] -> last l2' = Some (16, true) -> head (l1 ++ l2) = Some (16, true) ->
  let '(l1', s'') := merge_prev l1 s in guarded (l1' ++ (s', false) :: l2').
Proof.
  intros Hl1 Hl2 Hh. unfold merge_prev. destruct l1 as [|[s1 al] l1 _] using rev_ind; [done|].
  rewrite last_snoc, removelast_last.
  assert (Hg : forall l, head l = Some (16, true) -> guarded (l ++ (s', false) :: l2')).
  { intros l Hl. destruct l as [|c l]; [done|]. split_and!; [done| |].
    - rewrite last_app, last_cons, Hl2. done.
    - rewrite length_app. simpl. lia. }
  destruct al; apply Hg; destruct l1; try done.
Qed.

Lemma guarded_freed l1 s al l2 :
  l1 <> [] -> l2 <> [] -> guarded (l1 ++ (s, al) :: l2) -> guarded (freed l1 s l2).
Proof.
  intros Hl1 Hne (Hh & Hl & _). unfold freed.
  assert (Hl2 : last (merge_next s l2).2 = Some (16, true)).
  { destruct l2 as [|c l2]; [done|]. rewrite last_app, last_cons, last_cons in Hl.
    destruct c as [s2 [|]]; simpl; [rewrite last_cons|]; destruct (last l2); naive_solver. }
  destruct (merge_next s l2) as [s' l2'].
  pose proof (merge_prev_guarded l1 s' _ s' l2' Hl1 Hl2 Hh) as Hg.
  pose proof (merge_prev_guarded l1 s' _ (merge_prev l1 s').2 l2' Hl1 Hl2 Hh) as Hg'.
  by destruct (merge_prev l1 s').
Qed.

Lemma mm_free_spec e h l1 s l2 :
  let cs := l1 ++ (s, true) :: l2 in
  let ptr := mm_heapstart h + total l1 + 16 in
  heap_wf h cs -> l1 <> [] -> l2 <> [] -> unlocked h -> 0 <= getpid e ->
  exists h', mm_free e h ptr = Some h' /\ unlocked h' /\ keeps (l1 ++ (s, false) :: l2) h h' /\
    same_frame h h' /\ heap_wf h' (freed l1 s l2) /\
    (accounted h cs -> accounted h' (freed l1 s l2)).
Proof.
  intros cs ptr Hwf Hl1 Hl2 Hul Hpid. pose proof (wf_fuel _ _ Hwf) as Hfuel.
  destruct Hwf as [(Hco & Hg & fl & Hrep) Hend]. subst cs.
  pose proof (rep_split_facts _ _ _ _ _ _ _ _ Hrep) as (? & ? & [Hs16 _] & ? & ? & ? & _). cbn [fst] in *.
  unfold mm_free. destruct (Z.eqb_spec ptr 0); [lia|].
  rewrite take_unlocked by done. cbn [mbind option_bind]. unfold SIZEOF_MM_ALLOCNODE.
  replace (ptr - 16) with (mm_heapstart h + total l1) by lia.
  pose proof (rep_is_free _ _ _ _ _ _ _ _ Hrep) as Hfree0.
  set (node := mm_heapstart h + total l1) in *. set (h1 := with_sem h 0 (getpid e) 1).
  change (mm_mem h1) with (mm_mem h). rewrite Hfree0. cbn [negb snd].
  pose proof (hdrs_at _ _ _ _ _ _ (hr_hdrs _ _ _ _ _ _ Hrep)) as [Hs _]. fold node in Hs. rewrite Hs. cbn [fst].
  destruct (heapinfo_discharge_spec h1 node s) as ((Hf1 & Hf2 & Hf3 & Hf4 & Hf5 & Hf6 & Hf7) & Hm & Ht).
  set (h2 := heapinfo_discharge h1 node s) in *. clearbody h2. simpl in Hf1, Hf2, Hf3, Hf4, Hf5, Hf6, Hf7, Hm.
  assert (Hlast : last l2 = Some (16, true)).
  { destruct Hg as (_ & Hg & _). destruct l2 as [|c l2]; [done|].
    rewrite last_app, last_cons, last_cons in Hg. rewrite last_cons. destruct (last l2); naive_solver. }
  destruct (free_chunk_spec (mm_mem h) (mm_nodelist h) (mm_heapstart h) l1 s true l2 (list_fuel h) fl)
    as (m' & fl' & Hfree & Hrep' & Hfor); [|done..|].
  { eapply rep_perm; [|exact Hrep]. rewrite free_addrs_app. simpl. done. }
  fold node in Hfree. replace (list_fuel h2) with (list_fuel h) by (unfold list_fuel; by rewrite Hf2, Hf3).
  rewrite Hf1, Hm, Hfree. simpl. rewrite give_held by (by split_and!).
  eexists. split; [done|]. split; [done|]. split; [by intros b Hb; apply Hfor|].
  split; [destruct Hul as (? & ? & ?); repeat split; simpl; congruence|]. split.
  - eapply heap_wf_intro with (fl := fl').
    + by eapply coalesced_freed.
    + by eapply guarded_freed.
    + reflexivity.
    + simpl. rewrite Hf2, Hf3, (freed_total _ _ true). done.
    + simpl. rewrite Hf1, Hf2. exact Hrep'.
  - unfold accounted. simpl. intros Hacc. rewrite Ht, freed_allocated. simpl.
    rewrite allocated_app in Hacc. simpl in Hacc.
    pose proof (hr_sizes _ _ _ _ _ _ Hrep) as [[? ?]%allocated_bound [_ [? ?]%allocated_bound]%Forall_cons]%Forall_app.
    unfold SIZEOF_MM_ALLOCNODE in *. rewrite i32_u32_opp, i32_small; lia.
Qed.
