(* ===== verification/MmHeapInit.v ===== *)
(** * The kernel heap: initialisation, extension and reporting *)

From stdpp Require Import base tactics numbers list sorting gmap.
From S2P Require Import Prelude MmHeap MmFreeList MmLayout MmHeapOps MmHeapProps.

(** ** The empty node list *)


Lemma memzero_words_in m dst n k :
  0 <= k < Z.of_nat n -> (memzero_words m dst n).[dst + 4 * k] = 0.
Proof.
  assert (Hkeep : forall n m d b, b < d -> (memzero_words m d n).[b] = m.[b]).
  { clear. induction n as [|n IH]; intros m d b Hb; simpl; [done|].
    rewrite IH, load_store_ne by lia. done. }
  revert m dst k. induction n as [|n IH]; intros m dst k Hk; [lia|]. simpl.
  destruct (decide (k = 0)) as [-> | ?].
  - rewrite Z.add_0_r, Hkeep, load_store_eq by lia. done.
  - replace (dst + 4 * k) with (dst + 4 + 4 * (k - 1)) by lia. apply IH. lia.
Qed.

Lemma memzero_words_out m dst n b :
  b < dst \/ dst + 4 * Z.of_nat n <= b -> (memzero_words m dst n).[b] = m.[b].
Proof.
  revert m dst. induction n as [|n IH]; intros m dst Hb; simpl; [done|].
  rewrite IH, load_store_ne by lia. done.
Qed.


(** What the chaining loop leaves in the words of the array of heads. *)
Lemma link_nodes_spec n nl i m :
  let m' := link_nodes n nl i m in
  (forall j, i <= j < i + Z.of_nat n ->
     m'.[f_flink (nl + 16 * (j - 1))] = nl + 16 * j /\ m'.[f_blink (nl + 16 * j)] = nl + 16 * (j - 1)) /\
  (forall b, (forall j, i <= j < i + Z.of_nat n -> b <> f_flink (nl + 16 * (j - 1)) /\ b <> f_blink (nl + 16 * j)) ->
     m'.[b] = m.[b]).
Proof.
  revert i m. induction n as [|n IH]; intros i m; cbn zeta.
  { split; [intros; lia|done]. }
  cbn [link_nodes]. unfold nodelist_entry, SIZEOF_MM_FREENODE in *.
  set (m1 := m.[f_flink (nl + 16 * (i - 1)) <- nl + 16 * i].[f_blink (nl + 16 * i) <- nl + 16 * (i - 1)]).
  destruct (IH (i + 1) m1) as [Hin Hout]. split.
  - intros j Hj. destruct (decide (j = i)) as [-> | ?]; [|apply Hin; lia].
    rewrite !Hout by (intros; fields; lia). subst m1. fields. mem_simpl. done.
  - intros b Hb. rewrite Hout by (intros; apply Hb; lia). subst m1.
    destruct (Hb i ltac:(lia)). rewrite !load_store_ne by done. done.
Qed.

Lemma dlseg_heads m nl a n p :
  (0 < n)%nat -> m.[f_blink (nl + 16 * a)] = p ->
  (forall j, a < j < a + Z.of_nat n ->
     m.[f_flink (nl + 16 * (j - 1))] = nl + 16 * j /\ m.[f_blink (nl + 16 * j)] = nl + 16 * (j - 1)) ->
  m.[f_flink (nl + 16 * (a + Z.of_nat n - 1))] = 0 ->
  dlseg m p ((fun i => nl + 16 * i) <$> seqZ a (Z.of_nat n)) 0.
Proof.
  revert a p. induction n as [|n IH]; intros a p Hn Hp Hl He; [lia|].
  rewrite seqZ_cons by lia. replace (Z.pred (Z.of_nat (S n))) with (Z.of_nat n) by lia.
  rewrite fmap_cons. cbn [dlseg]. split; [done|]. destruct n as [|n].
  - split; [|done]. rewrite seqZ_nil by lia. simpl.
    replace a with (a + Z.of_nat 1 - 1) by lia. done.
  - destruct (Hl (a + 1) ltac:(lia)) as [Hf Hb]. rewrite Z.add_simpl_r in Hf, Hb. split.
    + rewrite Hf. rewrite seqZ_cons by lia. simpl. lia.
    + apply IH; [lia| | |].
      * unfold Z.succ. done.
      * intros j Hj. apply Hl. lia.
      * replace (Z.succ a + Z.of_nat (S n) - 1) with (a + Z.of_nat (S (S n)) - 1) by lia. done.
Qed.

Lemma heads_sorted m nl a n :
  (0 <= a) -> a + Z.of_nat n <= 19 ->
  StronglySorted (fun x y => key m nl x <= key m nl y) ((fun i => nl + 16 * i) <$> seqZ a (Z.of_nat n)).
Proof.
  revert a. induction n as [|n IH]; intros a Ha Hn; [constructor|].
  rewrite seqZ_cons by lia. replace (Z.pred (Z.of_nat (S n))) with (Z.of_nat n) by lia.
  rewrite fmap_cons. constructor; [apply IH; lia|].
  apply Forall_forall. intros x (j & -> & Hj%elem_of_seqZ)%list_elem_of_fmap.
  rewrite !key_head by lia. assert (2 ^ (a + 5) <= 2 ^ (j + 5)) by (apply Z.pow_le_mono_r; lia). lia.
Qed.

(** The list of heads alone is a well-formed, empty node list. *)
Lemma init_free_list m nl :
  0 < nl ->
  free_list (link_nodes 18 nl 1 (memzero_words m nl 76)) nl (heads nl).
Proof.
  intros Hnl. set (m0 := memzero_words m nl 76).
  destruct (link_nodes_spec 18 nl 1 m0) as [Hin Hout]. set (m1 := link_nodes 18 nl 1 m0) in *.
  assert (Hz : forall k, 0 <= k < 76 -> m0.[nl + 4 * k] = 0) by (intros; by apply memzero_words_in).
  constructor.
  - intros i Hi. rewrite Hout by (intros; fields; lia). fields.
    replace (16 * i) with (4 * (4 * i)) by lia. apply Hz. lia.
  - apply (dlseg_heads m1 nl 0 19); [lia| | |].
    + rewrite Hout by (intros; fields; lia). fields.
      replace (nl + 16 * 0 + 12) with (nl + 4 * 3) by lia. apply Hz. lia.
    + intros j Hj. apply Hin. lia.
    + rewrite Hout by (intros; fields; lia). fields.
      replace (nl + 16 * (0 + Z.of_nat 19 - 1) + 8) with (nl + 4 * 74) by lia. apply Hz. lia.
  - apply (heads_sorted m1 nl 0 19); lia.
  - unfold heads. apply NoDup_fmap_2; [intros ? ? ?; lia|]. apply NoDup_seqZ.
  - intros x y (i & ? & ->)%elem_of_heads (j & ? & ->)%elem_of_heads. lia.
  - intros x (i & ? & ->)%elem_of_heads. lia.
  - intros i Hi. apply elem_of_heads. by exists i.
  - intros x Hx%elem_of_heads. by left.
Qed.

(** ** mm_addregion and mm_initialize *)

(** A region just added: one free chunk between the guards. *)
Definition fresh_layout (s : Z) : list chunk := [(16, true); (s, false); (16, true)].

Definition region_base (start : Z) : Z := 16 * ((start + 15) / 16).
Definition region_end (start size : Z) : Z := 16 * ((start + size) / 16).

(** A memory range that can be given to the heap whose heads are at [nl]. *)
Definition region_ok (nl start size : Z) : Prop :=
  0 < nl /\ 0 < start /\ 0 <= size /\ start + size < 4294967296 /\
  48 <= region_end start size - region_base start < 2147483648 /\
  (nl + 304 <= start \/ start + size <= nl).

Lemma region_bounds start size :
  start <= region_base start <= start + 15 /\ region_end start size <= start + size.
Proof.
  unfold region_base, region_end. pose proof (Z.div_mod (start + 15) 16). pose proof (Z.mod_pos_bound (start + 15) 16).
  pose proof (Z.div_mod (start + size) 16). pose proof (Z.mod_pos_bound (start + size) 16). lia.
Qed.

(** The headers of a fresh region over an empty node list. *)
Lemma fresh_rep m nl base s m' :
  0 < nl -> 0 < base -> (16 | base) -> 16 <= s -> (16 | s) -> s + 32 < 2147483648 ->
  base + s + 32 <= 4294967296 -> nl + 304 <= base \/ base + s + 32 <= nl ->
  free_list m nl (heads nl) ->
  hdrs m' base 0 (fresh_layout s) ->
  (forall b, b < base \/ base + s + 32 <= b -> m'.[b] = m.[b]) ->
  heap_rep m' nl base (fresh_layout s) [] (heads nl).
Proof.
  intros Hnl Hb Hdb Hs Hds Hs2 He Hdis Hfl Hhdr Hout.
  constructor; try done; try (simpl; lia).
  - repeat constructor; simpl; try lia; try done; by exists 1.
  - apply (free_list_ext m); [|done]. intros x (i & Hi & ->)%elem_of_heads. fields.
    split_and!; apply Hout; lia.
  - set_solver.
Qed.

Lemma mm_addregion_spec e h start size :
  let nl := mm_nodelist h in
  let base := region_base start in
  let tot := region_end start size - base in
  region_ok nl start size -> free_list (mm_mem h) nl (heads nl) ->
  exists h', mm_addregion e h start size = Some h' /\ heap_wf h' (fresh_layout (tot - 32)) /\
    mm_heapstart h' = base /\ mm_nodelist h' = nl /\ mm_heapsize h' = u32 (mm_heapsize h + tot) /\
    mm_semaphore h' = mm_semaphore h /\ mm_holder h' = mm_holder h /\ mm_counts_held h' = mm_counts_held h /\
    mm_total_alloc_size h' = mm_total_alloc_size h.
Proof.
  intros nl base tot (Hnl & Hst & Hsz & Hlim & Htot & Hdis) Hfl.
  pose proof (region_bounds start size) as [Hrb Hre]. fold base tot in Hrb, Htot.
  unfold mm_addregion. rewrite MM_ALIGN_UP_eq, (u32_small (start + size)) by lia. rewrite MM_ALIGN_DOWN_eq by lia.
  change (16 * ((start + 15) / 16)) with base. change (16 * ((start + size) / 16)) with (region_end start size).
  fold tot. rewrite (u32_small tot) by lia. unfold SIZEOF_MM_ALLOCNODE.
  change (2 * 16) with 32. rewrite (u32_small (tot - 32)) by lia.
  replace (region_end start size - 16) with (base + tot - 16) by lia.
  cbn [mm_mem with_heapsize]. fields.
  match goal with |- context [mm_addfreechunk ?f ?n ?m ?x] => set (m1 := m); set (fuel := f) end.
  assert (Hdb : (16 | base)) by (by exists ((start + 15) / 16); unfold base, region_base; lia).
  assert (Hds : (16 | tot - 32)).
  { exists ((start + size) / 16 - (start + 15) / 16 - 2). unfold tot, base, region_base, region_end. lia. }
  assert (Hrep : heap_rep m1 nl base (fresh_layout (tot - 32)) [] (heads nl)).
  { apply (fresh_rep (mm_mem h)); try lia; try done.
    - subst m1. unfold heapinfo_update_node. simpl. fields.
      replace (base + 16 + (tot - 32)) with (base + tot - 16) by lia.
      rewrite lor_alloc_bit by (mem_simpl; lia). split_and!; mem_simpl; done.
    - intros b Hb. subst m1. unfold heapinfo_update_node. fields. mem_simpl. done. }
  destruct (rep_add Hrep (base + 16) fuel) as (m2 & fl & Hadd & Hrep2 & _).
  { simpl. set_solver. }
  { set_solver. }
  { subst fuel. unfold list_fuel, MM_MIN_CHUNK, MM_NNODES. simpl.
    replace (base + tot - 16 - base) with (tot + (-1) * 16) by lia. rewrite Z.div_add by lia.
    replace (16 + (tot - 32 + (16 + 0))) with tot by lia. pose proof (Z.div_pos tot 16). lia. }
  change (mm_addfreechunk _ _ m1 (base + 16)) with (mm_addfreechunk fuel nl m1 (base + 16)).
  rewrite Hadd. cbn [mbind option_bind].
  eexists. split; [done|]. split_and!; try done.
  apply (heap_wf_intro _ m2 _ fl); try done.
  - split_and!; simpl; [done..|lia].
  - simpl. lia.
Qed.

Lemma mm_initialize_spec e h start size :
  let nl := mm_nodelist h in
  let base := region_base start in
  let tot := region_end start size - base in
  region_ok nl start size ->
  exists h', mm_initialize e h start size = Some h' /\ heap_wf h' (fresh_layout (tot - 32)) /\
    unlocked h' /\ mm_heapstart h' = base /\ mm_nodelist h' = nl /\ mm_heapsize h' = tot /\
    mm_total_alloc_size h' = mm_total_alloc_size h.
Proof.
  intros nl base tot Hok. unfold mm_initialize.
  match goal with |- context [mm_addregion e ?hx _ _] => set (h1 := hx) end.
  destruct (mm_addregion_spec e h1 start size) as (h' & Hadd & Hwf & Hb & Hn & Hs & Hs1 & Hs2 & Hs3 & Ht).
  { exact Hok. }
  { apply init_free_list, Hok. }
  rewrite Hadd. exists h'. split; [done|]. split; [done|]. split; [by split_and!|].
  split_and!; try done. rewrite Hs. simpl. destruct Hok as (_ & _ & _ & _ & ? & _).
  apply u32_small. subst tot base. lia.
Qed.

(** ** mm_mallinfo *)

Fixpoint free_sizes (cs : list chunk) : list Z :=
  match cs with
  | [] => []
  | c :: cs => if c.2 then free_sizes cs else c.1 :: free_sizes cs
  end.

Definition max_size (mx : Z) (ss : list Z) : Z := foldl Z.max mx ss.

Lemma free_sizes_app cs1 cs2 : free_sizes (cs1 ++ cs2) = free_sizes cs1 ++ free_sizes cs2.
Proof. induction cs1 as [|c cs1 IH]; simpl; [done|]. destruct c.2; simpl; by rewrite IH. Qed.

(** The walk sums up the layout it runs over. *)
Lemma mallinfo_walk_spec m cs a p fuel o mx u f :
  Forall chunk_ok cs -> hdrs m a p cs -> 0 <= p < 2147483648 -> total cs < 2147483648 ->
  0 <= u -> 0 <= f -> u + f + total cs < 4294967296 -> (Z.to_nat (total cs / 16) < fuel)%nat ->
  mallinfo_walk fuel m a (a + total cs) o mx u f =
  Some (a + total cs, o + Z.of_nat (length (free_sizes cs)), max_size mx (free_sizes cs),
        u + allocated cs, f + (total cs - allocated cs)).
Proof.
  intros Hok. revert a p fuel o mx u f.
  induction Hok as [|[s al] cs [Hs Hd] Hok IH]; intros a p fuel o mx u f Hh Hp Ht Hu Hf Hsum Hfuel;
    (destruct fuel as [|fuel]; [lia|]); simpl in *.
  - destruct (Z.ltb_spec a (a + 0)); [lia|]. split_eq.
  - pose proof (total_nonneg _ Hok). pose proof (allocated_bound _ Hok). destruct Hh as (Hsz & Hpr & Hh).
    destruct (Z.ltb_spec a (a + (s + total cs))); [|lia].
    rewrite (is_free_flag _ _ p al), Hsz by (done || lia).
    replace (a + (s + total cs)) with (a + s + total cs) by lia.
    assert (Hfuel' : (Z.to_nat (total cs / 16) < fuel)%nat).
    { destruct Hd as [k ->]. replace (k * 16 + total cs) with (total cs + k * 16) in Hfuel by lia.
      rewrite Z.div_add in Hfuel by lia. pose proof (Z.div_pos (total cs) 16). lia. }
    destruct al; cbn [negb]; rewrite (IH _ s), u32_small by (done || lia || rewrite u32_small; lia).
    + split_eq.
    + simpl. unfold max_size. simpl. rewrite Z.max_comm.
      replace (if mx <? s then s else mx) with (Z.max s mx) by (destruct (Z.ltb_spec mx s); lia).
      split_eq.
Qed.

(** [mm_mallinfo] up to the comparison with [mm_heapsize]. *)
Lemma mallinfo_result e h cs :
  heap_wf h cs -> unlocked h -> 0 <= getpid e ->
  mm_mallinfo e h =
  if total cs =? mm_heapsize h then
    Some (mk_mallinfo (mm_heapsize h) (Z.of_nat (length (free_sizes cs))) (max_size 0 (free_sizes cs))
            (allocated cs) (total cs - allocated cs), h)
  else None.
Proof.
  intros Hwf Hul Hpid. pose proof (wf_fuel _ _ Hwf) as Hfuel.
  destruct Hwf as [(Hco & Hg & fl & Hrep) Hend].
  pose proof (hr_sizes _ _ _ _ _ _ Hrep) as Hok. pose proof (hr_total _ _ _ _ _ _ Hrep) as Htot.
  pose proof (hr_hdrs _ _ _ _ _ _ Hrep) as Hh. destruct Hg as (_ & (l & ->)%last_Some & _).
  rewrite total_app in Hend, Htot. simpl in Hend, Htot.
  apply Forall_app in Hok as [Hok _]. apply hdrs_app in Hh as [Hh _].
  pose proof (allocated_bound _ Hok) as Hab. pose proof (total_nonneg _ Hok) as Hpos.
  unfold mm_mallinfo. rewrite take_unlocked by done. cbn [mbind option_bind].
  change (list_fuel _) with (list_fuel h). simpl mm_mem. simpl mm_heapstart. simpl mm_heapend.
  replace (mm_heapend h) with (mm_heapstart h + total l) by lia.
  rewrite (mallinfo_walk_spec _ _ _ 0) by
    (done || lia || (unfold enough_fuel in Hfuel; rewrite total_app in Hfuel; simpl in Hfuel;
                     replace (total l + (16 + 0)) with (total l + 1 * 16) in Hfuel by lia;
                     rewrite Z.div_add in Hfuel by lia; lia)).
  cbn [mbind option_bind]. rewrite give_held by done. cbn [mbind option_bind]. simpl mm_heapend.
  replace (mm_heapend h) with (mm_heapstart h + total l) by lia. rewrite Z.eqb_refl. cbn [negb].
  unfold SIZEOF_MM_ALLOCNODE. rewrite (u32_small (0 + allocated l + 16)), u32_small by lia. simpl mm_heapsize.
  rewrite free_sizes_app, app_nil_r, total_app, allocated_app. simpl.
  replace (0 + allocated l + 16 + (0 + (total l - allocated l))) with (total l + (16 + 0)) by lia.
  destruct (Z.eqb_spec (total l + (16 + 0)) (mm_heapsize h)) as [Heq | ?]; cbn [negb]; [|done].
  destruct Hul as (? & ? & ?). destruct h; simpl in *. subst. split_eq. f_equal; lia.
Qed.

Lemma mm_mallinfo_spec e h cs :
  heap_wf h cs -> unlocked h -> 0 <= getpid e -> mm_heapsize h = total cs ->
  mm_mallinfo e h =
  Some (mk_mallinfo (total cs) (Z.of_nat (length (free_sizes cs))) (max_size 0 (free_sizes cs))
          (allocated cs) (total cs - allocated cs), h).
Proof. intros Hwf Hul Hpid Hs. rewrite (mallinfo_result e h cs), Hs, Z.eqb_refl by done. done. Qed.

Lemma mallinfo_wrong_size e h cs :
  heap_wf h cs -> unlocked h -> 0 <= getpid e -> mm_heapsize h <> total cs -> mm_mallinfo e h = None.
Proof.
  intros Hwf Hul Hpid Hs. rewrite (mallinfo_result e h cs) by done.
  destruct (Z.eqb_spec (total cs) (mm_heapsize h)); congruence.
Qed.
