(* ===== verification/MmHeapResize.v ===== *)
(** * The kernel heap: shrinking, aligned allocation and extension

    [mm_shrinkchunk] gives the end of an allocated chunk back; [mm_memalign]
    is [mm_malloc] of a larger chunk followed by giving back what lies before
    and after the aligned block; [mm_extend] appends a memory block to the
    region. *)

From stdpp Require Import base tactics numbers list sorting gmap.
From S2P Require Import Prelude MmHeap MmFreeList MmLayout MmHeapOps MmHeapProps.

(** ** mm_shrinkchunk *)

(** The chunk of size [s] is cut to [size]; the rest joins a free successor. *)
Definition shrunk (l1 : list chunk) (s size : Z) (l2 : list chunk) : list chunk :=
  let '(r, l2) := merge_next (s - size) l2 in
  l1 ++ (size, true) :: (r, false) :: l2.

(** Moving the boundary between an allocated chunk and what follows it. *)
Lemma rep_cut m m' nl base l1 s mid size r c l2 L fl :
  let node := base + total l1 in
  heap_rep m nl base (l1 ++ ((s, true) :: mid) ++ c :: l2) L fl ->
  (forall x, x ∈ L -> x ∉ addrs node ((s, true) :: mid)) ->
  16 <= size -> (16 | size) -> 16 <= r -> size + r = s + total mid ->
  (forall b, m'.[b] = (((m.[node + size <- r]).[node + size + 4 <- size]).[node <- size]
                         .[node + size + r + 4 <- r + flag c.2]).[b]) ->
  heap_rep m' nl base (l1 ++ [(size, true); (r, false)] ++ c :: l2) L fl /\
  (forall b, foreign nl base (l1 ++ ((s, true) :: mid) ++ c :: l2) b ->
             foreign nl base (l1 ++ [(size, true); (r, false)] ++ c :: l2) b -> m'.[b] = m.[b]).
Proof.
  intros node Hrep HL Hsz Hdiv Hr Htot Hm'.
  pose proof (rep_split_facts _ _ _ _ _ _ _ _ Hrep) as
    (? & ? & [? Hds] & ? & ? & ? & ? & ? & Hok2). cbn [fst] in *.
  apply Forall_app in Hok2 as [Hokm [[? ?] ?]%Forall_cons].
  pose proof (hdrs_at _ _ _ _ _ _ (hr_hdrs _ _ _ _ _ _ Hrep)) as [_ Hp]. fold node in Hp. simpl in Hp.
  destruct (rep_rewrite m m' nl base l1 ((s, true) :: mid) [(size, true); (r, false)] c l2 L fl Hrep)
    as [Hrep' Hfor]; cbn [total fst]; fold node; rewrite ?Z.add_0_r; try done; try lia.
  - repeat constructor; simpl; try done; try lia.
    replace r with (s + total mid - size) by lia. apply Z.divide_sub_r; [|done].
    apply Z.divide_add_r; [done|]. by apply total_aligned.
  - intros b Hb Hne. pose proof (Hb node ltac:(simpl; set_solver)).
    pose proof (Hb (node + size) ltac:(rewrite elem_of_app; right; simpl; set_solver)).
    rewrite Hm'. fields. mem_simpl. done.
  - simpl. fields. rewrite ?Z.add_0_r, !Hm'. split_and!; fields; mem_simpl; try done; unfold flag; lia.
  - rewrite Hm'. fields. replace (s + total mid) with (size + r) by lia.
    rewrite Z.add_assoc. mem_simpl. done.
Qed.

(** The nodes listed around a run of chunks are not in it. *)
Lemma listed_not_mid base l1 mid l2 x :
  Forall chunk_ok (l1 ++ mid ++ l2) -> x ∈ listed base l1 (total mid) l2 -> x ∉ addrs (base + total l1) mid.
Proof.
  intros [Hok1 [Hokm Hok2]%Forall_app]%Forall_app Hx Hm. apply addrs_range in Hm; [|done].
  pose proof (total_nonneg _ Hokm).
  apply elem_of_app in Hx as [Hx%free_addrs_sub | Hx%free_addrs_sub]; apply addrs_range in Hx; lia || done.
Qed.

(** Moving the boundary, then listing the chunk after it. *)
Lemma rep_cut_add m m' nl base l1 s mid size r c l2 fuel fl :
  let node := base + total l1 in
  let cs := l1 ++ ((s, true) :: mid) ++ c :: l2 in
  let cs' := l1 ++ (size, true) :: (r, false) :: c :: l2 in
  heap_rep m nl base cs (listed base l1 (s + total mid) (c :: l2)) fl ->
  16 <= size -> (16 | size) -> 16 <= r -> size + r = s + total mid -> enough_fuel fuel cs ->
  (forall b, m'.[b] = (((m.[node + size <- r]).[node + size + 4 <- size]).[node <- size]
                         .[node + size + r + 4 <- r + flag c.2]).[b]) ->
  exists m2 fl2, mm_addfreechunk fuel nl m' (node + size) = Some m2 /\
    heap_rep m2 nl base cs' (free_addrs base cs') fl2 /\
    (forall b, foreign nl base cs b -> foreign nl base cs' b -> m2.[b] = m.[b]).
Proof.
  intros node cs cs' Hrep Hsz Hdiv Hr Htot Hfuel Hm'. subst cs cs'.
  destruct (rep_cut m m' nl base l1 s mid size r c l2 _ fl Hrep) as [Hrep1 Hfor1]; try done.
  { intros x Hx. apply (listed_not_mid base l1 _ (c :: l2)); [apply Hrep|done]. }
  destruct (rep_add Hrep1 (node + size) fuel) as (m2 & fl2 & Hadd & Hrep2 & Hfor2 & _).
  { rewrite addrs_app. simpl. fold node. set_solver. }
  { rewrite <- Htot. intros Hin.
    apply (listed_not_mid base l1 [(size, true); (r, false)] (c :: l2) (node + size)).
    - apply Hrep1.
    - simpl. rewrite Z.add_0_r. done.
    - simpl. fold node. set_solver. }
  { eapply enough_fuel_eq; [|exact Hfuel]. rewrite !total_app. simpl. lia. }
  exists m2, fl2. split; [done|]. split.
  - eapply rep_perm; [|exact Hrep2]. rewrite free_addrs_app. simpl. fold node. unfold listed. fold node.
    replace (node + (s + total mid)) with (node + size + r) by lia. by rewrite Permutation_middle.
  - intros b Hb Hb'. rewrite Hfor2 by done. by apply Hfor1.
Qed.

(** The words in use after a chunk was cut were in use before. *)
Lemma foreign_cut nl base l1 s size l2 b :
  size <= s -> foreign nl base (l1 ++ (size, true) :: (s - size, false) :: l2) b ->
  foreign nl base (l1 ++ (s, true) :: l2) b.
Proof.
  intros Hle. apply (foreign_mid nl base l1 [(size, true); (s - size, false)] [(s, true)]); [simpl; lia|].
  simpl. intros [[_ ?] | [[? _] | []]]; [|done]. left. split; [done|lia].
Qed.

Lemma mm_shrinkchunk_spec m nl base l1 s c l2 size fuel fl :
  let cs := l1 ++ (s, true) :: c :: l2 in
  let cs' := shrunk l1 s size (c :: l2) in
  let node := base + total l1 in
  heap_rep m nl base cs (free_addrs base cs) fl -> last (c :: l2) = Some (16, true) ->
  16 <= size < s -> (16 | size) -> enough_fuel fuel cs ->
  exists m' fl', mm_shrinkchunk fuel nl m node size = Some m' /\
    heap_rep m' nl base cs' (free_addrs base cs') fl' /\
    (forall b, foreign nl base (l1 ++ (size, true) :: (s - size, false) :: c :: l2) b -> m'.[b] = m.[b]).
Proof.
  intros cs cs' node Hrep Hlast Hsize Hdiv Hfuel. subst cs.
  pose proof (rep_split_facts _ _ _ _ _ _ _ _ Hrep) as
    (? & ? & [? Hds] & ? & ? & ? & Hl & Hok1 & [[? ?] Hok2]%Forall_cons). cbn [fst] in *.
  pose proof (total_nonneg _ Hok2).
  assert (Hrem : 16 <= s - size) by (destruct Hdiv as [i ->], Hds as [j ->]; lia).
  pose proof (hr_hdrs _ _ _ _ _ _ Hrep) as (_ & Hs & _ & Hcs & Hcp & Hh2)%hdrs_app.
  fold node in Hs, Hcs, Hcp. cbn [fst snd] in *.
  unfold mm_shrinkchunk. fields. rewrite Hs.
  rewrite (is_free_flag m (node + s) s c.2) by (done || lia).
  subst cs'. unfold shrunk. destruct c as [s2 [|]]; cbn [merge_next negb fst snd total] in *.
  - unfold SIZEOF_MM_FREENODE. rewrite u32_small by lia.
    destruct (Z.leb_spec (size + 16) s); [|lia]. rewrite u32_small by lia.
    replace (((m.[node + size <- s - size]).[node + size + 4 <- size]).[node <- size].[node + size])
      with (s - size) by (mem_simpl; done).
    rewrite lor_alloc_bit by lia.
    match goal with |- context [mm_addfreechunk _ _ ?mm _] => set (m' := mm) end.
    destruct (rep_cut_add m m' nl base l1 s [] size (s - size) (s2, true) l2 fuel fl)
      as (m2 & fl2 & Hadd & Hrep2 & Hfor2).
    { simpl. rewrite Z.add_0_r. eapply rep_perm; [|exact Hrep]. by rewrite free_addrs_app. }
    { lia. } { done. } { lia. } { simpl. lia. } { done. }
    { fold node. by replace (node + size + (s - size)) with (node + s) by lia. }
    exists m2, fl2. split; [exact Hadd|]. split; [exact Hrep2|].
    intros b Hb. apply Hfor2; [|exact Hb]. apply (foreign_cut _ _ _ _ size); [lia|done].
  - destruct l2 as [|c l2]; [done|]. destruct Hh2 as (_ & Hcp2 & _). simpl in Hcp2.
    rewrite Hcs.
    destruct (rep_unlink Hrep (node + s) (listed base l1 (s + s2) (c :: l2)))
      as (m1 & f1 & Hun & Hrep1 & Hfor1 & _).
    { rewrite free_addrs_app. apply listed_next_free. }
    pose proof (hr_hdrs _ _ _ _ _ _ Hrep1) as (_ & Hs' & _ & Hcs' & _ & _ & Hcp' & _)%hdrs_app.
    fold node in Hs', Hcs', Hcp'. cbn [fst snd] in *. fields.
    rewrite Hun. simpl. rewrite Hs', Hcs', u32_small by lia.
    apply Forall_cons in Hok2 as [[? ?] ?]. simpl in *. pose proof (total_nonneg l2 ltac:(done)).
    replace (((m1.[node + size <- s2 + s - size]).[node + size + 4 <- size]).[node <- size].[node + size])
      with (s2 + s - size) by (mem_simpl; done).
    rewrite (set_preceding_eq _ _ _ s2 c.2) by (lia || (mem_simpl; done)).
    match goal with |- context [mm_addfreechunk _ _ ?mm _] => set (m' := mm) end.
    destruct (rep_cut_add m1 m' nl base l1 s [(s2, false)] size (s2 + s - size) c l2 fuel f1)
      as (m2 & fl2 & Hadd & Hrep2 & Hfor2).
    { simpl. rewrite Z.add_0_r. exact Hrep1. }
    { lia. } { done. } { lia. } { simpl. lia. } { done. }
    { fold node. by replace (node + size + (s2 + s - size)) with (node + s + s2) by lia. }
    exists m2, fl2. split; [exact Hadd|]. split.
    + by replace (s - size + s2) with (s2 + s - size) by lia.
    + intros b Hb. pose proof (foreign_cut nl base l1 s size _ _ ltac:(lia) Hb) as Hb0.
      rewrite Hfor2, Hfor1; [done..|].
      apply (foreign_mid nl base l1 [(size, true); (s - size, false); (s2, false)]
                 [(size, true); (s2 + s - size, false)]); [simpl; lia| |exact Hb].
      simpl. intros [? | [[? _] | [[? _] | []]]]; [by left|done|done].
Qed.

(** ** mm_memalign *)

(** The distance from [raw] to the next multiple of [alignment]. *)
Definition align_gap (raw alignment : Z) : Z := (- raw) mod alignment.

Lemma align_gap_spec raw al :
  0 < al -> 0 <= align_gap raw al < al /\ (al | raw + align_gap raw al).
Proof.
  intros Hal. unfold align_gap. split; [by apply Z.mod_pos_bound|].
  exists (- (- raw / al)). pose proof (Z.div_mod (- raw) al). lia.
Qed.

Lemma align_gap_mod16 raw k : 4 <= k -> (16 | raw) -> (16 | align_gap raw (2 ^ k)).
Proof.
  intros Hk Hraw. destruct (align_gap_spec raw (2 ^ k)) as [_ Hd]; [apply Z.pow_pos_nonneg; lia|].
  assert (H16 : (16 | 2 ^ k)).
  { exists (2 ^ (k - 4)). change 16 with (2 ^ 4). rewrite <- Z.pow_add_r by lia. f_equal. lia. }
  replace (align_gap raw (2 ^ k)) with (raw + align_gap raw (2 ^ k) - raw) by lia.
  apply Z.divide_sub_r; [by etransitivity|done].
Qed.

Lemma align_up_mask raw k :
  0 <= raw -> 0 <= k <= 31 -> raw + 2 ^ k <= 4294967296 ->
  Z.land (u32 (raw + u32 (2 ^ k - 1))) (u32 (Z.lnot (u32 (2 ^ k - 1)))) = raw + align_gap raw (2 ^ k).
Proof.
  intros Hraw Hk Hlim. assert (0 < 2 ^ k) by (apply Z.pow_pos_nonneg; lia).
  assert (2 ^ k <= 2 ^ 31) by (apply Z.pow_le_mono_r; lia). change (2 ^ 31) with 2147483648 in *.
  rewrite (u32_small (2 ^ k - 1)), (u32_small (raw + _)), land_lnot_mask by lia.
  unfold align_gap. set (n := 2 ^ k) in *.
  pose proof (Z.mod_pos_bound (- raw) n). pose proof (Z.mod_pos_bound (raw + (n - 1)) n).
  pose proof (Z.div_mod (- raw) n). pose proof (Z.div_mod (raw + (n - 1)) n).
  set (q1 := - raw / n) in *. set (q2 := (raw + (n - 1)) / n) in *.
  assert (n * (q1 + q2) = n - 1 - (- raw) mod n - (raw + (n - 1)) mod n) by lia.
  assert (q1 + q2 = 0) by nia. nia.
Qed.

Definition lead (p : Z) : list chunk := if p =? 0 then [] else [(p, false)].

(** Turning the first [p] bytes of an allocated chunk into a listed free chunk. *)
Lemma rep_lead m nl base l1 s c l2 fuel fl p :
  let node := base + total l1 in
  let cs := l1 ++ (s, true) :: c :: l2 in
  let cs' := l1 ++ (p, false) :: (s - p, true) :: c :: l2 in
  heap_rep m nl base cs (free_addrs base cs) fl -> 16 <= p -> (16 | p) -> 16 <= s - p ->
  enough_fuel fuel cs ->
  let m' := (((m.[node + p <- s - p]).[node + p + 4 <- p + flag true]).[node <- p])
              .[node + 4 <- lastsz 0 l1].[node + s + 4 <- s - p + flag c.2] in
  exists m2 fl2, mm_addfreechunk fuel nl m' node = Some m2 /\
    heap_rep m2 nl base cs' (free_addrs base cs') fl2 /\
    (forall b, foreign nl base cs' b -> m2.[b] = m.[b]).
Proof.
  intros node cs cs' Hrep Hp Hdiv Hrem Hfuel m'. subst cs cs'.
  pose proof (rep_split_facts _ _ _ _ _ _ _ _ Hrep) as
    (? & ? & [? Hds] & ? & ? & ? & Hl & ? & [[? ?] ?]%Forall_cons). cbn [fst] in *.
  assert (Hlist : free_addrs base (l1 ++ (s, true) :: c :: l2) = listed base l1 s (c :: l2)).
  { by rewrite free_addrs_app. }
  rewrite Hlist in Hrep. pose proof (not_listed base l1 s true (c :: l2) (hr_sizes _ _ _ _ _ _ Hrep)) as HL.
  destruct (rep_rewrite m m' nl base l1 [(s, true)] [(p, false); (s - p, true)] c l2 _ fl Hrep)
    as [Hrep1 Hfor1]; simpl; fold node; rewrite ?Z.add_0_r.
  - intros x Hx ->%list_elem_of_singleton. done.
  - repeat constructor; simpl; try done; try lia. by apply Z.divide_sub_r.
  - lia.
  - intros b Hb Hne. pose proof (Hb node ltac:(set_solver)). pose proof (Hb (node + p) ltac:(set_solver)).
    subst m'. fields. mem_simpl. done.
  - subst m'. fields. split_and!; mem_simpl; try done; unfold flag; lia.
  - subst m'. fields. mem_simpl. done.
  - destruct (rep_add Hrep1 node fuel) as (m2 & fl2 & Hadd & Hrep2 & Hfor2 & _).
    { rewrite addrs_app. simpl. fold node. set_solver. }
    { done. }
    { eapply enough_fuel_eq; [|exact Hfuel]. rewrite !total_app. simpl. lia. }
    exists m2, fl2. split; [done|]. split.
    + eapply rep_perm; [|exact Hrep2]. simpl. rewrite free_addrs_mid. fold node. simpl.
      unfold listed. fold node. by replace (node + p + (s - p)) with (node + s) by lia.
    + intros b Hb. rewrite Hfor2 by done. apply Hfor1; [|done].
      apply (foreign_mid nl base l1 [(p, false); (s - p, true)] [(s, true)]); [simpl; lia| |done].
      simpl. intros [[? _] | [[_ ?] | []]]; [done|]. left. split; [done|lia].
Qed.

Lemma memalign_lead_spec m nl base l1 s c l2 fuel fl k allocsize :
  let node := base + total l1 in
  let cs := l1 ++ (s, true) :: c :: l2 in
  let p := align_gap (node + 16) (2 ^ k) in
  let cs' := l1 ++ lead p ++ (s - p, true) :: c :: l2 in
  heap_rep m nl base cs (free_addrs base cs) fl -> 5 <= k <= 30 ->
  2 ^ k + 32 <= s -> enough_fuel fuel cs ->
  exists m' fl',
    memalign_lead fuel nl m node (node + 16) (2 ^ k) allocsize
    = Some (m', node + p, node + p + 16, if p =? 0 then allocsize else s - p - 16) /\
    heap_rep m' nl base cs' (free_addrs base cs') fl' /\
    (forall b, foreign nl base cs' b -> m'.[b] = m.[b]).
Proof.
  intros node cs p cs' Hrep Hk Hs Hfuel. subst cs cs'.
  pose proof (rep_split_facts _ _ _ _ _ _ _ _ Hrep) as
    (? & ? & [? Hds] & ? & ? & ? & Hl & Hok1 & [[? ?] ?]%Forall_cons). cbn [fst] in *.
  assert (0 < 2 ^ k) by (apply Z.pow_pos_nonneg; lia).
  destruct (align_gap_spec (node + 16) (2 ^ k)) as [Hp _]; [done|]. fold p in Hp.
  assert (Hp16 : (16 | p)).
  { apply align_gap_mod16; [lia|]. subst node. apply Z.divide_add_r; [|by exists 1].
    apply Z.divide_add_r; [apply Hrep|by apply total_aligned]. }
  unfold memalign_lead. rewrite align_up_mask by lia. fold p. unfold lead.
  destruct (Z.eqb_spec p 0) as [Hp0 | Hp0].
  - rewrite Hp0. rewrite !Z.add_0_r, Z.eqb_refl, Z.sub_0_r. by exists m, fl.
  - assert (16 <= p) by (destruct Hp16 as [i Hi]; lia).
    pose proof (hr_hdrs _ _ _ _ _ _ Hrep) as (_ & Hsz & Hpr & Hcs & Hcp & _)%hdrs_app.
    fold node in Hsz, Hpr, Hcs, Hcp. cbn [fst snd] in *.
    destruct (Z.eqb_spec (node + 16 + p) (node + 16)); [lia|].
    destruct (Z.ltb_spec (node + 16 + p) (node + 16 + 8)); [lia|].
    unfold SIZEOF_MM_ALLOCNODE, SIZEOF_MM_FREENODE.
    destruct (Z.ltb_spec (node + 16 + p - 16 - node) 16); [lia|].
    fields. rewrite Hsz.
    replace (node + 16 + p - 16) with (node + p) by lia.
    replace (node + p - node) with p by lia. replace (node + s - (node + p)) with (s - p) by lia.
    rewrite (u32_small (s - p)), lor_alloc_bit by lia.
    destruct (rep_lead m nl base l1 s c l2 fuel fl p) as (m2 & fl2 & Hadd & Hrep2 & Hfor2); [done..|lia|done|].
    fold node in Hadd.
    replace (Z.land _ (u32 (Z.lnot MM_ALLOC_BIT))) with (lastsz 0 l1)
      by (mem_simpl; rewrite Hpr, land_alloc_bit by done; done).
    rewrite (set_preceding_eq _ _ _ s c.2) by (mem_simpl; lia || done).
    rewrite load_store_ne by lia. rewrite load_store_ne by lia. mem_simpl.
    rewrite Hadd. cbn [mbind option_bind]. exists m2, fl2. split; [|by split].
    rewrite u32_small by lia. split_eq.
Qed.

(** What an aligned allocation makes of a layout: a free chunk becomes a free
    lead, the aligned chunk and a free rest. *)
Definition memalign_result (cs : list chunk) (base alignment size r : Z) (cs' : list chunk) : Prop :=
  exists l1 s l2 p, cs = l1 ++ (s, false) :: l2 /\ r = base + total l1 + p + 16 /\ (alignment | r) /\
    0 <= p /\ p + request size + 16 <= s /\
    cs' = l1 ++ lead p ++ (request size, true) :: (s - p - request size, false) :: l2.

Lemma total_lead p : total (lead p) = p.
Proof. unfold lead. destruct (Z.eqb_spec p 0); simpl; lia. Qed.

Lemma lead_free p : Forall (fun c : chunk => c.2 = false) (lead p).
Proof. unfold lead. destruct (p =? 0); by repeat constructor. Qed.

(** Both cuts in a row, on a chunk large enough for them. *)
Lemma memalign_cut m nl base l1 q c l2 fuel fl k size allocsize :
  let node := base + total l1 in
  let cs := l1 ++ (q, true) :: c :: l2 in
  let p := align_gap (node + 16) (2 ^ k) in
  let cs' := shrunk (l1 ++ lead p) (q - p) (size + 16) (c :: l2) in
  heap_rep m nl base cs (free_addrs base cs) fl -> last (c :: l2) = Some (16, true) ->
  5 <= k <= 30 -> 0 <= size < allocsize -> (16 | size) -> 2 * 2 ^ k + size + 16 <= q -> enough_fuel fuel cs ->
  exists m1 al m2 fl2,
    memalign_lead fuel nl m node (node + 16) (2 ^ k) allocsize = Some (m1, node + p, node + p + 16, al) /\
    size < al /\ mm_shrinkchunk fuel nl m1 (node + p) (size + 16) = Some m2 /\
    heap_rep m2 nl base cs' (free_addrs base cs') fl2 /\
    (forall b, foreign nl base (l1 ++ (q, false) :: c :: l2) b -> m2.[b] = m.[b]).
Proof.
  intros node cs p cs' Hrep Hlast Hk Hsize Hdiv Hq Hfuel. subst cs cs'.
  assert (2 ^ 5 <= 2 ^ k) by (apply Z.pow_le_mono_r; lia).
  destruct (align_gap_spec (node + 16) (2 ^ k)) as [Hp _]; [lia|]. fold p in Hp.
  destruct (memalign_lead_spec m nl base l1 q c l2 fuel fl k allocsize)
    as (m1 & fl1 & Hlead & Hrep1 & Hfor1); [done..|lia|done|].
  fold node p in Hlead, Hrep1, Hfor1.
  destruct (mm_shrinkchunk_spec m1 nl base (l1 ++ lead p) (q - p) c l2 (size + 16) fuel fl1)
    as (m2 & fl2 & Hshr & Hrep2 & Hfor2).
  { by rewrite <- app_assoc. }
  { done. }
  { lia. }
  { apply Z.divide_add_r; [done|by exists 1]. }
  { eapply enough_fuel_eq; [|exact Hfuel]. rewrite !total_app, total_lead. simpl. lia. }
  rewrite total_app, total_lead in Hshr. replace (base + (total l1 + p)) with (node + p) in Hshr by (subst node; lia).
  eexists m1, _, m2, fl2. split; [exact Hlead|]. split; [destruct (p =? 0); lia|].
  split; [exact Hshr|]. split; [exact Hrep2|].
  assert (Hfree : forall mid b, total mid = q -> foreign nl base (l1 ++ (q, false) :: c :: l2) b ->
            foreign nl base (l1 ++ mid ++ c :: l2) b).
  { intros mid b Hm Hb. apply (foreign_mid nl base l1 [(q, false)]); [simpl; lia| |done].
    intros []%payload_free. by repeat constructor. }
  intros b Hb. rewrite Hfor2, Hfor1; [done| |].
  - replace (l1 ++ lead p ++ (q - p, true) :: c :: l2) with (l1 ++ (lead p ++ [(q - p, true)]) ++ c :: l2)
      by (by rewrite <- !app_assoc). apply Hfree; [|done]. rewrite total_app, total_lead. simpl. lia.
  - replace ((l1 ++ lead p) ++ _ :: _ :: c :: l2)
      with (l1 ++ (lead p ++ [(size + 16, true); (q - p - (size + 16), false)]) ++ c :: l2)
      by (by rewrite <- !app_assoc). apply Hfree; [|done]. rewrite total_app, total_lead. simpl. lia.
Qed.

(** The accounting around a change of an allocated chunk: the old size is
    discharged before it, the new one charged after it, and the semaphore
    given back. *)
Lemma recharge e h l1 q l2 m' l1' q' l2' fl ra :
  let cs := l1 ++ (q, true) :: l2 in
  let cs' := l1' ++ (q', true) :: l2' in
  let nl := mm_nodelist h in
  let base := mm_heapstart h in
  let h2 := heapinfo_discharge (with_sem h 0 (getpid e) 1) (base + total l1) q in
  let h3 := heapinfo_charge e (with_mem h2 m') (base + total l1') ra in
  heap_wf h cs -> unlocked h -> heap_rep m' nl base cs' (free_addrs base cs') fl ->
  coalesced cs' = true -> guarded cs' -> total cs' = total cs ->
  allocated cs' = allocated cs - q + q' ->
  exists h4, mm_givesemaphore e h3 = Some h4 /\ unlocked h4 /\ same_frame h h4 /\ heap_wf h4 cs' /\
    (accounted h cs -> accounted h4 cs') /\
    (forall b, foreign nl base cs' b -> (mm_mem h4).[b] = m'.[b]).
Proof.
  intros cs cs' nl base h2 h3 Hwf (Hu1 & Hu2 & Hu3) Hrep' Hco Hg Htot Hal. destruct Hwf as [(_ & _ & fl0 & Hrep) Hend].
  destruct (heapinfo_discharge_spec (with_sem h 0 (getpid e) 1) (base + total l1) q)
    as ((Hf1 & Hf2 & Hf3 & Hf4 & Hf5 & Hf6 & Hf7) & _ & Ht). fold h2 in Hf1, Hf2, Hf3, Hf4, Hf5, Hf6, Hf7, Ht.
  clearbody h2. simpl in Hf1, Hf2, Hf3, Hf4, Hf5, Hf6, Hf7, Ht.
  destruct (charge_spec e (with_mem h2 m') (base + total l1') ra l1' q' l2' fl)
    as ((Hg1 & Hg2 & Hg3 & Hg4 & Hg5 & Hg6 & Hg7) & Hrep3 & Hfor & Htc).
  { simpl. by rewrite Hf2. }
  { simpl. rewrite Hf1, Hf2. exact Hrep'. }
  fold h3 in Hg1, Hg2, Hg3, Hg4, Hg5, Hg6, Hg7, Hrep3, Hfor, Htc.
  clearbody h3. simpl in Hg1, Hg2, Hg3, Hg4, Hg5, Hg6, Hg7, Hrep3, Hfor, Htc.
  rewrite Hf1, Hf2 in Hfor, Hrep3. fold nl base in Hfor, Hrep3.
  rewrite give_held by (split_and!; congruence). eexists. split; [done|].
  split; [done|]. split; [repeat split; simpl; congruence|]. split; [|split; [|done]].
  - apply (heap_wf_intro _ (mm_mem h3) _ fl); try done; simpl.
    + rewrite Hg3, Hg2, Hf3, Hf2, Htot. done.
    + rewrite Hg1, Hg2, Hf1, Hf2. exact Hrep3.
  - unfold accounted. simpl. intros Hacc. rewrite Htc, Ht. unfold SIZEOF_MM_ALLOCNODE in *.
    pose proof (allocated_bound _ (hr_sizes _ _ _ _ _ _ Hrep)) as Hb.
    pose proof (allocated_bound _ (hr_sizes _ _ _ _ _ _ Hrep')) as Hb'.
    pose proof (hr_total _ _ _ _ _ _ Hrep).
    pose proof (rep_split_facts _ _ _ _ _ _ _ _ Hrep) as (? & ? & [? _] & ? & _). cbn [fst] in *.
    pose proof (rep_split_facts _ _ _ _ _ _ _ _ Hrep') as (? & ? & [? _] & ? & _). cbn [fst] in *.
    assert (0 <= allocated l1 /\ 0 <= allocated l2) as [? ?].
    { pose proof (hr_sizes _ _ _ _ _ _ Hrep) as [[? ?]%allocated_bound [_ [? ?]%allocated_bound]%Forall_cons]%Forall_app.
      done. }
    assert (q <= allocated cs) by (subst cs; rewrite allocated_app; simpl; lia).
    rewrite i32_u32_opp, (i32_small q'), (i32_small (mm_total_alloc_size h + _)), i32_small by lia. lia.
Qed.

(** Shrinking the chunk carved from a free one leaves all of it but the lead
    and the allocated part free. *)
Lemma shrunk_carve l1 l1' req s l2 p size :
  coalesced (l1' ++ (s, false) :: l2) = true -> (16 | req) -> (16 | s) -> req <= s ->
  shrunk l1 (req - p) size ((if 16 <=? s - req then [(s - req, false)] else []) ++ l2)
  = l1 ++ (size, true) :: (s - p - size, false) :: l2.
Proof.
  intros Hco Hr Hs Hle. unfold shrunk. destruct (Z.leb_spec 16 (s - req)); simpl.
  - do 4 f_equal. lia.
  - assert (req = s) as -> by (destruct Hr as [i ->], Hs as [j ->]; lia).
    rewrite coalesced_concat in Hco. apply andb_true_iff in Hco as [[_ Hco]%andb_true_iff _].
    destruct l2 as [|[s2 [|]] l2]; [done..|]. simpl in Hco. done.
Qed.

Lemma coalesced_memalign l1 s l2 p a r :
  coalesced (l1 ++ (s, false) :: l2) = true ->
  coalesced (l1 ++ lead p ++ (a, true) :: (r, false) :: l2) = true.
Proof.
  change ((s, false) :: l2) with ([(s, false)] ++ l2).
  change ((a, true) :: (r, false) :: l2) with ([(a, true); (r, false)] ++ l2).
  rewrite !coalesced_concat. unfold lead. destruct (p =? 0); cbn;
    destruct (coalesced l1), (coalesced l2), (ends_free l1), (starts_free l2); done.
Qed.

Lemma allocated_lead p : allocated (lead p) = 0.
Proof. unfold lead. by destruct (p =? 0). Qed.

(** Cutting an unused chunk up touches no word in use. *)
Lemma foreign_shrunk_lead nl base l1 q p size l2 b :
  foreign nl base (l1 ++ (q, false) :: l2) b ->
  foreign nl base (shrunk (l1 ++ lead p) (q - p) size l2) b.
Proof.
  assert (Hsplit : forall r l, (l1 ++ lead p) ++ (size, true) :: (r, false) :: l
                     = l1 ++ (lead p ++ [(size, true); (r, false)]) ++ l).
  { intros. by rewrite <- !app_assoc. }
  unfold shrunk. destruct l2 as [|[s2 [|]] l2]; cbn [merge_next]; rewrite Hsplit.
  1, 2: apply (foreign_free nl base l1 [(q, false)]); [by repeat constructor|].
  3: apply (foreign_free nl base l1 [(q, false); (s2, false)]); [by repeat constructor|].
  all: rewrite total_app, total_lead; simpl; lia.
Qed.

(** The second half of [mm_memalign], on the heap [mm_malloc] left. *)
Lemma memalign_fit_spec e h l1 q c l2 k size allocsize ra :
  let base := mm_heapstart h in
  let raw := base + total l1 + 16 in
  let p := align_gap raw (2 ^ k) in
  let cs' := shrunk (l1 ++ lead p) (q - p) (size + 16) (c :: l2) in
  heap_wf h (l1 ++ (q, true) :: c :: l2) -> unlocked h -> 0 <= getpid e -> last (c :: l2) = Some (16, true) ->
  5 <= k <= 30 -> 0 <= size < allocsize -> (16 | size) -> 2 * 2 ^ k + size + 16 <= q ->
  coalesced cs' = true -> guarded cs' ->
  exists h', memalign_fit e h raw (2 ^ k) size allocsize ra = Some (raw + p, h') /\ unlocked h' /\
    same_frame h h' /\ heap_wf h' cs' /\
    (accounted h (l1 ++ (q, true) :: c :: l2) -> accounted h' cs') /\
    keeps (l1 ++ (q, false) :: c :: l2) h h'.
Proof.
  intros base raw p cs' Hwf Hul Hpid Hlast Hk Hsize Hdiv Hq Hco Hg.
  pose proof (wf_fuel _ _ Hwf) as Hfuel. pose proof Hwf as [(_ & _ & fl & Hrep) _]. fold base in Hrep.
  assert (2 ^ 5 <= 2 ^ k) by (apply Z.pow_le_mono_r; lia).
  destruct (memalign_cut (mm_mem h) (mm_nodelist h) base l1 q c l2 (list_fuel h) fl k size allocsize)
    as (m1 & al & m2 & fl2 & Hlead & Hal & Hshr & Hrep2 & Hfor); [done..|].
  fold raw p in Hlead, Hshr, Hrep2. fold cs' in Hrep2.
  pose proof (rep_split_facts _ _ _ _ _ _ _ _ Hrep) as (? & ? & [_ _] & ? & _). cbn [fst] in *.
  pose proof (hdrs_at _ _ _ _ _ _ (hr_hdrs _ _ _ _ _ _ Hrep)) as [Hsz _]. cbn [fst] in Hsz.
  destruct (align_gap_spec raw (2 ^ k)) as [Hp _]; [lia|]. fold p in Hp.
  pose proof (merge_next_total (q - p - (size + 16)) (c :: l2)) as Hmt.
  assert (Hshape : exists l2', cs' = (l1 ++ lead p) ++ (size + 16, true) :: l2' /\
            total l2' = q - p - (size + 16) + total (c :: l2) /\ allocated l2' = allocated (c :: l2)).
  { subst cs'. unfold shrunk. destruct (merge_next (q - p - (size + 16)) (c :: l2)) as [r l2'] eqn:Hm.
    exists ((r, false) :: l2'). split; [done|]. split; [simpl in *; lia|].
    destruct c as [s2 [|]]; simpl in Hm; by inversion Hm. }
  destruct Hshape as (l2' & Hcs' & Htl & Hall).
  unfold memalign_fit. rewrite take_unlocked by done. cbn [mbind option_bind]. unfold SIZEOF_MM_ALLOCNODE.
  replace (raw - 16) with (base + total l1) by lia.
  change (mm_mem (with_sem h 0 (getpid e) 1)) with (mm_mem h). rewrite Hsz.
  rewrite Hcs' in Hrep2, Hco, Hg.
  destruct (recharge e h l1 q (c :: l2) m2 (l1 ++ lead p) (size + 16) l2' fl2 ra)
    as (h4 & Hgive & Hul4 & Hfr & Hwf4 & Hacc & Hmem); try done.
  { rewrite !total_app, total_lead. simpl in *. lia. }
  { rewrite !allocated_app, allocated_lead. simpl in *. lia. }
  fold base in Hgive. rewrite total_app, total_lead in Hgive.
  replace (base + (total l1 + p)) with (base + total l1 + p) in Hgive by lia.
  destruct (heapinfo_discharge_spec (with_sem h 0 (getpid e) 1) (base + total l1) q)
    as ((Hf1 & Hf2 & Hf3 & _) & Hm & _).
  set (h2 := heapinfo_discharge (with_sem h 0 (getpid e) 1) (base + total l1) q) in *.
  replace (list_fuel h2) with (list_fuel h) by (unfold list_fuel; by rewrite Hf2, Hf3).
  rewrite Hf1, Hm. cbn [mm_nodelist mm_mem with_sem].
  rewrite Hlead. cbn [mbind option_bind].
  destruct (Z.ltb_spec size al); [|lia]. rewrite u32_small by lia. rewrite Hshr. cbn [mbind option_bind].
  rewrite Hgive. cbn [mbind option_bind].
  exists h4. split; [split_eq|]. rewrite Hcs'. split_and!; try done.
  intros b Hb. rewrite <- (Hfor b Hb). apply Hmem. rewrite <- Hcs'. by apply foreign_shrunk_lead.
Qed.

Lemma mm_memalign_spec e h cs k size ra :
  heap_wf h cs -> unlocked h -> 0 <= getpid e -> 5 <= k <= 30 ->
  1 <= size -> size + 2 * 2 ^ k <= 4294967200 ->
  exists r h', mm_memalign e h (2 ^ k) size ra = Some (r, h') /\ unlocked h' /\ keeps cs h h' /\
    mm_nodelist h' = mm_nodelist h /\ mm_heapstart h' = mm_heapstart h /\ mm_heapsize h' = mm_heapsize h /\
    ((r = 0 /\ heap_wf h' cs /\ (forall s, (s, false) ∈ cs -> s < request size + 2 * 2 ^ k) /\
      mm_total_alloc_size h' = mm_total_alloc_size h) \/
     (exists cs', memalign_result cs (mm_heapstart h) (2 ^ k) size r cs' /\ heap_wf h' cs' /\
      (accounted h cs -> accounted h' cs'))).
Proof.
  intros Hwf Hul Hpid Hk Hsize Hlim.
  assert (2 ^ 5 <= 2 ^ k <= 2 ^ 30) by (split; apply Z.pow_le_mono_r; lia).
  change (2 ^ 5) with 32 in *. change (2 ^ 30) with 1073741824 in *.
  unfold mm_memalign, MM_MIN_CHUNK. destruct (Z.leb_spec (2 ^ k) 16); [lia|].
  rewrite MM_ALIGN_UP_eq by lia. set (asz := 16 * ((size + 15) / 16)).
  pose proof (Z.div_mod (size + 15) 16). pose proof (Z.mod_pos_bound (size + 15) 16).
  assert (Hasz : size <= asz <= size + 15 /\ (16 | asz)) by (split; [lia|apply Z.divide_factor_l]).
  assert (Hreqa : request size = asz + 16).
  { unfold request, asz. replace (size + 31) with (size + 15 + 1 * 16) by lia. rewrite Z.div_add; lia. }
  assert (H16k : (16 | 2 ^ k)).
  { exists (2 ^ (k - 4)). change 16 with (2 ^ 4). rewrite <- Z.pow_add_r by lia. f_equal. lia. }
  rewrite (u32_small (asz + 2 * 2 ^ k)) by lia.
  assert (Hreq : request (asz + 2 * 2 ^ k) = asz + 2 * 2 ^ k + 16).
  { unfold request. destruct (proj2 Hasz) as [i ->], H16k as [j ->].
    replace (i * 16 + 2 * (j * 16) + 31) with (15 + (i + 2 * j + 1) * 16) by lia. rewrite Z.div_add by lia.
    change (15 / 16) with 0. lia. }
  destruct (mm_malloc_spec e h cs (asz + 2 * 2 ^ k) ra)
    as (r & h1 & -> & Hul1 & Hk1 & Hn1 & Hb1 & Hs1 & Hcase); [done..|lia|].
  cbn [mbind option_bind]. rewrite Hreq in Hcase.
  destruct Hcase as [(-> & Hwf1 & Hnone & Ht1) | (cs1 & (l1 & s & l2 & -> & -> & Hge & Hbest & ->) & Hwf1 & Hacc1)].
  { simpl. exists 0, h1. split_and!; try done. left. split_and!; try done.
    intros s Hs. specialize (Hnone s Hs). lia. }
  rewrite Hreq in *. set (req := asz + 2 * 2 ^ k + 16) in *.
  destruct Hwf as [(Hco & Hg & fl & Hrep) Hend].
  destruct (guarded_free_inside _ _ _ Hg) as [Hl1 Hl2].
  pose proof (rep_split_facts _ _ _ _ _ _ _ _ Hrep) as (? & ? & [? Hds] & ? & ? & ? & _). cbn [fst] in *.
  assert (Hdr : (16 | req)).
  { subst req. destruct (proj2 Hasz) as [i ->], H16k as [j ->]. exists (i + 2 * j + 1). lia. }
  destruct (Z.eqb_spec (mm_heapstart h + total l1 + 16) 0); [lia|].
  unfold carve in Hwf1. cbn [app] in Hwf1.
  set (tail := (if 16 <=? s - req then [(s - req, false)] else []) ++ l2) in *.
  assert (Htail : last tail = Some (16, true)) by (subst tail; by rewrite last_app, Hl2).
  destruct tail as [|c tl] eqn:Etail; [done|].
  set (p := align_gap (mm_heapstart h + total l1 + 16) (2 ^ k)).
  destruct (align_gap_spec (mm_heapstart h + total l1 + 16) (2 ^ k)) as [Hp Hpd]; [lia|]. fold p in Hp, Hpd.
  assert (Hcs' : shrunk (l1 ++ lead p) (req - p) (asz + 16) (c :: tl)
                 = l1 ++ lead p ++ (request size, true) :: (s - p - request size, false) :: l2).
  { rewrite <- Etail. subst tail. rewrite (shrunk_carve _ l1), <- app_assoc, Hreqa; done. }
  destruct (memalign_fit_spec e h1 l1 req c tl k asz (asz + 2 * 2 ^ k) ra)
    as (h' & Hfit & Hul' & (Hf1 & Hf2 & _ & _ & _ & _ & Hf7) & Hwf' & Hacc' & Hkeep); try done; try lia.
  { apply Hasz. }
  { rewrite Hb1. fold p. rewrite Hcs'. by eapply coalesced_memalign. }
  { rewrite Hb1. fold p. rewrite Hcs'.
    apply (guarded_replace l1 [(s, false)] (lead p ++ [(request size, true); (s - p - request size, false)])) in Hg;
      [by rewrite <- app_assoc in Hg|done..]. }
  rewrite Hb1 in *. fold p in Hfit, Hwf', Hacc'. rewrite Hcs' in Hwf', Hacc'. rewrite Hfit.
  eexists _, h'. split; [done|]. split; [done|]. split.
  { intros b Hb. rewrite <- Hk1 by done. apply Hkeep. rewrite Hn1, Hb1, <- Etail.
    subst tail. apply (foreign_free _ _ l1 [(s, false)] ((req, false) :: _)); [by repeat constructor| |done].
    destruct (Z.leb_spec 16 (s - req)); simpl; [lia|]. destruct Hdr as [i Hi], Hds as [j Hj]. lia. }
  split; [congruence|]. split; [congruence|]. split; [congruence|].
  right. eexists. split; [|split; [exact Hwf'|intros Ha; apply Hacc'; rewrite <- Etail; exact (Hacc1 Ha)]].
  exists l1, s, l2, p. split_and!; try done; lia.
Qed.

(** ** mm_extend *)

(** A memory block that can be appended to the region ending at [block]. *)
Definition block_ok (h : mm_heap_s) (cs : list chunk) (block size : Z) : Prop :=
  block = mm_heapend h + 16 /\ 32 <= size /\ (16 | size) /\
  total cs + size < 2147483648 /\ block + size < 4294967296 /\
  (mm_nodelist h + 304 <= block \/ block + size <= mm_nodelist h).

(** The tail guard becomes an allocated chunk that covers the block, up to a
    new tail guard. *)
Lemma rep_append m nl base l L fl size :
  let old := base + total l in
  let m' := ((m.[old <- size]).[old + size <- 16]).[old + size + 4 <- size + flag true] in
  heap_rep m nl base (l ++ [(16, true)]) L fl -> L ⊆ addrs base l ->
  32 <= size -> (16 | size) -> total l + 16 + size < 2147483648 ->
  old + 16 + size < 4294967296 -> nl + 304 <= old + 16 \/ old + 16 + size <= nl ->
  heap_rep m' nl base (l ++ [(size, true); (16, true)]) L fl.
Proof.
  intros old m' Hrep HL Hsz Hdiv Ht He Hnl.
  pose proof (rep_split_facts _ _ _ _ _ _ _ _ Hrep) as (? & _ & _ & ? & ? & ? & ? & Hok & _). cbn [fst] in *.
  pose proof (hr_nl _ _ _ _ _ _ Hrep) as [Hnl0 Hnl1]. rewrite total_app in Hnl1. simpl in Hnl1.
  assert (Hold : old = base + total l) by done. clearbody old.
  assert (Hout : forall b, b < old \/ b = old + 4 -> m'.[b] = m.[b]) by (intros; subst m'; mem_simpl; done).
  assert (Hfl : forall x, x ∈ fl -> x + 16 <= old \/ old + 16 + size <= x).
  { intros x Hx. rewrite (hr_perm _ _ _ _ _ _ Hrep), elem_of_app, elem_of_heads in Hx.
    destruct Hx as [(i & Hi & ->) | Hx%HL]; [lia|]. apply addrs_range in Hx; [lia|done]. }
  destruct Hrep as [Hb Hs He0 Ht0 Hn Hh Hl Hp Hsub]. constructor; try done.
  - apply Forall_app. split; [done|]. repeat constructor; simpl; done || lia.
  - rewrite total_app. simpl. lia.
  - rewrite total_app. simpl. lia.
  - rewrite total_app. simpl. lia.
  - rewrite hdrs_app in Hh |- *. destruct Hh as [Hh1 Hh2]. split.
    + eapply hdrs_ext; [|exact Hh1]. intros x Hx. apply addrs_range in Hx; [|done]. split; apply Hout; fields; lia.
    + simpl in Hh2 |- *. rewrite <- Hold in *. fields. destruct Hh2 as (_ & Hp2 & _).
      rewrite (Hout (old + 4)) by lia. split_and!; try done; subst m'; mem_simpl; done.
  - eapply free_list_ext; [|exact Hl]. intros x [Hx | Hx]%Hfl; [split_and!; apply Hout; fields; lia|].
    subst m'. fields. split_and!; mem_simpl; done.
  - intros x Hx. rewrite addrs_app, elem_of_app. left. by apply HL.
Qed.

Lemma coalesced_append l s c :
  coalesced (l ++ [c]) = true -> coalesced (l ++ [(s, true); c]) = true.
Proof.
  change [(s, true); c] with ([(s, true)] ++ [c]). rewrite !coalesced_concat. cbn.
  destruct (coalesced l), (ends_free l), c.2; done.
Qed.

Lemma mm_extend_spec e h l block size :
  let cs := l ++ [(16, true)] in
  let cs' := freed l size [(16, true)] in
  heap_wf h cs -> unlocked h -> 0 <= getpid e -> block_ok h cs block size ->
  exists h', mm_extend e h block size 0 = Some h' /\ unlocked h' /\ heap_wf h' cs' /\
    mm_nodelist h' = mm_nodelist h /\ mm_heapstart h' = mm_heapstart h /\
    mm_heapend h' = mm_heapend h + size /\ mm_heapsize h' = mm_heapsize h /\
    (forall b, payload (mm_heapstart h) l b -> (mm_mem h').[b] = (mm_mem h).[b]).
Proof.
  intros cs cs' Hwf Hul Hpid (-> & Hsz & Hdiv & Ht & He & Hnl). subst cs.
  destruct Hwf as [(Hco & Hg & fl & Hrep) Hend].
  rewrite total_app in Hend, Ht. simpl in Hend, Ht.
  assert (Hold : mm_heapend h = mm_heapstart h + total l) by lia.
  pose proof (rep_split_facts _ _ _ _ _ _ _ _ Hrep) as (? & _ & _ & ? & ? & ? & ? & Hok & _). cbn [fst] in *.
  assert (Hd16 : (16 | mm_heapend h)).
  { rewrite Hold. apply Z.divide_add_r; [apply Hrep|by apply total_aligned]. }
  destruct Hd16 as [i Hi]. destruct (Hdiv) as [j Hj].
  assert (Hl : l <> []) by (intros ->; destruct Hg as (_ & _ & Hg); simpl in Hg; lia).
  unfold mm_extend, MIN_EXTEND, SIZEOF_MM_ALLOCNODE.
  rewrite (u32_small (mm_heapend h + 16 + size)), MM_ALIGN_UP_eq, MM_ALIGN_DOWN_eq by lia.
  replace (mm_heapend h + 16 + 15) with (15 + (i + 1) * 16) by lia.
  replace (mm_heapend h + 16 + size) with (0 + (i + 1 + j) * 16) by lia. rewrite !Z.div_add by lia.
  change (15 / 16) with 0. change (0 / 16) with 0.
  replace (16 * (0 + (i + 1))) with (mm_heapend h + 16) by lia.
  replace (16 * (0 + (i + 1 + j))) with (0 + (i + 1 + j) * 16) by lia. rewrite !Z.eqb_refl.
  destruct (Z.eqb_spec (mm_heapend h + 16) 0); [lia|]. destruct (Z.leb_spec (2 * 16) size); [|lia]. cbn [negb andb].
  rewrite take_unlocked by done. cbn [mbind option_bind]. cbn [mm_heapend mm_mem with_sem].
  rewrite Z.eqb_refl. cbn [negb].
  pose proof (hdrs_at _ _ _ _ _ _ (hr_hdrs _ _ _ _ _ _ Hrep)) as [_ Hp]. rewrite <- Hold in Hp. cbn [snd] in Hp.
  rewrite (is_free_flag _ _ (lastsz 0 l) true); [|done|fields; rewrite load_store_ne by lia; done]. cbn [negb].
  replace (0 + (i + 1 + j) * 16 - 16) with (mm_heapend h + size) by lia. fields.
  assert (HL : free_addrs (mm_heapstart h) (l ++ [(16, true)]) ⊆ addrs (mm_heapstart h) l).
  { rewrite free_addrs_app, app_nil_r. apply free_addrs_sub. }
  pose proof (rep_append _ _ _ _ _ _ size Hrep HL Hsz Hdiv ltac:(lia) ltac:(lia) ltac:(lia)) as Hrep'.
  rewrite <- Hold in Hrep'. rewrite (load_store_ne _ (mm_heapend h + size)), load_store_eq, lor_alloc_bit by lia.
  rewrite give_held by done. cbn [mbind option_bind].
  match goal with |- context [mm_free e ?hx _] => set (h1 := hx) end.
  destruct (mm_free_spec e h1 l size [(16, true)]) as (h' & Hfree & Hul' & Hkeep & Hfr & Hwf' & _); try done.
  { apply (heap_wf_intro _ (mm_mem h1) _ fl); try done.
    - apply coalesced_append. exact Hco.
    - by apply (guarded_replace l [] [(size, true)]).
    - simpl. rewrite total_app. simpl. lia.
    - rewrite !free_addrs_app in *. exact Hrep'. }
  change (mm_heapstart h1) with (mm_heapstart h) in *.
  replace (mm_heapstart h + total l + 16) with (mm_heapend h + 16) in Hfree by lia. rewrite Hfree.
  destruct Hfr as (Hf1 & Hf2 & Hf3 & _ & _ & _ & Hf7). exists h'. split_and!; try done.
  intros b Hb. pose proof (payload_range _ _ _ Hok Hb).
  rewrite Hkeep; [subst h1; simpl; mem_simpl; done|]. left. rewrite payload_app. by left.
Qed.
