(* ===== verification/MmHeapRealloc.v ===== *)
(** * The kernel heap: mm_realloc *)

From stdpp Require Import base tactics numbers list sorting gmap.
From S2P Require Import Prelude MmHeap MmFreeList MmLayout MmHeapOps MmHeapProps MmHeapInit MmHeapResize.

(** ** Allocated blocks *)

(** [r] is the user pointer of an allocated chunk of size [s] of the layout. *)
Fixpoint block (a : Z) (cs : list chunk) (r s : Z) : Prop :=
  match cs with
  | [] => False
  | c :: cs => (c = (s, true) /\ r = a + 16) \/ block (a + c.1) cs r s
  end.

Lemma block_app a cs1 cs2 r s :
  block a (cs1 ++ cs2) r s <-> block a cs1 r s \/ block (a + total cs1) cs2 r s.
Proof.
  revert a. induction cs1 as [|c cs1 IH]; intros a; simpl.
  - rewrite Z.add_0_r. naive_solver.
  - rewrite IH, Z.add_assoc. naive_solver.
Qed.

Lemma block_free a cs r s : Forall (fun c => c.2 = false) cs -> ~ block a cs r s.
Proof.
  intros Hcs. revert a. induction Hcs as [|c cs Hc Hcs IH]; intros a; simpl; [tauto|].
  intros [[-> _] | ?]; [done|by eapply IH].
Qed.

(** Rearranging free chunks keeps the blocks. *)
Lemma block_mid a l1 mid mid' l2 r s :
  Forall (fun c => c.2 = false) mid -> Forall (fun c => c.2 = false) mid' -> total mid' = total mid ->
  block a (l1 ++ mid ++ l2) r s <-> block a (l1 ++ mid' ++ l2) r s.
Proof.
  intros Hf Hf' Ht. rewrite !block_app, Ht.
  pose proof (block_free (a + total l1) mid r s Hf). pose proof (block_free (a + total l1) mid' r s Hf'). tauto.
Qed.

(** Allocating in the midst of free chunks adds one block. *)
Lemma block_alloc a l1 mid pre q post l2 r s :
  Forall (fun c => c.2 = false) mid -> Forall (fun c => c.2 = false) pre -> Forall (fun c => c.2 = false) post ->
  total pre + q + total post = total mid ->
  block a (l1 ++ (pre ++ (q, true) :: post) ++ l2) r s <->
  (r = a + total l1 + total pre + 16 /\ s = q) \/ block a (l1 ++ mid ++ l2) r s.
Proof.
  intros Hf Hpre Hpost Ht.
  assert (Hb : block a (l1 ++ (pre ++ (q, true) :: post) ++ l2) r s <->
               (r = a + total l1 + total pre + 16 /\ s = q) \/ block a l1 r s \/ block (a + total l1 + total mid) l2 r s).
  { rewrite !block_app, total_app. cbn [block total fst].
    replace (a + total l1 + (total pre + (q + total post))) with (a + total l1 + total mid) by lia.
    split.
    - intros [? | [[?%block_free | [[? ?] | ?%block_free]] | ?]]; naive_solver.
    - intros [[? ->] | [? | ?]]; tauto. }
  rewrite Hb, !block_app. pose proof (block_free (a + total l1) mid r s Hf). tauto.
Qed.

Lemma block_carve a l1 q s l2 r0 s0 :
  (16 | q) -> (16 | s) -> q <= s ->
  block a (l1 ++ carve q s ++ l2) r0 s0 <->
  (r0 = a + total l1 + 16 /\ s0 = q) \/ block a (l1 ++ (s, false) :: l2) r0 s0.
Proof.
  intros Dq Ds Hle. pose proof (total_carve q s Dq Ds Hle) as Ht. unfold carve in *.
  set (post := if 16 <=? s - q then _ else _) in *.
  assert (Hpost : Forall (fun c : chunk => c.2 = false) post).
  { subst post. destruct (16 <=? s - q); by repeat constructor. }
  pose proof (block_alloc a l1 [(s, false)] [] q post l2 r0 s0) as Hb. simpl in Hb, Ht.
  rewrite !Z.add_0_r in Hb. apply Hb; [by repeat constructor..|done|lia].
Qed.

Lemma block_split a cs r s :
  block a cs r s <-> exists l1 l2, cs = l1 ++ (s, true) :: l2 /\ r = a + total l1 + 16.
Proof.
  split.
  - revert a. induction cs as [|c cs IH]; intros a; simpl; [done|].
    intros [[-> ->] | (l1 & l2 & -> & ->)%IH].
    + exists [], cs. simpl. split; [done|lia].
    + exists (c :: l1), l2. simpl. split; [done|lia].
  - intros (l1 & l2 & -> & ->). rewrite block_app. right. left. done.
Qed.

Lemma block_payload a cs r s b :
  block a cs r s -> r <= b < r + s - 16 -> payload a cs b.
Proof.
  intros (l1 & l2 & -> & ->)%block_split Hb. rewrite payload_app. right. left. simpl. split; [done|lia].
Qed.

Lemma payload_block a cs b :
  payload a cs b <-> exists r s, block a cs r s /\ r <= b < r + s - 16.
Proof.
  split; [|intros (r & s & Hb & ?); by eapply block_payload].
  revert a. induction cs as [|[s al] cs IH]; intros a; simpl; [done|].
  intros [[-> ?] | (r & s' & ? & ?)%IH].
  - exists (a + 16), s. split; [by left|lia].
  - exists r, s'. split; [by right|done].
Qed.

Lemma block_range a cs r s : Forall chunk_ok cs -> block a cs r s -> a + 16 <= r /\ r + s - 16 <= a + total cs /\ 16 <= s.
Proof.
  intros Hok (l1 & l2 & -> & ->)%block_split. apply Forall_app in Hok as [H1 [[? ?] H2]%Forall_cons].
  pose proof (total_nonneg _ H1). pose proof (total_nonneg _ H2). rewrite total_app. simpl in *. lia.
Qed.

(** Different blocks do not overlap, headers included. *)
Lemma block_disjoint a cs r1 s1 r2 s2 :
  Forall chunk_ok cs -> block a cs r1 s1 -> block a cs r2 s2 ->
  (r1 = r2 /\ s1 = s2) \/ r1 + s1 <= r2 \/ r2 + s2 <= r1.
Proof.
  intros Hok. revert a. induction Hok as [|c cs [? ?] Hok IH]; intros a; simpl; [done|].
  intros [[-> ->] | H1] [[Hc ->] | H2].
  - simplify_eq. by left.
  - apply block_range in H2; [simpl in *; lia|done].
  - subst c. apply block_range in H1; [simpl in *; lia|done].
  - by apply IH with (a + c.1).
Qed.

(** Freeing a block removes it and keeps the others. *)
Lemma block_remove a l1 s l2 r0 s0 :
  Forall chunk_ok (l1 ++ (s, true) :: l2) ->
  block a (l1 ++ (s, false) :: l2) r0 s0 <->
  block a (l1 ++ (s, true) :: l2) r0 s0 /\ r0 <> a + total l1 + 16.
Proof.
  intros [H1 [[? ?] H2]%Forall_cons]%Forall_app. rewrite !block_app. simpl in *. split.
  - intros [Hb | [[? _] | Hb]]; [|done|].
    + split; [by left|]. apply block_range in Hb; [lia|done].
    + split; [by right; right|]. apply block_range in Hb; [lia|done].
  - intros [[Hb | [[_ ->] | Hb]] Hne]; [by left|done|by right; right].
Qed.

(** No block starts in a free part of the layout. *)
Lemma block_not_free a l1 mid l2 r s :
  Forall chunk_ok (l1 ++ mid ++ l2) -> Forall (fun c => c.2 = false) mid ->
  a + total l1 + 16 <= r < a + total l1 + total mid + 16 -> ~ block a (l1 ++ mid ++ l2) r s.
Proof.
  intros [H1 [H2 H3]%Forall_app]%Forall_app Hf Hr. rewrite !block_app.
  intros [Hb | [Hb | Hb]].
  - apply block_range in Hb; [lia|done].
  - by eapply block_free.
  - apply block_range in Hb; [lia|done].
Qed.

Lemma block_freed a l1 s l2 r q :
  block a (l1 ++ (s, false) :: l2) r q <-> block a (freed l1 s l2) r q.
Proof.
  unfold freed.
  assert (Hn : block a (l1 ++ (s, false) :: l2) r q <->
               block a (l1 ++ (((merge_next s l2).1, false)) :: (merge_next s l2).2) r q).
  { destruct l2 as [|[s2 [|]] l2]; cbn [merge_next fst snd]; [done..|].
    apply (block_mid a l1 [(s, false); (s2, false)] [(s + s2, false)]); [by repeat constructor..|simpl; lia]. }
  rewrite Hn. destruct (merge_next s l2) as [s' l2']. cbn [fst snd]. unfold merge_prev.
  destruct l1 as [|[s1 [|]] l1 _] using rev_ind; [done|..]; rewrite last_snoc; [done|].
  rewrite removelast_last, <- app_assoc.
  apply (block_mid a l1 [(s1, false); (s', false)] [(s1 + s', false)]); [by repeat constructor..|simpl; lia].
Qed.

(** Writing into the payload of allocated chunks keeps the layout. *)
Lemma rep_payload m m' nl base cs L fl :
  heap_rep m nl base cs L fl -> (forall b, ~ payload base cs b -> m'.[b] = m.[b]) ->
  heap_rep m' nl base cs L fl.
Proof.
  intros Hrep Hsame.
  assert (Hnode : forall x b, x ∈ heads nl ++ addrs base cs -> x <= b < x + 16 -> m'.[b] = m.[b]).
  { intros x b Hx Hb. apply Hsame. intros Hp.
    destruct (foreign_not_node Hrep b x (or_introl Hp) Hx); lia. }
  pose proof (rep_list_sub Hrep) as Hsub. destruct Hrep as [? ? ? ? ? Hh Hl Hp Hs]. constructor; try done.
  - eapply hdrs_ext; [|exact Hh]. intros x Hx. split; eapply Hnode; try (by apply node_of_addr); fields; lia.
  - eapply free_list_ext; [|exact Hl]. intros x Hx%Hsub. split_and!; eapply Hnode; try done; fields; lia.
Qed.

(** ** memcpy *)

Lemma memcpy_words_out m dst src n b :
  b < dst \/ dst + 4 * Z.of_nat n <= b -> (memcpy_words m dst src n).[b] = m.[b].
Proof.
  revert m dst src. induction n as [|n IH]; intros m dst src Hb; simpl; [done|].
  rewrite IH, load_store_ne by lia. done.
Qed.

(** An upwards copy is right when the target is below the source or beyond
    its end. *)
Lemma memcpy_words_in m dst src n i :
  0 <= i < Z.of_nat n -> dst < src \/ src + 4 * Z.of_nat n <= dst ->
  (memcpy_words m dst src n).[dst + 4 * i] = m.[src + 4 * i].
Proof.
  revert m dst src i. induction n as [|n IH]; intros m dst src i Hi Hd; [lia|]. simpl.
  destruct (decide (i = 0)) as [-> | ?].
  - rewrite !Z.add_0_r, memcpy_words_out, load_store_eq by lia. done.
  - replace (dst + 4 * i) with (dst + 4 + 4 * (i - 1)) by lia. rewrite IH by lia.
    rewrite load_store_ne by lia. f_equal. lia.
Qed.

(** ** Extension into the neighbours *)

Lemma div16_lead s : (16 | s) -> 0 <= s -> s = 0 \/ 16 <= s.
Proof. intros [k ->] ?. lia. Qed.

Lemma lead_pos p : 16 <= p -> lead p = [(p, false)].
Proof. intros. unfold lead. destruct (Z.eqb_spec p 0); [lia|done]. Qed.

(** A chunk that grows over its free successor keeps the words in use. *)
Lemma foreign_grow_next nl base l1 s t r mid l2 b :
  s <= t -> t + total r = s + total mid -> Forall (fun c => c.2 = false) mid ->
  foreign nl base (l1 ++ ((s, true) :: mid) ++ l2) b ->
  foreign nl base (l1 ++ ((t, true) :: r) ++ l2) b.
Proof.
  intros Hle Ht Hmid. apply foreign_mid; [simpl; lia|]. simpl.
  intros [[_ ?] | []%payload_free]; [|done]. left. split; [done|lia].
Qed.

Lemma realloc_next_spec m nl base l1 s sn c l2 fuel fl t :
  let node := base + total l1 in
  let cs := l1 ++ (s, true) :: (sn, false) :: c :: l2 in
  let cs' := l1 ++ ((s + t, true) :: lead (sn - t)) ++ c :: l2 in
  heap_rep m nl base cs (free_addrs base cs) fl -> 0 < t <= sn -> (16 | t) -> enough_fuel fuel cs ->
  exists m' fl', realloc_next fuel nl m (node + s) node s sn t = Some m' /\
    heap_rep m' nl base cs' (free_addrs base cs') fl' /\
    (forall b, foreign nl base cs b -> m'.[b] = m.[b]).
Proof.
  intros node cs cs' Hrep Ht Hdiv Hfuel. subst cs cs'.
  pose proof (rep_split_facts _ _ _ _ _ _ _ _ Hrep) as
    (? & Htl & [? Hds] & ? & ? & ? & Hl & Hok1 & [[? Hdn] [[? ?] Hok2]%Forall_cons]%Forall_cons). cbn [fst total] in *.
  pose proof (total_nonneg _ Hok2).
  destruct (rep_unlink Hrep (node + s) (listed base l1 (s + sn) (c :: l2)))
    as (m1 & f1 & Hun & Hrep1 & Hfor1 & _).
  { rewrite free_addrs_app. apply listed_next_free. }
  pose proof (hr_hdrs _ _ _ _ _ _ Hrep1) as (_ & Hs & Hp & Hns & _ & _ & Hcp & _)%hdrs_app.
  fold node in Hs, Hp, Hns, Hcp. cbn [fst snd] in *.
  unfold realloc_next. destruct (Z.eqb_spec t 0); [lia|]. rewrite Hun. cbn [mbind option_bind]. fields.
  unfold SIZEOF_MM_FREENODE. rewrite (u32_small (s + t)), (u32_small (sn - t)) by lia.
  destruct (Z.leb_spec 16 (sn - t)) as [Hrem | Hrem].
  - rewrite load_store_eq, (lead_pos (sn - t)) by done. rewrite load_store_ne, load_store_eq by lia.
    rewrite load_store_ne, load_store_eq by lia.
    rewrite (set_preceding_eq _ _ _ sn c.2) by (lia || (mem_simpl; done)).
    match goal with |- context [mm_addfreechunk _ _ ?mm _] => set (m' := mm) end.
    replace (node + (s + t)) with (node + s + t) by lia.
    destruct (rep_cut_add m1 m' nl base l1 s [(sn, false)] (s + t) (sn - t) c l2 fuel f1)
      as (m2 & fl2 & Hadd & Hrep2 & Hfor2).
    { simpl. rewrite Z.add_0_r. exact Hrep1. }
    { lia. } { by apply Z.divide_add_r. } { lia. } { simpl. lia. } { done. }
    { fold node. intros b. subst m'. replace (node + (s + t) + (sn - t)) with (node + s + sn) by lia.
      rewrite !load_store. repeat case_decide; done || lia. }
    fold node in Hadd. replace (node + (s + t)) with (node + s + t) in Hadd by lia.
    exists m2, fl2. split; [exact Hadd|]. split; [exact Hrep2|].
    intros b Hb. rewrite Hfor2, Hfor1; [done..|].
    eapply (foreign_grow_next _ _ _ s (s + t) [(sn - t, false)] [(sn, false)]); [lia|simpl; lia| |done].
    by repeat constructor.
  - assert (t = sn) as -> by (destruct Hdiv as [i ->], Hdn as [j ->]; lia).
    rewrite load_store_eq, Z.sub_diag, u32_small by lia. rewrite (set_preceding_eq _ _ _ sn c.2) by (lia || (mem_simpl; done)).
    destruct (rep_rewrite m1 ((m1.[node <- s + sn]).[node + s + sn + 4 <- s + sn + flag c.2]) nl base l1
                [(s, true); (sn, false)] [(s + sn, true)] c l2 _ f1 Hrep1) as [Hrep2 Hfor2];
      simpl; fold node; rewrite ?Z.add_0_r.
    + intros x Hx. apply (listed_not_mid base l1 [(s, true); (sn, false)] (c :: l2)); [apply Hrep1|].
      simpl. by rewrite Z.add_0_r.
    + repeat constructor; simpl; [lia|by apply Z.divide_add_r].
    + lia.
    + intros b Hb Hne. pose proof (Hb node ltac:(set_solver)). fields. mem_simpl. done.
    + fields. split_and!; mem_simpl; try done.
    + fields. rewrite Z.add_assoc. mem_simpl. done.
    + eexists _, f1. split; [done|]. split.
      * eapply rep_perm; [|exact Hrep2]. rewrite free_addrs_app. done.
      * intros b Hb. rewrite Hfor2, Hfor1; [done..|].
        apply (foreign_grow_next _ _ _ s (s + sn) [] [(sn, false)]); [lia|simpl; lia| |done].
        by repeat constructor.
Qed.

(** A chunk that grows down over its free predecessor: the header writes of
    both branches, on an unlisted predecessor. *)
Lemma rep_grow_prev m m' nl base l1 sp s c l2 fl r :
  let prev := base + total l1 in
  heap_rep m nl base (l1 ++ [(sp, false); (s, true)] ++ c :: l2) (listed base l1 (sp + s) (c :: l2)) fl ->
  0 <= r < sp -> (16 | r) ->
  let new := prev + r in
  m'.[new] = sp - r + s -> m'.[new + 4] = (if r =? 0 then lastsz 0 l1 else r) + flag true ->
  (16 <= r -> m'.[prev] = r) -> m'.[prev + sp + s + 4] = sp - r + s + flag c.2 ->
  (forall b, b <> prev -> b <> new -> b <> new + 4 -> b <> prev + sp + s + 4 -> m'.[b] = m.[b]) ->
  heap_rep m' nl base (l1 ++ (lead r ++ [(sp - r + s, true)]) ++ c :: l2) (listed base l1 (sp + s) (c :: l2)) fl /\
  (forall b, foreign nl base (l1 ++ (sp, false) :: (s, true) :: c :: l2) b -> m'.[b] = m.[b]).
Proof.
  intros prev Hrep Hr Hdiv new Hm1 Hm2 Hm3 Hm4 Hm5.
  pose proof (rep_split_facts _ _ _ _ _ _ _ _ Hrep) as
    (? & Htl & [? Hds] & ? & ? & ? & Hl & Hok1 & [[? Hdn] [[? ?] Hok2]%Forall_cons]%Forall_cons). cbn [fst total] in *.
  pose proof (total_nonneg _ Hok2).
  pose proof (hdrs_at _ _ _ _ _ _ (hr_hdrs _ _ _ _ _ _ Hrep)) as [_ Hp]. fold prev in Hp. simpl in Hp.
  assert (Hcase : (r = 0 /\ lead r = []) \/ (16 <= r /\ lead r = [(r, false)])).
  { destruct (div16_lead r) as [-> | ?]; [done|lia|by left|right]. split; [done|by apply lead_pos]. }
  destruct (rep_rewrite m m' nl base l1 [(sp, false); (s, true)] (lead r ++ [(sp - r + s, true)]) c l2 _ fl Hrep)
    as [Hrep1 Hfor1]; fold prev; rewrite ?total_app, ?total_lead; simpl; rewrite ?Z.add_0_r.
  - intros x Hx. apply (listed_not_mid base l1 [(sp, false); (s, true)] (c :: l2)); [apply Hrep|].
    simpl. by rewrite Z.add_0_r.
  - apply Forall_app. split; [|repeat constructor; simpl; [lia|]].
    + destruct Hcase as [[-> ->] | [? ->]]; by repeat constructor.
    + apply Z.divide_add_r; [by apply Z.divide_sub_r|done].
  - lia.
  - intros b Hb Hne.
    assert (Hb1 : b < prev \/ prev + 16 <= b) by (apply Hb; set_solver).
    assert (Hb2 : b < new \/ new + 16 <= b).
    { apply Hb. rewrite !elem_of_cons. right. right. destruct Hcase as [[Hr0 ->] | [? ->]]; simpl; subst new;
        [rewrite Hr0, Z.add_0_r|]; set_solver. }
    apply Hm5; fields; lia.
  - destruct Hcase as [[Hr0 ->] | [Hr0 ->]]; simpl; fields; subst new.
    + rewrite Hr0 in *. rewrite !Z.add_0_r in *. done.
    + destruct (Z.eqb_spec r 0); [lia|]. split_and!; try done; [by apply Hm3|].
      rewrite Hm5 by lia. rewrite Hp. simpl. lia.
  - fields. replace (lastsz (lastsz 0 l1) (lead r ++ [(sp - r + s, true)])) with (sp - r + s) by (by rewrite lastsz_app).
    by rewrite Z.add_assoc.
  - split; [exact Hrep1|]. intros b Hb. apply Hfor1; [done|].
    apply (foreign_mid nl base l1 [(sp, false); (s, true)]); [rewrite total_app, total_lead; simpl; lia| |done].
    simpl. intros [[? _] | [[_ ?] | []]]; [done|]. rewrite payload_app, total_lead. right. left. simpl. split; [done|lia].
Qed.

(** The move of the contents after the header writes. *)
Lemma rep_move m nl base l1 r q c l2 L fl from k :
  let new := base + total l1 + r in
  heap_rep m nl base (l1 ++ lead r ++ (q, true) :: c :: l2) L fl ->
  new < from -> 0 <= k <= q - 16 -> 
  let m' := memcpy_words m (new + 16) (from + 16) (Z.to_nat ((q - 16) / 4)) in
  heap_rep m' nl base (l1 ++ lead r ++ (q, true) :: c :: l2) L fl /\
  (forall i, 0 <= i -> 4 * i < k -> m'.[new + 16 + 4 * i] = m.[from + 16 + 4 * i]) /\
  (forall b, foreign nl base (l1 ++ lead r ++ (q, false) :: c :: l2) b -> m'.[b] = m.[b]).
Proof.
  intros new Hrep Hlt Hk m'.
  assert (Hok : Forall chunk_ok (l1 ++ lead r ++ (q, true) :: c :: l2)) by apply Hrep.
  apply Forall_app in Hok as [Hok1 [Hokr [[Hq1 [j Hj]] Hok2]%Forall_cons]%Forall_app]. simpl in Hq1, Hj.
  assert (Hn : (q - 16) / 4 = 4 * (j - 1)).
  { replace (q - 16) with ((4 * (j - 1)) * 4) by lia. by rewrite Z.div_mul. }
  pose proof (total_nonneg _ Hok1). pose proof (total_nonneg _ Hokr) as Hr0. rewrite total_lead in Hr0.
  pose proof (total_nonneg _ Hok2).
  assert (Hout : forall b, b < new + 16 \/ new + q <= b -> m'.[b] = m.[b]).
  { intros b Hb. subst m'. apply memcpy_words_out. rewrite Hn. lia. }
  split; [|split].
  - apply (rep_payload m); [done|]. intros b Hb. apply Hout.
    destruct (decide (new + 16 <= b < new + q)); [|lia]. destruct Hb. rewrite !payload_app, total_lead.
    right. right. left. simpl. split; [done|lia].
  - intros i Hi Hik. subst m'. apply memcpy_words_in; lia.
  - intros b Hb. apply Hout. destruct Hb as [Hb | [Hb _]].
    + rewrite !payload_app, total_lead in Hb. destruct Hb as [Hb | [Hb | [[? _] | Hb]]]; [| |done|].
      * apply payload_range in Hb; [lia|done].
      * by apply payload_free in Hb; [|apply lead_free].
      * apply payload_range in Hb; [simpl in Hb; lia|done].
    + rewrite !total_app, total_lead in Hb. simpl in Hb, H0. lia.
Qed.

Lemma realloc_prev_headers_spec m nl base l1 sp s c l2 fuel fl t :
  let prev := base + total l1 in
  let old := prev + sp in
  let cs := l1 ++ (sp, false) :: (s, true) :: c :: l2 in
  let cs' := l1 ++ lead (sp - t) ++ (s + t, true) :: c :: l2 in
  heap_rep m nl base cs (listed base l1 (sp + s) (c :: l2)) fl ->
  0 < t <= sp -> (16 | t) -> enough_fuel fuel cs ->
  exists m' fl', realloc_prev_headers fuel nl m prev (old + s) old s sp t = Some (m', old - t) /\
    heap_rep m' nl base cs' (free_addrs base cs') fl' /\
    (forall b, foreign nl base cs b -> m'.[b] = m.[b]).
Proof.
  intros prev old cs cs' Hrep Ht Hdiv Hfuel. subst cs cs'.
  pose proof (rep_split_facts _ _ _ _ _ _ _ _ Hrep) as
    (? & Htl & [? Hds] & ? & ? & ? & Hl & Hok1 & [[? Hdn] [[? ?] Hok2]%Forall_cons]%Forall_cons). cbn [fst total] in *.
  pose proof (total_nonneg _ Hok2).
  pose proof (hr_hdrs _ _ _ _ _ _ Hrep) as (_ & Hs & Hp & Hns & _ & _ & Hcp & _)%hdrs_app.
  fold prev in Hs, Hp, Hns, Hcp. cbn [fst snd] in *. fold old in Hns, Hcp.
  assert (Hr : forall mm, l1 ++ (lead (sp - t) ++ [(sp - (sp - t) + s, true)]) ++ mm
                          = l1 ++ lead (sp - t) ++ (s + t, true) :: mm).
  { intros mm. rewrite <- app_assoc. cbn [app]. do 4 f_equal. lia. }
  unfold realloc_prev_headers. fields. unfold SIZEOF_MM_FREENODE. rewrite Hs.
  destruct (Z.leb_spec 16 (sp - t)) as [Hrem | Hrem].
  - rewrite (u32_small (sp - t)), (u32_small (s + t)) by lia.
    rewrite (load_store_ne _ (old - t)), load_store_eq, lor_alloc_bit by lia.
    rewrite (load_store_ne _ (old - t + 4)), load_store_eq by lia.
    rewrite (set_preceding_eq _ _ _ s c.2) by (lia || (mem_simpl; done)).
    match goal with |- context [mm_addfreechunk _ _ ?mm _] => set (m1 := mm) end.
    destruct (rep_grow_prev m m1 nl base l1 sp s c l2 fl (sp - t)) as [Hrep1 Hfor1]; fold prev.
    1-3: done || lia || by apply Z.divide_sub_r.
    1-5: subst m1; replace (prev + (sp - t)) with (old - t) by lia; fold old;
         try (destruct (Z.eqb_spec (sp - t) 0); [lia|]); intros; mem_simpl; done || lia.
    rewrite Hr in Hrep1.
    destruct (rep_add Hrep1 prev fuel) as (m2 & fl2 & Hadd & Hrep2 & Hfor2 & _).
    { rewrite addrs_app, lead_pos by done. simpl. fold prev. set_solver. }
    { apply (not_listed base l1 (sp + s) false). apply Forall_app. split; [done|].
      repeat constructor; simpl; try done; try lia. by apply Z.divide_add_r. }
    { eapply enough_fuel_eq; [|exact Hfuel]. rewrite !total_app, total_lead. simpl. lia. }
    rewrite Hadd. cbn [mbind option_bind]. exists m2, fl2. split; [done|]. split.
    + eapply rep_perm; [|exact Hrep2]. rewrite lead_pos by done. cbn [app]. rewrite free_addrs_mid. simpl.
      fold prev. unfold listed. fold prev. by replace (prev + (sp - t) + (s + t)) with (prev + (sp + s)) by lia.
    + intros b Hb. rewrite Hfor2, Hfor1; [done..|].
      apply (foreign_mid nl base l1 [(sp, false); (s, true)] (lead (sp - t) ++ [(s + t, true)]) (c :: l2)) in Hb.
      * by rewrite <- app_assoc in Hb.
      * rewrite total_app, total_lead. simpl. lia.
      * simpl. intros [[? _] | [[_ ?] | []]]; [done|]. rewrite payload_app, total_lead. right. left.
        simpl. split; [done|lia].
  - assert (t = sp) as -> by (destruct Hdiv as [i ->], Hds as [j ->]; lia).
    replace (old - sp) with prev by lia. rewrite Hs.
    rewrite (load_store_ne _ prev), Hp, Z.add_0_r, lor_alloc_bit by lia.
    rewrite (load_store_ne _ (prev + 4)), load_store_eq, u32_small by lia.
    rewrite (set_preceding_eq _ _ _ s c.2) by (lia || (mem_simpl; done)).
    match goal with |- context [Some (?mm, _)] => set (m1 := mm) end.
    destruct (rep_grow_prev m m1 nl base l1 sp s c l2 fl (sp - sp)) as [Hrep1 Hfor1]; fold prev.
    1-3: done || lia || by (rewrite Z.sub_diag; apply Z.divide_0_r).
    1-5: rewrite ?Z.sub_diag, ?Z.add_0_r, ?Z.sub_0_r; subst m1; fold old; intros; mem_simpl; done || lia.
    rewrite Hr in Hrep1. exists m1, fl. split; [done|]. split; [|done].
    eapply rep_perm; [|exact Hrep1]. rewrite Z.sub_diag. cbn [lead Z.eqb app]. rewrite free_addrs_app. simpl.
    by replace (sp + s) with (s + sp) by lia.
Qed.

Lemma realloc_prev_spec m nl base l1 sp s c l2 fuel fl t :
  let prev := base + total l1 in
  let old := prev + sp in
  let new := old - t in
  let cs := l1 ++ (sp, false) :: (s, true) :: c :: l2 in
  let cs' := l1 ++ lead (sp - t) ++ (s + t, true) :: c :: l2 in
  heap_rep m nl base cs (free_addrs base cs) fl -> 0 < t <= sp -> (16 | t) -> enough_fuel fuel cs ->
  exists m' fl', realloc_prev fuel nl m prev (old + s) old s sp t = Some (m', new, s + t) /\
    heap_rep m' nl base cs' (free_addrs base cs') fl' /\
    (forall i, 0 <= i -> 4 * i < s - 16 -> m'.[new + 16 + 4 * i] = m.[old + 16 + 4 * i]) /\
    (forall b, foreign nl base (l1 ++ (sp, false) :: (s, false) :: c :: l2) b -> m'.[b] = m.[b]).
Proof.
  intros prev old new cs cs' Hrep Ht Hdiv Hfuel. subst cs cs'.
  destruct (rep_unlink Hrep prev (listed base l1 (sp + s) (c :: l2)))
    as (m1 & f1 & Hun & Hrep1 & Hfor1 & _).
  { rewrite free_addrs_mid. simpl. unfold listed. fold prev.
    by replace (prev + (sp + s)) with (prev + sp + s) by lia. }
  destruct (realloc_prev_headers_spec m1 nl base l1 sp s c l2 fuel f1 t Hrep1 Ht Hdiv Hfuel)
    as (m2 & fl2 & Hhd & Hrep2 & Hfor2). fold prev old in Hhd.
  assert (Hnew : m2.[f_size new] = s + t).
  { replace (f_size new) with (f_size (base + total (l1 ++ lead (sp - t))))
      by (f_equal; subst new old prev; rewrite total_app, total_lead; lia).
    pose proof (hr_hdrs _ _ _ _ _ _ Hrep2) as Hh. rewrite app_assoc in Hh.
    by apply hdrs_at in Hh as [? _]. }
  unfold realloc_prev. destruct (Z.eqb_spec t 0); [lia|]. rewrite Hun. cbn [mbind option_bind].
  rewrite Hhd. cbn [mbind option_bind]. unfold SIZEOF_MM_ALLOCNODE. fold new. rewrite Hnew.
  pose proof (rep_split_facts _ _ _ _ _ _ _ _ Hrep) as (_ & _ & _ & _ & _ & _ & _ & _ & [[? _] _]%Forall_cons).
  cbn [fst] in *.
  destruct (rep_move m2 nl base l1 (sp - t) (s + t) c l2 _ fl2 old (s - 16) Hrep2) as (Hrep3 & Hin & Hfor3).
  { fold prev. lia. }
  { lia. }
  fold prev in Hrep3, Hin, Hfor3. replace (prev + (sp - t)) with new in * by lia.
  eexists _, fl2. split; [done|]. split; [done|]. split.
  - intros i Hi Hi2. rewrite Hin by done.
    assert (Hb : foreign nl base (l1 ++ (sp, false) :: (s, true) :: c :: l2) (old + 16 + 4 * i)).
    { left. rewrite payload_app. right. right. left. simpl. fold prev old. split; [done|lia]. }
    rewrite Hfor2, Hfor1 by done. done.
  - intros b Hb. rewrite Hfor3, Hfor2, Hfor1; try done.
    1, 2: by apply (foreign_free nl base l1 [(sp, false); (s, false)] [(sp, false); (s, true)] (c :: l2));
          [repeat constructor| |].
    apply (foreign_free nl base l1 [(sp, false); (s, false)] (lead (sp - t) ++ [(s + t, false)]) (c :: l2)) in Hb.
    + by rewrite <- app_assoc in Hb.
    + by repeat constructor.
    + rewrite total_app, total_lead. simpl. lia.
Qed.

(** ** Extension in place *)

Lemma realloc_take_spec p n d :
  0 <= p -> 0 <= n -> 0 < d <= p + n -> (16 | p) -> (16 | n) -> (16 | d) ->
  exists tp tn, realloc_take p n d = (tp, tn) /\ 0 <= tp <= p /\ 0 <= tn <= n /\ tp + tn = d /\
    (16 | tp) /\ (16 | tn).
Proof.
  intros Hp Hn Hd Dp Dn Dd. unfold realloc_take.
  pose proof (Z.divide_sub_r _ _ _ Dd Dp). pose proof (Z.divide_sub_r _ _ _ Dd Dn).
  assert (D0 : (16 | 0)) by apply Z.divide_0_r.
  destruct (Z.ltb_spec 0 p), (Z.leb_spec p n), (Z.ltb_spec n 1); cbn [andb orb];
    destruct (Z.ltb_spec p d), (Z.ltb_spec 0 n), (Z.eqb_spec d 0), (Z.ltb_spec n d); cbn [andb negb Z.eqb];
    try lia; eexists _, _; split_and!; done || lia.
Qed.

Lemma lead_ok p : 0 <= p -> (16 | p) -> Forall chunk_ok (lead p).
Proof.
  intros Hp Hd. unfold lead. destruct (Z.eqb_spec p 0); repeat constructor; simpl; [|done].
  destruct (div16_lead p Hd Hp); lia.
Qed.

Lemma realloc_inplace m nl base k1 p s n c l2 fuel fl tp tn prev :
  let old := base + total k1 + p in
  let cs := k1 ++ lead p ++ (s, true) :: lead n ++ c :: l2 in
  let cs' := k1 ++ lead (p - tp) ++ (s + tp + tn, true) :: lead (n - tn) ++ c :: l2 in
  heap_rep m nl base cs (free_addrs base cs) fl -> (0 < p -> prev = base + total k1) ->
  0 <= tp <= p -> 0 <= tn <= n -> (16 | tp) -> (16 | tn) -> enough_fuel fuel cs ->
  exists m1 m2 fl2,
    realloc_prev fuel nl m prev (old + s) old s p tp = Some (m1, old - tp, s + tp) /\
    realloc_next fuel nl m1 (old + s) (old - tp) (s + tp) n tn = Some m2 /\
    heap_rep m2 nl base cs' (free_addrs base cs') fl2 /\
    (forall i, 0 <= i -> 4 * i < s - 16 -> m2.[old - tp + 16 + 4 * i] = m.[old + 16 + 4 * i]) /\
    (forall b, foreign nl base (k1 ++ lead p ++ (s, false) :: lead n ++ c :: l2) b -> m2.[b] = m.[b]).
Proof.
  intros old cs cs' Hrep Hprev Htp Htn Dp Dn Hfuel. subst cs cs'.
  assert (Hstep1 : exists m1 fl1,
    realloc_prev fuel nl m prev (old + s) old s p tp = Some (m1, old - tp, s + tp) /\
    (let cs1 := k1 ++ lead (p - tp) ++ (s + tp, true) :: lead n ++ c :: l2 in
     heap_rep m1 nl base cs1 (free_addrs base cs1) fl1) /\
    (forall i, 0 <= i -> 4 * i < s - 16 -> m1.[old - tp + 16 + 4 * i] = m.[old + 16 + 4 * i]) /\
    (forall b, foreign nl base (k1 ++ lead p ++ (s, false) :: lead n ++ c :: l2) b -> m1.[b] = m.[b])).
  { destruct (decide (tp = 0)) as [-> | Hne].
    - exists m, fl. rewrite !Z.sub_0_r, !Z.add_0_r. split_and!; done.
    - assert (Hlead : lead p = [(p, false)]) by (unfold lead; destruct (Z.eqb_spec p 0); [lia|done]).
      rewrite Hlead in *. rewrite Hprev by lia. cbn [app] in *.
      destruct (lead n ++ c :: l2) as [|c' l2'] eqn:E; [by destruct (lead n)|].
      destruct (realloc_prev_spec m nl base k1 p s c' l2' fuel fl tp) as (m1 & fl1 & ? & ? & ? & ?);
        [done|lia|done..|].
      exists m1, fl1. split_and!; done. }
  destruct Hstep1 as (m1 & fl1 & Hp1 & Hrep1 & Hin & Hfor1). exists m1. cbn zeta in Hrep1.
  destruct (decide (tn = 0)) as [-> | Hne].
  - exists m1, fl1. rewrite !Z.sub_0_r, !Z.add_0_r. split_and!; done.
  - assert (Hlead : lead n = [(n, false)]) by (unfold lead; destruct (Z.eqb_spec n 0); [lia|done]).
    rewrite Hlead in *. cbn [app] in *. rewrite app_assoc in Hrep1.
    assert (Hnode : base + total (k1 ++ lead (p - tp)) = old - tp).
    { rewrite total_app, total_lead. subst old. lia. }
    destruct (realloc_next_spec m1 nl base (k1 ++ lead (p - tp)) (s + tp) n c l2 fuel fl1 tn Hrep1)
      as (m2 & fl2 & Hn & Hrep2 & Hfor2); [lia|done| |].
    { eapply enough_fuel_eq; [|exact Hfuel]. rewrite !total_app, !total_lead. simpl. lia. }
    rewrite Hnode in Hn. replace (old - tp + (s + tp)) with (old + s) in Hn by lia.
    exists m2, fl2. split; [done|]. split; [done|]. rewrite <- app_assoc in Hrep2. split; [exact Hrep2|]. split.
    + intros i Hi Hi2. rewrite Hfor2, Hin; try done. left. rewrite payload_app. right. left.
      simpl. rewrite Hnode. split; [done|lia].
    + intros b Hb. rewrite Hfor2, Hfor1; try done.
      rewrite <- app_assoc.
      pose proof (foreign_free nl base k1 (lead p ++ [(s, false)]) (lead (p - tp) ++ [(s + tp, true)])
                    ((n, false) :: c :: l2) b) as Hff.
      rewrite <- !app_assoc in Hff. cbn [app] in Hff. apply Hff; [|rewrite !total_app, !total_lead; simpl; lia|].
      * apply Forall_app. split; [apply lead_free|by repeat constructor].
      * exact Hb.
Qed.

(** ** mm_realloc *)

(** The chunks around an allocated one: an optional free chunk and an
    allocated one on each side. *)
Lemma neighbours l1 s l2 :
  coalesced (l1 ++ (s, true) :: l2) = true -> guarded (l1 ++ (s, true) :: l2) ->
  Forall chunk_ok (l1 ++ (s, true) :: l2) -> l1 <> [] -> l2 <> [] ->
  exists k s1 p n s2 k2, l1 = (k ++ [(s1, true)]) ++ lead p /\ l2 = lead n ++ (s2, true) :: k2 /\
    0 <= p /\ 0 <= n /\ (16 | p) /\ (16 | n).
Proof.
  intros Hco (Hh & Hl & _) [Hok1 [_ Hok2]%Forall_cons]%Forall_app Hl1 Hl2.
  assert (Hco1 : coalesced l1 = true /\ coalesced l2 = true).
  { change ((s, true) :: l2) with ([(s, true)] ++ l2) in Hco. rewrite !coalesced_concat in Hco.
    destruct (coalesced l1), (coalesced l2); done. }
  destruct Hco1 as [Hco1 Hco2].
  assert (Hleft : exists k s1 p, l1 = (k ++ [(s1, true)]) ++ lead p /\ 0 <= p /\ (16 | p)).
  { destruct l1 as [|[q [|]] l1 _] using rev_ind; [done|..].
    - exists l1, q, 0. split; [by rewrite app_nil_r|]. split; [lia|apply Z.divide_0_r].
    - apply Forall_app in Hok1 as [_ [[Hq Hd] _]%Forall_cons]. simpl in Hq, Hd.
      destruct l1 as [|[q1 [|]] l1 _] using rev_ind; [by simplify_eq/=|..].
      + exists l1, q1, q. rewrite lead_pos by done. split_and!; [done|lia|done].
      + rewrite coalesced_concat, ends_free_app in Hco1. simpl in Hco1. by rewrite andb_false_r in Hco1. }
  assert (Hright : exists n s2 k2, l2 = lead n ++ (s2, true) :: k2 /\ 0 <= n /\ (16 | n)).
  { destruct l2 as [|[q [|]] l2]; [done|..].
    - exists 0, q, l2. split; [done|]. split; [lia|apply Z.divide_0_r].
    - apply Forall_cons in Hok2 as [[Hq Hd] _]. simpl in Hq, Hd.
      destruct l2 as [|[q1 [|]] l2].
      + rewrite last_app, last_cons in Hl. simpl in Hl. by simplify_eq.
      + exists q, q1, l2. rewrite lead_pos by done. split_and!; [done|lia|done].
      + simpl in Hco2. done. }
  destruct Hleft as (k & s1 & p & ? & ? & ?), Hright as (n & s2 & k2 & ? & ? & ?).
  by exists k, s1, p, n, s2, k2.
Qed.

Lemma shrunk_shape l1 s size l2 :
  exists r k, shrunk l1 s size l2 = l1 ++ (size, true) :: (r, false) :: k /\
    size + r + total k = s + total l2 /\ allocated k = allocated l2 /\
    (forall a r0 s0, block a (l1 ++ (size, true) :: (r, false) :: k) r0 s0 <->
       (r0 = a + total l1 + 16 /\ s0 = size) \/ block a (l1 ++ (s, false) :: l2) r0 s0) /\
    (last l2 = Some (16, true) -> last k = Some (16, true)) /\
    (coalesced (l1 ++ (s, true) :: l2) = true -> coalesced (l1 ++ (size, true) :: (r, false) :: k) = true).
Proof.
  assert (Hblk : forall mid r k, Forall (fun c => c.2 = false) mid -> size + r = total mid ->
            forall a r0 s0, block a (l1 ++ (size, true) :: (r, false) :: k) r0 s0 <->
              (r0 = a + total l1 + 16 /\ s0 = size) \/ block a (l1 ++ mid ++ k) r0 s0).
  { intros mid r k Hf Ht a r0 s0.
    pose proof (block_alloc a l1 mid [] size [(r, false)] k r0 s0 Hf) as Hba. simpl in Hba.
    rewrite !Z.add_0_r in Hba. apply Hba; [by repeat constructor..|lia]. }
  assert (Hco : forall r k, starts_free k = false -> coalesced k = true -> coalesced l1 = true ->
            coalesced (l1 ++ (size, true) :: (r, false) :: k) = true).
  { intros r k Hs Hk H1. change ((size, true) :: (r, false) :: k) with ([(size, true); (r, false)] ++ k).
    rewrite !coalesced_concat. cbn. rewrite Hs, Hk, H1. by destruct (ends_free l1). }
  unfold shrunk. destruct l2 as [|[s2 [|]] l2]; cbn [merge_next].
  - exists (s - size), []. split_and!; try done; [simpl; lia|by apply (Hblk [(s, false)]); [repeat constructor|simpl; lia]|].
    rewrite coalesced_concat. intros [[? _]%andb_true_iff _]%andb_true_iff. by apply Hco.
  - exists (s - size), ((s2, true) :: l2). split_and!; try done; [simpl; lia|by apply (Hblk [(s, false)]); [repeat constructor|simpl; lia]|].
    rewrite coalesced_concat. intros [[? ?]%andb_true_iff _]%andb_true_iff. by apply Hco.
  - exists (s - size + s2), l2. split_and!; try done; [simpl; lia|..].
    + apply (Hblk [(s, false); (s2, false)]); [by repeat constructor|simpl; lia].
    + destruct l2; [done|]. by rewrite last_cons_cons.
    + rewrite coalesced_concat. intros [[? Hc]%andb_true_iff _]%andb_true_iff.
      destruct l2 as [|[s3 [|]] l2]; simpl in Hc; by apply Hco.
Qed.

(** What [mm_realloc] of the block of size [s] between [l1] and [l2] promises
    when it returns the block [r]. *)
Definition realloc_ok (h h' : mm_heap_s) (l1 : list chunk) (s : Z) (l2 : list chunk) (size r : Z) : Prop :=
  let base := mm_heapstart h in
  let old := base + total l1 + 16 in
  exists cs' s', heap_wf h' cs' /\ request size <= s' /\ total cs' = total (l1 ++ (s, true) :: l2) /\
    (forall r0 s0, block base cs' r0 s0 <-> (r0 = r /\ s0 = s') \/ block base (l1 ++ (s, false) :: l2) r0 s0) /\
    (forall s0, ~ block base (l1 ++ (s, false) :: l2) r s0) /\
    (accounted h (l1 ++ (s, true) :: l2) -> accounted h' cs') /\
    (forall i, 0 <= i -> 4 * i < Z.min s s' - 16 -> (mm_mem h').[r + 4 * i] = (mm_mem h).[old + 4 * i]).

(** The size of the chunk at a node if it is free, 0 if it is not. *)
Lemma free_size_at m nl base k p c k2 L fl :
  heap_rep m nl base (k ++ lead p ++ c :: k2) L fl -> c.2 = true ->
  let a := base + total k in
  (if is_free m a then m.[f_size a] else 0) = p.
Proof.
  intros Hrep Hc a. unfold lead in Hrep. destruct (Z.eqb_spec p 0) as [-> | Hne]; cbn [app] in Hrep.
  - subst a. rewrite (rep_is_free _ _ _ _ _ _ _ _ Hrep), Hc. done.
  - subst a. rewrite (rep_is_free _ _ _ _ _ _ _ _ Hrep). cbn [negb snd].
    by apply hr_hdrs, hdrs_at in Hrep as [? _].
Qed.

Lemma coalesced_regrow k p p' s s' n n' s2 k2 :
  coalesced (k ++ lead p ++ (s, true) :: lead n ++ (s2, true) :: k2) = true ->
  (p = 0 -> p' = 0) ->
  coalesced (k ++ lead p' ++ (s', true) :: lead n' ++ (s2, true) :: k2) = true.
Proof.
  assert (Hsplit : forall a b c, k ++ lead a ++ (b, true) :: lead c ++ (s2, true) :: k2
            = k ++ (lead a ++ [(b, true)] ++ lead c) ++ (s2, true) :: k2) by (intros; by rewrite <- !app_assoc).
  rewrite !Hsplit, !coalesced_concat. intros Hco Hp. revert Hco. unfold lead.
  destruct (Z.eqb_spec p 0), (Z.eqb_spec p' 0), (Z.eqb_spec n 0), (Z.eqb_spec n' 0); try lia; cbn;
    destruct (coalesced k), (coalesced ((s2, true) :: k2)), (ends_free k); cbn; try done;
    by destruct (match k2 with [] => _ | _ => _ end).
Qed.

Section realloc.
Context (e : env) (h : mm_heap_s) (l1 : list chunk) (s : Z) (l2 : list chunk) (size ra : Z).
Let base := mm_heapstart h.
Let cs := l1 ++ (s, true) :: l2.
Let old := base + total l1 + 16.
Hypothesis Hwf : heap_wf h cs.
Hypothesis Hl1 : l1 <> [].
Hypothesis Hl2 : l2 <> [].
Hypothesis Hul : unlocked h.
Hypothesis Hpid : 0 <= getpid e.
Hypothesis Hsize : 1 <= size <= 4294967200.

Lemma realloc_old : 0 < base /\ 0 <= total l1 /\ 16 <= s /\ (16 | s) /\ total l1 + s + total l2 < 2147483648 /\
  (mm_mem h).[f_size (base + total l1)] = s.
Proof.
  destruct Hwf as [(_ & _ & fl & Hrep) _]. fold base in Hrep.
  pose proof (rep_split_facts _ _ _ _ _ _ _ _ Hrep) as (? & ? & [? ?] & ? & ? & ? & _).
  pose proof (hdrs_at _ _ _ _ _ _ (hr_hdrs _ _ _ _ _ _ Hrep)) as [? _]. by split_and!.
Qed.

Lemma old_not_block : forall s0, ~ block base (l1 ++ (s, false) :: l2) old s0.
Proof.
  destruct Hwf as [(_ & _ & fl & Hrep) _]. intros s0 [_ Hne]%block_remove; [done|apply Hrep].
Qed.

Lemma last_l2 : last l2 = Some (16, true).
Proof.
  destruct Hwf as [(_ & (_ & Hg & _) & _) _]. unfold cs in Hg. destruct l2 as [|c l2']; [done|].
  rewrite last_app, last_cons, last_cons in Hg. rewrite last_cons. by destruct (last l2').
Qed.

(** A request that the old chunk satisfies. *)
Lemma mm_realloc_shrink :
  request size <= s ->
  exists h', mm_realloc e h old size ra = Some (old, h') /\ unlocked h' /\ same_frame h h' /\
    keeps (l1 ++ (s, false) :: l2) h h' /\ realloc_ok h h' l1 s l2 size old.
Proof.
  intros Hle. destruct realloc_old as (? & ? & ? & Hds & ? & Hsz).
  destruct (request_bounds size ltac:(lia)) as (? & ? & Hdr). pose proof last_l2 as Hlast. pose proof old_not_block as Hnb.
  unfold mm_realloc. destruct (Z.eqb_spec old 0); [subst old; lia|]. destruct (Z.ltb_spec size 1); [lia|].
  rewrite request_eq, take_unlocked by (lia || exact Hul). cbn [mbind option_bind]. unfold SIZEOF_MM_ALLOCNODE.
  replace (old - 16) with (base + total l1) by (subst old; lia).
  change (mm_mem (with_sem h 0 (getpid e) 1)) with (mm_mem h). rewrite Hsz.
  destruct (Z.leb_spec (request size) s); [|lia].
  destruct (Z.ltb_spec (request size) s) as [Hlt | Hge].
  - destruct Hwf as [(Hco & Hg & fl & Hrep) Hend]. fold base in Hrep.
    pose proof (wf_fuel _ _ Hwf) as Hfuel. destruct l2 as [|c l2'] eqn:El2; [done|].
    destruct (mm_shrinkchunk_spec (mm_mem h) (mm_nodelist h) base l1 s c l2' (request size) (list_fuel h) fl)
      as (m' & fl' & Hshr & Hrep' & Hfor); [done|done|lia|done|done|].
    destruct (shrunk_shape l1 s (request size) (c :: l2')) as (r & k & Hshape & Ht & Ha & Hblk & Hk & Hc).
    rewrite Hshape in Hrep'.
    destruct (recharge e h l1 s (c :: l2') m' l1 (request size) ((r, false) :: k) fl' ra)
      as (h4 & Hgive & Hul4 & Hfr & Hwf4 & Hacc & Hmem); try done.
    { by apply Hc. }
    { apply (guarded_tail l1 ((s, true) :: c :: l2')); [done..|]. rewrite last_cons_cons, last_cons, Hk; done. }
    { rewrite !total_app. simpl in *. lia. }
    { rewrite !allocated_app. simpl in *. lia. }
    fold base in Hgive.
    destruct (heapinfo_discharge_spec (with_sem h 0 (getpid e) 1) (base + total l1) s)
      as ((Hf1 & Hf2 & Hf3 & _) & Hm & _).
    set (h2 := heapinfo_discharge (with_sem h 0 (getpid e) 1) (base + total l1) s) in *. clearbody h2.
    replace (list_fuel h2) with (list_fuel h) by (unfold list_fuel; by rewrite Hf2, Hf3).
    rewrite Hf1, Hm. cbn [mm_nodelist mm_mem with_sem]. rewrite Hshr. cbn [mbind option_bind].
    rewrite Hgive. exists h4. split_and!; try done.
    + intros b Hb. rewrite Hmem, Hfor; [done|..].
      * by apply (foreign_free _ _ l1 [(s, false)] [(request size, true); (s - request size, false)] (c :: l2'));
          [repeat constructor|simpl; lia|].
      * rewrite <- Hshape. pose proof (foreign_shrunk_lead (mm_nodelist h) base l1 s 0 (request size) (c :: l2') b Hb) as Hx.
        unfold lead in Hx. simpl Z.eqb in Hx. by rewrite app_nil_r, Z.sub_0_r in Hx.
    + exists (l1 ++ (request size, true) :: (r, false) :: k), (request size). fold base old.
      split_and!; try done; [rewrite !total_app; simpl in *; lia|].
      intros i Hi Hi2. rewrite Hmem, Hfor; [done|..]; left; rewrite payload_app; right; left;
        (split; [done|]); subst old; simpl; lia.
  - cbn [mbind option_bind]. rewrite give_held by done. cbn [mbind option_bind].
    exists (with_sem (with_sem h 0 (getpid e) 1) 1 (-1) 0). destruct Hul as (? & ? & ?).
    split_and!; try done. exists cs, s. split_and!; try done; try lia.
    intros r0 s0. fold base. pose proof (block_alloc base l1 [(s, false)] [] s [] l2 r0 s0) as Hb. simpl in Hb.
    rewrite !Z.add_0_r in Hb. apply Hb; [by repeat constructor..|lia].
Qed.

Section grow.
Context (k : list chunk) (s1 p n s2 : Z) (k2 : list chunk).
Hypothesis El1 : l1 = (k ++ [(s1, true)]) ++ lead p.
Hypothesis El2 : l2 = lead n ++ (s2, true) :: k2.
Hypothesis Hp : 0 <= p.
Hypothesis Hn : 0 <= n.
Hypothesis Dp : (16 | p).
Hypothesis Dn : (16 | n).

Lemma grow_layout : cs = (k ++ [(s1, true)]) ++ lead p ++ (s, true) :: lead n ++ (s2, true) :: k2.
Proof. unfold cs. rewrite El1, El2. by rewrite <- !app_assoc. Qed.

Lemma grow_bounds :
  total l2 = n + (s2 + total k2) /\ total l1 = total k + s1 + p /\
  0 <= total k /\ 16 <= s1 /\ 16 <= s2 /\ 0 <= total k2.
Proof.
  destruct Hwf as [(_ & _ & fl & Hrep) _]. pose proof (hr_sizes _ _ _ _ _ _ Hrep) as Hok.
  rewrite grow_layout in Hok. rewrite !Forall_app, !Forall_cons, !Forall_app, !Forall_cons in Hok.
  destruct Hok as [[Hk [[? _] _]] [_ [_ [_ [[? _] Hk2]]]]].
  split; [rewrite El2, total_app, total_lead; done|].
  split; [rewrite El1, !total_app, total_lead; simpl; lia|].
  split_and!; try done; by apply total_nonneg.
Qed.

(** What the code reads of the neighbours. *)
Lemma grow_reads :
  let m := mm_mem h in
  let next := base + total l1 + s in
  let prev := base + total l1 - Z.land m.[f_preceding (base + total l1)] (u32 (Z.lnot MM_ALLOC_BIT)) in
  (if is_free m next then m.[f_size next] else 0) = n /\
  (if is_free m prev then m.[f_size prev] else 0) = p /\
  (0 < p -> prev = base + total (k ++ [(s1, true)])).
Proof.
  intros m next prev. destruct Hwf as [(_ & _ & fl & Hrep) _]. fold base in Hrep.
  destruct grow_bounds as (Ht2 & Ht1 & ? & ? & ? & ?).
  pose proof (rep_split_facts _ _ _ _ _ _ _ _ Hrep) as (_ & _ & _ & _ & _ & _ & Hlast & _).
  assert (Hpv : prev = base + total l1 - lastsz 0 l1).
  { unfold prev, m. pose proof (hdrs_at _ _ _ _ _ _ (hr_hdrs _ _ _ _ _ _ Hrep)) as [_ ->].
    by rewrite land_alloc_bit. }
  clearbody prev. split.
  - subst m next. replace (base + total l1 + s) with (base + total (l1 ++ [(s, true)])) by (rewrite total_app; simpl; lia).
    eapply free_size_at; [|instantiate (1 := (s2, true)); done]. rewrite <- app_assoc. unfold cs in Hrep.
    rewrite El2 in Hrep. exact Hrep.
  - rewrite grow_layout in Hrep. destruct (div16_lead p Dp Hp) as [Hp0 | Hp0].
    + split; [|lia]. replace prev with (base + total k).
      * rewrite Hp0 in *. eapply (free_size_at _ _ _ k 0 (s1, true)); [|done].
        rewrite <- app_assoc in Hrep. exact Hrep.
      * rewrite Hpv, Ht1, El1, Hp0. unfold lead. simpl Z.eqb. rewrite app_nil_r, lastsz_app. simpl. lia.
    + assert (Hpv' : prev = base + total (k ++ [(s1, true)])).
      { rewrite Hpv, Ht1, El1, lead_pos, lastsz_app, total_app by done. simpl. lia. }
      split; [|done]. rewrite Hpv'. by eapply (free_size_at _ _ _ _ p (s, true)).
Qed.

(** A request that the old chunk and its free neighbours satisfy. *)
Lemma mm_realloc_grow :
  s < request size <= s + p + n ->
  exists r h', mm_realloc e h old size ra = Some (r, h') /\ unlocked h' /\ same_frame h h' /\
    keeps (l1 ++ (s, false) :: l2) h h' /\ realloc_ok h h' l1 s l2 size r.
Proof.
  intros Hreq. destruct realloc_old as (? & ? & ? & Hds & ? & Hsz).
  destruct (request_bounds size ltac:(lia)) as (? & ? & Hdr). destruct grow_bounds as (Ht2 & Ht1 & ? & ? & ? & ?).
  destruct Hwf as [(Hco & Hg & fl & Hrep) Hend]. fold base in Hrep. pose proof (wf_fuel _ _ Hwf) as Hfuel.
  destruct grow_reads as (Hnext & Hprev & Hpv).
  unfold mm_realloc. destruct (Z.eqb_spec old 0); [subst old; lia|]. destruct (Z.ltb_spec size 1); [lia|].
  rewrite request_eq, take_unlocked by (lia || exact Hul). cbn [mbind option_bind]. unfold SIZEOF_MM_ALLOCNODE.
  replace (old - 16) with (base + total l1) by (subst old; lia).
  change (mm_mem (with_sem h 0 (getpid e) 1)) with (mm_mem h). rewrite Hsz.
  destruct (Z.leb_spec (request size) s); [lia|]. rewrite Hnext, Hprev.
  set (prev := base + total l1 - Z.land _ _) in *. rewrite u32_small by lia.
  destruct (Z.leb_spec (request size) (n + p + s)); [|lia].
  destruct (realloc_take_spec p n (request size - s)) as (tp & tn & -> & Htp & Htn & Hsum & Dtp & Dtn);
    [lia..|done|done|by apply Z.divide_sub_r|].
  pose proof grow_layout as Hgl. set (k1 := k ++ [(s1, true)]) in *.
  assert (Htk1 : total k1 = total k + s1) by (subst k1; rewrite total_app; simpl; lia).
  destruct (realloc_inplace (mm_mem h) (mm_nodelist h) base k1 p s n (s2, true) k2
              (list_fuel h) fl tp tn prev) as (m1 & m2 & fl2 & Hrp & Hrn & Hrep2 & Hin & Hfor);
    [by rewrite <- Hgl|done|done|done|done|done|by rewrite <- Hgl|].
  replace (base + total k1 + p) with (base + total l1) in * by lia.
  set (l1' := k1 ++ lead (p - tp)). set (l2' := lead (n - tn) ++ (s2, true) :: k2). set (q := s + tp + tn) in *.
  assert (Hl1' : total l1' = total l1 - tp) by (subst l1'; rewrite total_app, total_lead; lia).
  assert (Hl2' : total l2' = total l2 - tn) by (subst l2'; rewrite total_app, total_lead; simpl; lia).
  rewrite app_assoc in Hrep2. fold l1' l2' in Hrep2.
  destruct (recharge e h l1 s l2 m2 l1' q l2' fl2 ra)
    as (h4 & Hgive & Hul4 & Hfr & Hwf4 & Hacc & Hmem); try done.
  { subst l1' l2'. rewrite <- app_assoc. apply (coalesced_regrow _ p _ s _ n); [|lia].
    by rewrite <- Hgl. }
  { subst l1'. rewrite <- app_assoc. apply (guarded_tail k1 (lead p ++ (s, true) :: l2)).
    - subst k1. by destruct k.
    - by rewrite El2, <- Hgl.
    - pose proof last_l2 as Hlast. rewrite El2, last_app, last_cons in Hlast.
      subst l2'. rewrite last_app, last_cons, last_app, last_cons. by destruct (last k2). }
  { rewrite !total_app. simpl. lia. }
  { rewrite !allocated_app. subst l1' l2'. rewrite El1, El2, !allocated_app, !allocated_lead. simpl.
    rewrite !allocated_app, !allocated_lead. simpl. lia. }
  fold base in Hgive. rewrite Hl1' in Hgive.
  destruct (heapinfo_discharge_spec (with_sem h 0 (getpid e) 1) (base + total l1) s)
    as ((Hf1 & Hf2 & Hf3 & _) & Hm & _).
  set (h2 := heapinfo_discharge (with_sem h 0 (getpid e) 1) (base + total l1) s) in *. clearbody h2.
  replace (list_fuel h2) with (list_fuel h) by (unfold list_fuel; by rewrite Hf2, Hf3).
  rewrite Hf1, Hm. cbn [mm_nodelist mm_mem with_sem]. rewrite Hrp. cbn [mbind option_bind].
  rewrite Hrn. cbn [mbind option_bind].
  replace (base + (total l1 - tp)) with (base + total l1 - tp) in Hgive by lia.
  rewrite Hgive. cbn [mbind option_bind].
  assert (Hmid : Forall (fun c : chunk => c.2 = false) (lead p ++ (s, false) :: lead n)).
  { apply Forall_app. split; [apply lead_free|]. constructor; [done|apply lead_free]. }
  assert (Hold : l1 ++ (s, false) :: l2 = k1 ++ (lead p ++ (s, false) :: lead n) ++ (s2, true) :: k2).
  { rewrite El1, El2. by rewrite <- !app_assoc. }
  assert (Hnew : l1' ++ (q, true) :: l2' = k1 ++ (lead (p - tp) ++ (q, true) :: lead (n - tn)) ++ (s2, true) :: k2).
  { subst l1' l2'. by rewrite <- !app_assoc. }
  eexists _, h4. split_and!; try done.
  - intros b Hb. rewrite Hold in Hb. rewrite Hmem, Hfor; [done|..].
    + by rewrite <- !app_assoc in Hb.
    + rewrite Hnew. eapply foreign_free; [exact Hmid| |exact Hb].
      rewrite !total_app. simpl. rewrite !total_lead. lia.
  - exists (l1' ++ (q, true) :: l2'), q. fold base. split_and!; try done; [lia|rewrite !total_app; simpl; lia|..].
    + intros r0 s0. rewrite Hold, Hnew. rewrite block_alloc; [|exact Hmid|apply lead_free..|].
      * rewrite total_lead. replace (base + total k1 + (p - tp) + 16) with (base + total l1 - tp + 16) by lia. done.
      * rewrite !total_app. simpl. rewrite !total_lead. lia.
    + intros s0. rewrite Hold. apply block_not_free; [rewrite <- Hold|exact Hmid|].
      * pose proof (hr_sizes _ _ _ _ _ _ Hrep) as Hok. unfold cs in Hok.
        rewrite Forall_app, Forall_cons in *. destruct Hok as (? & ? & ?). by split_and!.
      * rewrite !total_app. simpl. rewrite !total_lead. lia.
    + intros i Hi Hi2. fold old. rewrite Hmem.
      * by rewrite Hin by lia.
      * left. rewrite payload_app. right. left. simpl. split; [done|]. lia.
Qed.

End grow.

(** The two halves of the fallback: what [mm_malloc] leaves and what the copy
    and [mm_free] make of it. *)
Lemma realloc_copy h1 cs1 r q :
  heap_wf h1 cs1 -> unlocked h1 -> mm_nodelist h1 = mm_nodelist h -> mm_heapstart h1 = base ->
  total cs1 = total cs -> block base cs1 r q -> s <= q - 16 -> r <> old ->
  (forall r0 s0, block base cs1 r0 s0 <-> (r0 = r /\ s0 = q) \/ block base cs r0 s0) ->
  exists h', mm_free e (with_mem h1 (memcpy_words (mm_mem h1) r old (Z.to_nat (s / 4)))) old = Some h' /\
    unlocked h' /\ same_frame h1 h' /\
    (exists cs', heap_wf h' cs' /\ total cs' = total cs /\
      (forall r0 s0, block base cs' r0 s0 <-> (r0 = r /\ s0 = q) \/ block base (l1 ++ (s, false) :: l2) r0 s0) /\
      (accounted h1 cs1 -> accounted h' cs')) /\
    (forall i, 0 <= i -> 4 * i < s - 16 -> (mm_mem h').[r + 4 * i] = (mm_mem h1).[old + 4 * i]) /\
    (forall b, b < r \/ r + s <= b -> foreign (mm_nodelist h) base (l1 ++ (s, false) :: l2) b ->
       (mm_mem h').[b] = (mm_mem h1).[b]).
Proof.
  intros Hwf1 Hul1 Hnl1 Hb1 Htot Hblk Hq Hr Hiff. destruct realloc_old as (? & ? & ? & [j Hj] & ? & _).
  destruct Hwf as [(_ & _ & fl & Hrep) _]. fold base in Hrep.
  assert (Hold : block base cs1 old s) by (apply Hiff; right; apply block_split; by exists l1, l2).
  pose proof Hold as (l1' & l2' & -> & Ho)%block_split.
  pose proof Hwf1 as [(Hco1 & Hg1 & fl1 & Hrep1) Hend1]. rewrite Hb1, Hnl1 in Hrep1.
  pose proof (hr_sizes _ _ _ _ _ _ Hrep1) as Hok1.
  assert (Hdis : r + q <= old \/ old + s <= r).
  { destruct (block_disjoint _ _ _ _ _ _ Hok1 Hblk Hold) as [[? _] | ?]; [done|lia]. }
  assert (Hnn : l1' <> [] /\ l2' <> []).
  { unfold cs in Htot. rewrite !total_app in Htot. simpl in Htot.
    pose proof (hr_sizes _ _ _ _ _ _ Hrep) as [Hk1 [_ Hk2]%Forall_cons]%Forall_app.
    assert (Hpos : forall l, Forall chunk_ok l -> l <> [] -> 0 < total l).
    { intros [|c l] Hok ?; [done|]. apply Forall_cons in Hok as [[? ?] ?%total_nonneg]. simpl. lia. }
    pose proof (Hpos _ Hk1 Hl1). pose proof (Hpos _ Hk2 Hl2).
    assert (total l1' = total l1) by (subst old; lia).
    split; intros ->; simpl in *; lia. }
  destruct Hnn as [Hn1 Hn2]. set (m1 := memcpy_words (mm_mem h1) r old (Z.to_nat (s / 4))).
  assert (Hs4 : Z.of_nat (Z.to_nat (s / 4)) = 4 * j).
  { rewrite Hj. replace (j * 16) with (4 * j * 4) by lia. rewrite Z.div_mul by lia. lia. }
  assert (Hout : forall b, b < r \/ r + s <= b -> m1.[b] = (mm_mem h1).[b]).
  { intros b Hb. apply memcpy_words_out. lia. }
  destruct (mm_free_spec e (with_mem h1 m1) l1' s l2') as (h' & Hfree & Hul' & Hkeep & Hfr & Hwf' & Hacc'); try done.
  { apply (heap_wf_intro _ m1 _ fl1); try done. simpl. rewrite Hnl1, Hb1. apply (rep_payload (mm_mem h1)); [done|].
    intros b Hb. apply Hout. destruct (decide (r <= b < r + s)); [|lia]. destruct Hb.
    eapply block_payload; [exact Hblk|lia]. }
  simpl in Hfree. rewrite Hb1 in Hfree. rewrite <- Ho in Hfree.
  assert (Hblk' : forall r0 s0, block base (l1' ++ (s, false) :: l2') r0 s0 <->
            (r0 = r /\ s0 = q) \/ block base (l1 ++ (s, false) :: l2) r0 s0).
  { intros r0 s0. rewrite block_remove, Hiff by done. rewrite (block_remove base l1) by apply Hrep. fold cs old.
    rewrite <- Ho. naive_solver. }
  exists h'. split; [done|]. split; [done|]. split; [done|]. split; [|split].
  - exists (freed l1' s l2'). split; [done|]. split; [by rewrite (freed_total _ _ true)|].
    split; [|done]. intros r0 s0. by rewrite <- block_freed, Hblk'.
  - intros i Hi Hi2. rewrite Hkeep.
    + simpl. apply memcpy_words_in; lia.
    + left. simpl. rewrite Hb1. eapply block_payload; [apply Hblk'; by left|]. lia.
  - intros b Hb Hf. rewrite Hkeep; [by apply Hout|]. simpl. rewrite Hnl1, Hb1.
    destruct Hf as [(r0 & s0 & Hr0 & ?)%payload_block | Hf].
    + left. apply payload_block. exists r0, s0. split; [|done]. apply Hblk'. by right.
    + right. unfold cs in Htot. rewrite !total_app in *. simpl in *. by rewrite Htot.
Qed.

(** A request that needs another chunk. *)
Lemma mm_realloc_move k s1 p n s2 k2 :
  l1 = (k ++ [(s1, true)]) ++ lead p -> l2 = lead n ++ (s2, true) :: k2 ->
  0 <= p -> 0 <= n -> (16 | p) -> (16 | n) -> s + p + n < request size ->
  exists r h', mm_realloc e h old size ra = Some (r, h') /\ unlocked h' /\
    mm_nodelist h' = mm_nodelist h /\ mm_heapstart h' = mm_heapstart h /\ mm_heapsize h' = mm_heapsize h /\
    ((r = 0 /\ heap_wf h' cs /\ keeps cs h h' /\ mm_total_alloc_size h' = mm_total_alloc_size h /\
      (forall s0, (s0, false) ∈ cs -> s0 < request (request size))) \/
     (r <> 0 /\ keeps (l1 ++ (s, false) :: l2) h h' /\ realloc_ok h h' l1 s l2 size r)).
Proof.
  intros El1 El2 Hp Hn Dp Dn Hreq. destruct realloc_old as (? & ? & ? & Hds & ? & Hsz).
  destruct (request_bounds size ltac:(lia)) as (? & ? & Hdr).
  destruct (request_bounds (request size) ltac:(lia)) as (? & ? & Hdq).
  destruct (grow_bounds k s1 p n s2 k2) as (Ht2 & Ht1 & ? & ? & ? & ?); [done..|].
  destruct (grow_reads k s1 p n s2 k2) as (Hnext & Hprev & _); [done..|].
  unfold mm_realloc. destruct (Z.eqb_spec old 0); [subst old; lia|]. destruct (Z.ltb_spec size 1); [lia|].
  rewrite request_eq, take_unlocked by (lia || exact Hul). cbn [mbind option_bind]. unfold SIZEOF_MM_ALLOCNODE.
  replace (old - 16) with (base + total l1) by (subst old; lia).
  change (mm_mem (with_sem h 0 (getpid e) 1)) with (mm_mem h). rewrite Hsz.
  destruct (Z.leb_spec (request size) s); [lia|]. rewrite Hnext, Hprev, u32_small by lia.
  destruct (Z.leb_spec (request size) (n + p + s)); [lia|].
  rewrite give_held by done. cbn [mbind option_bind]. set (h0 := with_sem _ 1 (-1) 0).
  destruct (mm_malloc_spec e h0 cs (request size) ra)
    as (r & h1 & -> & Hul1 & Hk1 & Hn1 & Hb1 & Hs1 & Hcase); [exact Hwf|done|done|lia|].
  change (mm_heapstart h0) with base in *. change (mm_nodelist h0) with (mm_nodelist h) in *.
  change (mm_heapsize h0) with (mm_heapsize h) in *. cbn [mbind option_bind].
  destruct Hcase as [(-> & Hwf1 & Hnone & Ht) | (cs1 & (la & sf & lb & Hcs & Hr & Hge & _ & Hcs1) & Hwf1 & Hacc1)].
  { simpl. exists 0, h1. split_and!; try done. left. by split_and!. }
  destruct Hwf as [(_ & _ & fl & Hrep) _]. fold base in Hrep. rewrite Hcs in Hrep.
  pose proof (rep_split_facts _ _ _ _ _ _ _ _ Hrep) as (? & ? & [? Dsf] & ? & ? & ? & _ & Hoka & Hokb). cbn [fst snd] in *.
  destruct (Z.eqb_spec r 0); [lia|]. set (q := request (request size)) in *.
  assert (Hiff : forall r0 s0, block base cs1 r0 s0 <-> (r0 = r /\ s0 = q) \/ block base cs r0 s0).
  { intros r0 s0. rewrite Hcs1, Hcs, Hr. by apply block_carve. }
  assert (Hfar : forall r0 s0, block base cs r0 s0 -> r0 + s0 <= r \/ r + sf <= r0).
  { intros r0 s0. rewrite Hcs, block_app. intros [Hb | [[? _] | Hb]]; [|done|]; apply block_range in Hb; simpl in *; lia || done. }
  assert (Hsep : forall b, foreign (mm_nodelist h) base (l1 ++ (s, false) :: l2) b -> b < r \/ r + s <= b).
  { intros b [(r0 & s0 & Hb & ?)%payload_block | [Hb _]].
    - rewrite (block_remove base l1) in Hb by (fold cs; rewrite Hcs; apply Hrep). destruct Hb as [Hb%Hfar _]. lia.
    - assert (Ht : total (l1 ++ (s, false) :: l2) = total cs) by (unfold cs; by rewrite !total_app).
      rewrite Ht, Hcs, total_app in Hb. simpl in Hb. lia. }
  destruct (realloc_copy h1 cs1 r q) as (h' & Hfree & Hul' & (Hf1 & Hf2 & _ & _ & _ & _ & Hf7) & (cs' & Hwf' & Htot & Hblk & Hacc) & Hin & Hout);
    try done.
  { rewrite Hcs1, Hcs, !total_app, total_carve by done. done. }
  { apply Hiff. by left. }
  { lia. }
  { intros Hro. destruct (Hfar old s); [|lia..]. apply block_split. by exists l1, l2. }
  rewrite Hfree. cbn [mbind option_bind]. exists r, h'. split_and!; try done; [congruence|by rewrite Hf2, Hb1|congruence|]. right. split; [done|]. split.
  - intros b Hb. rewrite Hout; [|eapply Hsep, Hb|done]. rewrite Hk1; [done|].
    apply (foreign_mid _ _ l1 [(s, false)] [(s, true)] l2); [done| |exact Hb]. intros []%payload_free. by repeat constructor.
  - exists cs', q. fold base old. split_and!; try done; [lia| |auto|].
    { intros s0 [Hb _]%block_remove; [|fold cs; rewrite Hcs; apply Hrep].
      pose proof (block_range _ _ _ _ (hr_sizes _ _ _ _ _ _ Hrep) ltac:(rewrite <- Hcs; exact Hb)).
      destruct (Hfar _ _ Hb); lia. }
    intros i Hi Hi2. rewrite Hin by lia. rewrite Hk1; [done|].
    left. apply (block_payload base cs old s); [apply block_split; by exists l1, l2|lia].
Qed.

(** [mm_realloc] of an allocated block. *)
Lemma mm_realloc_spec :
  exists r h', mm_realloc e h old size ra = Some (r, h') /\ unlocked h' /\
    mm_nodelist h' = mm_nodelist h /\ mm_heapstart h' = mm_heapstart h /\ mm_heapsize h' = mm_heapsize h /\
    ((r = 0 /\ heap_wf h' cs /\ keeps cs h h' /\ mm_total_alloc_size h' = mm_total_alloc_size h /\
      (forall s0, (s0, false) ∈ cs -> s0 < request (request size))) \/
     (r <> 0 /\ keeps (l1 ++ (s, false) :: l2) h h' /\ realloc_ok h h' l1 s l2 size r)).
Proof.
  destruct realloc_old as (? & ? & ? & Hds & ? & Hsz).
  assert (Hne : forall r h', mm_realloc e h old size ra = Some (r, h') -> same_frame h h' ->
            realloc_ok h h' l1 s l2 size r -> r <> 0).
  { intros r h' _ (_ & Hf & _) (cs' & s' & [(_ & _ & fl & Hrep) _] & _ & _ & Hblk & _).
    rewrite Hf in Hrep. assert (Hb : block base cs' r s') by (apply Hblk; by left).
    apply block_range in Hb; [|apply Hrep]. lia. }
  pose proof Hwf as [(Hco & Hg & fl & Hrep) _].
  destruct (neighbours l1 s l2) as (k & s1 & p & n & s2 & k2 & El1 & El2 & Hp & Hn & Dp & Dn);
    [done..|apply Hrep|done|done|].
  assert (Hcase : request size <= s \/ s < request size <= s + p + n \/ s + p + n < request size) by lia.
  destruct Hcase as [Hc | [Hc | Hc]].
  - destruct (mm_realloc_shrink Hc) as (h' & Hr & ? & Hfr & ? & Hok). exists old, h'.
    pose proof (Hne _ _ Hr Hfr Hok). destruct Hfr as (? & ? & _ & _ & _ & _ & ?). split_and!; try done. by right.
  - destruct (mm_realloc_grow k s1 p n s2 k2 El1 El2 Hp Hn Dp Dn Hc) as (r & h' & Hr & ? & Hfr & ? & Hok).
    exists r, h'. pose proof (Hne _ _ Hr Hfr Hok). destruct Hfr as (? & ? & _ & _ & _ & _ & ?).
    split_and!; try done. by right.
  - by apply (mm_realloc_move k s1 p n s2 k2).
Qed.
End realloc.

(** ** mm_zalloc and mm_calloc *)

Lemma memzero_out m dst n b :
  0 <= n -> b < dst \/ dst + 4 * ((n + 3) / 4) <= b -> (memzero m dst n).[b] = m.[b].
Proof.
  intros Hn Hb. unfold memzero. pose proof (Z.div_mod n 4). pose proof (Z.mod_pos_bound n 4).
  pose proof (Z.div_mod (n + 3) 4). pose proof (Z.mod_pos_bound (n + 3) 4).
  assert (Hq : 0 <= n / 4) by (apply Z.div_pos; lia).
  destruct (Z.eqb_spec (n mod 4) 0).
  - apply memzero_words_out. lia.
  - rewrite load_store_ne by lia. apply memzero_words_out. lia.
Qed.

Lemma memzero_in m dst n :
  0 <= n ->
  (forall i, 0 <= i -> 4 * i + 4 <= n -> (memzero m dst n).[dst + 4 * i] = 0) /\
  (n mod 4 <> 0 -> (memzero m dst n).[dst + 4 * (n / 4)] mod 2 ^ (8 * (n mod 4)) = 0).
Proof.
  intros Hn. unfold memzero. pose proof (Z.div_mod n 4). pose proof (Z.mod_pos_bound n 4).
  assert (Hq : 0 <= n / 4) by (apply Z.div_pos; lia). split.
  - intros i Hi Hi2. destruct (Z.eqb_spec (n mod 4) 0); [|rewrite load_store_ne by lia];
      apply memzero_words_in; lia.
  - intros Hne. destruct (Z.eqb_spec (n mod 4) 0); [done|]. rewrite load_store_eq.
    set (x := load _ _). set (p := 2 ^ (8 * (n mod 4))).
    assert (0 < p) by (apply Z.pow_pos_nonneg; lia).
    rewrite Zminus_mod_idemp_r, Z.sub_diag. apply Z.mod_0_l. lia.
Qed.

Lemma mm_zalloc_spec e h cs size ra :
  heap_wf h cs -> unlocked h -> 0 <= getpid e -> 1 <= size <= 4294967264 ->
  exists r h', mm_zalloc e h size ra = Some (r, h') /\ unlocked h' /\ keeps cs h h' /\
    ((r = 0 /\ heap_wf h' cs /\ (forall s, (s, false) ∈ cs -> s < request size)) \/
     (exists cs', malloc_result cs (mm_heapstart h) size r cs' /\ heap_wf h' cs' /\
      (forall i, 0 <= i -> 4 * i + 4 <= size -> (mm_mem h').[r + 4 * i] = 0) /\
      (size mod 4 <> 0 -> (mm_mem h').[r + 4 * (size / 4)] mod 2 ^ (8 * (size mod 4)) = 0))).
Proof.
  intros Hwf Hul Hpid Hsize. unfold mm_zalloc.
  destruct (mm_malloc_spec e h cs size ra) as (r & h' & -> & Hul' & Hk & Hn & Hb & Hs & Hcase); [done..|].
  cbn [mbind option_bind].
  destruct Hcase as [(-> & Hwf' & Hnone & _) | (cs' & (l1 & s & l2 & -> & Hr & Hge & Hbest & ->) & Hwf' & _)].
  { exists 0, h'. simpl. split_and!; try done. by left. }
  destruct Hwf as [(_ & _ & fl & Hrep) _]. destruct (request_bounds size Hsize) as (? & ? & [q Hq]).
  pose proof (rep_split_facts _ _ _ _ _ _ _ _ Hrep) as (? & ? & [? Hds] & ? & ? & ? & _ & Hok1 & Hok2). cbn [fst] in *.
  destruct (Z.eqb_spec r 0); [lia|]. eexists _, _. split; [done|]. split; [done|].
  pose proof (Z.div_mod (size + 3) 4). pose proof (Z.mod_pos_bound (size + 3) 4).
  assert (Hout : forall b, b < r \/ r + request size - 16 <= b -> (memzero (mm_mem h') r size).[b] = (mm_mem h').[b]).
  { intros b Hout. apply memzero_out; lia. }
  split.
  { intros b Hf. simpl. rewrite Hout; [by apply Hk|]. destruct Hf as [Hf | [Hf _]].
    - rewrite payload_app in Hf. destruct Hf as [Hf | [[? _] | Hf]]; [|done|]; apply payload_range in Hf; simpl in *; lia || done.
    - rewrite total_app in Hf. simpl in Hf. lia. }
  right. eexists. split; [|split; [|apply memzero_in; lia]].
  - by exists l1, s, l2.
  - destruct Hwf' as [(? & ? & fl' & Hrep') ?]. apply (heap_wf_intro _ (memzero (mm_mem h') r size) _ fl'); try done.
    simpl. apply (rep_payload (mm_mem h')); [done|]. intros b Hnb. apply Hout.
    destruct (decide (r <= b < r + request size - 16)); [|lia]. destruct Hnb.
    rewrite Hb, payload_app. right. left. simpl. split; [done|lia].
Qed.
