(* ===== verification/MmHeapClient.v ===== *)
(** * The kernel heap as its clients see it

    The abstract heap is a finite map from the pointers in use to the sizes of
    their chunks.  [heap_step] says what each operation may do to it; the
    concrete operations of [MmHeap] implement it (forward simulation), for
    every sequence of calls that frees and resizes only pointers in use. *)

From stdpp Require Import base tactics numbers list sorting gmap.
From S2P Require Import Prelude MmHeap MmFreeList MmLayout MmHeapOps MmHeapProps MmHeapInit MmHeapResize MmHeapRealloc.

(** ** The abstract heap *)

(** The calls of the allocator interface. *)
Inductive heap_op :=
  | OpMalloc (size : Z)
  | OpMemalign (k size : Z)
  | OpRealloc (ptr size : Z)
  | OpFree (ptr : Z).

(** A chunk [s] bytes long behind [r] apart from every live one, headers
    included. *)
Definition apart (A : gmap Z Z) (r s : Z) : Prop :=
  forall r' s', A !! r' = Some s' -> r + s <= r' \/ r' + s' <= r.

(** What a call may return and do to the live blocks. *)
Inductive heap_step : gmap Z Z -> heap_op -> Z -> gmap Z Z -> Prop :=
  | step_malloc A size r s :
      (16 | r) -> size <= s - 16 -> apart A r s -> r <> 0 ->
      heap_step A (OpMalloc size) r (<[r := s]> A)
  | step_malloc_null A size : heap_step A (OpMalloc size) 0 A
  | step_memalign A k size r s :
      (2 ^ k | r) -> size <= s - 16 -> apart A r s -> r <> 0 ->
      heap_step A (OpMemalign k size) r (<[r := s]> A)
  | step_memalign_null A k size : heap_step A (OpMemalign k size) 0 A
  | step_realloc A ptr size s r s' :
      A !! ptr = Some s -> (16 | r) -> size <= s' - 16 -> apart (delete ptr A) r s' -> r <> 0 ->
      heap_step A (OpRealloc ptr size) r (<[r := s']> (delete ptr A))
  | step_realloc_null A ptr size : heap_step A (OpRealloc ptr size) 0 A
  | step_free A ptr s : A !! ptr = Some s -> heap_step A (OpFree ptr) 0 (delete ptr A).

(** The calls a client may make: sizes that do not wrap around when the header
    and the alignment are added, and only live pointers. *)
Definition op_valid (A : gmap Z Z) (op : heap_op) : Prop :=
  match op with
  | OpMalloc size => 1 <= size <= 4294967264
  | OpMemalign k size => 5 <= k <= 30 /\ 1 <= size /\ size + 2 * 2 ^ k <= 4294967200
  | OpRealloc ptr size => is_Some (A !! ptr) /\ 1 <= size <= 4294967200
  | OpFree ptr => is_Some (A !! ptr)
  end.

(** ** The concrete heap *)

Definition run_op (e : env) (h : mm_heap_s) (op : heap_op) : option (Z * mm_heap_s) :=
  match op with
  | OpMalloc size => mm_malloc e h size 0
  | OpMemalign k size => mm_memalign e h (2 ^ k) size 0
  | OpRealloc ptr size => mm_realloc e h ptr size 0
  | OpFree ptr => h ← mm_free e h ptr; Some (0, h)
  end.

(** The block behind [r] is one of a client, not a guard. *)
Definition user_block (base : Z) (cs : list chunk) (r s : Z) : Prop :=
  block base cs r s /\ base + 16 < r /\ r + s - 16 < base + total cs.

(** The heap [h] implements the live blocks [A]. *)
Definition implements (h : mm_heap_s) (A : gmap Z Z) : Prop :=
  exists cs, heap_wf h cs /\ unlocked h /\ accounted h cs /\ mm_heapsize h = total cs /\
    forall r s, A !! r = Some s <-> user_block (mm_heapstart h) cs r s.

(** The words of the blocks live before and after are unchanged. *)
Definition contents_kept (h h' : mm_heap_s) (A A' : gmap Z Z) : Prop :=
  forall r s b, A !! r = Some s -> A' !! r = Some s -> r <= b < r + s - 16 ->
    (mm_mem h').[b] = (mm_mem h).[b].

Lemma user_block_split base cs r s :
  Forall chunk_ok cs ->
  user_block base cs r s <->
  exists l1 l2, cs = l1 ++ (s, true) :: l2 /\ r = base + total l1 + 16 /\ l1 <> [] /\ l2 <> [].
Proof.
  intros Hok. unfold user_block. rewrite block_split. split.
  - intros [(l1 & l2 & -> & ->) [H1 H2]]. exists l1, l2. rewrite total_app in H2. simpl in H2.
    split_and!; try done; intros ->; simpl in *; lia.
  - intros (l1 & l2 & -> & -> & H1 & H2). split; [by exists l1, l2|].
    assert (Hpos : forall l, Forall chunk_ok l -> l <> [] -> 0 < total l).
    { intros [|c l] Hl ?; [done|]. apply Forall_cons in Hl as [[? ?] ?%total_nonneg]. simpl. lia. }
    apply Forall_app in Hok as [Hok1 [_ Hok2]%Forall_cons].
    pose proof (Hpos _ Hok1 H1). pose proof (Hpos _ Hok2 H2). rewrite total_app. simpl. lia.
Qed.

(** Live blocks are inside the region, aligned, big enough and disjoint. *)
Lemma implements_sound h A :
  implements h A ->
  (forall r s, A !! r = Some s -> (16 | r) /\ 16 <= s /\
     mm_heapstart h + 32 <= r /\ r + s - 16 <= mm_heapend h) /\
  (forall r s r' s', A !! r = Some s -> A !! r' = Some s' -> r <> r' -> r + s <= r' \/ r' + s' <= r).
Proof.
  intros (cs & [(_ & Hg & fl & Hrep) Hend] & _ & _ & _ & HA).
  pose proof (hr_sizes _ _ _ _ _ _ Hrep) as Hok. split.
  - intros r s (l1 & l2 & -> & -> & H1 & H2)%HA%user_block_split; [|done].
    apply Forall_app in Hok as [Hok1 [[? ?] Hok2]%Forall_cons]. simpl in *.
    split; [|split; [done|]].
    + apply Z.divide_add_r; [|by exists 1]. apply Z.divide_add_r; [apply Hrep|by apply total_aligned].
    + rewrite Hend, total_app. simpl.
      destruct l1 as [|c1 l1]; [done|]. destruct l2 as [|c2 l2]; [done|].
      apply Forall_cons in Hok1 as [[? ?] ?%total_nonneg], Hok2 as [[? ?] ?%total_nonneg]. simpl. lia.
  - intros r s r' s' [Hb _]%HA [Hb' _]%HA Hne.
    destruct (block_disjoint _ _ _ _ _ _ Hok Hb Hb') as [[? _] | ?]; [done|lia].
Qed.

(** ** Simulation *)

(** [A] is the map of the user blocks of a layout. *)
Definition maps (A : gmap Z Z) (base : Z) (cs : list chunk) : Prop :=
  forall r s, A !! r = Some s <-> user_block base cs r s.

(** Both guards are blocks. *)
Definition guard_blocks (base : Z) (cs : list chunk) : Prop :=
  block base cs (base + 16) 16 /\ block base cs (base + total cs) 16.

Lemma guarded_blocks base cs : guarded cs -> guard_blocks base cs.
Proof.
  intros (Hh & (l & ->)%last_Some & _). split.
  - destruct l as [|c l]; simplify_eq/=; by left.
  - rewrite block_app, total_app. right. left. simpl. split; [done|lia].
Qed.

Lemma guard_blocks_free base l1 s al l2 :
  l1 <> [] -> last l2 = Some (16, true) -> guarded (l1 ++ (s, al) :: l2) ->
  guard_blocks base (l1 ++ (s, false) :: l2).
Proof.
  intros H1 H2 Hg. apply guarded_blocks. eapply guarded_tail; [done|exact Hg|]. by rewrite last_cons, H2.
Qed.

(** Adding a block to a layout. *)
Lemma maps_alloc A base cs cs' r q :
  maps A base cs -> guard_blocks base cs -> Forall chunk_ok cs' -> total cs' = total cs ->
  (forall s0, ~ block base cs r s0) ->
  (forall r0 s0, block base cs' r0 s0 <-> (r0 = r /\ s0 = q) \/ block base cs r0 s0) ->
  maps (<[r := q]> A) base cs' /\ apart A r q.
Proof.
  intros HA [Hg1 Hg2] Hok Ht Hnot Hiff.
  assert (Hr : block base cs' r q) by (apply Hiff; by left).
  pose proof (block_range _ _ _ _ Hok Hr) as Hrange.
  assert (Hdis : forall r0 s0, block base cs r0 s0 -> r + q <= r0 \/ r0 + s0 <= r).
  { intros r0 s0 Hb. destruct (block_disjoint _ _ _ _ _ _ Hok Hr (proj2 (Hiff r0 s0) (or_intror Hb))) as [[-> _] | ?]; [|done].
    by apply Hnot in Hb. }
  split; [|intros r' s' [Hb _]%HA; by apply Hdis].
  intros r0 s0. unfold user_block. rewrite Ht. destruct (decide (r0 = r)) as [-> | Hne].
  - rewrite lookup_insert. destruct (Hdis _ _ Hg1), (Hdis _ _ Hg2); try lia. rewrite decide_True by done. split.
    + intros [= ->]. split; [done|lia].
    + intros [[[_ ->] | Hb]%Hiff _]; [done|by apply Hnot in Hb].
  - rewrite lookup_insert_ne, (HA r0 s0), Hiff by done. unfold user_block. naive_solver.
Qed.

(** Removing one. *)
Lemma maps_free A base l1 s l2 :
  maps A base (l1 ++ (s, true) :: l2) -> Forall chunk_ok (l1 ++ (s, true) :: l2) ->
  maps (delete (base + total l1 + 16) A) base (l1 ++ (s, false) :: l2).
Proof.
  intros HA Hok r0 s0. unfold user_block. rewrite block_remove by done.
  assert (Ht : total (l1 ++ (s, false) :: l2) = total (l1 ++ (s, true) :: l2)) by (by rewrite !total_app).
  rewrite lookup_delete_Some, (HA r0 s0), Ht. unfold user_block. naive_solver.
Qed.

Lemma maps_ext A base cs cs' :
  total cs' = total cs -> (forall r s, block base cs' r s <-> block base cs r s) -> maps A base cs -> maps A base cs'.
Proof. intros Ht Hiff HA r s. unfold user_block. rewrite Hiff, Ht. apply HA. Qed.

Lemma total_freed_blocks base l1 s l2 A :
  maps A base (l1 ++ (s, false) :: l2) -> maps A base (freed l1 s l2).
Proof.
  apply maps_ext; [by rewrite (freed_total _ _ false)|]. intros. by rewrite <- block_freed.
Qed.

(** Words of blocks are foreign to the other operations. *)
Lemma maps_foreign A base cs nl r s b :
  maps A base cs -> A !! r = Some s -> r <= b < r + s - 16 -> foreign nl base cs b.
Proof. intros HA [Hb _]%HA ?. left. by eapply block_payload. Qed.

Section simulation.
Context (e : env).
Hypothesis Hpid : 0 <= getpid e.

Lemma sim_malloc h A size :
  implements h A -> 1 <= size <= 4294967264 ->
  exists r h' A', mm_malloc e h size 0 = Some (r, h') /\ heap_step A (OpMalloc size) r A' /\
    implements h' A' /\ contents_kept h h' A A'.
Proof.
  intros (cs & Hwf & Hul & Hacc & Hsz & HA) Hsize.
  destruct (mm_malloc_spec e h cs size 0) as (r & h' & Hrun & Hul' & Hk & Hn & Hb & Hs & Hcase); [done..|].
  destruct Hcase as [(-> & Hwf' & _ & Ht) | (cs' & (l1 & s & l2 & -> & -> & Hge & _ & ->) & Hwf' & Hacc')].
  - exists 0, h', A. split; [done|]. split; [constructor|]. split.
    + exists cs. rewrite Hb, Hs. split_and!; try done. unfold accounted in *. by rewrite Ht.
    + intros r s b Hr _ Hin. apply Hk. by eapply maps_foreign.
  - pose proof Hwf as [(_ & Hg & fl & Hrep) _]. pose proof Hwf' as [(_ & _ & fl' & Hrep') _]. rewrite Hb in Hrep'.
    pose proof (rep_split_facts _ _ _ _ _ _ _ _ Hrep) as (? & ? & [? Hds] & _). cbn [fst] in *.
    destruct (request_bounds size Hsize) as (? & ? & Hdr).
    assert (Htot : total (l1 ++ carve (request size) s ++ l2) = total (l1 ++ (s, false) :: l2)).
    { by rewrite !total_app, total_carve. }
    destruct (maps_alloc A (mm_heapstart h) (l1 ++ (s, false) :: l2) (l1 ++ carve (request size) s ++ l2)
                (mm_heapstart h + total l1 + 16) (request size)) as [HA' Hap]; try done.
    { by apply guarded_blocks. }
    { apply Hrep'. }
    { intros s0. apply (block_not_free _ l1 [(s, false)] l2); [apply Hrep|by repeat constructor|simpl; lia]. }
    { intros r0 s0. by apply block_carve. }
    eexists _, h', _. split; [done|]. split; [|split].
    + apply step_malloc with (s := request size); [|lia|done|].
      * apply Z.divide_add_r; [|by exists 1]. apply Z.divide_add_r; [apply Hrep|].
        apply total_aligned. by apply hr_sizes, Forall_app in Hrep as [? _].
      * pose proof (hr_base _ _ _ _ _ _ Hrep). lia.
    + eexists. rewrite Hb, Hs, Htot. split_and!; try done. by apply Hacc'.
    + intros r0 s0 b Hr _ Hin. apply Hk. by eapply maps_foreign.
Qed.

Lemma sim_memalign h A k size :
  implements h A -> 5 <= k <= 30 -> 1 <= size -> size + 2 * 2 ^ k <= 4294967200 ->
  exists r h' A', mm_memalign e h (2 ^ k) size 0 = Some (r, h') /\ heap_step A (OpMemalign k size) r A' /\
    implements h' A' /\ contents_kept h h' A A'.
Proof.
  intros (cs & Hwf & Hul & Hacc & Hsz & HA) Hk Hsize Hlim.
  destruct (mm_memalign_spec e h cs k size 0) as (r & h' & Hrun & Hul' & Hkp & Hn & Hb & Hs & Hcase); [done..|].
  destruct Hcase as [(-> & Hwf' & _ & Ht) | (cs' & (l1 & s & l2 & p & -> & -> & Hdiv & Hp & Hge & ->) & Hwf' & Hacc')].
  - exists 0, h', A. split; [done|]. split; [constructor|]. split.
    + exists cs. rewrite Hb, Hs. split_and!; try done. unfold accounted in *. by rewrite Ht.
    + intros r s b Hr _ Hin. apply Hkp. by eapply maps_foreign.
  - pose proof Hwf as [(_ & Hg & fl & Hrep) _]. pose proof Hwf' as [(_ & _ & fl' & Hrep') _]. rewrite Hb in Hrep'.
    pose proof (rep_split_facts _ _ _ _ _ _ _ _ Hrep) as (? & ? & [? Hds] & _). cbn [fst] in *.
    destruct (request_bounds size) as (? & ? & Hdr); [lia|].
    set (cs' := l1 ++ lead p ++ _) in *.
    assert (Hcs' : cs' = l1 ++ (lead p ++ (request size, true) :: [(s - p - request size, false)]) ++ l2).
    { subst cs'. by rewrite <- !app_assoc. }
    assert (Htot : total cs' = total (l1 ++ (s, false) :: l2)).
    { rewrite Hcs', !total_app, total_lead. simpl. lia. }
    destruct (maps_alloc A (mm_heapstart h) (l1 ++ (s, false) :: l2) cs'
                (mm_heapstart h + total l1 + p + 16) (request size)) as [HA' Hap]; try done.
    { by apply guarded_blocks. }
    { apply Hrep'. }
    { intros s0. apply (block_not_free _ l1 [(s, false)] l2); [apply Hrep|by repeat constructor|simpl; lia]. }
    { intros r0 s0. rewrite Hcs', (block_alloc _ l1 [(s, false)]), total_lead; try done; [by repeat constructor|apply lead_free|by repeat constructor|].
      rewrite total_lead. simpl. lia. }
    eexists _, h', _. split; [done|]. split; [|split].
    + apply step_memalign with (s := request size); [done|lia|done|]. pose proof (hr_base _ _ _ _ _ _ Hrep). lia.
    + exists cs'. rewrite Hb, Hs, Htot. split_and!; try done. by apply Hacc'.
    + intros r0 s0 b Hr _ Hin. apply Hkp. by eapply maps_foreign.
Qed.

Lemma sim_free h A ptr :
  implements h A -> is_Some (A !! ptr) ->
  exists h' A', mm_free e h ptr = Some h' /\ heap_step A (OpFree ptr) 0 A' /\
    implements h' A' /\ contents_kept h h' A A'.
Proof.
  intros (cs & Hwf & Hul & Hacc & Hsz & HA) [s Hptr].
  pose proof Hwf as [(_ & Hg & fl & Hrep) _]. pose proof (hr_sizes _ _ _ _ _ _ Hrep) as Hok.
  pose proof Hptr as (l1 & l2 & -> & -> & Hl1 & Hl2)%HA%user_block_split; [|done].
  destruct (mm_free_spec e h l1 s l2) as (h' & Hrun & Hul' & Hk & Hfr & Hwf' & Hacc'); try done.
  destruct Hfr as (_ & Hb & _ & _ & _ & _ & Hs). pose proof (maps_free _ _ _ _ _ HA Hok) as HA'.
  eexists h', _. split; [done|]. split; [by econstructor|]. split.
  - exists (freed l1 s l2). rewrite Hb, Hs. split_and!; try done; [by apply Hacc'|by rewrite (freed_total _ _ true)|].
    by apply total_freed_blocks.
  - intros r0 s0 b _ Hr Hin. apply Hk. by eapply maps_foreign.
Qed.

Lemma sim_realloc h A ptr size :
  implements h A -> is_Some (A !! ptr) -> 1 <= size <= 4294967200 ->
  exists r h' A', mm_realloc e h ptr size 0 = Some (r, h') /\ heap_step A (OpRealloc ptr size) r A' /\
    implements h' A' /\ contents_kept h h' (delete ptr A) A' /\
    (forall s s', A !! ptr = Some s -> A' !! r = Some s' -> r <> 0 -> forall i, 0 <= i -> 4 * i < Z.min s s' - 16 ->
       (mm_mem h').[r + 4 * i] = (mm_mem h).[ptr + 4 * i]).
Proof.
  intros (cs & Hwf & Hul & Hacc & Hsz & HA) [s Hptr] Hsize.
  pose proof Hwf as [(_ & Hg & fl & Hrep) _]. pose proof (hr_sizes _ _ _ _ _ _ Hrep) as Hok.
  pose proof Hptr as (l1 & l2 & -> & -> & Hl1 & Hl2)%HA%user_block_split; [|done].
  set (base := mm_heapstart h) in *. set (old := base + total l1 + 16) in *.
  pose proof (maps_free _ _ _ _ _ HA Hok) as HA'. fold old in HA'.
  destruct (mm_realloc_spec e h l1 s l2 size 0) as (r & h' & Hrun & Hul' & Hn & Hb & Hs & Hcase); try done.
  fold base old in Hrun, Hb. destruct Hcase as [(-> & Hwf' & Hk & Ht & _) | (Hr0 & Hk & cs' & s' & Hwf' & Hge & Htot & Hiff & Hnot & Hacc' & Hin)].
  - exists 0, h', A. split; [done|]. split; [constructor|]. split; [|split; [|done]].
    + eexists. rewrite Hb, Hs. fold base. split_and!; try done. unfold accounted in *. by rewrite Ht.
    + intros r s0 b _ Hr Hin. apply Hk. by eapply maps_foreign.
  - pose proof Hwf' as [(_ & _ & fl' & Hrep') _]. rewrite Hb in Hrep'.
    destruct (request_bounds size) as (? & ? & _); [lia|].
    destruct (maps_alloc (delete old A) base (l1 ++ (s, false) :: l2) cs' r s') as [HA2 Hap]; try done.
    { eapply (guard_blocks_free _ _ _ true); [done| |exact Hg]. by apply (last_l2 h l1 s l2). }
    { apply Hrep'. }
    { rewrite Htot, !total_app. done. }
    assert (Hal : (16 | r)).
    { assert (Hblk : block base cs' r s') by (apply Hiff; by left). apply block_split in Hblk as (k1 & k2 & -> & ->).
      apply Z.divide_add_r; [|by exists 1]. apply Z.divide_add_r; [apply Hrep'|].
      apply total_aligned. by apply hr_sizes, Forall_app in Hrep' as [? _]. }
    exists r, h', (<[r := s']> (delete old A)). split; [done|]. 
    split; [apply (step_realloc _ _ _ s); done || lia|]. split; [|split].
    + exists cs'. rewrite Hb, Hs. fold base. split_and!; try done; [by apply Hacc'|congruence].
    + intros r1 s1 b Hr1 _ Hb1. apply Hk. by eapply maps_foreign.
    + intros s0 s1 Hs0 Hs1 _ i Hi Hi2. rewrite Hptr in Hs0. rewrite lookup_insert in Hs1.
      rewrite decide_True in Hs1 by done. simplify_eq. by apply Hin.
Qed.

End simulation.

(** ** Client runs *)

(** The live blocks after a call, the size of a new one read off its header. *)
Definition track (A : gmap Z Z) (op : heap_op) (r : Z) (h' : mm_heap_s) : gmap Z Z :=
  let s := (mm_mem h').[f_size (r - SIZEOF_MM_ALLOCNODE)] in
  match op with
  | OpMalloc _ | OpMemalign _ _ => if r =? 0 then A else <[r := s]> A
  | OpRealloc ptr _ => if r =? 0 then A else <[r := s]> (delete ptr A)
  | OpFree ptr => delete ptr A
  end.

(** The blocks an operation is not about. *)
Definition others (A : gmap Z Z) (op : heap_op) : gmap Z Z :=
  match op with
  | OpRealloc ptr _ | OpFree ptr => delete ptr A
  | _ => A
  end.

(** The states a client can bring an initialised heap to. *)
Inductive reachable (e : env) : mm_heap_s -> gmap Z Z -> Prop :=
  | reach_init h0 start size h :
      region_ok (mm_nodelist h0) start size -> mm_total_alloc_size h0 = 0 ->
      mm_initialize e h0 start size = Some h -> reachable e h ∅
  | reach_op h A op r h' :
      reachable e h A -> op_valid A op -> run_op e h op = Some (r, h') -> reachable e h' (track A op r h').

Lemma implements_size h A r s :
  implements h A -> A !! r = Some s -> (mm_mem h).[f_size (r - SIZEOF_MM_ALLOCNODE)] = s.
Proof.
  intros (cs & [(_ & _ & fl & Hrep) _] & _ & _ & _ & HA) [(l1 & l2 & -> & ->)%block_split _]%HA.
  unfold SIZEOF_MM_ALLOCNODE. replace (mm_heapstart h + total l1 + 16 - 16) with (mm_heapstart h + total l1) by lia.
  by apply hr_hdrs, hdrs_at in Hrep as [? _].
Qed.

Lemma step_track A op r A' h' : heap_step A op r A' -> implements h' A' -> A' = track A op r h'.
Proof.
  intros Hstep Himp. destruct Hstep; simpl; try done;
    (destruct (Z.eqb_spec r 0); [done|]); do 2 f_equal; symmetry;
    (eapply implements_size; [exact Himp|]); rewrite lookup_insert; by rewrite decide_True.
Qed.

(** Every valid call on an implemented heap returns and simulates a step. *)
Lemma run_op_sim e h A op :
  0 <= getpid e -> implements h A -> op_valid A op ->
  exists r h', run_op e h op = Some (r, h') /\ heap_step A op r (track A op r h') /\
    implements h' (track A op r h') /\ contents_kept h h' (others A op) (track A op r h').
Proof.
  intros Hpid Himp Hop. destruct op as [size | k size | ptr size | ptr]; simpl in Hop.
  - destruct (sim_malloc e Hpid h A size Himp Hop) as (r & h' & A' & Hrun & Hstep & Himp' & Hk).
    pose proof (step_track _ _ _ _ _ Hstep Himp') as ->. by exists r, h'.
  - destruct Hop as (? & ? & ?). destruct (sim_memalign e Hpid h A k size) as (r & h' & A' & Hrun & Hstep & Himp' & Hk); [done..|].
    pose proof (step_track _ _ _ _ _ Hstep Himp') as ->. by exists r, h'.
  - destruct Hop as (? & ?). destruct (sim_realloc e Hpid h A ptr size) as (r & h' & A' & Hrun & Hstep & Himp' & Hk & _); [done..|].
    pose proof (step_track _ _ _ _ _ Hstep Himp') as ->. by exists r, h'.
  - destruct (sim_free e Hpid h A ptr Himp Hop) as (h' & A' & Hrun & Hstep & Himp' & Hk).
    pose proof (step_track _ _ _ _ _ Hstep Himp') as ->. exists 0, h'. simpl. rewrite Hrun. split_and!; try done.
    intros r s b _ Hr. by apply Hk; [|done]; apply lookup_delete_Some in Hr as [_ ?].
Qed.

Lemma implements_init e h0 start size h :
  region_ok (mm_nodelist h0) start size -> mm_total_alloc_size h0 = 0 ->
  mm_initialize e h0 start size = Some h -> implements h ∅.
Proof.
  intros Hok Hz Hrun. destruct (mm_initialize_spec e h0 start size Hok) as (h' & Hrun' & Hwf & Hul & Hb & _ & Hs & Ht).
  rewrite Hrun in Hrun'. injection Hrun' as <-. eexists. split; [exact Hwf|]. split; [done|]. split; [|split].
  - unfold accounted. rewrite Ht, Hz. done.
  - rewrite Hs. simpl. lia.
  - intros r s. rewrite lookup_empty. split; [done|]. unfold user_block. simpl.
    intros [[[? ?] | [[? _] | [[? ?] | []]]] ?]; simplify_eq; lia.
Qed.

Lemma reachable_implements e h A : 0 <= getpid e -> reachable e h A -> implements h A.
Proof.
  intros Hpid. induction 1 as [h0 start size h | h A op r h' Hr IH Hop Hrun].
  - by eapply implements_init.
  - destruct (run_op_sim e h A op) as (r' & h1 & Hrun' & _ & Himp & _); [done..|].
    rewrite Hrun in Hrun'. by simplify_eq.
Qed.
