(* ===== verification/MmHeapTheorems.v ===== *)
(** * The kernel heap: the theorems and their instances

    The properties of the heap allocator, each instantiated on a small heap of
    976 bytes at address 8208 with its control structure at 4096. *)

From stdpp Require Import base tactics numbers list sorting gmap.
From S2P Require Import Prelude MmHeap MmFreeList MmLayout MmHeapOps MmHeapProps.
From S2P Require Import MmHeapInit MmHeapResize MmHeapRealloc MmHeapClient.

(** ** A concrete heap *)

Definition demo_env : env := mk_env 3 false.

(** The heap structure before [mm_initialize]: zeroed data. *)
Definition demo_bss : mm_heap_s :=
  mk_heap (fun _ => 0) 4096 0 0 0 0 0 0 0 0 {[3 := mk_tcb_info 0 0 0]}.

Definition demo_heap : mm_heap_s := default demo_bss (mm_initialize demo_env demo_bss 8195 1000).

(** The same heap after the allocation of 100 bytes. *)
Definition demo_heap1 : mm_heap_s :=
  default demo_heap (snd <$> mm_malloc demo_env demo_heap 100 0).

Definition demo_layout1 : list chunk := [(16, true); (128, true); (816, false); (16, true)].

Lemma demo_region : region_ok (mm_nodelist demo_bss) 8195 1000.
Proof. split_and!; vm_compute; (done || (left; done)). Qed.

Lemma demo_init : mm_initialize demo_env demo_bss 8195 1000 = Some demo_heap.
Proof.
  destruct (mm_initialize_spec demo_env demo_bss 8195 1000 demo_region) as (h & Hrun & _).
  unfold demo_heap. by rewrite Hrun.
Qed.

Lemma demo_heap_ok :
  heap_wf demo_heap (fresh_layout 944) /\ unlocked demo_heap /\ accounted demo_heap (fresh_layout 944) /\
  mm_heapsize demo_heap = 976 /\ mm_heapstart demo_heap = 8208 /\ mm_nodelist demo_heap = 4096.
Proof.
  destruct (mm_initialize_spec demo_env demo_bss 8195 1000 demo_region) as (h & Hrun & Hwf & Hul & Hb & Hn & Hs & Ht).
  unfold demo_heap. rewrite Hrun. simpl. split; [exact Hwf|]. split; [exact Hul|].
  split; [unfold accounted; rewrite Ht; reflexivity|].
  rewrite Hs, Hb, Hn. split_and!; reflexivity.
Qed.

Lemma demo_carve l1 s l2 :
  fresh_layout 944 = l1 ++ (s, false) :: l2 -> l1 ++ carve (request 100) s ++ l2 = demo_layout1.
Proof.
  intros Hl. destruct l1 as [|c1 [|c2 [|c3 [|]]]]; try discriminate Hl.
  injection Hl as <- <- <-. reflexivity.
Qed.

Lemma demo_heap1_ok :
  heap_wf demo_heap1 demo_layout1 /\ unlocked demo_heap1 /\ accounted demo_heap1 demo_layout1 /\
  mm_heapsize demo_heap1 = 976 /\ mm_heapstart demo_heap1 = 8208 /\ mm_nodelist demo_heap1 = 4096.
Proof.
  destruct demo_heap_ok as (Hwf & Hul & Hacc & Hsz & Hb & Hn).
  destruct (mm_malloc_spec demo_env demo_heap (fresh_layout 944) 100 0)
    as (r & h & Hrun & Hul' & _ & Hn' & Hb' & Hs' & Hcase); [exact Hwf|exact Hul|simpl; lia|lia|].
  unfold demo_heap1. rewrite Hrun. cbn [fmap option_fmap option_map from_option id snd].
  destruct Hcase as [(_ & _ & Hnone & _) | (cs' & (l1 & s & l2 & Hcs & _ & _ & _ & ->) & Hwf' & Hacc')].
  { specialize (Hnone 944 ltac:(right; left)). vm_compute in Hnone. discriminate. }
  pose proof (demo_carve _ _ _ Hcs) as Heq.
  rewrite Heq in *. split; [exact Hwf'|]. split; [exact Hul'|]. split; [by apply Hacc'|].
  rewrite Hs', Hb', Hn'. split_and!; assumption.
Qed.

(** ** Clients *)

(** C1: whatever sequence of [mm_malloc], [mm_memalign], [mm_realloc] and
    [mm_free] calls its clients make (freeing and resizing only pointers in
    use, with sizes that do not wrap), an initialised heap never blocks or
    fails an assertion: every next call returns, hands out a block apart from
    all live ones, aligned and large enough, keeps the contents of every
    other live block, and leaves all live blocks inside the region, aligned
    and disjoint. *)
Theorem heap_client_safety e h A :
  0 <= getpid e -> reachable e h A ->
  implements h A /\
  (forall r s, A !! r = Some s -> (16 | r) /\ 16 <= s /\
     mm_heapstart h + 32 <= r /\ r + s - 16 <= mm_heapend h) /\
  (forall r s r' s', A !! r = Some s -> A !! r' = Some s' -> r <> r' -> r + s <= r' \/ r' + s' <= r) /\
  (forall op, op_valid A op ->
     exists r h', run_op e h op = Some (r, h') /\ heap_step A op r (track A op r h') /\
       reachable e h' (track A op r h') /\ contents_kept h h' (others A op) (track A op r h')).
Proof.
  intros Hpid Hr. pose proof (reachable_implements e h A Hpid Hr) as Himp.
  destruct (implements_sound h A Himp) as [Hin Hdis]. split_and!; try done.
  intros op Hop. destruct (run_op_sim e h A op Hpid Himp Hop) as (r & h' & Hrun & Hstep & _ & Hk).
  exists r, h'. split_and!; try done. by eapply reach_op.
Qed.

Lemma heap_client_safety_witness :
  exists r h', run_op demo_env demo_heap (OpMalloc 100) = Some (r, h') /\
    heap_step ∅ (OpMalloc 100) r (track ∅ (OpMalloc 100) r h').
Proof.
  destruct (heap_client_safety demo_env demo_heap ∅) as (_ & _ & _ & Hop).
  - vm_compute. discriminate.
  - apply (reach_init demo_env demo_bss 8195 1000); [exact demo_region|reflexivity|exact demo_init].
  - destruct (Hop (OpMalloc 100)) as (r & h' & Hrun & Hstep & _).
    + split; vm_compute; discriminate.
    + exists r, h'. split; assumption.
Defined.

(** ** Operations *)

(** C19: [mm_malloc] of a size that does not wrap returns; it returns null only
    if no free chunk is large enough, and otherwise cuts a smallest free chunk
    that is (best fit), keeping the heap well formed, every word in use, the
    allocation statistics and the lock. *)
Theorem mm_malloc_best_fit e h cs size ra :
  heap_wf h cs -> unlocked h -> 0 <= getpid e -> 1 <= size <= 4294967264 ->
  exists r h', mm_malloc e h size ra = Some (r, h') /\ unlocked h' /\ keeps cs h h' /\
    mm_nodelist h' = mm_nodelist h /\ mm_heapstart h' = mm_heapstart h /\ mm_heapsize h' = mm_heapsize h /\
    ((r = 0 /\ heap_wf h' cs /\ (forall s, (s, false) ∈ cs -> s < request size) /\
      mm_total_alloc_size h' = mm_total_alloc_size h) \/
     (exists cs', malloc_result cs (mm_heapstart h) size r cs' /\ heap_wf h' cs' /\
      (accounted h cs -> accounted h' cs'))).
Proof. apply mm_malloc_spec. Qed.

Lemma mm_malloc_best_fit_witness :
  exists r h', mm_malloc demo_env demo_heap 100 0 = Some (r, h') /\ unlocked h'.
Proof.
  destruct demo_heap_ok as (Hwf & Hul & _).
  destruct (mm_malloc_best_fit demo_env demo_heap (fresh_layout 944) 100 0 Hwf Hul)
    as (r & h' & Hrun & Hul' & _).
  - vm_compute. discriminate.
  - split; vm_compute; discriminate.
  - exists r, h'. split; assumption.
Defined.

(** C20: [mm_free] of an allocated block returns, and the chunk is merged with
    the free chunks on both sides, so that no two free chunks are ever
    neighbours; every other word in use, the statistics and the lock are
    kept. *)
Theorem mm_free_coalesces e h l1 s l2 :
  let cs := l1 ++ (s, true) :: l2 in
  heap_wf h cs -> l1 <> [] -> l2 <> [] -> unlocked h -> 0 <= getpid e ->
  exists h', mm_free e h (mm_heapstart h + total l1 + 16) = Some h' /\ unlocked h' /\
    keeps (l1 ++ (s, false) :: l2) h h' /\
    same_frame h h' /\ heap_wf h' (freed l1 s l2) /\
    (accounted h cs -> accounted h' (freed l1 s l2)).
Proof. apply mm_free_spec. Qed.

Lemma mm_free_coalesces_witness :
  exists h', mm_free demo_env demo_heap1 8240 = Some h' /\ heap_wf h' (fresh_layout 944).
Proof.
  destruct demo_heap1_ok as (Hwf & Hul & _ & _ & Hb & _).
  destruct (mm_free_coalesces demo_env demo_heap1 [(16, true)] 128 [(816, false); (16, true)])
    as (h' & Hrun & _ & _ & _ & Hwf' & _).
  - exact Hwf.
  - discriminate.
  - discriminate.
  - exact Hul.
  - vm_compute. discriminate.
  - rewrite Hb in Hrun. exists h'. split; assumption.
Defined.

(** C25: [mm_realloc] of an allocated block returns; it returns null only if
    not even a further chunk could be had, leaving everything in place, and
    otherwise a block large enough for the new size, which holds the words of
    the old block up to the smaller of the two sizes (whether it shrank, grew
    into its neighbours, with or without moving down, or was copied), while
    every other block is kept. *)
Theorem mm_realloc_preserves_contents e h l1 s l2 size ra :
  let cs := l1 ++ (s, true) :: l2 in
  heap_wf h cs -> l1 <> [] -> l2 <> [] -> unlocked h -> 0 <= getpid e -> 1 <= size <= 4294967200 ->
  exists r h', mm_realloc e h (mm_heapstart h + total l1 + 16) size ra = Some (r, h') /\ unlocked h' /\
    mm_nodelist h' = mm_nodelist h /\ mm_heapstart h' = mm_heapstart h /\ mm_heapsize h' = mm_heapsize h /\
    ((r = 0 /\ heap_wf h' cs /\ keeps cs h h' /\ mm_total_alloc_size h' = mm_total_alloc_size h /\
      (forall s0, (s0, false) ∈ cs -> s0 < request (request size))) \/
     (r <> 0 /\ keeps (l1 ++ (s, false) :: l2) h h' /\ realloc_ok h h' l1 s l2 size r)).
Proof. apply mm_realloc_spec. Qed.

Lemma mm_realloc_preserves_contents_witness :
  exists r h', mm_realloc demo_env demo_heap1 8240 300 0 = Some (r, h') /\ unlocked h'.
Proof.
  destruct demo_heap1_ok as (Hwf & Hul & _ & _ & Hb & _).
  destruct (mm_realloc_preserves_contents demo_env demo_heap1 [(16, true)] 128 [(816, false); (16, true)] 300 0)
    as (r & h' & Hrun & Hul' & _).
  - exact Hwf.
  - discriminate.
  - discriminate.
  - exact Hul.
  - vm_compute. discriminate.
  - split; vm_compute; discriminate.
  - rewrite Hb in Hrun. exists r, h'. split; assumption.
Defined.

(** [mm_memalign] for an alignment of 32 bytes to 1 GB returns; a block it
    hands out is a multiple of the alignment and cut out of one free chunk,
    with what lies before and after it given back. *)
Theorem mm_memalign_aligned e h cs k size ra :
  heap_wf h cs -> unlocked h -> 0 <= getpid e -> 5 <= k <= 30 ->
  1 <= size -> size + 2 * 2 ^ k <= 4294967200 ->
  exists r h', mm_memalign e h (2 ^ k) size ra = Some (r, h') /\ unlocked h' /\ keeps cs h h' /\
    mm_nodelist h' = mm_nodelist h /\ mm_heapstart h' = mm_heapstart h /\ mm_heapsize h' = mm_heapsize h /\
    ((r = 0 /\ heap_wf h' cs /\ (forall s, (s, false) ∈ cs -> s < request size + 2 * 2 ^ k) /\
      mm_total_alloc_size h' = mm_total_alloc_size h) \/
     (exists cs', memalign_result cs (mm_heapstart h) (2 ^ k) size r cs' /\ heap_wf h' cs' /\
      (accounted h cs -> accounted h' cs'))).
Proof. apply mm_memalign_spec. Qed.

Lemma mm_memalign_aligned_witness :
  exists r h', mm_memalign demo_env demo_heap1 64 100 0 = Some (r, h') /\ unlocked h'.
Proof.
  destruct demo_heap1_ok as (Hwf & Hul & _).
  destruct (mm_memalign_aligned demo_env demo_heap1 demo_layout1 6 100 0 Hwf Hul)
    as (r & h' & Hrun & Hul' & _).
  - vm_compute. discriminate.
  - split; vm_compute; discriminate.
  - vm_compute. discriminate.
  - vm_compute. discriminate.
  - exists r, h'. split; assumption.
Defined.

(** [mm_initialize] on a memory range turns it into a well-formed,
    unlocked heap: one free chunk between the two guard nodes, at the aligned
    base, whatever the memory held. *)
Theorem mm_initialize_establishes e h start size :
  let base := region_base start in
  let tot := region_end start size - base in
  region_ok (mm_nodelist h) start size ->
  exists h', mm_initialize e h start size = Some h' /\ heap_wf h' (fresh_layout (tot - 32)) /\
    unlocked h' /\ mm_heapstart h' = base /\ mm_nodelist h' = mm_nodelist h /\ mm_heapsize h' = tot /\
    mm_total_alloc_size h' = mm_total_alloc_size h.
Proof. apply mm_initialize_spec. Qed.

Lemma mm_initialize_establishes_witness :
  exists h', mm_initialize demo_env demo_bss 8195 1000 = Some h' /\ heap_wf h' (fresh_layout 944).
Proof.
  destruct (mm_initialize_establishes demo_env demo_bss 8195 1000 demo_region) as (h' & Hrun & Hwf & _).
  exists h'. split; assumption.
Defined.

(** [mm_mallinfo] on a well-formed heap passes its assertions and reports
    exactly the layout: the number of free chunks, the largest of them, and
    the bytes in use and free, which add up to the arena. *)
Theorem mm_mallinfo_exact e h cs :
  heap_wf h cs -> unlocked h -> 0 <= getpid e -> mm_heapsize h = total cs ->
  mm_mallinfo e h =
  Some (mk_mallinfo (total cs) (Z.of_nat (length (free_sizes cs))) (max_size 0 (free_sizes cs))
          (allocated cs) (total cs - allocated cs), h).
Proof. apply mm_mallinfo_spec. Qed.

Lemma mm_mallinfo_exact_witness :
  mm_mallinfo demo_env demo_heap1 = Some (mk_mallinfo 976 1 816 160 816, demo_heap1).
Proof.
  destruct demo_heap1_ok as (Hwf & Hul & _ & Hsz & _).
  apply (mm_mallinfo_exact demo_env demo_heap1 demo_layout1 Hwf Hul).
  - vm_compute. discriminate.
  - exact Hsz.
Defined.

(** [mm_zalloc] hands out blocks whose requested bytes are all zero: the
    whole words of the block and the low bytes of the last one. *)
Theorem mm_zalloc_zeroes e h cs size ra :
  heap_wf h cs -> unlocked h -> 0 <= getpid e -> 1 <= size <= 4294967264 ->
  exists r h', mm_zalloc e h size ra = Some (r, h') /\ unlocked h' /\ keeps cs h h' /\
    ((r = 0 /\ heap_wf h' cs /\ (forall s, (s, false) ∈ cs -> s < request size)) \/
     (exists cs', malloc_result cs (mm_heapstart h) size r cs' /\ heap_wf h' cs' /\
      (forall i, 0 <= i -> 4 * i + 4 <= size -> (mm_mem h').[r + 4 * i] = 0) /\
      (size mod 4 <> 0 -> (mm_mem h').[r + 4 * (size / 4)] mod 2 ^ (8 * (size mod 4)) = 0))).
Proof. apply mm_zalloc_spec. Qed.

Lemma mm_zalloc_zeroes_witness :
  exists r h', mm_zalloc demo_env demo_heap 10 0 = Some (r, h') /\ unlocked h'.
Proof.
  destruct demo_heap_ok as (Hwf & Hul & _).
  destruct (mm_zalloc_zeroes demo_env demo_heap (fresh_layout 944) 10 0 Hwf Hul)
    as (r & h' & Hrun & Hul' & _).
  - vm_compute. discriminate.
  - split; vm_compute; discriminate.
  - exists r, h'. split; assumption.
Defined.

(** ** Behaviours to know of *)

(** The chunk size [mm_malloc] computes wraps around for the largest sizes. *)
Lemma request_wraps size :
  4294967281 <= size <= 4294967295 -> MM_ALIGN_UP (u32 (size + SIZEOF_MM_ALLOCNODE)) = 16.
Proof.
  intros Hsize. unfold SIZEOF_MM_ALLOCNODE.
  assert (Hu : u32 (size + 16) = size - 4294967280).
  { unfold u32. rewrite <- (Z_mod_plus_full _ (-1)), Z.mod_small; lia. }
  rewrite Hu, MM_ALIGN_UP_eq by lia.
  assert (Hq : (size - 4294967280 + 15) / 16 = 1) by (symmetry; apply (Z.div_unique _ 16 1 (size - 4294967281)); lia).
  by rewrite Hq.
Qed.

(** for a request within 14 bytes of the address space's size, the chunk
    size wraps around and [mm_malloc] succeeds on any heap with a free chunk:
    the block it returns lies in a 16-byte chunk, all of it header. *)
Theorem mm_malloc_wraps e h cs size ra s :
  heap_wf h cs -> unlocked h -> 0 <= getpid e -> 4294967281 <= size <= 4294967295 -> (s, false) ∈ cs ->
  exists r h', mm_malloc e h size ra = Some (r, h') /\ r <> 0 /\
    (mm_mem h').[f_size (r - SIZEOF_MM_ALLOCNODE)] = 16.
Proof.
  intros Hwf Hul Hpid Hsize Hs. pose proof Hwf as [(_ & _ & fl & Hrep) _].
  destruct (mm_malloc_chunk e h cs size ra 16) as (r & h' & Hrun & _ & _ & _ & Hb & _ & Hcase);
    [exact Hwf|exact Hul|exact Hpid|lia|by apply request_wraps|lia|by exists 1|].
  exists r, h'. split; [done|].
  destruct Hcase as [(_ & _ & Hnone & _) | (cs' & (l1 & s' & l2 & -> & -> & _ & _ & ->) & [(_ & _ & fl' & Hrep') _] & _)].
  - specialize (Hnone s Hs). pose proof (hr_sizes _ _ _ _ _ _ Hrep) as Hok.
    rewrite Forall_forall in Hok. destruct (Hok _ Hs). simpl in *. lia.
  - pose proof (rep_split_facts _ _ _ _ _ _ _ _ Hrep) as (? & _ & _ & _ & ? & _). split; [lia|].
    unfold SIZEOF_MM_ALLOCNODE. rewrite Hb in Hrep'.
    replace (mm_heapstart h + total l1 + 16 - 16) with (mm_heapstart h + total l1) by lia.
    by apply hr_hdrs, hdrs_at in Hrep' as [? _].
Qed.

Lemma mm_malloc_wraps_witness :
  exists r h', mm_malloc demo_env demo_heap 4294967295 0 = Some (r, h') /\ r <> 0 /\
    (mm_mem h').[f_size (r - SIZEOF_MM_ALLOCNODE)] = 16.
Proof.
  destruct demo_heap_ok as (Hwf & Hul & _).
  apply (mm_malloc_wraps demo_env demo_heap (fresh_layout 944) 4294967295 0 944 Hwf Hul).
  - vm_compute. discriminate.
  - split; vm_compute; discriminate.
  - right. left.
Defined.

(** [mm_extend] appends a block to the region: the heap stays well formed,
    with the new memory merged into a free chunk that ended the region.  But
    [mm_heapsize] is not updated, so that the assertion of [mm_mallinfo] fails
    on every heap that was extended. *)
Theorem mm_extend_appends e h l block size :
  let cs := l ++ [(16, true)] in
  heap_wf h cs -> unlocked h -> 0 <= getpid e -> block_ok h cs block size -> mm_heapsize h = total cs ->
  exists h', mm_extend e h block size 0 = Some h' /\ unlocked h' /\ heap_wf h' (freed l size [(16, true)]) /\
    mm_heapend h' = mm_heapend h + size /\
    (forall b, payload (mm_heapstart h) l b -> (mm_mem h').[b] = (mm_mem h).[b]) /\
    mm_mallinfo e h' = None.
Proof.
  intros cs Hwf Hul Hpid Hblk Hsz.
  destruct (mm_extend_spec e h l block size Hwf Hul Hpid Hblk) as (h' & Hrun & Hul' & Hwf' & _ & _ & He & Hs & Hkeep).
  exists h'. split_and!; try done. eapply mallinfo_wrong_size; try done.
  rewrite Hs, Hsz. destruct Hblk as (_ & ? & _). rewrite (freed_total _ _ true). subst cs. rewrite !total_app. simpl. lia.
Qed.

Lemma mm_extend_appends_witness :
  exists h', mm_extend demo_env demo_heap1 9184 64 0 = Some h' /\ mm_mallinfo demo_env h' = None.
Proof.
  destruct demo_heap1_ok as (Hwf & Hul & _ & Hsz & Hb & Hn).
  destruct (mm_extend_appends demo_env demo_heap1 [(16, true); (128, true); (816, false)] 9184 64)
    as (h' & Hrun & _ & _ & _ & _ & Hinfo).
  - exact Hwf.
  - exact Hul.
  - vm_compute. discriminate.
  - destruct Hwf as [_ Hend]. unfold block_ok. rewrite Hend, Hb, Hn.
    split; [reflexivity|]. split; [lia|]. split; [exists 4; reflexivity|]. simpl. split; [lia|]. split; [lia|left; lia].
  - exact Hsz.
  - exists h'. split; assumption.
Defined.
