(* ===== verification/MmGran.v ===== *)
(** * The granule allocator (os/mm/mm_gran)

    A granule heap keeps one bit per granule in a table of 32-bit words (the
    GAT).  The model has the fields of [struct gran_s]; the table is the word
    sequence in memory from [gat] on, also beyond the table's end, because the
    code reads one word past it.  [None] is a failed DEBUGASSERT, a shift by
    more than 31 bits, or a call that blocks. *)

From stdpp Require Import base tactics numbers list.
From S2P Require Import Prelude.

Record gran_s := mk_gran {
  log2gran : Z;
  ngranules : Z;
  exclsem : Z;
  heapstart : Z;
  gat : Z -> Z
}.

Definition with_gat (p : gran_s) (g : Z -> Z) : gran_s :=
  mk_gran (log2gran p) (ngranules p) (exclsem p) (heapstart p) g.

Definition with_exclsem (p : gran_s) (s : Z) : gran_s :=
  mk_gran (log2gran p) (ngranules p) s (heapstart p) (gat p).

(** [gat[i] = v] *)
Definition set_gat (g : Z -> Z) (i v : Z) : Z -> Z := fun j => if j =? i then v else g j.

(** [0xffffffff] *)
Abbreviation all_ones := 4294967295 (only parsing).

(** [0xffffffff >> (32 - n)], defined for 1 to 32 granules. *)
Definition low_mask (n : Z) : option Z :=
  if (1 <=? n) && (n <=? 32) then Some (Z.shiftr all_ones (32 - n)) else None.

(** ** Critical sections *)

Definition gran_enter_critical (p : gran_s) : option gran_s :=
  if 0 <? exclsem p then Some (with_exclsem p (exclsem p - 1)) else None.

Definition gran_leave_critical (p : gran_s) : gran_s := with_exclsem p (exclsem p + 1).

(** ** gran_mark_allocated *)

Definition gran_mark_allocated (p : gran_s) (alloc ngran : Z) : option gran_s :=
  let granno := Z.shiftr (u32 (alloc - heapstart p)) (log2gran p) in
  let gatidx := Z.shiftr granno 5 in
  let gatbit := Z.land granno 31 in
  let avail := 32 - gatbit in
  if avail <? ngran then
    let gatmask := u32 (Z.shiftl all_ones gatbit) in
    _ ← assert (Z.land (gat p gatidx) gatmask =? 0);
    let g := set_gat (gat p) gatidx (Z.lor (gat p gatidx) gatmask) in
    let ngran := ngran - avail in
    gatmask ← low_mask ngran;
    _ ← assert (Z.land (g (gatidx + 1)) gatmask =? 0);
    Some (with_gat p (set_gat g (gatidx + 1) (Z.lor (g (gatidx + 1)) gatmask)))
  else
    gatmask ← low_mask ngran;
    let gatmask := u32 (Z.shiftl gatmask gatbit) in
    _ ← assert (Z.land (gat p gatidx) gatmask =? 0);
    Some (with_gat p (set_gat (gat p) gatidx (Z.lor (gat p gatidx) gatmask))).

(** ** gran_alloc *)

(** The number of granules that hold [size] bytes. *)
Definition gran_count (p : gran_s) (size : Z) : Z :=
  Z.shiftr (u32 (size + u32 (Z.shiftl 1 (log2gran p) - 1))) (log2gran p).

(** What the chain of tests of the search finds in [curr]. *)
Inductive verdict := Full | Found | Shift (shift : Z).

Definition gran_probe (curr mask : Z) : verdict :=
  if curr =? all_ones then Full
  else if Z.land curr 65535 =? 65535 then Shift 16
  else if Z.land curr 255 =? 255 then Shift 8
  else if Z.land curr 15 =? 15 then Shift 4
  else if Z.land curr 3 =? 3 then Shift 2
  else if Z.land curr mask =? 0 then Found
  else Shift 1.

(** The inner loop: [inl alloc] for the address found, [inr alloc] for the
    value of [alloc] when the loop ends. *)
Fixpoint gran_scan (fuel : nat) (p : gran_s) (mask ngran granidx bitidx alloc curr next : Z) : option (Z + Z) :=
  match fuel with
  | O => None
  | S fuel =>
      if (bitidx <? 32) && (granidx + bitidx + ngran <=? ngranules p) then
        match gran_probe curr mask with
        | Full => Some (inr alloc)
        | Found => Some (inl alloc)
        | Shift shift =>
            gran_scan fuel p mask ngran granidx (bitidx + shift)
              (u32 (alloc + Z.shiftl shift (log2gran p)))
              (Z.lor (Z.shiftr curr shift) (u32 (Z.shiftl next (32 - shift))))
              (Z.shiftr next shift)
        end
      else Some (inr alloc)
  end.

(** The outer loop over the words of the table: the address found, if any. *)
Fixpoint gran_search (fuel : nat) (p : gran_s) (mask ngran granidx alloc : Z) : option (option Z) :=
  match fuel with
  | O => None
  | S fuel =>
      if granidx <? ngranules p then
        let gatidx := Z.shiftr granidx 5 in
        let curr := gat p gatidx in
        if curr =? all_ones then
          gran_search fuel p mask ngran (granidx + 32) (u32 (alloc + Z.shiftl 32 (log2gran p)))
        else
          let next := if granidx <? ngranules p then gat p (gatidx + 1) else all_ones in
          r ← gran_scan 33 p mask ngran granidx 0 alloc curr next;
          match r with
          | inl alloc => Some (Some alloc)
          | inr alloc => gran_search fuel p mask ngran (granidx + 32) alloc
          end
      else Some None
  end.

(** One round per word of the table and the final test. *)
Definition search_fuel (p : gran_s) : nat := Z.to_nat (ngranules p / 32 + 2).

Definition gran_common_alloc (p : gran_s) (size : Z) : option (Z * gran_s) :=
  _ ← assert (size <=? u32 (32 * Z.shiftl 1 (log2gran p)));
  if 0 <? size then
    p ← gran_enter_critical p;
    let ngran := gran_count p size in
    _ ← assert (ngran <=? 32);
    mask ← low_mask ngran;
    found ← gran_search (search_fuel p) p mask ngran 0 (heapstart p);
    match found with
    | Some alloc =>
        p ← gran_mark_allocated p alloc ngran;
        Some (alloc, gran_leave_critical p)
    | None => Some (0, gran_leave_critical p)
    end
  else Some (0, p).

Definition gran_alloc (p : gran_s) (size : Z) : option (Z * gran_s) := gran_common_alloc p size.

(** ** gran_free *)

Definition gran_common_free (p : gran_s) (memory size : Z) : option gran_s :=
  _ ← assert (negb (memory =? 0) && (size <=? u32 (32 * Z.shiftl 1 (log2gran p))));
  p ← gran_enter_critical p;
  let granno := Z.shiftr (u32 (memory - heapstart p)) (log2gran p) in
  let gatidx := Z.shiftr granno 5 in
  let gatbit := Z.land granno 31 in
  let ngran := gran_count p size in
  let avail := 32 - gatbit in
  if avail <? ngran then
    let gatmask := u32 (Z.shiftl all_ones gatbit) in
    _ ← assert (Z.land (gat p gatidx) gatmask =? gatmask);
    let g := set_gat (gat p) gatidx (Z.land (gat p gatidx) (u32 (Z.lnot gatmask))) in
    let ngran := ngran - avail in
    gatmask ← low_mask ngran;
    _ ← assert (Z.land (g (gatidx + 1)) gatmask =? gatmask);
    Some (gran_leave_critical
      (with_gat p (set_gat g (gatidx + 1) (Z.land (g (gatidx + 1)) (u32 (Z.lnot gatmask))))))
  else
    gatmask ← low_mask ngran;
    let gatmask := u32 (Z.shiftl gatmask gatbit) in
    _ ← assert (Z.land (gat p gatidx) gatmask =? gatmask);
    Some (gran_leave_critical
      (with_gat p (set_gat (gat p) gatidx (Z.land (gat p gatidx) (u32 (Z.lnot gatmask)))))).

Definition gran_free (p : gran_s) (memory size : Z) : option gran_s := gran_common_free p memory size.

(** ** gran_reserve *)

Definition gran_common_reserve (p : gran_s) (start size : Z) : option gran_s :=
  if 0 <? size then
    let mask := u32 (Z.shiftl 1 (log2gran p) - 1) in
    let end_ := u32 (start + size - 1) in
    let start := Z.land start (u32 (Z.lnot mask)) in
    let end_ := Z.land (u32 (end_ + mask)) (u32 (Z.lnot mask)) in
    let ngran := Z.shiftr (u32 (end_ - start)) (log2gran p) + 1 in
    gran_mark_allocated p start ngran
  else Some p.

Definition gran_reserve (p : gran_s) (start size : Z) : option gran_s := gran_common_reserve p start size.

(** ** gran_initialize *)

(** [block] is what kmm_zalloc returned for the structure: no memory, or the
    words from [gat] on. *)
Definition gran_common_initialize (block : option (Z -> Z)) (start size lgran lalign : Z) : option (option gran_s) :=
  _ ← assert (negb (start =? 0) && (0 <? size) && (0 <? lgran) && (lgran <? 32) && (lalign <=? lgran));
  let mask := u32 (Z.shiftl 1 lalign - 1) in
  let alignedstart := Z.land (u32 (start + mask)) (u32 (Z.lnot mask)) in
  let mask := u32 (Z.shiftl 1 lgran - 1) in
  let heapend := u32 (start + size) in
  let alignedsize := Z.land (u32 (heapend - alignedstart)) (u32 (Z.lnot mask)) in
  let ngran := Z.shiftr alignedsize lgran in
  match block with
  | None => Some None
  | Some g => Some (Some (mk_gran (u8 lgran) (u16 ngran) 1 alignedstart g))
  end.

Definition gran_initialize (block : option (Z -> Z)) (start size lgran lalign : Z) : option (option gran_s) :=
  gran_common_initialize block start size lgran lalign.
