(* ===== verification/MmGranProps.v ===== *)
(** * The granule allocator: correctness *)

From stdpp Require Import base tactics numbers list.
From S2P Require Import Prelude MmGran.

(** Granule [i] is marked in the table. *)
Definition gbit (g : Z -> Z) (i : Z) : bool := Z.testbit (g (i / 32)) (i mod 32).

Definition words_ok (g : Z -> Z) : Prop := forall i, 0 <= g i < 4294967296.

Definition in_run (i n j : Z) : bool := (i <=? j) && (j <? i + n).

(** All granules of a run are free. *)
Definition run_free (g : Z -> Z) (i n : Z) : Prop := forall j, i <= j < i + n -> gbit g j = false.

(** All granules of a run are marked. *)
Definition run_marked (g : Z -> Z) (i n : Z) : Prop := forall j, i <= j < i + n -> gbit g j = true.

(** Granule [i] is the one at [a]. *)
Definition granule_at (p : gran_s) (a i : Z) : Prop :=
  0 <= i /\ Z.shiftr (u32 (a - heapstart p)) (log2gran p) = i.

(** ** Table positions *)

Lemma idx_bit i : 0 <= i -> Z.shiftr i 5 = i / 32 /\ Z.land i 31 = i mod 32.
Proof.
  intros. rewrite Z.shiftr_div_pow2 by lia. change 31 with (Z.ones 5). rewrite Z.land_ones by lia. done.
Qed.

Lemma pos_split w k : 0 <= k < 32 -> (k + w * 32) / 32 = w /\ (k + w * 32) mod 32 = k.
Proof. intros. rewrite Z.div_add, Z_mod_plus_full, Z.div_small, Z.mod_small by lia. lia. Qed.

Lemma gbit_at g w k : 0 <= k < 32 -> gbit g (k + w * 32) = Z.testbit (g w) k.
Proof. intros Hk. unfold gbit. by destruct (pos_split w k Hk) as [-> ->]. Qed.

(** A run within one word, and one that runs over into the next. *)
Lemma run_one g i n (P : bool) :
  0 <= i -> 1 <= n <= 32 - i mod 32 ->
  (forall j, i <= j < i + n -> gbit g j = P) <->
  (forall k, i mod 32 <= k < i mod 32 + n -> Z.testbit (g (i / 32)) k = P).
Proof.
  intros Hi Hn. pose proof (Z.div_mod i 32). pose proof (Z.mod_pos_bound i 32). split; intros H' x Hx.
  - rewrite <- gbit_at by lia. apply H'. lia.
  - replace x with (x - i / 32 * 32 + i / 32 * 32) by lia. rewrite gbit_at by lia. apply H'. lia.
Qed.

Lemma run_two g i n (P : bool) :
  0 <= i -> 32 - i mod 32 < n <= 32 ->
  (forall j, i <= j < i + n -> gbit g j = P) <->
  (forall k, i mod 32 <= k < 32 -> Z.testbit (g (i / 32)) k = P) /\
  (forall k, 0 <= k < n - (32 - i mod 32) -> Z.testbit (g (i / 32 + 1)) k = P).
Proof.
  intros Hi Hn. pose proof (Z.div_mod i 32). pose proof (Z.mod_pos_bound i 32). split.
  - intros H'. split; intros k Hk; rewrite <- gbit_at by lia; apply H'; lia.
  - intros [H1 H2] j Hj. destruct (Z.lt_ge_cases j ((i / 32 + 1) * 32)).
    + replace j with (j - i / 32 * 32 + i / 32 * 32) by lia. rewrite gbit_at by lia. apply H1. lia.
    + replace j with (j - (i / 32 + 1) * 32 + (i / 32 + 1) * 32) by lia. rewrite gbit_at by lia. apply H2. lia.
Qed.

(** Changing the bits of a run, one word or two. *)
Lemma gbit_set_one g i n v (f : bool -> bool -> bool) :
  0 <= i -> 1 <= n <= 32 - i mod 32 -> (forall b, f b false = b) ->
  (forall k, 0 <= k < 32 -> Z.testbit v k = f (Z.testbit (g (i / 32)) k) ((i mod 32 <=? k) && (k <? i mod 32 + n))) ->
  forall j, 0 <= j -> gbit (set_gat g (i / 32) v) j = f (gbit g j) (in_run i n j).
Proof.
  intros Hi Hn Hf Hv j Hj. unfold gbit, set_gat, in_run.
  pose proof (Z.div_mod i 32). pose proof (Z.mod_pos_bound i 32).
  pose proof (Z.div_mod j 32). pose proof (Z.mod_pos_bound j 32).
  destruct (Z.eqb_spec (j / 32) (i / 32)) as [E | E].
  - rewrite Hv, E by lia. f_equal.
    destruct (Z.leb_spec (i mod 32) (j mod 32)), (Z.ltb_spec (j mod 32) (i mod 32 + n)), (Z.leb_spec i j), (Z.ltb_spec j (i + n));
      lia || done.
  - assert (j / 32 < i / 32 \/ i / 32 < j / 32) by lia.
    destruct (Z.leb_spec i j), (Z.ltb_spec j (i + n)); try by rewrite Hf. nia.
Qed.

Lemma gbit_set_two g i n v1 v2 (f : bool -> bool -> bool) :
  0 <= i -> 32 - i mod 32 < n <= 32 -> (forall b, f b false = b) ->
  (forall k, 0 <= k < 32 -> Z.testbit v1 k = f (Z.testbit (g (i / 32)) k) ((i mod 32 <=? k) && (k <? 32))) ->
  (forall k, 0 <= k < 32 -> Z.testbit v2 k = f (Z.testbit (g (i / 32 + 1)) k) ((0 <=? k) && (k <? n - (32 - i mod 32)))) ->
  forall j, 0 <= j -> gbit (set_gat (set_gat g (i / 32) v1) (i / 32 + 1) v2) j = f (gbit g j) (in_run i n j).
Proof.
  intros Hi Hn Hf Hv1 Hv2 j Hj. unfold gbit, set_gat, in_run.
  pose proof (Z.div_mod i 32). pose proof (Z.mod_pos_bound i 32).
  pose proof (Z.div_mod j 32). pose proof (Z.mod_pos_bound j 32).
  destruct (Z.eqb_spec (j / 32) (i / 32 + 1)) as [E | E]; [|destruct (Z.eqb_spec (j / 32) (i / 32)) as [E' | E']].
  - rewrite Hv2, E by lia. f_equal.
    destruct (Z.leb_spec 0 (j mod 32)), (Z.ltb_spec (j mod 32) (n - (32 - i mod 32))), (Z.leb_spec i j), (Z.ltb_spec j (i + n));
      lia || done.
  - rewrite Hv1, E' by lia. f_equal.
    destruct (Z.leb_spec (i mod 32) (j mod 32)), (Z.ltb_spec (j mod 32) 32), (Z.leb_spec i j), (Z.ltb_spec j (i + n));
      lia || done.
  - assert (j / 32 < i / 32 \/ i / 32 + 1 < j / 32) by lia.
    destruct (Z.leb_spec i j), (Z.ltb_spec j (i + n)); try by rewrite Hf. nia.
Qed.

(** ** Marking and freeing *)

Lemma set_gat_ne g i v j : j <> i -> set_gat g i v j = g j.
Proof. intros. unfold set_gat. by destruct (Z.eqb_spec j i). Qed.

Lemma low_mask_spec n :
  1 <= n <= 32 -> exists mask, low_mask n = Some mask /\ 0 <= mask /\ is_range mask 0 n.
Proof.
  intros Hn. exists (Z.shiftr 4294967295 (32 - n)).
  split; [|split; [by apply Z.shiftr_nonneg|apply range_shiftr; lia]].
  unfold low_mask. destruct (Z.leb_spec 1 n), (Z.leb_spec n 32); lia || done.
Qed.

Lemma words_set g i v : words_ok g -> 0 <= v < 4294967296 -> words_ok (set_gat g i v).
Proof. intros Hg Hv j. unfold set_gat. by destruct (j =? i). Qed.

(** Words of a marked and of a cleared run. *)
Lemma word_lor g mask lo hi : 0 <= g < 4294967296 -> is_range mask lo hi -> hi <= 32 -> 0 <= mask -> 0 <= Z.lor g mask < 4294967296.
Proof.
  intros Hg Hm Hhi Hpos. apply word_bound; [apply Z.lor_nonneg; lia|]. intros k Hk.
  rewrite Z.lor_spec, Hm, word_high by (done || lia). destruct (Z.leb_spec lo k), (Z.ltb_spec k hi); lia || done.
Qed.

Lemma word_land g x : 0 <= g < 4294967296 -> 0 <= Z.land g x < 4294967296.
Proof.
  intros Hg. apply word_bound; [apply Z.land_nonneg; lia|]. intros k Hk. by rewrite Z.land_spec, word_high.
Qed.

Lemma clear_bits g mask lo hi k :
  is_range mask lo hi -> 0 <= k < 32 ->
  Z.testbit (Z.land g (u32 (Z.lnot mask))) k = Z.testbit g k && negb ((lo <=? k) && (k <? hi)).
Proof.
  intros Hm Hk. rewrite Z.land_spec, u32_bits, Z.lnot_spec, Hm by lia. destruct (Z.ltb_spec k 32); [done|lia].
Qed.

Lemma gran_mark_spec p alloc i n :
  words_ok (gat p) -> granule_at p alloc i -> 1 <= n <= 32 -> run_free (gat p) i n ->
  exists g', gran_mark_allocated p alloc n = Some (with_gat p g') /\ words_ok g' /\
    forall j, 0 <= j -> gbit g' j = gbit (gat p) j || in_run i n j.
Proof.
  intros Hw [Hi Hgr] Hn Hfree. unfold gran_mark_allocated. rewrite Hgr.
  destruct (idx_bit i Hi) as [-> ->]. pose proof (Z.mod_pos_bound i 32).
  destruct (Z.ltb_spec (32 - i mod 32) n) as [Htwo | Hone].
  - unfold run_free in Hfree. rewrite run_two in Hfree by lia. destruct Hfree as [Hf1 Hf2].
    pose proof (range_shiftl (i mod 32) ltac:(lia)) as Hm1.
    rewrite assert_true by (apply Z.eqb_eq, (range_clear _ _ _ _ Hm1); [lia|exact Hf1]). cbn [mbind option_bind].
    destruct (low_mask_spec (n - (32 - i mod 32))) as (mask & -> & Hpos & Hm2); [lia|]. cbn [mbind option_bind].
    rewrite set_gat_ne by lia.
    rewrite assert_true by (apply Z.eqb_eq, (range_clear _ _ _ _ Hm2); [lia|exact Hf2]). cbn [mbind option_bind].
    eexists. split; [done|]. split.
    + pose proof (u32_range (Z.shiftl all_ones (i mod 32))).
      apply words_set; [apply words_set; [done|]|]; eapply word_lor; try done; try lia; apply Hw.
    + apply (gbit_set_two _ _ _ _ _ orb); try lia; [by intros []|..]; intros k Hk.
      * by rewrite Z.lor_spec, (Hm1 k) by lia.
      * by rewrite Z.lor_spec, (Hm2 k) by lia.
  - unfold run_free in Hfree. rewrite run_one in Hfree by lia.
    destruct (low_mask_spec n) as (mask & -> & Hpos & Hm0); [lia|]. cbn [mbind option_bind].
    pose proof (range_shift_up mask n (i mod 32) Hm0 ltac:(lia) ltac:(lia)) as Hm.
    rewrite assert_true by (apply Z.eqb_eq, (range_clear _ _ _ _ Hm); [lia|exact Hfree]). cbn [mbind option_bind].
    eexists. split; [done|]. split.
    + pose proof (u32_range (Z.shiftl mask (i mod 32))).
      apply words_set; [done|]. eapply word_lor; try done; try lia; apply Hw.
    + apply (gbit_set_one _ _ _ _ orb); try lia; [by intros []|]. intros k Hk. by rewrite Z.lor_spec, (Hm k) by lia.
Qed.

(** The number of granules of a size, exactly. *)
Lemma gran_count_eq p size :
  0 <= log2gran p -> 0 <= size -> size + 2 ^ log2gran p <= 4294967296 ->
  gran_count p size = (size + 2 ^ log2gran p - 1) / 2 ^ log2gran p.
Proof.
  intros Hl Hs Hlim. assert (0 < 2 ^ log2gran p) by (apply Z.pow_pos_nonneg; lia).
  unfold gran_count. rewrite Z.shiftl_1_l, (u32_small (2 ^ log2gran p - 1)), u32_small, Z.shiftr_div_pow2 by lia.
  f_equal. lia.
Qed.

Lemma gran_free_spec p memory i size :
  words_ok (gat p) -> exclsem p = 1 -> memory <> 0 -> granule_at p memory i ->
  size <= u32 (32 * Z.shiftl 1 (log2gran p)) ->
  1 <= gran_count p size <= 32 -> run_marked (gat p) i (gran_count p size) ->
  exists g', gran_free p memory size = Some (with_gat p g') /\ words_ok g' /\
    forall j, 0 <= j -> gbit g' j = gbit (gat p) j && negb (in_run i (gran_count p size) j).
Proof.
  intros Hw Hsem Hm0 [Hi Hgr] Hsz Hn Hfull. unfold gran_free, gran_common_free.
  destruct (Z.eqb_spec memory 0) as [? | _]; [done|]. rewrite assert_true by (simpl; by apply Z.leb_le). cbn [mbind option_bind].
  unfold gran_enter_critical. rewrite Hsem. cbn [Z.ltb Z.compare mbind option_bind].
  change (gran_count (with_exclsem p (1 - 1)) size) with (gran_count p size).
  cbn [heapstart log2gran gat with_exclsem]. rewrite Hgr. set (n := gran_count p size) in *.
  destruct (idx_bit i Hi) as [-> ->]. pose proof (Z.mod_pos_bound i 32).
  assert (Hback : forall g, gran_leave_critical (with_gat (with_exclsem p (1 - 1)) g) = with_gat p g).
  { intros g. unfold gran_leave_critical, with_gat, with_exclsem. simpl. by rewrite Hsem. }
  destruct (Z.ltb_spec (32 - i mod 32) n) as [Htwo | Hone].
  - unfold run_marked in Hfull. rewrite run_two in Hfull by lia. destruct Hfull as [Hf1 Hf2].
    pose proof (range_shiftl (i mod 32) ltac:(lia)) as Hm1.
    rewrite assert_true by (apply Z.eqb_eq, (range_full _ _ _ _ Hm1); [lia|exact Hf1]). cbn [mbind option_bind].
    destruct (low_mask_spec (n - (32 - i mod 32))) as (mask & -> & Hpos & Hm2); [lia|]. cbn [mbind option_bind].
    rewrite set_gat_ne by lia.
    rewrite assert_true by (apply Z.eqb_eq, (range_full _ _ _ _ Hm2); [lia|exact Hf2]). cbn [mbind option_bind].
    rewrite Hback. eexists. split; [done|]. split.
    + apply words_set; [apply words_set; [done|]|]; apply word_land, Hw.
    + apply (gbit_set_two _ _ _ _ _ (fun a b => a && negb b)); try lia; [by intros []|..]; intros k Hk; by apply clear_bits.
  - unfold run_marked in Hfull. rewrite run_one in Hfull by lia.
    destruct (low_mask_spec n) as (mask & -> & Hpos & Hmn); [lia|]. cbn [mbind option_bind].
    pose proof (range_shift_up mask n (i mod 32) Hmn ltac:(lia) ltac:(lia)) as Hm.
    rewrite assert_true by (apply Z.eqb_eq, (range_full _ _ _ _ Hm); [lia|exact Hfull]). cbn [mbind option_bind].
    rewrite Hback. eexists. split; [done|]. split.
    + apply words_set; [done|]. apply word_land, Hw.
    + apply (gbit_set_one _ _ _ _ (fun a b => a && negb b)); try lia; [by intros []|]. intros k Hk. by apply clear_bits.
Qed.

(** ** Searching *)

(** [curr] and [next] are a 64-bit window over the first two words, shifted
    down by [b] granules. *)
Record window (g : Z -> Z) (b curr next : Z) : Prop := {
  win_curr : forall k, 0 <= k < 32 -> Z.testbit curr k = (b + k <? 64) && gbit g (b + k);
  win_next : forall k, 0 <= k -> Z.testbit next k = (b + 32 + k <? 64) && gbit g (b + 32 + k);
  win_high : forall k, 32 <= k -> Z.testbit curr k = false;
  win_pos : 0 <= curr /\ 0 <= next
}.

Lemma window_start g : words_ok g -> window g 0 (g 0) (g 1).
Proof.
  intros Hg. constructor.
  - intros k Hk. rewrite Z.add_0_l. destruct (Z.ltb_spec k 64); [|lia].
    pose proof (gbit_at g 0 k Hk) as Hb. rewrite Z.mul_0_l, Z.add_0_r in Hb. by rewrite Hb.
  - intros k Hk. destruct (Z.ltb_spec (0 + 32 + k) 64).
    + pose proof (gbit_at g 1 k ltac:(lia)) as Hb. replace (0 + 32 + k) with (k + 1 * 32) by lia. by rewrite Hb.
    + simpl. apply word_high; [apply Hg|lia].
  - intros k Hk. apply word_high; [apply Hg|lia].
  - split; apply Hg.
Qed.

Lemma window_shift g b curr next s :
  window g b curr next -> 1 <= s <= 32 ->
  window g (b + s) (Z.lor (Z.shiftr curr s) (u32 (Z.shiftl next (32 - s)))) (Z.shiftr next s).
Proof.
  intros [Hc Hn Hh [Hp1 Hp2]] Hs. constructor.
  - intros k Hk. rewrite Z.lor_spec, Z.shiftr_spec, u32_bits, Z.shiftl_spec by lia.
    destruct (Z.ltb_spec k 32); [|lia]. simpl. destruct (Z.lt_ge_cases (k + s) 32).
    + rewrite Hc, (Z.testbit_neg_r next) by lia. rewrite orb_false_r. by replace (b + s + k) with (b + (k + s)) by lia.
    + rewrite Hh, Hn by lia. simpl. by replace (b + 32 + (k - (32 - s))) with (b + s + k) by lia.
  - intros k Hk. rewrite Z.shiftr_spec, Hn by lia. by replace (b + 32 + (k + s)) with (b + s + 32 + k) by lia.
  - intros k Hk. rewrite Z.lor_spec, Z.shiftr_spec, Hh, u32_bits by lia. destruct (Z.ltb_spec k 32); [lia|done].
  - split; [|by apply Z.shiftr_nonneg]. apply Z.lor_nonneg. split; [by apply Z.shiftr_nonneg|apply u32_range].
Qed.

Lemma range_ones m : 0 <= m -> is_range (Z.ones m) 0 m.
Proof.
  intros Hm k Hk. destruct (Z.ltb_spec k m).
  - rewrite Z.ones_spec_low by lia. destruct (Z.leb_spec 0 k); [done|lia].
  - rewrite Z.ones_spec_high by lia. by rewrite andb_false_r.
Qed.

(** The granules the probe skips hold no start of a free run. *)
Definition probe_ok (g : Z -> Z) (b n : Z) (v : verdict) : Prop :=
  match v with
  | Full => forall j, b <= j < b + 32 -> ~ run_free g j n
  | Found => b + n <= 64 -> run_free g b n
  | Shift s => 1 <= s <= 16 /\ forall j, b <= j < b + s -> ~ run_free g j n
  end.

Lemma gran_probe_spec g b curr next mask n :
  window g b curr next -> is_range mask 0 n -> 1 <= n <= 32 -> probe_ok g b n (gran_probe curr mask).
Proof.
  intros [Hc _ Hh [Hp _]] Hm Hn.
  assert (Hset : forall k j, 0 <= k < 32 -> Z.testbit curr k = true -> j <= b + k < j + n -> ~ run_free g j n).
  { intros k j Hk Hb Hj Hf. rewrite Hc, Hf in Hb by lia. by rewrite andb_false_r in Hb. }
  assert (Hskip : forall m, 1 <= m <= 16 -> Z.land curr (Z.ones m) = Z.ones m -> probe_ok g b n (Shift m)).
  { intros m Hm2 Hland. split; [done|]. intros j Hj. apply (Hset (j - b)); [lia| |lia].
    apply (range_full curr (Z.ones m) 0 m); [apply range_ones; lia|lia|done|lia]. }
  unfold gran_probe.
  destruct (Z.eqb_spec curr 4294967295) as [-> | _].
  { intros j Hj. apply (Hset (j - b)); [lia| |lia]. rewrite ones32_bits by lia. by apply Z.ltb_lt; lia. }
  destruct (Z.eqb_spec (Z.land curr 65535) 65535) as [E | _]; [by apply (Hskip 16)|].
  destruct (Z.eqb_spec (Z.land curr 255) 255) as [E | _]; [by apply (Hskip 8)|].
  destruct (Z.eqb_spec (Z.land curr 15) 15) as [E | _]; [by apply (Hskip 4)|].
  destruct (Z.eqb_spec (Z.land curr 3) 3) as [E | _]; [by apply (Hskip 2)|].
  destruct (Z.eqb_spec (Z.land curr mask) 0) as [E | Hne].
  - intros Hlim j Hj. pose proof (proj1 (range_clear curr mask 0 n Hm ltac:(lia)) E (j - b) ltac:(lia)) as Hb.
    rewrite Hc in Hb by lia. replace (b + (j - b)) with j in Hb by lia.
    destruct (Z.ltb_spec j 64); [done|lia].
  - split; [lia|]. intros j Hj Hf. assert (j = b) as -> by lia. apply Hne.
    apply (range_clear curr mask 0 n Hm); [lia|]. intros k Hk. rewrite Hc by lia. rewrite Hf by lia.
    by rewrite andb_false_r.
Qed.

Section search.
Context (p : gran_s) (mask n : Z).
Hypothesis Hmask : is_range mask 0 n.
Hypothesis Hn : 1 <= n <= 32.
Hypothesis Hlg : 0 <= log2gran p.

(** The address of granule [b]. *)
Definition gran_addr (q : gran_s) (b : Z) : Z := u32 (heapstart q + Z.shiftl b (log2gran q)).

Lemma gran_addr_shift b s :
  u32 (gran_addr p b + Z.shiftl s (log2gran p)) = gran_addr p (b + s).
Proof.
  unfold gran_addr, u32. rewrite Z.add_mod_idemp_l by lia. rewrite !Z.shiftl_mul_pow2 by lia. f_equal. lia.
Qed.

(** The lowest run of free granules that starts in the first word is found. *)
Lemma gran_scan_found fuel b curr next i :
  window (gat p) b curr next -> 0 <= b <= i -> i <= 31 -> i + n <= ngranules p ->
  run_free (gat p) i n -> (forall j, b <= j < i -> ~ run_free (gat p) j n) ->
  (Z.to_nat (i - b) < fuel)%nat ->
  gran_scan fuel p mask n 0 b (gran_addr p b) curr next = Some (inl (gran_addr p i)).
Proof.
  revert b curr next. induction fuel as [|fuel IH]; intros b curr next Hw Hb Hi Hlim Hfree Hleast Hfuel; [lia|].
  simpl. destruct (Z.ltb_spec b 32); [|lia]. destruct (Z.leb_spec (0 + b + n) (ngranules p)); [|lia]. simpl.
  pose proof (gran_probe_spec _ _ _ _ _ _ Hw Hmask Hn) as Hprobe.
  destruct (gran_probe curr mask) as [| |s]; simpl in Hprobe.
  - destruct (Hprobe i); [lia|done].
  - assert (b = i) as ->; [|done]. destruct (decide (b = i)) as [? | ?]; [done|].
    destruct (Hleast b); [lia|]. apply Hprobe. lia.
  - destruct Hprobe as [Hs Hskip].
    assert (b + s <= i). { destruct (decide (b + s <= i)); [done|]. destruct (Hskip i); [lia|done]. }
    rewrite gran_addr_shift. apply IH; try done; try lia.
    + apply window_shift; [done|lia].
    + intros j Hj. apply Hleast. lia.
Qed.

Lemma gran_scan_none fuel b curr next alloc :
  window (gat p) b curr next -> 0 <= b ->
  (forall j, b <= j <= 31 -> j + n <= ngranules p -> ~ run_free (gat p) j n) ->
  (Z.to_nat (32 - b) < fuel)%nat ->
  exists alloc', gran_scan fuel p mask n 0 b alloc curr next = Some (inr alloc').
Proof.
  revert b curr next alloc. induction fuel as [|fuel IH]; intros b curr next alloc Hw Hb Hnone Hfuel; [lia|].
  simpl. destruct (Z.ltb_spec b 32), (Z.leb_spec (0 + b + n) (ngranules p)); simpl; try by eexists.
  pose proof (gran_probe_spec _ _ _ _ _ _ Hw Hmask Hn) as Hprobe.
  destruct (gran_probe curr mask) as [| |s]; simpl in Hprobe.
  - by eexists.
  - destruct (Hnone b); [lia..|]. apply Hprobe. lia.
  - destruct Hprobe as [Hs Hskip]. apply IH; try lia.
    + apply window_shift; [done|lia].
    + intros j Hj. apply Hnone. lia.
Qed.

End search.

(** ** The interface *)

(** A granule heap between operations. *)
Record gran_ok (p : gran_s) : Prop := {
  go_words : words_ok (gat p);
  go_sem : exclsem p = 1;
  go_gran : 1 <= log2gran p <= 20;
  go_start : 0 < heapstart p;
  go_size : 0 <= ngranules p;
  go_end : heapstart p + ngranules p * 2 ^ log2gran p <= 4294967296
}.

Lemma gran_unit p : gran_ok p -> 2 <= 2 ^ log2gran p <= 1048576.
Proof.
  intros [_ _ Hl _ _ _]. change 2 with (2 ^ 1) at 1. change 1048576 with (2 ^ 20).
  split; apply Z.pow_le_mono_r; lia.
Qed.

Lemma gran_limit p : gran_ok p -> u32 (32 * Z.shiftl 1 (log2gran p)) = 32 * 2 ^ log2gran p.
Proof. intros Hp. pose proof (gran_unit p Hp). rewrite Z.shiftl_1_l. apply u32_small. lia. Qed.

Lemma gran_count_bounds p size :
  gran_ok p -> 1 <= size <= 32 * 2 ^ log2gran p -> 1 <= gran_count p size <= 32.
Proof.
  intros Hp Hs. pose proof (gran_unit p Hp) as Hu. pose proof (go_gran p Hp).
  rewrite gran_count_eq by lia. set (u := 2 ^ log2gran p) in *. split.
  - apply Z.div_le_lower_bound; lia.
  - apply Z.lt_succ_r, Z.div_lt_upper_bound; lia.
Qed.

Lemma gran_addr_small p i :
  gran_ok p -> 0 <= i < ngranules p ->
  gran_addr p i = heapstart p + i * 2 ^ log2gran p /\ granule_at p (gran_addr p i) i.
Proof.
  intros Hp Hi. pose proof (gran_unit p Hp) as Hu. pose proof (go_gran p Hp). pose proof (go_end p Hp). pose proof (go_start p Hp).
  assert (Hx : i * 2 ^ log2gran p <= (ngranules p - 1) * 2 ^ log2gran p) by (apply Z.mul_le_mono_nonneg_r; lia).
  assert (Ha : gran_addr p i = heapstart p + i * 2 ^ log2gran p).
  { unfold gran_addr. rewrite Z.shiftl_mul_pow2 by lia. apply u32_small. nia. }
  split; [done|]. split; [lia|]. rewrite Ha.
  replace (heapstart p + i * 2 ^ log2gran p - heapstart p) with (i * 2 ^ log2gran p) by lia.
  rewrite u32_small, Z.shiftr_div_pow2, Z.div_mul by nia. done.
Qed.

(** [i] is the lowest granule at which a run of [n] free ones starts. *)
Definition first_fit (p : gran_s) (n i : Z) : Prop :=
  0 <= i /\ i + n <= ngranules p /\ run_free (gat p) i n /\ forall j, 0 <= j < i -> ~ run_free (gat p) j n.

Lemma gran_alloc_unfold p size :
  gran_ok p -> 1 <= size <= 32 * 2 ^ log2gran p ->
  exists mask, is_range mask 0 (gran_count p size) /\
    gran_alloc p size =
    let q := with_exclsem p 0 in
    found ← gran_search (search_fuel q) q mask (gran_count p size) 0 (heapstart p);
    match found with
    | Some alloc => q ← gran_mark_allocated q alloc (gran_count p size); Some (alloc, gran_leave_critical q)
    | None => Some (0, p)
    end.
Proof.
  intros Hp Hs. pose proof (gran_count_bounds p size Hp Hs) as Hc.
  destruct (low_mask_spec (gran_count p size) Hc) as (mask & Hlow & _ & Hm). exists mask. split; [done|].
  unfold gran_alloc, gran_common_alloc. rewrite assert_true by (apply Z.leb_le; rewrite gran_limit by done; lia).
  cbn [mbind option_bind]. destruct (Z.ltb_spec 0 size); [|lia].
  unfold gran_enter_critical. rewrite (go_sem p Hp). cbn [Z.ltb Z.compare mbind option_bind].
  change (gran_count (with_exclsem p (1 - 1)) size) with (gran_count p size).
  rewrite assert_true by (apply Z.leb_le; lia). cbn [mbind option_bind]. rewrite Hlow. cbn [mbind option_bind].
  replace (gran_leave_critical (with_exclsem p (1 - 1))) with p; [done|].
  pose proof (go_sem p Hp). destruct p; simpl in *. by subst.
Qed.

Lemma gran_alloc_fit p size i :
  gran_ok p -> 1 <= size <= 32 * 2 ^ log2gran p -> first_fit p (gran_count p size) i -> i <= 31 ->
  exists g', gran_alloc p size = Some (heapstart p + i * 2 ^ log2gran p, with_gat p g') /\ words_ok g' /\
    forall j, 0 <= j -> gbit g' j = gbit (gat p) j || in_run i (gran_count p size) j.
Proof.
  intros Hp Hs (Hi & Hlim & Hfree & Hleast) Hi31. pose proof (gran_count_bounds p size Hp Hs) as Hc.
  destruct (gran_alloc_unfold p size Hp Hs) as (mask & Hm & ->). cbn zeta.
  set (n := gran_count p size) in *. set (q := with_exclsem p 0).
  destruct (gran_addr_small p i Hp ltac:(lia)) as [Ha Hat].
  assert (Hne : gat p 0 <> 4294967295).
  { intros E. pose proof (Hfree i ltac:(lia)) as Hb. pose proof (gbit_at (gat p) 0 i ltac:(lia)) as Hb'.
    rewrite Z.mul_0_l, Z.add_0_r, Hb, E, ones32_bits in Hb' by lia. destruct (Z.ltb_spec i 32); [done|lia]. }
  assert (Hsearch : gran_search (search_fuel q) q mask n 0 (heapstart p) = Some (Some (gran_addr p i))).
  { unfold search_fuel. pose proof (Z.div_pos (ngranules p) 32 (go_size p Hp)).
    destruct (Z.to_nat (ngranules q / 32 + 2)) as [|fuel] eqn:Ef; [simpl in Ef; lia|].
    cbn [gran_search]. change (ngranules q) with (ngranules p). change (gat q) with (gat p).
    destruct (Z.ltb_spec 0 (ngranules p)); [|lia]. change (Z.shiftr 0 5) with 0.
    destruct (Z.eqb_spec (gat p 0) 4294967295); [done|].
    replace (heapstart p) with (gran_addr q 0)
      by (unfold gran_addr; simpl; rewrite Z.shiftl_0_l, Z.add_0_r; apply u32_small; pose proof (go_start p Hp); pose proof (go_end p Hp); nia).
    rewrite (gran_scan_found q mask n Hm Hc) with (i := i); [done|pose proof (go_gran p Hp); simpl; lia|..]; try done; try lia.
    by apply window_start, go_words. }
  rewrite Hsearch. cbn [mbind option_bind].
  destruct (gran_mark_spec q (gran_addr p i) i n) as (g' & Hmark & Hw & Hbits); try done; [apply Hp|].
  rewrite Hmark. cbn [mbind option_bind]. exists g'. split; [|done]. rewrite Ha.
  do 3 f_equal. unfold gran_leave_critical, with_exclsem, with_gat. simpl. by rewrite (go_sem p Hp).
Qed.

Lemma gran_alloc_null p size :
  gran_ok p -> 1 <= size <= 32 * 2 ^ log2gran p -> ngranules p <= 32 ->
  (forall j, 0 <= j -> j + gran_count p size <= ngranules p -> ~ run_free (gat p) j (gran_count p size)) ->
  gran_alloc p size = Some (0, p).
Proof.
  intros Hp Hs Hsz Hnone. pose proof (gran_count_bounds p size Hp Hs) as Hc.
  destruct (gran_alloc_unfold p size Hp Hs) as (mask & Hm & ->). cbn zeta.
  set (n := gran_count p size) in *. set (q := with_exclsem p 0).
  assert (Hsearch : gran_search (search_fuel q) q mask n 0 (heapstart p) = Some None); [|by rewrite Hsearch].
  assert (Hstop : forall fuel a, gran_search (S fuel) q mask n 32 a = Some None).
  { intros fuel a. cbn [gran_search]. change (ngranules q) with (ngranules p).
    by destruct (Z.ltb_spec 32 (ngranules p)); [lia|]. }
  unfold search_fuel. pose proof (Z.div_pos (ngranules p) 32 (go_size p Hp)).
  destruct (Z.to_nat (ngranules q / 32 + 2)) as [|[|fuel]] eqn:Ef; [simpl in Ef; lia..|].
  remember (S fuel) as fuel' eqn:Ef'. cbn [gran_search].
  destruct (Z.ltb_spec 0 (ngranules q)); [|done]. rewrite Ef'. change (0 + 32) with 32.
  destruct (Z.eqb_spec (gat q (Z.shiftr 0 5)) 4294967295); [apply Hstop|].
  destruct (gran_scan_none q mask n Hm Hc) with (fuel := 33%nat) (b := 0) (curr := gat q 0) (next := gat q 1) (alloc := heapstart p)
    as [a Hscan].
  - apply window_start, Hp.
  - lia.
  - intros j Hj. apply Hnone. lia.
  - lia.
  - change (Z.shiftr 0 5) with 0. change (0 + 1) with 1. rewrite Hscan. cbn [mbind option_bind]. apply Hstop.
Qed.

(** ** Theorems *)

Definition demo_gran : gran_s := mk_gran 6 30 1 4096 (fun i => if i =? 0 then 5 else 0).

Lemma demo_gran_ok : gran_ok demo_gran.
Proof.
  constructor; simpl; try lia. intros i. unfold demo_gran. simpl. destruct (i =? 0); lia.
Qed.

(** [gran_alloc] returns the lowest run of free granules that starts in
    the first 32 granules and marks exactly that run; on a heap of at most 32
    granules it returns null, changing nothing, exactly when there is none. *)
Theorem gran_alloc_first_fit p size :
  gran_ok p -> 1 <= size <= 32 * 2 ^ log2gran p ->
  let n := gran_count p size in
  (forall i, first_fit p n i -> i <= 31 ->
     exists g', gran_alloc p size = Some (heapstart p + i * 2 ^ log2gran p, with_gat p g') /\ words_ok g' /\
       forall j, 0 <= j -> gbit g' j = gbit (gat p) j || in_run i n j) /\
  (ngranules p <= 32 -> (forall j, 0 <= j -> j + n <= ngranules p -> ~ run_free (gat p) j n) ->
     gran_alloc p size = Some (0, p)).
Proof.
  intros Hp Hs n. split; [intros i; by apply gran_alloc_fit|by apply gran_alloc_null].
Qed.

Lemma gran_alloc_first_fit_witness :
  exists g', gran_alloc demo_gran 100 = Some (4288, with_gat demo_gran g').
Proof.
  destruct (gran_alloc_first_fit demo_gran 100 demo_gran_ok) as [Hfit _].
  - split; vm_compute; discriminate.
  - destruct (Hfit 3) as (g' & Hrun & _).
    + split; [lia|]. split; [vm_compute; discriminate|]. split.
      * intros j Hj. change (3 + gran_count demo_gran 100) with 5 in Hj.
        assert (j = 3 \/ j = 4) as [-> | ->] by lia; reflexivity.
      * intros j Hj Hf. change (gran_count demo_gran 100) with 2 in Hf.
        assert (j = 0 \/ j = 1 \/ j = 2) as [-> | [-> | ->]] by lia.
        -- specialize (Hf 0 ltac:(lia)). discriminate Hf.
        -- specialize (Hf 2 ltac:(lia)). discriminate Hf.
        -- specialize (Hf 2 ltac:(lia)). discriminate Hf.
    + lia.
    + exists g'. exact Hrun.
Defined.

(** freeing what [gran_alloc] returned restores every bit of the table. *)
Theorem gran_free_undoes_alloc p size i :
  gran_ok p -> 1 <= size <= 32 * 2 ^ log2gran p -> first_fit p (gran_count p size) i -> i <= 31 ->
  exists a p1 p2, gran_alloc p size = Some (a, p1) /\ gran_free p1 a size = Some p2 /\
    (forall j, 0 <= j -> gbit (gat p2) j = gbit (gat p) j) /\
    log2gran p2 = log2gran p /\ ngranules p2 = ngranules p /\ exclsem p2 = exclsem p /\ heapstart p2 = heapstart p.
Proof.
  intros Hp Hs Hfit Hi. destruct (gran_alloc_fit p size i Hp Hs Hfit Hi) as (g1 & Hrun & Hw1 & Hb1).
  pose proof Hfit as (Hi0 & Hlim & Hfree & _). pose proof (gran_count_bounds p size Hp Hs).
  destruct (gran_addr_small p i Hp ltac:(lia)) as [Ha Hat].
  destruct (gran_free_spec (with_gat p g1) (heapstart p + i * 2 ^ log2gran p) i size) as (g2 & Hrun2 & _ & Hb2).
  - done.
  - apply Hp.
  - pose proof (go_start p Hp). pose proof (gran_unit p Hp). nia.
  - rewrite <- Ha. exact Hat.
  - simpl. rewrite gran_limit by done. lia.
  - done.
  - intros j Hj. simpl. rewrite Hb1 by lia. unfold in_run. change (gran_count (with_gat p g1) size) with (gran_count p size) in Hj.
    destruct (Z.leb_spec i j), (Z.ltb_spec j (i + gran_count p size)); lia.
  - eexists _, _, _. split; [exact Hrun|]. split; [exact Hrun2|]. split; [|done].
    intros j Hj. simpl. rewrite Hb2 by done. simpl. rewrite Hb1 by done.
    change (gran_count (with_gat p g1) size) with (gran_count p size).
    destruct (in_run i (gran_count p size) j) eqn:E; simpl; [|by rewrite orb_false_r, andb_true_r].
    rewrite andb_false_r. symmetry. apply Hfree. unfold in_run in E. lia.
Qed.

Lemma gran_free_undoes_alloc_witness :
  exists a p1 p2, gran_alloc demo_gran 64 = Some (a, p1) /\ gran_free p1 a 64 = Some p2.
Proof.
  destruct (gran_free_undoes_alloc demo_gran 64 1 demo_gran_ok) as (a & p1 & p2 & H1 & H2 & _).
  - split; vm_compute; discriminate.
  - split; [lia|]. split; [vm_compute; discriminate|]. split.
    + intros j Hj. change (1 + gran_count demo_gran 64) with 2 in Hj. assert (j = 1) as -> by lia. reflexivity.
    + intros j Hj Hf. assert (j = 0) as -> by lia.
      change (gran_count demo_gran 64) with 1 in Hf. specialize (Hf 0 ltac:(lia)). discriminate Hf.
  - lia.
  - exists a, p1, p2. split; assumption.
Defined.

(** ** Clients of a granule heap *)

(** A client allocates a number of bytes or frees one of its live blocks,
    which it keeps with their sizes. *)
Inductive gran_op := Alloc (size : Z) | Free (k : nat).

Definition gran_exec (p : gran_s) (live : list (Z * Z)) (op : gran_op) : option (gran_s * list (Z * Z)) :=
  match op with
  | Alloc size => '(a, p) ← gran_alloc p size; Some (p, if a =? 0 then live else (a, size) :: live)
  | Free k => match live !! k with Some (a, size) => p ← gran_free p a size; Some (p, delete k live) | None => Some (p, live) end
  end.

Fixpoint gran_run (p : gran_s) (live : list (Z * Z)) (ops : list gran_op) : option (gran_s * list (Z * Z)) :=
  match ops with
  | [] => Some (p, live)
  | op :: ops => '(p, live) ← gran_exec p live op; gran_run p live ops
  end.

Definition op_ok (lgran : Z) (op : gran_op) : Prop := match op with Alloc size => 0 <= size <= 32 * 2 ^ lgran | Free _ => True end.

(** Granule [j] belongs to the block. *)
Definition holds (p : gran_s) (j : Z) (b : Z * Z) : bool := in_run ((b.1 - heapstart p) / 2 ^ log2gran p) (gran_count p b.2) j.

(** How many live blocks granule [j] belongs to. *)
Definition holders (p : gran_s) (live : list (Z * Z)) (j : Z) : nat := sum_list (map (fun b => Nat.b2n (holds p j b)) live).

(** A block is a run of whole granules of the heap. *)
Definition block_ok (p : gran_s) (b : Z * Z) : Prop :=
  1 <= b.2 <= 32 * 2 ^ log2gran p /\ exists i, b.1 = heapstart p + i * 2 ^ log2gran p /\ 0 <= i /\ i + gran_count p b.2 <= ngranules p.

(** A granule is marked if it belongs to a live block, and it belongs to one
    at most. *)
Record client_ok (p : gran_s) (live : list (Z * Z)) : Prop := {
  co_heap : gran_ok p;
  co_small : ngranules p <= 32;
  co_blocks b : b ∈ live -> block_ok p b;
  co_table j : 0 <= j < ngranules p -> Nat.b2n (gbit (gat p) j) = holders p live j
}.

(** The heap is the same but for its table. *)
Definition same_heap (p q : gran_s) : Prop := log2gran q = log2gran p /\ ngranules q = ngranules p /\ heapstart q = heapstart p.

#[local] Instance run_free_dec g i n : Decision (run_free g i n).
Proof.
  refine (cast_if (decide (Forall (fun j => gbit g j = false) (seqZ i n)))); rewrite Forall_forall in *.
  - intros j Hj. apply f. by apply elem_of_seqZ.
  - intros Hf. apply n0. intros j Hj%elem_of_seqZ. by apply Hf.
Defined.

(** There is a lowest run, or none. *)
Lemma first_fit_or_none p n : (exists i, first_fit p n i) \/ forall j, 0 <= j -> j + n <= ngranules p -> ~ run_free (gat p) j n.
Proof.
  assert (Hm : forall m : nat, (exists i, 0 <= i < Z.of_nat m /\ run_free (gat p) i n /\ forall j, 0 <= j < i -> ~ run_free (gat p) j n) \/
                               forall j, 0 <= j < Z.of_nat m -> ~ run_free (gat p) j n).
  { induction m as [|m [(i & Hi & Hf)|IH]]; [right; lia|left; exists i; split; [lia|done]|].
    destruct (decide (run_free (gat p) (Z.of_nat m) n)) as [Hf|Hf]; [left; exists (Z.of_nat m); split; [lia|done]|].
    right. intros j Hj. destruct (decide (j = Z.of_nat m)) as [->|]; [done|]. apply IH. lia. }
  destruct (Hm (Z.to_nat (ngranules p - n + 1))) as [(i & Hi & Hf & Hl)|Hno]; [left; exists i; split_and!; (lia || done)|].
  right. intros j Hj Hlim. apply Hno. lia.
Qed.

Lemma holders_split p l1 b l2 j : holders p (l1 ++ b :: l2) j = (Nat.b2n (holds p j b) + holders p (l1 ++ l2) j)%nat.
Proof. unfold holders. rewrite !map_app. simpl. rewrite !sum_list_with_app || rewrite !sum_list_app. simpl. lia. Qed.

Lemma holds_block p i size j : 0 < 2 ^ log2gran p -> holds p j (heapstart p + i * 2 ^ log2gran p, size) = in_run i (gran_count p size) j.
Proof. intros Hu. unfold holds. simpl. replace (heapstart p + i * 2 ^ log2gran p - heapstart p) with (i * 2 ^ log2gran p) by lia. by rewrite Z.div_mul by lia. Qed.

(** A new table keeps the heap as it is. *)
Lemma gran_ok_gat p g : gran_ok p -> words_ok g -> gran_ok (with_gat p g).
Proof. intros [] Hw. by constructor. Qed.

(** What the next allocation does: null only if no run of granules without
    live blocks is long enough. *)
Lemma client_alloc p live size :
  client_ok p live -> 1 <= size <= 32 * 2 ^ log2gran p ->
  (gran_alloc p size = Some (0, p) /\ forall j, 0 <= j -> j + gran_count p size <= ngranules p -> ~ run_free (gat p) j (gran_count p size)) \/
  exists i g, gran_alloc p size = Some (heapstart p + i * 2 ^ log2gran p, with_gat p g) /\ first_fit p (gran_count p size) i /\
    client_ok (with_gat p g) ((heapstart p + i * 2 ^ log2gran p, size) :: live).
Proof.
  intros [Hp Hs Hb Ht] Hsz. pose proof (gran_count_bounds p size Hp Hsz) as Hc. pose proof (gran_unit p Hp) as Hu.
  destruct (first_fit_or_none p (gran_count p size)) as [[i Hfit]|Hno]; [right|left; split; [by apply gran_alloc_null|done]].
  pose proof Hfit as (Hi & Hlim & Hfree & _). destruct (gran_alloc_fit p size i Hp Hsz Hfit ltac:(lia)) as (g & Hrun & Hw & Hbits).
  exists i, g. split; [done|]. split; [done|]. constructor; [by apply gran_ok_gat|done| |].
  - intros b [->|Hin]%elem_of_cons; [|by apply Hb]. split; [done|]. by exists i.
  - intros j Hj. change (?x = holders _ (?b :: _) j) with (x = holders (with_gat p g) ([] ++ b :: live) j). rewrite holders_split. change (holds (with_gat p g) j) with (holds p j). rewrite holds_block by lia.
    change (holders (with_gat p g) ([] ++ live) j) with (holders p live j). rewrite <- Ht by exact Hj. simpl. rewrite Hbits by lia.
    unfold in_run. destruct (Z.leb_spec i j), (Z.ltb_spec j (i + gran_count p size)); simpl; rewrite ?orb_false_r; try done. by rewrite Hfree.
Qed.

(** A live block can be freed. *)
Lemma client_free p live k a size :
  client_ok p live -> live !! k = Some (a, size) ->
  exists g, gran_free p a size = Some (with_gat p g) /\ client_ok (with_gat p g) (delete k live).
Proof.
  intros [Hp Hs Hb Ht] Hk. pose proof (gran_unit p Hp) as Hu. destruct (Hb (a, size)) as (Hsz & i & Ha & Hi & Hlim); [by eapply list_elem_of_lookup_2|].
  simpl in Hsz, Ha, Hlim. subst a. pose proof (gran_count_bounds p size Hp Hsz) as Hc. destruct (gran_addr_small p i Hp ltac:(lia)) as [Hadr Hat].
  apply take_drop_middle in Hk as Hl. set (l1 := take k live) in *. set (l2 := drop (S k) live) in *. rewrite <- Hl in Ht.
  assert (Ht' : forall j, 0 <= j < ngranules p -> Nat.b2n (gbit (gat p) j) = (Nat.b2n (in_run i (gran_count p size) j) + holders p (l1 ++ l2) j)%nat).
  { intros j Hj. rewrite Ht, holders_split, holds_block by lia. done. }
  destruct (gran_free_spec p (heapstart p + i * 2 ^ log2gran p) i size) as (g & Hrun & Hw & Hbits); try apply Hp; try done.
  - pose proof (go_start p Hp). nia.
  - by rewrite <- Hadr.
  - rewrite gran_limit by done. lia.
  - intros j Hj. specialize (Ht' j ltac:(lia)). unfold in_run in Ht'. destruct (Z.leb_spec i j), (Z.ltb_spec j (i + gran_count p size)); try lia.
    destruct (gbit (gat p) j); [done|]. simpl in Ht'. lia.
  - exists g. split; [done|]. rewrite delete_take_drop. fold l1 l2. constructor; [by apply gran_ok_gat|done| |].
    + intros b Hin. apply Hb. rewrite <- Hl. apply elem_of_app in Hin as [?|?]; apply elem_of_app; [by left|right; by right].
    + intros j Hj. change (holders (with_gat p g)) with (holders p). specialize (Ht' j Hj). simpl. rewrite Hbits by lia.
      destruct (gbit (gat p) j), (in_run i (gran_count p size) j); simpl in *; lia.
Qed.

Lemma gran_exec_ok p live op :
  client_ok p live -> op_ok (log2gran p) op -> exists p' live', gran_exec p live op = Some (p', live') /\ client_ok p' live' /\ same_heap p p'.
Proof.
  intros Hc Hop. destruct op as [size|k]; simpl.
  - simpl in Hop. destruct (decide (size = 0)) as [->|Hne].
    { exists p, live. unfold gran_alloc, gran_common_alloc. rewrite assert_true by (apply Z.leb_le; rewrite gran_limit by apply Hc; lia). done. }
    destruct (client_alloc p live size Hc ltac:(lia)) as [[-> _]|(i & g & -> & (Hi & _) & Hc')]; cbn [mbind option_bind]; [by exists p, live|].
    exists (with_gat p g), ((heapstart p + i * 2 ^ log2gran p, size) :: live). split; [|done].
    pose proof (go_start p (co_heap _ _ Hc)). pose proof (gran_unit p (co_heap _ _ Hc)). destruct (Z.eqb_spec (heapstart p + i * 2 ^ log2gran p) 0); [nia|done].
  - destruct (live !! k) as [[a size]|] eqn:E; [|by exists p, live]. destruct (client_free p live k a size Hc E) as (g & -> & Hc'). by eexists _, _.
Qed.

Lemma gran_run_ok ops p live :
  client_ok p live -> Forall (op_ok (log2gran p)) ops -> exists p' live', gran_run p live ops = Some (p', live') /\ client_ok p' live' /\ same_heap p p'.
Proof.
  revert p live. induction ops as [|op ops IH]; intros p live Hc Hops; [by exists p, live|]. apply Forall_cons in Hops as [Hop Hops].
  destruct (gran_exec_ok p live op Hc Hop) as (p1 & live1 & E1 & Hc1 & S1 & S2 & S3). rewrite <- S1 in Hops.
  destruct (IH p1 live1 Hc1 Hops) as (p2 & live2 & E2 & Hc2 & S4 & S5 & S6). exists p2, live2. simpl. rewrite E1. cbn [mbind option_bind].
  split; [done|]. split; [done|]. split_and!; congruence.
Qed.

(** A block has the granules that its bytes need. *)
Lemma gran_count_covers p size : gran_ok p -> 1 <= size <= 32 * 2 ^ log2gran p -> size <= gran_count p size * 2 ^ log2gran p.
Proof.
  intros Hp Hs. pose proof (gran_unit p Hp). pose proof (go_gran p Hp). rewrite gran_count_eq by lia. set (u := 2 ^ log2gran p) in *.
  pose proof (Z.div_mod (size + u - 1) u ltac:(lia)). pose proof (Z.mod_pos_bound (size + u - 1) u ltac:(lia)). lia.
Qed.

(** Of a run that is not free a granule belongs to one live block. *)
Lemma no_run_held p live i n :
  client_ok p live -> 0 <= i -> i + n <= ngranules p -> ~ run_free (gat p) i n -> exists j, i <= j < i + n /\ holders p live j = 1%nat.
Proof.
  intros Hc Hi Hlim Hno. destruct (decide (Exists (fun j => gbit (gat p) j = true) (seqZ i n))) as [He|Hne].
  - apply Exists_exists in He as (j & Hj%elem_of_seqZ & Hb). exists j. split; [lia|]. rewrite <- (co_table _ _ Hc) by lia. by rewrite Hb.
  - destruct Hno. intros j Hj. apply not_true_is_false. intros Hb. apply Hne, Exists_exists. exists j. split; [apply elem_of_seqZ; lia|done].
Qed.

(** [gran_initialize] of at most 32 granules; the granules of a new table are
    free, and what follows the table is not known. *)
Lemma gran_initialize_ok g start size lgran lalign :
  words_ok g -> g 0 = 0 -> 0 < start -> start + size < 4294967296 -> 1 <= lgran <= 20 -> 0 <= lalign <= lgran -> 2 ^ lalign <= size -> size < 33 * 2 ^ lgran ->
  exists p, gran_initialize (Some g) start size lgran lalign = Some (Some p) /\ client_ok p [] /\ log2gran p = lgran /\
    start <= heapstart p < start + 2 ^ lalign /\ heapstart p + ngranules p * 2 ^ lgran <= start + size < heapstart p + (ngranules p + 1) * 2 ^ lgran.
Proof.
  intros Hw H0 Hst Hend Hl Hal Hsz Hmax. assert (Hu : 2 ^ lgran <= 2 ^ 20) by (apply Z.pow_le_mono_r; lia). assert (Hla : 2 ^ lalign <= 2 ^ lgran) by (apply Z.pow_le_mono_r; lia).
  change (2 ^ 20) with 1048576 in Hu. assert (Hpos : 0 < 2 ^ lalign) by (apply Z.pow_pos_nonneg; lia).
  unfold gran_initialize, gran_common_initialize.
  rewrite assert_true by (rewrite !andb_true_iff, negb_true_iff, Z.eqb_neq, !Z.ltb_lt, Z.leb_le; lia). cbn [mbind option_bind].
  rewrite !Z.shiftl_1_l, (u32_small (2 ^ lalign - 1)), (u32_small (2 ^ lgran - 1)), (u32_small (start + (2 ^ lalign - 1))), (u32_small (start + size)) by lia.
  rewrite (land_lnot_mask (start + _)) by lia. set (v := 2 ^ lalign) in *. set (u := 2 ^ lgran) in *. set (h := start + (v - 1) - (start + (v - 1)) mod v).
  pose proof (Z.mod_pos_bound (start + (v - 1)) v Hpos) as Hmod. assert (Hh : start <= h < start + v) by (unfold h; lia).
  rewrite (u32_small (start + size - h)) by lia. unfold u. rewrite land_lnot_mask by lia. fold u. rewrite Z.shiftr_div_pow2 by lia. fold u.
  set (d := start + size - h). assert (Hd : d - d mod u = d / u * u) by (rewrite (Z.div_mod d u) at 1 by lia; lia). rewrite Hd, Z.div_mul by lia.
  pose proof (Z.mod_pos_bound d u ltac:(lia)) as Hdm. assert (Hn : 0 <= d / u <= 32).
  { split; [apply Z.div_pos; lia|]. apply Z.lt_succ_r, Z.div_lt_upper_bound; lia. }
  unfold u8, u16. rewrite (Z.mod_small lgran), (Z.mod_small (d / u)) by lia. eexists. split; [done|]. simpl. fold u. split; [|split; [done|lia]].
  constructor; [constructor; simpl; fold u; (lia || done)|simpl; lia|intros b Hb; by apply not_elem_of_nil in Hb|].
  intros j Hj. simpl in *. unfold gbit. rewrite Z.div_small, H0, Z.testbit_0_l by lia. done.
Qed.

(** Blocks that share no granule share no byte. *)
Lemma blocks_apart p live k1 k2 a1 s1 a2 s2 :
  client_ok p live -> live !! k1 = Some (a1, s1) -> live !! k2 = Some (a2, s2) -> (k1 < k2)%nat -> a1 + s1 <= a2 \/ a2 + s2 <= a1.
Proof.
  intros [Hp Hs Hb Ht] H1 H2 Hlt. pose proof (gran_unit p Hp) as Hu.
  destruct (Hb (a1, s1)) as (Hs1 & i1 & E1 & Hi1 & Hl1); [by eapply list_elem_of_lookup_2|]. destruct (Hb (a2, s2)) as (Hs2 & i2 & E2 & Hi2 & Hl2); [by eapply list_elem_of_lookup_2|].
  simpl in *. subst a1 a2. pose proof (gran_count_covers p s1 Hp Hs1) as C1. pose proof (gran_count_covers p s2 Hp Hs2) as C2.
  pose proof (gran_count_bounds p s1 Hp Hs1). pose proof (gran_count_bounds p s2 Hp Hs2).
  destruct (decide (i1 + gran_count p s1 <= i2)); [left; nia|]. destruct (decide (i2 + gran_count p s2 <= i1)); [right; nia|]. exfalso.
  specialize (Ht (Z.max i1 i2) ltac:(lia)). apply take_drop_middle in H1 as Hl. rewrite <- Hl, holders_split, holds_block in Ht by lia.
  assert (Hk : (take k1 live ++ drop (S k1) live) !! pred k2 = Some (heapstart p + i2 * 2 ^ log2gran p, s2)).
  { apply lookup_lt_Some in H1 as Hlen. rewrite lookup_app_r by (rewrite length_take; lia). rewrite length_take, lookup_drop. rewrite <- H2. f_equal. lia. }
  apply take_drop_middle in Hk. rewrite <- Hk, holders_split, holds_block in Ht by lia. unfold in_run in Ht.
  destruct (Z.leb_spec i1 (Z.max i1 i2)), (Z.ltb_spec (Z.max i1 i2) (i1 + gran_count p s1)), (Z.leb_spec i2 (Z.max i1 i2)), (Z.ltb_spec (Z.max i1 i2) (i2 + gran_count p s2)); try lia.
  destruct (gbit (gat p) (Z.max i1 i2)); simpl in Ht; lia.
Qed.

(** C40: clients of a granule heap are safe.  Let [gran_initialize] make a
    heap of at most 32 granules of a region of memory (its table is one word;
    on larger heaps [gran_alloc] is wrong, see [gran_alloc_wrong_word]).  Then
    any sequence of allocations, of at most 32 granules each as the interface
    demands, and of calls of [gran_free] for live blocks, with the sizes they
    were allocated with, runs to its end without a failed assertion.  After it,
    and so at every time, the live blocks lie in the region and no two share a byte.  The next
    allocation of [n] granules returns null only if at no place [n] granules in
    a row belong to no live block, and then changes nothing. *)
Theorem gran_client_safety g start size lgran lalign ops :
  words_ok g -> g 0 = 0 -> 0 < start -> start + size < 4294967296 -> 1 <= lgran <= 20 -> 0 <= lalign <= lgran -> 2 ^ lalign <= size -> size < 33 * 2 ^ lgran ->
  Forall (op_ok lgran) ops ->
  exists p0 p live, gran_initialize (Some g) start size lgran lalign = Some (Some p0) /\ gran_run p0 [] ops = Some (p, live) /\
    (forall a s, (a, s) ∈ live -> start <= a /\ a + s <= start + size) /\
    (forall k1 k2 a1 s1 a2 s2, live !! k1 = Some (a1, s1) -> live !! k2 = Some (a2, s2) -> (k1 < k2)%nat -> a1 + s1 <= a2 \/ a2 + s2 <= a1) /\
    (forall s, 1 <= s <= 32 * 2 ^ lgran ->
       let n := gran_count p s in
       exists a q, gran_alloc p s = Some (a, q) /\
         (a = 0 -> q = p /\ forall i, 0 <= i -> i + n <= ngranules p -> exists j, i <= j < i + n /\ holders p live j = 1%nat)).
Proof.
  intros Hw H0 Hst Hend Hl Hal Hsz Hmax Hops. destruct (gran_initialize_ok g start size lgran lalign) as (p0 & Hinit & Hc0 & El & Hh & Hn); try done.
  subst lgran. destruct (gran_run_ok ops p0 [] Hc0 Hops) as (p & live & Hrun & Hc & S1 & S2 & S3). exists p0, p, live.
  split; [done|]. split; [done|]. rewrite <- S1, <- S2, <- S3 in *. pose proof (gran_unit p (co_heap _ _ Hc)) as Hu. split_and!.
  - intros a s Hin. destruct (co_blocks _ _ Hc _ Hin) as (Hs & i & Ha & Hi & Hlim). simpl in *. pose proof (gran_count_covers p s (co_heap _ _ Hc) Hs). nia.
  - intros k1 k2 a1 s1 a2 s2. by apply blocks_apart with p.
  - intros s Hs n. destruct (client_alloc p live s Hc Hs) as [[Hrun' Hno]|(i & q & Hrun' & (Hi & _) & _)]; eexists _, _; (split; [exact Hrun'|]).
    + intros _. split; [done|]. intros i Hi Hlim. apply (no_run_held p live i n Hc Hi Hlim). by apply Hno.
    + intros E. pose proof (go_start p (co_heap _ _ Hc)). nia.
Qed.

(** Two granules, one granule, the first two free again, and four granules. *)
Lemma gran_client_safety_witness :
  exists p0 p live, gran_initialize (Some (fun _ => 0)) 4100 1000 6 4 = Some (Some p0) /\
    gran_run p0 [] [Alloc 100; Alloc 64; Free 1; Alloc 200] = Some (p, live) /\ live = [(4304, 200); (4240, 64)] /\
    exists a q, gran_alloc p 640 = Some (a, q) /\ (a = 0 -> q = p).
Proof.
  destruct (gran_client_safety (fun _ => 0) 4100 1000 6 4 [Alloc 100; Alloc 64; Free 1; Alloc 200]) as (p0 & p & live & H1 & H2 & _ & _ & H3).
  - intros i. lia.
  - reflexivity.
  - lia.
  - lia.
  - lia.
  - lia.
  - lia.
  - lia.
  - repeat apply Forall_cons_2; try apply Forall_nil_2; simpl; lia.
  - exists p0, p, live. split; [exact H1|]. split; [exact H2|]. split.
    + assert (E : (r ← gran_initialize (Some (fun _ => 0)) 4100 1000 6 4; p ← r; option_map snd (gran_run p [] [Alloc 100; Alloc 64; Free 1; Alloc 200])) = Some [(4304, 200); (4240, 64)])
        by (vm_compute; reflexivity).
      rewrite H1 in E. cbn [mbind option_bind] in E. rewrite H2 in E. by injection E.
    + destruct (H3 640 ltac:(lia)) as (a & q & Ha & Hq). exists a, q. split; [exact Ha|]. intros E. by apply Hq.
Defined.

(** A heap of 100 granules in which the first word is full but for granule 0
    and granules 33 and on are free. *)
Definition demo_two_words : gran_s :=
  mk_gran 6 100 1 4096 (fun i => if i =? 0 then 4294967294 else if i =? 1 then 1 else 0).

(** on a heap of more than one table word the search address is not
    reset between words: with granules 33 and on free, [gran_alloc] of two
    granules arrives at them with the address of granule 2, which is in use,
    and fails the assertion of [gran_mark_allocated]. *)
Theorem gran_alloc_wrong_word :
  run_free (gat demo_two_words) 33 2 /\ gbit (gat demo_two_words) 2 = true /\
  (exists mask, low_mask 2 = Some mask /\
     gran_search (search_fuel demo_two_words) demo_two_words mask 2 0 4096 = Some (Some (4096 + 2 * 64))) /\
  gran_alloc demo_two_words 128 = None.
Proof.
  split_and!.
  - intros j Hj. assert (j = 33 \/ j = 34) as [-> | ->] by lia; reflexivity.
  - reflexivity.
  - exists 3. split; vm_compute; reflexivity.
  - vm_compute. reflexivity.
Qed.

(** [gran_reserve] of [k] whole granules marks one granule more: the end
    of the range is rounded up and then counted as part of it. *)
Theorem gran_reserve_one_too_many p i k :
  gran_ok p -> (2 ^ log2gran p | heapstart p) -> 0 <= i -> 1 <= k <= 31 -> i + k < ngranules p ->
  run_free (gat p) i (k + 1) ->
  exists g', gran_reserve p (heapstart p + i * 2 ^ log2gran p) (k * 2 ^ log2gran p) = Some (with_gat p g') /\
    forall j, 0 <= j -> gbit g' j = gbit (gat p) j || in_run i (k + 1) j.
Proof.
  intros Hp [a Ha] Hi Hk Hlim Hfree. pose proof (gran_unit p Hp) as Hu. pose proof (go_gran p Hp).
  pose proof (go_start p Hp). pose proof (go_end p Hp). destruct (gran_addr_small p i Hp ltac:(lia)) as [Haddr Hat].
  set (u := 2 ^ log2gran p) in *. assert (Hx : (i + k) * u <= (ngranules p - 1) * u) by (apply Z.mul_le_mono_nonneg_r; lia).
  assert (0 <= i * u /\ u <= k * u) as [? ?] by nia.
  unfold gran_reserve, gran_common_reserve. destruct (Z.ltb_spec 0 (k * u)); [|lia].
  rewrite Z.shiftl_1_l. fold u. rewrite (u32_small (u - 1)), (u32_small (heapstart p + i * u + k * u - 1)) by lia.
  rewrite (u32_small (_ + (u - 1))) by lia. subst u. rewrite !land_lnot_mask by lia. set (u := 2 ^ log2gran p) in *.
  assert (E1 : (heapstart p + i * u) mod u = 0).
  { rewrite Ha. replace (a * u + i * u) with ((a + i) * u) by lia. apply Z.mod_mul. lia. }
  assert (E2 : (heapstart p + i * u + k * u - 1 + (u - 1)) mod u = u - 2).
  { rewrite Ha. replace (a * u + i * u + k * u - 1 + (u - 1)) with (u - 2 + (a + i + k) * u) by lia.
    rewrite Z_mod_plus_full. apply Z.mod_small. lia. }
  rewrite E1, E2, Z.sub_0_r.
  replace (heapstart p + i * u + k * u - 1 + (u - 1) - (u - 2) - (heapstart p + i * u)) with (k * u) by lia.
  rewrite u32_small by lia. subst u. rewrite Z.shiftr_div_pow2 by lia. rewrite Z.div_mul by lia.
  destruct (gran_mark_spec p (heapstart p + i * 2 ^ log2gran p) i (k + 1)) as (g' & Hrun & _ & Hb);
    [apply Hp|by rewrite <- Haddr|lia|done|]. by exists g'.
Qed.

Lemma gran_reserve_one_too_many_witness :
  exists g', gran_reserve demo_gran 4288 64 = Some (with_gat demo_gran g') /\ gbit g' 4 = true.
Proof.
  destruct (gran_reserve_one_too_many demo_gran 3 1 demo_gran_ok) as (g' & Hrun & Hb).
  - exists 64. reflexivity.
  - lia.
  - lia.
  - vm_compute. reflexivity.
  - intros j Hj. assert (j = 3 \/ j = 4) as [-> | ->] by lia; reflexivity.
  - exists g'. split; [exact Hrun|]. rewrite Hb by lia. reflexivity.
Defined.
