(* ===== verification/Queue.v ===== *)
(** * Linked queues of the C library (lib/libc/queue)

    Singly linked queues ([sq_*]) and doubly linked queues ([dq_*]) over
    entries named by their addresses, at the level of the link fields.
    [None] is the dereference of a null pointer. *)

From stdpp Require Import base tactics numbers list.
From S2P Require Import Prelude.

(** ** Data *)

(** The link fields of all entries ([struct dq_entry_s]; a singly linked
    entry, [struct sq_entry_s], has the first one only). *)
Record links := mk_links { flink : Z -> Z; blink : Z -> Z }.

(** A queue header ([struct sq_queue_s], [struct dq_queue_s]). *)
Record queue := mk_queue { head : Z; tail : Z }.

Definition empty_queue : queue := mk_queue 0 0.

(** One field of all entries, updated at one address. *)
Definition upd {A} (f : Z -> A) (p : Z) (v : A) : Z -> A := fun q => if q =? p then v else f q.

(** [p->flink], [p->flink = v] and the like. *)
Definition get_flink (L : links) (p : Z) : option Z := if p =? 0 then None else Some (flink L p).
Definition get_blink (L : links) (p : Z) : option Z := if p =? 0 then None else Some (blink L p).
Definition set_flink (L : links) (p v : Z) : option links :=
  if p =? 0 then None else Some (mk_links (upd (flink L) p v) (blink L)).
Definition set_blink (L : links) (p v : Z) : option links :=
  if p =? 0 then None else Some (mk_links (flink L) (upd (blink L) p v)).

(** ** Singly linked queues *)

Definition sq_addfirst (L : links) (node : Z) (q : queue) : option (links * queue) :=
  L ← set_flink L node (head q);
  Some (L, mk_queue node (if head q =? 0 then node else tail q)).

Definition sq_addlast (L : links) (node : Z) (q : queue) : option (links * queue) :=
  L ← set_flink L node 0;
  if head q =? 0 then Some (L, mk_queue node node)
  else L ← set_flink L (tail q) node; Some (L, mk_queue (head q) node).

Definition sq_addafter (L : links) (prev node : Z) (q : queue) : option (links * queue) :=
  if (head q =? 0) || (prev =? tail q) then sq_addlast L node q
  else
    next ← get_flink L prev;
    L ← set_flink L node next;
    L ← set_flink L prev node;
    Some (L, q).

Definition sq_remfirst (L : links) (q : queue) : option (Z * (links * queue)) :=
  let ret := head q in
  if ret =? 0 then Some (ret, (L, q))
  else
    next ← get_flink L ret;
    let q := mk_queue next (if next =? 0 then 0 else tail q) in
    L ← set_flink L ret 0;
    Some (ret, (L, q)).

(** The loop [for (prev = queue->head; prev && prev->flink != node; prev = prev->flink)]. *)
Fixpoint sq_prev (fuel : nat) (L : links) (prev node : Z) : option Z :=
  match fuel with
  | O => None
  | S fuel => if (prev =? 0) || (flink L prev =? node) then Some prev else sq_prev fuel L (flink L prev) node
  end.

Definition sq_remafter (L : links) (node : Z) (q : queue) : option (Z * (links * queue)) :=
  ret ← get_flink L node;
  if (head q =? 0) || (ret =? 0) then Some (ret, (L, q))
  else
    '(L, q) ←
      (if tail q =? ret then
         L ← set_flink L node 0; Some (L, mk_queue (head q) node)
       else
         next ← get_flink L ret; L ← set_flink L node next; Some (L, q));
    L ← set_flink L ret 0;
    Some (ret, (L, q)).

Definition sq_rem (fuel : nat) (L : links) (node : Z) (q : queue) : option (links * queue) :=
  if (head q =? 0) || (node =? 0) then Some (L, q)
  else if node =? head q then
    next ← get_flink L node;
    Some (L, mk_queue next (if node =? tail q then 0 else tail q))
  else
    prev ← sq_prev fuel L (head q) node;
    if prev =? 0 then Some (L, q)
    else r ← sq_remafter L prev q; Some (snd r).

Definition sq_remlast (fuel : nat) (L : links) (q : queue) : option (Z * (links * queue)) :=
  let ret := tail q in
  if ret =? 0 then Some (ret, (L, q))
  else
    '(L, q) ←
      (if head q =? tail q then Some (L, empty_queue)
       else
         prev ← sq_prev fuel L (head q) ret;
         if prev =? 0 then Some (L, q)
         else L ← set_flink L prev 0; Some (L, mk_queue (head q) prev));
    L ← set_flink L ret 0;
    Some (ret, (L, q)).

(** ** Doubly linked queues *)

Definition dq_addfirst (L : links) (node : Z) (q : queue) : option (links * queue) :=
  L ← set_blink L node 0;
  L ← set_flink L node (head q);
  if head q =? 0 then Some (L, mk_queue node node)
  else L ← set_blink L (head q) node; Some (L, mk_queue node (tail q)).

Definition dq_addlast (L : links) (node : Z) (q : queue) : option (links * queue) :=
  L ← set_flink L node 0;
  L ← set_blink L node (tail q);
  if head q =? 0 then Some (L, mk_queue node node)
  else L ← set_flink L (tail q) node; Some (L, mk_queue (head q) node).

Definition dq_addafter (L : links) (prev node : Z) (q : queue) : option (links * queue) :=
  if (head q =? 0) || (prev =? tail q) then dq_addlast L node q
  else
    next ← get_flink L prev;
    L ← set_blink L node prev;
    L ← set_flink L node next;
    L ← set_blink L next node;
    L ← set_flink L prev node;
    Some (L, q).

Definition dq_addbefore (L : links) (next node : Z) (q : queue) : option (links * queue) :=
  if (head q =? 0) || (next =? head q) then dq_addfirst L node q
  else
    prev ← get_blink L next;
    L ← set_flink L node next;
    L ← set_blink L node prev;
    L ← set_flink L prev node;
    L ← set_blink L next node;
    Some (L, q).

Definition dq_rem (L : links) (node : Z) (q : queue) : option (links * queue) :=
  prev ← get_blink L node;
  next ← get_flink L node;
  '(L, q) ←
    (if prev =? 0 then Some (L, mk_queue next (tail q))
     else L ← set_flink L prev next; Some (L, q));
  '(L, q) ←
    (if next =? 0 then Some (L, mk_queue (head q) prev)
     else L ← set_blink L next prev; Some (L, q));
  L ← set_flink L node 0;
  L ← set_blink L node 0;
  Some (L, q).

Definition dq_remfirst (L : links) (q : queue) : option (Z * (links * queue)) :=
  let ret := head q in
  if ret =? 0 then Some (ret, (L, q))
  else
    next ← get_flink L ret;
    '(L, q) ←
      (if next =? 0 then Some (L, empty_queue)
       else L ← set_blink L next 0; Some (L, mk_queue next (tail q)));
    L ← set_flink L ret 0;
    L ← set_blink L ret 0;
    Some (ret, (L, q)).

Definition dq_remlast (L : links) (q : queue) : option (Z * (links * queue)) :=
  let ret := tail q in
  if ret =? 0 then Some (ret, (L, q))
  else
    prev ← get_blink L ret;
    '(L, q) ←
      (if prev =? 0 then Some (L, empty_queue)
       else L ← set_flink L prev 0; Some (L, mk_queue (head q) prev));
    L ← set_flink L ret 0;
    L ← set_blink L ret 0;
    Some (ret, (L, q)).
