(* ===== verification/QueueProps.v ===== *)
(** * Queues: the link fields represent a list

    [sq_rep] and [dq_rep] say that a queue header and the link fields hold a
    list of addresses; every operation of [Queue] is the list operation it is
    named for, dereferences no null pointer and touches no other entry. *)

From stdpp Require Import base tactics numbers sets list.
From S2P Require Import Prelude Queue.

(** ** Segments *)

Definition hd_or (l : list Z) (e : Z) : Z := match l with [] => e | x :: _ => x end.
Definition last_or (l : list Z) (e : Z) : Z := hd_or (reverse l) e.

(** Following [f] from the first entry of [l] visits [l] and then [e]. *)
Fixpoint seg (f : Z -> Z) (l : list Z) (e : Z) : Prop :=
  match l with
  | [] => True
  | x :: l => f x = hd_or l e /\ seg f l e
  end.

Lemma hd_or_app l1 l2 e : hd_or (l1 ++ l2) e = hd_or l1 (hd_or l2 e).
Proof. by destruct l1. Qed.

Lemma seg_app f l1 l2 e : seg f (l1 ++ l2) e <-> seg f l1 (hd_or l2 e) /\ seg f l2 e.
Proof. induction l1 as [|x l1 IH]; simpl; [tauto|]. rewrite IH, hd_or_app. tauto. Qed.

Lemma seg_ext f g l e : (forall x, x ∈ l -> g x = f x) -> seg f l e -> seg g l e.
Proof.
  induction l as [|x l IH]; simpl; intros H; [done|]. intros [Hx Hl]. split.
  - rewrite H by set_solver. done.
  - apply IH; [set_solver|done].
Qed.

Lemma seg_upd f l e p v : p ∉ l -> seg f l e -> seg (upd f p v) l e.
Proof.
  intros Hp. apply seg_ext. intros x Hx. unfold upd. destruct (Z.eqb_spec x p); [set_solver|done].
Qed.

Lemma upd_eq {A} (f : Z -> A) p v : upd f p v p = v.
Proof. unfold upd. by rewrite Z.eqb_refl. Qed.

Lemma upd_ne {A} (f : Z -> A) p v x : x <> p -> upd f p v x = f x.
Proof. unfold upd. by destruct (Z.eqb_spec x p). Qed.

(** ** Representation *)

Record sq_rep (L : links) (q : queue) (l : list Z) : Prop := {
  sq_nodup : NoDup l;
  sq_null : 0 ∉ l;
  sq_head : head q = hd_or l 0;
  sq_tail : tail q = last_or l 0;
  sq_next : seg (flink L) l 0
}.

Record dq_rep (L : links) (q : queue) (l : list Z) : Prop := {
  dq_nodup : NoDup l;
  dq_null : 0 ∉ l;
  dq_head : head q = hd_or l 0;
  dq_tail : tail q = last_or l 0;
  dq_next : seg (flink L) l 0;
  dq_prev : seg (blink L) (reverse l) 0
}.

(** Entries outside [X] have the same links in both. *)
Definition same_links (X : list Z) (L L' : links) : Prop :=
  forall x, x ∉ X -> flink L' x = flink L x /\ blink L' x = blink L x.

Lemma sq_rep_frame X L L' q l : same_links X L L' -> (forall x, x ∈ l -> x ∉ X) -> sq_rep L q l -> sq_rep L' q l.
Proof.
  intros HL Hx [? ? ? ? H]. constructor; try done. revert H. apply seg_ext. intros x Hin. apply HL. by apply Hx.
Qed.

Lemma dq_rep_frame X L L' q l : same_links X L L' -> (forall x, x ∈ l -> x ∉ X) -> dq_rep L q l -> dq_rep L' q l.
Proof.
  intros HL Hx [? ? ? ? Hn Hp]. constructor; try done.
  - revert Hn. apply seg_ext. intros x Hin. apply HL. by apply Hx.
  - revert Hp. apply seg_ext. intros x Hin. apply HL, Hx. by rewrite elem_of_reverse in Hin.
Qed.

Lemma dq_rep_empty L : dq_rep L empty_queue [].
Proof. constructor; try done; [constructor|set_solver]. Qed.

Lemma sq_rep_empty L : sq_rep L empty_queue [].
Proof. constructor; try done; [constructor|set_solver]. Qed.

(** ** Automation *)

Lemma NoDup_remove' (l1 : list Z) x l2 : NoDup (l1 ++ x :: l2) -> NoDup (l1 ++ l2) /\ x ∉ l1 ++ l2.
Proof. rewrite <- Permutation_middle, NoDup_cons. tauto. Qed.

(** Splits what is known about membership into facts about single entries. *)
Ltac qmem :=
  repeat match goal with
  | H : context [(_ ++ _) ++ _] |- _ => rewrite <- app_assoc in H; simpl in H
  | H : NoDup (_ ++ _ :: _) |- _ => apply NoDup_remove' in H as [? ?]
  | H : NoDup (_ :: _) |- _ => apply NoDup_cons in H as [? ?]
  | H : NoDup (_ ++ _ ++ _) |- _ => apply NoDup_app in H as (_ & _ & ?)
  | H : _ ∉ _ ++ _ |- _ => apply not_elem_of_app in H as [? ?]
  | H : _ ∉ _ :: _ |- _ => apply not_elem_of_cons in H as [? ?]
  | H : _ ∈ _ ++ _ |- _ => apply elem_of_app in H as [?|?]
  | H : _ ∈ _ :: _ |- _ => apply elem_of_cons in H as [?|?]
  | H : _ ∈ [] |- _ => by apply elem_of_nil in H
  end.

(** Contradictions between membership facts. *)
Ltac qside := qmem; subst; first [contradiction | congruence].

Lemma set_flink_ok L p v : p <> 0 -> set_flink L p v = Some (mk_links (upd (flink L) p v) (blink L)).
Proof. intros. unfold set_flink. by destruct (Z.eqb_spec p 0). Qed.

Lemma set_blink_ok L p v : p <> 0 -> set_blink L p v = Some (mk_links (flink L) (upd (blink L) p v)).
Proof. intros. unfold set_blink. by destruct (Z.eqb_spec p 0). Qed.

Lemma get_flink_ok L p : p <> 0 -> get_flink L p = Some (flink L p).
Proof. intros. unfold get_flink. by destruct (Z.eqb_spec p 0). Qed.

Lemma get_blink_ok L p : p <> 0 -> get_blink L p = Some (blink L p).
Proof. intros. unfold get_blink. by destruct (Z.eqb_spec p 0). Qed.

(** Runs the link accesses of an operation at addresses known not to be null. *)
Ltac qrun :=
  repeat first
    [ rewrite set_flink_ok by done | rewrite set_blink_ok by done
    | rewrite get_flink_ok by done | rewrite get_blink_ok by done
    | progress cbn [mbind option_bind flink blink head tail fst snd] ].

(** ** Inserting and removing an entry *)

(** [g] is [f], but for the last entry of [l], which leads to [e]. *)
Lemma seg_redirect f g l e0 e :
  NoDup l -> seg f l e0 -> (forall y, y ∈ l -> y <> last_or l 0 -> g y = f y) -> (l <> [] -> g (last_or l 0) = e) ->
  seg g l e.
Proof.
  destruct l as [|p l' _] using rev_ind; [done|]. unfold last_or. rewrite reverse_app. simpl.
  intros Hnd Hs Hsame Hlast. apply NoDup_app in Hnd as (? & Hp & _).
  apply seg_app in Hs as [Hs _]. apply seg_app. split; [|split; [|done]].
  - revert Hs. apply seg_ext. intros y Hy. apply Hsame; set_solver.
  - apply Hlast. by destruct l'.
Qed.

Lemma last_or_app l1 l2 e : last_or (l1 ++ l2) e = last_or l2 (last_or l1 e).
Proof. unfold last_or. by rewrite reverse_app, hd_or_app. Qed.

Lemma last_or_reverse l e : last_or (reverse l) e = hd_or l e.
Proof. unfold last_or. by rewrite reverse_involutive. Qed.

Lemma hd_or_in l e : hd_or l e = e \/ hd_or l e ∈ l.
Proof. destruct l; simpl; [by left|right; set_solver]. Qed.

Lemma last_or_in l e : last_or l e = e \/ last_or l e ∈ l.
Proof. unfold last_or. destruct (hd_or_in (reverse l) e) as [?|H]; [by left|right]. by apply elem_of_reverse. Qed.

(** One direction of the insertion of [x] between [l1] and [l2]. *)
Lemma seg_insert f g l1 x l2 :
  NoDup (l1 ++ l2) -> 0 ∉ l1 ++ l2 -> seg f (l1 ++ l2) 0 -> x ∉ l1 ++ l2 ->
  g x = hd_or l2 0 -> (l1 <> [] -> g (last_or l1 0) = x) ->
  (forall y, y ∈ l1 ++ l2 -> y <> last_or l1 0 -> g y = f y) ->
  seg g (l1 ++ x :: l2) 0.
Proof.
  intros Hnd H0 Hs Hx Hgx Hlast Hsame. apply NoDup_app in Hnd as (? & Hd & ?).
  apply seg_app in Hs as [Hs1 Hs2]. apply seg_app. split; [|split; [done|]].
  - apply (seg_redirect f g l1 (hd_or l2 0)); [done..| |done]. intros y Hy. apply Hsame. set_solver.
  - revert Hs2. apply seg_ext. intros y Hy. apply Hsame; [set_solver|].
    destruct (last_or_in l1 0) as [-> | ?]; set_solver.
Qed.

Lemma seg_remove f g l1 x l2 :
  NoDup (l1 ++ x :: l2) -> 0 ∉ l1 ++ x :: l2 -> seg f (l1 ++ x :: l2) 0 ->
  (l1 <> [] -> g (last_or l1 0) = hd_or l2 0) ->
  (forall y, y ∈ l1 ++ l2 -> y <> last_or l1 0 -> g y = f y) ->
  seg g (l1 ++ l2) 0.
Proof.
  intros Hnd H0 Hs Hlast Hsame. apply NoDup_app in Hnd as (? & Hd & ?).
  apply seg_app in Hs as [Hs1 [_ Hs2]]. apply seg_app. split.
  - apply (seg_redirect f g l1 x); [done..| |done]. intros y Hy. apply Hsame. set_solver.
  - revert Hs2. apply seg_ext. intros y Hy. apply Hsame; [set_solver|].
    destruct (last_or_in l1 0) as [-> | ?]; set_solver.
Qed.

Lemma NoDup_rev' {A} (l : list A) : NoDup l -> NoDup (reverse l).
Proof. by rewrite reverse_Permutation. Qed.

Lemma NoDup_insert (l1 : list Z) x l2 : NoDup (l1 ++ l2) -> x ∉ l1 ++ l2 -> NoDup (l1 ++ x :: l2).
Proof. intros Hnd Hx. rewrite <- Permutation_middle. by constructor. Qed.

Lemma reverse_middle (l1 : list Z) x l2 : reverse (l1 ++ x :: l2) = reverse l2 ++ x :: reverse l1.
Proof. by rewrite reverse_app, reverse_cons, <- app_assoc. Qed.

Lemma dq_insert_rep L q L' q' l1 x l2 :
  dq_rep L q (l1 ++ l2) -> x ∉ l1 ++ l2 -> x <> 0 ->
  head q' = hd_or l1 x -> tail q' = last_or l2 x ->
  flink L' x = hd_or l2 0 -> blink L' x = last_or l1 0 ->
  (l1 <> [] -> flink L' (last_or l1 0) = x) -> (l2 <> [] -> blink L' (hd_or l2 0) = x) ->
  (forall y, y ∈ l1 ++ l2 -> y <> last_or l1 0 -> flink L' y = flink L y) ->
  (forall y, y ∈ l1 ++ l2 -> y <> hd_or l2 0 -> blink L' y = blink L y) ->
  dq_rep L' q' (l1 ++ x :: l2).
Proof.
  intros [Hnd H0 _ _ Hn Hp] Hx Hx0 Hh Ht Hfx Hbx Hfl Hbl Hf Hb. constructor.
  - by apply NoDup_insert.
  - set_solver.
  - by rewrite hd_or_app.
  - rewrite last_or_app. unfold last_or at 1. rewrite reverse_cons, hd_or_app. done.
  - apply (seg_insert (flink L)); try done.
  - rewrite reverse_middle. rewrite reverse_app in Hp.
    apply (seg_insert (blink L)); try done.
    + rewrite <- reverse_app. by apply NoDup_rev'.
    + rewrite <- reverse_app. by rewrite elem_of_reverse.
    + rewrite <- reverse_app. by rewrite elem_of_reverse.
    + rewrite last_or_reverse. intros Hne. apply Hbl. intros ->. by apply Hne.
    + intros y Hy. rewrite last_or_reverse. apply Hb.
      rewrite <- reverse_app, elem_of_reverse in Hy. done.
Qed.

Lemma dq_remove_rep L q L' q' l1 x l2 :
  dq_rep L q (l1 ++ x :: l2) ->
  head q' = hd_or (l1 ++ l2) 0 -> tail q' = last_or (l1 ++ l2) 0 ->
  (l1 <> [] -> flink L' (last_or l1 0) = hd_or l2 0) -> (l2 <> [] -> blink L' (hd_or l2 0) = last_or l1 0) ->
  (forall y, y ∈ l1 ++ l2 -> y <> last_or l1 0 -> flink L' y = flink L y) ->
  (forall y, y ∈ l1 ++ l2 -> y <> hd_or l2 0 -> blink L' y = blink L y) ->
  dq_rep L' q' (l1 ++ l2).
Proof.
  intros [Hnd H0 _ _ Hn Hp] Hh Ht Hfl Hbl Hf Hb. constructor; try done.
  - exact (proj1 (NoDup_remove' _ _ _ Hnd)).
  - set_solver.
  - by apply (seg_remove (flink L) _ _ x).
  - rewrite reverse_app. rewrite reverse_middle in Hp.
    apply (seg_remove (blink L) _ _ x); try done.
    + rewrite <- reverse_middle. by apply NoDup_rev'.
    + rewrite <- reverse_middle. by rewrite elem_of_reverse.
    + rewrite last_or_reverse. intros Hne. apply Hbl. intros ->. by apply Hne.
    + intros y Hy. rewrite last_or_reverse. apply Hb.
      rewrite <- reverse_app, elem_of_reverse in Hy. done.
Qed.

(** ** Doubly linked queues *)

Lemma last_or_snoc l p e : last_or (l ++ [p]) e = p.
Proof. by rewrite last_or_app. Qed.

Lemma last_or_cons x l e : last_or (x :: l) e = last_or l x.
Proof. apply (last_or_app [x]). Qed.

(** Pointwise obligations on updated link fields. *)
Ltac qpoint :=
  intros; simpl in *; unfold upd in *;
  repeat match goal with |- context [?a =? ?b] => destruct (Z.eqb_spec a b) end;
  first [reflexivity | assumption | congruence | exfalso; qside].

(** The queue header of a list that is, or is not, empty. *)
Lemma dq_head_case L q l : dq_rep L q l -> head q = 0 <-> l = [].
Proof. intros [_ H0 -> _ _ _]. destruct l; simpl; [done|]. split; [|done]. intros ->. set_solver. Qed.

Lemma dq_tail_case L q l : dq_rep L q l -> tail q = 0 <-> l = [].
Proof.
  intros [_ H0 _ -> _ _]. destruct l as [|p l _] using rev_ind; [done|]. rewrite last_or_snoc.
  split; [intros ->; set_solver|by destruct l].
Qed.

Lemma dq_addfirst_spec L q l x :
  dq_rep L q l -> x ∉ l -> x <> 0 ->
  exists L' q', dq_addfirst L x q = Some (L', q') /\ dq_rep L' q' (x :: l) /\ same_links (x :: l) L L'.
Proof.
  intros Hr Hx H0. pose proof Hr as [Hnd Hnull Hh Ht _ _]. unfold dq_addfirst. qrun. rewrite Hh.
  destruct l as [|n l]; simpl.
  - eexists _, _. split; [done|]. split; [|intros y Hy; split; qpoint].
    apply (dq_insert_rep L q _ _ [] x []); qpoint.
  - destruct (Z.eqb_spec n 0); [set_solver|]. qrun. eexists _, _. split; [done|]. split; [|intros y Hy; split; qpoint].
    rewrite last_or_cons in Ht. apply (dq_insert_rep L q _ _ [] x (n :: l)); try done; [simpl; by rewrite last_or_cons|qpoint..].
Qed.

Lemma dq_addlast_spec L q l x :
  dq_rep L q l -> x ∉ l -> x <> 0 ->
  exists L' q', dq_addlast L x q = Some (L', q') /\ dq_rep L' q' (l ++ [x]) /\ same_links (x :: l) L L'.
Proof.
  intros Hr Hx H0. pose proof Hr as [Hnd Hnull Hh Ht _ _]. unfold dq_addlast. qrun.
  destruct l as [|p l _] using rev_ind.
  - rewrite Hh, Ht. simpl. eexists _, _. split; [done|]. split; [|intros y Hy; split; qpoint].
    apply (dq_insert_rep L q _ _ [] x []); qpoint.
  - rewrite last_or_snoc in Ht. rewrite Ht. destruct (Z.eqb_spec (head q) 0) as [E|_].
    { apply (dq_head_case _ _ _ Hr) in E. by destruct l. }
    assert (p <> 0) by set_solver. qrun. eexists _, _. split; [done|]. split; [|intros y Hy; split; qpoint].
    rewrite hd_or_app in Hh. rewrite <- (app_nil_r (l ++ [p])) in Hr.
    apply (dq_insert_rep L q _ _ (l ++ [p]) x []); rewrite ?app_nil_r in *; rewrite ?last_or_snoc, ?hd_or_app; try done; qpoint.
Qed.

Lemma snoc_app (l1 : list Z) p l2 : l1 ++ p :: l2 = (l1 ++ [p]) ++ l2.
Proof. by rewrite <- app_assoc. Qed.

(** Between two entries. *)
Lemma dq_between L q L' l1 p x n l2 :
  dq_rep L q (l1 ++ p :: n :: l2) -> x ∉ l1 ++ p :: n :: l2 -> x <> 0 ->
  (forall y, flink L' y = upd (upd (flink L) x n) p x y) -> (forall y, blink L' y = upd (upd (blink L) x p) n x y) ->
  dq_rep L' q (l1 ++ p :: x :: n :: l2) /\ same_links (x :: l1 ++ p :: n :: l2) L L'.
Proof.
  intros Hr Hx H0 Hf Hb. pose proof Hr as [Hnd Hnull Hh Ht _ _]. split.
  - rewrite snoc_app. rewrite snoc_app in Hr, Hx.
    apply (dq_insert_rep L q); try done; rewrite ?last_or_snoc; try (rewrite ?Hf, ?Hb; qpoint).
    + by rewrite Hh, !hd_or_app.
    + rewrite Ht, last_or_app, !last_or_cons. done.
    + intros y Hy Hp. rewrite Hf, !upd_ne; [done| |done]. intros ->. done.
    + intros y Hy Hp. simpl in Hp. rewrite Hb, !upd_ne; [done| |done]. intros ->. done.
  - intros y Hy. rewrite Hf, Hb, !upd_ne by set_solver. done.
Qed.

Lemma dq_next_of L q l1 x l2 : dq_rep L q (l1 ++ x :: l2) -> x <> 0 /\ flink L x = hd_or l2 0 /\ blink L x = last_or l1 0.
Proof.
  intros [_ H0 _ _ Hn Hp]. split; [set_solver|].
  apply seg_app in Hn as [_ [Hn _]]. rewrite reverse_middle in Hp. apply seg_app in Hp as [_ [Hp _]]. done.
Qed.

Lemma dq_addafter_spec L q l1 p l2 x :
  dq_rep L q (l1 ++ p :: l2) -> x ∉ l1 ++ p :: l2 -> x <> 0 ->
  exists L' q', dq_addafter L p x q = Some (L', q') /\ dq_rep L' q' (l1 ++ p :: x :: l2) /\
    same_links (x :: l1 ++ p :: l2) L L'.
Proof.
  intros Hr Hx H0. pose proof (dq_next_of _ _ _ _ _ Hr) as (Hp & Hn & _). unfold dq_addafter.
  pose proof (dq_head_case _ _ _ Hr) as Hhead. pose proof Hr as [Hnd Hnull Hh Ht _ _].
  destruct (Z.eqb_spec (head q) 0) as [E|_]; [apply Hhead in E; by destruct l1|]. simpl.
  destruct l2 as [|n l2].
  - rewrite last_or_snoc in Ht. rewrite Ht, Z.eqb_refl.
    destruct (dq_addlast_spec L q _ x Hr Hx H0) as (L' & q' & ? & Hr' & ?). exists L', q'. by rewrite <- app_assoc in Hr'.
  - rewrite last_or_app, !last_or_cons in Ht. destruct (Z.eqb_spec p (tail q)) as [E|_].
    { rewrite Ht in E. destruct (last_or_in l2 n); qside. }
    simpl in Hn. assert (n <> 0) by set_solver. qrun. rewrite Hn. qrun. eexists _, _. split; [done|].
    by apply (dq_between L q).
Qed.

Lemma dq_addbefore_spec L q l1 n l2 x :
  dq_rep L q (l1 ++ n :: l2) -> x ∉ l1 ++ n :: l2 -> x <> 0 ->
  exists L' q', dq_addbefore L n x q = Some (L', q') /\ dq_rep L' q' (l1 ++ x :: n :: l2) /\
    same_links (x :: l1 ++ n :: l2) L L'.
Proof.
  intros Hr Hx H0. pose proof (dq_next_of _ _ _ _ _ Hr) as (Hn0 & _ & Hb). unfold dq_addbefore.
  pose proof (dq_head_case _ _ _ Hr) as Hhead. pose proof Hr as [Hnd Hnull Hh Ht _ _].
  destruct (Z.eqb_spec (head q) 0) as [E|_]; [apply Hhead in E; by destruct l1|]. simpl.
  destruct l1 as [|p l1 _] using rev_ind.
  - simpl in Hh. rewrite Hh, Z.eqb_refl. by apply dq_addfirst_spec.
  - rewrite <- !app_assoc in *. simpl in *. rewrite last_or_snoc in Hb.
    destruct (Z.eqb_spec n (head q)) as [E|_].
    { rewrite Hh, hd_or_app in E. simpl in E. destruct (hd_or_in l1 p); qside. }
    assert (p <> 0) by set_solver. qrun. rewrite Hb. qrun. eexists _, _. split; [done|].
    by apply (dq_between L q).
Qed.

Lemma dq_rem_spec L q l1 x l2 :
  dq_rep L q (l1 ++ x :: l2) ->
  exists L' q', dq_rem L x q = Some (L', q') /\ dq_rep L' q' (l1 ++ l2) /\ same_links (l1 ++ x :: l2) L L'.
Proof.
  intros Hr. pose proof (dq_next_of _ _ _ _ _ Hr) as (Hx & Hf & Hb). pose proof Hr as [Hnd Hnull Hh Ht _ _].
  unfold dq_rem. qrun. rewrite Hf, Hb.
  destruct l1 as [|p l1 _] using rev_ind; destruct l2 as [|n l2]; rewrite ?last_or_snoc in *; simpl in *.
  - qrun. eexists _, _. split; [done|]. split; [|intros y Hy; split; qpoint].
    apply (dq_remove_rep L q _ _ [] x []); try done; qpoint.
  - destruct (Z.eqb_spec n 0); [set_solver|]. qrun. eexists _, _. split; [done|]. split; [|intros y Hy; split; qpoint].
    rewrite !last_or_cons in Ht. apply (dq_remove_rep L q _ _ [] x (n :: l2)); rewrite ?last_or_app, ?last_or_cons; try done; qpoint.
  - destruct (Z.eqb_spec p 0); [set_solver|]. qrun. eexists _, _. split; [done|]. split; [|intros y Hy; split; qpoint].
    rewrite !hd_or_app in Hh. apply (dq_remove_rep L q _ _ (l1 ++ [p]) x []);
      rewrite ?app_nil_r, ?last_or_snoc, ?hd_or_app; try done; qpoint.
  - destruct (Z.eqb_spec p 0), (Z.eqb_spec n 0); [set_solver..|]. qrun. eexists _, _. split; [done|].
    split; [|intros y Hy; split; qpoint]. rewrite !hd_or_app in Hh. rewrite last_or_app, !last_or_cons in Ht.
    apply (dq_remove_rep L q _ _ (l1 ++ [p]) x (n :: l2));
      rewrite ?last_or_app, ?last_or_cons, ?hd_or_app; try done; qpoint.
Qed.

Lemma dq_remfirst_spec L q l :
  dq_rep L q l ->
  match l with
  | [] => dq_remfirst L q = Some (0, (L, q))
  | x :: l' => exists L' q', dq_remfirst L q = Some (x, (L', q')) /\ dq_rep L' q' l' /\ same_links l L L'
  end.
Proof.
  intros Hr. pose proof Hr as [_ Hnull Hh _ _ _]. unfold dq_remfirst. rewrite Hh. destruct l as [|x l]; [done|]. simpl.
  pose proof (dq_next_of L q [] x l Hr) as (Hx & _ & Hb).
  destruct (dq_rem_spec L q [] x l Hr) as (L' & q' & Hrem & ?). exists L', q'. split; [|done].
  unfold dq_rem in Hrem. revert Hrem. destruct (Z.eqb_spec x 0) as [?|_]; [done|]. qrun. rewrite Hb. simpl.
  destruct (Z.eqb_spec (flink L x) 0) as [->|]; qrun; by intros [= <- <-].
Qed.

Lemma dq_remlast_spec L q l x :
  dq_rep L q (l ++ [x]) ->
  exists L' q', dq_remlast L q = Some (x, (L', q')) /\ dq_rep L' q' l /\ same_links (l ++ [x]) L L'.
Proof.
  intros Hr. pose proof Hr as [_ Hnull _ Ht _ _]. unfold dq_remlast. rewrite last_or_snoc in Ht. rewrite Ht.
  pose proof (dq_next_of L q l x [] Hr) as (Hx & Hf & _).
  destruct (dq_rem_spec L q l x [] Hr) as (L' & q' & Hrem & Hr' & ?). rewrite app_nil_r in Hr'.
  exists L', q'. split; [|done].
  unfold dq_rem in Hrem. revert Hrem. destruct (Z.eqb_spec x 0) as [?|_]; [done|]. qrun. rewrite Hf. simpl.
  destruct (Z.eqb_spec (blink L x) 0) as [->|]; qrun; by intros [= <- <-].
Qed.

(** ** Singly linked queues *)

Lemma sq_insert_rep L q L' q' l1 x l2 :
  sq_rep L q (l1 ++ l2) -> x ∉ l1 ++ l2 -> x <> 0 ->
  head q' = hd_or l1 x -> tail q' = last_or l2 x ->
  flink L' x = hd_or l2 0 -> (l1 <> [] -> flink L' (last_or l1 0) = x) ->
  (forall y, y ∈ l1 ++ l2 -> y <> last_or l1 0 -> flink L' y = flink L y) ->
  sq_rep L' q' (l1 ++ x :: l2).
Proof.
  intros [Hnd H0 _ _ Hn] Hx Hx0 Hh Ht Hfx Hfl Hf. constructor.
  - by apply NoDup_insert.
  - set_solver.
  - by rewrite hd_or_app.
  - by rewrite last_or_app, last_or_cons.
  - apply (seg_insert (flink L)); try done.
Qed.

Lemma sq_remove_rep L q L' q' l1 x l2 :
  sq_rep L q (l1 ++ x :: l2) ->
  head q' = hd_or (l1 ++ l2) 0 -> tail q' = last_or (l1 ++ l2) 0 ->
  (l1 <> [] -> flink L' (last_or l1 0) = hd_or l2 0) ->
  (forall y, y ∈ l1 ++ l2 -> y <> last_or l1 0 -> flink L' y = flink L y) ->
  sq_rep L' q' (l1 ++ l2).
Proof.
  intros [Hnd H0 _ _ Hn] Hh Ht Hfl Hf. constructor; try done.
  - exact (proj1 (NoDup_remove' _ _ _ Hnd)).
  - set_solver.
  - by apply (seg_remove (flink L) _ _ x).
Qed.

Lemma sq_head_case L q l : sq_rep L q l -> head q = 0 <-> l = [].
Proof. intros [_ H0 -> _ _]. destruct l; simpl; [done|]. split; [|done]. intros ->. set_solver. Qed.

Lemma sq_next_of L q l1 x l2 : sq_rep L q (l1 ++ x :: l2) -> x <> 0 /\ flink L x = hd_or l2 0.
Proof. intros [_ H0 _ _ Hn]. split; [set_solver|]. by apply seg_app in Hn as [_ [Hn _]]. Qed.

Lemma sq_addfirst_spec L q l x :
  sq_rep L q l -> x ∉ l -> x <> 0 ->
  exists L' q', sq_addfirst L x q = Some (L', q') /\ sq_rep L' q' (x :: l) /\ same_links (x :: l) L L'.
Proof.
  intros Hr Hx H0. pose proof (sq_head_case _ _ _ Hr) as Hc. pose proof Hr as [Hnd Hnull Hh Ht _].
  unfold sq_addfirst. qrun. eexists _, _. split; [done|]. split; [|intros y Hy; split; qpoint].
  apply (sq_insert_rep L q _ _ [] x l); simpl; try done.
  - destruct (Z.eqb_spec (head q) 0) as [E|E]; [by apply Hc in E as ->|]. rewrite Ht. destruct l; [tauto|]. by rewrite !last_or_cons.
  - by rewrite upd_eq.
  - intros y Hy _. rewrite upd_ne; [done|qside].
Qed.

Lemma sq_addlast_spec L q l x :
  sq_rep L q l -> x ∉ l -> x <> 0 ->
  exists L' q', sq_addlast L x q = Some (L', q') /\ sq_rep L' q' (l ++ [x]) /\ same_links (x :: l) L L'.
Proof.
  intros Hr Hx H0. pose proof Hr as [Hnd Hnull Hh Ht _]. unfold sq_addlast. qrun.
  destruct l as [|p l _] using rev_ind.
  - rewrite Hh. simpl. eexists _, _. split; [done|]. split; [|intros y Hy; split; qpoint].
    apply (sq_insert_rep L q _ _ [] x []); qpoint.
  - rewrite last_or_snoc in Ht. rewrite Ht. destruct (Z.eqb_spec (head q) 0) as [E|_].
    { apply (sq_head_case _ _ _ Hr) in E. by destruct l. }
    assert (p <> 0) by set_solver. qrun. eexists _, _. split; [done|]. split; [|intros y Hy; split; qpoint].
    rewrite hd_or_app in Hh. rewrite <- (app_nil_r (l ++ [p])) in Hr.
    apply (sq_insert_rep L q _ _ (l ++ [p]) x []); rewrite ?app_nil_r in *; rewrite ?last_or_snoc, ?hd_or_app; try done; qpoint.
Qed.

Lemma sq_addafter_spec L q l1 p l2 x :
  sq_rep L q (l1 ++ p :: l2) -> x ∉ l1 ++ p :: l2 -> x <> 0 ->
  exists L' q', sq_addafter L p x q = Some (L', q') /\ sq_rep L' q' (l1 ++ p :: x :: l2) /\
    same_links (x :: l1 ++ p :: l2) L L'.
Proof.
  intros Hr Hx H0. pose proof (sq_next_of _ _ _ _ _ Hr) as (Hp & Hn). unfold sq_addafter.
  pose proof (sq_head_case _ _ _ Hr) as Hhead. pose proof Hr as [Hnd Hnull Hh Ht _].
  destruct (Z.eqb_spec (head q) 0) as [E|_]; [apply Hhead in E; by destruct l1|]. simpl.
  destruct l2 as [|n l2].
  - rewrite last_or_snoc in Ht. rewrite Ht, Z.eqb_refl.
    destruct (sq_addlast_spec L q _ x Hr Hx H0) as (L' & q' & ? & Hr' & ?). exists L', q'. by rewrite <- app_assoc in Hr'.
  - rewrite last_or_app, !last_or_cons in Ht. destruct (Z.eqb_spec p (tail q)) as [E|_].
    { rewrite Ht in E. destruct (last_or_in l2 n); qside. }
    qrun. rewrite Hn. simpl. eexists _, _. split; [done|]. split; [|intros y Hy; split; qpoint].
    rewrite snoc_app. rewrite snoc_app in Hr, Hx, Hh.
    apply (sq_insert_rep L q); rewrite ?last_or_snoc, ?last_or_cons; try done; try qpoint.
    by rewrite Hh, !hd_or_app.
Qed.

Lemma sq_remafter_spec L q l1 p x l2 :
  sq_rep L q (l1 ++ p :: x :: l2) ->
  exists L' q', sq_remafter L p q = Some (x, (L', q')) /\ sq_rep L' q' (l1 ++ p :: l2) /\
    same_links (l1 ++ p :: x :: l2) L L'.
Proof.
  intros Hr. pose proof (sq_next_of _ _ _ _ _ Hr) as (Hp & Hn). simpl in Hn. unfold sq_remafter.
  pose proof (sq_head_case _ _ _ Hr) as Hhead. pose proof Hr as [Hnd Hnull Hh Ht _].
  pose proof Hr as Hr'. rewrite snoc_app in Hr'. pose proof (sq_next_of _ _ _ _ _ Hr') as (Hx & Hn').
  qrun. rewrite Hn. destruct (Z.eqb_spec (head q) 0) as [E|_]; [apply Hhead in E; by destruct l1|].
  destruct (Z.eqb_spec x 0) as [?|_]; [done|]. simpl. rewrite last_or_app, !last_or_cons in Ht. rewrite Ht.
  assert (Hrm : forall L' q', head q' = head q -> tail q' = last_or l2 p ->
    (forall y, flink L' y = upd (upd (flink L) p (hd_or l2 0)) x 0 y) -> sq_rep L' q' (l1 ++ p :: l2)).
  { intros L' q' Hh' Ht' Hf. rewrite snoc_app.
    apply (sq_remove_rep L q _ _ (l1 ++ [p]) x l2); rewrite ?last_or_snoc; try done.
    - rewrite Hh', Hh, !hd_or_app. done.
    - by rewrite last_or_app, last_or_snoc.
    - intros _. rewrite Hf. qpoint.
    - intros y Hy Hyp. rewrite Hf. qpoint. }
  destruct l2 as [|n l2]; rewrite ?last_or_cons.
  - rewrite Z.eqb_refl. qrun. eexists _, _. split; [done|]. split; [|intros y Hy; split; qpoint]. by apply Hrm.
  - destruct (Z.eqb_spec (last_or l2 n) x); [destruct (last_or_in l2 n); qside|]. qrun. rewrite Hn'.
    eexists _, _. split; [done|]. split; [|intros y Hy; split; qpoint]. apply Hrm; try done. by rewrite Ht, !last_or_cons.
Qed.

Lemma sq_remfirst_spec L q l :
  sq_rep L q l ->
  match l with
  | [] => sq_remfirst L q = Some (0, (L, q))
  | x :: l' => exists L' q', sq_remfirst L q = Some (x, (L', q')) /\ sq_rep L' q' l' /\ same_links l L L'
  end.
Proof.
  intros Hr. pose proof Hr as [Hnd Hnull Hh Ht _]. unfold sq_remfirst. rewrite Hh. destruct l as [|x l]; [done|]. simpl.
  destruct (sq_next_of L q [] x l Hr) as [Hx Hn]. destruct (Z.eqb_spec x 0) as [?|_]; [done|]. qrun. rewrite Hn.
  eexists _, _. split; [done|]. split; [|intros y Hy; split; qpoint].
  apply (sq_remove_rep L q _ _ [] x l); try done; [|qpoint].
  rewrite last_or_cons in Ht. destruct l as [|n l]; simpl; [done|].
  destruct (Z.eqb_spec n 0); [qside|]. by rewrite Ht, !last_or_cons.
Qed.

(** The search for the predecessor of an entry. *)
Lemma sq_prev_spec fuel L q l0 l1 p x l2 :
  sq_rep L q (l0 ++ l1 ++ p :: x :: l2) -> (length l1 < fuel)%nat -> sq_prev fuel L (hd_or l1 p) x = Some p.
Proof.
  revert l0 l1. induction fuel as [|fuel IH]; intros l0 l1 Hr Hf; [lia|]. simpl.
  destruct l1 as [|y l1]; simpl in *.
  - pose proof (sq_next_of _ _ _ _ _ Hr) as [Hp Hn]. simpl in Hn. rewrite Hn, Z.eqb_refl, orb_true_r. done.
  - pose proof (sq_next_of _ _ _ _ _ Hr) as [Hy Hn]. rewrite hd_or_app in Hn. simpl in Hn. rewrite Hn.
    destruct (Z.eqb_spec y 0) as [?|_]; [done|]. destruct (Z.eqb_spec (hd_or l1 p) x) as [E|_].
    + pose proof (sq_nodup _ _ _ Hr) as Hnd. destruct (hd_or_in l1 p) as [E'|E']; rewrite E in E'; qside.
    + simpl. apply (IH (l0 ++ [y])); [by rewrite <- app_assoc|lia].
Qed.

Lemma sq_rem_spec fuel L q l1 x l2 :
  sq_rep L q (l1 ++ x :: l2) -> (length l1 < fuel)%nat ->
  exists L' q', sq_rem fuel L x q = Some (L', q') /\ sq_rep L' q' (l1 ++ l2) /\ same_links (l1 ++ x :: l2) L L'.
Proof.
  intros Hr Hf. pose proof (sq_next_of _ _ _ _ _ Hr) as (Hx & Hn). unfold sq_rem.
  pose proof (sq_head_case _ _ _ Hr) as Hhead. pose proof Hr as [Hnd Hnull Hh Ht _].
  destruct (Z.eqb_spec (head q) 0) as [E|_]; [apply Hhead in E; by destruct l1|].
  destruct (Z.eqb_spec x 0) as [?|_]; [done|]. simpl. rewrite Hh.
  destruct l1 as [|p l1 _] using rev_ind.
  - simpl. rewrite Z.eqb_refl. qrun. rewrite Hn. eexists _, _. split; [done|]. split; [|done].
    apply (sq_remove_rep L q _ _ [] x l2); try done. simpl. rewrite Ht. simpl. rewrite !last_or_cons.
    destruct l2 as [|n l2]; [by rewrite Z.eqb_refl|]. rewrite !last_or_cons.
    destruct (Z.eqb_spec x (last_or l2 n)); [destruct (last_or_in l2 n); qside|done].
  - rewrite <- app_assoc in *. simpl in *. rewrite length_app in Hf. simpl in Hf. rewrite hd_or_app. simpl.
    destruct (Z.eqb_spec x (hd_or l1 p)) as [E|_]; [destruct (hd_or_in l1 p) as [E'|E']; rewrite <- E in E'; qside|].
    rewrite (sq_prev_spec _ _ q [] l1 p x l2) by (done || lia). simpl.
    destruct (Z.eqb_spec p 0); [qside|].
    destruct (sq_remafter_spec _ _ _ _ _ _ Hr) as (L' & q' & Hrem & ?). rewrite Hrem. simpl. exists L', q'. by rewrite <- ?app_assoc.
Qed.

Lemma sq_remlast_spec fuel L q l x :
  sq_rep L q (l ++ [x]) -> (length l < fuel)%nat ->
  exists L' q', sq_remlast fuel L q = Some (x, (L', q')) /\ sq_rep L' q' l /\ same_links (l ++ [x]) L L'.
Proof.
  intros Hr Hf. pose proof (sq_next_of _ _ _ _ _ Hr) as (Hx & Hn). unfold sq_remlast.
  pose proof Hr as [Hnd Hnull Hh Ht _]. rewrite last_or_snoc in Ht. rewrite Ht.
  destruct (Z.eqb_spec x 0) as [?|_]; [done|]. rewrite Hh.
  destruct l as [|p l _] using rev_ind.
  - simpl. rewrite Z.eqb_refl. qrun. eexists _, _. split; [done|]. split; [|intros y Hy; split; qpoint].
    apply (sq_remove_rep L q _ _ [] x []); try done; qpoint.
  - rewrite <- app_assoc in *. simpl in *. rewrite length_app in Hf. simpl in Hf. rewrite hd_or_app in *. simpl in *.
    destruct (Z.eqb_spec (hd_or l p) x) as [E|_]; [destruct (hd_or_in l p) as [E'|E']; rewrite E in E'; qside|].
    rewrite (sq_prev_spec _ _ q [] l p x []) by (done || lia). simpl.
    destruct (Z.eqb_spec p 0) as [?|Hp]; [qside|]. qrun.
    eexists _, _. split; [done|]. split; [|intros y Hy; split; qpoint].
    rewrite <- (app_nil_r (l ++ [p])). rewrite snoc_app in Hr.
    apply (sq_remove_rep L q _ _ (l ++ [p]) x []); rewrite ?app_nil_r, ?last_or_snoc, ?hd_or_app; try done; qpoint.
Qed.
