(* ===== verification/QueueTheorems.v ===== *)
(** * Queues refine lists

    Sequences of queue operations against the list operations they are named
    for: results, contents, absence of null dereferences, and the frame that
    lets several queues share the link fields. *)

From stdpp Require Import base tactics numbers sets list.
From S2P Require Import Prelude Queue QueueProps.

(** ** The list operations *)

Fixpoint insert_after (p x : Z) (l : list Z) : list Z :=
  match l with
  | [] => []
  | y :: l => if y =? p then y :: x :: l else y :: insert_after p x l
  end.

Fixpoint insert_before (n x : Z) (l : list Z) : list Z :=
  match l with
  | [] => []
  | y :: l => if y =? n then x :: y :: l else y :: insert_before n x l
  end.

Fixpoint remove_entry (x : Z) (l : list Z) : list Z :=
  match l with
  | [] => []
  | y :: l => if y =? x then l else y :: remove_entry x l
  end.

Fixpoint next_of (p : Z) (l : list Z) : Z :=
  match l with
  | [] => 0
  | y :: l => if y =? p then hd_or l 0 else next_of p l
  end.

Lemma insert_after_app l1 p x l2 : p ∉ l1 -> insert_after p x (l1 ++ p :: l2) = l1 ++ p :: x :: l2.
Proof.
  induction l1 as [|y l1 IH]; simpl; intros H; [by rewrite Z.eqb_refl|].
  destruct (Z.eqb_spec y p); [qside|]. rewrite IH; [done|by qmem].
Qed.

Lemma insert_before_app l1 n x l2 : n ∉ l1 -> insert_before n x (l1 ++ n :: l2) = l1 ++ x :: n :: l2.
Proof.
  induction l1 as [|y l1 IH]; simpl; intros H; [by rewrite Z.eqb_refl|].
  destruct (Z.eqb_spec y n); [qside|]. rewrite IH; [done|by qmem].
Qed.

Lemma remove_entry_app l1 x l2 : x ∉ l1 -> remove_entry x (l1 ++ x :: l2) = l1 ++ l2.
Proof.
  induction l1 as [|y l1 IH]; simpl; intros H; [by rewrite Z.eqb_refl|].
  destruct (Z.eqb_spec y x); [qside|]. rewrite IH; [done|by qmem].
Qed.

Lemma remove_entry_notin x l : x ∉ l -> remove_entry x l = l.
Proof.
  induction l as [|y l IH]; simpl; intros H; [done|]. destruct (Z.eqb_spec y x); [qside|]. rewrite IH; [done|by qmem].
Qed.

Lemma remove_entry_snd l1 p x l2 : x ∉ l1 ++ [p] -> remove_entry x (l1 ++ p :: x :: l2) = l1 ++ p :: l2.
Proof. intros H. rewrite snoc_app, remove_entry_app by done. by rewrite <- snoc_app. Qed.

Lemma next_of_app l1 p l2 : p ∉ l1 -> next_of p (l1 ++ p :: l2) = hd_or l2 0.
Proof.
  induction l1 as [|y l1 IH]; simpl; intros H; [by rewrite Z.eqb_refl|].
  destruct (Z.eqb_spec y p); [qside|]. apply IH. by qmem.
Qed.

Lemma NoDup_split (x : Z) l : NoDup l -> x ∈ l -> exists l1 l2, l = l1 ++ x :: l2 /\ x ∉ l1.
Proof.
  intros Hnd Hx. apply list_elem_of_split in Hx as (l1 & l2 & ->). exists l1, l2. split; [done|]. by qmem.
Qed.

Lemma removelast_snoc (l : list Z) x : removelast (l ++ [x]) = l.
Proof. apply removelast_last. Qed.

(** ** Operations *)

Inductive queue_op :=
  | AddFirst (x : Z) | AddLast (x : Z) | AddAfter (p x : Z) | AddBefore (n x : Z)
  | Remove (x : Z) | RemoveFirst | RemoveLast | RemoveAfter (p : Z).

(** What the operation returns (0 where it returns nothing) and the list it leaves. *)
Definition list_exec (l : list Z) (op : queue_op) : Z * list Z :=
  match op with
  | AddFirst x => (0, x :: l)
  | AddLast x => (0, l ++ [x])
  | AddAfter p x => (0, insert_after p x l)
  | AddBefore n x => (0, insert_before n x l)
  | Remove x => (0, remove_entry x l)
  | RemoveFirst => (hd_or l 0, tl l)
  | RemoveLast => (last_or l 0, removelast l)
  | RemoveAfter p => (next_of p l, remove_entry (next_of p l) l)
  end.

(** What a caller must respect: an entry is added once, and reference entries
    are in the queue. *)
Definition list_valid (l : list Z) (op : queue_op) : Prop :=
  match op with
  | AddFirst x | AddLast x => (x ∉ l) /\ x <> 0
  | AddAfter p x | AddBefore p x => (x ∉ l) /\ x <> 0 /\ p ∈ l
  | Remove x => x ∈ l
  | RemoveAfter p => p ∈ l
  | RemoveFirst | RemoveLast => True
  end.

Definition added (op : queue_op) : list Z :=
  match op with AddFirst x | AddLast x | AddAfter _ x | AddBefore _ x => [x] | _ => [] end.

Definition ret0 (r : option (links * queue)) : option (Z * (links * queue)) := r ← r; Some (0, r).

Definition dq_exec (L : links) (q : queue) (op : queue_op) : option (Z * (links * queue)) :=
  match op with
  | AddFirst x => ret0 (dq_addfirst L x q)
  | AddLast x => ret0 (dq_addlast L x q)
  | AddAfter p x => ret0 (dq_addafter L p x q)
  | AddBefore n x => ret0 (dq_addbefore L n x q)
  | Remove x => ret0 (dq_rem L x q)
  | RemoveFirst => dq_remfirst L q
  | RemoveLast => dq_remlast L q
  | RemoveAfter _ => None
  end.

Definition sq_exec (fuel : nat) (L : links) (q : queue) (op : queue_op) : option (Z * (links * queue)) :=
  match op with
  | AddFirst x => ret0 (sq_addfirst L x q)
  | AddLast x => ret0 (sq_addlast L x q)
  | AddAfter p x => ret0 (sq_addafter L p x q)
  | AddBefore _ _ => None
  | Remove x => ret0 (sq_rem fuel L x q)
  | RemoveFirst => sq_remfirst L q
  | RemoveLast => sq_remlast fuel L q
  | RemoveAfter p => sq_remafter L p q
  end.

(** The operations of the two kinds of queues; a search in a singly linked
    queue is given as many steps as it has entries. *)
Definition dq_offers (l : list Z) (op : queue_op) : bool := if op is RemoveAfter _ then false else true.
Definition sq_offers (fuel : nat) (l : list Z) (op : queue_op) : bool :=
  if op is AddBefore _ _ then false else bool_decide (length l <= fuel)%nat.

(** One operation does what the list operation does. *)
Definition exec_ok (rep : links -> queue -> list Z -> Prop) (L : links) (l : list Z) (op : queue_op)
    (r : option (Z * (links * queue))) : Prop :=
  exists L' q', r = Some ((list_exec l op).1, (L', q')) /\ rep L' q' (list_exec l op).2 /\
    same_links (added op ++ l) L L'.

Lemma dq_exec_ok L q l op : dq_rep L q l -> list_valid l op -> dq_offers l op -> exec_ok dq_rep L l op (dq_exec L q op).
Proof.
  intros Hr Hv Ho. pose proof (dq_nodup _ _ _ Hr) as Hnd. unfold exec_ok.
  destruct op as [x|x|p x|n x|x| | |p]; simpl in *.
  - destruct (dq_addfirst_spec L q l x Hr) as (L' & q' & -> & ?); [tauto..|]. by exists L', q'.
  - destruct (dq_addlast_spec L q l x Hr) as (L' & q' & -> & ?); [tauto..|]. by exists L', q'.
  - destruct Hv as (Hx & H0 & (l1 & l2 & -> & Hp)%NoDup_split); [|done]. rewrite insert_after_app by done.
    destruct (dq_addafter_spec L q l1 p l2 x Hr Hx H0) as (L' & q' & -> & ?). by exists L', q'.
  - destruct Hv as (Hx & H0 & (l1 & l2 & -> & Hp)%NoDup_split); [|done]. rewrite insert_before_app by done.
    destruct (dq_addbefore_spec L q l1 n l2 x Hr Hx H0) as (L' & q' & -> & ?). by exists L', q'.
  - apply NoDup_split in Hv as (l1 & l2 & -> & Hp); [|done]. rewrite remove_entry_app by done.
    destruct (dq_rem_spec L q l1 x l2 Hr) as (L' & q' & -> & ?). by exists L', q'.
  - pose proof (dq_remfirst_spec L q l Hr) as H. destruct l; [by exists L, q|done].
  - destruct l as [|x l _] using rev_ind.
    + exists L, q. unfold dq_remlast. rewrite (dq_tail _ _ _ Hr). done.
    + rewrite last_or_snoc, removelast_snoc. by apply dq_remlast_spec.
  - done.
Qed.

Lemma sq_exec_ok fuel L q l op :
  sq_rep L q l -> list_valid l op -> sq_offers fuel l op ->
  exec_ok sq_rep L l op (sq_exec fuel L q op).
Proof.
  intros Hr Hv Ho. pose proof (sq_nodup _ _ _ Hr) as Hnd. unfold exec_ok.
  assert (Hf : (length l <= fuel)%nat \/ exists n x, op = AddBefore n x).
  { destruct op; simpl in Ho; try (left; exact (bool_decide_unpack _ Ho)). right. by do 2 eexists. }
  destruct Hf as [Hf | (n & x & ->)]; [|done].
  destruct op as [x|x|p x|n x|x| | |p]; simpl in *.
  - destruct (sq_addfirst_spec L q l x Hr) as (L' & q' & -> & ?); [tauto..|]. by exists L', q'.
  - destruct (sq_addlast_spec L q l x Hr) as (L' & q' & -> & ?); [tauto..|]. by exists L', q'.
  - destruct Hv as (Hx & H0 & (l1 & l2 & -> & Hp)%NoDup_split); [|done]. rewrite insert_after_app by done.
    destruct (sq_addafter_spec L q l1 p l2 x Hr Hx H0) as (L' & q' & -> & ?). by exists L', q'.
  - done.
  - apply NoDup_split in Hv as (l1 & l2 & -> & Hp); [|done]. rewrite remove_entry_app by done.
    rewrite length_app in Hf. simpl in Hf.
    destruct (sq_rem_spec fuel L q l1 x l2 Hr) as (L' & q' & -> & ?); [lia|]. by exists L', q'.
  - pose proof (sq_remfirst_spec L q l Hr) as H. destruct l; [by exists L, q|done].
  - destruct l as [|x l _] using rev_ind.
    + exists L, q. unfold sq_remlast. rewrite (sq_tail _ _ _ Hr). done.
    + rewrite last_or_snoc, removelast_snoc. rewrite length_app in Hf. simpl in Hf. apply sq_remlast_spec; [done|lia].
  - apply NoDup_split in Hv as (l1 & l2 & -> & Hp); [|done]. rewrite next_of_app by done.
    destruct l2 as [|x l2]; simpl.
    + exists L, q. rewrite remove_entry_notin by apply Hr. split; [|done].
      destruct (sq_next_of _ _ _ _ _ Hr) as [Hp0 Hn]. unfold sq_remafter. qrun. rewrite Hn. simpl. by rewrite orb_true_r.
    + rewrite remove_entry_snd; [by apply sq_remafter_spec|]. qmem.
      rewrite not_elem_of_app, list_elem_of_singleton. done.
Qed.

(** ** Sequences of operations *)

Section runs.
Context (rep : links -> queue -> list Z -> Prop) (offers : list Z -> queue_op -> bool).
Context (exec : links -> queue -> queue_op -> option (Z * (links * queue))).

Fixpoint queue_run (L : links) (q : queue) (ops : list queue_op) : option (list Z * (links * queue)) :=
  match ops with
  | [] => Some ([], (L, q))
  | op :: ops =>
      '(r, (L, q)) ← exec L q op; '(rs, s) ← queue_run L q ops; Some (r :: rs, s)
  end.

Fixpoint list_run (l : list Z) (ops : list queue_op) : list Z * list Z :=
  match ops with
  | [] => ([], l)
  | op :: ops => let '(rs, l') := list_run (list_exec l op).2 ops in ((list_exec l op).1 :: rs, l')
  end.

(** Every operation is offered and respects the caller's duties. *)
Fixpoint run_valid (l : list Z) (ops : list queue_op) : Prop :=
  match ops with
  | [] => True
  | op :: ops => list_valid l op /\ offers l op /\ run_valid (list_exec l op).2 ops
  end.

Definition run_added (ops : list queue_op) : list Z := ops ≫= added.

Hypothesis exec_spec : forall L q l op, rep L q l -> list_valid l op -> offers l op -> exec_ok rep L l op (exec L q op).

Lemma list_exec_in l op x : x ∈ (list_exec l op).2 -> x ∈ added op ++ l.
Proof.
  assert (Ha : forall p y l, x ∈ insert_after p y l -> x = y \/ x ∈ l).
  { intros p y. induction l0 as [|z l0 IH]; simpl; [set_solver|]. destruct (z =? p); set_solver. }
  assert (Hb : forall p y l, x ∈ insert_before p y l -> x = y \/ x ∈ l).
  { intros p y. induction l0 as [|z l0 IH]; simpl; [set_solver|]. destruct (z =? p); set_solver. }
  assert (Hr : forall y l, x ∈ remove_entry y l -> x ∈ l).
  { intros y. induction l0 as [|z l0 IH]; simpl; [set_solver|]. destruct (z =? y); set_solver. }
  destruct op as [y|y|p y|n y|y| | |p]; simpl.
  - done.
  - rewrite elem_of_app, list_elem_of_singleton, elem_of_cons. tauto.
  - intros H%Ha. by apply elem_of_cons.
  - intros H%Hb. by apply elem_of_cons.
  - apply Hr.
  - destruct l; simpl; set_solver.
  - destruct l as [|y l _] using rev_ind; [done|]. rewrite removelast_snoc. set_solver.
  - apply Hr.
Qed.

Lemma queue_run_ok ops L q l :
  rep L q l -> run_valid l ops ->
  exists L' q', queue_run L q ops = Some ((list_run l ops).1, (L', q')) /\ rep L' q' (list_run l ops).2 /\
    same_links (run_added ops ++ l) L L'.
Proof.
  revert L q l. induction ops as [|op ops IH]; intros L q l Hr Hv; simpl.
  - by exists L, q.
  - destruct Hv as (Hv & Ho & Hvs). destruct (exec_spec L q l op Hr Hv Ho) as (L1 & q1 & -> & Hr1 & Hs1). simpl.
    destruct (IH L1 q1 _ Hr1 Hvs) as (L' & q' & -> & Hr' & Hs'). simpl.
    exists L', q'. destruct (list_run (list_exec l op).2 ops) as [rs l'] eqn:E. simpl in *. split; [done|]. split; [done|].
    intros x Hx. unfold run_added in *. simpl in Hx. destruct (Hs' x) as [-> ->].
    + rewrite not_elem_of_app. split; [set_solver|]. intros Hin%list_exec_in. set_solver.
    + apply Hs1. set_solver.
Qed.
End runs.

Definition demo_links : links := mk_links (fun _ => 0) (fun _ => 0).

(** C23: sequences of [dq_*] operations on a doubly linked queue return what
    the list operations return and leave the queue holding the resulting list
    in both directions; no null pointer is dereferenced and the links of
    entries that are neither in the queue nor added to it are not touched, so
    that every other queue stays as it is. *)
Theorem dq_refines_list ops L q l q2 l2 :
  dq_rep L q l -> run_valid dq_offers l ops -> dq_rep L q2 l2 -> (forall x, x ∈ l2 -> x ∉ run_added ops ++ l) ->
  exists L' q', queue_run dq_exec L q ops = Some ((list_run l ops).1, (L', q')) /\
    dq_rep L' q' (list_run l ops).2 /\ dq_rep L' q2 l2.
Proof.
  intros Hr Hv Hr2 Hd. destruct (queue_run_ok dq_rep dq_offers dq_exec dq_exec_ok ops L q l Hr Hv) as (L' & q' & ? & ? & Hs).
  exists L', q'. split; [done|]. split; [done|]. by eapply dq_rep_frame.
Qed.

Lemma dq_refines_list_witness :
  exists L' q', queue_run dq_exec demo_links empty_queue
      [AddLast 8; AddFirst 16; AddAfter 16 24; AddBefore 8 32; Remove 24; RemoveLast] =
    Some ([0; 0; 0; 0; 0; 8], (L', q')) /\ dq_rep L' q' [16; 32] /\ dq_rep L' empty_queue [].
Proof.
  apply (dq_refines_list [AddLast 8; AddFirst 16; AddAfter 16 24; AddBefore 8 32; Remove 24; RemoveLast]
           demo_links empty_queue [] empty_queue []).
  - apply dq_rep_empty.
  - simpl. repeat split; first [lia | set_solver].
  - apply dq_rep_empty.
  - intros x Hx. by apply elem_of_nil in Hx.
Defined.

(** C24: the same for the [sq_*] operations on singly linked queues, whose
    searches end after at most as many steps as the queue has entries. *)
Theorem sq_refines_list ops fuel L q l q2 l2 :
  sq_rep L q l -> run_valid (sq_offers fuel) l ops -> sq_rep L q2 l2 -> (forall x, x ∈ l2 -> x ∉ run_added ops ++ l) ->
  exists L' q', queue_run (sq_exec fuel) L q ops = Some ((list_run l ops).1, (L', q')) /\
    sq_rep L' q' (list_run l ops).2 /\ sq_rep L' q2 l2.
Proof.
  intros Hr Hv Hr2 Hd.
  destruct (queue_run_ok sq_rep (sq_offers fuel) (sq_exec fuel) (sq_exec_ok fuel) ops L q l Hr Hv) as (L' & q' & ? & ? & Hs).
  exists L', q'. split; [done|]. split; [done|]. by eapply sq_rep_frame.
Qed.

Lemma sq_refines_list_witness :
  exists L' q', queue_run (sq_exec 3) demo_links empty_queue
      [AddLast 8; AddFirst 16; AddAfter 16 24; RemoveAfter 24; RemoveLast; RemoveFirst] =
    Some ([0; 0; 0; 8; 24; 16], (L', q')) /\ sq_rep L' q' [] /\ sq_rep L' empty_queue [].
Proof.
  apply (sq_refines_list [AddLast 8; AddFirst 16; AddAfter 16 24; RemoveAfter 24; RemoveLast; RemoveFirst]
           3 demo_links empty_queue [] empty_queue []).
  - apply sq_rep_empty.
  - simpl. repeat split; first [lia | set_solver].
  - apply sq_rep_empty.
  - intros x Hx. by apply elem_of_nil in Hx.
Defined.
