(* ===== verification/Sched.v ===== *)
(** * The scheduler (os/kernel/sched, os/arch/arm/src/armv7-r)

    Task control blocks, the task lists and the operations that move tasks
    between them, at the level of the TCB link fields.  Interrupts are off
    while an operation runs (irqsave), so that each operation is one step.
    [None] is a failed assertion, a panic or a null dereference.

    Configuration: CONFIG_RR_INTERVAL = 100 ms, 10 ms ticks, priority
    inheritance with CONFIG_SEM_NNESTPRIO = 16, signals and message queues
    enabled, no paging, no tickless timer, no instrumentation. *)

From stdpp Require Import base tactics numbers list.
From S2P Require Import Prelude Queue.

(** ** Data *)

(** [enum tstate_e] *)
Inductive tstate :=
  | TSTATE_TASK_INVALID | TSTATE_TASK_PENDING | TSTATE_TASK_READYTORUN | TSTATE_TASK_RUNNING
  | TSTATE_TASK_INACTIVE | TSTATE_WAIT_SEM | TSTATE_WAIT_SIG | TSTATE_WAIT_MQNOTEMPTY | TSTATE_WAIT_MQNOTFULL.

#[export] Instance tstate_eq_dec : EqDecision tstate.
Proof. solve_decision. Defined.

(** [FIRST_READY_TO_RUN_STATE .. LAST_READY_TO_RUN_STATE] *)
Definition is_readytorun (s : tstate) : bool :=
  match s with TSTATE_TASK_READYTORUN | TSTATE_TASK_RUNNING => true | _ => false end.

(** [FIRST_BLOCKED_STATE .. LAST_BLOCKED_STATE] *)
Definition is_blocked (s : tstate) : bool :=
  match s with
  | TSTATE_TASK_INACTIVE | TSTATE_WAIT_SEM | TSTATE_WAIT_SIG | TSTATE_WAIT_MQNOTEMPTY | TSTATE_WAIT_MQNOTFULL => true
  | _ => false
  end.

(** The task list headers, one global variable each. *)
Inductive tasklist :=
  | g_readytorun | g_pendingtasks | g_waitingforsemaphore | g_waitingforsignal
  | g_waitingformqnotempty | g_waitingformqnotfull | g_inactivetasks.

#[export] Instance tasklist_eq_dec : EqDecision tasklist.
Proof. solve_decision. Defined.

(** [g_tasklisttable[s].list] and [g_tasklisttable[s].prioritized] *)
Definition g_tasklisttable (s : tstate) : option tasklist * bool :=
  match s with
  | TSTATE_TASK_INVALID => (None, false)
  | TSTATE_TASK_PENDING => (Some g_pendingtasks, true)
  | TSTATE_TASK_READYTORUN => (Some g_readytorun, true)
  | TSTATE_TASK_RUNNING => (Some g_readytorun, true)
  | TSTATE_TASK_INACTIVE => (Some g_inactivetasks, false)
  | TSTATE_WAIT_SEM => (Some g_waitingforsemaphore, true)
  | TSTATE_WAIT_SIG => (Some g_waitingforsignal, false)
  | TSTATE_WAIT_MQNOTEMPTY => (Some g_waitingformqnotempty, true)
  | TSTATE_WAIT_MQNOTFULL => (Some g_waitingformqnotfull, true)
  end.

(** The fields of [struct tcb_s] the scheduler and the semaphores use, but
    for the links, which are in [links]. *)
Record tcb_s := mk_tcb {
  pid : Z;
  sched_priority : Z;
  npend_reprio : Z;
  pend_reprios : Z -> Z;
  base_priority : Z;
  task_state : tstate;
  flags : Z;
  lockcount : Z;
  timeslice : Z;
  waitsem : Z;
  pterrno : Z
}.

Definition set_sched_priority (v : Z) (t : tcb_s) : tcb_s :=
  mk_tcb (pid t) v (npend_reprio t) (pend_reprios t) (base_priority t) (task_state t) (flags t) (lockcount t)
    (timeslice t) (waitsem t) (pterrno t).
Definition set_npend_reprio (v : Z) (t : tcb_s) : tcb_s :=
  mk_tcb (pid t) (sched_priority t) v (pend_reprios t) (base_priority t) (task_state t) (flags t) (lockcount t)
    (timeslice t) (waitsem t) (pterrno t).
Definition set_pend_reprios (v : Z -> Z) (t : tcb_s) : tcb_s :=
  mk_tcb (pid t) (sched_priority t) (npend_reprio t) v (base_priority t) (task_state t) (flags t) (lockcount t)
    (timeslice t) (waitsem t) (pterrno t).
Definition set_base_priority (v : Z) (t : tcb_s) : tcb_s :=
  mk_tcb (pid t) (sched_priority t) (npend_reprio t) (pend_reprios t) v (task_state t) (flags t) (lockcount t)
    (timeslice t) (waitsem t) (pterrno t).
Definition set_task_state (v : tstate) (t : tcb_s) : tcb_s :=
  mk_tcb (pid t) (sched_priority t) (npend_reprio t) (pend_reprios t) (base_priority t) v (flags t) (lockcount t)
    (timeslice t) (waitsem t) (pterrno t).
Definition set_lockcount (v : Z) (t : tcb_s) : tcb_s :=
  mk_tcb (pid t) (sched_priority t) (npend_reprio t) (pend_reprios t) (base_priority t) (task_state t) (flags t) v
    (timeslice t) (waitsem t) (pterrno t).
Definition set_timeslice (v : Z) (t : tcb_s) : tcb_s :=
  mk_tcb (pid t) (sched_priority t) (npend_reprio t) (pend_reprios t) (base_priority t) (task_state t) (flags t)
    (lockcount t) v (waitsem t) (pterrno t).
Definition set_waitsem (v : Z) (t : tcb_s) : tcb_s :=
  mk_tcb (pid t) (sched_priority t) (npend_reprio t) (pend_reprios t) (base_priority t) (task_state t) (flags t)
    (lockcount t) (timeslice t) v (pterrno t).
Definition set_pterrno (v : Z) (t : tcb_s) : tcb_s :=
  mk_tcb (pid t) (sched_priority t) (npend_reprio t) (pend_reprios t) (base_priority t) (task_state t) (flags t)
    (lockcount t) (timeslice t) (waitsem t) v.

(** The scheduler's state: the TCBs by address, the list headers, [cpu], the
    task whose register context is loaded or will be on return from the
    interrupt, [in_irq] ([current_regs != NULL]), the error number used in
    interrupts, and the pid hash table. *)
Record kernel := mk_kernel {
  lk : links;
  tcbs : Z -> tcb_s;
  lists : tasklist -> queue;
  cpu : Z;
  in_irq : bool;
  g_irqerrno : Z;
  g_pidhash : Z -> Z * Z
}.

Definition set_lk (L : links) (k : kernel) : kernel :=
  mk_kernel L (tcbs k) (lists k) (cpu k) (in_irq k) (g_irqerrno k) (g_pidhash k).
Definition set_tcbs (t : Z -> tcb_s) (k : kernel) : kernel :=
  mk_kernel (lk k) t (lists k) (cpu k) (in_irq k) (g_irqerrno k) (g_pidhash k).
Definition set_list (tl : tasklist) (q : queue) (k : kernel) : kernel :=
  mk_kernel (lk k) (tcbs k) (fun t => if decide (t = tl) then q else lists k t) (cpu k) (in_irq k) (g_irqerrno k)
    (g_pidhash k).
Definition set_cpu (p : Z) (k : kernel) : kernel :=
  mk_kernel (lk k) (tcbs k) (lists k) p (in_irq k) (g_irqerrno k) (g_pidhash k).
Definition set_g_irqerrno (e : Z) (k : kernel) : kernel :=
  mk_kernel (lk k) (tcbs k) (lists k) (cpu k) (in_irq k) e (g_pidhash k).

(** [p->field] and [p->field = v] *)
Definition get_tcb (k : kernel) (p : Z) : option tcb_s := if p =? 0 then None else Some (tcbs k p).
Definition upd_tcb (k : kernel) (p : Z) (f : tcb_s -> tcb_s) : option kernel :=
  if p =? 0 then None else Some (set_tcbs (upd (tcbs k) p (f (tcbs k p))) k).

Definition rtr_head (k : kernel) : Z := head (lists k g_readytorun).

Definition SCHED_PRIORITY_MIN : Z := 1.
Definition SCHED_PRIORITY_MAX : Z := 255.
Definition MAX_LOCK_COUNT : Z := 127.
Definition TCB_FLAG_ROUND_ROBIN : Z := 16.
Definition CONFIG_MAX_TASKS : Z := 16.
Definition CONFIG_RR_INTERVAL : Z := 100.
Definition MSEC_PER_TICK : Z := 10.
Definition MSEC2TICK (msec : Z) : Z := (msec + MSEC_PER_TICK / 2) / MSEC_PER_TICK.
Definition EINVAL : Z := 22.
Definition ESRCH : Z := 3.
Definition OK : Z := 0.
Definition ERROR : Z := -1.

(** A list holds at most [CONFIG_MAX_TASKS] tasks. *)
Definition list_fuel : nat := S (Z.to_nat CONFIG_MAX_TASKS).

(** ** errno *)

(** The task whose TCB holds the error number, or the one of interrupt handlers. *)
Definition get_errno_ptr (k : kernel) : option Z :=
  let rtcb := rtr_head k in
  if negb (in_irq k) && negb (rtcb =? 0) && bool_decide (task_state (tcbs k rtcb) = TSTATE_TASK_RUNNING)
  then Some rtcb else None.

Definition set_errno (k : kernel) (errcode : Z) : kernel :=
  match get_errno_ptr k with
  | Some rtcb => set_tcbs (upd (tcbs k) rtcb (set_pterrno errcode (tcbs k rtcb))) k
  | None => set_g_irqerrno errcode k
  end.

Definition get_errno (k : kernel) : Z :=
  match get_errno_ptr k with Some rtcb => pterrno (tcbs k rtcb) | None => g_irqerrno k end.

(** ** Prioritized lists *)

(** The loop [for (; next && sched_priority <= next->sched_priority; next = next->flink)]. *)
Fixpoint find_lower (fuel : nat) (k : kernel) (priority next : Z) : option Z :=
  match fuel with
  | O => None
  | S fuel =>
      if next =? 0 then Some 0
      else if priority <=? sched_priority (tcbs k next) then find_lower fuel k priority (flink (lk k) next)
      else Some next
  end.

Definition sched_addprioritized (k : kernel) (tcb : Z) (tl : tasklist) : option (kernel * bool) :=
  t ← get_tcb k tcb;
  _ ← assert (SCHED_PRIORITY_MIN <=? sched_priority t);
  next ← find_lower list_fuel k (sched_priority t) (head (lists k tl));
  if next =? 0 then
    let prev := tail (lists k tl) in
    if prev =? 0 then
      L ← set_flink (lk k) tcb 0;
      L ← set_blink L tcb 0;
      Some (set_list tl (mk_queue tcb tcb) (set_lk L k), true)
    else
      L ← set_flink (lk k) tcb 0;
      L ← set_blink L tcb prev;
      L ← set_flink L prev tcb;
      Some (set_list tl (mk_queue (head (lists k tl)) tcb) (set_lk L k), false)
  else
    prev ← get_blink (lk k) next;
    if prev =? 0 then
      L ← set_flink (lk k) tcb next;
      L ← set_blink L tcb 0;
      L ← set_blink L next tcb;
      Some (set_list tl (mk_queue tcb (tail (lists k tl))) (set_lk L k), true)
    else
      L ← set_flink (lk k) tcb next;
      L ← set_blink L tcb prev;
      L ← set_flink L prev tcb;
      L ← set_blink L next tcb;
      Some (set_lk L k, false).

(** ** Ready-to-run, pending and blocked tasks *)

Definition sched_addreadytorun (k : kernel) (btcb : Z) : option (kernel * bool) :=
  let rtcb := rtr_head k in
  r ← get_tcb k rtcb;
  b ← get_tcb k btcb;
  if negb (lockcount r =? 0) && (sched_priority r <? sched_priority b) then
    '(k, _) ← sched_addprioritized k btcb g_pendingtasks;
    k ← upd_tcb k btcb (set_task_state TSTATE_TASK_PENDING);
    Some (k, false)
  else
    '(k, first) ← sched_addprioritized k btcb g_readytorun;
    if (first : bool) then
      r ← get_tcb k rtcb;
      next ← get_flink (lk k) btcb;
      _ ← assert ((lockcount r =? 0) && negb (next =? 0));
      k ← upd_tcb k btcb (set_task_state TSTATE_TASK_RUNNING);
      k ← upd_tcb k next (set_task_state TSTATE_TASK_READYTORUN);
      Some (k, true)
    else
      k ← upd_tcb k btcb (set_task_state TSTATE_TASK_READYTORUN);
      Some (k, false).

Definition sched_removereadytorun (k : kernel) (rtcb : Z) : option (kernel * bool) :=
  prev ← get_blink (lk k) rtcb;
  '(k, ret) ←
    (if prev =? 0 then
       ntcb ← get_flink (lk k) rtcb;
       _ ← assert (negb (ntcb =? 0));
       k ← upd_tcb k ntcb (set_task_state TSTATE_TASK_RUNNING);
       Some (k, true)
     else Some (k, false));
  '(L, q) ← dq_rem (lk k) rtcb (lists k g_readytorun);
  let k := set_list g_readytorun q (set_lk L k) in
  k ← upd_tcb k rtcb (set_task_state TSTATE_TASK_INVALID);
  Some (k, ret : bool).

(** One round of the loop of [sched_mergepending]: insert [pndtcb] before the
    first task of lower priority at or after [rtrtcb]. *)
Definition merge_one (k : kernel) (pndtcb rtrtcb : Z) (ret : bool) : option (kernel * bool) :=
  p ← get_tcb k pndtcb;
  rtrtcb ← find_lower list_fuel k (sched_priority p) rtrtcb;
  _ ← assert (negb (rtrtcb =? 0));
  rtrprev ← get_blink (lk k) rtrtcb;
  if rtrprev =? 0 then
    L ← set_flink (lk k) pndtcb rtrtcb;
    L ← set_blink L pndtcb 0;
    L ← set_blink L rtrtcb pndtcb;
    let k := set_list g_readytorun (mk_queue pndtcb (tail (lists k g_readytorun))) (set_lk L k) in
    k ← upd_tcb k rtrtcb (set_task_state TSTATE_TASK_READYTORUN);
    k ← upd_tcb k pndtcb (set_task_state TSTATE_TASK_RUNNING);
    Some (k, true)
  else
    L ← set_flink (lk k) pndtcb rtrtcb;
    L ← set_blink L pndtcb rtrprev;
    L ← set_flink L rtrprev pndtcb;
    L ← set_blink L rtrtcb pndtcb;
    k ← upd_tcb (set_lk L k) pndtcb (set_task_state TSTATE_TASK_READYTORUN);
    Some (k, ret).

Fixpoint merge_loop (fuel : nat) (k : kernel) (pndtcb rtrtcb : Z) (ret : bool) : option (kernel * bool) :=
  match fuel with
  | O => None
  | S fuel =>
      if pndtcb =? 0 then Some (k, ret)
      else
        pndnext ← get_flink (lk k) pndtcb;
        '(k, ret) ← merge_one k pndtcb rtrtcb ret;
        merge_loop fuel k pndnext pndtcb ret
  end.

Definition sched_mergepending (k : kernel) : option (kernel * bool) :=
  '(k, ret) ← merge_loop list_fuel k (head (lists k g_pendingtasks)) (rtr_head k) false;
  Some (set_list g_pendingtasks empty_queue k, ret).

Definition sched_addblocked (k : kernel) (btcb : Z) (state : tstate) : option kernel :=
  _ ← assert (is_blocked state);
  tl ← (g_tasklisttable state).1;
  k ←
    (if (g_tasklisttable state).2 then r ← sched_addprioritized k btcb tl; Some r.1
     else '(L, q) ← dq_addlast (lk k) btcb (lists k tl); Some (set_list tl q (set_lk L k)));
  upd_tcb k btcb (set_task_state state).

Definition sched_removeblocked (k : kernel) (btcb : Z) : option kernel :=
  b ← get_tcb k btcb;
  _ ← assert (is_blocked (task_state b));
  tl ← (g_tasklisttable (task_state b)).1;
  '(L, q) ← dq_rem (lk k) btcb (lists k tl);
  upd_tcb (set_list tl q (set_lk L k)) btcb (set_task_state TSTATE_TASK_INVALID).

(** ** Context switches (armv7-r)

    Saving the registers of the old task and restoring those of the task at
    the head of the ready-to-run list: at once from task level, on return
    from the interrupt in a handler. *)

Definition switch_context (k : kernel) : kernel := set_cpu (rtr_head k) k.

Definition up_block_task (k : kernel) (tcb : Z) (state : tstate) : option kernel :=
  t ← get_tcb k tcb;
  _ ← assert (is_readytorun (task_state t));
  '(k, switch_needed) ← sched_removereadytorun k tcb;
  k ← sched_addblocked k tcb state;
  '(k, switch_needed) ←
    (if head (lists k g_pendingtasks) =? 0 then Some (k, switch_needed)
     else '(k, changed) ← sched_mergepending k; Some (k, switch_needed || changed));
  Some (if (switch_needed : bool) then switch_context k else k).

Definition up_unblock_task (k : kernel) (tcb : Z) : option kernel :=
  t ← get_tcb k tcb;
  _ ← assert (is_blocked (task_state t));
  k ← sched_removeblocked k tcb;
  '(k, changed) ← sched_addreadytorun k tcb;
  Some (if (changed : bool) then switch_context k else k).

(** Returns whether the task at the head changed, and with it the context. *)
Definition up_release_pending (k : kernel) : option (kernel * bool) :=
  '(k, changed) ← sched_mergepending k;
  Some (if (changed : bool) then switch_context k else k, changed).

Definition up_reprioritize_rtr (k : kernel) (tcb priority : Z) : option kernel :=
  t ← get_tcb k tcb;
  _ ← assert (is_readytorun (task_state t) && (SCHED_PRIORITY_MIN <=? priority));
  '(k, removed) ← sched_removereadytorun k tcb;
  k ← upd_tcb k tcb (set_sched_priority priority);
  '(k, first) ← sched_addreadytorun k tcb;
  let switch_needed := xorb removed first in
  if switch_needed then
    k ← (if head (lists k g_pendingtasks) =? 0 then Some k else r ← sched_mergepending k; Some r.1);
    Some (switch_context k)
  else Some k.

(** ** Preemption lock *)

Definition sched_lock (k : kernel) : option kernel :=
  let rtcb := rtr_head k in
  if negb (rtcb =? 0) && negb (in_irq k) then
    _ ← assert (lockcount (tcbs k rtcb) <? MAX_LOCK_COUNT);
    upd_tcb k rtcb (fun t => set_lockcount (lockcount t + 1) t)
  else Some k.

(** The part of [sched_unlock] after [up_release_pending]; when that switched
    contexts it runs once [rtcb] is resumed. *)
Definition sched_unlock_slice (rtcb : Z) (k : kernel) : option kernel :=
  t ← get_tcb k rtcb;
  if negb (Z.land (flags t) TCB_FLAG_ROUND_ROBIN =? 0) && (timeslice t =? 0) && negb (rtcb =? rtr_head k)
  then upd_tcb k rtcb (set_timeslice (MSEC2TICK CONFIG_RR_INTERVAL))
  else Some k.

Definition sched_unlock (k : kernel) : option kernel :=
  let rtcb := rtr_head k in
  if negb (rtcb =? 0) && negb (in_irq k) then
    k ← upd_tcb k rtcb (fun t => if lockcount t =? 0 then t else set_lockcount (lockcount t - 1) t);
    if lockcount (tcbs k rtcb) <=? 0 then
      k ← upd_tcb k rtcb (set_lockcount 0);
      '(k, switched) ←
        (if head (lists k g_pendingtasks) =? 0 then Some (k, false) else up_release_pending k);
      if (switched : bool) then Some k else sched_unlock_slice rtcb k
    else Some k
  else Some k.

Definition sched_lockcount (k : kernel) : option Z := r ← get_tcb k (rtr_head k); Some (lockcount r).

(** ** Priorities *)

Definition sched_setpriority (k : kernel) (tcb priority : Z) : option (kernel * Z) :=
  if (priority <? SCHED_PRIORITY_MIN) || (SCHED_PRIORITY_MAX <? priority) then Some (set_errno k EINVAL, ERROR)
  else
    t ← get_tcb k tcb;
    k ←
      match task_state t with
      | TSTATE_TASK_RUNNING =>
          next ← get_flink (lk k) tcb;
          n ← get_tcb k next;
          if priority <=? sched_priority n then up_reprioritize_rtr k tcb (u8 priority)
          else upd_tcb k tcb (set_sched_priority (u8 priority))
      | TSTATE_TASK_READYTORUN =>
          r ← get_tcb k (rtr_head k);
          if sched_priority r <? priority then up_reprioritize_rtr k tcb (u8 priority)
          else
            '(k, changed) ← sched_removereadytorun k tcb;
            _ ← assert (negb changed);
            k ← upd_tcb k tcb (set_sched_priority (u8 priority));
            '(k, changed) ← sched_addreadytorun k tcb;
            _ ← assert (negb changed);
            Some k
      | state =>
          if (g_tasklisttable state).2 then
            tl ← (g_tasklisttable state).1;
            '(L, q) ← dq_rem (lk k) tcb (lists k tl);
            k ← upd_tcb (set_list tl q (set_lk L k)) tcb (set_sched_priority (u8 priority));
            r ← sched_addprioritized k tcb tl;
            Some r.1
          else upd_tcb k tcb (set_sched_priority (u8 priority))
      end;
    Some (k, OK).

Definition sched_reprioritize (k : kernel) (tcb priority : Z) : option (kernel * Z) :=
  '(k, ret) ← sched_setpriority k tcb priority;
  if ret =? 0 then
    k ← upd_tcb k tcb (set_base_priority (u8 priority));
    k ← upd_tcb k tcb (set_npend_reprio 0);
    Some (k, ret)
  else Some (k, ret).

Definition sched_yield (k : kernel) : option (kernel * Z) :=
  r ← get_tcb k (rtr_head k);
  sched_setpriority k (rtr_head k) (sched_priority r).

(** ** Round-robin time slices *)

Definition sched_process_timeslice (k : kernel) : option kernel :=
  let rtcb := rtr_head k in
  r ← get_tcb k rtcb;
  if negb (Z.land (flags r) TCB_FLAG_ROUND_ROBIN =? 0) then
    if timeslice r <=? 1 then
      if lockcount r =? 0 then
        k ← upd_tcb k rtcb (set_timeslice (MSEC2TICK CONFIG_RR_INTERVAL));
        next ← get_flink (lk k) rtcb;
        if negb (next =? 0) && (sched_priority r <=? sched_priority (tcbs k next))
        then up_reprioritize_rtr k rtcb (sched_priority r)
        else Some k
      else Some k
    else upd_tcb k rtcb (set_timeslice (timeslice r - 1))
  else Some k.
