(* ===== verification/SchedProps.v ===== *)
(** * Scheduler: the lists behind the links

    [krep] relates the link fields to one list of tasks per list header,
    [sched_inv] is the invariant of the task lists (sorted, states in step
    with the lists, the idle task last), and every list operation of [Sched]
    is shown to keep it and to do on the lists what it is meant to. *)

From stdpp Require Import base tactics numbers sets list sorting.
From S2P Require Import Prelude Queue QueueProps Sched.

Definition prio (k : kernel) (x : Z) : Z := sched_priority (tcbs k x).
Definition state (k : kernel) (x : Z) : tstate := task_state (tcbs k x).
Definition lock (k : kernel) (x : Z) : Z := lockcount (tcbs k x).

(** The tasks of every list. *)
Abbreviation tasks := (tasklist -> list Z).

Definition set_tasks (A : tasks) (tl : tasklist) (l : list Z) : tasks := fun t => if decide (t = tl) then l else A t.

Record krep (k : kernel) (A : tasks) : Prop := {
  kr_list tl : dq_rep (lk k) (lists k tl) (A tl);
  kr_once t1 t2 x : x ∈ A t1 -> x ∈ A t2 -> t1 = t2
}.

Definition unlisted (A : tasks) (x : Z) : Prop := forall tl, x ∉ A tl.

Lemma set_tasks_eq A tl l : set_tasks A tl l tl = l.
Proof. unfold set_tasks. by rewrite decide_True. Qed.

Lemma set_tasks_ne A tl l t : t <> tl -> set_tasks A tl l t = A t.
Proof. intros. unfold set_tasks. by rewrite decide_False. Qed.

(** ** Changing one list *)

Lemma krep_change k A tl L q l :
  krep k A -> dq_rep L q l -> (forall t x, t <> tl -> x ∈ A t -> x ∉ l) ->
  (forall X, X = l ++ A tl -> same_links X (lk k) L) ->
  krep (set_list tl q (set_lk L k)) (set_tasks A tl l).
Proof.
  intros [Hl Ho] Hr Hd Hs. constructor.
  - intros t. unfold set_tasks. simpl. destruct (decide (t = tl)) as [->|Hne]; [done|].
    apply (dq_rep_frame (l ++ A tl) (lk k)); [by apply Hs| |done].
    intros x Hx. rewrite not_elem_of_app. split; [by apply (Hd t)|]. intros Hx'. by apply Hne, (Ho t tl x).
  - intros t1 t2 x. unfold set_tasks. destruct (decide (t1 = tl)) as [->|H1], (decide (t2 = tl)) as [->|H2]; [done|..].
    + intros Hx Hx2. by destruct (Hd t2 x).
    + intros Hx Hx2. by destruct (Hd t1 x).
    + apply Ho.
Qed.

Lemma same_links_weaken X Y L L' : (forall x, x ∈ X -> x ∈ Y) -> same_links X L L' -> same_links Y L L'.
Proof. intros HX H x Hx. apply H. intros Hin. by apply Hx, HX. Qed.

(** Taking a task out of its list. *)
Lemma krep_rem k A tl l1 x l2 :
  krep k A -> A tl = l1 ++ x :: l2 ->
  exists L q, dq_rem (lk k) x (lists k tl) = Some (L, q) /\
    krep (set_list tl q (set_lk L k)) (set_tasks A tl (l1 ++ l2)) /\
    unlisted (set_tasks A tl (l1 ++ l2)) x /\ x <> 0.
Proof.
  intros Hk Htl. pose proof (kr_list _ _ Hk tl) as Hr. rewrite Htl in Hr.
  pose proof (dq_nodup _ _ _ Hr) as [Hnd Hx]%NoDup_remove'. pose proof (dq_null _ _ _ Hr) as H0.
  destruct (dq_rem_spec _ _ _ _ _ Hr) as (L & q & Hrun & Hr' & Hs). exists L, q. split; [done|]. split; [|split].
  - apply krep_change; try done.
    + intros t y Hne Hy Hin. apply Hne, (kr_once _ _ Hk t tl y); [done|]. rewrite Htl. set_solver.
    + intros X ->. rewrite Htl. revert Hs. apply same_links_weaken. set_solver.
  - intros t. unfold set_tasks. destruct (decide (t = tl)) as [->|Hne]; [done|]. intros Hin.
    apply Hne, (kr_once _ _ Hk t tl x); [done|]. rewrite Htl. set_solver.
  - set_solver.
Qed.

(** Putting an unlisted task into a list. *)
Lemma krep_ins k A tl l1 x l2 L q :
  krep k A -> unlisted A x -> A tl = l1 ++ l2 ->
  dq_rep L q (l1 ++ x :: l2) -> same_links (x :: l1 ++ l2) (lk k) L ->
  krep (set_list tl q (set_lk L k)) (set_tasks A tl (l1 ++ x :: l2)).
Proof.
  intros Hk Hx Htl Hr Hs. apply krep_change; try done.
  - intros t y Hne Hy Hin. apply elem_of_app in Hin as [Hin|[->|Hin]%elem_of_cons].
    + apply Hne, (kr_once _ _ Hk t tl y); [done|]. rewrite Htl. set_solver.
    + by apply (Hx t).
    + apply Hne, (kr_once _ _ Hk t tl y); [done|]. rewrite Htl. set_solver.
  - intros X ->. revert Hs. apply same_links_weaken. rewrite Htl. set_solver.
Qed.

(** ** Prioritized insertion *)

(** The tasks of at least priority [p], as far as they come first; the rest. *)
Fixpoint higher (k : kernel) (p : Z) (l : list Z) : list Z :=
  match l with
  | [] => []
  | y :: l => if p <=? prio k y then y :: higher k p l else []
  end.

Fixpoint lower (k : kernel) (p : Z) (l : list Z) : list Z :=
  match l with
  | [] => []
  | y :: l' => if p <=? prio k y then lower k p l' else l
  end.

Definition prio_insert (k : kernel) (x : Z) (l : list Z) : list Z :=
  higher k (prio k x) l ++ x :: lower k (prio k x) l.

Lemma higher_lower k p l : higher k p l ++ lower k p l = l.
Proof. induction l as [|y l IH]; simpl; [done|]. destruct (p <=? prio k y); simpl; [by rewrite IH|done]. Qed.

Lemma higher_ge k p l y : y ∈ higher k p l -> p <= prio k y.
Proof.
  induction l as [|z l IH]; simpl; [intros H; by apply elem_of_nil in H|].
  destruct (Z.leb_spec p (prio k z)); [|intros H'; by apply elem_of_nil in H'].
  intros [->|Hy]%elem_of_cons; [done|by apply IH].
Qed.

Lemma lower_lt k p l y l' : lower k p l = y :: l' -> prio k y < p.
Proof.
  induction l as [|z l IH]; simpl; [done|]. destruct (Z.leb_spec p (prio k z)); [done|]. intros [= -> ->]. done.
Qed.

Lemma prio_insert_perm k x l : prio_insert k x l ≡ₚ x :: l.
Proof. unfold prio_insert. by rewrite <- Permutation_middle, higher_lower. Qed.

Lemma prio_insert_in k x l y : y ∈ prio_insert k x l <-> y = x \/ y ∈ l.
Proof. by rewrite prio_insert_perm, elem_of_cons. Qed.

Lemma find_lower_spec fuel k p l0 l :
  seg (flink (lk k)) (l0 ++ l) 0 -> 0 ∉ l0 ++ l -> (length l < fuel)%nat ->
  find_lower fuel k p (hd_or l 0) = Some (hd_or (lower k p l) 0).
Proof.
  revert l0 l. induction fuel as [|fuel IH]; intros l0 l Hs H0 Hf; [lia|]. simpl.
  destruct l as [|y l]; simpl in *; [done|]. destruct (Z.eqb_spec y 0) as [->|_]; [set_solver|]. unfold prio.
  destruct (p <=? sched_priority (tcbs k y)); [|done].
  pose proof Hs as [_ [Hy _]]%seg_app. rewrite Hy. apply (IH (l0 ++ [y])); [by rewrite <- app_assoc|by rewrite <- app_assoc|lia].
Qed.

(** ** What a list operation leaves alone *)

(** [k'] is [k] but for the lists and the task states. *)
Record frame (k k' : kernel) : Prop := {
  fr_tcb y : tcbs k' y = set_task_state (state k' y) (tcbs k y);
  fr_cpu : cpu k' = cpu k;
  fr_irq : in_irq k' = in_irq k;
  fr_errno : g_irqerrno k' = g_irqerrno k;
  fr_hash : g_pidhash k' = g_pidhash k
}.

Lemma frame_refl k : frame k k.
Proof. constructor; try done. intros y. unfold state. by destruct (tcbs k y). Qed.

Lemma frame_trans k1 k2 k3 : frame k1 k2 -> frame k2 k3 -> frame k1 k3.
Proof.
  intros [H1 ? ? ? ?] [H2 ? ? ? ?]. constructor; try congruence. intros y. rewrite H2, H1. done.
Qed.

Lemma frame_prio k k' y : frame k k' -> prio k' y = prio k y.
Proof. intros [H _ _ _ _]. unfold prio. by rewrite H. Qed.

Lemma frame_lock k k' y : frame k k' -> lock k' y = lock k y.
Proof. intros [H _ _ _ _]. unfold lock. by rewrite H. Qed.

Lemma higher_ext k k' p l : (forall y, y ∈ l -> prio k' y = prio k y) -> higher k' p l = higher k p l.
Proof.
  induction l as [|z l IH]; simpl; intros H; [done|]. rewrite H by set_solver. rewrite IH by set_solver. done.
Qed.

Lemma lower_ext k k' p l : (forall y, y ∈ l -> prio k' y = prio k y) -> lower k' p l = lower k p l.
Proof.
  induction l as [|z l IH]; simpl; intros H; [done|]. rewrite H by set_solver. rewrite IH by set_solver. done.
Qed.

Lemma prio_insert_ext k k' x l :
  prio k' x = prio k x -> (forall y, y ∈ l -> prio k' y = prio k y) -> prio_insert k' x l = prio_insert k x l.
Proof. intros Hx H. unfold prio_insert. by rewrite Hx, (higher_ext k k'), (lower_ext k k'). Qed.

Lemma krep_ext k k' A : lk k' = lk k -> (forall t, lists k' t = lists k t) -> krep k A -> krep k' A.
Proof. intros HL Hq [Hl Ho]. constructor; [|done]. intros t. by rewrite HL, Hq. Qed.

Lemma krep_tasks_ext k A A' : (forall t, A' t = A t) -> krep k A -> krep k A'.
Proof.
  intros HA [Hl Ho]. constructor.
  - intros t. by rewrite HA.
  - intros t1 t2 x. rewrite !HA. apply Ho.
Qed.

(** ** sched_addprioritized *)

Definition max_tasks : nat := Z.to_nat CONFIG_MAX_TASKS.

(** The insertion done by the last branch of the function, in terms of [dq_addbefore]. *)
Lemma sched_addprioritized_eq k A x tl :
  krep k A -> unlisted A x -> x <> 0 -> 1 <= prio k x -> (length (A tl) <= max_tasks)%nat ->
  exists L q k', sched_addprioritized k x tl = Some (k', bool_decide (higher k (prio k x) (A tl) = [])) /\
    dq_rep L q (prio_insert k x (A tl)) /\ same_links (x :: A tl) (lk k) L /\
    lk k' = L /\ (forall t, lists k' t = lists (set_list tl q k) t) /\
    tcbs k' = tcbs k /\ cpu k' = cpu k /\ in_irq k' = in_irq k /\ g_irqerrno k' = g_irqerrno k /\ g_pidhash k' = g_pidhash k.
Proof.
  intros Hk Hun Hx0 Hp Hlen. pose proof (kr_list _ _ Hk tl) as Hr. pose proof (Hun tl) as Hx.
  unfold sched_addprioritized, get_tcb. destruct (Z.eqb_spec x 0) as [?|_]; [done|]. cbn [mbind option_bind].
  rewrite assert_true by (apply Z.leb_le; exact Hp). cbn [mbind option_bind].
  rewrite (dq_head _ _ _ Hr), (find_lower_spec _ _ _ []);
    [|apply Hr|apply Hr|unfold list_fuel, max_tasks in *; lia]. cbn [mbind option_bind]. fold (prio k x).
  unfold prio_insert. set (l1 := higher k (prio k x) (A tl)). set (l2 := lower k (prio k x) (A tl)).
  assert (Hl : A tl = l1 ++ l2) by (symmetry; apply higher_lower). rewrite Hl in *.
  destruct l2 as [|n l2]; simpl.
  - rewrite app_nil_r in *. destruct (dq_addlast_spec _ _ _ x Hr Hx Hx0) as (L & q & Hrun & Hr' & Hs).
    unfold dq_addlast in Hrun. revert Hrun. qrun. rewrite (dq_tail _ _ _ Hr), (dq_head _ _ _ Hr).
    destruct l1 as [|p l1 _] using rev_ind.
    + intros [= <- <-]. simpl. eexists _, _, _. split; [done|]. split_and!; try done.
    + rewrite last_or_snoc, hd_or_app. pose proof (dq_null _ _ _ Hr).
      destruct (Z.eqb_spec p 0) as [->|Hp0]; [set_solver|].
      destruct (Z.eqb_spec (hd_or l1 (hd_or [p] 0)) 0) as [E|_].
      { destruct l1; simpl in E; set_solver. }
      qrun. intros [= <- <-]. rewrite bool_decide_eq_false_2 by (by destruct l1).
      eexists _, _, _. split; [done|]. split_and!; done.
  - destruct (dq_addbefore_spec _ _ _ _ _ x Hr Hx Hx0) as (L & q & Hrun & Hr' & Hs).
    pose proof (dq_next_of _ _ _ _ _ Hr) as (Hn0 & _ & Hb). pose proof (dq_head _ _ _ Hr) as Hh.
    pose proof (dq_null _ _ _ Hr) as Hnull. pose proof (dq_nodup _ _ _ Hr) as Hnd.
    destruct (Z.eqb_spec n 0) as [?|_]; [done|]. rewrite get_blink_ok, Hb by done. cbn [mbind option_bind].
    unfold dq_addbefore in Hrun. rewrite Hh in Hrun. destruct l1 as [|p l1 _] using rev_ind.
    + simpl in *. destruct (Z.eqb_spec n 0) as [?|_]; [done|]. simpl in Hrun. rewrite Z.eqb_refl in Hrun.
      unfold dq_addfirst in Hrun. rewrite Hh in Hrun. destruct (Z.eqb_spec n 0) as [?|_]; [done|].
      revert Hrun. qrun. intros [= <- <-]. eexists _, _, _. split; [done|]. split_and!; done.
    + rewrite last_or_snoc in *. destruct (Z.eqb_spec p 0) as [->|Hp0]; [set_solver|].
      rewrite hd_or_app in Hrun. revert Hrun.
      destruct (Z.eqb_spec (hd_or (l1 ++ [p]) (hd_or (n :: l2) 0)) 0) as [E|_].
      { destruct l1; simpl in E; set_solver. }
      destruct (Z.eqb_spec n (hd_or (l1 ++ [p]) (hd_or (n :: l2) 0))) as [E|_].
      { destruct l1; simpl in E; subst; qside. }
      simpl. qrun. rewrite Hb. qrun. intros [= <- <-]. rewrite bool_decide_eq_false_2 by (by destruct l1).
      eexists _, _, _. split; [done|]. split_and!; try done. intros t. simpl. by destruct (decide (t = tl)) as [->|].
Qed.

(** [k'] is [k] but for the links. *)
Record relinked (k k' : kernel) : Prop := {
  rl_tcbs : tcbs k' = tcbs k;
  rl_cpu : cpu k' = cpu k;
  rl_irq : in_irq k' = in_irq k;
  rl_errno : g_irqerrno k' = g_irqerrno k;
  rl_hash : g_pidhash k' = g_pidhash k
}.

Lemma relinked_frame k k' : relinked k k' -> frame k k'.
Proof. intros [H ? ? ? ?]. constructor; try done. intros y. unfold state. rewrite H. by destruct (tcbs k y). Qed.

Lemma sched_addprioritized_spec k A x tl :
  krep k A -> unlisted A x -> x <> 0 -> 1 <= prio k x -> (length (A tl) <= max_tasks)%nat ->
  exists k', sched_addprioritized k x tl = Some (k', bool_decide (higher k (prio k x) (A tl) = [])) /\
    krep k' (set_tasks A tl (prio_insert k x (A tl))) /\ relinked k k'.
Proof.
  intros Hk Hun Hx0 Hp Hlen.
  destruct (sched_addprioritized_eq k A x tl Hk Hun Hx0 Hp Hlen) as (L & q & k' & Hrun & Hr & Hs & HL & Hq & Hrest).
  exists k'. split; [done|]. split; [|constructor; apply Hrest].
  apply (krep_ext (set_list tl q (set_lk L k))); [done|done|].
  apply krep_ins; try done; by rewrite higher_lower.
Qed.

(** ** Order *)

Definition sorted (k : kernel) (l : list Z) : Prop := StronglySorted (fun x y => prio k y <= prio k x) l.

Lemma sorted_ext k k' l : (forall y, y ∈ l -> prio k' y = prio k y) -> sorted k l -> sorted k' l.
Proof.
  unfold sorted. induction l as [|x l IH]; intros H Hs; [constructor|]. apply StronglySorted_inv in Hs as [Hs Hx].
  constructor; [apply IH; [set_solver|done]|]. rewrite Forall_forall in *. intros y Hy.
  rewrite !H by set_solver. by apply Hx.
Qed.

Lemma sorted_app k l1 l2 :
  sorted k (l1 ++ l2) <-> sorted k l1 /\ sorted k l2 /\ forall x y, x ∈ l1 -> y ∈ l2 -> prio k y <= prio k x.
Proof.
  unfold sorted. induction l1 as [|z l1 IH]; simpl.
  - split; [intros; split_and!; [constructor|done|set_solver]|tauto].
  - split.
    + intros [Hs Hz]%StronglySorted_inv. apply IH in Hs as (H1 & H2 & H3). rewrite Forall_app in Hz. destruct Hz as [Hz1 Hz2].
      split_and!; [by constructor|done|]. intros x y [->|Hx]%elem_of_cons Hy; [|by apply H3].
      rewrite Forall_forall in Hz2. by apply Hz2.
    + intros ([H1 Hz]%StronglySorted_inv & H2 & H3). constructor.
      * apply IH. split_and!; [done|done|]. intros x y Hx. apply H3. set_solver.
      * apply Forall_app. split; [done|]. apply Forall_forall. intros y Hy. apply H3; set_solver.
Qed.

Lemma sorted_cons k x l : sorted k (x :: l) <-> sorted k l /\ forall y, y ∈ l -> prio k y <= prio k x.
Proof.
  unfold sorted. split.
  - intros [? H]%StronglySorted_inv. rewrite Forall_forall in H. done.
  - intros [? H]. constructor; [done|]. by apply Forall_forall.
Qed.

Lemma sorted_remove k l1 x l2 : sorted k (l1 ++ x :: l2) -> sorted k (l1 ++ l2).
Proof.
  rewrite !sorted_app, sorted_cons. intros (H1 & [H2 _] & H3). split_and!; [done|done|].
  intros y z Hy Hz. apply H3; [done|set_solver].
Qed.

Lemma prio_insert_sorted k x l : sorted k l -> sorted k (prio_insert k x l).
Proof.
  intros Hs. rewrite <- (higher_lower k (prio k x) l) in Hs. apply sorted_app in Hs as (H1 & H2 & H3).
  unfold prio_insert. apply sorted_app. split_and!; [done| |].
  - apply sorted_cons. split; [done|]. intros y Hy. destruct (lower k (prio k x) l) as [|n l2] eqn:E; [by apply elem_of_nil in Hy|].
    pose proof (lower_lt _ _ _ _ _ E). apply sorted_cons in H2 as [_ H2]. apply elem_of_cons in Hy as [->|Hy]; [lia|].
    specialize (H2 y Hy). lia.
  - intros y z Hy [->|Hz]%elem_of_cons; [by eapply higher_ge|by apply H3].
Qed.

(** The search may start behind tasks of at least the priority. *)
Lemma higher_app k p l1 l2 : (forall y, y ∈ l1 -> p <= prio k y) -> higher k p (l1 ++ l2) = l1 ++ higher k p l2.
Proof.
  induction l1 as [|z l1 IH]; simpl; intros H; [done|]. destruct (Z.leb_spec p (prio k z)) as [_|Hlt].
  - rewrite IH; [done|]. intros y Hy. apply H. set_solver.
  - pose proof (H z ltac:(set_solver)). lia.
Qed.

Lemma lower_app k p l1 l2 : (forall y, y ∈ l1 -> p <= prio k y) -> lower k p (l1 ++ l2) = lower k p l2.
Proof.
  induction l1 as [|z l1 IH]; simpl; intros H; [done|]. destruct (Z.leb_spec p (prio k z)) as [_|Hlt].
  - apply IH. intros y Hy. apply H. set_solver.
  - pose proof (H z ltac:(set_solver)). lia.
Qed.

(** ** The invariant *)

(** The state a task of list [tl] is in; [first] is the head of the ready-to-run list. *)
Definition expected (first : Z) (tl : tasklist) (y : Z) : tstate :=
  match tl with
  | g_readytorun => if decide (y = first) then TSTATE_TASK_RUNNING else TSTATE_TASK_READYTORUN
  | g_pendingtasks => TSTATE_TASK_PENDING
  | g_waitingforsemaphore => TSTATE_WAIT_SEM
  | g_waitingforsignal => TSTATE_WAIT_SIG
  | g_waitingformqnotempty => TSTATE_WAIT_MQNOTEMPTY
  | g_waitingformqnotfull => TSTATE_WAIT_MQNOTFULL
  | g_inactivetasks => TSTATE_TASK_INACTIVE
  end.

Definition is_prioritized (tl : tasklist) : bool :=
  match tl with g_waitingforsignal | g_inactivetasks => false | _ => true end.

Definition running (A : tasks) : Z := hd_or (A g_readytorun) 0.

(** The invariant of the task lists, for the set of tasks [T] and the idle task. *)
Record sched_inv (T : list Z) (idle : Z) (k : kernel) (A : tasks) : Prop := {
  si_rep : krep k A;
  si_size : (length T <= max_tasks)%nat;
  si_tasks tl x : x ∈ A tl -> x ∈ T;
  si_state tl x : x ∈ A tl -> state k x = expected (running A) tl x;
  si_sorted tl : is_prioritized tl -> sorted k (A tl);
  si_idle : exists l, A g_readytorun = l ++ [idle];
  si_idle_prio : prio k idle = 0;
  si_prio tl x : x ∈ A tl -> x <> idle -> 1 <= prio k x <= 255;
  si_lock x : 0 <= lock k x
}.

Lemma si_length T idle k A tl : sched_inv T idle k A -> (length (A tl) <= max_tasks)%nat.
Proof.
  intros H. etrans; [|apply (si_size _ _ _ _ H)]. apply submseteq_length, NoDup_submseteq.
  - apply (dq_nodup _ _ _ (kr_list _ _ (si_rep _ _ _ _ H) tl)).
  - intros x. apply (si_tasks _ _ _ _ H).
Qed.

Lemma running_in T idle k A : sched_inv T idle k A -> running A ∈ A g_readytorun /\ running A <> 0.
Proof.
  intros H. destruct (si_idle _ _ _ _ H) as [l Hl]. pose proof (dq_null _ _ _ (kr_list _ _ (si_rep _ _ _ _ H) g_readytorun)) as H0.
  unfold running. rewrite Hl in *. assert (Hin : hd_or (l ++ [idle]) 0 ∈ l ++ [idle]) by (destruct l; set_solver).
  split; [done|]. intros E. by rewrite E in Hin.
Qed.

Lemma rtr_head_running T idle k A : sched_inv T idle k A -> rtr_head k = running A.
Proof. intros H. apply (dq_head _ _ _ (kr_list _ _ (si_rep _ _ _ _ H) g_readytorun)). Qed.
