(* ===== verification/SchedOps.v ===== *)
(** * Scheduler: the list operations keep the invariant

    For each operation of [Sched] that moves tasks: it returns, keeps
    [sched_inv], and changes the lists as stated. *)

From stdpp Require Import base tactics numbers sets list sorting.
From S2P Require Import Prelude Queue QueueProps Sched SchedProps.

(** ** Updates of one task *)

Definition put_tcb (p : Z) (f : tcb_s -> tcb_s) (k : kernel) : kernel := set_tcbs (upd (tcbs k) p (f (tcbs k p))) k.
Abbreviation put_state p s k := (put_tcb p (set_task_state s) k).

Lemma upd_tcb_ok k p f : p <> 0 -> upd_tcb k p f = Some (put_tcb p f k).
Proof. intros. unfold upd_tcb. by destruct (Z.eqb_spec p 0). Qed.

Lemma get_tcb_ok k p : p <> 0 -> get_tcb k p = Some (tcbs k p).
Proof. intros. unfold get_tcb. by destruct (Z.eqb_spec p 0). Qed.

(** Runs the accesses to TCBs at addresses known not to be null. *)
Ltac krun :=
  repeat first
    [ rewrite upd_tcb_ok by done | rewrite get_tcb_ok by done
    | rewrite get_flink_ok by done | rewrite get_blink_ok by done
    | progress cbn [mbind option_bind lk tcbs lists cpu in_irq set_list set_lk put_tcb set_tcbs set_cpu] ].

Lemma put_tcb_eq k p f : tcbs (put_tcb p f k) p = f (tcbs k p).
Proof. simpl. apply upd_eq. Qed.

Lemma put_tcb_ne k p f y : y <> p -> tcbs (put_tcb p f k) y = tcbs k y.
Proof. simpl. apply upd_ne. Qed.

Lemma state_put k p s y : state (put_state p s k) y = if decide (y = p) then s else state k y.
Proof. unfold state. simpl. unfold upd. destruct (Z.eqb_spec y p), (decide (y = p)); done. Qed.

Lemma frame_put_state k p s : frame k (put_state p s k).
Proof.
  constructor; try done. intros y. destruct (decide (y = p)) as [->|Hne].
  - unfold state. by rewrite put_tcb_eq.
  - unfold state. rewrite put_tcb_ne by done. by destruct (tcbs k y).
Qed.

Lemma krep_put k A p f : krep k A -> krep (put_tcb p f k) A.
Proof. by apply krep_ext. Qed.

Lemma frame_list k tl q L : frame k (set_list tl q (set_lk L k)).
Proof. by apply relinked_frame. Qed.

(** ** Rebuilding the invariant *)

Section ops.
Context (T : list Z) (idle : Z).
Abbreviation inv := (sched_inv T idle).

Lemma snoc_split (l1 : list Z) x l2 l y :
  l1 ++ x :: l2 = l ++ [y] -> x <> y -> exists l2', l2 = l2' ++ [y] /\ l = l1 ++ x :: l2'.
Proof.
  destruct l2 as [|z l2 _] using rev_ind; intros E Hne.
  - apply app_inj_tail in E as [_ ->]. done.
  - rewrite app_comm_cons, app_assoc in E. apply app_inj_tail in E as [<- ->]. by exists l2.
Qed.

Lemma inv_remove k A k' tl l1 x l2 :
  inv k A -> A tl = l1 ++ x :: l2 -> x <> idle ->
  krep k' (set_tasks A tl (l1 ++ l2)) -> frame k k' ->
  (forall t y, y ∈ set_tasks A tl (l1 ++ l2) t ->
     state k' y = expected (running (set_tasks A tl (l1 ++ l2))) t y) ->
  inv k' (set_tasks A tl (l1 ++ l2)).
Proof.
  intros [Hk Hsz Ht Hst Hso [l Hl] Hip Hp Hlo] Htl Hx Hk' Hf Hst'.
  assert (Hin : forall t y, y ∈ set_tasks A tl (l1 ++ l2) t -> y ∈ A t).
  { intros t y. unfold set_tasks. destruct (decide (t = tl)) as [->|]; [|done]. rewrite Htl. set_solver. }
  constructor; try done.
  - intros t y Hy. by apply (Ht t), Hin.
  - intros t Hpr. apply (sorted_ext k); [intros; by apply frame_prio|].
    unfold set_tasks. destruct (decide (t = tl)) as [->|]; [|by apply Hso].
    apply (sorted_remove _ _ x). rewrite <- Htl. by apply Hso.
  - unfold set_tasks. destruct (decide (g_readytorun = tl)) as [<-|]; [|by exists l].
    rewrite Htl in Hl. destruct (snoc_split _ _ _ _ _ Hl Hx) as (l2' & -> & _). exists (l1 ++ l2'). by rewrite app_assoc.
  - by rewrite (frame_prio k k').
  - intros t y Hy. rewrite (frame_prio k k') by done. by apply (Hp t), Hin.
  - intros y. by rewrite (frame_lock k k').
Qed.

Lemma inv_insert k A k' tl l1 x l2 :
  inv k A -> A tl = l1 ++ l2 -> unlisted A x -> x ∈ T -> 1 <= prio k x <= 255 ->
  krep k' (set_tasks A tl (l1 ++ x :: l2)) -> frame k k' ->
  (is_prioritized tl -> sorted k (l1 ++ x :: l2)) -> (tl = g_readytorun -> l2 <> []) ->
  (forall t y, y ∈ set_tasks A tl (l1 ++ x :: l2) t ->
     state k' y = expected (running (set_tasks A tl (l1 ++ x :: l2))) t y) ->
  inv k' (set_tasks A tl (l1 ++ x :: l2)).
Proof.
  intros [Hk Hsz Ht Hst Hso [l Hl] Hip Hp Hlo] Htl Hun HxT Hpx Hk' Hf Hso' Hne Hst'.
  assert (Hin : forall t y, y ∈ set_tasks A tl (l1 ++ x :: l2) t -> y = x \/ y ∈ A t).
  { intros t y. unfold set_tasks. destruct (decide (t = tl)) as [->|]; [|by right]. rewrite Htl. set_solver. }
  constructor; try done.
  - intros t y Hy. destruct (Hin t y Hy) as [->|]; [done|by apply (Ht t)].
  - intros t Hpr. apply (sorted_ext k); [intros; by apply frame_prio|].
    unfold set_tasks. destruct (decide (t = tl)) as [->|]; [by apply Hso'|by apply Hso].
  - unfold set_tasks. destruct (decide (g_readytorun = tl)) as [<-|]; [|by exists l].
    destruct l2 as [|z l2 _] using rev_ind; [by destruct Hne|].
    rewrite Htl, app_assoc in Hl. apply app_inj_tail in Hl as [_ ->]. exists (l1 ++ x :: l2). by rewrite <- app_assoc.
  - by rewrite (frame_prio k k').
  - intros t y Hy Hyi. rewrite (frame_prio k k') by done. destruct (Hin t y Hy) as [->|]; [done|by apply (Hp t)].
  - intros y. by rewrite (frame_lock k k').
Qed.

(** The idle task has a lower priority than any other. *)
Lemma lower_idle k A p : inv k A -> 1 <= p -> lower k p (A g_readytorun) <> [].
Proof.
  intros H Hp E. destruct (si_idle _ _ _ _ H) as [l Hl].
  assert (idle ∈ higher k p (A g_readytorun)).
  { rewrite <- (app_nil_r (higher _ _ _)), <- E, higher_lower, Hl. set_solver. }
  assert (p <= prio k idle) by (by eapply higher_ge). pose proof (si_idle_prio _ _ _ _ H). lia.
Qed.

Lemma running_set_ne A tl l : tl <> g_readytorun -> running (set_tasks A tl l) = running A.
Proof. intros. unfold running. by rewrite set_tasks_ne. Qed.

Lemma running_set A l : running (set_tasks A g_readytorun l) = hd_or l 0.
Proof. unfold running. by rewrite set_tasks_eq. Qed.

(** An unlisted task's TCB may change freely. *)
Lemma inv_put k A x f :
  inv k A -> unlisted A x -> x <> idle -> (forall t, 0 <= lockcount t -> 0 <= lockcount (f t)) -> inv (put_tcb x f k) A.
Proof.
  intros [Hk Hsz Ht Hst Hso Hl Hip Hp Hlo] Hun Hx Hf.
  assert (Hsame : forall t y, y ∈ A t -> tcbs (put_tcb x f k) y = tcbs k y).
  { intros t y Hy. apply put_tcb_ne. intros ->. by apply (Hun t). }
  constructor; try done.
  - by apply krep_put.
  - intros t y Hy. unfold state. rewrite (Hsame t y Hy). by apply Hst.
  - intros t Hpr. apply (sorted_ext k); [|by apply Hso]. intros y Hy. unfold prio. by rewrite (Hsame t y Hy).
  - unfold prio. rewrite put_tcb_ne by done. done.
  - intros t y Hy. unfold prio. rewrite (Hsame t y Hy). by apply (Hp t).
  - intros y. unfold lock. destruct (decide (y = x)) as [->|]; [rewrite put_tcb_eq; apply Hf, Hlo|rewrite put_tcb_ne by done; apply Hlo].
Qed.
(** ** Removal *)

Lemma in_split_list (A : tasks) tl x : x ∈ A tl -> exists l1 l2, A tl = l1 ++ x :: l2.
Proof. intros H. apply list_elem_of_split in H as (l1 & l2 & ?). by exists l1, l2. Qed.

Definition removed (k : kernel) (A : tasks) (x : Z) (k' : kernel) : Prop :=
  inv k' A /\ unlisted A x /\ frame k k' /\ state k' x = TSTATE_TASK_INVALID /\ x <> 0.

Lemma state_after_head k A x l2 n t y :
  inv k A -> A g_readytorun = x :: l2 -> unlisted (set_tasks A g_readytorun l2) x ->
  y ∈ set_tasks A g_readytorun l2 t -> y <> n -> state k y = expected n t y.
Proof.
  intros Hi Htl Hun Hy Hne. assert (Hyx : y <> x) by (intros ->; by apply (Hun t)).
  assert (Hin : y ∈ A t).
  { unfold set_tasks in Hy. destruct (decide (t = g_readytorun)) as [->|]; [rewrite Htl; set_solver|done]. }
  rewrite (si_state _ _ _ _ Hi t y Hin). destruct t; try done. simpl.
  rewrite !decide_False; [done|done|]. unfold running. by rewrite Htl.
Qed.

(** Removing the running task makes its successor the running one. *)
Lemma sched_removereadytorun_head k A x l2 :
  inv k A -> A g_readytorun = x :: l2 -> x <> idle ->
  exists k', sched_removereadytorun k x = Some (k', true) /\ removed k (set_tasks A g_readytorun l2) x k'.
Proof.
  intros Hi Htl Hx. pose proof (si_rep _ _ _ _ Hi) as Hk.
  pose proof (kr_list _ _ Hk g_readytorun) as Hr. rewrite Htl in Hr.
  pose proof (dq_next_of _ _ [] _ _ Hr) as (Hx0 & Hn & Hb). pose proof (dq_null _ _ _ Hr) as Hnull.
  destruct (krep_rem k A g_readytorun [] x l2 Hk Htl) as (L & q & Hrem & Hk' & Hun & _).
  destruct (si_idle _ _ _ _ Hi) as [l Hl]. rewrite Htl in Hl. destruct (snoc_split [] x l2 l idle Hl Hx) as (l2' & -> & _).
  remember (hd_or (l2' ++ [idle]) 0) as n eqn:Hhd in Hn. simpl in Hrem, Hk', Hun.
  assert (Hnin : n ∈ l2' ++ [idle]) by (rewrite Hhd; destruct l2'; set_solver).
  assert (Hn0 : n <> 0) by (intros ->; set_solver).
  unfold sched_removereadytorun. krun. rewrite Hb, Hn. simpl. krun. destruct (Z.eqb_spec n 0); [done|]. simpl. krun.
  rewrite Hrem. krun.
  set (k1 := put_state x TSTATE_TASK_INVALID (set_list g_readytorun q (set_lk L (put_state n TSTATE_TASK_RUNNING k)))).
  assert (Hfr : frame k k1).
  { eapply frame_trans; [|apply frame_put_state]. eapply frame_trans; [apply frame_put_state|apply frame_list]. }
  exists k1. split; [done|]. split; [|split; [done|split; [done|split; [|done]]]].
  - apply (inv_remove k A k1 g_readytorun [] x (l2' ++ [idle]) Hi Htl Hx); [|exact Hfr|].
    + apply krep_put. by apply (krep_ext (set_list g_readytorun q (set_lk L k))).
    + intros t y Hy. unfold k1. rewrite state_put, decide_False by (intros ->; by apply (Hun t)).
      change (state (put_state n TSTATE_TASK_RUNNING k) y =
        expected (running (set_tasks A g_readytorun (l2' ++ [idle]))) t y).
      rewrite state_put, running_set, <- Hhd. destruct (decide (y = n)) as [->|Hne].
      * rewrite (kr_once _ _ Hk' t g_readytorun n Hy) by (by rewrite set_tasks_eq). simpl. by rewrite decide_True.
      * by apply (state_after_head k A x (l2' ++ [idle])).
  - unfold k1. rewrite state_put. by rewrite decide_True.
Qed.
(** Removing another task does not change the running one. *)
Lemma sched_removereadytorun_mid k A p l1 x l2 :
  inv k A -> A g_readytorun = p :: l1 ++ x :: l2 -> x <> idle ->
  exists k', sched_removereadytorun k x = Some (k', false) /\ removed k (set_tasks A g_readytorun (p :: l1 ++ l2)) x k'.
Proof.
  intros Hi Htl Hx. pose proof (si_rep _ _ _ _ Hi) as Hk.
  pose proof (kr_list _ _ Hk g_readytorun) as Hr. rewrite Htl in Hr.
  pose proof (dq_next_of _ _ (p :: l1) _ _ Hr) as (Hx0 & Hn & Hb). pose proof (dq_null _ _ _ Hr) as Hnull.
  destruct (krep_rem k A g_readytorun (p :: l1) x l2 Hk Htl) as (L & q & Hrem & Hk' & Hun & _).
  unfold sched_removereadytorun. krun. rewrite Hb, last_or_cons.
  destruct (Z.eqb_spec (last_or l1 p) 0) as [E|_].
  { exfalso. destruct (last_or_in l1 p) as [E'|E']; rewrite E in E'; set_solver. }
  krun. rewrite Hrem. krun. set (k1 := put_state x TSTATE_TASK_INVALID (set_list g_readytorun q (set_lk L k))).
  assert (Hfr : frame k k1) by (eapply frame_trans; [apply frame_list|apply frame_put_state]).
  exists k1. split; [done|]. split; [|split; [done|split; [done|split; [|done]]]].
  - apply (inv_remove k A k1 g_readytorun (p :: l1) x l2 Hi Htl Hx); [by apply krep_put|exact Hfr|].
    intros t y Hy. unfold k1. rewrite state_put, decide_False by (intros ->; by apply (Hun t)).
    change (state k y = expected (running (set_tasks A g_readytorun (p :: l1 ++ l2))) t y).
    replace (running (set_tasks A g_readytorun (p :: l1 ++ l2))) with (running A)
      by (rewrite running_set; unfold running; by rewrite Htl).
    apply (si_state _ _ _ _ Hi). unfold set_tasks in Hy.
    destruct (decide (t = g_readytorun)) as [->|]; [|done]. rewrite Htl. set_solver.
  - unfold k1. rewrite state_put. by rewrite decide_True.
Qed.

(** ** Insertion *)

Lemma higher_nil k p l : higher k p l = [] -> lower k p l = l.
Proof. intros E. rewrite <- (higher_lower k p l) at 2. by rewrite E. Qed.

Lemma hd_prio_insert k x l :
  hd_or (prio_insert k x l) 0 = if decide (higher k (prio k x) l = []) then x else hd_or l 0.
Proof.
  unfold prio_insert. assert (E : hd_or l 0 = hd_or (higher k (prio k x) l ++ lower k (prio k x) l) 0) by (by rewrite higher_lower).
  rewrite E. destruct (higher k (prio k x) l); [by rewrite decide_True|by rewrite decide_False].
Qed.

(** A task that is added does not disturb the states of the others. *)
Lemma state_insert k A x t y tl l n :
  inv k A -> (forall z, z ∈ l <-> z = x \/ z ∈ A tl) -> y ∈ set_tasks A tl l t -> y <> x ->
  (n = running A \/ t <> g_readytorun) -> state k y = expected n t y.
Proof.
  intros Hi Hl Hy Hne Hn. assert (Hin : y ∈ A t).
  { unfold set_tasks in Hy. destruct (decide (t = tl)) as [->|]; [|done]. apply Hl in Hy as [?|?]; done. }
  rewrite (si_state _ _ _ _ Hi t y Hin). destruct Hn as [->|?]; [done|]. by destruct t.
Qed.

Lemma in_set_tasks k A tl l t x : krep k (set_tasks A tl l) -> x ∈ l -> x ∈ set_tasks A tl l t -> t = tl.
Proof. intros Hk Hx Hin. apply (kr_once _ _ Hk t tl x Hin). by rewrite set_tasks_eq. Qed.

(** What an operation that lists [x] needs. *)
Record ready_for (k : kernel) (A : tasks) (x : Z) : Prop := {
  rf_inv : inv k A;
  rf_unlisted : unlisted A x;
  rf_task : x ∈ T;
  rf_null : x <> 0;
  rf_idle : x <> idle;
  rf_prio : 1 <= prio k x <= 255
}.

Lemma rf_add k A x tl :
  ready_for k A x ->
  exists k', sched_addprioritized k x tl = Some (k', bool_decide (higher k (prio k x) (A tl) = [])) /\
    krep k' (set_tasks A tl (prio_insert k x (A tl))) /\ relinked k k'.
Proof.
  intros [Hi Hun Ht H0 Hx Hp]. apply sched_addprioritized_spec; try done; [apply Hi|lia|by eapply si_length].
Qed.

(** A prioritized list other than the ready-to-run list. *)
Lemma inv_add_other k A x tl k' s :
  ready_for k A x -> tl <> g_readytorun -> is_prioritized tl -> (forall n, expected n tl x = s) ->
  krep k' (set_tasks A tl (prio_insert k x (A tl))) -> relinked k k' ->
  inv (put_state x s k') (set_tasks A tl (prio_insert k x (A tl))) /\ frame k (put_state x s k').
Proof.
  intros [Hi Hun Ht H0 Hx Hp] Hne Hpr Hs Hk' Hrl.
  assert (Hfr : frame k (put_state x s k')) by (eapply frame_trans; [by apply relinked_frame|apply frame_put_state]).
  split; [|done]. apply (inv_insert k A); try done.
  - by rewrite higher_lower.
  - by apply krep_put.
  - intros _. apply prio_insert_sorted. by apply Hi.
  - intros t y Hy. rewrite state_put. fold (prio_insert k x (A tl)) in *. destruct (decide (y = x)) as [->|Hyx].
    + rewrite (in_set_tasks _ _ _ _ _ _ Hk' ltac:(apply prio_insert_in; by left) Hy). by rewrite Hs.
    + unfold state. rewrite (rl_tcbs _ _ Hrl). fold (state k y).
      rewrite running_set_ne by done. apply (state_insert k A x t y tl (prio_insert k x (A tl))); try done; [|by left].
      intros z. apply prio_insert_in.
Qed.
(** The ready-to-run list: whoever comes first is running. *)
Lemma inv_add_ready k A x k' :
  ready_for k A x ->
  let A' := set_tasks A g_readytorun (prio_insert k x (A g_readytorun)) in
  krep k' A' -> frame k k' ->
  (forall y, state k' y =
     if decide (y = x) then expected (running A') g_readytorun x
     else if decide (y = running A /\ running A' = x) then TSTATE_TASK_READYTORUN else state k y) ->
  inv k' A'.
Proof.
  intros [Hi Hun Ht H0 Hx Hp] A' Hk' Hfr Hst.
  assert (HA' : running A' = x \/ running A' = running A).
  { unfold A'. rewrite running_set, hd_prio_insert. destruct (decide _); [by left|by right]. }
  apply (inv_insert k A); try done.
  - by rewrite higher_lower.
  - intros _. apply prio_insert_sorted. by apply Hi.
  - intros _. apply (lower_idle k A); [done|lia].
  - fold (prio_insert k x (A g_readytorun)). fold A'. intros t y Hy. rewrite Hst. destruct (decide (y = x)) as [->|Hyx].
    + by rewrite (in_set_tasks _ _ _ _ _ _ Hk' ltac:(apply prio_insert_in; by left) Hy).
    + destruct (decide (y = running A /\ running A' = x)) as [[-> E]|Hn].
      * assert (t = g_readytorun) as ->.
        { apply (in_set_tasks _ _ _ _ _ (running A) Hk'); [|done]. apply prio_insert_in. right. by eapply running_in. }
        simpl. by rewrite E, decide_False.
      * assert (Hin : forall z, z ∈ prio_insert k x (A g_readytorun) <-> z = x \/ z ∈ A g_readytorun)
          by (intros z; apply prio_insert_in).
        destruct HA' as [E|E]; [|rewrite E; by apply (state_insert k A x t y g_readytorun (prio_insert k x (A g_readytorun))); auto].
        destruct (decide (t = g_readytorun)) as [->|Htr];
          [|by apply (state_insert k A x t y g_readytorun (prio_insert k x (A g_readytorun))); auto].
        rewrite (state_insert k A x g_readytorun y g_readytorun (prio_insert k x (A g_readytorun)) (running A)); auto.
        simpl. rewrite !decide_False; [done|congruence|tauto].
Qed.

Definition preempts (k : kernel) (A : tasks) (x : Z) : Prop := lock k (running A) <> 0 /\ prio k (running A) < prio k x.

#[local] Instance preempts_dec k A x : Decision (preempts k A x).
Proof. unfold preempts. apply _. Defined.

(** The list a task goes to when it becomes ready to run. *)
Definition ready_list (k : kernel) (A : tasks) (x : Z) : tasklist :=
  if decide (preempts k A x) then g_pendingtasks else g_readytorun.

Definition add_ready (k : kernel) (A : tasks) (x : Z) : tasks :=
  set_tasks A (ready_list k A x) (prio_insert k x (A (ready_list k A x))).

Lemma higher_running k A p : inv k A -> higher k p (A g_readytorun) = [] <-> prio k (running A) < p.
Proof.
  intros Hi. destruct (si_idle _ _ _ _ Hi) as [l Hl]. unfold running. rewrite Hl.
  destruct (l ++ [idle]) as [|y l'] eqn:E; [by destruct l|]. simpl. destruct (Z.leb_spec p (prio k y)); split; (done || lia).
Qed.

Lemma sched_addreadytorun_pending k A x :
  ready_for k A x -> preempts k A x ->
  let A' := set_tasks A g_pendingtasks (prio_insert k x (A g_pendingtasks)) in
  exists k', sched_addreadytorun k x = Some (k', false) /\ inv k' A' /\ frame k k'.
Proof.
  intros Hrf [Hl Hp] A'. pose proof (rf_inv _ _ _ Hrf) as Hi. destruct (running_in _ _ _ _ Hi) as [_ Hr0].
  pose proof (rf_null _ _ _ Hrf) as Hx0.
  unfold sched_addreadytorun. rewrite (rtr_head_running _ _ _ _ Hi). krun.
  destruct (Z.eqb_spec (lockcount (tcbs k (running A))) 0) as [?|_]; [done|].
  destruct (Z.ltb_spec (sched_priority (tcbs k (running A))) (sched_priority (tcbs k x))) as [_|?]; [|unfold prio in Hp; lia].
  destruct (rf_add k A x g_pendingtasks Hrf) as (k1 & Hrun & Hk1 & Hrl). simpl. rewrite Hrun. krun. eexists. split; [done|].
  by apply inv_add_other.
Qed.

Lemma sched_addreadytorun_ready k A x :
  ready_for k A x -> ~ preempts k A x ->
  let A' := set_tasks A g_readytorun (prio_insert k x (A g_readytorun)) in
  exists k', sched_addreadytorun k x = Some (k', bool_decide (running A' = x)) /\ inv k' A' /\ frame k k'.
Proof.
  intros Hrf Hn A'. pose proof (rf_inv _ _ _ Hrf) as Hi. destruct (running_in _ _ _ _ Hi) as [Hrin Hr0].
  pose proof (rf_null _ _ _ Hrf) as Hx0. pose proof (rf_unlisted _ _ _ Hrf) as Hun.
  assert (Hxr : x <> running A) by (intros ->; by apply (Hun g_readytorun)).
  unfold sched_addreadytorun. rewrite (rtr_head_running _ _ _ _ Hi). krun.
  destruct (negb (lockcount (tcbs k (running A)) =? 0) && (sched_priority (tcbs k (running A)) <? sched_priority (tcbs k x))) eqn:Eb.
  { destruct Hn. unfold preempts, lock, prio. lia. }
  destruct (rf_add k A x g_readytorun Hrf) as (k1 & Hrun & Hk1 & Hrl). rewrite Hrun. krun. fold A' in Hk1.
  assert (HA' : running A' = if decide (higher k (prio k x) (A g_readytorun) = []) then x else running A)
    by (unfold A'; rewrite running_set; apply hd_prio_insert).
  pose proof (higher_running k A (prio k x) Hi) as Hh. pose proof (relinked_frame _ _ Hrl) as Hfr.
  destruct (decide (higher k (prio k x) (A g_readytorun) = [])) as [E|E].
  - rewrite (bool_decide_eq_true_2 _ E), (bool_decide_eq_true_2 (running A' = x)) by done. krun.
    rewrite (rl_tcbs _ _ Hrl). pose proof (kr_list _ _ Hk1 g_readytorun) as Hr1. unfold A' in Hr1. rewrite set_tasks_eq in Hr1.
    assert (El : prio_insert k x (A g_readytorun) = [] ++ x :: A g_readytorun)
      by (unfold prio_insert; by rewrite E, higher_nil).
    rewrite El in Hr1. destruct (dq_next_of _ _ _ _ _ Hr1) as (_ & Hnx & _). rewrite Hnx. fold (running A).
    rewrite assert_true by (apply Hh in E; unfold prio in *; lia). krun.
    eexists. split; [done|]. assert (Hf2 : frame k (put_state (running A) TSTATE_TASK_READYTORUN (put_state x TSTATE_TASK_RUNNING k1))).
    { eapply frame_trans; [exact Hfr|]. eapply frame_trans; apply frame_put_state. }
    split; [|exact Hf2]. apply inv_add_ready; [done|by do 2 apply krep_put|exact Hf2|].
    intros y. rewrite !state_put. fold A'. rewrite HA'. simpl. rewrite (decide_True (P := x = x)) by done.
    destruct (decide (y = running A)) as [->|Hy]; [by rewrite decide_False by done; rewrite decide_True|].
    destruct (decide (y = x)); [done|]. rewrite decide_False by tauto. unfold state. by rewrite (rl_tcbs _ _ Hrl).
  - rewrite (bool_decide_eq_false_2 _ E), (bool_decide_eq_false_2 (running A' = x)) by (rewrite HA'; done). krun.
    eexists. split; [done|]. assert (Hf2 : frame k (put_state x TSTATE_TASK_READYTORUN k1))
      by (eapply frame_trans; [exact Hfr|apply frame_put_state]).
    split; [|exact Hf2]. apply inv_add_ready; [done|by apply krep_put|exact Hf2|].
    intros y. rewrite state_put. fold A'. rewrite HA'. simpl. rewrite (decide_False (P := x = running A)) by done.
    destruct (decide (y = x)); [done|]. rewrite decide_False by (intros [_ ?]; done). unfold state. by rewrite (rl_tcbs _ _ Hrl).
Qed.
Lemma sched_addreadytorun_spec k A x :
  ready_for k A x ->
  exists k', sched_addreadytorun k x = Some (k', bool_decide (running (add_ready k A x) <> running A)) /\
    inv k' (add_ready k A x) /\ frame k k'.
Proof.
  intros Hrf. pose proof (rf_inv _ _ _ Hrf) as Hi. pose proof (running_in _ _ _ _ Hi) as [Hin _].
  assert (Hxr : x <> running A) by (intros ->; by apply (rf_unlisted _ _ _ Hrf g_readytorun)).
  unfold add_ready, ready_list. destruct (decide (preempts k A x)) as [Hp|Hp].
  - rewrite running_set_ne by done. rewrite bool_decide_eq_false_2 by (intros H; by apply H).
    by apply sched_addreadytorun_pending.
  - destruct (sched_addreadytorun_ready k A x Hrf Hp) as (k' & -> & ?). exists k'. split; [|done]. do 2 f_equal.
    apply bool_decide_ext. rewrite running_set, hd_prio_insert. destruct (decide _); [by split|]. split; [congruence|done].
Qed.

(** ** Blocked tasks *)

Definition add_blocked (k : kernel) (A : tasks) (x : Z) (tl : tasklist) : tasks :=
  set_tasks A tl (if is_prioritized tl then prio_insert k x (A tl) else A tl ++ [x]).

(** The lists of blocked tasks. *)
Definition blocked_list (s : tstate) : option tasklist := if is_blocked s then (g_tasklisttable s).1 else None.

Lemma blocked_list_spec s tl :
  blocked_list s = Some tl ->
  is_blocked s = true /\ (g_tasklisttable s).1 = Some tl /\ (g_tasklisttable s).2 = is_prioritized tl /\
  tl <> g_readytorun /\ tl <> g_pendingtasks /\ forall n y, expected n tl y = s.
Proof. destruct s; intros [= <-]; done. Qed.

Lemma sched_addblocked_spec k A x s tl :
  ready_for k A x -> blocked_list s = Some tl ->
  exists k', sched_addblocked k x s = Some k' /\ inv k' (add_blocked k A x tl) /\ frame k k'.
Proof.
  intros Hrf Hs. destruct (blocked_list_spec s tl Hs) as (Hb & Ht1 & Ht2 & Hne & _ & He).
  pose proof (rf_null _ _ _ Hrf) as Hx0. unfold sched_addblocked, add_blocked. rewrite Hb, Ht1, Ht2. cbn [assert mbind option_bind].
  destruct (is_prioritized tl) eqn:Ep.
  - destruct (rf_add k A x tl Hrf) as (k1 & -> & Hk1 & Hrl). krun. eexists. split; [done|].
    apply inv_add_other; try done. by rewrite Ep.
  - pose proof (rf_inv _ _ _ Hrf) as Hi. pose proof (rf_unlisted _ _ _ Hrf) as Hun.
    pose proof (kr_list _ _ (si_rep _ _ _ _ Hi) tl) as Hr.
    destruct (dq_addlast_spec _ _ _ x Hr (Hun tl) Hx0) as (L & q & -> & Hr' & Hsl). krun.
    eexists. split; [done|]. set (k1 := put_state x s (set_list tl q (set_lk L k))).
    assert (Hfr : frame k k1) by (eapply frame_trans; [apply frame_list|apply frame_put_state]). split; [|exact Hfr].
    assert (Hk1 : krep k1 (set_tasks A tl (A tl ++ [x]))).
    { apply krep_put, krep_ins; rewrite ?app_nil_r; try done. apply Hi. }
    apply (inv_insert k A k1 tl (A tl) x []); try done; try apply Hrf; [by rewrite app_nil_r|by rewrite Ep|].
    intros t y Hy. unfold k1. rewrite state_put, running_set_ne by done. destruct (decide (y = x)) as [->|Hyx].
    + rewrite (in_set_tasks k1 A tl (A tl ++ [x]) t x Hk1); [by rewrite He|set_solver|done].
    + apply (state_insert k A x t y tl (A tl ++ [x])); try done; [|by left].
      intros z. rewrite elem_of_app, list_elem_of_singleton. tauto.
Qed.

Lemma sched_removeblocked_spec k A s tl l1 x l2 :
  inv k A -> blocked_list s = Some tl -> A tl = l1 ++ x :: l2 -> x <> idle ->
  exists k', sched_removeblocked k x = Some k' /\ removed k (set_tasks A tl (l1 ++ l2)) x k'.
Proof.
  intros Hi Hs Htl Hx. destruct (blocked_list_spec s tl Hs) as (Hb & Ht1 & _ & Hne & _ & He).
  pose proof (si_rep _ _ _ _ Hi) as Hk. destruct (krep_rem k A tl l1 x l2 Hk Htl) as (L & q & Hrem & Hk' & Hun & Hx0).
  assert (Hst : task_state (tcbs k x) = s).
  { rewrite <- (He (running A) x). apply (si_state _ _ _ _ Hi). rewrite Htl. set_solver. }
  unfold sched_removeblocked. krun. rewrite Hst, Hb, Ht1. cbn [assert mbind option_bind]. rewrite Hrem. krun.
  eexists. split; [done|]. set (k1 := put_state x TSTATE_TASK_INVALID (set_list tl q (set_lk L k))).
  assert (Hfr : frame k k1) by (eapply frame_trans; [apply frame_list|apply frame_put_state]).
  split; [|split; [done|split; [exact Hfr|split; [|done]]]].
  - apply (inv_remove k A k1 tl l1 x l2 Hi Htl Hx); [by apply krep_put|exact Hfr|].
    intros t y Hy. unfold k1. rewrite state_put, decide_False by (intros ->; by apply (Hun t)).
    rewrite running_set_ne by done. apply (si_state _ _ _ _ Hi). unfold set_tasks in Hy.
    destruct (decide (t = tl)) as [->|]; [|done]. rewrite Htl. set_solver.
  - unfold k1. rewrite state_put. by rewrite decide_True.
Qed.
End ops.

(** * Scheduler: merging the pending tasks

    [sched_mergepending] takes the pending list apart while it walks it, so
    that between two rounds only its forward links are in order; the result is
    the insertion of every pending task into the ready-to-run list. *)

(** Linking an entry in front of another, as the kernel writes it out. *)
Lemma link_before L q l1 n l2 x :
  dq_rep L q (l1 ++ n :: l2) -> x ∉ l1 ++ n :: l2 -> x <> 0 ->
  exists L' q', dq_rep L' q' (l1 ++ x :: n :: l2) /\ same_links (x :: l1 ++ n :: l2) L L' /\
    n <> 0 /\ blink L n = last_or l1 0 /\
    if decide (l1 = []) then
      (L ← set_flink L x n; L ← set_blink L x 0; set_blink L n x) = Some L' /\ q' = mk_queue x (tail q)
    else
      last_or l1 0 <> 0 /\
      (L ← set_flink L x n; L ← set_blink L x (last_or l1 0); L ← set_flink L (last_or l1 0) x; set_blink L n x) = Some L' /\
      q' = q.
Proof.
  intros Hr Hx Hx0. destruct (dq_addbefore_spec _ _ _ _ _ x Hr Hx Hx0) as (L' & q' & Hrun & Hr' & Hs).
  pose proof (dq_next_of _ _ _ _ _ Hr) as (Hn0 & _ & Hb). pose proof (dq_head _ _ _ Hr) as Hh.
  pose proof (dq_null _ _ _ Hr) as Hnull. pose proof (dq_nodup _ _ _ Hr) as Hnd.
  exists L', q'. do 4 (split; [done|]). unfold dq_addbefore in Hrun. rewrite Hh in Hrun.
  destruct l1 as [|p l1 _] using rev_ind.
  - simpl in *. destruct (Z.eqb_spec n 0) as [?|_]; [done|]. rewrite Z.eqb_refl in Hrun. simpl in Hrun.
    unfold dq_addfirst in Hrun. rewrite Hh in Hrun. destruct (Z.eqb_spec n 0) as [?|_]; [done|].
    revert Hrun. qrun. by intros [= <- <-].
  - rewrite decide_False by (by destruct l1). rewrite last_or_snoc in *.
    assert (Hp0 : p <> 0) by set_solver. split; [done|]. rewrite hd_or_app in Hrun. revert Hrun.
    destruct (Z.eqb_spec (hd_or (l1 ++ [p]) (hd_or (n :: l2) 0)) 0) as [E|_]; [destruct l1; simpl in E; set_solver|].
    destruct (Z.eqb_spec n (hd_or (l1 ++ [p]) (hd_or (n :: l2) 0))) as [E|_]; [destruct l1; simpl in E; subst; qside|].
    simpl. qrun. rewrite Hb. qrun. by intros [= <- <-].
Qed.

Section merge.
Context (T : list Z) (idle : Z).
Abbreviation inv := (sched_inv T idle).

Lemma inv_ext k k' A :
  lk k' = lk k -> (forall t, lists k' t = lists k t) -> (forall y, tcbs k' y = tcbs k y) -> inv k A -> inv k' A.
Proof.
  intros HL Hq Ht [Hk Hsz Hta Hst Hso Hl Hip Hp Hlo]. constructor; try done.
  - by apply (krep_ext k).
  - intros tl x Hx. unfold state. rewrite Ht. by apply Hst.
  - intros tl Hpr. apply (sorted_ext k); [|by apply Hso]. intros y _. unfold prio. by rewrite Ht.
  - unfold prio. by rewrite Ht.
  - intros tl x Hx. unfold prio. rewrite Ht. exact (Hp tl x Hx).
  - intros x. unfold lock. rewrite Ht. apply Hlo.
Qed.

Lemma inv_tasks_ext k A A' : (forall t, A' t = A t) -> inv k A -> inv k A'.
Proof.
  intros HA [Hk Hsz Hta Hst Hso [l Hl] Hip Hp Hlo]. constructor; try done.
  - by apply (krep_tasks_ext k A).
  - intros tl x. rewrite HA. apply Hta.
  - intros tl x. rewrite HA. unfold running. rewrite HA. apply Hst.
  - intros tl. rewrite HA. apply Hso.
  - exists l. by rewrite HA.
  - intros tl x. rewrite HA. apply Hp.
Qed.

(** One round, on a kernel whose pending list is taken to be empty. *)
Abbreviation no_pending k := (set_list g_pendingtasks empty_queue k).

(** The links and the states after one round. *)
Lemma merge_one_run k A x l1 l2 ret :
  ready_for T idle (no_pending k) A x -> A g_readytorun = l1 ++ l2 -> (forall y, y ∈ l1 -> prio k x <= prio k y) ->
  exists L q, krep (set_list g_readytorun q (set_lk L (no_pending k)))
      (set_tasks A g_readytorun (prio_insert k x (A g_readytorun))) /\
    same_links (x :: A g_readytorun) (lk k) L /\
    if decide (higher k (prio k x) (A g_readytorun) = []) then
      merge_one k x (hd_or l2 0) ret = Some (put_state x TSTATE_TASK_RUNNING
        (put_state (running A) TSTATE_TASK_READYTORUN (set_list g_readytorun q (set_lk L k))), true)
    else
      merge_one k x (hd_or l2 0) ret = Some (put_state x TSTATE_TASK_READYTORUN (set_lk L k), ret) /\
      q = lists k g_readytorun.
Proof.
  intros Hrf Htl Hge. pose proof (rf_inv _ _ _ _ _ Hrf) as Hi. pose proof (rf_null _ _ _ _ _ Hrf) as Hx0.
  pose proof (rf_unlisted _ _ _ _ _ Hrf g_readytorun) as Hun. pose proof (rf_prio _ _ _ _ _ Hrf) as Hp.
  pose proof (kr_list _ _ (si_rep _ _ _ _ Hi) g_readytorun) as Hr.
  change (lk (no_pending k)) with (lk k) in Hr. change (lists (no_pending k) g_readytorun) with (lists k g_readytorun) in Hr.
  change (prio (no_pending k) x) with (prio k x) in Hp.
  pose proof (lower_idle T idle _ A (prio k x) Hi ltac:(lia)) as Hlow. rewrite (lower_ext k (no_pending k)) in Hlow by done.
  pose proof (si_length _ _ _ _ g_readytorun Hi) as Hlen.
  unfold merge_one. krun. change (sched_priority (tcbs k x)) with (prio k x). rewrite (find_lower_spec list_fuel k (prio k x) l1 l2);
    [|rewrite <- Htl; apply Hr|rewrite <- Htl; apply Hr|rewrite Htl, length_app in Hlen; unfold list_fuel, max_tasks in *; lia].
  cbn [mbind option_bind]. rewrite <- (lower_app k (prio k x) l1 l2), <- Htl by done.
  destruct (lower k (prio k x) (A g_readytorun)) as [|n l2'] eqn:El; [done|].
  assert (Hsplit : A g_readytorun = higher k (prio k x) (A g_readytorun) ++ n :: l2') by (rewrite <- El; symmetry; apply higher_lower).
  rewrite Hsplit in Hr, Hun. destruct (link_before _ _ _ _ _ x Hr Hun Hx0) as (L & q & Hr' & Hs & Hn0 & Hb & Hcode).
  exists L, q. rewrite <- Hsplit in Hs. split; [|split; [done|]].
  - unfold prio_insert. rewrite El. apply krep_ins; try done; [apply Hi|apply Hrf|by rewrite <- Hsplit].
  - simpl. destruct (Z.eqb_spec n 0) as [?|_]; [done|]. cbn [negb assert mbind option_bind]. krun. rewrite Hb. clear Hsplit Hs Hr' Hr.
    destruct (decide (higher k (prio k x) (A g_readytorun) = [])) as [E|E].
    + assert (Hn : running A = n) by (unfold running; rewrite <- (higher_lower k (prio k x) (A g_readytorun)), E, El; done).
      rewrite E, Hn. revert Hcode. qrun. intros [[= <-] ->]. by krun.
    + destruct Hcode as (Hl0 & Hcode & ->). destruct (Z.eqb_spec (last_or (higher k (prio k x) (A g_readytorun)) 0) 0); [done|].
      revert Hcode. qrun. intros [= <-]. by krun.
Qed.

Lemma merge_one_spec k A x l1 l2 ret :
  ready_for T idle (no_pending k) A x -> A g_readytorun = l1 ++ l2 -> (forall y, y ∈ l1 -> prio k x <= prio k y) ->
  let A' := set_tasks A g_readytorun (prio_insert k x (A g_readytorun)) in
  exists k', merge_one k x (hd_or l2 0) ret = Some (k', ret || bool_decide (running A' = x)) /\
    inv (no_pending k') A' /\ frame k k' /\ lists k' g_pendingtasks = lists k g_pendingtasks /\
    same_links (x :: A g_readytorun) (lk k) (lk k').
Proof.
  intros Hrf Htl Hge A'. destruct (merge_one_run k A x l1 l2 ret Hrf Htl Hge) as (L & q & Hk' & Hs & Hrun). fold A' in Hk'.
  assert (HA' : running A' = if decide (higher k (prio k x) (A g_readytorun) = []) then x else running A)
    by (unfold A'; rewrite running_set; apply hd_prio_insert).
  assert (Hxr : x <> running A).
  { intros ->. apply (rf_unlisted _ _ _ _ _ Hrf g_readytorun). apply (running_in T idle (no_pending k)), Hrf. }
  assert (Hadd : forall kk, krep (no_pending kk) A' -> frame (no_pending k) (no_pending kk) -> (forall y, state kk y =
     if decide (y = x) then expected (running A') g_readytorun x
     else if decide (y = running A /\ running A' = x) then TSTATE_TASK_READYTORUN else state k y) -> inv (no_pending kk) A').
  { intros kk. pose proof (inv_add_ready T idle (no_pending k) A x (no_pending kk) Hrf) as H. cbn zeta in H.
    rewrite (prio_insert_ext k (no_pending k)) in H by done. exact H. }
  destruct (decide (higher k (prio k x) (A g_readytorun) = [])) as [E|E].
  - rewrite Hrun, (bool_decide_eq_true_2 (running A' = x)), orb_true_r by done. eexists. split; [done|].
    match goal with |- inv (no_pending ?kk) _ /\ _ => set (k1 := kk) end.
    assert (Hfr : frame k k1).
    { eapply frame_trans; [|apply frame_put_state]. eapply frame_trans; [apply frame_list|apply frame_put_state]. }
    split_and!; [|done|done|done]. apply Hadd.
    + by apply (krep_ext (set_list g_readytorun q (set_lk L (no_pending k)))); [|intros []|].
    + constructor; try apply Hfr.
    + intros y. unfold k1. rewrite !state_put, HA'. simpl. rewrite (decide_True (P := x = x)) by done.
      destruct (decide (y = x)); [done|]. destruct (decide (y = running A)) as [->|]; [by rewrite decide_True|].
      by rewrite decide_False by tauto.
  - destruct Hrun as [-> ->]. rewrite (bool_decide_eq_false_2 (running A' = x)), orb_false_r by (rewrite HA'; done).
    eexists. split; [done|]. match goal with |- inv (no_pending ?kk) _ /\ _ => set (k1 := kk) end.
    assert (Hfr : frame k k1) by (apply (frame_trans _ (set_lk L k)); [by apply relinked_frame|apply frame_put_state]).
    split_and!; [|done|done|done]. apply Hadd.
    + by apply (krep_ext (set_list g_readytorun (lists k g_readytorun) (set_lk L (no_pending k)))); [|intros []|].
    + constructor; try apply Hfr.
    + intros y. unfold k1. rewrite !state_put, HA'. simpl. rewrite (decide_False (P := x = running A)) by done.
      destruct (decide (y = x)); [done|]. by rewrite decide_False by (intros [_ ?]; done).
Qed.
(** ** The loop *)

Definition merge_tasks (k : kernel) (R P : list Z) : list Z := foldl (fun l x => prio_insert k x l) R P.

Lemma merge_tasks_ext k k' R P : frame k k' -> merge_tasks k' R P = merge_tasks k R P.
Proof.
  intros Hf. unfold merge_tasks. revert R. induction P as [|x P IH]; intros R; simpl; [done|].
  rewrite (prio_insert_ext k k') by (intros; by apply frame_prio). apply IH.
Qed.

Lemma merge_tasks_in k R P y : y ∈ merge_tasks k R P <-> y ∈ R \/ y ∈ P.
Proof.
  unfold merge_tasks. revert R. induction P as [|x P IH]; intros R; simpl; [set_solver|].
  rewrite IH, prio_insert_in. set_solver.
Qed.

Lemma merge_tasks_hd k R P :
  R <> [] -> hd_or (merge_tasks k R P) 0 = hd_or R 0 \/ hd_or (merge_tasks k R P) 0 ∈ P.
Proof.
  unfold merge_tasks. revert R. induction P as [|x P IH]; intros R HR; simpl; [by left|].
  destruct (IH (prio_insert k x R)) as [E|E]; [unfold prio_insert; by destruct (higher k (prio k x) R)| |right; set_solver].
  rewrite E, hd_prio_insert. destruct (decide _); [right; set_solver|by left].
Qed.

(** The tasks still to be merged. *)
Record mergeable (k : kernel) (A : tasks) (P : list Z) : Prop := {
  mg_chain : seg (flink (lk k)) P 0;
  mg_nodup : NoDup P;
  mg_sorted : sorted k P;
  mg_ready x : x ∈ P -> ready_for T idle (no_pending k) A x
}.

(** One round leaves the rest of the pending tasks mergeable. *)
Lemma mergeable_next k A x P k' :
  let A' := set_tasks A g_readytorun (prio_insert k x (A g_readytorun)) in
  mergeable k A (x :: P) -> inv (no_pending k') A' -> frame k k' -> same_links (x :: A g_readytorun) (lk k) (lk k') ->
  mergeable k' A' P.
Proof.
  intros A' [[_ Hc] [Hx Hnd]%NoDup_cons [Hs _]%sorted_cons Hr] Hi Hf Hl.
  assert (Hnot : forall y, y ∈ P -> y ∉ x :: A g_readytorun).
  { intros y Hy [->|Hin]%elem_of_cons; [done|]. by apply (rf_unlisted _ _ _ _ _ (Hr y ltac:(set_solver)) g_readytorun). }
  constructor; try done.
  - revert Hc. apply seg_ext. intros y Hy. by apply Hl, Hnot.
  - apply (sorted_ext k); [intros; by apply frame_prio|done].
  - intros y Hy. destruct (Hr y ltac:(set_solver)) as [_ Hun HT H0 Hid Hp]. constructor; try done.
    + intros t. unfold A', set_tasks. destruct (decide (t = g_readytorun)); [|apply Hun].
      rewrite prio_insert_in. specialize (Hnot y Hy). set_solver.
    + change (prio (no_pending k') y) with (prio k' y). rewrite (frame_prio k k') by done. exact Hp.
Qed.

(** The flag tells whether the running task has changed. *)
Lemma merge_flag k A x P :
  let A1 := set_tasks A g_readytorun (prio_insert k x (A g_readytorun)) in
  let A' := set_tasks A g_readytorun (merge_tasks k (A g_readytorun) (x :: P)) in
  inv (no_pending k) A -> mergeable k A (x :: P) ->
  bool_decide (running A1 = x) || bool_decide (running A' <> running A1) = bool_decide (running A' <> running A).
Proof.
  intros A1 A' Hi Hm. destruct (running_in _ _ _ _ Hi) as [Hrin Hr0].
  assert (Hnot : forall y, y ∈ x :: P -> y <> running A).
  { intros y Hy ->. by apply (rf_unlisted _ _ _ _ _ (mg_ready _ _ _ Hm _ Hy) g_readytorun). }
  assert (H' : running A' = running A1 \/ running A' ∈ P).
  { unfold A', A1. rewrite !running_set. simpl. apply merge_tasks_hd. unfold prio_insert. by destruct (higher _ _ _). }
  assert (H1 : running A1 = x \/ running A1 = running A).
  { unfold A1. rewrite running_set, hd_prio_insert. destruct (decide _); [by left|by right]. }
  destruct H1 as [E|E].
  - rewrite (bool_decide_eq_true_2 _ E). symmetry. apply bool_decide_eq_true_2.
    destruct H' as [->|?]; [rewrite E|]; apply Hnot; set_solver.
  - rewrite E. rewrite (bool_decide_eq_false_2 (running A = x)) by (intros <-; apply (Hnot (running A)); [set_solver|done]). done.
Qed.

Lemma merge_loop_spec fuel k A P l1 l2 ret :
  inv (no_pending k) A -> mergeable k A P -> A g_readytorun = l1 ++ l2 ->
  (forall x y, x ∈ P -> y ∈ l1 -> prio k x <= prio k y) -> (length P < fuel)%nat ->
  let A' := set_tasks A g_readytorun (merge_tasks k (A g_readytorun) P) in
  exists k', merge_loop fuel k (hd_or P 0) (hd_or l2 0) ret = Some (k', ret || bool_decide (running A' <> running A)) /\
    inv (no_pending k') A' /\ frame k k' /\ lists k' g_pendingtasks = lists k g_pendingtasks.
Proof.
  revert k A P l1 l2 ret. induction fuel as [|fuel IH]; intros k A P l1 l2 ret Hi Hm Htl Hge Hf A'; [lia|].
  destruct P as [|x P]; simpl.
  - exists k. assert (HA : forall t, A' t = A t).
    { intros t. unfold A', set_tasks. simpl. by destruct (decide _) as [->|]. }
    rewrite (bool_decide_eq_false_2), orb_false_r by (unfold running; rewrite HA; by intros H; apply H).
    split_and!; [done|by apply (inv_tasks_ext _ A)|apply frame_refl|done].
  - destruct (running_in _ _ _ _ Hi) as [Hrin Hr0].
    assert (Hrd : ready_for T idle (no_pending k) A x) by (apply Hm; set_solver).
    pose proof (rf_null _ _ _ _ _ Hrd) as Hx0. destruct (Z.eqb_spec x 0) as [?|_]; [done|]. krun.
    rewrite (proj1 (mg_chain _ _ _ Hm)).
    destruct (merge_one_spec k A x l1 l2 ret Hrd Htl) as (k1 & Hone & Hi1 & Hfr1 & Hpe1 & Hsl1); [intros; apply Hge; set_solver|].
    rewrite Hone. krun. set (A1 := set_tasks A g_readytorun (prio_insert k x (A g_readytorun))) in *.
    pose proof (mergeable_next k A x P k1 Hm Hi1 Hfr1 Hsl1) as Hm1. fold A1 in Hm1.
    destruct (IH k1 A1 P (higher k (prio k x) (A g_readytorun)) (x :: lower k (prio k x) (A g_readytorun))
      (ret || bool_decide (running A1 = x)) Hi1 Hm1) as (k' & Hrun & Hi' & Hfr & Hpe).
    + unfold A1. by rewrite set_tasks_eq.
    + intros y z Hy Hz%higher_ge. rewrite !(frame_prio k k1) by done.
      pose proof (mg_sorted _ _ _ Hm) as [_ Hso]%sorted_cons. etrans; [by apply Hso|done].
    + simpl in Hf. lia.
    + exists k'. rewrite (merge_tasks_ext k k1) in Hrun, Hi' by done.
      assert (HA' : forall t, A' t = set_tasks A1 g_readytorun (merge_tasks k (A1 g_readytorun) P) t).
      { intros t. unfold A', A1, set_tasks. simpl. by destruct (decide (t = g_readytorun)). }
      split_and!; [|by apply (inv_tasks_ext _ _ A' HA')|by eapply frame_trans|congruence].
      simpl in Hrun. rewrite Hrun. do 2 f_equal. rewrite <- orb_assoc. f_equal.
      replace (running (set_tasks A1 g_readytorun (merge_tasks k (A1 g_readytorun) P))) with (running A')
        by (unfold running; by rewrite HA').
      apply (merge_flag k A x P); try done.
Qed.
(** ** sched_mergepending *)

Definition merge_all (k : kernel) (A : tasks) : tasks :=
  set_tasks (set_tasks A g_readytorun (merge_tasks k (A g_readytorun) (A g_pendingtasks))) g_pendingtasks [].

Lemma inv_no_pending k A : inv k A -> inv (no_pending k) (set_tasks A g_pendingtasks []).
Proof.
  intros [Hk Hsz Hta Hst Hso Hl Hip Hp Hlo].
  assert (Hin : forall t x, x ∈ set_tasks A g_pendingtasks [] t -> x ∈ A t).
  { intros t x. unfold set_tasks. destruct (decide _); set_solver. }
  constructor; try done.
  - apply (krep_ext (set_list g_pendingtasks empty_queue (set_lk (lk k) k))); [done|done|].
    apply krep_change; [done|apply dq_rep_empty|set_solver|done].
  - intros t x Hx. by apply (Hta t), Hin.
  - intros t x Hx. rewrite running_set_ne by done. apply Hst. by apply Hin.
  - intros t Hpr. apply (sorted_ext k); [done|]. unfold set_tasks. destruct (decide _); [constructor|by apply Hso].
  - intros t x Hx. apply (Hp t). by apply Hin.
Qed.

Lemma pending_mergeable k A : inv k A -> mergeable k (set_tasks A g_pendingtasks []) (A g_pendingtasks).
Proof.
  intros Hi. pose proof (kr_list _ _ (si_rep _ _ _ _ Hi) g_pendingtasks) as Hr. constructor; try apply Hr.
  - by apply Hi.
  - intros x Hx.
    assert (Hxi : x <> idle).
    { intros ->. destruct (si_idle _ _ _ _ Hi) as [l Hl].
      assert (idle ∈ A g_readytorun) by (rewrite Hl; set_solver).
      by pose proof (kr_once _ _ (si_rep _ _ _ _ Hi) g_pendingtasks g_readytorun idle ltac:(done) ltac:(done)). }
    constructor; try done.
    + by apply inv_no_pending.
    + intros t Hin. unfold set_tasks in Hin. destruct (decide (t = g_pendingtasks)) as [->|Hne]; [by apply elem_of_nil in Hin|].
      by apply Hne, (kr_once _ _ (si_rep _ _ _ _ Hi) t g_pendingtasks x).
    + by apply (si_tasks _ _ _ _ Hi g_pendingtasks).
    + intros ->. by apply (dq_null _ _ _ Hr).
    + by apply (si_prio _ _ _ _ Hi g_pendingtasks).
Qed.

Lemma sched_mergepending_spec k A :
  inv k A ->
  exists k', sched_mergepending k = Some (k', bool_decide (running (merge_all k A) <> running A)) /\
    inv k' (merge_all k A) /\ frame k k'.
Proof.
  intros Hi. pose proof (inv_no_pending k A Hi) as Hi0. pose proof (pending_mergeable k A Hi) as Hm.
  pose proof (si_length _ _ _ _ g_pendingtasks Hi) as Hlen.
  set (A0 := set_tasks A g_pendingtasks []) in *.
  destruct (merge_loop_spec list_fuel k A0 (A g_pendingtasks) [] (A g_readytorun) false Hi0 Hm)
    as (k' & Hrun & Hi' & Hfr & Hpe).
  - unfold A0. by rewrite set_tasks_ne.
  - set_solver.
  - unfold list_fuel, max_tasks in *. lia.
  - unfold sched_mergepending. rewrite (rtr_head_running _ _ _ _ Hi).
    rewrite (dq_head _ _ _ (kr_list _ _ (si_rep _ _ _ _ Hi) g_pendingtasks)).
    change (running A) with (hd_or (A g_readytorun) 0) at 1. rewrite Hrun. cbn [mbind option_bind]. eexists. split; [|split].
    + reflexivity.
    + apply (inv_tasks_ext _ (set_tasks A0 g_readytorun (merge_tasks k (A0 g_readytorun) (A g_pendingtasks)))); [|done].
      intros []; done.
    + destruct Hfr. constructor; done.
Qed.
End merge.
