(* ===== verification/SchedKernel.v ===== *)
(** * Scheduler: the kernel's operations

    [sched_ok] adds to the invariant of the lists that the processor runs the
    task at the head of the ready-to-run list and that tasks are pending only
    while it has preemption locked.  Blocking, unblocking, locking, changes of
    priority and time slices keep it. *)

From stdpp Require Import base tactics numbers sets list sorting.
From S2P Require Import Prelude Queue QueueProps Sched SchedProps SchedOps.

Record sched_ok (T : list Z) (idle : Z) (k : kernel) (A : tasks) : Prop := {
  ok_inv : sched_inv T idle k A;
  ok_cpu : cpu k = running A;
  ok_pending : A g_pendingtasks <> [] -> 0 < lock k (running A)
}.

Definition runnable (A : tasks) (x : Z) : Prop := x ∈ A g_readytorun \/ x ∈ A g_pendingtasks.

Section kernel.
Context (T : list Z) (idle : Z).
Abbreviation inv := (sched_inv T idle).
Abbreviation ok := (sched_ok T idle).

(** ** Context switches *)

Lemma inv_cpu k A p : inv k A -> inv (set_cpu p k) A.
Proof. by apply inv_ext. Qed.

(** The head of the ready-to-run list runs after the switch, or it ran before. *)
Lemma ok_switch k A (b : bool) :
  inv k A -> (A g_pendingtasks <> [] -> 0 < lock k (running A)) -> (b = false -> cpu k = running A) ->
  ok (if b then switch_context k else k) A.
Proof.
  intros Hi Hp Hc. destruct b; [|constructor; auto]. constructor; [by apply inv_cpu| |done].
  simpl. by apply (rtr_head_running T idle).
Qed.

Lemma merge_all_none k A t : A g_pendingtasks = [] -> merge_all k A t = A t.
Proof.
  intros E. unfold merge_all, set_tasks. rewrite E. simpl.
  destruct (decide (t = g_pendingtasks)) as [->|]; [done|]. by destruct (decide (t = g_readytorun)) as [->|].
Qed.

Lemma pending_head k A : inv k A -> (head (lists k g_pendingtasks) =? 0) = bool_decide (A g_pendingtasks = []).
Proof.
  intros Hi. pose proof (dq_head_case _ _ _ (kr_list _ _ (si_rep _ _ _ _ Hi) g_pendingtasks)) as H.
  destruct (Z.eqb_spec (head (lists k g_pendingtasks)) 0); [by rewrite bool_decide_eq_true_2 by tauto|].
  by rewrite bool_decide_eq_false_2 by tauto.
Qed.

(** Merging when there is something to merge. *)
Lemma merge_if_pending k A :
  inv k A ->
  exists k' b, (if head (lists k g_pendingtasks) =? 0 then Some (k, false) else sched_mergepending k) = Some (k', b) /\
    inv k' (merge_all k A) /\ frame k k' /\ b = bool_decide (running (merge_all k A) <> running A).
Proof.
  intros Hi. rewrite (pending_head k A Hi). destruct (bool_decide_reflect (A g_pendingtasks = [])) as [E|E].
  - exists k, false. split_and!; [done| |apply frame_refl|].
    + apply (inv_tasks_ext T idle k A); [|done]. intros t. by apply merge_all_none.
    + symmetry. apply bool_decide_eq_false_2. unfold running. rewrite merge_all_none by done. by intros H; apply H.
  - destruct (sched_mergepending_spec T idle k A Hi) as (k' & -> & ? & ?). by eexists _, _.
Qed.

Lemma merge_all_pending k A : merge_all k A g_pendingtasks = [].
Proof. unfold merge_all. apply set_tasks_eq. Qed.

Lemma merge_all_runnable k A x : runnable (merge_all k A) x <-> runnable A x.
Proof.
  unfold runnable. rewrite merge_all_pending. unfold merge_all. rewrite set_tasks_ne, set_tasks_eq, merge_tasks_in by done.
  set_solver.
Qed.

(** ** Blocking *)

Definition block_tasks (k : kernel) (A : tasks) (x : Z) (l1 l2 : list Z) (tl : tasklist) : tasks :=
  merge_all k (add_blocked k (set_tasks A g_readytorun (l1 ++ l2)) x tl).

Lemma removed_ready k A x k' :
  removed T idle k A x k' -> x ∈ T -> x <> idle -> 1 <= prio k x <= 255 -> ready_for T idle k' A x.
Proof.
  intros (Hi & Hun & Hfr & _ & Hx0) HT Hid Hp. constructor; try done. by rewrite (frame_prio k k').
Qed.

Lemma listed_prio k A tl x : inv k A -> x ∈ A tl -> x <> idle -> x ∈ T /\ 1 <= prio k x <= 255.
Proof. intros Hi Hx Hid. split; [by apply (si_tasks _ _ _ _ Hi tl)|by apply (si_prio _ _ _ _ Hi tl)]. Qed.

(** Removal from the ready-to-run list, whoever it is. *)
Lemma sched_removereadytorun_spec k A l1 x l2 :
  inv k A -> A g_readytorun = l1 ++ x :: l2 -> x <> idle ->
  exists k', sched_removereadytorun k x = Some (k', bool_decide (l1 = [])) /\
    removed T idle k (set_tasks A g_readytorun (l1 ++ l2)) x k'.
Proof.
  intros Hi Htl Hx. destruct l1 as [|p l1].
  - by apply sched_removereadytorun_head.
  - by apply sched_removereadytorun_mid.
Qed.

Lemma running_removed A l1 x l2 : A g_readytorun = l1 ++ x :: l2 -> l1 <> [] ->
  running (set_tasks A g_readytorun (l1 ++ l2)) = running A.
Proof. intros Htl Hne. rewrite running_set. unfold running. rewrite Htl. by destruct l1. Qed.

Lemma running_add_blocked k A x tl : tl <> g_readytorun -> running (add_blocked k A x tl) = running A.
Proof. apply running_set_ne. Qed.

Lemma prio_frame_blocked k k' A x tl : frame k k' -> forall t, add_blocked k' A x tl t = add_blocked k A x tl t.
Proof.
  intros Hf t. unfold add_blocked, set_tasks. destruct (decide _); [|done].
  by rewrite (prio_insert_ext k k') by (intros; by apply frame_prio).
Qed.

Lemma merge_all_frame k k' A t : frame k k' -> merge_all k' A t = merge_all k A t.
Proof. intros Hf. unfold merge_all, set_tasks. by rewrite (merge_tasks_ext k k'). Qed.

Lemma merge_all_ext k A A' t : (forall t, A' t = A t) -> merge_all k A' t = merge_all k A t.
Proof. intros H. unfold merge_all, set_tasks. by rewrite !H. Qed.

Lemma readytorun_state k A x : inv k A -> x ∈ A g_readytorun -> is_readytorun (state k x) = true.
Proof. intros Hi Hx. rewrite (si_state _ _ _ _ Hi g_readytorun x Hx). simpl. by destruct (decide _). Qed.

(** [k'] is [k] but for the lists, the states and the running context, away from [x]. *)
Definition others (k k' : kernel) (X : list Z) : Prop :=
  in_irq k' = in_irq k /\ g_irqerrno k' = g_irqerrno k /\ g_pidhash k' = g_pidhash k /\
  forall y, y ∉ X -> tcbs k' y = set_task_state (state k' y) (tcbs k y).

Lemma frame_others k k' X : frame k k' -> others k k' X.
Proof. intros [H ? ? ? ?]. split_and!; try done. Qed.

Lemma others_trans k1 k2 k3 X : others k1 k2 X -> others k2 k3 X -> others k1 k3 X.
Proof.
  intros (? & ? & ? & Ha) (? & ? & ? & Hb). split_and!; try congruence. intros y Hy. rewrite (Hb y Hy), (Ha y Hy). done.
Qed.

Lemma others_switch k k' X (b : bool) : others k k' X -> others k (if b then switch_context k' else k') X.
Proof. by destruct b. Qed.

Lemma up_block_task_spec k A s tl l1 x l2 :
  ok k A -> A g_readytorun = l1 ++ x :: l2 -> x <> idle -> blocked_list s = Some tl ->
  exists k', up_block_task k x s = Some k' /\ ok k' (block_tasks k A x l1 l2 tl) /\ others k k' [].
Proof.
  intros [Hi Hc Hpe] Htl Hid Hs. destruct (blocked_list_spec s tl Hs) as (_ & _ & _ & Hne & Hnp & _).
  assert (Hx : x ∈ A g_readytorun) by (rewrite Htl; set_solver).
  destruct (sched_removereadytorun_spec k A l1 x l2 Hi Htl Hid) as (k1 & Hrun1 & Hrem).
  pose proof Hrem as (Hi1 & Hun1 & Hf1 & _ & Hx0). destruct (listed_prio k A g_readytorun x Hi Hx Hid) as [HT Hpx].
  pose proof (removed_ready _ _ _ _ Hrem HT Hid Hpx) as Hrf.
  set (A1 := set_tasks A g_readytorun (l1 ++ l2)) in *.
  destruct (sched_addblocked_spec T idle k1 A1 x s tl Hrf Hs) as (k2 & Hrun2 & Hi2 & Hf2).
  destruct (merge_if_pending k2 _ Hi2) as (k3 & b & Hrun3 & Hi3 & Hf3 & Hb).
  assert (Hf : frame k k3) by (eapply frame_trans; [exact Hf1|]; eapply frame_trans; eassumption).
  unfold up_block_task. krun. pose proof (readytorun_state k A x Hi Hx) as Hst. unfold state in Hst. rewrite Hst. simpl.
  rewrite Hrun1. simpl. rewrite Hrun2. simpl.
  assert (HA : forall t, block_tasks k A x l1 l2 tl t = merge_all k2 (add_blocked k1 A1 x tl) t).
  { intros t. unfold block_tasks. fold A1. rewrite (merge_all_frame k k2) by exact (frame_trans _ _ _ Hf1 Hf2).
    apply merge_all_ext. intros t'. symmetry. by apply prio_frame_blocked. }
  exists (if bool_decide (l1 = []) || b then switch_context k3 else k3). split; [|split].
  - revert Hrun3. destruct (head (lists k2 g_pendingtasks) =? 0).
    + intros [= -> <-]. by rewrite orb_false_r.
    + intros ->. done.
  - apply ok_switch.
    + by apply (inv_tasks_ext T idle k3 (merge_all k2 (add_blocked k1 A1 x tl))).
    + rewrite HA, merge_all_pending. done.
    + intros [E1%bool_decide_eq_false Eb]%orb_false_iff. rewrite Hb in Eb. apply bool_decide_eq_false, dec_stable in Eb.
      rewrite (fr_cpu _ _ Hf), Hc. unfold running at 2. rewrite HA. fold (running (merge_all k2 (add_blocked k1 A1 x tl))).
      rewrite Eb, running_add_blocked by done. unfold A1. by rewrite (running_removed A l1 x l2).
  - apply others_switch. by apply frame_others.
Qed.
(** ** Unblocking *)

Lemma others_put k x f X : x ∈ X -> others k (put_tcb x f k) X.
Proof.
  intros Hx. split_and!; try done. intros y Hy. unfold state. rewrite put_tcb_ne by (intros ->; done). by destruct (tcbs k y).
Qed.

Lemma unlisted_running k A x : inv k A -> unlisted A x -> x <> running A.
Proof. intros Hi Hun ->. apply (Hun g_readytorun). by eapply running_in. Qed.

(** Becoming ready to run never leaves a task pending without a lock. *)
Lemma add_ready_pending k A x :
  inv k A -> unlisted A x -> (A g_pendingtasks <> [] -> 0 < lock k (running A)) ->
  add_ready k A x g_pendingtasks <> [] -> 0 < lock k (running (add_ready k A x)).
Proof.
  intros Hi Hun Hpe. unfold add_ready, ready_list. pose proof (si_lock _ _ _ _ Hi (running A)) as Hl0.
  destruct (decide (preempts k A x)) as [[Hl Hp]|Hn].
  - intros _. rewrite running_set_ne by done. lia.
  - rewrite set_tasks_ne by done. intros Hne. specialize (Hpe Hne). rewrite running_set, hd_prio_insert.
    destruct (decide _) as [E|E]; [|done]. apply (higher_running T idle k A) in E; [|done]. destruct Hn. unfold preempts. lia.
Qed.

Definition unblock_tasks (k : kernel) (A : tasks) (x : Z) (tl : tasklist) (l1 l2 : list Z) : tasks :=
  add_ready k (set_tasks A tl (l1 ++ l2)) x.

Lemma add_ready_frame k k' A x t :
  lock k' (running A) = lock k (running A) -> (forall y, prio k' y = prio k y) -> add_ready k' A x t = add_ready k A x t.
Proof.
  intros Hl Hp. assert (E : preempts k' A x <-> preempts k A x) by (unfold preempts; by rewrite Hl, !Hp).
  assert (El : ready_list k' A x = ready_list k A x).
  { unfold ready_list. destruct (decide (preempts k' A x)), (decide (preempts k A x)); tauto. }
  unfold add_ready. rewrite El. unfold set_tasks. by rewrite (prio_insert_ext k k').
Qed.

Lemma up_unblock_task_spec k A s tl l1 x l2 :
  ok k A -> blocked_list s = Some tl -> A tl = l1 ++ x :: l2 -> x <> idle ->
  exists k', up_unblock_task k x = Some k' /\ ok k' (unblock_tasks k A x tl l1 l2) /\ others k k' [x] /\
    tcbs k' x = set_task_state (state k' x) (tcbs k x).
Proof.
  intros [Hi Hc Hpe] Hs Htl Hid. destruct (blocked_list_spec s tl Hs) as (Hb & _ & _ & Hne & Hnp & He).
  assert (Hx : x ∈ A tl) by (rewrite Htl; set_solver).
  destruct (sched_removeblocked_spec T idle k A s tl l1 x l2 Hi Hs Htl Hid) as (k1 & Hrun1 & Hrem).
  pose proof Hrem as (Hi1 & Hun1 & Hf1 & _ & Hx0). destruct (listed_prio k A tl x Hi Hx Hid) as [HT Hpx].
  set (A1 := set_tasks A tl (l1 ++ l2)) in *.
  assert (Hp1 : forall y, prio k1 y = prio k y) by (intros y; by rewrite (frame_prio k k1 y Hf1)).
  assert (Hr1 : running A1 = running A) by (by apply running_set_ne).
  assert (Hl1 : lock k1 (running A1) = lock k (running A1)) by (by rewrite (frame_lock k k1 _ Hf1)).
  assert (Hrf : ready_for T idle k1 A1 x) by (constructor; try done; by rewrite Hp1).
  destruct (sched_addreadytorun_spec T idle k1 A1 x Hrf) as (k3 & Hrun3 & Hi3 & Hf3).
  assert (HA : forall t, unblock_tasks k A x tl l1 l2 t = add_ready k1 A1 x t).
  { intros t. symmetry. by apply add_ready_frame. }
  unfold up_unblock_task. krun. pose proof (si_state _ _ _ _ Hi tl x Hx) as Hst. rewrite He in Hst. unfold state in Hst.
  rewrite Hst, Hb. simpl. rewrite Hrun1. simpl. rewrite Hrun3. simpl. eexists. split; [done|]. split; [|split].
  - apply ok_switch.
    + by apply (inv_tasks_ext T idle k3 (add_ready k1 A1 x)).
    + rewrite HA. unfold running. rewrite HA. fold (running (add_ready k1 A1 x)). rewrite (frame_lock k1 k3 _ Hf3).
      apply add_ready_pending; [apply Hrf|done|]. rewrite Hl1, Hr1. unfold A1. by rewrite set_tasks_ne.
    + intros E%bool_decide_eq_false. apply dec_stable in E. rewrite (fr_cpu _ _ Hf3). simpl. rewrite (fr_cpu _ _ Hf1), Hc.
      unfold running at 2. rewrite HA. fold (running (add_ready k1 A1 x)). by rewrite E.
  - apply others_switch. eapply others_trans; [by apply frame_others|].
    by apply frame_others.
  - assert (Ht : tcbs k3 x = set_task_state (state k3 x) (tcbs k x)).
    { rewrite (fr_tcb _ _ Hf3 x). by rewrite (fr_tcb _ _ Hf1 x). }
    by destruct (bool_decide _).
Qed.

(** ** Changing a listed task *)

(** A change that concerns neither priority nor state. *)
Lemma inv_put_listed k A x f :
  inv k A -> (forall t, sched_priority (f t) = sched_priority t) -> (forall t, task_state (f t) = task_state t) ->
  (0 <= lockcount (tcbs k x) -> 0 <= lockcount (f (tcbs k x))) -> inv (put_tcb x f k) A.
Proof.
  intros [Hk Hsz Ht Hst Hso Hl Hip Hp Hlo] Hfp Hfs Hfl.
  assert (Hpr : forall y, prio (put_tcb x f k) y = prio k y).
  { intros y. unfold prio. destruct (decide (y = x)) as [->|]; [by rewrite put_tcb_eq|by rewrite put_tcb_ne]. }
  constructor; try done.
  - by apply krep_put.
  - intros t y Hy. rewrite <- (Hst t y Hy). unfold state. destruct (decide (y = x)) as [->|]; [by rewrite put_tcb_eq|by rewrite put_tcb_ne].
  - intros t Hpt. apply (sorted_ext k); [done|by apply Hso].
  - by rewrite Hpr.
  - intros t y Hy. rewrite Hpr. by apply (Hp t).
  - intros y. unfold lock. destruct (decide (y = x)) as [->|]; [rewrite put_tcb_eq; apply Hfl, Hlo|rewrite put_tcb_ne by done; apply Hlo].
Qed.

(** ** Preemption lock *)

Lemma sched_lock_spec k A :
  ok k A -> in_irq k = false -> lock k (running A) < MAX_LOCK_COUNT ->
  exists k', sched_lock k = Some k' /\ ok k' A /\ lock k' (running A) = lock k (running A) + 1 /\
    k' = put_tcb (running A) (fun t => set_lockcount (lockcount t + 1) t) k.
Proof.
  intros [Hi Hc Hpe] Hirq Hmax. destruct (running_in _ _ _ _ Hi) as [_ Hr0].
  unfold sched_lock. rewrite (rtr_head_running _ _ _ _ Hi), Hirq. destruct (Z.eqb_spec (running A) 0); [done|]. simpl.
  rewrite assert_true by (apply Z.ltb_lt; exact Hmax). simpl. krun. eexists. split; [done|].
  assert (Hl : lock (put_tcb (running A) (fun t => set_lockcount (lockcount t + 1) t) k) (running A) = lock k (running A) + 1)
    by (unfold lock; by rewrite put_tcb_eq).
  split; [|done]. constructor; [apply inv_put_listed; try done; simpl; lia|done|].
  rewrite Hl. pose proof (si_lock _ _ _ _ Hi (running A)). lia.
Qed.

Lemma sched_unlock_slice_spec k A x : ok k A -> x = running A -> sched_unlock_slice x k = Some k.
Proof.
  intros [Hi _ _] ->. destruct (running_in _ _ _ _ Hi) as [_ Hr0]. unfold sched_unlock_slice.
  rewrite (rtr_head_running _ _ _ _ Hi), Z.eqb_refl. krun. by rewrite andb_false_r.
Qed.

Lemma merge_all_prio k k' A t : (forall y, prio k' y = prio k y) -> merge_all k' A t = merge_all k A t.
Proof.
  intros Hp. unfold merge_all, set_tasks. assert (E : forall P R, merge_tasks k' R P = merge_tasks k R P); [|by rewrite E].
  intros P. unfold merge_tasks. induction P as [|x P IH]; intros R; simpl; [done|]. rewrite (prio_insert_ext k k') by done. apply IH.
Qed.

(** Task [x] after its lock count has become [n]. *)
Definition relocked (k k' : kernel) (x n : Z) : Prop := tcbs k' x = set_task_state (state k' x) (set_lockcount n (tcbs k x)).

Lemma relocked_lock k k' x n : relocked k k' x n -> lock k' x = n.
Proof. unfold relocked, lock. by intros ->. Qed.

(** Releasing the last lock admits the pending tasks. *)
Lemma sched_unlock_release k A :
  ok k A -> in_irq k = false -> lock k (running A) <= 1 ->
  exists k', sched_unlock k = Some k' /\ ok k' (merge_all k A) /\ others k k' [running A] /\ relocked k k' (running A) 0.
Proof.
  intros [Hi Hc Hpe] Hirq Hle. destruct (running_in _ _ _ _ Hi) as [_ Hr0]. pose proof (si_lock _ _ _ _ Hi (running A)) as Hl0.
  unfold sched_unlock. rewrite (rtr_head_running _ _ _ _ Hi), Hirq. destruct (Z.eqb_spec (running A) 0) as [?|_]; [done|]. simpl. krun.
  set (f := fun t => if lockcount t =? 0 then t else set_lockcount (lockcount t - 1) t).
  assert (Hfl : lockcount (f (tcbs k (running A))) <= 0).
  { unfold f, lock in *. destruct (Z.eqb_spec (lockcount (tcbs k (running A))) 0); simpl; lia. }
  rewrite upd_eq. match goal with |- context [?a <=? 0] => replace (a <=? 0) with true by (symmetry; apply Z.leb_le; exact Hfl) end. krun.
  set (k1 := put_tcb (running A) (set_lockcount 0) (put_tcb (running A) f k)).
  assert (Hf1 : forall t, sched_priority (f t) = sched_priority t) by (intros t; unfold f; by destruct (_ =? 0)).
  assert (Hf2 : forall t, task_state (f t) = task_state t) by (intros t; unfold f; by destruct (_ =? 0)).
  assert (Hi1 : inv k1 A).
  { apply inv_put_listed; try done. apply inv_put_listed; try done. unfold f.
    destruct (Z.eqb_spec (lockcount (tcbs k (running A))) 0); simpl; lia. }
  assert (Hp1 : forall y, prio k1 y = prio k y).
  { intros y. unfold prio, k1. destruct (decide (y = running A)) as [->|]; [rewrite !put_tcb_eq; apply Hf1|by rewrite !put_tcb_ne]. }
  assert (Ho1 : others k k1 [running A]).
  { apply (others_trans _ (put_tcb (running A) f k)); apply others_put; set_solver. }
  destruct (merge_if_pending k1 A Hi1) as (k2 & b & Hrun & Hi2 & Hfr & Hb).
  assert (Hk2 : ok (if b then switch_context k2 else k2) (merge_all k A)).
  { apply ok_switch.
    - apply (inv_tasks_ext T idle k2 (merge_all k1 A)); [|done]. intros t. symmetry. by apply merge_all_prio.
    - rewrite merge_all_pending. done.
    - intros ->. symmetry in Hb. apply bool_decide_eq_false, dec_stable in Hb. rewrite (fr_cpu _ _ Hfr). change (cpu k1) with (cpu k).
      rewrite Hc, <- Hb. unfold running. by rewrite (merge_all_prio k k1). }
  exists (if b then switch_context k2 else k2). split; [|split; [done|split]].
  - assert (Hend : (if (head (lists k1 g_pendingtasks) =? 0) then Some (k1, false) else up_release_pending k1) =
      Some (if b then switch_context k2 else k2, b)).
    { revert Hrun. destruct (head (lists k1 g_pendingtasks) =? 0); [by intros [= -> <-]|]. unfold up_release_pending. by intros ->. }
    change (lists k1 g_pendingtasks) with (lists k g_pendingtasks) in Hend. rewrite Hend. cbn [mbind option_bind]. destruct b; [done|]. apply (sched_unlock_slice_spec k2 (merge_all k A)); [done|].
    symmetry in Hb. apply bool_decide_eq_false, dec_stable in Hb. rewrite <- Hb. unfold running. by rewrite (merge_all_prio k k1).
  - apply others_switch. eapply others_trans; [exact Ho1|by apply frame_others].
  - assert (relocked k k2 (running A) 0); [|by destruct b]. unfold relocked. rewrite (fr_tcb _ _ Hfr (running A)).
    unfold k1. rewrite !put_tcb_eq. unfold f. by destruct (lockcount (tcbs k (running A)) =? 0).
Qed.

Lemma sched_unlock_nested k A :
  ok k A -> in_irq k = false -> 1 < lock k (running A) ->
  exists k', sched_unlock k = Some k' /\ ok k' A /\ others k k' [running A] /\ relocked k k' (running A) (lock k (running A) - 1).
Proof.
  intros [Hi Hc Hpe] Hirq Hle. destruct (running_in _ _ _ _ Hi) as [_ Hr0].
  unfold sched_unlock. rewrite (rtr_head_running _ _ _ _ Hi), Hirq. destruct (Z.eqb_spec (running A) 0) as [?|_]; [done|]. simpl. krun.
  rewrite upd_eq. unfold lock in Hle. destruct (Z.eqb_spec (lockcount (tcbs k (running A))) 0) as [?|Hne]; [lia|]. simpl.
  destruct (Z.leb_spec (lockcount (tcbs k (running A)) - 1) 0); [lia|].
  eexists. split; [done|]. match goal with |- ok ?kk _ /\ _ => set (k1 := kk) end.
  assert (Hl : lock k1 (running A) = lock k (running A) - 1).
  { unfold lock, k1. rewrite put_tcb_eq. by destruct (Z.eqb_spec (lockcount (tcbs k (running A))) 0). }
  split; [|split; [apply others_put; set_solver|]]; cycle 1.
  { unfold relocked, state, k1. rewrite put_tcb_eq. by destruct (Z.eqb_spec (lockcount (tcbs k (running A))) 0). }
  constructor; [|done|rewrite Hl; unfold lock in *; lia]. apply inv_put_listed; try done.
  - intros t. by destruct (lockcount t =? 0).
  - intros t. by destruct (lockcount t =? 0).
  - destruct (Z.eqb_spec (lockcount (tcbs k (running A))) 0); simpl; lia.
Qed.
End kernel.
