(* ===== verification/SchedPriority.v ===== *)
(** * Scheduler: changes of priority and time slices *)

From stdpp Require Import base tactics numbers sets list sorting.
From S2P Require Import Prelude Queue QueueProps Sched SchedProps SchedOps SchedKernel.

Section priority.
Context (T : list Z) (idle : Z).
Abbreviation inv := (sched_inv T idle).
Abbreviation ok := (sched_ok T idle).

Abbreviation put_prio x p k := (put_tcb x (set_sched_priority p) k).

Lemma prio_put k x p y : prio (put_prio x p k) y = if decide (y = x) then p else prio k y.
Proof.
  unfold prio. destruct (decide (y = x)) as [->|Hne]; [by rewrite put_tcb_eq|by rewrite put_tcb_ne].
Qed.

Lemma state_put_prio k x p y : state (put_prio x p k) y = state k y.
Proof.
  unfold state. destruct (decide (y = x)) as [->|Hne]; [by rewrite put_tcb_eq|by rewrite put_tcb_ne].
Qed.

Lemma lock_put_prio k x p y : lock (put_prio x p k) y = lock k y.
Proof.
  unfold lock. destruct (decide (y = x)) as [->|Hne]; [by rewrite put_tcb_eq|by rewrite put_tcb_ne].
Qed.

(** ** up_reprioritize_rtr *)

(** The lists when [x], found after [l1] and before [l2], has got priority [p]. *)
Definition reprio_ready (k : kernel) (A : tasks) (x p : Z) (l1 l2 : list Z) : tasks :=
  add_ready (put_prio x p k) (set_tasks A g_readytorun (l1 ++ l2)) x.

Definition reprio_tasks (k : kernel) (A : tasks) (x p : Z) (l1 l2 : list Z) : tasks :=
  let A2 := reprio_ready k A x p l1 l2 in
  if xorb (bool_decide (l1 = [])) (bool_decide (running A2 <> running (set_tasks A g_readytorun (l1 ++ l2))))
  then merge_all (put_prio x p k) A2 else A2.

(** What stays true of a task whose priority changes. *)
Definition repriod (k : kernel) (x p : Z) (k' : kernel) : Prop :=
  others k k' [x] /\ tcbs k' x = set_task_state (state k' x) (set_sched_priority p (tcbs k x)).

Lemma repriod_prio k x p k' y : repriod k x p k' -> prio k' y = prio (put_prio x p k) y.
Proof.
  intros [(_ & _ & _ & Ho) Hx]. rewrite prio_put. unfold prio. destruct (decide (y = x)) as [->|]; [by rewrite Hx|].
  rewrite Ho by set_solver. done.
Qed.

Lemma repriod_lock k x p k' y : repriod k x p k' -> lock k' y = lock k y.
Proof.
  intros [(_ & _ & _ & Ho) Hx]. unfold lock. destruct (decide (y = x)) as [->|]; [by rewrite Hx|].
  rewrite Ho by set_solver. done.
Qed.

Lemma repriod_frame k x p k1 k' :
  repriod k x p k1 -> frame k1 k' -> repriod k x p k'.
Proof.
  intros [Ho Hx] Hf. split; [eapply others_trans; [exact Ho|by apply frame_others]|].
  rewrite (fr_tcb _ _ Hf x), Hx. done.
Qed.

Lemma repriod_put k x p k1 : frame k k1 -> repriod k x p (put_prio x p k1).
Proof.
  intros Hf. split; [eapply others_trans; [by apply frame_others|apply others_put; set_solver]|].
  rewrite put_tcb_eq. unfold state. rewrite put_tcb_eq, (fr_tcb _ _ Hf x). done.
Qed.

Lemma repriod_switch k x p k' (b : bool) : repriod k x p k' -> repriod k x p (if b then switch_context k' else k').
Proof. by destruct b. Qed.

Lemma add_ready_ext k k' A A' x t :
  (forall y, prio k' y = prio k y) -> (forall y, lock k' y = lock k y) -> (forall t, A' t = A t) ->
  add_ready k' A' x t = add_ready k A x t.
Proof.
  intros Hp Hl HA. assert (Hr : running A' = running A) by (unfold running; by rewrite HA).
  assert (E : preempts k' A' x <-> preempts k A x) by (unfold preempts; by rewrite Hr, Hl, !Hp).
  assert (El : ready_list k' A' x = ready_list k A x).
  { unfold ready_list. destruct (decide (preempts k' A' x)), (decide (preempts k A x)); tauto. }
  unfold add_ready, set_tasks. rewrite El, !HA. by rewrite (prio_insert_ext k k').
Qed.

(** Removal, change of priority and return to the ready tasks. *)
Lemma reprio_steps k A x p l1 l2 :
  inv k A -> A g_readytorun = l1 ++ x :: l2 -> x <> idle -> 1 <= p <= 255 ->
  let A1 := set_tasks A g_readytorun (l1 ++ l2) in
  exists k1 k2, sched_removereadytorun k x = Some (k1, bool_decide (l1 = [])) /\ x <> 0 /\
    sched_addreadytorun (put_prio x p k1) x = Some (k2, bool_decide (running (reprio_ready k A x p l1 l2) <> running A1)) /\
    inv k2 (reprio_ready k A x p l1 l2) /\ repriod k x p k2 /\ cpu k2 = cpu k /\ unlisted A1 x /\ running A1 <> x.
Proof.
  intros Hi Htl Hid Hp A1. assert (Hx : x ∈ A g_readytorun) by (rewrite Htl; set_solver).
  destruct (sched_removereadytorun_spec T idle k A l1 x l2 Hi Htl Hid) as (k1 & Hrun1 & Hi1 & Hun1 & Hf1 & _ & Hx0).
  destruct (listed_prio T idle k A g_readytorun x Hi Hx Hid) as [HT _]. fold A1 in Hi1, Hun1.
  assert (Hrf : ready_for T idle (put_prio x p k1) A1 x).
  { constructor; try done; [by apply inv_put|]. rewrite prio_put. by rewrite decide_True. }
  destruct (sched_addreadytorun_spec T idle _ A1 x Hrf) as (k2 & Hrun2 & Hi2 & Hf2).
  pose proof (repriod_put k x p k1 Hf1) as Hre.
  assert (HA : forall t, reprio_ready k A x p l1 l2 t = add_ready (put_prio x p k1) A1 x t).
  { intros t. unfold reprio_ready. fold A1. symmetry. apply add_ready_ext; [|intros y|done].
    - intros y. by apply (repriod_prio k x p).
    - rewrite (repriod_lock k x p _ y Hre). by rewrite lock_put_prio. }
  assert (Hr : running (reprio_ready k A x p l1 l2) = running (add_ready (put_prio x p k1) A1 x)) by (unfold running; by rewrite HA).
  exists k1, k2. rewrite Hr. split_and!; try done.
  - by apply (inv_tasks_ext T idle k2 (add_ready (put_prio x p k1) A1 x)).
  - by eapply repriod_frame.
  - rewrite (fr_cpu _ _ Hf2). simpl. apply Hf1.
  - intros E. by apply (unlisted_running T idle k1 A1 x Hi1 Hun1).
Qed.

Lemma running_reprio k A x p l1 l2 :
  running (reprio_ready k A x p l1 l2) = x \/
  running (reprio_ready k A x p l1 l2) = running (set_tasks A g_readytorun (l1 ++ l2)).
Proof.
  unfold reprio_ready, add_ready, ready_list. destruct (decide (preempts _ _ _)).
  - right. by apply running_set_ne.
  - rewrite running_set, hd_prio_insert. destruct (decide _); [by left|by right].
Qed.

(** When no switch is needed the running task is the same and nothing became
    pending without a lock. *)
Lemma reprio_stays k A x p l1 l2 :
  ok k A -> A g_readytorun = l1 ++ x :: l2 -> running (set_tasks A g_readytorun (l1 ++ l2)) <> x ->
  xorb (bool_decide (l1 = []))
    (bool_decide (running (reprio_ready k A x p l1 l2) <> running (set_tasks A g_readytorun (l1 ++ l2)))) = false ->
  running (reprio_ready k A x p l1 l2) = running A /\
  (reprio_ready k A x p l1 l2 g_pendingtasks <> [] -> 0 < lock k (running A)).
Proof.
  intros [Hi Hc Hpe] Htl Hr1 Esw. set (A1 := set_tasks A g_readytorun (l1 ++ l2)) in *.
  set (A2 := reprio_ready k A x p l1 l2) in *.
  assert (HP0 : ready_list (put_prio x p k) A1 x = g_readytorun -> A2 g_pendingtasks <> [] -> 0 < lock k (running A)).
  { intros El. unfold A2, reprio_ready, add_ready. fold A1. rewrite El, set_tasks_ne by done. unfold A1. rewrite set_tasks_ne by done. done. }
  destruct (running_reprio k A x p l1 l2) as [E|E]; fold A1 A2 in E; rewrite E in Esw |- *.
  - rewrite (bool_decide_eq_true_2 (x <> running A1)) in Esw by congruence.
    destruct (bool_decide_reflect (l1 = [])) as [->|]; [|done]. split; [unfold running; by rewrite Htl|].
    apply HP0. unfold A2, reprio_ready, add_ready in E. fold A1 in E. unfold ready_list in *.
    destruct (decide (preempts _ _ _)); [|done]. by rewrite running_set_ne in E.
  - rewrite (bool_decide_eq_false_2 (running A1 <> running A1)) in Esw by (by intros H; apply H).
    destruct (bool_decide_reflect (l1 = [])) as [->|Hne]; [done|].
    assert (HrA : running A1 = running A) by (unfold A1; by rewrite (running_removed A l1 x l2)). split; [done|].
    unfold ready_list in HP0. destruct (decide (preempts (put_prio x p k) A1 x)) as [[Hl _]|_]; [|by apply HP0].
    intros _. rewrite lock_put_prio, HrA in Hl. pose proof (si_lock _ _ _ _ Hi (running A)). lia.
Qed.

Lemma up_reprioritize_rtr_spec k A x p l1 l2 :
  ok k A -> A g_readytorun = l1 ++ x :: l2 -> x <> idle -> 1 <= p <= 255 ->
  exists k', up_reprioritize_rtr k x p = Some k' /\ ok k' (reprio_tasks k A x p l1 l2) /\ repriod k x p k'.
Proof.
  intros Hok Htl Hid Hp. pose proof Hok as [Hi Hc Hpe]. assert (Hx : x ∈ A g_readytorun) by (rewrite Htl; set_solver).
  destruct (reprio_steps k A x p l1 l2 Hi Htl Hid Hp) as (k1 & k2 & Hrun1 & Hx0 & Hrun2 & Hi2 & Hre & Hc2 & Hun1 & Hr1).
  pose proof (reprio_stays k A x p l1 l2 Hok Htl Hr1) as Hstay.
  set (A1 := set_tasks A g_readytorun (l1 ++ l2)) in *. set (A2 := reprio_ready k A x p l1 l2) in *.
  unfold up_reprioritize_rtr. krun. pose proof (readytorun_state T idle k A x Hi Hx) as Hst. unfold state in Hst. rewrite Hst.
  rewrite assert_true by (unfold SCHED_PRIORITY_MIN; simpl; apply Z.leb_le; lia). simpl. rewrite Hrun1. simpl. krun.
  rewrite Hrun2. simpl. unfold reprio_tasks. fold A1 A2.
  destruct (xorb (bool_decide (l1 = [])) (bool_decide (running A2 <> running A1))) eqn:Esw.
  - destruct (merge_if_pending T idle k2 A2 Hi2) as (k3 & b & Hrun3 & Hi3 & Hf3 & _). exists (switch_context k3). split; [|split].
    + revert Hrun3. destruct (head (lists k2 g_pendingtasks) =? 0); [by intros [= -> _]|]. by intros ->.
    + apply (ok_switch T idle k3 _ true); [|by rewrite merge_all_pending|done].
      apply (inv_tasks_ext T idle k3 (merge_all k2 A2)); [|done]. intros t. symmetry. apply merge_all_prio.
      intros y. by apply (repriod_prio k x p).
    + apply (repriod_switch k x p k3 true). by eapply repriod_frame.
  - destruct (Hstay eq_refl) as [E HP]. exists k2. split; [done|]. split; [|done]. constructor; [done|congruence|].
    rewrite (repriod_lock k x p), E by done. exact HP.
Qed.
(** ** sched_setpriority *)

(** The same tasks are runnable, and the same tasks wait in every other list. *)
Definition same_members (A A' : tasks) : Prop :=
  (forall y, runnable A' y <-> runnable A y) /\
  forall tl y, tl <> g_readytorun -> tl <> g_pendingtasks -> (y ∈ A' tl <-> y ∈ A tl).

Lemma same_members_refl A : same_members A A.
Proof. split; done. Qed.

Lemma add_ready_runnable k A x y : runnable (add_ready k A x) y <-> y = x \/ runnable A y.
Proof.
  unfold runnable, add_ready, ready_list. destruct (decide (preempts k A x)).
  - rewrite set_tasks_eq, set_tasks_ne, prio_insert_in by done. tauto.
  - rewrite set_tasks_eq, set_tasks_ne, prio_insert_in by done. tauto.
Qed.

Lemma add_ready_other k A x tl : tl <> g_readytorun -> tl <> g_pendingtasks -> add_ready k A x tl = A tl.
Proof. intros. unfold add_ready, ready_list. apply set_tasks_ne. by destruct (decide _). Qed.

Lemma merge_all_other k A tl : tl <> g_readytorun -> tl <> g_pendingtasks -> merge_all k A tl = A tl.
Proof. intros. unfold merge_all. by rewrite !set_tasks_ne. Qed.

Lemma reprio_members k A x p l1 l2 :
  A g_readytorun = l1 ++ x :: l2 -> same_members A (reprio_ready k A x p l1 l2) /\ same_members A (reprio_tasks k A x p l1 l2).
Proof.
  intros Htl. assert (H : same_members A (reprio_ready k A x p l1 l2)).
  { split.
    - intros y. unfold reprio_ready. rewrite add_ready_runnable. unfold runnable. rewrite set_tasks_eq, set_tasks_ne, Htl by done.
      set_solver.
    - intros tl y H1 H2. unfold reprio_ready. by rewrite add_ready_other, set_tasks_ne. }
  split; [done|]. unfold reprio_tasks. destruct (xorb _ _); [|done]. destruct H as [Hr Ho]. split.
  - intros y. by rewrite merge_all_runnable.
  - intros tl y H1 H2. rewrite merge_all_other by done. by apply Ho.
Qed.

Lemma inv_put_prio k A x p :
  inv k A -> x <> idle -> 1 <= p <= 255 ->
  (forall tl, is_prioritized tl -> x ∈ A tl -> sorted (put_prio x p k) (A tl)) -> inv (put_prio x p k) A.
Proof.
  intros [Hk Hsz Ht Hst Hso Hl Hip Hp Hlo] Hid Hpp Hs. constructor; try done.
  - by apply krep_put.
  - intros t y Hy. rewrite state_put_prio. by apply Hst.
  - intros t Hpt. destruct (decide (x ∈ A t)) as [Hx|Hx]; [by apply Hs|].
    apply (sorted_ext k); [|by apply Hso]. intros y Hy. rewrite prio_put, decide_False; [done|]. by intros ->.
  - rewrite prio_put, decide_False by done. done.
  - intros t y Hy Hyi. rewrite prio_put. destruct (decide (y = x)); [done|by apply (Hp t)].
  - intros y. rewrite lock_put_prio. apply Hlo.
Qed.

Lemma u8_small p : 0 <= p <= 255 -> u8 p = p.
Proof. intros. unfold u8. apply Z.mod_small. lia. Qed.

(** While the running task holds the lock, another task's priority cannot
    take the processor from it. *)
Definition stays (k : kernel) (A : tasks) (x : Z) (A' : tasks) : Prop :=
  x <> running A -> 0 < lock k (running A) -> running A' = running A.

Lemma reprio_locked k A x p r l1 l2 :
  A g_readytorun = r :: l1 ++ x :: l2 -> r <> x -> 0 < lock k r ->
  running (reprio_tasks k A x p (r :: l1) l2) = r.
Proof.
  intros Htl Hne Hl. unfold reprio_tasks. set (A1 := set_tasks A g_readytorun ((r :: l1) ++ l2)).
  assert (E1 : running A1 = r) by (unfold A1; by rewrite running_set).
  assert (E2 : running (reprio_ready k A x p (r :: l1) l2) = r).
  { unfold reprio_ready. fold A1. unfold add_ready, ready_list. destruct (decide (preempts _ _ _)) as [_|Hn]; [by rewrite running_set_ne|].
    rewrite running_set, hd_prio_insert. unfold A1. rewrite set_tasks_eq. rewrite decide_False; [done|]. simpl.
    destruct (Z.leb_spec (prio (put_prio x p k) x) (prio (put_prio x p k) r)); [done|]. destruct Hn. unfold preempts.
    rewrite E1, lock_put_prio. split; [lia|done]. }
  rewrite E1, E2. simpl. rewrite bool_decide_eq_false_2 by (by intros H; apply H). done.
Qed.

(** What [sched_setpriority] achieves. *)
Definition setprio_ok (k : kernel) (A : tasks) (x p : Z) (r : option kernel) : Prop :=
  exists k' A', r = Some k' /\ ok k' A' /\ repriod k x p k' /\ same_members A A' /\ stays k A x A'.

(** The running task. *)
Lemma setpriority_running k A x p l2 :
  ok k A -> A g_readytorun = x :: l2 -> x <> idle -> 1 <= p <= 255 ->
  setprio_ok k A x p
    (next ← get_flink (lk k) x; n ← get_tcb k next;
     if p <=? sched_priority n then up_reprioritize_rtr k x p else upd_tcb k x (set_sched_priority p)).
Proof.
  intros Hok Htl Hid Hp. pose proof Hok as [Hi Hc Hpe].
  pose proof (kr_list _ _ (si_rep _ _ _ _ Hi) g_readytorun) as Hr. rewrite Htl in Hr.
  destruct (dq_next_of _ _ [] _ _ Hr) as (Hx0 & Hn & _). pose proof (dq_null _ _ _ Hr) as H0.
  destruct (si_idle _ _ _ _ Hi) as [l Hl]. rewrite Htl in Hl. destruct (snoc_split [] x l2 l idle Hl Hid) as (l2' & El2 & _).
  destruct l2 as [|n l2]; [by destruct l2'|]. simpl in Hn. assert (Hn0 : n <> 0) by set_solver. krun. rewrite Hn. krun.
  destruct (Z.leb_spec p (sched_priority (tcbs k n))) as [Hle|Hgt].
  - destruct (up_reprioritize_rtr_spec k A x p [] (n :: l2) Hok Htl Hid Hp) as (k' & Hrun & Hok' & Hre).
    eexists _, _. split; [exact Hrun|]. split; [done|]. split; [done|]. split; [by apply reprio_members|].
    intros Hne. destruct Hne. unfold running. by rewrite Htl.
  - eexists _, A. split; [done|]. split; [|split; [by apply repriod_put, frame_refl|split; [apply same_members_refl|by intros ? _]]].
    constructor; [|done|rewrite lock_put_prio; exact Hpe]. apply inv_put_prio; try done. intros tl Hpt Hx.
    assert (tl = g_readytorun) as -> by (apply (kr_once _ _ (si_rep _ _ _ _ Hi) tl g_readytorun x Hx); rewrite Htl; set_solver).
    pose proof (si_sorted _ _ _ _ Hi g_readytorun Hpt) as Hso. rewrite Htl in *. apply sorted_cons in Hso as [Hso _].
    pose proof (proj2 (proj1 (sorted_cons k n l2) Hso)) as Hmax.
    pose proof (dq_nodup _ _ _ Hr) as [Hnx _]%NoDup_cons.
    assert (Hne : forall y, y ∈ n :: l2 -> prio (put_prio x p k) y = prio k y).
    { intros y Hy. rewrite prio_put, decide_False; [done|]. by intros ->. }
    apply sorted_cons. split; [by apply (sorted_ext k)|]. intros y Hy. rewrite Hne, prio_put, decide_True by done.
    apply elem_of_cons in Hy as [->|Hy]; [unfold prio; lia|]. specialize (Hmax y Hy). unfold prio in *. lia.
Qed.

(** Another task of the ready-to-run list. *)
Lemma setpriority_ready k A x p r l1 l2 :
  ok k A -> A g_readytorun = r :: l1 ++ x :: l2 -> x <> idle -> 1 <= p <= 255 ->
  setprio_ok k A x p
    (r ← get_tcb k (rtr_head k);
     if sched_priority r <? p then up_reprioritize_rtr k x p
     else
       '(k, changed) ← sched_removereadytorun k x;
       _ ← assert (negb changed);
       k ← upd_tcb k x (set_sched_priority p);
       '(k, changed) ← sched_addreadytorun k x;
       _ ← assert (negb changed);
       Some k).
Proof.
  intros Hok Htl Hid Hp. pose proof Hok as [Hi Hc Hpe]. destruct (running_in _ _ _ _ Hi) as [_ Hr0].
  rewrite (rtr_head_running _ _ _ _ Hi). assert (HrA : running A = r) by (unfold running; by rewrite Htl). rewrite HrA in *. krun.
  destruct (Z.ltb_spec (sched_priority (tcbs k r)) p) as [Hlt|Hge].
  - destruct (up_reprioritize_rtr_spec k A x p (r :: l1) l2 Hok Htl Hid Hp) as (k' & Hrun & Hok' & Hre).
    eexists _, _. split; [exact Hrun|]. split; [done|]. split; [done|]. split; [by apply reprio_members|].
    intros Hne Hl. rewrite HrA in *. apply reprio_locked; congruence.
  - destruct (reprio_steps k A x p (r :: l1) l2 Hi Htl Hid Hp) as (k1 & k2 & -> & Hx0 & Hrun2 & Hi2 & Hre & Hc2 & _ & Hr1).
    simpl. krun. rewrite Hrun2.
    set (A1 := set_tasks A g_readytorun ((r :: l1) ++ l2)) in *.
    assert (E1 : running A1 = r) by (unfold A1; by rewrite running_set). assert (Hrx : r <> x) by congruence.
    assert (E2 : running (reprio_ready k A x p (r :: l1) l2) = r).
    { unfold reprio_ready. fold A1. unfold add_ready, ready_list. destruct (decide (preempts _ _ _)); [by rewrite running_set_ne|].
      rewrite running_set, hd_prio_insert. unfold A1. rewrite set_tasks_eq. rewrite decide_False; [done|]. simpl.
      rewrite !prio_put, decide_True, decide_False by done. unfold prio. by destruct (Z.leb_spec p (sched_priority (tcbs k r))); [|lia]. }
    rewrite E1, E2 in *. rewrite bool_decide_eq_false_2 by (by intros H; apply H). simpl.
    exists k2, (reprio_ready k A x p (r :: l1) l2). split; [done|]. split; [|split; [done|split; [apply (reprio_members k A x p (r :: l1) l2 Htl)|by intros _ _; rewrite HrA]]]. constructor; [done|congruence|].
    rewrite E2, (repriod_lock k x p) by done.
    destruct (reprio_stays k A x p (r :: l1) l2 Hok Htl) as [_ HP]; [by fold A1; rewrite E1| |by rewrite HrA in HP].
    fold A1. rewrite E1, E2. simpl. apply bool_decide_eq_false_2. by intros H; apply H.
Qed.
(** A task that waits in a prioritized list. *)
Lemma setpriority_waiting k A x p tl l1 l2 :
  ok k A -> A tl = l1 ++ x :: l2 -> tl <> g_readytorun -> is_prioritized tl -> x <> idle -> 1 <= p <= 255 ->
  setprio_ok k A x p
    ('(L, q) ← dq_rem (lk k) x (lists k tl);
     k ← upd_tcb (set_list tl q (set_lk L k)) x (set_sched_priority p);
     r ← sched_addprioritized k x tl;
     Some r.1).
Proof.
  intros [Hi Hc Hpe] Htl Hne Hpt Hid Hp. assert (Hx : x ∈ A tl) by (rewrite Htl; set_solver).
  pose proof (si_rep _ _ _ _ Hi) as Hk. destruct (krep_rem k A tl l1 x l2 Hk Htl) as (L & q & -> & Hk1 & Hun & Hx0).
  set (A1 := set_tasks A tl (l1 ++ l2)) in *. set (k1 := set_list tl q (set_lk L k)) in *.
  assert (Hi1 : inv k1 A1).
  { apply (inv_remove T idle k A k1 tl l1 x l2); try done; [apply frame_list|]. intros t y Hy. rewrite running_set_ne by done.
    apply (si_state _ _ _ _ Hi). unfold set_tasks in Hy. destruct (decide (t = tl)) as [->|]; [rewrite Htl; set_solver|done]. }
  assert (Hrf : ready_for T idle (put_prio x p k1) A1 x).
  { constructor; try done; [by apply inv_put|by apply (si_tasks _ _ _ _ Hi tl)|]. rewrite prio_put. by rewrite decide_True. }
  destruct (rf_add T idle _ A1 x tl Hrf) as (k2 & Hrun & Hk2 & Hrl). cbn [mbind option_bind]. fold k1. krun. fold (put_prio x p k1).
  rewrite Hrun. simpl. set (s := expected 0 tl x).
  assert (Hs : forall n, expected n tl x = s) by (intros n; unfold s; by destruct tl).
  destruct (inv_add_other T idle _ A1 x tl k2 s Hrf Hne Hpt Hs Hk2 Hrl) as [Hi2 Hf2].
  set (A2 := set_tasks A1 tl (prio_insert (put_prio x p k1) x (A1 tl))) in *.
  assert (Hsx : task_state (tcbs k2 x) = s).
  { rewrite (rl_tcbs _ _ Hrl). rewrite put_tcb_eq. simpl. fold (state k x). rewrite (si_state _ _ _ _ Hi tl x Hx). apply Hs. }
  assert (Hsame : forall y, tcbs k2 y = tcbs (put_state x s k2) y).
  { intros y. destruct (decide (y = x)) as [->|]; [|by rewrite put_tcb_ne]. rewrite put_tcb_eq, <- Hsx. by destruct (tcbs k2 x). }
  assert (Hra : running A2 = running A) by (unfold A2, A1; by rewrite !running_set_ne).
  exists k2, A2. split; [done|]. split; [|split; [|split; [|by intros _ _]]].
  - constructor; [by apply (inv_ext T idle (put_state x s k2))|rewrite (rl_cpu _ _ Hrl), Hra; exact Hc|].
    rewrite Hra. unfold lock. rewrite (rl_tcbs _ _ Hrl). fold (lock (put_prio x p k1) (running A)). rewrite lock_put_prio.
    intros HP. apply Hpe. intros E. destruct (decide (tl = g_pendingtasks)) as [->|]; [rewrite Htl in E; by destruct l1|].
    apply HP. unfold A2, A1. by rewrite !set_tasks_ne.
  - apply (repriod_frame k x p (put_prio x p k1)); [|by apply relinked_frame]. apply repriod_put, frame_list.
  - assert (Hin : forall t y, y ∈ A2 t <-> y ∈ A t).
    { intros t y. unfold A2, A1, set_tasks. destruct (decide (t = tl)) as [->|]; [|done]. rewrite prio_insert_in, decide_True, Htl by done.
      set_solver. }
    split; [intros y; unfold runnable; by rewrite !Hin|intros; apply Hin].
Qed.

(** A task whose list is not sorted. *)
Lemma setpriority_unsorted k A x p tl :
  ok k A -> x ∈ A tl -> is_prioritized tl = false -> x <> idle -> 1 <= p <= 255 ->
  setprio_ok k A x p (upd_tcb k x (set_sched_priority p)).
Proof.
  intros [Hi Hc Hpe] Hx Hpt Hid Hp.
  assert (Hx0 : x <> 0) by (intros ->; by apply (dq_null _ _ _ (kr_list _ _ (si_rep _ _ _ _ Hi) tl))). krun.
  eexists _, A. split; [done|]. split; [|split; [by apply repriod_put, frame_refl|split; [apply same_members_refl|by intros _ _]]].
  constructor; [|done|rewrite lock_put_prio; exact Hpe]. apply inv_put_prio; try done. intros t Ht Hxt.
  rewrite (kr_once _ _ (si_rep _ _ _ _ Hi) t tl x Hxt Hx), Hpt in Ht. done.
Qed.

(** Every case of the function. *)
Lemma sched_setpriority_spec k A x tl p :
  ok k A -> x ∈ A tl -> x <> idle -> 1 <= p <= 255 ->
  exists k' A', sched_setpriority k x p = Some (k', OK) /\ ok k' A' /\ repriod k x p k' /\ same_members A A' /\ stays k A x A'.
Proof.
  intros Hok Hx Hid Hp. pose proof (ok_inv _ _ _ _ Hok) as Hi.
  assert (Hx0 : x <> 0) by (intros ->; by apply (dq_null _ _ _ (kr_list _ _ (si_rep _ _ _ _ Hi) tl))).
  assert (Hgo : forall r, setprio_ok k A x p r -> sched_setpriority k x p = (k ← r; Some (k, OK)) ->
    exists k' A', sched_setpriority k x p = Some (k', OK) /\ ok k' A' /\ repriod k x p k' /\ same_members A A' /\ stays k A x A').
  { intros r (k' & A' & -> & ? & ? & ? & ?) E. by exists k', A'. }
  assert (Hu : u8 p = p) by (apply u8_small; lia).
  pose proof (si_state _ _ _ _ Hi tl x Hx) as Hst. unfold state in Hst.
  apply list_elem_of_split in Hx as (l1 & l2 & Htl).
  assert (Hbody : sched_setpriority k x p = (k ← match task_state (tcbs k x) with
      | TSTATE_TASK_RUNNING =>
          next ← get_flink (lk k) x; n ← get_tcb k next;
          if p <=? sched_priority n then up_reprioritize_rtr k x p else upd_tcb k x (set_sched_priority p)
      | TSTATE_TASK_READYTORUN =>
          r ← get_tcb k (rtr_head k);
          if sched_priority r <? p then up_reprioritize_rtr k x p
          else
            '(k, changed) ← sched_removereadytorun k x; _ ← assert (negb changed);
            k ← upd_tcb k x (set_sched_priority p); '(k, changed) ← sched_addreadytorun k x;
            _ ← assert (negb changed); Some k
      | s =>
          if (g_tasklisttable s).2 then
            tl ← (g_tasklisttable s).1; '(L, q) ← dq_rem (lk k) x (lists k tl);
            k ← upd_tcb (set_list tl q (set_lk L k)) x (set_sched_priority p);
            r ← sched_addprioritized k x tl; Some r.1
          else upd_tcb k x (set_sched_priority p)
      end; Some (k, OK))).
  { unfold sched_setpriority, SCHED_PRIORITY_MIN, SCHED_PRIORITY_MAX.
    destruct (Z.ltb_spec p 1), (Z.ltb_spec 255 p); [lia..|]. rewrite (get_tcb_ok k x) by done. cbn [orb mbind option_bind]. by rewrite Hu. }
  destruct (decide (tl = g_readytorun)) as [->|Hne].
  - simpl in Hst. destruct l1 as [|r l1].
    + rewrite decide_True in Hst by (unfold running; by rewrite Htl). rewrite Hst in Hbody.
      eapply Hgo; [|exact Hbody]. by eapply setpriority_running.
    + rewrite decide_False in Hst.
      * rewrite Hst in Hbody. eapply Hgo; [|exact Hbody]. by eapply setpriority_ready.
      * unfold running. rewrite Htl. simpl. pose proof (dq_nodup _ _ _ (kr_list _ _ (si_rep _ _ _ _ Hi) g_readytorun)) as Hnd.
        rewrite Htl in Hnd. simpl in Hnd. intros ->. qside.
  - assert (Hx : x ∈ A tl) by (rewrite Htl; set_solver).
    rewrite Hst in Hbody. destruct tl; [done|..]; (eapply Hgo; [|exact Hbody]);
      first [exact (setpriority_waiting k A x p _ l1 l2 Hok Htl Hne I Hid Hp) | exact (setpriority_unsorted k A x p _ Hok Hx eq_refl Hid Hp)].
Qed.

Lemma sched_setpriority_range k x p :
  ~ 1 <= p <= 255 -> sched_setpriority k x p = Some (set_errno k EINVAL, ERROR).
Proof.
  intros Hp. unfold sched_setpriority, SCHED_PRIORITY_MIN, SCHED_PRIORITY_MAX.
  destruct (Z.ltb_spec p 1), (Z.ltb_spec 255 p); try done. lia.
Qed.
End priority.
