(* ===== verification/SchedTheorems.v ===== *)
(** * Scheduler: theorems

    What the scheduler guarantees in every state its operations can reach, and
    what single operations do to the task lists. *)

From stdpp Require Import base tactics numbers sets list sorting.
From S2P Require Import Prelude Queue QueueProps Sched SchedProps SchedOps SchedKernel SchedPriority.

(** ** Time slices *)

Section slices.
Context (T : list Z) (idle : Z).
Abbreviation ok := (sched_ok T idle).

Lemma ok_put k A x f :
  ok k A -> (forall t, sched_priority (f t) = sched_priority t) -> (forall t, task_state (f t) = task_state t) ->
  (forall t, lockcount (f t) = lockcount t) -> ok (put_tcb x f k) A.
Proof.
  intros [Hi Hc Hp] H1 H2 H3. constructor; [apply inv_put_listed; try done; by rewrite H3|done|].
  intros HP. unfold lock. destruct (decide (running A = x)) as [<-|]; [rewrite put_tcb_eq, H3|rewrite put_tcb_ne by done]; by apply Hp.
Qed.

Lemma ok_set_errno k A e : ok k A -> ok (set_errno k e) A.
Proof.
  intros Hok. unfold set_errno, get_errno_ptr. destruct (_ && _); [by apply (ok_put k A)|]. destruct Hok as [Hi Hc Hp].
  constructor; [by apply (inv_ext T idle k)|done|done].
Qed.

(** Only states and time slices differ. *)
Definition sliced (k k' : kernel) : Prop :=
  in_irq k' = in_irq k /\ g_pidhash k' = g_pidhash k /\
  forall y, exists v, tcbs k' y = set_task_state (state k' y) (set_timeslice v (tcbs k y)).

Lemma sliced_put k x v : sliced k (put_tcb x (set_timeslice v) k).
Proof.
  split_and!; try done. intros y. unfold state. destruct (decide (y = x)) as [->|].
  - exists v. by rewrite put_tcb_eq.
  - exists (timeslice (tcbs k y)). rewrite put_tcb_ne by done. by destruct (tcbs k y).
Qed.

Lemma sliced_refl k : sliced k k.
Proof. split_and!; try done. intros y. exists (timeslice (tcbs k y)). unfold state. by destruct (tcbs k y). Qed.

Lemma sliced_repriod k k1 x k' : sliced k k1 -> repriod k1 x (prio k1 x) k' -> sliced k k'.
Proof.
  intros (? & ? & Hk) [(? & _ & ? & Ho) Hx]. split_and!; [congruence..|]. intros y. destruct (Hk y) as [v Hv]. exists v.
  destruct (decide (y = x)) as [->|Hne]; [|rewrite (Ho y) by set_solver; by rewrite Hv].
  rewrite Hx. unfold prio. rewrite Hv. done.
Qed.

Lemma running_alone_idle k A l2 :
  sched_inv T idle k A -> A g_readytorun = idle :: l2 -> flink (lk k) idle = 0.
Proof.
  intros Hi Htl. destruct (si_idle _ _ _ _ Hi) as [l Hl]. rewrite Htl in Hl.
  pose proof (kr_list _ _ (si_rep _ _ _ _ Hi) g_readytorun) as Hr. rewrite Htl in Hr.
  destruct (dq_next_of _ _ [] _ _ Hr) as (_ & Hn & _). pose proof (dq_nodup _ _ _ Hr) as [Hnin _]%NoDup_cons.
  destruct l as [|z l]; [by injection Hl as ->|]. injection Hl as -> ->. set_solver.
Qed.

Lemma sched_process_timeslice_spec k A :
  ok k A -> exists k' A', sched_process_timeslice k = Some k' /\ ok k' A' /\ same_members A A' /\ sliced k k'.
Proof.
  intros Hok. pose proof (ok_inv _ _ _ _ Hok) as Hi. destruct (running_in _ _ _ _ Hi) as [Hrin Hr0].
  assert (Hsame : forall k1, ok k1 A -> sliced k k1 -> exists k' A', Some k1 = Some k' /\ ok k' A' /\ same_members A A' /\ sliced k k')
    by (intros k1 ? ?; exists k1, A; split_and!; try done; apply same_members_refl).
  unfold sched_process_timeslice. rewrite (rtr_head_running _ _ _ _ Hi). set (x := running A) in *. krun.
  destruct (negb _); [|apply Hsame; [done|apply sliced_refl]]. destruct (_ <=? 1); cycle 1.
  { apply (Hsame (put_tcb x _ k)); [by apply ok_put|apply sliced_put]. }
  destruct (_ =? 0); [|apply Hsame; [done|apply sliced_refl]]. krun. set (k1 := put_tcb x (set_timeslice (MSEC2TICK CONFIG_RR_INTERVAL)) k).
  assert (Hok1 : ok k1 A) by (by apply ok_put). pose proof (Hsame k1 Hok1 (sliced_put _ _ _)) as Hsame1.
  destruct (Z.eqb_spec (flink (lk k) x) 0) as [|Hn0]; [done|]. simpl. destruct (_ <=? _); [|done].
  destruct (A g_readytorun) as [|y l2] eqn:Htl; [by apply elem_of_nil in Hrin|].
  assert (x = y) as -> by (unfold x, running; by rewrite Htl).
  assert (Hid : y <> idle) by (intros ->; apply Hn0; by eapply running_alone_idle).
  destruct (listed_prio T idle k A g_readytorun y Hi ltac:(rewrite Htl; set_solver) Hid) as [_ Hp].
  assert (Hpp : prio k1 y = prio k y) by (unfold k1, prio; by rewrite put_tcb_eq).
  destruct (up_reprioritize_rtr_spec T idle k1 A y (prio k y) [] l2 Hok1 Htl Hid Hp) as (k' & Hrun & Hok' & Hre).
  exists k', (reprio_tasks k1 A y (prio k y) [] l2). split_and!; try done; [by apply reprio_members|].
  rewrite <- Hpp in Hre. apply (sliced_repriod k k1 y k'); [apply sliced_put|done].
Qed.
End slices.

(** ** Sequences of operations *)

(** What tasks and interrupt handlers ask of the scheduler; the running task
    blocks itself. *)
Inductive sched_op :=
  | OpBlock (s : tstate)
  | OpUnblock (x : Z)
  | OpLock
  | OpUnlock
  | OpSetPriority (x p : Z)
  | OpTick.

Definition sched_exec (k : kernel) (op : sched_op) : option kernel :=
  match op with
  | OpBlock s => up_block_task k (rtr_head k) s
  | OpUnblock x => up_unblock_task k x
  | OpLock => sched_lock k
  | OpUnlock => sched_unlock k
  | OpSetPriority x p => r ← sched_setpriority k x p; Some r.1
  | OpTick => sched_process_timeslice k
  end.

Definition is_runnable (s : tstate) : bool :=
  match s with TSTATE_TASK_READYTORUN | TSTATE_TASK_RUNNING | TSTATE_TASK_PENDING => true | _ => false end.

Section runs.
Context (T : list Z) (idle : Z).
Abbreviation ok := (sched_ok T idle).

(** The duties of the callers: the idle task never blocks and keeps its
    priority, only blocked tasks are unblocked, and locks are not nested
    deeper than [MAX_LOCK_COUNT]. *)
Definition sched_op_valid (k : kernel) (op : sched_op) : Prop :=
  match op with
  | OpBlock s => is_blocked s = true /\ rtr_head k <> idle
  | OpUnblock x => x ∈ T /\ is_blocked (state k x) = true
  | OpLock => in_irq k = false -> lock k (rtr_head k) < MAX_LOCK_COUNT
  | OpSetPriority x p => x ∈ T /\ x <> idle
  | OpUnlock | OpTick => True
  end.

Inductive sched_reachable (k0 : kernel) : kernel -> Prop :=
  | reachable_start : sched_reachable k0 k0
  | reachable_step k op k' :
      sched_reachable k0 k -> sched_op_valid k op -> sched_exec k op = Some k' -> sched_reachable k0 k'.

Definition all_listed (A : tasks) : Prop := forall x, x ∈ T -> exists tl, x ∈ A tl.

Definition sched_good (k : kernel) : Prop := exists A, ok k A /\ all_listed A.

Lemma same_members_listed A A' : same_members A A' -> all_listed A -> all_listed A'.
Proof.
  intros [Hr Ho] HA x Hx. destruct (HA x Hx) as [tl Htl].
  destruct (decide (tl = g_readytorun \/ tl = g_pendingtasks)) as [Hd|Hd].
  - assert (H : runnable A' x) by (apply Hr; unfold runnable; destruct Hd as [-> | ->]; tauto).
    destruct H; by eexists.
  - exists tl. apply Ho; tauto.
Qed.

Lemma blocked_state_list k A x tl :
  sched_inv T idle k A -> x ∈ A tl -> is_blocked (state k x) = true -> blocked_list (state k x) = Some tl.
Proof.
  intros Hi Hx Hb. rewrite (si_state _ _ _ _ Hi tl x Hx) in *. unfold blocked_list. rewrite Hb.
  destruct tl; simpl in *; try done. by destruct (decide _).
Qed.

Lemma blocked_not_idle k A x : sched_inv T idle k A -> is_blocked (state k x) = true -> x <> idle.
Proof.
  intros Hi Hb ->. destruct (si_idle _ _ _ _ Hi) as [l Hl].
  rewrite (si_state _ _ _ _ Hi g_readytorun idle) in Hb by (rewrite Hl; set_solver). simpl in Hb. by destruct (decide _).
Qed.

Lemma listed_set A tl l t x : x ∈ A t -> (t = tl -> x ∈ l) -> exists t', x ∈ set_tasks A tl l t'.
Proof.
  intros Hx Hl. exists t. unfold set_tasks. destruct (decide (t = tl)) as [->|]; [by apply Hl|done].
Qed.

Lemma listed_merge k A : all_listed A -> all_listed (merge_all k A).
Proof.
  intros HA. apply (same_members_listed A); [|done]. split.
  - intros y. apply merge_all_runnable.
  - intros tl y H1 H2. by rewrite merge_all_other.
Qed.

Lemma listed_add_blocked k A x tl :
  (forall y, y ∈ T -> y = x \/ exists t, y ∈ A t) -> all_listed (add_blocked k A x tl).
Proof.
  intros HA y Hy. unfold add_blocked. destruct (HA y Hy) as [->|[t Ht]].
  - exists tl. rewrite set_tasks_eq. destruct (is_prioritized tl); [apply prio_insert_in; by left|set_solver].
  - apply (listed_set A tl _ t y Ht). intros ->. destruct (is_prioritized tl); [apply prio_insert_in; by right|set_solver].
Qed.

Lemma listed_add_ready k A x :
  (forall y, y ∈ T -> y = x \/ exists t, y ∈ A t) -> all_listed (add_ready k A x).
Proof.
  intros HA y Hy. unfold add_ready. destruct (HA y Hy) as [->|[t Ht]].
  - eexists. rewrite set_tasks_eq. apply prio_insert_in. by left.
  - apply (listed_set A _ _ t y Ht). intros ->. apply prio_insert_in. by right.
Qed.

Lemma listed_removed A tl l1 x l2 : A tl = l1 ++ x :: l2 -> all_listed A ->
  forall y, y ∈ T -> y = x \/ exists t, y ∈ set_tasks A tl (l1 ++ l2) t.
Proof.
  intros Htl HA y Hy. destruct (HA y Hy) as [t Ht]. destruct (decide (y = x)) as [->|Hne]; [by left|right].
  apply (listed_set A tl _ t y Ht). intros ->. rewrite Htl in Ht. set_solver.
Qed.

(** Every operation returns and leads to a good state. *)
Lemma sched_exec_good k op : sched_good k -> sched_op_valid k op -> exists k', sched_exec k op = Some k' /\ sched_good k'.
Proof.
  intros (A & Hok & HA) Hv. pose proof (ok_inv _ _ _ _ Hok) as Hi. pose proof (rtr_head_running _ _ _ _ Hi) as Hh.
  destruct op as [s|x| | |x p|]; simpl in *; try rewrite Hh in Hv.
  - destruct Hv as [Hb Hid]. rewrite Hh. destruct (A g_readytorun) as [|y l2] eqn:Htl.
    { destruct (si_idle _ _ _ _ Hi) as [l Hl]. rewrite Htl in Hl. by destruct l. }
    assert (Hy : running A = y) by (unfold running; by rewrite Htl). rewrite Hy in *.
    destruct (blocked_list s) as [tl|] eqn:Hs; [|destruct s; done].
    destruct (up_block_task_spec T idle k A s tl [] y l2 Hok Htl Hid Hs) as (k' & -> & Hok' & _).
    exists k'. split; [done|]. eexists. split; [exact Hok'|]. apply listed_merge, listed_add_blocked. by apply listed_removed.
  - destruct Hv as [HT Hb]. destruct (HA x HT) as [tl Hx]. pose proof (blocked_state_list k A x tl Hi Hx Hb) as Hs.
    pose proof (blocked_not_idle k A x Hi Hb) as Hid. apply list_elem_of_split in Hx as (l1 & l2 & Htl).
    destruct (up_unblock_task_spec T idle k A _ tl l1 x l2 Hok Hs Htl Hid) as (k' & -> & Hok' & _).
    exists k'. split; [done|]. eexists. split; [exact Hok'|]. apply listed_add_ready. by apply listed_removed.
  - destruct (in_irq k) eqn:Hirq.
    + exists k. unfold sched_lock. rewrite Hirq, andb_false_r. split; [done|]. by exists A.
    + destruct (sched_lock_spec T idle k A Hok Hirq (Hv eq_refl)) as (k' & -> & Hok' & _). exists k'. split; [done|]. by exists A.
  - destruct (in_irq k) eqn:Hirq.
    + exists k. unfold sched_unlock. rewrite Hirq, andb_false_r. split; [done|]. by exists A.
    + destruct (decide (lock k (running A) <= 1)) as [Hl|Hl].
      * destruct (sched_unlock_release T idle k A Hok Hirq Hl) as (k' & -> & Hok' & _). exists k'. split; [done|].
        eexists. split; [exact Hok'|by apply listed_merge].
      * destruct (sched_unlock_nested T idle k A Hok Hirq) as (k' & -> & Hok' & _); [lia|]. exists k'. split; [done|]. by exists A.
  - destruct Hv as [HT Hid]. destruct (HA x HT) as [tl Hx]. destruct (decide (1 <= p <= 255)) as [Hp|Hp].
    + destruct (sched_setpriority_spec T idle k A x tl p Hok Hx Hid Hp) as (k' & A' & -> & Hok' & _ & Hm & _). exists k'. split; [done|].
      exists A'. split; [done|by eapply same_members_listed].
    + rewrite sched_setpriority_range by done. simpl. eexists. split; [done|]. exists A. split; [|done].
      by apply ok_set_errno.
  - destruct (sched_process_timeslice_spec T idle k A Hok) as (k' & A' & -> & Hok' & Hm & _). exists k'. split; [done|].
    exists A'. split; [done|by eapply same_members_listed].
Qed.

Lemma sched_reachable_good k0 k : sched_good k0 -> sched_reachable k0 k -> sched_good k.
Proof.
  intros Hg H. induction H as [|k op k' _ IH Hv Hrun]; [done|].
  destruct (sched_exec_good k op IH Hv) as (k1 & Hrun1 & Hg1). congruence.
Qed.

(** Nobody who can run has a higher priority than the running task, unless it
    has locked preemption. *)
Lemma good_policy k :
  sched_good k ->
  state k (cpu k) = TSTATE_TASK_RUNNING /\ cpu k = rtr_head k /\
  (lock k (cpu k) = 0 -> forall x, x ∈ T -> is_runnable (state k x) = true -> prio k x <= prio k (cpu k)) /\
  (forall x, x ∈ T -> x <> cpu k -> state k x <> TSTATE_TASK_RUNNING).
Proof.
  intros (A & [Hi Hc Hp] & HA). destruct (running_in _ _ _ _ Hi) as [Hrin _]. rewrite (rtr_head_running _ _ _ _ Hi), Hc.
  split_and!; [|done| |].
  - rewrite (si_state _ _ _ _ Hi g_readytorun _ Hrin). simpl. by rewrite decide_True.
  - intros Hl x HT Hr. destruct (HA x HT) as [tl Hx].
    assert (Hno : A g_pendingtasks = []).
    { destruct (A g_pendingtasks); [done|]. specialize (Hp ltac:(done)). lia. }
    assert (tl = g_readytorun) as ->.
    { rewrite (si_state _ _ _ _ Hi tl x Hx) in Hr. destruct tl; try done. rewrite Hno in Hx. by apply elem_of_nil in Hx. }
    pose proof (si_sorted _ _ _ _ Hi g_readytorun I) as Hso. unfold running.
    destruct (A g_readytorun) as [|y l]; [by apply elem_of_nil in Hx|]. simpl. apply sorted_cons in Hso as [_ Hso].
    apply elem_of_cons in Hx as [->|Hx]; [lia|by apply Hso].
  - intros x HT Hne. destruct (HA x HT) as [tl Hx]. rewrite (si_state _ _ _ _ Hi tl x Hx). destruct tl; simpl; try done.
    by rewrite decide_False.
Qed.
End runs.

(** ** A small system

    The idle task (8), two tasks of priority 100 (16, 24), of which the first
    runs, and a task of priority 150 (32) that waits for a semaphore. *)

Definition demo_tcb (p : Z) : tcb_s :=
  if p =? 8 then mk_tcb 0 0 0 (fun _ => 0) 0 TSTATE_TASK_READYTORUN 0 0 0 0 0
  else if p =? 16 then mk_tcb 1 100 0 (fun _ => 0) 100 TSTATE_TASK_RUNNING 16 0 1 0 0
  else if p =? 24 then mk_tcb 2 100 0 (fun _ => 0) 100 TSTATE_TASK_READYTORUN 16 0 10 0 0
  else if p =? 32 then mk_tcb 3 150 0 (fun _ => 0) 150 TSTATE_WAIT_SEM 0 0 0 4096 0
  else mk_tcb 0 0 0 (fun _ => 0) 0 TSTATE_TASK_INVALID 0 0 0 0 0.

Definition demo_sched_links : links :=
  mk_links (fun p => if p =? 16 then 24 else if p =? 24 then 8 else 0)
    (fun p => if p =? 24 then 16 else if p =? 8 then 24 else 0).

Definition demo_tasks : tasks := fun tl =>
  match tl with g_readytorun => [16; 24; 8] | g_waitingforsemaphore => [32] | _ => [] end.

Definition demo_kernel : kernel :=
  mk_kernel demo_sched_links demo_tcb
    (fun tl => match tl with g_readytorun => mk_queue 16 8 | g_waitingforsemaphore => mk_queue 32 32 | _ => empty_queue end)
    16 false 0 (fun _ => (0, 0)).

Definition demo_T : list Z := [8; 16; 24; 32].

Ltac demo_elem H :=
  repeat (apply elem_of_cons in H as [->|H]); try by apply elem_of_nil in H.

Lemma demo_krep : krep demo_kernel demo_tasks.
Proof.
  constructor.
  - intros []; constructor; simpl; try done; try (apply (bool_decide_unpack _); vm_compute; exact I).
  - intros t1 t2 x H1 H2. destruct t1, t2; try reflexivity; exfalso; simpl in H1, H2;
      first [by apply elem_of_nil in H1 | by apply elem_of_nil in H2 | set_solver].
Qed.

Lemma demo_ok : sched_ok demo_T 8 demo_kernel demo_tasks.
Proof.
  constructor; [|done|done]. constructor.
  - apply demo_krep.
  - vm_compute. lia.
  - intros tl x Hx. destruct tl; simpl in Hx; demo_elem Hx; apply (bool_decide_unpack _); vm_compute; exact I.
  - intros tl x Hx. destruct tl; simpl in Hx; demo_elem Hx; reflexivity.
  - intros tl _. destruct tl; simpl; unfold sorted; repeat constructor; vm_compute; discriminate.
  - by exists [16; 24].
  - done.
  - intros tl x Hx Hne. destruct tl; simpl in Hx; demo_elem Hx; try done; vm_compute; split; discriminate.
  - intros x. unfold lock. simpl. unfold demo_tcb. repeat (destruct (_ =? _); [done|]). done.
Qed.

Lemma demo_good : sched_good demo_T 8 demo_kernel.
Proof.
  exists demo_tasks. split; [apply demo_ok|]. intros x Hx. unfold demo_T in Hx. demo_elem Hx;
    first [by exists g_readytorun; simpl; set_solver | by exists g_waitingforsemaphore; simpl; set_solver].
Qed.

(** ** The lists after a change of priority of the running task *)

Lemma timeslice_tasks k k1 A x n l2 :
  A g_readytorun = x :: n :: l2 -> A g_pendingtasks = [] -> n <> x -> prio k n = prio k x ->
  (forall y, prio k1 y = prio k y) ->
  forall t, reprio_tasks k1 A x (prio k x) [] (n :: l2) t = set_tasks A g_readytorun (prio_insert k x (n :: l2)) t.
Proof.
  intros Htl Hno Hne Hpn Hp1 t. set (k2 := put_tcb x (set_sched_priority (prio k x)) k1).
  assert (Hp2 : forall y, prio k2 y = prio k y).
  { intros y. unfold k2. rewrite prio_put. destruct (decide (y = x)) as [->|]; done. }
  set (A1 := set_tasks A g_readytorun ([] ++ n :: l2)).
  assert (Hr : reprio_ready k1 A x (prio k x) [] (n :: l2) = set_tasks A1 g_readytorun (prio_insert k2 x (A1 g_readytorun))).
  { unfold reprio_ready. fold k2 A1. unfold add_ready, ready_list. rewrite decide_False; [done|]. intros [_ Hlt].
    unfold A1 in Hlt. rewrite running_set in Hlt. simpl in Hlt. rewrite !Hp2 in Hlt. lia. }
  assert (Hrun : running (reprio_ready k1 A x (prio k x) [] (n :: l2)) = n).
  { rewrite Hr, running_set, hd_prio_insert. unfold A1. rewrite set_tasks_eq. simpl. rewrite !Hp2.
    rewrite decide_False; [done|]. by destruct (Z.leb_spec (prio k x) (prio k n)); [|lia]. }
  assert (Hpen : reprio_ready k1 A x (prio k x) [] (n :: l2) g_pendingtasks = []).
  { rewrite Hr. unfold A1. by rewrite !set_tasks_ne. }
  unfold reprio_tasks. rewrite Hrun, running_set. simpl. rewrite (bool_decide_eq_false_2 (n <> n)) by (by intros H; apply H).
  simpl. rewrite merge_all_none by done. rewrite Hr. unfold A1, set_tasks. simpl.
  destruct (decide (t = g_readytorun)) as [->|]; [|done]. apply prio_insert_ext; [apply Hp2|intros; apply Hp2].
Qed.

Lemma reprio_runs_other k A x p n l2 :
  A g_readytorun = x :: n :: l2 -> n <> x -> x ∉ n :: l2 -> x ∉ A g_pendingtasks -> p <= prio k n ->
  running (reprio_tasks k A x p [] (n :: l2)) <> x.
Proof.
  intros Htl Hne Hnin Hpen Hp. set (k2 := put_tcb x (set_sched_priority p) k). set (A1 := set_tasks A g_readytorun ([] ++ n :: l2)).
  assert (Hp2 : prio k2 x = p /\ prio k2 n = prio k n).
  { unfold k2. rewrite !prio_put. rewrite decide_True, decide_False by done. done. }
  assert (Hr : reprio_ready k A x p [] (n :: l2) = set_tasks A1 g_readytorun (prio_insert k2 x (A1 g_readytorun))).
  { unfold reprio_ready. fold k2 A1. unfold add_ready, ready_list. rewrite decide_False; [done|]. intros [_ Hlt].
    unfold A1 in Hlt. rewrite running_set in Hlt. simpl in Hlt. lia. }
  assert (Hrun : running (reprio_ready k A x p [] (n :: l2)) = n).
  { rewrite Hr, running_set, hd_prio_insert. unfold A1. rewrite set_tasks_eq. simpl.
    rewrite decide_False; [done|]. destruct (Z.leb_spec (prio k2 x) (prio k2 n)); [done|lia]. }
  unfold reprio_tasks. destruct (xorb _ _); [|by rewrite Hrun].
  unfold merge_all. rewrite running_set_ne, running_set by done. fold k2.
  destruct (merge_tasks_hd k2 (reprio_ready k A x p [] (n :: l2) g_readytorun) (reprio_ready k A x p [] (n :: l2) g_pendingtasks)) as [E|E].
  - rewrite Hr, set_tasks_eq. unfold prio_insert. by destruct (higher _ _ _).
  - rewrite E. fold (running (reprio_ready k A x p [] (n :: l2))). by rewrite Hrun.
  - intros E'. rewrite E' in E. rewrite Hr in E. unfold A1 in E. by rewrite !set_tasks_ne in E.
Qed.

(** ** Theorems *)

(** C2: in every state reachable by blocking, unblocking, locking, unlocking,
    changes of priority and timer ticks, every such call returns; the
    processor runs the head of the ready-to-run list, which alone is in state
    RUNNING, and unless that task has locked preemption no task that can run
    has a higher priority. *)
Theorem sched_reachable_policy T idle k0 k :
  sched_good T idle k0 -> sched_reachable T idle k0 k ->
  (forall op, sched_op_valid T idle k op -> exists k', sched_exec k op = Some k') /\
  state k (cpu k) = TSTATE_TASK_RUNNING /\ cpu k = rtr_head k /\
  (lock k (cpu k) = 0 -> forall x, x ∈ T -> is_runnable (state k x) = true -> prio k x <= prio k (cpu k)) /\
  (forall x, x ∈ T -> x <> cpu k -> state k x <> TSTATE_TASK_RUNNING).
Proof.
  intros Hg Hr. pose proof (sched_reachable_good T idle k0 k Hg Hr) as Hk. split; [|exact (good_policy T idle k Hk)].
  intros op Hv. destruct (sched_exec_good T idle k op Hk Hv) as (k' & ? & _). by exists k'.
Qed.

(** Unblocking the task of priority 150 makes it the running one. *)
Lemma sched_reachable_policy_witness :
  exists k, sched_exec demo_kernel (OpUnblock 32) = Some k /\ cpu k = 32 /\ cpu k = rtr_head k.
Proof.
  destruct (sched_exec demo_kernel (OpUnblock 32)) as [k|] eqn:E; [|vm_compute in E; discriminate E].
  exists k. split; [reflexivity|]. split.
  - assert (H : option_map cpu (sched_exec demo_kernel (OpUnblock 32)) = Some 32) by (vm_compute; reflexivity).
    rewrite E in H. simpl in H. congruence.
  - apply (sched_reachable_policy demo_T 8 demo_kernel k demo_good).
    apply (reachable_step demo_T 8 demo_kernel demo_kernel (OpUnblock 32) k); [constructor| |exact E].
    split; [apply (bool_decide_unpack _); vm_compute; exact I|reflexivity].
Defined.

(** [sched_addprioritized] inserts a task behind all tasks of at least its
    priority and before all of lower priority, so that a sorted list stays
    sorted and equal priorities stay in order of arrival; it touches no other
    list and reports whether the task is now first. *)
Theorem sched_addprioritized_fifo k A x tl :
  krep k A -> unlisted A x -> x <> 0 -> 1 <= prio k x -> (length (A tl) <= max_tasks)%nat -> sorted k (A tl) ->
  exists k' l1 l2, A tl = l1 ++ l2 /\ sched_addprioritized k x tl = Some (k', bool_decide (l1 = [])) /\
    krep k' (set_tasks A tl (l1 ++ x :: l2)) /\ tcbs k' = tcbs k /\ sorted k' (l1 ++ x :: l2) /\
    (forall y, y ∈ l1 -> prio k x <= prio k y) /\ (forall y, y ∈ l2 -> prio k y < prio k x).
Proof.
  intros Hk Hun Hx Hp Hlen Hso. destruct (sched_addprioritized_spec k A x tl Hk Hun Hx Hp Hlen) as (k' & Hrun & Hk' & Hrl).
  exists k', (higher k (prio k x) (A tl)), (lower k (prio k x) (A tl)). split_and!; try done.
  - by rewrite higher_lower.
  - apply Hrl.
  - apply (sorted_ext k); [intros; unfold prio; by rewrite (rl_tcbs _ _ Hrl)|]. by apply prio_insert_sorted.
  - intros y. apply higher_ge.
  - rewrite <- (higher_lower k (prio k x) (A tl)) in Hso. apply sorted_app in Hso as (_ & Hlo & _). intros y Hy.
    destruct (lower k (prio k x) (A tl)) as [|n l] eqn:E; [by apply elem_of_nil in Hy|]. pose proof (lower_lt _ _ _ _ _ E).
    apply sorted_cons in Hlo as [_ Hlo]. apply elem_of_cons in Hy as [->|Hy]; [done|]. specialize (Hlo y Hy). lia.
Qed.

Lemma sched_addprioritized_fifo_witness :
  exists k' l1 l2, @nil Z = l1 ++ l2 /\ sched_addprioritized (put_tcb 40 (set_sched_priority 7) demo_kernel) 40 g_pendingtasks =
    Some (k', bool_decide (l1 = [])).
Proof.
  destruct (sched_addprioritized_fifo (put_tcb 40 (set_sched_priority 7) demo_kernel) demo_tasks 40 g_pendingtasks)
    as (k' & l1 & l2 & H1 & H2 & _).
  - apply krep_put, demo_krep.
  - intros []; apply (bool_decide_unpack _); vm_compute; exact I.
  - lia.
  - vm_compute. discriminate.
  - simpl. lia.
  - constructor.
  - exists k', l1, l2. split; assumption.
Defined.

(** [up_block_task] moves the task to the list of the state it waits in,
    admits all pending tasks, and gives the processor to the first task that
    is ready. *)
Theorem up_block_task_switches T idle k A s tl l1 x l2 :
  sched_ok T idle k A -> A g_readytorun = l1 ++ x :: l2 -> x <> idle -> blocked_list s = Some tl ->
  exists k' A', up_block_task k x s = Some k' /\ sched_ok T idle k' A' /\ cpu k' = running A' /\ state k' x = s /\
    x ∈ A' tl /\ A' g_pendingtasks = [] /\
    A' g_readytorun = merge_tasks k (l1 ++ l2) (A g_pendingtasks).
Proof.
  intros Hok Htl Hid Hs. destruct (blocked_list_spec s tl Hs) as (_ & _ & _ & Hr & Hp & He).
  destruct (up_block_task_spec T idle k A s tl l1 x l2 Hok Htl Hid Hs) as (k' & Hrun & Hok' & _).
  assert (Hx : x ∈ block_tasks k A x l1 l2 tl tl).
  { unfold block_tasks, add_blocked. rewrite merge_all_other, set_tasks_eq by done.
    destruct (is_prioritized tl); [apply prio_insert_in; by left|set_solver]. }
  exists k', (block_tasks k A x l1 l2 tl). split_and!; try done.
  - apply Hok'.
  - rewrite (si_state _ _ _ _ (ok_inv _ _ _ _ Hok') tl x Hx). apply He.
  - unfold block_tasks, merge_all, add_blocked. rewrite set_tasks_ne, set_tasks_eq by done.
    rewrite !set_tasks_ne by done. rewrite set_tasks_eq, set_tasks_ne by done. done.
Qed.

Lemma up_block_task_switches_witness :
  exists k', up_block_task demo_kernel 16 TSTATE_WAIT_SIG = Some k' /\ state k' 16 = TSTATE_WAIT_SIG.
Proof.
  destruct (up_block_task_switches demo_T 8 demo_kernel demo_tasks TSTATE_WAIT_SIG g_waitingforsignal [] 16 [24; 8] demo_ok)
    as (k' & A' & H1 & _ & _ & H2 & _).
  - reflexivity.
  - lia.
  - reflexivity.
  - exists k'. split; assumption.
Defined.

(** [up_unblock_task] takes the task from its wait list and leaves it
    what it had of its time slice; it becomes pending if it would preempt a task that holds
    the preemption lock, and otherwise enters the ready-to-run list by
    priority and runs at once if it has the highest one. *)
Theorem up_unblock_task_readies T idle k A s tl l1 x l2 :
  sched_ok T idle k A -> blocked_list s = Some tl -> A tl = l1 ++ x :: l2 -> x <> idle ->
  exists k' A', up_unblock_task k x = Some k' /\ sched_ok T idle k' A' /\ A' tl = l1 ++ l2 /\
    timeslice (tcbs k' x) = timeslice (tcbs k x) /\
    if decide (lock k (cpu k) <> 0 /\ prio k (cpu k) < prio k x)
    then A' g_pendingtasks = prio_insert k x (A g_pendingtasks) /\ A' g_readytorun = A g_readytorun /\ cpu k' = cpu k
    else A' g_pendingtasks = A g_pendingtasks /\ A' g_readytorun = prio_insert k x (A g_readytorun) /\
      cpu k' = if decide (prio k (cpu k) < prio k x) then x else cpu k.
Proof.
  intros Hok Hs Htl Hid. destruct (blocked_list_spec s tl Hs) as (_ & _ & _ & Hr & Hp & _).
  destruct (up_unblock_task_spec T idle k A s tl l1 x l2 Hok Hs Htl Hid) as (k' & Hrun & Hok' & _ & Hx).
  pose proof Hok as [Hi Hc _]. exists k', (unblock_tasks k A x tl l1 l2). split; [done|]. split; [done|].
  rewrite (ok_cpu _ _ _ _ Hok'). unfold unblock_tasks, add_ready. set (A1 := set_tasks A tl (l1 ++ l2)).
  assert (HrA : running A1 = running A) by (by apply running_set_ne).
  assert (HA1 : forall t, t <> tl -> A1 t = A t) by (intros; by apply set_tasks_ne).
  assert (Hnr : ready_list k A1 x <> tl) by (unfold ready_list; destruct (decide _); done).
  split; [rewrite set_tasks_ne by done; apply set_tasks_eq|]. split; [by rewrite Hx|].
  rewrite Hc. unfold ready_list. destruct (decide (preempts k A1 x)) as [Hd|Hd].
  - rewrite decide_True by (unfold preempts in Hd; by rewrite HrA in Hd). rewrite set_tasks_eq, set_tasks_ne, running_set_ne, !HA1 by done. done.
  - rewrite decide_False by (unfold preempts in Hd; by rewrite HrA in Hd). rewrite set_tasks_eq, set_tasks_ne, !HA1 by done.
    split_and!; [done|done|]. rewrite running_set, hd_prio_insert. pose proof (higher_running T idle k A (prio k x) Hi) as Hh.
    destruct (decide (higher _ _ _ = [])), (decide (prio k (running A) < prio k x)); tauto.
Qed.

Lemma up_unblock_task_readies_witness :
  exists k' A', up_unblock_task demo_kernel 32 = Some k' /\ sched_ok demo_T 8 k' A'.
Proof.
  destruct (up_unblock_task_readies demo_T 8 demo_kernel demo_tasks TSTATE_WAIT_SEM g_waitingforsemaphore [] 32 [] demo_ok)
    as (k' & A' & H1 & H2 & _).
  - reflexivity.
  - reflexivity.
  - lia.
  - exists k', A'. split; assumption.
Defined.

(** [sched_unlock] releasing the last lock merges every pending task into
    the ready-to-run list by priority, in their order, and switches to the new
    first task; a nested release only counts down. *)
Theorem sched_unlock_admits_pending T idle k A :
  sched_ok T idle k A -> in_irq k = false ->
  exists k' A', sched_unlock k = Some k' /\ sched_ok T idle k' A' /\
    if decide (lock k (cpu k) <= 1)
    then A' g_pendingtasks = [] /\ A' g_readytorun = merge_tasks k (A g_readytorun) (A g_pendingtasks) /\ lock k' (cpu k) = 0
    else A' = A /\ lock k' (cpu k) = lock k (cpu k) - 1.
Proof.
  intros Hok Hirq. pose proof (ok_cpu _ _ _ _ Hok) as Hc. rewrite Hc. destruct (decide (lock k (running A) <= 1)) as [Hl|Hl].
  - destruct (sched_unlock_release T idle k A Hok Hirq Hl) as (k' & Hrun & Hok' & _ & Hl'%relocked_lock).
    exists k', (merge_all k A). split_and!; try done.
  - destruct (sched_unlock_nested T idle k A Hok Hirq) as (k' & Hrun & Hok' & _ & Hl'%relocked_lock); [lia|]. exists k', A. done.
Qed.

Lemma sched_unlock_admits_pending_witness :
  exists k' A', sched_unlock demo_kernel = Some k' /\ sched_ok demo_T 8 k' A'.
Proof.
  destruct (sched_unlock_admits_pending demo_T 8 demo_kernel demo_tasks demo_ok eq_refl) as (k' & A' & H1 & H2 & _).
  exists k', A'. split; assumption.
Defined.

(** when the time slice of an unlocked round-robin task expires and the
    next task has the same priority, the task goes behind all tasks of its
    priority with a new time slice and the next one runs. *)
Theorem sched_timeslice_rotates T idle k A x n l2 :
  sched_ok T idle k A -> A g_readytorun = x :: n :: l2 -> x <> idle -> lock k x = 0 ->
  Z.land (flags (tcbs k x)) TCB_FLAG_ROUND_ROBIN <> 0 -> timeslice (tcbs k x) <= 1 -> prio k n = prio k x ->
  exists k' A', sched_process_timeslice k = Some k' /\ sched_ok T idle k' A' /\ cpu k' = n /\
    A' g_readytorun = prio_insert k x (n :: l2) /\ timeslice (tcbs k' x) = MSEC2TICK CONFIG_RR_INTERVAL.
Proof.
  intros Hok Htl Hid Hl Hrr Hts Hpn. pose proof Hok as [Hi Hc Hpe].
  pose proof (kr_list _ _ (si_rep _ _ _ _ Hi) g_readytorun) as Hr. rewrite Htl in Hr.
  destruct (dq_next_of _ _ [] _ _ Hr) as (Hx0 & Hn & _). pose proof (dq_null _ _ _ Hr) as Hnull. simpl in Hn.
  assert (HrA : running A = x) by (unfold running; by rewrite Htl).
  pose proof (listed_prio T idle k A g_readytorun x Hi ltac:(rewrite Htl; set_solver) Hid) as [_ Hp].
  unfold sched_process_timeslice. rewrite (rtr_head_running _ _ _ _ Hi), HrA. krun.
  destruct (Z.eqb_spec (Z.land (flags (tcbs k x)) TCB_FLAG_ROUND_ROBIN) 0); [done|]. simpl.
  destruct (Z.leb_spec (timeslice (tcbs k x)) 1); [|lia]. unfold lock in Hl. rewrite Hl. simpl. krun.
  set (k1 := put_tcb x (set_timeslice (MSEC2TICK CONFIG_RR_INTERVAL)) k). rewrite Hn.
  destruct (Z.eqb_spec n 0); [set_solver|]. simpl.
  assert (Hne : n <> x) by (pose proof (dq_nodup _ _ _ Hr) as [? _]%NoDup_cons; set_solver).
  unfold prio in Hpn, Hp. rewrite (upd_ne (tcbs k) x _ n Hne).
  destruct (Z.leb_spec (sched_priority (tcbs k x)) (sched_priority (tcbs k n))); [|lia].
  assert (Hok1 : sched_ok T idle k1 A) by (by apply ok_put).
  destruct (up_reprioritize_rtr_spec T idle k1 A x (sched_priority (tcbs k x)) [] (n :: l2) Hok1 Htl Hid Hp)
    as (k' & Hrun & Hok' & Hre).
  exists k', (reprio_tasks k1 A x (sched_priority (tcbs k x)) [] (n :: l2)). split; [exact Hrun|]. split; [done|].
  assert (Hno : A g_pendingtasks = []).
  { destruct (A g_pendingtasks); [done|]. specialize (Hpe ltac:(done)). rewrite HrA in Hpe. unfold lock in Hpe. lia. }
  assert (Hrl : forall t, reprio_tasks k1 A x (sched_priority (tcbs k x)) [] (n :: l2) t =
    set_tasks A g_readytorun (prio_insert k x (n :: l2)) t).
  { apply (timeslice_tasks k k1); try done. intros y. unfold prio, k1.
    destruct (decide (y = x)) as [->|]; [by rewrite put_tcb_eq|by rewrite put_tcb_ne]. }
  rewrite (ok_cpu _ _ _ _ Hok'). unfold running. rewrite Hrl, set_tasks_eq. split; [|split; [done|]].
  - rewrite hd_prio_insert, decide_False; [done|]. simpl. unfold prio.
    by destruct (Z.leb_spec (sched_priority (tcbs k x)) (sched_priority (tcbs k n))); [|lia].
  - destruct Hre as [_ Hre]. rewrite Hre. simpl. by rewrite upd_eq.
Qed.

Lemma sched_timeslice_rotates_witness :
  exists k' A', sched_process_timeslice demo_kernel = Some k' /\ sched_ok demo_T 8 k' A' /\ cpu k' = 24 /\
    A' g_readytorun = [24; 16; 8].
Proof.
  destruct (sched_timeslice_rotates demo_T 8 demo_kernel demo_tasks 16 24 [8] demo_ok) as (k' & A' & H1 & H2 & H3 & H4 & _).
  - reflexivity.
  - lia.
  - reflexivity.
  - vm_compute. discriminate.
  - simpl. lia.
  - reflexivity.
  - exists k', A'. split; [exact H1|]. split; [exact H2|]. split; [exact H3|]. rewrite H4. reflexivity.
Defined.

(** C39: [sched_setpriority] of a valid priority gives the task that priority
    and nothing else to any task, keeps every task where it waits or among
    those that can run, and the scheduling policy; any other priority is
    refused with EINVAL and moves no task. *)
Theorem sched_setpriority_correct T idle k A x tl p :
  sched_ok T idle k A -> x ∈ A tl -> x <> idle ->
  if decide (1 <= p <= 255)
  then exists k' A', sched_setpriority k x p = Some (k', OK) /\ sched_ok T idle k' A' /\ same_members A A' /\
    prio k' x = p /\ (forall y, y <> x -> prio k' y = prio k y) /\ (forall y, lock k' y = lock k y)
  else exists k', sched_setpriority k x p = Some (k', ERROR) /\ sched_ok T idle k' A /\
    (in_irq k = false -> pterrno (tcbs k' (cpu k)) = EINVAL) /\ forall y, prio k' y = prio k y.
Proof.
  intros Hok Hx Hid. destruct (decide (1 <= p <= 255)) as [Hp|Hp].
  - destruct (sched_setpriority_spec T idle k A x tl p Hok Hx Hid Hp) as (k' & A' & Hrun & Hok' & Hre & Hm & _).
    exists k', A'. split_and!; try done.
    + rewrite (repriod_prio k x p k' x Hre), prio_put. by rewrite decide_True.
    + intros y Hy. rewrite (repriod_prio k x p k' y Hre), prio_put. by rewrite decide_False.
    + intros y. by apply (repriod_lock k x p).
  - rewrite sched_setpriority_range by done. exists (set_errno k EINVAL). pose proof Hok as [Hi Hc _].
    destruct (running_in _ _ _ _ Hi) as [Hrin Hr0]. pose proof (si_state _ _ _ _ Hi _ _ Hrin) as Hst. simpl in Hst.
    rewrite decide_True in Hst by done. unfold state in Hst. split_and!; [done|by apply ok_set_errno| |].
    + intros Hirq. unfold set_errno, get_errno_ptr. rewrite (rtr_head_running _ _ _ _ Hi), Hirq, Hc.
      destruct (Z.eqb_spec (running A) 0); [done|]. rewrite bool_decide_eq_true_2 by done. simpl. by rewrite upd_eq.
    + intros y. unfold set_errno, get_errno_ptr. destruct (_ && _); [|done]. unfold prio. simpl. unfold upd.
      by destruct (Z.eqb_spec y (rtr_head k)) as [->|].
Qed.

Lemma sched_setpriority_correct_witness :
  exists k' A', sched_setpriority demo_kernel 24 120 = Some (k', OK) /\ sched_ok demo_T 8 k' A' /\ prio k' 24 = 120.
Proof.
  pose proof (sched_setpriority_correct demo_T 8 demo_kernel demo_tasks 24 g_readytorun 120 demo_ok) as H.
  rewrite decide_True in H by lia. destruct H as (k' & A' & H1 & H2 & _ & H3 & _).
  - simpl. apply (bool_decide_unpack _). vm_compute. exact I.
  - lia.
  - exists k', A'. split; [exact H1|]. split; [exact H2|exact H3].
Defined.

(** a task that lowers its own priority to that of the next ready task or
    below loses the processor even while it holds the preemption lock. *)
Theorem sched_setpriority_drops_lock T idle k A x n l2 p :
  sched_ok T idle k A -> A g_readytorun = x :: n :: l2 -> x <> idle -> 0 < lock k x -> 1 <= p <= prio k n -> p <= 255 ->
  exists k', sched_setpriority k x p = Some (k', OK) /\ cpu k' <> x /\ 0 < lock k' x.
Proof.
  intros Hok Htl Hid Hl Hp Hp2. pose proof Hok as [Hi Hc Hpe].
  pose proof (kr_list _ _ (si_rep _ _ _ _ Hi) g_readytorun) as Hr. rewrite Htl in Hr.
  destruct (dq_next_of _ _ [] _ _ Hr) as (Hx0 & Hn & _). pose proof (dq_null _ _ _ Hr) as Hnull. simpl in Hn.
  pose proof (dq_nodup _ _ _ Hr) as [Hnin _]%NoDup_cons. assert (Hnx : n <> x) by set_solver. assert (Hn0 : n <> 0) by set_solver.
  assert (HrA : running A = x) by (unfold running; by rewrite Htl).
  destruct (up_reprioritize_rtr_spec T idle k A x p [] (n :: l2) Hok Htl Hid ltac:(lia)) as (k' & Hrun & Hok' & Hre).
  exists k'. split; [|split].
  - unfold sched_setpriority, SCHED_PRIORITY_MIN, SCHED_PRIORITY_MAX. destruct (Z.ltb_spec p 1), (Z.ltb_spec 255 p); [lia..|].
    rewrite (get_tcb_ok k x) by done. cbn [orb mbind option_bind].
    pose proof (si_state _ _ _ _ Hi g_readytorun x ltac:(rewrite Htl; set_solver)) as Hst. simpl in Hst.
    rewrite decide_True in Hst by done. unfold state in Hst. rewrite Hst, get_flink_ok, Hn by done. cbn [mbind option_bind].
    rewrite (get_tcb_ok k n) by done. cbn [mbind option_bind]. unfold prio in Hp.
    destruct (Z.leb_spec p (sched_priority (tcbs k n))); [|lia]. rewrite u8_small by lia. by rewrite Hrun.
  - rewrite (ok_cpu _ _ _ _ Hok'). apply (reprio_runs_other k A x p n l2); try done; [|lia].
    intros Hin. assert (g_pendingtasks = g_readytorun) by (apply (kr_once _ _ (si_rep _ _ _ _ Hi) _ _ x Hin); rewrite Htl; set_solver). done.
  - by rewrite (repriod_lock k x p).
Qed.

Lemma sched_setpriority_drops_lock_witness :
  exists k', sched_setpriority (put_tcb 16 (set_lockcount 1) demo_kernel) 16 50 = Some (k', OK) /\ cpu k' <> 16 /\ 0 < lock k' 16.
Proof.
  apply (sched_setpriority_drops_lock demo_T 8 (put_tcb 16 (set_lockcount 1) demo_kernel) demo_tasks 16 24 [8] 50).
  - constructor; [|reflexivity|intros H; contradiction H; reflexivity].
    apply inv_put_listed; [apply demo_ok|reflexivity|reflexivity|]. intros _. simpl. lia.
  - reflexivity.
  - lia.
  - vm_compute. reflexivity.
  - split; vm_compute; discriminate.
  - lia.
Defined.
