(* ===== verification/Sem.v ===== *)
(** * Counting semaphores with priority inheritance (os/kernel/semaphore)

    The semaphore operations over the scheduler of [Sched], with the holder
    containers kept in linked lists.  Configuration:
    CONFIG_PRIORITY_INHERITANCE, CONFIG_SEM_PREALLOCHOLDERS = 16,
    CONFIG_SEM_NNESTPRIO = 16.

    A task-level call that gives up the processor is split there: the first
    part returns [Switched], the second runs when the task is resumed.  In an
    interrupt handler the switch takes effect on return from the interrupt and
    the call runs to its end.  [None] is a failed assertion, a null
    dereference or a write past the end of an array. *)

From stdpp Require Import base tactics numbers list.
From S2P Require Import Prelude Queue Sched.

(** ** Data *)

(** [struct semholder_s] *)
Record semholder_s := mk_semholder { h_flink : Z; htcb : Z; counts : Z }.

(** [struct sem_s] *)
Record sem_s := mk_sem { semcount : Z; hhead : Z }.

(** The scheduler, the semaphores and the holder containers by address, and
    the list of free containers. *)
Record sem_state := mk_state {
  kn : kernel;
  sems : Z -> sem_s;
  holders : Z -> semholder_s;
  g_freeholders : Z
}.

Definition set_kn (k : kernel) (s : sem_state) : sem_state := mk_state k (sems s) (holders s) (g_freeholders s).
Definition set_holder (p : Z) (h : semholder_s) (s : sem_state) : sem_state :=
  mk_state (kn s) (sems s) (upd (holders s) p h) (g_freeholders s).
Definition set_free (p : Z) (s : sem_state) : sem_state := mk_state (kn s) (sems s) (holders s) p.
Definition set_sem (sem : Z) (v : sem_s) (s : sem_state) : sem_state :=
  mk_state (kn s) (upd (sems s) sem v) (holders s) (g_freeholders s).

Definition set_semcount (sem v : Z) (s : sem_state) : sem_state := set_sem sem (mk_sem v (hhead (sems s sem))) s.
Definition set_hhead (sem p : Z) (s : sem_state) : sem_state := set_sem sem (mk_sem (semcount (sems s sem)) p) s.
Definition set_h_flink (p v : Z) (s : sem_state) : sem_state :=
  set_holder p (mk_semholder v (htcb (holders s p)) (counts (holders s p))) s.
Definition set_htcb (p v : Z) (s : sem_state) : sem_state :=
  set_holder p (mk_semholder (h_flink (holders s p)) v (counts (holders s p))) s.
Definition set_counts (p v : Z) (s : sem_state) : sem_state :=
  set_holder p (mk_semholder (h_flink (holders s p)) (htcb (holders s p)) v) s.

Definition count_of (s : sem_state) (sem : Z) : Z := semcount (sems s sem).

(** [tcb->field = v] in the scheduler's state *)
Definition upd_task (s : sem_state) (x : Z) (f : tcb_s -> tcb_s) : option sem_state :=
  k ← upd_tcb (kn s) x f; Some (set_kn k s).

Definition SEM_VALUE_MAX : Z := 32767.
Definition CONFIG_SEM_PREALLOCHOLDERS : Z := 16.
Definition CONFIG_SEM_NNESTPRIO : Z := 16.
Definition EINTR : Z := 4.
Definition EAGAIN : Z := 11.
Definition ETIMEDOUT : Z := 110.

(** A semaphore has at most [CONFIG_SEM_PREALLOCHOLDERS] containers. *)
Definition holder_fuel : nat := S (Z.to_nat CONFIG_SEM_PREALLOCHOLDERS).

(** ** Tasks by pid *)

Definition PIDHASH (pid : Z) : Z := Z.land pid (CONFIG_MAX_TASKS - 1).

Definition sched_verifytcb (k : kernel) (tcb : Z) : option bool :=
  t ← get_tcb k tcb; Some (tcb =? (g_pidhash k (PIDHASH (pid t))).2).

(** ** Holder containers *)

Definition sem_allocholder (s : sem_state) (sem : Z) : sem_state * Z :=
  let pholder := g_freeholders s in
  if pholder =? 0 then (s, 0)
  else
    let s := set_free (h_flink (holders s pholder)) s in
    let s := set_h_flink pholder (hhead (sems s sem)) s in
    let s := set_hhead sem pholder s in
    (set_counts pholder 0 s, pholder).

(** [for (pholder = sem->hhead; pholder; pholder = pholder->flink)] *)
Fixpoint find_from (fuel : nat) (s : sem_state) (x pholder : Z) : option Z :=
  match fuel with
  | O => None
  | S fuel =>
      if pholder =? 0 then Some 0
      else if htcb (holders s pholder) =? x then Some pholder
      else find_from fuel s x (h_flink (holders s pholder))
  end.

Definition sem_findholder (s : sem_state) (sem x : Z) : option Z := find_from holder_fuel s x (hhead (sems s sem)).

Definition sem_findorallocateholder (s : sem_state) (sem x : Z) : option (sem_state * Z) :=
  pholder ← sem_findholder s sem x;
  Some (if pholder =? 0 then sem_allocholder s sem else (s, pholder)).

(** [for (prev = NULL, curr = sem->hhead; curr && curr != pholder; prev = curr, curr = curr->flink)] *)
Fixpoint find_prev (fuel : nat) (s : sem_state) (pholder prev curr : Z) : option (Z * Z) :=
  match fuel with
  | O => None
  | S fuel =>
      if (curr =? 0) || (curr =? pholder) then Some (prev, curr)
      else find_prev fuel s pholder curr (h_flink (holders s curr))
  end.

Definition sem_freeholder (s : sem_state) (sem pholder : Z) : option sem_state :=
  let s := set_htcb pholder 0 s in
  let s := set_counts pholder 0 s in
  '(prev, curr) ← find_prev holder_fuel s pholder 0 (hhead (sems s sem));
  if curr =? 0 then Some s
  else
    let s :=
      if prev =? 0 then set_hhead sem (h_flink (holders s pholder)) s
      else set_h_flink prev (h_flink (holders s pholder)) s in
    let s := set_h_flink pholder (g_freeholders s) s in
    Some (set_free pholder s).

(** The loop of [sem_foreachholder]; [handler] takes the container. *)
Fixpoint foreach_from (fuel : nat) (handler : sem_state -> Z -> option (sem_state * Z)) (s : sem_state) (pholder ret : Z)
  : option (sem_state * Z) :=
  match fuel with
  | O => None
  | S fuel =>
      if (pholder =? 0) || negb (ret =? 0) then Some (s, ret)
      else
        let next := h_flink (holders s pholder) in
        if htcb (holders s pholder) =? 0 then foreach_from fuel handler s next ret
        else
          '(s, ret) ← handler s pholder;
          foreach_from fuel handler s next ret
  end.

Definition sem_foreachholder (s : sem_state) (sem : Z) (handler : sem_state -> Z -> option (sem_state * Z))
  : option (sem_state * Z) :=
  foreach_from holder_fuel handler s (hhead (sems s sem)) 0.

Definition sem_recoverholders (sem : Z) (s : sem_state) (pholder : Z) : option (sem_state * Z) :=
  s ← sem_freeholder s sem pholder; Some (s, 0).

Definition sem_addholder_tcb (s : sem_state) (x sem : Z) : option sem_state :=
  '(s, pholder) ← sem_findorallocateholder s sem x;
  Some (if pholder =? 0 then s else
    let s := set_htcb pholder x s in set_counts pholder (i16 (counts (holders s pholder) + 1)) s).

Definition sem_addholder (s : sem_state) (sem : Z) : option sem_state := sem_addholder_tcb s (rtr_head (kn s)) sem.

Definition sem_releaseholder (s : sem_state) (sem : Z) : option sem_state :=
  pholder ← sem_findholder s sem (rtr_head (kn s));
  Some (if negb (pholder =? 0) && (0 <? counts (holders s pholder))
        then set_counts pholder (i16 (counts (holders s pholder) - 1)) s else s).

Definition sem_destroyholder (s : sem_state) (sem : Z) : option sem_state :=
  if hhead (sems s sem) =? 0 then Some s
  else '(s, _) ← sem_foreachholder s sem (sem_recoverholders sem); Some s.

(** The loop of [sem_initholders] over [g_holderalloc], an array of
    containers of 12 bytes at [base]. *)
Fixpoint link_holders (n : nat) (p : Z) (s : sem_state) : sem_state :=
  match n with
  | O => s
  | S n => link_holders n (p + 12) (set_h_flink p (p + 12) s)
  end.

Definition sem_initholders (base : Z) (s : sem_state) : sem_state :=
  let s := set_free base s in
  let s := link_holders (Z.to_nat (CONFIG_SEM_PREALLOCHOLDERS - 1)) base s in
  set_h_flink (base + 12 * (CONFIG_SEM_PREALLOCHOLDERS - 1)) 0 s.

Definition sem_initialize (base : Z) (s : sem_state) : sem_state := sem_initholders base s.

(** ** Priority inheritance *)

(** [tcb->pend_reprios[i] = v] *)
Definition set_pend (i v : Z) (t : tcb_s) : tcb_s := set_pend_reprios (upd (pend_reprios t) i v) t.

(** [tcb->pend_reprios[tcb->npend_reprio] = v; tcb->npend_reprio++] *)
Definition push_pend (v : Z) (t : tcb_s) : option tcb_s :=
  _ ← assert (npend_reprio t <? CONFIG_SEM_NNESTPRIO);
  Some (set_npend_reprio (npend_reprio t + 1) (set_pend (npend_reprio t) v t)).

Definition sem_boostholderprio (sem rtcb : Z) (s : sem_state) (pholder : Z) : option (sem_state * Z) :=
  let h := htcb (holders s pholder) in
  live ← sched_verifytcb (kn s) h;
  if negb live then s ← sem_freeholder s sem pholder; Some (s, 0)
  else
    t ← get_tcb (kn s) h;
    r ← get_tcb (kn s) rtcb;
    if base_priority t <? sched_priority r then
      if sched_priority t <? sched_priority r then
        s ← (if base_priority t <? sched_priority t then
               if npend_reprio t <? CONFIG_SEM_NNESTPRIO then
                 t' ← push_pend (sched_priority t) t; upd_task s h (fun _ => t')
               else Some s
             else Some s);
        '(k, _) ← sched_setpriority (kn s) h (sched_priority r);
        Some (set_kn k s, 0)
      else
        t' ← push_pend (sched_priority r) t;
        s ← upd_task s h (fun _ => t');
        Some (s, 0)
    else Some (s, 0).

Definition sem_boostpriority (s : sem_state) (sem : Z) : option sem_state :=
  '(s, _) ← sem_foreachholder s sem (sem_boostholderprio sem (rtr_head (kn s))); Some s.

(** [for (i = 1, j = 0; i < npend_reprio; i++) if (pend_reprios[i] > pend_reprios[j]) j = i;]
    with [n] rounds left *)
Fixpoint highest_pend (n : nat) (pr : Z -> Z) (i j : Z) : Z :=
  match n with
  | O => j
  | S n => highest_pend n pr (i + 1) (if pr j <? pr i then i else j)
  end.

(** [for (i = 0; i < npend_reprio; i++) if (pend_reprios[i] == p) ... break;]
    with [n] rounds left *)
Fixpoint find_pend (n : nat) (pr : Z -> Z) (i p : Z) : option Z :=
  match n with
  | O => None
  | S n => if pr i =? p then Some i else find_pend n pr (i + 1) p
  end.

(** Removal of entry [j]: the last entry takes its place. *)
Definition remove_pend (j : Z) (t : tcb_s) : tcb_s :=
  let i := npend_reprio t - 1 in
  set_npend_reprio i (if 0 <? i then set_pend j (pend_reprios t i) t else t).

(** What a call of [sem_restoreholderprio] has left to do when
    [sched_setpriority] returns: the end of [sched_reprioritize], or nothing. *)
Inductive restore_rest :=
  | RestNone
  | RestReprioritize (x priority : Z).

(** [sem_restoreholderprio] up to the return of [sched_setpriority]. *)
Definition sem_restoreholderprio_begin (sem stcb : Z) (s : sem_state) (pholder : Z) : option (sem_state * restore_rest) :=
  let h := htcb (holders s pholder) in
  live ← sched_verifytcb (kn s) h;
  if negb live then s ← sem_freeholder s sem pholder; Some (s, RestNone)
  else
    t ← get_tcb (kn s) h;
    if negb (sched_priority t =? base_priority t) then
      if npend_reprio t <? 1 then
        _ ← assert (npend_reprio t =? 0);
        '(k, ret) ← sched_setpriority (kn s) h (base_priority t);
        Some (set_kn k s, if ret =? 0 then RestReprioritize h (base_priority t) else RestNone)
      else
        st ← get_tcb (kn s) stcb;
        if sched_priority t <=? sched_priority st then
          let j := highest_pend (Z.to_nat (npend_reprio t - 1)) (pend_reprios t) 1 0 in
          let rpriority := pend_reprios t j in
          s ← upd_task s h (remove_pend j);
          '(k, _) ← sched_setpriority (kn s) h rpriority;
          Some (set_kn k s, RestNone)
        else
          match find_pend (Z.to_nat (npend_reprio t)) (pend_reprios t) 0 (sched_priority st) with
          | Some i => s ← upd_task s h (remove_pend i); Some (s, RestNone)
          | None => Some (s, RestNone)
          end
    else Some (s, RestNone).

(** The end of [sched_reprioritize]. *)
Definition sem_restoreholderprio_end (s : sem_state) (r : restore_rest) : option sem_state :=
  match r with
  | RestNone => Some s
  | RestReprioritize x priority =>
      s ← upd_task s x (set_base_priority (u8 priority));
      upd_task s x (set_npend_reprio 0)
  end.

Definition sem_restoreholderprio (sem stcb : Z) (s : sem_state) (pholder : Z) : option (sem_state * Z) :=
  '(s, r) ← sem_restoreholderprio_begin sem stcb s pholder;
  s ← sem_restoreholderprio_end s r;
  Some (s, 0).

Definition sem_restoreholderprioA (sem stcb : Z) (s : sem_state) (pholder : Z) : option (sem_state * Z) :=
  if htcb (holders s pholder) =? rtr_head (kn s) then Some (s, 0)
  else sem_restoreholderprio sem stcb s pholder.

(** The pass with [sem_restoreholderprioB]: the container of the running task
    is the only one it does anything for, and ends it.  Returns what that call
    has left to do. *)
Fixpoint restoreB_from (fuel : nat) (sem stcb : Z) (s : sem_state) (pholder : Z) : option (sem_state * restore_rest) :=
  match fuel with
  | O => None
  | S fuel =>
      if pholder =? 0 then Some (s, RestNone)
      else
        let next := h_flink (holders s pholder) in
        if (htcb (holders s pholder) =? 0) || negb (htcb (holders s pholder) =? rtr_head (kn s))
        then restoreB_from fuel sem stcb s next
        else sem_restoreholderprio_begin sem stcb s pholder
  end.

Definition sem_restorebaseprio_irq (s : sem_state) (stcb sem : Z) : option sem_state :=
  if stcb =? 0 then Some s
  else '(s, _) ← sem_foreachholder s sem (sem_restoreholderprio sem stcb); Some s.

(** [sem_restorebaseprio_task] up to the return of [sched_setpriority] in the second pass. *)
Definition sem_restorebaseprio_task (s : sem_state) (stcb sem : Z) : option (sem_state * restore_rest) :=
  if stcb =? 0 then Some (s, RestNone)
  else
    '(s, _) ← sem_foreachholder s sem (sem_restoreholderprioA sem stcb);
    restoreB_from holder_fuel sem stcb s (hhead (sems s sem)).

(** The rest of it, on behalf of [rtcb]. *)
Definition sem_restorebaseprio_end (s : sem_state) (rtcb sem : Z) (r : restore_rest) : option sem_state :=
  s ← sem_restoreholderprio_end s r;
  pholder ← sem_findholder s sem rtcb;
  if negb (pholder =? 0) && (counts (holders s pholder) <=? 0) then sem_freeholder s sem pholder else Some s.

Definition sem_canceled (s : sem_state) (stcb sem : Z) : option sem_state :=
  _ ← assert (count_of s sem <=? 0);
  '(s, _) ← sem_foreachholder s sem (sem_restoreholderprio sem stcb);
  Some s.

(** ** Semaphore operations *)

(** A call returned, or gave up the processor. *)
Inductive outcome :=
  | Returned (ret : Z)
  | Switched.

Definition with_errno (s : sem_state) (e : Z) : sem_state := set_kn (set_errno (kn s) e) s.

Definition sem_init (s : sem_state) (sem pshared value : Z) : sem_state * Z :=
  if negb (sem =? 0) && (u32 value <=? SEM_VALUE_MAX) then (set_sem sem (mk_sem (i16 value) 0) s, OK)
  else (with_errno s EINVAL, ERROR).

(** The value stored at [sval], if any. *)
Definition sem_getvalue (s : sem_state) (sem sval : Z) : sem_state * option Z * Z :=
  if negb (sem =? 0) && negb (sval =? 0) then (s, Some (count_of s sem), OK) else (with_errno s EINVAL, None, ERROR).

Definition sem_destroy (s : sem_state) (sem : Z) : option (sem_state * Z) :=
  if sem =? 0 then Some (with_errno s EINVAL, ERROR)
  else
    let s := if 0 <=? count_of s sem then set_semcount sem 1 s else s in
    s ← sem_destroyholder s sem;
    Some (s, OK).

(** The semaphore is available: the running task takes it. *)
Definition sem_take (s : sem_state) (sem : Z) : option sem_state :=
  let rtcb := rtr_head (kn s) in
  let s := set_semcount sem (i16 (count_of s sem - 1)) s in
  s ← sem_addholder s sem;
  upd_task s rtcb (set_waitsem 0).

Definition sem_wait (s : sem_state) (sem : Z) : option (sem_state * outcome) :=
  let rtcb := rtr_head (kn s) in
  _ ← assert (negb (in_irq (kn s)));
  let s := with_errno s EINVAL in
  if sem =? 0 then Some (s, Returned ERROR)
  else if 0 <? count_of s sem then s ← sem_take s sem; Some (s, Returned OK)
  else
    r ← get_tcb (kn s) rtcb;
    _ ← assert (waitsem r =? 0);
    let s := set_semcount sem (i16 (count_of s sem - 1)) s in
    s ← upd_task s rtcb (set_waitsem sem);
    k ← sched_lock (kn s);
    s ← sem_boostpriority (set_kn k s) sem;
    let s := with_errno s 0 in
    k ← up_block_task (kn s) rtcb TSTATE_WAIT_SEM;
    Some (set_kn k s, Switched).

(** [sem_wait] after [up_block_task], in the task that waited. *)
Definition sem_wait_resume (s : sem_state) : option (sem_state * Z) :=
  let e := get_errno (kn s) in
  k ← sched_unlock (kn s);
  Some (set_kn k s, if negb (e =? EINTR) && negb (e =? ETIMEDOUT) then OK else ERROR).

Definition sem_wait_for_isr (s : sem_state) (sem : Z) : option (sem_state * outcome) :=
  let rtcb := rtr_head (kn s) in
  _ ← assert (negb (in_irq (kn s)));
  let s := with_errno s EINVAL in
  if sem =? 0 then Some (s, Returned ERROR)
  else if 0 <? count_of s sem then
    let s := set_semcount sem (i16 (count_of s sem - 1)) s in
    s ← upd_task s rtcb (set_waitsem 0);
    Some (s, Returned OK)
  else
    r ← get_tcb (kn s) rtcb;
    _ ← assert (waitsem r =? 0);
    let s := set_semcount sem (i16 (count_of s sem - 1)) s in
    s ← upd_task s rtcb (set_waitsem sem);
    let s := with_errno s 0 in
    k ← up_block_task (kn s) rtcb TSTATE_WAIT_SEM;
    Some (set_kn k s, Switched).

Definition sem_wait_for_isr_resume (s : sem_state) : Z :=
  let e := get_errno (kn s) in if negb (e =? EINTR) && negb (e =? ETIMEDOUT) then OK else ERROR.

Definition sem_trywait (s : sem_state) (sem : Z) : option (sem_state * Z) :=
  _ ← assert (negb (in_irq (kn s)));
  let s := with_errno s EINVAL in
  if sem =? 0 then Some (s, ERROR)
  else
    let s := with_errno s EAGAIN in
    if 0 <? count_of s sem then s ← sem_take s sem; Some (s, OK) else Some (s, ERROR).

(** [for (stcb = g_waitingforsemaphore.head; stcb && stcb->waitsem != sem; stcb = stcb->flink)] *)
Fixpoint find_waiter (fuel : nat) (k : kernel) (sem stcb : Z) : option Z :=
  match fuel with
  | O => None
  | S fuel =>
      if stcb =? 0 then Some 0
      else if waitsem (tcbs k stcb) =? sem then Some stcb
      else find_waiter fuel k sem (flink (lk k) stcb)
  end.

(** The count goes up; the first waiter, if any, gets it.  Returns the waiter. *)
Definition sem_give (add : bool) (s : sem_state) (sem : Z) : option (sem_state * Z) :=
  if count_of s sem <=? 0 then
    stcb ← find_waiter list_fuel (kn s) sem (head (lists (kn s) g_waitingforsemaphore));
    if stcb =? 0 then Some (s, 0)
    else
      s ← (if (add : bool) then sem_addholder_tcb s stcb sem else Some s);
      s ← upd_task s stcb (set_waitsem 0);
      k ← up_unblock_task (kn s) stcb;
      Some (set_kn k s, stcb)
  else Some (s, 0).

(** [sem_post] up to [sem_restorebaseprio]. *)
Definition sem_post_begin (s : sem_state) (sem : Z) : option (sem_state * Z) :=
  _ ← assert (count_of s sem <? SEM_VALUE_MAX);
  s ← sem_releaseholder s sem;
  let s := set_semcount sem (i16 (count_of s sem + 1)) s in
  k ← sched_lock (kn s);
  '(s, stcb) ← sem_give true (set_kn k s) sem;
  _ ← assert (if stcb =? 0 then 0 <? count_of s sem else count_of s sem <=? 0);
  Some (s, stcb).

(** [sem_post] in the posting task once it runs again at its restored priority. *)
Definition sem_post_resume (s : sem_state) (rtcb sem : Z) (r : restore_rest) : option (sem_state * Z) :=
  s ← sem_restorebaseprio_end s rtcb sem r;
  k ← sched_unlock (kn s);
  Some (set_kn k s, OK).

(** At task level; with [Switched] comes what is left of the priority restoration. *)
Definition sem_post (s : sem_state) (sem : Z) : option (sem_state * outcome * restore_rest) :=
  if sem =? 0 then Some (s, Returned ERROR, RestNone)
  else
    let rtcb := rtr_head (kn s) in
    '(s, stcb) ← sem_post_begin s sem;
    '(s, r) ← sem_restorebaseprio_task s stcb sem;
    if cpu (kn s) =? rtcb then
      '(s, ret) ← sem_post_resume s rtcb sem r; Some (s, Returned ret, RestNone)
    else Some (s, Switched, r).

(** In an interrupt handler. *)
Definition sem_post_irq (s : sem_state) (sem : Z) : option (sem_state * Z) :=
  if sem =? 0 then Some (s, ERROR)
  else
    '(s, stcb) ← sem_post_begin s sem;
    s ← sem_restorebaseprio_irq s stcb sem;
    k ← sched_unlock (kn s);
    Some (set_kn k s, OK).

Definition sem_post_from_isr (s : sem_state) (sem : Z) : option (sem_state * Z) :=
  if sem =? 0 then Some (s, ERROR)
  else
    _ ← assert (count_of s sem <? SEM_VALUE_MAX);
    let s := set_semcount sem (i16 (count_of s sem + 1)) s in
    '(s, _) ← sem_give false s sem;
    Some (s, OK).

(** A wait ended by a signal or a timeout, in the interrupt handler. *)
Definition sem_waitirq (s : sem_state) (wtcb errcode : Z) : option sem_state :=
  w ← get_tcb (kn s) wtcb;
  if bool_decide (task_state w = TSTATE_WAIT_SEM) then
    let sem := waitsem w in
    _ ← assert (negb (sem =? 0) && (count_of s sem <? 0));
    s ← sem_canceled s wtcb sem;
    let s := set_semcount sem (i16 (count_of s sem + 1)) s in
    s ← upd_task s wtcb (set_waitsem 0);
    s ← upd_task s wtcb (set_pterrno errcode);
    k ← up_unblock_task (kn s) wtcb;
    Some (set_kn k s)
  else Some s.

(** The count of a task that is being deleted while it waits. *)
Definition sem_recover (s : sem_state) (tcb : Z) : option sem_state :=
  w ← get_tcb (kn s) tcb;
  if bool_decide (task_state w = TSTATE_WAIT_SEM) then
    let sem := waitsem w in
    _ ← assert (negb (sem =? 0) && (count_of s sem <? 0));
    s ← sem_canceled s tcb sem;
    let s := set_semcount sem (i16 (count_of s sem + 1)) s in
    upd_task s tcb (set_waitsem 0)
  else Some s.
