(* ===== verification/SemHolder.v ===== *)
(** * Semaphores: the containers of the holders

    The containers are spread over the free list and the holder lists of the
    semaphores.  Every operation on them returns, finds what it looks for, and
    moves one container at most from one list to another. *)

From stdpp Require Import base tactics numbers sets list.
From S2P Require Import Prelude Queue QueueProps Sched SchedProps SchedOps Sem.

(** ** Representation *)

(** The lists of containers: the free list and one per semaphore. *)
Abbreviation hlists := (option Z -> list Z).

Definition set_hlist (G : hlists) (i : option Z) (l : list Z) : hlists := fun j => if decide (j = i) then l else G j.

Lemma set_hlist_eq G i l : set_hlist G i l i = l.
Proof. unfold set_hlist. by rewrite decide_True. Qed.

Lemma set_hlist_ne G i l j : j <> i -> set_hlist G i l j = G j.
Proof. intros. unfold set_hlist. by rewrite decide_False. Qed.

Definition header (s : sem_state) (i : option Z) : Z :=
  match i with None => g_freeholders s | Some sem => hhead (sems s sem) end.

(** The lists [G] of containers, all from [P]. *)
Record hrep (P : list Z) (s : sem_state) (G : hlists) : Prop := {
  hr_size : (length P <= Z.to_nat CONFIG_SEM_PREALLOCHOLDERS)%nat;
  hr_null : 0 ∉ P;
  hr_head i : header s i = hd_or (G i) 0;
  hr_seg i : seg (fun p => h_flink (holders s p)) (G i) 0;
  hr_nodup i : NoDup (G i);
  hr_once i j p : p ∈ G i -> p ∈ G j -> i = j;
  hr_in i p : p ∈ G i -> p ∈ P
}.

(** Same scheduler and same counts. *)
Definition hkeep (s s' : sem_state) : Prop := kn s' = kn s /\ forall sem, count_of s' sem = count_of s sem.

Lemma hkeep_refl s : hkeep s s.
Proof. done. Qed.

Lemma hkeep_trans s1 s2 s3 : hkeep s1 s2 -> hkeep s2 s3 -> hkeep s1 s3.
Proof. intros [? H1] [? H2]. split; [congruence|]. intros sem. by rewrite H2, H1. Qed.

Section holders.
Context (P : list Z).

Lemma hr_short s G i : hrep P s G -> (length (G i) < holder_fuel)%nat.
Proof.
  intros H. apply PeanoNat.Nat.lt_succ_r. etrans; [|apply (hr_size _ _ _ H)]. apply submseteq_length, NoDup_submseteq.
  - apply (hr_nodup _ _ _ H).
  - intros p. apply (hr_in _ _ _ H).
Qed.

Lemma hr_nonnull s G i p : hrep P s G -> p ∈ G i -> p <> 0.
Proof. intros H Hp ->. apply (hr_null _ _ _ H). by apply (hr_in _ _ _ H i). Qed.

(** Only the links and the headers matter. *)
Lemma hrep_ext s s' G :
  (forall i, header s' i = header s i) -> (forall p, h_flink (holders s' p) = h_flink (holders s p)) ->
  hrep P s G -> hrep P s' G.
Proof.
  intros Hh Hf [? ? Hd Hs ? ? ?]. constructor; try done.
  - intros i. by rewrite Hh.
  - intros i. apply (seg_ext (fun p => h_flink (holders s p))); [|apply Hs]. intros p _. apply Hf.
Qed.

(** Moving container [p] from one list to the front of another. *)
Lemma hrep_move s s' G i l1 p l2 j :
  hrep P s G -> i <> j -> G i = l1 ++ p :: l2 ->
  (forall t, t <> i -> t <> j -> header s' t = header s t) ->
  header s' i = hd_or (l1 ++ l2) 0 -> header s' j = p ->
  h_flink (holders s' p) = hd_or (G j) 0 ->
  seg (fun q => h_flink (holders s' q)) (l1 ++ l2) 0 ->
  (forall q, q ∉ l1 -> q <> p -> h_flink (holders s' q) = h_flink (holders s q)) ->
  hrep P s' (set_hlist (set_hlist G i (l1 ++ l2)) j (p :: G j)).
Proof.
  intros [Hsz H0 Hd Hs Hn Ho Hin] Hij Hi Hhead Hhi Hhj Hfp Hseg Hfl. pose proof (Hn i) as Hni. rewrite Hi in Hni.
  apply NoDup_remove' in Hni as [Hni Hp].
  assert (Hother : forall t q, t <> i -> q ∈ G t -> q <> p /\ q ∉ l1).
  { intros t q Ht Hq. split.
    - intros ->. apply Ht, (Ho t i p); [done|]. rewrite Hi. set_solver.
    - intros Hq1. apply Ht, (Ho t i q); [done|]. rewrite Hi. set_solver. }
  assert (Hsame : forall t, t <> i -> seg (fun q => h_flink (holders s' q)) (G t) 0).
  { intros t Ht. apply (seg_ext (fun q => h_flink (holders s q))); [|apply Hs]. intros q Hq. destruct (Hother t q Ht Hq).
    by apply Hfl. }
  assert (Hmem : forall t q, q ∈ set_hlist (set_hlist G i (l1 ++ l2)) j (p :: G j) t ->
    (q = p /\ t = j) \/ (q <> p /\ q ∈ G t)).
  { intros t q. unfold set_hlist. destruct (decide (t = j)) as [->|Htj]; [|destruct (decide (t = i)) as [->|Hti]].
    - intros [->|Hq]%elem_of_cons; [by left|]. right. split; [|done]. by apply (Hother j q).
    - intros Hq. right. rewrite Hi. split; [by intros ->|set_solver].
    - intros Hq. right. split; [|done]. by apply (Hother t q). }
  constructor; try done.
  - intros t. unfold set_hlist. destruct (decide (t = j)) as [->|Htj]; [done|]. destruct (decide (t = i)) as [->|Hti]; [done|].
    by rewrite Hhead, Hd.
  - intros t. unfold set_hlist. destruct (decide (t = j)) as [->|Htj]; [split; [done|by apply Hsame]|].
    destruct (decide (t = i)) as [->|Hti]; [done|by apply Hsame].
  - intros t. unfold set_hlist. destruct (decide (t = j)) as [->|Htj]; [|destruct (decide (t = i)) as [->|Hti]; [done|apply Hn]].
    constructor; [|apply Hn]. intros Hq. by destruct (Hother j p (not_eq_sym Hij) Hq).
  - intros t1 t2 q [[-> ->]|[? Hq1]]%Hmem [[? ->]|[? Hq2]]%Hmem; try done. by apply (Ho _ _ q).
  - intros t q [[-> ->]|[? Hq]]%Hmem; [|by apply (Hin t)]. apply (Hin i). rewrite Hi. set_solver.
Qed.

(** ** Allocation *)

Lemma sem_allocholder_spec s G sem p F :
  hrep P s G -> G None = p :: F ->
  exists s', sem_allocholder s sem = (s', p) /\ p <> 0 /\
    hrep P s' (set_hlist (set_hlist G None F) (Some sem) (p :: G (Some sem))) /\ hkeep s s' /\
    (forall q, htcb (holders s' q) = htcb (holders s q)) /\ counts (holders s' p) = 0.
Proof.
  intros Hr HF. pose proof (hr_head _ _ _ Hr None) as Hd. rewrite HF in Hd. simpl in Hd.
  assert (Hp0 : p <> 0) by (apply (hr_nonnull s G None); [done|rewrite HF; set_solver]).
  pose proof (hr_seg _ _ _ Hr None) as Hs. rewrite HF in Hs. destruct Hs as [Hfp Hs].
  pose proof (hr_nodup _ _ _ Hr None) as Hn. rewrite HF in Hn. apply NoDup_cons in Hn as [HpF _].
  unfold sem_allocholder. rewrite Hd. destruct (Z.eqb_spec p 0) as [?|_]; [done|]. eexists. split; [done|]. split; [done|].
  split; [|split; [split; [done|]|split]].
  - apply (hrep_move s _ G None [] p F (Some sem)); try done.
    + intros [t|] ? ?; [|done]. simpl. rewrite upd_ne by congruence. done.
    + simpl. by rewrite upd_eq.
    + simpl. rewrite !upd_eq. simpl. apply (hr_head _ _ _ Hr (Some sem)).
    + simpl. apply (seg_ext (fun q => h_flink (holders s q))); [|done]. intros q Hq. simpl. rewrite !upd_ne by (by intros ->). done.
    + intros q _ Hq. simpl. by rewrite !upd_ne.
  - intros t. unfold count_of. simpl. destruct (decide (t = sem)) as [->|]; [by rewrite upd_eq|by rewrite upd_ne].
  - intros q. simpl. destruct (decide (q = p)) as [->|]; [by rewrite !upd_eq|by rewrite !upd_ne].
  - simpl. by rewrite upd_eq.
Qed.

Lemma sem_allocholder_none s G sem : hrep P s G -> G None = [] -> sem_allocholder s sem = (s, 0).
Proof. intros Hr HF. unfold sem_allocholder. pose proof (hr_head _ _ _ Hr None) as Hd. rewrite HF in Hd. simpl in Hd. by rewrite Hd. Qed.

(** ** Search *)

Lemma find_from_spec s x fuel l :
  seg (fun p => h_flink (holders s p)) l 0 -> 0 ∉ l -> (length l < fuel)%nat ->
  exists p, find_from fuel s x (hd_or l 0) = Some p /\
    ((p ∈ l /\ htcb (holders s p) = x) \/ (p = 0 /\ forall q, q ∈ l -> htcb (holders s q) <> x)).
Proof.
  revert l. induction fuel as [|fuel IH]; intros l Hs H0 Hf; [lia|]. simpl. destruct l as [|p l]; simpl in *.
  - exists 0. split; [done|]. right. split; [done|]. intros q Hq. by apply elem_of_nil in Hq.
  - destruct (Z.eqb_spec p 0) as [->|_]; [set_solver|]. destruct (Z.eqb_spec (htcb (holders s p)) x) as [E|E].
    + exists p. split; [done|]. left. split; [set_solver|done].
    + destruct Hs as [-> Hs]. destruct (IH l Hs) as (r & Hr & Hc); [set_solver|lia|]. exists r. split; [done|].
      destruct Hc as [[Hin Hh]|[-> Hno]]; [left; split; [set_solver|done]|right]. split; [done|].
      intros q [->|Hq]%elem_of_cons; [done|by apply Hno].
Qed.

Lemma sem_findholder_spec s G sem x :
  hrep P s G ->
  exists p, sem_findholder s sem x = Some p /\
    ((p ∈ G (Some sem) /\ htcb (holders s p) = x) \/ (p = 0 /\ forall q, q ∈ G (Some sem) -> htcb (holders s q) <> x)).
Proof.
  intros Hr. unfold sem_findholder. pose proof (hr_head _ _ _ Hr (Some sem)) as Hd. simpl in Hd. rewrite Hd.
  apply find_from_spec; [apply (hr_seg _ _ _ Hr)| |by eapply hr_short].
  intros H0. by apply (hr_nonnull s G (Some sem) 0 Hr).
Qed.

(** ** Release *)

Lemma find_prev_spec s p fuel prev l1 l2 :
  seg (fun p => h_flink (holders s p)) (l1 ++ p :: l2) 0 -> 0 ∉ l1 ++ p :: l2 -> p ∉ l1 -> (length l1 < fuel)%nat ->
  find_prev fuel s p prev (hd_or (l1 ++ p :: l2) 0) = Some (last_or l1 prev, p).
Proof.
  revert prev l1. induction fuel as [|fuel IH]; intros prev l1 Hs H0 Hp Hf; [lia|]. simpl. destruct l1 as [|q l1]; simpl in *.
  - by rewrite Z.eqb_refl, orb_true_r.
  - destruct (Z.eqb_spec q 0) as [->|_]; [set_solver|]. destruct (Z.eqb_spec q p) as [->|_]; [set_solver|]. simpl.
    destruct Hs as [-> Hs]. rewrite IH; [|done|set_solver|set_solver|lia]. f_equal. f_equal.
    unfold last_or. rewrite reverse_cons. by rewrite hd_or_app.
Qed.

Definition unlink_holder (s : sem_state) (sem prev p : Z) : sem_state :=
  let s :=
    if prev =? 0 then set_hhead sem (h_flink (holders s p)) s else set_h_flink prev (h_flink (holders s p)) s in
  set_free p (set_h_flink p (g_freeholders s) s).

Lemma unlink_holder_spec s G sem l1 p l2 :
  hrep P s G -> G (Some sem) = l1 ++ p :: l2 ->
  let s' := unlink_holder s sem (last_or l1 0) p in
  hrep P s' (set_hlist (set_hlist G (Some sem) (l1 ++ l2)) None (p :: G None)) /\ hkeep s s' /\
  (forall q, htcb (holders s' q) = htcb (holders s q)).
Proof.
  intros Hr Hl s'. pose proof (hr_nodup _ _ _ Hr (Some sem)) as Hn. rewrite Hl in Hn. pose proof Hn as [Hn' Hp]%NoDup_remove'.
  apply not_elem_of_app in Hp as [Hp1 Hp2]. pose proof (hr_seg _ _ _ Hr (Some sem)) as Hs. rewrite Hl in Hs.
  pose proof (hr_head _ _ _ Hr (Some sem)) as Hd. simpl in Hd. rewrite Hl in Hd. pose proof (hr_head _ _ _ Hr None) as Hf. simpl in Hf.
  pose proof Hs as [Hsa [Hsp Hsb]]%seg_app. simpl in Hsp, Hsa.
  destruct l1 as [|q l1 _] using rev_ind; unfold s', unlink_holder.
  - simpl. rewrite Hsp. split; [|split].
    + apply (hrep_move s _ G (Some sem) [] p l2 None); try done.
      * intros [t|] ? ?; [|done]. simpl. by rewrite upd_ne by congruence.
      * simpl. by rewrite upd_eq.
      * simpl. rewrite upd_eq. simpl. done.
      * simpl. apply (seg_ext (fun q => h_flink (holders s q))); [|done]. intros q Hq. simpl. by rewrite upd_ne by (by intros ->).
      * intros q _ Hq. simpl. by rewrite upd_ne.
    + split; [done|]. intros t. unfold count_of. simpl. destruct (decide (t = sem)) as [->|]; [by rewrite upd_eq|by rewrite upd_ne].
    + intros q. simpl. destruct (decide (q = p)) as [->|]; [by rewrite upd_eq|by rewrite upd_ne].
  - assert (Elast : last_or (l1 ++ [q]) 0 = q) by (unfold last_or; by rewrite reverse_snoc). rewrite Elast.
    assert (Hq0 : q <> 0) by (apply (hr_nonnull s G (Some sem)); [done|rewrite Hl; set_solver]).
    assert (Hqp : q <> p) by set_solver. destruct (Z.eqb_spec q 0) as [?|_]; [done|]. rewrite Hsp.
    apply NoDup_app in Hn' as (Hn1 & Hn12 & _). apply NoDup_app in Hn1 as (_ & Hnq & _).
    assert (Hq1 : q ∉ l1) by (intros Hq; apply (Hnq q Hq); set_solver). assert (Hq2 : q ∉ l2) by (apply Hn12; set_solver).
    apply seg_app in Hsa as [Hsa _]. simpl in Hsa. split; [|split].
    + apply (hrep_move s _ G (Some sem) (l1 ++ [q]) p l2 None); try done.
      * by intros [t|] ? ?.
      * simpl. rewrite Hd. by rewrite <- !app_assoc, !hd_or_app.
      * simpl. by rewrite upd_eq.
      * simpl. rewrite <- app_assoc. simpl.
        apply (seg_ext (upd (fun x => h_flink (holders s x)) q (hd_or l2 0))).
        -- intros x Hx. unfold upd. destruct (Z.eqb_spec x p) as [->|_]; [exfalso; set_solver|]. by destruct (Z.eqb_spec x q).
        -- apply seg_app. split; [by apply seg_upd|]. split; [by rewrite upd_eq|by apply seg_upd].
      * intros x Hx Hxp. simpl. rewrite !upd_ne; [done|set_solver|done].
    + done.
    + intros x. simpl. unfold upd. destruct (Z.eqb_spec x p) as [->|]; [|by destruct (Z.eqb_spec x q) as [->|]].
      by destruct (Z.eqb_spec p q) as [->|].
Qed.

Lemma sem_freeholder_spec s G sem l1 p l2 :
  hrep P s G -> G (Some sem) = l1 ++ p :: l2 ->
  exists s', sem_freeholder s sem p = Some s' /\
    hrep P s' (set_hlist (set_hlist G (Some sem) (l1 ++ l2)) None (p :: G None)) /\ hkeep s s' /\
    (forall q, q <> p -> htcb (holders s' q) = htcb (holders s q)).
Proof.
  intros Hr Hl. assert (Hp0 : p <> 0) by (apply (hr_nonnull s G (Some sem)); [done|rewrite Hl; set_solver]).
  unfold sem_freeholder. set (s1 := set_counts p 0 (set_htcb p 0 s)).
  assert (Hf1 : forall q, h_flink (holders s1 q) = h_flink (holders s q)).
  { intros q. unfold s1. simpl. destruct (decide (q = p)) as [->|]; [by rewrite !upd_eq|by rewrite !upd_ne]. }
  assert (Ht1 : forall q, q <> p -> htcb (holders s1 q) = htcb (holders s q)) by (intros q Hq; unfold s1; simpl; by rewrite !upd_ne).
  assert (Hr1 : hrep P s1 G) by (by apply (hrep_ext s)). assert (Hk1 : hkeep s s1) by done. clearbody s1.
  destruct (unlink_holder_spec s1 G sem l1 p l2 Hr1 Hl) as (Hr2 & Hk2 & Ht2).
  exists (unlink_holder s1 sem (last_or l1 0) p). split; [|split; [done|split; [by eapply hkeep_trans|]]].
  - pose proof (hr_head _ _ _ Hr1 (Some sem)) as Hd. simpl in Hd. rewrite Hd, Hl.
    pose proof (hr_short s1 G (Some sem) Hr1) as Hlen. rewrite Hl, length_app in Hlen.
    pose proof (hr_nodup _ _ _ Hr1 (Some sem)) as Hn. rewrite Hl in Hn. apply NoDup_remove' in Hn as [_ Hn].
    rewrite (find_prev_spec s1 p holder_fuel 0 l1 l2); [|rewrite <- Hl; apply (hr_seg _ _ _ Hr1)| |set_solver|lia].
    + cbn [mbind option_bind]. by destruct (Z.eqb_spec p 0).
    + rewrite <- Hl. intros H. by apply (hr_nonnull s1 G (Some sem) 0 Hr1).
  - intros q Hq. by rewrite Ht2, Ht1.
Qed.

(** ** Tasks in the containers *)

(** Containers in use belong to tasks of [T], to different tasks for the same
    semaphore. *)
Record hold_by (T : Z -> Prop) (s : sem_state) (G : hlists) : Prop := {
  hb_task sem p : p ∈ G (Some sem) -> T (htcb (holders s p));
  hb_once sem p q : p ∈ G (Some sem) -> q ∈ G (Some sem) -> htcb (holders s p) = htcb (holders s q) -> p = q
}.

Lemma hold_by_ext T s s' G : (forall q, htcb (holders s' q) = htcb (holders s q)) -> hold_by T s G -> hold_by T s' G.
Proof.
  intros Ht [Hh Ho]. constructor.
  - intros sem p Hp. rewrite Ht. by apply (Hh sem).
  - intros sem p q Hp Hq. rewrite !Ht. by apply Ho with sem.
Qed.

Section owners.
Context (T : Z -> Prop).

Lemma sem_addholder_tcb_spec s G sem x :
  hrep P s G -> hold_by T s G -> T x ->
  exists s' G', sem_addholder_tcb s x sem = Some s' /\ hrep P s' G' /\ hold_by T s' G' /\ hkeep s s' /\
    (forall q, q ∈ G (Some sem) -> q ∈ G' (Some sem) /\ htcb (holders s' q) = htcb (holders s q)).
Proof.
  intros Hr Hh Hx. unfold sem_addholder_tcb, sem_findorallocateholder.
  destruct (sem_findholder_spec s G sem x Hr) as (p & -> & [[Hp Hpx]|[-> Hno]]); cbn [mbind option_bind].
  - destruct (Z.eqb_spec p 0) as [->|Hp0]; [by destruct (hr_nonnull s G _ 0 Hr Hp)|].
    destruct (Z.eqb_spec p 0) as [?|_]; [done|].
    eexists _, G. split; [done|]. split; [|split; [|split; [done|]]].
    + apply (hrep_ext s); try done. intros q. simpl. unfold upd. destruct (Z.eqb_spec q p) as [->|]; [|done]. by rewrite Z.eqb_refl.
    + apply (hold_by_ext T s); [|done]. intros q. simpl. unfold upd. destruct (Z.eqb_spec q p) as [->|]; [by rewrite Z.eqb_refl|done].
    + intros q Hq. split; [done|]. simpl. unfold upd. destruct (Z.eqb_spec q p) as [->|]; [by rewrite Z.eqb_refl|done].
  - simpl. destruct (G None) as [|p F] eqn:HF.
    + rewrite (sem_allocholder_none s G) by done. simpl. exists s, G. done.
    + destruct (sem_allocholder_spec s G sem p F Hr HF) as (s1 & -> & Hp0 & Hr1 & Hk1 & Ht1 & _). simpl.
      destruct (Z.eqb_spec p 0) as [?|_]; [done|]. set (G1 := set_hlist (set_hlist G None F) (Some sem) (p :: G (Some sem))) in *.
      match goal with |- context [Some ?x] => set (s2 := x) end.
      assert (Ht2 : forall q, htcb (holders s2 q) = if decide (q = p) then x else htcb (holders s q)).
      { intros q. unfold s2. simpl. unfold upd. destruct (Z.eqb_spec q p) as [->|]; [by rewrite Z.eqb_refl, decide_True|].
        by rewrite decide_False, Ht1. }
      assert (Hpn : forall t, p ∉ G (Some t)).
      { intros t Hp. assert (None = Some t); [|done]. apply (hr_once _ _ _ Hr _ _ p); [rewrite HF; set_solver|done]. }
      assert (Hint : forall t q, q ∈ G1 (Some t) -> (q = p /\ t = sem) \/ (q <> p /\ q ∈ G (Some t))).
      { intros t q. unfold G1, set_hlist. destruct (decide (Some t = Some sem)) as [[= ->]|].
        - intros [->|Hq]%elem_of_cons; [by left|]. right. split; [|done]. intros ->. by apply (Hpn sem).
        - rewrite decide_False by done. intros Hq. right. split; [|done]. intros ->. by apply (Hpn t). }
      exists s2, G1. split; [done|]. split; [|split; [|split]].
      * apply (hrep_ext s1); try done. intros q. simpl. unfold upd. destruct (Z.eqb_spec q p) as [->|]; [|done]. by rewrite Z.eqb_refl.
      * constructor.
        -- intros t q Hq. rewrite Ht2. destruct (decide (q = p)) as [|Hqp]; [done|].
           destruct (Hint t q Hq) as [[? _]|[_ Hq']]; [done|]. by apply (hb_task _ _ _ Hh t).
        -- intros t q1 q2 Hq1 Hq2. rewrite !Ht2.
           destruct (Hint t q1 Hq1) as [[-> Et1]|[Hn1 Hq1']], (Hint t q2 Hq2) as [[-> Et2]|[Hn2 Hq2']]; [done|..].
           ++ rewrite decide_True, decide_False by done. intros E. symmetry in E. subst t. by destruct (Hno q2 Hq2').
           ++ rewrite decide_False, decide_True by done. intros E. subst t. by destruct (Hno q1 Hq1').
           ++ rewrite !decide_False by done. by apply (hb_once _ _ _ Hh t).
      * by destruct Hk1.
      * intros q Hq. split; [unfold G1; rewrite set_hlist_eq; set_solver|]. rewrite Ht2, decide_False; [done|].
        intros ->. by apply (Hpn sem).
Qed.

Lemma sem_freeholder_hold s G sem p :
  hrep P s G -> hold_by T s G -> p ∈ G (Some sem) ->
  exists s' G', sem_freeholder s sem p = Some s' /\ hrep P s' G' /\ hold_by T s' G' /\ hkeep s s' /\
    (forall t q, q <> p -> (q ∈ G' (Some t) <-> q ∈ G (Some t)) /\ htcb (holders s' q) = htcb (holders s q)).
Proof.
  intros Hr Hh Hp. apply list_elem_of_split in Hp as (l1 & l2 & Hl).
  destruct (sem_freeholder_spec s G sem l1 p l2 Hr Hl) as (s' & Hrun & Hr' & Hk & Ht).
  pose proof (hr_nodup _ _ _ Hr (Some sem)) as Hn. rewrite Hl in Hn. apply NoDup_remove' in Hn as [_ Hn].
  assert (Hin : forall t q, q ∈ set_hlist (set_hlist G (Some sem) (l1 ++ l2)) None (p :: G None) (Some t) -> q <> p /\ q ∈ G (Some t)).
  { intros t q. rewrite set_hlist_ne by done. unfold set_hlist. destruct (decide (Some t = Some sem)) as [[= ->]|Hts]; intros Hq.
    - split; [by intros ->|]. rewrite Hl. set_solver.
    - split; [|done]. intros ->. apply Hts, (hr_once _ _ _ Hr _ _ p Hq). rewrite Hl. set_solver. }
  eexists _, _. split; [done|]. split; [done|]. split; [|split; [done|]].
  - constructor.
    + intros t q [Hqp Hq]%Hin. rewrite Ht by done. by apply (hb_task _ _ _ Hh t).
    + intros t q1 q2 [Hqp1 Hq1]%Hin [Hqp2 Hq2]%Hin. rewrite !Ht by done. by apply (hb_once _ _ _ Hh t).
  - intros t q Hq. split; [|by apply Ht]. rewrite set_hlist_ne by done. unfold set_hlist.
    destruct (decide (Some t = Some sem)) as [[= ->]|Hts]; [|done]. rewrite Hl. set_solver.
Qed.

Lemma sem_releaseholder_spec s G sem :
  hrep P s G -> hold_by T s G ->
  exists s', sem_releaseholder s sem = Some s' /\ hrep P s' G /\ hold_by T s' G /\ hkeep s s' /\
    (forall q, htcb (holders s' q) = htcb (holders s q)).
Proof.
  intros Hr Hh. unfold sem_releaseholder. destruct (sem_findholder_spec s G sem (rtr_head (kn s)) Hr) as (p & -> & _). simpl.
  destruct (_ && _); [|by exists s]. eexists. split; [done|].
  assert (Ht : forall q, htcb (holders (set_counts p (i16 (counts (holders s p) - 1)) s) q) = htcb (holders s q)).
  { intros q. simpl. unfold upd. by destruct (Z.eqb_spec q p) as [->|]. }
  split; [|split; [|done]].
  - apply (hrep_ext s); try done. intros q. simpl. unfold upd. by destruct (Z.eqb_spec q p) as [->|].
  - by apply (hold_by_ext T s).
Qed.
End owners.
End holders.

(** ** Initialisation *)

(** The addresses of [n] containers of 12 bytes from [p]. *)
Fixpoint containers (n : nat) (p : Z) : list Z :=
  match n with O => [] | S n => p :: containers n (p + 12) end.

Lemma containers_range n p q : q ∈ containers n p -> p <= q.
Proof.
  revert p. induction n as [|n IH]; intros p; simpl; [intros H; by apply elem_of_nil in H|].
  intros [->|H%IH]%elem_of_cons; lia.
Qed.

Lemma containers_nodup n p : NoDup (containers n p).
Proof.
  revert p. induction n as [|n IH]; intros p; simpl; constructor; [|apply IH]. intros H%containers_range. lia.
Qed.

Lemma link_holders_keeps n p s :
  kn (link_holders n p s) = kn s /\ sems (link_holders n p s) = sems s /\ g_freeholders (link_holders n p s) = g_freeholders s /\
  forall q, q < p -> holders (link_holders n p s) q = holders s q.
Proof.
  revert p s. induction n as [|n IH]; intros p s; simpl; [done|]. destruct (IH (p + 12) (set_h_flink p (p + 12) s)) as (-> & -> & -> & H).
  split_and!; try done. intros q Hq. rewrite H by lia. simpl. by rewrite upd_ne by lia.
Qed.

Lemma link_holders_seg n p s v :
  seg (fun q => h_flink (holders (set_h_flink (p + 12 * Z.of_nat n) v (link_holders n p s)) q)) (containers (S n) p) v.
Proof.
  revert p s. induction n as [|n IH]; intros p s.
  - simpl. rewrite Z.add_0_r, upd_eq. done.
  - split.
    + simpl. rewrite upd_ne by lia. destruct (link_holders_keeps n (p + 12) (set_h_flink p (p + 12) s)) as (_ & _ & _ & H).
      rewrite H by lia. simpl. by rewrite upd_eq.
    + replace (p + 12 * Z.of_nat (S n)) with (p + 12 + 12 * Z.of_nat n) by lia. apply IH.
Qed.

Lemma link_holders_rep n base s :
  0 < base -> (S n <= 16)%nat -> (forall sem, hhead (sems s sem) = 0) ->
  let s' := set_h_flink (base + 12 * Z.of_nat n) 0 (link_holders n base (set_free base s)) in
  hrep (containers (S n) base) s' (fun i => match i with None => containers (S n) base | Some _ => [] end) /\
  kn s' = kn s /\ sems s' = sems s.
Proof.
  intros Hb Hn Hs s'. set (s1 := set_free base s) in s'.
  pose proof (link_holders_seg n base s1 0) as Hseg. fold s' in Hseg. destruct (link_holders_keeps n base s1) as (Hk & Hse & Hf & _).
  assert (Hse' : sems s' = sems s) by exact Hse. split; [|split; [exact Hk|exact Hse']].
  assert (Hlen : forall m p, length (containers m p) = m).
  { induction m as [|m IH]; intros p; simpl; [done|by rewrite IH]. }
  constructor.
  - rewrite Hlen. exact Hn.
  - intros H%containers_range. lia.
  - intros [sem|]; [|exact Hf]. change (hhead (sems s' sem) = 0). rewrite Hse'. apply Hs.
  - intros [sem|]; [done|exact Hseg].
  - intros [sem|]; [constructor|apply containers_nodup].
  - intros [i|] [j|] p; try done; intros Hi Hj; first [by apply elem_of_nil in Hi|by apply elem_of_nil in Hj].
  - intros [i|] p; [intros H; by apply elem_of_nil in H|done].
Qed.

(** All containers are free. *)
Lemma sem_initholders_spec base s :
  0 < base -> (forall sem, hhead (sems s sem) = 0) ->
  hrep (containers 16 base) (sem_initholders base s) (fun i => match i with None => containers 16 base | Some _ => [] end) /\
  kn (sem_initholders base s) = kn s /\ sems (sem_initholders base s) = sems s.
Proof. intros Hb Hs. apply (link_holders_rep 15 base s); [done|lia|done]. Qed.

(** ** Destruction *)

(** The loop that gives all containers [l] of a semaphore back. *)
Lemma recover_from_spec P T s G sem fuel l :
  hrep P s G -> hold_by T s G -> (forall x, T x -> x <> 0) -> G (Some sem) = l -> (length l < fuel)%nat ->
  exists s' G', foreach_from fuel (sem_recoverholders sem) s (hd_or l 0) 0 = Some (s', 0) /\ hrep P s' G' /\ hold_by T s' G' /\
    hkeep s s' /\ G' (Some sem) = [] /\ G' None ≡ₚ l ++ G None /\ forall t, t <> sem -> G' (Some t) = G (Some t).
Proof.
  intros Hr Hb HT. revert s G l Hr Hb. induction fuel as [|fuel IH]; intros s G l Hr Hb Hl Hf; [lia|].
  destruct l as [|p l]; [exists s, G; split_and!; done|]. simpl.
  assert (Hp : p ∈ G (Some sem)) by (rewrite Hl; set_solver). pose proof (hr_nonnull P s G _ p Hr Hp) as Hp0.
  destruct (Z.eqb_spec p 0) as [?|_]; [done|]. cbn [orb negb]. pose proof (HT _ (hb_task _ _ _ Hb sem p Hp)) as Ht0.
  destruct (Z.eqb_spec (htcb (holders s p)) 0) as [?|_]; [done|].
  pose proof (hr_seg _ _ _ Hr (Some sem)) as Hs. rewrite Hl in Hs. destruct Hs as [-> _].
  destruct (sem_freeholder_spec P s G sem [] p l Hr Hl) as (s1 & Hrun & Hr1 & Hk1 & Ht1).
  assert (Hrec : sem_recoverholders sem s p = Some (s1, 0)) by (unfold sem_recoverholders; by rewrite Hrun).
  rewrite Hrec. cbn [mbind option_bind].
  set (G1 := set_hlist (set_hlist G (Some sem) ([] ++ l)) None (p :: G None)) in *.
  pose proof (hr_nodup _ _ _ Hr (Some sem)) as Hn. rewrite Hl in Hn. apply NoDup_cons in Hn as [Hpl _].
  assert (Hin : forall t q, q ∈ G1 (Some t) -> q <> p /\ q ∈ G (Some t)).
  { intros t q. unfold G1. rewrite set_hlist_ne by done. unfold set_hlist. destruct (decide (Some t = Some sem)) as [[= ->]|Hts]; intros Hq.
    - split; [by intros ->|]. rewrite Hl. set_solver.
    - split; [|done]. intros ->. by apply Hts, (hr_once _ _ _ Hr _ _ p). }
  assert (Hb1 : hold_by T s1 G1).
  { constructor.
    - intros t q [Hqp Hq]%Hin. rewrite Ht1 by done. by apply (hb_task _ _ _ Hb t).
    - intros t q1 q2 [Hqp1 Hq1]%Hin [Hqp2 Hq2]%Hin. rewrite !Ht1 by done. by apply (hb_once _ _ _ Hb t). }
  destruct (IH s1 G1 l Hr1 Hb1) as (s2 & G2 & Hrun2 & Hr2 & Hb2 & Hk2 & He2 & Hp2 & Ho2); [unfold G1; by rewrite set_hlist_ne, set_hlist_eq|simpl in Hf; lia|].
  exists s2, G2. split; [done|]. split_and!; try done; [by eapply hkeep_trans| |].
  - rewrite Hp2. unfold G1. rewrite set_hlist_eq. by rewrite Permutation_middle.
  - intros t Ht. rewrite Ho2 by done. unfold G1. rewrite !set_hlist_ne by congruence. done.
Qed.
