(* ===== verification/SemPrio.v ===== *)
(** * Semaphores: raising and restoring the priorities of holders

    [adjusted] relates the states before and after any of the priority
    changes of sem_holder.c: priorities, restoration priorities and the order
    of the task lists may differ, nothing else.  Boosting and restoring one
    holder, and all holders of a semaphore, is such a change. *)

From stdpp Require Import base tactics numbers sets list sorting.
From S2P Require Import Prelude Queue QueueProps Sched SchedProps SchedOps SchedKernel SchedPriority SchedTheorems.
From S2P Require Import Sem SemHolder.

(** ** Priorities of a task *)

Record prio_ok (t : tcb_s) : Prop := {
  po_base : 1 <= base_priority t <= 255;
  po_prio : base_priority t <= sched_priority t <= 255;
  po_npend : 0 <= npend_reprio t <= CONFIG_SEM_NNESTPRIO;
  po_pend i : 0 <= i < npend_reprio t -> base_priority t <= pend_reprios t i <= 255
}.

(** The fields priority changes leave alone. *)
Record same_task (t t' : tcb_s) : Prop := {
  st_pid : pid t' = pid t;
  st_base : base_priority t' = base_priority t;
  st_lock : lockcount t' = lockcount t;
  st_wait : waitsem t' = waitsem t;
  st_errno : pterrno t' = pterrno t
}.

Lemma same_task_refl t : same_task t t.
Proof. done. Qed.

Lemma same_task_trans t1 t2 t3 : same_task t1 t2 -> same_task t2 t3 -> same_task t1 t3.
Proof. intros [] []. constructor; congruence. Qed.

Lemma prio_ok_state s t : prio_ok t -> prio_ok (set_task_state s t).
Proof. intros []. by constructor. Qed.

Lemma prio_ok_prio p t : prio_ok t -> base_priority t <= p <= 255 -> prio_ok (set_sched_priority p t).
Proof. intros [] ?. by constructor. Qed.

Lemma push_pend_ok v t :
  prio_ok t -> npend_reprio t < CONFIG_SEM_NNESTPRIO -> base_priority t <= v <= 255 ->
  exists t', push_pend v t = Some t' /\ prio_ok t' /\ same_task t t' /\ sched_priority t' = sched_priority t /\
    task_state t' = task_state t.
Proof.
  intros [? ? ? Hp] Hn Hv. unfold push_pend. rewrite assert_true by (by apply Z.ltb_lt). simpl. eexists. split; [done|].
  split; [|done]. constructor; simpl; [done|done|lia|]. intros i Hi. unfold upd. destruct (Z.eqb_spec i (npend_reprio t)); [done|].
  apply Hp. lia.
Qed.

Lemma remove_pend_ok j t :
  prio_ok t -> 0 <= j < npend_reprio t -> prio_ok (remove_pend j t) /\ same_task t (remove_pend j t) /\
    sched_priority (remove_pend j t) = sched_priority t /\ task_state (remove_pend j t) = task_state t.
Proof.
  intros [? ? ? Hp] Hj. unfold remove_pend. destruct (Z.ltb_spec 0 (npend_reprio t - 1)); (split; [|done]); constructor; simpl; try done; try lia.
  intros i Hi. unfold upd. destruct (i =? j); apply Hp; lia.
Qed.

Lemma highest_pend_range n pr i j : 0 <= j < i -> 0 <= highest_pend n pr i j < i + Z.of_nat n.
Proof.
  revert i j. induction n as [|n IH]; intros i j Hj; simpl; [lia|]. destruct (pr j <? pr i); [specialize (IH (i + 1) i)|specialize (IH (i + 1) j)]; lia.
Qed.

Lemma find_pend_range n pr i p j : find_pend n pr i p = Some j -> i <= j < i + Z.of_nat n.
Proof.
  revert i. induction n as [|n IH]; intros i; simpl; [done|]. destruct (pr i =? p); [intros [= <-]; lia|]. intros H%IH. lia.
Qed.

Section prio.
Context (T : list Z) (idle : Z).
Abbreviation ok := (sched_ok T idle).

(** The tasks that use semaphores. *)
Definition user (x : Z) : Prop := x ∈ T /\ x <> idle.

Definition prios_ok (k : kernel) : Prop := forall x, user x -> prio_ok (tcbs k x).
Definition hash_ok (k : kernel) : Prop := forall x, user x -> (g_pidhash k (PIDHASH (pid (tcbs k x)))).2 = x.

Record adjusted (s s' : sem_state) (A A' : tasks) : Prop := {
  ad_ok : ok (kn s') A';
  ad_members : same_members A A';
  ad_rest : s' = set_kn (kn s') s;
  ad_irq : in_irq (kn s') = in_irq (kn s);
  ad_irqerrno : g_irqerrno (kn s') = g_irqerrno (kn s);
  ad_hash : g_pidhash (kn s') = g_pidhash (kn s);
  ad_task y : same_task (tcbs (kn s) y) (tcbs (kn s') y);
  ad_prios : prios_ok (kn s')
}.

Lemma same_members_trans A1 A2 A3 : same_members A1 A2 -> same_members A2 A3 -> same_members A1 A3.
Proof.
  intros [H1 H1'] [H2 H2']. split; [intros y; by rewrite H2, H1|]. intros tl y ? ?. by rewrite H2', H1'.
Qed.

Lemma adjusted_refl s A : ok (kn s) A -> prios_ok (kn s) -> adjusted s s A A.
Proof. intros. constructor; try done. by destruct s. Qed.

Lemma adjusted_trans s1 s2 s3 A1 A2 A3 : adjusted s1 s2 A1 A2 -> adjusted s2 s3 A2 A3 -> adjusted s1 s3 A1 A3.
Proof.
  intros [_ Hm Hr Hi He Hh Ht _] [Ho' Hm' Hr' Hi' He' Hh' Ht' Hp']. constructor; try done; try congruence.
  - by eapply same_members_trans.
  - rewrite Hr', Hr. done.
  - intros y. by eapply same_task_trans.
Qed.

Lemma adjusted_lock s s' A A' x : adjusted s s' A A' -> lock (kn s') x = lock (kn s) x.
Proof. intros H. apply (st_lock _ _ (ad_task _ _ _ _ H x)). Qed.

Lemma adjusted_hash s s' A A' : adjusted s s' A A' -> hash_ok (kn s) -> hash_ok (kn s').
Proof. intros H Hh x Hx. rewrite (ad_hash _ _ _ _ H), (st_pid _ _ (ad_task _ _ _ _ H x)). by apply Hh. Qed.

Lemma adjusted_listed s s' A A' : adjusted s s' A A' -> all_listed T A -> all_listed T A'.
Proof. intros H. by apply same_members_listed, (ad_members _ _ _ _ H). Qed.

Lemma listed_nonnull k A x tl : ok k A -> x ∈ A tl -> x <> 0.
Proof. intros Hok Hx ->. by apply (dq_null _ _ _ (kr_list _ _ (si_rep _ _ _ _ (ok_inv _ _ _ _ Hok)) tl)). Qed.

Lemma user_listed k A x : ok k A -> all_listed T A -> user x -> (exists tl, x ∈ A tl) /\ x <> 0.
Proof. intros Hok HA [HT _]. destruct (HA x HT) as [tl Hx]. split; [by exists tl|by eapply listed_nonnull]. Qed.

(** Recording a restoration priority in a task. *)
Lemma adjusted_put s A x t' :
  ok (kn s) A -> prios_ok (kn s) -> x <> 0 -> prio_ok t' -> same_task (tcbs (kn s) x) t' ->
  sched_priority t' = prio (kn s) x -> task_state t' = state (kn s) x ->
  exists s', upd_task s x (fun _ => t') = Some s' /\ adjusted s s' A A /\ tcbs (kn s') x = t' /\
    forall y, y <> x -> tcbs (kn s') y = tcbs (kn s) y.
Proof.
  intros Hok Hp Hx0 Ht' Hst Hpr Hts. unfold upd_task. krun. exists (set_kn (put_tcb x (fun _ => t') (kn s)) s). split; [done|].
  assert (Hy : forall y, tcbs (put_tcb x (fun _ => t') (kn s)) y = if decide (y = x) then t' else tcbs (kn s) y).
  { intros y. destruct (decide (y = x)) as [->|]; [by rewrite put_tcb_eq|by rewrite put_tcb_ne]. }
  split; [|split; [simpl; by rewrite upd_eq|intros y Hne; simpl; by rewrite upd_ne]]. constructor; try done.
  - destruct Hok as [Hi Hc Hpe].
    assert (Hprio : forall y, prio (put_tcb x (fun _ => t') (kn s)) y = prio (kn s) y).
    { intros y. unfold prio in *. rewrite Hy. by destruct (decide (y = x)) as [->|]. }
    assert (Hlock : forall y, lock (put_tcb x (fun _ => t') (kn s)) y = lock (kn s) y).
    { intros y. unfold lock. rewrite Hy. destruct (decide (y = x)) as [->|]; [apply (st_lock _ _ Hst)|done]. }
    constructor; simpl; [|done|by rewrite Hlock]. destruct Hi as [Hk Hsz Htt Hs Hso Hl Hip Hpp Hlo]. constructor; try done.
    + by apply krep_put.
    + intros tl y Hin. rewrite <- (Hs tl y Hin). unfold state in *. rewrite Hy. by destruct (decide (y = x)) as [->|].
    + intros tl Htl. apply (sorted_ext (kn s)); [intros; apply Hprio|by apply Hso].
    + by rewrite Hprio.
    + intros tl y Hin Hne. rewrite Hprio. by apply (Hpp tl).
    + intros y. by rewrite Hlock.
  - intros y. simpl kn. rewrite Hy. by destruct (decide (y = x)) as [->|].
  - intros y Huy. simpl kn. rewrite Hy. destruct (decide (y = x)); [done|by apply Hp].
Qed.

(** Setting the priority of a user task at or above its base priority. *)
Lemma adjusted_setpriority s A x p :
  ok (kn s) A -> all_listed T A -> prios_ok (kn s) -> user x -> base_priority (tcbs (kn s) x) <= p <= 255 ->
  exists k' A', sched_setpriority (kn s) x p = Some (k', OK) /\ adjusted s (set_kn k' s) A A' /\ stays (kn s) A x A' /\
    prio k' x = p /\ npend_reprio (tcbs k' x) = npend_reprio (tcbs (kn s) x) /\
    forall y, y <> x -> prio k' y = prio (kn s) y /\ npend_reprio (tcbs k' y) = npend_reprio (tcbs (kn s) y).
Proof.
  intros Hok HA Hp Hx Hb. destruct (user_listed _ _ _ Hok HA Hx) as [[tl Htl] Hx0]. pose proof Hx as [HT Hid].
  destruct (Hp x Hx) as [Hb1 _ _ _].
  destruct (sched_setpriority_spec T idle (kn s) A x tl p Hok Htl Hid) as (k' & A' & Hrun & Hok' & Hre & Hm & Hst); [lia|].
  destruct Hre as [(Hirq & Herr & Hh & Ho) Hxt].
  assert (Hy : forall y, y <> x -> tcbs k' y = set_task_state (state k' y) (tcbs (kn s) y)) by (intros y Hne; apply Ho; set_solver).
  exists k', A'. split; [done|]. split; [|split; [done|]].
  - constructor; try done; simpl.
    + intros y. destruct (decide (y = x)) as [->|Hne]; [by rewrite Hxt|by rewrite Hy].
    + intros y Huy. destruct (decide (y = x)) as [->|Hne]; [rewrite Hxt|rewrite Hy by done]; apply prio_ok_state; [|by apply Hp].
      apply prio_ok_prio; [by apply Hp|done].
  - unfold prio. rewrite Hxt. split; [done|]. split; [done|]. intros y Hne. by rewrite Hy.
Qed.
(** ** Boosting one holder *)

Lemma verify_user k A x : ok k A -> all_listed T A -> hash_ok k -> user x -> sched_verifytcb k x = Some true.
Proof.
  intros Hok HA Hh Hx. destruct (user_listed _ _ _ Hok HA Hx) as [_ Hx0]. unfold sched_verifytcb. krun.
  by rewrite Hh, Z.eqb_refl.
Qed.

(** What boosting the holder [h] for a waiter of priority [pr] achieves. *)
Definition boosted (s s' : sem_state) (A A' : tasks) (h pr : Z) : Prop :=
  adjusted s s' A A' /\ running A' = running A /\ pr <= prio (kn s') h /\
  (forall y, prio (kn s) y <= prio (kn s') y) /\
  (forall y, y <> h -> prio (kn s') y = prio (kn s) y /\ npend_reprio (tcbs (kn s') y) = npend_reprio (tcbs (kn s) y)).

Lemma sem_boostholderprio_spec s A sem r p :
  ok (kn s) A -> all_listed T A -> prios_ok (kn s) -> hash_ok (kn s) -> 0 < lock (kn s) (running A) ->
  r = running A -> user r -> user (htcb (holders s p)) ->
  npend_reprio (tcbs (kn s) (htcb (holders s p))) < CONFIG_SEM_NNESTPRIO ->
  exists s' A', sem_boostholderprio sem r s p = Some (s', 0) /\
    boosted s s' A A' (htcb (holders s p)) (prio (kn s) r) /\ prio (kn s') r = prio (kn s) r.
Proof.
  intros Hok HA Hp Hh Hl Er Hr Hu Hn. set (h := htcb (holders s p)) in *. unfold sem_boostholderprio. fold h.
  rewrite (verify_user (kn s) A) by done. cbn [mbind option_bind negb].
  destruct (user_listed _ _ _ Hok HA Hu) as [_ Hh0]. destruct (user_listed _ _ _ Hok HA Hr) as [_ Hr0]. krun.
  pose proof (Hp h Hu) as Hph. pose proof (po_prio _ Hph) as Hpp. pose proof (po_prio _ (Hp r Hr)) as Hpr. fold (prio (kn s) r) (prio (kn s) h) in *.
  destruct (Z.ltb_spec (base_priority (tcbs (kn s) h)) (prio (kn s) r)) as [Hb|Hb]; cycle 1.
  { exists s, A. split; [done|]. split; [|done]. split_and!; try done; [by apply adjusted_refl|lia]. }
  destruct (Z.ltb_spec (prio (kn s) h) (prio (kn s) r)) as [Hlt|Hge]; cycle 1.
  { destruct (push_pend_ok (prio (kn s) r) _ Hph Hn) as (t' & -> & Ht' & Hst & Hpt & Hts); [lia|]. cbn [mbind option_bind].
    destruct (adjusted_put s A h t' Hok Hp Hh0 Ht' Hst Hpt Hts) as (s' & -> & Had & Hx & Hy). exists s', A. split; [done|].
    assert (Hpy : forall y, prio (kn s') y = prio (kn s) y).
    { intros y. destruct (decide (y = h)) as [->|Hne]; unfold prio; [by rewrite Hx|by rewrite Hy]. }
    split; [|done]. split_and!; try done; [by rewrite Hpy|intros y; by rewrite Hpy|]. intros y Hne. split; [done|by rewrite Hy]. }
  assert (Hhr : h <> r) by (intros E; rewrite E in Hlt; lia).
  assert (Hpush : exists s1, (if base_priority (tcbs (kn s) h) <? prio (kn s) h then
               if npend_reprio (tcbs (kn s) h) <? CONFIG_SEM_NNESTPRIO then
                 t' ← push_pend (prio (kn s) h) (tcbs (kn s) h); upd_task s h (fun _ => t')
               else Some s
             else Some s) = Some s1 /\ adjusted s s1 A A /\ prio (kn s1) h = prio (kn s) h /\
             (forall y, y <> h -> tcbs (kn s1) y = tcbs (kn s) y)).
  { destruct (Z.ltb_spec (base_priority (tcbs (kn s) h)) (prio (kn s) h)); [|exists s; split_and!; try done; by apply adjusted_refl].
    destruct (Z.ltb_spec (npend_reprio (tcbs (kn s) h)) CONFIG_SEM_NNESTPRIO); [|lia].
    destruct (push_pend_ok (prio (kn s) h) _ Hph Hn) as (t' & -> & Ht' & Hst & Hpt & Hts); [lia|]. cbn [mbind option_bind].
    destruct (adjusted_put s A h t' Hok Hp Hh0 Ht' Hst Hpt Hts) as (s' & -> & Had & Hx & Hy). exists s'. split_and!; try done.
    unfold prio. by rewrite Hx. }
  destruct Hpush as (s1 & -> & Had1 & Hph1 & Hy1). cbn [mbind option_bind].
  destruct (adjusted_setpriority s1 A h (prio (kn s) r)) as (k' & A' & -> & Had2 & Hst & Hpx & _ & Hy2);
    [apply (ad_ok _ _ _ _ Had1)|done|apply (ad_prios _ _ _ _ Had1)|done|rewrite (st_base _ _ (ad_task _ _ _ _ Had1 h)); lia|].
  cbn [mbind option_bind]. exists (set_kn k' s1), A'. split; [done|].
  assert (Hne : forall y, y <> h -> prio k' y = prio (kn s) y /\ npend_reprio (tcbs k' y) = npend_reprio (tcbs (kn s) y)).
  { intros y Hne. destruct (Hy2 y Hne) as [-> ->]. unfold prio. by rewrite Hy1. }
  split; [|simpl; by apply Hne]. split_and!; [by eapply adjusted_trans| |simpl; lia| |done].
  - apply Hst; [by rewrite <- Er|]. rewrite (adjusted_lock _ _ _ _ _ Had1). done.
  - intros y. simpl. destruct (decide (y = h)) as [->|Hyh]; [lia|]. destruct (Hne y Hyh) as [-> _]. lia.
Qed.

(** ** All holders of a semaphore *)

(** A loop over the containers [l] whose handler keeps an invariant that may
    depend on the containers still to come. *)
Lemma foreach_from_spec (I : list Z -> sem_state -> Prop) handler fuel l s :
  (forall p l s, I (p :: l) s -> htcb (holders s p) <> 0 /\
     exists s', handler s p = Some (s', 0) /\ I l s' /\ holders s' = holders s) ->
  seg (fun p => h_flink (holders s p)) l 0 -> 0 ∉ l -> (length l < fuel)%nat -> I l s ->
  exists s', foreach_from fuel handler s (hd_or l 0) 0 = Some (s', 0) /\ I [] s'.
Proof.
  intros Hstep. revert l s. induction fuel as [|fuel IH]; intros l s Hs H0 Hf HI; [lia|]. destruct l as [|p l]; simpl in *; [by exists s|].
  destruct (Z.eqb_spec p 0) as [->|_]; [set_solver|]. cbn [orb negb]. destruct (Hstep p l s HI) as (Hh & s1 & Hrun & HI1 & Heq).
  destruct (Z.eqb_spec (htcb (holders s p)) 0) as [?|_]; [done|]. rewrite Hrun. cbn [mbind option_bind]. destruct Hs as [-> Hs].
  apply IH; [by rewrite Heq|set_solver|lia|done].
Qed.

Context (P : list Z).

Lemma foreachholder_spec (I : list Z -> sem_state -> Prop) handler s G sem :
  (forall p l s, I (p :: l) s -> htcb (holders s p) <> 0 /\
     exists s', handler s p = Some (s', 0) /\ I l s' /\ holders s' = holders s) ->
  hrep P s G -> I (G (Some sem)) s -> exists s', sem_foreachholder s sem handler = Some (s', 0) /\ I [] s'.
Proof.
  intros Hstep Hr HI. unfold sem_foreachholder. pose proof (hr_head _ _ _ Hr (Some sem)) as Hd. simpl in Hd. rewrite Hd.
  apply (foreach_from_spec I); [done|apply (hr_seg _ _ _ Hr)| |by eapply hr_short|done].
  intros H. by apply (hr_nonnull P s G (Some sem) 0).
Qed.

Lemma adjusted_holders s s' A A' : adjusted s s' A A' -> holders s' = holders s /\ sems s' = sems s /\ g_freeholders s' = g_freeholders s.
Proof. intros H. by rewrite (ad_rest _ _ _ _ H). Qed.

(** The state while the holders are boosted for the running task [r]: the
    containers [l] are still to come. *)
Record boosting (s0 : sem_state) (A0 : tasks) (G : hlists) (sem r : Z) (l : list Z) (s : sem_state) : Prop := {
  bo_lists : exists A, adjusted s0 s A0 A /\ running A = running A0;
  bo_nodup : NoDup l;
  bo_in p : p ∈ l -> p ∈ G (Some sem);
  bo_room p : p ∈ l -> npend_reprio (tcbs (kn s) (htcb (holders s p))) < CONFIG_SEM_NNESTPRIO;
  bo_done p : p ∈ G (Some sem) -> p ∉ l -> prio (kn s0) r <= prio (kn s) (htcb (holders s p));
  bo_up y : prio (kn s0) y <= prio (kn s) y;
  bo_prio : prio (kn s) r = prio (kn s0) r
}.

Lemma boosting_step s0 A0 G sem r p l s :
  all_listed T A0 -> hash_ok (kn s0) -> 0 < lock (kn s0) (running A0) -> r = running A0 -> user r ->
  hold_by user s0 G -> boosting s0 A0 G sem r (p :: l) s ->
  htcb (holders s p) <> 0 /\ exists s', sem_boostholderprio sem r s p = Some (s', 0) /\ boosting s0 A0 G sem r l s' /\ holders s' = holders s.
Proof.
  intros HA Hh Hl Er Hr Hb [(A & Had & Hrun) Hnd Hin Hroom Hdone Hup Hpr].
  pose proof (adjusted_listed _ _ _ _ Had HA) as HA'. destruct (adjusted_holders _ _ _ _ Had) as (Hho & _ & _).
  assert (Hu : user (htcb (holders s p))) by (rewrite Hho; apply (hb_task _ _ _ Hb sem), Hin; set_solver).
  split; [by apply (user_listed (kn s) A); [apply (ad_ok _ _ _ _ Had)|..]|].
  destruct (sem_boostholderprio_spec s A sem r p) as (s' & A' & Hs' & (Had' & Hrun' & Hge & Hmono & Hoth) & Hpr'); try done.
  - apply (ad_ok _ _ _ _ Had).
  - apply (ad_prios _ _ _ _ Had).
  - by apply (adjusted_hash _ _ _ _ Had).
  - by rewrite Hrun, (adjusted_lock _ _ _ _ _ Had).
  - congruence.
  - apply Hroom. set_solver.
  - exists s'. split; [done|]. destruct (adjusted_holders _ _ _ _ Had') as (Hho' & _ & _). split; [|done].
    apply NoDup_cons in Hnd as [Hpl Hnd]. constructor; try done.
    + exists A'. split; [by eapply adjusted_trans|congruence].
    + intros q Hq. apply Hin. set_solver.
    + intros q Hq. rewrite Hho'. destruct (Hoth (htcb (holders s q))) as [_ ->]; [|apply Hroom; set_solver].
      rewrite Hho. intros E. apply Hpl. rewrite <- (hb_once _ _ _ Hb sem q p); [done|apply Hin; set_solver..|done].
    + intros q Hq Hql. rewrite Hho'. destruct (decide (q = p)) as [->|Hne]; [lia|].
      specialize (Hmono (htcb (holders s q))). specialize (Hdone q Hq ltac:(set_solver)). lia.
    + intros y. specialize (Hmono y). specialize (Hup y). lia.
    + congruence.
Qed.

(** Every holder ends up at least at the priority of the running task. *)
Lemma sem_boostpriority_spec s A G sem :
  ok (kn s) A -> all_listed T A -> prios_ok (kn s) -> hash_ok (kn s) -> hrep P s G -> hold_by user s G ->
  0 < lock (kn s) (running A) -> user (running A) ->
  (forall p, p ∈ G (Some sem) -> npend_reprio (tcbs (kn s) (htcb (holders s p))) < CONFIG_SEM_NNESTPRIO) ->
  exists s' A', sem_boostpriority s sem = Some s' /\ adjusted s s' A A' /\ running A' = running A /\
    (forall p, p ∈ G (Some sem) -> prio (kn s) (running A) <= prio (kn s') (htcb (holders s p))) /\
    (forall y, prio (kn s) y <= prio (kn s') y).
Proof.
  intros Hok HA Hp Hh Hr Hb Hl Hu Hroom. unfold sem_boostpriority. rewrite (rtr_head_running _ _ _ _ (ok_inv _ _ _ _ Hok)).
  destruct (foreachholder_spec (boosting s A G sem (running A)) (sem_boostholderprio sem (running A)) s G sem) as (s' & -> & Hbo).
  - intros p l s1 H1. by apply (boosting_step s A G).
  - done.
  - constructor; try done; [|apply (hr_nodup _ _ _ Hr)]. exists A. split; [by apply adjusted_refl|done].
  - destruct Hbo as [(A' & Had & Hrun) _ _ _ Hdone Hup _]. exists s', A'. split; [done|]. split_and!; try done.
    intros p Hp'. destruct (adjusted_holders _ _ _ _ Had) as (Hho & _ & _). rewrite <- Hho. apply Hdone; [done|set_solver].
Qed.

(** ** Restoring one holder *)

Lemma sem_restoreholderprio_end_spec s A h :
  ok (kn s) A -> prios_ok (kn s) -> user h -> h <> 0 ->
  exists s', sem_restoreholderprio_end s (RestReprioritize h (base_priority (tcbs (kn s) h))) = Some s' /\ adjusted s s' A A.
Proof.
  intros Hok Hp Hu Hh0. destruct (Hp h Hu) as [Hb Hpr Hn Hpe]. simpl. unfold upd_task. krun. rewrite u8_small by lia.
  set (t' := set_npend_reprio 0 (set_base_priority (base_priority (tcbs (kn s) h)) (tcbs (kn s) h))).
  destruct (adjusted_put s A h t' Hok Hp Hh0) as (s' & Hrun & Had & Hx & Hy); [| |done|done|].
  - constructor; simpl; try done. intros i Hi. lia.
  - done.
  - exists (set_kn (put_tcb h (set_npend_reprio 0) (put_tcb h (set_base_priority (base_priority (tcbs (kn s) h))) (kn s))) s).
    split; [done|]. unfold upd_task in Hrun. rewrite upd_tcb_ok in Hrun by done. injection Hrun as <-.
    destruct Had as [Ho Hm _ Hi He Hha Ht Hpp].
    assert (Htc : forall y, tcbs (put_tcb h (set_npend_reprio 0) (put_tcb h (set_base_priority (base_priority (tcbs (kn s) h))) (kn s))) y
      = tcbs (put_tcb h (fun _ => t') (kn s)) y).
    { intros y. destruct (decide (y = h)) as [->|]; [by rewrite !put_tcb_eq|by rewrite !put_tcb_ne]. }
    constructor; try done.
    + destruct Ho as [Hoi Hoc Hop]. constructor; [apply (inv_ext T idle (put_tcb h (fun _ => t') (kn s))); try done|done|].
      unfold lock in *. simpl kn in *. rewrite Htc. exact Hop.
    + intros y. simpl kn in *. rewrite Htc. apply Ht.
    + intros y Huy. simpl kn in *. rewrite Htc. by apply Hpp.
Qed.

Lemma adjusted_remove s A h j :
  ok (kn s) A -> prios_ok (kn s) -> user h -> h <> 0 -> 0 <= j < npend_reprio (tcbs (kn s) h) ->
  exists s1, upd_task s h (remove_pend j) = Some s1 /\ adjusted s s1 A A.
Proof.
  intros Hok Hp Hu Hh0 Hj. destruct (remove_pend_ok j (tcbs (kn s) h)) as (Hr1 & Hr2 & Hr3 & Hr4); [by apply Hp|done|].
  destruct (adjusted_put s A h (remove_pend j (tcbs (kn s) h)) Hok Hp Hh0 Hr1 Hr2 Hr3 Hr4) as (s1 & Hrun & Had & _).
  exists s1. split; [|done]. rewrite <- Hrun. unfold upd_task. by krun.
Qed.

Lemma sem_restoreholderprio_begin_spec s A sem stcb p :
  ok (kn s) A -> all_listed T A -> prios_ok (kn s) -> hash_ok (kn s) -> user (htcb (holders s p)) -> stcb <> 0 ->
  exists s' A' r, sem_restoreholderprio_begin sem stcb s p = Some (s', r) /\ adjusted s s' A A' /\
    stays (kn s) A (htcb (holders s p)) A' /\
    (r = RestNone \/ r = RestReprioritize (htcb (holders s p)) (base_priority (tcbs (kn s') (htcb (holders s p))))).
Proof.
  intros Hok HA Hp Hh Hu Hst0. set (h := htcb (holders s p)) in *. unfold sem_restoreholderprio_begin. fold h.
  rewrite (verify_user (kn s) A) by done. cbn [mbind option_bind negb]. destruct (user_listed _ _ _ Hok HA Hu) as [_ Hh0]. krun.
  pose proof (Hp h Hu) as [Hb Hpr Hn Hpe].
  assert (Hid : exists s' A' r, Some (s, RestNone) = Some (s', r) /\ adjusted s s' A A' /\ stays (kn s) A h A' /\
    (r = RestNone \/ r = RestReprioritize h (base_priority (tcbs (kn s') h)))).
  { exists s, A, RestNone. split; [done|]. split; [by apply adjusted_refl|]. split; [by intros ? _|by left]. }
  destruct (negb _); [|done]. destruct (Z.ltb_spec (npend_reprio (tcbs (kn s) h)) 1) as [Hn1|Hn1].
  - rewrite assert_true by (apply Z.eqb_eq; lia). cbn [mbind option_bind].
    destruct (adjusted_setpriority s A h (base_priority (tcbs (kn s) h)) Hok HA Hp Hu) as (k' & A' & -> & Had & Hsty & _); [lia|].
    cbn [mbind option_bind]. eexists _, A', _. split; [done|]. split; [done|]. split; [done|]. right. simpl.
    f_equal. symmetry. exact (st_base _ _ (ad_task _ _ _ _ Had h)).
  - destruct (_ <=? _).
    + pose proof (highest_pend_range (Z.to_nat (npend_reprio (tcbs (kn s) h) - 1)) (pend_reprios (tcbs (kn s) h)) 1 0) as Hj.
      set (j := highest_pend _ _ _ _) in *. assert (Hjr : 0 <= j < npend_reprio (tcbs (kn s) h)) by lia. clear Hj.
      destruct (adjusted_remove s A h j Hok Hp Hu Hh0 Hjr) as (s1 & -> & Had). cbn [mbind option_bind].
      destruct (adjusted_setpriority s1 A h (pend_reprios (tcbs (kn s) h) j)) as (k' & A' & -> & Had' & Hsty & _);
        [apply (ad_ok _ _ _ _ Had)|done|apply (ad_prios _ _ _ _ Had)|done|rewrite (st_base _ _ (ad_task _ _ _ _ Had h)); by apply Hpe|].
      cbn [mbind option_bind]. eexists _, A', _. split; [done|]. split; [by eapply adjusted_trans|]. split; [|by left].
      intros Hne Hlo. apply Hsty; [done|]. by rewrite (adjusted_lock _ _ _ _ _ Had).
    + destruct (find_pend _ _ _ _) as [i|] eqn:Ef; [|done]. apply find_pend_range in Ef.
      destruct (adjusted_remove s A h i Hok Hp Hu Hh0) as (s1 & -> & Had); [lia|]. cbn [mbind option_bind]. exists s1, A, RestNone. split; [done|]. split; [done|]. split; [by intros ? _|by left].
Qed.

Lemma sem_restoreholderprio_spec s A sem stcb p :
  ok (kn s) A -> all_listed T A -> prios_ok (kn s) -> hash_ok (kn s) -> user (htcb (holders s p)) -> stcb <> 0 ->
  exists s' A', sem_restoreholderprio sem stcb s p = Some (s', 0) /\ adjusted s s' A A' /\
    stays (kn s) A (htcb (holders s p)) A'.
Proof.
  intros Hok HA Hp Hh Hu Hst0. unfold sem_restoreholderprio.
  destruct (sem_restoreholderprio_begin_spec s A sem stcb p Hok HA Hp Hh Hu Hst0) as (s1 & A1 & r & -> & Had & Hsty & Hr).
  cbn [mbind option_bind]. destruct Hr as [->| ->]; [by exists s1, A1|].
  destruct (user_listed _ _ _ Hok HA Hu) as [_ Hh0].
  destruct (sem_restoreholderprio_end_spec s1 A1 (htcb (holders s p))) as (s2 & -> & Had2);
    [apply (ad_ok _ _ _ _ Had)|apply (ad_prios _ _ _ _ Had)|done|done|].
  exists s2, A1. split; [done|]. split; [by eapply adjusted_trans|done].
Qed.

(** ** Restoring all holders *)

(** The states of a pass over the holders; [A0] to [A] with the same running
    task when [keep]. *)
Definition restoring (s0 : sem_state) (A0 : tasks) (G : hlists) (sem : Z) (keep : bool) (l : list Z) (s : sem_state) : Prop :=
  (forall p, p ∈ l -> p ∈ G (Some sem)) /\
  exists A, adjusted s0 s A0 A /\ (keep = true -> running A = running A0).

Lemma restoring_step s0 A0 G sem keep handler p l s :
  all_listed T A0 -> hash_ok (kn s0) -> hold_by user s0 G ->
  (forall s A, ok (kn s) A -> all_listed T A -> prios_ok (kn s) -> hash_ok (kn s) -> user (htcb (holders s p)) ->
     (keep = true -> 0 < lock (kn s) (running A)) ->
     exists s' A', handler s p = Some (s', 0) /\ adjusted s s' A A' /\ (keep = true -> running A' = running A)) ->
  (keep = true -> 0 < lock (kn s0) (running A0)) ->
  restoring s0 A0 G sem keep (p :: l) s ->
  htcb (holders s p) <> 0 /\ exists s', handler s p = Some (s', 0) /\ restoring s0 A0 G sem keep l s' /\ holders s' = holders s.
Proof.
  intros HA Hh Hb Hhand Hl [Hin (A & Had & Hrun)]. destruct (adjusted_holders _ _ _ _ Had) as (Hho & _ & _).
  pose proof (adjusted_listed _ _ _ _ Had HA) as HA'. pose proof (ad_ok _ _ _ _ Had) as Hok'.
  assert (Hu : user (htcb (holders s p))) by (rewrite Hho; apply (hb_task _ _ _ Hb sem), Hin; set_solver).
  split; [by apply (user_listed (kn s) A)|].
  destruct (Hhand s A) as (s' & A' & Hs' & Had' & Hrun'); try done; [apply (ad_prios _ _ _ _ Had)|by apply (adjusted_hash _ _ _ _ Had)| |].
  { intros Hk. rewrite (Hrun Hk), (adjusted_lock _ _ _ _ _ Had). by apply Hl. }
  exists s'. split; [done|]. split; [|apply (adjusted_holders _ _ _ _ Had')]. split; [intros q Hq; apply Hin; set_solver|].
  exists A'. split; [by eapply adjusted_trans|]. intros Hk. by rewrite Hrun', Hrun.
Qed.

(** From an interrupt handler, and when a wait is cancelled. *)
Lemma foreach_restore_spec s A G sem stcb :
  ok (kn s) A -> all_listed T A -> prios_ok (kn s) -> hash_ok (kn s) -> hrep P s G -> hold_by user s G -> stcb <> 0 ->
  exists s' A', sem_foreachholder s sem (sem_restoreholderprio sem stcb) = Some (s', 0) /\ adjusted s s' A A'.
Proof.
  intros Hok HA Hp Hh Hr Hb H0.
  destruct (foreachholder_spec (restoring s A G sem false) (sem_restoreholderprio sem stcb) s G sem) as (s' & -> & _ & A' & Had & _).
  - intros p l s1 H1. apply (restoring_step s A G sem false); try done. intros s2 A2 ? ? ? ? ? _.
    destruct (sem_restoreholderprio_spec s2 A2 sem stcb p) as (s' & A' & -> & ? & _); try done. by exists s', A'.
  - done.
  - split; [done|]. exists A. split; [by apply adjusted_refl|done].
  - by exists s', A'.
Qed.

(** The first pass at task level: all holders but the running task. *)
Lemma foreach_restoreA_spec s A G sem stcb :
  ok (kn s) A -> all_listed T A -> prios_ok (kn s) -> hash_ok (kn s) -> hrep P s G -> hold_by user s G -> stcb <> 0 ->
  0 < lock (kn s) (running A) ->
  exists s' A', sem_foreachholder s sem (sem_restoreholderprioA sem stcb) = Some (s', 0) /\ adjusted s s' A A' /\ running A' = running A.
Proof.
  intros Hok HA Hp Hh Hr Hb H0 Hl.
  destruct (foreachholder_spec (restoring s A G sem true) (sem_restoreholderprioA sem stcb) s G sem) as (s' & -> & _ & A' & Had & Hrun).
  - intros p l s1 H1. apply (restoring_step s A G sem true); try done. intros s2 A2 Hok2 ? ? ? ? Hl2.
    unfold sem_restoreholderprioA. rewrite (rtr_head_running _ _ _ _ (ok_inv _ _ _ _ Hok2)).
    destruct (Z.eqb_spec (htcb (holders s2 p)) (running A2)) as [E|Hne].
    + exists s2, A2. split; [done|]. split; [by apply adjusted_refl|done].
    + destruct (sem_restoreholderprio_spec s2 A2 sem stcb p) as (s' & A' & -> & Had & Hsty); try done. exists s', A'. split; [done|].
      split; [done|]. intros _. by apply Hsty, Hl2.
  - done.
  - split; [done|]. exists A. split; [by apply adjusted_refl|done].
  - exists s', A'. split; [done|]. split; [done|by apply Hrun].
Qed.

(** The second pass: the running task, if it is a holder. *)
Lemma restoreB_spec s A G sem stcb :
  ok (kn s) A -> all_listed T A -> prios_ok (kn s) -> hash_ok (kn s) -> hrep P s G -> hold_by user s G -> stcb <> 0 ->
  exists s' A' r, restoreB_from holder_fuel sem stcb s (hhead (sems s sem)) = Some (s', r) /\ adjusted s s' A A' /\
    (r = RestNone \/ (user (running A) /\ r = RestReprioritize (running A) (base_priority (tcbs (kn s') (running A))))).
Proof.
  intros Hok HA Hp Hh Hr Hb H0. pose proof (hr_head _ _ _ Hr (Some sem)) as Hd. simpl in Hd. rewrite Hd.
  pose proof (hr_seg _ _ _ Hr (Some sem)) as Hs. pose proof (hr_short P s G (Some sem) Hr) as Hlen.
  assert (Hn0 : 0 ∉ G (Some sem)) by (intros H; by apply (hr_nonnull P s G (Some sem) 0)).
  assert (Hin : forall p, p ∈ G (Some sem) -> user (htcb (holders s p))) by apply (hb_task _ _ _ Hb).
  revert Hs Hlen Hn0 Hin. generalize (G (Some sem)) as l. generalize holder_fuel as fuel. clear Hd.
  induction fuel as [|fuel IH]; intros l Hs Hlen Hn0 Hin; [lia|]. simpl. destruct l as [|p l]; simpl in *.
  - exists s, A, RestNone. split; [done|]. split; [by apply adjusted_refl|by left].
  - destruct (Z.eqb_spec p 0) as [->|_]; [set_solver|]. pose proof (Hin p ltac:(set_solver)) as Hu.
    destruct (user_listed _ _ _ Hok HA Hu) as [_ Hh0]. destruct (Z.eqb_spec (htcb (holders s p)) 0) as [?|_]; [done|].
    rewrite (rtr_head_running _ _ _ _ (ok_inv _ _ _ _ Hok)). cbn [orb].
    destruct (Z.eqb_spec (htcb (holders s p)) (running A)) as [E|Hne]; cbn [negb].
    + destruct (sem_restoreholderprio_begin_spec s A sem stcb p Hok HA Hp Hh Hu H0) as (s' & A' & r & -> & Had & _ & Hrest).
      exists s', A', r. split; [done|]. split; [done|]. rewrite E in *. tauto.
    + destruct Hs as [-> Hs]. apply IH; [done|lia|set_solver|]. intros q Hq. apply Hin. set_solver.
Qed.

(** ** The end of a restoration *)

Lemma sem_restorebaseprio_end_free s G sem rtcb :
  hrep P s G -> hold_by user s G ->
  exists s' G', (pholder ← sem_findholder s sem rtcb;
      if negb (pholder =? 0) && (counts (holders s pholder) <=? 0) then sem_freeholder s sem pholder else Some s) = Some s' /\
    hrep P s' G' /\ hold_by user s' G' /\ hkeep s s'.
Proof.
  intros Hr Hb. destruct (sem_findholder_spec P s G sem rtcb Hr) as (p & -> & Hc). cbn [mbind option_bind].
  destruct Hc as [[Hp _]|[-> _]]; [|by exists s, G]. destruct (_ && _); [|by exists s, G].
  destruct (sem_freeholder_hold P user s G sem p Hr Hb Hp) as (s' & G' & -> & ? & ? & ? & _). by exists s', G'.
Qed.
End prio.
