(* ===== verification/SemOps.v ===== *)
(** * Semaphores: the parts of the operations

    [core] is the invariant of the scheduler, the holders and the priorities;
    [views] names what else the semaphore operations look at: the semaphore
    every task waits for, its error number, the counts and the base priorities.  Each part of an
    operation keeps the first and changes the second as stated. *)

From stdpp Require Import base tactics numbers sets list sorting.
From S2P Require Import Prelude Queue QueueProps Sched SchedProps SchedOps SchedKernel SchedPriority SchedTheorems.
From S2P Require Import Sem SemHolder SemPrio.

(** The fields of a task that scheduling leaves alone. *)
Record same_ident (t t' : tcb_s) : Prop := {
  id_pid : pid t' = pid t;
  id_prio : sched_priority t' = sched_priority t;
  id_npend : npend_reprio t' = npend_reprio t;
  id_pend : pend_reprios t' = pend_reprios t;
  id_base : base_priority t' = base_priority t;
  id_wait : waitsem t' = waitsem t;
  id_errno : pterrno t' = pterrno t
}.

Lemma same_ident_refl t : same_ident t t.
Proof. done. Qed.

Lemma same_ident_trans t1 t2 t3 : same_ident t1 t2 -> same_ident t2 t3 -> same_ident t1 t3.
Proof. intros [] []. constructor; congruence. Qed.

Lemma same_ident_prio_ok t t' : same_ident t t' -> prio_ok t -> prio_ok t'.
Proof. intros [? Hp Hn He Hb ? ?] []. constructor; rewrite ?Hp, ?Hn, ?He, ?Hb; done. Qed.

(** Scheduling between [k] and [k']. *)
Record scheduled (k k' : kernel) : Prop := {
  sc_irq : in_irq k' = in_irq k;
  sc_hash : g_pidhash k' = g_pidhash k;
  sc_task y : same_ident (tcbs k y) (tcbs k' y)
}.

Lemma scheduled_refl k : scheduled k k.
Proof. done. Qed.

Lemma scheduled_trans k1 k2 k3 : scheduled k1 k2 -> scheduled k2 k3 -> scheduled k1 k3.
Proof. intros [? ? H1] [? ? H2]. constructor; [congruence..|]. intros y. by eapply same_ident_trans. Qed.

Lemma others_scheduled k k' x :
  others k k' [x] -> same_ident (tcbs k x) (tcbs k' x) -> scheduled k k'.
Proof.
  intros (? & _ & ? & Ho) Hx. constructor; [done..|]. intros y. destruct (decide (y = x)) as [->|Hne]; [done|].
  rewrite (Ho y) by set_solver. done.
Qed.

Lemma sliced_scheduled k k' : sliced k k' -> scheduled k k'.
Proof. intros (? & ? & Hs). constructor; [done..|]. intros y. destruct (Hs y) as [v ->]. done. Qed.

Section parts.
Context (T : list Z) (idle : Z) (P : list Z) (B : Z -> Z).
Abbreviation ok := (sched_ok T idle).
Abbreviation user := (user T idle).

(** The semaphores the tasks wait for, their error numbers, the counts, and
    the base priorities, which never change. *)
Record views (s : sem_state) (W E C : Z -> Z) : Prop := {
  vw_wait y : waitsem (tcbs (kn s) y) = W y;
  vw_errno y : pterrno (tcbs (kn s) y) = E y;
  vw_count t : count_of s t = C t;
  vw_base y : base_priority (tcbs (kn s) y) = B y
}.

Record core (s : sem_state) (A : tasks) (G : hlists) : Prop := {
  co_ok : ok (kn s) A;
  co_listed : all_listed T A;
  co_prios : prios_ok T idle (kn s);
  co_hash : hash_ok T idle (kn s);
  co_rep : hrep P s G;
  co_hold : hold_by user s G
}.

Lemma core_running s A G : core s A G -> rtr_head (kn s) = running A /\ running A ∈ A g_readytorun /\ running A ∈ T /\ running A <> 0.
Proof.
  intros Hc. pose proof (ok_inv _ _ _ _ (co_ok _ _ _ Hc)) as Hi. destruct (running_in _ _ _ _ Hi) as [Hin H0].
  split; [by apply (rtr_head_running T idle)|]. split; [done|]. split; [by apply (si_tasks _ _ _ _ Hi g_readytorun)|done].
Qed.

(** ** The scheduler's operations *)

Lemma core_scheduled s A G k' A' W E C :
  core s A G -> views s W E C -> scheduled (kn s) k' -> ok k' A' -> all_listed T A' ->
  core (set_kn k' s) A' G /\ views (set_kn k' s) W E C.
Proof.
  intros [Ho Hl Hp Hh Hr Hb] [Vw Ve Vc Vb] [Hirq Hha Ht] Hok HA. split; constructor; try done; simpl.
  - intros x Hx. eapply same_ident_prio_ok; [apply Ht|by apply Hp].
  - intros x Hx. rewrite Hha, (id_pid _ _ (Ht x)). by apply Hh.
  - by apply (hrep_ext P s).
  - by apply (hold_by_ext _ s).
  - intros y. by rewrite (id_wait _ _ (Ht y)).
  - intros y. by rewrite (id_errno _ _ (Ht y)).
  - intros y. by rewrite (id_base _ _ (Ht y)).
Qed.

Lemma sched_lock_core s A G W E C :
  core s A G -> views s W E C -> in_irq (kn s) = false -> lock (kn s) (running A) < MAX_LOCK_COUNT ->
  exists k', sched_lock (kn s) = Some k' /\ core (set_kn k' s) A G /\ views (set_kn k' s) W E C /\
    scheduled (kn s) k' /\ 0 < lock k' (running A).
Proof.
  intros Hc Hv Hirq Hl. destruct (sched_lock_spec T idle _ _ (co_ok _ _ _ Hc) Hirq Hl) as (k' & -> & Hok & Hlk & Hk').
  assert (Hs : scheduled (kn s) k').
  { subst k'. apply (others_scheduled _ _ (running A)); [apply others_put; set_solver|]. by rewrite put_tcb_eq. }
  exists k'. split; [done|]. destruct (core_scheduled s A G k' A W E C) as [? ?]; try done; [apply (co_listed _ _ _ Hc)|].
  pose proof (si_lock _ _ _ _ (ok_inv _ _ _ _ (co_ok _ _ _ Hc)) (running A)). split_and!; try done. lia.
Qed.

Lemma sched_lock_irq k : in_irq k = true -> sched_lock k = Some k /\ sched_unlock k = Some k.
Proof. intros H. unfold sched_lock, sched_unlock. by rewrite H, andb_false_r. Qed.

Lemma sched_unlock_core s A G W E C :
  core s A G -> views s W E C -> in_irq (kn s) = false ->
  exists k' A', sched_unlock (kn s) = Some k' /\ core (set_kn k' s) A' G /\ views (set_kn k' s) W E C /\
    scheduled (kn s) k' /\ same_members A A'.
Proof.
  intros Hc Hv Hirq. pose proof (co_ok _ _ _ Hc) as Hok. pose proof (co_listed _ _ _ Hc) as HA.
  assert (Hx : forall k' n, others (kn s) k' [running A] -> relocked (kn s) k' (running A) n -> scheduled (kn s) k').
  { intros k' n Ho Hr. apply (others_scheduled _ _ (running A)); [done|]. rewrite Hr. done. }
  destruct (decide (lock (kn s) (running A) <= 1)) as [Hl|Hl].
  - destruct (sched_unlock_release T idle _ _ Hok Hirq Hl) as (k' & -> & Hok' & Ho & Hr). pose proof (Hx _ _ Ho Hr) as Hs.
    exists k', (merge_all (kn s) A). split; [done|].
    destruct (core_scheduled s A G k' (merge_all (kn s) A) W E C) as [? ?]; try done; [by apply listed_merge|].
    split_and!; try done. split; [intros y; apply merge_all_runnable|]. intros tl y ? ?. by rewrite merge_all_other.
  - destruct (sched_unlock_nested T idle _ _ Hok Hirq) as (k' & -> & Hok' & Ho & Hr); [lia|]. pose proof (Hx _ _ Ho Hr) as Hs.
    exists k', A. split; [done|]. destruct (core_scheduled s A G k' A W E C) as [? ?]; try done.
Qed.

(** The running task gives up the processor to wait for a semaphore. *)
Lemma block_core s A G W E C :
  core s A G -> views s W E C -> running A <> idle ->
  exists k' A', up_block_task (kn s) (running A) TSTATE_WAIT_SEM = Some k' /\ core (set_kn k' s) A' G /\
    views (set_kn k' s) W E C /\ scheduled (kn s) k' /\
    (forall y, y ∈ A' g_waitingforsemaphore <-> y = running A \/ y ∈ A g_waitingforsemaphore).
Proof.
  intros Hc Hv Hid. pose proof (co_ok _ _ _ Hc) as Hok. destruct (core_running _ _ _ Hc) as (_ & Hin & _ & _).
  destruct (A g_readytorun) as [|r l2] eqn:Htl; [by apply elem_of_nil in Hin|].
  assert (Er : running A = r) by (unfold running; by rewrite Htl). rewrite Er in *.
  destruct (up_block_task_spec T idle (kn s) A TSTATE_WAIT_SEM g_waitingforsemaphore [] r l2 Hok Htl Hid eq_refl) as (k' & -> & Hok' & Ho).
  assert (Hs : scheduled (kn s) k').
  { destruct Ho as (? & _ & ? & Ho). constructor; [done..|]. intros y. rewrite (Ho y) by set_solver. done. }
  eexists k', _. split; [done|]. destruct (core_scheduled s A G k' _ W E C Hc Hv Hs Hok') as [? ?].
  { apply listed_merge, listed_add_blocked. apply (listed_removed T A g_readytorun [] r l2 Htl (co_listed _ _ _ Hc)). }
  split_and!; try done. intros y. unfold block_tasks. rewrite merge_all_other by done. unfold add_blocked. rewrite set_tasks_eq. simpl.
  rewrite prio_insert_in, set_tasks_ne by done. done.
Qed.

(** A task that waits for a semaphore becomes ready to run. *)
Lemma unblock_core s A G x W E C :
  core s A G -> views s W E C -> x ∈ A g_waitingforsemaphore -> x <> idle ->
  exists k' A', up_unblock_task (kn s) x = Some k' /\ core (set_kn k' s) A' G /\
    views (set_kn k' s) W E C /\ scheduled (kn s) k' /\ lock k' (running A) = lock (kn s) (running A) /\
    (0 < lock (kn s) (running A) -> running A' = running A) /\
    (forall y, y ∈ A' g_waitingforsemaphore <-> y <> x /\ y ∈ A g_waitingforsemaphore) /\ is_runnable (state k' x) = true.
Proof.
  intros Hc Hv Hx Hid. pose proof (co_ok _ _ _ Hc) as Hok. pose proof (ok_inv _ _ _ _ Hok) as Hi.
  pose proof (kr_list _ _ (si_rep _ _ _ _ Hi) g_waitingforsemaphore) as Hq.
  pose proof (list_elem_of_split _ _ Hx) as (l1 & l2 & Htl).
  destruct (up_unblock_task_spec T idle (kn s) A TSTATE_WAIT_SEM g_waitingforsemaphore l1 x l2 Hok eq_refl Htl Hid) as (k' & -> & Hok' & Ho & Hxt).
  assert (Hs : scheduled (kn s) k') by (apply (others_scheduled _ _ x); [done|by rewrite Hxt]).
  eexists k', _. split; [done|]. destruct (core_scheduled s A G k' _ W E C Hc Hv Hs Hok') as [Hc' ?].
  { apply listed_add_ready. apply (listed_removed T A g_waitingforsemaphore l1 x l2 Htl (co_listed _ _ _ Hc)). }
  assert (Hrx : running A <> x).
  { intros E'. destruct (running_in _ _ _ _ Hi) as [Hin _]. rewrite E' in Hin. discriminate (kr_once _ _ (si_rep _ _ _ _ Hi) _ _ x Hin Hx). }
  split_and!; try done.
  - unfold lock. destruct Ho as (_ & _ & _ & Ho). rewrite (Ho (running A)) by set_solver. done.
  - intros Hl. unfold unblock_tasks, add_ready, ready_list. destruct (decide (preempts _ _ _)) as [|Hn]; [by rewrite !running_set_ne|].
    rewrite running_set, hd_prio_insert, set_tasks_ne by done. fold (running A). rewrite decide_False; [done|].
    intros Hhi. unfold preempts in Hn. rewrite running_set_ne in Hn by done. destruct Hn. split; [lia|].
    apply (higher_running T idle (kn s) A) in Hhi; done.
  - intros y. unfold unblock_tasks. rewrite add_ready_other, set_tasks_eq by done. rewrite Htl.
    pose proof (dq_nodup _ _ _ Hq) as Hnd. rewrite Htl in Hnd. apply NoDup_remove' in Hnd as [_ Hnx].
    destruct (decide (y = x)) as [->|]; set_solver.
  - assert (Hrn : runnable (unblock_tasks (kn s) A x g_waitingforsemaphore l1 l2) x) by (apply add_ready_runnable; by left).
    pose proof (si_state _ _ _ _ (ok_inv _ _ _ _ Hok')) as Hst.
    destruct Hrn as [Hr|Hr]; rewrite (Hst _ x Hr); simpl; [by destruct (decide _)|done].
Qed.

(** ** Fields of tasks *)

(** [f] changes at most the semaphore waited for and the error number. *)
Record wait_setter (f : tcb_s -> tcb_s) : Prop := {
  ws_prio_ok t : prio_ok t -> prio_ok (f t);
  ws_pid t : pid (f t) = pid t;
  ws_base t : base_priority (f t) = base_priority t;
  ws_prio t : sched_priority (f t) = sched_priority t;
  ws_state t : task_state (f t) = task_state t;
  ws_lock t : lockcount (f t) = lockcount t
}.

Lemma set_waitsem_setter w : wait_setter (set_waitsem w).
Proof. constructor; try done. intros t []. by constructor. Qed.

Lemma set_pterrno_setter e : wait_setter (set_pterrno e).
Proof. constructor; try done. intros t []. by constructor. Qed.

Lemma core_put s A G x f :
  core s A G -> wait_setter f -> core (set_kn (put_tcb x f (kn s)) s) A G.
Proof.
  intros [Ho Hl Hp Hh Hr Hb] [H1 H2 _ H3 H4 H5].
  assert (Hy : forall y, tcbs (put_tcb x f (kn s)) y = if decide (y = x) then f (tcbs (kn s) x) else tcbs (kn s) y).
  { intros y. destruct (decide (y = x)) as [->|]; [by rewrite put_tcb_eq|by rewrite put_tcb_ne]. }
  constructor; try done; simpl kn.
  - by apply ok_put.
  - intros y Hu. rewrite Hy. destruct (decide (y = x)) as [->|]; [by apply H1, Hp|by apply Hp].
  - intros y Hu. rewrite Hy. destruct (decide (y = x)) as [->|]; [rewrite H2|]; by apply Hh.
  - by apply (hrep_ext P s).
  - by apply (hold_by_ext _ s).
Qed.

Lemma put_waitsem_core s A G x w W E C :
  core s A G -> views s W E C -> x <> 0 ->
  exists s', upd_task s x (set_waitsem w) = Some s' /\ s' = set_kn (put_tcb x (set_waitsem w) (kn s)) s /\
    core s' A G /\ views s' (upd W x w) E C.
Proof.
  intros Hc [Vw Ve Vc Vb] Hx. unfold upd_task. rewrite upd_tcb_ok by done. eexists. split; [done|]. split; [done|].
  split; [by apply core_put, set_waitsem_setter|]. constructor; try done; intros y; simpl; unfold upd.
  - destruct (y =? x); [done|apply Vw].
  - destruct (Z.eqb_spec y x) as [->|]; apply Ve.
  - destruct (Z.eqb_spec y x) as [->|]; apply Vb.
Qed.

Lemma put_errno_core s A G x e W E C :
  core s A G -> views s W E C ->
  core (set_kn (put_tcb x (set_pterrno e) (kn s)) s) A G /\ views (set_kn (put_tcb x (set_pterrno e) (kn s)) s) W (upd E x e) C.
Proof.
  intros Hc [Vw Ve Vc Vb]. split; [by apply core_put, set_pterrno_setter|]. constructor; try done; intros y; simpl; unfold upd.
  - destruct (Z.eqb_spec y x) as [->|]; apply Vw.
  - destruct (y =? x); [done|apply Ve].
  - destruct (Z.eqb_spec y x) as [->|]; apply Vb.
Qed.

Lemma running_state s A G : core s A G -> task_state (tcbs (kn s) (running A)) = TSTATE_TASK_RUNNING.
Proof.
  intros Hc. destruct (core_running _ _ _ Hc) as (_ & Hin & _).
  change (state (kn s) (running A) = TSTATE_TASK_RUNNING). rewrite (si_state _ _ _ _ (ok_inv _ _ _ _ (co_ok _ _ _ Hc)) _ _ Hin). simpl. by rewrite decide_True.
Qed.

Lemma errno_ptr s A G : core s A G -> in_irq (kn s) = false -> get_errno_ptr (kn s) = Some (running A).
Proof.
  intros Hc Hirq. destruct (core_running _ _ _ Hc) as (Hh & _ & _ & H0). unfold get_errno_ptr. rewrite Hh, Hirq.
  destruct (Z.eqb_spec (running A) 0); [done|]. by rewrite (running_state _ _ _ Hc), bool_decide_eq_true_2.
Qed.

Lemma with_errno_eq s A G e :
  core s A G -> in_irq (kn s) = false -> with_errno s e = set_kn (put_tcb (running A) (set_pterrno e) (kn s)) s.
Proof. intros Hc Hirq. unfold with_errno, set_errno. by rewrite (errno_ptr s A G). Qed.

(** ** Counts and holders *)

Lemma set_semcount_core s A G sem v W E C :
  core s A G -> views s W E C -> core (set_semcount sem v s) A G /\ views (set_semcount sem v s) W E (upd C sem v).
Proof.
  intros [Ho Hl Hp Hh Hr Hb] [Vw Ve Vc Vb]. split; constructor; try done.
  - apply (hrep_ext P s); try done. intros [t|]; [|done]. simpl. destruct (decide (t = sem)) as [->|]; [by rewrite upd_eq|by rewrite upd_ne].
  - by apply (hold_by_ext _ s).
  - intros t. unfold count_of. simpl. unfold upd. destruct (t =? sem); [done|apply Vc].
Qed.

Lemma hkeep_core s s' A G G' W E C :
  core s A G -> views s W E C -> hkeep s s' -> hrep P s' G' -> hold_by user s' G' -> core s' A G' /\ views s' W E C.
Proof.
  intros [Ho Hl Hp Hh _ _] [Vw Ve Vc Vb] [Hk Hcn] Hr Hb. split; constructor; rewrite ?Hk; try done. intros t. by rewrite Hcn.
Qed.

Lemma addholder_core s A G sem x W E C :
  core s A G -> views s W E C -> user x ->
  exists s' G', sem_addholder_tcb s x sem = Some s' /\ kn s' = kn s /\ core s' A G' /\ views s' W E C.
Proof.
  intros Hc Hv Hu. destruct (sem_addholder_tcb_spec P user s G sem x (co_rep _ _ _ Hc) (co_hold _ _ _ Hc) Hu) as (s' & G' & -> & Hr & Hb & Hk & _).
  exists s', G'. split; [done|]. split; [apply Hk|]. by apply (hkeep_core s s' A G).
Qed.

Lemma adjusted_core s s' A A' G W E C :
  core s A G -> views s W E C -> adjusted T idle s s' A A' -> core s' A' G /\ views s' W E C.
Proof.
  intros [Ho Hl Hp Hh Hr Hb] [Vw Ve Vc Vb] Had. destruct (adjusted_holders _ _ _ _ _ _ Had) as (Hho & Hse & Hfr).
  split; constructor.
  - apply (ad_ok _ _ _ _ _ _ Had).
  - by eapply adjusted_listed.
  - apply (ad_prios _ _ _ _ _ _ Had).
  - by eapply adjusted_hash.
  - apply (hrep_ext P s); [|by rewrite Hho|done]. intros [t|]; simpl; congruence.
  - apply (hold_by_ext _ s); [|done]. by rewrite Hho.
  - intros y. by rewrite (st_wait _ _ (ad_task _ _ _ _ _ _ Had y)).
  - intros y. by rewrite (st_errno _ _ (ad_task _ _ _ _ _ _ Had y)).
  - intros t. unfold count_of. rewrite Hse. apply Vc.
  - intros y. by rewrite (st_base _ _ (ad_task _ _ _ _ _ _ Had y)).
Qed.

(** The semaphore is available. *)
Lemma sem_take_core s A G sem W E C :
  core s A G -> views s W E C -> user (running A) ->
  exists s' G', sem_take s sem = Some s' /\ in_irq (kn s') = in_irq (kn s) /\ core s' A G' /\
    views s' (upd W (running A) 0) E (upd C sem (i16 (C sem - 1))).
Proof.
  intros Hc Hv Hu. destruct (core_running _ _ _ Hc) as (Hh & _ & _ & H0). unfold sem_take, sem_addholder. rewrite (vw_count _ _ _ _ Hv), Hh.
  destruct (set_semcount_core s A G sem (i16 (C sem - 1)) W E C Hc Hv) as [Hc1 Hv1]. set (s1 := set_semcount _ _ _) in *.
  destruct (addholder_core s1 A G sem (running A) _ _ _ Hc1 Hv1 Hu) as (s2 & G2 & Hrun & Hk & Hc2 & Hv2).
  change (kn s1) with (kn s) in *. rewrite Hh, Hrun. cbn [mbind option_bind].
  destruct (put_waitsem_core s2 A G2 (running A) 0 _ _ _ Hc2 Hv2 H0) as (s3 & -> & -> & Hc3 & Hv3).
  eexists _, G2. split; [done|]. split; [simpl; by rewrite Hk|done].
Qed.
End parts.
