(* ===== verification/SemCalls.v ===== *)
(** * Semaphores: the calls

    Every call of the semaphore interface returns or gives up the processor,
    keeps [core], and changes [views] as a counting semaphore does. *)

From stdpp Require Import base tactics numbers sets list sorting.
From S2P Require Import Prelude Queue QueueProps Sched SchedProps SchedOps SchedKernel SchedPriority SchedTheorems.
From S2P Require Import Sem SemHolder SemPrio SemOps.

(** The first task of the list that waits for [sem], or 0. *)
Fixpoint first_waiter (W : Z -> Z) (sem : Z) (l : list Z) : Z :=
  match l with
  | [] => 0
  | x :: l => if W x =? sem then x else first_waiter W sem l
  end.

Lemma first_waiter_in W sem l : first_waiter W sem l <> 0 -> first_waiter W sem l ∈ l /\ W (first_waiter W sem l) = sem.
Proof.
  induction l as [|x l IH]; simpl; [done|]. destruct (Z.eqb_spec (W x) sem) as [E|E]; [intros _; split; [set_solver|done]|].
  intros H. destruct (IH H). split; [set_solver|done].
Qed.

Lemma first_waiter_some W sem l x : x ∈ l -> 0 ∉ l -> W x = sem -> first_waiter W sem l <> 0.
Proof.
  intros Hx H0 Hw. induction l as [|y l IH]; [by apply elem_of_nil in Hx|]. simpl. destruct (Z.eqb_spec (W y) sem); [set_solver|].
  apply IH; [|set_solver]. apply elem_of_cons in Hx as [->|Hx]; done.
Qed.

(** ... the one of highest priority, and the oldest of those. *)
Lemma first_waiter_best k W sem l y :
  sorted k l -> y ∈ l -> W y = sem -> 0 ∉ l -> prio k y <= prio k (first_waiter W sem l).
Proof.
  intros Hs Hy Hw H0. induction l as [|x l IH]; [by apply elem_of_nil in Hy|]. simpl. apply sorted_cons in Hs as [Hs Hx].
  destruct (Z.eqb_spec (W x) sem) as [E|E].
  - apply elem_of_cons in Hy as [->|Hy]; [lia|by apply Hx].
  - apply elem_of_cons in Hy as [->|Hy]; [done|]. apply IH; [done|done|set_solver].
Qed.

Lemma find_waiter_spec B s W E C sem fuel l :
  views B s W E C -> seg (flink (lk (kn s))) l 0 -> 0 ∉ l -> (length l < fuel)%nat ->
  find_waiter fuel (kn s) sem (hd_or l 0) = Some (first_waiter W sem l).
Proof.
  intros Hv. revert l. induction fuel as [|fuel IH]; intros l Hs H0 Hf; [lia|]. simpl. destruct l as [|x l]; simpl in *; [done|].
  destruct (Z.eqb_spec x 0) as [->|_]; [set_solver|]. rewrite (vw_wait _ _ _ _ _ Hv). destruct (W x =? sem); [done|].
  destruct Hs as [-> Hs]. apply IH; [done|set_solver|lia].
Qed.

Section calls.
Context (T : list Z) (idle : Z) (P : list Z) (B : Z -> Z).
Abbreviation views := (views B).
Abbreviation ok := (sched_ok T idle).
Abbreviation user := (user T idle).
Abbreviation core := (core T idle P).

(** ** Waiting *)

(** The errors of the arguments, and the error number every wait starts with. *)
Lemma with_errno_core s A G e W E C :
  core s A G -> views s W E C -> in_irq (kn s) = false ->
  core (with_errno s e) A G /\ views (with_errno s e) W (upd E (running A) e) C /\
  in_irq (kn (with_errno s e)) = false /\ holders (with_errno s e) = holders s /\
  (forall y, prio (kn (with_errno s e)) y = prio (kn s) y /\ lock (kn (with_errno s e)) y = lock (kn s) y /\
     npend_reprio (tcbs (kn (with_errno s e)) y) = npend_reprio (tcbs (kn s) y)).
Proof.
  intros Hc Hv Hirq. rewrite (with_errno_eq T idle P s A G) by done.
  destruct (put_errno_core T idle P B s A G (running A) e W E C Hc Hv) as [? ?]. split_and!; try done.
  intros y. unfold prio, lock. simpl. unfold upd. destruct (Z.eqb_spec y (running A)) as [->|]; done.
Qed.

Lemma sem_wait_now s A G sem W E C :
  core s A G -> views s W E C -> in_irq (kn s) = false -> user (running A) -> sem <> 0 -> 0 < C sem ->
  exists s' G', sem_wait s sem = Some (s', Returned OK) /\ in_irq (kn s') = false /\ core s' A G' /\
    views s' (upd W (running A) 0) (upd E (running A) EINVAL) (upd C sem (i16 (C sem - 1))).
Proof.
  intros Hc Hv Hirq Hu Hs0 Hpos. unfold sem_wait. rewrite Hirq. cbn [assert negb mbind option_bind].
  destruct (with_errno_core s A G EINVAL W E C Hc Hv Hirq) as (Hc1 & Hv1 & Hirq1 & _). set (s1 := with_errno s EINVAL) in *.
  destruct (Z.eqb_spec sem 0) as [?|_]; [done|]. rewrite (vw_count _ _ _ _ _ Hv1). destruct (Z.ltb_spec 0 (C sem)); [|lia].
  destruct (sem_take_core T idle P B s1 A G sem _ _ _ Hc1 Hv1 Hu) as (s2 & G2 & -> & Hirq2 & Hc2 & Hv2).
  exists s2, G2. split_and!; try done. congruence.
Qed.

Lemma sem_trywait_spec s A G sem W E C :
  core s A G -> views s W E C -> in_irq (kn s) = false -> user (running A) -> sem <> 0 -> W (running A) = 0 ->
  exists s' G', sem_trywait s sem = Some (s', if 0 <? C sem then OK else ERROR) /\ in_irq (kn s') = false /\ core s' A G' /\
    views s' (upd W (running A) 0) (upd (upd E (running A) EINVAL) (running A) EAGAIN)
      (if 0 <? C sem then upd C sem (i16 (C sem - 1)) else C).
Proof.
  intros Hc Hv Hirq Hu Hs0 Hw. unfold sem_trywait. rewrite Hirq. cbn [assert negb mbind option_bind].
  destruct (with_errno_core s A G EINVAL W E C Hc Hv Hirq) as (Hc1 & Hv1 & Hirq1 & _). set (s1 := with_errno s EINVAL) in *.
  destruct (Z.eqb_spec sem 0) as [?|_]; [done|].
  destruct (with_errno_core s1 A G EAGAIN _ _ _ Hc1 Hv1 Hirq1) as (Hc2 & Hv2 & Hirq2 & _). set (s2 := with_errno s1 EAGAIN) in *.
  rewrite (vw_count _ _ _ _ _ Hv2). destruct (Z.ltb_spec 0 (C sem)).
  - destruct (sem_take_core T idle P B s2 A G sem _ _ _ Hc2 Hv2 Hu) as (s3 & G3 & -> & Hirq3 & Hc3 & Hv3).
    exists s3, G3. split_and!; try done. congruence.
  - exists s2, G. split_and!; try done. destruct Hv2 as [Vw Ve Vc Vb]. constructor; try done. intros y. rewrite Vw. unfold upd.
    by destruct (Z.eqb_spec y (running A)) as [->|].
Qed.

(** What the two waiting calls have in common: the count goes down and the
    task notes the semaphore. *)
Lemma sem_wait_prepare s A G sem W E C :
  core s A G -> views s W E C -> in_irq (kn s) = false -> sem <> 0 -> W (running A) = 0 ->
  exists s1 s2,
    s1 = with_errno s EINVAL /\ get_tcb (kn s1) (running A) = Some (tcbs (kn s1) (running A)) /\
    waitsem (tcbs (kn s1) (running A)) = 0 /\ count_of s1 sem = C sem /\
    upd_task (set_semcount sem (i16 (C sem - 1)) s1) (running A) (set_waitsem sem) = Some s2 /\
    core s2 A G /\ in_irq (kn s2) = false /\ holders s2 = holders s /\
    views s2 (upd W (running A) sem) (upd E (running A) EINVAL) (upd C sem (i16 (C sem - 1))) /\
    (forall y, prio (kn s2) y = prio (kn s) y /\ lock (kn s2) y = lock (kn s) y /\
       npend_reprio (tcbs (kn s2) y) = npend_reprio (tcbs (kn s) y)).
Proof.
  intros Hc Hv Hirq Hs0 Hw. destruct (core_running _ _ _ _ _ _ Hc) as (_ & _ & _ & H0).
  destruct (with_errno_core s A G EINVAL W E C Hc Hv Hirq) as (Hc1 & Hv1 & Hirq1 & Hho & Hpr). set (s1 := with_errno s EINVAL) in *.
  destruct (set_semcount_core T idle P B s1 A G sem (i16 (C sem - 1)) _ _ _ Hc1 Hv1) as [Hc2 Hv2]. set (s2 := set_semcount _ _ _) in *.
  destruct (put_waitsem_core T idle P B s2 A G (running A) sem _ _ _ Hc2 Hv2 H0) as (s3 & Hrun & E3 & Hc3 & Hv3).
  exists s1, s3. split_and!; try done; [by apply get_tcb_ok|by rewrite (vw_wait _ _ _ _ _ Hv1)|by rewrite (vw_count _ _ _ _ _ Hv1)|by rewrite E3|by rewrite E3|].
  intros y. destruct (Hpr y) as (<- & <- & <-). rewrite E3. unfold prio, lock. simpl. unfold upd. by destruct (Z.eqb_spec y (running A)) as [->|].
Qed.

(** The last steps of a wait. *)
Lemma sem_wait_block s A G W E C :
  core s A G -> views s W E C -> in_irq (kn s) = false -> running A <> idle ->
  exists k' A', up_block_task (kn (with_errno s 0)) (running A) TSTATE_WAIT_SEM = Some k' /\
    core (set_kn k' (with_errno s 0)) A' G /\ views (set_kn k' (with_errno s 0)) W (upd E (running A) 0) C /\
    in_irq k' = false /\ holders (with_errno s 0) = holders s /\ (forall y, prio k' y = prio (kn s) y) /\
    (forall y, y ∈ A' g_waitingforsemaphore <-> y = running A \/ y ∈ A g_waitingforsemaphore).
Proof.
  intros Hc Hv Hirq Hid. destruct (with_errno_core s A G 0 W E C Hc Hv Hirq) as (Hc1 & Hv1 & Hirq1 & Hho & Hpr).
  set (s1 := with_errno s 0) in *. destruct (block_core T idle P B s1 A G _ _ _ Hc1 Hv1 Hid) as (k' & A' & Hrun & Hc2 & Hv2 & Hs & Hin).
  exists k', A'. split_and!; try done; [by rewrite (sc_irq _ _ Hs)|]. intros y. unfold prio. rewrite (id_prio _ _ (sc_task _ _ Hs y)). apply Hpr.
Qed.

(** The semaphore is not available: the holders are boosted, the task blocks. *)
Lemma sem_wait_blocks s A G sem W E C :
  core s A G -> views s W E C -> in_irq (kn s) = false -> user (running A) -> sem <> 0 -> C sem <= 0 -> W (running A) = 0 ->
  lock (kn s) (running A) < MAX_LOCK_COUNT ->
  (forall p, p ∈ G (Some sem) -> npend_reprio (tcbs (kn s) (htcb (holders s p))) < CONFIG_SEM_NNESTPRIO) ->
  exists s' A', sem_wait s sem = Some (s', Switched) /\ core s' A' G /\ in_irq (kn s') = false /\ holders s' = holders s /\
    views s' (upd W (running A) sem) (upd (upd E (running A) EINVAL) (running A) 0) (upd C sem (i16 (C sem - 1))) /\
    (forall y, y ∈ A' g_waitingforsemaphore <-> y = running A \/ y ∈ A g_waitingforsemaphore) /\
    (forall p, p ∈ G (Some sem) -> prio (kn s) (running A) <= prio (kn s') (htcb (holders s p))) /\
    (forall y, prio (kn s) y <= prio (kn s') y).
Proof.
  intros Hc Hv Hirq Hu Hs0 Hneg Hw Hl Hroom. destruct (core_running _ _ _ _ _ _ Hc) as (Hh & _ & _ & H0).
  destruct (sem_wait_prepare s A G sem W E C Hc Hv Hirq Hs0 Hw) as (s1 & s2 & -> & Hget & Hw1 & Hc1 & Hrun2 & Hc2 & Hirq2 & Hho2 & Hv2 & Hpr2).
  unfold sem_wait. rewrite Hirq, Hh. cbn [assert negb mbind option_bind]. destruct (Z.eqb_spec sem 0) as [?|_]; [done|].
  rewrite Hc1. destruct (Z.ltb_spec 0 (C sem)); [lia|]. rewrite Hget. cbn [mbind option_bind]. rewrite Hw1. cbn [Z.eqb assert mbind option_bind].
  rewrite Hrun2. cbn [mbind option_bind].
  destruct (sched_lock_core T idle P B s2 A G _ _ _ Hc2 Hv2 Hirq2) as (k3 & -> & Hc3 & Hv3 & Hs3 & Hl3); [by destruct (Hpr2 (running A)) as (_ & -> & _)|].
  cbn [mbind option_bind]. set (s3 := set_kn k3 s2) in *.
  destruct (sem_boostpriority_spec T idle P s3 A G sem) as (s4 & A4 & -> & Had4 & Hrun4 & Hge4 & Hup4);
    [apply (co_ok _ _ _ _ _ _ Hc3)|apply (co_listed _ _ _ _ _ _ Hc3)|apply (co_prios _ _ _ _ _ _ Hc3)|apply (co_hash _ _ _ _ _ _ Hc3)|
     apply (co_rep _ _ _ _ _ _ Hc3)|apply (co_hold _ _ _ _ _ _ Hc3)|done|done| |].
  { intros p Hp. simpl. rewrite (id_npend _ _ (sc_task _ _ Hs3 _)), Hho2. destruct (Hpr2 (htcb (holders s p))) as (_ & _ & ->). by apply Hroom. }
  cbn [mbind option_bind]. destruct (adjusted_core T idle P B s3 s4 A A4 G _ _ _ Hc3 Hv3 Had4) as [Hc4 Hv4].
  assert (Hirq4 : in_irq (kn s4) = false) by (rewrite (ad_irq _ _ _ _ _ _ Had4); simpl; by rewrite (sc_irq _ _ Hs3)).
  destruct (sem_wait_block s4 A4 G _ _ _ Hc4 Hv4 Hirq4) as (k5 & A5 & Hrun5 & Hc5 & Hv5 & Hirq5 & Hho5 & Hpr5 & Hin5); [rewrite Hrun4; apply Hu|].
  rewrite Hrun4 in *. rewrite Hrun5. cbn [mbind option_bind].
  assert (Hp3 : forall y, prio (kn s3) y = prio (kn s) y).
  { intros y. unfold prio. simpl. rewrite (id_prio _ _ (sc_task _ _ Hs3 _)). apply Hpr2. }
  exists (set_kn k5 (with_errno s4 0)), A5. split; [done|]. split; [done|]. split; [done|].
  split; [change (holders (with_errno s4 0) = holders s); rewrite Hho5; destruct (adjusted_holders _ _ _ _ _ _ Had4) as [-> _]; done|]. split; [done|]. split; [|split].
  - intros y. rewrite Hin5. pose proof (proj2 (ad_members _ _ _ _ _ _ Had4) g_waitingforsemaphore y ltac:(done) ltac:(done)). tauto.
  - intros p Hp. simpl. rewrite Hpr5. specialize (Hge4 p Hp). rewrite Hp3 in Hge4. change (holders s3) with (holders s2) in Hge4. by rewrite Hho2 in Hge4.
  - intros y. simpl. rewrite Hpr5. specialize (Hup4 y). by rewrite Hp3 in Hup4.
Qed.

Lemma sem_wait_for_isr_now s A G sem W E C :
  core s A G -> views s W E C -> in_irq (kn s) = false -> sem <> 0 -> 0 < C sem ->
  exists s', sem_wait_for_isr s sem = Some (s', Returned OK) /\ in_irq (kn s') = false /\ core s' A G /\
    views s' (upd W (running A) 0) (upd E (running A) EINVAL) (upd C sem (i16 (C sem - 1))).
Proof.
  intros Hc Hv Hirq Hs0 Hpos. destruct (core_running _ _ _ _ _ _ Hc) as (Hh & _ & _ & H0). unfold sem_wait_for_isr. rewrite Hirq, Hh.
  cbn [assert negb mbind option_bind].
  destruct (with_errno_core s A G EINVAL W E C Hc Hv Hirq) as (Hc1 & Hv1 & Hirq1 & _). set (s1 := with_errno s EINVAL) in *.
  destruct (Z.eqb_spec sem 0) as [?|_]; [done|]. rewrite (vw_count _ _ _ _ _ Hv1). destruct (Z.ltb_spec 0 (C sem)); [|lia].
  destruct (set_semcount_core T idle P B s1 A G sem (i16 (C sem - 1)) _ _ _ Hc1 Hv1) as [Hc2 Hv2].
  destruct (put_waitsem_core T idle P B _ A G (running A) 0 _ _ _ Hc2 Hv2 H0) as (s3 & -> & E3 & Hc3 & Hv3).
  exists s3. split_and!; try done. by rewrite E3.
Qed.

Lemma sem_wait_for_isr_blocks s A G sem W E C :
  core s A G -> views s W E C -> in_irq (kn s) = false -> running A <> idle -> sem <> 0 -> C sem <= 0 -> W (running A) = 0 ->
  exists s' A', sem_wait_for_isr s sem = Some (s', Switched) /\ core s' A' G /\ in_irq (kn s') = false /\
    views s' (upd W (running A) sem) (upd (upd E (running A) EINVAL) (running A) 0) (upd C sem (i16 (C sem - 1))) /\
    (forall y, y ∈ A' g_waitingforsemaphore <-> y = running A \/ y ∈ A g_waitingforsemaphore).
Proof.
  intros Hc Hv Hirq Hid Hs0 Hneg Hw. destruct (core_running _ _ _ _ _ _ Hc) as (Hh & _ & _ & H0).
  destruct (sem_wait_prepare s A G sem W E C Hc Hv Hirq Hs0 Hw) as (s1 & s2 & -> & Hget & Hw1 & Hc1 & Hrun2 & Hc2 & Hirq2 & _ & Hv2 & _).
  unfold sem_wait_for_isr. rewrite Hirq, Hh. cbn [assert negb mbind option_bind]. destruct (Z.eqb_spec sem 0) as [?|_]; [done|].
  rewrite Hc1. destruct (Z.ltb_spec 0 (C sem)); [lia|]. rewrite Hget. cbn [mbind option_bind]. rewrite Hw1. cbn [Z.eqb assert mbind option_bind].
  rewrite Hrun2. cbn [mbind option_bind].
  destruct (sem_wait_block s2 A G _ _ _ Hc2 Hv2 Hirq2 Hid) as (k5 & A5 & -> & Hc5 & Hv5 & Hirq5 & _ & _ & Hin5). by eexists _, A5.
Qed.

(** What a waiting task returns once it runs again. *)
Definition wait_result (e : Z) : Z := if negb (e =? EINTR) && negb (e =? ETIMEDOUT) then OK else ERROR.

Lemma get_errno_core s A G W E C :
  core s A G -> views s W E C -> in_irq (kn s) = false -> get_errno (kn s) = E (running A).
Proof. intros Hc Hv Hirq. unfold get_errno. rewrite (errno_ptr T idle P s A G) by done. apply (vw_errno _ _ _ _ _ Hv). Qed.

Lemma sem_wait_resume_spec s A G W E C :
  core s A G -> views s W E C -> in_irq (kn s) = false ->
  exists s' A', sem_wait_resume s = Some (s', wait_result (E (running A))) /\ core s' A' G /\ in_irq (kn s') = false /\
    views s' W E C /\ same_members A A'.
Proof.
  intros Hc Hv Hirq. unfold sem_wait_resume. rewrite (get_errno_core s A G W E C) by done.
  destruct (sched_unlock_core T idle P B s A G W E C Hc Hv Hirq) as (k' & A' & -> & Hc' & Hv' & Hs & Hm).
  cbn [mbind option_bind]. exists (set_kn k' s), A'. split_and!; try done. simpl. by rewrite (sc_irq _ _ Hs).
Qed.

Lemma sem_wait_for_isr_resume_spec s A G W E C :
  core s A G -> views s W E C -> in_irq (kn s) = false -> sem_wait_for_isr_resume s = wait_result (E (running A)).
Proof. intros Hc Hv Hirq. unfold sem_wait_for_isr_resume. by rewrite (get_errno_core s A G W E C). Qed.

(** ** Posting *)

(** The first waiter of [sem] gets the count. *)
Definition granted_waits (W : Z -> Z) (x : Z) : Z -> Z := if x =? 0 then W else upd W x 0.

Lemma waiting_user s A G x : core s A G -> x ∈ A g_waitingforsemaphore -> user x /\ x <> 0 /\ running A <> x.
Proof.
  intros Hc Hx. pose proof (ok_inv _ _ _ _ (co_ok _ _ _ _ _ _ Hc)) as Hi.
  assert (Hst : state (kn s) x = TSTATE_WAIT_SEM) by (by rewrite (si_state _ _ _ _ Hi _ _ Hx)).
  assert (Hne : x <> idle) by (apply (blocked_not_idle T idle (kn s) A); [done|by rewrite Hst]).
  split; [split; [by apply (si_tasks _ _ _ _ Hi g_waitingforsemaphore)|done]|]. split.
  - intros ->. by apply (dq_null _ _ _ (kr_list _ _ (si_rep _ _ _ _ Hi) g_waitingforsemaphore)).
  - intros <-. destruct (running_in _ _ _ _ Hi) as [Hin _]. discriminate (kr_once _ _ (si_rep _ _ _ _ Hi) _ _ _ Hin Hx).
Qed.

Lemma sem_give_spec add s A G sem W E C :
  core s A G -> views s W E C -> C sem <= 0 ->
  let x := first_waiter W sem (A g_waitingforsemaphore) in
  exists s' A' G', sem_give add s sem = Some (s', x) /\ core s' A' G' /\ in_irq (kn s') = in_irq (kn s) /\
    views s' (granted_waits W x) E C /\
    (forall y, y ∈ A' g_waitingforsemaphore <-> y <> x /\ y ∈ A g_waitingforsemaphore) /\
    lock (kn s') (running A) = lock (kn s) (running A) /\ (0 < lock (kn s) (running A) -> running A' = running A) /\
    (x <> 0 -> is_runnable (state (kn s') x) = true).
Proof.
  intros Hc Hv Hneg x. pose proof (ok_inv _ _ _ _ (co_ok _ _ _ _ _ _ Hc)) as Hi.
  pose proof (kr_list _ _ (si_rep _ _ _ _ Hi) g_waitingforsemaphore) as Hq. unfold sem_give. rewrite (vw_count _ _ _ _ _ Hv).
  destruct (Z.leb_spec (C sem) 0); [|lia]. rewrite (dq_head _ _ _ Hq).
  rewrite (find_waiter_spec B s W E C sem list_fuel) by
    first [done|apply (dq_next _ _ _ Hq)|apply (dq_null _ _ _ Hq)|apply PeanoNat.Nat.lt_succ_r, (si_length _ _ _ _ _ Hi)].
  cbn [mbind option_bind]. fold x. unfold granted_waits. destruct (Z.eqb_spec x 0) as [Ex|Ex].
  - rewrite Ex. exists s, A, G. split_and!; try done. intros y. pose proof (dq_null _ _ _ Hq). split; [intros Hy; split; [by intros ->|done]|tauto].
  - destruct (first_waiter_in W sem _ Ex) as [Hx Hwx]. fold x in Hx, Hwx. destruct (waiting_user s A G x Hc Hx) as (Hu & Hx0 & Hrx).
    assert (Hadd : exists s1 G1, (if (add : bool) then sem_addholder_tcb s x sem else Some s) = Some s1 /\ kn s1 = kn s /\ core s1 A G1 /\ views s1 W E C).
    { destruct add; [by apply (addholder_core T idle P B s A G)|by exists s, G]. }
    destruct Hadd as (s1 & G1 & -> & Hk1 & Hc1 & Hv1). cbn [mbind option_bind].
    destruct (put_waitsem_core T idle P B s1 A G1 x 0 _ _ _ Hc1 Hv1 Hx0) as (s2 & -> & E2 & Hc2 & Hv2). cbn [mbind option_bind].
    destruct (unblock_core T idle P B s2 A G1 x _ _ _ Hc2 Hv2 Hx) as (k3 & A3 & -> & Hc3 & Hv3 & Hs3 & Hl3 & Hr3 & Hin3 & Hrn3); [apply Hu|].
    cbn [mbind option_bind]. exists (set_kn k3 s2), A3, G1.
    assert (Hl2 : lock (kn s2) (running A) = lock (kn s) (running A)).
    { rewrite E2. unfold lock. simpl. rewrite upd_ne by done. by rewrite Hk1. }
    split_and!; try done.
    + simpl. rewrite (sc_irq _ _ Hs3), E2. simpl. by rewrite Hk1.
    + simpl. by rewrite Hl3.
    + rewrite <- Hl2. done.
Qed.

(** The tasks [A'] that wait for semaphores once [x] has got its count. *)
Definition woken (A A' : tasks) (x : Z) : Prop :=
  forall y, y ∈ A' g_waitingforsemaphore <-> y <> x /\ y ∈ A g_waitingforsemaphore.

(** The waiter a post wakes: the first one if the count is negative. *)
Definition post_waiter (W C : Z -> Z) (sem : Z) (A : tasks) : Z :=
  if C sem <? 0 then first_waiter W sem (A g_waitingforsemaphore) else 0.

Lemma wsem_null s A G : core s A G -> 0 ∉ A g_waitingforsemaphore.
Proof. intros Hc. apply (dq_null _ _ _ (kr_list _ _ (si_rep _ _ _ _ (ok_inv _ _ _ _ (co_ok _ _ _ _ _ _ Hc))) g_waitingforsemaphore)). Qed.

Lemma woken_none s A G : core s A G -> woken A A 0.
Proof. intros Hc y. pose proof (wsem_null s A G Hc). split; [intros Hy; split; [by intros ->|done]|tauto]. Qed.

(** [sem_give] after the count has gone up. *)
Lemma sem_give_post add s A G sem W E C :
  core s A G -> views s W E (upd C sem (C sem + 1)) ->
  let x := post_waiter W C sem A in
  exists s' A' G', sem_give add s sem = Some (s', x) /\ core s' A' G' /\ in_irq (kn s') = in_irq (kn s) /\
    views s' (granted_waits W x) E (upd C sem (C sem + 1)) /\ woken A A' x /\
    lock (kn s') (running A) = lock (kn s) (running A) /\ (0 < lock (kn s) (running A) -> running A' = running A) /\
    (x <> 0 -> is_runnable (state (kn s') x) = true).
Proof.
  intros Hc Hv x. unfold x, post_waiter. destruct (Z.ltb_spec (C sem) 0).
  - destruct (sem_give_spec add s A G sem W E _ Hc Hv) as (s' & A' & G' & ?); [rewrite upd_eq; lia|]. by exists s', A', G'.
  - unfold sem_give. rewrite (vw_count _ _ _ _ _ Hv), upd_eq. destruct (Z.leb_spec (C sem + 1) 0); [lia|].
    exists s, A, G. split_and!; try done. by apply (woken_none s A G).
Qed.

(** The condition under which a post does not find the count negative in vain. *)
Definition waiter_there (A : tasks) (W C : Z -> Z) (sem : Z) : Prop :=
  C sem < 0 -> exists x, x ∈ A g_waitingforsemaphore /\ W x = sem.

Lemma post_waiter_case s A G W C sem :
  core s A G -> waiter_there A W C sem ->
  (C sem < 0 /\ post_waiter W C sem A ∈ A g_waitingforsemaphore /\ W (post_waiter W C sem A) = sem /\ post_waiter W C sem A <> 0) \/
  (0 <= C sem /\ post_waiter W C sem A = 0).
Proof.
  intros Hc Hw. unfold post_waiter. destruct (Z.ltb_spec (C sem) 0) as [Hn|Hn]; [|by right]. left. split; [done|].
  destruct (Hw Hn) as (x & Hx & Hwx). pose proof (first_waiter_some W sem _ x Hx (wsem_null s A G Hc) Hwx) as H0.
  destruct (first_waiter_in W sem _ H0). done.
Qed.

Lemma sem_post_begin_spec s A G sem W E C :
  core s A G -> views s W E C -> waiter_there A W C sem -> -32768 <= C sem < SEM_VALUE_MAX ->
  (in_irq (kn s) = false -> lock (kn s) (running A) < MAX_LOCK_COUNT) ->
  let x := post_waiter W C sem A in
  exists s' A' G', sem_post_begin s sem = Some (s', x) /\ core s' A' G' /\ in_irq (kn s') = in_irq (kn s) /\
    views s' (granted_waits W x) E (upd C sem (C sem + 1)) /\ woken A A' x /\
    (in_irq (kn s) = false -> running A' = running A /\ 0 < lock (kn s') (running A)) /\
    (x <> 0 -> is_runnable (state (kn s') x) = true).
Proof.
  intros Hc Hv Hw Hrange Hl x. unfold sem_post_begin. rewrite (vw_count _ _ _ _ _ Hv).
  rewrite assert_true by (apply Z.ltb_lt; lia). cbn [mbind option_bind].
  destruct (sem_releaseholder_spec P user s G sem (co_rep _ _ _ _ _ _ Hc) (co_hold _ _ _ _ _ _ Hc)) as (s1 & -> & Hr1 & Hb1 & Hk1 & _).
  cbn [mbind option_bind]. destruct (hkeep_core T idle P B s s1 A G G W E C Hc Hv Hk1 Hr1 Hb1) as [Hc1 Hv1]. destruct Hk1 as [Hk1 _].
  rewrite (vw_count _ _ _ _ _ Hv1), i16_small by (unfold SEM_VALUE_MAX in *; lia).
  destruct (set_semcount_core T idle P B s1 A G sem (C sem + 1) _ _ _ Hc1 Hv1) as [Hc2 Hv2]. set (s2 := set_semcount _ _ _) in *.
  assert (Hlock : exists k3, sched_lock (kn s2) = Some k3 /\ core (set_kn k3 s2) A G /\ views (set_kn k3 s2) W E (upd C sem (C sem + 1)) /\
    in_irq k3 = in_irq (kn s) /\ (in_irq (kn s) = false -> 0 < lock k3 (running A))).
  { change (kn s2) with (kn s1). rewrite Hk1. destruct (in_irq (kn s)) eqn:Hirq.
    - destruct (sched_lock_irq (kn s) Hirq) as [-> _]. exists (kn s).
      assert (E2 : set_kn (kn s) s2 = s2) by (rewrite <- Hk1; done). rewrite E2. done.
    - destruct (sched_lock_core T idle P B s2 A G _ _ _ Hc2 Hv2) as (k3 & Hrun & Hc3 & Hv3 & Hs3 & Hl3).
      { simpl. by rewrite Hk1. }
      { simpl. rewrite Hk1. by apply Hl. }
      simpl in Hrun. rewrite Hk1 in Hrun. exists k3. split_and!; try done. rewrite (sc_irq _ _ Hs3). simpl. by rewrite Hk1. }
  destruct Hlock as (k3 & -> & Hc3 & Hv3 & Hirq3 & Hl3). cbn [mbind option_bind].
  destruct (sem_give_post true _ A G sem W E C Hc3 Hv3) as (s4 & A4 & G4 & -> & Hc4 & Hirq4 & Hv4 & Hwo & Hl4 & Hr4 & Hrn4).
  cbn [mbind option_bind]. fold x in Hv4, Hwo, Hrn4 |- *. rewrite (vw_count _ _ _ _ _ Hv4), upd_eq. rewrite assert_true.
  - cbn [mbind option_bind]. exists s4, A4, G4. simpl in *. split_and!; try done; [congruence|]. intros Hirq. specialize (Hl3 Hirq).
    rewrite Hl4. split; [by apply Hr4|done].
  - destruct (post_waiter_case s A G W C sem Hc Hw) as [(Hn & _ & _ & Hx0)|[Hn Hx0]]; fold x in Hx0.
    + destruct (Z.eqb_spec x 0); [done|]. apply Z.leb_le. lia.
    + rewrite Hx0. simpl. apply Z.ltb_lt. lia.
Qed.

(** What is left of a restoration that gave up the processor. *)
Definition rest_ok (k : kernel) (x : Z) (r : restore_rest) : Prop :=
  r = RestNone \/ (user x /\ r = RestReprioritize x (base_priority (tcbs k x))).

Lemma sem_restorebaseprio_task_spec s A G stcb sem W E C :
  core s A G -> views s W E C -> 0 < lock (kn s) (running A) ->
  exists s' A' r, sem_restorebaseprio_task s stcb sem = Some (s', r) /\ core s' A' G /\ in_irq (kn s') = in_irq (kn s) /\
    views s' W E C /\ same_members A A' /\ rest_ok (kn s') (running A) r.
Proof.
  intros Hc Hv Hl. unfold sem_restorebaseprio_task. destruct (Z.eqb_spec stcb 0) as [->|H0].
  { exists s, A, RestNone. split_and!; try done. by left. }
  destruct (foreach_restoreA_spec T idle P s A G sem stcb) as (s1 & A1 & -> & Had1 & Hrun1);
    [apply (co_ok _ _ _ _ _ _ Hc)|apply (co_listed _ _ _ _ _ _ Hc)|apply (co_prios _ _ _ _ _ _ Hc)|apply (co_hash _ _ _ _ _ _ Hc)|
     apply (co_rep _ _ _ _ _ _ Hc)|apply (co_hold _ _ _ _ _ _ Hc)|done|done|].
  cbn [mbind option_bind]. destruct (adjusted_core T idle P B s s1 A A1 G _ _ _ Hc Hv Had1) as [Hc1 Hv1].
  destruct (restoreB_spec T idle P s1 A1 G sem stcb) as (s2 & A2 & r & -> & Had2 & Hr);
    [apply (co_ok _ _ _ _ _ _ Hc1)|apply (co_listed _ _ _ _ _ _ Hc1)|apply (co_prios _ _ _ _ _ _ Hc1)|apply (co_hash _ _ _ _ _ _ Hc1)|
     apply (co_rep _ _ _ _ _ _ Hc1)|apply (co_hold _ _ _ _ _ _ Hc1)|done|].
  destruct (adjusted_core T idle P B s1 s2 A1 A2 G _ _ _ Hc1 Hv1 Had2) as [Hc2 Hv2].
  exists s2, A2, r. split_and!; try done.
  - by rewrite (ad_irq _ _ _ _ _ _ Had2), (ad_irq _ _ _ _ _ _ Had1).
  - eapply same_members_trans; [apply (ad_members _ _ _ _ _ _ Had1)|apply (ad_members _ _ _ _ _ _ Had2)].
  - by rewrite Hrun1 in Hr.
Qed.

(** The end of a post, in the posting task. *)
Lemma sem_post_resume_spec s A G sem x r W E C :
  core s A G -> views s W E C -> in_irq (kn s) = false -> rest_ok (kn s) x r ->
  exists s' A' G', sem_post_resume s x sem r = Some (s', OK) /\ core s' A' G' /\ in_irq (kn s') = false /\
    views s' W E C /\ same_members A A'.
Proof.
  intros Hc Hv Hirq Hr. unfold sem_post_resume, sem_restorebaseprio_end.
  assert (Hend : exists s1, sem_restoreholderprio_end s r = Some s1 /\ adjusted T idle s s1 A A).
  { destruct Hr as [->|[Hu ->]]; [exists s; split; [done|]; apply adjusted_refl; [apply (co_ok _ _ _ _ _ _ Hc)|apply (co_prios _ _ _ _ _ _ Hc)]|].
    apply sem_restoreholderprio_end_spec; [apply (co_ok _ _ _ _ _ _ Hc)|apply (co_prios _ _ _ _ _ _ Hc)|done|].
    by apply (user_listed T idle (kn s) A x (co_ok _ _ _ _ _ _ Hc) (co_listed _ _ _ _ _ _ Hc)). }
  destruct Hend as (s1 & -> & Had1). cbn [mbind option_bind]. destruct (adjusted_core T idle P B s s1 A A G _ _ _ Hc Hv Had1) as [Hc1 Hv1].
  destruct (sem_restorebaseprio_end_free T idle P s1 G sem x (co_rep _ _ _ _ _ _ Hc1) (co_hold _ _ _ _ _ _ Hc1)) as (s2 & G2 & Hrun2 & Hr2 & Hb2 & Hk2).
  cbn [mbind option_bind] in Hrun2. rewrite Hrun2. cbn [mbind option_bind].
  destruct (hkeep_core T idle P B s1 s2 A G G2 W E C Hc1 Hv1 Hk2 Hr2 Hb2) as [Hc2 Hv2]. destruct Hk2 as [Hk2 _].
  assert (Hirq2 : in_irq (kn s2) = false) by (rewrite Hk2, (ad_irq _ _ _ _ _ _ Had1); done).
  destruct (sched_unlock_core T idle P B s2 A G2 W E C Hc2 Hv2 Hirq2) as (k3 & A3 & -> & Hc3 & Hv3 & Hs3 & Hm3).
  cbn [mbind option_bind]. exists (set_kn k3 s2), A3, G2. split_and!; try done. simpl. by rewrite (sc_irq _ _ Hs3).
Qed.

Lemma woken_members A A1 A2 x : woken A A1 x -> same_members A1 A2 -> woken A A2 x.
Proof. intros Hw [_ Hm] y. by rewrite Hm. Qed.

(** A post at task level. *)
Lemma sem_post_spec s A G sem W E C :
  core s A G -> views s W E C -> in_irq (kn s) = false -> sem <> 0 -> waiter_there A W C sem ->
  -32768 <= C sem < SEM_VALUE_MAX -> lock (kn s) (running A) < MAX_LOCK_COUNT ->
  let x := post_waiter W C sem A in
  exists s' A' G' o r, sem_post s sem = Some (s', o, r) /\ core s' A' G' /\ in_irq (kn s') = false /\
    views s' (granted_waits W x) E (upd C sem (C sem + 1)) /\ woken A A' x /\
    ((o = Returned OK /\ r = RestNone) \/ (o = Switched /\ rest_ok (kn s') (running A) r)).
Proof.
  intros Hc Hv Hirq Hs0 Hw Hrange Hl x. unfold sem_post. destruct (Z.eqb_spec sem 0) as [?|_]; [done|].
  destruct (core_running _ _ _ _ _ _ Hc) as (Hh & _). rewrite Hh.
  destruct (sem_post_begin_spec s A G sem W E C Hc Hv Hw Hrange (fun _ => Hl)) as (s1 & A1 & G1 & -> & Hc1 & Hirq1 & Hv1 & Hwo1 & Hr1 & _).
  fold x in Hv1, Hwo1 |- *. cbn [mbind option_bind]. destruct (Hr1 Hirq) as [Hrun1 Hl1]. rewrite <- Hrun1 in Hl1.
  destruct (sem_restorebaseprio_task_spec s1 A1 G1 x sem _ _ _ Hc1 Hv1 Hl1) as (s2 & A2 & r & -> & Hc2 & Hirq2 & Hv2 & Hm2 & Hrest).
  cbn [mbind option_bind]. rewrite Hrun1 in Hrest. pose proof (woken_members A A1 A2 x Hwo1 Hm2) as Hwo2.
  assert (Hirq2' : in_irq (kn s2) = false) by congruence.
  destruct (Z.eqb_spec (cpu (kn s2)) (running A)) as [E2|E2].
  - destruct (sem_post_resume_spec s2 A2 G1 sem (running A) r _ _ _ Hc2 Hv2 Hirq2' Hrest) as (s3 & A3 & G3 & -> & Hc3 & Hirq3 & Hv3 & Hm3).
    cbn [mbind option_bind]. exists s3, A3, G3, (Returned OK), RestNone. split_and!; try done; [by eapply woken_members|by left].
  - exists s2, A2, G1, Switched, r. split_and!; try done. by right.
Qed.

(** A post in an interrupt handler. *)
Lemma sem_post_irq_spec s A G sem W E C :
  core s A G -> views s W E C -> in_irq (kn s) = true -> sem <> 0 -> waiter_there A W C sem ->
  -32768 <= C sem < SEM_VALUE_MAX ->
  let x := post_waiter W C sem A in
  exists s' A' G', sem_post_irq s sem = Some (s', OK) /\ core s' A' G' /\ in_irq (kn s') = true /\
    views s' (granted_waits W x) E (upd C sem (C sem + 1)) /\ woken A A' x.
Proof.
  intros Hc Hv Hirq Hs0 Hw Hrange x. unfold sem_post_irq. destruct (Z.eqb_spec sem 0) as [?|_]; [done|].
  destruct (sem_post_begin_spec s A G sem W E C Hc Hv Hw Hrange) as (s1 & A1 & G1 & -> & Hc1 & Hirq1 & Hv1 & Hwo1 & _ & _); [congruence|].
  fold x in Hv1, Hwo1 |- *. cbn [mbind option_bind].
  assert (Hre : exists s2 A2, sem_restorebaseprio_irq s1 x sem = Some s2 /\ core s2 A2 G1 /\ in_irq (kn s2) = true /\
    views s2 (granted_waits W x) E (upd C sem (C sem + 1)) /\ same_members A1 A2).
  { unfold sem_restorebaseprio_irq. destruct (Z.eqb_spec x 0) as [Ex|Ex]; [exists s1, A1; split_and!; try done; congruence|].
    destruct (foreach_restore_spec T idle P s1 A1 G1 sem x) as (s2 & A2 & -> & Had2);
      [apply (co_ok _ _ _ _ _ _ Hc1)|apply (co_listed _ _ _ _ _ _ Hc1)|apply (co_prios _ _ _ _ _ _ Hc1)|apply (co_hash _ _ _ _ _ _ Hc1)|
       apply (co_rep _ _ _ _ _ _ Hc1)|apply (co_hold _ _ _ _ _ _ Hc1)|done|].
    cbn [mbind option_bind]. destruct (adjusted_core T idle P B s1 s2 A1 A2 G1 _ _ _ Hc1 Hv1 Had2) as [Hc2 Hv2].
    exists s2, A2. split_and!; try done; [rewrite (ad_irq _ _ _ _ _ _ Had2); congruence|apply (ad_members _ _ _ _ _ _ Had2)]. }
  destruct Hre as (s2 & A2 & -> & Hc2 & Hirq2 & Hv2 & Hm2). cbn [mbind option_bind].
  destruct (sched_lock_irq (kn s2) Hirq2) as [_ ->]. cbn [mbind option_bind].
  assert (E2 : set_kn (kn s2) s2 = s2) by (by destruct s2). rewrite E2.
  exists s2, A2, G1. split_and!; try done. by eapply woken_members.
Qed.

Lemma sem_post_from_isr_spec s A G sem W E C :
  core s A G -> views s W E C -> sem <> 0 -> waiter_there A W C sem -> -32768 <= C sem < SEM_VALUE_MAX ->
  let x := post_waiter W C sem A in
  exists s' A' G', sem_post_from_isr s sem = Some (s', OK) /\ core s' A' G' /\ in_irq (kn s') = in_irq (kn s) /\
    views s' (granted_waits W x) E (upd C sem (C sem + 1)) /\ woken A A' x.
Proof.
  intros Hc Hv Hs0 Hw Hrange x. unfold sem_post_from_isr. destruct (Z.eqb_spec sem 0) as [?|_]; [done|].
  rewrite (vw_count _ _ _ _ _ Hv), assert_true by (apply Z.ltb_lt; lia). cbn [mbind option_bind].
  rewrite i16_small by (unfold SEM_VALUE_MAX in *; lia).
  destruct (set_semcount_core T idle P B s A G sem (C sem + 1) _ _ _ Hc Hv) as [Hc2 Hv2].
  destruct (sem_give_post false _ A G sem W E C Hc2 Hv2) as (s4 & A4 & G4 & -> & Hc4 & Hirq4 & Hv4 & Hwo & _).
  cbn [mbind option_bind]. by exists s4, A4, G4.
Qed.

(** A wait that ends early, in an interrupt handler. *)
Lemma sem_waitirq_spec s A G x errcode W E C :
  core s A G -> views s W E C -> x ∈ A g_waitingforsemaphore -> W x <> 0 -> -32768 <= C (W x) < 0 ->
  exists s' A', sem_waitirq s x errcode = Some s' /\ core s' A' G /\ in_irq (kn s') = in_irq (kn s) /\
    views s' (upd W x 0) (upd E x errcode) (upd C (W x) (C (W x) + 1)) /\ woken A A' x.
Proof.
  intros Hc Hv Hx Hw Hneg. destruct (waiting_user s A G x Hc Hx) as (Hu & Hx0 & _). unfold sem_waitirq. krun.
  assert (Hst : task_state (tcbs (kn s) x) = TSTATE_WAIT_SEM) by
    apply (si_state _ _ _ _ (ok_inv _ _ _ _ (co_ok _ _ _ _ _ _ Hc)) g_waitingforsemaphore x Hx).
  rewrite Hst, bool_decide_eq_true_2 by done. rewrite (vw_wait _ _ _ _ _ Hv), (vw_count _ _ _ _ _ Hv). set (sem := W x) in *.
  rewrite assert_true by (destruct (Z.eqb_spec sem 0); [done|]; apply Z.ltb_lt; lia). cbn [mbind option_bind].
  unfold sem_canceled. rewrite (vw_count _ _ _ _ _ Hv), assert_true by (apply Z.leb_le; lia). cbn [mbind option_bind].
  destruct (foreach_restore_spec T idle P s A G sem x) as (s1 & A1 & -> & Had1);
    [apply (co_ok _ _ _ _ _ _ Hc)|apply (co_listed _ _ _ _ _ _ Hc)|apply (co_prios _ _ _ _ _ _ Hc)|apply (co_hash _ _ _ _ _ _ Hc)|
     apply (co_rep _ _ _ _ _ _ Hc)|apply (co_hold _ _ _ _ _ _ Hc)|done|].
  cbn [mbind option_bind]. destruct (adjusted_core T idle P B s s1 A A1 G _ _ _ Hc Hv Had1) as [Hc1 Hv1].
  assert (Hx1 : x ∈ A1 g_waitingforsemaphore) by (by apply (ad_members _ _ _ _ _ _ Had1)).
  rewrite (vw_count _ _ _ _ _ Hv1), i16_small by lia.
  destruct (set_semcount_core T idle P B s1 A1 G sem (C sem + 1) _ _ _ Hc1 Hv1) as [Hc2 Hv2]. set (s2 := set_semcount _ _ _) in *.
  destruct (put_waitsem_core T idle P B s2 A1 G x 0 _ _ _ Hc2 Hv2 Hx0) as (s3 & -> & E3 & Hc3 & Hv3). cbn [mbind option_bind].
  unfold upd_task. krun. destruct (put_errno_core T idle P B s3 A1 G x errcode _ _ _ Hc3 Hv3) as [Hc4 Hv4].
  set (s4 := set_kn (put_tcb x (set_pterrno errcode) (kn s3)) s3) in *. fold (put_tcb x (set_pterrno errcode) (kn s3)). fold s4.
  destruct (unblock_core T idle P B s4 A1 G x _ _ _ Hc4 Hv4 Hx1) as (k5 & A5 & -> & Hc5 & Hv5 & Hs5 & _ & _ & Hin5 & _); [apply Hu|].
  cbn [mbind option_bind]. exists (set_kn k5 s4), A5. split_and!; try done.
  - simpl. rewrite (sc_irq _ _ Hs5). simpl. rewrite E3. simpl. by rewrite (ad_irq _ _ _ _ _ _ Had1).
  - intros y. rewrite Hin5. pose proof (proj2 (ad_members _ _ _ _ _ _ Had1) g_waitingforsemaphore y ltac:(done) ltac:(done)). tauto.
Qed.

(** ... or has ended already. *)
Lemma sem_waitirq_late s A G x errcode :
  core s A G -> x ∈ T -> x ∉ A g_waitingforsemaphore -> sem_waitirq s x errcode = Some s.
Proof.
  intros Hc HT Hx. pose proof (co_ok _ _ _ _ _ _ Hc) as Hok. destruct (co_listed _ _ _ _ _ _ Hc x HT) as [tl Htl].
  pose proof (listed_nonnull T idle _ _ _ _ Hok Htl) as Hx0. unfold sem_waitirq. krun. rewrite bool_decide_eq_false_2; [done|].
  change (state (kn s) x <> TSTATE_WAIT_SEM). rewrite (si_state _ _ _ _ (ok_inv _ _ _ _ Hok) tl x Htl). destruct tl; try done. simpl. by destruct (decide _).
Qed.
End calls.
