(* ===== verification/SemSystem.v ===== *)
(** * Semaphores: tasks, interrupts and their interleaving

    A system of tasks and interrupt handlers that use semaphores: the state
    of [Sem] and, for every task, the call it has left half done when it gave
    up the processor.  An event is a call by the running task, the
    continuation of its half-done call, or an interrupt.  The books of a
    semaphore balance in every state the events can reach. *)

From stdpp Require Import base tactics numbers sets list sorting.
From S2P Require Import Prelude Queue QueueProps Sched SchedProps SchedOps SchedKernel SchedPriority SchedTheorems.
From S2P Require Import Sem SemHolder SemPrio SemOps SemCalls.

(** ** The system *)

(** Where a task is: outside of the semaphore calls, blocked or about to
    resume in [sem_wait] or [sem_wait_for_isr], or inside [sem_post]. *)
Inductive pc :=
  | PcUser
  | PcWait (sem : Z) (isr : bool)
  | PcPost (sem : Z) (r : restore_rest).

Record sys := mk_sys { ss : sem_state; pcs : Z -> pc }.

Inductive sem_event :=
  | EvWait (sem : Z)
  | EvWaitIsr (sem : Z)
  | EvTryWait (sem : Z)
  | EvPost (sem : Z)
  | EvLock
  | EvUnlock
  | EvResume
  | EvIrqPost (sem : Z)
  | EvIrqPostIsr (sem : Z)
  | EvIrqTimeout (x errcode : Z)
  | EvIrqTick.

Definition set_in_irq (b : bool) (k : kernel) : kernel :=
  mk_kernel (lk k) (tcbs k) (lists k) (cpu k) b (g_irqerrno k) (g_pidhash k).

(** A call in an interrupt handler. *)
Definition in_handler (f : sem_state -> option sem_state) (s : sem_state) : option sem_state :=
  s ← f (set_kn (set_in_irq true (kn s)) s);
  Some (set_kn (set_in_irq false (kn s)) s).

(** A wait that returned: the semaphore and the value. *)
Abbreviation finished := (option (Z * Z)).

Definition after_wait (s : sys) (sem : Z) (isr : bool) (r : option (sem_state * outcome)) : option (sys * finished) :=
  '(t, o) ← r;
  Some (match o with
        | Returned ret => (mk_sys t (pcs s), Some (sem, ret))
        | Switched => (mk_sys t (upd (pcs s) (cpu (kn (ss s))) (PcWait sem isr)), None)
        end).

Definition sem_exec (s : sys) (e : sem_event) : option (sys * finished) :=
  let me := cpu (kn (ss s)) in
  let back t := mk_sys t (upd (pcs s) me PcUser) in
  match e with
  | EvWait sem => after_wait s sem false (sem_wait (ss s) sem)
  | EvWaitIsr sem => after_wait s sem true (sem_wait_for_isr (ss s) sem)
  | EvTryWait sem => '(t, ret) ← sem_trywait (ss s) sem; Some (mk_sys t (pcs s), Some (sem, ret))
  | EvPost sem =>
      '(t, o, r) ← sem_post (ss s) sem;
      Some (mk_sys t (match o with Returned _ => pcs s | Switched => upd (pcs s) me (PcPost sem r) end), None)
  | EvLock => k ← sched_lock (kn (ss s)); Some (mk_sys (set_kn k (ss s)) (pcs s), None)
  | EvUnlock => k ← sched_unlock (kn (ss s)); Some (mk_sys (set_kn k (ss s)) (pcs s), None)
  | EvResume =>
      match pcs s me with
      | PcUser => None
      | PcWait sem false => '(t, ret) ← sem_wait_resume (ss s); Some (back t, Some (sem, ret))
      | PcWait sem true => Some (back (ss s), Some (sem, sem_wait_for_isr_resume (ss s)))
      | PcPost sem r => '(t, _) ← sem_post_resume (ss s) me sem r; Some (back t, None)
      end
  | EvIrqPost sem => t ← in_handler (fun u => r ← sem_post_irq u sem; Some r.1) (ss s); Some (mk_sys t (pcs s), None)
  | EvIrqPostIsr sem => t ← in_handler (fun u => r ← sem_post_from_isr u sem; Some r.1) (ss s); Some (mk_sys t (pcs s), None)
  | EvIrqTimeout x errcode => t ← in_handler (fun u => sem_waitirq u x errcode) (ss s); Some (mk_sys t (pcs s), None)
  | EvIrqTick =>
      t ← in_handler (fun u => k ← sched_process_timeslice (kn u); Some (set_kn k u)) (ss s); Some (mk_sys t (pcs s), None)
  end.

(** The successful waits for [sem] among what an event finishes, and the posts. *)
Definition acquired (f : finished) (sem : Z) : Z :=
  match f with Some (t, ret) => Z.b2z ((t =? sem) && (ret =? OK)) | None => 0 end.

Definition posted (e : sem_event) (sem : Z) : Z :=
  match e with EvPost t | EvIrqPost t | EvIrqPostIsr t => Z.b2z (t =? sem) | _ => 0 end.

(** ** Books *)

(** How many tasks of [l] satisfy [f]. *)
Definition tally (f : Z -> bool) (l : list Z) : Z := foldr (fun x n => Z.b2z (f x) + n) 0 l.

Lemma tally_ext f g l : (forall x, x ∈ l -> g x = f x) -> tally g l = tally f l.
Proof. induction l as [|x l IH]; intros H; simpl; [done|]. rewrite H, IH by set_solver. done. Qed.

Lemma tally_change f g l x :
  NoDup l -> x ∈ l -> (forall y, y <> x -> g y = f y) -> tally g l = tally f l - Z.b2z (f x) + Z.b2z (g x).
Proof.
  induction l as [|y l IH]; intros Hn Hx H; [by apply elem_of_nil in Hx|]. apply NoDup_cons in Hn as [Hy Hn]. simpl.
  destruct (decide (y = x)) as [->|Hne].
  - rewrite (tally_ext f g); [lia|]. intros z Hz. apply H. by intros ->.
  - apply elem_of_cons in Hx as [->|Hx]; [done|]. rewrite IH, H by done. lia.
Qed.

Lemma tally_bounds f l : 0 <= tally f l <= Z.of_nat (length l).
Proof. induction l as [|x l IH]; simpl; [lia|]. destruct (f x); simpl; lia. Qed.

Lemma tally_pos f l : 0 < tally f l -> exists x, x ∈ l /\ f x = true.
Proof.
  induction l as [|x l IH]; simpl; [lia|]. destruct (f x) eqn:E; [exists x; split; [set_solver|done]|].
  simpl. intros H. destruct (IH ltac:(lia)) as (y & Hy & ?). exists y. split; [set_solver|done].
Qed.

(** A task that waits for [sem]. *)
Definition is_waiter (W : Z -> Z) (sem x : Z) : bool := W x =? sem.

(** A task that has got [sem] but has not returned from its wait. *)
Definition is_granted (W E : Z -> Z) (Q : Z -> pc) (sem x : Z) : bool :=
  match Q x with PcWait t _ => (t =? sem) && (W x =? 0) && (E x =? 0) | _ => false end.

Definition pc_ok (q : pc) (w e : Z) : Prop :=
  match q with
  | PcUser | PcPost _ _ => w = 0
  | PcWait sem _ => sem <> 0 /\ ((w = sem /\ e = 0) \/ (w = 0 /\ (e = 0 \/ e = EINTR \/ e = ETIMEDOUT)))
  end.

Section books.
Context (T : list Z) (HT : NoDup T).

(** A negative count is the number of tasks that wait. *)
Record books (W E C : Z -> Z) (Q : Z -> pc) : Prop := {
  bk_count sem : sem <> 0 -> tally (is_waiter W sem) T = Z.max 0 (- C sem);
  bk_max sem : sem <> 0 -> C sem <= SEM_VALUE_MAX;
  bk_pc x : x ∈ T -> pc_ok (Q x) (W x) (E x)
}.

(** The counts nobody has taken yet. *)
Definition available (W E C : Z -> Z) (Q : Z -> pc) (sem : Z) : Z := tally (is_granted W E Q sem) T + Z.max 0 (C sem).

(** One task and one count change. *)
Lemma books_change x sem W E C Q W' E' C' Q' :
  books W E C Q -> x ∈ T -> sem <> 0 ->
  (forall y, y <> x -> W' y = W y /\ E' y = E y /\ Q' y = Q y) -> (forall t, t <> sem -> C' t = C t) ->
  pc_ok (Q' x) (W' x) (E' x) -> C' sem <= SEM_VALUE_MAX ->
  (forall t, t <> sem -> t <> 0 -> (W' x =? t) = (W x =? t)) ->
  Z.max 0 (- C' sem) = Z.max 0 (- C sem) - Z.b2z (W x =? sem) + Z.b2z (W' x =? sem) ->
  books W' E' C' Q' /\
  forall t, available W' E' C' Q' t =
    available W E C Q t - Z.b2z (is_granted W E Q t x) + Z.b2z (is_granted W' E' Q' t x) + (Z.max 0 (C' t) - Z.max 0 (C t)).
Proof.
  intros [Hc Hm Hp] Hx Hs Hy Ht Hpc Hmax Hw Hcnt. split.
  - constructor.
    + intros t Ht0. rewrite (tally_change (is_waiter W t) _ T x HT Hx) by (intros y Hne; unfold is_waiter; by destruct (Hy y Hne) as [-> _]).
      rewrite Hc by done. unfold is_waiter. destruct (decide (t = sem)) as [->|Hne]; [lia|]. rewrite Hw, Ht by done. lia.
    + intros t Ht0. destruct (decide (t = sem)) as [->|Hne]; [done|]. rewrite Ht by done. by apply Hm.
    + intros y Hyt. destruct (decide (y = x)) as [->|Hne]; [done|]. destruct (Hy y Hne) as (-> & -> & ->). by apply Hp.
  - intros t. unfold available. rewrite (tally_change (is_granted W E Q t) _ T x HT Hx); [lia|].
    intros y Hne. unfold is_granted. by destruct (Hy y Hne) as (-> & -> & ->).
Qed.

Lemma books_ext W E C Q W' E' C' Q' :
  books W E C Q -> (forall y, W' y = W y) -> (forall y, E' y = E y) -> (forall t, C' t = C t) -> (forall y, Q' y = Q y) ->
  books W' E' C' Q' /\ forall t, available W' E' C' Q' t = available W E C Q t.
Proof.
  intros [Hc Hm Hp] HW HE HC HQ. split.
  - constructor.
    + intros t Ht. rewrite HC, <- Hc by done. apply tally_ext. intros x _. unfold is_waiter. by rewrite HW.
    + intros t Ht. rewrite HC. by apply Hm.
    + intros x Hx. rewrite HW, HE, HQ. by apply Hp.
  - intros t. unfold available. rewrite HC. f_equal. apply tally_ext. intros x _. unfold is_granted. by rewrite HW, HE, HQ.
Qed.

(** A task takes a count that is there. *)
Lemma books_take x sem W E E' C Q :
  books W E C Q -> x ∈ T -> sem <> 0 -> Q x = PcUser -> 0 < C sem -> (forall y, y <> x -> E' y = E y) ->
  books (upd W x 0) E' (upd C sem (C sem - 1)) Q /\
  forall t, available (upd W x 0) E' (upd C sem (C sem - 1)) Q t + Z.b2z (sem =? t) = available W E C Q t.
Proof.
  intros Hb Hx Hs HQ Hpos HE. pose proof (bk_pc _ _ _ _ Hb x Hx) as Hpc. rewrite HQ in Hpc. simpl in Hpc.
  destruct (books_change x sem W E C Q (upd W x 0) E' (upd C sem (C sem - 1)) Q Hb Hx Hs) as [Hb' Ha].
  - intros y Hne. rewrite upd_ne by done. split; [done|]. split; [by apply HE|done].
  - intros t Ht. by rewrite upd_ne.
  - rewrite HQ. simpl. by rewrite upd_eq.
  - rewrite upd_eq. pose proof (bk_max _ _ _ _ Hb sem Hs). lia.
  - intros t _ _. by rewrite upd_eq, Hpc.
  - rewrite !upd_eq, Hpc. lia.
  - split; [done|]. intros t. rewrite Ha. unfold is_granted. rewrite HQ. destruct (Z.eqb_spec sem t) as [->|Hne].
    + rewrite upd_eq. simpl. lia.
    + rewrite upd_ne by congruence. simpl. lia.
Qed.

(** A task starts to wait. *)
Lemma books_block x sem isr W E E' C Q :
  books W E C Q -> x ∈ T -> sem <> 0 -> Q x = PcUser -> C sem <= 0 -> (forall y, y <> x -> E' y = E y) -> E' x = 0 ->
  books (upd W x sem) E' (upd C sem (C sem - 1)) (upd Q x (PcWait sem isr)) /\
  forall t, available (upd W x sem) E' (upd C sem (C sem - 1)) (upd Q x (PcWait sem isr)) t = available W E C Q t.
Proof.
  intros Hb Hx Hs HQ Hneg HE HEx. pose proof (bk_pc _ _ _ _ Hb x Hx) as Hpc. rewrite HQ in Hpc. simpl in Hpc.
  destruct (books_change x sem W E C Q (upd W x sem) E' (upd C sem (C sem - 1)) (upd Q x (PcWait sem isr)) Hb Hx Hs) as [Hb' Ha].
  - intros y Hne. rewrite !upd_ne by done. split; [done|]. split; [by apply HE|done].
  - intros t Ht. by rewrite upd_ne.
  - rewrite !upd_eq. simpl. split; [done|by left].
  - rewrite upd_eq. unfold SEM_VALUE_MAX. lia.
  - intros t Ht Ht0. rewrite upd_eq, Hpc. destruct (Z.eqb_spec sem t), (Z.eqb_spec 0 t); congruence.
  - rewrite !upd_eq, Hpc, Z.eqb_refl. destruct (Z.eqb_spec 0 sem); [congruence|]. simpl. lia.
  - split; [done|]. intros t. rewrite Ha. unfold is_granted. rewrite HQ, !upd_eq. destruct (Z.eqb_spec sem 0); [done|].
    rewrite andb_false_r. simpl. destruct (Z.eq_dec t sem) as [->|Hne]; [rewrite upd_eq; lia|rewrite upd_ne by done; lia].
Qed.

(** A task returns from its wait. *)
Lemma books_finish x sem isr W E C Q :
  books W E C Q -> x ∈ T -> Q x = PcWait sem isr -> W x = 0 ->
  books W E C (upd Q x PcUser) /\
  forall t, available W E C (upd Q x PcUser) t + acquired (Some (sem, wait_result (E x))) t = available W E C Q t.
Proof.
  intros Hb Hx HQ Hw. pose proof (bk_pc _ _ _ _ Hb x Hx) as Hpc. rewrite HQ in Hpc. simpl in Hpc. destruct Hpc as [Hs He].
  destruct (books_change x sem W E C Q W E C (upd Q x PcUser) Hb Hx Hs) as [Hb' Ha]; try done.
  - intros y Hne. by rewrite upd_ne.
  - by rewrite upd_eq.
  - by apply (bk_max _ _ _ _ Hb).
  - lia.
  - split; [done|]. intros t. rewrite Ha. unfold is_granted, acquired, wait_result. rewrite HQ, upd_eq, Hw.
    destruct He as [[? _]|[_ [->|[->| ->]]]]; [congruence|..]; simpl; destruct (sem =? t); simpl; lia.
Qed.

(** A waiting task gets a count. *)
Lemma books_grant x sem W E C Q :
  books W E C Q -> x ∈ T -> sem <> 0 -> W x = sem -> C sem < 0 ->
  books (upd W x 0) E (upd C sem (C sem + 1)) Q /\
  forall t, available (upd W x 0) E (upd C sem (C sem + 1)) Q t = available W E C Q t + Z.b2z (sem =? t).
Proof.
  intros Hb Hx Hs Hw Hneg. pose proof (bk_pc _ _ _ _ Hb x Hx) as Hpc. rewrite Hw in Hpc.
  destruct (Q x) as [|sem' isr|] eqn:HQ; simpl in Hpc; [done| |done].
  destruct Hpc as [Hs' [[-> He]|[? _]]]; [|done].
  destruct (books_change x sem' W E C Q (upd W x 0) E (upd C sem' (C sem' + 1)) Q Hb Hx Hs) as [Hb' Ha].
  - intros y Hne. by rewrite upd_ne.
  - intros t Ht. by rewrite upd_ne.
  - rewrite HQ, upd_eq. simpl. split; [done|]. right. by split; [|left].
  - rewrite upd_eq. unfold SEM_VALUE_MAX. lia.
  - intros t Ht Ht0. rewrite upd_eq, Hw. destruct (Z.eqb_spec 0 t), (Z.eqb_spec sem' t); congruence.
  - rewrite !upd_eq, Hw, Z.eqb_refl. destruct (Z.eqb_spec 0 sem'); [congruence|]. simpl. lia.
  - split; [done|]. intros t. rewrite Ha. unfold is_granted. rewrite HQ, Hw, upd_eq, He. destruct (Z.eqb_spec sem' 0); [done|].
    rewrite andb_false_r. simpl. rewrite !andb_true_r. destruct (Z.eqb_spec sem' t) as [->|Hne]; [rewrite upd_eq; simpl; lia|rewrite upd_ne by congruence; simpl; lia].
Qed.

(** Nobody waits: the count goes up. *)
Lemma books_free sem W E C Q :
  books W E C Q -> 0 <= C sem < SEM_VALUE_MAX ->
  books W E (upd C sem (C sem + 1)) Q /\
  forall t, available W E (upd C sem (C sem + 1)) Q t = available W E C Q t + Z.b2z (sem =? t).
Proof.
  intros [Hc Hm Hp] Hr. split.
  - constructor; [| |done]; intros t Ht; unfold upd; (destruct (Z.eqb_spec t sem) as [->|]; [|by auto]); [rewrite Hc by done|]; lia.
  - intros t. unfold available, upd. destruct (Z.eqb_spec t sem) as [->|Hne]; [rewrite Z.eqb_refl; simpl; lia|].
    destruct (Z.eqb_spec sem t); [congruence|]. simpl. lia.
Qed.

(** A wait is cancelled. *)
Lemma books_cancel x errcode W E C Q :
  books W E C Q -> x ∈ T -> W x <> 0 -> C (W x) < 0 -> errcode = EINTR \/ errcode = ETIMEDOUT ->
  books (upd W x 0) (upd E x errcode) (upd C (W x) (C (W x) + 1)) Q /\
  forall t, available (upd W x 0) (upd E x errcode) (upd C (W x) (C (W x) + 1)) Q t = available W E C Q t.
Proof.
  intros Hb Hx Hs Hneg Herr. pose proof (bk_pc _ _ _ _ Hb x Hx) as Hpc.
  destruct (Q x) as [|sem isr|] eqn:HQ; simpl in Hpc; [done| |done]. destruct Hpc as [Hs' [[Hw He]|[? _]]]; [|done].
  destruct (books_change x (W x) W E C Q (upd W x 0) (upd E x errcode) (upd C (W x) (C (W x) + 1)) Q Hb Hx Hs) as [Hb' Ha].
  - intros y Hne. by rewrite !upd_ne.
  - intros t Ht. by rewrite upd_ne.
  - rewrite HQ, !upd_eq. simpl. split; [done|]. right. split; [done|by right].
  - rewrite upd_eq. unfold SEM_VALUE_MAX. lia.
  - intros t Ht Ht0. rewrite upd_eq. destruct (Z.eqb_spec 0 t), (Z.eqb_spec (W x) t); congruence.
  - rewrite !upd_eq, Z.eqb_refl. destruct (Z.eqb_spec 0 (W x)); [congruence|]. simpl. lia.
  - split; [done|]. intros t. rewrite Ha. unfold is_granted. rewrite HQ, !upd_eq. destruct (Z.eqb_spec (W x) 0); [done|].
    assert ((errcode =? 0) = false) as -> by (destruct Herr as [->| ->]; done). rewrite !andb_false_r. simpl.
    destruct (Z.eq_dec t (W x)) as [->|Hne]; [rewrite upd_eq; lia|rewrite upd_ne by done; lia].
Qed.

(** Nothing happens to the semaphores: the error number of a task that does
    not wait, or its place in a post. *)
Lemma books_local x W W' E E' C Q Q' :
  books W E C Q -> x ∈ T -> W x = 0 -> (forall y, W' y = W y) -> (forall y, y <> x -> E' y = E y) ->
  (forall y, y <> x -> Q' y = Q y) -> (match Q x, Q' x with PcWait _ _, _ | _, PcWait _ _ => False | _, _ => True end) ->
  books W' E' C Q' /\ forall t, available W' E' C Q' t = available W E C Q t.
Proof.
  intros [Hc Hm Hp] Hx Hw HW HE HQ Hcase. split.
  - constructor; [|done|].
    + intros t Ht. rewrite <- Hc by done. apply tally_ext. intros y _. unfold is_waiter. by rewrite HW.
    + intros y Hy. rewrite HW. destruct (decide (y = x)) as [->|Hne]; [|rewrite HE, HQ by done; by apply Hp]. destruct (Q' x); simpl; try done.
      by destruct (Q x).
  - intros t. unfold available. f_equal. apply tally_ext. intros y _. unfold is_granted. rewrite HW.
    destruct (decide (y = x)) as [->|Hne]; [|by rewrite HE, HQ]. destruct (Q x), (Q' x); done.
Qed.
End books.

(** ** The invariant of the system *)

Section system.
Context (T : list Z) (idle : Z) (P : list Z) (B : Z -> Z) (HT : NoDup T).
Abbreviation user := (user T idle).
Abbreviation core := (core T idle P).
Abbreviation views := (views B).
Abbreviation books := (books T).

Definition waits (s : sem_state) (y : Z) : Z := waitsem (tcbs (kn s) y).
Definition errnos (s : sem_state) (y : Z) : Z := pterrno (tcbs (kn s) y).

(** The tasks in the list of waiting tasks are those that wait for something. *)
Definition wait_list (A : tasks) (W : Z -> Z) : Prop := forall x, x ∈ T -> (x ∈ A g_waitingforsemaphore <-> W x <> 0).

(** What a task inside a post has left to do. *)
Definition posts_ok (Q : Z -> pc) : Prop :=
  forall x sem r, x ∈ T -> Q x = PcPost sem r -> r = RestNone \/ (user x /\ r = RestReprioritize x (B x)).

Record sem_inv (s : sys) (A : tasks) (G : hlists) : Prop := {
  in_core : core (ss s) A G;
  in_task : in_irq (kn (ss s)) = false;
  in_views : views (ss s) (waits (ss s)) (errnos (ss s)) (count_of (ss s));
  in_list : wait_list A (waits (ss s));
  in_books : books (waits (ss s)) (errnos (ss s)) (count_of (ss s)) (pcs s);
  in_posts : posts_ok (pcs s)
}.

Definition sys_available (s : sys) (sem : Z) : Z :=
  available T (waits (ss s)) (errnos (ss s)) (count_of (ss s)) (pcs s) sem.

(** A task inside a wait stays as it is but for being woken, and only a
    timeout gives it another error number. *)
Definition steady (s : sys) (e : sem_event) (W E : Z -> Z) : Prop :=
  forall y sem isr, pcs s y = PcWait sem isr ->
    (E y = errnos (ss s) y \/ e = EvIrqTimeout y (E y)) /\ (W y = waits (ss s) y \/ W y = 0).

Lemma steady_same s e : steady s e (waits (ss s)) (errnos (ss s)).
Proof. intros y sem isr _. split; by left. Qed.

Lemma steady_but s e x W E :
  (forall sem isr, pcs s x <> PcWait sem isr) -> (forall y, y <> x -> W y = waits (ss s) y) -> (forall y, y <> x -> E y = errnos (ss s) y) -> steady s e W E.
Proof.
  intros Hx HW HE y sem isr Hy. assert (y <> x) by (intros ->; by destruct (Hx sem isr)). by split; left; auto.
Qed.

Lemma steady_granted s e x : steady s e (granted_waits (waits (ss s)) x) (errnos (ss s)).
Proof.
  intros y sem isr _. split; [by left|]. unfold granted_waits. destruct (x =? 0); [by left|]. unfold upd. destruct (y =? x); [by right|by left].
Qed.

(** An event that returned, with what it does to the books. *)
Definition balanced (s : sys) (e : sem_event) (r : option (sys * finished)) : Prop :=
  exists s' f, r = Some (s', f) /\ (exists A' G', sem_inv s' A' G') /\
    (forall sem, sem <> 0 -> sys_available s' sem + acquired f sem = sys_available s sem + posted e sem) /\
    steady s e (waits (ss s')) (errnos (ss s')).

Lemma balanced_intro s e t Q f A' G' W E C :
  core t A' G' -> in_irq (kn t) = false -> views t W E C -> wait_list A' W -> books W E C Q -> posts_ok Q -> steady s e W E ->
  (forall sem, sem <> 0 -> available T W E C Q sem + acquired f sem = sys_available s sem + posted e sem) ->
  balanced s e (Some (mk_sys t Q, f)).
Proof.
  intros Hc Hirq Hv Hl Hb Hp Hst Ha. destruct Hv as [Vw Ve Vc Vb].
  destruct (books_ext T W E C Q (waits t) (errnos t) (count_of t) Q Hb Vw Ve Vc ltac:(done)) as [Hb' Ha'].
  exists (mk_sys t Q), f. split; [done|]. split.
  - exists A', G'. constructor; try done. intros x Hx. unfold waits. rewrite Vw. by apply Hl.
  - split; [intros sem Hs; unfold sys_available; simpl; rewrite Ha'; by apply Ha|].
    intros y sem isr Hy. unfold waits, errnos. simpl. rewrite Vw, Ve. by apply (Hst y sem isr).
Qed.

Lemma posts_ok_upd Q x q : posts_ok Q -> (forall sem r, q <> PcPost sem r) -> posts_ok (upd Q x q).
Proof.
  intros HQ Hq y sem r Hy. unfold upd. destruct (y =? x); [intros ->; by destruct (Hq sem r)|by apply HQ].
Qed.

(** The facts every event starts from. *)
Lemma inv_running s A G : sem_inv s A G ->
  rtr_head (kn (ss s)) = running A /\ cpu (kn (ss s)) = running A /\ running A ∈ T /\ waits (ss s) (running A) = 0.
Proof.
  intros Hi. destruct (core_running _ _ _ _ _ _ (in_core _ _ _ Hi)) as (Hh & Hin & HTr & H0). pose proof (co_ok _ _ _ _ _ _ (in_core _ _ _ Hi)) as Hok.
  split; [done|]. split; [apply (ok_cpu _ _ _ _ Hok)|]. split; [done|].
  destruct (Z.eq_dec (waits (ss s) (running A)) 0) as [|Hne]; [done|]. apply (in_list _ _ _ Hi) in Hne; [|done].
  discriminate (kr_once _ _ (si_rep _ _ _ _ (ok_inv _ _ _ _ Hok)) _ _ _ Hin Hne).
Qed.

Lemma inv_range s A G sem : sem_inv s A G -> sem <> 0 -> -32768 <= count_of (ss s) sem <= SEM_VALUE_MAX.
Proof.
  intros Hi Hs. pose proof (bk_count _ _ _ _ _ (in_books _ _ _ Hi) sem Hs) as Hc. pose proof (tally_bounds (is_waiter (waits (ss s)) sem) T) as Hb.
  pose proof (si_size _ _ _ _ (ok_inv _ _ _ _ (co_ok _ _ _ _ _ _ (in_core _ _ _ Hi)))) as Hsz. change max_tasks with 16%nat in Hsz.
  pose proof (bk_max _ _ _ _ _ (in_books _ _ _ Hi) sem Hs). lia.
Qed.

Lemma inv_waiter s A G sem : sem_inv s A G -> sem <> 0 -> waiter_there A (waits (ss s)) (count_of (ss s)) sem.
Proof.
  intros Hi Hs Hneg. pose proof (bk_count _ _ _ _ _ (in_books _ _ _ Hi) sem Hs) as Hc.
  destruct (tally_pos (is_waiter (waits (ss s)) sem) T) as (x & Hx & Hw); [lia|]. apply Z.eqb_eq in Hw. exists x. split; [|done].
  apply (in_list _ _ _ Hi); [done|congruence].
Qed.

(** Lists after a task has been woken, or has started to wait. *)
Lemma wait_list_woken A A' W x : wait_list A W -> woken A A' x -> x <> 0 -> wait_list A' (upd W x 0).
Proof.
  intros Hl Hw Hx0 y Hy. rewrite (Hw y), (Hl y Hy). unfold upd. destruct (Z.eqb_spec y x) as [->|].
  - split; [by intros [? _]|done].
  - split; [by intros [_ ?]|by intros ?; split].
Qed.

Lemma wait_list_blocked A A' W x sem :
  wait_list A W -> (forall y, y ∈ A' g_waitingforsemaphore <-> y = x \/ y ∈ A g_waitingforsemaphore) -> sem <> 0 ->
  wait_list A' (upd W x sem).
Proof.
  intros Hl Hw Hs y Hy. rewrite (Hw y), (Hl y Hy). unfold upd.
  destruct (Z.eqb_spec y x) as [->|]; [split; [done|by left]|]. split; [by intros [?|?]|by right].
Qed.

Lemma wait_list_members A A' W : wait_list A W -> same_members A A' -> wait_list A' W.
Proof. intros Hl [_ Hm] y Hy. rewrite Hm by done. by apply Hl. Qed.

Lemma wait_list_ext A W W' : wait_list A W -> (forall y, W' y = W y) -> wait_list A W'.
Proof. intros Hl HW y Hy. rewrite HW. by apply Hl. Qed.

(** A post, from wherever it comes. *)
Lemma books_post s A G A' sem :
  sem_inv s A G -> sem <> 0 -> count_of (ss s) sem < SEM_VALUE_MAX ->
  let x := post_waiter (waits (ss s)) (count_of (ss s)) sem A in
  woken A A' x ->
  wait_list A' (granted_waits (waits (ss s)) x) /\
  books (granted_waits (waits (ss s)) x) (errnos (ss s)) (upd (count_of (ss s)) sem (count_of (ss s) sem + 1)) (pcs s) /\
  forall t, available T (granted_waits (waits (ss s)) x) (errnos (ss s)) (upd (count_of (ss s)) sem (count_of (ss s) sem + 1)) (pcs s) t =
    sys_available s t + Z.b2z (sem =? t).
Proof.
  intros Hi Hs Hmax x Hw. destruct (post_waiter_case T idle P (ss s) A G _ _ sem (in_core _ _ _ Hi) (inv_waiter s A G sem Hi Hs))
    as [(Hneg & Hin & Hwx & Hx0)|[Hpos Hx0]]; fold x in Hx0; unfold granted_waits.
  - fold x in Hin, Hwx. destruct (Z.eqb_spec x 0) as [?|_]; [done|]. split; [apply (wait_list_woken A); [apply (in_list _ _ _ Hi)|done..]|].
    apply books_grant; try done; [apply (in_books _ _ _ Hi)|]. by apply (waiting_user T idle P (ss s) A G x (in_core _ _ _ Hi)).
  - rewrite Hx0 in *. simpl. split.
    + intros y Hy. rewrite (Hw y). pose proof (wsem_null T idle P (ss s) A G (in_core _ _ _ Hi)).
      rewrite <- (in_list _ _ _ Hi y Hy). split; [tauto|]. intros Hya. split; [by intros ->|done].
    + apply books_free; [apply (in_books _ _ _ Hi)|done].
Qed.
End system.
