(* ===== verification/SemSteps.v ===== *)
(** * Semaphores: every event keeps the books

    Each event of [SemSystem], where its callers do their duties, returns,
    keeps the invariant of the system, and changes what is available of each
    semaphore by its posts and its successful waits. *)

From stdpp Require Import base tactics numbers sets list sorting.
From S2P Require Import Prelude Queue QueueProps Sched SchedProps SchedOps SchedKernel SchedPriority SchedTheorems.
From S2P Require Import Sem SemHolder SemPrio SemOps SemCalls SemSystem.

(** The running task is not inside a wait. *)
Ltac steady_user HQ :=
  eapply steady_but; [intros ? ?; rewrite HQ; discriminate|intros y Hne; by rewrite ?upd_ne by done|intros y Hne; rewrite ?upd_ne by done; by auto].

Lemma steady_timeout s x errcode :
  steady s (EvIrqTimeout x errcode) (upd (waits (ss s)) x 0) (upd (errnos (ss s)) x errcode).
Proof. intros y sem isr _. unfold upd. destruct (Z.eqb_spec y x) as [->|]; (split; [|by auto]); [by right|by left]. Qed.

Section steps.
Context (T : list Z) (idle : Z) (P : list Z) (B : Z -> Z) (HT : NoDup T).
Abbreviation user := (user T idle).
Abbreviation core := (core T idle P).
Abbreviation views := (views B).
Abbreviation inv := (sem_inv T idle P B).
Abbreviation balanced := (balanced T idle P B).

(** Room to note one more priority in every task's [pend_reprios]: the array
    has CONFIG_SEM_NNESTPRIO entries, and a wait that boosts a holder of the
    semaphore may add one. *)
Definition nest_room (s : sys) : Prop :=
  forall x, x ∈ T -> npend_reprio (tcbs (kn (ss s)) x) < CONFIG_SEM_NNESTPRIO.

(** The duties of the callers: the idle task does not wait, counts and locks
    stay in range, and only a task inside a call continues it. *)
Definition sem_event_valid (s : sys) (e : sem_event) : Prop :=
  let k := kn (ss s) in
  let me := cpu k in
  match e with
  | EvWait sem => pcs s me = PcUser /\ me <> idle /\ sem <> 0 /\ lock k me < MAX_LOCK_COUNT
  | EvWaitIsr sem | EvTryWait sem => pcs s me = PcUser /\ me <> idle /\ sem <> 0
  | EvPost sem => pcs s me = PcUser /\ sem <> 0 /\ count_of (ss s) sem < SEM_VALUE_MAX /\ lock k me < MAX_LOCK_COUNT
  | EvLock => pcs s me = PcUser /\ lock k me < MAX_LOCK_COUNT
  | EvUnlock => pcs s me = PcUser
  | EvResume => pcs s me <> PcUser
  | EvIrqPost sem | EvIrqPostIsr sem => sem <> 0 /\ count_of (ss s) sem < SEM_VALUE_MAX
  | EvIrqTimeout x errcode => x ∈ T /\ (errcode = EINTR \/ errcode = ETIMEDOUT)
  | EvIrqTick => True
  end.

(** The event is a [sem_wait]. *)
Definition is_wait (e : sem_event) : bool :=
  match e with EvWait _ => true | _ => false end.

Lemma i16_dec s A G sem : inv s A G -> sem <> 0 -> i16 (count_of (ss s) sem - 1) = count_of (ss s) sem - 1.
Proof.
  intros Hi Hs. pose proof (inv_range T idle P B s A G sem Hi Hs) as Hr. pose proof (bk_count _ _ _ _ _ (in_books _ _ _ _ _ _ _ Hi) sem Hs) as Hc.
  pose proof (tally_bounds (is_waiter (waits (ss s)) sem) T) as Hb.
  pose proof (si_size _ _ _ _ (ok_inv _ _ _ _ (co_ok _ _ _ _ _ _ (in_core _ _ _ _ _ _ _ Hi)))) as Hsz. change max_tasks with 16%nat in Hsz.
  apply i16_small. unfold SEM_VALUE_MAX in *. lia.
Qed.

(** ** Waiting *)

(** The running task has taken a count. *)
Lemma balanced_take s A G G' t e sem E' :
  inv s A G -> sem <> 0 -> 0 < count_of (ss s) sem -> pcs s (running A) = PcUser -> (forall u, posted e u = 0) ->
  core t A G' -> in_irq (kn t) = false -> (forall y, y <> running A -> E' y = errnos (ss s) y) ->
  views t (upd (waits (ss s)) (running A) 0) E' (upd (count_of (ss s)) sem (i16 (count_of (ss s) sem - 1))) ->
  balanced s e (Some (mk_sys t (pcs s), Some (sem, OK))).
Proof.
  intros Hi Hs Hpos HQ Hp Hc Hirq HE Hv. rewrite (i16_dec s A G) in Hv by done.
  destruct (inv_running _ _ _ _ _ _ _ Hi) as (_ & _ & Hr & Hw).
  destruct (books_take T HT (running A) sem _ _ E' _ _ (in_books _ _ _ _ _ _ _ Hi) Hr Hs HQ Hpos HE) as [Hb Ha].
  eapply balanced_intro; [done|done|exact Hv| |exact Hb|apply (in_posts _ _ _ _ _ _ _ Hi)|by steady_user HQ|].
  - apply (wait_list_ext T A (waits (ss s))); [apply (in_list _ _ _ _ _ _ _ Hi)|]. intros y. unfold upd. by destruct (Z.eqb_spec y (running A)) as [->|].
  - intros u _. rewrite Hp. unfold sys_available. rewrite <- Ha. unfold acquired. rewrite andb_true_r. lia.
Qed.

(** The running task has started to wait. *)
Lemma balanced_block s A G A' t e sem isr E' :
  inv s A G -> sem <> 0 -> count_of (ss s) sem <= 0 -> pcs s (running A) = PcUser -> (forall u, posted e u = 0) ->
  core t A' G -> in_irq (kn t) = false -> (forall y, y <> running A -> E' y = errnos (ss s) y) -> E' (running A) = 0 ->
  views t (upd (waits (ss s)) (running A) sem) E' (upd (count_of (ss s)) sem (i16 (count_of (ss s) sem - 1))) ->
  (forall y, y ∈ A' g_waitingforsemaphore <-> y = running A \/ y ∈ A g_waitingforsemaphore) ->
  balanced s e (Some (mk_sys t (upd (pcs s) (running A) (PcWait sem isr)), None)).
Proof.
  intros Hi Hs Hneg HQ Hp Hc Hirq HE HEr Hv Hin. rewrite (i16_dec s A G) in Hv by done.
  destruct (inv_running _ _ _ _ _ _ _ Hi) as (_ & _ & Hr & Hw).
  destruct (books_block T HT (running A) sem isr _ _ E' _ _ (in_books _ _ _ _ _ _ _ Hi) Hr Hs HQ Hneg HE HEr) as [Hb Ha].
  eapply balanced_intro; [done|done|exact Hv| |exact Hb| |by steady_user HQ|].
  - apply (wait_list_blocked T A); [apply (in_list _ _ _ _ _ _ _ Hi)|done|done].
  - apply posts_ok_upd; [apply (in_posts _ _ _ _ _ _ _ Hi)|done].
  - intros u _. rewrite Hp, Ha. unfold acquired, sys_available. lia.
Qed.

Lemma wait_step s A G sem :
  inv s A G -> sem_event_valid s (EvWait sem) -> nest_room s -> balanced s (EvWait sem) (sem_exec s (EvWait sem)).
Proof.
  intros Hi (HQ & Hid & Hs & Hl) Hroom. destruct (inv_running _ _ _ _ _ _ _ Hi) as (Hh & Hcpu & Hr & Hw). rewrite Hcpu in *.
  pose proof (in_core _ _ _ _ _ _ _ Hi) as Hc. pose proof (in_views _ _ _ _ _ _ _ Hi) as Hv. pose proof (in_task _ _ _ _ _ _ _ Hi) as Hirq.
  simpl. unfold after_wait. destruct (Z_lt_le_dec 0 (count_of (ss s) sem)) as [Hpos|Hneg].
  - destruct (sem_wait_now T idle P B (ss s) A G sem _ _ _ Hc Hv Hirq) as (t & G' & -> & Hirq' & Hc' & Hv'); try done.
    cbn [mbind option_bind]. eapply (balanced_take s A G _ t _ sem (upd (errnos (ss s)) (running A) EINVAL)); try done. intros y Hne. by rewrite upd_ne.
  - destruct (sem_wait_blocks T idle P B (ss s) A G sem _ _ _ Hc Hv Hirq) as (t & A' & -> & Hc' & Hirq' & _ & Hv' & Hin & _); try done.
    { intros p Hp. apply Hroom. by apply (hb_task _ _ _ (co_hold _ _ _ _ _ _ Hc) sem). }
    cbn [mbind option_bind]. rewrite Hcpu. apply (balanced_block s A G A' t _ sem _ (upd (upd (errnos (ss s)) (running A) EINVAL) (running A) 0)); try done.
    + intros y Hne. by rewrite !upd_ne.
    + by rewrite upd_eq.
Qed.

Lemma waitisr_step s A G sem :
  inv s A G -> sem_event_valid s (EvWaitIsr sem) -> balanced s (EvWaitIsr sem) (sem_exec s (EvWaitIsr sem)).
Proof.
  intros Hi (HQ & Hid & Hs). destruct (inv_running _ _ _ _ _ _ _ Hi) as (Hh & Hcpu & Hr & Hw). rewrite Hcpu in *.
  pose proof (in_core _ _ _ _ _ _ _ Hi) as Hc. pose proof (in_views _ _ _ _ _ _ _ Hi) as Hv. pose proof (in_task _ _ _ _ _ _ _ Hi) as Hirq.
  simpl. unfold after_wait. destruct (Z_lt_le_dec 0 (count_of (ss s) sem)) as [Hpos|Hneg].
  - destruct (sem_wait_for_isr_now T idle P B (ss s) A G sem _ _ _ Hc Hv Hirq) as (t & -> & Hirq' & Hc' & Hv'); try done.
    cbn [mbind option_bind]. eapply (balanced_take s A G _ t _ sem (upd (errnos (ss s)) (running A) EINVAL)); try done. intros y Hne. by rewrite upd_ne.
  - destruct (sem_wait_for_isr_blocks T idle P B (ss s) A G sem _ _ _ Hc Hv Hirq) as (t & A' & -> & Hc' & Hirq' & Hv' & Hin); try done.
    cbn [mbind option_bind]. rewrite Hcpu. apply (balanced_block s A G A' t _ sem _ (upd (upd (errnos (ss s)) (running A) EINVAL) (running A) 0)); try done.
    + intros y Hne. by rewrite !upd_ne.
    + by rewrite upd_eq.
Qed.

Lemma trywait_step s A G sem :
  inv s A G -> sem_event_valid s (EvTryWait sem) -> balanced s (EvTryWait sem) (sem_exec s (EvTryWait sem)).
Proof.
  intros Hi (HQ & Hid & Hs). destruct (inv_running _ _ _ _ _ _ _ Hi) as (Hh & Hcpu & Hr & Hw). rewrite Hcpu in *.
  pose proof (in_core _ _ _ _ _ _ _ Hi) as Hc. pose proof (in_views _ _ _ _ _ _ _ Hi) as Hv. pose proof (in_task _ _ _ _ _ _ _ Hi) as Hirq.
  simpl. destruct (sem_trywait_spec T idle P B (ss s) A G sem _ _ _ Hc Hv Hirq) as (t & G' & -> & Hirq' & Hc' & Hv'); try done.
  cbn [mbind option_bind]. destruct (Z.ltb_spec 0 (count_of (ss s) sem)).
  - eapply (balanced_take s A G _ t _ sem (upd (upd (errnos (ss s)) (running A) EINVAL) (running A) EAGAIN)); try done. intros y Hne. by rewrite !upd_ne.
  - destruct (books_local T (running A) (waits (ss s)) (upd (waits (ss s)) (running A) 0) (errnos (ss s))
      (upd (upd (errnos (ss s)) (running A) EINVAL) (running A) EAGAIN) (count_of (ss s)) (pcs s) (pcs s)) as [Hb Ha]; try done.
    { apply (in_books _ _ _ _ _ _ _ Hi). }
    { intros y. unfold upd. by destruct (Z.eqb_spec y (running A)) as [->|]. }
    { intros y Hne. by rewrite !upd_ne. }
    { by rewrite HQ. }
    eapply balanced_intro; [done|done|exact Hv'| |exact Hb|apply (in_posts _ _ _ _ _ _ _ Hi)|by steady_user HQ|].
    + apply (wait_list_ext T A (waits (ss s))); [apply (in_list _ _ _ _ _ _ _ Hi)|]. intros y. unfold upd. by destruct (Z.eqb_spec y (running A)) as [->|].
    + intros u _. rewrite Ha. unfold acquired. rewrite andb_false_r. simpl. unfold sys_available. lia.
Qed.

(** ** Posting *)

Lemma post_step s A G sem :
  inv s A G -> sem_event_valid s (EvPost sem) -> balanced s (EvPost sem) (sem_exec s (EvPost sem)).
Proof.
  intros Hi (HQ & Hs & Hmax & Hl). destruct (inv_running _ _ _ _ _ _ _ Hi) as (Hh & Hcpu & Hr & Hw). rewrite Hcpu in *.
  pose proof (inv_range T idle P B s A G sem Hi Hs) as Hrange.
  destruct (sem_post_spec T idle P B (ss s) A G sem _ _ _ (in_core _ _ _ _ _ _ _ Hi) (in_views _ _ _ _ _ _ _ Hi) (in_task _ _ _ _ _ _ _ Hi) Hs
    (inv_waiter T idle P B s A G sem Hi Hs)) as (t & A' & G' & o & r & Hrun & Hc' & Hirq' & Hv' & Hwo & Ho); [lia|done|].
  destruct (books_post T idle P B HT s A G A' sem Hi Hs Hmax Hwo) as (Hl' & Hb & Ha). simpl. rewrite Hrun. cbn [mbind option_bind]. rewrite Hcpu.
  destruct Ho as [[-> ->]|[-> Hrest]].
  - eapply balanced_intro; [done|done|exact Hv'|done|exact Hb|apply (in_posts _ _ _ _ _ _ _ Hi)|apply steady_granted|]. intros u _. rewrite Ha. simpl. lia.
  - pose proof (bk_pc _ _ _ _ _ Hb (running A) Hr) as Hpc. rewrite HQ in Hpc. simpl in Hpc.
    set (W1 := granted_waits _ _) in *.
    destruct (books_local T (running A) W1 W1 (errnos (ss s)) (errnos (ss s)) _ (pcs s) (upd (pcs s) (running A) (PcPost sem r)) Hb Hr Hpc) as [Hb' Ha']; try done.
    { intros y Hne. by rewrite upd_ne. }
    { by rewrite HQ, upd_eq. }
    eapply balanced_intro; [done|done|exact Hv'|done|exact Hb'| |apply steady_granted|].
    + intros y sem' r' Hy. unfold upd. destruct (Z.eqb_spec y (running A)) as [->|]; [|by apply (in_posts _ _ _ _ _ _ _ Hi)].
      intros [= <- <-]. destruct Hrest as [->|[Hu ->]]; [by left|right]. by rewrite (vw_base _ _ _ _ _ Hv').
    + intros u _. rewrite Ha', Ha. simpl. lia.
Qed.

(** ** Resuming *)

Lemma resume_step s A G :
  inv s A G -> sem_event_valid s EvResume -> balanced s EvResume (sem_exec s EvResume).
Proof.
  intros Hi HQ. simpl in HQ. destruct (inv_running _ _ _ _ _ _ _ Hi) as (Hh & Hcpu & Hr & Hw). rewrite Hcpu in *.
  pose proof (in_core _ _ _ _ _ _ _ Hi) as Hc. pose proof (in_views _ _ _ _ _ _ _ Hi) as Hv. pose proof (in_task _ _ _ _ _ _ _ Hi) as Hirq.
  pose proof (in_books _ _ _ _ _ _ _ Hi) as Hb. pose proof (in_list _ _ _ _ _ _ _ Hi) as Hl. pose proof (in_posts _ _ _ _ _ _ _ Hi) as Hps.
  assert (Hps' : posts_ok T idle B (upd (pcs s) (running A) PcUser)) by (by apply posts_ok_upd).
  simpl. rewrite Hcpu. destruct (pcs s (running A)) as [|sem isr|sem r] eqn:Hpc; [done| |].
  - destruct (books_finish T HT (running A) sem isr _ _ _ _ Hb Hr Hpc Hw) as [Hb' Ha'].
    assert (Hend : forall t A', core t A' G -> in_irq (kn t) = false -> views t (waits (ss s)) (errnos (ss s)) (count_of (ss s)) -> same_members A A' ->
      balanced s EvResume (Some (mk_sys t (upd (pcs s) (running A) PcUser), Some (sem, wait_result (errnos (ss s) (running A)))))).
    { intros t A' Hc' Hirq' Hv' Hm. eapply balanced_intro; [done|done|exact Hv'|by apply (wait_list_members T A)|exact Hb'|done|apply steady_same|].
      intros u _. rewrite Ha'. simpl. unfold sys_available. lia. }
    destruct isr.
    + rewrite (sem_wait_for_isr_resume_spec T idle P B (ss s) A G _ _ _ Hc Hv Hirq). by apply (Hend (ss s) A).
    + destruct (sem_wait_resume_spec T idle P B (ss s) A G _ _ _ Hc Hv Hirq) as (t & A' & -> & Hc' & Hirq' & Hv' & Hm). by apply (Hend t A').
  - destruct (sem_post_resume_spec T idle P B (ss s) A G sem (running A) r _ _ _ Hc Hv Hirq) as (t & A' & G' & -> & Hc' & Hirq' & Hv' & Hm).
    { destruct (Hps (running A) sem r Hr Hpc) as [->|[Hu ->]]; [by left|right]. split; [done|]. by rewrite (vw_base _ _ _ _ _ Hv). }
    destruct (books_local T (running A) (waits (ss s)) (waits (ss s)) (errnos (ss s)) (errnos (ss s)) (count_of (ss s)) (pcs s) (upd (pcs s) (running A) PcUser) Hb Hr Hw) as [Hb' Ha']; try done.
    { intros y Hne. by rewrite upd_ne. }
    { by rewrite Hpc, upd_eq. }
    cbn [mbind option_bind]. eapply balanced_intro; [done|done|exact Hv'|by apply (wait_list_members T A)|exact Hb'|done|apply steady_same|].
    intros u _. rewrite Ha'. simpl. unfold sys_available. lia.
Qed.

(** ** The preemption lock *)

Lemma lock_step s A G :
  inv s A G -> sem_event_valid s EvLock -> balanced s EvLock (sem_exec s EvLock).
Proof.
  intros Hi [HQ Hl]. destruct (inv_running _ _ _ _ _ _ _ Hi) as (Hh & Hcpu & Hr & Hw). rewrite Hcpu in *.
  pose proof (in_task _ _ _ _ _ _ _ Hi) as Hirq.
  destruct (sched_lock_core T idle P B (ss s) A G _ _ _ (in_core _ _ _ _ _ _ _ Hi) (in_views _ _ _ _ _ _ _ Hi) Hirq Hl) as (k' & Hrun & Hc & Hv & Hs & _).
  simpl. rewrite Hrun. cbn [mbind option_bind].
  eapply balanced_intro; [done|simpl; by rewrite (sc_irq _ _ Hs)|exact Hv|apply (in_list _ _ _ _ _ _ _ Hi)|apply (in_books _ _ _ _ _ _ _ Hi)|
    apply (in_posts _ _ _ _ _ _ _ Hi)|apply steady_same|]. intros u _. simpl. unfold sys_available. lia.
Qed.

Lemma unlock_step s A G : inv s A G -> balanced s EvUnlock (sem_exec s EvUnlock).
Proof.
  intros Hi. pose proof (in_task _ _ _ _ _ _ _ Hi) as Hirq.
  destruct (sched_unlock_core T idle P B (ss s) A G _ _ _ (in_core _ _ _ _ _ _ _ Hi) (in_views _ _ _ _ _ _ _ Hi) Hirq) as (k' & A' & Hrun & Hc & Hv & Hs & Hm).
  simpl. rewrite Hrun. cbn [mbind option_bind].
  eapply balanced_intro; [done|simpl; by rewrite (sc_irq _ _ Hs)|exact Hv| |apply (in_books _ _ _ _ _ _ _ Hi)|apply (in_posts _ _ _ _ _ _ _ Hi)|apply steady_same|].
  - apply (wait_list_members T A); [apply (in_list _ _ _ _ _ _ _ Hi)|done].
  - intros u _. simpl. unfold sys_available. lia.
Qed.

(** ** Interrupts *)

Lemma core_set_irq s A G b W E C :
  core s A G -> views s W E C ->
  core (set_kn (set_in_irq b (kn s)) s) A G /\ views (set_kn (set_in_irq b (kn s)) s) W E C.
Proof.
  intros [Ho Hl Hp Hh Hr Hb] [Vw Ve Vc Vb]. split; [|by constructor]. constructor; try done.
  - destruct Ho as [Hi Hc Hpe]. constructor; [by apply (inv_ext T idle (kn s))|done|done].
  - by apply (hrep_ext P s).
  - by apply (hold_by_ext _ s).
Qed.

(** A handler [f] that keeps the invariants and whose effects are booked. *)
Lemma handler_step s A G e f :
  inv s A G ->
  (forall t, core t A G -> in_irq (kn t) = true -> views t (waits (ss s)) (errnos (ss s)) (count_of (ss s)) ->
     exists t' A' G' W E C, f t = Some t' /\ core t' A' G' /\ views t' W E C /\ wait_list T A' W /\ books T W E C (pcs s) /\ steady s e W E /\
       forall u, u <> 0 -> available T W E C (pcs s) u = sys_available T s u + posted e u) ->
  balanced s e (t ← in_handler f (ss s); Some (mk_sys t (pcs s), None)).
Proof.
  intros Hi Hf. destruct (core_set_irq (ss s) A G true _ _ _ (in_core _ _ _ _ _ _ _ Hi) (in_views _ _ _ _ _ _ _ Hi)) as [Hc Hv].
  destruct (Hf _ Hc eq_refl Hv) as (t' & A' & G' & W & E & C & Hrun & Hc' & Hv' & Hl & Hb & Hst & Ha). unfold in_handler. rewrite Hrun. cbn [mbind option_bind].
  destruct (core_set_irq t' A' G' false W E C Hc' Hv') as [Hc2 Hv2].
  eapply balanced_intro; [exact Hc2|done|exact Hv2|done|exact Hb|apply (in_posts _ _ _ _ _ _ _ Hi)|done|].
  intros u Hu. rewrite Ha by done. simpl. lia.
Qed.

Lemma irqpost_step s A G sem :
  inv s A G -> sem_event_valid s (EvIrqPost sem) -> balanced s (EvIrqPost sem) (sem_exec s (EvIrqPost sem)).
Proof.
  intros Hi [Hs Hmax]. pose proof (inv_range T idle P B s A G sem Hi Hs) as Hrange. apply (handler_step s A G); [done|].
  intros t Hc Hirq Hv.
  destruct (sem_post_irq_spec T idle P B t A G sem _ _ _ Hc Hv Hirq Hs (inv_waiter T idle P B s A G sem Hi Hs)) as (t' & A' & G' & -> & Hc' & _ & Hv' & Hwo); [lia|].
  destruct (books_post T idle P B HT s A G A' sem Hi Hs Hmax Hwo) as (Hl' & Hb & Ha). eexists t', A', G', _, _, _.
  split; [done|]. split; [done|]. split; [exact Hv'|]. split; [done|]. split; [exact Hb|]. split; [apply steady_granted|]. intros u _. by rewrite Ha.
Qed.

Lemma irqpostisr_step s A G sem :
  inv s A G -> sem_event_valid s (EvIrqPostIsr sem) -> balanced s (EvIrqPostIsr sem) (sem_exec s (EvIrqPostIsr sem)).
Proof.
  intros Hi [Hs Hmax]. pose proof (inv_range T idle P B s A G sem Hi Hs) as Hrange. apply (handler_step s A G); [done|].
  intros t Hc Hirq Hv.
  destruct (sem_post_from_isr_spec T idle P B t A G sem _ _ _ Hc Hv Hs (inv_waiter T idle P B s A G sem Hi Hs)) as (t' & A' & G' & -> & Hc' & _ & Hv' & Hwo); [lia|].
  destruct (books_post T idle P B HT s A G A' sem Hi Hs Hmax Hwo) as (Hl' & Hb & Ha). eexists t', A', G', _, _, _.
  split; [done|]. split; [done|]. split; [exact Hv'|]. split; [done|]. split; [exact Hb|]. split; [apply steady_granted|]. intros u _. by rewrite Ha.
Qed.

Lemma waiting_negative s A G x : inv s A G -> x ∈ T -> waits (ss s) x <> 0 -> count_of (ss s) (waits (ss s) x) < 0.
Proof.
  intros Hi Hx Hw. pose proof (bk_count _ _ _ _ _ (in_books _ _ _ _ _ _ _ Hi) _ Hw) as Hc.
  destruct (list_elem_of_split _ _ Hx) as (l1 & l2 & E).
  assert (Hpos : 0 < tally (is_waiter (waits (ss s)) (waits (ss s) x)) T); [|lia].
  rewrite E. clear. induction l1 as [|y l1 IH]; simpl.
  - unfold is_waiter at 1. rewrite Z.eqb_refl. pose proof (tally_bounds (is_waiter (waits (ss s)) (waits (ss s) x)) l2). simpl. lia.
  - destruct (is_waiter _ _ y); simpl; lia.
Qed.

Lemma timeout_step s A G x errcode :
  inv s A G -> sem_event_valid s (EvIrqTimeout x errcode) -> balanced s (EvIrqTimeout x errcode) (sem_exec s (EvIrqTimeout x errcode)).
Proof.
  intros Hi [Hx Herr]. apply (handler_step s A G); [done|]. intros t Hc Hirq Hv.
  destruct (Z.eq_dec (waits (ss s) x) 0) as [Hw|Hw].
  - rewrite (sem_waitirq_late T idle P t A G x errcode Hc Hx) by (rewrite (in_list _ _ _ _ _ _ _ Hi x Hx); tauto).
    eexists t, A, G, _, _, _. split; [done|]. split; [done|]. split; [exact Hv|]. split; [apply (in_list _ _ _ _ _ _ _ Hi)|].
    split; [apply (in_books _ _ _ _ _ _ _ Hi)|]. split; [apply steady_same|]. intros u _. simpl. unfold sys_available. lia.
  - pose proof (waiting_negative s A G x Hi Hx Hw) as Hneg. pose proof (inv_range T idle P B s A G _ Hi Hw) as Hrange.
    assert (Hin : x ∈ A g_waitingforsemaphore) by (by apply (in_list _ _ _ _ _ _ _ Hi)).
    destruct (sem_waitirq_spec T idle P B t A G x errcode _ _ _ Hc Hv Hin Hw) as (t' & A' & -> & Hc' & _ & Hv' & Hwo); [lia|].
    destruct (books_cancel T HT x errcode _ _ _ _ (in_books _ _ _ _ _ _ _ Hi) Hx Hw Hneg Herr) as [Hb Ha].
    eexists t', A', G, _, _, _. split; [done|]. split; [done|]. split; [exact Hv'|].
    split; [apply (wait_list_woken T A); [apply (in_list _ _ _ _ _ _ _ Hi)|done|]|split; [exact Hb|split; [apply steady_timeout|intros u _; rewrite Ha; simpl; unfold sys_available; lia]]].
    by apply (waiting_user T idle P t A G x Hc).
Qed.

Lemma tick_step s A G : inv s A G -> balanced s EvIrqTick (sem_exec s EvIrqTick).
Proof.
  intros Hi. apply (handler_step s A G); [done|]. intros t Hc Hirq Hv.
  destruct (sched_process_timeslice_spec T idle (kn t) A (co_ok _ _ _ _ _ _ Hc)) as (k' & A' & -> & Hok' & Hm & Hs). cbn [mbind option_bind].
  destruct (core_scheduled T idle P B t A G k' A' _ _ _ Hc Hv (sliced_scheduled _ _ Hs) Hok') as [Hc' Hv'].
  { apply (same_members_listed T A); [done|apply (co_listed _ _ _ _ _ _ Hc)]. }
  eexists (set_kn k' t), A', G, _, _, _. split; [done|]. split; [done|]. split; [exact Hv'|].
  split; [apply (wait_list_members T A); [apply (in_list _ _ _ _ _ _ _ Hi)|done]|]. split; [apply (in_books _ _ _ _ _ _ _ Hi)|].
  split; [apply steady_same|]. intros u _. simpl. unfold sys_available. lia.
Qed.

(** ** Any event *)

Lemma sem_exec_balanced s A G e :
  inv s A G -> sem_event_valid s e -> (is_wait e = true -> nest_room s) -> balanced s e (sem_exec s e).
Proof.
  destruct e; intros Hi Hv Hroom; [by eapply wait_step; auto|by eapply waitisr_step|by eapply trywait_step|by eapply post_step|by eapply lock_step|
    by eapply unlock_step|by eapply resume_step|by eapply irqpost_step|by eapply irqpostisr_step|by eapply timeout_step|by eapply tick_step].
Qed.
End steps.
