(* ===== verification/SemTheorems.v ===== *)
(** * Semaphores: theorems

    What the semaphores guarantee under every interleaving of tasks and
    interrupts, what the single calls do, and two ways in which priority
    inheritance fails. *)

From stdpp Require Import base tactics numbers sets list sorting.
From S2P Require Import Prelude Queue QueueProps Sched SchedProps SchedOps SchedKernel SchedPriority SchedTheorems.
From S2P Require Import Sem SemHolder SemPrio SemOps SemCalls SemSystem SemSteps.

Definition bases (s : sys) (y : Z) : Z := base_priority (tcbs (kn (ss s)) y).

(** A state in which the invariants hold, with the base priorities [B]. *)
Definition sem_good (T : list Z) (idle : Z) (P : list Z) (B : Z -> Z) (s : sys) : Prop :=
  NoDup T /\ exists A G, sem_inv T idle P B s A G.

(** ** Runs *)

(** States reached by events, with the numbers of successful waits and of
    posts so far.  Every [sem_wait] finds room for the priorities it notes. *)
Inductive sem_run (T : list Z) (idle : Z) (s0 : sys) : sys -> (Z -> Z) -> (Z -> Z) -> Prop :=
  | run_start : sem_run T idle s0 s0 (fun _ => 0) (fun _ => 0)
  | run_event s got put e s' f :
      sem_run T idle s0 s got put -> sem_event_valid T idle s e -> (is_wait e = true -> nest_room T s) ->
      sem_exec s e = Some (s', f) ->
      sem_run T idle s0 s' (fun sem => got sem + acquired f sem) (fun sem => put sem + posted e sem).

Section runs.
Context (T : list Z) (idle : Z) (P : list Z) (B : Z -> Z).

Lemma sem_exec_good s e :
  sem_good T idle P B s -> sem_event_valid T idle s e -> (is_wait e = true -> nest_room T s) ->
  exists s' f, sem_exec s e = Some (s', f) /\ sem_good T idle P B s' /\
    forall sem, sem <> 0 -> sys_available T s' sem + acquired f sem = sys_available T s sem + posted e sem.
Proof.
  intros (HT & A & G & Hi) Hv Hroom. destruct (sem_exec_balanced T idle P B HT s A G e Hi Hv Hroom) as (s' & f & Hrun & (A' & G' & Hi') & Ha & _).
  exists s', f. split; [done|]. split; [|done]. split; [done|by exists A', G'].
Qed.

Lemma sem_run_good s0 s got put :
  sem_good T idle P B s0 -> sem_run T idle s0 s got put ->
  sem_good T idle P B s /\ forall sem, sem <> 0 -> sys_available T s sem + got sem = sys_available T s0 sem + put sem.
Proof.
  intros Hg Hrun. induction Hrun as [|s got put e s' f _ [IH IHa] Hv Hroom Hrun]; [split; [done|lia]|].
  destruct (sem_exec_good s e IH Hv Hroom) as (s1 & f1 & Hrun1 & Hg1 & Ha1). rewrite Hrun in Hrun1. injection Hrun1 as <- <-.
  split; [done|]. intros sem Hs. specialize (IHa sem Hs). specialize (Ha1 sem Hs). lia.
Qed.

(** Outside of the semaphore calls nothing is granted and not yet returned. *)
Lemma available_user s sem : (forall x, x ∈ T -> pcs s x = PcUser) -> sys_available T s sem = Z.max 0 (count_of (ss s) sem).
Proof.
  intros HQ. unfold sys_available, available. rewrite (tally_ext (fun _ => false)).
  - clear. induction T as [|x l IH]; simpl in *; lia.
  - intros x Hx. unfold is_granted. by rewrite HQ.
Qed.

Lemma available_ge s sem : Z.max 0 (count_of (ss s) sem) <= sys_available T s sem.
Proof. unfold sys_available, available. pose proof (tally_bounds (is_granted (waits (ss s)) (errnos (ss s)) (pcs s) sem) T). lia. Qed.

(** A task that is not in the list of waiting tasks is not in the state of one. *)
Lemma not_waiting_state s A G x :
  core T idle P s A G -> x ∈ T -> x ∉ A g_waitingforsemaphore -> state (kn s) x <> TSTATE_WAIT_SEM.
Proof.
  intros Hc HT Hx. pose proof (co_ok _ _ _ _ _ _ Hc) as Hok. destruct (co_listed _ _ _ _ _ _ Hc x HT) as [tl Htl].
  rewrite (si_state _ _ _ _ (ok_inv _ _ _ _ Hok) tl x Htl). destruct tl; try done. simpl. by destruct (decide _).
Qed.

End runs.

(** ** A small system

    The idle task (8) and tasks of priority 50 (16), 100 (24) and 200 (32),
    all ready to run; semaphores 4096 and 4200 with one count each and all
    others with none; sixteen free containers. *)

Definition sys_tcb (pid p : Z) (st : tstate) : tcb_s := mk_tcb pid p 0 (fun _ => 0) p st 0 0 0 0 0.

Definition sys_kernel : kernel :=
  mk_kernel
    (mk_links (fun p => if p =? 32 then 24 else if p =? 24 then 16 else if p =? 16 then 8 else 0)
       (fun p => if p =? 24 then 32 else if p =? 16 then 24 else if p =? 8 then 16 else 0))
    (fun p =>
       if p =? 8 then sys_tcb 0 0 TSTATE_TASK_READYTORUN else if p =? 16 then sys_tcb 1 50 TSTATE_TASK_READYTORUN
       else if p =? 24 then sys_tcb 2 100 TSTATE_TASK_READYTORUN else if p =? 32 then sys_tcb 3 200 TSTATE_TASK_RUNNING
       else sys_tcb 0 0 TSTATE_TASK_INVALID)
    (fun tl => match tl with g_readytorun => mk_queue 32 8 | _ => empty_queue end)
    32 false 0 (fun i => (i, if i =? 0 then 8 else if i =? 1 then 16 else if i =? 2 then 24 else if i =? 3 then 32 else 0)).

Definition sys_tasks : tasks := fun tl => match tl with g_readytorun => [32; 24; 16; 8] | _ => [] end.

Definition sys_before : sem_state :=
  mk_state sys_kernel (fun sem => mk_sem (if (sem =? 4096) || (sem =? 4200) then 1 else 0) 0) (fun _ => mk_semholder 0 0 0) 0.

Definition sys_start : sys := mk_sys (sem_initholders 8192 sys_before) (fun _ => PcUser).

Abbreviation sys_T := demo_T.
Abbreviation sys_P := (containers 16 8192).

Lemma sys_kernel_ok : sched_ok sys_T 8 sys_kernel sys_tasks.
Proof.
  constructor; [|done|done]. constructor.
  - constructor.
    + intros []; constructor; simpl; try done; try (apply (bool_decide_unpack _); vm_compute; exact I).
    + intros t1 t2 x H1 H2. destruct t1, t2; try reflexivity; exfalso; simpl in H1, H2; first [by apply elem_of_nil in H1 | by apply elem_of_nil in H2].
  - vm_compute. lia.
  - intros tl x Hx. destruct tl; simpl in Hx; demo_elem Hx; apply (bool_decide_unpack _); vm_compute; exact I.
  - intros tl x Hx. destruct tl; simpl in Hx; demo_elem Hx; reflexivity.
  - intros tl _. destruct tl; simpl; unfold sorted; repeat constructor; vm_compute; discriminate.
  - by exists [32; 24; 16].
  - done.
  - intros tl x Hx Hne. destruct tl; simpl in Hx; demo_elem Hx; try done; vm_compute; split; discriminate.
  - intros x. unfold lock. simpl. repeat (destruct (_ =? _); [done|]). done.
Qed.

Lemma sys_start_good : sem_good sys_T 8 sys_P (bases sys_start) sys_start.
Proof.
  destruct (sem_initholders_spec 8192 sys_before) as (Hr & Hk & Hs); [lia|done|].
  split; [apply (bool_decide_unpack _); vm_compute; exact I|]. exists sys_tasks. eexists. constructor; simpl ss; simpl pcs.
  - constructor; [rewrite Hk; apply sys_kernel_ok| | | |exact Hr|].
    + intros x Hx. unfold demo_T in Hx. exists g_readytorun. demo_elem Hx; simpl; set_solver.
    + intros x [Hx Hne]. rewrite Hk. unfold demo_T in Hx. demo_elem Hx; try done; (constructor; [vm_compute; split; discriminate..|]; intros i Hi; simpl in Hi; lia).
    + intros x [Hx Hne]. rewrite Hk. unfold demo_T in Hx. demo_elem Hx; try done; reflexivity.
    + constructor; intros ? ? ?; simpl; set_solver.
  - by rewrite Hk.
  - constructor; try done.
  - intros x Hx. unfold waits. rewrite Hk. unfold demo_T in Hx. demo_elem Hx; simpl; split; [intros H; by apply elem_of_nil in H|done|..]; set_solver.
  - constructor.
    + intros sem Hs0. rewrite (tally_ext (fun _ => false)).
      * unfold count_of. rewrite Hs. cbn [sems sys_before semcount]. by destruct (_ || _).
      * intros x Hx. unfold is_waiter, waits. rewrite Hk. apply Z.eqb_neq. unfold demo_T in Hx. demo_elem Hx; exact (not_eq_sym Hs0).
    + intros sem Hs0. unfold count_of. rewrite Hs. simpl. unfold SEM_VALUE_MAX. destruct (_ || _); lia.
    + intros x Hx. unfold waits. rewrite Hk. unfold demo_T in Hx. demo_elem Hx; reflexivity.
  - done.
Qed.

(** The state after an event. *)
Definition next (s : sys) (e : sem_event) : sys := match sem_exec s e with Some (s', _) => s' | None => s end.

Lemma next_good T idle P B s e :
  sem_good T idle P B s -> sem_event_valid T idle s e -> (is_wait e = true -> nest_room T s) -> sem_good T idle P B (next s e).
Proof. intros Hg Hv Hroom. destruct (sem_exec_good T idle P B s e Hg Hv Hroom) as (s' & f & Hrun & Hg' & _). unfold next. by rewrite Hrun. Qed.

(** Events in turn. *)
Fixpoint sem_events (s : sys) (l : list sem_event) : option sys :=
  match l with
  | [] => Some s
  | e :: l => r ← sem_exec s e; sem_events r.1 l
  end.

Lemma exec_next s e f : option_map snd (sem_exec s e) = Some f -> sem_exec s e = Some (next s e, f).
Proof. unfold next. destruct (sem_exec s e) as [[s' f']|]; [|done]. simpl. by intros [= ->]. Qed.

(** ** Theorems *)

(** C3: The books of the semaphores balance under every interleaving.  From a
    state outside of the semaphore calls, after any sequence of waits, tries,
    posts, posts and timeouts in interrupt handlers, clock ticks, preemption
    locks and resumptions in which every [sem_wait] finds room to note one
    more priority for each task (fewer than CONFIG_SEM_NNESTPRIO = 16 noted;
    without room it fails, as [sem_boost_overflows] shows): no more waits for
    a semaphore have succeeded than it had counts and got posts; the counts
    are conserved, with those granted to tasks that have not returned yet; a
    negative count is exactly the number of tasks that wait, so none waits
    while a count is there; and every further event returns, a [sem_wait] if
    it finds that room. *)
Theorem sem_runs_balance T idle P s0 s got put :
  sem_good T idle P (bases s0) s0 -> (forall x, x ∈ T -> pcs s0 x = PcUser) -> sem_run T idle s0 s got put ->
  (forall sem, sem <> 0 ->
     got sem <= Z.max 0 (count_of (ss s0) sem) + put sem /\
     got sem + tally (is_granted (waits (ss s)) (errnos (ss s)) (pcs s) sem) T + Z.max 0 (count_of (ss s) sem) =
       Z.max 0 (count_of (ss s0) sem) + put sem /\
     tally (is_waiter (waits (ss s)) sem) T = Z.max 0 (- count_of (ss s) sem)) /\
  (forall e, sem_event_valid T idle s e -> (is_wait e = true -> nest_room T s) -> is_Some (sem_exec s e)).
Proof.
  intros Hg HQ Hrun. destruct (sem_run_good T idle P (bases s0) s0 s got put Hg Hrun) as [Hg' Ha]. split.
  - intros sem Hs. specialize (Ha sem Hs). rewrite (available_user T s0 sem HQ) in Ha. pose proof (available_ge T s sem) as Hge.
    destruct Hg' as (_ & A & G & Hi). split; [lia|]. split; [|by apply (bk_count _ _ _ _ _ (in_books _ _ _ _ _ _ _ Hi))].
    unfold sys_available, available in Ha. lia.
  - intros e Hv Hroom. destruct (sem_exec_good T idle P (bases s0) s e Hg' Hv Hroom) as (s' & f & -> & _). done.
Qed.

Lemma sem_runs_balance_witness :
  let s1 := next sys_start (EvTryWait 4096) in
  let s2 := next s1 (EvPost 4096) in
  exists got put, sem_run sys_T 8 sys_start s2 got put /\ got 4096 = 1 /\ put 4096 = 1 /\
    got 4096 <= Z.max 0 (count_of (ss sys_start) 4096) + put 4096.
Proof.
  intros s1 s2. eexists _, _. assert (Hrun : sem_run sys_T 8 sys_start s2
    (fun sem => 0 + acquired (Some (4096, 0)) sem + acquired None sem) (fun sem => 0 + posted (EvTryWait 4096) sem + posted (EvPost 4096) sem)).
  { eapply (run_event _ _ _ s1 (fun sem => 0 + acquired (Some (4096, 0)) sem) (fun sem => 0 + posted (EvTryWait 4096) sem)).
    - eapply run_event; [constructor|vm_compute; split_and!; discriminate || reflexivity|discriminate|apply exec_next; vm_compute; reflexivity].
    - vm_compute. split_and!; discriminate || reflexivity.
    - discriminate.
    - apply exec_next. vm_compute. reflexivity. }
  split; [exact Hrun|]. split; [reflexivity|]. split; [reflexivity|].
  destruct (sem_runs_balance sys_T 8 sys_P sys_start s2 _ _ sys_start_good (fun _ _ => eq_refl) Hrun) as [H _].
  apply (H 4096). discriminate.
Defined.

(** C22: A post with tasks waiting gives the count to the waiting task of the
    highest priority and to nobody else: that task no longer waits and will
    return success, all others wait as before, and the count goes up by one. *)
Theorem sem_post_wakes_highest T idle P B s sem :
  sem_good T idle P B s -> sem_event_valid T idle s (EvPost sem) -> count_of (ss s) sem < 0 ->
  exists s' o r x, sem_post (ss s) sem = Some (s', o, r) /\ x ∈ T /\ waits (ss s) x = sem /\
    (forall y, y ∈ T -> waits (ss s) y = sem -> prio (kn (ss s)) y <= prio (kn (ss s)) x) /\
    waits s' x = 0 /\ wait_result (errnos s' x) = OK /\ state (kn s') x <> TSTATE_WAIT_SEM /\
    (forall y, y <> x -> waits s' y = waits (ss s) y) /\ count_of s' sem = count_of (ss s) sem + 1.
Proof.
  intros (HT & A & G & Hi) (HQ & Hs & Hmax & Hl) Hneg. destruct (inv_running _ _ _ _ _ _ _ Hi) as (_ & Hcpu & _). rewrite Hcpu in Hl.
  pose proof (inv_range T idle P B s A G sem Hi Hs) as Hrange. pose proof (in_core _ _ _ _ _ _ _ Hi) as Hc.
  pose proof (inv_waiter T idle P B s A G sem Hi Hs) as Hwt. pose proof (wsem_null T idle P (ss s) A G Hc) as H0.
  destruct (sem_post_spec T idle P B (ss s) A G sem _ _ _ Hc (in_views _ _ _ _ _ _ _ Hi) (in_task _ _ _ _ _ _ _ Hi) Hs Hwt)
    as (s' & A' & G' & o & r & Hrun & Hc' & _ & Hv' & Hwo & _); [lia|done|].
  destruct (post_waiter_case T idle P (ss s) A G _ _ sem Hc Hwt) as [(_ & Hin & Hwx & Hx0)|[? _]]; [|lia].
  set (x := post_waiter _ _ _ _) in *. destruct (waiting_user T idle P (ss s) A G x Hc Hin) as ([HxT _] & _ & _).
  exists s', o, r, x. split; [done|]. split; [done|]. split; [done|].
  unfold granted_waits in Hv'. destruct (Z.eqb_spec x 0) as [?|_]; [done|]. destruct Hv' as [Vw Ve Vc _].
  unfold waits, errnos. rewrite Vw, Ve, Vc, !upd_eq. split_and!; try done.
  - intros y Hy Hwy. unfold x, post_waiter. destruct (Z.ltb_spec (count_of (ss s) sem) 0); [|lia].
    apply first_waiter_best; [| |done|done].
    + apply (si_sorted _ _ _ _ (ok_inv _ _ _ _ (co_ok _ _ _ _ _ _ Hc)) g_waitingforsemaphore). done.
    + apply (in_list _ _ _ _ _ _ _ Hi); [done|]. unfold waits. congruence.
  - pose proof (bk_pc _ _ _ _ _ (in_books _ _ _ _ _ _ _ Hi) x HxT) as Hpc. rewrite Hwx in Hpc.
    destruct (pcs s x); simpl in Hpc; [done| |done]. destruct Hpc as [_ [[_ He]|[? _]]]; [|done]. by rewrite He.
  - apply (not_waiting_state T idle P s' A' G'); [done|done|]. rewrite (Hwo x). by intros [? _].
  - intros y Hy. by rewrite Vw, upd_ne.
Qed.

(** Task 32 takes semaphore 4096, waits for 4300, and task 24 waits for 4096
    and task 16 gets to run. *)
Definition sys_contended : sys :=
  next (next (next sys_start (EvTryWait 4096)) (EvWait 4300)) (EvWait 4096).

Lemma sys_room s :
  forallb (fun x => npend_reprio (tcbs (kn (ss s)) x) <? CONFIG_SEM_NNESTPRIO) sys_T = true ->
  nest_room sys_T s.
Proof. intros H x Hx. rewrite forallb_forall in H. apply Z.ltb_lt, H. by apply list_elem_of_In. Qed.

Ltac wait_valid :=
  split; [vm_compute; reflexivity|]; split; [vm_compute; discriminate|]; split; [discriminate|vm_compute; reflexivity].
Ltac wait_room := intros _; apply sys_room; vm_compute; reflexivity.

Lemma sys_contended_good : sem_good sys_T 8 sys_P (bases sys_start) sys_contended.
Proof.
  unfold sys_contended. apply next_good; [apply next_good; [apply next_good; [apply sys_start_good|..]|..]|..];
    [vm_compute; split_and!; discriminate || reflexivity|discriminate|wait_valid|wait_room|wait_valid|wait_room].
Qed.

Lemma sem_post_wakes_highest_witness :
  count_of (ss sys_contended) 4096 = -1 /\
  exists s' o r x, sem_post (ss sys_contended) 4096 = Some (s', o, r) /\ x ∈ sys_T /\ waits (ss sys_contended) x = 4096 /\ waits s' x = 0.
Proof.
  split; [vm_compute; reflexivity|].
  destruct (sem_post_wakes_highest sys_T 8 sys_P (bases sys_start) sys_contended 4096 sys_contended_good) as (s' & o & r & x & H1 & H2 & H3 & _ & H4 & _).
  - vm_compute. split_and!; discriminate || reflexivity.
  - vm_compute. reflexivity.
  - exact (ex_intro _ s' (ex_intro _ o (ex_intro _ r (ex_intro _ x (conj H1 (conj H2 (conj H3 H4))))))).
Defined.



(** Trying a semaphore never blocks: with a count it takes it and returns
    success, without one it returns an error with errno EAGAIN and changes no
    count; nobody starts or stops waiting. *)
Theorem sem_trywait_correct T idle P B s sem :
  sem_good T idle P B s -> sem_event_valid T idle s (EvTryWait sem) ->
  let c := count_of (ss s) sem in
  exists s', sem_trywait (ss s) sem = Some (s', if 0 <? c then OK else ERROR) /\
    count_of s' sem = (if 0 <? c then c - 1 else c) /\ (forall t, t <> sem -> count_of s' t = count_of (ss s) t) /\
    (c <= 0 -> get_errno (kn s') = EAGAIN) /\ (forall y, y ∈ T -> waits s' y = waits (ss s) y) /\ cpu (kn s') = cpu (kn (ss s)).
Proof.
  intros (HT & A & G & Hi) (HQ & Hid & Hs) c. pose proof (in_core _ _ _ _ _ _ _ Hi) as Hc.
  destruct (inv_running _ _ _ _ _ _ _ Hi) as (_ & Hcpu & HrT & Hw). rewrite Hcpu in *.
  destruct (sem_trywait_spec T idle P B (ss s) A G sem _ _ _ Hc (in_views _ _ _ _ _ _ _ Hi) (in_task _ _ _ _ _ _ _ Hi))
    as (s' & G' & Hrun & Hirq & Hc' & Hv'); try done.
  exists s'. split; [exact Hrun|]. rewrite (i16_dec T idle P B s A G) in Hv' by done. fold c in Hv'.
  split; [rewrite (vw_count _ _ _ _ _ Hv'); destruct (0 <? c); [by rewrite upd_eq|done]|].
  split; [intros t Ht; rewrite (vw_count _ _ _ _ _ Hv'); destruct (0 <? c); [by rewrite upd_ne|done]|].
  split; [intros _; by rewrite (get_errno_core T idle P B s' A G' _ _ _ Hc' Hv' Hirq), upd_eq|].
  split; [|apply (ok_cpu _ _ _ _ (co_ok _ _ _ _ _ _ Hc'))]. intros y Hy. unfold waits. rewrite (vw_wait _ _ _ _ _ Hv'). unfold upd.
  by destruct (Z.eqb_spec y (running A)) as [->|].
Qed.

Lemma sem_trywait_correct_witness :
  exists s', sem_trywait (ss sys_start) 4300 = Some (s', ERROR) /\ get_errno (kn s') = EAGAIN.
Proof.
  destruct (sem_trywait_correct sys_T 8 sys_P (bases sys_start) sys_start 4300 sys_start_good) as (s' & Hrun & _ & _ & He & _).
  - vm_compute. split_and!; discriminate || reflexivity.
  - exists s'. split; [exact Hrun|]. apply He. vm_compute. discriminate.
Defined.

(** A signal or a timeout undoes a wait: in the interrupt handler the
    count goes back up, the task stops waiting and is made ready, the error
    is noted in it so that its wait returns an error, and no other task is
    affected. *)
Theorem sem_timeout_undoes_wait T idle P B s x errcode :
  sem_good T idle P B s -> sem_event_valid T idle s (EvIrqTimeout x errcode) -> waits (ss s) x <> 0 ->
  exists s', sem_exec s (EvIrqTimeout x errcode) = Some (s', None) /\
    (forall t, count_of (ss s') t = if decide (t = waits (ss s) x) then count_of (ss s) t + 1 else count_of (ss s) t) /\
    (forall y, waits (ss s') y = if decide (y = x) then 0 else waits (ss s) y) /\
    state (kn (ss s')) x <> TSTATE_WAIT_SEM /\ wait_result (errnos (ss s') x) = ERROR /\ pcs s' = pcs s.
Proof.
  intros (HT & A & G & Hi) [HxT Herr] Hw. pose proof (in_core _ _ _ _ _ _ _ Hi) as Hc.
  destruct (core_set_irq T idle P B (ss s) A G true _ _ _ Hc (in_views _ _ _ _ _ _ _ Hi)) as [Hc1 Hv1].
  assert (Hin : x ∈ A g_waitingforsemaphore) by (by apply (in_list _ _ _ _ _ _ _ Hi)).
  pose proof (waiting_negative T idle P B s A G x Hi HxT Hw) as Hneg. pose proof (inv_range T idle P B s A G _ Hi Hw) as Hrange.
  destruct (sem_waitirq_spec T idle P B _ A G x errcode _ _ _ Hc1 Hv1 Hin Hw) as (t & A' & Hrun & Hc' & _ & Hv' & Hwo); [lia|].
  exists (mk_sys (set_kn (set_in_irq false (kn t)) t) (pcs s)). split; [simpl; unfold in_handler; by rewrite Hrun|].
  destruct Hv' as [Vw Ve Vc _]. split_and!; try done.
  - intros u. change (count_of t u = if decide (u = waits (ss s) x) then count_of (ss s) u + 1 else count_of (ss s) u).
    rewrite Vc. unfold upd. destruct (Z.eqb_spec u (waits (ss s) x)) as [->|Hne]; [by rewrite decide_True|by rewrite decide_False].
  - intros y. change (waitsem (tcbs (kn t) y) = if decide (y = x) then 0 else waits (ss s) y).
    rewrite Vw. unfold upd. destruct (Z.eqb_spec y x) as [->|Hne]; [by rewrite decide_True|by rewrite decide_False].
  - change (state (kn t) x <> TSTATE_WAIT_SEM). apply (not_waiting_state T idle P t A' G); [done|done|]. rewrite (Hwo x). by intros [? _].
  - change (wait_result (pterrno (tcbs (kn t) x)) = ERROR). rewrite Ve, upd_eq. by destruct Herr as [->| ->].
Qed.

Lemma sem_timeout_undoes_wait_witness :
  exists s', sem_exec sys_contended (EvIrqTimeout 24 ETIMEDOUT) = Some (s', None) /\ waits (ss sys_contended) 24 = 4096 /\
    wait_result (errnos (ss s') 24) = ERROR /\ count_of (ss s') 4096 = 0.
Proof.
  destruct (sem_timeout_undoes_wait sys_T 8 sys_P (bases sys_start) sys_contended 24 ETIMEDOUT sys_contended_good) as (s' & H1 & H2 & _ & _ & H3 & _).
  - split; [apply (bool_decide_unpack _); vm_compute; exact I|right; reflexivity].
  - vm_compute. discriminate.
  - exists s'. split; [exact H1|]. split; [vm_compute; reflexivity|]. split; [exact H3|].
    rewrite H2. assert (Hw : waits (ss sys_contended) 24 = 4096) by (vm_compute; reflexivity). rewrite Hw. vm_compute. reflexivity.
Defined.

Lemma sem_s_eq (a b : sem_s) : semcount a = semcount b -> hhead a = hhead b -> a = b.
Proof. destruct a, b. simpl. congruence. Qed.

(** Destroying a semaphore gives all its holder containers back to the
    free list, leaves it without holders and with one count, unless tasks
    wait for it, and leaves the holder lists of all other semaphores alone. *)
Theorem sem_destroy_frees_holders T idle P B s sem :
  sem_good T idle P B s -> sem <> 0 ->
  exists s', sem_destroy (ss s) sem = Some (s', OK) /\
    count_of s' sem = (if 0 <=? count_of (ss s) sem then 1 else count_of (ss s) sem) /\
    hhead (sems s' sem) = 0 /\ (forall x, sem_findholder s' sem x = Some 0) /\
    (hhead (sems (ss s) sem) <> 0 -> g_freeholders s' <> 0) /\
    (forall t, t <> sem -> sems s' t = sems (ss s) t).
Proof.
  intros (HT & A & G & Hi) Hs. pose proof (in_core _ _ _ _ _ _ _ Hi) as Hc. unfold sem_destroy. destruct (Z.eqb_spec sem 0) as [?|_]; [done|].
  set (s1 := if 0 <=? count_of (ss s) sem then set_semcount sem 1 (ss s) else ss s).
  assert (H1 : hrep P s1 G /\ hold_by (user T idle) s1 G /\ count_of s1 sem = (if 0 <=? count_of (ss s) sem then 1 else count_of (ss s) sem) /\
    hhead (sems s1 sem) = hhead (sems (ss s) sem) /\ forall t, t <> sem -> sems s1 t = sems (ss s) t).
  { unfold s1. destruct (0 <=? count_of (ss s) sem); [|split_and!; try done; apply Hc].
    destruct (set_semcount_core T idle P B (ss s) A G sem 1 _ _ _ Hc (in_views _ _ _ _ _ _ _ Hi)) as [Hc1 _].
    split_and!; [apply Hc1|apply Hc1|unfold count_of; simpl; by rewrite upd_eq|simpl; by rewrite upd_eq|]. intros t Ht. simpl. by rewrite upd_ne. }
  destruct H1 as (Hr1 & Hb1 & Hc1 & Hh1 & Ho1). clearbody s1.
  assert (Hnz : forall x, user T idle x -> x <> 0).
  { intros x Hx. by apply (user_listed T idle (kn (ss s)) A x (co_ok _ _ _ _ _ _ Hc) (co_listed _ _ _ _ _ _ Hc)). }
  pose proof (hr_head _ _ _ Hr1 (Some sem)) as Hd. simpl in Hd.
  destruct (recover_from_spec P (user T idle) s1 G sem holder_fuel (G (Some sem)) Hr1 Hb1 Hnz eq_refl (hr_short P s1 G (Some sem) Hr1))
    as (s' & G' & Hrun & Hr' & Hb' & [Hk' Hcn'] & He' & Hp' & Ho').
  exists s'.
  assert (Hrun' : sem_destroyholder s1 sem = Some s').
  { unfold sem_destroyholder, sem_foreachholder. rewrite Hd, Hrun. destruct (G (Some sem)) as [|p l] eqn:HG; simpl; [|].
    - by injection Hrun as <-.
    - destruct (Z.eqb_spec p 0) as [->|]; [|done]. exfalso. apply (hr_nonnull P s1 G (Some sem) 0 Hr1); [rewrite HG; constructor|reflexivity]. }
  pose proof (hr_head _ _ _ Hr' (Some sem)) as Hd'. rewrite He' in Hd'. simpl in Hd'.
  split; [by rewrite Hrun'|]. split; [by rewrite Hcn'|]. split; [done|]. split; [|split].
  - intros x. destruct (sem_findholder_spec P s' G' sem x Hr') as (p & Hf & [[Hp _]|[-> _]]); [|done]. rewrite He' in Hp. by apply elem_of_nil in Hp.
  - intros Hne. rewrite <- Hh1, Hd in Hne. pose proof (hr_head _ _ _ Hr' None) as Hf. simpl in Hf. rewrite Hf. intros E.
    assert (Hnil : G' None = []).
    { destruct (G' None) as [|p l] eqn:HG; [done|]. exfalso.
      apply (hr_nonnull P s' G' None p Hr'); [rewrite HG; constructor|exact E]. }
    rewrite Hnil in Hp'. apply Permutation_nil_l in Hp'. destruct (G (Some sem)); done.
  - intros t Ht. rewrite <- Ho1 by done. pose proof (hr_head _ _ _ Hr' (Some t)) as Ht1. pose proof (hr_head _ _ _ Hr1 (Some t)) as Ht2.
    simpl in Ht1, Ht2. rewrite (Ho' t Ht) in Ht1. apply sem_s_eq; [exact (Hcn' t)|congruence].
Qed.

Lemma sem_destroy_frees_holders_witness :
  hhead (sems (ss sys_contended) 4096) = 8192 /\
  exists s', sem_destroy (ss sys_contended) 4096 = Some (s', OK) /\ sem_findholder s' 4096 32 = Some 0 /\ g_freeholders s' <> 0.
Proof.
  split; [vm_compute; reflexivity|].
  destruct (sem_destroy_frees_holders sys_T 8 sys_P (bases sys_start) sys_contended 4096 sys_contended_good) as (s' & H1 & _ & _ & H2 & H3 & _); [discriminate|].
  exists s'. split; [exact H1|]. split; [apply H2|apply H3; vm_compute; discriminate].
Defined.

(** Noting a waiter's priority in a holder that already runs at that
    priority or above does not look whether the sixteen slots are in use: the
    write goes past the end of the array of restoration priorities.  (The
    other branch of the function does look.) *)
Theorem sem_boost_overflows s sem r p :
  let h := htcb (holders s p) in
  r <> 0 -> sched_verifytcb (kn s) h = Some true ->
  base_priority (tcbs (kn s) h) < prio (kn s) r <= prio (kn s) h ->
  npend_reprio (tcbs (kn s) h) = CONFIG_SEM_NNESTPRIO ->
  sem_boostholderprio sem r s p = None.
Proof.
  intros h Hr Hv Hp Hn. unfold sem_boostholderprio. fold h. rewrite Hv. cbn [mbind option_bind negb].
  destruct (Z.eq_dec h 0) as [E|Hh0]; [by rewrite E in Hv|]. krun. fold (prio (kn s) r) (prio (kn s) h).
  destruct (Z.ltb_spec (base_priority (tcbs (kn s) h)) (prio (kn s) r)); [|lia].
  destruct (Z.ltb_spec (prio (kn s) h) (prio (kn s) r)); [lia|]. unfold push_pend. rewrite Hn. done.
Qed.

(** Task 16 holds 4096, was boosted to 200, and has all slots in use. *)
Definition sys_full : sem_state :=
  let t := mk_tcb 1 200 16 (fun _ => 150) 50 TSTATE_TASK_READYTORUN 0 0 0 0 0 in
  mk_state (set_tcbs (upd (tcbs sys_kernel) 16 t) sys_kernel) (fun _ => mk_sem 0 8192) (fun _ => mk_semholder 0 16 1) 8204.

Lemma sem_boost_overflows_witness : sem_boostholderprio 4096 24 sys_full 8192 = None.
Proof. apply sem_boost_overflows; [discriminate|vm_compute; reflexivity|vm_compute; split; [reflexivity|discriminate]|reflexivity]. Defined.

(** A post can strip a task of a priority it still has to inherit.  Task
    24 holds semaphore 4200, for which task 32 (priority 200) waits, and so
    runs at priority 200.  When it gets semaphore 4096, for which it waited,
    the post takes it for a holder that was boosted on account of 4096 and
    puts it back to its base priority 100, below that of the task it keeps
    waiting. *)
Theorem sem_post_strips_priority :
  let watch := fun s => (sem_findholder (ss s) 4200 24, waits (ss s) 32, prio (kn (ss s)) 32, prio (kn (ss s)) 24) in
  exists before after,
    sem_events sys_start
      [EvWait 4300; EvWait 4400; EvTryWait 4096; EvPost 4400; EvResume; EvTryWait 4200; EvWait 4096; EvPost 4300; EvResume; EvWait 4200]
      = Some before /\
    sem_events before [EvPost 4096] = Some after /\
    watch before = (Some 8216, 4200, 200, 200) /\ watch after = (Some 8216, 4200, 200, 100).
Proof.
  intros watch. set (l := [EvWait 4300; EvWait 4400; EvTryWait 4096; EvPost 4400; EvResume; EvTryWait 4200; EvWait 4096; EvPost 4300; EvResume; EvWait 4200]).
  assert (H : option_map watch (sem_events sys_start l) = Some (Some 8216, 4200, 200, 200)) by (vm_compute; reflexivity).
  assert (H' : option_map watch (s ← sem_events sys_start l; sem_events s [EvPost 4096]) = Some (Some 8216, 4200, 200, 100)) by (vm_compute; reflexivity).
  destruct (sem_events sys_start l) as [before|] eqn:E; [|discriminate H]. cbn [mbind option_bind] in H'.
  destruct (sem_events before [EvPost 4096]) as [after|] eqn:E'; [|discriminate H']. injection H as H. injection H' as H'.
  exists before, after. split; [reflexivity|]. split; [exact E'|]. unfold watch. split; congruence.
Qed.
