(* ===== verification/SemIds.v ===== *)
(** * Semaphores: task identities

    No operation of the scheduler or of the semaphores changes the pid of a
    task or the pid hash table, so a pid kept as the argument of a watchdog
    leads back to the task that started it. *)

From stdpp Require Import base tactics numbers sets list.
From S2P Require Import Prelude Queue Sched Sem SemSystem.

Definition same_ids (k k' : kernel) : Prop :=
  (forall x, pid (tcbs k' x) = pid (tcbs k x)) /\ forall i, g_pidhash k' i = g_pidhash k i.

#[export] Instance same_ids_preorder : PreOrder same_ids.
Proof.
  split; [done|]. intros k1 k2 k3 [H1 H2] [H3 H4]. split; [intros x; by rewrite H3|intros i; by rewrite H4].
Qed.

(** ** Automation: follow the steps of a function back from its result *)

Create HintDb ids discriminated.

Lemma same_ids_step k1 k2 k3 : same_ids k1 k2 -> same_ids k2 k3 -> same_ids k1 k3.
Proof. intros H1 H2. by transitivity k2. Qed.

Lemma ids_set_lk k k' L : same_ids k k' -> same_ids k (set_lk L k').
Proof. done. Qed.
Lemma ids_set_list k k' tl q : same_ids k k' -> same_ids k (set_list tl q k').
Proof. done. Qed.
Lemma ids_switch k k' : same_ids k k' -> same_ids k (switch_context k').
Proof. done. Qed.
Lemma ids_irq k k' b : same_ids k k' -> same_ids k (set_in_irq b k').
Proof. done. Qed.

Lemma ids_upd_tcb k x f k' : upd_tcb k x f = Some k' -> (forall t, pid (f t) = pid t) -> same_ids k k'.
Proof.
  unfold upd_tcb. destruct (x =? 0); [done|]. intros [= <-] Hf. split; [|done]. intros y. simpl. unfold upd. destruct (Z.eqb_spec y x) as [->|]; [apply Hf|done].
Qed.

Lemma ids_set_errno k k' e : same_ids k k' -> same_ids k (set_errno k' e).
Proof.
  intros [H1 H2]. unfold set_errno. destruct (get_errno_ptr k') as [r|]; [|done]. split; [|done]. intros y. simpl. unfold upd.
  destruct (Z.eqb_spec y r) as [->|]; [apply H1|apply H1].
Qed.

(** Open the monadic structure of the hypotheses. *)
Ltac ids_open :=
  repeat match goal with
  | H : (_ ≫= _) = Some _ |- _ => apply bind_Some in H as (? & ? & H)
  | H : None = Some _ |- _ => discriminate H
  | H : Some _ = Some _ |- _ => injection H as H
  | H : (_, _) = (_, _) |- _ => injection H as ? ?
  | p : _ * _ |- _ => destruct p
  | H : (if ?b then _ else _) = Some _ |- _ => destruct b
  | H : match ?s with _ => _ end = Some _ |- _ => destruct s
  end; cbn [fst snd] in *.

(** Walk from the result back to the start. *)
Ltac ids_back :=
  subst; repeat match goal with
  | |- same_ids ?k ?k => reflexivity
  | |- same_ids _ (set_lk _ _) => apply ids_set_lk
  | |- same_ids _ (set_list _ _ _) => apply ids_set_list
  | |- same_ids _ (switch_context _) => apply ids_switch
  | |- same_ids _ (set_in_irq _ _) => apply ids_irq
  | |- same_ids _ (set_errno _ _) => apply ids_set_errno
  | |- same_ids _ (if ?b then _ else _) => destruct b
  | H : upd_tcb _ _ _ = Some ?k |- same_ids _ ?k =>
      eapply same_ids_step; [|eapply (ids_upd_tcb _ _ _ _ H); intros; simpl; repeat case_match; reflexivity]
  | |- same_ids _ ?k => eapply same_ids_step; [|solve [eauto 2 with ids nocore]]
  end.

Ltac ids := intros; ids_open; ids_back.

(** ** The scheduler *)

Lemma ids_addprioritized k x tl k' b : sched_addprioritized k x tl = Some (k', b) -> same_ids k k'.
Proof. unfold sched_addprioritized. ids. Qed.
#[export] Hint Resolve ids_addprioritized : ids.

Lemma ids_addreadytorun k x k' b : sched_addreadytorun k x = Some (k', b) -> same_ids k k'.
Proof. unfold sched_addreadytorun. ids. Qed.
#[export] Hint Resolve ids_addreadytorun : ids.

Lemma ids_removereadytorun k x k' b : sched_removereadytorun k x = Some (k', b) -> same_ids k k'.
Proof. unfold sched_removereadytorun. ids. Qed.
#[export] Hint Resolve ids_removereadytorun : ids.

Lemma ids_merge_one k p r b k' b' : merge_one k p r b = Some (k', b') -> same_ids k k'.
Proof. unfold merge_one. ids. Qed.
#[export] Hint Resolve ids_merge_one : ids.

Lemma ids_merge_loop fuel k p r b k' b' : merge_loop fuel k p r b = Some (k', b') -> same_ids k k'.
Proof. revert k p r b. induction fuel as [|fuel IH]; intros k p r b; [done|]. simpl. ids. Qed.
#[export] Hint Resolve ids_merge_loop : ids.

Lemma ids_mergepending k k' b : sched_mergepending k = Some (k', b) -> same_ids k k'.
Proof. unfold sched_mergepending. ids. Qed.
#[export] Hint Resolve ids_mergepending : ids.

Lemma ids_addblocked k x st k' : sched_addblocked k x st = Some k' -> same_ids k k'.
Proof. unfold sched_addblocked. ids. Qed.
#[export] Hint Resolve ids_addblocked : ids.

Lemma ids_removeblocked k x k' : sched_removeblocked k x = Some k' -> same_ids k k'.
Proof. unfold sched_removeblocked. ids. Qed.
#[export] Hint Resolve ids_removeblocked : ids.

Lemma ids_block_task k x st k' : up_block_task k x st = Some k' -> same_ids k k'.
Proof. unfold up_block_task. ids. Qed.
#[export] Hint Resolve ids_block_task : ids.

Lemma ids_unblock_task k x k' : up_unblock_task k x = Some k' -> same_ids k k'.
Proof. unfold up_unblock_task. ids. Qed.
#[export] Hint Resolve ids_unblock_task : ids.

Lemma ids_release_pending k k' b : up_release_pending k = Some (k', b) -> same_ids k k'.
Proof. unfold up_release_pending. ids. Qed.
#[export] Hint Resolve ids_release_pending : ids.

Lemma ids_reprioritize_rtr k x p k' : up_reprioritize_rtr k x p = Some k' -> same_ids k k'.
Proof. unfold up_reprioritize_rtr. ids. Qed.
#[export] Hint Resolve ids_reprioritize_rtr : ids.

Lemma ids_lock k k' : sched_lock k = Some k' -> same_ids k k'.
Proof. unfold sched_lock. ids. Qed.
#[export] Hint Resolve ids_lock : ids.

Lemma ids_unlock_slice r k k' : sched_unlock_slice r k = Some k' -> same_ids k k'.
Proof. unfold sched_unlock_slice. ids. Qed.
#[export] Hint Resolve ids_unlock_slice : ids.

Lemma ids_unlock k k' : sched_unlock k = Some k' -> same_ids k k'.
Proof. unfold sched_unlock. ids. Qed.
#[export] Hint Resolve ids_unlock : ids.

Lemma ids_setpriority k x p k' r : sched_setpriority k x p = Some (k', r) -> same_ids k k'.
Proof. unfold sched_setpriority. ids. Qed.
#[export] Hint Resolve ids_setpriority : ids.

Lemma ids_timeslice k k' : sched_process_timeslice k = Some k' -> same_ids k k'.
Proof. unfold sched_process_timeslice. ids. Qed.
#[export] Hint Resolve ids_timeslice : ids.

(** ** The semaphores *)

Definition sem_ids (s s' : sem_state) : Prop := same_ids (kn s) (kn s').

#[export] Instance sem_ids_preorder : PreOrder sem_ids.
Proof. split; [intros s; unfold sem_ids; reflexivity|]. intros s1 s2 s3 H1 H2. unfold sem_ids in *. by transitivity (kn s2). Qed.

Lemma sem_ids_step s1 s2 s3 : sem_ids s1 s2 -> sem_ids s2 s3 -> sem_ids s1 s3.
Proof. intros H1 H2. by transitivity s2. Qed.

Lemma ids_set_kn s s' k : sem_ids s s' -> same_ids (kn s') k -> sem_ids s (set_kn k s').
Proof. intros H1 H2. unfold sem_ids in *. simpl. by transitivity (kn s'). Qed.

Lemma ids_kn s s' : kn s' = kn s -> sem_ids s s'.
Proof. unfold sem_ids. intros ->. reflexivity. Qed.

Lemma ids_upd_task s x f s' : upd_task s x f = Some s' -> (forall t, pid (f t) = pid t) -> sem_ids s s'.
Proof. unfold upd_task. intros H Hf. ids_open. subst. unfold sem_ids. simpl. by eapply ids_upd_tcb. Qed.

(** The task is replaced by a changed copy of itself. *)
Lemma ids_upd_copy s x t t' s' : upd_task s x (fun _ => t') = Some s' -> get_tcb (kn s) x = Some t -> pid t' = pid t -> sem_ids s s'.
Proof.
  unfold upd_task, upd_tcb, get_tcb. destruct (x =? 0); [done|]. simpl. intros [= <-] [= <-] Hp. split; [|done]. intros y. simpl. unfold upd.
  by destruct (Z.eqb_spec y x) as [->|].
Qed.

Lemma ids_with_errno s s' e : sem_ids s s' -> sem_ids s (with_errno s' e).
Proof. unfold sem_ids, with_errno. simpl. apply ids_set_errno. Qed.

(** The same walk for the state of the semaphores *)
Ltac sids_back :=
  subst; repeat match goal with
  | |- sem_ids ?s ?s => reflexivity
  | |- sem_ids _ (with_errno _ _) => apply ids_with_errno
  | |- sem_ids _ (set_kn _ _) => eapply ids_set_kn; [|solve [eauto 2 with ids nocore]]
  | |- sem_ids _ (if ?b then _ else _) => destruct b
  | H : upd_task ?s1 ?x (fun _ => _) = Some ?s, H' : get_tcb (kn ?s1) ?x = Some _ |- sem_ids _ ?s =>
      eapply sem_ids_step; [|apply (ids_upd_copy _ _ _ _ _ H H'); reflexivity]
  | H : upd_task _ _ _ = Some ?s |- sem_ids _ ?s =>
      eapply sem_ids_step; [|eapply (ids_upd_task _ _ _ _ H); intros; simpl; repeat case_match; reflexivity]
  | |- sem_ids _ ?s => eapply sem_ids_step; [|solve [eauto 2 with ids nocore]]
  | |- sem_ids _ (_ ?s) => apply (sem_ids_step _ s); [|apply ids_kn; reflexivity]
  | |- sem_ids _ (_ _ ?s) => apply (sem_ids_step _ s); [|apply ids_kn; reflexivity]
  | |- sem_ids _ (_ _ _ ?s) => apply (sem_ids_step _ s); [|apply ids_kn; reflexivity]
  end.

Ltac sids := intros; ids_open; sids_back.

Lemma ids_freeholder s sem p s' : sem_freeholder s sem p = Some s' -> sem_ids s s'.
Proof. unfold sem_freeholder. sids. Qed.
#[export] Hint Resolve ids_freeholder : ids.

Lemma ids_findorallocate s sem x s' p : sem_findorallocateholder s sem x = Some (s', p) -> sem_ids s s'.
Proof.
  unfold sem_findorallocateholder, sem_allocholder. intros H. ids_open. destruct (x0 =? 0); [|injection H as <- <-; reflexivity].
  destruct (g_freeholders s =? 0); injection H as <- <-; [reflexivity|by apply ids_kn].
Qed.
#[export] Hint Resolve ids_findorallocate : ids.

Lemma ids_addholder_tcb s x sem s' : sem_addholder_tcb s x sem = Some s' -> sem_ids s s'.
Proof. unfold sem_addholder_tcb. sids. Qed.
#[export] Hint Resolve ids_addholder_tcb : ids.

Lemma ids_releaseholder s sem s' : sem_releaseholder s sem = Some s' -> sem_ids s s'.
Proof. unfold sem_releaseholder. sids. Qed.
#[export] Hint Resolve ids_releaseholder : ids.

Lemma ids_foreach fuel h s p r s' r' :
  (forall s p s' r, h s p = Some (s', r) -> sem_ids s s') -> foreach_from fuel h s p r = Some (s', r') -> sem_ids s s'.
Proof. intros Hh. revert s p r. induction fuel as [|fuel IH]; intros s p r; [done|]. cbn [foreach_from]. sids. Qed.

Lemma ids_boostholderprio sem r s p s' z : sem_boostholderprio sem r s p = Some (s', z) -> sem_ids s s'.
Proof. unfold sem_boostholderprio, push_pend. sids. Qed.

Lemma ids_restore_begin sem x s p s' r : sem_restoreholderprio_begin sem x s p = Some (s', r) -> sem_ids s s'.
Proof. unfold sem_restoreholderprio_begin. sids. Qed.
#[export] Hint Resolve ids_restore_begin : ids.

Lemma ids_restore_end s r s' : sem_restoreholderprio_end s r = Some s' -> sem_ids s s'.
Proof. unfold sem_restoreholderprio_end. sids. Qed.
#[export] Hint Resolve ids_restore_end : ids.

Lemma ids_restoreholderprio sem x s p s' z : sem_restoreholderprio sem x s p = Some (s', z) -> sem_ids s s'.
Proof. unfold sem_restoreholderprio. sids. Qed.

Lemma ids_restoreholderprioA sem x s p s' z : sem_restoreholderprioA sem x s p = Some (s', z) -> sem_ids s s'.
Proof. unfold sem_restoreholderprioA. intros H. ids_open; sids_back. by eapply ids_restoreholderprio. Qed.

Lemma ids_restoreB fuel sem x s p s' r : restoreB_from fuel sem x s p = Some (s', r) -> sem_ids s s'.
Proof. revert s p. induction fuel as [|fuel IH]; intros s p; [done|]. cbn [restoreB_from]. sids. Qed.
#[export] Hint Resolve ids_restoreB : ids.

Lemma ids_boostpriority s sem s' : sem_boostpriority s sem = Some s' -> sem_ids s s'.
Proof. unfold sem_boostpriority, sem_foreachholder. intros H. ids_open. subst. eapply ids_foreach; [|eassumption]. intros. by eapply ids_boostholderprio. Qed.
#[export] Hint Resolve ids_boostpriority : ids.

Lemma ids_canceled s x sem s' : sem_canceled s x sem = Some s' -> sem_ids s s'.
Proof. unfold sem_canceled, sem_foreachholder. intros H. ids_open. subst. eapply ids_foreach; [|eassumption]. intros. by eapply ids_restoreholderprio. Qed.
#[export] Hint Resolve ids_canceled : ids.

Lemma ids_restore_irq s x sem s' : sem_restorebaseprio_irq s x sem = Some s' -> sem_ids s s'.
Proof.
  unfold sem_restorebaseprio_irq, sem_foreachholder. intros H. ids_open; subst; [reflexivity|]. eapply ids_foreach; [|eassumption]. intros. by eapply ids_restoreholderprio.
Qed.
#[export] Hint Resolve ids_restore_irq : ids.

Lemma ids_restore_task s x sem s' r : sem_restorebaseprio_task s x sem = Some (s', r) -> sem_ids s s'.
Proof.
  unfold sem_restorebaseprio_task, sem_foreachholder. intros H. ids_open; subst; [reflexivity|]. eapply sem_ids_step; [|by eapply ids_restoreB].
  eapply ids_foreach; [|eassumption]. intros. by eapply ids_restoreholderprioA.
Qed.
#[export] Hint Resolve ids_restore_task : ids.

Lemma ids_restorebaseprio_end s x sem r s' : sem_restorebaseprio_end s x sem r = Some s' -> sem_ids s s'.
Proof. unfold sem_restorebaseprio_end. sids. Qed.
#[export] Hint Resolve ids_restorebaseprio_end : ids.

(** ** The calls *)

Lemma ids_take s sem s' : sem_take s sem = Some s' -> sem_ids s s'.
Proof. unfold sem_take, sem_addholder. sids. Qed.
#[export] Hint Resolve ids_take : ids.

Lemma ids_wait s sem s' o : sem_wait s sem = Some (s', o) -> sem_ids s s'.
Proof. unfold sem_wait. sids. Qed.
#[export] Hint Resolve ids_wait : ids.

Lemma ids_wait_for_isr s sem s' o : sem_wait_for_isr s sem = Some (s', o) -> sem_ids s s'.
Proof. unfold sem_wait_for_isr. sids. Qed.
#[export] Hint Resolve ids_wait_for_isr : ids.

Lemma ids_trywait s sem s' r : sem_trywait s sem = Some (s', r) -> sem_ids s s'.
Proof. unfold sem_trywait. sids. Qed.
#[export] Hint Resolve ids_trywait : ids.

Lemma ids_wait_resume s s' r : sem_wait_resume s = Some (s', r) -> sem_ids s s'.
Proof. unfold sem_wait_resume. sids. Qed.
#[export] Hint Resolve ids_wait_resume : ids.

Lemma ids_give b s sem s' x : sem_give b s sem = Some (s', x) -> sem_ids s s'.
Proof. unfold sem_give. sids. Qed.
#[export] Hint Resolve ids_give : ids.

Lemma ids_post_begin s sem s' x : sem_post_begin s sem = Some (s', x) -> sem_ids s s'.
Proof. unfold sem_post_begin. sids. Qed.
#[export] Hint Resolve ids_post_begin : ids.

Lemma ids_post_resume s x sem r s' z : sem_post_resume s x sem r = Some (s', z) -> sem_ids s s'.
Proof. unfold sem_post_resume. sids. Qed.
#[export] Hint Resolve ids_post_resume : ids.

Lemma ids_post s sem s' o r : sem_post s sem = Some (s', o, r) -> sem_ids s s'.
Proof. unfold sem_post. sids. Qed.
#[export] Hint Resolve ids_post : ids.

Lemma ids_post_irq s sem s' r : sem_post_irq s sem = Some (s', r) -> sem_ids s s'.
Proof. unfold sem_post_irq. sids. Qed.
#[export] Hint Resolve ids_post_irq : ids.

Lemma ids_post_from_isr s sem s' r : sem_post_from_isr s sem = Some (s', r) -> sem_ids s s'.
Proof. unfold sem_post_from_isr. sids. Qed.
#[export] Hint Resolve ids_post_from_isr : ids.

Lemma ids_waitirq s x e s' : sem_waitirq s x e = Some s' -> sem_ids s s'.
Proof. unfold sem_waitirq. sids. Qed.
#[export] Hint Resolve ids_waitirq : ids.

(** ** Any event *)

Lemma ids_in_handler (g : sem_state -> option sem_state) s s' :
  (forall u u', g u = Some u' -> sem_ids u u') -> in_handler g s = Some s' -> sem_ids s s'.
Proof. intros Hg H. unfold in_handler in H. apply bind_Some in H as (u & Hu & [= <-]). exact (Hg _ _ Hu). Qed.

Lemma ids_exec s e s' f : sem_exec s e = Some (s', f) -> sem_ids (ss s) (ss s').
Proof.
  destruct e; cbn [sem_exec]; unfold after_wait; intros H; ids_open; try case_match; simplify_eq; cbn [ss]; sids_back.
  all: eapply ids_in_handler; [|eassumption]; intros u u' Hu; cbn beta in Hu; sids.
Qed.
