(* ===== verification/Wdog.v ===== *)
(** * Watchdog timers (os/kernel/wdog)

    The active watchdogs are a singly linked list in the order they expire,
    each with the ticks it expires after the one before it ([lag]).
    Interrupts are off while an operation runs.  [None] is a failed assertion,
    a null dereference or lack of fuel.  Configuration: no tickless timer,
    CONFIG_MAX_WDOGPARMS = 4, CONFIG_PREALLOC_WDOGS = 32,
    CONFIG_WDOG_INTRESERVE = 4, CONFIG_DEBUG. *)

From stdpp Require Import base tactics numbers list.
From S2P Require Import Prelude Queue Sched.

(** ** Data *)

(** [struct wdog_s] but for the link *)
Record wdog_s := mk_wdog { func : Z; lag : Z; wflags : Z; argc : Z; parm : list Z }.

(** The links and the watchdogs by address, the queue of active watchdogs,
    and the pre-allocated ones that are free. *)
Record wd_state := mk_wd {
  wlinks : links;
  wdogs : Z -> wdog_s;
  g_wdactivelist : queue;
  g_wdfreelist : queue;
  g_wdnfree : Z
}.

Definition set_wlinks (L : links) (s : wd_state) : wd_state :=
  mk_wd L (wdogs s) (g_wdactivelist s) (g_wdfreelist s) (g_wdnfree s).
Definition set_active (q : queue) (s : wd_state) : wd_state :=
  mk_wd (wlinks s) (wdogs s) q (g_wdfreelist s) (g_wdnfree s).
Definition set_wfree (q : queue) (n : Z) (s : wd_state) : wd_state :=
  mk_wd (wlinks s) (wdogs s) (g_wdactivelist s) q n.
Definition put_wdog (w : Z) (f : wdog_s -> wdog_s) (s : wd_state) : wd_state :=
  mk_wd (wlinks s) (upd (wdogs s) w (f (wdogs s w))) (g_wdactivelist s) (g_wdfreelist s) (g_wdnfree s).

Definition set_lag (v : Z) (d : wdog_s) : wdog_s := mk_wdog (func d) v (wflags d) (argc d) (parm d).
Definition set_wflags (v : Z) (d : wdog_s) : wdog_s := mk_wdog (func d) (lag d) v (argc d) (parm d).

Definition CONFIG_MAX_WDOGPARMS : Z := 4.
Definition CONFIG_PREALLOC_WDOGS : Z := 32.
Definition CONFIG_WDOG_INTRESERVE : Z := 4.

Definition WDOGF_ACTIVE : Z := 1.
Definition WDOGF_ALLOCED : Z := 2.
Definition WDOGF_STATIC : Z := 4.

Definition WDOG_ISACTIVE (d : wdog_s) : bool := negb (Z.land (wflags d) WDOGF_ACTIVE =? 0).
Definition WDOG_ISALLOCED (d : wdog_s) : bool := negb (Z.land (wflags d) WDOGF_ALLOCED =? 0).
Definition WDOG_ISSTATIC (d : wdog_s) : bool := negb (Z.land (wflags d) WDOGF_STATIC =? 0).
Definition WDOG_SETACTIVE (d : wdog_s) : wdog_s := set_wflags (Z.lor (wflags d) WDOGF_ACTIVE) d.
Definition WDOG_CLRACTIVE (d : wdog_s) : wdog_s := set_wflags (Z.ldiff (wflags d) WDOGF_ACTIVE) d.

(** ** Initialisation and allocation *)

(** [sizeof(struct wdog_s)]: next, func, lag, flags, argc, four parameters *)
Definition SIZEOF_WDOG : Z := 32.

Fixpoint free_wdogs (n : nat) (wdog : Z) (L : links) (q : queue) : option (links * queue) :=
  match n with
  | O => Some (L, q)
  | S n => '(L, q) ← sq_addlast L wdog q; free_wdogs n (wdog + SIZEOF_WDOG) L q
  end.

(** [g_wdpool] is at [pool]. *)
Definition wd_initialize (s : wd_state) (pool : Z) : option wd_state :=
  '(L, q) ← free_wdogs (Z.to_nat CONFIG_PREALLOC_WDOGS) pool (wlinks s) empty_queue;
  Some (set_wfree q CONFIG_PREALLOC_WDOGS (set_active empty_queue (set_wlinks L s))).

(** [irq] is [up_interrupt_context()], [heap] what [kmm_malloc] returns. *)
Definition wd_create (s : wd_state) (irq : bool) (heap : Z) : option (wd_state * Z) :=
  if (CONFIG_WDOG_INTRESERVE <? g_wdnfree s) || irq then
    '(wdog, (L, q)) ← sq_remfirst (wlinks s) (g_wdfreelist s);
    _ ← assert (0 <? g_wdnfree s);
    let s := set_wfree q (u16 (g_wdnfree s - 1)) (set_wlinks L s) in
    if wdog =? 0 then Some (s, wdog)
    else L ← set_flink (wlinks s) wdog 0; Some (put_wdog wdog (set_wflags 0) (set_wlinks L s), wdog)
  else if heap =? 0 then Some (s, heap)
  else L ← set_flink (wlinks s) heap 0; Some (put_wdog heap (set_wflags WDOGF_ALLOCED) (set_wlinks L s), heap).

(** ** Cancelling *)

(** [while (curr && curr != wdog) { prev = curr; curr = curr->next; }] *)
Fixpoint wd_search (fuel : nat) (s : wd_state) (wdog prev curr : Z) : option (Z * Z) :=
  match fuel with
  | O => None
  | S fuel =>
      if (curr =? 0) || (curr =? wdog) then Some (prev, curr)
      else wd_search fuel s wdog curr (flink (wlinks s) curr)
  end.

Definition wd_cancel (fuel : nat) (s : wd_state) (wdog : Z) : option (wd_state * Z) :=
  if negb (wdog =? 0) && WDOG_ISACTIVE (wdogs s wdog) then
    '(prev, curr) ← wd_search fuel s wdog 0 (head (g_wdactivelist s));
    _ ← assert (negb (curr =? 0));
    next ← get_flink (wlinks s) curr;
    let s :=
      if next =? 0 then s
      else put_wdog next (fun d => set_lag (i32 (lag d + lag (wdogs s curr))) d) s in
    '(_, (L, q)) ←
      (if prev =? 0 then sq_remfirst (wlinks s) (g_wdactivelist s) else sq_remafter (wlinks s) prev (g_wdactivelist s));
    let s := set_active q (set_wlinks L s) in
    L ← set_flink (wlinks s) wdog 0;
    Some (put_wdog wdog WDOG_CLRACTIVE (set_wlinks L s), OK)
  else Some (s, ERROR).

(** The watchdog goes back to the free list; the result says whether it has
    to go back to the heap ([sched_kfree]). *)
Definition wd_delete (fuel : nat) (s : wd_state) (wdog : Z) : option (wd_state * bool) :=
  _ ← assert (negb (wdog =? 0));
  s ← (if WDOG_ISACTIVE (wdogs s wdog) then '(s, _) ← wd_cancel fuel s wdog; Some s else Some s);
  if WDOG_ISALLOCED (wdogs s wdog) then Some (s, true)
  else if negb (WDOG_ISSTATIC (wdogs s wdog)) then
    '(L, q) ← sq_addlast (wlinks s) wdog (g_wdfreelist s);
    let s := set_wfree q (u16 (g_wdnfree s + 1)) (set_wlinks L s) in
    _ ← assert (g_wdnfree s <=? CONFIG_PREALLOC_WDOGS);
    Some (s, false)
  else Some (s, false).

(** A task goes away; [waitdog] is the watchdog it waits with, or 0.  The
    result is what [waitdog] becomes and whether the watchdog goes to the heap. *)
Definition wd_recover (fuel : nat) (s : wd_state) (waitdog : Z) : option (wd_state * Z * bool) :=
  if negb (waitdog =? 0) then
    '(s, _) ← wd_cancel fuel s waitdog;
    '(s, heap) ← wd_delete fuel s waitdog;
    Some (s, 0, heap)
  else Some (s, waitdog, false).

(** [for (curr = head; curr; curr = curr->next) { delay += curr->lag; if (curr == wdog) return delay; }] *)
Fixpoint wd_sum (fuel : nat) (s : wd_state) (wdog curr delay : Z) : option Z :=
  match fuel with
  | O => None
  | S fuel =>
      if curr =? 0 then Some 0
      else
        let delay := i32 (delay + lag (wdogs s curr)) in
        if curr =? wdog then Some delay else wd_sum fuel s wdog (flink (wlinks s) curr) delay
  end.

Definition wd_gettime (fuel : nat) (s : wd_state) (wdog : Z) : option Z :=
  if negb (wdog =? 0) && WDOG_ISACTIVE (wdogs s wdog) then wd_sum fuel s wdog (head (g_wdactivelist s)) 0 else Some 0.

(** ** Starting *)

(** [while ((now += curr->lag) < 0 && curr->next) { prev = curr; curr = curr->next; }] *)
Fixpoint advance_positive (fuel : nat) (s : wd_state) (now prev curr : Z) : option (Z * Z * Z) :=
  match fuel with
  | O => None
  | S fuel =>
      let now := i32 (now + lag (wdogs s curr)) in
      let next := flink (wlinks s) curr in
      if (now <? 0) && negb (next =? 0) then advance_positive fuel s now curr next else Some (now, prev, curr)
  end.

(** [while (now <= delay && curr->next) { prev = curr; curr = curr->next; now += curr->lag; }] *)
Fixpoint advance_shorter (fuel : nat) (s : wd_state) (delay now prev curr : Z) : option (Z * Z * Z) :=
  match fuel with
  | O => None
  | S fuel =>
      let next := flink (wlinks s) curr in
      if (now <=? delay) && negb (next =? 0)
      then advance_shorter fuel s delay (i32 (now + lag (wdogs s next))) curr next
      else Some (now, prev, curr)
  end.

(** Calculate delay+1, forcing the delay into a range that we can handle. *)
Definition wd_clamp (delay : Z) : Z :=
  if delay <=? 0 then 1
  else let delay := i32 (delay + 1) in if delay <=? 0 then i32 (delay - 1) else delay.

(** Puts the watchdog in the queue and returns its lag. *)
Definition wd_enqueue (fuel : nat) (s : wd_state) (wdog delay : Z) : option (wd_state * Z) :=
  let h := head (g_wdactivelist s) in
  if h =? 0 then
    '(L, q) ← sq_addlast (wlinks s) wdog (g_wdactivelist s); Some (set_active q (set_wlinks L s), delay)
  else
    '(now, prev, curr) ← advance_positive fuel s 0 h h;
    '(now, prev, curr) ← advance_shorter fuel s delay now prev curr;
    if delay <? now then
      let delay := i32 (delay - i32 (now - lag (wdogs s curr))) in
      let s := put_wdog curr (fun d => set_lag (i32 (lag d - delay)) d) s in
      '(L, q) ← (if curr =? head (g_wdactivelist s) then sq_addfirst (wlinks s) wdog (g_wdactivelist s)
                 else sq_addafter (wlinks s) prev wdog (g_wdactivelist s));
      Some (set_active q (set_wlinks L s), delay)
    else
      let delay := i32 (delay - now) in
      let next := flink (wlinks s) curr in
      if next =? 0 then
        '(L, q) ← sq_addlast (wlinks s) wdog (g_wdactivelist s); Some (set_active q (set_wlinks L s), delay)
      else
        let s := put_wdog next (fun d => set_lag (i32 (lag d - delay)) d) s in
        '(L, q) ← sq_addafter (wlinks s) curr wdog (g_wdactivelist s); Some (set_active q (set_wlinks L s), delay).

Definition wd_start (fuel : nat) (s : wd_state) (wdog delay wdentry : Z) (args : list Z) : option (wd_state * Z) :=
  if (wdog =? 0) || (CONFIG_MAX_WDOGPARMS <? Z.of_nat (length args)) || (delay <? 0) then Some (s, ERROR)
  else
    s ← (if WDOG_ISACTIVE (wdogs s wdog) then '(s, _) ← wd_cancel fuel s wdog; Some s else Some s);
    let s := put_wdog wdog (fun d => mk_wdog wdentry (lag d) (wflags d) (u8 (Z.of_nat (length args)))
                                      (args ++ replicate (4 - length args) 0)) s in
    '(s, delay) ← wd_enqueue fuel s wdog (wd_clamp delay);
    Some (put_wdog wdog WDOG_SETACTIVE (put_wdog wdog (set_lag delay) s), OK).

(** ** Expiration *)

Section expiration.
(** The function a watchdog calls, with its arguments, in the rest [X] of the system. *)
Context {X : Type} (call : Z -> list Z -> wd_state * X -> option (wd_state * X)).

(** The loop of [wd_expiration]. *)
Fixpoint wd_expire (fuel : nat) (s : wd_state) (x : X) : option (wd_state * X) :=
  match fuel with
  | O => None
  | S fuel =>
      let h := head (g_wdactivelist s) in
      if negb (h =? 0) && (lag (wdogs s h) <=? 0) then
        '(wdog, (L, q)) ← sq_remfirst (wlinks s) (g_wdactivelist s);
        let s := set_active q (set_wlinks L s) in
        let s :=
          if head q =? 0 then s
          else put_wdog (head q) (fun d => set_lag (i32 (lag d + lag (wdogs s wdog))) d) s in
        let s := put_wdog wdog WDOG_CLRACTIVE s in
        _ ← assert (argc (wdogs s wdog) <=? CONFIG_MAX_WDOGPARMS);
        '(s, x) ← call (func (wdogs s wdog)) (take (Z.to_nat (argc (wdogs s wdog))) (parm (wdogs s wdog))) (s, x);
        wd_expire fuel s x
      else Some (s, x)
  end.

Definition wd_expiration (fuel : nat) (s : wd_state) (x : X) : option (wd_state * X) :=
  let h := head (g_wdactivelist s) in
  _ ← assert (negb (h =? 0));
  if lag (wdogs s h) <=? 0 then wd_expire fuel s x else Some (s, x).

Definition wd_timer (fuel : nat) (s : wd_state) (x : X) : option (wd_state * X) :=
  let h := head (g_wdactivelist s) in
  if h =? 0 then Some (s, x)
  else wd_expiration fuel (put_wdog h (fun d => set_lag (i32 (lag d - 1)) d) s) x.
End expiration.
