(* ===== verification/WdogProps.v ===== *)
(** * Watchdog timers: the queue of lags represents a set of timers

    [wd_rep] relates the queue to the timers in the order they expire, each
    with the ticks it has left.  Every operation of [Wdog] is the operation on
    timers it is meant to be. *)

From stdpp Require Import base tactics numbers sets list sorting.
From S2P Require Import Prelude Queue QueueProps Sched Wdog.

(** ** Timers *)

Record timer := mk_timer { t_id : Z; t_left : Z; t_func : Z; t_args : list Z }.

Definition cancel_timer (w : Z) (t : list timer) : list timer := filter (fun x => t_id x <> w) t.

(** Behind all timers that expire no later. *)
Fixpoint insert_timer (x : timer) (t : list timer) : list timer :=
  match t with
  | [] => [x]
  | y :: t' => if t_left y <=? t_left x then y :: insert_timer x t' else x :: t
  end.

(** A delay of [d] ticks ends with the next tick but [d], at the latest with
    the last tick the counter can hold. *)
Definition start_timer (w d f : Z) (args : list Z) (t : list timer) : list timer :=
  insert_timer (mk_timer w (Z.min (d + 1) 2147483647) f args) (cancel_timer w t).

Definition tick_timer (x : timer) : timer := mk_timer (t_id x) (t_left x - 1) (t_func x) (t_args x).

Fixpoint expired (t : list timer) : list timer :=
  match t with [] => [] | x :: t => if t_left x <=? 0 then x :: expired t else [] end.
Fixpoint pending (t : list timer) : list timer :=
  match t with [] => [] | x :: t' => if t_left x <=? 0 then pending t' else t end.

(** ** Representation *)

Abbreviation ids := (fmap t_id).

Fixpoint lags (s : wd_state) (prev : Z) (t : list timer) : Prop :=
  match t with
  | [] => True
  | x :: t => lag (wdogs s (t_id x)) = t_left x - prev /\ lags s (t_left x) t
  end.

(** What the watchdog of timer [x] calls. *)
Definition data_ok (s : wd_state) (x : timer) : Prop :=
  let d := wdogs s (t_id x) in
  func d = t_func x /\ argc d = Z.of_nat (length (t_args x)) /\ (length (t_args x) <= 4)%nat /\
  take (length (t_args x)) (parm d) = t_args x.

Definition by_time (x y : timer) : Prop := t_left x <= t_left y.

(** The active timers [t], with at least [lo] ticks left, and the free watchdogs [F]. *)
Record wd_rep (lo : Z) (s : wd_state) (t : list timer) (F : list Z) : Prop := {
  wr_active : sq_rep (wlinks s) (g_wdactivelist s) (ids t);
  wr_free : sq_rep (wlinks s) (g_wdfreelist s) F;
  wr_disj w : w ∈ ids t -> w ∉ F;
  wr_lags : lags s 0 t;
  wr_sorted : StronglySorted by_time t;
  wr_range x : x ∈ t -> lo <= t_left x <= 2147483647;
  wr_data x : x ∈ t -> data_ok s x;
  wr_flag w : WDOG_ISACTIVE (wdogs s w) = bool_decide (w ∈ ids t);
  wr_count : g_wdnfree s = Z.of_nat (length F)
}.

Definition last_left (t : list timer) (e : Z) : Z := foldl (fun _ x => t_left x) e t.

Lemma lags_app s p t1 t2 : lags s p (t1 ++ t2) <-> lags s p t1 /\ lags s (last_left t1 p) t2.
Proof. revert p. induction t1 as [|x t1 IH]; intros p; simpl; [tauto|]. rewrite IH. tauto. Qed.

Lemma last_left_snoc t x e : last_left (t ++ [x]) e = t_left x.
Proof. unfold last_left. by rewrite foldl_app. Qed.

Lemma lags_ext s s' p t : (forall x, x ∈ t -> lag (wdogs s' (t_id x)) = lag (wdogs s (t_id x))) -> lags s p t -> lags s' p t.
Proof.
  revert p. induction t as [|x t IH]; intros p H; simpl; [done|]. intros [Hx Hl]. rewrite H by set_solver. split; [done|].
  apply IH; [intros y Hy; apply H; set_solver|done].
Qed.

Lemma active_set d : WDOG_ISACTIVE (WDOG_SETACTIVE d) = true.
Proof.
  unfold WDOG_ISACTIVE, WDOG_SETACTIVE, WDOGF_ACTIVE. simpl. destruct (Z.eqb_spec (Z.land (Z.lor (wflags d) 1) 1) 0) as [E|]; [|done].
  assert (Hb : Z.testbit (Z.land (Z.lor (wflags d) 1) 1) 0 = Z.testbit 0 0) by (by rewrite E).
  rewrite Z.land_spec, Z.lor_spec in Hb. simpl in Hb. by rewrite orb_true_r in Hb.
Qed.

Lemma active_clr d : WDOG_ISACTIVE (WDOG_CLRACTIVE d) = false.
Proof.
  unfold WDOG_ISACTIVE, WDOG_CLRACTIVE, WDOGF_ACTIVE. simpl. destruct (Z.eqb_spec (Z.land (Z.ldiff (wflags d) 1) 1) 0) as [E|Hne]; [done|].
  destruct Hne. apply Z.bits_inj'. intros n Hn. rewrite Z.land_spec, Z.ldiff_spec, Z.bits_0. by destruct (Z.testbit (wflags d) n), (Z.testbit 1 n).
Qed.

Lemma clr_other d : WDOG_ISALLOCED (WDOG_CLRACTIVE d) = WDOG_ISALLOCED d /\ WDOG_ISSTATIC (WDOG_CLRACTIVE d) = WDOG_ISSTATIC d.
Proof.
  assert (H : forall m, Z.land 1 m = 0 -> Z.land (Z.ldiff (wflags d) 1) m = Z.land (wflags d) m).
  { intros m Hm. apply Z.bits_inj'. intros n Hn. rewrite !Z.land_spec, Z.ldiff_spec. assert (Hb : Z.testbit (Z.land 1 m) n = false) by (by rewrite Hm, Z.bits_0).
    rewrite Z.land_spec in Hb. by destruct (Z.testbit (wflags d) n), (Z.testbit 1 n), (Z.testbit m n). }
  unfold WDOG_ISALLOCED, WDOG_ISSTATIC, WDOG_CLRACTIVE, WDOGF_ACTIVE. simpl. by rewrite !H.
Qed.

(** ** Facts about positions *)

Lemma sorted_split t1 x t2 :
  StronglySorted by_time (t1 ++ x :: t2) ->
  StronglySorted by_time (t1 ++ t2) /\ (forall y, y ∈ t1 -> t_left y <= t_left x) /\ (forall y, y ∈ t2 -> t_left x <= t_left y).
Proof.
  induction t1 as [|z t1 IH]; simpl; intros [Hs Hz]%StronglySorted_inv.
  - rewrite Forall_forall in Hz. split; [done|]. split; [set_solver|done].
  - destruct (IH Hs) as (Ha & Hb & Hc). rewrite Forall_forall in Hz. split_and!.
    + constructor; [done|]. apply Forall_forall. intros y Hy. apply Hz. set_solver.
    + intros y [->|Hy]%elem_of_cons; [apply Hz; set_solver|by apply Hb].
    + done.
Qed.

Lemma sorted_last t1 x t2 lo e :
  StronglySorted by_time (t1 ++ x :: t2) -> (forall y, y ∈ t1 ++ x :: t2 -> lo <= t_left y) -> e <= lo ->
  e <= last_left t1 e <= t_left x.
Proof.
  intros Hs Hlo He. destruct t1 as [|y t1 _] using rev_ind; simpl.
  - split; [lia|]. pose proof (Hlo x ltac:(set_solver)). lia.
  - rewrite last_left_snoc. destruct (sorted_split _ _ _ Hs) as (_ & Hb & _). pose proof (Hb y ltac:(set_solver)).
    pose proof (Hlo y ltac:(set_solver)). lia.
Qed.

Lemma ids_split (t : list timer) w : w ∈ ids t -> exists t1 x t2, t = t1 ++ x :: t2 /\ t_id x = w.
Proof. intros (x & -> & Hx)%list_elem_of_fmap. apply list_elem_of_split in Hx as (t1 & t2 & ->). by exists t1, x, t2. Qed.

Lemma cancel_split t1 x t2 :
  NoDup (ids (t1 ++ x :: t2)) -> cancel_timer (t_id x) (t1 ++ x :: t2) = t1 ++ t2.
Proof.
  rewrite fmap_app, fmap_cons. intros [_ Hx]%NoDup_remove'. apply not_elem_of_app in Hx as [H1 H2].
  assert (Hkeep : forall t, t_id x ∉ ids t -> cancel_timer (t_id x) t = t).
  { intros t. induction t as [|y t IH]; intros Ht; [done|]. unfold cancel_timer in *. rewrite filter_cons_True by set_solver.
    rewrite IH by set_solver. done. }
  unfold cancel_timer. rewrite filter_app, filter_cons_False by (by intros H; apply H).
  fold (cancel_timer (t_id x) t1) (cancel_timer (t_id x) t2). by rewrite !Hkeep.
Qed.

Lemma cancel_none w t : w ∉ ids t -> cancel_timer w t = t.
Proof.
  induction t as [|y t IH]; intros Ht; [done|]. unfold cancel_timer in *. rewrite filter_cons_True by set_solver.
  rewrite IH by set_solver. done.
Qed.

(** ** Cancelling *)

Lemma wd_search_spec s wdog fuel prev l1 l2 :
  seg (flink (wlinks s)) (l1 ++ wdog :: l2) 0 -> 0 ∉ l1 ++ wdog :: l2 -> wdog ∉ l1 -> (length l1 < fuel)%nat ->
  wd_search fuel s wdog prev (hd_or (l1 ++ wdog :: l2) 0) = Some (last_or l1 prev, wdog).
Proof.
  revert prev l1. induction fuel as [|fuel IH]; intros prev l1 Hs H0 Hw Hf; [lia|]. simpl. destruct l1 as [|q l1]; simpl in *.
  - by rewrite Z.eqb_refl, orb_true_r.
  - destruct (Z.eqb_spec q 0) as [->|_]; [set_solver|]. destruct (Z.eqb_spec q wdog) as [->|_]; [set_solver|]. simpl.
    destruct Hs as [-> Hs]. rewrite IH; [|done|set_solver|set_solver|lia]. f_equal. f_equal.
    unfold last_or. rewrite reverse_cons. by rewrite hd_or_app.
Qed.

Lemma wd_cancel_inactive lo fuel s t F w :
  wd_rep lo s t F -> w ∉ ids t -> wd_cancel fuel s w = Some (s, ERROR).
Proof. intros Hr Hw. unfold wd_cancel. rewrite (wr_flag _ _ _ _ Hr), bool_decide_eq_false_2, andb_false_r by done. done. Qed.

(** Both ways to take an entry out of the queue. *)
Lemma sq_remove_spec L q l1 w l2 :
  sq_rep L q (l1 ++ w :: l2) ->
  exists L' q', (if last_or l1 0 =? 0 then sq_remfirst L q else sq_remafter L (last_or l1 0) q) = Some (w, (L', q')) /\
    sq_rep L' q' (l1 ++ l2) /\ same_links (l1 ++ w :: l2) L L'.
Proof.
  intros Hr. destruct l1 as [|p l1 _] using rev_ind.
  - change (last_or [] 0) with 0. destruct (sq_remfirst_spec _ _ _ Hr) as (L' & q' & ? & ? & ?). by exists L', q'.
  - assert (Ep : last_or (l1 ++ [p]) 0 = p) by (unfold last_or; by rewrite reverse_snoc). rewrite Ep.
    pose proof (sq_null _ _ _ Hr) as H0. destruct (Z.eqb_spec p 0) as [->|_]; [set_solver|].
    rewrite <- app_assoc in Hr. destruct (sq_remafter_spec _ _ _ _ _ _ Hr) as (L' & q' & ? & ? & ?).
    exists L', q'. rewrite <- !app_assoc. done.
Qed.

(** A watchdog outside of both lists. *)
Definition put_only (w : Z) (s s' : wd_state) : Prop := forall y, y <> w -> wdogs s' y = wdogs s y.

Lemma put_wdog_eq w f s : wdogs (put_wdog w f s) w = f (wdogs s w).
Proof. simpl. apply upd_eq. Qed.

Lemma put_wdog_ne w f s y : y <> w -> wdogs (put_wdog w f s) y = wdogs s y.
Proof. simpl. apply upd_ne. Qed.

(** The lag of the timer behind the one that goes away. *)
Definition inherit_lag (s : wd_state) (next curr : Z) : wd_state :=
  if next =? 0 then s else put_wdog next (fun d => set_lag (i32 (lag d + lag (wdogs s curr))) d) s.

Lemma inherit_lag_spec lo s t1 x t2 F :
  wd_rep lo s (t1 ++ x :: t2) F -> 0 <= lo ->
  let s' := inherit_lag s (hd_or (ids t2) 0) (t_id x) in
  lags s' 0 (t1 ++ t2) /\ wlinks s' = wlinks s /\ g_wdactivelist s' = g_wdactivelist s /\ g_wdfreelist s' = g_wdfreelist s /\
  g_wdnfree s' = g_wdnfree s /\
  forall y, func (wdogs s' y) = func (wdogs s y) /\ wflags (wdogs s' y) = wflags (wdogs s y) /\ argc (wdogs s' y) = argc (wdogs s y) /\
    parm (wdogs s' y) = parm (wdogs s y).
Proof.
  intros Hr Hlo s'. pose proof (wr_lags _ _ _ _ Hr) as Hl. apply lags_app in Hl as [Hl1 [Hlx Hl2]].
  pose proof (sq_nodup _ _ _ (wr_active _ _ _ _ Hr)) as Hnd. pose proof (sq_null _ _ _ (wr_active _ _ _ _ Hr)) as H0.
  unfold s', inherit_lag. destruct t2 as [|y t2]; simpl.
  { rewrite app_nil_r. done. }
  rewrite !fmap_app, !fmap_cons in Hnd, H0. destruct (Z.eqb_spec (t_id y) 0) as [E|_]; [rewrite E in H0; set_solver|].
  simpl in Hl2. destruct Hl2 as [Hly Hl2].
  assert (Hny : (t_id y ∉ ids t1) /\ t_id y <> t_id x /\ t_id y ∉ ids t2) by (qmem; split_and!; congruence || done).
  destruct Hny as (Hny1 & Hnyx & Hny2). split_and!; try done.
  - apply lags_app. split; [|split].
    + apply (lags_ext s); [|done]. intros z Hz. simpl. rewrite upd_ne; [done|]. intros E. apply Hny1. rewrite <- E. apply list_elem_of_fmap. by exists z.
    + simpl. rewrite upd_eq. simpl. rewrite Hly, Hlx.
      pose proof (wr_range _ _ _ _ Hr y ltac:(set_solver)) as Hry. pose proof (wr_range _ _ _ _ Hr x ltac:(set_solver)) as Hrx.
      pose proof (wr_sorted _ _ _ _ Hr) as Hso.
      assert (Hp : Z.min lo 0 <= last_left t1 0 <= Z.max (t_left x) 0).
      { destruct t1 as [|z t1 _] using rev_ind; [simpl; lia|]. rewrite last_left_snoc. destruct (sorted_split _ _ _ Hso) as (_ & Hb & _).
        pose proof (Hb z ltac:(set_solver)). pose proof (wr_range _ _ _ _ Hr z ltac:(set_solver)). lia. }
      rewrite i32_small; lia.
    + apply (lags_ext s); [|done]. intros z Hz. simpl. rewrite upd_ne; [done|]. intros E. apply Hny2. rewrite <- E. apply list_elem_of_fmap. by exists z.
  - intros z. simpl. unfold upd. by destruct (Z.eqb_spec z (t_id y)) as [->|].
Qed.

(** Timer [x] has been taken out of the queue. *)
Lemma wd_rep_removed lo s t1 x t2 F L q :
  wd_rep lo s (t1 ++ x :: t2) F -> 0 <= lo -> sq_rep L q (ids t1 ++ ids t2) -> same_links (ids t1 ++ t_id x :: ids t2) (wlinks s) L ->
  wd_rep lo (put_wdog (t_id x) WDOG_CLRACTIVE (set_active q (set_wlinks L (inherit_lag s (hd_or (ids t2) 0) (t_id x))))) (t1 ++ t2) F.
Proof.
  intros Hr Hlo Hrep Hsl. pose proof (sq_nodup _ _ _ (wr_active _ _ _ _ Hr)) as Hnd. rewrite fmap_app, fmap_cons in Hnd.
  apply NoDup_remove' in Hnd as [_ Hx]. assert (Hne : forall y, y ∈ t1 ++ t2 -> t_id y <> t_id x).
  { intros y Hy E. apply Hx. rewrite <- fmap_app, <- E. apply list_elem_of_fmap. by exists y. }
  destruct (inherit_lag_spec lo s t1 x t2 F Hr Hlo) as (Hl & HL & Hq & Hqf & Hnf & Hd). set (s1 := inherit_lag _ _ _) in *.
  constructor; simpl.
  - by rewrite fmap_app.
  - rewrite Hqf. apply (sq_rep_frame (ids t1 ++ t_id x :: ids t2) (wlinks s)); [done| |apply (wr_free _ _ _ _ Hr)].
    intros y Hy Hin. apply (wr_disj _ _ _ _ Hr y); [rewrite fmap_app, fmap_cons; done|done].
  - intros w Hw. apply (wr_disj _ _ _ _ Hr). rewrite fmap_app, fmap_cons. rewrite fmap_app in Hw. set_solver.
  - apply (lags_ext s1); [|done]. intros y Hy. simpl. rewrite upd_ne; [done|by apply Hne].
  - apply (sorted_split _ _ _ (wr_sorted _ _ _ _ Hr)).
  - intros y Hy. apply (wr_range _ _ _ _ Hr). set_solver.
  - intros y Hy. destruct (Hd (t_id y)) as (D1 & _ & D3 & D4). pose proof (wr_data _ _ _ _ Hr y ltac:(set_solver)) as Hdat. unfold data_ok in *. simpl.
    rewrite upd_ne by (by apply Hne). by rewrite D1, D3, D4.
  - intros w. unfold upd. destruct (Z.eqb_spec w (t_id x)) as [->|Hw].
    + rewrite active_clr. symmetry. apply bool_decide_eq_false_2. by rewrite fmap_app.
    + destruct (Hd w) as (_ & D2 & _). unfold WDOG_ISACTIVE. rewrite D2. fold (WDOG_ISACTIVE (wdogs s w)). rewrite (wr_flag _ _ _ _ Hr).
      apply bool_decide_ext. rewrite !fmap_app, fmap_cons. set_solver.
  - rewrite Hnf. apply (wr_count _ _ _ _ Hr).
Qed.

Lemma wd_cancel_active lo fuel s t1 x t2 F :
  wd_rep lo s (t1 ++ x :: t2) F -> 0 <= lo -> (length t1 < fuel)%nat ->
  exists s', wd_cancel fuel s (t_id x) = Some (s', OK) /\ wd_rep lo s' (t1 ++ t2) F /\
    WDOG_ISALLOCED (wdogs s' (t_id x)) = WDOG_ISALLOCED (wdogs s (t_id x)) /\ WDOG_ISSTATIC (wdogs s' (t_id x)) = WDOG_ISSTATIC (wdogs s (t_id x)).
Proof.
  intros Hr Hlo Hf. pose proof (wr_active _ _ _ _ Hr) as Ha. rewrite fmap_app, fmap_cons in Ha.
  pose proof (sq_nodup _ _ _ Ha) as Hnd. pose proof (sq_null _ _ _ Ha) as H0. apply NoDup_remove' in Hnd as [Hnd Hx].
  assert (Hx0 : t_id x <> 0) by (intros E; rewrite E in H0; set_solver).
  unfold wd_cancel. destruct (Z.eqb_spec (t_id x) 0) as [?|_]; [done|].
  rewrite (wr_flag _ _ _ _ Hr), bool_decide_eq_true_2 by (rewrite fmap_app, fmap_cons; set_solver). cbn [negb andb].
  rewrite (sq_head _ _ _ Ha), (wd_search_spec s (t_id x) fuel 0 (ids t1) (ids t2));
    [|apply (sq_next _ _ _ Ha)|done|set_solver|by rewrite length_fmap]. cbn [mbind option_bind].
  rewrite assert_true by (by destruct (Z.eqb_spec (t_id x) 0)). qrun.
  destruct (sq_next_of _ _ _ _ _ Ha) as [_ Hn]. rewrite Hn. fold (inherit_lag s (hd_or (ids t2) 0) (t_id x)).
  destruct (inherit_lag_spec lo s t1 x t2 F Hr Hlo) as (_ & HL & Hq & _ & _ & Hd). set (s1 := inherit_lag _ _ _) in *.
  rewrite HL, Hq. destruct (sq_remove_spec _ _ _ _ _ Ha) as (L & q & -> & Hrep & Hsl). qrun. simpl wlinks. qrun.
  eexists. split; [done|]. split.
  - apply (wd_rep_removed lo s t1 x t2 F _ q Hr Hlo).
    + apply (sq_rep_frame [t_id x] L); [|set_solver|done]. intros y Hy. split; qpoint.
    + intros y Hy. destruct (Hsl y Hy) as [<- <-]. split; qpoint.
  - rewrite put_wdog_eq. destruct (clr_other (wdogs s1 (t_id x))) as [C1 C2]. simpl. rewrite C1, C2. unfold WDOG_ISALLOCED, WDOG_ISSTATIC.
    by destruct (Hd (t_id x)) as (_ & -> & _).
Qed.

(** Cancelling a timer, active or not. *)
Lemma wd_cancel_spec lo fuel s t F w :
  wd_rep lo s t F -> 0 <= lo -> (length t < fuel)%nat ->
  exists s', wd_cancel fuel s w = Some (s', if bool_decide (w ∈ ids t) then OK else ERROR) /\ wd_rep lo s' (cancel_timer w t) F /\
    WDOG_ISALLOCED (wdogs s' w) = WDOG_ISALLOCED (wdogs s w) /\ WDOG_ISSTATIC (wdogs s' w) = WDOG_ISSTATIC (wdogs s w).
Proof.
  intros Hr Hlo Hf. destruct (decide (w ∈ ids t)) as [Hw|Hw].
  - destruct (ids_split t w Hw) as (t1 & x & t2 & -> & <-). rewrite bool_decide_eq_true_2 by done.
    rewrite cancel_split by apply (sq_nodup _ _ _ (wr_active _ _ _ _ Hr)). apply wd_cancel_active; [done|done|]. rewrite length_app in Hf. lia.
  - rewrite bool_decide_eq_false_2 by done. exists s. split; [by apply (wd_cancel_inactive lo fuel s t F)|]. by rewrite cancel_none.
Qed.

(** ** Reading the time left *)

Lemma wd_sum_spec s w fuel t1 x t2 prev :
  lags s prev (t1 ++ x :: t2) -> seg (flink (wlinks s)) (ids (t1 ++ x :: t2)) 0 -> 0 ∉ ids (t1 ++ x :: t2) ->
  w ∉ ids t1 -> t_id x = w -> (forall y, y ∈ t1 ++ x :: t2 -> -2147483648 <= t_left y <= 2147483647) -> (length t1 < fuel)%nat ->
  wd_sum fuel s w (hd_or (ids (t1 ++ x :: t2)) 0) prev = Some (t_left x).
Proof.
  revert prev t1. induction fuel as [|fuel IH]; intros prev t1 Hl Hs H0 Hw Hx Hr Hf; [lia|]. destruct t1 as [|y t1]; simpl in *.
  - destruct (Z.eqb_spec (t_id x) 0) as [E|_]; [rewrite E in H0; set_solver|]. rewrite Hx, Z.eqb_refl. destruct Hl as [Hl _]. rewrite Hx in Hl. rewrite Hl.
    rewrite i32_small; [f_equal; lia|]. pose proof (Hr x ltac:(set_solver)). lia.
  - destruct (Z.eqb_spec (t_id y) 0) as [E|_]; [rewrite E in H0; set_solver|]. destruct (Z.eqb_spec (t_id y) w) as [E|_]; [set_solver|].
    destruct Hl as [Hly Hl], Hs as [-> Hs]. rewrite Hly. replace (prev + (t_left y - prev)) with (t_left y) by lia.
    rewrite i32_small by (pose proof (Hr y ltac:(set_solver)); lia). apply IH; try done; [set_solver|set_solver| |lia]. intros z Hz. apply Hr. set_solver.
Qed.

Definition time_left (w : Z) (t : list timer) : Z :=
  match filter (fun x => t_id x = w) t with [] => 0 | x :: _ => t_left x end.

Lemma time_left_split t1 x t2 : t_id x ∉ ids t1 -> time_left (t_id x) (t1 ++ x :: t2) = t_left x.
Proof.
  intros Hx. unfold time_left. rewrite filter_app. assert (E : filter (fun y => t_id y = t_id x) t1 = []).
  { induction t1 as [|y t1 IH]; [done|]. rewrite filter_cons_False by set_solver. apply IH. set_solver. }
  rewrite E. simpl. by rewrite filter_cons_True.
Qed.

Lemma time_left_none w t : w ∉ ids t -> time_left w t = 0.
Proof.
  intros Hw. unfold time_left. assert (E : filter (fun y => t_id y = w) t = []); [|by rewrite E].
  induction t as [|y t IH]; [done|]. rewrite filter_cons_False by set_solver. apply IH. set_solver.
Qed.

Lemma wd_gettime_spec lo fuel s t F w :
  wd_rep lo s t F -> 0 <= lo -> (length t < fuel)%nat -> wd_gettime fuel s w = Some (time_left w t).
Proof.
  intros Hr Hlo Hf. unfold wd_gettime. rewrite (wr_flag _ _ _ _ Hr). pose proof (wr_active _ _ _ _ Hr) as Ha.
  destruct (decide (w ∈ ids t)) as [Hw|Hw].
  - rewrite bool_decide_eq_true_2 by done. destruct (Z.eqb_spec w 0) as [->|_]; [by destruct (sq_null _ _ _ Ha)|]. cbn [negb andb].
    destruct (ids_split t w Hw) as (t1 & x & t2 & -> & <-). pose proof (sq_nodup _ _ _ Ha) as Hnd. rewrite fmap_app, fmap_cons in Hnd.
    apply NoDup_remove' in Hnd as [_ Hx]. rewrite time_left_split by set_solver. rewrite (sq_head _ _ _ Ha).
    apply wd_sum_spec; try done; [apply (wr_lags _ _ _ _ Hr)|apply (sq_next _ _ _ Ha)|apply (sq_null _ _ _ Ha)|set_solver| |rewrite length_app in Hf; lia].
    intros y Hy. pose proof (wr_range _ _ _ _ Hr y Hy). lia.
  - rewrite bool_decide_eq_false_2, andb_false_r by done. by rewrite time_left_none.
Qed.

(** ** Starting *)

Lemma wd_clamp_spec d : 0 <= d <= 2147483647 -> wd_clamp d = Z.min (d + 1) 2147483647.
Proof.
  intros H. unfold wd_clamp. destruct (Z.leb_spec d 0); [lia|]. destruct (Z.eq_dec d 2147483647) as [->|Hne]; [reflexivity|].
  rewrite i32_small by lia. destruct (Z.leb_spec (d + 1) 0); lia.
Qed.

Lemma advance_positive_spec fuel s h x t :
  lags s 0 (x :: t) -> t_id x = h -> 0 <= t_left x <= 2147483647 -> (0 < fuel)%nat ->
  advance_positive fuel s 0 h h = Some (t_left x, h, h).
Proof.
  intros [Hl _] <- Hr Hf. destruct fuel as [|fuel]; [lia|]. simpl. rewrite Hl, i32_small by lia.
  replace (0 + (t_left x - 0)) with (t_left x) by lia. by destruct (Z.ltb_spec (t_left x) 0); [lia|].
Qed.

Lemma advance_shorter_spec fuel s delay prev0 t1 c t2 :
  lags s 0 (t1 ++ c :: t2) -> seg (flink (wlinks s)) (ids (t1 ++ c :: t2)) 0 -> 0 ∉ ids (t1 ++ c :: t2) ->
  (forall y, y ∈ t1 ++ c :: t2 -> 0 <= t_left y <= 2147483647) -> (forall y, y ∈ t1 -> t_left y <= delay) -> (length t2 < fuel)%nat ->
  exists u1 d u2, t1 ++ c :: t2 = u1 ++ d :: u2 /\
    advance_shorter fuel s delay (t_left c) (last_or (ids t1) prev0) (t_id c) = Some (t_left d, last_or (ids u1) prev0, t_id d) /\
    (forall y, y ∈ u1 -> t_left y <= delay) /\ (delay < t_left d \/ u2 = []).
Proof.
  revert t1 c t2. induction fuel as [|fuel IH]; intros t1 c t2 Hl Hs H0 Hr H1 Hf; [lia|]. cbn [advance_shorter].
  assert (Hn : flink (wlinks s) (t_id c) = hd_or (ids t2) 0).
  { rewrite fmap_app, fmap_cons in Hs. apply seg_app in Hs as [_ [Hc _]]. done. }
  rewrite Hn. destruct (Z.leb_spec (t_left c) delay) as [Hle|Hgt]; cycle 1.
  { cbn [andb]. exists t1, c, t2. split; [done|]. split; [done|]. split; [done|by left]. }
  destruct t2 as [|y t2]; simpl.
  { exists t1, c, []. split; [done|]. split; [done|]. split; [done|by right]. }
  rewrite fmap_app, !fmap_cons in H0. destruct (Z.eqb_spec (t_id y) 0) as [E|_]; [rewrite E in H0; set_solver|]. cbn [negb].
  assert (Hly : lag (wdogs s (t_id y)) = t_left y - t_left c).
  { apply lags_app in Hl as [_ [_ [Hly _]]]. done. }
  rewrite Hly. replace (t_left c + (t_left y - t_left c)) with (t_left y) by lia.
  rewrite i32_small by (pose proof (Hr y ltac:(set_solver)); lia).
  assert (E0 : t1 ++ c :: y :: t2 = (t1 ++ [c]) ++ y :: t2) by (by rewrite <- app_assoc). rewrite E0 in *.
  destruct (IH (t1 ++ [c]) y t2) as (u1 & d & u2 & E & Hrun & Hu1 & Hend); try done.
  - rewrite !fmap_app, !fmap_cons. simpl. rewrite <- app_assoc. done.
  - intros z [Hz|Hz]%elem_of_app; [by apply H1|]. apply list_elem_of_singleton in Hz as ->. done.
  - simpl in Hf. lia.
  - exists u1, d, u2. split; [done|]. split; [|done]. rewrite <- Hrun. f_equal.
    rewrite fmap_app. unfold last_or. simpl. by rewrite reverse_snoc.
Qed.

Lemma insert_timer_split x t1 t2 :
  (forall y, y ∈ t1 -> t_left y <= t_left x) -> (match t2 with [] => True | y :: _ => t_left x < t_left y end) ->
  insert_timer x (t1 ++ t2) = t1 ++ x :: t2.
Proof.
  intros H1 H2. induction t1 as [|y t1 IH]; simpl.
  - destruct t2 as [|y t2]; [done|]. simpl. by destruct (Z.leb_spec (t_left y) (t_left x)); [lia|].
  - destruct (Z.leb_spec (t_left y) (t_left x)) as [_|Hgt]; [|pose proof (H1 y ltac:(set_solver)); lia].
    rewrite IH; [done|]. intros z Hz. apply H1. set_solver.
Qed.

(** All but the lag is the same. *)
Definition same_but_lag (d d' : wdog_s) : Prop :=
  func d' = func d /\ wflags d' = wflags d /\ argc d' = argc d /\ parm d' = parm d.

(** A timer has been put between [t1] and [t2]. *)
Lemma wd_rep_insert lo s s' t1 x t2 F :
  wd_rep lo s (t1 ++ t2) F -> t_id x ∉ ids (t1 ++ t2) -> t_id x ∉ F -> lo <= t_left x <= 2147483647 ->
  (forall y, y ∈ t1 -> t_left y <= t_left x) -> (forall y, y ∈ t2 -> t_left x <= t_left y) ->
  sq_rep (wlinks s') (g_wdactivelist s') (ids (t1 ++ x :: t2)) -> same_links (t_id x :: ids (t1 ++ t2)) (wlinks s) (wlinks s') ->
  g_wdfreelist s' = g_wdfreelist s -> g_wdnfree s' = g_wdnfree s ->
  lag (wdogs s' (t_id x)) = t_left x - last_left t1 0 ->
  (match t2 with [] => True | y :: _ => lag (wdogs s' (t_id y)) = t_left y - t_left x end) ->
  (forall w, w <> t_id x -> w <> hd_or (ids t2) (t_id x) -> lag (wdogs s' w) = lag (wdogs s w)) ->
  (forall w, w <> t_id x -> same_but_lag (wdogs s w) (wdogs s' w)) ->
  data_ok s' x -> WDOG_ISACTIVE (wdogs s' (t_id x)) = true ->
  wd_rep lo s' (t1 ++ x :: t2) F.
Proof.
  intros Hr Hx HxF Hrange H1 H2 Ha Hsl Hfq Hnf Hlx Hly Hlag Hsame Hdx Hact.
  assert (Hnd : NoDup (ids (t1 ++ t2))) by apply (sq_nodup _ _ _ (wr_active _ _ _ _ Hr)). rewrite fmap_app in Hnd, Hx.
  assert (Hne : forall y, y ∈ t1 ++ t2 -> t_id y <> t_id x).
  { intros y Hy E. apply Hx. rewrite <- E, <- fmap_app. apply list_elem_of_fmap. by exists y. }
  constructor.
  - done.
  - rewrite Hfq. apply (sq_rep_frame (t_id x :: ids (t1 ++ t2)) (wlinks s)); [done| |apply (wr_free _ _ _ _ Hr)].
    intros w Hw [->|Hin]%elem_of_cons; [done|]. by apply (wr_disj _ _ _ _ Hr w).
  - intros w. rewrite fmap_app, fmap_cons. intros [Hw|[->|Hw]%elem_of_cons]%elem_of_app; [|done|]; apply (wr_disj _ _ _ _ Hr); rewrite fmap_app; set_solver.
  - pose proof (wr_lags _ _ _ _ Hr) as Hl. apply lags_app in Hl as [Hl1 Hl2]. apply lags_app. split; [|split; [done|]].
    + apply (lags_ext s); [|done]. intros y Hy. apply Hlag; [apply Hne; set_solver|]. destruct t2 as [|z t2]; simpl; [apply Hne; set_solver|].
      intros E. apply NoDup_app in Hnd as (_ & Hnd & _). apply (Hnd (t_id z)); [rewrite <- E; apply list_elem_of_fmap; by exists y|set_solver].
    + destruct t2 as [|z t2]; [done|]. simpl in Hl2. split; [done|]. apply (lags_ext s); [|apply Hl2].
      intros y Hy. apply Hlag; [apply Hne; set_solver|]. simpl. intros E. apply NoDup_app in Hnd as (_ & _ & Hnd). rewrite fmap_cons in Hnd.
      apply NoDup_cons in Hnd as [Hz _]. apply Hz. rewrite <- E. apply list_elem_of_fmap. by exists y.
  - pose proof (wr_sorted _ _ _ _ Hr) as Hso. clear -Hso H1 H2. induction t1 as [|y t1 IH]; simpl in *.
    + constructor; [done|]. apply Forall_forall. done.
    + apply StronglySorted_inv in Hso as [Hso Hy]. rewrite Forall_forall in Hy. constructor; [apply IH; [intros z Hz; apply H1; set_solver|done]|].
      apply Forall_forall. intros z [Hz|[->|Hz]%elem_of_cons]%elem_of_app; [apply Hy; set_solver|apply H1; set_solver|apply Hy; set_solver].
  - intros y [Hy|[->|Hy]%elem_of_cons]%elem_of_app; [|done|]; apply (wr_range _ _ _ _ Hr); set_solver.
  - assert (Hdat : forall y, y ∈ t1 ++ t2 -> data_ok s' y).
    { intros y Hy. destruct (Hsame (t_id y) (Hne y Hy)) as (D1 & _ & D3 & D4). pose proof (wr_data _ _ _ _ Hr y Hy) as Hd. unfold data_ok in *.
      by rewrite D1, D3, D4. }
    intros y [Hy|[->|Hy]%elem_of_cons]%elem_of_app; [|done|]; apply Hdat; set_solver.
  - intros w. destruct (decide (w = t_id x)) as [->|Hw].
    + rewrite Hact. symmetry. apply bool_decide_eq_true_2. rewrite fmap_app, fmap_cons. set_solver.
    + destruct (Hsame w Hw) as (_ & D2 & _). unfold WDOG_ISACTIVE. rewrite D2. fold (WDOG_ISACTIVE (wdogs s w)). rewrite (wr_flag _ _ _ _ Hr).
      apply bool_decide_ext. rewrite !fmap_app, fmap_cons. set_solver.
  - rewrite Hnf. apply (wr_count _ _ _ _ Hr).
Qed.

(** The end of [wd_start], once the watchdog is in the queue. *)
Definition wd_activate (w d : Z) (s : wd_state) : wd_state := put_wdog w WDOG_SETACTIVE (put_wdog w (set_lag d) s).

Lemma wd_activate_eq w d s :
  lag (wdogs (wd_activate w d s) w) = d /\ WDOG_ISACTIVE (wdogs (wd_activate w d s) w) = true /\
  func (wdogs (wd_activate w d s) w) = func (wdogs s w) /\ argc (wdogs (wd_activate w d s) w) = argc (wdogs s w) /\
  parm (wdogs (wd_activate w d s) w) = parm (wdogs s w) /\ forall y, y <> w -> wdogs (wd_activate w d s) y = wdogs s y.
Proof.
  unfold wd_activate. rewrite !put_wdog_eq. split_and!; try done; [apply active_set|]. intros y Hy. by rewrite !put_wdog_ne.
Qed.

Lemma data_ok_ext s s' x :
  func (wdogs s' (t_id x)) = func (wdogs s (t_id x)) -> argc (wdogs s' (t_id x)) = argc (wdogs s (t_id x)) ->
  parm (wdogs s' (t_id x)) = parm (wdogs s (t_id x)) -> data_ok s x -> data_ok s' x.
Proof. unfold data_ok. by intros -> -> ->. Qed.

(** The timer goes behind all others. *)
Lemma enqueue_last lo s t x F :
  wd_rep lo s t F -> t_id x ∉ ids t -> t_id x ∉ F -> t_id x <> 0 -> lo <= t_left x <= 2147483647 ->
  (forall y, y ∈ t -> t_left y <= t_left x) -> data_ok s x ->
  exists L q, sq_addlast (wlinks s) (t_id x) (g_wdactivelist s) = Some (L, q) /\
    wd_rep lo (wd_activate (t_id x) (t_left x - last_left t 0) (set_active q (set_wlinks L s))) (t ++ [x]) F.
Proof.
  intros Hr Hx HxF Hx0 Hrange H1 Hd. destruct (sq_addlast_spec _ _ _ _ (wr_active _ _ _ _ Hr) Hx Hx0) as (L & q & Hrun & Hrep & Hsl).
  exists L, q. split; [done|]. destruct (wd_activate_eq (t_id x) (t_left x - last_left t 0) (set_active q (set_wlinks L s))) as (E1 & E2 & E3 & E4 & E5 & E6).
  rewrite <- (app_nil_r t) in Hr, Hx. apply (wd_rep_insert lo s _ t x [] F); try done.
  - set_solver.
  - by rewrite fmap_app.
  - by rewrite app_nil_r.
  - intros w Hw _. by rewrite E6.
  - intros w Hw. by rewrite E6.
  - by apply (data_ok_ext (set_active q (set_wlinks L s))).
Qed.

(** The timer goes before [c]. *)
Lemma enqueue_before lo s t1 c t2 x F prev :
  wd_rep lo s (t1 ++ c :: t2) F -> t_id x ∉ ids (t1 ++ c :: t2) -> t_id x ∉ F -> t_id x <> 0 -> 0 <= lo -> lo <= t_left x <= 2147483647 ->
  (forall y, y ∈ t1 -> t_left y <= t_left x) -> t_left x < t_left c -> data_ok s x ->
  let d := i32 (t_left x - i32 (t_left c - lag (wdogs s (t_id c)))) in
  let s1 := put_wdog (t_id c) (fun e => set_lag (i32 (lag e - d)) e) s in
  exists L q, (if t_id c =? head (g_wdactivelist s) then sq_addfirst (wlinks s) (t_id x) (g_wdactivelist s)
      else sq_addafter (wlinks s) (last_or (ids t1) prev) (t_id x) (g_wdactivelist s)) = Some (L, q) /\
    wd_rep lo (wd_activate (t_id x) d (set_active q (set_wlinks L s1))) (t1 ++ x :: c :: t2) F.
Proof.
  intros Hr Hx HxF Hx0 Hlo Hrange H1 Hc Hd d s1. pose proof (wr_active _ _ _ _ Hr) as Ha. rewrite fmap_app, fmap_cons in Ha, Hx.
  pose proof (sq_nodup _ _ _ Ha) as Hnd. pose proof (wr_lags _ _ _ _ Hr) as Hl. apply lags_app in Hl as [_ [Hlc _]].
  pose proof (wr_range _ _ _ _ Hr c ltac:(set_solver)) as Hrc.
  assert (Hp : 0 <= last_left t1 0 <= t_left x).
  { destruct t1 as [|z t1 _] using rev_ind; [simpl; lia|]. rewrite last_left_snoc. pose proof (H1 z ltac:(set_solver)).
    pose proof (wr_range _ _ _ _ Hr z ltac:(set_solver)). lia. }
  assert (Ed : d = t_left x - last_left t1 0).
  { unfold d. rewrite Hlc. replace (t_left c - (t_left c - last_left t1 0)) with (last_left t1 0) by lia.
    rewrite (i32_small (last_left t1 0)), i32_small by lia. done. }
  assert (Hins : exists L q, (if t_id c =? head (g_wdactivelist s) then sq_addfirst (wlinks s) (t_id x) (g_wdactivelist s)
      else sq_addafter (wlinks s) (last_or (ids t1) prev) (t_id x) (g_wdactivelist s)) = Some (L, q) /\
      sq_rep L q (ids t1 ++ t_id x :: t_id c :: ids t2) /\ same_links (t_id x :: ids t1 ++ t_id c :: ids t2) (wlinks s) L).
  { rewrite (sq_head _ _ _ Ha). destruct t1 as [|z t1 _] using rev_ind.
    - simpl. rewrite Z.eqb_refl. apply sq_addfirst_spec; done.
    - rewrite fmap_app in Ha, Hx, Hnd. simpl in Ha, Hx, Hnd. rewrite <- app_assoc in Ha, Hx, Hnd. simpl in Ha, Hx, Hnd.
      assert (El : last_or (ids (t1 ++ [z])) prev = t_id z) by (rewrite fmap_app; unfold last_or; simpl; by rewrite reverse_snoc).
      rewrite El, !fmap_app. simpl. rewrite <- !app_assoc. simpl.
      destruct (Z.eqb_spec (t_id c) (hd_or (ids t1 ++ t_id z :: t_id c :: ids t2) 0)) as [E|_].
      + exfalso. destruct t1 as [|y t1]; simpl in E; rewrite E in Hnd; simpl in Hnd; qside.
      + destruct (sq_addafter_spec _ _ _ _ _ _ Ha Hx Hx0) as (L & q & ? & ? & ?). by exists L, q. }
  destruct Hins as (L & q & -> & Hrep & Hsl). exists L, q. split; [done|].
  destruct (wd_activate_eq (t_id x) d (set_active q (set_wlinks L s1))) as (E1 & E2 & E3 & E4 & E5 & E6).
  assert (Hcx : t_id c <> t_id x) by set_solver.
  assert (Hs1 : forall w, same_but_lag (wdogs s w) (wdogs s1 w)).
  { intros w. unfold s1, same_but_lag. simpl. unfold upd. by destruct (Z.eqb_spec w (t_id c)) as [->|]. }
  apply (wd_rep_insert lo s _ t1 x (c :: t2) F); try done.
  - by rewrite fmap_app, fmap_cons.
  - intros y [->|Hy]%elem_of_cons; [lia|]. destruct (sorted_split _ _ _ (wr_sorted _ _ _ _ Hr)) as (_ & _ & H2). specialize (H2 y Hy). lia.
  - by rewrite fmap_app, !fmap_cons.
  - by rewrite fmap_app, !fmap_cons.
  - by rewrite E1, Ed.
  - rewrite E6 by done. simpl. rewrite upd_eq. simpl. rewrite Hlc, Ed, i32_small; lia.
  - intros w Hw Hwc. rewrite E6 by done. simpl. simpl in Hwc. by rewrite upd_ne.
  - intros w Hw. rewrite E6 by done. apply Hs1.
  - destruct (Hs1 (t_id x)) as (D1 & _ & D3 & D4). apply (data_ok_ext s); [rewrite E3; exact D1|rewrite E4; exact D3|rewrite E5; exact D4|done].
Qed.

Lemma wd_enqueue_spec lo fuel s t x F :
  wd_rep lo s t F -> t_id x ∉ ids t -> t_id x ∉ F -> t_id x <> 0 -> 0 <= lo -> lo <= t_left x <= 2147483647 -> data_ok s x ->
  (length t < fuel)%nat ->
  exists s1 d, wd_enqueue fuel s (t_id x) (t_left x) = Some (s1, d) /\ wd_rep lo (wd_activate (t_id x) d s1) (insert_timer x t) F.
Proof.
  intros Hr Hx HxF Hx0 Hlo Hrange Hd Hf. unfold wd_enqueue. pose proof (wr_active _ _ _ _ Hr) as Ha. pose proof (sq_null _ _ _ Ha) as H0.
  rewrite (sq_head _ _ _ Ha). destruct t as [|c t]; simpl hd_or.
  { rewrite Z.eqb_refl. destruct (enqueue_last lo s [] x F) as (L & q & -> & Hrep); try done; [set_solver|]. cbn [mbind option_bind].
    eexists _, _. split; [done|]. simpl in Hrep. replace (t_left x - 0) with (t_left x) in Hrep by lia. exact Hrep. }
  destruct (Z.eqb_spec (t_id c) 0) as [E|_]; [rewrite fmap_cons, E in H0; set_solver|].
  assert (Hpos : forall y, y ∈ c :: t -> 0 <= t_left y <= 2147483647) by (intros y Hy; pose proof (wr_range _ _ _ _ Hr y Hy); lia).
  pose proof (wr_lags _ _ _ _ Hr) as Hl.
  rewrite (advance_positive_spec fuel s (t_id c) c t); [|done|done|apply Hpos; set_solver|lia]. cbn [mbind option_bind].
  destruct (advance_shorter_spec fuel s (t_left x) (t_id c) [] c t) as (u1 & e & u2 & Et & Hrun & Hu1 & Hcase);
    [done|apply (sq_next _ _ _ Ha)|done|done|set_solver|simpl in Hf; lia|].
  simpl in Et, Hrun. change (last_or [] (t_id c)) with (t_id c) in Hrun. rewrite Hrun. cbn [mbind option_bind]. rewrite Et in Hr, Hx, Hpos, Hl, Ha |- *. destruct (Z.ltb_spec (t_left x) (t_left e)) as [He|He].
  - destruct (enqueue_before lo s u1 e u2 x F (t_id c)) as (L & q & Hins & Hrep); try done.
    simpl wlinks. simpl g_wdactivelist. rewrite Hins. cbn [mbind option_bind]. eexists _, _. split; [done|]. by rewrite insert_timer_split.
  - destruct Hcase as [? | ->]; [lia|]. assert (Hall : forall y, y ∈ u1 ++ [e] -> t_left y <= t_left x) by set_solver.
    rewrite fmap_app, fmap_cons in Ha. destruct (sq_next_of _ _ _ _ _ Ha) as [_ Hn]. rewrite Hn. simpl (hd_or _ 0). rewrite Z.eqb_refl.
    destruct (enqueue_last lo s (u1 ++ [e]) x F) as (L & q & -> & Hrep); try done. cbn [mbind option_bind].
    eexists _, _. split; [done|]. rewrite last_left_snoc in Hrep. rewrite i32_small by (pose proof (Hpos e ltac:(set_solver)); lia).
    rewrite <- (app_nil_r (u1 ++ [e])), insert_timer_split by done. exact Hrep.
Qed.

(** Changing the function and arguments of a watchdog that is not active. *)
Lemma wd_rep_inactive lo s t F w f :
  wd_rep lo s t F -> w ∉ ids t -> (forall d, wflags (f d) = wflags d) -> wd_rep lo (put_wdog w f s) t F.
Proof.
  intros Hr Hw Hf. assert (Hne : forall y, y ∈ t -> t_id y <> w) by (intros y Hy E; apply Hw; rewrite <- E; apply list_elem_of_fmap; by exists y).
  destruct Hr as [R1 R2 R3 R4 R5 R6 R7 R8 R9]. constructor; try done.
  - apply (lags_ext s); [|done]. intros y Hy. rewrite put_wdog_ne; [done|by apply Hne].
  - intros y Hy. unfold data_ok. rewrite put_wdog_ne by (by apply Hne). by apply R7.
  - intros y. rewrite <- R8. unfold WDOG_ISACTIVE. simpl. unfold upd. destruct (Z.eqb_spec y w) as [->|]; [by rewrite Hf|done].
Qed.

Lemma cancel_not_in w t : w ∉ ids (cancel_timer w t).
Proof. intros Hin. apply list_elem_of_fmap in Hin as (y & -> & Hy). unfold cancel_timer in Hy. apply list_elem_of_filter in Hy as [Hy _]. done. Qed.

Lemma cancel_length w t : (length (cancel_timer w t) <= length t)%nat.
Proof. apply length_filter. Qed.

Lemma wd_start_spec lo fuel s t F w d f args :
  wd_rep lo s t F -> 0 <= lo <= 1 -> w <> 0 -> w ∉ F -> (length args <= 4)%nat -> 0 <= d <= 2147483647 -> (length t < fuel)%nat ->
  exists s', wd_start fuel s w d f args = Some (s', OK) /\ wd_rep lo s' (start_timer w d f args t) F.
Proof.
  intros Hr Hlo Hw0 HwF Hargs Hd Hf. unfold wd_start, CONFIG_MAX_WDOGPARMS. destruct (Z.eqb_spec w 0) as [?|_]; [done|].
  destruct (Z.ltb_spec 4 (Z.of_nat (length args))) as [?|_]; [lia|]. destruct (Z.ltb_spec d 0) as [?|_]; [lia|]. cbn [orb].
  assert (Hc : exists s1, (if WDOG_ISACTIVE (wdogs s w) then '(s, _) ← wd_cancel fuel s w; Some s else Some s) = Some s1 /\
      wd_rep lo s1 (cancel_timer w t) F).
  { rewrite (wr_flag _ _ _ _ Hr). destruct (decide (w ∈ ids t)) as [Hin|Hin].
    - rewrite bool_decide_eq_true_2 by done. destruct (wd_cancel_spec lo fuel s t F w) as (s1 & -> & Hr1 & _); try done; [lia|]. by exists s1.
    - rewrite bool_decide_eq_false_2 by done. exists s. by rewrite cancel_none. }
  destruct Hc as (s1 & -> & Hr1). cbn [mbind option_bind]. rewrite wd_clamp_spec by done.
  set (x := mk_timer w (Z.min (d + 1) 2147483647) f args). pose proof (cancel_not_in w t) as Hnin. pose proof (cancel_length w t) as Hlen.
  set (s2 := put_wdog w _ s1). assert (Hr2 : wd_rep lo s2 (cancel_timer w t) F) by (by apply wd_rep_inactive).
  assert (Hd2 : data_ok s2 x).
  { unfold data_ok, s2, x. simpl. rewrite upd_eq. simpl. split_and!; [done| |done|by rewrite take_app_length]. unfold u8. rewrite Z.mod_small; lia. }
  destruct (wd_enqueue_spec lo fuel s2 (cancel_timer w t) x F) as (s3 & dl & Hrun & Hr3); try done; [lia|simpl; lia|lia|].
  simpl in Hrun. rewrite Hrun. cbn [mbind option_bind]. eexists. split; [done|]. exact Hr3.
Qed.
