(* ===== verification/WdogTick.v ===== *)
(** * Watchdog timers: allocation, and the timer tick

    The operations on the free list, and the tick: the functions of the timers
    that expire are called in order.  A function may itself start, cancel,
    create and delete watchdogs; what is asked of it is [handler_ok]. *)

From stdpp Require Import base tactics numbers sets list sorting.
From S2P Require Import Prelude Queue QueueProps Sched Wdog WdogProps.

(** ** Allocation *)

(** Changing the flags of a watchdog that is not active. *)
Lemma wd_rep_flags lo s t F w v :
  wd_rep lo s t F -> w ∉ ids t -> Z.land v WDOGF_ACTIVE = 0 -> wd_rep lo (put_wdog w (set_wflags v) s) t F.
Proof.
  intros Hr Hw Hv. assert (Hne : forall y, y ∈ t -> t_id y <> w) by (intros y Hy E; apply Hw; rewrite <- E; apply list_elem_of_fmap; by exists y).
  destruct Hr as [R1 R2 R3 R4 R5 R6 R7 R8 R9]. constructor; try done.
  - apply (lags_ext s); [|done]. intros y Hy. rewrite put_wdog_ne; [done|by apply Hne].
  - intros y Hy. unfold data_ok. rewrite put_wdog_ne by (by apply Hne). by apply R7.
  - intros y. simpl. unfold upd. destruct (Z.eqb_spec y w) as [->|]; [|apply R8]. unfold WDOG_ISACTIVE. simpl. rewrite Hv.
    symmetry. by apply bool_decide_eq_false_2.
Qed.

(** The link of a watchdog in neither queue is of no account. *)
Lemma wd_rep_link lo s t F w n :
  wd_rep lo s t F -> w ∉ ids t -> w ∉ F -> w <> 0 -> exists L, set_flink (wlinks s) w n = Some L /\ wd_rep lo (set_wlinks L s) t F.
Proof.
  intros Hr Hw HwF Hw0. qrun. eexists. split; [done|]. destruct Hr as [R1 R2 R3 R4 R5 R6 R7 R8 R9]. constructor; try done; try (by apply (lags_ext s)); simpl.
  - apply (sq_rep_frame [w] (wlinks s)); [|set_solver|done]. intros y Hy. split; qpoint.
  - apply (sq_rep_frame [w] (wlinks s)); [|set_solver|done]. intros y Hy. split; qpoint.
Qed.

(** With more than the reserve left, or in an interrupt with some left, the
    first free watchdog is taken. *)
Lemma wd_create_prealloc lo s t w F irq heap :
  wd_rep lo s t (w :: F) -> (CONFIG_WDOG_INTRESERVE <? Z.of_nat (length (w :: F))) || irq = true -> Z.of_nat (length F) <= 65534 ->
  exists s', wd_create s irq heap = Some (s', w) /\ wd_rep lo s' t F /\ wflags (wdogs s' w) = 0.
Proof.
  intros Hr Hc Hmax. pose proof (wr_free _ _ _ _ Hr) as Hq. pose proof (sq_null _ _ _ Hq) as H0. pose proof (sq_nodup _ _ _ Hq) as Hnd.
  assert (Hw : w ∉ ids t) by (intros Hin; apply (wr_disj _ _ _ _ Hr w Hin); set_solver). assert (Hw0 : w <> 0) by set_solver.
  unfold wd_create. rewrite (wr_count _ _ _ _ Hr), Hc. destruct (sq_remfirst_spec _ _ _ Hq) as (L & q & -> & Hrep & Hsl). cbn [mbind option_bind].
  rewrite assert_true by (simpl; apply Z.ltb_lt; lia). cbn [mbind option_bind]. destruct (Z.eqb_spec w 0) as [?|_]; [done|].
  set (s1 := set_wfree q _ _). apply NoDup_cons in Hnd as [HwF Hnd].
  assert (Hr1 : wd_rep lo s1 t F).
  { destruct Hr as [R1 R2 R3 R4 R5 R6 R7 R8 R9]. constructor; try done; try (by apply (lags_ext s)); simpl.
    - apply (sq_rep_frame (w :: F) (wlinks s)); [done| |done]. intros y Hy. by apply R3.
    - intros y Hy HyF. apply (R3 y Hy). set_solver.
    - rewrite length_cons in *. unfold u16. rewrite Z.mod_small; lia. }
  destruct (wd_rep_link lo s1 t F w 0 Hr1 Hw HwF Hw0) as (L1 & -> & Hr2). cbn [mbind option_bind].
  eexists. split; [done|]. split; [by apply wd_rep_flags|]. by rewrite put_wdog_eq.
Qed.

(** Otherwise the heap is asked. *)
Lemma wd_create_heap lo s t F heap :
  wd_rep lo s t F -> Z.of_nat (length F) <= CONFIG_WDOG_INTRESERVE -> heap <> 0 -> heap ∉ ids t -> heap ∉ F ->
  exists s', wd_create s false heap = Some (s', heap) /\ wd_rep lo s' t F /\ wflags (wdogs s' heap) = WDOGF_ALLOCED.
Proof.
  intros Hr Hc Hh0 Hht HhF. unfold wd_create. rewrite (wr_count _ _ _ _ Hr). destruct (Z.ltb_spec CONFIG_WDOG_INTRESERVE (Z.of_nat (length F))) as [?|_]; [lia|].
  cbn [orb]. destruct (Z.eqb_spec heap 0) as [?|_]; [done|]. destruct (wd_rep_link lo s t F heap 0 Hr Hht HhF Hh0) as (L & -> & Hr1). cbn [mbind option_bind].
  eexists. split; [done|]. split; [by apply wd_rep_flags|]. by rewrite put_wdog_eq.
Qed.

(** Deleting cancels, and gives a pre-allocated watchdog back. *)
Lemma wd_delete_spec lo fuel s t F w :
  wd_rep lo s t F -> 0 <= lo -> w <> 0 -> w ∉ F -> (length t < fuel)%nat ->
  (WDOG_ISALLOCED (wdogs s w) = false -> Z.of_nat (length F) < CONFIG_PREALLOC_WDOGS) ->
  let d := wdogs s w in
  exists s', wd_delete fuel s w = Some (s', WDOG_ISALLOCED d) /\
    wd_rep lo s' (cancel_timer w t) (if WDOG_ISALLOCED d || WDOG_ISSTATIC d then F else F ++ [w]).
Proof.
  intros Hr Hlo Hw0 HwF Hf Hcap d. unfold wd_delete. rewrite assert_true by (by destruct (Z.eqb_spec w 0)). cbn [mbind option_bind].
  assert (Hc : exists s1, (if WDOG_ISACTIVE (wdogs s w) then '(s, _) ← wd_cancel fuel s w; Some s else Some s) = Some s1 /\
      wd_rep lo s1 (cancel_timer w t) F /\ WDOG_ISALLOCED (wdogs s1 w) = WDOG_ISALLOCED d /\ WDOG_ISSTATIC (wdogs s1 w) = WDOG_ISSTATIC d).
  { rewrite (wr_flag _ _ _ _ Hr). destruct (decide (w ∈ ids t)) as [Hin|Hin].
    - rewrite bool_decide_eq_true_2 by done. destruct (wd_cancel_spec lo fuel s t F w) as (s1 & -> & Hr1 & Hfl); try done. by exists s1.
    - rewrite bool_decide_eq_false_2 by done. exists s. by rewrite cancel_none. }
  destruct Hc as (s1 & -> & Hr1 & HA & HS). cbn [mbind option_bind]. rewrite HA, HS. fold d in Hcap. destruct (WDOG_ISALLOCED d); [by exists s1|].
  specialize (Hcap eq_refl).
  destruct (WDOG_ISSTATIC d); cbn [negb orb]; [by exists s1|]. pose proof (cancel_not_in w t) as Hwt.
  destruct (sq_addlast_spec _ _ _ _ (wr_free _ _ _ _ Hr1) HwF Hw0) as (L & q & -> & Hrep & Hsl). cbn [mbind option_bind].
  simpl g_wdnfree. rewrite (wr_count _ _ _ _ Hr1). unfold CONFIG_PREALLOC_WDOGS in *. assert (Hu : u16 (Z.of_nat (length F) + 1) = Z.of_nat (length F) + 1).
  { unfold u16. rewrite Z.mod_small; lia. }
  rewrite assert_true by (rewrite Hu; apply Z.leb_le; lia). cbn [mbind option_bind]. eexists. split; [done|].
  destruct Hr1 as [R1 R2 R3 R4 R5 R6 R7 R8 R9]. constructor; try done; try (by apply (lags_ext s1)); simpl.
  - apply (sq_rep_frame (w :: F) (wlinks s1)); [done| |done]. intros y Hy [->|HyF]%elem_of_cons; [done|by apply (R3 y)].
  - intros y Hy [HyF| ->%list_elem_of_singleton]%elem_of_app; [by apply (R3 y)|done].
  - rewrite Hu, length_app. simpl. lia.
Qed.

(** When a task goes away, the watchdog it waits with is cancelled and given back. *)
Lemma wd_recover_spec lo fuel s t F w :
  wd_rep lo s t F -> 0 <= lo -> w <> 0 -> w ∉ F -> (length t < fuel)%nat -> Z.of_nat (length F) < CONFIG_PREALLOC_WDOGS ->
  let d := wdogs s w in
  exists s', wd_recover fuel s w = Some (s', 0, WDOG_ISALLOCED d) /\
    wd_rep lo s' (cancel_timer w t) (if WDOG_ISALLOCED d || WDOG_ISSTATIC d then F else F ++ [w]).
Proof.
  intros Hr Hlo Hw0 HwF Hf Hcap d. unfold wd_recover. destruct (Z.eqb_spec w 0) as [?|_]; [done|]. cbn [negb].
  destruct (wd_cancel_spec lo fuel s t F w Hr Hlo Hf) as (s1 & -> & Hr1 & E1 & E2). cbn [mbind option_bind].
  destruct (wd_delete_spec lo fuel s1 (cancel_timer w t) F w Hr1 Hlo Hw0 HwF) as (s2 & -> & Hr2); [pose proof (cancel_length w t); lia|done|].
  cbn [mbind option_bind]. rewrite E1, E2 in *. rewrite (cancel_none w (cancel_timer w t)) in Hr2 by apply cancel_not_in. by exists s2.
Qed.

(** In an interrupt with no free watchdog, [wd_create] fails its assertion
    instead of returning NULL. *)
Theorem wd_create_irq_fails lo s t heap : wd_rep lo s t [] -> wd_create s true heap = None.
Proof.
  intros Hr. unfold wd_create. rewrite orb_true_r. pose proof (sq_remfirst_spec _ _ _ (wr_free _ _ _ _ Hr)) as E. simpl in E. rewrite E.
  cbn [mbind option_bind]. rewrite (wr_count _ _ _ _ Hr). reflexivity.
Qed.

(** ** The tick *)

Lemma wd_rep_raise s t F : wd_rep 0 s t F -> expired t = [] -> wd_rep 1 s t F.
Proof.
  intros Hr He. pose proof (wr_sorted _ _ _ _ Hr) as Hs. destruct Hr as [R1 R2 R3 R4 R5 R6 R7 R8 R9]. constructor; try done.
  intros x Hx. specialize (R6 x Hx). destruct t as [|y t]; [set_solver|]. simpl in He. destruct (Z.leb_spec (t_left y) 0) as [?|Hy]; [done|].
  apply StronglySorted_inv in Hs as [_ Hs]. rewrite Forall_forall in Hs. apply elem_of_cons in Hx as [->|Hx]; [lia|]. specialize (Hs x Hx). unfold by_time in Hs. lia.
Qed.

Lemma expired_nil t : expired t = [] <-> match t with [] => True | y :: _ => 0 < t_left y end.
Proof. destruct t as [|y t]; [done|]. simpl. destruct (Z.leb_spec (t_left y) 0); split; (done || lia). Qed.

(** The first watchdog expires. *)
Definition wd_pop (s : wd_state) (w : Z) (L : links) (q : queue) : wd_state :=
  put_wdog w WDOG_CLRACTIVE (inherit_lag (set_active q (set_wlinks L s)) (head q) w).

Lemma wd_pop_spec lo s x t F :
  wd_rep lo s (x :: t) F -> 0 <= lo ->
  exists L q, sq_remfirst (wlinks s) (g_wdactivelist s) = Some (t_id x, (L, q)) /\ wd_rep lo (wd_pop s (t_id x) L q) t F /\
    func (wdogs (wd_pop s (t_id x) L q) (t_id x)) = t_func x /\ argc (wdogs (wd_pop s (t_id x) L q) (t_id x)) = Z.of_nat (length (t_args x)) /\
    (length (t_args x) <= 4)%nat /\ take (length (t_args x)) (parm (wdogs (wd_pop s (t_id x) L q) (t_id x))) = t_args x.
Proof.
  intros Hr Hlo. destruct (sq_remfirst_spec _ _ _ (wr_active _ _ _ _ Hr)) as (L & q & Hrun & Hrep & Hsl). exists L, q. split; [done|].
  change (sq_rep L q (ids t)) in Hrep. assert (E : wd_pop s (t_id x) L q =
      put_wdog (t_id x) WDOG_CLRACTIVE (set_active q (set_wlinks L (inherit_lag s (hd_or (ids t) 0) (t_id x))))).
  { unfold wd_pop, inherit_lag. rewrite (sq_head _ _ _ Hrep).
    by destruct (hd_or (ids t) 0 =? 0). }
  rewrite E. split; [by apply (wd_rep_removed lo s [] x t F L q)|]. rewrite put_wdog_eq.
  destruct (inherit_lag_spec lo s [] x t F Hr Hlo) as (_ & _ & _ & _ & _ & Hd). destruct (Hd (t_id x)) as (D1 & _ & D3 & D4).
  destruct (wr_data _ _ _ _ Hr x ltac:(set_solver)) as (E1 & E2 & E3 & E4). simpl. by rewrite D1, D3, D4.
Qed.

Lemma lags_tick s s' p t :
  (forall z, z ∈ t -> wdogs s' (t_id z) = wdogs s (t_id z)) -> lags s p t -> lags s' (p - 1) (tick_timer <$> t).
Proof.
  revert p. induction t as [|z t IH]; intros p He Hl; [done|]. simpl in *. rewrite (He z) by set_solver. destruct Hl as [-> Hl].
  split; [lia|]. apply IH; [|done]. intros w Hw. apply He. set_solver.
Qed.

(** The tick takes one from the time every timer has left. *)
Lemma wd_tick_down s y t F :
  wd_rep 1 s (y :: t) F -> wd_rep 0 (put_wdog (t_id y) (fun d => set_lag (i32 (lag d - 1)) d) s) (tick_timer <$> y :: t) F.
Proof.
  intros Hr. assert (Ei : ids (tick_timer <$> y :: t) = ids (y :: t)) by (rewrite <- list_fmap_compose; by apply list_fmap_ext).
  pose proof (sq_nodup _ _ _ (wr_active _ _ _ _ Hr)) as Hnd. rewrite fmap_cons in Hnd. apply NoDup_cons in Hnd as [Hy _].
  pose proof (wr_range _ _ _ _ Hr y ltac:(set_solver)) as Hry. destruct Hr as [R1 R2 R3 R4 R5 R6 R7 R8 R9].
  set (s' := put_wdog _ _ s). assert (Hs' : forall w, same_but_lag (wdogs s w) (wdogs s' w)).
  { intros w. unfold s', same_but_lag. simpl. unfold upd. by destruct (Z.eqb_spec w (t_id y)) as [->|]. }
  constructor; try done.
  - by rewrite Ei.
  - intros w. rewrite Ei. apply R3.
  - destruct R4 as [Rl R4]. simpl. rewrite upd_eq. simpl. split; [rewrite Rl, i32_small; lia|].
    apply (lags_tick s); [|done]. intros z Hz. unfold s'. rewrite put_wdog_ne; [done|]. intros E. apply Hy. rewrite <- E. apply list_elem_of_fmap. by exists z.
  - clear -R5. induction (y :: t) as [|z u IH]; [constructor|]. apply StronglySorted_inv in R5 as [R5 Hz]. simpl. constructor; [by apply IH|].
    apply Forall_fmap. eapply Forall_impl; [exact Hz|]. unfold by_time. simpl. intros w Hw. lia.
  - intros x (z & -> & Hz)%list_elem_of_fmap. specialize (R6 z Hz). simpl. lia.
  - intros x (z & -> & Hz)%list_elem_of_fmap. specialize (R7 z Hz). destruct (Hs' (t_id z)) as (D1 & _ & D3 & D4). unfold data_ok in *. simpl.
    simpl in D1, D3, D4. by rewrite D1, D3, D4.
  - intros w. rewrite Ei, <- R8. unfold WDOG_ISACTIVE. by destruct (Hs' w) as (_ & -> & _).
Qed.

Section handlers.
Context {X : Type} (call : Z -> list Z -> wd_state * X -> option (wd_state * X)).

(** What the functions do to the timers, the free watchdogs and the rest of the system. *)
Context (acall : Z -> list Z -> list timer * list Z * X -> list timer * list Z * X).

(** A condition that holds of the system at all times. *)
Context (I : list timer -> list Z -> X -> Prop).

(** The function of a timer that has expired does what [acall] says, keeps
    [I], and leaves no more timers that expire now than there were.  [I] is
    not affected by time. *)
Class handler_ok : Prop := {
  ho_call s y t F x : wd_rep 0 s t F -> I (y :: t) F x -> t_left y <= 0 ->
    exists s' t' F' x', acall (t_func y) (t_args y) (t, F, x) = (t', F', x') /\ call (t_func y) (t_args y) (s, x) = Some (s', x') /\
      wd_rep 0 s' t' F' /\ I t' F' x' /\ (length (expired t') <= length (expired t))%nat;
  ho_tick t F x : I t F x -> I (tick_timer <$> t) F x
}.

(** The functions of the first [n] timers that have expired. *)
Fixpoint run_due (n : nat) (a : list timer * list Z * X) : list timer * list Z * X :=
  match n with
  | O => a
  | S n =>
      let '(t, F, x) := a in
      match t with
      | [] => a
      | y :: t' => if t_left y <=? 0 then run_due n (acall (t_func y) (t_args y) (t', F, x)) else a
      end
  end.

Definition tick (a : list timer * list Z * X) : list timer * list Z * X :=
  let '(t, F, x) := a in let t := tick_timer <$> t in run_due (length t) (t, F, x).

Context `{handler_ok}.

Lemma wd_expire_spec fuel n s t F x :
  wd_rep 0 s t F -> I t F x -> (length (expired t) <= n)%nat -> (length (expired t) < fuel)%nat ->
  exists s' t' F' x', wd_expire call fuel s x = Some (s', x') /\ run_due n (t, F, x) = (t', F', x') /\ wd_rep 1 s' t' F' /\ I t' F' x'.
Proof.
  revert n s t F x. induction fuel as [|fuel IH]; intros n s t F x Hr HI Hn Hf; [lia|]. cbn [wd_expire].
  pose proof (wr_active _ _ _ _ Hr) as Ha. rewrite (sq_head _ _ _ Ha). destruct t as [|y t]; simpl hd_or.
  { rewrite Z.eqb_refl. simpl. exists s, [], F, x. split_and!; [done|by destruct n|by apply wd_rep_raise|done]. }
  destruct (Z.eqb_spec (t_id y) 0) as [E|_]; [destruct (sq_null _ _ _ Ha); rewrite fmap_cons, E; set_solver|]. cbn [negb andb].
  assert (El : lag (wdogs s (t_id y)) = t_left y) by (destruct (wr_lags _ _ _ _ Hr) as [-> _]; lia). rewrite El. simpl in Hn, Hf.
  destruct (Z.leb_spec (t_left y) 0) as [Hy|Hy].
  - destruct (wd_pop_spec 0 s y t F Hr ltac:(done)) as (L & q & -> & Hr1 & Hfu & Hac & Hle & Htk). cbn [mbind option_bind].
    fold (inherit_lag (set_active q (set_wlinks L s)) (head q) (t_id y)). fold (wd_pop s (t_id y) L q). set (s1 := wd_pop s (t_id y) L q) in *.
    rewrite Hac, Hfu. rewrite assert_true by (unfold CONFIG_MAX_WDOGPARMS; apply Z.leb_le; lia). cbn [mbind option_bind]. rewrite Nat2Z.id, Htk.
    destruct (ho_call s1 y t F x Hr1 HI Hy) as (s2 & t2 & F2 & x2 & Hac2 & -> & Hr2 & HI2 & Hd). cbn [mbind option_bind].
    simpl in Hn, Hf. destruct n as [|n]; [lia|]. cbn [run_due]. destruct (Z.leb_spec (t_left y) 0) as [_|?]; [|lia]. rewrite Hac2. apply IH; [done|done|lia|lia].
  - exists s, (y :: t), F, x. split_and!; [done| |apply wd_rep_raise; [done|by apply expired_nil]|done].
    destruct n as [|n]; [done|]. cbn [run_due]. by destruct (Z.leb_spec (t_left y) 0); [lia|].
Qed.

Lemma expired_length t : (length (expired t) <= length t)%nat.
Proof. induction t as [|y t IH]; simpl; [lia|]. destruct (t_left y <=? 0); simpl; lia. Qed.

(** The tick of the timer interrupt. *)
Lemma wd_timer_spec fuel s t F x :
  wd_rep 1 s t F -> I t F x -> (length t < fuel)%nat ->
  exists s' t' F' x', wd_timer call fuel s x = Some (s', x') /\ tick (t, F, x) = (t', F', x') /\ wd_rep 1 s' t' F' /\ I t' F' x'.
Proof.
  intros Hr HI Hf. unfold wd_timer, tick. pose proof (wr_active _ _ _ _ Hr) as Ha. rewrite (sq_head _ _ _ Ha). destruct t as [|y t]; simpl hd_or.
  { rewrite Z.eqb_refl. by exists s, [], F, x. }
  destruct (Z.eqb_spec (t_id y) 0) as [E|_]; [destruct (sq_null _ _ _ Ha); rewrite fmap_cons, E; set_solver|].
  pose proof (wd_tick_down s y t F Hr) as Hr1. set (s1 := put_wdog _ _ s) in *. apply ho_tick in HI. pose proof (wr_active _ _ _ _ Hr1) as Ha1.
  unfold wd_expiration. rewrite (sq_head _ _ _ Ha1). simpl hd_or.
  rewrite assert_true by (destruct (Z.eqb_spec (t_id y) 0) as [E|]; [destruct (sq_null _ _ _ Ha); rewrite fmap_cons, E; set_solver|done]).
  cbn [mbind option_bind]. pose proof (expired_length (tick_timer <$> y :: t)) as Hel. rewrite length_fmap in Hel.
  destruct (wd_expire_spec fuel (length (tick_timer <$> y :: t)) s1 (tick_timer <$> y :: t) F x) as (s2 & t2 & F2 & x2 & Hrun & Hdue & Hr2 & HI2); try done;
    [by rewrite length_fmap|lia|]. exists s2, t2, F2, x2. split_and!; try done. destruct (Z.leb_spec (lag (wdogs s1 (t_id y))) 0) as [_|Hgt]; [done|].
  destruct fuel as [|fuel]; [lia|]. cbn [wd_expire] in Hrun. rewrite (sq_head _ _ _ Ha1) in Hrun. simpl hd_or in Hrun.
  destruct (Z.leb_spec (lag (wdogs s1 (t_id y))) 0) as [?|_]; [lia|]. rewrite andb_false_r in Hrun. done.
Qed.
End handlers.
