(* ===== verification/WdogTimers.v ===== *)
(** * Watchdog timers: lists of timers

    Which timers are in the list and what they have left after timers are
    started, cancelled and ticked. *)

From stdpp Require Import base tactics numbers sets list sorting.
From S2P Require Import Prelude Queue QueueProps Sched Wdog WdogProps WdogTick.

Lemma insert_timer_parts x t : exists t1 t2, t = t1 ++ t2 /\ insert_timer x t = t1 ++ x :: t2.
Proof.
  induction t as [|y t IH]; [by exists [], []|]. simpl. destruct (t_left y <=? t_left x); [|by exists [], (y :: t)].
  destruct IH as (t1 & t2 & -> & ->). by exists (y :: t1), t2.
Qed.

Lemma insert_ids x t : ids (insert_timer x t) ≡ₚ t_id x :: ids t.
Proof. destruct (insert_timer_parts x t) as (t1 & t2 & -> & ->). rewrite !fmap_app, fmap_cons. by rewrite Permutation_middle. Qed.

Lemma insert_elem x t y : y ∈ insert_timer x t <-> y = x \/ y ∈ t.
Proof. destruct (insert_timer_parts x t) as (t1 & t2 & -> & ->). set_solver. Qed.

Lemma time_left_insert_same x t : t_id x ∉ ids t -> time_left (t_id x) (insert_timer x t) = t_left x.
Proof.
  intros Hx. destruct (insert_timer_parts x t) as (t1 & t2 & -> & ->). rewrite fmap_app in Hx. apply time_left_split. set_solver.
Qed.

Lemma time_left_insert_other x t w : w <> t_id x -> time_left w (insert_timer x t) = time_left w t.
Proof.
  intros Hw. destruct (insert_timer_parts x t) as (t1 & t2 & -> & ->). unfold time_left. rewrite !filter_app, filter_cons_False; [done|congruence].
Qed.

Lemma time_left_elem x t : NoDup (ids t) -> x ∈ t -> time_left (t_id x) t = t_left x.
Proof.
  intros Hnd (t1 & t2 & ->)%list_elem_of_split. apply time_left_split. rewrite fmap_app, fmap_cons in Hnd. apply NoDup_app in Hnd as (_ & Hnd & _).
  intros Hin. apply (Hnd _ Hin). set_solver.
Qed.

Lemma expired_insert x t : 0 < t_left x -> expired (insert_timer x t) = expired t.
Proof.
  intros Hx. induction t as [|y t IH]; simpl; [by destruct (Z.leb_spec (t_left x) 0); [lia|]|]. destruct (Z.leb_spec (t_left y) (t_left x)) as [?|?]; simpl.
  - by rewrite IH.
  - destruct (Z.leb_spec (t_left x) 0); [lia|]. by destruct (Z.leb_spec (t_left y) 0); [lia|].
Qed.

Lemma expired_elem x t : StronglySorted by_time t -> x ∈ t -> x ∈ expired t <-> t_left x <= 0.
Proof.
  intros Hs Hx. induction t as [|y t IH]; [set_solver|]. apply StronglySorted_inv in Hs as [Hs Hy]. rewrite Forall_forall in Hy. simpl.
  destruct (Z.leb_spec (t_left y) 0) as [Hle|Hgt].
  - rewrite elem_of_cons. apply elem_of_cons in Hx as [->|Hx]; [split; [done|by left]|]. rewrite <- IH by done. split; [intros [->|?]|by right]; [|done].
    by apply IH.
  - split; [set_solver|]. intros Hl. apply elem_of_cons in Hx as [->|Hx]; [lia|]. specialize (Hy x Hx). unfold by_time in Hy. lia.
Qed.

Lemma expired_subseteq t : forall x, x ∈ expired t -> x ∈ t.
Proof. induction t as [|y t IH]; simpl; [done|]. destruct (t_left y <=? 0); set_solver. Qed.

Lemma NoDup_expired t : NoDup (ids t) -> NoDup (ids (expired t)).
Proof.
  induction t as [|y t IH]; [done|]. rewrite fmap_cons. intros [Hy Hnd]%NoDup_cons. simpl. destruct (t_left y <=? 0); [|constructor].
  rewrite fmap_cons. constructor; [|by apply IH]. intros (x & E & Hx%expired_subseteq)%list_elem_of_fmap. apply Hy. rewrite E. apply list_elem_of_fmap. by exists x.
Qed.

Lemma ids_tick (t : list timer) : ids (tick_timer <$> t) = ids t.
Proof. rewrite <- list_fmap_compose. by apply list_fmap_ext. Qed.

Lemma cancel_nodup w t : NoDup (ids t) -> NoDup (ids (cancel_timer w t)).
Proof.
  unfold cancel_timer. induction t as [|y t IH]; [done|]. rewrite fmap_cons. intros [Hy Hnd]%NoDup_cons. rewrite filter_cons.
  destruct (decide _); [|by apply IH]. rewrite fmap_cons. constructor; [|by apply IH]. intros (x & E & Hx)%list_elem_of_fmap.
  apply list_elem_of_filter in Hx as [_ Hx]. apply Hy. rewrite E. apply list_elem_of_fmap. by exists x.
Qed.

Lemma cancel_idem w t : cancel_timer w (cancel_timer w t) = cancel_timer w t.
Proof. apply cancel_none, cancel_not_in. Qed.


Lemma sorted_tick t : StronglySorted by_time t -> StronglySorted by_time (tick_timer <$> t).
Proof.
  induction 1 as [|y t Hs IH Hy]; [constructor|]. rewrite fmap_cons. constructor; [done|]. apply Forall_fmap. eapply Forall_impl; [exact Hy|].
  unfold by_time. simpl. intros z Hz. lia.
Qed.

Lemma time_left_tick w t :
  NoDup (ids t) -> time_left w (tick_timer <$> t) = if decide (w ∈ ids t) then time_left w t - 1 else 0.
Proof.
  intros Hnd. destruct (decide (w ∈ ids t)) as [Hin|Hin]; [|by rewrite time_left_none by (by rewrite ids_tick)].
  apply list_elem_of_fmap in Hin as (x & -> & Hx). rewrite (time_left_elem x t) by done.
  apply (time_left_elem (tick_timer x) (tick_timer <$> t)); [by rewrite ids_tick|]. apply list_elem_of_fmap. by exists x.
Qed.

Lemma time_left_pos s t F w : wd_rep 1 s t F -> w ∈ ids t <-> 0 < time_left w t.
Proof.
  intros Hr. pose proof (sq_nodup _ _ _ (wr_active _ _ _ _ Hr)) as Hn. split.
  - intros (y & -> & Hy)%list_elem_of_fmap. rewrite (time_left_elem y t Hn Hy). pose proof (wr_range _ _ _ _ Hr y Hy). lia.
  - intros Hp. destruct (decide (w ∈ ids t)) as [|Hw]; [done|]. rewrite time_left_none in Hp by done. lia.
Qed.

Lemma filter_cancel w v t : w <> v -> filter (fun y => t_id y = w) (cancel_timer v t) = filter (fun y => t_id y = w) t.
Proof.
  intros Hne. unfold cancel_timer. induction t as [|y t IH]; [done|]. rewrite (filter_cons (fun x => t_id x <> v)).
  case_decide as Hv; rewrite !(filter_cons (fun x => t_id x = w)); [by rewrite IH|]. rewrite decide_False by congruence. exact IH.
Qed.

Lemma time_left_cancel w v t : w <> v -> time_left w (cancel_timer v t) = time_left w t.
Proof. intros Hne. unfold time_left. by rewrite filter_cancel. Qed.

Lemma time_left_start w v d f args t : w <> v -> time_left w (start_timer v d f args t) = time_left w t.
Proof.
  intros Hne. unfold start_timer. by rewrite time_left_insert_other, time_left_cancel.
Qed.

Lemma time_left_started s w d f args t F :
  wd_rep 1 s (start_timer w d f args t) F -> time_left w (start_timer w d f args t) = Z.min (d + 1) 2147483647.
Proof.
  intros Hr. apply (time_left_elem (mk_timer w (Z.min (d + 1) 2147483647) f args)); [apply (sq_nodup _ _ _ (wr_active _ _ _ _ Hr))|].
  apply insert_elem. by left.
Qed.

Lemma start_elem w d f args t y :
  y ∈ start_timer w d f args t -> y = mk_timer w (Z.min (d + 1) 2147483647) f args \/ (y ∈ t /\ t_id y <> w).
Proof. intros [->|Hy]%insert_elem; [by left|right]. unfold cancel_timer in Hy. by apply list_elem_of_filter in Hy as [? ?]. Qed.

Lemma ids_elem (t : list timer) y : y ∈ t -> t_id y ∈ ids t.
Proof. intros Hy. apply list_elem_of_fmap. by exists y. Qed.

Lemma pending_elem t y : StronglySorted by_time t -> y ∈ pending t <-> y ∈ t /\ 0 < t_left y.
Proof.
  induction t as [|z t IH]; intros Hs; simpl; [set_solver|]. apply StronglySorted_inv in Hs as [Hs Hz]. destruct (Z.leb_spec (t_left z) 0) as [Hle|Hgt].
  - rewrite IH by done. split; [set_solver|]. intros [[->|Hy]%elem_of_cons Hp]; [lia|done].
  - split; [|tauto]. intros Hy. split; [done|]. rewrite Forall_forall in Hz. apply elem_of_cons in Hy as [->|Hy]; [done|]. specialize (Hz y Hy). unfold by_time in Hz. lia.
Qed.

Lemma time_left_pending s s' w t F F' :
  wd_rep 1 s t F -> wd_rep 1 s' (pending (tick_timer <$> t)) F' -> time_left w (pending (tick_timer <$> t)) = Z.max 0 (time_left w t - 1).
Proof.
  intros Hr Hr'. pose proof (sorted_tick _ (wr_sorted _ _ _ _ Hr)) as Hs. pose proof (sq_nodup _ _ _ (wr_active _ _ _ _ Hr)) as Hn.
  pose proof (sq_nodup _ _ _ (wr_active _ _ _ _ Hr')) as Hn'. destruct (decide (w ∈ ids t)) as [(z & -> & Hz)%list_elem_of_fmap|Hw].
  - rewrite (time_left_elem z t) by done. pose proof (wr_range _ _ _ _ Hr z Hz) as Hrz. destruct (Z_lt_le_dec 1 (t_left z)) as [Hl|Hl].
    + change (t_id z) with (t_id (tick_timer z)). rewrite time_left_elem; [simpl; lia|done|].
      apply pending_elem; [done|]. split; [apply list_elem_of_fmap; by exists z|simpl; lia].
    + rewrite time_left_none; [lia|]. intros (y & Hid & Hy)%list_elem_of_fmap. apply pending_elem in Hy as [Hy Hp]; [|done].
      apply list_elem_of_fmap in Hy as (v & -> & Hv). simpl in *. assert (t_left z = t_left v); [|lia].
      rewrite <- (time_left_elem z t), <- (time_left_elem v t), Hid by done. done.
  - rewrite (time_left_none w t), time_left_none; [done| |done]. intros (y & -> & Hy)%list_elem_of_fmap. apply pending_elem in Hy as [Hy _]; [|done].
    apply list_elem_of_fmap in Hy as (v & -> & Hv). apply Hw. by apply (ids_elem t v).
Qed.

(** * Watchdog timers: where a watchdog comes from

    The flags that say whether a watchdog was allocated from the heap, or is
    part of another object, are set when it is created; no other operation
    changes them. *)

Definition same_kind (d d' : wdog_s) : Prop := WDOG_ISALLOCED d' = WDOG_ISALLOCED d /\ WDOG_ISSTATIC d' = WDOG_ISSTATIC d.

Definition same_kinds (s s' : wd_state) : Prop := forall w, same_kind (wdogs s w) (wdogs s' w).

#[export] Instance same_kinds_preorder : PreOrder same_kinds.
Proof.
  split; [done|]. intros s1 s2 s3 H1 H2 w. destruct (H1 w), (H2 w). by split; etransitivity.
Qed.

Lemma same_kinds_step s1 s2 s3 : same_kinds s1 s2 -> same_kinds s2 s3 -> same_kinds s1 s3.
Proof. intros H1 H2. by transitivity s2. Qed.

Lemma kinds_put s s' w f : same_kinds s s' -> same_kind (wdogs s' w) (f (wdogs s' w)) -> same_kinds s (put_wdog w f s').
Proof.
  intros H Hf. transitivity s'; [done|]. intros y. simpl. unfold upd. destruct (Z.eqb_spec y w) as [->|]; [done|split; done].
Qed.

Lemma kinds_wdogs s s' : wdogs s' = wdogs s -> same_kinds s s'.
Proof. intros H w. by rewrite H. Qed.

Lemma set_other d : same_kind d (WDOG_SETACTIVE d).
Proof.
  assert (H : forall m, Z.land 1 m = 0 -> Z.land (Z.lor (wflags d) 1) m = Z.land (wflags d) m).
  { intros m Hm. by rewrite Z.land_lor_distr_l, Hm, Z.lor_0_r. }
  unfold same_kind, WDOG_ISALLOCED, WDOG_ISSTATIC, WDOG_SETACTIVE, WDOGF_ACTIVE. simpl. by rewrite !H.
Qed.

(** Follow the steps of a function back from its result. *)
Create HintDb kinds discriminated.

Ltac kinds_open :=
  repeat match goal with
  | H : (_ ≫= _) = Some _ |- _ => apply bind_Some in H as (? & ? & H)
  | H : None = Some _ |- _ => discriminate H
  | H : Some _ = Some _ |- _ => injection H as H
  | H : (_, _) = (_, _) |- _ => injection H as ? ?
  | p : _ * _ |- _ => destruct p
  | H : (if ?b then _ else _) = Some _ |- _ => destruct b
  | H : match ?s with _ => _ end = Some _ |- _ => destruct s
  end; cbn [fst snd] in *.

Ltac kinds_back :=
  subst; repeat match goal with
  | |- same_kinds ?s ?s => reflexivity
  | |- same_kinds _ (set_wlinks _ ?s) => apply (same_kinds_step _ s); [|by apply kinds_wdogs]
  | |- same_kinds _ (set_active _ ?s) => apply (same_kinds_step _ s); [|by apply kinds_wdogs]
  | |- same_kinds _ (set_wfree _ _ ?s) => apply (same_kinds_step _ s); [|by apply kinds_wdogs]
  | |- same_kinds _ (put_wdog _ _ _) => apply kinds_put; [|first [apply clr_other | apply set_other | by split]]
  | |- same_kinds _ (if ?b then _ else _) => destruct b
  | |- same_kinds _ ?s => eapply same_kinds_step; [|solve [eauto 2 with kinds nocore]]
  end.

Ltac kinds := intros; kinds_open; kinds_back.

Lemma kinds_cancel fuel s w s' r : wd_cancel fuel s w = Some (s', r) -> same_kinds s s'.
Proof. unfold wd_cancel. kinds. Qed.
#[export] Hint Resolve kinds_cancel : kinds.

Lemma kinds_delete fuel s w s' r : wd_delete fuel s w = Some (s', r) -> same_kinds s s'.
Proof. unfold wd_delete. kinds. Qed.
#[export] Hint Resolve kinds_delete : kinds.

Lemma kinds_enqueue fuel s w d s' d' : wd_enqueue fuel s w d = Some (s', d') -> same_kinds s s'.
Proof. unfold wd_enqueue. kinds. Qed.
#[export] Hint Resolve kinds_enqueue : kinds.

Lemma kinds_start fuel s w d f args s' r : wd_start fuel s w d f args = Some (s', r) -> same_kinds s s'.
Proof. unfold wd_start. kinds. Qed.
#[export] Hint Resolve kinds_start : kinds.

(** A new watchdog has the kind of its origin; the others keep theirs. *)
Lemma kinds_create s irq heap s' w y : wd_create s irq heap = Some (s', w) -> y <> w -> same_kind (wdogs s y) (wdogs s' y).
Proof.
  unfold wd_create. intros H Hy. kinds_open; subst; try (by split); simpl; rewrite upd_ne by done; by split.
Qed.

Section tick.
Context {X : Type} (call : Z -> list Z -> wd_state * X -> option (wd_state * X)).
Context (Hcall : forall f args s x s' x', call f args (s, x) = Some (s', x') -> same_kinds s s').

Lemma kinds_expire fuel s x s' x' : wd_expire call fuel s x = Some (s', x') -> same_kinds s s'.
Proof. revert s x. induction fuel as [|fuel IH]; intros s x; [done|]. cbn [wd_expire]. kinds. Qed.

Lemma kinds_timer fuel s x s' x' : wd_timer call fuel s x = Some (s', x') -> same_kinds s s'.
Proof.
  unfold wd_timer, wd_expiration. intros H. kinds_open; subst; [reflexivity| |]; [|by apply kinds_put].
  eapply same_kinds_step; [|by eapply kinds_expire]. by apply kinds_put.
Qed.
End tick.
