(* ===== verification/WdogTheorems.v ===== *)
(** * Watchdog timers: theorem

    Sequences of watchdog calls and ticks against the list of timers. *)

From stdpp Require Import base tactics numbers sets list sorting.
From S2P Require Import Prelude Queue QueueProps Sched Wdog WdogProps WdogTick.

(** ** The system: calls and ticks, with functions that only take note *)

Definition calls : Type := list (Z * list Z).

Definition note (f : Z) (args : list Z) (a : wd_state * calls) : option (wd_state * calls) := let '(s, x) := a in Some (s, x ++ [(f, args)]).

Inductive wd_op :=
  | Start (w d f : Z) (args : list Z)
  | Cancel (w : Z)
  | Gettime (w : Z)
  | Tick.

(** The source: new state, calls made, and result *)
Definition wd_run (fuel : nat) (op : wd_op) (s : wd_state) (x : calls) : option (wd_state * calls * Z) :=
  match op with
  | Start w d f args => '(s, r) ← wd_start fuel s w d f args; Some (s, x, r)
  | Cancel w => '(s, r) ← wd_cancel fuel s w; Some (s, x, r)
  | Gettime w => r ← wd_gettime fuel s w; Some (s, x, r)
  | Tick => '(s, x) ← wd_timer note fuel s x; Some (s, x, OK)
  end.

Fixpoint wd_runs (fuel : nat) (ops : list wd_op) (s : wd_state) (x : calls) : option (wd_state * calls * list Z) :=
  match ops with
  | [] => Some (s, x, [])
  | op :: ops => '(s, x, r) ← wd_run fuel op s x; '(s, x, rs) ← wd_runs fuel ops s x; Some (s, x, r :: rs)
  end.

(** The list of timers *)
Definition call_of (y : timer) : Z * list Z := (t_func y, t_args y).

Definition timers_run (op : wd_op) (t : list timer) (x : calls) : list timer * calls * Z :=
  match op with
  | Start w d f args => (start_timer w d f args t, x, OK)
  | Cancel w => (cancel_timer w t, x, if bool_decide (w ∈ ids t) then OK else ERROR)
  | Gettime w => (t, x, time_left w t)
  | Tick => let t := tick_timer <$> t in (pending t, x ++ (call_of <$> expired t), OK)
  end.

Fixpoint timers_runs (ops : list wd_op) (t : list timer) (x : calls) : list timer * calls * list Z :=
  match ops with
  | [] => (t, x, [])
  | op :: ops => let '(t, x, r) := timers_run op t x in let '(t, x, rs) := timers_runs ops t x in (t, x, r :: rs)
  end.

(** ** Proof *)

Definition note_timers (f : Z) (args : list Z) (a : list timer * list Z * calls) : list timer * list Z * calls :=
  let '(t, F, x) := a in (t, F, x ++ [(f, args)]).

#[export] Instance note_ok : handler_ok note note_timers (fun _ _ _ => True).
Proof.
  constructor; [|done]. intros s y t F x Hr _ _. by exists s, t, F, (x ++ [(t_func y, t_args y)]).
Qed.

Lemma run_due_note n t F x : (length (expired t) <= n)%nat -> run_due note_timers n (t, F, x) = (pending t, F, x ++ (call_of <$> expired t)).
Proof.
  revert t x. induction n as [|n IH]; intros t x Hn.
  - destruct t as [|y t]; [simpl; by rewrite app_nil_r|]. simpl in *. destruct (t_left y <=? 0); [simpl in Hn; lia|]. simpl. by rewrite app_nil_r.
  - destruct t as [|y t]; [simpl; by rewrite app_nil_r|]. cbn [run_due expired pending] in *. destruct (t_left y <=? 0); [|simpl; by rewrite app_nil_r].
    unfold note_timers at 2. rewrite IH by (simpl in Hn; lia). rewrite fmap_cons, <- app_assoc. done.
Qed.

(** The watchdogs in use *)
Definition op_ok (W : list Z) (op : wd_op) : Prop :=
  match op with Start w d _ args => w ∈ W /\ 0 <= d <= 2147483647 /\ (length args <= 4)%nat | _ => True end.

Lemma pending_subseteq t : forall y, y ∈ pending t -> y ∈ t.
Proof. induction t as [|z t IH]; simpl; [done|]. destruct (t_left z <=? 0); set_solver. Qed.

Lemma timers_run_ids W op t x t' x' r :
  op_ok W op -> ids t ⊆ W -> timers_run op t x = (t', x', r) -> ids t' ⊆ W.
Proof.
  intros Hop Ht E. destruct op as [w d f args|w|w|]; simpl in E; injection E as <- <- <-.
  - destruct Hop as [Hw _]. intros z (y & -> & Hy)%list_elem_of_fmap. unfold start_timer in Hy. assert (Hs : y = mk_timer w (Z.min (d + 1) 2147483647) f args \/ y ∈ cancel_timer w t).
    { revert Hy. generalize (cancel_timer w t) as u. clear. induction u as [|v u IH]; simpl; [set_solver|]. destruct (t_left v <=? _); set_solver. }
    destruct Hs as [->|Hy']; [done|]. apply Ht. unfold cancel_timer in Hy'. apply list_elem_of_filter in Hy' as [_ Hy']. apply list_elem_of_fmap. by exists y.
  - intros z (y & -> & Hy)%list_elem_of_fmap. unfold cancel_timer in Hy. apply list_elem_of_filter in Hy as [_ Hy]. apply Ht, list_elem_of_fmap. by exists y.
  - done.
  - intros z (y & -> & Hy%pending_subseteq)%list_elem_of_fmap. apply list_elem_of_fmap in Hy as (v & -> & Hv). apply Ht, list_elem_of_fmap. by exists v.
Qed.

Lemma wd_run_spec fuel W op s t F x :
  wd_rep 1 s t F -> ids t ⊆ W -> (length W < fuel)%nat -> (forall w, w ∈ W -> w <> 0 /\ w ∉ F) -> op_ok W op ->
  exists s', wd_run fuel op s x = Some (s', (timers_run op t x).1.2, (timers_run op t x).2) /\ wd_rep 1 s' (timers_run op t x).1.1 F.
Proof.
  intros Hr Ht Hf HW Hop. assert (Hlen : (length t < fuel)%nat).
  { apply Nat.le_lt_trans with (length W); [|done]. rewrite <- (length_fmap t_id t). apply submseteq_length, NoDup_submseteq; [|done].
    apply (sq_nodup _ _ _ (wr_active _ _ _ _ Hr)). }
  destruct op as [w d f args|w|w|]; simpl.
  - destruct Hop as (Hw & Hd & Ha). destruct (HW w Hw) as [Hw0 HwF]. destruct (wd_start_spec 1 fuel s t F w d f args Hr) as (s' & -> & Hr'); try done. by exists s'.
  - destruct (wd_cancel_spec 1 fuel s t F w Hr) as (s' & -> & Hr' & _); try done. by exists s'.
  - rewrite (wd_gettime_spec 1 fuel s t F w) by done. by exists s.
  - destruct (wd_timer_spec note note_timers (fun _ _ _ => True) fuel s t F x Hr I Hlen) as (s' & t' & F' & x' & -> & Htick & Hr' & _). exists s'.
    unfold tick in Htick. rewrite run_due_note in Htick by apply expired_length. injection Htick as <- <- <-. done.
Qed.

(** C4: the queue of watchdogs is a list of timers.  Every sequence of
    [wd_start], [wd_cancel], [wd_gettime] and timer ticks runs without a failed
    assertion, returns what it returns on timers that hold their remaining
    ticks, and calls the same functions with the same arguments in the same
    order: in [start_timer] a delay of [d] ends with the tick [d] + 1. *)
Theorem wdogs_refine_timers fuel W ops s t F x :
  wd_rep 1 s t F -> ids t ⊆ W -> (length W < fuel)%nat -> (forall w, w ∈ W -> w <> 0 /\ w ∉ F) -> Forall (op_ok W) ops ->
  exists s' t' x' rs, wd_runs fuel ops s x = Some (s', x', rs) /\ timers_runs ops t x = (t', x', rs) /\ wd_rep 1 s' t' F.
Proof.
  intros Hr Ht Hf HW Hops. revert s t x Hr Ht. induction Hops as [|op ops Hop _ IH]; intros s t x Hr Ht; [by exists s, t, x, []|]. simpl.
  destruct (wd_run_spec fuel W op s t F x Hr Ht Hf HW Hop) as (s1 & -> & Hr1). destruct (timers_run op t x) as [[t1 x1] r] eqn:E. simpl in *.
  destruct (IH s1 t1 x1 Hr1 (timers_run_ids W op t x t1 x1 r Hop Ht E)) as (s2 & t2 & x2 & rs & -> & -> & Hr2). simpl. by exists s2, t2, x2, (r :: rs).
Qed.

(** Three watchdogs, none of them running. *)
Definition wd_idle : wd_state :=
  mk_wd (mk_links (fun _ => 0) (fun _ => 0)) (fun _ => mk_wdog 0 0 0 0 []) empty_queue empty_queue 0.

Lemma wdogs_refine_timers_witness :
  exists s' t' x' rs,
    wd_runs 4 [Start 100 2 7 [1]; Start 132 0 8 []; Tick; Gettime 100; Start 164 1 9 [5; 6]; Tick; Tick; Cancel 164] wd_idle [] = Some (s', x', rs) /\
    timers_runs [Start 100 2 7 [1]; Start 132 0 8 []; Tick; Gettime 100; Start 164 1 9 [5; 6]; Tick; Tick; Cancel 164] [] [] = (t', x', rs) /\ wd_rep 1 s' t' [].
Proof.
  apply (wdogs_refine_timers 4 [100; 132; 164]).
  - constructor; try (simpl; set_solver); [apply sq_rep_empty|apply sq_rep_empty|constructor].
  - intros z Hz. rewrite fmap_nil in Hz. set_solver.
  - simpl. lia.
  - intros w Hw. repeat (apply elem_of_cons in Hw as [->|Hw]; [split; [lia|set_solver]|]). set_solver.
  - repeat constructor; simpl; (done || lia || set_solver).
Defined.
