(* ===== verification/Calendar.v ===== *)
(** * Calendar time (lib/libc/time)

    Conversions between the seconds since the epoch, the day number and the
    calendar date, in each of the configurations the source has.  [time_t] is
    [uint32_t], [int] and [long] have 32 bits, and C division truncates.
    [None] is a read outside a table. *)

From stdpp Require Import base tactics numbers list.
From S2P Require Import Prelude.

(** ** Configuration *)

Record time_config := mk_tcfg { GREGORIAN_TIME : bool; JULIAN_TIME : bool; TIME_EXTENDED : bool }.

(** What tinyara/time.h leaves of the options. *)
Definition julian_time (cfg : time_config) : bool := GREGORIAN_TIME cfg && JULIAN_TIME cfg.

Definition SEC_PER_MIN : Z := 60.
Definition SEC_PER_HOUR : Z := 3600.
Definition SEC_PER_DAY : Z := 86400.

Definition JD_OF_EPOCH : Z := 2440588.
Definition GREG_DUTC : Z := -141427.
Definition GREG_YEAR : Z := 1582.
Definition GREG_MONTH : Z := 10.
Definition GREG_DAY : Z := 15.

(** ** Years and months *)

Definition clock_isleapyear (year : Z) : Z :=
  if negb (Z.rem year 400 =? 0) then
    if negb (Z.rem year 100 =? 0) then (if negb (Z.rem year 4 =? 0) then 0 else 1) else 0
  else 1.

Definition g_daysbeforemonth : list Z := [0; 31; 59; 90; 120; 151; 181; 212; 243; 273; 304; 334; 365].

Definition clock_daysbeforemonth (month : Z) (leapyear : bool) : option Z :=
  retval ← (if month - 1 <? 0 then None else g_daysbeforemonth !! Z.to_nat (month - 1));
  Some (if (2 <? month) && leapyear then retval + 1 else retval).

Definition clock_dayoftheweek (mday month year : Z) : Z :=
  let '(year, month) := if month <=? 2 then (year - 1, month + 12) else (year, month) in
  let month := month - 2 in
  Z.rem (i32 (mday + year + Z.quot year 4 - Z.quot year 100 + Z.quot year 400 + Z.quot (i32 (31 * month)) 12)) 7.

(** The kernel's own function (os/kernel/clock/clock_dow.c), with months from 0 *)
Definition g_lookup : list Z := [2; 5; 7; 10; 12; 15; 17; 20; 23; 25; 28; 30].

Definition clock_dow (year month day : Z) : option Z :=
  let '(day, year) := if month <? 2 then (i32 (day + year), i32 (year - 1)) else (i32 (day + (year - 2)), year) in
  v ← (if month <? 0 then None else g_lookup !! Z.to_nat month);
  Some (Z.rem (i32 (v + day + 4 + Z.quot year 4 - Z.quot year 100 + Z.quot year 400)) 7).

(** ** From the day number to the date: year, month and day from 1 *)

(** [jd] is a [time_t], the variables are [long]. *)
Definition clock_utc2gregorian (jd : Z) : Z * Z * Z :=
  let l := i32 (u32 (jd + 68569)) in
  let n := Z.quot (i32 (4 * l)) 146097 in
  let l := i32 (l - Z.quot (i32 (146097 * n + 3)) 4) in
  let i := Z.quot (i32 (4000 * (l + 1))) 1461001 in
  let l := i32 (l - Z.quot (i32 (1461 * i)) 4 + 31) in
  let j := Z.quot (i32 (80 * l)) 2447 in
  let d := i32 (l - Z.quot (i32 (2447 * j)) 80) in
  let l := Z.quot j 11 in
  let m := i32 (j + 2 - 12 * l) in
  let y := i32 (100 * (n - 49) + i + l) in
  (y, m, d).

Definition clock_utc2julian (jd : Z) : Z * Z * Z :=
  let j := i32 (u32 (jd + 1402)) in
  let k := Z.quot (i32 (j - 1)) 1461 in
  let l := i32 (j - 1461 * k) in
  let n := i32 (Z.quot (i32 (l - 1)) 365 - Z.quot l 1461) in
  let i := i32 (l - 365 * n + 30) in
  let j := Z.quot (i32 (80 * i)) 2447 in
  let d := i32 (i - Z.quot (i32 (2447 * j)) 80) in
  let i := Z.quot j 11 in
  let m := i32 (j + 2 - 12 * i) in
  let y := i32 (4 * k + n + i - 4716) in
  (y, m, d).

(** Without CONFIG_GREGORIAN_TIME: the loop over the years *)
Fixpoint utc2year (fuel : nat) (value days : Z) : option (Z * Z * bool) :=
  match fuel with
  | O => None
  | S fuel =>
      let leapyear := negb (clock_isleapyear (i32 (value + 1970)) =? 0) in
      let tmp := if leapyear then 366 else 365 in
      if tmp <=? days then utc2year fuel (value + 1) (days - tmp) else Some (value, days, leapyear)
  end.

(** and the search for the month. *)
Fixpoint utc2month (fuel : nat) (min max days : Z) (leapyear : bool) : option Z :=
  match fuel with
  | O => None
  | S fuel =>
      let value := Z.shiftr (min + max) 1 in
      let continue (min max : Z) := if min <? max then utc2month fuel min max days leapyear else Some min in
      tmp ← clock_daysbeforemonth (value + 1) leapyear;
      if days <? tmp then
        tmp ← clock_daysbeforemonth value leapyear;
        if days <? tmp then continue min (value - 1) else Some value
      else continue (value + 1) max
  end.

Definition clock_utc2simple (days : Z) : option (Z * Z * Z) :=
  let value := Z.quot days 1461 in
  let days := u32 (days - value * 1461) in
  '(value, days, leapyear) ← utc2year 5 (Z.shiftl value 2) days;
  let year := 1970 + value in
  value ← utc2month 12 0 11 days leapyear;
  tmp ← clock_daysbeforemonth value leapyear;
  Some (year, value + 1, i32 (days - tmp) + 1).

(** [GREG_DUTC] is an [int] that is compared with a [time_t]. *)
Definition clock_utc2calendar (cfg : time_config) (utc : Z) : option (Z * Z * Z) :=
  if GREGORIAN_TIME cfg then
    if julian_time cfg then
      if u32 GREG_DUTC <=? utc then Some (clock_utc2gregorian (u32 (utc + JD_OF_EPOCH)))
      else Some (clock_utc2julian (u32 (utc + JD_OF_EPOCH)))
    else Some (clock_utc2gregorian (u32 (utc + JD_OF_EPOCH)))
  else clock_utc2simple utc.

(** ** From the date to the day number *)

Definition clock_gregorian2utc (year month day : Z) : Z :=
  let temp := if month <=? 2 then -1 else 0 in
  u32 (i32 (Z.quot (i32 (1461 * (year + 4800 + temp))) 4 + Z.quot (i32 (367 * (month - 2 - 12 * temp))) 12
            - Z.quot (i32 (3 * Z.quot (year + 4900 + temp) 100)) 4 + day - 32075)).

Definition clock_julian2utc (year month day : Z) : Z :=
  u32 (i32 (367 * year - Z.quot (i32 (7 * (year + 5001 + Z.quot (month - 9) 7))) 4 + Z.quot (i32 (275 * month)) 9 + day + 1729777)).

Definition clock_calendar2utc (cfg : time_config) (year month day : Z) : option Z :=
  if GREGORIAN_TIME cfg then
    let dyear := Z.quot (i32 (month - 1)) 12 in
    let month := i32 (month - 12 * dyear) in
    let year := i32 (year + dyear) in
    let '(month, year) := if month <? 1 then (month + 12, i32 (year - 1)) else (month, year) in
    if julian_time cfg then
      let isgreg :=
        if GREG_YEAR <? year then true
        else if year <? GREG_YEAR then false
        else if GREG_MONTH <? month then true
        else if month <? GREG_MONTH then false
        else GREG_DAY <=? day in
      if isgreg then Some (u32 (clock_gregorian2utc year month day - JD_OF_EPOCH))
      else Some (u32 (clock_julian2utc year month day - JD_OF_EPOCH))
    else Some (u32 (clock_gregorian2utc year month day - JD_OF_EPOCH))
  else
    let days := u32 (i32 ((year - 1970) * 365)) in
    let days := u32 (days + Z.shiftr (i32 (year - 1969)) 2) in
    tmp ← clock_daysbeforemonth month (negb (clock_isleapyear year =? 0));
    let days := u32 (days + u32 tmp) in
    Some (u32 (days + i32 (day - 1))).

(** ** Broken-down time *)

(** [struct tm]; the last two fields are there with CONFIG_TIME_EXTENDED. *)
Record tm := mk_tm {
  tm_sec : Z; tm_min : Z; tm_hour : Z; tm_mday : Z; tm_mon : Z; tm_year : Z; tm_wday : Z; tm_yday : Z
}.

(** [old] is what [result] held. *)
Definition gmtime_r (cfg : time_config) (timer : Z) (old : tm) : option tm :=
  let epoch := timer in
  let jdn := Z.quot epoch SEC_PER_DAY in
  let epoch := u32 (epoch - SEC_PER_DAY * jdn) in
  let hour := Z.quot epoch SEC_PER_HOUR in
  let epoch := u32 (epoch - SEC_PER_HOUR * hour) in
  let min := Z.quot epoch SEC_PER_MIN in
  let epoch := u32 (epoch - SEC_PER_MIN * min) in
  let sec := epoch in
  '(year, month, day) ← clock_utc2calendar cfg jdn;
  let result := mk_tm sec min hour day (i32 (month - 1)) (i32 (year - 1900)) (tm_wday old) (tm_yday old) in
  if TIME_EXTENDED cfg then
    before ← clock_daysbeforemonth (tm_mon result) (negb (clock_isleapyear year =? 0));
    Some (mk_tm sec min hour day (tm_mon result) (tm_year result) (clock_dayoftheweek day month year) (day + before))
  else Some result.

(** The arithmetic is that of [time_t] and of [unsigned int]. *)
Definition mktime (cfg : time_config) (tp : tm) : option Z :=
  let seconds (days : Z) := u32 (u32 (u32 (u32 (days * 24 + tm_hour tp) * 60 + tm_min tp) * 60) + tm_sec tp) in
  if GREGORIAN_TIME cfg then
    jdn ← clock_calendar2utc cfg (i32 (tm_year tp + 1900)) (i32 (tm_mon tp + 1)) (tm_mday tp);
    Some (seconds jdn)
  else
    let days := u32 (i32 ((tm_year tp - 70) * 365)) in
    let days := u32 (days + Z.shiftr (i32 (tm_year tp - 69)) 2) in
    before ← clock_daysbeforemonth (tm_mon tp) (negb (clock_isleapyear (i32 (tm_year tp + 1900)) =? 0));
    let days := u32 (days + u32 before) in
    let days := u32 (days + i32 (tm_mday tp - 1)) in
    Some (seconds days).
