(* ===== verification/CalendarTheorems.v ===== *)
(** * Calendar time: the Gregorian conversions count days

    The reference calendar is [next_date], the day after a date, repeated from
    1 January 1970.  The closed formulas of the source agree with it. *)

From stdpp Require Import base tactics numbers list.
From S2P Require Import Prelude Calendar.

(** ** The reference calendar *)

Definition date : Type := Z * Z * Z.

Definition leap (y : Z) : bool := (y mod 4 =? 0) && (negb (y mod 100 =? 0) || (y mod 400 =? 0)).

Definition month_days (y m : Z) : Z :=
  if m =? 2 then if leap y then 29 else 28
  else if (m =? 4) || (m =? 6) || (m =? 9) || (m =? 11) then 30 else 31.

Definition next_date (x : date) : date :=
  let '(y, m, d) := x in
  if d <? month_days y m then (y, m, d + 1) else if m <? 12 then (y, m + 1, 1) else (y + 1, 1, 1).

Definition epoch_date : date := (1970, 1, 1).

(** The date [n] days after the epoch. *)
Definition date_after (n : nat) : date := Nat.iter n next_date epoch_date.

Definition valid_date (x : date) : Prop :=
  let '(y, m, d) := x in 1 <= m <= 12 /\ 1 <= d <= month_days y m.

Definition feb_end (y : Z) : Z := if leap y then 366 else 365.

(** ** The Julian day number of a date, with years that start in March *)

Definition march_year (y m : Z) : Z := if m <=? 2 then y + 4799 else y + 4800.
Definition march_month (m : Z) : Z := if m <=? 2 then m + 9 else m - 3.
Definition march_day (m d : Z) : Z := (153 * march_month m + 2) / 5 + d - 1.

Definition day_number (x : date) : Z :=
  let '(y, m, d) := x in
  let Y := march_year y m in
  365 * Y + Y / 4 - Y / 100 + Y / 400 + march_day m d - 32044.

Ltac divs := Z.to_euclidean_division_equations; lia.

Lemma leap_spec y : leap y = true <-> y mod 4 = 0 /\ (y mod 100 <> 0 \/ y mod 400 = 0).
Proof.
  unfold leap. rewrite andb_true_iff, orb_true_iff, negb_true_iff, !Z.eqb_eq, Z.eqb_neq. tauto.
Qed.

Lemma leap_cases y : (leap y = true /\ y mod 4 = 0 /\ (y mod 100 <> 0 \/ y mod 400 = 0)) \/
  (leap y = false /\ (y mod 4 <> 0 \/ (y mod 100 = 0 /\ y mod 400 <> 0))).
Proof.
  destruct (leap y) eqn:E; [left; split; [done|by apply leap_spec]|right]. split; [done|].
  destruct (Z.eq_dec (y mod 4) 0) as [H4|]; [|by left]. right.
  destruct (Z.eq_dec (y mod 100) 0) as [H100|H100]; [|exfalso; rewrite <- not_true_iff_false in E; apply E, leap_spec; tauto].
  split; [done|]. intros H400. rewrite <- not_true_iff_false in E. apply E, leap_spec. tauto.
Qed.

Lemma month_cases m :
  1 <= m <= 12 -> m = 1 \/ m = 2 \/ m = 3 \/ m = 4 \/ m = 5 \/ m = 6 \/ m = 7 \/ m = 8 \/ m = 9 \/ m = 10 \/ m = 11 \/ m = 12.
Proof. lia. Qed.

Ltac by_month H := destruct (month_cases _ H) as [->|[->|[->|[->|[->|[->|[->|[->|[->|[->|[->| ->]]]]]]]]]]].

Lemma month_days_max y m : month_days y m <= 31.
Proof. unfold month_days. destruct (m =? 2); [destruct (leap y); lia|]. destruct ((m =? 4) || (m =? 6) || (m =? 9) || (m =? 11)); lia. Qed.

(** A date within the year that starts in March. *)
Lemma march_day_range y m d :
  valid_date (y, m, d) ->
  0 <= march_day m d <= 365 /\ (march_day m d = 365 -> leap (march_year y m - 4799) = true).
Proof.
  intros [Hm Hd]. by_month Hm; unfold march_day, march_year, march_month, month_days in *; simpl in *; try (split; [divs|intros; divs]).
  replace (y + 4799 - 4799) with y by lia. destruct (leap y); split; (done || divs || (intros; divs)).
Qed.

Lemma day_number_next x : valid_date x -> day_number (next_date x) = day_number x + 1 /\ valid_date (next_date x).
Proof.
  destruct x as [[y m] d]. intros [Hm Hd]. unfold next_date. destruct (Z.ltb_spec d (month_days y m)) as [Hlt|Hge].
  { split; [|unfold valid_date; lia]. unfold day_number, march_day. lia. }
  assert (d = month_days y m) as -> by lia. clear Hd Hge. destruct (leap_cases y) as [[El Hy]|[El Hy]];
    by_month Hm; unfold valid_date, day_number, march_day, march_year, march_month, month_days; simpl; rewrite ?El; simpl;
    (split; [|destruct (leap y); lia]); divs.
Qed.

Lemma isleapyear_spec y : 0 <= y -> clock_isleapyear y = if leap y then 1 else 0.
Proof.
  intros Hy. unfold clock_isleapyear. rewrite !Z.rem_mod_nonneg by lia.
  destruct (leap_cases y) as [[-> H]|[-> H]]; destruct (Z.eqb_spec (y mod 400) 0); destruct (Z.eqb_spec (y mod 100) 0); destruct (Z.eqb_spec (y mod 4) 0);
    simpl; try done; exfalso; divs.
Qed.

(** ** The formulas *)

Lemma gregorian2utc_spec y m d :
  0 <= y <= 100000 -> valid_date (y, m, d) -> clock_gregorian2utc y m d = day_number (y, m, d).
Proof.
  intros Hy [Hm Hd]. assert (Hd' : 1 <= d <= 31) by (pose proof (month_days_max y m); lia).
  unfold clock_gregorian2utc, day_number. assert (HY : exists Y, march_year y m = Y /\ Y = y + 4800 + (if m <=? 2 then -1 else 0) /\ 4799 <= Y <= 104800).
  { eexists. split; [reflexivity|]. unfold march_year. destruct (m <=? 2); lia. }
  destruct HY as (Y & -> & HYe & HY). replace (y + 4900 + (if m <=? 2 then -1 else 0)) with (Y + 100) by lia. rewrite <- HYe. clear HYe.
  rewrite !(Z.quot_div_nonneg (Y + 100)) by lia. assert (HC : 0 <= (Y + 100) / 100 <= 1050) by divs.
  rewrite !(i32_small (1461 * Y)), (i32_small (3 * ((Y + 100) / 100))) by lia.
  rewrite (Z.quot_div_nonneg (1461 * Y)), (Z.quot_div_nonneg (3 * _)) by lia.
  assert (Hmo : Z.quot (i32 (367 * (m - 2 - 12 * (if m <=? 2 then -1 else 0)))) 12 + d = march_day m d + 31).
  { by_month Hm; unfold march_day, march_month; simpl in *; rewrite i32_small by lia; divs. }
  assert (HD : 0 <= march_day m d <= 365) by (apply (march_day_range y); by split).
  assert (E : (1461 * Y) / 4 - (3 * ((Y + 100) / 100)) / 4 = 365 * Y + Y / 4 - Y / 100 + Y / 400) by divs.
  rewrite i32_small, u32_small; divs.
Qed.

(** Century, year of the century, day of the year. *)
Lemma century_spec Y D :
  0 <= Y -> 0 <= D <= 365 -> (D = 365 -> leap (Y - 4799) = true) ->
  let l := 365 * Y + Y / 4 - Y / 100 + Y / 400 + D + 36525 in
  let n := Y / 100 + 1 in
  let x := 365 * (Y mod 100) + (Y mod 100) / 4 + D in
  (4 * l) / 146097 = n /\ l - (146097 * n + 3) / 4 = x /\ (4000 * (x + 1)) / 1461001 = Y mod 100 /\
  x - (1461 * (Y mod 100)) / 4 + 31 = D + 31 /\ 0 <= x <= 36524.
Proof.
  intros HY HD Hl l n x. assert (Hleap : D = 365 -> (Y + 1) mod 4 = 0 /\ ((Y + 1) mod 100 <> 0 \/ (Y + 1) mod 400 = 0)).
  { intros E. apply Hl, leap_spec in E. divs. }
  assert (Hx : 0 <= x <= 36524 /\ (x = 36524 -> (Y / 100) mod 4 = 3)) by (unfold x; clear l n; divs).
  assert (Hlx : l = 36524 * n + (Y / 100) / 4 + x + 1) by (unfold l, n, x; divs).
  assert (Hn : (4 * l) / 146097 = n) by (symmetry; apply (Z.div_unique _ _ _ (4 * x + 3 - (Y / 100) mod 4)); [divs|unfold n in *; divs]).
  split_and!; [done| |symmetry|unfold x; divs|apply Hx..].
  - rewrite Hlx. unfold n. divs.
  - apply (Z.div_unique _ _ _ (4000 * (x + 1) - 1461001 * (Y mod 100))); [|lia]. unfold x. divs.
Qed.

Lemma utc2gregorian_spec x :
  valid_date x -> 0 <= (x.1).1 <= 100000 -> clock_utc2gregorian (day_number x) = x.
Proof.
  destruct x as [[y m] d]. simpl. intros Hv Hy. pose proof (march_day_range y m d Hv) as [HD Hl]. unfold day_number, clock_utc2gregorian.
  set (Y := march_year y m) in *. assert (HY : 4799 <= Y <= 104800) by (unfold Y, march_year; destruct (m <=? 2); lia).
  set (D := march_day m d) in *. destruct (century_spec Y D ltac:(lia) HD Hl) as (E1 & E2 & E3 & E4 & Hx). cbv zeta in *.
  set (l := 365 * Y + Y / 4 - Y / 100 + Y / 400 + D + 36525) in *. set (x := 365 * (Y mod 100) + (Y mod 100) / 4 + D) in *.
  replace (365 * Y + Y / 4 - Y / 100 + Y / 400 + D - 32044 + 68569) with l by (unfold l; lia).
  assert (Hlr : 0 <= l <= 40000000) by (unfold l; divs). rewrite (u32_small l), (i32_small l), (i32_small (4 * l)), (Z.quot_div_nonneg (4 * l)), E1 by lia.
  assert (Hn : 0 <= Y / 100 <= 1048) by divs. set (n := Y / 100 + 1) in *. rewrite (i32_small (146097 * n + 3)), (Z.quot_div_nonneg (146097 * n + 3)), E2 by (unfold n; lia).
  rewrite (i32_small x), (i32_small (4000 * (x + 1))), (Z.quot_div_nonneg (4000 * _)), E3 by lia.
  assert (HR : 0 <= Y mod 100 < 100) by (apply Z.mod_pos_bound; lia).
  rewrite (i32_small (1461 * (Y mod 100))), (Z.quot_div_nonneg (1461 * _)), E4 by lia. rewrite (i32_small (D + 31)), (i32_small (80 * (D + 31))) by lia.
  rewrite (Z.quot_div_nonneg (80 * _)) by lia. replace (100 * (n - 49) + Y mod 100) with (Y - 4800) by (unfold n; divs). clear E1 E2 E3 E4 Hx Hlr Hl l x HR Hn n.
  destruct Hv as [Hm Hd]. assert (Hd' : 1 <= d <= month_days y m /\ d <= 31) by (pose proof (month_days_max y m); lia).
  assert (Hj : (80 * (D + 31)) / 2447 = march_month m + 1).
  { unfold D. clear HY HD Y D. by_month Hm; unfold march_day, march_month, month_days in *; simpl in *; destruct (leap y); divs. }
  rewrite Hj. assert (Hjr : 0 <= march_month m <= 11) by (unfold march_month; destruct (Z.leb_spec m 2); lia).
  rewrite (i32_small (2447 * _)), !Z.quot_div_nonneg by lia. unfold D, Y in *. clear D Y Hj. by_month Hm; unfold march_day, march_month, march_year in *; simpl in *; rewrite !i32_small by divs; repeat f_equal; divs.
Qed.

(** ** Counting from the epoch *)

Lemma date_after_spec n :
  valid_date (date_after n) /\ day_number (date_after n) = Z.of_nat n + JD_OF_EPOCH /\ 1970 <= ((date_after n).1).1 <= 1970 + Z.of_nat n.
Proof.
  induction n as [|n (Hv & Hn & Hy)]; [split_and!; done|]. change (date_after (S n)) with (next_date (date_after n)).
  destruct (day_number_next _ Hv) as [E Hv']. split; [done|]. split; [rewrite E, Hn; lia|].
  destruct (date_after n) as [[y m] d]. simpl in *. destruct (d <? _), (m <? 12); simpl; lia.
Qed.

(** * Calendar time: theorems

    The Gregorian configuration agrees with the calendar on every day a
    [time_t] can name, and [mktime] undoes [gmtime_r] on every second.  The
    other configurations do not. *)

(** The configuration of the source's default board. *)
Definition gregorian : time_config := mk_tcfg true false false.

Lemma utc2calendar_date cfg n :
  GREGORIAN_TIME cfg = true -> JULIAN_TIME cfg = false -> Z.of_nat n <= 49710 ->
  clock_utc2calendar cfg (Z.of_nat n) = Some (date_after n).
Proof.
  intros Hg Hj Hn. unfold clock_utc2calendar, julian_time. rewrite Hg, Hj. simpl. destruct (date_after_spec n) as (Hv & Hd & Hy).
  f_equal. rewrite u32_small by (unfold JD_OF_EPOCH; lia). rewrite <- Hd. apply utc2gregorian_spec; [done|lia].
Qed.

Lemma calendar2utc_date cfg n y m d :
  GREGORIAN_TIME cfg = true -> JULIAN_TIME cfg = false -> Z.of_nat n <= 49710 -> date_after n = (y, m, d) ->
  clock_calendar2utc cfg y m d = Some (Z.of_nat n).
Proof.
  intros Hg Hj Hn Hd. destruct (date_after_spec n) as (Hv & Hdn & Hy). rewrite Hd in Hv, Hdn, Hy. simpl in Hy. destruct (Hv) as [Hm _].
  unfold clock_calendar2utc, julian_time. rewrite Hg, Hj. cbn [andb]. rewrite (i32_small (m - 1)) by lia. assert (Hq : Z.quot (m - 1) 12 = 0) by divs.
  rewrite Hq. rewrite (i32_small (m - 12 * 0)), (i32_small (y + 0)) by lia. destruct (Z.ltb_spec (m - 12 * 0) 1); [lia|].
  replace (m - 12 * 0) with m by lia. replace (y + 0) with y by lia. rewrite gregorian2utc_spec by (done || lia). rewrite Hdn. f_equal.
  replace (Z.of_nat n + JD_OF_EPOCH - JD_OF_EPOCH) with (Z.of_nat n) by lia. apply u32_small. lia.
Qed.

(** The day of the week, 0 for a Sunday, as a function of the day number. *)
Lemma dayoftheweek_spec y m d :
  1 <= y <= 100000 -> valid_date (y, m, d) -> clock_dayoftheweek d m y = (day_number (y, m, d) + 1) mod 7.
Proof.
  intros Hy [Hm Hd]. pose proof (month_days_max y m) as Hmax. unfold clock_dayoftheweek, day_number.
  assert (HY : 4800 <= march_year y m <= 104800) by (unfold march_year; destruct (Z.leb_spec m 2); lia).
  assert (E : exists Y M, (if m <=? 2 then (y - 1, m + 12) else (y, m)) = (Y, M) /\ march_year y m = Y + 4800 /\ M - 3 = march_month m /\ 3 <= M <= 14).
  { unfold march_year, march_month. destruct (Z.leb_spec m 2); eexists _, _; split_and!; try done; lia. }
  destruct E as (Y & M & -> & HYe & HM & HMr). rewrite HYe in *. rewrite !(Z.quot_div_nonneg Y) by lia. rewrite (i32_small (31 * (M - 2))), Z.quot_div_nonneg by lia.
  rewrite i32_small by divs. rewrite Z.rem_mod_nonneg by divs. unfold march_day. rewrite <- HM.
  assert (HMd : (31 * (M - 2)) / 12 mod 7 = ((153 * (M - 3) + 2) / 5 + 2) mod 7).
  { assert (Hc : M = 3 \/ M = 4 \/ M = 5 \/ M = 6 \/ M = 7 \/ M = 8 \/ M = 9 \/ M = 10 \/ M = 11 \/ M = 12 \/ M = 13 \/ M = 14) by lia.
    destruct Hc as [->|[->|[->|[->|[->|[->|[->|[->|[->|[->|[->| ->]]]]]]]]]]]; reflexivity. }
  replace ((Y + 4800) / 4) with (Y / 4 + 1200) by divs. replace ((Y + 4800) / 100) with (Y / 100 + 48) by divs.
  replace ((Y + 4800) / 400) with (Y / 400 + 12) by divs. revert HMd. generalize ((31 * (M - 2)) / 12), ((153 * (M - 3) + 2) / 5), (Y / 4), (Y / 100), (Y / 400).
  clear. intros a b c e f H. divs.
Qed.

Lemma dow_spec y m d :
  1 <= y <= 100000 -> valid_date (y, m, d) -> clock_dow y (m - 1) d = Some (clock_dayoftheweek d m y).
Proof.
  intros Hy [Hm Hd]. pose proof (month_days_max y m) as Hmax. unfold clock_dow, clock_dayoftheweek.
  by_month Hm; simpl; rewrite ?(i32_small (y - 1)), (i32_small (d + _)), (i32_small (31 * _)) by lia; f_equal;
    rewrite !i32_small, !Z.rem_mod_nonneg by divs;
    generalize (Z.quot y 4), (Z.quot y 100), (Z.quot y 400), (Z.quot (y - 1) 4), (Z.quot (y - 1) 100), (Z.quot (y - 1) 400); intros; divs.
Qed.

(** C30: with the Gregorian calendar configured, the conversions agree with the
    calendar on every day that a [time_t] in seconds can name: the date of day
    [n] is reached from 1 January 1970 by [n] steps to the next day, converting
    that date back gives [n], and both functions for the day of the week give
    that of [n] days after a Thursday. *)
Theorem gregorian_counts_days cfg n y m d :
  GREGORIAN_TIME cfg = true -> JULIAN_TIME cfg = false -> Z.of_nat n <= 49710 -> date_after n = (y, m, d) ->
  clock_utc2calendar cfg (Z.of_nat n) = Some (y, m, d) /\ clock_calendar2utc cfg y m d = Some (Z.of_nat n) /\
  clock_dayoftheweek d m y = (Z.of_nat n + 4) mod 7 /\ clock_dow y (m - 1) d = Some ((Z.of_nat n + 4) mod 7).
Proof.
  intros Hg Hj Hn Hd. split; [rewrite <- Hd; by apply utc2calendar_date|]. split; [by apply calendar2utc_date|].
  destruct (date_after_spec n) as (Hv & Hdn & Hy). rewrite Hd in Hv, Hdn, Hy. simpl in Hy. rewrite dow_spec by (done || lia).
  assert (E : clock_dayoftheweek d m y = (Z.of_nat n + 4) mod 7); [|by rewrite E]. rewrite dayoftheweek_spec by (done || lia).
  rewrite Hdn. unfold JD_OF_EPOCH. divs.
Qed.

Lemma gregorian_counts_days_witness :
  date_after 800 = (1972, 3, 11) /\ clock_utc2calendar gregorian 800 = Some (1972, 3, 11) /\ clock_dayoftheweek 11 3 1972 = 6.
Proof.
  assert (E : date_after 800 = (1972, 3, 11)) by (vm_compute; reflexivity). split; [exact E|].
  destruct (gregorian_counts_days gregorian 800 1972 3 11 eq_refl eq_refl ltac:(lia) E) as (H1 & _ & H3 & _).
  split; [exact H1|rewrite H3; vm_compute; reflexivity].
Defined.

(** C31: in a configuration with CONFIG_GREGORIAN_TIME, without
    CONFIG_JULIAN_TIME and without CONFIG_TIME_EXTENDED, for every second that
    a [time_t] holds, [gmtime_r] returns the time of day and the date of its
    day, and [mktime] of that is the same second. *)
Theorem mktime_gmtime cfg t old :
  GREGORIAN_TIME cfg = true -> JULIAN_TIME cfg = false -> TIME_EXTENDED cfg = false -> 0 <= t < 4294967296 ->
  exists r, gmtime_r cfg t old = Some r /\ mktime cfg r = Some t /\
    date_after (Z.to_nat (t / 86400)) = (tm_year r + 1900, tm_mon r + 1, tm_mday r) /\
    tm_hour r = t / 3600 mod 24 /\ tm_min r = t / 60 mod 60 /\ tm_sec r = t mod 60.
Proof.
  intros Hg Hj He Ht. unfold gmtime_r, SEC_PER_DAY, SEC_PER_HOUR, SEC_PER_MIN. rewrite !(Z.quot_div_nonneg t) by lia.
  rewrite (u32_small (t - 86400 * (t / 86400))) by divs. rewrite (Z.quot_div_nonneg (t - 86400 * (t / 86400))) by divs.
  set (e := t - 86400 * (t / 86400)). assert (Hdays : 0 <= t / 86400 <= 49710) by divs. assert (Hre : 0 <= e < 86400) by (unfold e; divs).
  rewrite (u32_small (e - 3600 * (e / 3600))) by divs. rewrite (Z.quot_div_nonneg (e - 3600 * (e / 3600))) by divs.
  set (f := e - 3600 * (e / 3600)). assert (Hrf : 0 <= f < 3600) by (unfold f; divs). rewrite (u32_small (f - 60 * (f / 60))) by divs.
  rewrite <- (Z2Nat.id (t / 86400)) by lia. set (n := Z.to_nat (t / 86400)). assert (Hn : Z.of_nat n = t / 86400) by (unfold n; rewrite Z2Nat.id; lia).
  rewrite utc2calendar_date by (done || lia). cbn [mbind option_bind]. destruct (date_after n) as [[y m] d] eqn:Hd. rewrite He.
  destruct (date_after_spec n) as (Hv & _ & Hy). rewrite Hd in Hv, Hy. simpl in Hy. destruct Hv as [Hm _]. rewrite !i32_small by lia. eexists. split; [done|]. unfold mktime. rewrite Hg.
  cbn [tm_year tm_mon tm_mday tm_hour tm_min tm_sec]. replace (y - 1900 + 1900) with y by lia. replace (m - 1 + 1) with m by lia. rewrite !i32_small by lia.
  rewrite (calendar2utc_date cfg n y m d) by (done || lia). cbn [mbind option_bind]. split; [|split; [by rewrite Nat2Z.id, Hd|unfold f, e; divs]].
  f_equal. rewrite (u32_small (Z.of_nat n * 24 + _)) by divs. rewrite (u32_small ((Z.of_nat n * 24 + _) * 60 + _)) by divs.
  rewrite (u32_small (_ * 60)) by divs. rewrite u32_small by divs. unfold f, e in *. divs.
Qed.

Lemma mktime_gmtime_witness :
  exists r, gmtime_r gregorian 1700000000 (mk_tm 0 0 0 0 0 0 0 0) = Some r /\ mktime gregorian r = Some 1700000000 /\ tm_hour r = 22.
Proof.
  destruct (mktime_gmtime gregorian 1700000000 (mk_tm 0 0 0 0 0 0 0 0) eq_refl eq_refl eq_refl ltac:(lia)) as (r & H1 & H2 & _ & H4 & _).
  exists r. split; [exact H1|]. split; [exact H2|]. rewrite H4. reflexivity.
Defined.

(** ** The other configurations *)

(** With CONFIG_JULIAN_TIME, [GREG_DUTC] is converted to [time_t] and becomes a
    day later than any in use: [gmtime_r] gives dates of the Julian calendar,
    while [mktime] takes dates since 1582 to be Gregorian. *)
Theorem julian_time_always_julian utc :
  let cfg := mk_tcfg true true false in
  0 <= utc <= 49710 -> clock_utc2calendar cfg utc = Some (clock_utc2julian (utc + JD_OF_EPOCH)) /\
  clock_utc2calendar cfg 0 = Some (1969, 12, 19) /\ clock_calendar2utc cfg 1970 1 1 = Some 0.
Proof.
  intros cfg Hu. split; [|by split]. unfold clock_utc2calendar. simpl. destruct (Z.leb_spec (u32 GREG_DUTC) utc) as [Hge|_].
  - change (u32 GREG_DUTC) with 4294825869 in Hge. lia.
  - rewrite u32_small; [done|unfold JD_OF_EPOCH; lia].
Qed.

(** Without CONFIG_GREGORIAN_TIME: both loops end. *)
Lemma utc2year_total n value days :
  0 <= days <= 365 * Z.of_nat n -> exists v d l, utc2year (S n) value days = Some (v, d, l) /\ 0 <= d < 366.
Proof.
  revert value days. induction n as [|n IH]; intros value days Hd; [|remember (S n) as k]; cbn [utc2year]; cbv zeta.
  - destruct (negb (clock_isleapyear (i32 (value + 1970)) =? 0));
      [destruct (Z.leb_spec 366 days)|destruct (Z.leb_spec 365 days)]; try lia; eexists _, _, _; (split; [reflexivity|lia]).
  - destruct (negb (clock_isleapyear (i32 (value + 1970)) =? 0));
      [destruct (Z.leb_spec 366 days)|destruct (Z.leb_spec 365 days)]; try (apply IH; lia); eexists _, _, _; (split; [reflexivity|lia]).
Qed.

Definition month_found (l : bool) (d : nat) : bool :=
  match utc2month 12 0 11 (Z.of_nat d) l with
  | Some v => match clock_daysbeforemonth v l with Some _ => true | None => false end
  | None => false
  end.

Lemma month_found_all l : forallb (month_found l) (seq 0 366) = true.
Proof. destruct l; vm_compute; reflexivity. Qed.

Lemma month_found_spec l d :
  0 <= d < 366 -> exists v b, utc2month 12 0 11 d l = Some v /\ clock_daysbeforemonth v l = Some b.
Proof.
  intros Hd. pose proof (proj1 (forallb_forall (month_found l) (seq 0 366)) (month_found_all l) (Z.to_nat d) ltac:(apply in_seq; lia)) as H.
  revert H. unfold month_found. rewrite Z2Nat.id by lia. generalize (utc2month 12 0 11 d l). intros [v|]; [|done].
  destruct (clock_daysbeforemonth v l) as [b|] eqn:Eb; [|done]. intros _. by exists v, b.
Qed.

Lemma utc2simple_total days : 0 <= days < 4294967296 -> is_Some (clock_utc2simple days).
Proof.
  intros Hd. unfold clock_utc2simple. rewrite Z.quot_div_nonneg, u32_small by divs.
  destruct (utc2year_total 4 (Z.shiftl (days / 1461) 2) (days - days / 1461 * 1461)) as (v & d & l & E & Hr); [divs|].
  destruct (month_found_spec l d Hr) as (m & b & E1 & E2). eexists. apply bind_Some. eexists. split; [exact E|]. apply bind_Some. eexists.
  split; [exact E1|]. apply bind_Some. eexists. split; [exact E2|done].
Qed.

(** Without CONFIG_GREGORIAN_TIME, the months of [gmtime_r] and [mktime] are
    counted from 0 and those of [clock_daysbeforemonth] from 1: the epoch is
    reported as 1 February, and [mktime] of a day in January reads in front
    of the table. *)
Theorem simple_time_off_by_one_month old sec min hour mday year :
  let cfg := mk_tcfg false false false in
  gmtime_r cfg 0 old = Some (mk_tm 0 0 0 1 1 70 (tm_wday old) (tm_yday old)) /\
  mktime cfg (mk_tm sec min hour mday 0 year (tm_wday old) (tm_yday old)) = None.
Proof. split; reflexivity. Qed.

(** So does [gmtime_r] with CONFIG_TIME_EXTENDED, for the day of the year. *)
Theorem extended_time_january t old :
  let cfg := mk_tcfg true false true in
  0 <= t < 31 * 86400 -> gmtime_r cfg t old = None.
Proof.
  intros cfg Ht. unfold gmtime_r. assert (Hq : exists n : nat, Z.quot t SEC_PER_DAY = Z.of_nat n /\ (n <= 30)%nat).
  { exists (Z.to_nat (t / 86400)). unfold SEC_PER_DAY. rewrite Z.quot_div_nonneg by lia. split; [rewrite Z2Nat.id|]; divs. }
  destruct Hq as (n & -> & Hn). rewrite utc2calendar_date by (done || lia). assert (Hd : exists d, date_after n = (1970, 1, d)); [|destruct Hd as (d & ->); reflexivity].
  clear -Hn. do 31 (destruct n as [|n]; [by eexists|]). lia.
Qed.
