(* ===== verification/Clock.v ===== *)
(** * System clock (os/kernel/clock)

    The tick counter, the time of day kept as a base time added to the time
    since power-up, and conversions between times and ticks.  Configuration:
    CONFIG_SYSTEM_TIME64, CONFIG_CLOCK_MONOTONIC, CONFIG_RTC with
    CONFIG_RTC_DATETIME, no tickless timer.  A result is [inl errno] where the
    call returns ERROR. *)

From stdpp Require Import base tactics numbers list.
From S2P Require Import Prelude Sched Calendar.

Definition u64 (z : Z) : Z := z mod 18446744073709551616.
Definition i64 (z : Z) : Z :=
  let w := u64 z in if w <? 9223372036854775808 then w else w - 18446744073709551616.

(** [struct timespec]: [tv_sec] is a [time_t], [tv_nsec] a [long]. *)
Record timespec := mk_ts { tv_sec : Z; tv_nsec : Z }.

Definition NSEC_PER_SEC : Z := 1000000000.
Definition USEC_PER_SEC : Z := 1000000.
Definition MSEC_PER_SEC : Z := 1000.
Definition NSEC_PER_MSEC : Z := 1000000.
Definition USEC_PER_MSEC : Z := 1000.
Definition NSEC_PER_USEC : Z := 1000.
Definition USEC_PER_TICK : Z := 10000.
Definition TICK_PER_SEC : Z := Z.quot USEC_PER_SEC USEC_PER_TICK.
Definition NSEC_PER_TICK : Z := USEC_PER_TICK * NSEC_PER_USEC.

Definition CLOCK_REALTIME : Z := 0.
Definition CLOCK_MONOTONIC : Z := 1.

(** ** Ticks and times *)

Definition clock_time2ticks (reltime : timespec) : Z :=
  let relnsec := i64 (i64 (tv_sec reltime * NSEC_PER_SEC) + tv_nsec reltime) in
  i32 (Z.quot (i64 (relnsec + NSEC_PER_TICK - 1)) NSEC_PER_TICK).

(** [ticks] is an [int]; the product with a [time_t] is unsigned. *)
Definition clock_ticks2time (ticks : Z) : timespec :=
  let sec := u32 (Z.quot ticks TICK_PER_SEC) in
  let remainder := i32 (u32 (ticks - u32 (TICK_PER_SEC * sec))) in
  mk_ts sec (i32 (remainder * NSEC_PER_TICK)).

Definition compare_timespec (a b : timespec) : Z :=
  if tv_sec a <? tv_sec b then -1
  else if tv_sec b <? tv_sec a then 1
  else i32 (tv_nsec a - tv_nsec b).

(** ** The clock *)

(** [TICK2MSEC] for a tick of [upt] microseconds, in a 64-bit [systime_t] *)
Definition TICK2MSEC (upt tick : Z) : Z :=
  let mpt := Z.quot upt USEC_PER_MSEC in
  if mpt * USEC_PER_MSEC =? upt then u64 (tick * mpt) else Z.quot (u64 (tick * upt)) USEC_PER_MSEC.

(** The time since power-up, for a tick of [upt] microseconds *)
Definition systimespec (upt timer : Z) : timespec :=
  if negb (Z.rem upt 1000 =? 0) then
    let usecs := TICK2MSEC upt timer in
    let secs := Z.quot usecs USEC_PER_SEC in
    let nsecs := u64 (u64 (usecs - secs * USEC_PER_SEC) * NSEC_PER_USEC) in
    mk_ts (u32 secs) (i32 nsecs)
  else
    let msecs := TICK2MSEC upt timer in
    let secs := Z.quot msecs MSEC_PER_SEC in
    let nsecs := u64 (u64 (msecs - secs * MSEC_PER_SEC) * NSEC_PER_MSEC) in
    mk_ts (u32 secs) (i32 nsecs).

Section clock.
(** The driver of the real-time clock (arch code), with its flag [g_rtc_enabled]. *)
Context {R : Type} (g_rtc_enabled : R -> bool) (up_rtcinitialize : R -> R) (up_rtc_getdatetime : R -> tm) (up_rtc_settime : timespec -> R -> R).

Record clock_s := mk_clock { g_system_timer : Z; g_basetime : timespec; rtc : R }.

Definition set_basetime (b : timespec) (c : clock_s) : clock_s := mk_clock (g_system_timer c) b (rtc c).
Definition set_rtc (r : R) (c : clock_s) : clock_s := mk_clock (g_system_timer c) (g_basetime c) r.

Definition clock_systimer (c : clock_s) : Z := g_system_timer c.

Definition clock_systimespec (c : clock_s) : timespec := systimespec USEC_PER_TICK (clock_systimer c).

Definition clock_timer (c : clock_s) : clock_s :=
  mk_clock (u64 (g_system_timer c + 1)) (g_basetime c) (rtc c).

Definition clock_gettime (c : clock_s) (clock_id : Z) : Z + timespec :=
  if clock_id =? CLOCK_MONOTONIC then inr (clock_systimespec c)
  else if clock_id =? CLOCK_REALTIME then
    let ts := clock_systimespec c in
    let sec := u32 (tv_sec ts + u32 (tv_sec (g_basetime c))) in
    let nsec := i32 (u32 (tv_nsec ts + u32 (tv_nsec (g_basetime c)))) in
    if NSEC_PER_SEC <=? nsec then
      let carry := u32 (Z.quot nsec NSEC_PER_SEC) in
      inr (mk_ts (u32 (sec + carry)) (i32 (u32 (nsec - u32 (carry * NSEC_PER_SEC)))))
    else inr (mk_ts sec nsec)
  else inl EINVAL.

Definition clock_settime (c : clock_s) (clock_id : Z) (tp : timespec) : clock_s * (Z + unit) :=
  if clock_id =? CLOCK_REALTIME then
    let bias := clock_systimespec c in
    let '(sec, nsec) :=
      if tv_nsec tp <? tv_nsec bias then (u32 (tv_sec tp - 1), i32 (tv_nsec tp + NSEC_PER_SEC)) else (tv_sec tp, tv_nsec tp) in
    let c := set_basetime (mk_ts (u32 (sec - tv_sec bias)) (i32 (nsec - tv_nsec bias))) c in
    (if g_rtc_enabled (rtc c) then set_rtc (up_rtc_settime tp (rtc c)) c else c, inr tt)
  else (c, inl EINVAL).

Definition clock_getres (clock_id : Z) : Z + timespec :=
  if negb (clock_id =? CLOCK_REALTIME) then inl EINVAL else inr (mk_ts 0 NSEC_PER_TICK).

(** Seconds and microseconds; [tp] is not NULL. *)
Definition gettimeofday (c : clock_s) : Z + Z * Z :=
  match clock_gettime c CLOCK_REALTIME with
  | inr ts => inr (tv_sec ts, Z.quot (tv_nsec ts) NSEC_PER_USEC)
  | inl e => inl e
  end.

Definition time (c : clock_s) : Z :=
  match gettimeofday c with inr (sec, _) => sec | inl _ => u32 ERROR end.

(** Ticks until [abstime], or EINVAL and no ticks. *)
Definition clock_abstime2ticks (c : clock_s) (clockid : Z) (abstime : timespec) : Z + Z :=
  match clock_gettime c clockid with
  | inl _ => inl EINVAL
  | inr currtime =>
      if compare_timespec abstime currtime <? 0 then inr (-1)
      else
        let nsec := i32 (tv_nsec abstime - tv_nsec currtime) in
        let sec := u32 (tv_sec abstime - tv_sec currtime) in
        if nsec <? 0 then inr (clock_time2ticks (mk_ts (u32 (sec - 1)) (i32 (nsec + NSEC_PER_SEC))))
        else inr (clock_time2ticks (mk_ts sec nsec))
  end.

(** ** Initialisation *)

(** [None] is a fault in [mktime]. *)
Definition clock_basetime (cfg : time_config) (r : R) : option timespec :=
  sec ← mktime cfg (up_rtc_getdatetime r); Some (mk_ts sec 0).

Definition clock_inittime (cfg : time_config) (c : clock_s) : option clock_s :=
  b ← clock_basetime cfg (rtc c); Some (mk_clock 0 b (rtc c)).

Definition clock_initialize (cfg : time_config) (c : clock_s) : option clock_s :=
  clock_inittime cfg (set_rtc (up_rtcinitialize (rtc c)) c).

Definition clock_synchronize (cfg : time_config) (c : clock_s) : option clock_s := clock_inittime cfg c.
End clock.

Arguments clock_s : clear implicits.
Arguments mk_clock {R} _ _ _.
