(* ===== verification/ClockTheorems.v ===== *)
(** * System clock: what the clock shows

    The time of day is the time that was set plus the ticks since, and the
    conversion of an absolute time gives the first tick at which the clock has
    reached it. *)

From stdpp Require Import base tactics numbers list.
From S2P Require Import Prelude Sched Calendar CalendarTheorems Clock.

Lemma u64_small z : 0 <= z < 18446744073709551616 -> u64 z = z.
Proof. intros. unfold u64. by apply Z.mod_small. Qed.

Lemma i64_small z : -9223372036854775808 <= z < 9223372036854775808 -> i64 z = z.
Proof.
  intros Hz. unfold i64, u64. destruct (Z.ltb_spec z 0).
  - rewrite <- (Z_mod_plus_full z 1), Z.mod_small by lia. destruct (Z.ltb_spec (z + 1 * 18446744073709551616) 9223372036854775808); lia.
  - rewrite Z.mod_small by lia. destruct (Z.ltb_spec z 9223372036854775808); lia.
Qed.

(** ** Times as numbers of nanoseconds *)

Definition valid_ts (t : timespec) : Prop := 0 <= tv_sec t < 4294967296 /\ 0 <= tv_nsec t < NSEC_PER_SEC.

Definition nsecs (t : timespec) : Z := tv_sec t * NSEC_PER_SEC + tv_nsec t.

(** The clock starts again when the seconds do not fit [time_t]. *)
Definition ERA : Z := 4294967296 * NSEC_PER_SEC.
Ltac clk := unfold ERA, NSEC_PER_TICK, TICK_PER_SEC, NSEC_PER_SEC, USEC_PER_SEC, USEC_PER_TICK, NSEC_PER_USEC, MSEC_PER_SEC, NSEC_PER_MSEC, USEC_PER_MSEC in *.

Lemma nsecs_range t : valid_ts t -> 0 <= nsecs t < ERA.
Proof. unfold valid_ts, nsecs. clk. lia. Qed.

Lemma nsecs_inj a b : valid_ts a -> valid_ts b -> nsecs a = nsecs b -> a = b.
Proof. destruct a as [s n], b as [s' n']. unfold valid_ts, nsecs. clk. simpl. intros. f_equal; lia. Qed.

(** Ticks, rounded up. *)
Definition ticks_up (n : Z) : Z := (n + NSEC_PER_TICK - 1) / NSEC_PER_TICK.

Lemma time2ticks_spec t : valid_ts t -> clock_time2ticks t = i32 (ticks_up (nsecs t)).
Proof.
  intros [Hs Hn]. unfold clock_time2ticks, ticks_up, nsecs. clk. rewrite (i64_small (tv_sec t * _)) by lia.
  rewrite (i64_small (tv_sec t * _ + _)) by lia. rewrite i64_small by lia. rewrite Z.quot_div_nonneg by lia. reflexivity.
Qed.

Lemma ticks2time_spec k :
  0 <= k <= 2147483647 -> valid_ts (clock_ticks2time k) /\ nsecs (clock_ticks2time k) = k * NSEC_PER_TICK.
Proof.
  intros Hk. unfold clock_ticks2time, valid_ts, nsecs. clk. change (Z.quot 1000000 10000) with 100. rewrite (Z.quot_div_nonneg k) by lia.
  rewrite (u32_small (k / 100)) by divs. rewrite (u32_small (100 * (k / 100))) by divs. rewrite (u32_small (k - _)) by divs.
  rewrite (i32_small (k - _)) by divs. simpl. rewrite i32_small by divs. divs.
Qed.

(** Converting ticks to a time and back. *)
Lemma ticks_roundtrip k : 0 <= k <= 2147483647 -> clock_time2ticks (clock_ticks2time k) = k.
Proof.
  intros Hk. destruct (ticks2time_spec k Hk) as [Hv Hn]. rewrite time2ticks_spec, Hn by done. unfold ticks_up. clk.
  rewrite i32_small; divs.
Qed.

(** A time of 2^31 ticks, about 248 days, or more wraps around. *)
Theorem time2ticks_overflow t :
  valid_ts t -> 2147483648 <= ticks_up (nsecs t) < 4294967296 -> clock_time2ticks t = ticks_up (nsecs t) - 4294967296 /\ clock_time2ticks t < 0.
Proof.
  intros Hv Hr. rewrite time2ticks_spec by done. unfold i32. rewrite u32_small by lia. destruct (Z.ltb_spec (ticks_up (nsecs t)) 2147483648); lia.
Qed.

Lemma compare_timespec_spec a b : valid_ts a -> valid_ts b -> (compare_timespec a b <? 0) = (nsecs a <? nsecs b).
Proof.
  intros [Ha1 Ha2] [Hb1 Hb2]. unfold compare_timespec, nsecs. clk. destruct (Z.ltb_spec (tv_sec a) (tv_sec b)).
  { simpl. symmetry. apply Z.ltb_lt. lia. }
  destruct (Z.ltb_spec (tv_sec b) (tv_sec a)). { simpl. symmetry. apply Z.ltb_ge. lia. }
  rewrite i32_small by lia. destruct (Z.ltb_spec (tv_nsec a - tv_nsec b) 0); symmetry; [apply Z.ltb_lt|apply Z.ltb_ge]; lia.
Qed.

(** ** The time since power-up *)

Lemma systimespec_spec timer :
  0 <= timer < 1844674407370955161 ->
  valid_ts (systimespec USEC_PER_TICK timer) /\ nsecs (systimespec USEC_PER_TICK timer) = (timer * NSEC_PER_TICK) mod ERA.
Proof.
  intros Ht. unfold systimespec. change (negb (Z.rem USEC_PER_TICK 1000 =? 0)) with false. cbv iota.
  assert (E : TICK2MSEC USEC_PER_TICK timer = timer * 10) by (unfold TICK2MSEC; simpl; change (Z.quot USEC_PER_TICK USEC_PER_MSEC) with 10; apply u64_small; lia).
  rewrite E. unfold valid_ts, nsecs. clk. rewrite Z.quot_div_nonneg by lia. rewrite (u64_small (timer * 10 - _)) by divs. rewrite u64_small by divs.
  simpl. rewrite i32_small by divs. unfold u32. divs.
Qed.

(** ** The time of day *)

Section clock.
Context {R : Type} (g_rtc_enabled : R -> bool) (up_rtc_settime : timespec -> R -> R).

Definition clock_ok (c : clock_s R) : Prop := 0 <= g_system_timer c < 1844674407370955161 /\ valid_ts (g_basetime c).

(** Nanoseconds since the epoch, as the clock has them. *)
Definition now (c : clock_s R) : Z := (g_system_timer c * NSEC_PER_TICK + nsecs (g_basetime c)) mod ERA.

Lemma gettime_realtime c :
  clock_ok c -> exists t, clock_gettime c CLOCK_REALTIME = inr t /\ valid_ts t /\ nsecs t = now c.
Proof.
  intros [Ht [Hb1 Hb2]]. unfold clock_gettime, clock_systimespec, clock_systimer, now. change (CLOCK_REALTIME =? CLOCK_MONOTONIC) with false. rewrite Z.eqb_refl. cbv iota.
  destruct (systimespec_spec (g_system_timer c) Ht) as [[Hs1 Hs2] Hs]. destruct (systimespec USEC_PER_TICK (g_system_timer c)) as [s n]. simpl in *.
  destruct (g_basetime c) as [bs bn]. simpl in *. rewrite (u32_small bs), (u32_small bn) by (clk; lia). rewrite (u32_small (n + bn)), (i32_small (n + bn)) by (clk; lia).
  rewrite <- Z.add_mod_idemp_l, <- Hs by (clk; lia). destruct (Z.leb_spec NSEC_PER_SEC (n + bn)) as [Hge|Hlt].
  - assert (Hq : Z.quot (n + bn) NSEC_PER_SEC = 1) by (clk; divs). rewrite Hq. change (u32 1) with 1. eexists. split; [done|]. unfold valid_ts, nsecs in *. simpl.
    rewrite (u32_small (1 * _)), (u32_small (n + bn - _)), i32_small by (clk; lia). unfold u32. clk. clear Hs Ht. divs.
  - eexists. split; [done|]. unfold valid_ts, nsecs in *. simpl. unfold u32. clk. clear Hs Ht. divs.
Qed.

Lemma settime_realtime c tp :
  clock_ok c -> valid_ts tp ->
  exists c', clock_settime g_rtc_enabled up_rtc_settime c CLOCK_REALTIME tp = (c', inr tt) /\ clock_ok c' /\ g_system_timer c' = g_system_timer c /\
    now c' = nsecs tp.
Proof.
  intros [Ht Hb] [Hp1 Hp2]. unfold clock_settime, clock_systimespec, clock_systimer. rewrite Z.eqb_refl.
  destruct (systimespec_spec (g_system_timer c) Ht) as [[Hs1 Hs2] Hs]. destruct (systimespec USEC_PER_TICK (g_system_timer c)) as [s n]. simpl in *.
  destruct tp as [ps pn]. simpl in *. unfold nsecs in Hs. simpl in Hs. set (T := g_system_timer c * NSEC_PER_TICK) in *.
  assert (E : exists bs bn, (let '(sec, nsec) := if pn <? n then (u32 (ps - 1), i32 (pn + NSEC_PER_SEC)) else (ps, pn) in
      mk_ts (u32 (sec - s)) (i32 (nsec - n))) = mk_ts bs bn /\ valid_ts (mk_ts bs bn) /\ (T + nsecs (mk_ts bs bn)) mod ERA = nsecs (mk_ts ps pn)).
  { destruct (Z.ltb_spec pn n) as [Hlt|Hge].
    - rewrite (i32_small (pn + _)), i32_small by (clk; lia). eexists _, _. split; [done|]. unfold valid_ts, nsecs, u32 in *. simpl. clk.
      split; [divs|]. rewrite <- Z.add_mod_idemp_l, <- Hs by lia. clear Hs. clearbody T. divs.
    - rewrite i32_small by (clk; lia). eexists _, _. split; [done|]. unfold valid_ts, nsecs, u32 in *. simpl. clk.
      split; [divs|]. rewrite <- Z.add_mod_idemp_l, <- Hs by lia. clear Hs. clearbody T. divs. }
  destruct E as (bs & bn & E & Hv & Hn). destruct (if pn <? n then _ else _) as [sec nsec]. injection E as <- <-.
  eexists. split; [done|]. unfold clock_ok, now. destruct (g_rtc_enabled _); simpl; done.
Qed.

(** [n] ticks of the timer interrupt *)
Definition ticked (n : nat) (c : clock_s R) : clock_s R := Nat.iter n clock_timer c.

Lemma ticked_spec n c :
  clock_ok c -> g_system_timer c + Z.of_nat n < 1844674407370955161 ->
  clock_ok (ticked n c) /\ g_system_timer (ticked n c) = g_system_timer c + Z.of_nat n /\ g_basetime (ticked n c) = g_basetime c.
Proof.
  intros Hc. induction n as [|n IH]; intros Hn; [simpl; split; [done|]; split; [lia|done]|].
  destruct (IH ltac:(lia)) as ([H1 H2] & H3 & H4). change (ticked (S n) c) with (clock_timer (ticked n c)). unfold clock_ok, clock_timer. simpl.
  rewrite u64_small, H3, H4 by lia. rewrite H4 in H2. split; [split; [lia|done]|]. split; [lia|done].
Qed.

Lemma now_ticked n c :
  clock_ok c -> g_system_timer c + Z.of_nat n < 1844674407370955161 -> now (ticked n c) = (now c + Z.of_nat n * NSEC_PER_TICK) mod ERA.
Proof.
  intros Hc Hn. destruct (ticked_spec n c Hc Hn) as (_ & H1 & H2). unfold now. rewrite H1, H2, Z.add_mod_idemp_l by (clk; lia). f_equal. lia.
Qed.

Lemma abstime2ticks_spec c t :
  clock_ok c -> valid_ts t ->
  clock_abstime2ticks c CLOCK_REALTIME t = inr (if nsecs t <? now c then -1 else i32 (ticks_up (nsecs t - now c))).
Proof.
  intros Hc Ht. unfold clock_abstime2ticks. destruct (gettime_realtime c Hc) as (u & -> & Hu & <-). rewrite compare_timespec_spec by done.
  destruct (Z.ltb_spec (nsecs t) (nsecs u)) as [Hlt|Hge]; [done|]. destruct t as [ts tn], u as [us un]. unfold valid_ts, nsecs in *. simpl in *.
  rewrite (i32_small (tn - un)) by (clk; lia). rewrite (u32_small (ts - us)) by (clk; lia). destruct (Z.ltb_spec (tn - un) 0) as [Hneg|Hpos].
  - rewrite (u32_small (ts - us - 1)), (i32_small (tn - un + _)) by (clk; lia). rewrite time2ticks_spec; [|unfold valid_ts; simpl; clk; lia].
    do 3 f_equal. unfold nsecs. simpl. clk. lia.
  - rewrite time2ticks_spec; [|unfold valid_ts; simpl; clk; lia]. do 3 f_equal. unfold nsecs. simpl. clk. lia.
Qed.
End clock.

(** The ticks to a later time of day are those after which the clock shows it. *)
Lemma first_tick {R} (c : clock_s R) t :
  clock_ok c -> valid_ts t -> now c <= nsecs t -> nsecs t - now c <= 2147483647 * NSEC_PER_TICK ->
  exists k, clock_abstime2ticks c CLOCK_REALTIME t = inr k /\ 0 <= k <= 2147483647 /\
    forall n : nat, g_system_timer c + Z.of_nat n < 1844674407370955161 -> now c + Z.of_nat n * NSEC_PER_TICK < ERA ->
      exists u, clock_gettime (ticked n c) CLOCK_REALTIME = inr u /\ (nsecs t <= nsecs u <-> k <= Z.of_nat n).
Proof.
  intros Hc Ht Hge Hfar. rewrite abstime2ticks_spec by done. assert (Hnow : 0 <= now c) by (apply Z.mod_pos_bound; clk; lia). eexists. split; [done|].
  destruct (Z.ltb_spec (nsecs t) (now c)) as [Hlt|_]; [lia|]. unfold ticks_up. rewrite i32_small by (clk; divs).
  split; [clk; divs|]. intros n Hn He. destruct (ticked_spec n c Hc Hn) as (Hcn & _). destruct (gettime_realtime _ Hcn) as (u & Hu & _ & Hun).
  exists u. split; [done|]. rewrite Hun, now_ticked by done. rewrite Z.mod_small by (clk; lia). clear Hun Hu Hcn. clk. divs.
Qed.

(** * System clock: theorems *)

Section clock.
Context {R : Type} (g_rtc_enabled : R -> bool) (up_rtc_settime : timespec -> R -> R).

(** C32: after [clock_settime] the time of day is the time that was set plus
    the ticks since then, whatever the time since power-up; it starts again at
    the epoch when the seconds no longer fit [time_t].  The monotonic clock
    cannot be set, and shows the ticks since power-up before and after. *)
Theorem clock_keeps_time_set (c : clock_s R) tp n :
  clock_ok c -> valid_ts tp -> g_system_timer c + Z.of_nat n < 1844674407370955161 ->
  exists c' t m, clock_settime g_rtc_enabled up_rtc_settime c CLOCK_REALTIME tp = (c', inr tt) /\
    clock_gettime (ticked n c') CLOCK_REALTIME = inr t /\ valid_ts t /\ nsecs t = (nsecs tp + Z.of_nat n * NSEC_PER_TICK) mod ERA /\
    clock_gettime (ticked n c') CLOCK_MONOTONIC = inr m /\ nsecs m = ((g_system_timer c + Z.of_nat n) * NSEC_PER_TICK) mod ERA /\
    clock_settime g_rtc_enabled up_rtc_settime c CLOCK_MONOTONIC tp = (c, inl EINVAL).
Proof.
  intros Hc Hp Hn. destruct (settime_realtime g_rtc_enabled up_rtc_settime c tp Hc Hp) as (c' & Hset & Hc' & Htm & Hnow).
  rewrite <- Htm in Hn |- *. destruct (ticked_spec n c' Hc' Hn) as (Hcn & Htn & _). destruct (gettime_realtime _ Hcn) as (t & Hget & Hv & Ht).
  destruct (systimespec_spec (g_system_timer (ticked n c')) (proj1 Hcn)) as [_ Hm]. rewrite Htn in Hm.
  eexists c', t, _. split_and!; [done|done|done| |reflexivity| |done].
  - rewrite Ht, now_ticked, Hnow by done. done.
  - unfold clock_systimespec, clock_systimer. by rewrite Htn.
Qed.
End clock.

(** for a time of day that has passed [clock_abstime2ticks] returns -1;
    for a later one, if it is less than 2^31 ticks away, the number of ticks
    after which the clock first shows that time or a later one. *)
Theorem abstime2ticks_first_tick {R} (c : clock_s R) t :
  clock_ok c -> valid_ts t -> nsecs t - now c <= 2147483647 * NSEC_PER_TICK ->
  exists k, clock_abstime2ticks c CLOCK_REALTIME t = inr k /\
    (nsecs t < now c -> k = -1) /\
    (now c <= nsecs t -> 0 <= k <= 2147483647 /\
      forall n : nat, g_system_timer c + Z.of_nat n < 1844674407370955161 -> now c + Z.of_nat n * NSEC_PER_TICK < ERA ->
        exists u, clock_gettime (ticked n c) CLOCK_REALTIME = inr u /\ (nsecs t <= nsecs u <-> k <= Z.of_nat n)).
Proof.
  intros Hc Ht Hfar. destruct (Z_lt_le_dec (nsecs t) (now c)) as [Hlt|Hge].
  - exists (-1). rewrite abstime2ticks_spec by done. destruct (Z.ltb_spec (nsecs t) (now c)); [|lia]. split; [done|]. split; [done|lia].
  - destruct (first_tick c t Hc Ht Hge Hfar) as (k & Hk & Hr & Hn). exists k. split; [done|]. split; [lia|done].
Qed.

Definition clock_example : clock_s unit := mk_clock 12345 (mk_ts 1470873600 0) tt.

Lemma clock_keeps_time_set_witness :
  exists c' t, clock_settime (fun _ : unit => true) (fun _ r => r) clock_example CLOCK_REALTIME (mk_ts 4294967295 990000000) = (c', inr tt) /\
    clock_gettime (ticked 2 c') CLOCK_REALTIME = inr t /\ nsecs t = 10000000.
Proof.
  destruct (clock_keeps_time_set (fun _ : unit => true) (fun _ r => r) clock_example (mk_ts 4294967295 990000000) 2) as (c' & t & m & H1 & H2 & _ & H3 & _).
  - unfold clock_ok, valid_ts, clock_example, NSEC_PER_SEC. simpl. lia.
  - unfold valid_ts, NSEC_PER_SEC. simpl. lia.
  - simpl. lia.
  - exists c', t. split; [exact H1|]. split; [exact H2|]. rewrite H3. reflexivity.
Defined.

Lemma abstime2ticks_first_tick_witness :
  exists k, clock_abstime2ticks clock_example CLOCK_REALTIME (mk_ts 1470873724 0) = inr k /\ 0 <= k <= 2147483647.
Proof.
  destruct (abstime2ticks_first_tick clock_example (mk_ts 1470873724 0)) as (k & H1 & _ & H3).
  - unfold clock_ok, valid_ts, clock_example, NSEC_PER_SEC. simpl. lia.
  - unfold valid_ts, NSEC_PER_SEC. simpl. lia.
  - vm_compute. discriminate.
  - exists k. split; [exact H1|]. apply H3. vm_compute. discriminate.
Defined.

(** With a tick that is not a whole number of milliseconds, the milliseconds
    since power-up are taken for microseconds: the clock is a thousand times
    too slow. *)
Theorem systimespec_usec_slow upt timer :
  0 < upt -> Z.rem upt 1000 <> 0 -> 0 <= timer -> timer * upt < 9223372036854775808 ->
  nsecs (systimespec upt timer) = (timer * upt / 1000 * 1000) mod ERA.
Proof.
  intros Hu Hr Ht Hmax. rewrite Z.rem_mod_nonneg in Hr by lia. assert (Hp : 0 <= timer * upt) by lia. revert Hmax Hp. set (p := timer * upt). intros Hmax Hp.
  unfold systimespec. rewrite Z.rem_mod_nonneg by lia. destruct (Z.eqb_spec (upt mod 1000) 0) as [?|_]; [done|]. cbn [negb].
  assert (E : TICK2MSEC upt timer = p / 1000).
  { unfold TICK2MSEC. clk. rewrite Z.quot_div_nonneg by lia. destruct (Z.eqb_spec (upt / 1000 * 1000) upt) as [Ee|_]; [divs|].
    fold p. rewrite u64_small by lia. by rewrite Z.quot_div_nonneg by lia. }
  rewrite E. set (q := p / 1000). assert (Hq : 0 <= q < 9223372036854776) by (unfold q; divs). clearbody q. unfold nsecs. clk. rewrite Z.quot_div_nonneg by lia.
  simpl. rewrite (u64_small (q - _)) by divs. rewrite u64_small by divs. rewrite i32_small by divs. unfold u32. divs.
Qed.
