(* ===== verification/Timer.v ===== *)
(** * POSIX timers (os/kernel/timer)

    A timer is a watchdog that sends a signal and starts itself again.  The
    timers are a client of the watchdogs ([Wdog]) and of the clock ([Clock]).
    Configuration: CONFIG_PREALLOC_TIMERS = 8, CONFIG_CAN_PASS_STRUCTS.
    [None] is a failed assertion, a null dereference or lack of fuel. *)

From stdpp Require Import base tactics numbers list.
From S2P Require Import Prelude Queue Sched Sem Wdog Calendar Clock.

Definition PT_FLAGS_PREALLOCATED : Z := 1.
Definition CONFIG_PREALLOC_TIMERS : Z := 8.
Definition TIMER_ABSTIME : Z := 1.
Definition SIGALRM : Z := 3.
Definition SI_TIMER : Z := 2.
Definition ENOSYS : Z := 38.

(** [struct posix_timer_s] but for the link *)
Record posix_timer_s := mk_pt {
  pt_flags : Z; pt_crefs : Z; pt_signo : Z; pt_owner : Z; pt_delay : Z; pt_last : Z; pt_wdog : Z; pt_value : Z
}.

(** [kfreed] are the addresses given to [sched_kfree]. *)
Record timer_state := mk_tms {
  tlinks : links;
  ptimers : Z -> posix_timer_s;
  g_freetimers : queue;
  g_alloctimers : queue;
  kfreed : list Z
}.

Definition set_tlinks (L : links) (s : timer_state) : timer_state := mk_tms L (ptimers s) (g_freetimers s) (g_alloctimers s) (kfreed s).
Definition set_freetimers (q : queue) (s : timer_state) : timer_state := mk_tms (tlinks s) (ptimers s) q (g_alloctimers s) (kfreed s).
Definition set_alloctimers (q : queue) (s : timer_state) : timer_state := mk_tms (tlinks s) (ptimers s) (g_freetimers s) q (kfreed s).
Definition put_timer (p : Z) (d : posix_timer_s) (s : timer_state) : timer_state :=
  mk_tms (tlinks s) (upd (ptimers s) p d) (g_freetimers s) (g_alloctimers s) (kfreed s).
Definition kfree (p : Z) (s : timer_state) : timer_state :=
  mk_tms (tlinks s) (ptimers s) (g_freetimers s) (g_alloctimers s) (kfreed s ++ [p]).

Definition set_crefs (v : Z) (d : posix_timer_s) : posix_timer_s :=
  mk_pt (pt_flags d) v (pt_signo d) (pt_owner d) (pt_delay d) (pt_last d) (pt_wdog d) (pt_value d).
Definition set_delay (v : Z) (d : posix_timer_s) : posix_timer_s :=
  mk_pt (pt_flags d) (pt_crefs d) (pt_signo d) (pt_owner d) v (pt_last d) (pt_wdog d) (pt_value d).
Definition set_last (v : Z) (d : posix_timer_s) : posix_timer_s :=
  mk_pt (pt_flags d) (pt_crefs d) (pt_signo d) (pt_owner d) (pt_delay d) v (pt_wdog d) (pt_value d).

(** What is sent: [siginfo_t] *)
Record siginfo := mk_info { si_signo : Z; si_code : Z; si_value : Z }.

(** ** Creation and deletion *)

(** [sizeof(struct posix_timer_s)] *)
Definition SIZEOF_TIMER : Z := 28.

Definition with_flags (v : Z) (d : posix_timer_s) : posix_timer_s :=
  mk_pt v (pt_crefs d) (pt_signo d) (pt_owner d) (pt_delay d) (pt_last d) (pt_wdog d) (pt_value d).

Fixpoint free_timers (n : nat) (p : Z) (s : timer_state) : option timer_state :=
  match n with
  | O => Some s
  | S n =>
      let s := put_timer p (with_flags PT_FLAGS_PREALLOCATED (ptimers s p)) s in
      '(L, q) ← sq_addlast (tlinks s) p (g_freetimers s);
      free_timers n (p + SIZEOF_TIMER) (set_freetimers q (set_tlinks L s))
  end.

(** [g_prealloctimers] is at [pool]. *)
Definition timer_initialize (s : timer_state) (pool : Z) : option timer_state :=
  s ← free_timers (Z.to_nat CONFIG_PREALLOC_TIMERS) pool (set_freetimers empty_queue s);
  Some (set_alloctimers empty_queue s).

(** [heap] is what [kmm_malloc] returns. *)
Definition timer_allocate (s : timer_state) (heap : Z) : option (timer_state * Z) :=
  '(ret, (L, q)) ← sq_remfirst (tlinks s) (g_freetimers s);
  let s := set_freetimers q (set_tlinks L s) in
  let '(ret, flags) := if negb (ret =? 0) then (ret, PT_FLAGS_PREALLOCATED) else (heap, 0) in
  if ret =? 0 then Some (s, ret)
  else
    L ← set_flink (tlinks s) ret 0;
    let s := put_timer ret (mk_pt flags 0 0 0 0 0 0 0) (set_tlinks L s) in
    '(L, q) ← sq_addlast (tlinks s) ret (g_alloctimers s);
    Some (set_alloctimers q (set_tlinks L s), ret).

(** [wheap] and [theap] are what [kmm_malloc] returns for the watchdog and for
    the timer, [pid] is [getpid()], [evp] the signal and the value to send,
    [hasid] that [timerid] is not NULL. *)
Definition timer_create (fuel : nat) (w : wd_state) (s : timer_state) (irq : bool) (wheap theap pid : Z)
    (clockid : Z) (evp : option (Z * Z)) (hasid : bool) : option (wd_state * timer_state * (Z + Z)) :=
  if negb hasid || negb (clockid =? CLOCK_REALTIME) then Some (w, s, inl EINVAL)
  else
    '(w, wdog) ← wd_create w irq wheap;
    if wdog =? 0 then Some (w, s, inl EAGAIN)
    else
      '(s, ret) ← timer_allocate s theap;
      if ret =? 0 then
        '(w, heap) ← wd_delete fuel w wdog;
        Some (w, if heap : bool then kfree wdog s else s, inl EAGAIN)
      else
        let d := ptimers s ret in
        let '(signo, value) := match evp with Some (signo, value) => (u8 signo, value) | None => (SIGALRM, ret) end in
        Some (w, put_timer ret (mk_pt (pt_flags d) 1 signo pid 0 (pt_last d) wdog value) s, inr ret).

Definition timer_free (fuel : nat) (s : timer_state) (timer : Z) : option timer_state :=
  '(L, q) ← sq_rem fuel (tlinks s) timer (g_alloctimers s);
  let s := set_alloctimers q (set_tlinks L s) in
  if negb (Z.land (pt_flags (ptimers s timer)) PT_FLAGS_PREALLOCATED =? 0) then
    '(L, q) ← sq_addlast (tlinks s) timer (g_freetimers s); Some (set_freetimers q (set_tlinks L s))
  else Some (kfree timer s).

Definition timer_release (fuel : nat) (w : wd_state) (s : timer_state) (timer : Z) : option (wd_state * timer_state * Z) :=
  if timer =? 0 then Some (w, s, - EINVAL)
  else
    let d := ptimers s timer in
    if 1 <? pt_crefs d then Some (w, put_timer timer (set_crefs (u8 (pt_crefs d - 1)) d) s, 1)
    else
      '(w, heap) ← wd_delete fuel w (pt_wdog d);
      let s := if heap : bool then kfree (pt_wdog d) s else s in
      s ← timer_free fuel s timer;
      Some (w, s, OK).

Definition timer_delete (fuel : nat) (w : wd_state) (s : timer_state) (timerid : Z) : option (wd_state * timer_state * (Z + unit)) :=
  '(w, s, ret) ← timer_release fuel w s timerid;
  Some (w, s, if ret <? 0 then inl (- ret) else inr tt).

(** The loop of [timer_deleteall]: delete the timers of [pid]. *)
Fixpoint delete_owned (fuel : nat) (w : wd_state) (s : timer_state) (timer pid : Z) : option (wd_state * timer_state) :=
  match fuel with
  | O => None
  | S n =>
      if timer =? 0 then Some (w, s)
      else
        let next := flink (tlinks s) timer in
        '(w, s) ← (if pt_owner (ptimers s timer) =? pid then '(w, s, _) ← timer_delete n w s timer; Some (w, s) else Some (w, s));
        delete_owned n w s next pid
  end.

Definition timer_deleteall (fuel : nat) (w : wd_state) (s : timer_state) (pid : Z) : option (wd_state * timer_state) :=
  delete_owned fuel w s (head (g_alloctimers s)) pid.

(** ** Expiration *)

(** The address of [timer_timeout]. *)
Definition TIMER_TIMEOUT : Z := 1.

Section timers.
(** The rest of the system, and what [sig_dispatch] does to it. *)
Context {Y : Type} (sig_dispatch : Z -> siginfo -> Y -> Y).

Definition timer_sigqueue (d : posix_timer_s) (y : Y) : Y :=
  sig_dispatch (pt_owner d) (mk_info (pt_signo d) SI_TIMER (pt_value d)) y.

Definition timer_restart (fuel : nat) (w : wd_state) (s : timer_state) (timer : Z) : option (wd_state * timer_state) :=
  let d := ptimers s timer in
  if negb (pt_delay d =? 0) then
    let s := put_timer timer (set_last (pt_delay d) d) s in
    '(w, _) ← wd_start fuel w (pt_wdog d) (pt_delay d) TIMER_TIMEOUT [timer];
    Some (w, s)
  else Some (w, s).

Definition timer_timeout (fuel : nat) (itimer : Z) (a : wd_state * (timer_state * Y)) : option (wd_state * (timer_state * Y)) :=
  let '(w, (s, y)) := a in
  _ ← assert (negb (itimer =? 0));
  let d := ptimers s itimer in
  let s := put_timer itimer (set_crefs (u8 (pt_crefs d + 1)) d) s in
  let y := timer_sigqueue (ptimers s itimer) y in
  '(w, s, ret) ← timer_release fuel w s itimer;
  '(w, s) ← (if negb (ret =? 0) then timer_restart fuel w s itimer else Some (w, s));
  Some (w, (s, y)).

(** The functions the watchdogs call *)
Definition timer_call (fuel : nat) (f : Z) (args : list Z) (a : wd_state * (timer_state * Y)) : option (wd_state * (timer_state * Y)) :=
  if f =? TIMER_TIMEOUT then match args with [itimer] => timer_timeout fuel itimer a | _ => None end else None.

(** The tick of the watchdogs *)
Definition timer_tick (fuel : nat) (a : wd_state * (timer_state * Y)) : option (wd_state * (timer_state * Y)) :=
  let '(w, x) := a in wd_timer (timer_call fuel) fuel w x.
End timers.

(** ** Arming and reading *)

Record itimerspec := mk_its { it_value : timespec; it_interval : timespec }.

(** [value] is [None] for NULL; [ovalue] is ignored. *)
Definition timer_settime {R} (fuel : nat) (w : wd_state) (s : timer_state) (c : clock_s R) (timerid flags : Z) (value : option itimerspec)
    : option (wd_state * timer_state * (Z + Z)) :=
  match value with
  | None => Some (w, s, inl EINVAL)
  | Some value =>
      if timerid =? 0 then Some (w, s, inl EINVAL)
      else
        '(w, _) ← wd_cancel fuel w (pt_wdog (ptimers s timerid));
        if (tv_sec (it_value value) <=? 0) && (tv_nsec (it_value value) <=? 0) then Some (w, s, inr OK)
        else
          let delay :=
            if (0 <? tv_sec (it_interval value)) || (0 <? tv_nsec (it_interval value)) then clock_time2ticks (it_interval value) else 0 in
          let s := put_timer timerid (set_delay delay (ptimers s timerid)) s in
          (* on an error [delay] is not set; there is none for CLOCK_REALTIME *)
          delay ← (if negb (Z.land flags TIMER_ABSTIME =? 0)
                   then match clock_abstime2ticks c CLOCK_REALTIME (it_value value) with inr d => Some d | inl _ => None end
                   else Some (clock_time2ticks (it_value value)));
          let delay := if delay <=? 0 then pt_delay (ptimers s timerid) else delay in
          if 0 <? delay then
            let s := put_timer timerid (set_last delay (ptimers s timerid)) s in
            '(w, ret) ← wd_start fuel w (pt_wdog (ptimers s timerid)) delay TIMER_TIMEOUT [timerid];
            Some (w, s, inr ret)
          else Some (w, s, inr OK)
  end.

(** [hasvalue] is that [value] is not NULL. *)
Definition timer_gettime (fuel : nat) (w : wd_state) (s : timer_state) (timerid : Z) (hasvalue : bool) : option (Z + itimerspec) :=
  if (timerid =? 0) || negb hasvalue then Some (inl EINVAL)
  else
    ticks ← wd_gettime fuel w (pt_wdog (ptimers s timerid));
    Some (inr (mk_its (clock_ticks2time ticks) (clock_ticks2time (pt_last (ptimers s timerid))))).

Definition timer_getoverrun (timerid : Z) : Z + Z := inl ENOSYS.
