(* ===== verification/TimerOps.v ===== *)
(** * POSIX timers: what a tick does to each of them

    Timers are clients of the watchdogs: [timer_timeout] meets [handler_ok],
    so a tick of the watchdogs is the tick of their timers, and it sends the
    signals of the timers that expire. *)

From stdpp Require Import base tactics numbers sets list sorting.
From S2P Require Import Prelude Queue QueueProps Sched Wdog WdogProps WdogTick WdogTimers Calendar Clock Timer CalendarTheorems ClockTheorems.

(** ** The state of the timers *)

(** Allocated timers [A], watchdogs [t] that run, and free ones [F]. *)
Record tms_ok (fuel : nat) (A : list Z) (t : list timer) (F : list Z) (s : timer_state) : Prop := {
  to_queue : sq_rep (tlinks s) (g_alloctimers s) A;
  to_cap : (length A < fuel)%nat;
  to_refs p : p ∈ A -> pt_crefs (ptimers s p) = 1;
  to_wdog p : p ∈ A -> pt_wdog (ptimers s p) <> 0 /\ pt_wdog (ptimers s p) ∉ F;
  to_inj p q : p ∈ A -> q ∈ A -> pt_wdog (ptimers s p) = pt_wdog (ptimers s q) -> p = q;
  to_delay p : p ∈ A -> -2147483648 <= pt_delay (ptimers s p) <= 2147483647;
  to_nodup : NoDup (ids t);
  to_active y : y ∈ t -> exists p, p ∈ A /\ t_id y = pt_wdog (ptimers s p) /\ t_func y = TIMER_TIMEOUT /\ t_args y = [p]
}.

Lemma to_length fuel A t F s : tms_ok fuel A t F s -> (length t < fuel)%nat.
Proof.
  intros H. apply Nat.le_lt_trans with (length A); [|apply (to_cap _ _ _ _ _ H)].
  rewrite <- (length_fmap t_id t), <- (length_fmap (fun p => pt_wdog (ptimers s p)) A). apply submseteq_length, NoDup_submseteq; [apply (to_nodup _ _ _ _ _ H)|].
  intros w (y & -> & Hy)%list_elem_of_fmap. destruct (to_active _ _ _ _ _ H y Hy) as (p & Hp & -> & _). apply list_elem_of_fmap. by exists p.
Qed.

(** What does not change: all but the references and the last delay. *)
Definition same_timer (d d' : posix_timer_s) : Prop :=
  pt_flags d' = pt_flags d /\ pt_signo d' = pt_signo d /\ pt_owner d' = pt_owner d /\ pt_delay d' = pt_delay d /\
  pt_wdog d' = pt_wdog d /\ pt_value d' = pt_value d.

Definition same_timers (s s' : timer_state) : Prop := forall p, same_timer (ptimers s p) (ptimers s' p).

#[export] Instance same_timers_preorder : PreOrder same_timers.
Proof.
  split.
  - intros s p. by split_and!.
  - intros s1 s2 s3 H12 H23 p. destruct (H12 p) as (? & ? & ? & ? & ? & ?), (H23 p) as (? & ? & ? & ? & ? & ?). split_and!; congruence.
Qed.

Lemma same_put p d s : same_timer (ptimers s p) d -> same_timers s (put_timer p d s).
Proof. intros H q. unfold put_timer. simpl. unfold upd. destruct (Z.eqb_spec q p) as [->|]; [done|by split_and!]. Qed.

Lemma put_timer_eq p d s : ptimers (put_timer p d s) p = d.
Proof. apply upd_eq. Qed.

(** ** Expiration of a timer *)

(** The references go up and down again. *)
Definition refs_up (p : Z) (s : timer_state) : timer_state := put_timer p (set_crefs (u8 (pt_crefs (ptimers s p) + 1)) (ptimers s p)) s.
Definition refs_down (p : Z) (s : timer_state) : timer_state := put_timer p (set_crefs (u8 (pt_crefs (ptimers s p) - 1)) (ptimers s p)) s.

Definition restarted (p : Z) (t : list timer) (s : timer_state) : list timer :=
  let d := ptimers s p in if 0 <? pt_delay d then start_timer (pt_wdog d) (pt_delay d) TIMER_TIMEOUT [p] t else t.

(** The timers after the timeout of [p]. *)
Definition timed_out (p : Z) (s : timer_state) : timer_state :=
  let s := refs_down p (refs_up p s) in
  if pt_delay (ptimers s p) =? 0 then s else put_timer p (set_last (pt_delay (ptimers s p)) (ptimers s p)) s.

Lemma refs_up_down p s : same_timers s (refs_down p (refs_up p s)) /\
  (pt_crefs (ptimers s p) = 1 -> pt_crefs (ptimers (refs_down p (refs_up p s)) p) = 1) /\
  (forall q, q <> p -> ptimers (refs_down p (refs_up p s)) q = ptimers s q).
Proof.
  split_and!.
  - transitivity (refs_up p s); apply same_put; by split_and!.
  - intros E. unfold refs_down, refs_up. rewrite !put_timer_eq, E. reflexivity.
  - intros q Hq. unfold refs_down, refs_up, put_timer. simpl. by rewrite !upd_ne.
Qed.

Lemma timed_out_spec p s : same_timers s (timed_out p s) /\
  (pt_crefs (ptimers s p) = 1 -> pt_crefs (ptimers (timed_out p s) p) = 1) /\
  (forall q, q <> p -> ptimers (timed_out p s) q = ptimers s q) /\ tlinks (timed_out p s) = tlinks s /\ g_alloctimers (timed_out p s) = g_alloctimers s.
Proof.
  destruct (refs_up_down p s) as (H1 & H2 & H3). unfold timed_out. set (s1 := refs_down p (refs_up p s)) in *.
  destruct (pt_delay (ptimers s1 p) =? 0); [by split_and!|]. split_and!; try done.
  - transitivity s1; [done|]. apply same_put. by split_and!.
  - intros E. rewrite put_timer_eq. simpl. auto.
  - intros q Hq. unfold put_timer. simpl. rewrite upd_ne by done. by apply H3.
Qed.

(** The timer of [p] expires: the others and the counts are as they were. *)
Lemma tms_ok_timeout fuel A y t F s p :
  tms_ok fuel A (y :: t) F s -> p ∈ A -> t_id y = pt_wdog (ptimers s p) -> tms_ok fuel A (restarted p t s) F (timed_out p s).
Proof.
  intros H Hp Hy. destruct (timed_out_spec p s) as (Hsame & Hrefs & Hne & HL & Hq). destruct H as [T1 T2 T3 T4 T5 T6 T7 T8]. rewrite fmap_cons in T7.
  apply NoDup_cons in T7 as [Hny Hnd]. assert (Hids : forall z, z ∈ restarted p t s -> z ∈ t \/
    (t_id z = pt_wdog (ptimers s p) /\ t_func z = TIMER_TIMEOUT /\ t_args z = [p])).
  { intros z. unfold restarted. destruct (0 <? pt_delay (ptimers s p)); [|by left]. unfold start_timer. rewrite cancel_none by (by rewrite <- Hy).
    rewrite insert_elem. intros [->|?]; [right; done|by left]. }
  assert (Hw : forall q, pt_wdog (ptimers (timed_out p s) q) = pt_wdog (ptimers s q)) by (intros q; apply Hsame).
  constructor.
  - by rewrite HL, Hq.
  - done.
  - intros q Hqa. destruct (decide (q = p)) as [->|Hqp]; [by apply Hrefs, T3|]. rewrite Hne by done. by apply T3.
  - intros q Hqa. rewrite Hw. by apply T4.
  - intros q r Hqa Hra. rewrite !Hw. by apply T5.
  - intros q Hqa. destruct (Hsame q) as (_ & _ & _ & -> & _). by apply T6.
  - unfold restarted. destruct (0 <? pt_delay (ptimers s p)); [|done]. unfold start_timer. rewrite cancel_none by (by rewrite <- Hy).
    rewrite insert_ids. simpl. rewrite <- Hy. by apply NoDup_cons.
  - intros z [Hz|(E1 & E2 & E3)]%Hids.
    + destruct (T8 z ltac:(set_solver)) as (q & Hqa & E & Hrest). exists q. by rewrite Hw.
    + exists p. by rewrite Hw.
Qed.

Lemma restarted_same p t s s' : same_timers s s' -> restarted p t s' = restarted p t s.
Proof. intros H. destruct (H p) as (_ & _ & _ & E1 & E2 & _). unfold restarted. by rewrite E1, E2. Qed.

Lemma restarted_expired p t s : length (expired (restarted p t s)) = length (expired t) \/ pt_wdog (ptimers s p) ∈ ids t.
Proof.
  destruct (decide (pt_wdog (ptimers s p) ∈ ids t)) as [?|Hn]; [by right|left]. unfold restarted. destruct (Z.ltb_spec 0 (pt_delay (ptimers s p))); [|done].
  unfold start_timer. rewrite cancel_none by done. rewrite expired_insert; [done|]. simpl. lia.
Qed.

Section tick.
Context {Y : Type} (sig_dispatch : Z -> siginfo -> Y -> Y) (fuel : nat) (A : list Z).

(** [timer_timeout] on the timers. *)
Definition timeout (f : Z) (args : list Z) (a : list timer * list Z * (timer_state * Y)) : list timer * list Z * (timer_state * Y) :=
  let '(t, F, (s, y)) := a in
  match args with
  | [p] =>
      let y := timer_sigqueue sig_dispatch (ptimers (refs_up p s) p) y in
      let s := refs_down p (refs_up p s) in
      (restarted p t s, F, (if pt_delay (ptimers s p) =? 0 then s else put_timer p (set_last (pt_delay (ptimers s p)) (ptimers s p)) s, y))
  | _ => a
  end.

Lemma timeout_eq f p t F s y :
  timeout f [p] (t, F, (s, y)) = (restarted p t s, F, (timed_out p s, timer_sigqueue sig_dispatch (ptimers s p) y)).
Proof.
  unfold timeout. rewrite (restarted_same p t s) by apply refs_up_down. unfold timed_out. do 2 f_equal. unfold timer_sigqueue, refs_up. by rewrite put_timer_eq.
Qed.

#[export] Instance timer_handler_ok :
  handler_ok (timer_call sig_dispatch fuel) timeout (fun t F x => tms_ok fuel A t F (fst x)).
Proof.
  constructor.
  - intros w y t F [s z] Hr H Hy. simpl in H. destruct (to_active _ _ _ _ _ H y ltac:(set_solver)) as (p & Hp & Hid & -> & ->).
    pose proof (tms_ok_timeout fuel A y t F s p H Hp Hid) as Hok. pose proof (to_length _ _ _ _ _ H) as Hlen. simpl in Hlen.
    pose proof (sq_null _ _ _ (to_queue _ _ _ _ _ H)) as H0. assert (Hp0 : p <> 0) by (intros ->; done).
    destruct (to_wdog _ _ _ _ _ H p Hp) as [Hw0 HwF]. pose proof (to_delay _ _ _ _ _ H p Hp) as Hd.
    assert (Hrun : exists w', timer_call sig_dispatch fuel TIMER_TIMEOUT [p] (w, (s, z)) =
        Some (w', (timed_out p s, timer_sigqueue sig_dispatch (ptimers s p) z)) /\ wd_rep 0 w' (restarted p t s) F).
    { unfold timer_call, timer_timeout. simpl. rewrite assert_true by (by destruct (Z.eqb_spec p 0)). cbn [mbind option_bind].
      fold (refs_up p s). unfold timer_release. destruct (Z.eqb_spec p 0) as [?|_]; [done|]. assert (Ec : (1 <? pt_crefs (ptimers (refs_up p s) p)) = true).
      { unfold refs_up. rewrite put_timer_eq. simpl. by rewrite (to_refs _ _ _ _ _ H p Hp). }
      rewrite Ec. fold (refs_down p (refs_up p s)). cbn [mbind option_bind]. change (negb (1 =? 0)) with true. cbv iota.
      rewrite <- (restarted_same p t s _ (proj1 (refs_up_down p s))). destruct (proj1 (refs_up_down p s) p) as (_ & _ & _ & E1 & E2 & _).
      unfold timer_restart, timed_out, restarted. set (s1 := refs_down p (refs_up p s)) in *. rewrite E1, E2.
      rewrite upd_eq.
      destruct (Z.eqb_spec (pt_delay (ptimers s p)) 0) as [E0|E0]; cbn [negb mbind option_bind].
      { rewrite E0. simpl. exists w. done. }
      destruct (Z.ltb_spec 0 (pt_delay (ptimers s p))) as [Hpos|Hneg].
      - destruct (wd_start_spec 0 fuel w t F (pt_wdog (ptimers s p)) (pt_delay (ptimers s p)) TIMER_TIMEOUT [p]) as (w' & -> & Hr'); try done; [simpl; lia|lia|lia|].
        cbn [mbind option_bind]. exists w'. done.
      - unfold wd_start. destruct (Z.ltb_spec (pt_delay (ptimers s p)) 0) as [_|?]; [|lia]. rewrite orb_true_r. cbn [mbind option_bind]. by eexists. }
    destruct Hrun as (w' & Hrun & Hr'). exists w', (restarted p t s), F, (timed_out p s, timer_sigqueue sig_dispatch (ptimers s p) z).
    split_and!; [apply timeout_eq|done|done|done|]. destruct (restarted_expired p t s) as [->|Hin]; [done|].
    pose proof (to_nodup _ _ _ _ _ H) as Hnd. rewrite fmap_cons, Hid in Hnd. by apply NoDup_cons in Hnd as [? _].
  - intros t F [s z] [T1 T2 T3 T4 T5 T6 T7 T8]. cbn [fst] in *. constructor; try done; [by rewrite ids_tick|].
    intros y (x & -> & Hx)%list_elem_of_fmap. exact (T8 x Hx).
Qed.
End tick.

(** ** The signals of a tick *)

Definition signal_of (d : posix_timer_s) : Z * siginfo := (pt_owner d, mk_info (pt_signo d) SI_TIMER (pt_value d)).

(** Signals are kept in the order they are sent. *)
Definition post (owner : Z) (info : siginfo) (y : list (Z * siginfo)) : list (Z * siginfo) := y ++ [(owner, info)].

Definition timer_of (x : timer) : Z := match t_args x with [p] => p | _ => 0 end.
Definition sent (s : timer_state) (l : list timer) : list (Z * siginfo) := (fun x => signal_of (ptimers s (timer_of x))) <$> l.

(** The ticks a timer has left after it has expired. *)
Definition reload (d : posix_timer_s) : Z := if 0 <? pt_delay d then Z.min (pt_delay d + 1) 2147483647 else 0.

Lemma same_signal s s' l : same_timers s s' -> sent s' l = sent s l.
Proof.
  intros H. unfold sent. apply list_fmap_ext. intros i x _. destruct (H (timer_of x)) as (_ & E1 & E2 & _ & _ & E3). unfold signal_of. by rewrite E1, E2, E3.
Qed.

Lemma restarted_left p t s w :
  pt_wdog (ptimers s p) ∉ ids t ->
  time_left w (restarted p t s) = if decide (w = pt_wdog (ptimers s p)) then reload (ptimers s p) else time_left w t.
Proof.
  intros Hn. unfold restarted, reload. destruct (Z.ltb_spec 0 (pt_delay (ptimers s p))) as [Hd|Hd].
  - unfold start_timer. rewrite cancel_none by done. set (x := mk_timer _ _ _ _). destruct (decide (w = pt_wdog (ptimers s p))) as [->|Hw].
    + apply (time_left_insert_same x t Hn).
    + by rewrite time_left_insert_other.
  - destruct (decide _) as [->|_]; [by apply time_left_none|done].
Qed.

Lemma restarted_expired_eq p t s : pt_wdog (ptimers s p) ∉ ids t -> expired (restarted p t s) = expired t.
Proof.
  intros Hn. unfold restarted. destruct (Z.ltb_spec 0 (pt_delay (ptimers s p))); [|done]. unfold start_timer. rewrite cancel_none by done.
  apply expired_insert. simpl. lia.
Qed.

Lemma run_due_timers fuel A n t F s y :
  tms_ok fuel A t F s -> (length (expired t) <= n)%nat ->
  exists t' s', run_due (timeout post) n (t, F, (s, y)) = (t', F, (s', y ++ sent s (expired t))) /\ same_timers s s' /\
    forall p, p ∈ A -> let w := pt_wdog (ptimers s p) in
      time_left w t' = if decide (w ∈ ids (expired t)) then reload (ptimers s p) else time_left w t.
Proof.
  revert t s y. induction n as [|n IH]; intros t s y H Hn.
  { destruct (expired t) eqn:E; [|simpl in Hn; lia]. exists t, s. rewrite app_nil_r. done. }
  destruct t as [|x t]; [exists [], s; by rewrite app_nil_r|]. cbn [run_due expired] in Hn |- *. destruct (Z.leb_spec (t_left x) 0) as [Hx|Hx].
  2:{ exists (x :: t), s. by rewrite app_nil_r. }
  destruct (to_active _ _ _ _ _ H x ltac:(set_solver)) as (q & Hq & Hid & Hf & Ha). rewrite Ha, timeout_eq.
  pose proof (tms_ok_timeout fuel A x t F s q H Hq Hid) as H1. pose proof (to_nodup _ _ _ _ _ H) as Hnd. rewrite fmap_cons, Hid in Hnd.
  apply NoDup_cons in Hnd as [Hqt Hnd]. simpl in Hn. destruct (timed_out_spec q s) as (Hs1 & _).
  destruct (IH (restarted q t s) (timed_out q s) (timer_sigqueue post (ptimers s q) y)) as (t' & s' & Hrun & Hs' & Hleft); [done|rewrite restarted_expired_eq by done; lia|].
  exists t', s'. rewrite restarted_expired_eq in Hrun, Hleft by done. rewrite (same_signal s) in Hrun by done. split_and!.
  - rewrite Hrun. do 2 f_equal. unfold timer_sigqueue, post, sent. rewrite fmap_cons, <- app_assoc. unfold timer_of at 2. by rewrite Ha.
  - by transitivity (timed_out q s).
  - intros p Hp. set (w := pt_wdog (ptimers s p)). specialize (Hleft p Hp). destruct (Hs1 p) as (_ & _ & _ & E1 & E2 & _). cbv zeta in Hleft. rewrite E2 in Hleft. fold w in Hleft.
    assert (Er : reload (ptimers (timed_out q s) p) = reload (ptimers s p)) by (unfold reload; by rewrite E1). rewrite Er, restarted_left in Hleft by done.
    assert (Hsub : ids (expired t) ⊆ ids t) by (intros z (u & -> & Hu%expired_subseteq)%list_elem_of_fmap; apply list_elem_of_fmap; by exists u).
    destruct (decide (w = pt_wdog (ptimers s q))) as [Ew|Ew].
    + assert (p = q) as -> by (by apply (to_inj _ _ _ _ _ H)). rewrite decide_True by (rewrite fmap_cons, Hid; set_solver).
      by destruct (decide (w ∈ ids (expired t))).
    + assert (Hdec : (w ∈ ids (x :: expired t)) <-> w ∈ ids (expired t)) by (rewrite fmap_cons, Hid; set_solver).
      rewrite Hleft. destruct (decide (w ∈ ids (expired t))) as [Hin|Hin].
      * by rewrite decide_True by (by apply Hdec).
      * rewrite decide_False by (by rewrite Hdec). unfold time_left. rewrite filter_cons_False; [done|]. rewrite Hid. done.
Qed.

(** ** A tick, timer by timer *)

#[export] Instance siginfo_eq_dec : EqDecision siginfo.
Proof. solve_decision. Defined.

(** How often a signal has been sent *)
Definition times (e : Z * siginfo) (l : list (Z * siginfo)) : Z := Z.of_nat (length (filter (fun x => x = e) l)).

Lemma times_app e l1 l2 : times e (l1 ++ l2) = times e l1 + times e l2.
Proof. unfold times. rewrite filter_app, length_app. lia. Qed.

(** No other timer sends the signal of [p]. *)
Definition own_signal (A : list Z) (s : timer_state) (p : Z) : Prop :=
  forall q, q ∈ A -> signal_of (ptimers s q) = signal_of (ptimers s p) -> q = p.

Lemma times_sent A s p (l : list timer) :
  own_signal A s p -> p ∈ A -> NoDup (ids l) ->
  (forall x, x ∈ l -> exists q, q ∈ A /\ t_id x = pt_wdog (ptimers s q) /\ t_args x = [q]) ->
  (forall q, q ∈ A -> pt_wdog (ptimers s q) = pt_wdog (ptimers s p) -> q = p) ->
  times (signal_of (ptimers s p)) (sent s l) = if decide (pt_wdog (ptimers s p) ∈ ids l) then 1 else 0.
Proof.
  intros Hown Hp Hnd Hl Hinj. induction l as [|x l IH]; [done|]. rewrite fmap_cons in Hnd |- *. apply NoDup_cons in Hnd as [Hx Hnd].
  specialize (IH Hnd ltac:(set_solver)). destruct (Hl x ltac:(set_solver)) as (q & Hq & Hid & Ha).
  change (sent s (x :: l)) with ([signal_of (ptimers s (timer_of x))] ++ sent s l). rewrite times_app, IH. unfold timer_of. rewrite Ha.
  destruct (decide (q = p)) as [->|Hqp].
  - unfold times at 1. rewrite filter_cons_True by done. rewrite Hid in Hx |- *. rewrite decide_False by done. rewrite decide_True by set_solver. done.
  - unfold times at 1. rewrite filter_cons_False by (intros E; by apply Hqp, Hown). simpl. rewrite Hid.
    destruct (decide (pt_wdog (ptimers s p) ∈ ids l)) as [Hin|Hin]; [by rewrite decide_True by set_solver|]. rewrite decide_False; [done|].
    rewrite elem_of_cons. intros [E|?]; [|done]. by apply Hqp, Hinj.
Qed.

Lemma due_iff s t F w : wd_rep 1 s t F -> w ∈ ids (expired (tick_timer <$> t)) <-> time_left w t = 1.
Proof.
  intros Hr. pose proof (sq_nodup _ _ _ (wr_active _ _ _ _ Hr)) as Hnd. pose proof (sorted_tick t (wr_sorted _ _ _ _ Hr)) as Hs. split.
  - intros (z & -> & Hz)%list_elem_of_fmap. pose proof (expired_subseteq _ z Hz) as Hin. pose proof (proj1 (expired_elem z _ Hs Hin) Hz) as Hle.
    apply list_elem_of_fmap in Hin as (x & -> & Hx). simpl in *. rewrite (time_left_elem x t) by done. pose proof (wr_range _ _ _ _ Hr x Hx). lia.
  - intros E. destruct (decide (w ∈ ids t)) as [Hin|Hin]; [|rewrite time_left_none in E by done; lia].
    apply list_elem_of_fmap in Hin as (x & -> & Hx). rewrite (time_left_elem x t) in E by done. apply list_elem_of_fmap. exists (tick_timer x). split; [done|].
    apply (expired_elem (tick_timer x)); [done|apply list_elem_of_fmap; by exists x|simpl; lia].
Qed.

(** The ticks left to timer [d] after a tick *)
Definition next_left (d : posix_timer_s) (l : Z) : Z := if l =? 0 then 0 else if l =? 1 then reload d else l - 1.

Lemma timer_tick_spec fuel A w t F s y :
  wd_rep 1 w t F -> tms_ok fuel A t F s ->
  exists w' t' s' l, timer_tick post fuel (w, (s, y)) = Some (w', (s', y ++ l)) /\ wd_rep 1 w' t' F /\ tms_ok fuel A t' F s' /\ same_timers s s' /\
    forall p, p ∈ A -> let wd := pt_wdog (ptimers s p) in
      time_left wd t' = next_left (ptimers s p) (time_left wd t) /\
      (own_signal A s p -> times (signal_of (ptimers s p)) l = if time_left wd t =? 1 then 1 else 0).
Proof.
  intros Hr H. pose proof (to_length _ _ _ _ _ H) as Hlen.
  destruct (wd_timer_spec (timer_call post fuel) (timeout post) (fun t F x => tms_ok fuel A t F (fst x)) fuel w t F (s, y) Hr H Hlen)
    as (w' & t' & F' & [s' y'] & Hrun & Htick & Hr' & H').
  assert (Hok : tms_ok fuel A (tick_timer <$> t) F s) by apply (ho_tick (timer_call post fuel) (timeout post) (fun t F x => tms_ok fuel A t F (fst x)) t F (s, y) H).
  unfold tick in Htick. destruct (run_due_timers fuel A (length (tick_timer <$> t)) (tick_timer <$> t) F s y Hok (expired_length _)) as (t1 & s1 & Hdue & Hs1 & Hleft).
  rewrite Hdue in Htick. injection Htick as <- <- <- <-. exists w', t1, s1, (sent s (expired (tick_timer <$> t))). split_and!; try done.
  intros p Hp wd. specialize (Hleft p Hp). cbv zeta in Hleft. fold wd in Hleft. pose proof (due_iff w t F wd Hr) as Hdi. split.
  - rewrite Hleft. unfold next_left. rewrite time_left_tick by apply (to_nodup _ _ _ _ _ H).
    destruct (decide (wd ∈ ids (expired (tick_timer <$> t)))) as [Hin|Hin].
    + apply Hdi in Hin. rewrite Hin. done.
    + destruct (decide (wd ∈ ids t)) as [Hw|Hw]; [|by rewrite time_left_none].
      apply list_elem_of_fmap in Hw as (x & E & Hx). rewrite E in *. rewrite (time_left_elem x t) in * by (done || apply (to_nodup _ _ _ _ _ H)).
      pose proof (wr_range _ _ _ _ Hr x Hx). destruct (Z.eqb_spec (t_left x) 0); [lia|]. destruct (Z.eqb_spec (t_left x) 1) as [E1|]; [|done]. by apply Hdi in E1.
  - intros Hown. rewrite (times_sent A s p); try done.
    + fold wd. destruct (decide (wd ∈ ids (expired (tick_timer <$> t)))) as [Hin|Hin]; destruct (Z.eqb_spec (time_left wd t) 1) as [E|E]; try done; exfalso; tauto.
    + apply (NoDup_expired). apply (to_nodup _ _ _ _ _ Hok).
    + intros x Hx%expired_subseteq. destruct (to_active _ _ _ _ _ Hok x Hx) as (q & Hq & E1 & _ & E3). by exists q.
    + intros q Hq E. by apply (to_inj _ _ _ _ _ H).
Qed.

(** * POSIX timers: the operations

    Initialisation, creation, deletion, arming and reading keep [tms_ok] and
    do to the watchdogs what they are meant to. *)

(** ** Pools *)

(** [n] addresses from [a] on, [step] apart *)
Fixpoint pool (n : nat) (a step : Z) : list Z := match n with O => [] | S n => a :: pool n (a + step) step end.

Lemma pool_range n a step x : 0 < step -> x ∈ pool n a step -> a <= x.
Proof. intros Hs. revert a. induction n as [|n IH]; intros a; simpl; [set_solver|]. intros [->|Hx%IH]%elem_of_cons; lia. Qed.

Lemma pool_length n a step : length (pool n a step) = n.
Proof. revert a. induction n as [|n IH]; intros a; simpl; [done|]. by rewrite IH. Qed.

Lemma free_wdogs_spec n a L q l :
  sq_rep L q l -> (forall x, x ∈ l -> x < a) -> 0 < a ->
  exists L' q', free_wdogs n a L q = Some (L', q') /\ sq_rep L' q' (l ++ pool n a SIZEOF_WDOG).
Proof.
  revert a L q l. induction n as [|n IH]; intros a L q l Hq Hl Ha; simpl; [exists L, q; by rewrite app_nil_r|].
  destruct (sq_addlast_spec L q l a Hq) as (L1 & q1 & -> & Hq1 & _); [intros Hin%Hl; lia|lia|]. cbn [mbind option_bind].
  destruct (IH (a + SIZEOF_WDOG) L1 q1 (l ++ [a])) as (L' & q' & -> & Hq'); [done| |unfold SIZEOF_WDOG; lia|].
  { unfold SIZEOF_WDOG. intros x [Hx%Hl| ->%list_elem_of_singleton]%elem_of_app; lia. }
  exists L', q'. by rewrite <- app_assoc in Hq'.
Qed.

(** After [wd_initialize] all watchdogs of the pool are free and none runs. *)
Lemma wd_initialize_spec s a :
  0 < a -> (forall w, WDOG_ISACTIVE (wdogs s w) = false) ->
  exists s', wd_initialize s a = Some s' /\ wd_rep 1 s' [] (pool 32 a SIZEOF_WDOG).
Proof.
  intros Ha Hfl. unfold wd_initialize. change (Z.to_nat CONFIG_PREALLOC_WDOGS) with 32%nat. destruct (free_wdogs_spec 32 a (wlinks s) empty_queue [])
    as (L & q & -> & Hq); [apply sq_rep_empty|set_solver|done|]. cbn [mbind option_bind]. eexists. split; [done|]. constructor; simpl.
  - apply sq_rep_empty.
  - exact Hq.
  - set_solver.
  - done.
  - constructor.
  - set_solver.
  - set_solver.
  - intros w. rewrite Hfl. done.
  - by vm_compute.
Qed.

(** ** The free timers *)

Record free_ok (A FT : list Z) (s : timer_state) : Prop := {
  fo_queue : sq_rep (tlinks s) (g_freetimers s) FT;
  fo_disj p : p ∈ FT -> p ∉ A
}.

Lemma free_timers_spec n a s l :
  sq_rep (tlinks s) (g_freetimers s) l -> (forall x, x ∈ l -> x < a) -> 0 < a ->
  exists s', free_timers n a s = Some s' /\ sq_rep (tlinks s') (g_freetimers s') (l ++ pool n a SIZEOF_TIMER).
Proof.
  revert a s l. induction n as [|n IH]; intros a s l Hq Hl Ha; cbn [free_timers pool]; [exists s; by rewrite app_nil_r|].
  simpl tlinks. simpl g_freetimers. destruct (sq_addlast_spec (tlinks s) (g_freetimers s) l a Hq) as (L1 & q1 & -> & Hq1 & _); [intros Hin%Hl; lia|lia|].
  cbn [mbind option_bind]. match goal with |- context [free_timers n _ ?s1] => destruct (IH (a + SIZEOF_TIMER) s1 (l ++ [a])) as (s' & -> & Hq') end;
    [done| |unfold SIZEOF_TIMER; lia|].
  { unfold SIZEOF_TIMER. intros x [Hx%Hl| ->%list_elem_of_singleton]%elem_of_app; lia. }
  exists s'. by rewrite <- app_assoc in Hq'.
Qed.

Lemma timer_initialize_spec fuel s a F :
  0 < a -> (0 < fuel)%nat -> exists s', timer_initialize s a = Some s' /\ tms_ok fuel [] [] F s' /\ free_ok [] (pool 8 a SIZEOF_TIMER) s'.
Proof.
  intros Ha Hf. unfold timer_initialize. change (Z.to_nat CONFIG_PREALLOC_TIMERS) with 8%nat.
  destruct (free_timers_spec 8 a (set_freetimers empty_queue s) []) as (s' & -> & Hq); [apply sq_rep_empty|set_solver|done|]. cbn [mbind option_bind].
  eexists. split; [done|]. split.
  - constructor; try (simpl; set_solver); [apply sq_rep_empty|constructor].
  - constructor; [exact Hq|set_solver].
Qed.

(** ** Creation *)

(** A timer from the pool, with a watchdog from the pool *)
Lemma timer_create_spec fuel lo w s t A wd F p FT irq wheap theap pid evp :
  wd_rep lo w t (wd :: F) -> tms_ok fuel A t (wd :: F) s -> free_ok A (p :: FT) s ->
  (CONFIG_WDOG_INTRESERVE <? Z.of_nat (length (wd :: F))) || irq = true -> Z.of_nat (length F) <= 65534 -> (length A + 1 < fuel)%nat ->
  exists w' s', timer_create fuel w s irq wheap theap pid CLOCK_REALTIME evp true = Some (w', s', inr p) /\
    wd_rep lo w' t F /\ tms_ok fuel (A ++ [p]) t F s' /\ free_ok (A ++ [p]) FT s' /\ pt_owner (ptimers s' p) = pid /\
    (forall q, q <> p -> ptimers s' q = ptimers s q) /\
    signal_of (ptimers s' p) = (pid, match evp with Some (signo, v) => mk_info (u8 signo) SI_TIMER v | None => mk_info SIGALRM SI_TIMER p end).
Proof.
  intros Hr H Hfree Hres Hmax Hcap. unfold timer_create. simpl. destruct (wd_create_prealloc lo w t wd F irq wheap Hr Hres Hmax) as (w1 & -> & Hr1 & _).
  cbn [mbind option_bind]. pose proof (sq_null _ _ _ (wr_free _ _ _ _ Hr)) as H0. destruct (Z.eqb_spec wd 0) as [->|_]; [set_solver|].
  destruct Hfree as [Hq Hdis]. pose proof (sq_null _ _ _ Hq) as Hp0. assert (Hp : p <> 0) by set_solver. pose proof (sq_nodup _ _ _ Hq) as Hnd.
  apply NoDup_cons in Hnd as [HpF Hnd]. destruct H as [T1 T2 T3 T4 T5 T6 T7 T8]. assert (HpA : p ∉ A) by (apply Hdis; set_solver).
  unfold timer_allocate. destruct (sq_remfirst_spec _ _ _ Hq) as (L1 & q1 & -> & Hq1 & Hsl1). cbn [mbind option_bind].
  destruct (Z.eqb_spec p 0) as [?|_]; [done|]. cbn [negb]. destruct (Z.eqb_spec p 0) as [?|_]; [done|]. simpl tlinks. qrun. simpl tlinks. simpl g_alloctimers.
  set (L2 := mk_links (upd (flink L1) p 0) (blink L1)). assert (Hsl2 : same_links (p :: FT) (tlinks s) L2).
  { intros x Hx. destruct (Hsl1 x Hx) as [<- <-]. unfold L2. split; qpoint. }
  assert (Ha2 : sq_rep L2 (g_alloctimers s) A).
  { apply (sq_rep_frame (p :: FT) (tlinks s)); [done| |done]. intros x Hx Hin. by apply (Hdis x). }
  destruct (sq_addlast_spec L2 (g_alloctimers s) A p Ha2 HpA Hp) as (L3 & q3 & -> & Hq3 & Hsl3). cbn [mbind option_bind].
  destruct (Z.eqb_spec p 0) as [?|_]; [done|]. simpl. rewrite upd_eq. simpl.
  set (d' := match evp with Some _ => _ | None => _ end). destruct d' as [signo value] eqn:Ed. eexists _, _. split; [done|]. split; [done|].
  assert (Hne : forall q, q ∈ A -> q <> p) by (intros q Hqa ->; done). split_and!; simpl.
  - constructor; simpl.
    + done.
    + rewrite length_app. simpl. lia.
    + intros q [Hqa| ->%list_elem_of_singleton]%elem_of_app; [|by rewrite upd_eq]. rewrite !upd_ne by (by apply Hne). by apply T3.
    + intros q [Hqa| ->%list_elem_of_singleton]%elem_of_app.
      * rewrite !upd_ne by (by apply Hne). destruct (T4 q Hqa). set_solver.
      * rewrite upd_eq. simpl. pose proof (sq_nodup _ _ _ (wr_free _ _ _ _ Hr)) as HndF. apply NoDup_cons in HndF as [? _]. split; [set_solver|done].
    + intros q r [Hqa| ->%list_elem_of_singleton]%elem_of_app [Hra| ->%list_elem_of_singleton]%elem_of_app; [| | |done].
      * rewrite !upd_ne by (by apply Hne). by apply T5.
      * rewrite !upd_eq, !(upd_ne _ p) by (by apply Hne). simpl. intros E. destruct (T4 q Hqa) as [_ Hin]. rewrite E in Hin. set_solver.
      * rewrite !upd_eq, !(upd_ne _ p) by (by apply Hne). simpl. intros E. destruct (T4 r Hra) as [_ Hin]. rewrite <- E in Hin. set_solver.
    + intros q [Hqa| ->%list_elem_of_singleton]%elem_of_app; [|rewrite upd_eq; simpl; lia]. rewrite !upd_ne by (by apply Hne). by apply T6.
    + done.
    + intros y Hy. destruct (T8 y Hy) as (q & Hqa & E & Hrest). exists q. split; [set_solver|]. rewrite !upd_ne by (by apply Hne). done.
  - constructor; simpl.
    + apply (sq_rep_frame (p :: A) L2); [done| |].
      * intros x Hx [->|Hin]%elem_of_cons; [done|]. apply (Hdis x); [set_solver|done].
      * apply (sq_rep_frame [p] L1); [|set_solver|done]. intros x Hx. unfold L2. split; qpoint.
    + intros q Hqf [Hqa| ->%list_elem_of_singleton]%elem_of_app; [|done]. apply (Hdis q); [set_solver|done].
  - by rewrite upd_eq.
  - intros q Hqp. by rewrite !upd_ne.
  - rewrite upd_eq. unfold signal_of. simpl. unfold d' in Ed. destruct evp as [[? ?]|]; by injection Ed as <- <-.
Qed.

(** ** Deletion *)

(** The watchdogs that run are those of the timers left. *)
Lemma tms_ok_remove fuel A1 p A2 t F F' s s' :
  tms_ok fuel (A1 ++ p :: A2) t F s -> sq_rep (tlinks s') (g_alloctimers s') (A1 ++ A2) -> ptimers s' = ptimers s ->
  (forall w, w ∈ F' -> w ∈ F \/ w = pt_wdog (ptimers s p)) -> tms_ok fuel (A1 ++ A2) (cancel_timer (pt_wdog (ptimers s p)) t) F' s'.
Proof.
  intros [T1 T2 T3 T4 T5 T6 T7 T8] Hq Hs HF. pose proof (sq_nodup _ _ _ T1) as Hnd. apply NoDup_remove' in Hnd as [_ Hp].
  assert (Hin : forall q, q ∈ A1 ++ A2 -> q ∈ A1 ++ p :: A2) by set_solver. assert (Hpin : p ∈ A1 ++ p :: A2) by set_solver.
  constructor; try rewrite Hs.
  - done.
  - rewrite !length_app in *. simpl in T2. lia.
  - intros q Hqa. by apply T3, Hin.
  - intros q Hqa. destruct (T4 q (Hin q Hqa)) as [Hw HwF]. split; [done|]. intros [?|E]%HF; [done|]. apply Hp. by rewrite <- (T5 q p (Hin q Hqa) Hpin E).
  - intros q r Hqa Hra. by apply T5; apply Hin.
  - intros q Hqa. by apply T6, Hin.
  - by apply cancel_nodup.
  - intros y Hy. unfold cancel_timer in Hy. apply list_elem_of_filter in Hy as [Hyp Hy]. destruct (T8 y Hy) as (q & Hqa & E & Hrest). exists q.
    split; [|done]. assert (q <> p) by (intros ->; done). set_solver.
Qed.

(** The last reference to a timer of the pool goes: its watchdog is cancelled
    and given back, and so is the timer. *)
Lemma timer_delete_spec fuel lo w s t A1 p A2 F FT :
  wd_rep lo w t F -> 0 <= lo -> tms_ok fuel (A1 ++ p :: A2) t F s -> free_ok (A1 ++ p :: A2) FT s ->
  Z.land (pt_flags (ptimers s p)) PT_FLAGS_PREALLOCATED <> 0 -> Z.of_nat (length F) < CONFIG_PREALLOC_WDOGS ->
  let wd := pt_wdog (ptimers s p) in
  let heap := WDOG_ISALLOCED (wdogs w wd) in
  let F' := if heap || WDOG_ISSTATIC (wdogs w wd) then F else F ++ [wd] in
  exists w' s', timer_delete fuel w s p = Some (w', s', inr tt) /\ wd_rep lo w' (cancel_timer wd t) F' /\
    tms_ok fuel (A1 ++ A2) (cancel_timer wd t) F' s' /\ free_ok (A1 ++ A2) (FT ++ [p]) s' /\
    kfreed s' = if heap then kfreed s ++ [wd] else kfreed s.
Proof.
  intros Hr Hlo H [Hfq Hdis] Hfl HF wd heap F'. pose proof (to_queue _ _ _ _ _ H) as Ha. pose proof (sq_null _ _ _ Ha) as H0. pose proof (sq_nodup _ _ _ Ha) as Hnd.
  apply NoDup_remove' in Hnd as [Hnd HpA]. assert (Hpin : p ∈ A1 ++ p :: A2) by set_solver. assert (Hp0 : p <> 0) by (intros ->; done).
  destruct (to_wdog _ _ _ _ _ H p Hpin) as [Hw0 HwF]. pose proof (to_length _ _ _ _ _ H) as Hlen. pose proof (to_cap _ _ _ _ _ H) as Hcap. rewrite length_app in Hcap. simpl in Hcap.
  unfold timer_delete, timer_release. destruct (Z.eqb_spec p 0) as [?|_]; [done|]. rewrite (to_refs _ _ _ _ _ H p Hpin). change (1 <? 1) with false. cbv iota. fold wd.
  destruct (wd_delete_spec lo fuel w t F wd Hr Hlo Hw0 HwF Hlen (fun _ => HF)) as (w' & -> & Hr'). fold heap. fold heap in Hr'. cbn [mbind option_bind].
  set (s1 := if heap then kfree wd s else s). assert (Es : tlinks s1 = tlinks s /\ ptimers s1 = ptimers s /\ g_freetimers s1 = g_freetimers s /\
    g_alloctimers s1 = g_alloctimers s /\ kfreed s1 = if heap then kfreed s ++ [wd] else kfreed s) by (unfold s1; by destruct heap).
  destruct Es as (E1 & E2 & E3 & E4 & E5). unfold timer_free. rewrite E1, E4. destruct (sq_rem_spec fuel (tlinks s) (g_alloctimers s) A1 p A2 Ha ltac:(lia))
    as (L1 & q1 & -> & Hq1 & Hsl1). cbn [mbind option_bind]. simpl ptimers. rewrite E2. destruct (Z.eqb_spec (Z.land (pt_flags (ptimers s p)) PT_FLAGS_PREALLOCATED) 0) as [?|_]; [done|].
  cbn [negb]. simpl tlinks. simpl g_freetimers. rewrite E3. assert (Hf1 : sq_rep L1 (g_freetimers s) FT).
  { apply (sq_rep_frame (A1 ++ p :: A2) (tlinks s)); [done| |done]. intros x Hx Hin. by apply (Hdis x). }
  assert (HpF : p ∉ FT) by (intros Hin; by apply (Hdis p)). destruct (sq_addlast_spec L1 (g_freetimers s) FT p Hf1 HpF Hp0) as (L2 & q2 & -> & Hq2 & Hsl2).
  cbn [mbind option_bind]. eexists _, _. split; [done|]. split; [done|]. split_and!.
  - apply (tms_ok_remove fuel A1 p A2 t F F' s); [done| |done|].
    + simpl. apply (sq_rep_frame (p :: FT) L1); [done| |done]. intros x Hx [->|Hin]%elem_of_cons; [done|]. apply (Hdis x Hin). set_solver.
    + intros x. unfold F'. destruct (heap || WDOG_ISSTATIC (wdogs w wd)); set_solver.
  - constructor; simpl; [done|]. intros x [Hx| ->%list_elem_of_singleton]%elem_of_app; [|done]. intros Hin. apply (Hdis x Hx). set_solver.
  - simpl. exact E5.
Qed.

(** ** Arming and reading *)

(** Changing what a tick does not look at, and the delay, of one timer. *)
Lemma tms_ok_put fuel A t F s p d :
  tms_ok fuel A t F s -> pt_wdog d = pt_wdog (ptimers s p) -> pt_crefs d = pt_crefs (ptimers s p) -> -2147483648 <= pt_delay d <= 2147483647 ->
  tms_ok fuel A t F (put_timer p d s).
Proof.
  intros [T1 T2 T3 T4 T5 T6 T7 T8] Hw Hc Hd. assert (Hwd : forall q, pt_wdog (ptimers (put_timer p d s) q) = pt_wdog (ptimers s q)).
  { intros q. simpl. unfold upd. by destruct (Z.eqb_spec q p) as [->|]. }
  constructor; try done.
  - intros q Hq. simpl. unfold upd. destruct (Z.eqb_spec q p) as [->|]; [rewrite Hc|]; by apply T3.
  - intros q Hq. rewrite Hwd. by apply T4.
  - intros q r Hq Hr. rewrite !Hwd. by apply T5.
  - intros q Hq. simpl. unfold upd. destruct (Z.eqb_spec q p) as [->|]; [done|by apply T6].
  - intros y Hy. destruct (T8 y Hy) as (q & Hq & E & Hrest). exists q. by rewrite Hwd.
Qed.

Lemma tms_ok_start fuel A t F s p d :
  tms_ok fuel A t F s -> p ∈ A -> tms_ok fuel A (start_timer (pt_wdog (ptimers s p)) d TIMER_TIMEOUT [p] t) F s.
Proof.
  intros H Hp. destruct H as [T1 T2 T3 T4 T5 T6 T7 T8]. constructor; try done.
  - unfold start_timer. rewrite insert_ids. constructor; [apply cancel_not_in|]. by apply cancel_nodup.
  - intros y Hy. unfold start_timer in Hy. apply insert_elem in Hy as [->|Hy]; [by exists p|]. unfold cancel_timer in Hy. apply list_elem_of_filter in Hy as [_ Hy]. by apply T8.
Qed.

Lemma time2ticks_range t : -2147483648 <= clock_time2ticks t <= 2147483647.
Proof. apply i32_range. Qed.

(** The interval in ticks: none, if it is zero. *)
Lemma interval_ticks iv :
  valid_ts iv -> (if (0 <? tv_sec iv) || (0 <? tv_nsec iv) then clock_time2ticks iv else 0) = clock_time2ticks iv.
Proof.
  intros [Hs Hn]. destruct (Z.ltb_spec 0 (tv_sec iv)); [done|]. destruct (Z.ltb_spec 0 (tv_nsec iv)); [done|]. simpl.
  destruct iv as [a b]. simpl in *. assert (a = 0) as -> by lia. assert (b = 0) as -> by lia. reflexivity.
Qed.

(** The ticks until the first expiration, as [timer_settime] computes them *)
Definition first_delay {R} (c : clock_s R) (flags : Z) (v : timespec) : option Z :=
  if negb (Z.land flags TIMER_ABSTIME =? 0)
  then match clock_abstime2ticks c CLOCK_REALTIME v with inr d => Some d | inl _ => None end
  else Some (clock_time2ticks v).

Lemma timer_settime_spec {R} fuel w s t A F p (c : clock_s R) flags v iv d0 :
  wd_rep 1 w t F -> tms_ok fuel A t F s -> p ∈ A -> valid_ts iv -> ~ (tv_sec v <= 0 /\ tv_nsec v <= 0) ->
  first_delay c flags v = Some d0 -> d0 <= 2147483647 ->
  let wd := pt_wdog (ptimers s p) in
  let i := clock_time2ticks iv in
  let d := if d0 <=? 0 then i else d0 in
  let t' := if 0 <? d then start_timer wd d TIMER_TIMEOUT [p] t else cancel_timer wd t in
  exists w' s', timer_settime fuel w s c p flags (Some (mk_its v iv)) = Some (w', s', inr OK) /\ wd_rep 1 w' t' F /\ tms_ok fuel A t' F s' /\
    (forall q, pt_wdog (ptimers s' q) = pt_wdog (ptimers s q) /\ signal_of (ptimers s' q) = signal_of (ptimers s q)) /\
    pt_delay (ptimers s' p) = i /\ (0 < d -> pt_last (ptimers s' p) = d).
Proof.
  intros Hr H Hp Hiv Hv Hd0 Hmax wd i d t'. pose proof (to_length _ _ _ _ _ H) as Hlen. pose proof (sq_null _ _ _ (to_queue _ _ _ _ _ H)) as H0.
  assert (Hp0 : p <> 0) by (intros ->; done). destruct (to_wdog _ _ _ _ _ H p Hp) as [Hw0 HwF]. unfold timer_settime. destruct (Z.eqb_spec p 0) as [?|_]; [done|].
  destruct (wd_cancel_spec 1 fuel w t F wd Hr ltac:(lia) Hlen) as (w1 & Hc & Hr1 & _). fold wd. rewrite Hc. cbn [mbind option_bind it_value it_interval].
  assert (E : (tv_sec v <=? 0) && (tv_nsec v <=? 0) = false) by (destruct (Z.leb_spec (tv_sec v) 0), (Z.leb_spec (tv_nsec v) 0); simpl; done || lia).
  rewrite E, interval_ticks by done. fold i. fold (first_delay c flags v). rewrite Hd0. cbn [mbind option_bind]. rewrite !put_timer_eq.
  cbn [pt_delay pt_wdog set_delay set_last]. fold wd. fold d. pose proof (time2ticks_range iv) as Hi. fold i in Hi.
  assert (H1 : tms_ok fuel A t F (put_timer p (set_delay i (ptimers s p)) s)) by (by apply tms_ok_put).
  assert (Hside : forall e, (forall q, pt_wdog (ptimers (put_timer p (set_last e (set_delay i (ptimers s p))) (put_timer p (set_delay i (ptimers s p)) s)) q) = pt_wdog (ptimers s q) /\
      signal_of (ptimers (put_timer p (set_last e (set_delay i (ptimers s p))) (put_timer p (set_delay i (ptimers s p)) s)) q) = signal_of (ptimers s q))).
  { intros e q. simpl. unfold upd. by destruct (Z.eqb_spec q p) as [->|]. }
  unfold t'. destruct (Z.ltb_spec 0 d) as [Hd|Hd].
  - assert (Hdm : 0 <= d <= 2147483647) by (unfold d; destruct (Z.leb_spec d0 0); lia).
    destruct (wd_start_spec 1 fuel w1 (cancel_timer wd t) F wd d TIMER_TIMEOUT [p] Hr1) as (w2 & Hs2 & Hr2); try done; [simpl; lia|pose proof (cancel_length wd t); lia|].
    rewrite Hs2. cbn [mbind option_bind]. unfold start_timer in Hr2. rewrite cancel_idem in Hr2. fold (start_timer wd d TIMER_TIMEOUT [p] t) in Hr2.
    eexists _, _. split; [done|]. split; [done|]. split_and!.
    + match goal with |- tms_ok _ _ _ _ ?s2 => assert (H2 : tms_ok fuel A t F s2) by (apply tms_ok_put; try done; by rewrite put_timer_eq);
        pose proof (tms_ok_start fuel A t F s2 p d H2 Hp) as H3; rewrite (proj1 (Hside d p)) in H3; exact H3 end.
    + apply Hside.
    + by rewrite put_timer_eq.
    + intros _. by rewrite put_timer_eq.
  - eexists _, _. split; [done|]. split; [done|]. split_and!.
    + destruct H1 as [T1 T2 T3 T4 T5 T6 T7 T8]. constructor; try done; [by apply cancel_nodup|]. intros y Hy. unfold cancel_timer in Hy.
      apply list_elem_of_filter in Hy as [_ Hy]. by apply T8.
    + intros q. simpl. unfold upd. by destruct (Z.eqb_spec q p) as [->|].
    + by rewrite put_timer_eq.
    + lia.
Qed.

Lemma timer_gettime_spec fuel w s t A F p :
  wd_rep 1 w t F -> tms_ok fuel A t F s -> p ∈ A ->
  timer_gettime fuel w s p true =
  Some (inr (mk_its (clock_ticks2time (time_left (pt_wdog (ptimers s p)) t)) (clock_ticks2time (pt_last (ptimers s p))))).
Proof.
  intros Hr H Hp. pose proof (sq_null _ _ _ (to_queue _ _ _ _ _ H)) as H0. unfold timer_gettime. destruct (Z.eqb_spec p 0) as [->|_]; [done|]. cbn [orb negb].
  rewrite (wd_gettime_spec 1 fuel w t F) by (done || apply (to_length _ _ _ _ _ H)). done.
Qed.
