(* ===== verification/TimerTheorems.v ===== *)
(** * POSIX timers: theorems

    When the signals of a timer are sent, and what the calls report. *)

From stdpp Require Import base tactics numbers sets list sorting.
From S2P Require Import Prelude Queue QueueProps Sched Wdog WdogProps WdogTick WdogTimers Calendar CalendarTheorems Clock ClockTheorems Timer TimerOps.

(** [n] ticks *)
Fixpoint timer_ticks (fuel n : nat) (a : wd_state * (timer_state * list (Z * siginfo))) : option (wd_state * (timer_state * list (Z * siginfo))) :=
  match n with O => Some a | S n => a ← timer_ticks fuel n a; timer_tick post fuel a end.

(** Signals sent by tick [n] to a timer armed with [d] ticks and an interval of [i] *)
Definition expirations (d i n : Z) : Z := if n <=? d then 0 else if i =? 0 then 1 else 1 + (n - d - 1) / (i + 1).

(** Ticks left to it then *)
Definition left_after (d i n : Z) : Z := if n <=? d then d + 1 - n else if i =? 0 then 0 else i + 1 - (n - d - 1) mod (i + 1).

Lemma left_after_step d i n (dt : posix_timer_s) :
  0 < d -> 0 <= i < 2147483647 -> 0 <= n -> pt_delay dt = i ->
  left_after d i (n + 1) = next_left dt (left_after d i n) /\
  expirations d i (n + 1) = expirations d i n + (if left_after d i n =? 1 then 1 else 0).
Proof.
  intros Hd Hi Hn Hdt. unfold left_after, expirations, next_left, reload. rewrite Hdt. destruct (Z.leb_spec n d) as [H1|H1].
  - destruct (Z.eqb_spec (d + 1 - n) 0); [lia|]. destruct (Z.leb_spec (n + 1) d) as [H2|H2].
    + destruct (Z.eqb_spec (d + 1 - n) 1); lia.
    + assert (n = d) as -> by lia. replace (d + 1 - d) with 1 by lia. simpl. replace (d + 1 - d - 1) with 0 by lia. rewrite Z.mod_0_l, Z.div_0_l by lia.
      destruct (Z.eqb_spec i 0) as [->|]; [done|]. destruct (Z.ltb_spec 0 i); lia.
  - destruct (Z.leb_spec (n + 1) d); [lia|]. destruct (Z.eqb_spec i 0) as [->|Hi0]; [done|]. destruct (Z.ltb_spec 0 i); [|lia].
    set (m := n - d - 1). replace (n + 1 - d - 1) with (m + 1) by (unfold m; lia). assert (Hm : 0 <= m) by (unfold m; lia).
    pose proof (Z.div_mod m (i + 1) ltac:(lia)) as Edm. pose proof (Z.mod_pos_bound m (i + 1) ltac:(lia)) as Hb.
    destruct (Z.eqb_spec (i + 1 - m mod (i + 1)) 0); [lia|]. destruct (Z.eqb_spec (i + 1 - m mod (i + 1)) 1) as [E|E].
    + assert (E1 : (m + 1) / (i + 1) = m / (i + 1) + 1) by (symmetry; apply (Z.div_unique _ _ _ 0); [lia|nia]).
      assert (E2 : (m + 1) mod (i + 1) = 0) by (symmetry; apply (Z.mod_unique _ _ (m / (i + 1) + 1)); [lia|nia]). rewrite E1, E2. lia.
    + assert (E1 : (m + 1) / (i + 1) = m / (i + 1)) by (symmetry; apply (Z.div_unique _ _ _ (m mod (i + 1) + 1)); lia).
      assert (E2 : (m + 1) mod (i + 1) = m mod (i + 1) + 1) by (symmetry; apply (Z.mod_unique _ _ (m / (i + 1))); lia). rewrite E1, E2. lia.
Qed.

Lemma own_signal_same A s s' p :
  (forall q, signal_of (ptimers s' q) = signal_of (ptimers s q)) -> own_signal A s p -> own_signal A s' p.
Proof. intros H Ho q Hq. rewrite !H. by apply Ho. Qed.

Lemma same_signals s s' : same_timers s s' -> forall q, signal_of (ptimers s' q) = signal_of (ptimers s q).
Proof. intros H q. destruct (H q) as (_ & E1 & E2 & _ & _ & E3). unfold signal_of. by rewrite E1, E2, E3. Qed.

(** A timer that runs, tick by tick *)
Lemma timer_ticks_spec fuel A w t F s y p d i n :
  wd_rep 1 w t F -> tms_ok fuel A t F s -> p ∈ A -> own_signal A s p -> 0 < d -> pt_delay (ptimers s p) = i -> 0 <= i < 2147483647 ->
  time_left (pt_wdog (ptimers s p)) t = d + 1 ->
  exists w' t' s' l, timer_ticks fuel n (w, (s, y)) = Some (w', (s', y ++ l)) /\ wd_rep 1 w' t' F /\ tms_ok fuel A t' F s' /\ same_timers s s' /\
    time_left (pt_wdog (ptimers s p)) t' = left_after d i (Z.of_nat n) /\ times (signal_of (ptimers s p)) l = expirations d i (Z.of_nat n).
Proof.
  intros Hr H Hp Hown Hd Hi Hir Hl. induction n as [|n (w1 & t1 & s1 & l1 & Hrun & Hr1 & H1 & Hs1 & Hl1 & Ht1)].
  - exists w, t, s, []. rewrite app_nil_r. split_and!; try done. unfold left_after. destruct (Z.leb_spec (Z.of_nat 0) d); simpl; lia.
    unfold expirations. by destruct (Z.leb_spec (Z.of_nat 0) d); [|lia].
  - cbn [timer_ticks]. rewrite Hrun. cbn [mbind option_bind]. destruct (timer_tick_spec fuel A w1 t1 F s1 (y ++ l1) Hr1 H1) as (w2 & t2 & s2 & l2 & Hrun2 & Hr2 & H2 & Hs2 & Hp2).
    rewrite Hrun2, <- app_assoc. exists w2, t2, s2, (l1 ++ l2). destruct (Hp2 p Hp) as [Hl2 Ht2]. destruct (Hs1 p) as (_ & _ & _ & Ed & Ew & _).
    cbv zeta in Hl2, Ht2. rewrite Ew in Hl2, Ht2. rewrite Hl1 in Hl2, Ht2. rewrite (same_signals s s1 Hs1 p) in Ht2.
    specialize (Ht2 (own_signal_same A s s1 p (same_signals s s1 Hs1) Hown)). rewrite Nat2Z.inj_succ, <- Z.add_1_r.
    destruct (left_after_step d i (Z.of_nat n) (ptimers s1 p) Hd Hir ltac:(lia) ltac:(by rewrite Ed)) as [E1 E2].
    split_and!; try done; [by transitivity s1|by rewrite E1|]. rewrite times_app, Ht1, Ht2, E2. done.
Qed.

Lemma ticks_nonzero v : valid_ts v -> 0 < clock_time2ticks v -> ~ (tv_sec v <= 0 /\ tv_nsec v <= 0).
Proof.
  intros [Hv1 Hv2] Hd [Hz1 Hz2]. destruct v as [a b]. simpl in *. assert (a = 0) as -> by lia. assert (b = 0) as -> by lia. done.
Qed.

(** A system with one timer, just created *)
Definition tms_idle : timer_state :=
  mk_tms (mk_links (fun _ => 0) (fun _ => 0)) (fun _ => mk_pt 0 0 0 0 0 0 0 0) empty_queue empty_queue [].

Lemma one_timer : exists w s F p, wd_rep 1 w [] F /\ tms_ok 4 [p] [] F s /\ own_signal [p] s p.
Proof.
  destruct (wd_initialize_spec (mk_wd (mk_links (fun _ => 0) (fun _ => 0)) (fun _ => mk_wdog 0 0 0 0 []) empty_queue empty_queue 0) 4096) as (w & _ & Hr); [lia|done|].
  destruct (timer_initialize_spec 4 tms_idle 8192 (pool 32 4096 SIZEOF_WDOG)) as (s & _ & H & Hf); [lia|lia|].
  destruct (timer_create_spec 4 1 w s [] [] 4096 (pool 31 (4096 + SIZEOF_WDOG) SIZEOF_WDOG) 8192 (pool 7 (8192 + SIZEOF_TIMER) SIZEOF_TIMER) false 0 0 9 None)
    as (w' & s' & _ & Hr' & H' & _); [exact Hr|exact H|exact Hf|reflexivity|rewrite pool_length; lia|simpl; lia|].
  exists w', s', (pool 31 (4096 + SIZEOF_WDOG) SIZEOF_WDOG), 8192. split; [done|]. split; [done|]. intros q Hq _. by apply list_elem_of_singleton.
Qed.

(** C7: a timer armed for [d] ticks with an interval of [i] ticks, among any
    other timers, sends its signal with tick [d] + 1, and if [i] is not 0
    again after every [i] + 1 ticks: each period is one tick longer than the
    interval that was asked for.  No tick fails an assertion. *)
Theorem timer_signals_on_schedule {R} fuel A w t F s (c : clock_s R) p v iv y n :
  wd_rep 1 w t F -> tms_ok fuel A t F s -> p ∈ A -> own_signal A s p -> valid_ts v -> valid_ts iv ->
  0 < clock_time2ticks v < 2147483647 -> 0 <= clock_time2ticks iv < 2147483647 ->
  exists w1 s1 w2 s2 l, timer_settime fuel w s c p 0 (Some (mk_its v iv)) = Some (w1, s1, inr OK) /\
    timer_ticks fuel n (w1, (s1, y)) = Some (w2, (s2, y ++ l)) /\
    times (signal_of (ptimers s p)) l = expirations (clock_time2ticks v) (clock_time2ticks iv) (Z.of_nat n).
Proof.
  intros Hr H Hp Hown Hv Hiv Hd Hi. pose proof (ticks_nonzero v Hv (proj1 Hd)) as Hnz.
  destruct (timer_settime_spec fuel w s t A F p c 0 v iv (clock_time2ticks v) Hr H Hp Hiv Hnz eq_refl ltac:(lia)) as (w1 & s1 & Hset & Hr1 & H1 & Hsame & Hdel & _).
  cbv zeta in *. destruct (Z.leb_spec (clock_time2ticks v) 0) as [?|_]; [lia|]. destruct (Z.ltb_spec 0 (clock_time2ticks v)) as [_|?]; [|lia].
  assert (Hl : time_left (pt_wdog (ptimers s1 p)) (start_timer (pt_wdog (ptimers s p)) (clock_time2ticks v) TIMER_TIMEOUT [p] t) = clock_time2ticks v + 1).
  { destruct (Hsame p) as [-> _]. unfold start_timer. set (x := mk_timer _ _ _ _). rewrite (time_left_insert_same x); [simpl; lia|apply cancel_not_in]. }
  destruct (timer_ticks_spec fuel A w1 _ F s1 y p (clock_time2ticks v) (clock_time2ticks iv) n Hr1 H1 Hp) as (w2 & t2 & s2 & l & Hrun & _ & _ & _ & _ & Ht);
    try done; [|lia|].
  { apply (own_signal_same A s); [|done]. intros q. apply Hsame. }
  exists w1, s1, w2, s2, l. destruct (Hsame p) as [_ <-]. done.
Qed.

Lemma timer_signals_on_schedule_witness :
  exists w s p w1 s1 w2 s2 l, timer_settime 4 w s (mk_clock 0 (mk_ts 0 0) tt) p 0 (Some (mk_its (mk_ts 1 0) (mk_ts 0 500000000))) = Some (w1, s1, inr OK) /\
    timer_ticks 4 300 (w1, (s1, [])) = Some (w2, (s2, [] ++ l)) /\ times (signal_of (ptimers s p)) l = 4.
Proof.
  destruct one_timer as (w & s & F & p & Hr & H & Ho).
  destruct (timer_signals_on_schedule 4 [p] w [] F s (mk_clock 0 (mk_ts 0 0) tt) p (mk_ts 1 0) (mk_ts 0 500000000) [] 300) as (w1 & s1 & w2 & s2 & l & H1 & H2 & H3).
  - exact Hr.
  - exact H.
  - constructor.
  - exact Ho.
  - unfold valid_ts, NSEC_PER_SEC. simpl. lia.
  - unfold valid_ts, NSEC_PER_SEC. simpl. lia.
  - change (clock_time2ticks (mk_ts 1 0)) with 100. lia.
  - change (clock_time2ticks (mk_ts 0 500000000)) with 50. lia.
  - exists w, s, p, w1, s1, w2, s2, l. split; [exact H1|]. split; [exact H2|]. rewrite H3. reflexivity.
Defined.

(** [timer_gettime] right after a relative arming reports one tick more
    than was asked for, and as the interval the delay of the first expiration
    in place of the reload value: a one-shot timer looks periodic. *)
Theorem timer_gettime_after_settime {R} fuel A w t F s (c : clock_s R) p v iv :
  wd_rep 1 w t F -> tms_ok fuel A t F s -> p ∈ A -> valid_ts v -> valid_ts iv -> 0 < clock_time2ticks v < 2147483647 ->
  exists w1 s1, timer_settime fuel w s c p 0 (Some (mk_its v iv)) = Some (w1, s1, inr OK) /\ pt_delay (ptimers s1 p) = clock_time2ticks iv /\
    timer_gettime fuel w1 s1 p true = Some (inr (mk_its (clock_ticks2time (clock_time2ticks v + 1)) (clock_ticks2time (clock_time2ticks v)))).
Proof.
  intros Hr H Hp Hv Hiv Hd. pose proof (ticks_nonzero v Hv (proj1 Hd)) as Hnz.
  destruct (timer_settime_spec fuel w s t A F p c 0 v iv (clock_time2ticks v) Hr H Hp Hiv Hnz eq_refl ltac:(lia)) as (w1 & s1 & Hset & Hr1 & H1 & Hsame & Hdel & Hlast).
  cbv zeta in *. destruct (Z.leb_spec (clock_time2ticks v) 0) as [?|_]; [lia|]. destruct (Z.ltb_spec 0 (clock_time2ticks v)) as [_|?]; [|lia].
  exists w1, s1. split; [done|]. split; [done|]. rewrite (timer_gettime_spec fuel w1 s1 _ A F p Hr1 H1 Hp), Hlast by lia. destruct (Hsame p) as [-> _].
  do 3 f_equal. f_equal. unfold start_timer. set (x := mk_timer _ _ _ _). rewrite (time_left_insert_same x); [simpl; lia|apply cancel_not_in].
Qed.

Lemma timer_gettime_after_settime_witness :
  exists w s p w1 s1, timer_settime 4 w s (mk_clock 0 (mk_ts 0 0) tt) p 0 (Some (mk_its (mk_ts 5 0) (mk_ts 0 0))) = Some (w1, s1, inr OK) /\
    pt_delay (ptimers s1 p) = 0 /\ timer_gettime 4 w1 s1 p true = Some (inr (mk_its (mk_ts 5 10000000) (mk_ts 5 0))).
Proof.
  destruct one_timer as (w & s & F & p & Hr & H & _).
  destruct (timer_gettime_after_settime 4 [p] w [] F s (mk_clock 0 (mk_ts 0 0) tt) p (mk_ts 5 0) (mk_ts 0 0)) as (w1 & s1 & H1 & H2 & H3).
  - exact Hr.
  - exact H.
  - constructor.
  - unfold valid_ts, NSEC_PER_SEC. simpl. lia.
  - unfold valid_ts, NSEC_PER_SEC. simpl. lia.
  - change (clock_time2ticks (mk_ts 5 0)) with 500. lia.
  - exists w, s, p, w1, s1. split; [exact H1|]. split; [exact H2|exact H3].
Defined.

(** An absolute time that has passed: no signal is sent and a timer without an
    interval is not armed. *)
Theorem abstime_passed_not_armed {R} fuel A w t F s (c : clock_s R) p v :
  wd_rep 1 w t F -> tms_ok fuel A t F s -> p ∈ A -> clock_ok c -> valid_ts v -> 0 < nsecs v < now c ->
  exists w1 s1, timer_settime fuel w s c p TIMER_ABSTIME (Some (mk_its v (mk_ts 0 0))) = Some (w1, s1, inr OK) /\
    wd_rep 1 w1 (cancel_timer (pt_wdog (ptimers s p)) t) F.
Proof.
  intros Hr H Hp Hc Hv Hn. assert (Hnz : ~ (tv_sec v <= 0 /\ tv_nsec v <= 0)).
  { intros [Hz1 Hz2]. destruct v as [a b], Hv as [Hv1 Hv2]. unfold nsecs in Hn. simpl in *. clk. lia. }
  assert (Hfd : first_delay c TIMER_ABSTIME v = Some (-1)).
  { unfold first_delay. change (negb (Z.land TIMER_ABSTIME TIMER_ABSTIME =? 0)) with true. cbv iota. rewrite abstime2ticks_spec by done.
    by destruct (Z.ltb_spec (nsecs v) (now c)); [|lia]. }
  destruct (timer_settime_spec fuel w s t A F p c TIMER_ABSTIME v (mk_ts 0 0) (-1) Hr H Hp ltac:(unfold valid_ts; simpl; clk; lia) Hnz Hfd ltac:(lia))
    as (w1 & s1 & Hset & Hr1 & _). by exists w1, s1.
Qed.
