(* ===== verification/SemTimed.v ===== *)
(** * Timed waits (os/kernel/semaphore/sem_timedwait.c)

    A timed wait composes the semaphores, the watchdogs and the clock: a
    watchdog that carries the pid of the task ends the wait when the time has
    come.  As in [SemSystem] a call is split where it gives up the processor,
    so that the timer interrupt and other tasks run in between.  Interrupts
    are off in the pieces of the call. *)

From stdpp Require Import base tactics numbers list.
From S2P Require Import Prelude Queue Sched Sem SemSystem Wdog Calendar Clock.

(** The address of [sem_timeout] *)
Definition SEM_TIMEOUT : Z := 2.

Definition ENOMEM : Z := 12.

Definition sched_gettcb (k : kernel) (pid : Z) : Z :=
  if 0 <=? pid then
    let entry := g_pidhash k (PIDHASH pid) in
    if pid =? entry.1 then entry.2 else 0
  else 0.

Definition getpid (k : kernel) : Z :=
  let rtcb := rtr_head k in if negb (rtcb =? 0) then pid (tcbs k rtcb) else 0.

(** [pid] is a [uint32_t], [pid_t] has 16 bits. *)
Definition sem_timeout (s : sem_state) (pid : Z) : option sem_state :=
  let wtcb := sched_gettcb (kn s) (i16 pid) in
  if wtcb =? 0 then Some s
  else
    w ← get_tcb (kn s) wtcb;
    if bool_decide (task_state w = TSTATE_WAIT_SEM) then sem_waitirq s wtcb ETIMEDOUT else Some s.

(** What a watchdog calls. *)
Definition wd_call (f : Z) (args : list Z) (a : wd_state * sem_state) : option (wd_state * sem_state) :=
  let '(wd, s) := a in
  if f =? SEM_TIMEOUT then match args with [pid] => s ← sem_timeout s pid; Some (wd, s) | _ => None end else None.

(** Where a task is inside [sem_timedwait]: in [sem_wait], or switched away
    when [sem_wait] was about to return. *)
Inductive timed_pc :=
  | NoTimed
  | InWait
  | AfterWait.

#[export] Instance timed_pc_eq_dec : EqDecision timed_pc.
Proof. solve_decision. Defined.

(** The iterations of the watchdog loops: one more than there are tasks, each
    of which waits with one watchdog. *)
Definition wd_fuel : nat := 17.

Section timed.
Context {R : Type}.

(** [waitdog] is the field of that name of the tasks. *)
Record timed_state := mk_timed { ts : sem_state; wds : wd_state; waitdog : Z -> Z; clk : clock_s R }.

Definition set_ts (s : sem_state) (w : timed_state) : timed_state := mk_timed s (wds w) (waitdog w) (clk w).
Definition set_wds (d : wd_state) (w : timed_state) : timed_state := mk_timed (ts w) d (waitdog w) (clk w).
Definition set_waitdog (x v : Z) (w : timed_state) : timed_state := mk_timed (ts w) (wds w) (upd (waitdog w) x v) (clk w).
Definition set_clk (c : clock_s R) (w : timed_state) : timed_state := mk_timed (ts w) (wds w) (waitdog w) c.

(** [wd_delete(rtcb->waitdog); rtcb->waitdog = NULL] *)
Definition drop_waitdog (w : timed_state) (rtcb : Z) : option timed_state :=
  '(d, _) ← wd_delete wd_fuel (wds w) (waitdog w rtcb);
  Some (set_waitdog rtcb 0 (set_wds d w)).

Definition errout (w : timed_state) (err : Z) : timed_state * outcome := (set_ts (with_errno (ts w) err) w, Returned ERROR).

Definition errout_disabled (w : timed_state) (rtcb err : Z) : option (timed_state * outcome) :=
  w ← drop_waitdog w rtcb; Some (errout w err).

(** After [sem_wait] has returned. *)
Definition sem_timedwait_finish (w : timed_state) (rtcb : Z) : option timed_state :=
  '(d, _) ← wd_cancel wd_fuel (wds w) (waitdog w rtcb);
  drop_waitdog (set_wds d w) rtcb.

(** From the critical section on. *)
Definition sem_timedwait_locked (w : timed_state) (rtcb sem : Z) (abstime : timespec) : option (timed_state * outcome) :=
  '(s, ret) ← sem_trywait (ts w) sem;
  let w := set_ts s w in
  if ret =? OK then w ← drop_waitdog w rtcb; Some (w, Returned OK)
  else if (tv_nsec abstime <? 0) || (1000000000 <=? tv_nsec abstime) then errout_disabled w rtcb EINVAL
  else
    match clock_abstime2ticks (clk w) CLOCK_REALTIME abstime with
    | inl err => errout_disabled w rtcb err
    | inr ticks =>
        if ticks <=? 0 then errout_disabled w rtcb ETIMEDOUT
        else
          '(d, _) ← wd_start wd_fuel (wds w) (waitdog w rtcb) ticks SEM_TIMEOUT [u32 (getpid (kn (ts w)))];
          '(s, o) ← sem_wait (ts w) sem;
          let w := set_ts s (set_wds d w) in
          match o with
          | Returned ret => w ← sem_timedwait_finish w rtcb; Some (w, Returned ret)
          | Switched => Some (w, Switched)
          end
    end.

(** A null [abstime] is [None]; [heap] is what [kmm_malloc] returns. *)
Definition sem_timedwait (w : timed_state) (sem : Z) (abstime : option timespec) (heap : Z) : option (timed_state * outcome) :=
  let rtcb := rtr_head (kn (ts w)) in
  _ ← assert (negb (in_irq (kn (ts w))) && (waitdog w rtcb =? 0));
  match abstime with
  | None => Some (errout w EINVAL)
  | Some abstime =>
      if sem =? 0 then Some (errout w EINVAL)
      else
        '(d, dog) ← wd_create (wds w) (in_irq (kn (ts w))) heap;
        let w := set_waitdog rtcb dog (set_wds d w) in
        if dog =? 0 then Some (errout w ENOMEM) else sem_timedwait_locked w rtcb sem abstime
  end.

(** The timer interrupt *)
Definition sched_process_timer (w : timed_state) : option timed_state :=
  let w := set_clk (clock_timer (clk w)) w in
  '(d, s) ← wd_timer wd_call wd_fuel (wds w) (ts w);
  k ← sched_process_timeslice (kn s);
  Some (set_wds d (set_ts (set_kn k s) w)).

(** ** Interleaving *)

Record world := mk_world { wt : timed_state; wpcs : Z -> pc; wtimed : Z -> timed_pc }.

Definition to_sys (w : world) : sys := mk_sys (ts (wt w)) (wpcs w).
Definition put_sys (s : sys) (w : world) : world := mk_world (set_ts (ss s) (wt w)) (pcs s) (wtimed w).

Inductive timed_event :=
  | TeSem (e : sem_event)
  | TeTimed (sem : Z) (abstime : option timespec) (heap : Z)
  | TeResume
  | TeTick.

Definition timed_exec (w : world) (e : timed_event) : option (world * finished) :=
  let me := cpu (kn (ts (wt w))) in
  match e with
  | TeSem e => '(s, f) ← sem_exec (to_sys w) e; Some (put_sys s w, f)
  | TeTimed sem abstime heap =>
      '(t, o) ← sem_timedwait (wt w) sem abstime heap;
      Some (match o with
            | Returned ret => (mk_world t (wpcs w) (wtimed w), Some (sem, ret))
            | Switched => (mk_world t (upd (wpcs w) me (PcWait sem false)) (upd (wtimed w) me InWait), None)
            end)
  | TeResume =>
      match wtimed w me with
      | NoTimed => '(s, f) ← sem_exec (to_sys w) EvResume; Some (put_sys s w, f)
      | InWait =>
          '(s, f) ← sem_exec (to_sys w) EvResume;
          let w := put_sys s w in
          if cpu (kn (ss s)) =? me then
            t ← sem_timedwait_finish (wt w) me;
            Some (mk_world t (wpcs w) (upd (wtimed w) me NoTimed), f)
          else Some (mk_world (wt w) (wpcs w) (upd (wtimed w) me AfterWait), f)
      | AfterWait =>
          t ← sem_timedwait_finish (wt w) me;
          Some (mk_world t (wpcs w) (upd (wtimed w) me NoTimed), None)
      end
  | TeTick =>
      let irq b t := set_ts (set_kn (set_in_irq b (kn (ts t))) (ts t)) t in
      t ← sched_process_timer (irq true (wt w));
      Some (mk_world (irq false t) (wpcs w) (wtimed w), None)
  end.
End timed.

Arguments timed_state : clear implicits.
Arguments world : clear implicits.
Arguments mk_timed {R} _ _ _ _.
Arguments mk_world {R} _ _ _.
