(* ===== verification/SemTimedSteps.v ===== *)
(** * Timed waits: the watchdogs of waiting tasks

    The invariant that ties the watchdogs to the tasks that wait with them,
    and what creating, starting and dropping such a watchdog does to it. *)

From stdpp Require Import base tactics numbers sets list sorting.
From S2P Require Import Prelude Queue QueueProps Sched Sem SemPrio SemSystem SemIds Wdog WdogProps WdogTick WdogTimers Calendar Clock.
From S2P Require Import SemTimed SchedProps SchedOps SchedKernel SchedPriority SchedTheorems SemHolder SemOps SemCalls SemSteps.

Section dogs.
Context (T : list Z) (idle : Z) (N : Z -> Z) (Pool : list Z).
Abbreviation user := (user T idle).

(** The tasks have the pids [N], and the hash table finds them. *)
Definition pids_ok (k : kernel) : Prop :=
  forall x, user x -> pid (tcbs k x) = N x /\ 0 <= N x <= 32767 /\ g_pidhash k (PIDHASH (N x)) = (N x, x).

Lemma pids_ok_same k k' : same_ids k k' -> pids_ok k -> pids_ok k'.
Proof. intros [Hp Hh] H x Hx. rewrite Hp, Hh. by apply H. Qed.

Lemma gettcb_pid k x : pids_ok k -> user x -> sched_gettcb k (i16 (N x)) = x.
Proof.
  intros H Hx. destruct (H x Hx) as (_ & Hr & Hh). unfold sched_gettcb. rewrite i16_small by lia. rewrite Hh.
  destruct (Z.leb_spec 0 (N x)); [|lia]. simpl. by rewrite Z.eqb_refl.
Qed.

(** A watchdog of the pool, or of the heap. *)
Definition kind_ok (d : wdog_s) (w : Z) : Prop := WDOG_ISALLOCED d = negb (bool_decide (w ∈ Pool)) /\ WDOG_ISSTATIC d = false.

(** The tasks inside a timed wait have a watchdog each. *)
Record dogs_ok (D : Z -> Z) (TP : Z -> timed_pc) (d : wd_state) (F : list Z) : Prop := {
  dk_none x : x ∈ T -> (D x = 0 <-> TP x = NoTimed);
  dk_inj x y : x ∈ T -> y ∈ T -> D x <> 0 -> D x = D y -> x = y;
  dk_used x : x ∈ T -> D x <> 0 -> (D x ∉ F) /\ kind_ok (wdogs d (D x)) (D x);
  dk_pool : (F ⊆ Pool)
}.

(** The timers that run are those watchdogs.  A task that waits has its timer,
    and one that was timed out does not. *)
Record timers_ok (W E D : Z -> Z) (TP : Z -> timed_pc) (t : list timer) : Prop := {
  tk_timer y : y ∈ t -> exists x, user x /\ t_id y = D x /\ t_func y = SEM_TIMEOUT /\ t_args y = [N x];
  tk_waits x : x ∈ T -> TP x = InWait -> W x <> 0 -> D x ∈ ids t;
  tk_errno x : x ∈ T -> TP x = InWait -> E x = ETIMEDOUT -> D x ∉ ids t
}.

Lemma timers_ext W E W' E' D TP t :
  timers_ok W E D TP t -> (forall x, x ∈ T -> TP x = InWait -> (W' x <> 0 -> W x <> 0) /\ (E' x = ETIMEDOUT -> E x = ETIMEDOUT)) ->
  timers_ok W' E' D TP t.
Proof.
  intros [H1 H2 H3] H. constructor; [done|..]; intros x Hx HT Hw; destruct (H x Hx HT) as [Ha Hb]; auto.
Qed.

Lemma timers_length W E D TP t s F : wd_rep 1 s t F -> timers_ok W E D TP t -> (length T <= 16)%nat -> (length t < wd_fuel)%nat.
Proof.
  intros Hr Ht Hl. pose proof (sq_nodup _ _ _ (wr_active _ _ _ _ Hr)) as Hn. rewrite <- (length_fmap t_id t).
  assert (Hsub : ids t ⊆ D <$> T).
  { intros w (y & -> & Hy)%list_elem_of_fmap. destruct (tk_timer _ _ _ _ _ Ht y Hy) as (x & [Hx _] & -> & _). apply list_elem_of_fmap. by exists x. }
  pose proof (submseteq_length _ _ (NoDup_submseteq _ _ Hn Hsub)) as H. rewrite !length_fmap in *. unfold wd_fuel. lia.
Qed.

Lemma kind_ok_same d d' w : same_kind d d' -> kind_ok d w -> kind_ok d' w.
Proof. intros [H1 H2] [H3 H4]. by split; [rewrite H1|rewrite H2]. Qed.

Lemma dogs_kinds D TP d d' F : dogs_ok D TP d F -> same_kinds d d' -> dogs_ok D TP d' F.
Proof.
  intros [H1 H2 H3 H4] Hk. constructor; try done. intros x Hx H0. destruct (H3 x Hx H0) as [Ha Hb]. split; [done|]. by apply (kind_ok_same (wdogs d (D x))).
Qed.

(** ** A new watchdog *)

Lemma dogs_new D TP d d' F F' x w :
  dogs_ok D TP d F -> x ∈ T -> w <> 0 -> (forall y, y ∈ T -> D y <> w) -> w ∉ F' -> F' ⊆ F ->
  kind_ok (wdogs d' w) w -> (forall y, y <> w -> same_kind (wdogs d y) (wdogs d' y)) ->
  dogs_ok (upd D x w) (upd TP x AfterWait) d' F'.
Proof.
  clear N. intros [H1 H2 H3 H4] Hx Hw Hnew HwF HF Hk Hks. constructor.
  - intros y Hy. unfold upd. destruct (Z.eqb_spec y x) as [->|]; [done|by apply H1].
  - intros y z Hy Hz. unfold upd. destruct (Z.eqb_spec y x) as [->|], (Z.eqb_spec z x) as [->|]; try done.
    + intros _ E. by destruct (Hnew z Hz).
    + intros _ E. by destruct (Hnew y Hy).
    + by apply H2.
  - intros y Hy. unfold upd. destruct (Z.eqb_spec y x) as [->|]; [done|]. intros H0. destruct (H3 y Hy H0) as [Ha Hb].
    split; [set_solver|]. by apply (kind_ok_same (wdogs d (D y))), Hb; apply Hks, Hnew.
  - set_solver.
Qed.

Lemma timers_new W E D TP t x w v :
  timers_ok W E D TP t -> D x ∉ ids t -> v <> InWait -> timers_ok W E (upd D x w) (upd TP x v) t.
Proof.
  intros [H1 H2 H3] Hx Hv. constructor.
  - intros y Hy. destruct (H1 y Hy) as (z & Hz & Hid & Hr). exists z. split; [done|]. rewrite upd_ne; [done|]. intros ->. apply Hx. rewrite <- Hid. by apply ids_elem.
  - intros y Hy. unfold upd. destruct (Z.eqb_spec y x) as [->|]; [done|by apply H2].
  - intros y Hy. unfold upd. destruct (Z.eqb_spec y x) as [->|]; [done|by apply H3].
Qed.

(** ** The watchdog is started, and the task waits. *)

Lemma timers_start W E D TP t x d W' E' :
  timers_ok W E D TP t -> user x -> (forall y, y ∈ T -> D y = D x -> y = x) ->
  (forall y, y <> x -> W' y = W y /\ E' y = E y) -> E' x <> ETIMEDOUT ->
  timers_ok W' E' D (upd TP x InWait) (start_timer (D x) d SEM_TIMEOUT [N x] t).
Proof.
  intros [H1 H2 H3] [Hx Hxi] Hinj Hother HE. assert (Hids : forall y, y ∈ T -> y <> x -> D y ∈ ids (start_timer (D x) d SEM_TIMEOUT [N x] t) <-> D y ∈ ids t).
  { intros y Hy Hne. assert (HD : D y <> D x) by (intros E0; apply Hne; by apply Hinj). split.
    - intros (z & Hid & Hz)%list_elem_of_fmap. apply start_elem in Hz as [->|[Hz _]]; [done|]. rewrite Hid. by apply ids_elem.
    - intros (z & Hid & Hz)%list_elem_of_fmap. rewrite Hid. apply ids_elem, insert_elem. right. apply list_elem_of_filter. split; [congruence|done]. }
  constructor.
  - intros y [->|[Hy _]]%start_elem; [|by apply H1]. exists x. by split.
  - intros y Hy. unfold upd. destruct (Z.eqb_spec y x) as [->|Hne].
    + intros _ _. apply list_elem_of_fmap. eexists. split; [|apply insert_elem; by left]. done.
    + intros HT HW. apply Hids; [done|done|]. apply H2; [done|done|]. by destruct (Hother y Hne) as [<- _].
  - intros y Hy. unfold upd. destruct (Z.eqb_spec y x) as [->|Hne]; [done|].
    intros HT HEy. rewrite Hids by done. apply H3; [done|done|]. by destruct (Hother y Hne) as [_ <-].
Qed.

(** ** The watchdog is dropped. *)

Lemma dogs_drop D TP d d' F x :
  dogs_ok D TP d F -> x ∈ T -> D x <> 0 -> same_kinds d d' ->
  dogs_ok (upd D x 0) (upd TP x NoTimed) d' (if WDOG_ISALLOCED (wdogs d (D x)) || WDOG_ISSTATIC (wdogs d (D x)) then F else F ++ [D x]).
Proof.
  clear N. intros Hd Hx Hx0 Hk. pose proof (dogs_kinds _ _ _ _ _ Hd Hk) as [H1 H2 H3 H4]. destruct (dk_used _ _ _ _ Hd x Hx Hx0) as [_ [HA HS]].
  rewrite HA, HS, orb_false_r. constructor.
  - intros y Hy. unfold upd. destruct (Z.eqb_spec y x) as [->|]; [done|by apply H1].
  - intros y z Hy Hz. unfold upd. destruct (Z.eqb_spec y x) as [->|], (Z.eqb_spec z x) as [->|]; try done.
    by apply H2.
  - intros y Hy. unfold upd. destruct (Z.eqb_spec y x) as [->|Hne]; [done|]. intros Hy0. destruct (H3 y Hy Hy0) as [Ha Hb]. split; [|done].
    destruct (negb _); [done|]. intros [?|E0%list_elem_of_singleton]%elem_of_app; [done|]. apply Hne. by apply H2.
  - destruct (bool_decide_reflect (D x ∈ Pool)) as [Hin|]; [|done]. cbn [negb]. set_solver.
Qed.

Lemma timers_drop W E D TP t x v :
  timers_ok W E D TP t -> x ∈ T -> D x <> 0 -> (forall y, y ∈ T -> D y = D x -> y = x) -> v <> InWait ->
  timers_ok W E (upd D x 0) (upd TP x v) (cancel_timer (D x) t).
Proof.
  intros [H1 H2 H3] Hx Hx0 Hinj Hv. assert (Hids : forall y, y ∈ T -> y <> x -> D y ∈ ids (cancel_timer (D x) t) <-> D y ∈ ids t).
  { intros y Hy Hne. assert (HD : D y <> D x) by (intros E0; apply Hne; by apply Hinj). split.
    - intros (z & Hid & [_ Hz]%list_elem_of_filter)%list_elem_of_fmap. rewrite Hid. by apply ids_elem.
    - intros (z & Hid & Hz)%list_elem_of_fmap. rewrite Hid. apply ids_elem. apply list_elem_of_filter. split; [congruence|done]. }
  constructor.
  - intros y [Hne Hy]%list_elem_of_filter. destruct (H1 y Hy) as (z & Hz & Hid & Hr). exists z. split; [done|]. rewrite upd_ne; [done|]. by intros ->.
  - intros y Hy. unfold upd. destruct (Z.eqb_spec y x) as [->|Hne]; [done|]. intros HT HW. apply Hids; [done|done|]. by apply H2.
  - intros y Hy. unfold upd. destruct (Z.eqb_spec y x) as [->|Hne]; [done|]. intros HT HE. rewrite Hids by done. by apply H3.
Qed.
End dogs.

(** * Timed waits: every event keeps the invariant

    The semaphores, the watchdogs and the clock together: each event of
    [SemTimed], where its callers do their duties, returns, keeps the
    invariants of the parts and of their composition, keeps the books of the
    semaphores, and takes one tick from the time left to a task in a timed
    wait if it is a tick and nothing otherwise. *)

(** Events of interrupt handlers. *)
Definition irq_event (e : sem_event) : bool :=
  match e with EvIrqPost _ | EvIrqPostIsr _ | EvIrqTimeout _ _ | EvIrqTick => true | _ => false end.

(** Only the running task moves on. *)
Lemma sem_exec_pcs s e s' f y :
  sem_exec s e = Some (s', f) -> y <> cpu (kn (ss s)) \/ irq_event e = true -> pcs s' y = pcs s y.
Proof.
  intros H Hy. assert (Hu : forall q, irq_event e = false -> upd (pcs s) (cpu (kn (ss s))) q y = pcs s y).
  { intros q He. rewrite upd_ne; [done|]. by destruct Hy as [?|Hy]; [|congruence]. }
  destruct e; cbn [sem_exec] in H; unfold after_wait in H; ids_open; simplify_eq; try done; try (case_match; simplify_eq; simpl; try done; by apply Hu).
  all: simpl; by apply Hu.
Qed.

Lemma resume_pcs s s' f : sem_exec s EvResume = Some (s', f) -> pcs s' (cpu (kn (ss s))) = PcUser.
Proof. intros H. cbn [sem_exec] in H. ids_open; simplify_eq; simpl; by rewrite upd_eq. Qed.

Section steps.
Context {R : Type} (T : list Z) (idle : Z) (P : list Z) (B : Z -> Z) (HT : NoDup T) (N : Z -> Z) (Pool : list Z).
Context (HPool : Z.of_nat (length Pool) <= CONFIG_PREALLOC_WDOGS).
Abbreviation user := (user T idle).
Abbreviation sem_inv := (sem_inv T idle P B).
Abbreviation dogs_ok := (dogs_ok T Pool).
Abbreviation timers_ok := (timers_ok T idle N).
Abbreviation pids_ok := (pids_ok T idle N).
Abbreviation world := (world R).
Abbreviation timed_state := (timed_state R).

Definition timed_pc_ok (q : timed_pc) (p : pc) : Prop :=
  match q with NoTimed => True | InWait => exists sem, p = PcWait sem false | AfterWait => p = PcUser end.

Record timed_inv (w : world) (A : tasks) (G : hlists) (t : list timer) (F : list Z) : Prop := {
  ti_sem : sem_inv (to_sys w) A G;
  ti_wd : wd_rep 1 (wds (wt w)) t F;
  ti_dogs : dogs_ok (waitdog (wt w)) (wtimed w) (wds (wt w)) F;
  ti_timers : timers_ok (waits (ts (wt w))) (errnos (ts (wt w))) (waitdog (wt w)) (wtimed w) t;
  ti_pids : pids_ok (kn (ts (wt w)));
  ti_pcs x : x ∈ T -> timed_pc_ok (wtimed w x) (wpcs w x)
}.

(** The duties of the callers: those of the semaphore calls; a task inside a
    timed wait only continues it, the heap gives out memory that is not in
    use, and timeouts come from the watchdogs. *)
Definition timed_event_valid (w : world) (e : timed_event) : Prop :=
  let k := kn (ts (wt w)) in
  let me := cpu k in
  match e with
  | TeSem e =>
      sem_event_valid T idle (to_sys w) e /\ (irq_event e = false -> wtimed w me = NoTimed) /\ (forall x, e <> EvIrqTimeout x ETIMEDOUT)
  | TeTimed sem abstime heap =>
      wpcs w me = PcUser /\ wtimed w me = NoTimed /\ me <> idle /\ lock k me < MAX_LOCK_COUNT /\
      (heap = 0 \/ (heap ∉ Pool) /\ forall x, x ∈ T -> waitdog (wt w) x <> heap)
  | TeResume => wpcs w me <> PcUser \/ wtimed w me = AfterWait
  | TeTick => True
  end.

(** The event is a [sem_wait] or a [sem_timedwait]. *)
Definition is_timed_wait (e : timed_event) : bool :=
  match e with TeSem e => is_wait e | TeTimed _ _ _ => true | _ => false end.

Definition timed_posted (e : timed_event) (sem : Z) : Z := match e with TeSem e => posted e sem | _ => 0 end.

Definition is_tick (e : timed_event) : bool := match e with TeTick => true | _ => false end.

(** The timers of the tasks that are and stay in a timed wait. *)
Definition progress (w w' : world) (tick : bool) (t t' : list timer) : Prop :=
  forall x, x ∈ T -> wtimed w x = InWait -> wtimed w' x = InWait ->
    waitdog (wt w') x = waitdog (wt w) x /\
    time_left (waitdog (wt w) x) t' = if (tick : bool) then Z.max 0 (time_left (waitdog (wt w) x) t - 1) else time_left (waitdog (wt w) x) t.

Definition timed_ok (w : world) (t : list timer) (e : timed_event) (r : option (world * finished)) : Prop :=
  exists w' f, r = Some (w', f) /\ (exists A' G' t' F', timed_inv w' A' G' t' F' /\ progress w w' (is_tick e) t t') /\
    forall sem, sem <> 0 -> sys_available T (to_sys w') sem + acquired f sem = sys_available T (to_sys w) sem + timed_posted e sem.

Lemma inv_size s A G : sem_inv s A G -> (length T <= 16)%nat.
Proof. intros Hi. exact (si_size _ _ _ _ (ok_inv _ _ _ _ (co_ok _ _ _ _ _ _ (in_core _ _ _ _ _ _ _ Hi)))). Qed.

(** ** Dropping a watchdog *)

Lemma drop_spec (w : timed_state) x t F TP :
  wd_rep 1 (wds w) t F -> dogs_ok (waitdog w) TP (wds w) F -> x ∈ T -> waitdog w x <> 0 -> (length t < wd_fuel)%nat ->
  exists d' F', drop_waitdog w x = Some (set_waitdog x 0 (set_wds d' w)) /\ wd_rep 1 d' (cancel_timer (waitdog w x) t) F' /\
    dogs_ok (upd (waitdog w) x 0) (upd TP x NoTimed) d' F'.
Proof.
  intros Hr Hd Hx Hx0 Hl. destruct (dk_used _ _ _ _ _ _ Hd x Hx Hx0) as [HxF [HA _]].
  destruct (wd_delete_spec 1 wd_fuel (wds w) t F (waitdog w x) Hr) as (d' & Hrun & Hr'); try done.
  { rewrite HA. intros Hin. apply negb_false_iff, bool_decide_eq_true_1 in Hin.
    assert (Hn : NoDup (waitdog w x :: F)) by (apply NoDup_cons; split; [done|apply (sq_nodup _ _ _ (wr_free _ _ _ _ Hr))]).
    pose proof (dk_pool _ _ _ _ _ _ Hd) as Hp. assert (Hsub : waitdog w x :: F ⊆ Pool) by set_solver.
    pose proof (submseteq_length _ _ (NoDup_submseteq _ _ Hn Hsub)) as Hlen. rewrite length_cons in Hlen. lia. }
  exists d'. eexists. unfold drop_waitdog. rewrite Hrun. split; [done|]. split; [exact Hr'|]. apply (dogs_drop T Pool); try done. by apply (kinds_delete _ _ _ _ _ Hrun).
Qed.

Lemma finish_spec (w : timed_state) x t F TP :
  wd_rep 1 (wds w) t F -> dogs_ok (waitdog w) TP (wds w) F -> x ∈ T -> waitdog w x <> 0 -> (length t < wd_fuel)%nat ->
  exists d' F', sem_timedwait_finish w x = Some (set_waitdog x 0 (set_wds d' w)) /\ wd_rep 1 d' (cancel_timer (waitdog w x) t) F' /\
    dogs_ok (upd (waitdog w) x 0) (upd TP x NoTimed) d' F'.
Proof.
  intros Hr Hd Hx Hx0 Hl. unfold sem_timedwait_finish. destruct (wd_cancel_spec 1 wd_fuel (wds w) t F (waitdog w x) Hr) as (d & Hrun & Hr1 & _); try done.
  rewrite Hrun. cbn [mbind option_bind]. pose proof (dogs_kinds _ _ _ _ _ _ _ Hd (kinds_cancel _ _ _ _ _ Hrun)) as Hd1.
  destruct (drop_spec (set_wds d w) x (cancel_timer (waitdog w x) t) F TP Hr1 Hd1 Hx Hx0) as (d' & F' & -> & Hr2 & Hd2).
  { pose proof (cancel_length (waitdog w x) t). lia. }
  simpl in Hr2, Hd2. rewrite (cancel_none (waitdog w x) (cancel_timer _ _)) in Hr2 by apply cancel_not_in. by exists d', F'.
Qed.

(** ** Semaphore events *)

Lemma sem_part w A G t F e :
  timed_inv w A G t F -> sem_event_valid T idle (to_sys w) e -> (is_wait e = true -> nest_room T (to_sys w)) ->
  (forall x, e <> EvIrqTimeout x ETIMEDOUT) ->
  exists s' f, sem_exec (to_sys w) e = Some (s', f) /\ (exists A' G', sem_inv s' A' G') /\
    timers_ok (waits (ss s')) (errnos (ss s')) (waitdog (wt w)) (wtimed w) t /\ pids_ok (kn (ss s')) /\
    forall sem, sem <> 0 -> sys_available T s' sem + acquired f sem = sys_available T (to_sys w) sem + posted e sem.
Proof.
  intros Hi Hv Hroom Hto. destruct (sem_exec_balanced T idle P B HT (to_sys w) A G e (ti_sem _ _ _ _ _ Hi) Hv Hroom) as (s' & f & Hrun & Hi' & Ha & Hst).
  exists s', f. split; [done|]. split; [done|]. split; [|split; [|done]].
  - apply (timers_ext T idle N _ _ _ _ _ _ _ (ti_timers _ _ _ _ _ Hi)). intros x Hx HI. pose proof (ti_pcs _ _ _ _ _ Hi x Hx) as Hp. rewrite HI in Hp.
    destruct Hp as [sem Hp]. destruct (Hst x sem false Hp) as [HE HW]. split; [by destruct HW as [->| ->]|].
    intros HE'. destruct HE as [He|He]; [by rewrite <- HE', He|]. rewrite HE' in He. by destruct (Hto x).
  - apply (pids_ok_same T idle N (kn (ts (wt w)))); [|apply (ti_pids _ _ _ _ _ Hi)]. exact (ids_exec _ _ _ _ Hrun).
Qed.

(** The semaphores have changed, and the tasks inside timed waits are where they were. *)
Lemma put_inv w A G t F s A' G' :
  timed_inv w A G t F -> sem_inv s A' G' -> timers_ok (waits (ss s)) (errnos (ss s)) (waitdog (wt w)) (wtimed w) t -> pids_ok (kn (ss s)) ->
  (forall x, x ∈ T -> wtimed w x <> NoTimed -> pcs s x = wpcs w x) -> timed_inv (put_sys s w) A' G' t F.
Proof.
  intros Hi Hs Htm Hpid Hpc. constructor; simpl; try done; [by destruct s|apply (ti_wd _ _ _ _ _ Hi)|apply (ti_dogs _ _ _ _ _ Hi)|].
  intros x Hx. pose proof (ti_pcs _ _ _ _ _ Hi x Hx) as Hp. destruct (decide (wtimed w x = NoTimed)) as [->|Hne]; [done|]. by rewrite Hpc.
Qed.

Lemma sys_eta s : mk_sys (ss s) (pcs s) = s.
Proof. by destruct s. Qed.

Lemma sem_step w A G t F e :
  timed_inv w A G t F -> timed_event_valid w (TeSem e) -> (is_wait e = true -> nest_room T (to_sys w)) ->
  timed_ok w t (TeSem e) (timed_exec w (TeSem e)).
Proof.
  intros Hi (Hv & Hn & Hto) Hroom. destruct (sem_part w A G t F e Hi Hv Hroom Hto) as (s' & f & Hrun & (A' & G' & Hi') & Htm & Hpid & Ha).
  cbn [timed_exec]. rewrite Hrun. cbn [mbind option_bind]. exists (put_sys s' w), f. split; [done|]. unfold to_sys at 1. simpl. rewrite sys_eta. split; [|done].
  exists A', G', t, F. split; [|done]. apply (put_inv w A G); try done. intros x Hx Hne. apply (sem_exec_pcs _ _ _ _ _ Hrun).
  destruct (irq_event e); [by right|left]. intros ->. by apply Hne, Hn.
Qed.

(** ** Continuing a timed wait *)

Lemma dog_there w A G t F x : timed_inv w A G t F -> x ∈ T -> wtimed w x <> NoTimed -> waitdog (wt w) x <> 0.
Proof. intros Hi Hx Hne H0. apply Hne. by apply (dk_none _ _ _ _ _ _ (ti_dogs _ _ _ _ _ Hi)). Qed.

Lemma dog_inj w A G t F x y :
  timed_inv w A G t F -> x ∈ T -> waitdog (wt w) x <> 0 -> y ∈ T -> waitdog (wt w) y = waitdog (wt w) x -> y = x.
Proof. intros Hi Hx H0 Hy E. symmetry. by apply (dk_inj _ _ _ _ _ _ (ti_dogs _ _ _ _ _ Hi)). Qed.

(** What an event of the running task [me] leaves of the timed waits of others. *)
Definition other_waiters (me : Z) (w w' : world) (t t' : list timer) : Prop :=
  forall y, y ∈ T -> y <> me ->
    wtimed w' y = wtimed w y /\ waitdog (wt w') y = waitdog (wt w) y /\
    (waitdog (wt w) y <> 0 -> time_left (waitdog (wt w) y) t' = time_left (waitdog (wt w) y) t).

Lemma waiters_refl me w w' t : (forall y, y <> me -> wtimed w' y = wtimed w y) -> waitdog (wt w') = waitdog (wt w) -> other_waiters me w w' t t.
Proof. intros HT' HD y Hy Hne. rewrite HD. split; [by apply HT'|done]. Qed.

Lemma waiters_trans me w1 w2 w3 t1 t2 t3 : other_waiters me w1 w2 t1 t2 -> other_waiters me w2 w3 t2 t3 -> other_waiters me w1 w3 t1 t3.
Proof.
  intros H1 H2 y Hy Hne. destruct (H1 y Hy Hne) as (A1 & A2 & A3), (H2 y Hy Hne) as (B1 & B2 & B3). rewrite A2 in *.
  split; [congruence|]. split; [done|]. intros H0. rewrite B3, A3; done.
Qed.

Lemma waiters_progress me w A G F w' t t' :
  timed_inv w A G t F -> other_waiters me w w' t t' -> wtimed w me <> InWait \/ wtimed w' me <> InWait -> progress w w' false t t'.
Proof.
  intros Hi H Hme x Hx HI HI'. destruct (decide (x = me)) as [->|Hne]; [by destruct Hme|]. destruct (H x Hx Hne) as (_ & HD & Ht). split; [done|].
  apply Ht, (dog_there w A G t F x Hi Hx). congruence.
Qed.

Lemma retime w A G t F TP : timed_inv w A G t F -> (forall x, TP x = wtimed w x) -> timed_inv (mk_world (wt w) (wpcs w) TP) A G t F.
Proof.
  intros [I1 I2 [D1 D2 D3 D4] [T1 T2 T3] I5 I6] HTP. constructor; simpl; try done.
  - constructor; try done. intros x Hx. rewrite HTP. by apply D1.
  - constructor; [done|..]; intros x Hx; rewrite HTP; [by apply T2|by apply T3].
  - intros x Hx. rewrite HTP. by apply I6.
Qed.

(** A change of the semaphores by a task whose [sem_wait] is over. *)
Lemma sem_moved w A G t F s A' G' me :
  timed_inv w A G t F -> me ∈ T -> wtimed w me <> NoTimed ->
  sem_inv s A' G' -> timers_ok (waits (ss s)) (errnos (ss s)) (waitdog (wt w)) (wtimed w) t -> pids_ok (kn (ss s)) ->
  (forall y, y <> me -> pcs s y = wpcs w y) -> pcs s me = PcUser ->
  let w' := mk_world (set_ts (ss s) (wt w)) (pcs s) (upd (wtimed w) me AfterWait) in
  timed_inv w' A' G' t F /\ other_waiters me w w' t t.
Proof.
  intros Hi Hme HTP Hs Htm Hpid Hother Hpc. split.
  - constructor; simpl.
    + by unfold to_sys; simpl; rewrite sys_eta.
    + apply (ti_wd _ _ _ _ _ Hi).
    + destruct (ti_dogs _ _ _ _ _ Hi) as [D1 D2 D3 D4]. constructor; try done. intros y Hy. unfold upd. destruct (Z.eqb_spec y me) as [->|]; [|by apply D1].
      rewrite D1 by done. split; done.
    + destruct Htm as [T1 T2 T3]. constructor; [done|..]; intros y Hy; unfold upd; (destruct (y =? me); [done|auto]).
    + done.
    + intros y Hy. unfold upd. destruct (Z.eqb_spec y me) as [->|Hne]; [done|]. rewrite Hother by done. by apply (ti_pcs _ _ _ _ _ Hi).
  - apply waiters_refl; [|done]. intros y Hne. simpl. by rewrite upd_ne.
Qed.

(** The watchdog has been dropped. *)
Lemma dropped w A G t F me d' F' :
  timed_inv w A G t F -> me ∈ T -> wtimed w me <> NoTimed ->
  wd_rep 1 d' (cancel_timer (waitdog (wt w) me) t) F' -> dogs_ok (upd (waitdog (wt w)) me 0) (upd (wtimed w) me NoTimed) d' F' ->
  let w' := mk_world (set_waitdog me 0 (set_wds d' (wt w))) (wpcs w) (upd (wtimed w) me NoTimed) in
  exists t', timed_inv w' A G t' F' /\ other_waiters me w w' t t'.
Proof.
  intros Hi Hme HTP Hr Hd w'. pose proof (dog_there w A G t F me Hi Hme HTP) as H0. exists (cancel_timer (waitdog (wt w) me) t). split.
  - constructor; simpl; try done.
    + apply (ti_sem _ _ _ _ _ Hi).
    + apply (timers_drop T idle N); try done; [apply (ti_timers _ _ _ _ _ Hi)|]. intros y Hy. by apply (dog_inj w A G t F me y).
    + apply (ti_pids _ _ _ _ _ Hi).
    + intros y Hy. unfold upd. destruct (Z.eqb_spec y me) as [->|Hne]; [done|]. by apply (ti_pcs _ _ _ _ _ Hi).
  - intros y Hy Hne. simpl. rewrite !upd_ne by done. split; [done|]. split; [done|]. intros _. apply time_left_cancel.
    intros E. apply Hne. by apply (dog_inj w A G t F me y).
Qed.

Lemma inv_fuel w A G t F : timed_inv w A G t F -> (length t < wd_fuel)%nat.
Proof.
  intros Hi. exact (timers_length T idle N _ _ _ _ _ _ _ (ti_wd _ _ _ _ _ Hi) (ti_timers _ _ _ _ _ Hi) (inv_size _ _ _ (ti_sem _ _ _ _ _ Hi))).
Qed.

Lemma drop_step w A G t F me :
  timed_inv w A G t F -> me ∈ T -> wtimed w me <> NoTimed ->
  exists u t' F', drop_waitdog (wt w) me = Some u /\ ts u = ts (wt w) /\
    timed_inv (mk_world u (wpcs w) (upd (wtimed w) me NoTimed)) A G t' F' /\ other_waiters me w (mk_world u (wpcs w) (upd (wtimed w) me NoTimed)) t t'.
Proof.
  intros Hi Hme HTP. destruct (drop_spec (wt w) me t F (wtimed w) (ti_wd _ _ _ _ _ Hi) (ti_dogs _ _ _ _ _ Hi) Hme
    (dog_there w A G t F me Hi Hme HTP) (inv_fuel w A G t F Hi)) as (d' & F' & Hrun & Hr' & Hd').
  destruct (dropped w A G t F me d' F' Hi Hme HTP Hr' Hd') as (t' & Hi' & Ho). by exists (set_waitdog me 0 (set_wds d' (wt w))), t', F'.
Qed.

Lemma finish_step w A G t F me :
  timed_inv w A G t F -> me ∈ T -> wtimed w me <> NoTimed ->
  exists u t' F', sem_timedwait_finish (wt w) me = Some u /\ ts u = ts (wt w) /\
    timed_inv (mk_world u (wpcs w) (upd (wtimed w) me NoTimed)) A G t' F' /\ other_waiters me w (mk_world u (wpcs w) (upd (wtimed w) me NoTimed)) t t'.
Proof.
  intros Hi Hme HTP. destruct (finish_spec (wt w) me t F (wtimed w) (ti_wd _ _ _ _ _ Hi) (ti_dogs _ _ _ _ _ Hi) Hme
    (dog_there w A G t F me Hi Hme HTP) (inv_fuel w A G t F Hi)) as (d' & F' & Hrun & Hr' & Hd').
  destruct (dropped w A G t F me d' F' Hi Hme HTP Hr' Hd') as (t' & Hi' & Ho). by exists (set_waitdog me 0 (set_wds d' (wt w))), t', F'.
Qed.

Lemma resume_timed_step w A G t F :
  timed_inv w A G t F -> timed_event_valid w TeResume -> timed_ok w t TeResume (timed_exec w TeResume).
Proof.
  intros Hi Hv. destruct (inv_running _ _ _ _ _ _ _ (ti_sem _ _ _ _ _ Hi)) as (_ & Hcpu & Hr & _). simpl in Hcpu. rewrite <- Hcpu in Hr.
  cbn [timed_exec timed_event_valid] in *. set (me := cpu (kn (ts (wt w)))) in *. pose proof (ti_pcs _ _ _ _ _ Hi me Hr) as Hpc.
  destruct (wtimed w me) eqn:HTP.
  - apply (sem_step w A G t F EvResume Hi); [|done]. split; [by destruct Hv|]. split; [done|by intros x].
  - destruct Hpc as [sem Hpc]. destruct (sem_part w A G t F EvResume Hi) as (s' & f & Hrun & (A' & G' & Hi') & Htm & Hpid & Ha).
    { cbn [sem_event_valid to_sys pcs ss]. fold me. by rewrite Hpc. }
    { done. }
    { by intros x. }
    rewrite Hrun. cbn [mbind option_bind]. destruct (sem_moved w A G t F s' A' G' me Hi Hr) as [Hi1 Ho1]; try done; [congruence| |exact (resume_pcs _ _ _ Hrun)|].
    { intros y Hy. apply (sem_exec_pcs _ _ _ _ _ Hrun). by left. }
    destruct (cpu (kn (ss s')) =? me).
    + destruct (finish_step _ A' G' t F me Hi1 Hr) as (u & t' & F' & Hu & Hts & Hi2 & Ho2); [simpl; by rewrite upd_eq|].
      cbn [wt put_sys wpcs wtimed] in *. rewrite Hu. cbn [mbind option_bind]. eexists _, f. split; [done|]. split.
      * exists A', G', t', F'. split; [apply (retime _ _ _ _ _ _ Hi2); intros y; simpl; unfold upd; by destruct (y =? me)|].
        apply (waiters_progress me w A G F); [done| |right; simpl; by rewrite upd_eq].
        eapply waiters_trans; [exact Ho1|]. eapply waiters_trans; [exact Ho2|]. apply waiters_refl; [|done]. intros y Hne. simpl. by rewrite !upd_ne.
      * unfold to_sys at 1. simpl. rewrite Hts. simpl. by rewrite sys_eta.
    + eexists _, f. split; [done|]. split; [|unfold to_sys at 1; simpl; by rewrite sys_eta]. exists A', G', t, F. split; [done|].
      apply (waiters_progress me w A G F); [done|done|]. right. simpl. by rewrite upd_eq.
  - destruct (finish_step w A G t F me Hi Hr) as (u & t' & F' & -> & Hts & Hi2 & Ho2); [congruence|]. cbn [mbind option_bind].
    eexists _, None. split; [done|]. split; [|unfold to_sys; simpl; by rewrite Hts]. exists A, G, t', F'. split; [done|].
    apply (waiters_progress me w A G F); [done|done|]. left. congruence.
Qed.
End steps.
