(* ===== verification/SemTimedTick.v ===== *)
(** * Timed waits: the timer interrupt

    The tick of the clock calls [sem_timeout] for the tasks whose time is up. *)

From stdpp Require Import base tactics numbers sets list sorting.
From S2P Require Import Prelude Queue QueueProps Sched SchedProps SchedOps SchedKernel SchedPriority SchedTheorems.
From S2P Require Import Sem SemHolder SemPrio SemOps SemCalls SemSystem SemSteps SemIds.
From S2P Require Import Wdog WdogProps WdogTick WdogTimers Calendar Clock SemTimed SemTimedSteps.

(** The state the handler returns to. *)
Definition unirq (u : sem_state) : sem_state := set_kn (set_in_irq false (kn u)) u.

Lemma irq_again u : in_irq (kn u) = true -> set_kn (set_in_irq true (kn (unirq u))) (unirq u) = u.
Proof. destruct u as [k]. destruct k. simpl. by intros ->. Qed.

(** What [wd_call] does, the watchdogs left out. *)
Definition timeout_call (f : Z) (args : list Z) (a : list timer * list Z * sem_state) : list timer * list Z * sem_state :=
  let '(t, F, u) := a in (t, F, match args with [p] => default u (sem_timeout u p) | _ => u end).

Lemma run_due_pending n t F u : (length (expired t) <= n)%nat -> exists u', run_due timeout_call n (t, F, u) = (pending t, F, u').
Proof.
  revert t u. induction n as [|n IH]; intros t u Hn; destruct t as [|y t]; simpl in *; try by exists u.
  - destruct (t_left y <=? 0); [simpl in Hn; lia|by exists u].
  - destruct (t_left y <=? 0); [|by exists u]. apply IH. simpl in Hn. lia.
Qed.

Lemma wd_call_kinds f args d u d' u' : wd_call f args (d, u) = Some (d', u') -> same_kinds d d'.
Proof. unfold wd_call. intros H. kinds_open; subst; reflexivity. Qed.

Section tick.
Context {R : Type} (T : list Z) (idle : Z) (P : list Z) (B : Z -> Z) (HT : NoDup T) (N : Z -> Z) (Pool : list Z).
Abbreviation user := (user T idle).
Abbreviation sem_inv := (sem_inv T idle P B).

Section handler.
(** What the interrupt leaves alone: where the tasks are, their watchdogs, and
    what is available. *)
Context (Q : Z -> pc) (TP : Z -> timed_pc) (D : Z -> Z) (avail : Z -> Z).
Context (Hinj : forall x y, x ∈ T -> y ∈ T -> D x <> 0 -> D x = D y -> x = y).
Context (HQ : forall x, x ∈ T -> TP x = InWait -> exists sem, Q x = PcWait sem false).

Record irq_inv (t : list timer) (F : list Z) (u : sem_state) : Prop := {
  ii_irq : in_irq (kn u) = true;
  ii_inv : exists A G, sem_inv (mk_sys (unirq u) Q) A G;
  ii_avail sem : sem <> 0 -> sys_available T (mk_sys (unirq u) Q) sem = avail sem;
  ii_pids : pids_ok T idle N (kn u);
  ii_timers : timers_ok T idle N (waits u) (errnos u) D TP t;
  ii_nodup : NoDup (ids t);
  ii_nonnull : 0 ∉ ids t
}.

(** The timer of [x] has gone, and [x] does not wait. *)
Lemma timers_gone W E W' E' y t x :
  timers_ok T idle N W E D TP (y :: t) -> x ∈ T -> t_id y = D x -> t_id y ∉ ids t -> t_id y <> 0 -> W' x = 0 ->
  (forall z, z ∈ T -> TP z = InWait -> z <> x -> (W' z <> 0 -> W z <> 0) /\ (E' z = ETIMEDOUT -> E z = ETIMEDOUT)) ->
  timers_ok T idle N W' E' D TP t.
Proof.
  intros [H1 H2 H3] Hx Hy Hn H0 HW Hz. constructor.
  - intros z Hz'. apply H1. set_solver.
  - intros z HzT HI HWz. destruct (decide (z = x)) as [->|Hne]; [done|]. destruct (Hz z HzT HI Hne) as [Ha _].
    specialize (H2 z HzT HI (Ha HWz)). rewrite fmap_cons in H2. apply elem_of_cons in H2 as [E0|]; [|done]. destruct Hne. apply Hinj; congruence.
  - intros z HzT HI HEz. destruct (decide (z = x)) as [->|Hne]; [congruence|]. destruct (Hz z HzT HI Hne) as [_ Hb].
    specialize (H3 z HzT HI (Hb HEz)). rewrite fmap_cons in H3. set_solver.
Qed.

(** [sem_timeout] for a task that does not wait any more, and for one that does. *)
Lemma timeout_late u A G x : sem_inv (mk_sys (unirq u) Q) A G -> pids_ok T idle N (kn u) -> user x -> waits u x = 0 -> sem_timeout u (N x) = Some u.
Proof.
  intros Hi Hp Hx Hw. pose proof (in_core _ _ _ _ _ _ _ Hi) as Hc. destruct Hx as [HxT Hxi].
  destruct (user_listed T idle _ A x (co_ok _ _ _ _ _ _ Hc) (co_listed _ _ _ _ _ _ Hc)) as [_ Hx0]; [done|].
  unfold sem_timeout. rewrite (gettcb_pid T idle N) by done. destruct (Z.eqb_spec x 0) as [?|_]; [done|]. krun. rewrite bool_decide_eq_false_2; [done|].
  intros Hs. destruct (co_listed _ _ _ _ _ _ Hc x HxT) as [tl Htl]. pose proof (si_state _ _ _ _ (ok_inv _ _ _ _ (co_ok _ _ _ _ _ _ Hc)) tl x Htl) as Hst.
  apply (eq_trans (eq_sym Hs)) in Hst. assert (tl = g_waitingforsemaphore) as ->.
  { destruct tl; try done. simpl in Hst. by destruct (decide _). }
  apply (in_list _ _ _ _ _ _ _ Hi x HxT) in Htl. by apply Htl.
Qed.

Lemma timeout_ends u A G x :
  in_irq (kn u) = true -> sem_inv (mk_sys (unirq u) Q) A G -> pids_ok T idle N (kn u) -> user x -> waits u x <> 0 ->
  exists u', sem_timeout u (N x) = Some u' /\ in_irq (kn u') = true /\ waits u' x = 0 /\
    balanced T idle P B (mk_sys (unirq u) Q) (EvIrqTimeout x ETIMEDOUT) (Some (mk_sys (unirq u') Q, None)) /\ pids_ok T idle N (kn u').
Proof.
  intros Hirq Hi Hp Hx Hw. destruct Hx as [HxT Hxi]. destruct (core_set_irq T idle P B (unirq u) A G true _ _ _ (in_core _ _ _ _ _ _ _ Hi) (in_views _ _ _ _ _ _ _ Hi)) as [Hc Hv].
  rewrite irq_again in Hc, Hv by done. assert (Hin : x ∈ A g_waitingforsemaphore) by (by apply (in_list _ _ _ _ _ _ _ Hi)).
  pose proof (waiting_negative T idle P B _ A G x Hi HxT Hw) as Hneg. pose proof (inv_range T idle P B _ A G _ Hi Hw) as Hrange. simpl in Hneg, Hrange.
  destruct (sem_waitirq_spec T idle P B u A G x ETIMEDOUT _ _ _ Hc Hv Hin Hw) as (u' & A' & Hrun & _ & Hirq' & Hv' & _); [split; [apply Hrange|exact Hneg]|].
  destruct (user_listed T idle _ A x (co_ok _ _ _ _ _ _ Hc) (co_listed _ _ _ _ _ _ Hc)) as [_ Hx0]; [done|].
  exists u'. split; [|split; [congruence|split; [|split]]].
  - unfold sem_timeout. rewrite (gettcb_pid T idle N) by done. destruct (Z.eqb_spec x 0) as [?|_]; [done|]. krun. rewrite bool_decide_eq_true_2; [done|].
    exact (si_state _ _ _ _ (ok_inv _ _ _ _ (co_ok _ _ _ _ _ _ Hc)) g_waitingforsemaphore x Hin).
  - unfold waits. by rewrite (vw_wait _ _ _ _ _ Hv'), upd_eq.
  - pose proof (timeout_step T idle P B HT _ A G x ETIMEDOUT Hi) as Hb. cbn [sem_exec ss pcs] in Hb. unfold in_handler in Hb. rewrite irq_again, Hrun in Hb by done.
    apply Hb. split; [done|by right].
  - apply (pids_ok_same T idle N (kn u)); [|done]. exact (ids_waitirq _ _ _ _ Hrun).
Qed.

#[export] Instance timeout_handler : handler_ok wd_call timeout_call irq_inv.
Proof.
  constructor.
  - intros d y t F u Hr Hi _. destruct (ii_inv _ _ _ Hi) as (A & G & Hs). destruct (tk_timer _ _ _ _ _ _ _ _ (ii_timers _ _ _ Hi) y ltac:(set_solver)) as (x & Hx & Hid & -> & ->).
    pose proof (ii_nodup _ _ _ Hi) as Hn. pose proof (ii_nonnull _ _ _ Hi) as H0. rewrite fmap_cons in Hn, H0. apply NoDup_cons in Hn as [Hy Hn]. apply not_elem_of_cons in H0 as [Hy0 H0].
    unfold timeout_call, wd_call. rewrite Z.eqb_refl. destruct (Z.eq_dec (waits u x) 0) as [Hw|Hw].
    + rewrite (timeout_late u A G x Hs (ii_pids _ _ _ Hi) Hx Hw). exists d, t, F, u. split; [done|]. split; [done|]. split; [done|]. split; [|done].
      destruct Hi as [I1 I2 I3 I4 I5 _ _]. constructor; try done. by apply (timers_gone _ _ _ _ y t x I5 (proj1 Hx) Hid Hy (not_eq_sym Hy0) Hw).
    + destruct (timeout_ends u A G x (ii_irq _ _ _ Hi) Hs (ii_pids _ _ _ Hi) Hx Hw) as (u' & -> & Hirq & Hw' & (s' & f & E & Hi' & Ha & Hst) & Hp).
      injection E as <- <-. exists d, t, F, u'. split; [done|]. split; [done|]. split; [done|]. split; [|done]. constructor; try done.
      * intros sem Hsem. rewrite <- (ii_avail _ _ _ Hi sem Hsem). specialize (Ha sem Hsem). simpl in Ha. lia.
      * apply (timers_gone _ _ _ _ y t x (ii_timers _ _ _ Hi) (proj1 Hx) Hid Hy (not_eq_sym Hy0) Hw').
        intros z HzT HI Hne. destruct (HQ z HzT HI) as [sem Hq]. destruct (Hst z sem false Hq) as [HE HW].
        change (waits u' z = waits u z \/ waits u' z = 0) in HW. change (errnos u' z = errnos u z \/ EvIrqTimeout x ETIMEDOUT = EvIrqTimeout z (errnos u' z)) in HE.
        split; [by destruct HW as [->| ->]|]. intros HEz. destruct HE as [HE|HE]; [by rewrite <- HEz, HE|congruence].
  - intros t F u [I1 I2 I3 I4 I5 I6 I7]. assert (Ei : ids (tick_timer <$> t) = ids t) by (rewrite <- list_fmap_compose; by apply list_fmap_ext).
    constructor; try done; [|by rewrite Ei..]. destruct I5 as [H1 H2 H3]. constructor; [|intros x; rewrite Ei; apply H2|intros x; rewrite Ei; apply H3].
    intros y (z & -> & Hz)%list_elem_of_fmap. exact (H1 z Hz).
Qed.
End handler.

Abbreviation timed_inv := (timed_inv T idle P B N Pool).
Abbreviation timed_ok := (timed_ok T idle P B N Pool).

(** The interrupt starts. *)
Lemma irq_start (w : world R) A G t F :
  timed_inv w A G t F ->
  irq_inv (wpcs w) (wtimed w) (waitdog (wt w)) (sys_available T (to_sys w)) t F (set_kn (set_in_irq true (kn (ts (wt w)))) (ts (wt w))).
Proof.
  intros Hi. pose proof (wr_active _ _ _ _ (ti_wd _ _ _ _ _ _ _ _ _ _ _ Hi)) as Ha. set (u := set_kn _ _).
  assert (E : unirq u = ts (wt w)).
  { unfold unirq, u. pose proof (in_task _ _ _ _ _ _ _ (ti_sem _ _ _ _ _ _ _ _ _ _ _ Hi)) as H. unfold to_sys in H. destruct (ts (wt w)) as [k]. destruct k. simpl in *. by rewrite H. }
  constructor; rewrite ?E; try done.
  - exists A, G. apply (ti_sem _ _ _ _ _ _ _ _ _ _ _ Hi).
  - apply (ti_pids _ _ _ _ _ _ _ _ _ _ _ Hi).
  - apply (ti_timers _ _ _ _ _ _ _ _ _ _ _ Hi).
  - apply (sq_nodup _ _ _ Ha).
  - apply (sq_null _ _ _ Ha).
Qed.

(** The time slice, at the end of the interrupt. *)
Lemma timeslice_end Q TP D avail t F u :
  irq_inv Q TP D avail t F u -> (forall x, x ∈ T -> TP x = InWait -> exists sem, Q x = PcWait sem false) ->
  exists k, sched_process_timeslice (kn u) = Some k /\ (exists A G, sem_inv (mk_sys (unirq (set_kn k u)) Q) A G) /\
    (forall sem, sem <> 0 -> sys_available T (mk_sys (unirq (set_kn k u)) Q) sem = avail sem) /\ pids_ok T idle N k /\
    timers_ok T idle N (waits (set_kn k u)) (errnos (set_kn k u)) D TP t.
Proof.
  intros [I1 (A & G & I2) I3 I4 I5 _ _] HQ. destruct (tick_step T idle P B _ A G I2) as (s' & f & Hrun & Hs & Ha & Hst). cbn [sem_exec ss pcs] in Hrun.
  unfold in_handler in Hrun. rewrite irq_again in Hrun by done. destruct (sched_process_timeslice (kn u)) as [k|] eqn:Hk; [|done]. cbn [mbind option_bind] in Hrun.
  injection Hrun as <- <-. exists k. split; [done|]. split; [done|]. split; [|split].
  - intros sem Hsem. specialize (Ha sem Hsem). specialize (I3 sem Hsem).
    change (sys_available T (mk_sys (unirq (set_kn k u)) Q) sem + 0 = sys_available T (mk_sys (unirq u) Q) sem + 0) in Ha. lia.
  - apply (pids_ok_same T idle N (kn u)); [|done]. by apply ids_timeslice.
  - apply (timers_ext T idle N _ _ _ _ _ _ _ I5). intros x Hx HI. destruct (HQ x Hx HI) as [sem Hq]. destruct (Hst x sem false Hq) as [HE HW].
    change (waits (set_kn k u) x = waits u x \/ waits (set_kn k u) x = 0) in HW. change (errnos (set_kn k u) x = errnos u x \/ EvIrqTick = EvIrqTimeout x (errnos (set_kn k u) x)) in HE.
    split; [by destruct HW as [->| ->]|]. by destruct HE as [->|?].
Qed.

Lemma timed_tick_step (w : world R) A G t F : timed_inv w A G t F -> timed_ok w t TeTick (timed_exec w TeTick).
Proof.
  intros Hi. pose proof (irq_start w A G t F Hi) as Hu. cbn [timed_exec]. set (u := set_kn _ (ts (wt w))) in *.
  pose proof (ti_wd _ _ _ _ _ _ _ _ _ _ _ Hi) as Hr. pose proof (ti_dogs _ _ _ _ _ _ _ _ _ _ _ Hi) as Hd.
  pose proof (timers_length T idle N _ _ _ _ _ _ _ Hr (ti_timers _ _ _ _ _ _ _ _ _ _ _ Hi) (inv_size T idle P B _ A G (ti_sem _ _ _ _ _ _ _ _ _ _ _ Hi))) as Hl.
  assert (HQ : forall x, x ∈ T -> wtimed w x = InWait -> exists sem, wpcs w x = PcWait sem false).
  { intros x Hx HI. pose proof (ti_pcs _ _ _ _ _ _ _ _ _ _ _ Hi x Hx) as H. by rewrite HI in H. }
  pose proof (timeout_handler (wpcs w) (wtimed w) (waitdog (wt w)) (sys_available T (to_sys w)) (dk_inj _ _ _ _ _ _ Hd) HQ) as Hh.
  destruct (wd_timer_spec wd_call timeout_call _ wd_fuel (wds (wt w)) t F u Hr Hu Hl) as (d' & t' & F' & u' & Hrun & Htick & Hr' & Hu').
  unfold tick in Htick. destruct (run_due_pending (length (tick_timer <$> t)) (tick_timer <$> t) F u) as [u2 E2]; [apply expired_length|].
  rewrite E2 in Htick. injection Htick as <- <- <-.
  destruct (timeslice_end _ _ _ _ _ _ _ Hu' HQ) as (k & Hk & (A' & G' & Hs') & Ha & Hp & Htm).
  unfold sched_process_timer. cbn [ts wds waitdog clk set_ts set_clk set_wds]. change (set_kn (set_in_irq true (kn (ts (wt w)))) (ts (wt w))) with u. rewrite Hrun.
  cbn [mbind option_bind]. rewrite Hk. cbn [mbind option_bind]. eexists _, None. split; [done|]. split.
  - exists A', G'. eexists _, F. split; [constructor; cbn [wt wpcs wtimed ts wds waitdog clk set_ts set_clk set_wds]|].
    + exact Hs'.
    + exact Hr'.
    + apply (dogs_kinds _ _ _ _ _ _ _ Hd). by apply (kinds_timer _ wd_call_kinds _ _ _ _ _ Hrun).
    + exact Htm.
    + exact Hp.
    + intros x Hx. apply (ti_pcs _ _ _ _ _ _ _ _ _ _ _ Hi x Hx).
    + intros x Hx _ _. split; [done|]. cbn [is_tick]. by apply (time_left_pending (wds (wt w)) d' _ t F F).
  - intros sem Hsem. specialize (Ha sem Hsem). cbn [acquired timed_posted]. rewrite !Z.add_0_r. exact Ha.
Qed.
End tick.
