(* ===== verification/SemTimedCall.v ===== *)
(** * Timed waits: the call

    [sem_timedwait] itself, along each of its paths. *)

From stdpp Require Import base tactics numbers sets list sorting.
From S2P Require Import Prelude Queue QueueProps Sched SchedProps SchedOps SchedKernel SchedPriority SchedTheorems.
From S2P Require Import Sem SemHolder SemPrio SemOps SemCalls SemSystem SemSteps SemIds.
From S2P Require Import Wdog WdogProps WdogTick WdogTimers Calendar Clock SemTimed SemTimedSteps.

(** What the error number has no part in. *)
Definition quiet (s s' : sem_state) : Prop :=
  cpu (kn s') = cpu (kn s) /\ forall x, lock (kn s') x = lock (kn s) x /\ npend_reprio (tcbs (kn s') x) = npend_reprio (tcbs (kn s) x).

Lemma quiet_errno s e : quiet s (with_errno s e).
Proof.
  unfold quiet, with_errno, set_errno, lock. simpl. destruct (get_errno_ptr (kn s)) as [r|]; simpl; [|done]. split; [done|]. intros x. unfold upd.
  by destruct (Z.eqb_spec x r) as [->|].
Qed.

Lemma trywait_fails s sem s' : sem_trywait s sem = Some (s', ERROR) -> quiet s s'.
Proof.
  unfold sem_trywait. intros (_ & _ & H)%bind_Some. destruct (sem =? 0); [injection H as <-; apply quiet_errno|]. destruct (_ <? _).
  - by apply bind_Some in H as (? & _ & ?).
  - injection H as <-. destruct (quiet_errno s EINVAL) as [H1 H2], (quiet_errno (with_errno s EINVAL) EAGAIN) as [H3 H4].
    split; [congruence|]. intros x. destruct (H2 x), (H4 x). split; congruence.
Qed.

Section call.
Context {R : Type} (T : list Z) (idle : Z) (P : list Z) (B : Z -> Z) (HT : NoDup T) (N : Z -> Z) (Pool : list Z).
Context (HPool : Z.of_nat (length Pool) <= CONFIG_PREALLOC_WDOGS).
Abbreviation user := (user T idle).
Abbreviation sem_inv := (sem_inv T idle P B).
Abbreviation dogs_ok := (dogs_ok T Pool).
Abbreviation timers_ok := (timers_ok T idle N).
Abbreviation pids_ok := (pids_ok T idle N).
Abbreviation timed_inv := (timed_inv T idle P B N Pool).
Abbreviation timed_ok := (timed_ok T idle P B N Pool).
Abbreviation other_waiters := (other_waiters T).
Abbreviation world := (world R).

(** ** Creating the watchdog *)

Lemma create_spec (w : world) A G t F me heap :
  timed_inv w A G t F -> me ∈ T -> wtimed w me = NoTimed ->
  (heap = 0 \/ (heap ∉ Pool) /\ forall x, x ∈ T -> waitdog (wt w) x <> heap) ->
  exists d' dog F', wd_create (wds (wt w)) false heap = Some (d', dog) /\ wd_rep 1 d' t F' /\
    (dog = 0 /\ d' = wds (wt w) /\ F' = F \/
     dog <> 0 /\ (dog ∉ F') /\ F' ⊆ F /\ (forall y, y ∈ T -> waitdog (wt w) y <> dog) /\ kind_ok Pool (wdogs d' dog) dog).
Proof.
  intros Hi Hme HTP Hheap. pose proof (ti_wd _ _ _ _ _ _ _ _ _ _ _ Hi) as Hr. pose proof (ti_dogs _ _ _ _ _ _ _ _ _ _ _ Hi) as Hd.
  pose proof (dk_pool _ _ _ _ _ _ Hd) as HF. pose proof (wr_free _ _ _ _ Hr) as Hq.
  destruct (Z_lt_le_dec CONFIG_WDOG_INTRESERVE (Z.of_nat (length F))) as [Hmany|Hfew].
  - destruct F as [|dog F]; [simpl in Hmany; unfold CONFIG_WDOG_INTRESERVE in *; lia|].
    pose proof (submseteq_length _ _ (NoDup_submseteq _ _ (sq_nodup _ _ _ Hq) HF)) as Hlen. rewrite length_cons in Hlen. unfold CONFIG_PREALLOC_WDOGS in HPool.
    destruct (wd_create_prealloc 1 (wds (wt w)) t dog F false heap Hr) as (d' & Hrun & Hr' & Hfl); [rewrite orb_false_r; by apply Z.ltb_lt|lia|].
    exists d', dog, F. split; [done|]. split; [done|]. right. pose proof (sq_nodup _ _ _ Hq) as Hn. apply NoDup_cons in Hn as [HdF _].
    pose proof (sq_null _ _ _ Hq) as H0. split_and!; [set_solver|done|set_solver| |].
    + intros y Hy E. assert (waitdog (wt w) y <> 0) by (rewrite E; set_solver). destruct (dk_used _ _ _ _ _ _ Hd y Hy) as [Hin _]; [done|]. rewrite E in Hin. set_solver.
    + unfold kind_ok, WDOG_ISALLOCED, WDOG_ISSTATIC. rewrite Hfl. rewrite bool_decide_eq_true_2 by set_solver. done.
  - destruct Hheap as [->|[Hh Hnew]].
    + exists (wds (wt w)), 0, F. split; [|split; [done|by left]]. unfold wd_create. rewrite (wr_count _ _ _ _ Hr).
      by destruct (Z.ltb_spec CONFIG_WDOG_INTRESERVE (Z.of_nat (length F))); [lia|].
    + assert (Hh0 : heap <> 0). { intros ->. apply (Hnew me Hme). by apply (dk_none _ _ _ _ _ _ Hd). }
      destruct (wd_create_heap 1 (wds (wt w)) t F heap Hr Hfew Hh0) as (d' & Hrun & Hr' & Hfl); [|set_solver|].
      { intros (y & -> & Hy)%list_elem_of_fmap. destruct (tk_timer _ _ _ _ _ _ _ _ (ti_timers _ _ _ _ _ _ _ _ _ _ _ Hi) y Hy) as (x & [Hx _] & E & _).
        by apply (Hnew x Hx). }
      exists d', heap, F. split; [done|]. split; [done|]. right. split_and!; [done|set_solver|done|done|].
      unfold kind_ok, WDOG_ISALLOCED, WDOG_ISSTATIC. rewrite Hfl. rewrite bool_decide_eq_false_2 by done. done.
Qed.

(** With its new watchdog the task is as after a wait. *)
Lemma create_step (w : world) A G t F me heap d' dog :
  timed_inv w A G t F -> me ∈ T -> wtimed w me = NoTimed -> wpcs w me = PcUser ->
  (heap = 0 \/ (heap ∉ Pool) /\ forall x, x ∈ T -> waitdog (wt w) x <> heap) ->
  wd_create (wds (wt w)) false heap = Some (d', dog) -> dog <> 0 ->
  let w' := mk_world (set_waitdog me dog (set_wds d' (wt w))) (wpcs w) (upd (wtimed w) me AfterWait) in
  exists F', timed_inv w' A G t F' /\ other_waiters me w w' t t.
Proof.
  intros Hi Hme HTP Hpc Hheap Hrun Hdog w'. destruct (create_spec w A G t F me heap Hi Hme HTP Hheap) as (d1 & dog1 & F' & Hrun1 & Hr' & Hcase).
  rewrite Hrun in Hrun1. injection Hrun1 as <- <-. destruct Hcase as [[? _]|(_ & HdF & HF & Hnew & Hk)]; [done|].
  pose proof (ti_dogs _ _ _ _ _ _ _ _ _ _ _ Hi) as Hd. assert (HD0 : waitdog (wt w) me = 0) by (by apply (dk_none _ _ _ _ _ _ Hd)). exists F'. split.
  - constructor; simpl.
    + apply (ti_sem _ _ _ _ _ _ _ _ _ _ _ Hi).
    + done.
    + apply (dogs_new T Pool _ _ (wds (wt w)) d' F F'); try done. intros y. by apply (kinds_create _ _ _ _ _ _ Hrun).
    + apply (timers_new T idle N); [apply (ti_timers _ _ _ _ _ _ _ _ _ _ _ Hi)| |done]. rewrite HD0.
      apply (sq_null _ _ _ (wr_active _ _ _ _ (ti_wd _ _ _ _ _ _ _ _ _ _ _ Hi))).
    + apply (ti_pids _ _ _ _ _ _ _ _ _ _ _ Hi).
    + intros y Hy. unfold upd. destruct (Z.eqb_spec y me) as [->|]; [done|]. by apply (ti_pcs _ _ _ _ _ _ _ _ _ _ _ Hi).
  - intros y Hy Hne. simpl. rewrite !upd_ne by done. done.
Qed.

(** ** The error number of the running task *)

Lemma errno_balanced s A G e : sem_inv s A G -> pcs s (running A) = PcUser -> balanced T idle P B s EvLock (Some (mk_sys (with_errno (ss s) e) (pcs s), None)).
Proof.
  intros Hi HQ. destruct (inv_running _ _ _ _ _ _ _ Hi) as (_ & _ & Hr & Hw).
  destruct (with_errno_core T idle P B (ss s) A G e _ _ _ (in_core _ _ _ _ _ _ _ Hi) (in_views _ _ _ _ _ _ _ Hi) (in_task _ _ _ _ _ _ _ Hi)) as (Hc & Hv & Hirq & _).
  destruct (books_local T (running A) (waits (ss s)) (waits (ss s)) (errnos (ss s)) (upd (errnos (ss s)) (running A) e) (count_of (ss s)) (pcs s) (pcs s)) as [Hb Ha]; try done.
  { apply (in_books _ _ _ _ _ _ _ Hi). }
  { intros y Hne. by rewrite upd_ne. }
  { by rewrite HQ. }
  eapply balanced_intro; [exact Hc|done|exact Hv|apply (in_list _ _ _ _ _ _ _ Hi)|exact Hb|apply (in_posts _ _ _ _ _ _ _ Hi)|by steady_user HQ|].
  intros u _. rewrite Ha. unfold sys_available. simpl. lia.
Qed.

Lemma errout_step (w : world) A G t F me err :
  timed_inv w A G t F -> me = cpu (kn (ts (wt w))) -> wpcs w me = PcUser ->
  let w' := mk_world (errout (wt w) err).1 (wpcs w) (wtimed w) in
  exists A' G', timed_inv w' A' G' t F /\ other_waiters me w w' t t /\
    forall sem, sem <> 0 -> sys_available T (to_sys w') sem = sys_available T (to_sys w) sem.
Proof.
  intros Hi -> Hpc w'. pose proof (ti_sem _ _ _ _ _ _ _ _ _ _ _ Hi) as Hs. destruct (inv_running _ _ _ _ _ _ _ Hs) as (_ & Hcpu & _). simpl in Hcpu. rewrite Hcpu in Hpc.
  destruct (errno_balanced (to_sys w) A G err Hs Hpc) as (s' & f & E & (A' & G' & Hs') & Ha & Hst). injection E as <- <-. exists A', G'. split; [|split].
  - refine (put_inv T idle P B N Pool w A G t F _ A' G' Hi Hs' _ _ _).
    + apply (timers_ext T idle N _ _ _ _ _ _ _ (ti_timers _ _ _ _ _ _ _ _ _ _ _ Hi)). intros x Hx HI. pose proof (ti_pcs _ _ _ _ _ _ _ _ _ _ _ Hi x Hx) as Hp. rewrite HI in Hp.
      destruct Hp as [sem Hp]. destruct (Hst x sem false Hp) as [HE HW]. split; [by destruct HW as [->| ->]|]. destruct HE as [HE|?]; [|done]. by rewrite HE.
    + apply (pids_ok_same T idle N (kn (ts (wt w)))); [|apply (ti_pids _ _ _ _ _ _ _ _ _ _ _ Hi)]. apply ids_with_errno. reflexivity.
    + done.
  - by apply waiters_refl.
  - intros sem Hsem. specialize (Ha sem Hsem). cbn [acquired posted] in Ha. change (sys_available T (to_sys w') sem + 0 = sys_available T (to_sys w) sem + 0) in Ha. lia.
Qed.

(** ** Starting the watchdog, and waiting *)

Lemma getpid_running (w : world) A G t F : timed_inv w A G t F -> running A <> idle -> u32 (getpid (kn (ts (wt w)))) = N (running A).
Proof.
  intros Hi Hid. pose proof (in_core _ _ _ _ _ _ _ (ti_sem _ _ _ _ _ _ _ _ _ _ _ Hi)) as Hc. destruct (core_running _ _ _ _ _ _ Hc) as (Hh & _ & HrT & H0). simpl in Hh.
  destruct (ti_pids _ _ _ _ _ _ _ _ _ _ _ Hi (running A)) as (Hp & Hr & _); [done|]. unfold getpid. rewrite Hh. destruct (Z.eqb_spec (running A) 0); [done|]. simpl.
  rewrite Hp. apply u32_small. lia.
Qed.

Lemma start_step (w : world) A G t F me sem ticks :
  timed_inv w A G t F -> me = cpu (kn (ts (wt w))) -> wtimed w me = AfterWait -> sem <> 0 -> count_of (ts (wt w)) sem <= 0 -> 0 <= ticks <= 2147483647 ->
  sem_event_valid T idle (to_sys w) (EvWait sem) -> nest_room T (to_sys w) ->
  exists d' s', wd_start wd_fuel (wds (wt w)) (waitdog (wt w) me) ticks SEM_TIMEOUT [u32 (getpid (kn (ts (wt w))))] = Some (d', OK) /\
    sem_wait (ts (wt w)) sem = Some (s', Switched) /\
    let w' := mk_world (set_ts s' (set_wds d' (wt w))) (upd (wpcs w) me (PcWait sem false)) (upd (wtimed w) me InWait) in
    let t' := start_timer (waitdog (wt w) me) ticks SEM_TIMEOUT [N me] t in
    (exists A' G', timed_inv w' A' G' t' F) /\ other_waiters me w w' t t' /\
    forall u, u <> 0 -> sys_available T (to_sys w') u = sys_available T (to_sys w) u.
Proof.
  intros Hi -> HTP Hs0 Hneg Hticks Hv Hroom. pose proof (ti_sem _ _ _ _ _ _ _ _ _ _ _ Hi) as Hs. destruct (inv_running _ _ _ _ _ _ _ Hs) as (_ & Hcpu & Hr & Hw). simpl in Hcpu. rewrite Hcpu in *.
  pose proof (wait_step T idle P B HT (to_sys w) A G sem Hs Hv Hroom) as Hb. destruct Hv as (HQ & Hid & _ & Hl). cbn [to_sys ss pcs] in HQ, Hid, Hl. rewrite Hcpu in *.
  destruct (sem_wait_blocks T idle P B (ts (wt w)) A G sem _ _ _ (in_core _ _ _ _ _ _ _ Hs) (in_views _ _ _ _ _ _ _ Hs) (in_task _ _ _ _ _ _ _ Hs))
    as (s' & A1 & Hrun & _ & _ & _ & Hv' & _); try done.
  { intros p Hp. apply Hroom. by apply (hb_task _ _ _ (co_hold _ _ _ _ _ _ (in_core _ _ _ _ _ _ _ Hs)) sem). }
  cbn [sem_exec] in Hb. unfold after_wait in Hb. cbn [to_sys ss pcs] in Hb. rewrite Hrun, Hcpu in Hb. cbn [mbind option_bind] in Hb.
  destruct Hb as (s1 & f & E & (A' & G' & Hs') & Ha & Hst). injection E as <- <-. set (me := running A) in *.
  pose proof (ti_wd _ _ _ _ _ _ _ _ _ _ _ Hi) as Hrep. pose proof (ti_dogs _ _ _ _ _ _ _ _ _ _ _ Hi) as Hd.
  assert (Hm0 : waitdog (wt w) me <> 0) by (apply (dog_there T idle P B N Pool w A G t F me Hi Hr); congruence).
  destruct (dk_used _ _ _ _ _ _ Hd me Hr Hm0) as [HmF _]. rewrite (getpid_running w A G t F Hi Hid).
  destruct (wd_start_spec 1 wd_fuel (wds (wt w)) t F (waitdog (wt w) me) ticks SEM_TIMEOUT [N me] Hrep) as (d' & Hst1 & Hrep'); try done;
    [simpl; lia|by apply (inv_fuel T idle P B N Pool w A G t F)|].
  exists d', s'. split; [done|]. split; [done|]. cbn zeta. split; [|split].
  - exists A', G'. constructor; simpl; try done.
    + destruct (dogs_kinds _ _ _ _ _ _ _ Hd (kinds_start _ _ _ _ _ _ _ _ Hst1)) as [D1 D2 D3 D4]. constructor; try done.
      intros y Hy. unfold upd. destruct (Z.eqb_spec y me) as [->|]; [|by apply D1]. split; [intros E; by rewrite E in Hm0|done].
    + apply (timers_start T idle N (waits (ts (wt w))) (errnos (ts (wt w)))); try done.
      * apply (ti_timers _ _ _ _ _ _ _ _ _ _ _ Hi).
      * intros y Hy. by apply (dog_inj T idle P B N Pool w A G t F me y).
      * intros y Hne. unfold waits, errnos. rewrite (vw_wait _ _ _ _ _ Hv'), (vw_errno _ _ _ _ _ Hv'), !upd_ne by done. done.
      * unfold errnos. by rewrite (vw_errno _ _ _ _ _ Hv'), upd_eq.
    + apply (pids_ok_same T idle N (kn (ts (wt w)))); [|apply (ti_pids _ _ _ _ _ _ _ _ _ _ _ Hi)]. exact (ids_wait _ _ _ _ Hrun).
    + intros y Hy. unfold upd. destruct (Z.eqb_spec y me) as [->|]; [by exists sem|]. by apply (ti_pcs _ _ _ _ _ _ _ _ _ _ _ Hi).
  - intros y Hy Hne. simpl. rewrite upd_ne by done. split; [done|]. split; [done|]. intros _. apply time_left_start.
    intros E. apply Hne. by apply (dog_inj T idle P B N Pool w A G t F me y).
  - intros u Hu. specialize (Ha u Hu). cbn [acquired posted] in Ha. rewrite !Z.add_0_r in Ha. exact Ha.
Qed.

(** ** Taking the semaphore without waiting *)

Lemma try_step (w : world) A G t F me sem :
  timed_inv w A G t F -> me = cpu (kn (ts (wt w))) -> wtimed w me = AfterWait -> me <> idle -> sem <> 0 ->
  exists s' ret, sem_trywait (ts (wt w)) sem = Some (s', ret) /\ (ret = OK \/ ret = ERROR /\ count_of s' sem <= 0) /\
    let w' := mk_world (set_ts s' (wt w)) (wpcs w) (wtimed w) in
    (exists A' G', timed_inv w' A' G' t F) /\ other_waiters me w w' t t /\ cpu (kn s') = me /\
    forall u, u <> 0 -> sys_available T (to_sys w') u + acquired (Some (sem, ret)) u = sys_available T (to_sys w) u.
Proof.
  intros Hi Hme HTP Hid Hs0. pose proof (ti_sem _ _ _ _ _ _ _ _ _ _ _ Hi) as Hs. destruct (inv_running _ _ _ _ _ _ _ Hs) as (_ & Hcpu & Hr & Hw). simpl in Hcpu.
  rewrite Hcpu in Hme. rewrite <- Hme in *. pose proof (ti_pcs _ _ _ _ _ _ _ _ _ _ _ Hi me Hr) as Hpc. rewrite HTP in Hpc. simpl in Hpc.
  destruct (sem_part T idle P B HT N Pool w A G t F (EvTryWait sem) Hi) as (s1 & f & Hrun & (A' & G' & Hs') & Htm & Hpid & Ha).
  { cbn [sem_event_valid to_sys ss pcs]. by rewrite Hcpu. }
  { done. }
  { by intros x. }
  destruct (sem_trywait_spec T idle P B (ts (wt w)) A G sem _ _ _ (in_core _ _ _ _ _ _ _ Hs) (in_views _ _ _ _ _ _ _ Hs) (in_task _ _ _ _ _ _ _ Hs))
    as (s' & G1 & Hrun' & _ & Hc' & Hv'); try done; [by rewrite <- Hme|by rewrite <- Hme|]. cbn [to_sys ss] in *.
  cbn [sem_exec to_sys ss] in Hrun. rewrite Hrun' in Hrun. injection Hrun as <- <-. exists s'. eexists. split; [exact Hrun'|]. split; [|split; [|split; [|split]]].
  - destruct (Z.ltb_spec 0 (count_of (ts (wt w)) sem)); [by left|right]. split; [done|]. by rewrite (vw_count _ _ _ _ _ Hv').
  - exists A', G'. by apply (put_inv T idle P B N Pool w A G t F _ A' G' Hi Hs').
  - by apply waiters_refl.
  - rewrite Hme. apply (ok_cpu _ _ _ _ (co_ok _ _ _ _ _ _ Hc')).
  - intros u Hu. specialize (Ha u Hu). cbn [posted] in Ha. rewrite Z.add_0_r in Ha. exact Ha.
Qed.

(** ** The whole call *)

(** The call has returned [ret], or the task waits. *)
Definition call_returned (w : world) (me : Z) (t : list timer) (sem ret : Z) (u : timed_state R) : Prop :=
  let w' := mk_world u (wpcs w) (wtimed w) in
  exists A' G' t' F', timed_inv w' A' G' t' F' /\ other_waiters me w w' t t' /\
    forall v, v <> 0 -> sys_available T (to_sys w') v + acquired (Some (sem, ret)) v = sys_available T (to_sys w) v.

Definition call_blocked (w : world) (me : Z) (t : list timer) (sem ticks : Z) (u : timed_state R) : Prop :=
  let w' := mk_world u (upd (wpcs w) me (PcWait sem false)) (upd (wtimed w) me InWait) in
  exists A' G' t' F', timed_inv w' A' G' t' F' /\ other_waiters me w w' t t' /\
    (forall v, v <> 0 -> sys_available T (to_sys w') v = sys_available T (to_sys w) v) /\
    time_left (waitdog u me) t' = Z.min (ticks + 1) 2147483647.

(** Giving up after the watchdog was created. *)
Lemma abandon (w w2 : world) t A2 G2 F2 me sem err :
  timed_inv w2 A2 G2 t F2 -> wtimed w me = NoTimed -> me ∈ T -> me = cpu (kn (ts (wt w2))) -> wpcs w2 = wpcs w -> wpcs w me = PcUser ->
  wtimed w2 = upd (wtimed w) me AfterWait -> other_waiters me w w2 t t ->
  (forall v, v <> 0 -> sys_available T (to_sys w2) v = sys_available T (to_sys w) v) ->
  exists u, errout_disabled (wt w2) me err = Some (u, Returned ERROR) /\ call_returned w me t sem ERROR u.
Proof.
  intros Hi HTP Hme Hcpu Hpcs Hpc HT2 Ho Ha. destruct (drop_step T idle P B HT N Pool HPool w2 A2 G2 t F2 me Hi Hme) as (u & t' & F' & Hrun & Hts & Hi' & Ho'); [by rewrite HT2, upd_eq|].
  unfold errout_disabled. rewrite Hrun. cbn [mbind option_bind]. eexists. split; [done|].
  destruct (errout_step _ A2 G2 t' F' me err Hi') as (A' & G' & Hi3 & Ho3 & Ha3); [cbn [wt]; by rewrite Hts|cbn [wpcs]; by rewrite Hpcs|].
  assert (HTT : forall y, wtimed w y = upd (wtimed w2) me NoTimed y). { intros y. rewrite HT2. unfold upd. by destruct (Z.eqb_spec y me) as [->|]. }
  exists A', G', t', F'. split; [|split].
  - pose proof (retime T idle P B N Pool _ A' G' t' F' (wtimed w) Hi3 HTT) as H. cbn [wt wpcs] in H. by rewrite Hpcs in H.
  - eapply waiters_trans; [exact Ho|]. eapply waiters_trans; [exact Ho'|]. eapply waiters_trans; [exact Ho3|]. apply waiters_refl; [|done]. intros y _. apply HTT.
  - intros v Hv. rewrite <- Ha by done. unfold acquired. rewrite andb_false_r. specialize (Ha3 v Hv). unfold to_sys in *. cbn [wt wpcs] in *. rewrite Hts in Ha3.
    rewrite <- Hpcs. simpl. rewrite Z.add_0_r. exact Ha3.
Qed.

(** It got the semaphore at once. *)
Lemma got_it (w w2 : world) t A2 G2 F2 me sem :
  timed_inv w2 A2 G2 t F2 -> wtimed w me = NoTimed -> me ∈ T -> wpcs w2 = wpcs w ->
  wtimed w2 = upd (wtimed w) me AfterWait -> other_waiters me w w2 t t ->
  (forall v, v <> 0 -> sys_available T (to_sys w2) v + acquired (Some (sem, OK)) v = sys_available T (to_sys w) v) ->
  exists u, drop_waitdog (wt w2) me = Some u /\ call_returned w me t sem OK u.
Proof.
  intros Hi HTP Hme Hpcs HT2 Ho Ha. destruct (drop_step T idle P B HT N Pool HPool w2 A2 G2 t F2 me Hi Hme) as (u & t' & F' & Hrun & Hts & Hi' & Ho'); [by rewrite HT2, upd_eq|].
  exists u. split; [done|]. assert (HTT : forall y, wtimed w y = upd (wtimed w2) me NoTimed y). { intros y. rewrite HT2. unfold upd. by destruct (Z.eqb_spec y me) as [->|]. }
  exists A2, G2, t', F'. split; [|split].
  - pose proof (retime T idle P B N Pool _ A2 G2 t' F' (wtimed w) Hi' HTT) as H. cbn [wt wpcs] in H. by rewrite Hpcs in H.
  - eapply waiters_trans; [exact Ho|]. eapply waiters_trans; [exact Ho'|]. apply waiters_refl; [|done]. intros y _. apply HTT.
  - intros v Hv. specialize (Ha v Hv). unfold to_sys in *. cbn [wt wpcs] in *. rewrite Hpcs in Ha. rewrite Hts. exact Ha.
Qed.

Lemma abstime2ticks_range (c : clock_s R) id a k : clock_abstime2ticks c id a = inr k -> k <= 2147483647.
Proof.
  unfold clock_abstime2ticks. intros H. repeat (case_match; simplify_eq); try lia; apply i32_range.
Qed.

(** From the critical section on, in the world [w1] with the new watchdog. *)
Definition call_ends (w : world) (me : Z) (t : list timer) (sem : Z) (a : timespec) (r : option (timed_state R * outcome)) : Prop :=
  exists u o, r = Some (u, o) /\
    match o with
    | Returned ret => call_returned w me t sem ret u
    | Switched => exists ticks, clock_abstime2ticks (clk (wt w)) CLOCK_REALTIME a = inr ticks /\ 0 < ticks /\ call_blocked w me t sem ticks u
    end.

Lemma locked_step (w w1 : world) A G t F me sem a :
  timed_inv w1 A G t F -> me ∈ T -> me = cpu (kn (ts (wt w1))) -> wtimed w me = NoTimed -> wtimed w1 = upd (wtimed w) me AfterWait ->
  wpcs w me = PcUser -> to_sys w1 = to_sys w -> clk (wt w1) = clk (wt w) -> other_waiters me w w1 t t -> me <> idle -> sem <> 0 ->
  lock (kn (ts (wt w1))) me < MAX_LOCK_COUNT -> nest_room T (to_sys w1) ->
  call_ends w me t sem a (sem_timedwait_locked (wt w1) me sem a).
Proof.
  intros Hi1 Hr Hme HTP HT1 Hpc Hsys Hclk Ho1 Hid Hs0 Hl Hroom. assert (Hpcs : wpcs w1 = wpcs w) by (injection Hsys; done).
  destruct (try_step w1 A G t F me sem Hi1 Hme) as (s' & ret & Htry & Hret & (A2 & G2 & Hi2) & Ho2 & Hcpu2 & Ha2); [by rewrite HT1, upd_eq|done|done|].
  unfold sem_timedwait_locked. rewrite Htry. cbn [mbind option_bind]. set (w2 := mk_world (set_ts s' (wt w1)) _ _) in *. rewrite Hsys in Ha2.
  change (set_ts s' (wt w1)) with (wt w2). assert (Ho12 : other_waiters me w w2 t t) by (by eapply waiters_trans). destruct Hret as [->|[-> Hneg]].
  { destruct (got_it w w2 t A2 G2 F me sem Hi2 HTP Hr Hpcs HT1 Ho12 Ha2) as (u & Hdrop & Hcall). rewrite Z.eqb_refl, Hdrop. by exists u, (Returned OK). }
  assert (Ha2' : forall v, v <> 0 -> sys_available T (to_sys w2) v = sys_available T (to_sys w) v).
  { intros v Hv. rewrite <- (Ha2 v Hv). unfold acquired. rewrite andb_false_r. simpl. lia. }
  assert (Hgive : forall err, call_ends w me t sem a (errout_disabled (wt w2) me err)).
  { intros err. destruct (abandon w w2 t A2 G2 F me sem err Hi2 HTP Hr (eq_sym Hcpu2) Hpcs Hpc HT1 Ho12 Ha2') as (u & Hu & Hcall). by exists u, (Returned ERROR). }
  change (ERROR =? OK) with false. cbv iota. destruct (_ || _); [apply Hgive|]. change (clk (wt w2)) with (clk (wt w1)). rewrite Hclk.
  destruct (clock_abstime2ticks (clk (wt w)) CLOCK_REALTIME a) as [err|ticks] eqn:Hticks; [apply Hgive|]. destruct (Z.leb_spec ticks 0) as [|Hpos]; [apply Hgive|].
  destruct (start_step w2 A2 G2 t F me sem ticks Hi2 (eq_sym Hcpu2)) as (d2 & s2 & Hst & Hw & (A3 & G3 & Hi3) & Ho3 & Ha3); try done.
  { simpl. by rewrite HT1, upd_eq. }
  { pose proof (abstime2ticks_range _ _ _ _ Hticks). lia. }
  { destruct (trywait_fails _ _ _ Htry) as [_ Hq]. cbn [sem_event_valid to_sys w2 ss pcs wt wpcs ts set_ts]. rewrite Hcpu2, Hpcs. split; [done|]. split; [done|]. split; [done|].
    by rewrite (proj1 (Hq me)). }
  { destruct (trywait_fails _ _ _ Htry) as [_ Hq]. intros x Hx. cbn [to_sys w2 ss wt ts set_ts]. rewrite (proj2 (Hq x)). by apply (Hroom x). }
  rewrite Hst. cbn [mbind option_bind]. rewrite Hw. cbn [mbind option_bind]. eexists _, Switched. split; [done|]. exists ticks. split; [done|]. split; [done|].
  assert (HTT : forall y, upd (wtimed w) me InWait y = upd (wtimed w2) me InWait y). { intros y. simpl. rewrite HT1. unfold upd. by destruct (Z.eqb_spec y me) as [->|]. }
  eexists A3, G3, _, F. rewrite <- Hpcs. split; [|split; [|split]].
  - exact (retime T idle P B N Pool _ A3 G3 _ F _ Hi3 HTT).
  - eapply waiters_trans; [exact Ho12|]. eapply waiters_trans; [exact Ho3|]. apply waiters_refl; [|done]. intros y _. apply HTT.
  - intros v Hv. rewrite <- (Ha2' v Hv). exact (Ha3 v Hv).
  - exact (time_left_started _ _ _ _ _ _ _ (ti_wd _ _ _ _ _ _ _ _ _ _ _ Hi3)).
Qed.

(** No watchdog to be had: nothing but the error number changes. *)
Lemma no_watchdog (w : world) A G t F me :
  timed_inv w A G t F -> waitdog (wt w) me = 0 ->
  let w' := mk_world (set_waitdog me 0 (set_wds (wds (wt w)) (wt w))) (wpcs w) (wtimed w) in
  timed_inv w' A G t F /\ other_waiters me w w' t t.
Proof.
  intros Hi H0 w'. assert (HD : forall y, upd (waitdog (wt w)) me 0 y = waitdog (wt w) y) by (intros y; unfold upd; by destruct (Z.eqb_spec y me) as [->|]).
  split; [|intros y Hy Hne; simpl; by rewrite HD]. destruct Hi as [I1 I2 [D1 D2 D3 D4] [T1 T2 T3] I5 I6]. constructor; simpl; try done.
  - constructor; try done; intros x; rewrite HD; [apply D1| |apply D3]. intros y. rewrite HD. apply D2.
  - constructor; [|intros x; rewrite HD; apply T2|intros x; rewrite HD; apply T3]. intros y Hy. destruct (T1 y Hy) as (x & ? & ? & ?). exists x. by rewrite HD.
Qed.

Lemma timedwait_step (w : world) A G t F sem abstime heap :
  timed_inv w A G t F -> timed_event_valid T idle Pool w (TeTimed sem abstime heap) -> nest_room T (to_sys w) ->
  let me := cpu (kn (ts (wt w))) in
  exists u o, sem_timedwait (wt w) sem abstime heap = Some (u, o) /\
    match o with
    | Returned ret => call_returned w me t sem ret u
    | Switched => exists a ticks, abstime = Some a /\ clock_abstime2ticks (clk (wt w)) CLOCK_REALTIME a = inr ticks /\ 0 < ticks /\
        call_blocked w me t sem ticks u
    end.
Proof.
  intros Hi (Hpc & HTP & Hid & Hl & Hheap) Hroom me. fold me in Hpc, HTP, Hid, Hl. pose proof (ti_sem _ _ _ _ _ _ _ _ _ _ _ Hi) as Hs.
  destruct (inv_running _ _ _ _ _ _ _ Hs) as (Hh & Hcpu & Hr & _). cbn [to_sys ss] in Hh, Hcpu. rewrite <- Hcpu in Hr. fold me in Hr, Hcpu. rewrite <- Hcpu in Hh.
  pose proof (in_task _ _ _ _ _ _ _ Hs) as Hirq. cbn [to_sys ss] in Hirq.
  assert (H0 : waitdog (wt w) me = 0) by (by apply (dk_none _ _ _ _ _ _ (ti_dogs _ _ _ _ _ _ _ _ _ _ _ Hi))).
  assert (Herr : forall w1 err, timed_inv w1 A G t F /\ other_waiters me w w1 t t -> to_sys w1 = to_sys w -> wtimed w1 = wtimed w -> call_returned w me t sem ERROR (errout (wt w1) err).1).
  { intros w1 err [Hi1 Ho1] Hsys HT1. injection Hsys as Hts Hpcs. destruct (errout_step w1 A G t F me err Hi1) as (A' & G' & Hi' & Ho & Ha); [by rewrite Hts|by rewrite Hpcs|].
    rewrite Hpcs, HT1 in *. exists A', G', t, F. split; [done|]. split; [by eapply waiters_trans|].
    intros v Hv. unfold acquired. rewrite andb_false_r. cbn [Z.b2z]. rewrite Z.add_0_r. etransitivity; [exact (Ha v Hv)|]. unfold to_sys. by rewrite Hts, Hpcs. }
  assert (Hself : timed_inv w A G t F /\ other_waiters me w w t t) by (split; [done|by apply waiters_refl]).
  unfold sem_timedwait. rewrite Hh, Hirq, H0. cbn [assert negb andb Z.eqb mbind option_bind].
  destruct abstime as [a|]; [|exists (errout (wt w) EINVAL).1, (Returned ERROR); by auto].
  destruct (Z.eqb_spec sem 0) as [|Hs0]; [exists (errout (wt w) EINVAL).1, (Returned ERROR); by auto|].
  destruct (create_spec w A G t F me heap Hi Hr HTP Hheap) as (d' & dog & F' & Hrun & _ & Hcase). rewrite Hrun. cbn [mbind option_bind].
  destruct (Z.eqb_spec dog 0) as [Hd0|Hd0].
  - destruct Hcase as [(-> & -> & ->)|[? _]]; [|done]. eexists _, (Returned ERROR). split; [done|]. exact (Herr _ ENOMEM (no_watchdog w A G t F me Hi H0) eq_refl eq_refl).
  - destruct (create_step w A G t F me heap d' dog Hi Hr HTP Hpc Hheap Hrun Hd0) as (F1 & Hi1 & Ho1).
    destruct (locked_step w _ A G t F1 me sem a Hi1 Hr eq_refl HTP eq_refl Hpc eq_refl eq_refl Ho1 Hid Hs0 Hl Hroom) as (u & o & Hu & Ho). exists u, o. split; [exact Hu|].
    destruct o as [|]; [done|]. destruct Ho as (ticks & ? & ? & ?). by exists a, ticks.
Qed.

Lemma timed_call_step (w : world) A G t F sem abstime heap :
  timed_inv w A G t F -> timed_event_valid T idle Pool w (TeTimed sem abstime heap) -> nest_room T (to_sys w) ->
  timed_ok w t (TeTimed sem abstime heap) (timed_exec w (TeTimed sem abstime heap)).
Proof.
  intros Hi Hv Hroom. destruct (timedwait_step w A G t F sem abstime heap Hi Hv Hroom) as (u & o & Hrun & Hcall). destruct Hv as (_ & HTP & _). cbn [timed_exec]. rewrite Hrun. cbn [mbind option_bind].
  set (me := cpu (kn (ts (wt w)))) in *. destruct o as [ret|].
  - destruct Hcall as (A' & G' & t' & F' & Hi' & Ho & Ha). eexists _, _. split; [done|]. split.
    + exists A', G', t', F'. split; [done|]. apply (waiters_progress T idle P B N Pool me w A G F); [done|done|]. left. congruence.
    + intros v Hv. cbn [timed_posted]. rewrite Z.add_0_r. by apply Ha.
  - destruct Hcall as (a & ticks & _ & _ & _ & A' & G' & t' & F' & Hi' & Ho & Ha & _). eexists _, _. split; [done|]. split.
    + exists A', G', t', F'. split; [done|]. apply (waiters_progress T idle P B N Pool me w A G F); [done|done|]. left. congruence.
    + intros v Hv. cbn [timed_posted acquired]. rewrite !Z.add_0_r. by apply Ha.
Qed.
End call.
