(* ===== verification/SemTimedTheorems.v ===== *)
(** * Timed waits: theorems

    What the semaphores, the watchdogs and the clock guarantee together, under
    every interleaving of tasks and interrupts. *)

From stdpp Require Import base tactics numbers sets list sorting.
From S2P Require Import Prelude Queue QueueProps Sched SchedProps SchedOps SchedKernel SchedPriority SchedTheorems.
From S2P Require Import Sem SemHolder SemPrio SemOps SemCalls SemSystem SemSteps SemTheorems SemIds.
From S2P Require Import Wdog WdogProps WdogTick WdogTimers Calendar Clock ClockTheorems Timer TimerOps.
From S2P Require Import SemTimed SemTimedSteps SemTimedTick SemTimedCall.

(** ** Runs *)

Section runs.
Context {R : Type} (T : list Z) (idle : Z) (P : list Z) (B : Z -> Z) (N : Z -> Z) (Pool : list Z).
Abbreviation world := (world R).

(** A state in which the invariants hold. *)
Definition timed_good (w : world) : Prop :=
  NoDup T /\ Z.of_nat (length Pool) <= CONFIG_PREALLOC_WDOGS /\ exists A G t F, timed_inv T idle P B N Pool w A G t F.

(** States reached by events, with the successful waits and the posts so far.
    Every wait finds room for the priorities it notes. *)
Inductive timed_run (w0 : world) : world -> (Z -> Z) -> (Z -> Z) -> Prop :=
  | trun_start : timed_run w0 w0 (fun _ => 0) (fun _ => 0)
  | trun_event w got put e w' f :
      timed_run w0 w got put -> timed_event_valid T idle Pool w e -> (is_timed_wait e = true -> nest_room T (to_sys w)) ->
      timed_exec w e = Some (w', f) ->
      timed_run w0 w' (fun sem => got sem + acquired f sem) (fun sem => put sem + timed_posted e sem).


Section good.
Context (HT : NoDup T) (HPool : Z.of_nat (length Pool) <= CONFIG_PREALLOC_WDOGS).
Abbreviation timed_inv := (timed_inv T idle P B N Pool).

Lemma timed_exec_ok (w : world) A G t F e :
  timed_inv w A G t F -> timed_event_valid T idle Pool w e -> (is_timed_wait e = true -> nest_room T (to_sys w)) ->
  timed_ok T idle P B N Pool w t e (timed_exec w e).
Proof.
  intros Hi Hv Hroom. destruct e as [e|sem abstime heap| |].
  - by apply (sem_step T idle P B HT N Pool w A G t F).
  - specialize (Hroom eq_refl). by apply (timed_call_step T idle P B HT N Pool HPool w A G t F).
  - by apply (resume_timed_step T idle P B HT N Pool HPool w A G t F).
  - by apply (timed_tick_step T idle P B HT N Pool w A G t F).
Qed.

Lemma timed_run_ok w0 w got put A G t F :
  timed_inv w0 A G t F -> timed_run w0 w got put ->
  (exists A' G' t' F', timed_inv w A' G' t' F') /\
  forall sem, sem <> 0 -> sys_available T (to_sys w) sem + got sem = sys_available T (to_sys w0) sem + put sem.
Proof.
  intros Hi Hrun. induction Hrun as [|w got put e w' f _ [(A1 & G1 & t1 & F1 & IH) IHa] Hv Hroom Hrun]; [split; [by exists A, G, t, F|lia]|].
  destruct (timed_exec_ok w A1 G1 t1 F1 e IH Hv Hroom) as (w1 & f1 & Hrun1 & (A2 & G2 & t2 & F2 & Hi2 & _) & Ha). rewrite Hrun in Hrun1. injection Hrun1 as <- <-.
  split; [by exists A2, G2, t2, F2|]. intros sem Hs. specialize (IHa sem Hs). specialize (Ha sem Hs). lia.
Qed.

End good.

(** ** The clock *)





End runs.

(** ** Theorems *)

(** C5: Semaphores with timed waits keep their books.  From a state outside
    of the calls, after any interleaving of timed and untimed waits, posts,
    resumptions, interrupts and timer ticks in which every wait finds room to
    note one more priority for each task (fewer than CONFIG_SEM_NNESTPRIO = 16
    noted): no more waits for a semaphore have succeeded than it had counts
    and got posts, and a negative count is exactly the number of tasks that
    wait; a task holds a watchdog exactly while it is inside a timed wait, and
    no two tasks hold the same one; and every further event returns, a wait if
    it finds that room. *)
Theorem timed_runs_balance {R} T idle P B N Pool (w0 : world R) w got put :
  timed_good T idle P B N Pool w0 -> (forall x, x ∈ T -> wpcs w0 x = PcUser) -> timed_run T idle Pool w0 w got put ->
  (forall sem, sem <> 0 ->
     got sem <= Z.max 0 (count_of (ts (wt w0)) sem) + put sem /\
     tally (is_waiter (waits (ts (wt w))) sem) T = Z.max 0 (- count_of (ts (wt w)) sem)) /\
  (forall x, x ∈ T -> (waitdog (wt w) x = 0 <-> wtimed w x = NoTimed)) /\
  (forall x y, x ∈ T -> y ∈ T -> waitdog (wt w) x <> 0 -> waitdog (wt w) x = waitdog (wt w) y -> x = y) /\
  (forall e, timed_event_valid T idle Pool w e -> (is_timed_wait e = true -> nest_room T (to_sys w)) -> is_Some (timed_exec w e)).
Proof.
  intros (HT & HPool & A & G & t & F & Hi) HQ Hrun.
  destruct (timed_run_ok T idle P B N Pool HT HPool w0 w got put A G t F Hi Hrun) as [(A' & G' & t' & F' & Hi') Ha]. split; [|split; [|split]].
  - intros sem Hs. specialize (Ha sem Hs). rewrite (available_user T (to_sys w0) sem HQ) in Ha. pose proof (available_ge T (to_sys w) sem) as Hge.
    split; [simpl in *; lia|]. by apply (bk_count _ _ _ _ _ (in_books _ _ _ _ _ _ _ (ti_sem _ _ _ _ _ _ _ _ _ _ _ Hi'))).
  - apply (dk_none _ _ _ _ _ _ (ti_dogs _ _ _ _ _ _ _ _ _ _ _ Hi')).
  - apply (dk_inj _ _ _ _ _ _ (ti_dogs _ _ _ _ _ _ _ _ _ _ _ Hi')).
  - intros e Hv Hroom. destruct (timed_exec_ok T idle P B N Pool HT HPool w A' G' t' F' e Hi' Hv Hroom) as (w1 & f & -> & _). done.
Qed.


(** ** A small system with timed waits *)

Definition timed_blank : wd_state := mk_wd (mk_links (fun _ => 0) (fun _ => 0)) (fun _ => mk_wdog 0 0 0 0 []) empty_queue empty_queue 0.

Definition timed_start : world unit :=
  mk_world (mk_timed (ss sys_start) (default timed_blank (wd_initialize timed_blank 65536)) (fun _ => 0) (mk_clock 0 (mk_ts 1000 0) tt)) (pcs sys_start) (fun _ => NoTimed).

Definition timed_pids (x : Z) : Z := if x =? 16 then 1 else if x =? 24 then 2 else if x =? 32 then 3 else 0.

Abbreviation timed_pool := (pool 32 65536 SIZEOF_WDOG).

Lemma timed_start_good : timed_good sys_T 8 sys_P (bases sys_start) timed_pids timed_pool timed_start.
Proof.
  destruct sys_start_good as (HT & A & G & Hs). split; [exact HT|]. split; [vm_compute; discriminate|]. exists A, G, [], timed_pool.
  destruct (wd_initialize_spec timed_blank 65536) as (d & Hd & Hr); [lia|done|]. constructor.
  - exact Hs.
  - change (wd_rep 1 (default timed_blank (wd_initialize timed_blank 65536)) [] timed_pool). rewrite Hd. exact Hr.
  - constructor; [intros x _; split; reflexivity|intros x y _ _ H; by destruct H|intros x _ H; by destruct H|intros x Hx; exact Hx].
  - constructor; [intros y Hy; exfalso; exact (proj1 (elem_of_nil y) Hy)|intros x _ H; change (NoTimed = InWait) in H; discriminate H..].
  - clear d Hd Hr. change (pids_ok sys_T 8 timed_pids (kn (sem_initholders 8192 sys_before))). destruct (sem_initholders_spec 8192 sys_before) as (_ & -> & _); [lia|done|].
    intros x [Hx Hne]. unfold demo_T in Hx. demo_elem Hx; try done; vm_compute; (split; [reflexivity|split; [split; discriminate|reflexivity]]).
  - intros x _. exact I.
Qed.

Definition tnext (w : world unit) (e : timed_event) : world unit := match timed_exec w e with Some (w', _) => w' | None => w end.

Lemma texec_next w e f : option_map snd (timed_exec w e) = Some f -> timed_exec w e = Some (tnext w e, f).
Proof. unfold tnext. destruct (timed_exec w e) as [[w' f']|]; [|done]. simpl. by intros [= ->]. Qed.

(** Task 32 waits for semaphore 4300 until 15 ms have passed. *)
Abbreviation wait_15ms := (TeTimed 4300 (Some (mk_ts 1000 15000000)) 0).

Lemma wait_15ms_valid : timed_event_valid sys_T 8 timed_pool timed_start wait_15ms.
Proof.
  split; [vm_compute; reflexivity|]. split; [reflexivity|]. split; [vm_compute; discriminate|]. split; [vm_compute; reflexivity|by left].
Qed.

Lemma timed_start_room : nest_room sys_T (to_sys timed_start).
Proof. apply (sys_room sys_start). vm_compute. reflexivity. Qed.

Lemma timed_runs_balance_witness :
  exists got put, timed_run sys_T 8 timed_pool timed_start (tnext timed_start wait_15ms) got put /\
    tally (is_waiter (waits (ts (wt (tnext timed_start wait_15ms)))) 4300) sys_T = 1 /\ is_Some (timed_exec (tnext timed_start wait_15ms) TeTick).
Proof.
  assert (Hrun : timed_run sys_T 8 timed_pool timed_start (tnext timed_start wait_15ms) (fun sem => 0 + acquired None sem) (fun sem => 0 + timed_posted wait_15ms sem)).
  { apply (trun_event _ _ _ timed_start timed_start (fun _ => 0) (fun _ => 0)); [constructor|exact wait_15ms_valid|intros _; exact timed_start_room|]. apply texec_next. vm_compute. reflexivity. }
  destruct (timed_runs_balance _ _ _ _ _ _ _ _ _ _ timed_start_good (fun _ _ => eq_refl) Hrun) as (H1 & _ & _ & H4). eexists _, _. split; [exact Hrun|]. split; [|by apply H4; [|discriminate]].
  destruct (H1 4300 ltac:(discriminate)) as [_ H]. rewrite H. vm_compute. reflexivity.
Defined.

