(* ===== verification/Bytes.v ===== *)
(** * Byte memory

    The memory the functions of the C library work on: a partial map from
    addresses to bytes.  An access to an address that is not mapped is [None].
    [char] is unsigned, as it is on ARM. *)

From stdpp Require Import base tactics numbers list gmap.
From S2P Require Import Prelude.

Abbreviation bmem := (gmap Z Z).

Definition load_byte (m : bmem) (a : Z) : option Z := m !! a.

Definition store_byte (m : bmem) (a v : Z) : option bmem :=
  _ ← m !! a; Some (<[a := v]> m).

(** [n] consecutive bytes *)
Fixpoint load_bytes (m : bmem) (a : Z) (n : nat) : option (list Z) :=
  match n with
  | O => Some []
  | S n => b ← load_byte m a; bs ← load_bytes m (a + 1) n; Some (b :: bs)
  end.

Fixpoint store_bytes (m : bmem) (a : Z) (bs : list Z) : option bmem :=
  match bs with
  | [] => Some m
  | b :: bs => m ← store_byte m a b; store_bytes m (a + 1) bs
  end.

(** ** Contents and frames *)

Abbreviation len l := (Z.of_nat (length l)).

(** The bytes from [a] on are [bs]. *)
Fixpoint bytes_at (m : bmem) (a : Z) (bs : list Z) : Prop :=
  match bs with
  | [] => True
  | b :: bs => m !! a = Some b /\ bytes_at m (a + 1) bs
  end.

(** [m'] and [m] agree except on the addresses from [a] to before [e]. *)
Definition same_outside (a e : Z) (m m' : bmem) : Prop :=
  forall c, c < a \/ e <= c -> m' !! c = m !! c.

#[export] Instance bytes_at_dec m a bs : Decision (bytes_at m a bs).
Proof. revert a. induction bs as [|b bs IH]; intros a; simpl; apply _. Defined.

Lemma bytes_at_app m a xs ys : bytes_at m a (xs ++ ys) <-> bytes_at m a xs /\ bytes_at m (a + len xs) ys.
Proof.
  revert a. induction xs as [|x xs IH]; intros a; simpl.
  - rewrite Z.add_0_r. tauto.
  - rewrite IH. replace (a + 1 + len xs) with (a + Z.of_nat (S (length xs))) by lia. tauto.
Qed.

Lemma bytes_at_frame m m' a bs :
  bytes_at m a bs -> (forall c, a <= c < a + len bs -> m' !! c = m !! c) -> bytes_at m' a bs.
Proof.
  revert a. induction bs as [|b bs IH]; intros a; [done|]. simpl. intros [Hb Hbs] Hf. split.
  - rewrite Hf by lia. done.
  - apply IH; [done|]. intros c Hc. apply Hf. lia.
Qed.

Lemma bytes_at_outside m m' a e c bs :
  bytes_at m c bs -> same_outside a e m m' -> c + len bs <= a \/ e <= c -> bytes_at m' c bs.
Proof. intros Hb Hs Ho. apply (bytes_at_frame m); [done|]. intros x Hx. apply Hs. lia. Qed.

Lemma bytes_at_lookup m a bs i b : bytes_at m a bs -> bs !! i = Some b -> m !! (a + Z.of_nat i) = Some b.
Proof.
  revert a i. induction bs as [|x bs IH]; intros a i Hb Hi; [done|]. destruct Hb as [Hx Hb].
  destruct i as [|i]; simpl in *; simplify_eq.
  - by rewrite Z.add_0_r.
  - rewrite <- (IH _ _ Hb Hi). f_equal. lia.
Qed.

Lemma same_outside_refl a e m : same_outside a e m m.
Proof. by intros c _. Qed.

Lemma same_outside_trans a e m1 m2 m3 : same_outside a e m1 m2 -> same_outside a e m2 m3 -> same_outside a e m1 m3.
Proof. intros H1 H2 c Hc. by rewrite H2, H1. Qed.

Lemma same_outside_weaken a e a' e' m m' : same_outside a e m m' -> a' <= a -> e <= e' -> same_outside a' e' m m'.
Proof. intros H Ha He c Hc. apply H. lia. Qed.

Create HintDb bytes.
#[export] Hint Resolve same_outside_refl : bytes.

(** ** Loads and stores *)

Lemma load_bytes_at m a bs : bytes_at m a bs -> load_bytes m a (length bs) = Some bs.
Proof.
  revert a. induction bs as [|b bs IH]; intros a; [done|]. simpl. intros [Hb Hbs].
  unfold load_byte. rewrite Hb. simpl. by rewrite IH.
Qed.

Lemma store_byte_at m a v b : m !! a = Some b -> store_byte m a v = Some (<[a := v]> m).
Proof. intros H. unfold store_byte. by rewrite H. Qed.

Lemma same_outside_store a e c v m : a <= c < e -> same_outside a e m (<[c := v]> m).
Proof. intros Hc x Hx. rewrite lookup_insert_ne by lia. done. Qed.

(** Storing over mapped bytes. *)
Lemma store_bytes_at m a old bs :
  bytes_at m a old -> length old = length bs ->
  exists m', store_bytes m a bs = Some m' /\ bytes_at m' a bs /\ same_outside a (a + len bs) m m'.
Proof.
  revert m a old. induction bs as [|b bs IH]; intros m a old Ho Hl; simpl.
  - exists m. split_and!; auto with bytes.
  - destruct old as [|o old]; [done|]. destruct Ho as [Ho Hos]. rewrite (store_byte_at _ _ _ o) by done. simpl.
    destruct (IH (<[a := b]> m) (a + 1) old) as (m' & -> & Hb & Hs).
    { apply (bytes_at_frame m); [done|]. intros c Hc. by rewrite lookup_insert_ne by lia. }
    { simpl in Hl. lia. }
    exists m'. split_and!; [done| |done|].
    + rewrite Hs by lia. apply lookup_insert_eq.
    + intros c Hc. rewrite Hs by lia. by rewrite lookup_insert_ne by lia.
Qed.

(** A memory that holds the given bytes and nothing else. *)
Fixpoint mem_of (a : Z) (bs : list Z) : bmem :=
  match bs with
  | [] => ∅
  | b :: bs => <[a := b]> (mem_of (a + 1) bs)
  end.

Lemma mem_of_bytes a bs : bytes_at (mem_of a bs) a bs.
Proof.
  revert a. induction bs as [|b bs IH]; intros a; [done|]. simpl. split; [apply lookup_insert_eq|].
  apply (bytes_at_frame (mem_of (a + 1) bs)); [apply IH|]. intros c Hc. by rewrite lookup_insert_ne by lia.
Qed.
