(* ===== verification/Qsort.v ===== *)
(** * Sorting and searching arrays (lib/libc/stdlib)

    [qsort], Bentley and McIlroy's quicksort with three-way partitioning, and
    [bsearch], on arrays in byte memory.  The comparison function of the caller
    is a parameter: it is given the contents of two elements.  [long] has 4
    bytes.  [None] is an access to memory that is not mapped, a failed
    assertion, or a loop that does not end within its fuel. *)

From stdpp Require Import base tactics numbers list gmap.
From S2P Require Import Prelude Bytes.

(** ** Exchanging memory blocks *)

(** The body of [swapcode] for a type of [w] bytes: a do-while loop over [i]
    objects. *)
Fixpoint swapcode (fuel : nat) (w : nat) (m : bmem) (pi pj i : Z) : option bmem :=
  match fuel with
  | O => None
  | S fuel =>
      t ← load_bytes m pi w;
      u ← load_bytes m pj w;
      m ← store_bytes m pi u;
      m ← store_bytes m pj t;
      if 0 <? i - 1 then swapcode fuel w m (pi + Z.of_nat w) (pj + Z.of_nat w) (i - 1) else Some m
  end.

Definition swapfunc (m : bmem) (a b n swaptype : Z) : option bmem :=
  let fuel := S (Z.to_nat n) in
  if swaptype <=? 1 then swapcode fuel 4 m a b (u32 n / 4) else swapcode fuel 1 m a b (u32 n / 1).

Definition SWAPINIT (a size : Z) : Z :=
  if negb (a mod 4 =? 0) || negb (size mod 4 =? 0) then 2 else if size =? 4 then 0 else 1.

Definition vecswap (m : bmem) (a b n swaptype : Z) : option bmem :=
  if 0 <? n then swapfunc m a b n swaptype else Some m.

Section sort.
Context (compar : list Z -> list Z -> Z) (size : Z).

(** [compar(a, b)] *)
Definition call_compar (m : bmem) (a b : Z) : option Z :=
  x ← load_bytes m a (Z.to_nat size);
  y ← load_bytes m b (Z.to_nat size);
  Some (compar x y).

Definition swap (m : bmem) (a b swaptype : Z) : option bmem :=
  if swaptype =? 0 then
    t ← load_bytes m a 4;
    u ← load_bytes m b 4;
    m ← store_bytes m a u;
    store_bytes m b t
  else swapfunc m a b (i32 size) swaptype.

Definition med3 (m : bmem) (a b c : Z) : option Z :=
  r ← call_compar m a b;
  if r <? 0 then
    r ← call_compar m b c;
    if r <? 0 then Some b else r ← call_compar m a c; Some (if r <? 0 then c else a)
  else
    r ← call_compar m b c;
    if 0 <? r then Some b else r ← call_compar m a c; Some (if r <? 0 then a else c).

(** ** Insertion sort *)

Fixpoint insert_down (fuel : nat) (m : bmem) (swaptype base pl : Z) : option bmem :=
  match fuel with
  | O => None
  | S fuel =>
      if base <? pl then
        r ← call_compar m (pl - size) pl;
        if 0 <? r then m ← swap m pl (pl - size) swaptype; insert_down fuel m swaptype base (pl - size)
        else Some m
      else Some m
  end.

Fixpoint insertion_sort (fuel : nat) (m : bmem) (swaptype base pm e : Z) : option bmem :=
  match fuel with
  | O => None
  | S fuel =>
      if pm <? e then
        m ← insert_down (S (Z.to_nat (pm - base))) m swaptype base pm;
        insertion_sort fuel m swaptype base (pm + size) e
      else Some m
  end.

(** ** Partitioning *)

(** The median of three or nine elements for the pivot. *)
Definition choose_pivot (m : bmem) (base nmemb : Z) : option Z :=
  let pm := base + u32 (nmemb / 2 * size) in
  if 7 <? nmemb then
    let pl := base in
    let pn := base + u32 ((nmemb - 1) * size) in
    '(pl, pm, pn) ←
      (if 40 <? nmemb then
         let d := i32 (nmemb / 8 * size) in
         pl ← med3 m pl (pl + d) (pl + 2 * d);
         pm ← med3 m (pm - d) pm (pm + d);
         pn ← med3 m (pn - 2 * d) (pn - d) pn;
         Some (pl, pm, pn)
       else Some (pl, pm, pn));
    med3 m pl pm pn
  else Some pm.

Fixpoint scan_up (fuel : nat) (m : bmem) (swaptype base pa pb pc swap_cnt : Z) : option (bmem * Z * Z * Z) :=
  match fuel with
  | O => None
  | S fuel =>
      if pb <=? pc then
        r ← call_compar m pb base;
        if r <=? 0 then
          if r =? 0 then m ← swap m pa pb swaptype; scan_up fuel m swaptype base (pa + size) (pb + size) pc 1
          else scan_up fuel m swaptype base pa (pb + size) pc swap_cnt
        else Some (m, pa, pb, swap_cnt)
      else Some (m, pa, pb, swap_cnt)
  end.

Fixpoint scan_down (fuel : nat) (m : bmem) (swaptype base pb pc pd swap_cnt : Z) : option (bmem * Z * Z * Z) :=
  match fuel with
  | O => None
  | S fuel =>
      if pb <=? pc then
        r ← call_compar m pc base;
        if 0 <=? r then
          if r =? 0 then m ← swap m pc pd swaptype; scan_down fuel m swaptype base pb (pc - size) (pd - size) 1
          else scan_down fuel m swaptype base pb (pc - size) pd swap_cnt
        else Some (m, pc, pd, swap_cnt)
      else Some (m, pc, pd, swap_cnt)
  end.

Fixpoint partition (fuel : nat) (m : bmem) (swaptype base pa pb pc pd swap_cnt : Z)
  : option (bmem * Z * Z * Z * Z * Z) :=
  match fuel with
  | O => None
  | S fuel' =>
      '(m, pa, pb, swap_cnt) ← scan_up fuel m swaptype base pa pb pc swap_cnt;
      '(m, pc, pd, swap_cnt) ← scan_down fuel m swaptype base pb pc pd swap_cnt;
      if pc <? pb then Some (m, pa, pb, pc, pd, swap_cnt)
      else
        m ← swap m pb pc swaptype;
        partition fuel' m swaptype base pa (pb + size) (pc - size) pd 1
  end.

(** ** qsort *)

(** One turn of [loop:]; [rec] sorts the part before the pivot and is also the
    jump back to [loop:] for the part behind it. *)
Definition qsort_turn (rec : bmem -> Z -> Z -> option bmem) (m : bmem) (base nmemb : Z) : option bmem :=
  let swaptype := SWAPINIT base size in
  let fuel := S (Z.to_nat nmemb) in
  let e := base + u32 (nmemb * size) in
  if nmemb <? 7 then insertion_sort fuel m swaptype base (base + size) e
  else
    pm ← choose_pivot m base nmemb;
    m ← swap m base pm swaptype;
    let pa := base + size in
    let pc := base + u32 ((nmemb - 1) * size) in
    '(m, pa, pb, pc, pd, swap_cnt) ← partition fuel m swaptype base pa pa pc pc 0;
    if swap_cnt =? 0 then insertion_sort fuel m swaptype base (base + size) e
    else
      let pn := e in
      let r := i32 (if pa - base <? pb - pa then pa - base else pb - pa) in
      m ← vecswap m base (pb - r) r swaptype;
      let r := i32 (if pd - pc <? u32 (pn - pd - size) then pd - pc else u32 (pn - pd - size)) in
      m ← vecswap m pb (pn - r) r swaptype;
      let r := i32 (pb - pa) in
      m ← (if size <? u32 r then rec m base (u32 r / size) else Some m);
      let r := i32 (pd - pc) in
      if size <? u32 r then rec m (pn - r) (u32 r / size) else Some m.

Fixpoint qsort_loop (depth : nat) (m : bmem) (base nmemb : Z) : option bmem :=
  match depth with
  | O => None
  | S depth => qsort_turn (qsort_loop depth) m base nmemb
  end.

Definition qsort (m : bmem) (base nmemb : Z) : option bmem := qsort_loop (S (Z.to_nat nmemb)) m base nmemb.

End sort.

(** ** bsearch *)

Section search.
Context (compar : Z -> list Z -> Z) (width : Z).

(** [compar] is given the key, which it alone looks at, and the contents of an
    element.  Every turn halves [lim]. *)
Fixpoint bsearch_loop (fuel : nat) (m : bmem) (key lower lim : Z) : option Z :=
  match fuel with
  | O => None
  | S fuel =>
      if lim =? 0 then Some 0
      else
        let middle := lower + u32 (Z.shiftr lim 1 * width) in
        x ← load_bytes m middle (Z.to_nat width);
        let cmp := compar key x in
        if cmp =? 0 then Some middle
        else if 0 <? cmp then bsearch_loop fuel m key (middle + width) (Z.shiftr (lim - 1) 1)
        else bsearch_loop fuel m key lower (Z.shiftr lim 1)
  end.

Definition bsearch (m : bmem) (key base nel : Z) : option Z :=
  _ ← assert (negb (key =? 0));
  _ ← assert (negb (base =? 0) || (nel =? 0));
  bsearch_loop 33 m key base nel.
End search.
