(* ===== verification/QsortSort.v ===== *)
(** * Sorting: exchanging elements of an array

    [arr] says that memory holds an array of elements.  Whatever the alignment
    and size of the elements, the exchanges of [qsort] exchange elements or
    blocks of elements and touch nothing else. *)

From stdpp Require Import base tactics numbers list gmap sorting.
From S2P Require Import Prelude Bytes Qsort.

(** ** Blocks of bytes *)

Lemma bytes_at_inj m a x y : bytes_at m a x -> bytes_at m a y -> length x = length y -> x = y.
Proof.
  revert a y. induction x as [|b x IH]; intros a [|c y] Hx Hy Hl; try done.
  destruct Hx as [Hb Hx], Hy as [Hc Hy]. rewrite Hb in Hc. simplify_eq. f_equal. by eapply IH; [..|lia].
Qed.

(** The bytes [x] at [a] and [y] at [b] have changed places. *)
Definition exchanged (m m' : bmem) (a b : Z) (x y : list Z) : Prop :=
  bytes_at m' a y /\ bytes_at m' b x /\
  forall c, c < a \/ a + len x <= c -> c < b \/ b + len x <= c -> m' !! c = m !! c.

(** Two blocks of [n] bytes that are the same or do not overlap. *)
Definition apart (a b n : Z) : Prop := a = b \/ a + n <= b \/ b + n <= a.

Lemma exchanged_sym m m' a b x y : length x = length y -> exchanged m m' a b x y -> exchanged m m' b a y x.
Proof. intros Hl (H1 & H2 & H3). unfold exchanged. rewrite <- Hl. split_and!; auto. Qed.

Lemma swap_unit m a b x y :
  bytes_at m a x -> bytes_at m b y -> length x = length y -> apart a b (len x) ->
  exists m1 m', load_bytes m a (length x) = Some x /\ load_bytes m b (length x) = Some y /\
    store_bytes m a y = Some m1 /\ store_bytes m1 b x = Some m' /\ exchanged m m' a b x y.
Proof.
  intros Hx Hy Hl Hap. destruct (store_bytes_at m a x y Hx Hl) as (m1 & Hs1 & Hb1 & Ho1).
  destruct (store_bytes_at m1 b y x) as (m' & Hs2 & Hb2 & Ho2).
  { destruct Hap as [<- | Hap]; [done|]. apply (bytes_at_outside _ _ _ _ _ _ Hy Ho1). lia. }
  { done. }
  exists m1, m'. split_and!; [by apply load_bytes_at|rewrite Hl; by apply load_bytes_at|done|done|]. split_and!.
  - destruct Hap as [<- | Hap].
    + by rewrite <- (bytes_at_inj _ _ _ _ Hx Hy Hl).
    + apply (bytes_at_outside _ _ _ _ _ _ Hb1 Ho2). lia.
  - done.
  - intros c Ha Hb. rewrite Ho2, Ho1 by lia. done.
Qed.

Lemma exchanged_app m m1 m' a b x1 x2 y1 y2 :
  length x1 = length y1 -> length x2 = length y2 -> apart a b (len (x1 ++ x2)) ->
  exchanged m m1 a b x1 y1 -> exchanged m1 m' (a + len x1) (b + len x1) x2 y2 ->
  (a = b -> x1 = y1) ->
  exchanged m m' a b (x1 ++ x2) (y1 ++ y2).
Proof.
  unfold apart. intros Hl1 Hl2 Hap (Ha1 & Hb1 & Ho1) (Ha2 & Hb2 & Ho2) Heq. rewrite length_app, Nat2Z.inj_add in Hap.
  unfold exchanged. rewrite !bytes_at_app, length_app, Nat2Z.inj_add, <- Hl1. split_and!; try done.
  - apply (bytes_at_frame m1); [done|]. intros c Hc. apply Ho2; lia.
  - apply (bytes_at_frame m1); [done|]. intros c Hc. apply Ho2; lia.
  - intros c Hca Hcb. rewrite Ho2, Ho1 by lia. done.
Qed.

Lemma swapcode_spec fuel w m a b (i : nat) x y :
  bytes_at m a x -> bytes_at m b y -> (0 < w)%nat -> (0 < i)%nat ->
  length x = (i * w)%nat -> length y = (i * w)%nat -> apart a b (len x) -> (i <= fuel)%nat ->
  exists m', swapcode fuel w m a b (Z.of_nat i) = Some m' /\ exchanged m m' a b x y.
Proof.
  revert m a b i x y. induction fuel as [|fuel IH]; intros m a b i x y Hx Hy Hw Hi Hlx Hly Hap Hf; [lia|].
  destruct i as [|i]; [lia|]. simpl in Hlx, Hly. pose proof (take_drop w x) as Ex. pose proof (take_drop w y) as Ey.
  assert (length (take w x) = w /\ length (take w y) = w) as [Lx Ly] by (rewrite !length_take; lia).
  assert (length (drop w x) = i * w /\ length (drop w y) = i * w)%nat as [Dx Dy] by (rewrite !length_drop; lia).
  revert Lx Ly Dx Dy Ex Ey. generalize (take w x) (take w y) (drop w x) (drop w y). intros x1 y1 x2 y2 Lx Ly Dx Dy <- <-.
  apply bytes_at_app in Hx as [Hx1 Hx2]. apply bytes_at_app in Hy as [Hy1 Hy2].
  unfold apart in Hap. rewrite length_app, Nat2Z.inj_add in Hap.
  destruct (swap_unit m a b x1 y1) as (m1 & m2 & E1 & E2 & E3 & E4 & Hex); [done|done|lia|unfold apart; lia|].
  cbn [swapcode]. rewrite Lx in E1, E2. rewrite E1, E2. simpl. rewrite E3. simpl. rewrite E4. simpl.
  assert (a = b -> x1 = y1) as Heq by (intros <-; eapply bytes_at_inj; eauto; lia).
  destruct (Z.ltb_spec 0 (Z.of_nat (S i) - 1)).
  - replace (Z.of_nat (S i) - 1) with (Z.of_nat i) by lia.
    destruct Hex as (Ha & Hb & Ho).
    destruct (IH m2 (a + Z.of_nat w) (b + Z.of_nat w) i x2 y2) as (m' & -> & Hex'); [| |lia..| |lia|].
    + apply (bytes_at_frame m); [by rewrite <- Lx|]. intros c Hc. apply Ho; lia.
    + apply (bytes_at_frame m); [by rewrite <- Ly|]. intros c Hc. apply Ho; lia.
    + unfold apart. lia.
    + exists m'. split; [done|]. apply (exchanged_app m m2); [lia|lia| |done|by rewrite Lx|done].
      unfold apart. rewrite length_app. lia.
  - exists m2. split; [done|]. assert (i = 0%nat) as -> by lia. destruct x2, y2; [|simpl in *; lia..].
    by rewrite !app_nil_r.
Qed.

(** The kinds of exchange that suit a size. *)
Definition swaptype_ok (swaptype size : Z) : Prop :=
  swaptype = 0 /\ size = 4 \/ swaptype = 1 /\ size mod 4 = 0 \/ swaptype = 2.

Lemma SWAPINIT_ok a size : swaptype_ok (SWAPINIT a size) size.
Proof.
  unfold swaptype_ok, SWAPINIT. destruct (Z.eqb_spec (a mod 4) 0), (Z.eqb_spec (size mod 4) 0); simpl; try tauto.
  destruct (Z.eqb_spec size 4); tauto.
Qed.

Lemma swapfunc_spec m a b x y swaptype size k :
  bytes_at m a x -> bytes_at m b y -> length x = length y -> apart a b (len x) ->
  swaptype_ok swaptype size -> len x = k * size -> 0 < len x < 4294967296 ->
  exists m', swapfunc m a b (len x) swaptype = Some m' /\ exchanged m m' a b x y.
Proof.
  intros Hx Hy Hl Hap Hst Hk Hn. unfold swapfunc. rewrite u32_small by lia.
  destruct (Z.leb_spec swaptype 1).
  - assert (len x mod 4 = 0) as Hm.
    { rewrite Hk, Z.mul_mod by lia. replace (size mod 4) with 0; [by rewrite Z.mul_0_r|].
      destruct Hst as [[_ ->] | [[_ ?] | ->]]; [done|done|lia]. }
    assert (len x = 4 * (len x / 4)) as Hd by (pose proof (Z.div_mod (len x) 4); lia).
    replace (len x / 4) with (Z.of_nat (Z.to_nat (len x / 4))) by lia.
    apply swapcode_spec; try done; lia.
  - rewrite Z.div_1_r. apply swapcode_spec; try done; lia.
Qed.

(** ** Arrays *)

Section arrays.
Context (size : Z).
Hypothesis Hsize : 0 < size.

Definition arr (m : bmem) (base : Z) (l : list (list Z)) : Prop :=
  bytes_at m base (concat l) /\ Forall (fun e : list Z => len e = size) l.

Lemma len_concat l : Forall (fun e : list Z => len e = size) l -> len (concat l) = len l * size.
Proof. induction 1 as [|e l He _ IH]; [done|]. simpl. rewrite length_app. lia. Qed.

Lemma arr_app m base l1 l2 : arr m base (l1 ++ l2) <-> arr m base l1 /\ arr m (base + len l1 * size) l2.
Proof.
  unfold arr. rewrite concat_app, bytes_at_app, Forall_app. split.
  - intros ((H1 & H2) & H3 & H4). rewrite len_concat in H2 by done. tauto.
  - intros ((H1 & H2) & H3 & H4). rewrite len_concat by done. tauto.
Qed.

Lemma arr_singleton m base e : arr m base [e] <-> bytes_at m base e /\ len e = size.
Proof. unfold arr. simpl. rewrite app_nil_r, Forall_singleton. done. Qed.

Lemma arr_cons m base e l : arr m base (e :: l) <-> bytes_at m base e /\ len e = size /\ arr m (base + size) l.
Proof.
  change (e :: l) with ([e] ++ l). rewrite arr_app, arr_singleton. simpl. rewrite Z.mul_1_l. tauto.
Qed.

Lemma arr_frame m m' base l :
  arr m base l -> (forall c, base <= c < base + len l * size -> m' !! c = m !! c) -> arr m' base l.
Proof.
  intros [Hb Hf] Hs. split; [|done]. apply (bytes_at_frame m); [done|]. rewrite len_concat by done. done.
Qed.

Lemma arr_outside m m' a e base l :
  arr m base l -> same_outside a e m m' -> base + len l * size <= a \/ e <= base -> arr m' base l.
Proof. intros Hl Hs Ho. apply (arr_frame m); [done|]. intros c Hc. apply Hs. lia. Qed.

(** Exchanging two blocks of the same number of elements. *)
Lemma arr_exchange m m' base P A M B R :
  arr m base (P ++ A ++ M ++ B ++ R) -> length A = length B ->
  exchanged m m' (base + len P * size) (base + (len P + len A + len M) * size) (concat A) (concat B) ->
  arr m' base (P ++ B ++ M ++ A ++ R) /\ same_outside base (base + len (P ++ A ++ M ++ B ++ R) * size) m m'.
Proof.
  intros Hl HAB (H1 & H2 & H3). rewrite !arr_app in Hl. destruct Hl as (HP & HA & HM & HB & HR).
  rewrite len_concat in H3 by apply HA. rewrite !arr_app, !length_app, !Nat2Z.inj_add, <- HAB. split_and!.
  - apply (arr_frame m); [done|]. intros c Hc. apply H3; nia.
  - split; [done|apply HB].
  - apply (arr_frame m); [done|]. intros c Hc. apply H3; nia.
  - split; [|apply HA]. by replace (base + len P * size + len A * size + len M * size)
      with (base + (len P + len A + len M) * size) by lia.
  - replace (base + len P * size + len A * size + len M * size + len A * size)
      with (base + len P * size + len A * size + len M * size + len B * size) by lia.
    apply (arr_frame m); [done|]. intros c Hc. apply H3; nia.
  - intros c Hc. apply H3; nia.
Qed.

Lemma vecswap_arr m base P A M B R swaptype :
  swaptype_ok swaptype size -> arr m base (P ++ A ++ M ++ B ++ R) -> length A = length B ->
  len A * size < 4294967296 ->
  exists m', vecswap m (base + len P * size) (base + (len P + len A + len M) * size) (len A * size) swaptype = Some m' /\
    arr m' base (P ++ B ++ M ++ A ++ R) /\ same_outside base (base + len (P ++ A ++ M ++ B ++ R) * size) m m'.
Proof.
  intros Hst Hl HAB Hn. pose proof Hl as Hl'. rewrite !arr_app in Hl'. destruct Hl' as (_ & HA & _ & HB & _).
  assert (len (concat A) = len A * size /\ len (concat B) = len A * size) as [EA EB]
    by (rewrite !len_concat by (apply HA || apply HB); lia).
  unfold vecswap. destruct (Z.ltb_spec 0 (len A * size)).
  - destruct (swapfunc_spec m (base + len P * size) (base + (len P + len A + len M) * size) (concat A) (concat B) swaptype size (len A))
      as (m' & Hs & Hex); [apply HA| |lia| |done|lia|lia|].
    + replace (base + (len P + len A + len M) * size) with (base + len P * size + len A * size + len M * size) by lia. apply HB.
    + unfold apart. nia.
    + rewrite EA in Hs. exists m'. split; [done|]. by apply arr_exchange.
  - assert (A = [] /\ B = []) as [-> ->] by (destruct A, B; simpl in *; try done; nia).
    exists m. split_and!; auto with bytes.
Qed.

Lemma swap_spec m a b x y swaptype :
  swaptype_ok swaptype size -> bytes_at m a x -> bytes_at m b y -> len x = size -> len y = size -> apart a b size ->
  size < 2147483648 ->
  exists m', swap size m a b swaptype = Some m' /\ exchanged m m' a b x y.
Proof.
  intros Hst Hx Hy Hlx Hly Hap Hn. unfold swap. destruct (Z.eqb_spec swaptype 0) as [-> | Hne].
  - assert (length x = 4%nat) as H4 by (destruct Hst as [[_ ?] | [[? _] | ?]]; lia).
    destruct (swap_unit m a b x y Hx Hy) as (m1 & m' & E1 & E2 & E3 & E4 & Hex); [lia|by rewrite Hlx|].
    rewrite H4 in E1, E2. rewrite E1, E2. simpl. rewrite E3. simpl. eauto.
  - rewrite i32_small, <- Hlx by lia. apply (swapfunc_spec m a b x y swaptype size 1); try done; rewrite ?Hlx; lia || done.
Qed.

(** The exchange of two elements, in either order of the arguments. *)
Lemma swap_arr m base P x M y R swaptype pi pj :
  swaptype_ok swaptype size -> arr m base (P ++ x :: M ++ y :: R) -> size < 2147483648 ->
  pi = base + len P * size -> pj = base + (len P + 1 + len M) * size ->
  (exists m', swap size m pi pj swaptype = Some m' /\ arr m' base (P ++ y :: M ++ x :: R) /\
     same_outside base (base + len (P ++ x :: M ++ y :: R) * size) m m') /\
  (exists m', swap size m pj pi swaptype = Some m' /\ arr m' base (P ++ y :: M ++ x :: R) /\
     same_outside base (base + len (P ++ x :: M ++ y :: R) * size) m m').
Proof.
  intros Hst Hl Hn -> ->. pose proof Hl as Hl'. rewrite arr_app, arr_cons, arr_app, arr_cons in Hl'.
  destruct Hl' as (_ & Hx & Hlx & _ & Hy & Hly & _).
  replace (base + len P * size + size + len M * size) with (base + (len P + 1 + len M) * size) in Hy by lia.
  assert (forall m', exchanged m m' (base + len P * size) (base + (len P + 1 + len M) * size) x y ->
    arr m' base (P ++ y :: M ++ x :: R) /\ same_outside base (base + len (P ++ x :: M ++ y :: R) * size) m m') as Hex.
  { intros m' He. apply (arr_exchange m m' base P [x] M [y] R Hl eq_refl). simpl. by rewrite !app_nil_r. }
  split.
  - destruct (swap_spec m _ _ x y swaptype Hst Hx Hy Hlx Hly) as (m' & Hs & He); [unfold apart; nia|done|]. eauto.
  - destruct (swap_spec m _ _ y x swaptype Hst Hy Hx Hly Hlx) as (m' & Hs & He); [unfold apart; nia|done|].
    apply exchanged_sym in He; [|lia]. eauto.
Qed.

(** An element exchanged with itself. *)
Lemma swap_self m base P x R swaptype pi :
  swaptype_ok swaptype size -> arr m base (P ++ x :: R) -> size < 2147483648 -> pi = base + len P * size ->
  exists m', swap size m pi pi swaptype = Some m' /\ arr m' base (P ++ x :: R) /\
    same_outside base (base + len (P ++ x :: R) * size) m m'.
Proof.
  intros Hst Hl Hn ->. pose proof Hl as Hl'. rewrite arr_app, arr_cons in Hl'. destruct Hl' as (_ & Hx & Hlx & _).
  destruct (swap_spec m _ _ x x swaptype Hst Hx Hx Hlx Hlx) as (m' & Hs & Hx' & _ & Ho); [by left|done|].
  exists m'. split; [done|]. rewrite Hlx in Ho. rewrite arr_app, arr_cons in Hl |- *. rewrite length_app. simpl.
  destruct Hl as (H1 & H2 & H3 & H4). split_and!; try done.
  - apply (arr_frame m); [done|]. intros c Hc. apply Ho; lia.
  - apply (arr_frame m); [done|]. intros c Hc. apply Ho; lia.
  - intros c Hc. apply Ho; nia.
Qed.
End arrays.

(** * Sorting: insertion sort and partitioning

    Both rearrange the elements of the array, whatever the comparison function
    answers, and touch nothing else.  With a comparison function that is a
    total preorder insertion sort sorts; partitioning brings the elements into
    the order of their comparison with the pivot. *)

(** What the C standard asks of a comparison function. *)
Class TotalCompar (compar : list Z -> list Z -> Z) : Prop := {
  compar_flip : forall x y, compar x y <= 0 <-> 0 <= compar y x;
  compar_trans : forall x y z, compar x y <= 0 -> compar y z <= 0 -> compar x z <= 0
}.

(** In order. *)
Definition compar_le (compar : list Z -> list Z -> Z) (x y : list Z) : Prop := compar x y <= 0.

Section sort.
Context (compar : list Z -> list Z -> Z) (size : Z).
Hypothesis Hsize : 0 < size < 2147483648.

Abbreviation array := (arr size).
Abbreviation le := (compar_le compar).

(** The memory after rearranging the array [l] at [base] into [l']. *)
Definition rearranged (m m' : bmem) (base : Z) (l l' : list (list Z)) : Prop :=
  array m' base l' /\ l' ≡ₚ l /\ same_outside base (base + len l * size) m m'.

Lemma rearranged_refl m base l : array m base l -> rearranged m m base l l.
Proof. intros. split_and!; auto with bytes. Qed.

Lemma rearranged_trans m1 m2 m3 base l1 l2 l3 :
  rearranged m1 m2 base l1 l2 -> rearranged m2 m3 base l2 l3 -> rearranged m1 m3 base l1 l3.
Proof.
  intros (H1 & H2 & H3) (H4 & H5 & H6). split_and!; [done|by rewrite H5|].
  eapply same_outside_trans; [done|]. by rewrite <- (Permutation_length H2).
Qed.

Lemma call_at m a b x y : bytes_at m a x -> bytes_at m b y -> len x = size -> len y = size ->
  call_compar compar size m a b = Some (compar x y).
Proof.
  intros Hx Hy Hlx Hly. unfold call_compar.
  replace (Z.to_nat size) with (length x) by lia. rewrite (load_bytes_at m a x) by done. simpl.
  replace (length x) with (length y) by lia. by rewrite (load_bytes_at m b y) by done.
Qed.

Lemma arr_elem m base P x R : array m base (P ++ x :: R) -> bytes_at m (base + len P * size) x /\ len x = size.
Proof. clear compar. rewrite arr_app, arr_cons by lia. tauto. Qed.

Lemma call_arr m base l P x R P' y R' a b :
  array m base l -> l = P ++ x :: R -> l = P' ++ y :: R' -> a = base + len P * size -> b = base + len P' * size ->
  call_compar compar size m a b = Some (compar x y).
Proof.
  intros Hl E1 E2 -> ->. destruct (arr_elem m base P x R) as [? ?]; [congruence|].
  destruct (arr_elem m base P' y R') as [? ?]; [congruence|]. by apply call_at.
Qed.

(** ** Insertion sort *)

Lemma insert_down_spec fuel m swaptype base P x Q pl :
  swaptype_ok swaptype size -> array m base (P ++ x :: Q) -> pl = base + len P * size -> (length P < fuel)%nat ->
  exists m' P1 P2, insert_down compar size fuel m swaptype base pl = Some m' /\ P = P1 ++ P2 /\
    rearranged m m' base (P ++ x :: Q) (P1 ++ x :: P2 ++ Q) /\
    Forall (fun y => 0 < compar y x) P2 /\ (forall y, last P1 = Some y -> compar y x <= 0).
Proof.
  revert m P x Q pl. induction fuel as [|fuel IH]; intros m P x Q pl Hst Hl -> Hf; [lia|].
  destruct P as [|y P _] using rev_ind; cbn [insert_down].
  - destruct (Z.ltb_spec base (base + len (@nil (list Z)) * size)); [simpl in *; lia|]. exists m, [], [].
    split_and!; try done.
  - rewrite length_app in *. simpl in Hf |- *. destruct (Z.ltb_spec base (base + Z.of_nat (length P + 1) * size)); [|nia].
    rewrite <- (assoc_L (++)) in Hl. simpl in Hl.
    rewrite (call_arr m base _ P y (x :: Q) (P ++ [y]) x Q _ _ Hl eq_refl); [|by rewrite <- (assoc_L (++))|lia|rewrite length_app; simpl; lia].
    simpl. destruct (Z.ltb_spec 0 (compar y x)).
    + destruct (swap_arr size ltac:(lia) m base P y [] x Q swaptype (base + len P * size) (base + Z.of_nat (length P + 1) * size))
        as [_ (m1 & Hs & Hl1 & Ho1)]; [done|done|lia|lia|simpl; lia|].
      simpl in *.
      replace (base + Z.of_nat (length P + 1) * size - size) with (base + len P * size) by lia. rewrite Hs. simpl.
      destruct (IH m1 P x (y :: Q) (base + len P * size)) as (m' & P1 & P2 & -> & -> & Hr & HP2 & HP1); [done|done|lia|lia|].
      exists m', P1, (P2 ++ [y]). split_and!; [done|by rewrite (assoc_L (++))| | |done].
      * rewrite <- !(assoc_L (++)) in *. simpl. eapply rearranged_trans; [|exact Hr]. split_and!; [done| |done].
        rewrite (Permutation_swap x y). done.
      * apply Forall_app. by rewrite Forall_singleton.
    + exists m, (P ++ [y]), []. split_and!; [done|by rewrite app_nil_r| |done|].
      * rewrite <- !(assoc_L (++)). by apply rearranged_refl.
      * intros z. rewrite last_snoc. intros [= <-]. done.
Qed.

Lemma last_sorted_le {HC : TotalCompar compar} P x :
  StronglySorted le P -> (forall y, last P = Some y -> compar y x <= 0) -> Forall (fun y => compar y x <= 0) P.
Proof.
  intros Hs Hlast. destruct P as [|z P _] using rev_ind; [done|]. specialize (Hlast z (last_snoc _ _)).
  apply Forall_app. split; [|by rewrite Forall_singleton]. apply Forall_forall. intros y Hy.
  apply (compar_trans y z x); [|done]. apply (StronglySorted_app_1_elem_of le P [z]); set_solver.
Qed.

Lemma insert_sorted {HC : TotalCompar compar} P1 P2 x :
  StronglySorted le (P1 ++ P2) -> Forall (fun y => 0 < compar y x) P2 -> (forall y, last P1 = Some y -> compar y x <= 0) ->
  StronglySorted le (P1 ++ x :: P2).
Proof.
  intros Hs HP2 HP1. apply StronglySorted_app in Hs as (Hc & H1 & H2).
  pose proof (last_sorted_le P1 x H1 HP1) as Hle. rewrite Forall_forall in HP2, Hle.
  assert (forall y, y ∈ P2 -> le x y) as Hx by (intros y Hy; apply compar_flip; specialize (HP2 y Hy); lia).
  apply StronglySorted_app_2; [|done|].
  - intros y z Hy Hz. apply elem_of_cons in Hz as [-> | Hz]; [by apply Hle|by apply Hc].
  - constructor; [done|]. by apply Forall_forall.
Qed.

Lemma insertion_sort_spec fuel m swaptype base P Q pm e :
  swaptype_ok swaptype size -> array m base (P ++ Q) -> pm = base + len P * size -> e = base + len (P ++ Q) * size ->
  (length Q < fuel)%nat ->
  exists m' l', insertion_sort compar size fuel m swaptype base pm e = Some m' /\ rearranged m m' base (P ++ Q) l' /\
    (TotalCompar compar -> StronglySorted le P -> StronglySorted le l').
Proof.
  intros Hst Hl -> ->. revert m P Q Hl. induction fuel as [|fuel IH]; intros m P Q Hl Hf; [lia|].
  cbn [insertion_sort]. rewrite length_app. destruct Q as [|x Q].
  - destruct (Z.ltb_spec (base + len P * size) (base + Z.of_nat (length P + length (@nil (list Z))) * size)); [simpl in *; lia|].
    exists m, P. rewrite app_nil_r in *. split_and!; [done|by apply rearranged_refl|done].
  - cbn [length] in Hf |- *. destruct (Z.ltb_spec (base + len P * size) (base + Z.of_nat (length P + S (length Q)) * size)); [|nia].
    destruct (insert_down_spec (S (Z.to_nat (base + len P * size - base))) m swaptype base P x Q (base + len P * size))
      as (m1 & P1 & P2 & -> & -> & Hr & HP2 & HP1); [done|done|done|nia|]. simpl.
    destruct Hr as (Hl1 & Hp1 & Ho1). rewrite cons_middle, (assoc_L (++) P1), (assoc_L (++)) in Hl1.
    destruct (IH m1 ((P1 ++ [x]) ++ P2) Q) as (m' & l' & Hi & Hr' & Hsort); [done|lia|].
    exists m', l'. split_and!.
    + rewrite <- Hi. rewrite !length_app. simpl. f_equal; lia.
    + eapply rearranged_trans; [|exact Hr']. split_and!; [done| |done].
      rewrite <- Hp1. by rewrite <- !(assoc_L (++)).
    + intros HC Hs. apply Hsort; [done|]. rewrite <- (assoc_L (++)). by apply insert_sorted.
Qed.

(** ** The pivot *)

Lemma med3_spec m base l i j k :
  array m base l -> 0 <= i < len l -> 0 <= j < len l -> 0 <= k < len l ->
  exists r, med3 compar size m (base + i * size) (base + j * size) (base + k * size) = Some (base + r * size) /\
    (r = i \/ r = j \/ r = k).
Proof.
  intros Hl Hi Hj Hk.
  assert (forall i, 0 <= i < len l -> exists P x R, l = P ++ x :: R /\ len P = i) as Hsplit.
  { intros z Hz. destruct (lookup_lt_is_Some_2 l (Z.to_nat z)) as [x Hx]; [lia|].
    exists (take (Z.to_nat z) l), x, (drop (S (Z.to_nat z)) l). split; [by rewrite take_drop_middle|]. rewrite length_take. lia. }
  assert (forall i j, 0 <= i < len l -> 0 <= j < len l ->
    exists r, call_compar compar size m (base + i * size) (base + j * size) = Some r) as Hcall.
  { intros u v Hu Hv. destruct (Hsplit u Hu) as (P & x & R & E1 & <-), (Hsplit v Hv) as (P' & y & R' & E2 & <-).
    exists (compar x y). by eapply call_arr. }
  unfold med3. destruct (Hcall i j) as [r1 E1], (Hcall j k) as [r2 E2], (Hcall i k) as [r3 E3]; try done.
  rewrite E1. simpl. rewrite E2. simpl. rewrite E3. simpl. repeat case_match; eauto 6.
Qed.

Lemma choose_pivot_spec m base l :
  array m base l -> 7 <= len l -> len l * size < 2147483648 ->
  exists i, choose_pivot compar size m base (len l) = Some (base + i * size) /\ 0 <= i < len l.
Proof.
  intros Hl Hn Hs. unfold choose_pivot. set (n := len l) in *.
  pose proof (Z.div_mod n 2) as D2. pose proof (Z.mod_pos_bound n 2) as M2.
  pose proof (Z.div_mod n 8) as D8. pose proof (Z.mod_pos_bound n 8) as M8.
  rewrite !u32_small, i32_small by nia.
  destruct (Z.ltb_spec 7 n); [|exists (n / 2); split; [done|lia]].
  assert (exists a b c, (if 40 <? n then
      pl ← med3 compar size m base (base + n / 8 * size) (base + 2 * (n / 8 * size));
      pm ← med3 compar size m (base + n / 2 * size - n / 8 * size) (base + n / 2 * size) (base + n / 2 * size + n / 8 * size);
      pn ← med3 compar size m (base + (n - 1) * size - 2 * (n / 8 * size)) (base + (n - 1) * size - n / 8 * size) (base + (n - 1) * size);
      Some (pl, pm, pn) else Some (base, base + n / 2 * size, base + (n - 1) * size)) =
      Some (base + a * size, base + b * size, base + c * size) /\ 0 <= a < n /\ 0 <= b < n /\ 0 <= c < n) as (a & b & c & -> & Ha & Hb & Hc).
  { destruct (Z.ltb_spec 40 n).
    - destruct (med3_spec m base l 0 (n / 8) (2 * (n / 8)) Hl) as (a & Ea & Ha); [lia..|].
      destruct (med3_spec m base l (n / 2 - n / 8) (n / 2) (n / 2 + n / 8) Hl) as (b & Eb & Hb); [lia..|].
      destruct (med3_spec m base l (n - 1 - 2 * (n / 8)) (n - 1 - n / 8) (n - 1) Hl) as (c & Ec & Hc); [lia..|].
      exists a, b, c. split; [|lia].
      replace (base + 0 * size) with base in Ea by lia.
      replace (base + 2 * (n / 8) * size) with (base + 2 * (n / 8 * size)) in Ea by lia. rewrite Ea. simpl.
      replace (base + (n / 2 - n / 8) * size) with (base + n / 2 * size - n / 8 * size) in Eb by lia.
      replace (base + (n / 2 + n / 8) * size) with (base + n / 2 * size + n / 8 * size) in Eb by lia. rewrite Eb. simpl.
      replace (base + (n - 1 - 2 * (n / 8)) * size) with (base + (n - 1) * size - 2 * (n / 8 * size)) in Ec by lia.
      replace (base + (n - 1 - n / 8) * size) with (base + (n - 1) * size - n / 8 * size) in Ec by lia. by rewrite Ec.
    - exists 0, (n / 2), (n - 1). split; [|lia]. by rewrite Z.mul_0_l, Z.add_0_r. }
  simpl. destruct (med3_spec m base l a b c Hl Ha Hb Hc) as (r & -> & Hr). exists r. split; [done|lia].
Qed.
End sort.

(** * Sorting: partitioning

    While [qsort] partitions, the array is the pivot, elements equal to it,
    smaller elements, elements not compared yet, greater elements, and again
    elements equal to the pivot, with the pointers of the code in between. *)

Section partition.
Context (compar : list Z -> list Z -> Z) (size : Z).
Hypothesis Hsize : 0 < size < 2147483648.

Abbreviation array := (arr size).

Record parts (p : list Z) (E1 L G E2 : list (list Z)) : Prop := {
  parts_E1 : Forall (fun x => compar x p = 0) E1;
  parts_L : Forall (fun x => compar x p < 0) L;
  parts_G : Forall (fun x => 0 < compar x p) G;
  parts_E2 : Forall (fun x => compar x p = 0) E2
}.

(** The exchange at [pa] and [pb] of an element equal to the pivot. *)
Lemma swap_up m base p E1 L u R swaptype pa pb :
  swaptype_ok swaptype size -> array m base (p :: E1 ++ L ++ u :: R) ->
  pa = base + (1 + len E1) * size -> pb = base + (1 + len E1 + len L) * size ->
  exists m' L', swap size m pa pb swaptype = Some m' /\ L' ≡ₚ L /\
    rearranged size m m' base (p :: E1 ++ L ++ u :: R) (p :: (E1 ++ [u]) ++ L' ++ R).
Proof.
  intros Hst Hl -> ->. destruct L as [|x L].
  - destruct (swap_self size ltac:(lia) m base (p :: E1) u R swaptype (base + (1 + len E1) * size)) as (m' & Hs & Hl' & Ho);
      [done|done|lia|simpl; lia|].
    exists m', []. simpl. rewrite Z.add_0_r. split_and!; [done|done|]. split_and!; rewrite <- ?(assoc_L (++)); done.
  - destruct (swap_arr size ltac:(lia) m base (p :: E1) x L u R swaptype (base + (1 + len E1) * size) (base + (1 + len E1 + len (x :: L)) * size))
      as [(m' & Hs & Hl' & Ho) _]; [done|done|lia|simpl; lia|simpl; lia|].
    exists m', (L ++ [x]). split_and!; [done|by rewrite Permutation_app_comm|]. split_and!.
    + rewrite <- !(assoc_L (++)). exact Hl'.
    + rewrite <- !(assoc_L (++)). simpl. solve_Permutation.
    + exact Ho.
Qed.

Lemma swap_down m base P G u R swaptype pc pd :
  swaptype_ok swaptype size -> array m base (P ++ u :: G ++ R) ->
  pc = base + len P * size -> pd = base + (len P + len G) * size ->
  exists m' G', swap size m pc pd swaptype = Some m' /\ G' ≡ₚ G /\
    rearranged size m m' base (P ++ u :: G ++ R) (P ++ G' ++ u :: R).
Proof.
  intros Hst Hl -> ->. destruct G as [|x G _] using rev_ind.
  - destruct (swap_self size ltac:(lia) m base P u R swaptype (base + len P * size)) as (m' & Hs & Hl' & Ho);
      [done|done|lia|simpl; lia|].
    exists m', []. simpl. rewrite Z.add_0_r. split_and!; [done|done|]. split_and!; done.
  - rewrite <- (assoc_L (++)) in *. simpl in *.
    destruct (swap_arr size ltac:(lia) m base P u G x R swaptype (base + len P * size) (base + (len P + len (G ++ [x])) * size))
      as [(m' & Hs & Hl' & Ho) _]; [done|done|lia|simpl; lia|rewrite length_app; simpl; lia|].
    exists m', (x :: G). split_and!; [done|by rewrite Permutation_app_comm|]. split_and!.
    + exact Hl'.
    + simpl. solve_Permutation.
    + exact Ho.
Qed.

Lemma rearranged_len m m' base l l' : rearranged size m m' base l l' -> length l' = length l.
Proof. intros (_ & Hp & _). by apply Permutation_length. Qed.

Lemma scan_up_spec fuel m swaptype base p E1 L U G E2 pa pb pc cnt :
  swaptype_ok swaptype size -> array m base (p :: E1 ++ L ++ U ++ G ++ E2) -> parts p E1 L G E2 ->
  pa = base + (1 + len E1) * size -> pb = base + (1 + len E1 + len L) * size ->
  pc = base + (len E1 + len L + len U) * size -> (length U < fuel)%nat ->
  exists m' E1' L' U' cnt', scan_up compar size fuel m swaptype base pa pb pc cnt =
      Some (m', base + (1 + len E1') * size, base + (1 + len E1' + len L') * size, cnt') /\
    rearranged size m m' base (p :: E1 ++ L ++ U ++ G ++ E2) (p :: E1' ++ L' ++ U' ++ G ++ E2) /\ parts p E1' L' G E2 /\
    (length U' <= length U)%nat /\ (forall u, head U' = Some u -> 0 < compar u p).
Proof.
  intros Hst Hl Hp -> -> ->. revert m E1 L U cnt Hl Hp. induction fuel as [|fuel IH]; intros m E1 L U cnt Hl Hp Hf; [lia|].
  cbn [scan_up]. destruct U as [|u U].
  - destruct (Z.leb_spec (base + (1 + len E1 + len L) * size) (base + (len E1 + len L + len (@nil (list Z))) * size)); [simpl in *; nia|].
    exists m, E1, L, [], cnt. split_and!; [done|by apply rearranged_refl|done|simpl; lia|done].
  - destruct (Z.leb_spec (base + (1 + len E1 + len L) * size) (base + (len E1 + len L + len (u :: U)) * size)); [|simpl in *; nia].
    rewrite (call_arr compar size Hsize m base _ (p :: E1 ++ L) u (U ++ G ++ E2) [] p (E1 ++ L ++ (u :: U) ++ G ++ E2) _ _ Hl);
      [|by simpl; rewrite <- !(assoc_L (++))|done|simpl; rewrite length_app; lia|simpl; lia].
    simpl. destruct (Z.leb_spec (compar u p) 0) as [Hle | Hgt].
    + destruct (Z.eqb_spec (compar u p) 0) as [Heq | Hne].
      * destruct (swap_up m base p E1 L u (U ++ G ++ E2) swaptype (base + (1 + len E1) * size) (base + (1 + len E1 + len L) * size))
          as (m1 & L1 & -> & HL1 & Hr); [done|done|done|done|]. simpl.
        destruct (IH m1 (E1 ++ [u]) L1 U 1) as (m' & E1' & L' & U' & cnt' & Hs & Hr' & Hp' & Hlen & Hu).
        { apply Hr. }
        { destruct Hp. split; try done; [apply Forall_app; by rewrite Forall_singleton|by rewrite HL1]. }
        { simpl in Hf. lia. }
        exists m', E1', L', U', cnt'. split_and!; [|by eapply rearranged_trans|done|lia|done].
        rewrite <- Hs. rewrite !length_app, HL1. simpl. f_equal; lia.
      * destruct (IH m E1 (L ++ [u]) U cnt) as (m' & E1' & L' & U' & cnt' & Hs & Hr' & Hp' & Hlen & Hu).
        { by rewrite <- !(assoc_L (++)). }
        { destruct Hp. split; try done. apply Forall_app. rewrite Forall_singleton. split; [done|lia]. }
        { simpl in Hf. lia. }
        rewrite <- (assoc_L (++)) in Hr'. exists m', E1', L', U', cnt'. split_and!; [|done|done|lia|done].
        rewrite <- Hs. rewrite !length_app. simpl. f_equal; lia.
    + exists m, E1, L, (u :: U), cnt. split_and!; [done|by apply rearranged_refl|done|simpl; lia|]. by intros ? [= <-].
Qed.

Lemma scan_down_spec fuel m swaptype base p E1 L U G E2 pb pc pd cnt :
  swaptype_ok swaptype size -> array m base (p :: E1 ++ L ++ U ++ G ++ E2) -> parts p E1 L G E2 ->
  pb = base + (1 + len E1 + len L) * size -> pc = base + (len E1 + len L + len U) * size ->
  pd = base + (len E1 + len L + len U + len G) * size -> (length U < fuel)%nat ->
  exists m' U' G' E2' cnt', scan_down compar size fuel m swaptype base pb pc pd cnt =
      Some (m', base + (len E1 + len L + len U') * size, base + (len E1 + len L + len U' + len G') * size, cnt') /\
    rearranged size m m' base (p :: E1 ++ L ++ U ++ G ++ E2) (p :: E1 ++ L ++ U' ++ G' ++ E2') /\ parts p E1 L G' E2' /\
    (exists V, U = U' ++ V) /\ (forall u, last U' = Some u -> compar u p < 0).
Proof.
  intros Hst Hl Hp -> -> ->. revert m U G E2 cnt Hl Hp. induction fuel as [|fuel IH]; intros m U G E2 cnt Hl Hp Hf; [lia|].
  cbn [scan_down]. destruct U as [|u U _] using rev_ind.
  - destruct (Z.leb_spec (base + (1 + len E1 + len L) * size) (base + (len E1 + len L + len (@nil (list Z))) * size)); [simpl in *; nia|].
    exists m, [], G, E2, cnt. split_and!; [done|by apply rearranged_refl|done|by exists []|done].
  - rewrite length_app in *. cbn [length] in *.
    destruct (Z.leb_spec (base + (1 + len E1 + len L) * size) (base + (len E1 + len L + Z.of_nat (length U + 1)) * size)); [|nia].
    assert (p :: E1 ++ L ++ (U ++ [u]) ++ G ++ E2 = (p :: E1 ++ L ++ U) ++ u :: G ++ E2) as Eq
      by (simpl; by rewrite <- !(assoc_L (++))).
    rewrite (call_arr compar size Hsize m base _ (p :: E1 ++ L ++ U) u (G ++ E2) [] p (E1 ++ L ++ (U ++ [u]) ++ G ++ E2) _ _ Hl);
      [|done|done|simpl; rewrite !length_app; lia|simpl; lia].
    simpl. destruct (Z.leb_spec 0 (compar u p)) as [Hge | Hlt].
    + destruct (Z.eqb_spec (compar u p) 0) as [Heq | Hne].
      * destruct (swap_down m base (p :: E1 ++ L ++ U) G u E2 swaptype (base + (len E1 + len L + Z.of_nat (length U + 1)) * size)
          (base + (len E1 + len L + Z.of_nat (length U + 1) + len G) * size)) as (m1 & G1 & -> & HG1 & Hr);
          [done|by rewrite <- Eq|simpl; rewrite !length_app; lia|simpl; rewrite !length_app; lia|]. simpl.
        rewrite <- Eq in Hr. simpl in Hr. rewrite <- !(assoc_L (++)) in Hr.
        destruct (IH m1 U G1 (u :: E2) 1) as (m' & U' & G' & E2' & cnt' & Hs & Hr' & Hp' & (V & ->) & Hu).
        { apply Hr. }
        { destruct Hp. split; try done; [by rewrite HG1|by constructor]. }
        { lia. }
        exists m', U', G', E2', cnt'. split_and!; [| |done|by exists (V ++ [u]); rewrite (assoc_L (++))|done].
        -- rewrite <- Hs, HG1. f_equal; lia.
        -- rewrite <- !(assoc_L (++)) in *. by eapply rearranged_trans.
      * destruct (IH m U (u :: G) E2 cnt) as (m' & U' & G' & E2' & cnt' & Hs & Hr' & Hp' & (V & ->) & Hu).
        { rewrite <- !(assoc_L (++)) in Hl. exact Hl. }
        { destruct Hp. split; try done. constructor; [lia|done]. }
        { lia. }
        exists m', U', G', E2', cnt'. split_and!; [| |done|by exists (V ++ [u]); rewrite (assoc_L (++))|done].
        -- rewrite <- Hs. cbn [length]. f_equal; lia.
        -- rewrite <- !(assoc_L (++)) in *. done.
    + exists m, (U ++ [u]), G, E2, cnt. split_and!; [by rewrite length_app|by apply rearranged_refl|done| |].
      * exists []. by rewrite app_nil_r.
      * intros z. rewrite last_snoc. by intros [= <-].
Qed.

(** The elements at [pb] and [pc] when neither scan can go on. *)
Lemma stuck_ends U p :
  (forall u, head U = Some u -> 0 < compar u p) -> (forall u, last U = Some u -> compar u p < 0) ->
  U = [] \/ exists u V v, U = u :: V ++ [v] /\ 0 < compar u p /\ compar v p < 0.
Proof.
  intros Hh Hl. destruct U as [|u U]; [by left|]. right. destruct U as [|v V _] using rev_ind.
  - specialize (Hh u eq_refl). specialize (Hl u eq_refl). lia.
  - exists u, V, v. split_and!; [done|by apply Hh|]. apply Hl. by rewrite app_comm_cons, last_snoc.
Qed.

Lemma partition_spec fuel m swaptype base p E1 L U G E2 pa pb pc pd cnt :
  swaptype_ok swaptype size -> array m base (p :: E1 ++ L ++ U ++ G ++ E2) -> parts p E1 L G E2 ->
  pa = base + (1 + len E1) * size -> pb = base + (1 + len E1 + len L) * size ->
  pc = base + (len E1 + len L + len U) * size -> pd = base + (len E1 + len L + len U + len G) * size ->
  (length U < fuel)%nat ->
  exists m' E1' L' G' E2' cnt', partition compar size fuel m swaptype base pa pb pc pd cnt =
      Some (m', base + (1 + len E1') * size, base + (1 + len E1' + len L') * size,
            base + (len E1' + len L') * size, base + (len E1' + len L' + len G') * size, cnt') /\
    rearranged size m m' base (p :: E1 ++ L ++ U ++ G ++ E2) (p :: E1' ++ L' ++ G' ++ E2') /\ parts p E1' L' G' E2'.
Proof.
  intros Hst. revert m E1 L U G E2 pa pb pc pd cnt. induction fuel as [|fuel IH]; intros m E1 L U G E2 pa pb pc pd cnt Hl Hp Ha Hb Hc Hd Hf; [lia|].
  cbn [partition].
  destruct (scan_up_spec (S fuel) m swaptype base p E1 L U G E2 pa pb pc cnt) as (m1 & E1' & L' & U1 & cnt1 & -> & Hr1 & Hp1 & Hlen1 & Hu1); try done.
  pose proof (rearranged_len _ _ _ _ _ Hr1) as Hn. cbn [length] in Hn. rewrite !length_app in Hn. cbn [mbind option_bind].

  destruct (scan_down_spec (S fuel) m1 swaptype base p E1' L' U1 G E2 (base + (1 + len E1' + len L') * size) pc pd cnt1)
    as (m2 & U2 & G' & E2' & cnt2 & Hs2 & Hr2 & Hp2 & (V & ->) & Hu2); [done|apply Hr1|done|done| | |lia|].
  { subst pc. f_equal. nia. }
  { subst pd. f_equal. nia. }
  rewrite Hs2. cbn [mbind option_bind].
  pose proof (rearranged_trans _ _ _ _ _ _ _ _ Hr1 Hr2) as Hr.
  destruct (stuck_ends U2 p) as [-> | (u & W & v & -> & Hu & Hv)]; [|done| |].
  { intros u Hu. apply Hu1. destruct U2; [done|]. simpl in *. done. }
  - destruct (Z.ltb_spec (base + (len E1' + len L' + len (@nil (list Z))) * size) (base + (1 + len E1' + len L') * size)); [|simpl in *; nia].
    exists m2, E1', L', G', E2', cnt2. split_and!; [|done|done]. simpl. by rewrite !Z.add_0_r.
  - destruct (Z.ltb_spec (base + (len E1' + len L' + len (u :: W ++ [v])) * size) (base + (1 + len E1' + len L') * size)); [simpl in *; nia|].
    assert (p :: E1' ++ L' ++ (u :: W ++ [v]) ++ G' ++ E2' = (p :: E1' ++ L') ++ u :: W ++ v :: G' ++ E2') as Eq
      by (simpl; rewrite <- !(assoc_L (++)); done).
    destruct (swap_arr size ltac:(lia) m2 base (p :: E1' ++ L') u W v (G' ++ E2') swaptype (base + (1 + len E1' + len L') * size)
      (base + (len E1' + len L' + len (u :: W ++ [v])) * size)) as [(m3 & -> & Hl3 & Ho3) _];
      [done|rewrite <- Eq; apply Hr2|lia|simpl; rewrite length_app; lia|simpl; rewrite !length_app; simpl; lia|].
    cbn [mbind option_bind].
    destruct (IH m3 E1' (L' ++ [v]) W (u :: G') E2' (base + (1 + len E1') * size) (base + (1 + len E1' + len L') * size + size)
      (base + (len E1' + len L' + len (u :: W ++ [v])) * size - size) (base + (len E1' + len L' + len (u :: W ++ [v]) + len G') * size) 1)
      as (m' & E1'' & L'' & G'' & E2'' & cnt' & Hs & Hr' & Hp').
    + rewrite <- !(assoc_L (++)). simpl in Hl3 |- *. by rewrite <- !(assoc_L (++)) in Hl3.
    + destruct Hp2. split; try done; [apply Forall_app; by rewrite Forall_singleton|by constructor].
    + done.
    + rewrite length_app. simpl. lia.
    + simpl. rewrite !length_app. simpl. lia.
    + simpl. rewrite !length_app. simpl. lia.
    + simpl in Hlen1. rewrite ?length_app in Hlen1. simpl in Hlen1. rewrite ?length_app in Hlen1. simpl in Hlen1. lia.
    + exists m', E1'', L'', G'', E2'', cnt'. split_and!; [exact Hs| |done].
      eapply rearranged_trans; [exact Hr|]. eapply rearranged_trans; [|exact Hr']. rewrite Eq. split_and!.
      * rewrite <- !(assoc_L (++)). simpl in Hl3 |- *. by rewrite <- !(assoc_L (++)) in Hl3.
      * simpl. rewrite <- !(assoc_L (++)). simpl. solve_Permutation.
      * exact Ho3.
Qed.
End partition.
