(* ===== verification/QsortTheorems.v ===== *)
(** * Sorting and searching: theorems

    [qsort] ends and permutes whatever the comparison function answers, and
    sorts if it is a total preorder; [bsearch] finds an element if there is
    one.  Neither touches memory outside the array. *)

From stdpp Require Import base tactics numbers list gmap sorting.
From S2P Require Import Prelude Bytes Qsort QsortSort.

Section qsort.
Context (compar : list Z -> list Z -> Z) (size : Z).
Hypothesis Hsize : 0 < size < 2147483648.

Abbreviation array := (arr size).
Abbreviation le := (compar_le compar).

(** ** Putting the parts together *)

Lemma rearranged_part m m' base P X X' R :
  array m base (P ++ X ++ R) -> rearranged size m m' (base + len P * size) X X' ->
  rearranged size m m' base (P ++ X ++ R) (P ++ X' ++ R).
Proof.
  intros Hl (HX & Hp & Ho). pose proof (Permutation_length Hp) as Hn. rewrite !arr_app in Hl by lia. destruct Hl as (H1 & _ & H3).
  split_and!; [|by rewrite Hp|].
  - rewrite !arr_app by lia. rewrite Hn. split_and!; [|done|].
    + apply (arr_outside size _ _ _ _ _ _ H1 Ho). lia.
    + apply (arr_outside size _ _ _ _ _ _ H3 Ho). lia.
  - rewrite !length_app. apply (same_outside_weaken _ _ _ _ _ _ Ho); nia.
Qed.

(** The exchange of the ends of two neighbouring blocks makes them change
    sides. *)
Lemma vecswap_flip m base P X Y R swaptype k :
  swaptype_ok swaptype size -> array m base (P ++ X ++ Y ++ R) -> k = Z.min (len X) (len Y) -> k * size < 4294967296 ->
  exists m' X' Y', vecswap m (base + len P * size) (base + (len P + len X + len Y - k) * size) (k * size) swaptype = Some m' /\
    rearranged size m m' base (P ++ X ++ Y ++ R) (P ++ Y' ++ X' ++ R) /\ X' ≡ₚ X /\ Y' ≡ₚ Y.
Proof.
  intros Hst Hl -> Hk. destruct (Z.le_ge_cases (len X) (len Y)) as [Hle | Hge].
  - rewrite Z.min_l in * by done.
    assert (exists Y1 Y2, Y = Y1 ++ Y2 /\ length Y2 = length X) as (Y1 & Y2 & -> & HY2).
    { exists (take (length Y - length X) Y), (drop (length Y - length X) Y). rewrite take_drop, length_drop. split; [done|lia]. }
    rewrite <- !(assoc_L (++)) in *.
    destruct (vecswap_arr size ltac:(lia) m base P X Y1 Y2 R swaptype Hst Hl) as (m' & Hs & Hl' & Ho); [lia|done|].
    exists m', X, (Y2 ++ Y1). rewrite <- !(assoc_L (++)). split_and!; [|split_and!; [done|solve_Permutation|done]|done|solve_Permutation].
    rewrite <- Hs, length_app. do 2 f_equal. assert (length Y2 = length X) by lia. nia.
  - rewrite Z.min_r in * by done.
    assert (exists X1 X2, X = X1 ++ X2 /\ length X1 = length Y) as (X1 & X2 & -> & HX1).
    { exists (take (length Y) X), (drop (length Y) X). rewrite take_drop, length_take. split; [done|lia]. }
    rewrite <- !(assoc_L (++)) in *.
    destruct (vecswap_arr size ltac:(lia) m base P X1 X2 Y R swaptype Hst Hl) as (m' & Hs & Hl' & Ho); [lia|lia|].
    exists m', (X2 ++ X1), Y. rewrite <- !(assoc_L (++)). split_and!; [|split_and!; [done|solve_Permutation|done]|solve_Permutation|done].
    rewrite <- Hs, HX1, length_app. do 2 f_equal. nia.
Qed.

Lemma sorted_three {HC : TotalCompar compar} L M G p :
  StronglySorted le L -> StronglySorted le G -> Forall (fun x => compar x p < 0) L ->
  Forall (fun x => compar x p = 0) M -> Forall (fun x => 0 < compar x p) G -> StronglySorted le (L ++ M ++ G).
Proof.
  rewrite !Forall_forall. intros HL HG HLp HMp HGp.
  assert (forall x y, compar x p <= 0 -> 0 <= compar y p -> le x y) as Hcmp
    by (intros x y Hx Hy%compar_flip; by eapply compar_trans).
  apply StronglySorted_app_2; [|done|apply StronglySorted_app_2; [| |done]].
  - intros x y Hx Hy. apply Hcmp; [specialize (HLp x Hx); lia|].
    apply elem_of_app in Hy as [Hy | Hy]; [rewrite HMp by done; lia|specialize (HGp y Hy); lia].
  - intros x y Hx Hy. apply Hcmp; [rewrite HMp by done; lia|specialize (HGp y Hy); lia].
  - clear HLp HGp. induction M as [|x M IH]; [constructor|]. constructor.
    + apply IH. intros. apply HMp. by right.
    + apply Forall_forall. intros y Hy. apply Hcmp; rewrite HMp by (by left || by right); lia.
Qed.

(** ** One turn *)

(** What a call of qsort does to an array. *)
Definition sorts (f : bmem -> Z -> Z -> option bmem) (m : bmem) (base : Z) (l : list (list Z)) : Prop :=
  exists m' l', f m base (len l) = Some m' /\ rearranged size m m' base l l' /\ (TotalCompar compar -> StronglySorted le l').

Lemma insertion_sorts m base l swaptype :
  swaptype_ok swaptype size -> array m base l -> len l * size < 4294967296 ->
  sorts (fun m base n => insertion_sort compar size (S (Z.to_nat n)) m swaptype base (base + size) (base + u32 (n * size))) m base l.
Proof.
  intros Hst Hl Hn. unfold sorts. rewrite u32_small by lia. destruct l as [|x l].
  - exists m, []. split_and!; [|by apply rearranged_refl|constructor]. cbn [insertion_sort].
    destruct (Z.ltb_spec (base + size) (base + len (@nil (list Z)) * size)); [simpl in *; lia|done].
  - destruct (insertion_sort_spec compar size Hsize (S (Z.to_nat (len (x :: l)))) m swaptype base [x] l (base + size) (base + len (x :: l) * size))
      as (m' & l' & Hs & Hr & Hsort); [done|done|simpl; lia|done|simpl; lia|].
    exists m', l'. split_and!; [done|done|]. intros HC. apply Hsort; [done|]. repeat constructor.
Qed.

(** The pivot moves to the front. *)
Lemma swap_pivot m base l i swaptype :
  swaptype_ok swaptype size -> array m base l -> 0 <= i < len l ->
  exists m' p U, swap size m base (base + i * size) swaptype = Some m' /\ rearranged size m m' base l (p :: U).
Proof.
  intros Hst Hl Hi. destruct l as [|x l]; [simpl in Hi; lia|]. destruct (decide (i = 0)) as [-> | Hne].
  - destruct (swap_self size ltac:(lia) m base [] x l swaptype base) as (m' & Hs & Hl' & Ho); [done|done|lia|simpl; lia|].
    exists m', x, l. rewrite Z.mul_0_l, Z.add_0_r. split; [done|]. by split_and!.
  - destruct (lookup_lt_is_Some_2 l (Z.to_nat (i - 1))) as [y Hy]; [simpl in Hi; lia|].
    apply list_elem_of_split_length in Hy as (M & R & -> & HM).
    destruct (swap_arr size ltac:(lia) m base [] x M y R swaptype base (base + i * size)) as [(m' & Hs & Hl' & Ho) _];
      [done|done|lia|simpl; lia|simpl; f_equal; f_equal; lia|].
    exists m', y, (M ++ x :: R). split; [done|]. split_and!; [done|simpl; solve_Permutation|done].
Qed.

(** Sorting a part of the array, if there is anything to sort. *)
Lemma sorts_part rec m base P X R n r :
  (forall m base l, array m base l -> len l < n -> sorts rec m base l) ->
  array m base (P ++ X ++ R) -> len X < n -> r = len X * size -> len X * size < 2147483648 ->
  exists m' X', (if size <? u32 (i32 r) then rec m (base + len P * size) (u32 (i32 r) / size) else Some m) = Some m' /\
    rearranged size m m' base (P ++ X ++ R) (P ++ X' ++ R) /\ X' ≡ₚ X /\ (TotalCompar compar -> StronglySorted le X').
Proof.
  intros Hrec Hl Hn -> Hs. rewrite i32_small, u32_small by nia. destruct (Z.ltb_spec size (len X * size)).
  - rewrite Z.div_mul by lia. destruct (Hrec m (base + len P * size) X) as (m' & X' & Hr & Hre & Hsort); [|done|].
    { rewrite !arr_app in Hl by lia. apply Hl. }
    exists m', X'. split_and!; [done|by apply rearranged_part|apply Hre|done].
  - exists m, X. split_and!; [done|by apply rearranged_refl|done|]. intros _.
    destruct X as [|x [|y X]]; [constructor|repeat constructor|simpl in *; nia].
Qed.

Lemma min_bytes a b x y :
  x = a * size -> y = b * size -> 0 <= a -> 0 <= b -> a * size < 2147483648 -> b * size < 2147483648 ->
  i32 (if x <? y then x else y) = Z.min a b * size.
Proof.
  intros -> -> Ha Hb Has Hbs. rewrite i32_small by (case_match; nia).
  destruct (Z.ltb_spec (a * size) (b * size)); [rewrite Z.min_l by nia|rewrite Z.min_r by nia]; done.
Qed.

(** The two exchanges after partitioning, and sorting what is before and what
    is behind the elements equal to the pivot. *)
Lemma finish_sorts rec m base p E1 L G E2 swaptype n pa pb pc pd pn :
  swaptype_ok swaptype size -> array m base (p :: E1 ++ L ++ G ++ E2) -> parts compar p E1 L G E2 ->
  n = len (p :: E1 ++ L ++ G ++ E2) -> n * size < 2147483648 ->
  (forall m base l, array m base l -> len l < n -> sorts rec m base l) ->
  pa = base + (1 + len E1) * size -> pb = base + (1 + len E1 + len L) * size -> pc = base + (len E1 + len L) * size ->
  pd = base + (len E1 + len L + len G) * size -> pn = base + n * size ->
  sorts (fun m base _ =>
    let r := i32 (if pa - base <? pb - pa then pa - base else pb - pa) in
    m ← vecswap m base (pb - r) r swaptype;
    let r := i32 (if pd - pc <? u32 (pn - pd - size) then pd - pc else u32 (pn - pd - size)) in
    m ← vecswap m pb (pn - r) r swaptype;
    let r := i32 (pb - pa) in
    m ← (if size <? u32 r then rec m base (u32 r / size) else Some m);
    let r := i32 (pd - pc) in
    if size <? u32 r then rec m (pn - r) (u32 r / size) else Some m) m base (p :: E1 ++ L ++ G ++ E2).
Proof.
  intros Hst Hl [HE1 HL HG HE2] Hn Hns Hrec -> -> -> -> ->. unfold sorts.
  cbn [length] in Hn. rewrite !length_app in Hn.
  set (k1 := Z.min (len (p :: E1)) (len L)). set (k2 := Z.min (len G) (len E2)).
  assert (forall k, 0 <= k <= n -> k * size < 2147483648) as Hb by (intros; nia).
  rewrite (min_bytes (len (p :: E1)) (len L) (base + (1 + len E1) * size - base)); cycle 1; [simpl; lia|lia|lia|lia|apply Hb; simpl; lia|apply Hb; lia|].
  rewrite (u32_small (base + n * size - _ - size)) by nia.
  rewrite (min_bytes (len G) (len E2)); cycle 1; [lia|nia|lia|lia|apply Hb; lia|apply Hb; lia|]. fold k1 k2.
  destruct (vecswap_flip m base [] (p :: E1) L (G ++ E2) swaptype k1 Hst Hl eq_refl) as (m1 & X1 & L1 & Hv1 & Hr1 & HX1 & HL1); [unfold k1; nia|].
  replace (base + (1 + len E1 + len L) * size - k1 * size) with (base + (len (@nil (list Z)) + len (p :: E1) + len L - k1) * size) by (simpl; lia).
  replace (base + len (@nil (list Z)) * size) with base in Hv1 by (simpl; lia). rewrite Hv1. cbn [mbind option_bind].
  rewrite app_nil_l in Hr1. rewrite app_nil_l in Hr1. rewrite (assoc_L (++) L1) in Hr1.
  destruct (vecswap_flip m1 base (L1 ++ X1) G E2 [] swaptype k2 Hst) as (m2 & G2 & E2' & Hv2 & Hr2 & HG2 & HE2').
  { rewrite app_nil_r. apply Hr1. } { done. } { unfold k2; nia. }
  assert (len (L1 ++ X1) = 1 + len E1 + len L) as HLX by (rewrite length_app, HL1, HX1; simpl; lia).
  replace (base + n * size - k2 * size) with (base + (len (L1 ++ X1) + len G + len E2 - k2) * size) by nia.
  rewrite HLX in Hv2 at 1. rewrite Hv2. cbn [mbind option_bind].
  rewrite !app_nil_r, <- !(assoc_L (++)) in Hr2. rewrite <- !(assoc_L (++)) in Hr1.
  destruct (sorts_part rec m2 base [] L1 (X1 ++ E2' ++ G2) n (base + (1 + len E1 + len L) * size - (base + (1 + len E1) * size)))
    as (m3 & L3 & Hs3 & Hr3 & HL3 & Hsort3); [done|apply Hr2|rewrite HL1; lia|rewrite HL1; lia|rewrite HL1; nia|].
  replace (base + len (@nil (list Z)) * size) with base in Hs3 by (simpl; lia). rewrite Hs3. cbn [mbind option_bind].
  rewrite !app_nil_l in Hr3.
  destruct (sorts_part rec m3 base (L3 ++ X1 ++ E2') G2 [] n (base + (len E1 + len L + len G) * size - (base + (len E1 + len L) * size)))
    as (m4 & G4 & Hs4 & Hr4 & HG4 & Hsort4);
    [done|rewrite app_nil_r, <- !(assoc_L (++)); apply Hr3|rewrite HG2; lia|rewrite HG2; lia|rewrite HG2; nia|].
  replace (base + n * size - i32 (base + (len E1 + len L + len G) * size - (base + (len E1 + len L) * size)))
    with (base + len (L3 ++ X1 ++ E2') * size).
  2:{ rewrite i32_small by nia. rewrite !length_app, HL3, HL1, HX1, HE2'. cbn [length]. nia. }
  rewrite Hs4. exists m4, (L3 ++ (X1 ++ E2') ++ G4). rewrite !app_nil_r, <- !(assoc_L (++)) in Hr4. split_and!; [done| |].
  - rewrite <- !(assoc_L (++)) in *. eapply rearranged_trans; [|exact Hr4]. eapply rearranged_trans; [|exact Hr3].
    eapply rearranged_trans; [|exact Hr2]. exact Hr1.
  - intros HC. apply (sorted_three L3 (X1 ++ E2') G4 p); auto.
    + by rewrite HL3, HL1.
    + apply Forall_app. rewrite HX1, HE2'. split; [|done]. constructor; [|done].
      pose proof (proj1 (compar_flip p p)). pose proof (proj2 (compar_flip p p)). lia.
    + by rewrite HG4, HG2.
Qed.

Lemma qsort_turn_sorts rec m base l :
  array m base l -> len l * size < 2147483648 ->
  (forall m base l', array m base l' -> len l' < len l -> sorts rec m base l') ->
  sorts (qsort_turn compar size rec) m base l.
Proof.
  intros Hl Hs Hrec. unfold sorts, qsort_turn. pose proof (SWAPINIT_ok base size) as Hst. revert Hst.
  generalize (SWAPINIT base size). intros swaptype Hst.
  destruct (Z.ltb_spec (len l) 7). { destruct (insertion_sorts m base l swaptype) as (m' & l' & ?); [done|done|lia|eauto]. }
  destruct (choose_pivot_spec compar size Hsize m base l) as (i & -> & Hi); [done|lia|done|]. cbn [mbind option_bind].
  destruct (swap_pivot m base l i swaptype) as (m1 & p & U & -> & Hr1); [done|done|done|]. cbn [mbind option_bind].
  assert (length l = S (length U)) as Hn by (destruct Hr1 as (_ & <- & _); done).
  rewrite !u32_small by nia.
  destruct (partition_spec compar size Hsize (S (Z.to_nat (len l))) m1 swaptype base p [] [] U [] [] (base + size) (base + size)
    (base + (len l - 1) * size) (base + (len l - 1) * size) 0) as (m2 & E1 & L & G & E2 & cnt & -> & Hr2 & Hp); try (simpl; lia); [done| | |].
  { rewrite !app_nil_r. apply Hr1. } { by split. }
  cbn [mbind option_bind]. rewrite !app_nil_l, app_nil_r in Hr2. pose proof (rearranged_trans _ _ _ _ _ _ _ _ Hr1 Hr2) as Hr.
  pose proof (rearranged_len _ _ _ _ _ _ Hr) as Hlen.
  assert (forall f, sorts f m2 base (p :: E1 ++ L ++ G ++ E2) ->
    exists m' l', f m2 base (len l) = Some m' /\ rearranged size m m' base l l' /\ (TotalCompar compar -> StronglySorted le l')) as Hfin.
  { intros f (m' & l' & Hf & Hr' & Hsort). rewrite Hlen in Hf. exists m', l'. split_and!; [done|by eapply rearranged_trans|done]. }
  destruct (cnt =? 0).
  - destruct (Hfin _ (insertion_sorts m2 base _ swaptype Hst (proj1 Hr) ltac:(lia))) as (m' & l' & Hf & ?).
    rewrite u32_small in Hf by nia. eauto.
  - destruct (Hfin _ (finish_sorts rec m2 base p E1 L G E2 swaptype (len l) _ _ _ _ _ Hst (proj1 Hr) Hp
      ltac:(lia) Hs Hrec eq_refl eq_refl eq_refl eq_refl eq_refl)) as (m' & l' & Hf & ?).
    eauto.
Qed.

Lemma qsort_sorts_arrays m base l :
  array m base l -> len l * size < 2147483648 -> sorts (qsort compar size) m base l.
Proof.
  intros Hl Hs. unfold qsort, sorts. rewrite Nat2Z.id.
  assert (forall depth m base l, array m base l -> len l * size < 2147483648 -> (length l < depth)%nat ->
    sorts (qsort_loop compar size depth) m base l) as Hloop; [|by apply Hloop; [..|lia]].
  clear m base l Hl Hs. induction depth as [|depth IH]; intros m base l Hl Hs Hd; [lia|].
  apply qsort_turn_sorts; [done|done|]. intros m1 base1 l1 Hl1 Hlt. apply IH; [done|nia|lia].
Qed.
End qsort.

(** C18: whatever the comparison function answers, qsort ends; the array is left
    holding the same elements in some order.  It needs no other memory than
    the array and writes nowhere else. *)
Theorem qsort_ends compar size m base l :
  0 < size < 2147483648 -> arr size m base l -> len l * size < 2147483648 ->
  exists m' l', qsort compar size m base (len l) = Some m' /\ arr size m' base l' /\ l' ≡ₚ l /\
    same_outside base (base + len l * size) m m'.
Proof.
  intros Hsize Hl Hs. destruct (qsort_sorts_arrays compar size Hsize m base l Hl Hs) as (m' & l' & Hq & (? & ? & ?) & _).
  exists m', l'. by split_and!.
Qed.

(** C17: with a comparison function that is a total preorder, qsort leaves the
    elements of the array in ascending order. *)
Theorem qsort_sorts compar size m base l :
  TotalCompar compar -> 0 < size < 2147483648 -> arr size m base l -> len l * size < 2147483648 ->
  exists m' l', qsort compar size m base (len l) = Some m' /\ arr size m' base l' /\ l' ≡ₚ l /\
    StronglySorted (compar_le compar) l'.
Proof.
  intros HC Hsize Hl Hs. destruct (qsort_sorts_arrays compar size Hsize m base l Hl Hs) as (m' & l' & Hq & (? & ? & _) & ?).
  exists m', l'. split_and!; auto.
Qed.

(** ** Searching *)

Section bsearch.
Context (compar : Z -> list Z -> Z) (width : Z) (m : bmem) (key base : Z) (l : list (list Z)).
Hypothesis Hwidth : 0 < width < 2147483648.
Hypothesis Harr : arr width m base l.
Hypothesis Hlen : len l * width < 2147483648.

(** What bsearch returns: a null pointer if no element matches the key, and
    otherwise a pointer to one that does. *)
Definition found (r : Z) : Prop :=
  r = 0 /\ Forall (fun x => compar key x <> 0) l \/
  exists i x, l !! i = Some x /\ compar key x = 0 /\ r = base + Z.of_nat i * width.

Lemma arr_lookup i x : l !! i = Some x -> bytes_at m (base + Z.of_nat i * width) x /\ len x = width.
Proof.
  intros (P & R & E & Hn)%list_elem_of_split_length. subst i. apply (arr_elem width Hwidth m base P x R). by rewrite <- E.
Qed.

(** The array has the elements smaller than the key first, then those that
    match it, then the greater ones. *)
Definition in_order : Prop :=
  exists A B C, l = A ++ B ++ C /\ Forall (fun x => 0 < compar key x) A /\ Forall (fun x => compar key x = 0) B /\
    Forall (fun x => compar key x < 0) C.

Lemma in_order_mono i j x y :
  in_order -> (i <= j)%nat -> l !! i = Some x -> l !! j = Some y ->
  (0 < compar key y -> 0 < compar key x) /\ (compar key x < 0 -> compar key y < 0).
Proof.
  intros (A & B & C & -> & HA & HB & HC) Hij Hx Hy. rewrite Forall_lookup in HA, HB, HC.
  assert (forall k z, (A ++ B ++ C) !! k = Some z ->
    (k < length A)%nat /\ 0 < compar key z \/ (length A <= k < length A + length B)%nat /\ compar key z = 0 \/
    (length A + length B <= k)%nat /\ compar key z < 0) as Hcls.
  { intros k z [Hk | [Hge [Hk | [Hge' Hk]]%lookup_app_Some]]%lookup_app_Some.
    - pose proof (lookup_lt_Some _ _ _ Hk). specialize (HA _ _ Hk). lia.
    - pose proof (lookup_lt_Some _ _ _ Hk). specialize (HB _ _ Hk). lia.
    - specialize (HC _ _ Hk). lia. }
  destruct (Hcls _ _ Hx) as [|[|]], (Hcls _ _ Hy) as [|[|]]; lia.
Qed.

(** The search between the indices [i] and [j]: elements before are smaller
    than the key, elements behind are greater. *)
Lemma bsearch_loop_spec fuel (i j : nat) :
  in_order -> (i <= j <= length l)%nat -> Z.of_nat (j - i) < 2 ^ Z.of_nat fuel ->
  (forall k x, (k < i)%nat -> l !! k = Some x -> 0 < compar key x) ->
  (forall k x, (j <= k)%nat -> l !! k = Some x -> compar key x < 0) ->
  exists r, bsearch_loop compar width (S fuel) m key (base + Z.of_nat i * width) (Z.of_nat (j - i)) = Some r /\ found r.
Proof.
  intros Hord. revert i j. induction fuel as [|fuel IH]; intros i j Hij Hf Hlo Hhi.
  - assert (j = i) as -> by (simpl in Hf; lia). rewrite Nat.sub_diag. exists 0. split; [done|]. left. split; [done|].
    apply Forall_lookup. intros k x Hk. destruct (decide (k < i)%nat) as [Hlt | Hge].
    + specialize (Hlo k x Hlt Hk). lia.
    + specialize (Hhi k x ltac:(lia) Hk). lia.
  - rewrite Nat2Z.inj_succ, Z.pow_succ_r in Hf by lia. set (f1 := S fuel) in *. cbn [bsearch_loop].
    destruct (Z.eqb_spec (Z.of_nat (j - i)) 0) as [H0 | Hne].
    { exists 0. split; [done|]. left. split; [done|]. apply Forall_lookup. intros k x Hk.
      destruct (decide (k < i)%nat) as [Hlt | Hge]; [specialize (Hlo k x Hlt Hk)|specialize (Hhi k x ltac:(lia) Hk)]; lia. }
    rewrite !Z.shiftr_div_pow2 by lia. change (2 ^ 1) with 2.
    pose proof (Z.div_mod (Z.of_nat (j - i)) 2 ltac:(lia)) as D1. pose proof (Z.mod_pos_bound (Z.of_nat (j - i)) 2 ltac:(lia)) as D2.
    pose proof (Z.div_mod (Z.of_nat (j - i) - 1) 2 ltac:(lia)) as D3. pose proof (Z.mod_pos_bound (Z.of_nat (j - i) - 1) 2 ltac:(lia)) as D4.
    set (h := Z.to_nat (Z.of_nat (j - i) / 2)). assert (Z.of_nat (j - i) / 2 = Z.of_nat h) as Eh by lia. rewrite Eh.
    destruct (lookup_lt_is_Some_2 l (i + h)) as [x Hx]; [lia|].
    rewrite u32_small by nia. replace (base + Z.of_nat i * width + Z.of_nat h * width) with (base + Z.of_nat (i + h) * width) by lia.
    destruct (arr_lookup (i + h) x Hx) as [Hb Hl]. replace (Z.to_nat width) with (length x) by lia. rewrite (load_bytes_at _ _ _ Hb).
    cbn [mbind option_bind].
    destruct (Z.eqb_spec (compar key x) 0); [exists (base + Z.of_nat (i + h) * width); split; [done|]; right; eauto|].
    destruct (Z.ltb_spec 0 (compar key x)).
    + replace (base + Z.of_nat (i + h) * width + width) with (base + Z.of_nat (i + h + 1) * width) by lia.
      replace ((Z.of_nat (j - i) - 1) / 2) with (Z.of_nat (j - (i + h + 1))) by lia.
      apply IH; [lia|lia| |done]. intros k y Hk Hy. apply (in_order_mono k (i + h) y x); [done|lia|done|done|lia].
    + replace (Z.of_nat h) with (Z.of_nat (i + h - i)) by lia. apply IH; [lia|lia|done|].
      intros k y Hk Hy. apply (in_order_mono (i + h) k x y); [done|lia|done|done|lia].
Qed.
End bsearch.

(** in an array that has the elements smaller than the key first, then
    those that match it, then the greater ones, bsearch finds a matching
    element if there is one, in at most 32 comparisons, and returns NULL
    otherwise. *)
Theorem bsearch_finds compar width m key base l :
  0 < width < 2147483648 -> arr width m base l -> len l * width < 2147483648 -> key <> 0 -> base <> 0 ->
  in_order compar key l ->
  exists r, bsearch compar width m key base (len l) = Some r /\ found compar width key base l r.
Proof.
  intros Hw Hl Hs Hk Hb Ho. unfold bsearch.
  rewrite (proj2 (Z.eqb_neq key 0)), (proj2 (Z.eqb_neq base 0)) by done. simpl negb. cbn [assert mbind option_bind orb].
  destruct (bsearch_loop_spec compar width m key base l Hw Hl Hs 32 0 (length l)) as (r & Hr & Hf); [done|lia|nia|lia| |].
  { intros k x Hk' Hx%lookup_lt_Some. lia. }
  rewrite Nat.sub_0_r, Z.add_0_r in Hr. eauto.
Qed.

(** ** Instances

    Twelve elements of 4 bytes at address 4096, compared by their first byte. *)

Definition first_byte (x : list Z) : Z := default 0 (head x).

Definition by_first_byte (x y : list Z) : Z := first_byte x - first_byte y.

#[export] Instance by_first_byte_total : TotalCompar by_first_byte.
Proof. split; unfold by_first_byte; intros; lia. Qed.

Definition ex_array : list (list Z) := map (fun b => [b; 1; 2; 3]) [9; 3; 7; 1; 8; 3; 5; 12; 0; 3; 11; 6].

Definition ex_mem : bmem := mem_of 4096 (concat ex_array).

Lemma ex_arr : arr 4 ex_mem 4096 ex_array.
Proof. split; [apply mem_of_bytes|repeat constructor]. Qed.

Lemma qsort_ends_witness :
  exists m' l', qsort (fun _ _ => 1) 4 ex_mem 4096 12 = Some m' /\ arr 4 m' 4096 l' /\ l' ≡ₚ ex_array /\
    same_outside 4096 (4096 + 12 * 4) ex_mem m'.
Proof. apply (qsort_ends (fun _ _ => 1) 4 ex_mem 4096 ex_array); [lia|exact ex_arr|simpl; lia]. Defined.

Lemma qsort_sorts_witness :
  exists m' l', qsort by_first_byte 4 ex_mem 4096 12 = Some m' /\ arr 4 m' 4096 l' /\ l' ≡ₚ ex_array /\
    StronglySorted (compar_le by_first_byte) l'.
Proof. apply (qsort_sorts by_first_byte 4 ex_mem 4096 ex_array); [exact by_first_byte_total|lia|exact ex_arr|simpl; lia]. Defined.

Definition key_compar (key : Z) (x : list Z) : Z := key - first_byte x.

Definition ex_sorted : list (list Z) := [[3]; [5]; [5]; [8]].

Lemma bsearch_finds_witness :
  exists r, bsearch key_compar 1 (mem_of 4096 (concat ex_sorted)) 5 4096 4 = Some r /\ found key_compar 1 5 4096 ex_sorted r.
Proof.
  apply (bsearch_finds key_compar 1 (mem_of 4096 (concat ex_sorted)) 5 4096 ex_sorted); [lia| |simpl; lia|lia|lia|].
  - split; [apply mem_of_bytes|repeat constructor].
  - exists [[3]], [[5]; [5]], [[8]]. split_and!; [reflexivity|repeat constructor..].
Defined.
