(* ===== verification/CString.v ===== *)
(** * Strings and memory blocks (lib/libc/string)

    The functions of the C library on byte memory.  A character is a byte from
    0 to 255 ([char] is unsigned on ARM).  A loop that runs along a string has
    as much fuel as there are mapped bytes and one more, so that it ends in a
    mapped byte or at an access that is not mapped, which is [None]. *)

From stdpp Require Import base tactics numbers list gmap.
From S2P Require Import Prelude Bytes.

(** Conversion to [signed char]. *)
Definition i8 (z : Z) : Z := let w := u8 z in if w <? 128 then w else w - 256.

Definition string_fuel (m : bmem) : nat := S (size m).

(** ** Characters (os/include/ctype.h) *)

Definition islower (c : Z) : bool := (97 <=? c) && (c <=? 122).

Definition toupper (c : Z) : Z := if islower c then c - 97 + 65 else c.

Definition isspace (c : Z) : bool :=
  (c =? 32) || (c =? 9) || (c =? 10) || (c =? 13) || (c =? 12) || (c =? 11).

(** ** Memory blocks *)

Fixpoint memcpy_loop (n : nat) (m : bmem) (pout pin : Z) : option bmem :=
  match n with
  | O => Some m
  | S n => b ← load_byte m pin; m ← store_byte m pout b; memcpy_loop n m (pout + 1) (pin + 1)
  end.

Definition memcpy (m : bmem) (dest src n : Z) : option (bmem * Z) :=
  m ← memcpy_loop (Z.to_nat n) m dest src; Some (m, dest).

(** The loop of [memmove] from the end down. *)
Fixpoint memmove_down (n : nat) (m : bmem) (tmp s : Z) : option bmem :=
  match n with
  | O => Some m
  | S n => b ← load_byte m (s - 1); m ← store_byte m (tmp - 1) b; memmove_down n m (tmp - 1) (s - 1)
  end.

Definition memmove (m : bmem) (dest src count : Z) : option (bmem * Z) :=
  m ← (if dest <=? src then memcpy_loop (Z.to_nat count) m dest src
       else memmove_down (Z.to_nat count) m (dest + count) (src + count));
  Some (m, dest).

Fixpoint memset_loop (n : nat) (m : bmem) (p c : Z) : option bmem :=
  match n with
  | O => Some m
  | S n => m ← store_byte m p (u8 c); memset_loop n m (p + 1) c
  end.

(** [memset], the version optimised for size. *)
Definition memset (m : bmem) (s c n : Z) : option (bmem * Z) :=
  m ← memset_loop (Z.to_nat n) m s c; Some (m, s).

(** The version of [memset] optimised for speed (CONFIG_MEMSET_OPTSPEED) keeps
    an address and the number of bytes left; a step stores one integer,
    little-endian, and moves on. *)
Definition fill_state : Type := bmem * Z * Z.

Definition put (bs : list Z) (st : fill_state) : option fill_state :=
  let '(m, addr, n) := st in
  m ← store_bytes m addr bs;
  Some (m, addr + Z.of_nat (length bs), n - Z.of_nat (length bs)).

Definition fill_addr (st : fill_state) : Z := st.1.2.

Definition fill_left (st : fill_state) : Z := st.2.

Definition val16 (c : Z) : Z := u16 (Z.lor (Z.shiftl (u16 c) 8) (u16 c)).

Definition val32 (c : Z) : Z := u32 (Z.lor (Z.shiftl (val16 c) 16) (val16 c)).

Definition val64 (c : Z) : Z := Z.lor (Z.shiftl (val32 c) 32) (val32 c) mod 2 ^ 64.

Definition put8 (c : Z) : fill_state -> option fill_state := put [u8 c].

Definition put16 (c : Z) : fill_state -> option fill_state :=
  let v := val16 c in put [u8 v; u8 (Z.shiftr v 8)].

Definition put32 (c : Z) : fill_state -> option fill_state :=
  let v := val32 c in put [u8 v; u8 (Z.shiftr v 8); u8 (Z.shiftr v 16); u8 (Z.shiftr v 24)].

Definition put64 (c : Z) : fill_state -> option fill_state :=
  let v := val64 c in put [u8 v; u8 (Z.shiftr v 8); u8 (Z.shiftr v 16); u8 (Z.shiftr v 24);
    u8 (Z.shiftr v 32); u8 (Z.shiftr v 40); u8 (Z.shiftr v 48); u8 (Z.shiftr v 56)].

(** Steps of [k] bytes while as many are left. *)
Fixpoint put_while (fuel : nat) (step : fill_state -> option fill_state) (k : Z) (st : fill_state) : option fill_state :=
  match fuel with
  | O => None
  | S fuel => if k <=? fill_left st then st ← step st; put_while fuel step k st else Some st
  end.

(** What [memset] does for [n > 0]; [wide] is CONFIG_MEMSET_64BIT. *)
Definition memset_steps (wide : bool) (fuel : nat) (c : Z) (st : fill_state) : option fill_state :=
  st ← (if negb (Z.land (fill_addr st) 1 =? 0) then put8 c st else Some st);
  st ←
    (if 2 <=? fill_left st then
       st ← (if negb (Z.land (fill_addr st) 3 =? 0) then put16 c st else Some st);
       if wide then
         if 4 <=? fill_left st then
           st ← (if negb (Z.land (fill_addr st) 7 =? 0) then put32 c st else Some st);
           put_while fuel (put64 c) 8 st
         else Some st
       else put_while fuel (put32 c) 4 st
     else Some st);
  st ← (if wide then if 4 <=? fill_left st then put32 c st else Some st else Some st);
  st ← (if 2 <=? fill_left st then put16 c st else Some st);
  if 1 <=? fill_left st then put8 c st else Some st.

Definition memset_optspeed (wide : bool) (m : bmem) (s c n : Z) : option (bmem * Z) :=
  if 0 <? n then st ← memset_steps wide (S (Z.to_nat n)) c (m, s, n); Some (st.1.1, s) else Some (m, s).

Fixpoint memcmp (n : nat) (m : bmem) (p1 p2 : Z) : option Z :=
  match n with
  | O => Some 0
  | S n =>
      a ← load_byte m p1;
      b ← load_byte m p2;
      if a <? b then Some (-1) else if b <? a then Some 1 else memcmp n m (p1 + 1) (p2 + 1)
  end.

Fixpoint memchr_loop (n : nat) (m : bmem) (p c : Z) : option Z :=
  match n with
  | O => Some 0
  | S n => b ← load_byte m p; if b =? u8 c then Some p else memchr_loop n m (p + 1) c
  end.

Definition memchr (m : bmem) (s c n : Z) : option Z :=
  if s =? 0 then Some 0 else memchr_loop (Z.to_nat n) m s c.

Fixpoint memccpy (n : nat) (m : bmem) (pout pin c : Z) : option (bmem * Z) :=
  match n with
  | O => Some (m, 0)
  | S n =>
      b ← load_byte m pin;
      m ← store_byte m pout b;
      if b =? u8 c then Some (m, pout + 1) else memccpy n m (pout + 1) (pin + 1) c
  end.

(** ** Strings *)

(** The first [p] from [s] on whose character is NUL. *)
Fixpoint find_nul (fuel : nat) (m : bmem) (sc : Z) : option Z :=
  match fuel with
  | O => None
  | S fuel => c ← load_byte m sc; if c =? 0 then Some sc else find_nul fuel m (sc + 1)
  end.

Definition strlen (m : bmem) (s : Z) : option Z := sc ← find_nul (string_fuel m) m s; Some (sc - s).

Fixpoint strnlen_loop (n : nat) (m : bmem) (sc : Z) : option Z :=
  match n with
  | O => Some sc
  | S n => c ← load_byte m sc; if c =? 0 then Some sc else strnlen_loop n m (sc + 1)
  end.

Definition strnlen (m : bmem) (s maxlen : Z) : option Z := sc ← strnlen_loop (Z.to_nat maxlen) m s; Some (sc - s).

Fixpoint strcmp_loop (fuel : nat) (m : bmem) (cs ct : Z) : option Z :=
  match fuel with
  | O => None
  | S fuel =>
      c ← load_byte m cs;
      t ← load_byte m ct;
      let result := i8 (c - t) in
      if negb (result =? 0) || (c =? 0) then Some result else strcmp_loop fuel m (cs + 1) (ct + 1)
  end.

Definition strcmp (m : bmem) (cs ct : Z) : option Z := strcmp_loop (string_fuel m) m cs ct.

(** [result] is still 0 when the loop runs out of characters. *)
Fixpoint strncmp (nb : nat) (m : bmem) (cs ct : Z) : option Z :=
  match nb with
  | O => Some 0
  | S n =>
      c ← load_byte m cs;
      t ← load_byte m ct;
      if negb (c - t =? 0) || (c =? 0) then Some (c - t) else strncmp n m (cs + 1) (ct + 1)
  end.

Fixpoint strcasecmp_loop (fuel : nat) (m : bmem) (cs ct : Z) : option Z :=
  match fuel with
  | O => None
  | S fuel =>
      c ← load_byte m cs;
      t ← load_byte m ct;
      let result := toupper c - toupper t in
      if negb (result =? 0) || (c =? 0) then Some result else strcasecmp_loop fuel m (cs + 1) (ct + 1)
  end.

Definition strcasecmp (m : bmem) (cs ct : Z) : option Z := strcasecmp_loop (string_fuel m) m cs ct.

Fixpoint strncasecmp (nb : nat) (m : bmem) (cs ct : Z) : option Z :=
  match nb with
  | O => Some 0
  | S n =>
      c ← load_byte m cs;
      t ← load_byte m ct;
      let result := toupper c - toupper t in
      if negb (result =? 0) || (c =? 0) then Some result else strncasecmp n m (cs + 1) (ct + 1)
  end.

(** The copy loop of [strcpy]: the memory and [dest] after the terminating NUL
    has been copied. *)
Fixpoint copy_string (fuel : nat) (m : bmem) (dest src : Z) : option (bmem * Z) :=
  match fuel with
  | O => None
  | S fuel =>
      c ← load_byte m src;
      m ← store_byte m dest c;
      if c =? 0 then Some (m, dest + 1) else copy_string fuel m (dest + 1) (src + 1)
  end.

Definition strcpy (m : bmem) (dest src : Z) : option (bmem * Z) :=
  '(m, _) ← copy_string (string_fuel m) m dest src; Some (m, dest).

Definition stpcpy (m : bmem) (dest src : Z) : option (bmem * Z) :=
  '(m, d) ← copy_string (string_fuel m) m dest src; Some (m, d - 1).

(** The first loop of [strncpy]; [n] is [end - dest]. *)
Fixpoint strncpy_copy (n : nat) (m : bmem) (dest src : Z) : option (bmem * Z * nat) :=
  match n with
  | O => Some (m, dest, O)
  | S n =>
      c ← load_byte m src;
      m ← store_byte m dest c;
      if c =? 0 then Some (m, dest + 1, n) else strncpy_copy n m (dest + 1) (src + 1)
  end.

Definition strncpy (m : bmem) (dest src n : Z) : option (bmem * Z) :=
  '(m, d, rest) ← strncpy_copy (Z.to_nat n) m dest src;
  m ← memset_loop rest m d 0;
  Some (m, dest).

(** The copy loop of [strlcpy] with [n - 1] turns left: memory, [d], [s], and
    whether it ended with [n == 0]. *)
Fixpoint strlcpy_copy (n : nat) (m : bmem) (d s : Z) : option (bmem * Z * Z * bool) :=
  match n with
  | O => Some (m, d, s, true)
  | S n =>
      c ← load_byte m s;
      m ← store_byte m d c;
      if c =? 0 then Some (m, d + 1, s + 1, false) else strlcpy_copy n m (d + 1) (s + 1)
  end.

Definition strlcpy (m : bmem) (dest src n : Z) : option (bmem * Z) :=
  '(m, d, s, full) ← (if n =? 0 then Some (m, dest, src, true) else strlcpy_copy (Z.to_nat (n - 1)) m dest src);
  '(m, s) ←
    (if full : bool then
       m ← (if n =? 0 then Some m else store_byte m d 0);
       s ← find_nul (string_fuel m) m s;
       Some (m, s + 1)
     else Some (m, s));
  Some (m, s - src - 1).

(** The copy loop of [strcat], which leaves out the NUL. *)
Fixpoint strcat_loop (fuel : nat) (m : bmem) (dest src : Z) : option (bmem * Z) :=
  match fuel with
  | O => None
  | S fuel =>
      c ← load_byte m src;
      if c =? 0 then Some (m, dest)
      else m ← store_byte m dest c; strcat_loop fuel m (dest + 1) (src + 1)
  end.

Definition strcat (m : bmem) (dest src : Z) : option (bmem * Z) :=
  n ← strlen m dest;
  '(m, d) ← strcat_loop (string_fuel m) m (dest + n) src;
  m ← store_byte m d 0;
  Some (m, dest).

Fixpoint strncat_loop (n : nat) (m : bmem) (dest src : Z) : option (bmem * Z) :=
  match n with
  | O => Some (m, dest)
  | S n =>
      c ← load_byte m src;
      if c =? 0 then Some (m, dest)
      else m ← store_byte m dest c; strncat_loop n m (dest + 1) (src + 1)
  end.

Definition strncat (m : bmem) (dest src n : Z) : option (bmem * Z) :=
  k ← strlen m dest;
  '(m, d) ← strncat_loop (Z.to_nat n) m (dest + k) src;
  m ← store_byte m d 0;
  Some (m, dest).

(** ** Searching *)

Fixpoint strchr_loop (fuel : nat) (m : bmem) (s c : Z) : option Z :=
  match fuel with
  | O => None
  | S fuel =>
      b ← load_byte m s;
      if b =? c then Some s else if b =? 0 then Some 0 else strchr_loop fuel m (s + 1) c
  end.

Definition strchr (m : bmem) (s c : Z) : option Z :=
  if s =? 0 then Some 0 else strchr_loop (string_fuel m) m s c.

(** [n] characters from [p] down *)
Fixpoint strrchr_loop (n : nat) (m : bmem) (p c : Z) : option Z :=
  match n with
  | O => Some 0
  | S n => b ← load_byte m p; if b =? c then Some p else strrchr_loop n m (p - 1) c
  end.

Definition strrchr (m : bmem) (s c : Z) : option Z :=
  if s =? 0 then Some 0
  else n ← strlen m s; strrchr_loop (Z.to_nat n) m (s + n - 1) c.

(** The first [p] from [s] on that is NUL or whose being in [set] is [stop]. *)
Fixpoint span_loop (fuel : nat) (stop : bool) (m : bmem) (p set : Z) : option Z :=
  match fuel with
  | O => None
  | S fuel =>
      c ← load_byte m p;
      if c =? 0 then Some p
      else
        q ← strchr m set c;
        if Bool.eqb (negb (q =? 0)) stop then Some p else span_loop fuel stop m (p + 1) set
  end.

Definition strspn (m : bmem) (s accept : Z) : option Z := p ← span_loop (string_fuel m) false m s accept; Some (p - s).

Definition strcspn (m : bmem) (s reject : Z) : option Z := p ← span_loop (string_fuel m) true m s reject; Some (p - s).

Definition strpbrk (m : bmem) (str charset : Z) : option Z :=
  if (str =? 0) || (charset =? 0) then Some 0
  else
    p ← span_loop (string_fuel m) true m str charset;
    c ← load_byte m p;
    Some (if c =? 0 then 0 else p).

Fixpoint strstr_loop (fuel : nat) (m : bmem) (candidate substr ch len : Z) : option Z :=
  match fuel with
  | O => None
  | S fuel =>
      candidate ← strchr m candidate ch;
      if candidate =? 0 then Some 0
      else
        n ← strlen m candidate;
        if n <? u32 len then Some 0
        else
          r ← strncmp (Z.to_nat len) m candidate substr;
          if r =? 0 then Some candidate else strstr_loop fuel m (candidate + 1) substr ch len
  end.

Definition strstr (m : bmem) (str substr : Z) : option Z :=
  n ← strlen m substr;
  ch ← load_byte m substr;
  if ch =? 0 then Some str else strstr_loop (string_fuel m) m str substr ch (i32 n).

Fixpoint strcasechr_loop (fuel : nat) (m : bmem) (s uc : Z) : option Z :=
  match fuel with
  | O => None
  | S fuel =>
      ch ← load_byte m s;
      if ch =? 0 then Some 0 else if toupper ch =? uc then Some s else strcasechr_loop fuel m (s + 1) uc
  end.

Definition strcasechr (m : bmem) (s uc : Z) : option Z :=
  if s =? 0 then Some 0 else strcasechr_loop (string_fuel m) m s uc.

Fixpoint strcasestr_loop (fuel : nat) (m : bmem) (candidate substr ch len : Z) : option Z :=
  match fuel with
  | O => None
  | S fuel =>
      candidate ← strcasechr m candidate ch;
      if candidate =? 0 then Some 0
      else
        n ← strlen m candidate;
        if n <? u32 len then Some 0
        else
          r ← strncasecmp (Z.to_nat len) m candidate substr;
          if r =? 0 then Some candidate else strcasestr_loop fuel m (candidate + 1) substr ch len
  end.

Definition strcasestr (m : bmem) (str substr : Z) : option Z :=
  n ← strlen m substr;
  ch ← load_byte m substr;
  if ch =? 0 then Some str else strcasestr_loop (string_fuel m) m str substr (toupper ch) (i32 n).

(** ** Tokens *)

(** [saveptr] is [None] if the argument is a null pointer, and otherwise the
    value it points to.  The result is the memory, the token and the value of
    [*saveptr] afterwards. *)
Definition strtok_r (m : bmem) (str delim : Z) (saveptr : option Z) : option (bmem * Z * option Z) :=
  let pbegin := if negb (str =? 0) then str else default 0 saveptr in
  if pbegin =? 0 then Some (m, 0, saveptr)
  else
    pbegin ← span_loop (string_fuel m) false m pbegin delim;
    c ← load_byte m pbegin;
    if c =? 0 then Some (m, 0, saveptr)
    else
      pend ← span_loop (string_fuel m) true m (pbegin + 1) delim;
      c ← load_byte m pend;
      '(m, pend) ← (if c =? 0 then Some (m, pend) else m ← store_byte m pend 0; Some (m, pend + 1));
      Some (m, pbegin, (_ ← saveptr; Some pend)).

Definition strtok (m : bmem) (str delim g_saveptr : Z) : option (bmem * Z * Z) :=
  '(m, p, s) ← strtok_r m str delim (Some g_saveptr);
  Some (m, p, default 0 s).

(** ** Copies on the heap; [lib_malloc] gives the address of a new block. *)

Definition strdup (lib_malloc : Z -> Z) (m : bmem) (s : Z) : option (bmem * Z) :=
  if s =? 0 then Some (m, 0)
  else
    n ← strlen m s;
    let news := lib_malloc (n + 1) in
    if news =? 0 then Some (m, 0) else strcpy m news s.

Definition strndup (lib_malloc : Z -> Z) (m : bmem) (s n : Z) : option (bmem * Z) :=
  if s =? 0 then Some (m, 0)
  else
    allocsize ← strnlen m s n;
    let news := lib_malloc (allocsize + 1) in
    if news =? 0 then Some (m, 0)
    else
      '(m, _) ← memcpy m news s allocsize;
      m ← store_byte m (news + allocsize) 0;
      Some (m, news).
