(* ===== verification/CStringProps.v ===== *)
(** * Strings: what the functions compute

    [cstr m a s] says that memory holds the string [s] at [a].  Every function
    of [CString] computes the list function it stands for, within the memory of
    its arguments. *)

From stdpp Require Import base tactics numbers list gmap sets.
From S2P Require Import Prelude Bytes CString.

(** ** Strings in memory *)

Definition char (c : Z) : Prop := 0 < c < 256.

#[export] Instance char_dec c : Decision (char c) := decide (0 < c < 256).

Definition cstr (m : bmem) (a : Z) (s : list Z) : Prop := bytes_at m a (s ++ [0]) /\ Forall char s.

Lemma bytes_at_size m a bs : bytes_at m a bs -> (length bs <= size m)%nat.
Proof.
  intros Hb. rewrite <- (size_dom (D := gset Z)).
  transitivity (size (list_to_set (seqZ a (len bs)) : gset Z)).
  - rewrite size_list_to_set by apply NoDup_seqZ. rewrite length_seqZ. lia.
  - apply subseteq_size. intros c Hc. apply elem_of_list_to_set, elem_of_seqZ in Hc. apply elem_of_dom.
    destruct (lookup_lt_is_Some_2 bs (Z.to_nat (c - a))) as [b Hi]; [lia|].
    exists b. rewrite <- (bytes_at_lookup _ _ _ _ _ Hb Hi). f_equal. lia.
Qed.

Lemma cstr_fuel m a s : cstr m a s -> (length s < string_fuel m)%nat.
Proof. intros [Hb _]. apply bytes_at_size in Hb. rewrite length_app in Hb. simpl in Hb. unfold string_fuel. lia. Qed.

Lemma cstr_nil m a : cstr m a [] <-> m !! a = Some 0.
Proof. unfold cstr. simpl. rewrite Forall_nil. tauto. Qed.

Lemma cstr_cons m a c s : cstr m a (c :: s) <-> m !! a = Some c /\ char c /\ cstr m (a + 1) s.
Proof. unfold cstr. simpl. rewrite Forall_cons. tauto. Qed.

Lemma cstr_app m a s t : cstr m a (s ++ t) <-> bytes_at m a s /\ Forall char s /\ cstr m (a + len s) t.
Proof. unfold cstr. rewrite <- (assoc_L (++)), bytes_at_app, Forall_app. tauto. Qed.

Lemma cstr_frame m m' a s : cstr m a s -> (forall c, a <= c <= a + len s -> m' !! c = m !! c) -> cstr m' a s.
Proof.
  intros [Hb Hc] Hf. split; [|done]. apply (bytes_at_frame m); [done|]. intros x Hx. apply Hf.
  rewrite length_app in Hx. simpl in Hx. lia.
Qed.

Lemma cstr_outside m m' a e c s : cstr m c s -> same_outside a e m m' -> c + len s < a \/ e <= c -> cstr m' c s.
Proof. intros Hs Ho Hd. apply (cstr_frame m); [done|]. intros x Hx. apply Ho. lia. Qed.

(** Reading along a string. *)
Ltac load_at H := unfold load_byte; rewrite H; cbn [mbind option_bind].

Lemma find_nul_spec fuel m a s : cstr m a s -> (length s < fuel)%nat -> find_nul fuel m a = Some (a + len s).
Proof.
  revert m a s. induction fuel as [|fuel IH]; intros m a s Hs Hf; [lia|]. destruct s as [|c s]; cbn [find_nul].
  - apply cstr_nil in Hs. load_at Hs. simpl. f_equal. lia.
  - apply cstr_cons in Hs as (Hc & Hch & Hs). load_at Hc. unfold char in Hch. rewrite (proj2 (Z.eqb_neq c 0)) by lia.
    simpl in Hf. rewrite (IH _ _ s) by (done || lia). simpl. f_equal. lia.
Qed.

Lemma strlen_spec m a s : cstr m a s -> strlen m a = Some (len s).
Proof. intros Hs. unfold strlen. rewrite (find_nul_spec _ _ _ s) by eauto using cstr_fuel. simpl. f_equal. lia. Qed.

(** ** Comparison *)

(** The difference of the first characters that differ; the end of a string
    counts as 0. *)
Fixpoint diff (s t : list Z) : Z :=
  match s, t with
  | [], [] => 0
  | c :: _, [] => c
  | [], d :: _ => - d
  | c :: s, d :: t => if c =? d then diff s t else c - d
  end.

Lemma diff_zero s t : Forall char s -> Forall char t -> diff s t = 0 <-> s = t.
Proof.
  intros Hs. revert t. induction Hs as [|c s Hc Hs IH]; intros [|d t] Ht; simpl; try apply Forall_cons in Ht as [Hd Ht];
    unfold char in *; [done| | |].
  - split; [lia|done].
  - split; [lia|done].
  - destruct (Z.eqb_spec c d) as [-> | Hne].
    + rewrite IH by done. split; [by intros ->|by intros [= ->]].
    + split; [lia|congruence].
Qed.

Lemma diff_bound s t : Forall char s -> Forall char t -> -256 < diff s t < 256.
Proof.
  intros Hs. revert t. induction Hs as [|c s Hc Hs IH]; intros [|d t] Ht; simpl; try apply Forall_cons in Ht as [Hd Ht];
    unfold char in *; [lia..|]. destruct (Z.eqb_spec c d); [by apply IH|lia].
Qed.

(** [diff] is the lexicographic comparison. *)
Lemma diff_app p c d s t : diff (p ++ c :: s) (p ++ d :: t) = if c =? d then diff s t else c - d.
Proof. induction p as [|x p IH]; [done|]. simpl. by rewrite Z.eqb_refl. Qed.

Lemma diff_prefix p t : diff p (p ++ t) = match t with [] => 0 | d :: _ => - d end.
Proof. induction p as [|x p IH]; [by destruct t|]. simpl. by rewrite Z.eqb_refl. Qed.

Lemma i8_zero z : -256 < z < 256 -> i8 z = 0 <-> z = 0.
Proof.
  intros Hz. unfold i8, u8. destruct (decide (0 <= z)).
  - rewrite Z.mod_small by lia. destruct (Z.ltb_spec z 128); lia.
  - rewrite <- (Z_mod_plus_full z 1), Z.mod_small by lia. destruct (Z.ltb_spec (z + 1 * 256) 128); lia.
Qed.

(** A step of the comparison of two strings. *)
Lemma cstr_heads m a s : cstr m a s -> exists c, m !! a = Some c /\ 0 <= c < 256 /\
  (s = [] /\ c = 0 \/ exists s', s = c :: s' /\ char c /\ cstr m (a + 1) s').
Proof.
  intros Hs. destruct s as [|c s].
  - exists 0. apply cstr_nil in Hs. split_and!; try done. by left.
  - apply cstr_cons in Hs as (Hc & Hch & Hs). exists c. unfold char in *. split_and!; [done|lia|lia|]. right. eauto.
Qed.

Lemma strcmp_spec m a b s t : cstr m a s -> cstr m b t -> strcmp m a b = Some (i8 (diff s t)).
Proof.
  intros Hs Ht. unfold strcmp. pose proof (cstr_fuel _ _ _ Hs) as Hf. revert Hf. generalize (string_fuel m). intros fuel.
  revert a b s t Hs Ht. induction fuel as [|fuel IH]; intros a b s t Hs Ht Hf; [lia|]. cbn [strcmp_loop].
  destruct (cstr_heads _ _ _ Hs) as (c & Hc & Bc & Cs), (cstr_heads _ _ _ Ht) as (d & Hd & Bd & Ct).
  load_at Hc. load_at Hd. pose proof (i8_zero (c - d) ltac:(lia)) as H0. destruct (Z.eqb_spec (i8 (c - d)) 0) as [E | E]; simpl.
  - apply H0 in E. assert (d = c) as -> by lia. destruct (Z.eqb_spec c 0) as [-> | Hne].
    + destruct Cs as [[-> _] | (s' & _ & Hch & _)], Ct as [[-> _] | (t' & _ & Hch' & _)]; unfold char in *; lia || done.
    + destruct Cs as [[_ ?] | (s' & -> & _ & Hs')]; [done|]. destruct Ct as [[_ ?] | (t' & -> & _ & Ht')]; [done|].
      simpl. rewrite Z.eqb_refl. simpl in Hf. apply IH; [done|done|lia].
  - destruct Cs as [[-> ->] | (s' & -> & Hch & _)], Ct as [[-> ->] | (t' & -> & Hch' & _)]; simpl; try done.
    + by rewrite Z.sub_0_r.
    + rewrite (proj2 (Z.eqb_neq c d)); [done|]. intros ->. apply E, H0. lia.
Qed.

Lemma strncmp_spec n m a b s t : cstr m a s -> cstr m b t -> strncmp n m a b = Some (diff (take n s) (take n t)).
Proof.
  revert a b s t. induction n as [|n IH]; intros a b s t Hs Ht; [done|]. cbn [strncmp].
  destruct (cstr_heads _ _ _ Hs) as (c & Hc & Bc & Cs), (cstr_heads _ _ _ Ht) as (d & Hd & Bd & Ct).
  load_at Hc. load_at Hd. destruct (Z.eqb_spec (c - d) 0) as [E | E]; simpl.
  - assert (d = c) as -> by lia. destruct (Z.eqb_spec c 0) as [-> | Hne].
    + destruct Cs as [[-> _] | (s' & _ & Hch & _)], Ct as [[-> _] | (t' & _ & Hch' & _)]; unfold char in *; lia || done.
    + destruct Cs as [[_ ?] | (s' & -> & _ & Hs')]; [done|]. destruct Ct as [[_ ?] | (t' & -> & _ & Ht')]; [done|].
      simpl. rewrite Z.eqb_refl. by apply IH.
  - destruct Cs as [[-> ->] | (s' & -> & Hch & _)], Ct as [[-> ->] | (t' & -> & Hch' & _)]; simpl; try done.
    + by rewrite Z.sub_0_r.
    + rewrite (proj2 (Z.eqb_neq c d)); [done|lia].
Qed.

Lemma toupper_zero c : 0 <= c < 256 -> toupper c = 0 <-> c = 0.
Proof. intros Hc. unfold toupper, islower. destruct (Z.leb_spec 97 c), (Z.leb_spec c 122); simpl; lia. Qed.

Lemma strncasecmp_spec n m a b s t :
  cstr m a s -> cstr m b t -> strncasecmp n m a b = Some (diff (toupper <$> take n s) (toupper <$> take n t)).
Proof.
  revert a b s t. induction n as [|n IH]; intros a b s t Hs Ht; [done|]. cbn [strncasecmp].
  destruct (cstr_heads _ _ _ Hs) as (c & Hc & Bc & Cs), (cstr_heads _ _ _ Ht) as (d & Hd & Bd & Ct).
  load_at Hc. load_at Hd. pose proof (toupper_zero c Bc) as Zc. pose proof (toupper_zero d Bd) as Zd.
  destruct (Z.eqb_spec (toupper c - toupper d) 0) as [E | E]; simpl.
  - destruct (Z.eqb_spec c 0) as [-> | Hne].
    + destruct Cs as [[-> _] | (s' & _ & Hch & _)], Ct as [[-> _] | (t' & _ & Hch' & _)]; unfold char in *; try lia.
      simpl. f_equal. lia.
    + destruct Cs as [[_ ?] | (s' & -> & _ & Hs')]; [done|]. destruct Ct as [[_ ?] | (t' & -> & _ & Ht')]; [lia|].
      simpl. rewrite (proj2 (Z.eqb_eq (toupper c) (toupper d))) by lia. by apply IH.
  - destruct Cs as [[-> ->] | (s' & -> & Hch & _)], Ct as [[-> ->] | (t' & -> & Hch' & _)]; simpl; try done.
    + f_equal. change (toupper 0) with 0. lia.
    + rewrite (proj2 (Z.eqb_neq (toupper c) (toupper d))); [done|lia].
Qed.

(** ** Searching *)

(** The strings behind a position in a string. *)
Lemma strchr_spec m a s c :
  cstr m a s -> a <> 0 ->
  (forall p r, s = p ++ c :: r -> c ∉ p -> strchr m a c = Some (a + len p)) /\
  (c <> 0 -> c ∉ s -> strchr m a c = Some 0) /\
  (c = 0 -> strchr m a c = Some (a + len s)).
Proof.
  intros Hs Ha. unfold strchr. rewrite (proj2 (Z.eqb_neq a 0)) by done.
  pose proof (cstr_fuel _ _ _ Hs) as Hf. revert Hf. generalize (string_fuel m). intros fuel. clear Ha.
  revert a s Hs. induction fuel as [|fuel IH]; intros a s Hs Hf; [lia|]. cbn [strchr_loop].
  destruct (cstr_heads _ _ _ Hs) as (b & Hb & Bb & Cs). load_at Hb.
  destruct Cs as [[-> ->] | (s' & -> & Hch & Hs')]; unfold char in *.
  - split_and!.
    + intros p r E. by destruct p.
    + intros Hc _. destruct (Z.eqb_spec 0 c); [done|]. done.
    + intros ->. simpl. f_equal. lia.
  - simpl in Hf. destruct (IH (a + 1) s' Hs') as (I1 & I2 & I3); [lia|]. rewrite (proj2 (Z.eqb_neq b 0)) by lia. split_and!.
    + intros [|x p] r E Hp; simplify_eq/=.
      * rewrite Z.eqb_refl. f_equal. lia.
      * rewrite not_elem_of_cons in Hp. destruct (Z.eqb_spec x c); [by subst; tauto|].
        rewrite (I1 p r) by tauto. f_equal. lia.
    + intros Hc Hn. rewrite not_elem_of_cons in Hn. destruct (Z.eqb_spec b c); [by subst; tauto|]. apply I2; tauto.
    + intros ->. destruct (Z.eqb_spec b 0); [lia|]. rewrite I3 by done. f_equal. simpl. lia.
Qed.

(** The first occurrence of a character splits a string. *)
Lemma split_first (c : Z) s : c ∈ s -> exists p r, s = p ++ c :: r /\ c ∉ p.
Proof.
  induction s as [|x s IH]; intros Hc; [set_solver|]. destruct (decide (x = c)) as [-> | Hne].
  - exists [], s. set_solver.
  - destruct IH as (p & r & -> & Hp); [set_solver|]. exists (x :: p), r. set_solver.
Qed.

Lemma cstr_positive_tail m a s p r : cstr m a s -> s = p ++ r -> cstr m (a + len p) r.
Proof. intros Hs ->. by apply cstr_app in Hs as (_ & _ & ?). Qed.

(** [strchr] as a test of membership. *)
Lemma strchr_member m a s c :
  cstr m a s -> 0 < a -> char c -> exists q, strchr m a c = Some q /\ (q =? 0) = bool_decide (c ∉ s).
Proof.
  intros Hs Ha Hc. destruct (strchr_spec m a s c Hs ltac:(lia)) as (H1 & H2 & _). destruct (decide (c ∈ s)) as [Hin | Hin].
  - destruct (split_first c s Hin) as (p & r & -> & Hp). rewrite (H1 p r) by done. exists (a + len p). split; [done|].
    rewrite bool_decide_eq_false_2 by set_solver. apply Z.eqb_neq. lia.
  - unfold char in Hc. rewrite H2 by (done || lia). exists 0. split; [done|]. by rewrite bool_decide_eq_true_2.
Qed.
