(* ===== verification/CStringCopy.v ===== *)
(** * Strings: substrings and tokens *)

From stdpp Require Import base tactics numbers list gmap sets.
From S2P Require Import Prelude Bytes CString CStringProps.

(** ** Substrings *)

(** [t] occurs in [s] behind [p]. *)
Definition occurs (s t p : list Z) : Prop := exists q, s = p ++ t ++ q.

(** What [strstr] returns for the string [s] at [a]: the first occurrence of
    [t], or a null pointer if there is none. *)
Definition first_occurrence (a : Z) (s t : list Z) (r : Z) : Prop :=
  (exists p, occurs s t p /\ r = a + len p /\ forall p', occurs s t p' -> (length p <= length p')%nat) \/
  r = 0 /\ forall p, ~ occurs s t p.

Lemma occurs_behind p u ch v t p' :
  occurs (p ++ u ++ ch :: v) (ch :: t) p' -> ch ∉ u -> (length p <= length p')%nat -> (length p + length u <= length p')%nat.
Proof.
  intros [q E] Hu Hp. destruct (decide (length p + length u <= length p')%nat) as [|Hlt]; [done|]. exfalso. apply Hu.
  assert ((p ++ u ++ ch :: v) !! length p' = Some ch) as Hl by (rewrite E; by apply list_lookup_middle).
  rewrite lookup_app_r, lookup_app_l in Hl by lia. by eapply list_elem_of_lookup_2.
Qed.

Lemma occurs_take p u t v : occurs (p ++ u ++ v) t (p ++ u) <-> take (length t) v = t.
Proof.
  unfold occurs. rewrite (assoc_L (++) p). split.
  - intros [q E%app_inv_head]. rewrite E. apply take_app_length.
  - intros E. exists (drop (length t) v). f_equal. rewrite <- E at 1. by rewrite take_drop.
Qed.

Lemma occurs_same_length s t p p' q : s = p ++ q -> occurs s t p' -> length p' = length p -> p' = p.
Proof. intros -> [r E] Hl. by apply app_inj_1 in E as [? _]. Qed.

Lemma strstr_loop_spec fuel m a s b t ch p r :
  cstr m a s -> cstr m b (ch :: t) -> 0 < a -> len (ch :: t) < 2147483648 -> s = p ++ r -> (length r < fuel)%nat ->
  (forall p', occurs s (ch :: t) p' -> (length p <= length p')%nat) ->
  exists res, strstr_loop fuel m (a + len p) b ch (len (ch :: t)) = Some res /\ first_occurrence a s (ch :: t) res.
Proof.
  intros Hs Ht Ha Hl. revert p r. induction fuel as [|fuel IH]; intros p r -> Hf Hp; [lia|]. cbn [strstr_loop].
  pose proof (cstr_positive_tail m a _ p r Hs eq_refl) as Hr.
  destruct (strchr_spec m (a + len p) r ch Hr ltac:(lia)) as (H1 & H2 & _).
  assert (char ch) as Hch by (by apply cstr_cons in Ht as (_ & ? & _)). unfold char in Hch.
  destruct (decide (ch ∈ r)) as [Hin | Hin].
  2:{ rewrite H2 by (done || lia). exists 0. split; [done|]. right. split; [done|]. intros p' Ho. apply Hin.
      destruct Ho as [q E]. assert ((p ++ r) !! length p' = Some ch) as Hl' by (rewrite E; by apply list_lookup_middle).
      rewrite lookup_app_r in Hl' by (apply Hp; by exists q). by eapply list_elem_of_lookup_2. }
  destruct (split_first ch r Hin) as (u & v & -> & Hu). rewrite (H1 u v) by done. cbn [mbind option_bind].
  rewrite (proj2 (Z.eqb_neq (a + len p + len u) 0)) by lia.
  pose proof (cstr_positive_tail m _ _ u (ch :: v) Hr eq_refl) as Hv. rewrite (strlen_spec _ _ _ Hv). cbn [mbind option_bind].
  rewrite u32_small by lia.
  assert (forall p', occurs (p ++ u ++ ch :: v) (ch :: t) p' -> (length p + length u <= length p')%nat) as Hb
    by (intros p' Ho; eapply occurs_behind; eauto).
  destruct (Z.ltb_spec (len (ch :: v)) (len (ch :: t))) as [Hshort | Hlong].
  { exists 0. split; [done|]. right. split; [done|]. intros p' Ho. specialize (Hb p' Ho). destruct Ho as [q E].
    apply (f_equal length) in E. rewrite !length_app in E. simpl in *. lia. }
  rewrite Nat2Z.id, (strncmp_spec _ _ _ _ _ _ Hv Ht). cbn [mbind option_bind]. rewrite (take_ge (ch :: t)) by lia.
  pose proof (occurs_take p u (ch :: t) (ch :: v)) as Htk.
  destruct (Z.eqb_spec (diff (take (length (ch :: t)) (ch :: v)) (ch :: t)) 0) as [E | E];
    rewrite diff_zero in E by (apply Forall_take, Hv || apply Ht).
  - exists (a + len p + len u). split; [done|]. left. exists (p ++ u). split_and!; [by apply Htk|rewrite length_app; lia|].
    intros p' Ho. rewrite length_app. by apply Hb.
  - replace (a + len p + len u + 1) with (a + len (p ++ u ++ [ch])) by (rewrite !length_app; simpl; lia).
    apply (IH (p ++ u ++ [ch]) v); [by rewrite <- !(assoc_L (++))|rewrite length_app in Hf; simpl in Hf; lia|].
    intros p' Ho. specialize (Hb p' Ho). rewrite !length_app. simpl.
    destruct (decide (length p' = length p + length u)%nat) as [He | Hne]; [|lia]. exfalso. apply E, Htk.
    rewrite (occurs_same_length _ _ (p ++ u) p' (ch :: v) ltac:(by rewrite <- (assoc_L (++))) Ho) in Ho by (rewrite length_app; lia). done.
Qed.

Lemma strstr_spec m a s b t :
  cstr m a s -> cstr m b t -> 0 < a -> len t < 2147483648 ->
  exists r, strstr m a b = Some r /\ first_occurrence a s t r.
Proof.
  intros Hs Ht Ha Hl. unfold strstr. rewrite (strlen_spec _ _ _ Ht). cbn [mbind option_bind]. destruct t as [|ch t].
  - apply cstr_nil in Ht. load_at Ht. simpl. exists a. split; [done|]. left. exists []. simpl. split_and!; [by exists s|lia|lia].
  - pose proof Ht as (Hc & Hch & _)%cstr_cons. load_at Hc. unfold char in Hch. rewrite (proj2 (Z.eqb_neq ch 0)) by lia.
    rewrite i32_small by lia.
    destruct (strstr_loop_spec (string_fuel m) m a s b t ch [] s) as (r & Hr & Ho); eauto using cstr_fuel; [simpl; lia|].
    rewrite Z.add_0_r in Hr. eauto.
Qed.

(** ** Spans *)

Lemma span_loop_spec fuel stop m a s d D :
  cstr m a s -> cstr m d D -> 0 < d -> (length s < fuel)%nat ->
  exists u v, span_loop fuel stop m a d = Some (a + len u) /\ s = u ++ v /\
    Forall (fun c => bool_decide (c ∈ D) = negb stop) u /\ (forall c, head v = Some c -> bool_decide (c ∈ D) = stop).
Proof.
  intros Hs HD Hd. revert a s Hs. induction fuel as [|fuel IH]; intros a s Hs Hf; [lia|]. cbn [span_loop].
  destruct (cstr_heads _ _ _ Hs) as (c & Hc & Bc & [[-> ->] | (s' & -> & Hch & Hs')]); load_at Hc.
  - simpl. exists [], []. split_and!; [f_equal; simpl; lia|done..].
  - destruct (strchr_member m d D c HD Hd Hch) as (q & -> & Hq). cbn [mbind option_bind]. unfold char in Hch.
    rewrite (proj2 (Z.eqb_neq c 0)) by lia. rewrite Hq, bool_decide_not, negb_involutive.
    destruct (Bool.eqb (bool_decide (c ∈ D)) stop) eqn:E.
    + apply Bool.eqb_prop in E. exists [], (c :: s'). split_and!; [f_equal; simpl; lia|done|done|]. by intros ? [= <-].
    + apply Bool.eqb_false_iff in E. simpl in Hf.
      destruct (IH (a + 1) s' Hs') as (u & v & Hsp & -> & Hu & Hv); [lia|]. exists (c :: u), v.
      split_and!; [rewrite Hsp; f_equal; simpl; lia|done| |done]. constructor; [|done].
      destruct (bool_decide (c ∈ D)), stop; congruence || done.
Qed.

Lemma strcspn_spec m a s d D :
  cstr m a s -> cstr m d D -> 0 < d ->
  exists u v, strcspn m a d = Some (len u) /\ s = u ++ v /\ Forall (fun c => c ∉ D) u /\ (forall c, head v = Some c -> c ∈ D).
Proof.
  intros Hs HD Hd. unfold strcspn. destruct (span_loop_spec (string_fuel m) true m a s d D Hs HD Hd) as (u & v & -> & -> & Hu & Hv);
    [by eapply cstr_fuel|].
  exists u, v. simpl. split_and!; [f_equal; lia|done| |].
  - eapply Forall_impl; [exact Hu|]. intros c Hc%bool_decide_eq_false. done.
  - intros c Hc%Hv%bool_decide_eq_true. done.
Qed.

(** ** Tokens *)

(** The tokens of a string: the longest runs of characters that are no
    delimiters.  [cur] is the token read so far. *)
Fixpoint tokens_from (D cur s : list Z) : list (list Z) :=
  match s with
  | [] => match cur with [] => [] | _ => [cur] end
  | c :: s =>
      if bool_decide (c ∈ D) then match cur with [] => tokens_from D [] s | _ => cur :: tokens_from D [] s end
      else tokens_from D (cur ++ [c]) s
  end.

Abbreviation tokens D s := (tokens_from D [] s).

Lemma tokens_skip D u s : Forall (fun c => c ∈ D) u -> tokens D (u ++ s) = tokens D s.
Proof. induction 1 as [|c u Hc _ IH]; [done|]. simpl. by rewrite bool_decide_eq_true_2. Qed.

Lemma tokens_read D cur u s : Forall (fun c => c ∉ D) u -> tokens_from D cur (u ++ s) = tokens_from D (cur ++ u) s.
Proof.
  intros Hu. revert cur. induction Hu as [|c u Hc _ IH]; intros cur; simpl.
  - by rewrite app_nil_r.
  - rewrite bool_decide_eq_false_2 by done. by rewrite IH, <- (assoc_L (++)).
Qed.

(** The memory in which the character behind a token has become NUL. *)
Lemma cstr_cut m a u c v :
  cstr m a (u ++ c :: v) -> cstr (<[a + len u := 0]> m) a u /\ cstr (<[a + len u := 0]> m) (a + len u + 1) v.
Proof.
  intros (Hu & Hcu & (Hc & Hch & Hv)%cstr_cons)%cstr_app. split.
  - split; [|done]. apply bytes_at_app. split.
    + apply (bytes_at_frame m); [done|]. intros x Hx. by rewrite lookup_insert_ne by lia.
    + simpl. split; [apply lookup_insert_eq|done].
  - apply (cstr_frame m); [done|]. intros x Hx. by rewrite lookup_insert_ne by lia.
Qed.

(** One call of [strtok_r] that goes on at [p]. *)
Lemma strtok_r_spec m str p s d D sv :
  cstr m p s -> cstr m d D -> 0 < p -> 0 < d -> (str = p \/ str = 0 /\ sv = p) ->
  (tokens D s = [] /\ strtok_r m str d (Some sv) = Some (m, 0, Some sv)) \/
  exists m' (u tok rest : list Z) sv', strtok_r m str d (Some sv) = Some (m', p + len u, Some sv') /\
    tokens D s = tok :: tokens D rest /\ cstr m' (p + len u) tok /\ cstr m' sv' rest /\
    (p + len u + len tok < sv' \/ rest = [] /\ p + len u + len tok = sv') /\ sv' + len rest <= p + len s /\ same_outside (p + len u) sv' m m' /\ (length rest < length s)%nat.
Proof.
  intros Hs HD Hp Hd Hstr. unfold strtok_r. simpl default.
  replace (if negb (str =? 0) then str else sv) with p by (destruct (Z.eqb_spec str 0); simpl; lia).
  rewrite (proj2 (Z.eqb_neq p 0)) by lia.
  destruct (span_loop_spec (string_fuel m) false m p s d D Hs HD Hd) as (u & v & -> & -> & Hu & Hv); [by eapply cstr_fuel|].
  cbn [mbind option_bind]. apply (Forall_impl _ (fun c => c ∈ D)) in Hu; [|by intros c Hc%bool_decide_eq_true].
  pose proof (cstr_positive_tail m p _ u v Hs eq_refl) as Hv'. rewrite tokens_skip by done.
  destruct v as [|c v].
  { left. split; [done|]. apply cstr_nil in Hv'. by load_at Hv'. }
  right. pose proof Hv' as (Hc & Hch & Hvt)%cstr_cons. unfold char in Hch. load_at Hc. rewrite (proj2 (Z.eqb_neq c 0)) by lia.
  destruct (span_loop_spec (string_fuel m) true m (p + len u + 1) v d D Hvt HD Hd) as (w & x & Hsp & -> & Hw & Hx);
    [by eapply cstr_fuel|]. unfold load_byte in Hsp. rewrite Hsp. clear Hsp. cbn [mbind option_bind].
  apply (Forall_impl _ (fun c => c ∉ D)) in Hw; [|by intros e He%bool_decide_eq_false].
  assert (c ∉ D) as HcD by (by apply (bool_decide_eq_false (c ∈ D)), Hv).
  assert (tokens D ((c :: w) ++ x) = tokens_from D (c :: w) x) as Htok by (rewrite tokens_read by (by constructor); done).
  pose proof (cstr_positive_tail m (p + len u) _ (c :: w) x Hv' eq_refl) as Hx'. change (c :: w ++ x) with ((c :: w) ++ x) in *.
  replace (p + len u + 1 + len w) with (p + len u + len (c :: w)) by (simpl; lia). rewrite Htok, !length_app.
  destruct x as [|e x].
  - apply cstr_nil in Hx'. unfold load_byte. rewrite Hx'. simpl. exists m, u, (c :: w), [], (p + len u + len (c :: w)).
    rewrite app_nil_r in Hv'. split_and!; auto with bytes; [by apply cstr_nil|simpl; lia..].
  - pose proof Hx' as (He & Hech & _)%cstr_cons. unfold char in Hech. unfold load_byte. rewrite He. cbn [mbind option_bind].
    rewrite (proj2 (Z.eqb_neq e 0)) by lia. rewrite (store_byte_at _ _ _ e) by done. cbn [mbind option_bind].
    destruct (cstr_cut m (p + len u) (c :: w) e x Hv') as [H1 H2].
    exists (<[p + len u + len (c :: w) := 0]> m), u, (c :: w), x, (p + len u + len (c :: w) + 1).
    split_and!; [done| |done|done|lia|simpl; lia|apply same_outside_store; simpl; lia|simpl; lia].
    simpl. by rewrite bool_decide_eq_true_2 by (by apply (bool_decide_eq_true (e ∈ D)), Hx).
Qed.

(** A client that collects all tokens of a string:
    [for (p = strtok_r(str, delim, &sv); p; p = strtok_r(NULL, delim, &sv))]. *)
Fixpoint strtok_all (n : nat) (m : bmem) (str delim : Z) (sv : option Z) : option (bmem * list Z) :=
  match n with
  | O => None
  | S n =>
      '(m, p, sv) ← strtok_r m str delim sv;
      if p =? 0 then Some (m, []) else '(m, ps) ← strtok_all n m 0 delim sv; Some (m, p :: ps)
  end.

Lemma strtok_all_spec n m str p s d D sv :
  cstr m p s -> cstr m d D -> 0 < p -> 0 < d -> (str = p \/ str = 0 /\ sv = p) -> d + len D < p \/ p + len s < d ->
  (length s < n)%nat ->
  exists m' ps, strtok_all n m str d (Some sv) = Some (m', ps) /\ Forall2 (cstr m') ps (tokens D s) /\
    same_outside p (p + len s) m m'.
Proof.
  revert m str p s sv. induction n as [|n IH]; intros m str p s sv Hs HD Hp Hd Hstr Hdis Hn; [lia|]. cbn [strtok_all].
  destruct (strtok_r_spec m str p s d D sv Hs HD Hp Hd Hstr) as [[Ht ->] | (m1 & u & tok & rest & sv' & -> & -> & Htok & Hrest & Hsv & Hle & Ho & Hlen)].
  - exists m, []. rewrite Ht. split_and!; auto with bytes.
  - cbn [mbind option_bind]. rewrite (proj2 (Z.eqb_neq (p + len u) 0)) by lia.
    destruct (IH m1 0 sv' rest sv') as (m' & ps & -> & Hps & Ho').
    { done. } { apply (cstr_outside _ _ _ _ _ _ HD Ho). lia. } { lia. } { done. } { by right. } { lia. } { lia. }
    cbn [mbind option_bind]. exists m', (p + len u :: ps). split_and!; [done| |].
    + constructor; [|done]. apply (cstr_frame m1); [done|]. intros c Hc. apply Ho'.
      destruct Hsv as [Hsv | [-> Hsv]]; simpl; lia.
    + intros c Hc. rewrite Ho', Ho by lia. done.
Qed.

(** * Strings: copying and filling memory *)

(** ** Moving blocks *)

Lemma memcpy_loop_spec m dest src bs old :
  bytes_at m src bs -> bytes_at m dest old -> length old = length bs -> dest <= src \/ src + len bs <= dest ->
  exists m', memcpy_loop (length bs) m dest src = Some m' /\ bytes_at m' dest bs /\ same_outside dest (dest + len bs) m m'.
Proof.
  revert m dest src old. induction bs as [|b bs IH]; intros m dest src old Hb Ho Hl Hd; simpl.
  - exists m. split_and!; auto with bytes.
  - destruct old as [|o old]; [done|]. destruct Hb as [Hb Hbs], Ho as [Ho Hos]. load_at Hb.
    rewrite (store_byte_at _ _ _ o) by done. cbn [mbind option_bind]. simpl in *.
    destruct (IH (<[dest := b]> m) (dest + 1) (src + 1) old) as (m' & -> & Hm & Hs); [| |lia|lia|].
    + apply (bytes_at_frame m); [done|]. intros c Hc. by rewrite lookup_insert_ne by lia.
    + apply (bytes_at_frame m); [done|]. intros c Hc. by rewrite lookup_insert_ne by lia.
    + exists m'. split_and!; [done| |done|].
      * rewrite Hs by lia. apply lookup_insert_eq.
      * intros c Hc. rewrite Hs by lia. by rewrite lookup_insert_ne by lia.
Qed.

Lemma memmove_down_spec m dest src bs old :
  bytes_at m src bs -> bytes_at m dest old -> length old = length bs -> src < dest ->
  exists m', memmove_down (length bs) m (dest + len bs) (src + len bs) = Some m' /\ bytes_at m' dest bs /\
    same_outside dest (dest + len bs) m m'.
Proof.
  revert m old. induction bs as [|b bs IH] using rev_ind; intros m old Hb Ho Hl Hd.
  - exists m. split_and!; auto with bytes.
  - destruct old as [|o old _] using rev_ind; [rewrite length_app in Hl; simpl in Hl; lia|].
    rewrite !length_app in *. simpl in Hl |- *. rewrite Nat.add_1_r. cbn [memmove_down].
    apply bytes_at_app in Hb as [Hbs [Hb _]]. apply bytes_at_app in Ho as [Hos [Ho _]].
    replace (src + Z.of_nat (S (length bs)) - 1) with (src + len bs) by lia. load_at Hb.
    replace (dest + Z.of_nat (S (length bs)) - 1) with (dest + len bs) by lia.
    replace (dest + len old) with (dest + len bs) in Ho by lia.
    rewrite (store_byte_at _ _ _ o) by done. cbn [mbind option_bind].
    destruct (IH (<[dest + len bs := b]> m) old) as (m' & -> & Hm & Hs); [| |lia|done|].
    + apply (bytes_at_frame m); [done|]. intros c Hc. by rewrite lookup_insert_ne by lia.
    + apply (bytes_at_frame m); [done|]. intros c Hc. by rewrite lookup_insert_ne by lia.
    + exists m'. split_and!; [done| |].
      * apply bytes_at_app. split; [done|]. simpl. split; [|done]. rewrite Hs by lia. apply lookup_insert_eq.
      * intros c Hc. rewrite Hs by lia. by rewrite lookup_insert_ne by lia.
Qed.

(** ** Filling *)

Lemma store_bytes_app m a xs ys : store_bytes m a (xs ++ ys) = (m ← store_bytes m a xs; store_bytes m (a + len xs) ys).
Proof.
  revert m a. induction xs as [|x xs IH]; intros m a; simpl.
  - by rewrite Z.add_0_r.
  - destruct (store_byte m a x) as [m1|]; [|done]. simpl. rewrite IH.
    destruct (store_bytes m1 (a + 1) xs); [|done]. simpl. f_equal. lia.
Qed.

Lemma memset_loop_store n m p c : memset_loop n m p c = store_bytes m p (replicate n (u8 c)).
Proof.
  revert m p. induction n as [|n IH]; intros m p; [done|]. simpl. destruct (store_byte m p (u8 c)); [|done]. apply IH.
Qed.

(** [k] bytes [c] from [a] on *)
Definition fill (c : Z) (m : bmem) (a k : Z) : option bmem := store_bytes m a (replicate (Z.to_nat k) c).

Lemma fill_add c m a j k : 0 <= j -> 0 <= k -> fill c m a (j + k) = (m ← fill c m a j; fill c m (a + j) k).
Proof.
  intros Hj Hk. unfold fill. rewrite Z2Nat.inj_add, replicate_add, store_bytes_app, length_replicate by done.
  by rewrite Z2Nat.id by done.
Qed.

Lemma fill_0 c m a : fill c m a 0 = Some m.
Proof. done. Qed.

(** A step of [memset] fills some of the bytes left; with at least [L] and less
    than [B] bytes left before there are less than [A] left afterwards. *)
Definition fills (c : Z) (f : fill_state -> option fill_state) (L B A : Z) : Prop :=
  forall a n, L <= n < B -> 0 <= n ->
    exists d, 0 <= d <= n /\ n - d < A /\ forall m, f (m, a, n) = (m ← fill c m a d; Some (m, a + d, n - d)).

Lemma fills_skip c B : fills c Some 0 B B.
Proof. intros a n Hn _. exists 0. split_and!; [lia..|]. intros m. by rewrite fill_0, Z.add_0_r, Z.sub_0_r. Qed.

Lemma fills_seq c f g L B A A' : fills c f L B A -> fills c g 0 A A' -> fills c (fun st => st ← f st; g st) L B A'.
Proof.
  intros Hf Hg a n Hn Hp. destruct (Hf a n Hn Hp) as (d & Hd & Hlt & Ef). destruct (Hg (a + d) (n - d) ltac:(lia) ltac:(lia)) as (e & He & Hlt' & Eg).
  exists (d + e). split_and!; [lia..|]. intros m. rewrite Ef, fill_add by lia. destruct (fill c m a d); [|done]. simpl.
  rewrite Eg. destruct (fill c _ (a + d) e); [|done]. simpl. split_eq.
Qed.

(** A step that is made if at least [k] bytes are left. *)
Lemma fills_left c f k L B A : fills c f k B A -> k <= A -> fills c (fun st => if k <=? fill_left st then f st else Some st) L B A.
Proof.
  intros Hf Hk a n Hn Hp. unfold fill_left. simpl. destruct (Z.leb_spec k n); [apply Hf; lia|].
  apply (fills_skip c A); lia.
Qed.

(** A step that is made unless the address is aligned. *)
Lemma fills_align c f mask L B : fills c f L B B -> fills c (fun st => if negb (Z.land (fill_addr st) mask =? 0) then f st else Some st) L B B.
Proof.
  intros Hf a n Hn Hp. unfold fill_addr. simpl. destruct (negb (Z.land a mask =? 0)); [by apply Hf|]. apply (fills_skip c B); lia.
Qed.

Lemma fills_put c f k B : 0 <= k -> (forall a n m, f (m, a, n) = (m ← fill c m a k; Some (m, a + k, n - k))) -> fills c f k B (Z.max (B - k) 0).
Proof. intros Hk Hf a n Hn Hp. exists k. split_and!; [lia..|]. intros m. apply Hf. Qed.

Lemma fills_weaken c f L B A L' B' A' : fills c f L B A -> L <= L' -> B' <= B -> A <= A' -> fills c f L' B' A'.
Proof. intros Hf HL HB HA a n Hn Hp. destruct (Hf a n ltac:(lia) Hp) as (d & ? & ? & ?). exists d. split_and!; [lia..|done]. Qed.

Lemma fill_values c :
  0 <= c < 256 ->
  (forall a n m, put8 c (m, a, n) = (m ← fill c m a 1; Some (m, a + 1, n - 1))) /\
  (forall a n m, put16 c (m, a, n) = (m ← fill c m a 2; Some (m, a + 2, n - 2))) /\
  (forall a n m, put32 c (m, a, n) = (m ← fill c m a 4; Some (m, a + 4, n - 4))) /\
  (forall a n m, put64 c (m, a, n) = (m ← fill c m a 8; Some (m, a + 8, n - 8))) /\ u8 c = c.
Proof.
  intros Hc.
  assert (Forall (fun c => u8 c = c /\ [u8 (val16 c); u8 (Z.shiftr (val16 c) 8)] = [c; c] /\
    [u8 (val32 c); u8 (Z.shiftr (val32 c) 8); u8 (Z.shiftr (val32 c) 16); u8 (Z.shiftr (val32 c) 24)] = [c; c; c; c] /\
    [u8 (val64 c); u8 (Z.shiftr (val64 c) 8); u8 (Z.shiftr (val64 c) 16); u8 (Z.shiftr (val64 c) 24);
     u8 (Z.shiftr (val64 c) 32); u8 (Z.shiftr (val64 c) 40); u8 (Z.shiftr (val64 c) 48); u8 (Z.shiftr (val64 c) 56)] = [c; c; c; c; c; c; c; c])
    (seqZ 0 256)) as H by (refine (bool_decide_unpack _ _); vm_compute; exact I).
  rewrite Forall_forall in H. specialize (H c). rewrite elem_of_seqZ in H. destruct (H ltac:(lia)) as (H1 & H2 & H3 & H4).
  unfold put8, put16, put32, put64. rewrite H1, H2, H3, H4. done.
Qed.

Lemma fills_while c step k fuel :
  0 < k -> (forall a n m, step (m, a, n) = (m ← fill c m a k; Some (m, a + k, n - k))) ->
  fills c (put_while fuel step k) 0 (Z.of_nat fuel) k.
Proof.
  intros Hk Hs. induction fuel as [|fuel IH]; intros a n Hn Hp; [lia|]. cbn [put_while fill_left snd].
  destruct (Z.leb_spec k n).
  - destruct (IH (a + k) (n - k)) as (d & Hd & Hlt & E); [lia|lia|]. exists (k + d). split_and!; [lia..|]. intros m.
    rewrite Hs, fill_add by lia.
    destruct (fill c m a k); [|done]. simpl. rewrite E. destruct (fill c _ (a + k) d); [|done]. simpl. split_eq.
  - exists 0. split_and!; [lia..|]. intros m. by rewrite fill_0, Z.add_0_r, Z.sub_0_r.
Qed.
Lemma memset_steps_fill wide fuel c : 0 <= c < 256 -> fills c (memset_steps wide fuel c) 1 (Z.of_nat fuel) 1.
Proof.
  intros Hc. destruct (fill_values c Hc) as (H8 & H16 & H32 & H64 & _). set (N := Z.of_nat fuel).
  assert (forall f k, 0 <= k -> (forall a n m, f (m, a, n) = (m ← fill c m a k; Some (m, a + k, n - k))) -> fills c f k N N) as Hput.
  { intros f k Hk Hf a n Hn Hp. by apply (fills_weaken _ _ _ _ _ k N N (fills_put c f k N Hk Hf)); [lia..| |]. }
  unfold memset_steps. eapply fills_seq; [by apply fills_align, Hput|].
  apply (fills_seq _ _ _ _ _ (if wide then 8 else 4)).
  { apply fills_left; [|by destruct wide]. eapply fills_seq; [by apply fills_align, Hput|]. destruct wide; [|by apply fills_while].
    apply fills_left; [|lia]. eapply fills_seq; [by apply fills_align, Hput|]. by apply fills_while. }
  apply (fills_seq _ _ _ _ _ 4).
  { destruct wide; [|apply fills_skip]. apply fills_left; [|lia]. by apply (fills_put c _ 4 8). }
  apply (fills_seq _ _ _ _ _ 2).
  - apply fills_left; [|lia]. by apply (fills_put c _ 2 4).
  - apply fills_left; [|lia]. by apply (fills_put c _ 1 2).
Qed.

Lemma memset_optspeed_fill wide m (s : Z) c n :
  0 <= c < 256 -> 0 <= n -> memset_optspeed wide m s c n = (m ← fill c m s n; Some (m, s)).
Proof.
  intros Hc Hn. unfold memset_optspeed. destruct (Z.ltb_spec 0 n); [|assert (n = 0) as -> by lia; done].
  destruct (memset_steps_fill wide (S (Z.to_nat n)) c Hc s n) as (d & Hd & Hlt & ->); [lia|lia|].
  assert (d = n) as -> by lia. by destruct (fill c m s n).
Qed.

(** ** Copying strings *)

(** Two blocks that do not overlap. *)
Definition disjoint (a n b k : Z) : Prop := a + n <= b \/ b + k <= a.

Lemma copy_string_spec fuel m dest src s old :
  cstr m src s -> bytes_at m dest old -> length old = S (length s) -> disjoint dest (len s + 1) src (len s + 1) ->
  (length s < fuel)%nat ->
  exists m', copy_string fuel m dest src = Some (m', dest + len s + 1) /\ cstr m' dest s /\
    same_outside dest (dest + len s + 1) m m'.
Proof.
  unfold disjoint. revert m dest src s old. induction fuel as [|fuel IH]; intros m dest src s old Hs Ho Hl Hd Hf; [lia|].
  cbn [copy_string]. destruct old as [|o old]; [done|]. destruct Ho as [Ho Hos]. destruct s as [|c s]; cbn [length] in *.
  - apply cstr_nil in Hs. load_at Hs. rewrite (store_byte_at _ _ _ o) by done. simpl. exists (<[dest := 0]> m).
    split_and!; [f_equal; f_equal; lia|apply cstr_nil, lookup_insert_eq|apply same_outside_store; lia].
  - apply cstr_cons in Hs as (Hc & Hch & Hs). load_at Hc. rewrite (store_byte_at _ _ _ o) by done. cbn [mbind option_bind].
    unfold char in Hch. rewrite (proj2 (Z.eqb_neq c 0)) by lia.
    destruct (IH (<[dest := c]> m) (dest + 1) (src + 1) s old) as (m' & -> & Hs' & Ho'); [| |lia|lia|lia|].
    + apply (cstr_frame m); [done|]. intros x Hx. by rewrite lookup_insert_ne by lia.
    + apply (bytes_at_frame m); [done|]. intros x Hx. by rewrite lookup_insert_ne by lia.
    + exists m'. split_and!; [f_equal; f_equal; lia| |].
      * apply cstr_cons. split_and!; [rewrite Ho' by lia; apply lookup_insert_eq|unfold char; lia|done].
      * intros x Hx. rewrite Ho' by lia. by rewrite lookup_insert_ne by lia.
Qed.

(** The copy loop of [strlcpy]: it ends at the end of the string or with the
    buffer full. *)
Lemma strlcpy_copy_spec n m d src s old :
  cstr m src s -> bytes_at m d old -> (n <= length old)%nat -> disjoint d (Z.of_nat n) src (len s + 1) ->
  exists m' full, strlcpy_copy n m d src =
      Some (m', d + Z.of_nat (if full : bool then n else S (length s)), src + Z.of_nat (if full then n else S (length s)), full) /\
    (if full then (n <= length s)%nat else (length s < n)%nat) /\ bytes_at m' d (take n (s ++ [0])) /\
    same_outside d (d + Z.of_nat (min n (S (length s)))) m m'.
Proof.
  unfold disjoint. revert m d src s old. induction n as [|n IH]; intros m d src s old Hs Ho Hl Hd; cbn [strlcpy_copy].
  - exists m, true. simpl. rewrite !Z.add_0_r. split_and!; auto with bytes. lia.
  - destruct old as [|o old]; [simpl in Hl; lia|]. destruct Ho as [Ho Hos]. destruct s as [|c s]; cbn [length] in *.
    + apply cstr_nil in Hs. load_at Hs. rewrite (store_byte_at _ _ _ o) by done. simpl. exists (<[d := 0]> m), false.
      rewrite take_nil, Nat.min_0_r. split_and!; [done|lia|apply lookup_insert_eq|done|apply same_outside_store; lia].
    + apply cstr_cons in Hs as (Hc & Hch & Hs). load_at Hc. rewrite (store_byte_at _ _ _ o) by done. cbn [mbind option_bind].
      unfold char in Hch. rewrite (proj2 (Z.eqb_neq c 0)) by lia.
      destruct (IH (<[d := c]> m) (d + 1) (src + 1) s old) as (m' & full & -> & Hfull & Hb & Ho'); [| |lia|lia|].
      * apply (cstr_frame m); [done|]. intros x Hx. by rewrite lookup_insert_ne by lia.
      * apply (bytes_at_frame m); [done|]. intros x Hx. by rewrite lookup_insert_ne by lia.
      * exists m', full. split_and!.
        -- f_equal. destruct full; split_eq.
        -- destruct full; lia.
        -- simpl. split; [rewrite Ho' by lia; apply lookup_insert_eq|done].
        -- intros x Hx. rewrite Ho' by lia. by rewrite lookup_insert_ne by lia.
Qed.

(** [strlcpy] into a buffer of [n] bytes keeps the end of the buffer, ends the
    copy with NUL and returns the length of the source. *)
Lemma strlcpy_spec m dest src s old n :
  cstr m src s -> bytes_at m dest old -> n = len old -> 0 < n -> disjoint dest n src (len s + 1) ->
  exists m', strlcpy m dest src n = Some (m', len s) /\ cstr m' dest (take (Z.to_nat (n - 1)) s) /\
    same_outside dest (dest + n) m m'.
Proof.
  unfold disjoint. intros Hs Ho Hn Hpos Hd. unfold strlcpy. rewrite (proj2 (Z.eqb_neq n 0)) by lia.
  destruct (strlcpy_copy_spec (Z.to_nat (n - 1)) m dest src s old Hs Ho) as (m1 & full & -> & Hfull & Hb & Ho1);
    [lia|unfold disjoint; lia|]. cbn [mbind option_bind]. destruct full.
  - assert (dest + Z.of_nat (Z.to_nat (n - 1)) = dest + n - 1) as Ed by lia. rewrite Ed.
    destruct (lookup_lt_is_Some_2 old (Z.to_nat (n - 1))) as [o Hlo]; [lia|].
    pose proof (bytes_at_lookup _ _ _ _ _ Ho Hlo) as Hmo. rewrite Ed in Hmo.
    rewrite (store_byte_at _ _ _ o) by (rewrite Ho1 by lia; done). cbn [mbind option_bind].
    rewrite take_app_le in Hb by lia.
    assert (cstr (<[dest + n - 1 := 0]> m1) src s) as Hs1.
    { apply (cstr_frame m); [done|]. intros x Hx. rewrite lookup_insert_ne, Ho1 by lia. done. }
    rewrite (find_nul_spec _ _ _ (drop (Z.to_nat (n - 1)) s)).
    2:{ apply (cstr_positive_tail _ _ _ (take (Z.to_nat (n - 1)) s)) with (r := drop (Z.to_nat (n - 1)) s) in Hs1; [|by rewrite take_drop].
        rewrite length_take in Hs1. replace (src + Z.of_nat (Z.to_nat (n - 1))) with (src + Z.of_nat (Z.to_nat (n - 1) `min` length s)) by lia. done. }
    2:{ rewrite length_drop. pose proof (cstr_fuel _ _ _ Hs1). lia. }
    cbn [mbind option_bind]. exists (<[dest + n - 1 := 0]> m1). split_and!.
    + f_equal. f_equal. rewrite length_drop. lia.
    + split; [|apply Forall_take, Hs]. apply bytes_at_app. rewrite length_take. split.
      * apply (bytes_at_frame m1); [done|]. rewrite length_take. intros x Hx. by rewrite lookup_insert_ne by lia.
      * simpl. split; [|done]. replace (dest + Z.of_nat (Z.to_nat (n - 1) `min` length s)) with (dest + n - 1) by lia. apply lookup_insert_eq.
    + intros x Hx. rewrite lookup_insert_ne, Ho1 by lia. done.
  - exists m1. split_and!.
    + cbn [mbind option_bind]. split_eq.
    + split; [|apply Forall_take, Hs]. rewrite take_ge by lia. rewrite take_ge in Hb by (rewrite length_app; simpl; lia). done.
    + apply (same_outside_weaken _ _ _ _ _ _ Ho1); lia.
Qed.
