(* ===== verification/CStringTheorems.v ===== *)
(** * Strings: theorems *)

From stdpp Require Import base tactics numbers list gmap sets.
From S2P Require Import Prelude Bytes CString CStringProps CStringCopy.

(** memmove copies a block to a destination that may overlap it in any way:
    afterwards the destination holds what the source held, and nothing else
    has changed. *)
Theorem memmove_overlap m dest src bs old :
  bytes_at m src bs -> bytes_at m dest old -> length old = length bs ->
  exists m', memmove m dest src (len bs) = Some (m', dest) /\ bytes_at m' dest bs /\ same_outside dest (dest + len bs) m m'.
Proof.
  intros Hb Ho Hl. unfold memmove. rewrite Nat2Z.id. destruct (Z.leb_spec dest src).
  - destruct (memcpy_loop_spec m dest src bs old Hb Ho Hl) as (m' & -> & ?); [lia|]. eauto.
  - destruct (memmove_down_spec m dest src bs old Hb Ho Hl) as (m' & -> & ?); [lia|]. eauto.
Qed.

(** the versions of memset optimised for speed, which write words of 4 or 8
    bytes where they can, do the same as the simple one for every address,
    alignment and length, also where they run out of mapped memory, if the
    value is a byte. *)
Theorem memset_optspeed_equal wide m s c n :
  0 <= c < 256 -> 0 <= n -> memset_optspeed wide m s c n = memset m s c n.
Proof.
  intros Hc Hn. rewrite memset_optspeed_fill by done. unfold memset. rewrite memset_loop_store.
  by destruct (fill_values c Hc) as (_ & _ & _ & _ & ->).
Qed.

(** For a value that is not a byte, such as -2, the versions differ. *)
Example memset_optspeed_differs :
  (fst <$> memset_optspeed false (mem_of 4096 [0; 0; 0; 0]) 4096 (-2) 4) = Some (mem_of 4096 [254; 255; 254; 255]) /\
  (fst <$> memset (mem_of 4096 [0; 0; 0; 0]) 4096 (-2) 4) = Some (mem_of 4096 [254; 254; 254; 254]).
Proof. by vm_compute. Qed.

(** strstr returns a pointer to the first occurrence of the second string in
    the first one, and NULL if there is none. *)
Theorem strstr_finds_first m a s b t :
  cstr m a s -> cstr m b t -> 0 < a -> len t < 2147483648 ->
  exists r, strstr m a b = Some r /\ first_occurrence a s t r.
Proof. apply strstr_spec. Qed.

(** C27: a client that calls strtok_r until it returns NULL gets, one by one and
    each as a string of its own, exactly the tokens of the string: the longest
    runs of characters that are no delimiters.  Only the string itself is
    written to. *)
Theorem strtok_splits m a s d D sv :
  cstr m a s -> cstr m d D -> 0 < a -> 0 < d -> d + len D < a \/ a + len s < d ->
  exists m' ps, strtok_all (S (length s)) m a d (Some sv) = Some (m', ps) /\ Forall2 (cstr m') ps (tokens D s) /\
    same_outside a (a + len s) m m'.
Proof. intros Hs HD Ha Hd Hdis. apply strtok_all_spec; auto. Qed.

(** strlcpy copies as much of the string as fits, always ends the copy with
    NUL, writes nothing behind the buffer, and returns the length of the source,
    so that a result not less than the size tells that the copy is cut. *)
Theorem strlcpy_bounded m dest src s old :
  cstr m src s -> bytes_at m dest old -> 0 < len old -> disjoint dest (len old) src (len s + 1) ->
  exists m', strlcpy m dest src (len old) = Some (m', len s) /\ cstr m' dest (take (length old - 1) s) /\
    same_outside dest (dest + len old) m m'.
Proof.
  intros Hs Ho Hn Hd. destruct (strlcpy_spec m dest src s old (len old) Hs Ho eq_refl Hn Hd) as (m' & ? & Hc & ?).
  replace (Z.to_nat (len old - 1)) with (length old - 1)%nat in Hc by lia. eauto.
Qed.

(** strcmp returns 0 exactly for equal strings, but only the low 8 bits of
    the difference: when the first characters that differ are 128 or more
    apart, the result has the wrong sign. *)
Theorem strcmp_truncates m a b s t :
  cstr m a s -> cstr m b t ->
  exists r, strcmp m a b = Some r /\ (r = 0 <-> s = t) /\
    (-128 <= diff s t < 128 -> r = diff s t) /\ (128 <= diff s t -> r < 0) /\ (diff s t < -128 -> 0 < r).
Proof.
  intros Hs Ht. exists (i8 (diff s t)). split; [by apply strcmp_spec|].
  assert (-256 < diff s t < 256) as Hb by (apply diff_bound; [apply Hs|apply Ht]).
  rewrite i8_zero, diff_zero by (done || apply Hs || apply Ht). split; [done|]. unfold i8, u8.
  destruct (decide (0 <= diff s t)).
  - rewrite Z.mod_small by lia. destruct (Z.ltb_spec (diff s t) 128); lia.
  - rewrite <- (Z_mod_plus_full (diff s t) 1), Z.mod_small by lia. destruct (Z.ltb_spec (diff s t + 1 * 256) 128); lia.
Qed.

(** The terminating NUL is not part of the string for strrchr. *)
Lemma strrchr_nul m a s : cstr m a s -> strrchr m a 0 = Some 0.
Proof.
  intros Hs. unfold strrchr. destruct (a =? 0); [done|]. rewrite (strlen_spec _ _ _ Hs). cbn [mbind option_bind].
  rewrite Nat2Z.id. destruct Hs as [Hb Hc]. apply bytes_at_app in Hb as [Hb _].
  induction s as [|c s IH] using rev_ind; [done|]. rewrite length_app, Nat.add_1_r. cbn [strrchr_loop].
  apply bytes_at_app in Hb as [Hb [Hl _]]. apply Forall_app in Hc as [Hc [Hch _]%Forall_cons].
  replace (a + Z.of_nat (S (length s)) - 1) with (a + len s) by lia. load_at Hl. unfold char in Hch.
  rewrite (proj2 (Z.eqb_neq c 0)) by lia. by apply IH.
Qed.

(** ** Instances *)

(** Show a string of a concrete memory. *)
Ltac string_in_memory := split; [vm_compute; tauto|repeat constructor; unfold char; lia].

(** "aab;ab," at 4096, ",;" at 4200, "ab" at 4300, and 4 bytes at 4400. *)
Definition ex_text : list Z := [97; 97; 98; 59; 97; 98; 44].

Definition ex_strings : bmem :=
  mem_of 4096 (ex_text ++ [0]) ∪ mem_of 4200 [44; 59; 0] ∪ mem_of 4300 [97; 98; 0] ∪ mem_of 4400 [1; 2; 3; 4] ∪
  mem_of 4500 [200; 0].

Lemma memmove_overlap_witness :
  exists m', memmove ex_strings 4098 4096 4 = Some (m', 4098) /\ bytes_at m' 4098 [97; 97; 98; 59] /\
    same_outside 4098 (4098 + 4) ex_strings m'.
Proof.
  apply (memmove_overlap ex_strings 4098 4096 [97; 97; 98; 59] [98; 59; 97; 98]); [vm_compute; tauto..|reflexivity].
Defined.

Lemma memset_optspeed_equal_witness : memset_optspeed true ex_strings 4097 65 5 = memset ex_strings 4097 65 5.
Proof. apply (memset_optspeed_equal true ex_strings 4097 65 5); lia. Defined.

Lemma strstr_finds_first_witness :
  exists r, strstr ex_strings 4096 4300 = Some r /\ first_occurrence 4096 ex_text [97; 98] r.
Proof. apply (strstr_finds_first ex_strings 4096 ex_text 4300 [97; 98]); [string_in_memory..|lia|simpl; lia]. Defined.

Lemma strtok_splits_witness :
  exists m' ps, strtok_all 8 ex_strings 4096 4200 (Some 0) = Some (m', ps) /\
    Forall2 (cstr m') ps [[97; 97; 98]; [97; 98]] /\ same_outside 4096 (4096 + 7) ex_strings m'.
Proof. apply (strtok_splits ex_strings 4096 ex_text 4200 [44; 59] 0); [string_in_memory..|lia|lia|simpl; lia]. Defined.

Lemma strlcpy_bounded_witness :
  exists m', strlcpy ex_strings 4400 4096 4 = Some (m', 7) /\ cstr m' 4400 [97; 97; 98] /\
    same_outside 4400 (4400 + 4) ex_strings m'.
Proof.
  apply (strlcpy_bounded ex_strings 4400 4096 ex_text [1; 2; 3; 4]);
    [string_in_memory|vm_compute; tauto|simpl; lia|unfold disjoint; simpl; lia].
Defined.

Lemma strcmp_truncates_witness :
  exists r, strcmp ex_strings 4500 4302 = Some r /\ (r = 0 <-> [200] = []) /\
    (-128 <= 200 < 128 -> r = 200) /\ (128 <= 200 -> r < 0) /\ (200 < -128 -> 0 < r).
Proof. apply (strcmp_truncates ex_strings 4500 4302 [200] []); string_in_memory. Defined.
