(* ===== verification/Conv.v ===== *)
(** * Numbers and their representation (lib/libc/stdlib)

    Conversion between integers and strings, on the byte memory of [Bytes].
    [int] and [long] have 32 bits, [long long] has 64.  [None] is an access to
    memory that is not mapped or outside the table of digits. *)

From stdpp Require Import base tactics numbers list gmap.
From S2P Require Import Prelude Bytes CString.

Definition u64 (z : Z) : Z := z mod 18446744073709551616.

Definition i64 (z : Z) : Z :=
  let w := u64 z in if w <? 9223372036854775808 then w else w - 18446744073709551616.

(** ** Digits *)

(** [lib_isbasedigit]: the value of the digit, if it is one. *)
Definition lib_isbasedigit (ch base : Z) : option Z :=
  if base <=? 10 then
    if (48 <=? ch) && (ch <=? base + 48 - 1) then Some (ch - 48) else None
  else if base <=? 36 then
    if (48 <=? ch) && (ch <=? 57) then Some (ch - 48)
    else if (97 <=? ch) && (ch <=? 97 + base - 11) then Some (ch - 97 + 10)
    else if (65 <=? ch) && (ch <=? 65 + base - 11) then Some (ch - 65 + 10)
    else None
  else None.

Fixpoint skipspace_loop (fuel : nat) (m : bmem) (ptr : Z) : option Z :=
  match fuel with
  | O => None
  | S fuel => c ← load_byte m ptr; if isspace c then skipspace_loop fuel m (ptr + 1) else Some ptr
  end.

Definition lib_skipspace (m : bmem) (ptr : Z) : option Z := skipspace_loop (string_fuel m) m ptr.

(** [lib_checkbase]: the base and the pointer behind a prefix. *)
Definition lib_checkbase (m : bmem) (base ptr : Z) : option (Z * Z) :=
  if base =? 0 then
    c ← load_byte m ptr;
    if c =? 48 then
      let ptr := ptr + 1 in
      c ← load_byte m ptr;
      if (c =? 88) || (c =? 120) then
        d ← load_byte m (ptr + 1);
        Some (match lib_isbasedigit d 16 with Some _ => (16, ptr + 1) | None => (8, ptr) end)
      else Some (8, ptr)
    else Some (10, ptr)
  else if base =? 16 then
    c ← load_byte m ptr;
    if c =? 48 then
      d ← load_byte m (ptr + 1);
      Some (if (d =? 88) || (d =? 120) then (base, ptr + 2) else (base, ptr))
    else Some (base, ptr)
  else Some (base, ptr).

(** ** strtoul, strtoull *)

(** The loop over the digits; [wrap] is the arithmetic of the result type. *)
Fixpoint accumulate (wrap : Z -> Z) (fuel : nat) (m : bmem) (nptr base accum : Z) : option (Z * Z) :=
  match fuel with
  | O => None
  | S fuel =>
      c ← load_byte m nptr;
      match lib_isbasedigit c base with
      | Some value => accumulate wrap fuel m (nptr + 1) base (wrap (accum * base + value))
      | None => Some (accum, nptr)
      end
  end.

(** The result and the value stored through [endptr], which is left alone
    ([None]) for a null [nptr]. *)
Definition strtoul (m : bmem) (nptr base : Z) : option (Z * option Z) :=
  if nptr =? 0 then Some (0, None)
  else
    nptr ← lib_skipspace m nptr;
    '(base, nptr) ← lib_checkbase m base nptr;
    '(accum, nptr) ← accumulate u32 (string_fuel m) m nptr base 0;
    Some (accum, Some nptr).

Definition strtoull (m : bmem) (nptr base : Z) : option (Z * option Z) :=
  if nptr =? 0 then Some (0, None)
  else
    nptr ← lib_skipspace m nptr;
    '(base, nptr) ← lib_checkbase m base nptr;
    '(accum, nptr) ← accumulate u64 (string_fuel m) m nptr base 0;
    Some (accum, Some nptr).

(** ** strtol, strtoll *)

(** The sign in front of a number. *)
Definition read_sign (m : bmem) (nptr : Z) : option (bool * Z) :=
  c ← load_byte m nptr;
  Some (if c =? 45 then (true, nptr + 1) else if c =? 43 then (false, nptr + 1) else (false, nptr)).

Definition strtol (m : bmem) (nptr base : Z) : option (Z * option Z) :=
  if nptr =? 0 then Some (0, None)
  else
    nptr ← lib_skipspace m nptr;
    '(negate, nptr) ← read_sign m nptr;
    '(accum, e) ← strtoul m nptr base;
    Some (if negate : bool then i32 (- i32 accum) else i32 accum, e).

Definition strtoll (m : bmem) (nptr base : Z) : option (Z * option Z) :=
  if nptr =? 0 then Some (0, None)
  else
    nptr ← lib_skipspace m nptr;
    '(negate, nptr) ← read_sign m nptr;
    '(accum, e) ← strtoull m nptr base;
    Some (if negate : bool then i64 (- i64 accum) else i64 accum, e).

(** ** itoa *)

Definition abs (j : Z) : Z := if j <? 0 then i32 (- j) else j.

(** "0123456789abcdefghijklmnopqrstuvwxyz" *)
Definition digits : list Z :=
  [48; 49; 50; 51; 52; 53; 54; 55; 56; 57; 97; 98; 99; 100; 101; 102; 103; 104; 105; 106; 107; 108; 109; 110; 111; 112; 113;
   114; 115; 116; 117; 118; 119; 120; 121; 122].

(** The do-while loop that writes the digits, the last one first. *)
Fixpoint itoa_digits (fuel : nat) (m : bmem) (buf intval base : Z) : option (bmem * Z) :=
  match fuel with
  | O => None
  | S fuel =>
      let digit := Z.rem intval base in
      let intval := Z.quot intval base in
      c ← (if digit <? 0 then None else digits !! Z.to_nat digit);
      m ← store_byte m buf c;
      if 0 <? intval then itoa_digits fuel m (buf + 1) intval base else Some (m, buf + 1)
  end.

(** [n] turns of the loop that reverses the digits. *)
Fixpoint itoa_reverse (n : nat) (m : bmem) (str pos len : Z) : option bmem :=
  match n with
  | O => Some m
  | S n =>
      swap ← load_byte m (str + len - pos - 1);
      b ← load_byte m (str + pos);
      m ← store_byte m (str + len - pos - 1) b;
      m ← store_byte m (str + pos) swap;
      itoa_reverse n m str (pos + 1) len
  end.

Definition itoa (m : bmem) (val str base : Z) : option (bmem * Z) :=
  let intval := abs val in
  '(m, buf) ←
    (if (2 <=? base) && (base <=? 36) then
       '(m, buf) ← itoa_digits 32 m str intval base;
       '(m, buf) ← (if val <? 0 then m ← store_byte m buf 45; Some (m, buf + 1) else Some (m, buf));
       let len := buf - str in
       m ← itoa_reverse (Z.to_nat (len / 2)) m str 0 len;
       Some (m, buf)
     else Some (m, str));
  m ← store_byte m buf 0;
  Some (m, str).
