(* ===== verification/ConvTheorems.v ===== *)
(** * Numbers: digits and values *)

From stdpp Require Import base tactics numbers list gmap.
From S2P Require Import Prelude Bytes CString CStringProps Conv.

(** ** Digits *)

Definition digit_char (d : Z) : Z := default 0 (digits !! Z.to_nat d).

(** What holds of the characters of the digits, checked for every digit and
    every base. *)
Lemma digit_char_facts base d :
  2 <= base <= 36 -> 0 <= d < base ->
  lib_isbasedigit (digit_char d) base = Some d /\ isspace (digit_char d) = false /\ digits !! Z.to_nat d = Some (digit_char d) /\
  char (digit_char d) /\ digit_char d <> 45 /\ digit_char d <> 43.
Proof.
  intros Hb Hd.
  assert (Forall (fun base => Forall (fun d => d < base -> lib_isbasedigit (digit_char d) base = Some d /\ isspace (digit_char d) = false /\
    digits !! Z.to_nat d = Some (digit_char d) /\ (0 < digit_char d /\ digit_char d < 256) /\ digit_char d <> 45 /\ digit_char d <> 43) (seqZ 0 36)) (seqZ 2 35)) as H
    by (refine (bool_decide_unpack _ _); vm_compute; exact I).
  rewrite Forall_forall in H. specialize (H base). rewrite elem_of_seqZ, Forall_forall in H. specialize (H ltac:(lia) d).
  rewrite elem_of_seqZ in H. apply H; lia.
Qed.

(** The value of digits, the most significant one first. *)
Fixpoint value (base acc : Z) (ds : list Z) : Z :=
  match ds with
  | [] => acc
  | d :: ds => value base (acc * base + d) ds
  end.

Lemma value_snoc base acc ds d : value base acc (ds ++ [d]) = value base acc ds * base + d.
Proof. revert acc. induction ds as [|e ds IH]; intros acc; [done|]. simpl. apply IH. Qed.

Lemma value_mono base acc ds : 2 <= base -> 0 <= acc -> Forall (fun d => 0 <= d < base) ds -> acc <= value base acc ds.
Proof.
  intros Hb Ha Hds. revert acc Ha. induction Hds as [|d ds Hd _ IH]; intros acc Ha; simpl; [lia|].
  specialize (IH (acc * base + d)). nia.
Qed.

(** The digits of a number, the least significant one first. *)
Fixpoint lsd (fuel : nat) (base n : Z) : list Z :=
  match fuel with
  | O => []
  | S fuel => (n mod base) :: (if 0 <? n / base then lsd fuel base (n / base) else [])
  end.

Lemma lsd_spec fuel base n :
  2 <= base -> 0 <= n < 2 ^ Z.of_nat fuel -> (0 < fuel)%nat ->
  value base 0 (reverse (lsd fuel base n)) = n /\ Forall (fun d => 0 <= d < base) (lsd fuel base n) /\
  (0 < length (lsd fuel base n) <= fuel)%nat.
Proof.
  intros Hb. revert n. induction fuel as [|fuel IH]; intros n Hn Hf; [lia|]. cbn [lsd].
  pose proof (Z.div_mod n base ltac:(lia)) as D. pose proof (Z.mod_pos_bound n base ltac:(lia)) as M.
  assert (0 <= n / base) by (apply Z.div_pos; lia).
  destruct (Z.ltb_spec 0 (n / base)).
  - rewrite Nat2Z.inj_succ, Z.pow_succ_r in Hn by lia.
    destruct fuel as [|fuel]; [simpl in Hn; nia|].
    destruct (IH (n / base)) as (Hv & Hd & Hl); [nia|lia|].
    rewrite reverse_cons, value_snoc, Hv. split_and!; [lia|constructor; [lia|done]|cbn [length]; lia..].
  - split_and!; [simpl; lia|constructor; [lia|done]|simpl; lia..].
Qed.

(** More fuel than digits makes no difference. *)
Lemma lsd_fuel fuel k base n : 2 <= base -> 0 <= n < 2 ^ Z.of_nat fuel -> (0 < fuel)%nat -> lsd (fuel + k) base n = lsd fuel base n.
Proof.
  intros Hb. revert n. induction fuel as [|fuel IH]; intros n Hn Hf; [lia|]. cbn [lsd Nat.add].
  f_equal. destruct (Z.ltb_spec 0 (n / base)); [|done]. rewrite Nat2Z.inj_succ, Z.pow_succ_r in Hn by lia.
  pose proof (Z.div_mod n base ltac:(lia)) as D. pose proof (Z.mod_pos_bound n base ltac:(lia)) as M.
  destruct fuel as [|fuel]; [simpl in Hn; nia|]. apply IH; [nia|lia].
Qed.

(** ** Reading *)

Lemma accumulate_spec fuel m a base ds c acc :
  bytes_at m a (map digit_char ds ++ [c]) -> 2 <= base <= 36 -> Forall (fun d => 0 <= d < base) ds -> lib_isbasedigit c base = None ->
  0 <= acc -> value base acc ds < 4294967296 -> (length ds < fuel)%nat ->
  accumulate u32 fuel m a base acc = Some (value base acc ds, a + len ds).
Proof.
  intros Hb Hbase Hds Hc. revert a acc ds Hds Hb. induction fuel as [|fuel IH]; intros a acc ds Hds Hb Ha Hv Hf; [lia|].
  cbn [accumulate]. destruct ds as [|d ds]; simpl in Hb; destruct Hb as [Hb Hbs]; load_at Hb.
  - rewrite Hc. simpl. by rewrite Z.add_0_r.
  - apply Forall_cons in Hds as [Hd Hds]. destruct (digit_char_facts base d Hbase Hd) as (-> & _). simpl in Hv, Hf.
    pose proof (value_mono base (acc * base + d) ds ltac:(lia) ltac:(nia) Hds).
    rewrite u32_small by nia. rewrite (IH _ _ ds) by (done || lia || nia). simpl. split_eq.
Qed.

(** A character that starts no prefix and is no space. *)
Lemma skipspace_none m a c : m !! a = Some c -> isspace c = false -> lib_skipspace m a = Some a.
Proof. intros Hc Hs. unfold lib_skipspace. cbn [skipspace_loop string_fuel]. load_at Hc. by rewrite Hs. Qed.

(** Reading the digits of a number at [a] that is followed by NUL. *)
Lemma strtoul_digits m a base ds :
  bytes_at m a (map digit_char ds ++ [0]) -> 2 <= base <= 36 -> Forall (fun d => 0 <= d < base) ds -> (0 < length ds)%nat ->
  a <> 0 -> value base 0 ds < 4294967296 -> strtoul m a base = Some (value base 0 ds, Some (a + len ds)).
Proof.
  intros Hb Hbase Hds Hl Ha Hv. unfold strtoul. rewrite (proj2 (Z.eqb_neq a 0)) by done.
  destruct ds as [|d ds]; [simpl in Hl; lia|]. pose proof Hb as [Hd Hb']. pose proof Hds as [Hdd Hds']%Forall_cons.
  destruct (digit_char_facts base d Hbase Hdd) as (_ & Hsp & _). rewrite (skipspace_none m a _ Hd Hsp). cbn [mbind option_bind].
  assert (lib_checkbase m base a = Some (base, a)) as ->.
  { unfold lib_checkbase. rewrite (proj2 (Z.eqb_neq base 0)) by lia. destruct (Z.eqb_spec base 16) as [-> | _]; [|done].
    load_at Hd. destruct (digit_char d =? 48); [|done]. destruct ds as [|e ds]; destruct Hb' as [He _]; load_at He; [done|].
    apply Forall_cons in Hds' as [Hee _].
    assert (Forall (fun e => digit_char e <> 88 /\ digit_char e <> 120) (seqZ 0 16)) as Hx
      by (refine (bool_decide_unpack _ _); vm_compute; exact I).
    rewrite Forall_forall in Hx. destruct (Hx e) as [H1 H2]; [apply elem_of_seqZ; lia|].
    by rewrite (proj2 (Z.eqb_neq _ 88)), (proj2 (Z.eqb_neq _ 120)). }
  cbn [mbind option_bind]. rewrite (accumulate_spec _ _ _ _ (d :: ds) 0); try done; try lia.
  - unfold lib_isbasedigit. repeat case_match; try done; lia.
  - apply bytes_at_size in Hb. rewrite length_app, length_map in Hb. unfold string_fuel. simpl in *. lia.
Qed.

(** * Numbers: theorems

    [itoa] writes the digits of a number and [strtol] reads them back. *)

(** ** Writing *)

Lemma itoa_digits_spec fuel m buf n base old :
  2 <= base <= 36 -> 0 <= n < 2 ^ Z.of_nat fuel -> (0 < fuel)%nat -> bytes_at m buf old -> length old = length (lsd fuel base n) ->
  exists m', itoa_digits fuel m buf n base = Some (m', buf + len old) /\ bytes_at m' buf (map digit_char (lsd fuel base n)) /\
    same_outside buf (buf + len old) m m'.
Proof.
  intros Hb. revert m buf n old. induction fuel as [|fuel IH]; intros m buf n old Hn Hf Ho Hl; [lia|].
  cbn [lsd itoa_digits] in *. destruct old as [|o old]; [done|]. destruct Ho as [Ho Hos].
  rewrite Z.rem_mod_nonneg, Z.quot_div_nonneg by lia.
  pose proof (Z.mod_pos_bound n base ltac:(lia)) as M. pose proof (Z.div_mod n base ltac:(lia)) as D.
  destruct (digit_char_facts base (n mod base) Hb M) as (_ & _ & Hd & _). rewrite (proj2 (Z.ltb_ge _ 0)), Hd by lia.
  cbn [mbind option_bind]. rewrite (store_byte_at _ _ _ o) by done. cbn [mbind option_bind]. set (b := digit_char (n mod base)) in *.
  destruct (Z.ltb_spec 0 (n / base)).
  - rewrite Nat2Z.inj_succ, Z.pow_succ_r in Hn by lia. destruct fuel as [|fuel]; [simpl in Hn; nia|].
    destruct (IH (<[buf := b]> m) (buf + 1) (n / base) old) as (m' & -> & Hb' & Hs); [nia|lia| |cbn [length] in Hl; lia|].
    + apply (bytes_at_frame m); [done|]. intros c Hc. by rewrite lookup_insert_ne by lia.
    + exists m'. cbn [length] in *. split_and!; [split_eq| |].
      * split; [rewrite Hs by lia; apply lookup_insert_eq|done].
      * intros c Hc. rewrite Hs by lia. by rewrite lookup_insert_ne by lia.
  - exists (<[buf := b]> m). destruct old; [|simpl in Hl; lia]. simpl.
    split_and!; [done|apply lookup_insert_eq|done|apply same_outside_store; lia].
Qed.

(** The loop that reverses [bs], the bytes between [pos] and [len - pos]. *)
Lemma itoa_reverse_spec n m str pos l bs :
  bytes_at m (str + pos) bs -> len bs = l - 2 * pos -> n = Z.to_nat (len bs / 2) ->
  exists m', itoa_reverse n m str pos l = Some m' /\ bytes_at m' (str + pos) (reverse bs) /\
    same_outside (str + pos) (str + pos + len bs) m m'.
Proof.
  revert m pos bs. induction n as [|n IH]; intros m pos bs Hb Hl Hn; cbn [itoa_reverse].
  - exists m. split_and!; auto with bytes. pose proof (Z.div_mod (len bs) 2 ltac:(lia)). pose proof (Z.mod_pos_bound (len bs) 2 ltac:(lia)).
    destruct bs as [|x [|y bs]]; [done|done|cbn [length] in *; lia].
  - pose proof (Z.div_mod (len bs) 2 ltac:(lia)). pose proof (Z.mod_pos_bound (len bs) 2 ltac:(lia)).
    destruct bs as [|x bs]; [simpl in *; lia|]. destruct bs as [|y bs _] using rev_ind; [simpl in *; lia|].
    destruct Hb as [Hx [Hbs [Hy _]]%bytes_at_app]. cbn [length] in *. rewrite length_app in *. simpl in Hl.
    replace (str + pos + 1 + len bs) with (str + l - pos - 1) in Hy by lia.
    load_at Hy. unfold load_byte. rewrite Hx. cbn [mbind option_bind]. rewrite (store_byte_at _ _ _ y) by done. cbn [mbind option_bind].
    rewrite (store_byte_at _ _ _ x) by (rewrite lookup_insert_ne by lia; done). cbn [mbind option_bind].
    destruct (IH (<[str + pos := y]> (<[str + l - pos - 1 := x]> m)) (pos + 1) bs) as (m' & -> & Hb' & Hs).
    + rewrite Z.add_assoc. apply (bytes_at_frame m); [done|]. intros c Hc. by rewrite !lookup_insert_ne by lia.
    + lia.
    + replace (Z.of_nat (S (length bs + length [y]))) with (len bs + 1 * 2) in * by (simpl; lia). rewrite Z.div_add in Hn by lia. lia.
    + exists m'. split_and!; [done| |].
      * rewrite reverse_cons, reverse_app. simpl. split.
        -- rewrite Hs by lia. apply lookup_insert_eq.
        -- apply bytes_at_app. rewrite length_reverse. rewrite Z.add_assoc in Hb'. split; [done|]. simpl. split; [|done].
           replace (str + pos + 1 + len bs) with (str + l - pos - 1) by lia.
           rewrite Hs, lookup_insert_ne by lia. apply lookup_insert_eq.
      * intros c Hc. simpl in Hc. rewrite Hs by lia. by rewrite !lookup_insert_ne by lia.
Qed.

(** The representation [itoa] gives, from its end: digits and a sign. *)
Definition backwards (base val : Z) : list Z :=
  map digit_char (lsd 32 base (Z.abs val)) ++ (if val <? 0 then [45] else []).

Definition representation (base val : Z) : list Z := reverse (backwards base val).

Lemma itoa_backwards m val str base old :
  -2147483648 < val < 2147483648 -> 2 <= base <= 36 -> bytes_at m str old -> length old = length (backwards base val) ->
  exists m', ('(m, buf) ← itoa_digits 32 m str (abs val) base;
      if val <? 0 then m ← store_byte m buf 45; Some (m, buf + 1) else Some (m, buf)) = Some (m', str + len old) /\
    bytes_at m' str (backwards base val) /\ same_outside str (str + len old) m m'.
Proof.
  intros Hv Hb Ho Hl. assert (abs val = Z.abs val) as -> by (unfold abs; destruct (Z.ltb_spec val 0); rewrite ?i32_small by lia; lia).
  unfold backwards in *. set (ds := lsd 32 base (Z.abs val)) in *. rewrite length_app, length_map in Hl.
  rewrite <- (take_drop (length ds) old) in Ho. apply bytes_at_app in Ho as [Ho1 Ho2]. rewrite length_take_le in Ho2 by lia.
  assert (length (take (length ds) old) = length ds) as Ht by (rewrite length_take; lia).
  destruct (itoa_digits_spec 32 m str (Z.abs val) base (take (length ds) old)) as (m1 & -> & Hb1 & Hs1); [done| |lia|done|done|].
  { change (2 ^ Z.of_nat 32) with 4294967296. lia. }
  cbn [mbind option_bind]. fold ds in Hb1. rewrite Ht in *. clearbody ds. destruct (val <? 0).
  - simpl in Hl. destruct (drop (length ds) old) as [|o rest] eqn:E; [apply (f_equal length) in E; rewrite length_drop in E; simpl in E; lia|].
    destruct Ho2 as [Ho2 _]. rewrite (store_byte_at _ _ _ o) by (rewrite Hs1 by lia; done). cbn [mbind option_bind].
    exists (<[str + len ds := 45]> m1). split_and!; [split_eq| |].
    + apply bytes_at_app. rewrite length_map. split; [|simpl; split; [apply lookup_insert_eq|done]].
      apply (bytes_at_frame m1); [done|]. rewrite length_map. intros c Hc. by rewrite lookup_insert_ne by lia.
    + intros c Hc. rewrite lookup_insert_ne, Hs1 by lia. done.
  - simpl in Hl. exists m1. rewrite app_nil_r. split_and!; [split_eq|done|].
    apply (same_outside_weaken _ _ _ _ _ _ Hs1); lia.
Qed.

Lemma backwards_facts base val :
  -2147483648 < val < 2147483648 -> 2 <= base <= 36 ->
  Forall char (backwards base val) /\ (0 < length (backwards base val) <= 32)%nat.
Proof.
  intros Hv Hb. unfold backwards. change 32%nat with (31 + 1)%nat. assert (0 <= Z.abs val < 2 ^ Z.of_nat 31) as Ha by (change (2 ^ Z.of_nat 31) with 2147483648; lia).
  rewrite (lsd_fuel 31 1) by (done || lia).
  destruct (lsd_spec 31 base (Z.abs val)) as (_ & Hd & Hl); [lia|done|lia|]. revert Hd Hl. generalize (lsd 31 base (Z.abs val)). intros ds Hd Hl. split.
  - apply Forall_app. split.
    + apply Forall_map. eapply Forall_impl; [exact Hd|]. intros d Hd'. by destruct (digit_char_facts base d Hb Hd') as (_ & _ & _ & ? & _).
    + destruct (val <? 0); repeat constructor; unfold char; lia.
  - rewrite length_app, length_map. destruct (val <? 0); simpl; lia.
Qed.

Lemma itoa_spec m val str base old :
  -2147483648 < val < 2147483648 -> 2 <= base <= 36 -> bytes_at m str old -> length old = 33%nat ->
  exists m', itoa m val str base = Some (m', str) /\ cstr m' str (representation base val) /\ same_outside str (str + 33) m m'.
Proof.
  intros Hv Hb Ho Hl. destruct (backwards_facts base val Hv Hb) as [Hch Hlen]. unfold itoa.
  rewrite (proj2 (Z.leb_le 2 base)), (proj2 (Z.leb_le base 36)) by lia. cbn [andb].
  set (n := length (backwards base val)) in *.
  assert (exists old1 o rest, old = old1 ++ o :: rest /\ length old1 = n) as (old1 & o & rest & -> & Hl1).
  { destruct (lookup_lt_is_Some_2 old n) as [o Hlo]; [lia|]. apply list_elem_of_split_length in Hlo as (l1 & l2 & -> & ?). eauto 6. }
  apply bytes_at_app in Ho as [Ho1 [Ho _]].
  destruct (itoa_backwards m val str base old1 Hv Hb Ho1 Hl1) as (m1 & Hi & Hb1 & Hs1).
  destruct (itoa_digits 32 m str (abs val) base) as [[m0 buf]|]; [|done]. cbn [mbind option_bind] in Hi |- *.
  rewrite Hi. cbn [mbind option_bind]. replace (str + len old1 - str) with (len old1) by lia.
  destruct (itoa_reverse_spec (Z.to_nat (len old1 / 2)) m1 str 0 (len old1) (backwards base val)) as (m2 & -> & Hb2 & Hs2);
    [by rewrite Z.add_0_r|lia|by rewrite Hl1|].
  rewrite Z.add_0_r in *. cbn [mbind option_bind]. replace (length (backwards base val)) with n in Hs2 by done.
  rewrite (store_byte_at _ _ _ o) by (rewrite Hs2, Hs1 by lia; done). cbn [mbind option_bind].
  exists (<[str + len old1 := 0]> m2). split_and!; [done| |].
  - split; [|by apply Forall_reverse]. apply bytes_at_app. unfold representation. rewrite length_reverse. split.
    + apply (bytes_at_frame m2); [done|]. rewrite length_reverse. intros c Hc. by rewrite lookup_insert_ne by lia.
    + split; [|done]. fold n. rewrite <- Hl1. apply lookup_insert_eq.
  - rewrite length_app in Hl. intros c Hc. rewrite lookup_insert_ne, Hs2, Hs1 by lia. done.
Qed.

(** ** Reading back *)

Lemma strtol_representation m a base val :
  cstr m a (representation base val) -> -2147483648 < val < 2147483648 -> 2 <= base <= 36 -> 0 < a ->
  strtol m a base = Some (val, Some (a + len (representation base val))).
Proof.
  intros [Hb _] Hv Hbase Ha. unfold representation, backwards in *. rewrite reverse_app in *.
  change (map digit_char) with (fmap (M := list) digit_char) in *. rewrite <- fmap_reverse in *.
  destruct (lsd_spec 32 base (Z.abs val)) as (Hval & Hd & Hl); [lia|change (2 ^ Z.of_nat 32) with 4294967296; lia|lia|].
  rewrite <- Forall_reverse in Hd. rewrite <- length_reverse in Hl. revert Hb Hval Hd Hl. generalize (reverse (lsd 32 base (Z.abs val))).
  intros ds Hb Hval Hd Hl. unfold strtol. rewrite (proj2 (Z.eqb_neq a 0)) by lia. destruct (Z.ltb_spec val 0).
  - rewrite <- (assoc_L (++)) in Hb. destruct Hb as [Hm Hb]. rewrite (skipspace_none m a 45 Hm eq_refl). cbn [mbind option_bind].
    unfold read_sign. load_at Hm. simpl. rewrite (strtoul_digits m (a + 1) base ds) by (done || lia). cbn [mbind option_bind].
    rewrite Hval, length_fmap, (i32_small (Z.abs val)), i32_small by lia. split_eq.
  - destruct ds as [|d ds]; [simpl in Hl; lia|]. pose proof Hb as [Hm _]. pose proof Hd as [Hdd _]%Forall_cons.
    destruct (digit_char_facts base d Hbase Hdd) as (_ & Hsp & _ & _ & H1 & H2).
    rewrite (skipspace_none m a _ Hm Hsp). cbn [mbind option_bind]. unfold read_sign. load_at Hm.
    rewrite (proj2 (Z.eqb_neq _ 45)), (proj2 (Z.eqb_neq _ 43)) by done. cbn [mbind option_bind].
    rewrite (strtoul_digits m a base (d :: ds)) by (done || lia). cbn [mbind option_bind].
    rewrite length_app, length_fmap. rewrite Hval, !i32_small by lia. simpl. split_eq.
Qed.

(** C29: strtol reads back what itoa has written, in every base and for every
    [int] but the smallest, and stops at the end of the string; itoa needs a
    buffer of 33 bytes and writes nowhere else. *)
Theorem itoa_strtol m val str base old :
  -2147483648 < val < 2147483648 -> 2 <= base <= 36 -> 0 < str -> bytes_at m str old -> length old = 33%nat ->
  exists m' s, itoa m val str base = Some (m', str) /\ cstr m' str s /\ strtol m' str base = Some (val, Some (str + len s)) /\
    same_outside str (str + 33) m m'.
Proof.
  intros Hv Hb Hs Ho Hl. destruct (itoa_spec m val str base old Hv Hb Ho Hl) as (m' & Hi & Hc & Hf).
  exists m', (representation base val). split_and!; auto using strtol_representation.
Qed.

Lemma itoa_strtol_witness :
  exists m' s, itoa (mem_of 4096 (replicate 33 0)) (-100) 4096 7 = Some (m', 4096) /\ cstr m' 4096 s /\
    strtol m' 4096 7 = Some (-100, Some (4096 + len s)) /\ same_outside 4096 (4096 + 33) (mem_of 4096 (replicate 33 0)) m'.
Proof.
  apply (itoa_strtol (mem_of 4096 (replicate 33 0)) (-100) 4096 7 (replicate 33 0)); [lia|lia|lia|apply mem_of_bytes|reflexivity].
Defined.

(** The smallest [int] has no absolute value: in base 10 itoa reads in front of
    its table of digits, and in base 16 it writes "-0". *)
Lemma itoa_int_min m str :
  itoa m (-2147483648) str 10 = None /\
  (fst <$> itoa (mem_of 4096 [1; 1; 1]) (-2147483648) 4096 16) = Some (mem_of 4096 [45; 48; 0]).
Proof. split; [done|by vm_compute]. Qed.
