(* ===== verification/CrcTheorems.v ===== *)
(** * Cyclic redundancy checks: the shift registers

    The reference for the CRCs: shift registers that take in one bit at a time.
    Their steps are linear over exclusive or. *)

From stdpp Require Import base tactics numbers list gmap.
From S2P Require Import Prelude Bytes Crc.

Lemma lxor_range w a b : 0 <= w -> 0 <= a < 2 ^ w -> 0 <= b < 2 ^ w -> 0 <= Z.lxor a b < 2 ^ w.
Proof.
  intros Hw Ha Hb. assert (0 <= Z.lxor a b) as H0 by (apply Z.lxor_nonneg; lia). split; [done|].
  destruct (decide (Z.lxor a b = 0)) as [-> | Hne]; [lia|]. apply Z.log2_lt_pow2; [lia|].
  eapply Z.le_lt_trans; [apply Z.log2_lxor; lia|]. apply Z.max_lub_lt.
  - destruct (decide (a = 0)) as [-> | ?]; [simpl; destruct (decide (w = 0)) as [-> | ?]; [|lia]|apply Z.log2_lt_pow2; lia].
    exfalso. change (2 ^ 0) with 1 in *. assert (b = 0) as -> by lia. done.
  - destruct (decide (b = 0)) as [-> | ?]; [simpl; destruct (decide (w = 0)) as [-> | ?]; [|lia]|apply Z.log2_lt_pow2; lia].
    exfalso. change (2 ^ 0) with 1 in *. assert (a = 0) as -> by lia. done.
Qed.

(** The low byte and the rest. *)
Lemma split_byte z : Z.lxor (Z.land z 255) (Z.shiftl (Z.shiftr z 8) 8) = z.
Proof.
  apply Z.bits_inj'. intros n Hn. rewrite Z.lxor_spec, Z.land_spec, Z.shiftl_spec by lia.
  change 255 with (Z.ones 8). destruct (decide (n < 8)).
  - rewrite Z.ones_spec_low, (Z.testbit_neg_r _ (n - 8)) by lia. by rewrite andb_true_r, xorb_false_r.
  - rewrite Z.ones_spec_high, Z.shiftr_spec by lia. rewrite andb_false_r. replace (n - 8 + 8) with n by lia. by rewrite xorb_false_l.
Qed.

Lemma shiftr_byte s b : 0 <= b < 256 -> Z.shiftr (Z.lxor s b) 8 = Z.shiftr s 8.
Proof. intros Hb. rewrite Z.shiftr_lxor, (Z.shiftr_div_pow2 b), (Z.div_small b) by (change (2 ^ 8) with 256; lia). apply Z.lxor_0_r. Qed.

Lemma land_byte z : 0 <= Z.land z 255 < 256.
Proof. change 255 with (Z.ones 8). rewrite Z.land_ones by lia. change (2 ^ 8) with 256. apply Z.mod_pos_bound. lia. Qed.

(** ** Registers that shift right *)

Section reflected.
Context (w poly : Z).
Hypothesis Hw : 8 <= w.
Hypothesis Hpoly : 2 ^ (w - 1) <= poly < 2 ^ w.

Definition rstep (x : Z) : Z := Z.lxor (Z.shiftr x 1) (if Z.odd x then poly else 0).

(** A byte enters at the low end and the register makes eight steps. *)
Definition rbyte (s b : Z) : Z := Nat.iter 8 rstep (Z.lxor s b).

Lemma rbyte_steps s b : rbyte s b = Nat.iter 8 rstep (Z.lxor s b).
Proof. unfold rbyte. reflexivity. Qed.

Lemma rstep_lxor a b : rstep (Z.lxor a b) = Z.lxor (rstep a) (rstep b).
Proof.
  unfold rstep. rewrite Z.shiftr_lxor, <- !Z.bit0_odd, Z.lxor_spec. apply Z.bits_inj'. intros n Hn. rewrite !Z.lxor_spec.
  destruct (Z.testbit a 0), (Z.testbit b 0); cbn [xorb]; rewrite ?Z.bits_0; do 2 destruct (Z.testbit _ n); try done; by destruct (Z.testbit _ n).
Qed.

Lemma rsteps_lxor n a b : Nat.iter n rstep (Z.lxor a b) = Z.lxor (Nat.iter n rstep a) (Nat.iter n rstep b).
Proof. induction n as [|n IH]; [done|]. simpl. by rewrite IH, rstep_lxor. Qed.

Lemma rsteps_shift n h : Nat.iter n rstep (Z.shiftl h (Z.of_nat n)) = h.
Proof.
  revert h. induction n as [|n IH]; intros h; [apply Z.shiftl_0_r|]. rewrite Nat.iter_succ_r.
  replace (rstep (Z.shiftl h (Z.of_nat (S n)))) with (Z.shiftl h (Z.of_nat n)); [apply IH|].
  unfold rstep. rewrite <- Z.bit0_odd, Z.shiftl_spec, Z.testbit_neg_r by lia. rewrite Z.lxor_0_r.
  rewrite Z.shiftr_shiftl_l by lia. f_equal. lia.
Qed.

Lemma rsteps8_shift h : Nat.iter 8 rstep (Z.shiftl h 8) = h.
Proof. exact (rsteps_shift 8 h). Qed.

(** What a table of the registers after eight steps is good for. *)
Lemma rbyte_table s b : 0 <= b < 256 ->
  rbyte s b = Z.lxor (Nat.iter 8 rstep (Z.land (Z.lxor s b) 255)) (Z.shiftr s 8).
Proof.
  intros Hb. unfold rbyte. rewrite <- (split_byte (Z.lxor s b)) at 1. rewrite rsteps_lxor, shiftr_byte by done.
  by rewrite rsteps8_shift.
Qed.

Lemma rstep_range x : 0 <= x < 2 ^ w -> 0 <= rstep x < 2 ^ w.
Proof.
  intros Hx. assert (2 * 2 ^ (w - 1) = 2 ^ w) as E by (rewrite <- Z.pow_succ_r by lia; f_equal; lia).
  apply lxor_range; [lia| |destruct (Z.odd x); lia]. rewrite Z.shiftr_div_pow2 by lia. change (2 ^ 1) with 2.
  pose proof (Z.div_pos x 2). pose proof (Z.div_lt_upper_bound x 2 (2 ^ w)). lia.
Qed.

Lemma rstep_zero x : 0 <= x < 2 ^ w -> rstep x = 0 -> x = 0.
Proof.
  intros Hx H0. assert (2 * 2 ^ (w - 1) = 2 ^ w) as E by (rewrite <- Z.pow_succ_r by lia; f_equal; lia).
  unfold rstep in H0. apply Z.lxor_eq in H0. rewrite Z.shiftr_div_pow2 in H0 by lia. change (2 ^ 1) with 2 in H0.
  pose proof (Z.div_mod x 2 ltac:(lia)) as D. rewrite Zmod_odd in D. destruct (Z.odd x); [|lia].
  assert (x / 2 < 2 ^ (w - 1)) by (apply Z.div_lt_upper_bound; lia). lia.
Qed.

Lemma rstep_inj x y : 0 <= x < 2 ^ w -> 0 <= y < 2 ^ w -> rstep x = rstep y -> x = y.
Proof.
  intros Hx Hy E. apply Z.lxor_eq, rstep_zero; [apply lxor_range; lia|]. rewrite rstep_lxor, E. apply Z.lxor_nilpotent.
Qed.

Lemma rsteps_range n x : 0 <= x < 2 ^ w -> 0 <= Nat.iter n rstep x < 2 ^ w.
Proof. intros Hx. induction n as [|n IH]; [done|]. simpl. by apply rstep_range. Qed.

Lemma rsteps_inj n x y : 0 <= x < 2 ^ w -> 0 <= y < 2 ^ w -> Nat.iter n rstep x = Nat.iter n rstep y -> x = y.
Proof.
  intros Hx Hy. induction n as [|n IH]; [done|]. simpl. intros E. apply IH, rstep_inj; [by apply rsteps_range..|done].
Qed.

(** ** Whole messages *)

Definition byte (b : Z) : Prop := 0 <= b < 256.

Definition rcrc (s : Z) (bs : list Z) : Z := foldl rbyte s bs.

(** Bytes as the coefficients of one word, the first one lowest. *)
Fixpoint word (bs : list Z) : Z :=
  match bs with
  | [] => 0
  | b :: bs => Z.lxor b (Z.shiftl (word bs) 8)
  end.

(** The register after a message is the word of the message, shifted: the
    remainder of the polynomial. *)
Lemma rcrc_word s bs : rcrc s bs = Nat.iter (8 * length bs) rstep (Z.lxor s (word bs)).
Proof.
  revert s. induction bs as [|b bs IH]; intros s; simpl length; [simpl; by rewrite Z.lxor_0_r|].
  unfold rcrc in *. cbn [foldl word]. rewrite IH. unfold rbyte.
  replace (8 * S (length bs))%nat with (8 * length bs + 8)%nat by lia. rewrite Nat.iter_add. f_equal.
  by rewrite <- (Z.lxor_assoc s b), (rsteps_lxor 8 (Z.lxor s b)), rsteps8_shift.
Qed.

Lemma rcrc_app s xs ys : rcrc s (xs ++ ys) = rcrc (rcrc s xs) ys.
Proof. apply foldl_app. Qed.

Lemma byte_range b : byte b -> 0 <= b < 2 ^ w.
Proof. unfold byte. intros Hb. pose proof (Z.pow_le_mono_r 2 8 w ltac:(lia) Hw) as Hle. change (2 ^ 8) with 256 in Hle. lia. Qed.

Lemma rbyte_range s b : 0 <= s < 2 ^ w -> byte b -> 0 <= rbyte s b < 2 ^ w.
Proof. intros Hs Hb%byte_range. unfold rbyte. apply rsteps_range, lxor_range; lia. Qed.

Lemma rbyte_inj s t b : 0 <= s < 2 ^ w -> 0 <= t < 2 ^ w -> byte b -> rbyte s b = rbyte t b -> s = t.
Proof.
  intros Hs Ht Hb%byte_range. unfold rbyte. intros E%rsteps_inj; [|apply lxor_range; lia..].
  apply (f_equal (fun z => Z.lxor z b)) in E. by rewrite !Z.lxor_assoc, Z.lxor_nilpotent, !Z.lxor_0_r in E.
Qed.

Lemma rcrc_range s bs : 0 <= s < 2 ^ w -> Forall byte bs -> 0 <= rcrc s bs < 2 ^ w.
Proof.
  intros Hs Hbs. unfold rcrc. revert s Hs. induction Hbs as [|b bs Hb _ IH]; intros s Hs; [done|]. simpl. apply IH.
  by apply rbyte_range.
Qed.

Lemma rcrc_inj s t bs : 0 <= s < 2 ^ w -> 0 <= t < 2 ^ w -> Forall byte bs -> rcrc s bs = rcrc t bs -> s = t.
Proof.
  intros Hs Ht Hbs. revert s t Hs Ht. induction Hbs as [|b bs Hb _ IH]; intros s t Hs Ht E; [done|].
  unfold rcrc in *. cbn [foldl] in E. apply IH in E; [|by apply rbyte_range..]. by apply rbyte_inj in E.
Qed.

Lemma word_range bs : Forall byte bs -> 0 <= word bs < 2 ^ (8 * Z.of_nat (length bs)).
Proof.
  induction 1 as [|b bs Hb Hbs IH]; simpl word; [simpl; lia|]. cbn [length]. apply lxor_range; [lia| |].
  - unfold byte in Hb. pose proof (Z.pow_le_mono_r 2 8 (8 * Z.of_nat (S (length bs))) ltac:(lia) ltac:(lia)) as Hle. change (2 ^ 8) with 256 in Hle. lia.
  - rewrite Z.shiftl_mul_pow2 by lia. replace (8 * Z.of_nat (S (length bs))) with (8 * Z.of_nat (length bs) + 8) by lia.
    rewrite Z.pow_add_r by lia. nia.
Qed.

Lemma word_inj xs ys : Forall byte xs -> Forall byte ys -> length xs = length ys -> word xs = word ys -> xs = ys.
Proof.
  intros Hx. revert ys. induction Hx as [|x xs Hx Hxs IH]; intros [|y ys] Hy Hl E; try done. apply Forall_cons in Hy as [Hy Hys]. simpl in E.
  assert (forall b v, byte b -> Z.land (Z.lxor b (Z.shiftl v 8)) 255 = b /\ Z.shiftr (Z.lxor b (Z.shiftl v 8)) 8 = v) as Hsplit.
  { intros b v Hb. unfold byte in Hb. split.
    - change 255 with (Z.ones 8). rewrite Z.land_ones, Z.lxor_comm by lia. apply Z.bits_inj'. intros n Hn. destruct (decide (n < 8)).
      + rewrite Z.mod_pow2_bits_low, Z.lxor_spec, Z.shiftl_spec, Z.testbit_neg_r by lia. apply xorb_false_l.
      + rewrite Z.mod_pow2_bits_high by lia. rewrite <- (Z.mod_small b (2 ^ 8)) by (change (2 ^ 8) with 256; lia). by rewrite Z.mod_pow2_bits_high by lia.
    - rewrite Z.lxor_comm, shiftr_byte by done. rewrite Z.shiftr_shiftl_l by lia. apply Z.shiftl_0_r. }
  destruct (Hsplit x (word xs) Hx) as [E1 E2], (Hsplit y (word ys) Hy) as [E3 E4].
  rewrite E in E1, E2. rewrite E1 in E3. rewrite E2 in E4. f_equal; [done|]. simpl in Hl. apply IH; [done|lia|done].
Qed.

(** Two messages that differ only in a stretch no longer than the register have
    different checks. *)
Lemma rcrc_burst s p x y q :
  0 <= s < 2 ^ w -> Forall byte (p ++ x ++ q) -> Forall byte y -> length x = length y -> 8 * len x <= w -> x <> y ->
  rcrc s (p ++ x ++ q) <> rcrc s (p ++ y ++ q).
Proof.
  intros Hs Hb Hy Hl Hlen Hne E. rewrite !Forall_app in Hb. destruct Hb as (Hp & Hx & Hq). apply Hne.
  rewrite !rcrc_app in E. pose proof (rcrc_range s p Hs Hp) as Hr. apply rcrc_inj in E; [|by apply rcrc_range..|done].
  revert E Hr. generalize (rcrc s p). intros t E Hr. rewrite !rcrc_word, Hl in E.
  assert (forall z, Forall byte z -> length z = length x -> 0 <= word z < 2 ^ w) as Hword.
  { intros z Hz Hzl. pose proof (word_range z Hz) as [? ?]. rewrite Hzl in *. pose proof (Z.pow_le_mono_r 2 (8 * len x) w ltac:(lia) Hlen). lia. }
  pose proof (Hword x Hx eq_refl). pose proof (Hword y Hy ltac:(lia)).
  apply rsteps_inj in E; [|apply lxor_range; lia..]. apply word_inj; [done|done|done|].
  apply (f_equal (Z.lxor t)) in E. by rewrite <- !Z.lxor_assoc, Z.lxor_nilpotent, !Z.lxor_0_l in E.
Qed.
End reflected.

(** * Cyclic redundancy checks: theorems *)

(** ** The polynomials

    The register of CRC-32 and CRC-8 shifts right: its polynomials are given
    with the coefficient of the highest power in bit 0. *)
Definition poly32 : Z := 0xedb88320.

Definition poly8 : Z := 0xb2.

(** CRC-16 shifts left; a bit of the message enters at the low end. *)
Definition lstep (s : Z) : Z := Z.lxor (u16 (Z.shiftl s 1)) (if Z.testbit s 15 then 0x1021 else 0).

Definition lbit (s : Z) (bit : bool) : Z := Z.lxor (lstep s) (Z.b2z bit).

(** The bits of a byte, the highest first. *)
Definition byte_bits (b : Z) : list bool := map (fun i => Z.testbit b i) [7; 6; 5; 4; 3; 2; 1; 0].

Definition lbyte (s b : Z) : Z := foldl lbit s (byte_bits b).

(** ** The tables *)

Lemma crc32_tab_steps i : 0 <= i < 256 -> crc32_tab !! Z.to_nat i = Some (Nat.iter 8 (rstep poly32) i).
Proof.
  intros Hi. assert (Forall (fun i => crc32_tab !! Z.to_nat i = Some (Nat.iter 8 (rstep poly32) i)) (seqZ 0 256)) as H
    by (refine (bool_decide_unpack _ _); vm_compute; exact I).
  rewrite Forall_forall in H. apply H, elem_of_seqZ. lia.
Qed.

Lemma crc8_tab_steps i : 0 <= i < 256 -> crc8_tab !! Z.to_nat i = Some (Nat.iter 8 (rstep poly8) i).
Proof.
  intros Hi. assert (Forall (fun i => crc8_tab !! Z.to_nat i = Some (Nat.iter 8 (rstep poly8) i)) (seqZ 0 256)) as H
    by (refine (bool_decide_unpack _ _); vm_compute; exact I).
  rewrite Forall_forall in H. apply H, elem_of_seqZ. lia.
Qed.

(** For CRC-16: the table, the low byte of the register, which is only
    shifted, and the bits of a byte. *)
Lemma crc16_tab_steps i :
  0 <= i < 256 ->
  crc16_tab !! Z.to_nat i = Some (Nat.iter 8 lstep (Z.shiftl i 8)) /\ Nat.iter 8 lstep i = Z.shiftl i 8 /\
  foldl lbit 0 (byte_bits i) = i /\ 0 <= Nat.iter 8 lstep (Z.shiftl i 8) < 65536.
Proof.
  intros Hi. assert (Forall (fun i => crc16_tab !! Z.to_nat i = Some (Nat.iter 8 lstep (Z.shiftl i 8)) /\
    Nat.iter 8 lstep i = Z.shiftl i 8 /\ foldl lbit 0 (byte_bits i) = i /\
    0 <= Nat.iter 8 lstep (Z.shiftl i 8) /\ Nat.iter 8 lstep (Z.shiftl i 8) < 65536) (seqZ 0 256)) as H
    by (refine (bool_decide_unpack _ _); vm_compute; exact I).
  rewrite Forall_forall in H. apply H, elem_of_seqZ. lia.
Qed.

(** ** CRC-16 *)

Lemma u16_lxor a b : u16 (Z.lxor a b) = Z.lxor (u16 a) (u16 b).
Proof.
  unfold u16. change 65536 with (2 ^ 16). apply Z.bits_inj'. intros n Hn. rewrite Z.lxor_spec. destruct (decide (n < 16)).
  - by rewrite !Z.mod_pow2_bits_low, Z.lxor_spec by lia.
  - by rewrite !Z.mod_pow2_bits_high by lia.
Qed.

Lemma lstep_lxor a b : lstep (Z.lxor a b) = Z.lxor (lstep a) (lstep b).
Proof.
  unfold lstep. rewrite Z.shiftl_lxor, u16_lxor, Z.lxor_spec. apply Z.bits_inj'. intros n Hn. rewrite !Z.lxor_spec.
  destruct (Z.testbit a 15), (Z.testbit b 15); cbn [xorb]; rewrite ?Z.bits_0; do 2 destruct (Z.testbit _ n); try done; by destruct (Z.testbit _ n).
Qed.

Lemma lsteps_lxor n a b : Nat.iter n lstep (Z.lxor a b) = Z.lxor (Nat.iter n lstep a) (Nat.iter n lstep b).
Proof. induction n as [|n IH]; [done|]. simpl. by rewrite IH, lstep_lxor. Qed.

Lemma lbits_lxor s t bits : foldl lbit (Z.lxor s t) bits = Z.lxor (Nat.iter (length bits) lstep s) (foldl lbit t bits).
Proof.
  revert s t. induction bits as [|b bits IH]; intros s t; [done|]. cbn [foldl length]. rewrite Nat.iter_succ_r.
  replace (lbit (Z.lxor s t) b) with (Z.lxor (lstep s) (lbit t b)); [apply IH|].
  unfold lbit. by rewrite lstep_lxor, Z.lxor_assoc.
Qed.

Lemma lbyte_table s b t :
  0 <= s < 65536 -> 0 <= b < 256 -> crc16_tab !! Z.to_nat (Z.land (Z.shiftr s 8) 255) = Some t ->
  u16 (Z.lxor (Z.lxor t (Z.shiftl s 8)) b) = lbyte s b.
Proof.
  intros Hs Hb Ht. unfold lbyte. rewrite <- (Z.lxor_0_r s) at 2. rewrite lbits_lxor. change (length (byte_bits b)) with 8%nat.
  destruct (crc16_tab_steps b Hb) as (_ & _ & -> & _).
  assert (Z.land (Z.shiftr s 8) 255 = Z.shiftr s 8) as E.
  { change 255 with (Z.ones 8). rewrite Z.land_ones, Z.shiftr_div_pow2 by lia. change (2 ^ 8) with 256. apply Z.mod_small.
    split; [apply Z.div_pos; lia|apply Z.div_lt_upper_bound; lia]. }
  rewrite E in Ht. assert (0 <= Z.shiftr s 8 < 256) as Hhi by (rewrite <- E; apply land_byte).
  destruct (crc16_tab_steps _ Hhi) as (Ht' & _ & _ & Hr). rewrite Ht' in Ht. apply (inj Some) in Ht. subst t.
  rewrite <- (split_byte s) at 3. rewrite (lsteps_lxor 8). destruct (crc16_tab_steps _ (land_byte s)) as (_ & -> & _).
  rewrite !u16_lxor. assert (forall z, 0 <= z < 65536 -> u16 z = z) as Hu by (intros; unfold u16; by apply Z.mod_small).
  rewrite (Hu (Nat.iter _ _ _)), (Hu b) by lia. f_equal. rewrite Z.lxor_comm. f_equal.
  unfold u16. rewrite !Z.shiftl_mul_pow2 by lia. change 255 with (Z.ones 8). rewrite Z.land_ones by lia. change (2 ^ 8) with 256.
  change 65536 with (256 * 256). rewrite Z.mul_mod_distr_r by lia. done.
Qed.

Lemma lbyte_range s b : 0 <= s < 65536 -> 0 <= b < 256 -> 0 <= lbyte s b < 65536.
Proof.
  intros Hs Hb. destruct (crc16_tab_steps _ (land_byte (Z.shiftr s 8))) as (Ht & _).
  rewrite <- (lbyte_table s b _ Hs Hb Ht). unfold u16. apply Z.mod_pos_bound. lia.
Qed.

(** ** The code *)

Lemma crc32part_spec m src bs s :
  bytes_at m src bs -> Forall byte bs -> 0 <= s < 2 ^ 32 -> crc32part (length bs) m src s = Some (rcrc poly32 s bs).
Proof.
  intros Hb Hbs Hs. revert src s Hb Hs. induction Hbs as [|b bs Hbb _ IH]; intros src s Hb' Hs; [done|]. destruct Hb' as [Hb Hbs]. cbn [crc32part length].
  unfold load_byte. rewrite Hb. cbn [mbind option_bind]. rewrite (crc32_tab_steps _ (land_byte _)). cbn [mbind option_bind].
  rewrite <- rbyte_table by done. rewrite IH; [done|done|]. by apply (rbyte_range 32 poly32).
Qed.

Lemma crc16part_spec m src bs s :
  bytes_at m src bs -> Forall byte bs -> 0 <= s < 65536 -> crc16part (length bs) m src s = Some (foldl lbyte s bs).
Proof.
  intros Hb Hbs Hs. revert src s Hb Hs. induction Hbs as [|b bs Hbb _ IH]; intros src s Hb' Hs; [done|]. destruct Hb' as [Hb Hbs]. cbn [crc16part length].
  unfold load_byte. rewrite Hb. cbn [mbind option_bind]. destruct (crc16_tab_steps _ (land_byte (Z.shiftr s 8))) as (Ht & _).
  pose proof (lbyte_table s b _ Hs Hbb Ht) as E. rewrite Ht. cbn [mbind option_bind]. rewrite E, IH; [done|done|by apply lbyte_range].
Qed.

Lemma crc8part_spec m src bs s :
  bytes_at m src bs -> Forall byte bs -> 0 <= s < 256 -> crc8part_loop (length bs) m src s = Some (rcrc poly8 s bs).
Proof.
  intros Hb Hbs Hs. revert src s Hb Hs. induction Hbs as [|b bs Hbb _ IH]; intros src s Hb' Hs; [done|]. destruct Hb' as [Hb Hbs]. cbn [crc8part_loop length].
  unfold load_byte. rewrite Hb. cbn [mbind option_bind].
  assert (0 <= Z.lxor s b < 256) as Hx by (apply (lxor_range 8); [lia|done..]).
  rewrite (crc8_tab_steps _ Hx). cbn [mbind option_bind].
  rewrite <- rbyte_steps, IH; [done|done|]. by apply (rbyte_range 8 poly8).
Qed.

(** the table-driven CRC-32, CRC-16 and CRC-8 compute, on every buffer and
    from every start value, what the shift registers of their polynomials
    compute bit by bit. *)
Theorem crc_bitwise m src bs s :
  bytes_at m src bs -> Forall byte bs ->
  (0 <= s < 2 ^ 32 -> crc32part (length bs) m src s = Some (rcrc poly32 s bs)) /\
  (0 <= s < 2 ^ 16 -> crc16part (length bs) m src s = Some (foldl lbyte s bs)) /\
  (0 <= s < 2 ^ 8 -> crc8part (length bs) m src s = Some (Z.lxor (rcrc poly8 (Z.lxor s 255) bs) 255)).
Proof.
  intros Hb Hbs. split_and!; intros Hs.
  - by apply crc32part_spec.
  - by apply crc16part_spec.
  - unfold crc8part. rewrite (crc8part_spec m src bs) by (done || (apply (lxor_range 8); [lia|done|lia])). done.
Qed.

(** C28: CRC-32 tells apart any two messages that differ only within 4
    consecutive bytes, wherever they are. *)
Theorem crc32_detects_bursts m m' src p x y q :
  bytes_at m src (p ++ x ++ q) -> bytes_at m' src (p ++ y ++ q) -> Forall byte (p ++ x ++ q) -> Forall byte y ->
  length x = length y -> (length x <= 4)%nat -> x <> y ->
  crc32 m src (length (p ++ x ++ q)) <> crc32 m' src (length (p ++ x ++ q)).
Proof.
  intros Hm Hm' Hb Hy Hl H4 Hne. unfold crc32. rewrite (crc32part_spec m src (p ++ x ++ q) 0) by (done || lia).
  replace (length (p ++ x ++ q)) with (length (p ++ y ++ q)) by (rewrite !length_app; lia).
  rewrite (crc32part_spec m' src (p ++ y ++ q) 0); [|done| |lia].
  2:{ rewrite !Forall_app in *. tauto. }
  intros E%(inj Some). revert E. apply (rcrc_burst 32 poly32); [lia|done|lia|done|done|done|lia|done].
Qed.

Lemma crc_bitwise_witness :
  (0 <= 0 < 2 ^ 32 -> crc32part 3 (mem_of 4096 [1; 2; 250]) 4096 0 = Some (rcrc poly32 0 [1; 2; 250])) /\
  (0 <= 0 < 2 ^ 16 -> crc16part 3 (mem_of 4096 [1; 2; 250]) 4096 0 = Some (foldl lbyte 0 [1; 2; 250])) /\
  (0 <= 0 < 2 ^ 8 -> crc8part 3 (mem_of 4096 [1; 2; 250]) 4096 0 = Some (Z.lxor (rcrc poly8 (Z.lxor 0 255) [1; 2; 250]) 255)).
Proof.
  apply (crc_bitwise (mem_of 4096 [1; 2; 250]) 4096 [1; 2; 250] 0); [apply mem_of_bytes|repeat constructor; lia].
Defined.

Lemma crc32_detects_bursts_witness :
  crc32 (mem_of 4096 [7; 1; 2; 9]) 4096 4 <> crc32 (mem_of 4096 [7; 1; 3; 9]) 4096 4.
Proof.
  apply (crc32_detects_bursts (mem_of 4096 [7; 1; 2; 9]) (mem_of 4096 [7; 1; 3; 9]) 4096 [7] [1; 2] [1; 3] [9]);
    [apply mem_of_bytes|apply mem_of_bytes|repeat constructor; lia|repeat constructor; lia|reflexivity|simpl; lia|discriminate].
Defined.
