(* ===== verification/Env.v ===== *)
(** * Environment variables (os/kernel/environ)

    The environment of a task group is one block of memory with the strings
    [name=value] one behind the other.  The operations are clients of the
    string functions of [CString] and of an allocator; what they rely on is the
    class [Allocator].  [None] is an access to memory that is not mapped, or a
    failed assertion.  The caller runs with preemption locked, and there is one
    heap, as in the flat build. *)

From stdpp Require Import base tactics numbers list gmap.
From S2P Require Import Prelude Bytes CString.

Abbreviation EINVAL := (22) (only parsing).
Abbreviation ENOENT := (2) (only parsing).
Abbreviation ENOMEM := (12) (only parsing).
Abbreviation OK := (0) (only parsing).
Abbreviation ERROR := (-1) (only parsing).

(** ** The allocator

    [h] is the state of the allocator; the memory maps exactly what is in use.
    [kumm_malloc], [kumm_realloc] and [kumm_free] return the new state and
    memory, and a null pointer where the allocation fails.  [owns h p k]: at
    [p] there is a block of [k] bytes. *)
Class AllocatorOps (H : Type) := {
  kumm_malloc : H -> bmem -> Z -> H * bmem * Z;
  kumm_realloc : H -> bmem -> Z -> Z -> H * bmem * Z;
  kumm_free : H -> bmem -> Z -> H * bmem;
  owns : H -> Z -> Z -> Prop
}.

(** A new block of [n] bytes at [p] next to the memory [m]. *)
Definition fresh_block (m m' : bmem) (p n : Z) : Prop :=
  0 < p /\ (exists bs, len bs = n /\ bytes_at m' p bs) /\
  forall c b, m !! c = Some b -> m' !! c = Some b /\ (c < p \/ p + n <= c).

(** The memory [m] without the block of [k] bytes at [p]. *)
Definition without_block (m : bmem) (p k : Z) : bmem := filter (fun '(c, _) => c < p \/ p + k <= c) m.

Class Allocator (H : Type) `{!AllocatorOps H} : Prop := {
  malloc_law h m n h' m' p :
    0 < n -> kumm_malloc h m n = (h', m', p) ->
    p = 0 /\ h' = h /\ m' = m \/ owns h' p n /\ fresh_block m m' p n /\ (forall q k, owns h q k -> q <> p /\ owns h' q k);
  realloc_law h m p k n h' m' q bs :
    owns h p k -> bytes_at m p bs -> len bs = k -> 0 < n -> kumm_realloc h m p n = (h', m', q) ->
    q = 0 /\ h' = h /\ m' = m \/
    owns h' q n /\ fresh_block (without_block m p k) m' q n /\
    bytes_at m' q (take (Z.to_nat (Z.min k n)) bs) /\ (forall r j, r <> p -> owns h r j -> r <> q /\ owns h' r j);
  realloc_zero_law h m p k h' m' q bs :
    owns h p k -> bytes_at m p bs -> len bs = k -> kumm_realloc h m p 0 = (h', m', q) ->
    q = 0 /\ m' = without_block m p k /\ (forall r j, r <> p -> owns h r j -> owns h' r j);
  free_law h m p k h' m' bs :
    owns h p k -> bytes_at m p bs -> len bs = k -> kumm_free h m p = (h', m') ->
    m' = without_block m p k /\ (forall r j, r <> p -> owns h r j -> owns h' r j)
}.

(** ** The environment of a task group *)

Record task_group_s := mk_group { tg_envsize : Z; tg_envp : Z }.

(** [env_cmpname]: the loop runs while the characters are equal. *)
Fixpoint env_cmpname_loop (fuel : nat) (m : bmem) (pszname peqname : Z) : option bool :=
  match fuel with
  | O => None
  | S fuel =>
      a ← load_byte m pszname;
      b ← load_byte m peqname;
      if a =? b then env_cmpname_loop fuel m (pszname + 1) (peqname + 1) else Some ((a =? 0) && (b =? 61))
  end.

Definition env_cmpname (m : bmem) (pszname peqname : Z) : option bool :=
  env_cmpname_loop (string_fuel m) m pszname peqname.

Fixpoint findvar_loop (fuel : nat) (m : bmem) (pname ptr e : Z) : option Z :=
  match fuel with
  | O => None
  | S fuel =>
      if ptr <? e then
        found ← env_cmpname m pname ptr;
        if found : bool then Some ptr
        else n ← strlen m ptr; findvar_loop fuel m pname (ptr + (n + 1)) e
      else Some 0
  end.

Definition env_findvar (m : bmem) (group : task_group_s) (pname : Z) : option Z :=
  _ ← assert (negb (pname =? 0));
  findvar_loop (string_fuel m) m pname (tg_envp group) (tg_envp group + tg_envsize group).

Definition env_removevar (m : bmem) (group : task_group_s) (pvar : Z) : option (bmem * task_group_s * Z) :=
  _ ← assert (negb (pvar =? 0));
  let e := tg_envp group + tg_envsize group in
  if (tg_envp group <=? pvar) && (pvar <? e) then
    n ← strlen m pvar;
    let len := n + 1 in
    let src := pvar + len in
    m ← memcpy_loop (Z.to_nat (e - src)) m pvar src;
    Some (m, mk_group (tg_envsize group - len) (tg_envp group), OK)
  else Some (m, group, ERROR).

(** The result is the value and, where it is a null pointer, the error
    number. *)
Definition getenv (m : bmem) (group : task_group_s) (name : Z) : option (Z * Z) :=
  if name =? 0 then Some (0, EINVAL)
  else
    pvar ← env_findvar m group name;
    if pvar =? 0 then Some (0, ENOENT)
    else
      pvalue ← strchr m pvar 61;
      Some (if pvalue =? 0 then (0, EINVAL) else (pvalue + 1, OK)).

Section operations.
Context {H : Type} `{!AllocatorOps H}.

(** The result of an operation: allocator, memory, group, and the value
    returned with the error number. *)
Definition env_result : Type := H * bmem * task_group_s * (Z * Z).

Definition unsetenv (h : H) (m : bmem) (group : task_group_s) (name : Z) : option env_result :=
  _ ← assert (negb (name =? 0));
  pvar ← env_findvar m group name;
  if pvar =? 0 then Some (h, m, group, (OK, OK))
  else
    '(m, group, _) ← env_removevar m group pvar;
    let newsize := tg_envsize group in
    let '(h, m, newenvp) := kumm_realloc h m (tg_envp group) newsize in
    if (newenvp =? 0) && negb (newsize =? 0) then Some (h, m, group, (ERROR, ENOMEM))
    else Some (h, m, mk_group (tg_envsize group) newenvp, (OK, OK)).

(** [sprintf(pvar, "%s=%s", name, value)] *)
Definition sprintf_var (m : bmem) (pvar name value : Z) : option bmem :=
  '(m, p) ← stpcpy m pvar name;
  m ← store_byte m p 61;
  '(m, _) ← strcpy m (p + 1) value;
  Some m.

Definition setenv (h : H) (m : bmem) (group : task_group_s) (name value : Z) (overwrite : bool) : option env_result :=
  if name =? 0 then Some (h, m, group, (ERROR, EINVAL))
  else
    empty ← (if value =? 0 then Some true else c ← load_byte m value; Some (c =? 0));
    if empty : bool then if overwrite then unsetenv h m group name else Some (h, m, group, (OK, OK))
    else
      pvar ← (if tg_envp group =? 0 then Some 0 else env_findvar m group name);
      if negb (pvar =? 0) && negb overwrite then Some (h, m, group, (OK, OK))
      else
        '(m, group) ← (if pvar =? 0 then Some (m, group) else '(m, group, _) ← env_removevar m group pvar; Some (m, group));
        n ← strlen m name;
        k ← strlen m value;
        let varlen := n + k + 2 in
        let newsize := if tg_envp group =? 0 then varlen else tg_envsize group + varlen in
        let '(h, m, newenvp) :=
          if tg_envp group =? 0 then kumm_malloc h m varlen else kumm_realloc h m (tg_envp group) newsize in
        if newenvp =? 0 then Some (h, m, group, (ERROR, ENOMEM))
        else
          let pvar := if tg_envp group =? 0 then newenvp else newenvp + tg_envsize group in
          m ← sprintf_var m pvar name value;
          Some (h, m, mk_group newsize newenvp, (OK, OK)).

Definition putenv (h : H) (m : bmem) (group : task_group_s) (string : Z) : option env_result :=
  if string =? 0 then Some (h, m, group, (ERROR, EINVAL))
  else
    n ← strlen m string;
    let '(h, m, p) := kumm_malloc h m (n + 1) in
    '(m, pname) ← strdup (fun _ => p) m string;
    if pname =? 0 then Some (h, m, group, (ERROR, ENOMEM))
    else
      pequal ← strchr m pname 61;
      '(h, m, group, ret) ←
        (if pequal =? 0 then Some (h, m, group, (OK, OK))
         else m ← store_byte m pequal 0; setenv h m group pname (pequal + 1) true);
      let '(h, m) := kumm_free h m pname in
      Some (h, m, group, ret).

Definition env_release (h : H) (m : bmem) (group : task_group_s) : H * bmem * task_group_s :=
  let '(h, m) := if tg_envp group =? 0 then (h, m) else kumm_free h m (tg_envp group) in
  (h, m, mk_group 0 0).

Definition clearenv (h : H) (m : bmem) (group : task_group_s) : env_result :=
  let '(h, m, group) := env_release h m group in (h, m, group, (OK, OK)).

(** [parent] is the group of the running task, [group] the new one. *)
Definition env_dup (h : H) (m : bmem) (parent group : task_group_s) : option env_result :=
  if tg_envp parent =? 0 then Some (h, m, group, (OK, OK))
  else
    let envlen := tg_envsize parent in
    let '(h, m, envp) := kumm_malloc h m envlen in
    if envp =? 0 then Some (h, m, group, (- ENOMEM, OK))
    else
      '(m, _) ← memcpy m envp (tg_envp parent) envlen;
      Some (h, m, mk_group envlen envp, (OK, OK)).
End operations.
