(* ===== verification/EnvOps.v ===== *)
(** * Environment variables: the block of strings

    The block holds a list of names and values; finding, removing and adding a
    variable do to the list what they should. *)

From stdpp Require Import base tactics numbers list gmap.
From S2P Require Import Prelude Bytes CString CStringProps CStringCopy Env.

(** ** Lists of variables in memory *)

Abbreviation variable := (list Z * list Z)%type.

(** [name=value] with its NUL *)
Definition entry (e : variable) : list Z := e.1 ++ 61 :: e.2 ++ [0].

Definition flat (l : list variable) : list Z := concat (map entry l).

Definition good_name (n : list Z) : Prop := Forall char n /\ 61 ∉ n.

Definition good (l : list variable) : Prop := Forall (fun e => good_name e.1 /\ Forall char e.2) l /\ NoDup l.*1.

Lemma flat_app l1 l2 : flat (l1 ++ l2) = flat l1 ++ flat l2.
Proof. unfold flat. by rewrite map_app, concat_app. Qed.

Lemma flat_cons e l : flat (e :: l) = entry e ++ flat l.
Proof. done. Qed.

Lemma flat_snoc l e : flat (l ++ [e]) = flat l ++ entry e.
Proof. rewrite flat_app, flat_cons. change (flat []) with (@nil Z). by rewrite app_nil_r. Qed.

Lemma length_flat l : (length l <= length (flat l))%nat.
Proof. induction l as [|e l IH]; [done|]. rewrite flat_cons, length_app. unfold entry. rewrite length_app. simpl. lia. Qed.

Lemma entry_cstr m a e rest :
  good_name e.1 -> Forall char e.2 -> bytes_at m a (entry e ++ rest) -> cstr m a (e.1 ++ 61 :: e.2) /\ bytes_at m (a + len (entry e)) rest.
Proof.
  intros [Hn _] Hv [He Hr]%bytes_at_app. split; [|done]. split.
  - unfold entry in He. by rewrite <- (assoc_L (++)).
  - apply Forall_app. split; [done|]. constructor; [unfold char; lia|done].
Qed.

Lemma len_entry e : len (entry e) = len e.1 + len e.2 + 2.
Proof. unfold entry. rewrite length_app. simpl. rewrite length_app. simpl. lia. Qed.

(** ** Finding a variable *)

Lemma env_cmpname_spec m pn nm pe n v :
  cstr m pn nm -> 61 ∉ nm -> cstr m pe (n ++ 61 :: v) -> 61 ∉ n -> env_cmpname m pn pe = Some (bool_decide (nm = n)).
Proof.
  intros Hnm. unfold env_cmpname. pose proof (cstr_fuel _ _ _ Hnm) as Hf. revert Hf. generalize (string_fuel m). intros fuel.
  revert pn nm pe n Hnm. induction fuel as [|fuel IH]; intros pn nm pe n Hnm Hf Heq Hn Hneq; [lia|]. cbn [env_cmpname_loop].
  destruct nm as [|a nm], n as [|b n]; simpl in Hn.
  - apply cstr_nil in Hnm. apply cstr_cons in Hn as (Hb & _). load_at Hnm. load_at Hb. done.
  - apply cstr_nil in Hnm. apply cstr_cons in Hn as (Hb & Hc & _). load_at Hnm. load_at Hb. unfold char in Hc.
    rewrite (proj2 (Z.eqb_neq 0 b)) by lia. rewrite (proj2 (Z.eqb_neq b 61)) by set_solver. done.
  - apply cstr_cons in Hnm as (Ha & Hc & _). apply cstr_cons in Hn as (Hb & _). load_at Ha. load_at Hb. unfold char in Hc.
    rewrite (proj2 (Z.eqb_neq a 61)) by set_solver. rewrite (proj2 (Z.eqb_neq a 0)) by lia. done.
  - apply cstr_cons in Hnm as (Ha & Hc & Hnm). apply cstr_cons in Hn as (Hb & Hd & Hn). load_at Ha. load_at Hb. unfold char in *.
    destruct (Z.eqb_spec a b) as [-> | Hne].
    + simpl in Hf. rewrite (IH _ nm _ n) by (done || lia || set_solver). f_equal. apply bool_decide_ext. split; congruence.
    + rewrite (proj2 (Z.eqb_neq a 0)) by lia. rewrite bool_decide_eq_false_2 by congruence. done.
Qed.

(** Where [env_findvar] finds a name. *)
Definition found_at (l : list variable) (nm : list Z) (base r : Z) : Prop :=
  r = 0 /\ nm ∉ l.*1 \/ exists l1 v l2, l = l1 ++ (nm, v) :: l2 /\ r = base + len (flat l1).

Lemma findvar_loop_spec fuel m pn nm ptr l rest e :
  cstr m pn nm -> 61 ∉ nm -> Forall (fun e => good_name e.1 /\ Forall char e.2) l -> bytes_at m ptr (flat l ++ rest) ->
  e = ptr + len (flat l) -> (length l < fuel)%nat ->
  exists r, findvar_loop fuel m pn ptr e = Some r /\ found_at l nm ptr r.
Proof.
  intros Hnm Heq Hl. revert fuel ptr. induction Hl as [|[n v] l [Hn Hv] Hl IH]; intros fuel ptr Hb He Hf;
    (destruct fuel as [|fuel]; [lia|]); cbn [findvar_loop].
  - change (len (flat [])) with 0 in He. rewrite (proj2 (Z.ltb_ge ptr e)) by lia. exists 0. split; [done|]. left. split; [done|]. simpl. set_solver.
  - rewrite flat_cons, <- (assoc_L (++)) in Hb. rewrite flat_cons, length_app in He. destruct (entry_cstr m ptr (n, v) _ Hn Hv Hb) as [Hc Hb'].
    pose proof (len_entry (n, v)) as Hle. simpl in Hle, Hn, Hc.
    rewrite (proj2 (Z.ltb_lt ptr e)) by lia.
    rewrite (env_cmpname_spec m pn nm ptr n v Hnm Heq Hc) by apply Hn. cbn [mbind option_bind]. case_bool_decide as Hd.
    + subst n. exists ptr. split; [done|]. right. exists [], v, l. split; [done|]. simpl. lia.
    + rewrite (strlen_spec _ _ _ Hc). cbn [mbind option_bind].
      replace (ptr + (len (n ++ 61 :: v) + 1)) with (ptr + len (entry (n, v))) by (rewrite length_app; simpl; lia).
      simpl in Hf. destruct (IH fuel (ptr + len (entry (n, v))) Hb') as (r & Hr & Hfound); [lia|lia|].
      exists r. split; [done|]. destruct Hfound as [[-> Hni] | (l1 & v1 & l2 & -> & ->)].
      * left. split; [done|]. simpl. set_solver.
      * right. exists ((n, v) :: l1), v1, l2. split; [done|]. rewrite flat_cons, length_app. lia.
Qed.

(** ** Removing a variable *)

Lemma removevar_spec m group l1 e l2 rest :
  Forall (fun e => good_name e.1 /\ Forall char e.2) (l1 ++ e :: l2) -> 0 < tg_envp group ->
  bytes_at m (tg_envp group) (flat (l1 ++ e :: l2) ++ rest) -> tg_envsize group = len (flat (l1 ++ e :: l2)) ->
  exists m' rest', env_removevar m group (tg_envp group + len (flat l1)) =
      Some (m', mk_group (len (flat (l1 ++ l2))) (tg_envp group), OK) /\
    bytes_at m' (tg_envp group) (flat (l1 ++ l2) ++ rest') /\
    length (flat (l1 ++ l2) ++ rest') = length (flat (l1 ++ e :: l2) ++ rest) /\
    same_outside (tg_envp group) (tg_envp group + len (flat (l1 ++ e :: l2) ++ rest)) m m'.
Proof.
  intros [_ [[Hn Hv] _]%Forall_cons]%Forall_app Hp Hb Hs. set (p := tg_envp group) in *. unfold env_removevar. fold p.
  rewrite flat_app, flat_cons in *. rewrite <- !(assoc_L (++)) in Hb. rewrite !length_app in *. pose proof (len_entry e) as Hle.
  rewrite (proj2 (Z.eqb_neq _ 0)) by lia. simpl. rewrite (proj2 (Z.leb_le _ _)), (proj2 (Z.ltb_lt _ _)) by lia. cbn [andb].
  apply bytes_at_app in Hb as [H1 Hb]. destruct (entry_cstr _ _ _ _ Hn Hv Hb) as [Hc H2]. rewrite (strlen_spec _ _ _ Hc). cbn [mbind option_bind].
  assert (len (e.1 ++ 61 :: e.2) + 1 = len (entry e)) as -> by (rewrite length_app; simpl; lia).
  replace (Z.to_nat (p + tg_envsize group - (p + len (flat l1) + len (entry e)))) with (length (flat l2)) by lia.
  rewrite (assoc_L (++)) in Hb. set (X := entry e ++ flat l2) in *.
  assert (length X = length (entry e) + length (flat l2))%nat as HX by apply length_app.
  rewrite <- (take_drop (length (flat l2)) X) in Hb. rewrite <- (assoc_L (++)) in Hb. apply bytes_at_app in Hb as [Hold Hend].
  apply bytes_at_app in H2 as [H2 _].
  assert (length (take (length (flat l2)) X) = length (flat l2)) as Ht by (rewrite length_take; lia).
  destruct (memcpy_loop_spec m (p + len (flat l1)) (p + len (flat l1) + len (entry e)) (flat l2) _ H2 Hold Ht) as (m' & -> & Hm & Ho); [lia|].
  cbn [mbind option_bind]. exists m', (drop (length (flat l2)) X ++ rest). rewrite Ht in Hend. split_and!.
  - do 3 f_equal. f_equal. lia.
  - rewrite <- (assoc_L (++)). apply bytes_at_app. split; [|apply bytes_at_app; split; [done|]].
    + apply (bytes_at_outside _ _ _ _ _ _ H1 Ho). lia.
    + apply (bytes_at_outside _ _ _ _ _ _ Hend Ho). lia.
  - rewrite ?(flat_app l1 (e :: l2)), ?flat_cons, !length_app, length_drop. lia.
  - rewrite ?(flat_app l1 (e :: l2)), ?flat_cons, ?length_app. apply (same_outside_weaken _ _ _ _ _ _ Ho); lia.
Qed.

(** * Environment variables: the operations

    [env_inv] ties the block of a task group to a list of variables.  Each
    operation returns, keeps it, changes the list as it should, and leaves the
    rest of memory and the other blocks of the allocator alone. *)

(** ** Memory around the block *)

(** [c] is outside the [k] bytes at [p]. *)
Definition outside (p k c : Z) : Prop := c < p \/ p + k <= c.

(** Memory outside the block at [p] is still there, and outside the block at
    [p']. *)
Definition kept (m : bmem) (p k : Z) (m' : bmem) (p' k' : Z) : Prop :=
  forall c b, m !! c = Some b -> outside p k c -> m' !! c = Some b /\ outside p' k' c.

(** A string of the caller. *)
Definition arg (m : bmem) (p k a : Z) (s : list Z) : Prop :=
  0 < a /\ cstr m a s /\ forall c, a <= c <= a + len s -> outside p k c.

Lemma kept_refl m p k : kept m p k m p k.
Proof. by intros c b. Qed.

Lemma kept_trans m p k m1 p1 k1 m2 p2 k2 : kept m p k m1 p1 k1 -> kept m1 p1 k1 m2 p2 k2 -> kept m p k m2 p2 k2.
Proof. intros H1 H2 c b Hc Ho. destruct (H1 c b Hc Ho) as [Hc1 Ho1]. by apply H2. Qed.

Lemma kept_same m p k m' : same_outside p (p + k) m m' -> kept m p k m' p k.
Proof. intros Hs c b Hc Ho. split; [|done]. rewrite Hs by (unfold outside in Ho; lia). done. Qed.

(** Dropping the block. *)
Lemma kept_drop m p k p' : kept m p k (without_block m p k) p' 0.
Proof.
  intros c b Hc Ho. split; [|unfold outside; lia]. apply map_lookup_filter_Some. done.
Qed.

Lemma kept_fresh m p k m' q n : fresh_block (without_block m p k) m' q n -> kept m p k m' q n.
Proof.
  intros (_ & _ & Hf) c b Hc Ho. apply Hf. apply map_lookup_filter_Some. done.
Qed.

Lemma kept_new m m' p q n : fresh_block m m' q n -> kept m p 0 m' q n.
Proof. intros (_ & _ & Hf) c b Hc _. by apply Hf. Qed.

Lemma bytes_at_mapped m a bs c : bytes_at m a bs -> a <= c < a + len bs -> exists b, m !! c = Some b.
Proof.
  intros Hb Hc. destruct (lookup_lt_is_Some_2 bs (Z.to_nat (c - a))) as [b Hi]; [lia|].
  exists b. rewrite <- (bytes_at_lookup _ _ _ _ _ Hb Hi). f_equal. lia.
Qed.

Lemma kept_bytes m p k m' p' k' a bs :
  kept m p k m' p' k' -> bytes_at m a bs -> (forall c, a <= c < a + len bs -> outside p k c) ->
  bytes_at m' a bs /\ forall c, a <= c < a + len bs -> outside p' k' c.
Proof.
  intros Hk Hb Ho. split.
  - apply (bytes_at_frame m); [done|]. intros c Hc. destruct (bytes_at_mapped m a bs c Hb Hc) as [b Hm].
    rewrite Hm. by apply (Hk c b Hm), Ho.
  - intros c Hc. destruct (bytes_at_mapped m a bs c Hb Hc) as [b Hm]. by apply (Hk c b Hm), Ho.
Qed.

Lemma kept_arg m p k m' p' k' a s : kept m p k m' p' k' -> arg m p k a s -> arg m' p' k' a s.
Proof.
  intros Hk (Ha & [Hb Hc] & Ho). destruct (kept_bytes _ _ _ _ _ _ a (s ++ [0]) Hk Hb) as [Hb' Ho'].
  { intros c Hlt. apply Ho. rewrite length_app in Hlt. simpl in Hlt. lia. }
  split_and!; [done|done|]. intros c Hlt. apply Ho'. rewrite length_app. simpl. lia.
Qed.

(** Two stretches of memory without a common address do not overlap. *)
Lemma outside_disjoint a n p k : 0 < n -> 0 < k -> (forall c, a <= c < a + n -> outside p k c) -> a + n <= p \/ p + k <= a.
Proof.
  intros Hn Hk Ho. unfold outside in Ho. pose proof (Ho a). pose proof (Ho (a + n - 1)). pose proof (Ho p). lia.
Qed.

(** ** The list of variables *)

Definition remove_var (nm : list Z) (l : list variable) : list variable := filter (fun e => e.1 <> nm) l.

Definition set_var (nm v : list Z) (l : list variable) : list variable := remove_var nm l ++ [(nm, v)].

Lemma remove_absent nm l : nm ∉ l.*1 -> remove_var nm l = l.
Proof.
  unfold remove_var. induction l as [|e l IH]; intros Hn; [done|]. rewrite fmap_cons, not_elem_of_cons in Hn. destruct Hn as [Hne Hn].
  rewrite filter_cons_True by congruence. f_equal. by apply IH.
Qed.

Lemma remove_middle nm v l1 l2 : NoDup (l1 ++ (nm, v) :: l2).*1 -> remove_var nm (l1 ++ (nm, v) :: l2) = l1 ++ l2.
Proof.
  rewrite fmap_app, fmap_cons. simpl. intros (_ & Hd & (Hn & _)%NoDup_cons)%NoDup_app.
  unfold remove_var. rewrite filter_app, filter_cons_False by (simpl; tauto).
  fold (remove_var nm l1) (remove_var nm l2). rewrite !remove_absent; [done|done|]. intros H1. apply (Hd nm H1). by left.
Qed.

Lemma good_remove nm l : good l -> good (remove_var nm l).
Proof.
  intros [Hg Hd]. split.
  { rewrite Forall_forall in Hg |- *. intros e [_ He]%list_elem_of_filter. by apply Hg. } unfold remove_var. clear Hg. induction l as [|e l IH]; [done|].
  rewrite fmap_cons in Hd. apply NoDup_cons in Hd as [Hn Hd]. destruct (decide (e.1 <> nm)).
  - rewrite filter_cons_True by done. rewrite fmap_cons. constructor; [|by apply IH]. intros Hin. apply Hn.
    apply list_elem_of_fmap in Hin as (x & -> & Hx). apply list_elem_of_filter in Hx as [_ Hx]. by apply list_elem_of_fmap_2.
  - rewrite filter_cons_False by done. by apply IH.
Qed.

Lemma removed_name nm l : nm ∉ (remove_var nm l).*1.
Proof. intros (x & -> & [Hne _]%list_elem_of_filter)%list_elem_of_fmap. done. Qed.

Lemma good_set nm v l : good l -> good_name nm -> Forall char v -> good (set_var nm v l).
Proof.
  intros Hg Hn Hv. destruct (good_remove nm l Hg) as [Hg' Hd]. split.
  - apply Forall_app. split; [done|]. by rewrite Forall_singleton.
  - unfold set_var. rewrite fmap_app. apply NoDup_app. split_and!; [done| |apply NoDup_singleton].
    intros x Hx Hs. simpl in Hs. rewrite list_elem_of_singleton in Hs. subst x. by apply removed_name in Hx.
Qed.

(** ** The invariant *)

Section ops.
Context {H : Type} `{!AllocatorOps H} `{!Allocator H}.

(** The group has the variables [l] in a block of [k] bytes. *)
Definition env_inv (h : H) (m : bmem) (g : task_group_s) (l : list variable) (k : Z) : Prop :=
  good l /\
  (tg_envp g = 0 /\ tg_envsize g = 0 /\ l = [] /\ k = 0 \/
   0 < tg_envp g /\ 0 < k /\ owns h (tg_envp g) k /\ tg_envsize g = len (flat l) /\
   exists rest, bytes_at m (tg_envp g) (flat l ++ rest) /\ len (flat l ++ rest) = k).

(** Everything else an operation leaves alone: memory outside the block, and
    the other blocks of the allocator. *)
Definition apart_kept (h : H) (m : bmem) (g : task_group_s) (k : Z) (h' : H) (m' : bmem) (g' : task_group_s) (k' : Z) : Prop :=
  kept m (tg_envp g) k m' (tg_envp g') k' /\ (forall r j, 0 < r -> r <> tg_envp g -> owns h r j -> r <> tg_envp g' /\ owns h' r j).

Lemma apart_kept_refl h m g k : apart_kept h m g k h m g k.
Proof. split; [apply kept_refl|done]. Qed.

Lemma env_findvar_spec h m g l k a nm :
  env_inv h m g l k -> arg m (tg_envp g) k a nm -> 61 ∉ nm ->
  exists r, env_findvar m g a = Some r /\ found_at l nm (tg_envp g) r.
Proof.
  intros [[Hg _] Hi] (Ha & Hn & _) Heq. unfold env_findvar. rewrite (proj2 (Z.eqb_neq a 0)) by lia. cbn [negb assert mbind option_bind].
  destruct Hi as [(-> & -> & -> & _) | (Hp & _ & _ & -> & rest & Hb & _)].
  - exists 0. split; [done|]. left. split; [done|]. simpl. set_solver.
  - apply (findvar_loop_spec _ m a nm _ l rest); [done|done|done|done|done|].
    apply bytes_at_size in Hb. rewrite length_app in Hb. pose proof (length_flat l). unfold string_fuel. lia.
Qed.

(** Removing a variable that has been found; the block stays as large as it
    is. *)
Lemma env_remove_spec h m g l k l1 nm v l2 :
  env_inv h m g l k -> l = l1 ++ (nm, v) :: l2 ->
  exists m' g', env_removevar m g (tg_envp g + len (flat l1)) = Some (m', g', OK) /\ tg_envp g' = tg_envp g /\ 0 < tg_envp g /\
    env_inv h m' g' (remove_var nm l) k /\ kept m (tg_envp g) k m' (tg_envp g') k.
Proof.
  intros [Hg Hi] ->. destruct Hi as [(_ & _ & E & _) | (Hp & Hkp & Hown & Hs & rest & Hb & Hk)]; [by destruct l1|].
  destruct (removevar_spec m g l1 (nm, v) l2 rest) as (m' & rest' & -> & Hb' & Hl & Ho); [apply Hg|done|done|done|].
  exists m', (mk_group (len (flat (l1 ++ l2))) (tg_envp g)). split_and!; [done|done|done| |].
  - split; [by apply good_remove|]. rewrite remove_middle by apply Hg. right. simpl. split_and!; [done|done|done|done|]. exists rest'. split; [done|lia].
  - simpl. apply kept_same. by rewrite <- Hk.
Qed.

Lemma unsetenv_spec h m g l k a nm :
  env_inv h m g l k -> arg m (tg_envp g) k a nm -> 61 ∉ nm ->
  exists h' m' g' k' ret, unsetenv h m g a = Some (h', m', g', ret) /\ env_inv h' m' g' (remove_var nm l) k' /\
    apart_kept h m g k h' m' g' k' /\ (ret = (OK, OK) \/ ret = (ERROR, ENOMEM) /\ nm ∈ l.*1).
Proof.
  intros Hi Harg Heq. unfold unsetenv. pose proof Harg as (Ha & _). rewrite (proj2 (Z.eqb_neq a 0)) by lia. cbn [negb assert mbind option_bind].
  destruct (env_findvar_spec h m g l k a nm Hi Harg Heq) as (r & -> & [[-> Hn] | (l1 & v & l2 & El & ->)]); cbn [mbind option_bind].
  - simpl. exists h, m, g, k, (OK, OK). rewrite remove_absent by done. split_and!; auto using apart_kept_refl.
  - destruct (env_remove_spec h m g l k l1 nm v l2 Hi El) as (m1 & g1 & -> & Ep & Hp & Hi1 & Hk1). cbn [mbind option_bind].
    assert (nm ∈ l.*1) as Hin by (subst l; rewrite fmap_app; set_solver).
    rewrite (proj2 (Z.eqb_neq (tg_envp g + len (flat l1)) 0)) by lia. rewrite Ep in *.
    destruct Hi1 as [Hg1 [(E & _) | (_ & Hkp & Hown & Hs & rest & Hb & Hlen)]]; [lia|].
    destruct (kumm_realloc h m1 (tg_envp g) (tg_envsize g1)) as [[h' m'] q] eqn:Er. set (l' := remove_var nm l) in *. rewrite Ep in *.
    destruct (decide (tg_envsize g1 = 0)) as [E0 | Hne].
    + rewrite E0 in Er. destruct (realloc_zero_law _ _ _ _ _ _ _ _ Hown Hb Hlen Er) as (-> & -> & Hoth).
      rewrite E0. simpl. exists h', (without_block m1 (tg_envp g) k), (mk_group 0 0), 0, (OK, OK). split_and!; [done| | |by left].
      * split; [done|]. left. split_and!; [done|done| |done]. rewrite E0 in Hs. destruct l' as [|e l']; [done|].
        rewrite flat_cons, length_app in Hs. pose proof (len_entry e). lia.
      * split; [|intros r j Hr Hne Ho; split; [simpl; lia|by apply Hoth]]. eapply kept_trans; [exact Hk1|]. apply kept_drop.
    + assert (0 < tg_envsize g1) as Hpos by lia.
      destruct (realloc_law _ _ _ _ _ _ _ _ _ Hown Hb Hlen Hpos Er) as [(-> & -> & ->) | (Hown' & Hf & Hb' & Hoth)].
      * rewrite (proj2 (Z.eqb_neq (tg_envsize g1) 0)) by done. simpl.
        exists h, m1, g1, k, (ERROR, ENOMEM). split_and!; [done| |split; [by rewrite Ep|by rewrite Ep]|by right].
        split; [done|]. right. rewrite Ep. eauto 10.
      * pose proof Hf as (Hq & _). rewrite (proj2 (Z.eqb_neq q 0)) by lia. simpl.
        exists h', m', (mk_group (tg_envsize g1) q), (tg_envsize g1), (OK, OK). split_and!; [done| | |by left].
        -- split; [done|]. right. simpl. split_and!; [done|done|done|done|]. exists []. rewrite app_nil_r. split; [|done].
           rewrite length_app in Hlen. replace (Z.to_nat (Z.min k (tg_envsize g1))) with (length (flat l')) in Hb' by lia.
           by rewrite take_app_length in Hb'.
        -- split; [|intros r j _; apply Hoth]. eapply kept_trans; [exact Hk1|]. by apply kept_fresh.
Qed.

(** The value of a variable, behind its name in the block. *)
Lemma getenv_spec h m g l k a nm :
  env_inv h m g l k -> arg m (tg_envp g) k a nm -> 61 ∉ nm ->
  (exists v p, (nm, v) ∈ l /\ getenv m g a = Some (p, OK) /\ cstr m p v /\ tg_envp g < p < tg_envp g + k) \/
  (nm ∉ l.*1) /\ getenv m g a = Some (0, ENOENT).
Proof.
  intros Hi Harg Heq. unfold getenv. pose proof Harg as (Ha & _). rewrite (proj2 (Z.eqb_neq a 0)) by lia.
  destruct (env_findvar_spec h m g l k a nm Hi Harg Heq) as (r & -> & [[-> Hn] | (l1 & v & l2 & El & ->)]); cbn [mbind option_bind].
  - by right.
  - left. destruct Hi as [[Hg _] [(_ & _ & -> & _) | (Hp & _ & _ & _ & rest & Hb & Hk)]]; [by destruct l1|].
    rewrite (proj2 (Z.eqb_neq (tg_envp g + len (flat l1)) 0)) by lia.
    subst l. apply Forall_app in Hg as [_ [[Hn Hv] _]%Forall_cons].
    rewrite flat_app, flat_cons, <- !(assoc_L (++)) in Hb. apply bytes_at_app in Hb as [_ Hb].
    destruct (entry_cstr m _ (nm, v) _ Hn Hv Hb) as [Hc _]. simpl in Hc.
    destruct (strchr_spec m _ _ 61 Hc) as (Hq & _); [lia|]. rewrite (Hq nm v) by done. cbn [mbind option_bind].
    rewrite (proj2 (Z.eqb_neq (tg_envp g + len (flat l1) + len nm) 0)) by lia.
    exists v, (tg_envp g + len (flat l1) + len nm + 1). split_and!; [set_solver|done| |lia|].
    + by apply cstr_app in Hc as (_ & _ & (_ & _ & Hc)%cstr_cons).
    + rewrite <- Hk, flat_app, flat_cons, !length_app. pose proof (len_entry (nm, v)) as Hle. simpl in Hle. lia.
Qed.

(** [sprintf] fills room of the right size with the new string. *)
Lemma sprintf_var_spec m p a nm b v room :
  cstr m a nm -> cstr m b v -> bytes_at m p room -> len room = len (entry (nm, v)) ->
  disjoint p (len room) a (len nm + 1) -> disjoint p (len room) b (len v + 1) ->
  exists m', sprintf_var m p a b = Some m' /\ bytes_at m' p (entry (nm, v)) /\ same_outside p (p + len room) m m'.
Proof.
  unfold disjoint. intros Ha Hb Hr Hl Hda Hdb. pose proof (len_entry (nm, v)) as Hle. simpl in Hle.
  rewrite <- (take_drop (S (length nm)) room) in Hr. apply bytes_at_app in Hr as [Hr1 Hr2].
  assert (length (take (S (length nm)) room) = S (length nm)) as Ht by (rewrite length_take; lia).
  assert (length (drop (S (length nm)) room) = S (length v)) as Hd by (rewrite length_drop; lia). rewrite Ht in Hr2.
  unfold sprintf_var, stpcpy, strcpy.
  destruct (copy_string_spec (string_fuel m) m p a nm _ Ha Hr1 Ht) as (m1 & -> & [Hm1 Hcn] & Ho1); [unfold disjoint; lia|by eapply cstr_fuel|].
  cbn [mbind option_bind]. apply bytes_at_app in Hm1 as [Hm1 [Hz _]].
  replace (p + len nm + 1 - 1) with (p + len nm) by lia. rewrite (store_byte_at _ _ _ 0 Hz). cbn [mbind option_bind].
  set (m2 := <[p + len nm := 61]> m1). assert (same_outside p (p + len nm + 1) m m2) as Ho2.
  { apply (same_outside_trans _ _ _ m1); [done|]. apply same_outside_store. lia. }
  assert (cstr m2 b v) as Hb2 by (apply (cstr_outside _ _ _ _ _ _ Hb Ho2); lia).
  assert (bytes_at m2 (p + len nm + 1) (drop (S (length nm)) room)) as Hr3.
  { apply (bytes_at_outside m _ p (p + len nm + 1)); [|done|lia]. by replace (p + len nm + 1) with (p + Z.of_nat (S (length nm))) by lia. }
  destruct (copy_string_spec (string_fuel m2) m2 (p + len nm + 1) b v _ Hb2 Hr3 Hd) as (m3 & -> & [Hm3 _] & Ho3);
    [unfold disjoint; lia|by eapply cstr_fuel|].
  cbn [mbind option_bind]. exists m3. split_and!; [done| |].
  - unfold entry. cbn [fst snd]. apply bytes_at_app. split; [|split].
    + apply (bytes_at_outside m2 _ _ _ _ _) with (2 := Ho3); [|lia]. apply (bytes_at_frame m1); [done|].
      intros c Hc. unfold m2. by rewrite lookup_insert_ne by lia.
    + simpl. rewrite Ho3 by lia. unfold m2. apply lookup_insert_eq.
    + done.
  - apply (same_outside_trans _ _ _ m2); eapply same_outside_weaken; try done; lia.
Qed.

(** ** Adding a variable *)

(** Room for [n] more bytes behind the variables. *)
Lemma env_room h m g l k n :
  env_inv h m g l k -> 0 < n ->
  exists h' m' q,
    (if tg_envp g =? 0 then kumm_malloc h m n
     else kumm_realloc h m (tg_envp g) (if tg_envp g =? 0 then n else tg_envsize g + n)) = (h', m', q) /\
    (q = 0 /\ h' = h /\ m' = m \/
     0 < q /\ owns h' q (len (flat l) + n) /\ (exists room, len room = n /\ bytes_at m' q (flat l ++ room)) /\
     kept m (tg_envp g) k m' q (len (flat l) + n) /\ (forall r j, r <> tg_envp g -> owns h r j -> r <> q /\ owns h' r j)).
Proof.
  intros [Hg Hi] Hn. destruct Hi as [(-> & _ & -> & ->) | (Hp & Hkp & Hown & -> & rest & Hb & Hk)].
  - simpl. destruct (kumm_malloc h m n) as [[h' m'] q] eqn:Em. exists h', m', q. split; [done|].
    destruct (malloc_law _ _ _ _ _ _ Hn Em) as [? | (Hown & Hf & Hoth)]; [by left|]. right.
    pose proof Hf as (Hq & (bs & Hl & Hb) & _). change (len (flat [])) with 0. rewrite Z.add_0_l.
    split_and!; [done|done|by exists bs|by apply kept_new|]. intros r j _. apply Hoth.
  - rewrite (proj2 (Z.eqb_neq _ 0)) by lia. rewrite length_app in Hk.
    destruct (kumm_realloc h m (tg_envp g) (len (flat l) + n)) as [[h' m'] q] eqn:Er. exists h', m', q. split; [done|].
    assert (len (flat l ++ rest) = k) as Hk' by (rewrite length_app; lia). assert (0 < len (flat l) + n) as Hpos by lia.
    destruct (realloc_law _ _ _ _ _ _ _ _ _ Hown Hb Hk' Hpos Er) as [? | (Hown' & Hf & Hb' & Hoth)]; [by left|]. right.
    pose proof Hf as (Hq & (bs & Hl & Hbs) & _). split_and!; [done|done| |by apply kept_fresh|done].
    exists (drop (length (flat l)) bs). rewrite length_drop. split; [lia|]. rewrite <- (take_drop (length (flat l)) bs) in Hbs.
    apply bytes_at_app in Hbs as [_ Hbs]. rewrite length_take_le in Hbs by lia. apply bytes_at_app. split; [|done].
    rewrite take_app_ge in Hb' by lia. by apply bytes_at_app in Hb' as [? _].
Qed.

(** The second half of [setenv], on an environment without the name. *)
Lemma setenv_append h m g l k a nm b v :
  env_inv h m g l k -> arg m (tg_envp g) k a nm -> arg m (tg_envp g) k b v -> 61 ∉ nm -> nm ∉ l.*1 ->
  let varlen := len nm + len v + 2 in
  let newsize := if tg_envp g =? 0 then varlen else tg_envsize g + varlen in
  exists h' m' g' k' ret,
    (let '(h, m, newenvp) := if tg_envp g =? 0 then kumm_malloc h m varlen else kumm_realloc h m (tg_envp g) newsize in
     if newenvp =? 0 then Some (h, m, g, (ERROR, ENOMEM))
     else
       let pvar := if tg_envp g =? 0 then newenvp else newenvp + tg_envsize g in
       m ← sprintf_var m pvar a b;
       Some (h, m, mk_group newsize newenvp, (OK, OK))) = Some (h', m', g', ret) /\
    apart_kept h m g k h' m' g' k' /\
    (ret = (OK, OK) /\ env_inv h' m' g' (l ++ [(nm, v)]) k' \/ ret = (ERROR, ENOMEM) /\ env_inv h' m' g' l k').
Proof.
  intros Hi Ha Hb Heq Hn varlen newsize. destruct (env_room h m g l k varlen Hi) as (h1 & m1 & q & Eq & Hcase); [lia|].
  unfold newsize at 1. rewrite Eq. destruct Hcase as [(-> & -> & ->) | (Hq & Hown & (room & Hl & Hr) & Hk & Hoth)].
  { simpl. exists h, m, g, k, (ERROR, ENOMEM). split_and!; [done|apply apart_kept_refl|by right]. }
  rewrite (proj2 (Z.eqb_neq q 0)) by lia. cbn zeta.
  assert (newsize = len (flat l) + varlen /\ (if tg_envp g =? 0 then q else q + tg_envsize g) = q + len (flat l)) as [-> ->].
  { unfold newsize. destruct Hi as [_ [(-> & _ & -> & _) | (Hp & _ & _ & -> & _)]]; [done + (simpl; lia)|].
    by rewrite (proj2 (Z.eqb_neq _ 0)) by lia. }
  destruct (kept_arg _ _ _ _ _ _ _ _ Hk Ha) as (_ & Hca & Hoa). destruct (kept_arg _ _ _ _ _ _ _ _ Hk Hb) as (_ & Hcb & Hob).
  apply bytes_at_app in Hr as [Hflat Hr]. pose proof (len_entry (nm, v)) as Hle. simpl in Hle.
  destruct (sprintf_var_spec m1 (q + len (flat l)) a nm b v room Hca Hcb Hr) as (m2 & -> & He & Ho); [lia| | |].
  { destruct (outside_disjoint a (len nm + 1) q (len (flat l) + varlen)); [lia|lia| |unfold disjoint; lia|unfold disjoint; lia].
    intros c Hc. apply Hoa. lia. }
  { destruct (outside_disjoint b (len v + 1) q (len (flat l) + varlen)); [lia|lia| |unfold disjoint; lia|unfold disjoint; lia].
    intros c Hc. apply Hob. lia. }
  cbn [mbind option_bind]. exists h1, m2, (mk_group (len (flat l) + varlen) q), (len (flat l) + varlen), (OK, OK). split_and!; [done| |].
  - split; [|intros r j _; apply Hoth]. cbn [tg_envp]. eapply kept_trans; [exact Hk|]. apply kept_same. apply (same_outside_weaken _ _ _ _ _ _ Ho); lia.
  - left. split; [done|]. split; [|right; simpl; split_and!; [done|lia|done| |]].
    + rewrite <- (remove_absent nm l Hn). apply good_set; [apply Hi|split; [apply Ha|done]|apply Hb].
    + rewrite flat_snoc, length_app. lia.
    + exists []. rewrite app_nil_r, flat_snoc, length_app. split; [|lia]. apply bytes_at_app.
      split; [|done]. apply (bytes_at_outside m1 _ _ _ _ _) with (2 := Ho); [done|lia].
Qed.
End ops.
