(* ===== verification/EnvCalls.v ===== *)
(** * Environment variables: the calls and the map they implement

    The environment of a task group as a finite map from names to values, what
    each call may do to it, and the proof that the operations do that. *)

From stdpp Require Import base tactics numbers list gmap.
From S2P Require Import Prelude Bytes CString CStringProps CStringCopy Env EnvOps.

(** ** The map *)

Abbreviation env_map := (gmap (list Z) (list Z)) (only parsing).

Definition to_map (l : list variable) : env_map := list_to_map l.

Lemma to_map_remove nm l : to_map (remove_var nm l) = delete nm (to_map l).
Proof.
  unfold to_map, remove_var. induction l as [|[n v] l IH]; [symmetry; apply delete_empty|]. destruct (decide (n = nm)) as [-> | Hne].
  - rewrite filter_cons_False by (simpl; tauto). rewrite IH. simpl. by rewrite delete_insert_eq.
  - rewrite filter_cons_True by done. simpl. rewrite IH. by rewrite delete_insert_ne by congruence.
Qed.

Lemma to_map_set nm v l : to_map (set_var nm v l) = <[nm := v]> (to_map l).
Proof.
  unfold to_map, set_var. rewrite list_to_map_app. simpl. fold (to_map (remove_var nm l)). rewrite to_map_remove.
  rewrite <- insert_union_r by apply lookup_delete_eq. by rewrite map_union_empty, insert_delete_eq.
Qed.

Lemma to_map_found l nm v : good l -> (nm, v) ∈ l -> to_map l !! nm = Some v.
Proof. intros [_ Hd]. by apply elem_of_list_to_map_1. Qed.

Lemma to_map_absent l nm : nm ∉ l.*1 -> to_map l !! nm = None.
Proof. apply not_elem_of_list_to_map_1. Qed.

Lemma to_map_name l nm : nm ∈ l.*1 -> is_Some (to_map l !! nm).
Proof. intros Hin. apply not_eq_None_Some. intros Hn. by apply not_elem_of_list_to_map_2 in Hn. Qed.

(** ** What the calls may do

    The results are the value returned and the error number. *)

Inductive unset_step (nm : list Z) (E : env_map) : env_map -> Z * Z -> Prop :=
  | unset_ok : unset_step nm E (delete nm E) (OK, OK)
  | unset_nomem : is_Some (E !! nm) -> unset_step nm E (delete nm E) (ERROR, ENOMEM).

Inductive set_step (nm v : list Z) (overwrite : bool) (E : env_map) : env_map -> Z * Z -> Prop :=
  | set_empty E' ret : v = [] -> overwrite = true -> unset_step nm E E' ret -> set_step nm v overwrite E E' ret
  | set_empty_keep : v = [] -> overwrite = false -> set_step nm v overwrite E E (OK, OK)
  | set_keep : v <> [] -> overwrite = false -> is_Some (E !! nm) -> set_step nm v overwrite E E (OK, OK)
  | set_new : v <> [] -> overwrite = true \/ E !! nm = None -> set_step nm v overwrite E (<[nm := v]> E) (OK, OK)
  | set_nomem : v <> [] -> overwrite = true \/ E !! nm = None -> set_step nm v overwrite E (delete nm E) (ERROR, ENOMEM).

Inductive put_step (s : list Z) (E : env_map) : env_map -> Z * Z -> Prop :=
  | put_nomem : put_step s E E (ERROR, ENOMEM)
  | put_no_value : 61 ∉ s -> put_step s E E (OK, OK)
  | put_set nm v E' ret : s = nm ++ 61 :: v -> 61 ∉ nm -> set_step nm v true E E' ret -> put_step s E E' ret.

Section calls.
Context {H : Type} `{!AllocatorOps H} `{!Allocator H}.

(** The result of an operation refines a step of the map. *)
Definition implements (h : H) (m : bmem) (g : task_group_s) (l : list variable) (k : Z)
    (step : env_map -> env_map -> Z * Z -> Prop) (r : option env_result) : Prop :=
  exists h' m' g' l' k' ret, r = Some (h', m', g', ret) /\ env_inv h' m' g' l' k' /\
    apart_kept h m g k h' m' g' k' /\ step (to_map l) (to_map l') ret.

Lemma unsetenv_implements h m g l k a nm :
  env_inv h m g l k -> arg m (tg_envp g) k a nm -> 61 ∉ nm -> implements h m g l k (unset_step nm) (unsetenv h m g a).
Proof.
  intros Hi Ha Heq. destruct (unsetenv_spec h m g l k a nm Hi Ha Heq) as (h' & m' & g' & k' & ret & -> & Hi' & Hk & Hret).
  exists h', m', g', (remove_var nm l), k', ret. split_and!; [done|done|done|]. rewrite to_map_remove.
  destruct Hret as [-> | [-> Hin]]; [apply unset_ok|by apply unset_nomem, to_map_name].
Qed.

(** [setenv] with a value, once a variable of the name is removed. *)
Lemma setenv_append_implements h m g l k h1 m1 g1 a nm b v overwrite :
  env_inv h1 m1 g1 (remove_var nm l) k -> apart_kept h m g k h1 m1 g1 k ->
  arg m1 (tg_envp g1) k a nm -> arg m1 (tg_envp g1) k b v -> 61 ∉ nm -> v <> [] -> overwrite = true \/ to_map l !! nm = None ->
  implements h m g l k (set_step nm v overwrite)
    (n ← strlen m1 a;
     k ← strlen m1 b;
     let varlen := n + k + 2 in
     let newsize := if tg_envp g1 =? 0 then varlen else tg_envsize g1 + varlen in
     let '(h, m, newenvp) := if tg_envp g1 =? 0 then kumm_malloc h1 m1 varlen else kumm_realloc h1 m1 (tg_envp g1) newsize in
     if newenvp =? 0 then Some (h, m, g1, (ERROR, ENOMEM))
     else
       let pvar := if tg_envp g1 =? 0 then newenvp else newenvp + tg_envsize g1 in
       m ← sprintf_var m pvar a b;
       Some (h, m, mk_group newsize newenvp, (OK, OK))).
Proof.
  intros Hi [Hk Ho] Ha Hb Heq Hv Hw. pose proof Ha as (_ & Hca & _). pose proof Hb as (_ & Hcb & _).
  rewrite (strlen_spec _ _ _ Hca), (strlen_spec _ _ _ Hcb). cbn [mbind option_bind].
  destruct (setenv_append h1 m1 g1 (remove_var nm l) k a nm b v Hi Ha Hb Heq (removed_name nm l))
    as (h2 & m2 & g2 & k2 & ret & E & [Hk2 Ho2] & Hcase). cbn zeta in E |- *. rewrite E.
  assert (apart_kept h m g k h2 m2 g2 k2) as Hap.
  { split; [by eapply kept_trans|]. intros r j Hr Hne Hown. destruct (Ho r j Hr Hne Hown). by apply Ho2. }
  destruct Hcase as [[-> Hi2] | [-> Hi2]].
  - exists h2, m2, g2, (set_var nm v l), k2, (OK, OK). split_and!; [done|done|done|]. rewrite to_map_set. by apply set_new.
  - exists h2, m2, g2, (remove_var nm l), k2, (ERROR, ENOMEM). split_and!; [done|done|done|]. rewrite to_map_remove. by apply set_nomem.
Qed.

Lemma setenv_implements h m g l k a nm b v overwrite :
  env_inv h m g l k -> arg m (tg_envp g) k a nm -> arg m (tg_envp g) k b v -> 61 ∉ nm ->
  implements h m g l k (set_step nm v overwrite) (setenv h m g a b overwrite).
Proof.
  intros Hi Ha Hb Heq. unfold setenv. pose proof Ha as (Hpa & _). pose proof Hb as (Hpb & Hcb & _).
  rewrite (proj2 (Z.eqb_neq a 0)), (proj2 (Z.eqb_neq b 0)) by lia.
  destruct v as [|c v]; [apply cstr_nil in Hcb as Hc|apply cstr_cons in Hcb as (Hc & Hcc & _)]; load_at Hc; cbn [mbind option_bind].
  { simpl. destruct overwrite.
    - destruct (unsetenv_implements h m g l k a nm Hi Ha Heq) as (h' & m' & g' & l' & k' & ret & -> & ? & ? & ?).
      exists h', m', g', l', k', ret. split_and!; [done..|]. by apply set_empty.
    - exists h, m, g, l, k, (OK, OK). split_and!; [done|done|apply apart_kept_refl|]. by apply set_empty_keep. }
  unfold char in Hcc. rewrite (proj2 (Z.eqb_neq c 0)) by lia.
  assert (exists r, (if tg_envp g =? 0 then Some 0 else env_findvar m g a) = Some r /\ found_at l nm (tg_envp g) r) as (r & -> & Hr).
  { destruct (Z.eqb_spec (tg_envp g) 0); [|by eapply env_findvar_spec]. exists 0. split; [done|]. left. split; [done|].
    destruct Hi as [_ [(_ & _ & -> & _) | (? & _)]]; [simpl; set_solver|lia]. }
  cbn [mbind option_bind]. destruct Hr as [[-> Hn] | (l1 & v1 & l2 & El & ->)].
  - cbn [Z.eqb negb andb mbind option_bind]. apply setenv_append_implements; [by rewrite remove_absent|apply apart_kept_refl|done..|].
    right. by apply to_map_absent.
  - destruct (env_remove_spec h m g l k l1 nm v1 l2 Hi El) as (m1 & g1 & E & Ep & Hp & Hi1 & Hk1).
    rewrite (proj2 (Z.eqb_neq (tg_envp g + len (flat l1)) 0)) by lia. cbn [negb andb]. destruct overwrite; cbn [negb].
    + rewrite E. cbn [mbind option_bind].
      apply setenv_append_implements; [done| |by eapply kept_arg|by eapply kept_arg|done|done|by left].
      split; [done|]. rewrite Ep. done.
    + exists h, m, g, l, k, (OK, OK). split_and!; [done|done|apply apart_kept_refl|]. apply set_keep; [done|done|].
      apply to_map_name. subst l. rewrite fmap_app. set_solver.
Qed.

(** The block of the environment does not change if its memory and its owner
    do not. *)
Lemma env_inv_move h m g l k h' m' :
  env_inv h m g l k -> (0 < tg_envp g -> owns h (tg_envp g) k -> owns h' (tg_envp g) k) ->
  (forall c b, tg_envp g <= c < tg_envp g + k -> m !! c = Some b -> m' !! c = Some b) -> env_inv h' m' g l k.
Proof.
  intros [Hg Hi] Ho Hm. split; [done|]. destruct Hi as [? | (Hp & Hkp & Hown & Hs & rest & Hb & Hk)]; [by left|]. right.
  split_and!; auto. exists rest. split; [|done]. apply (bytes_at_frame m); [done|]. intros c Hc. rewrite Hk in Hc.
  destruct (bytes_at_mapped m (tg_envp g) (flat l ++ rest) c) as [b E]; [done|lia|]. rewrite E. by apply Hm.
Qed.

(** The addresses of the block are mapped. *)
Lemma env_inv_mapped h m g l k c : env_inv h m g l k -> tg_envp g <= c < tg_envp g + k -> exists b, m !! c = Some b.
Proof.
  intros [_ [(-> & _ & _ & ->) | (_ & _ & _ & _ & rest & Hb & Hk)]] Hc; [lia|]. eapply bytes_at_mapped; [done|lia].
Qed.

(** An operation [r] that runs while the caller has a temporary block [p]. *)
Lemma with_temporary h m g l k n h1 m1 p m3 step r :
  env_inv h m g l k -> 0 < n -> kumm_malloc h m n = (h1, m1, p) -> p <> 0 ->
  same_outside p (p + n) m1 m3 -> (exists bs, len bs = n /\ bytes_at m3 p bs) ->
  (env_inv h1 m3 g l k -> (forall c, p <= c < p + n -> outside (tg_envp g) k c) -> implements h1 m3 g l k step r) ->
  implements h m g l k step ('(h, m, group, ret) ← r; let '(h, m) := kumm_free h m p in Some (h, m, group, ret)).
Proof.
  intros Hi Hn Em Hp Hs (bs & Hl & Hbs) Hr.
  destruct (malloc_law _ _ _ _ _ _ Hn Em) as [(? & _) | (Hown & (Hp0 & _ & Hf) & Hoth)]; [done|].
  assert (forall c b, m !! c = Some b -> m3 !! c = Some b /\ outside p n c) as Hkeep.
  { intros c b Hc. destruct (Hf c b Hc) as [Hc1 Ho]. split; [|done]. by rewrite Hs by (unfold outside in Ho; lia). }
  assert (env_inv h1 m3 g l k) as Hi1.
  { apply (env_inv_move h m); [done|intros _; apply Hoth|]. intros c b _ Hc. by apply Hkeep. }
  assert (forall c, p <= c < p + n -> outside (tg_envp g) k c) as Hapart.
  { intros c Hc. destruct (decide (tg_envp g <= c < tg_envp g + k)) as [Hin|Hout]; [|unfold outside; lia].
    destruct (env_inv_mapped h m g l k c Hi Hin) as [b E]. apply Hkeep in E as [_ E]. unfold outside in E. lia. }
  destruct (Hr Hi1 Hapart) as (h4 & m4 & g4 & l4 & k4 & ret & -> & Hi4 & [Hk4 Ho4] & Hstep).
  cbn [mbind option_bind]. assert (p <> tg_envp g) as Hne.
  { destruct Hi as [_ [(-> & _) | (_ & _ & Ho & _)]]; [lia|]. by apply Hoth in Ho as [? _]. }
  destruct (Ho4 p n Hp0 Hne Hown) as [Hne4 Hown4]. destruct (kept_bytes _ _ _ _ _ _ p bs Hk4 Hbs) as [Hb4 Hout4]; [by rewrite Hl|].
  destruct (kumm_free h4 m4 p) as [h5 m5] eqn:Ef. destruct (free_law _ _ _ _ _ _ _ Hown4 Hb4 Hl Ef) as [-> Hoth5].
  exists h5, (without_block m4 p n), g4, l4, k4, ret. split_and!; [done| | |done].
  - apply (env_inv_move h4 m4); [done| |].
    + intros _ Ho. apply Hoth5; [|done]. congruence.
    + intros c b Hc E. apply map_lookup_filter_Some. split; [done|].
      destruct (decide (p <= c < p + n)) as [Hin|Hout]; [|lia]. specialize (Hout4 c ltac:(lia)). unfold outside in Hout4. lia.
  - split.
    + intros c b Hc Ho. destruct (Hkeep c b Hc) as [Hc3 Hop]. destruct (Hk4 c b Hc3 Ho) as [Hc4 Ho'].
      split; [|done]. by apply map_lookup_filter_Some.
    + intros r0 j Hr0 Hner Hor. destruct (Hoth r0 j Hor) as [Hrp Hor1]. destruct (Ho4 r0 j Hr0 Hner Hor1) as [Hr4 Hor4].
      split; [done|]. by apply Hoth5.
Qed.

(** The two strings that [putenv] makes of its copy. *)
Lemma putenv_split m p nm v :
  cstr m p (nm ++ 61 :: v) -> 61 ∉ nm ->
  exists m', store_byte m (p + len nm) 0 = Some m' /\ cstr m' p nm /\ cstr m' (p + len nm + 1) v /\
    same_outside p (p + (len (nm ++ 61 :: v) + 1)) m m' /\ bytes_at m' p (nm ++ 0 :: v ++ [0]).
Proof.
  intros [Hb Hc] Heq. rewrite length_app. simpl. apply Forall_app in Hc as [Hcn [_ Hcv]%Forall_cons].
  rewrite <- (assoc_L (++)) in Hb. apply bytes_at_app in Hb as [Hnm [H61 Hv]].
  exists (<[p + len nm := 0]> m). rewrite (store_byte_at _ _ _ 61 H61).
  assert (bytes_at (<[p + len nm := 0]> m) p nm) as Hnm'.
  { apply (bytes_at_frame m); [done|]. intros c Hlt. by rewrite lookup_insert_ne by lia. }
  assert (bytes_at (<[p + len nm := 0]> m) (p + len nm + 1) (v ++ [0])) as Hv'.
  { apply (bytes_at_frame m); [done|]. intros c Hlt. by rewrite lookup_insert_ne by lia. }
  pose proof (lookup_insert_eq m (p + len nm) 0) as Hz. split; [done|]. split; [|split; [done|split]].
  - split; [|done]. apply bytes_at_app. by split; [|split].
  - apply same_outside_store. lia.
  - apply bytes_at_app. by split; [|split].
Qed.

Lemma putenv_implements h m g l k a s :
  env_inv h m g l k -> arg m (tg_envp g) k a s -> implements h m g l k (put_step s) (putenv h m g a).
Proof.
  intros Hi (Hpa & Hs & _). unfold putenv. rewrite (proj2 (Z.eqb_neq a 0)) by lia. rewrite (strlen_spec _ _ _ Hs). cbn [mbind option_bind].
  destruct (kumm_malloc h m (len s + 1)) as [[h1 m1] p] eqn:Em. assert (0 < len s + 1) as Hn by lia.
  unfold strdup. rewrite (proj2 (Z.eqb_neq a 0)) by lia.
  destruct (malloc_law _ _ _ _ _ _ Hn Em) as [(-> & -> & ->) | (_ & (Hp0 & (bs & Hl & Hb) & Hf) & _)].
  { rewrite (strlen_spec _ _ _ Hs). simpl. exists h, m, g, l, k, (ERROR, ENOMEM). split_and!; [done|done|apply apart_kept_refl|apply put_nomem]. }
  assert (cstr m1 a s) as Hs1.
  { destruct Hs as [Hs Hc]. split; [|done]. apply (bytes_at_frame m); [done|]. intros c Hc0.
    destruct (bytes_at_mapped m a _ c Hs Hc0) as [b E]. rewrite E. by apply Hf. }
  rewrite (strlen_spec _ _ _ Hs1). cbn [mbind option_bind]. rewrite (proj2 (Z.eqb_neq p 0)) by lia. unfold strcpy.
  destruct (copy_string_spec (string_fuel m1) m1 p a s bs Hs1 Hb) as (m2 & -> & Hs2 & Ho2); [lia| |by eapply cstr_fuel|].
  { destruct (outside_disjoint a (len s + 1) p (len s + 1)); [lia|lia| |unfold disjoint; lia..]. intros c Hc.
    destruct Hs as [Hs _]. destruct (bytes_at_mapped m a _ c Hs) as [b E]; [rewrite length_app; simpl; lia|]. by apply Hf in E as [_ E]. }
  rewrite <- Z.add_assoc in Ho2.
  cbn [mbind option_bind]. rewrite (proj2 (Z.eqb_neq p 0)) by lia.
  destruct (strchr_spec m2 p s 61 Hs2) as (Hq & Hq0 & _); [lia|]. destruct (decide (61 ∈ s)) as [Hin | Hnin].
  - destruct (split_first 61 s Hin) as (nm & v & -> & Heq). rewrite (Hq nm v) by done. cbn [mbind option_bind].
    rewrite (proj2 (Z.eqb_neq (p + len nm) 0)) by lia.
    destruct (putenv_split m2 p nm v Hs2 Heq) as (m3 & -> & Hnm3 & Hv3 & Ho3 & Hb3). cbn [mbind option_bind].
    assert (len (nm ++ 61 :: v) = len nm + len v + 1) as HL by (rewrite length_app; simpl; lia).
    eapply (with_temporary h m g l k _ h1 m1 p m3); [done|exact Hn|done|lia|by apply (same_outside_trans _ _ _ m2)| |].
    + eexists. split; [|exact Hb3]. rewrite length_app. simpl. rewrite length_app. simpl. lia.
    + intros Hi3 Hout.
      destruct (setenv_implements h1 m3 g l k p nm (p + len nm + 1) v true Hi3) as (h4 & m4 & g4 & l4 & k4 & ret & E & ? & ? & ?);
        [split_and!; [lia|done|]; intros c Hc; apply Hout; lia..|done|].
      exists h4, m4, g4, l4, k4, ret. split_and!; [done..|]. by eapply put_set.
  - rewrite Hq0 by done. simpl.
    eapply (with_temporary h m g l k _ h1 m1 p m2 _ (Some (h1, m2, g, (OK, OK)))); [done|exact Hn|done|lia|done| |].
    + destruct Hs2 as [Hs2 _]. eexists; split; [|exact Hs2]. rewrite length_app. simpl. lia.
    + intros Hi3 _. exists h1, m2, g, l, k, (OK, OK). split_and!; [done|done|apply apart_kept_refl|]. by apply put_no_value.
Qed.

(** ** The whole environment *)

Lemma clearenv_spec h m g l k :
  env_inv h m g l k -> exists h' m', clearenv h m g = (h', m', mk_group 0 0, (OK, OK)) /\ env_inv h' m' (mk_group 0 0) [] 0 /\
    apart_kept h m g k h' m' (mk_group 0 0) 0.
Proof.
  intros [Hg Hi]. unfold clearenv, env_release.
  assert (forall h m, env_inv h m (mk_group 0 0) [] 0) as Hnil.
  { intros h0 m0. split; [split; [done|apply NoDup_nil_2]|by left]. }
  destruct Hi as [(E & _ & _ & ->) | (Hp & Hkp & Hown & Hs & rest & Hb & Hk)].
  - rewrite E. exists h, m. split_and!; [done|apply Hnil|]. split; [by rewrite E|]. rewrite E. done.
  - rewrite (proj2 (Z.eqb_neq _ 0)) by lia. destruct (kumm_free h m (tg_envp g)) as [h' m'] eqn:Ef.
    destruct (free_law _ _ _ _ _ _ _ Hown Hb Hk Ef) as [-> Hoth]. exists h', (without_block m (tg_envp g) k).
    split_and!; [done|apply Hnil|]. split; [apply kept_drop|]. intros r j Hr Hne Ho. split; [simpl; lia|by apply Hoth].
Qed.

(** A child gets a copy of its own; the parent keeps its environment. *)
Lemma env_dup_spec h m parent g l k :
  env_inv h m parent l k -> l <> [] -> tg_envp g = 0 -> tg_envsize g = 0 ->
  (exists h' m', env_dup h m parent g = Some (h', m', g, (- ENOMEM, OK)) /\ env_inv h' m' parent l k) \/
  exists h' m' g', env_dup h m parent g = Some (h', m', g', (OK, OK)) /\ env_inv h' m' g' l (tg_envsize g') /\ env_inv h' m' parent l k /\
    tg_envp g' <> tg_envp parent /\ forall c, tg_envp parent <= c < tg_envp parent + k -> outside (tg_envp g') (tg_envsize g') c.
Proof.
  intros Hi Hl Eg Es. pose proof Hi as [Hg [(_ & _ & ? & _) | (Hp & Hkp & Hown & Hs & rest & Hb & Hk)]]; [done|].
  unfold env_dup. rewrite (proj2 (Z.eqb_neq _ 0)) by lia.
  assert (0 < tg_envsize parent) as Hn by (destruct l as [|e l]; [done|]; rewrite Hs, flat_cons, length_app; pose proof (len_entry e); lia).
  destruct (kumm_malloc h m (tg_envsize parent)) as [[h1 m1] q] eqn:Em.
  destruct (malloc_law _ _ _ _ _ _ Hn Em) as [(-> & -> & ->) | (Hown1 & (Hq & (bs & Hbl & Hbs) & Hf) & Hoth)]; [left; by exists h, m|right].
  rewrite (proj2 (Z.eqb_neq q 0)) by lia. rewrite Hs in *.
  assert (forall c, tg_envp parent <= c < tg_envp parent + k -> outside q (len (flat l)) c) as Hout.
  { intros c Hc. destruct (env_inv_mapped h m parent l k c Hi Hc) as [b E]. by apply Hf in E as [_ ?]. }
  assert (bytes_at m1 (tg_envp parent) (flat l ++ rest)) as Hb1.
  { apply (bytes_at_frame m); [done|]. intros c Hc. destruct (bytes_at_mapped m _ _ c Hb Hc) as [b E]. rewrite E. by apply Hf. }
  apply bytes_at_app in Hb1 as [Hfl _]. rewrite length_app in Hk.
  destruct (outside_disjoint (tg_envp parent) k q (len (flat l))) as [Hd | Hd]; [lia|lia|exact Hout| |];
  (destruct (memcpy_loop_spec m1 q (tg_envp parent) (flat l) bs Hfl Hbs) as (m2 & E & Hm2 & Ho2); [lia|lia|]);
  unfold memcpy; rewrite Nat2Z.id, E; cbn [mbind option_bind];
  exists h1, m2, (mk_group (len (flat l)) q); (split_and!; [done| | |simpl|exact Hout]).
  all: try (destruct (Hoth _ _ Hown); congruence).
  all: try (split; [done|right; simpl; split_and!; [done|lia|done|done|exists []; by rewrite app_nil_r]]).
  all: apply (env_inv_move h m); [done|intros _ ?; by eapply Hoth|].
  all: intros c b Hc Hm; rewrite Ho2 by (specialize (Hout c Hc); unfold outside in Hout; lia); by apply Hf.
Qed.
End calls.
