(* ===== verification/EnvTheorems.v ===== *)
(** * Environment variables: an allocator that keeps the contract

    A simple allocator, which shows that the class [Allocator] can be
    implemented: every block lies behind everything that is mapped, and a
    request for more than a limit fails. *)

From stdpp Require Import base tactics numbers list gmap.
From S2P Require Import Prelude Bytes CString Env EnvOps CStringProps CStringCopy EnvCalls.

Record bump := mk_bump { blocks : gmap Z Z; limit : Z }.

(** The largest of 0 and the keys of a map. *)
Definition top (m : gmap Z Z) : Z := foldr Z.max 0 (map_to_list m).*1.

Lemma top_above (m : gmap Z Z) c b : m !! c = Some b -> c <= top m.
Proof.
  intros Hc%elem_of_map_to_list. unfold top. assert (c ∈ (map_to_list m).*1) as Hin by (apply list_elem_of_fmap; by exists (c, b)).
  clear Hc. induction (map_to_list m).*1 as [|x xs IH]; [by apply not_elem_of_nil in Hin|]. simpl.
  apply elem_of_cons in Hin as [-> | Hin]; [lia|]. specialize (IH Hin). lia.
Qed.

Lemma top_nonneg (m : gmap Z Z) : 0 <= top m.
Proof. unfold top. induction (map_to_list m).*1; simpl; lia. Qed.

(** A block with the contents [bs] behind everything in [h] and [m]. *)
Definition place (h : bump) (m : bmem) (bs : list Z) : bump * bmem * Z :=
  let p := 1 + Z.max (top m) (top (blocks h)) in
  (mk_bump (<[p := len bs]> (blocks h)) (limit h), mem_of p bs ∪ m, p).

Definition drop_block (h : bump) (p : Z) : bump := mk_bump (delete p (blocks h)) (limit h).

#[export] Instance bump_ops : AllocatorOps bump := {
  kumm_malloc h m n := if n <=? limit h then place h m (replicate (Z.to_nat n) 0) else (h, m, 0);
  kumm_realloc h m p n :=
    let k := default 0 (blocks h !! p) in
    if n =? 0 then (drop_block h p, without_block m p k, 0)
    else if n <=? limit h then
      place (drop_block h p) (without_block m p k)
        (let bs := take (Z.to_nat (Z.min k n)) (default [] (load_bytes m p (Z.to_nat k))) in bs ++ replicate (Z.to_nat n - length bs) 0)
    else (h, m, 0);
  kumm_free h m p := (drop_block h p, without_block m p (default 0 (blocks h !! p)));
  owns h p k := blocks h !! p = Some k
}.

Lemma mem_of_lookup a bs c : c < a -> mem_of a bs !! c = None.
Proof. revert a. induction bs as [|b bs IH]; intros a Hc; [done|]. simpl. rewrite lookup_insert_ne by lia. apply IH. lia. Qed.

Lemma place_spec h m bs h' m' p :
  place h m bs = (h', m', p) ->
  owns h' p (len bs) /\ fresh_block m m' p (len bs) /\ bytes_at m' p bs /\ (forall q k, owns h q k -> q <> p /\ owns h' q k).
Proof.
  unfold place. intros [= <- <- <-]. set (p := 1 + _).
  assert (bytes_at (mem_of p bs ∪ m) p bs) as Hb.
  { apply (bytes_at_frame (mem_of p bs)); [apply mem_of_bytes|]. intros c Hc.
    destruct (bytes_at_mapped _ p bs c (mem_of_bytes p bs) Hc) as [b E]. rewrite E. by apply lookup_union_Some_l. }
  split_and!; [apply lookup_insert_eq| |done|].
  - split_and!; [|by exists bs|].
    + pose proof (top_nonneg m). lia.
    + intros c b Hc. pose proof (top_above _ _ _ Hc). assert (c < p) as Hlt by lia. split; [|by left].
      rewrite lookup_union_r by (by apply mem_of_lookup). done.
  - intros q k Hq. simpl in *. pose proof (top_above _ _ _ Hq). assert (q <> p) as Hne by lia. split; [done|]. by rewrite lookup_insert_ne.
Qed.

#[export] Instance bump_allocator : Allocator bump.
Proof.
  split; simpl.
  - intros h m n h' m' p Hn. destruct (n <=? limit h); [|intros [= <- <- <-]; by left].
    intros (Ho & Hf & _ & Hoth)%place_spec. rewrite length_replicate, Z2Nat.id in Ho, Hf by lia. right. by split_and!.
  - intros h m p k n h' m' q bs Hown Hb Hl Hn. rewrite Hown. simpl. rewrite (proj2 (Z.eqb_neq n 0)) by lia.
    destruct (n <=? limit h); [|intros [= <- <- <-]; by left].
    replace (Z.to_nat k) with (length bs) by lia. rewrite (load_bytes_at _ _ _ Hb). simpl.
    set (t := take _ bs). assert (length t = Z.to_nat (Z.min k n)) as Ht by (unfold t; rewrite length_take; lia).
    assert (len (t ++ replicate (Z.to_nat n - length t) 0) = n) as Hlen by (rewrite length_app, length_replicate; lia).
    intros (Ho & Hf & Hb' & Hoth)%place_spec. rewrite Hlen in Ho, Hf. apply bytes_at_app in Hb' as [Hb' _]. right.
    split_and!; [done|done|done|]. intros r j Hne Hr. apply Hoth. simpl. by rewrite lookup_delete_ne.
  - intros h m p k h' m' q bs Hown Hb Hl. rewrite Hown. simpl. intros [= <- <- <-]. split_and!; [done|done|].
    intros r j Hne Hr. simpl. by rewrite lookup_delete_ne.
  - intros h m p k h' m' bs Hown Hb Hl. rewrite Hown. simpl. intros [= <- <-]. split; [done|].
    intros r j Hne Hr. simpl. by rewrite lookup_delete_ne.
Qed.

(** * Environment variables: theorems

    A task that calls the operations one after the other sees a map from names
    to values; and what happens to a child's copy. *)

(** ** A task that uses its environment *)

(** A call with the addresses of its strings. *)
Inductive env_call :=
  | Getenv (name : Z)
  | Setenv (name value : Z) (overwrite : bool)
  | Unsetenv (name : Z)
  | Putenv (string : Z)
  | Clearenv.

(** The same call with the strings. *)
Inductive env_request :=
  | GetVar (nm : list Z)
  | SetVar (nm v : list Z) (overwrite : bool)
  | UnsetVar (nm : list Z)
  | PutVar (s : list Z)
  | ClearVars.

(** What the task learns: the value read, or the value returned with the error
    number. *)
Inductive env_outcome := Value (v : option (list Z)) | Status (ret : Z * Z).

Inductive env_step (E : gmap (list Z) (list Z)) : env_request -> gmap (list Z) (list Z) -> env_outcome -> Prop :=
  | step_get nm : env_step E (GetVar nm) E (Value (E !! nm))
  | step_set nm v overwrite E' ret : set_step nm v overwrite E E' ret -> env_step E (SetVar nm v overwrite) E' (Status ret)
  | step_unset nm E' ret : unset_step nm E E' ret -> env_step E (UnsetVar nm) E' (Status ret)
  | step_put s E' ret : put_step s E E' ret -> env_step E (PutVar s) E' (Status ret)
  | step_clear : env_step E ClearVars ∅ (Status (OK, OK)).

Inductive env_steps : gmap (list Z) (list Z) -> list env_request -> gmap (list Z) (list Z) -> list env_outcome -> Prop :=
  | steps_nil E : env_steps E [] E []
  | steps_cons E E1 E2 q qs o os : env_step E q E1 o -> env_steps E1 qs E2 os -> env_steps E (q :: qs) E2 (o :: os).

(** The strings of a call are where its addresses say, outside the block. *)
Inductive call_args (m : bmem) (p k : Z) : env_call -> env_request -> Prop :=
  | args_get a nm : arg m p k a nm -> 61 ∉ nm -> call_args m p k (Getenv a) (GetVar nm)
  | args_set a nm b v overwrite : arg m p k a nm -> 61 ∉ nm -> arg m p k b v -> call_args m p k (Setenv a b overwrite) (SetVar nm v overwrite)
  | args_unset a nm : arg m p k a nm -> 61 ∉ nm -> call_args m p k (Unsetenv a) (UnsetVar nm)
  | args_put a s : arg m p k a s -> call_args m p k (Putenv a) (PutVar s)
  | args_clear : call_args m p k Clearenv ClearVars.

Lemma kept_args m p k m' p' k' c q : kept m p k m' p' k' -> call_args m p k c q -> call_args m' p' k' c q.
Proof. intros Hk Hc. destruct Hc; constructor; eauto using kept_arg. Qed.

Section task.
Context {H : Type} `{!AllocatorOps H} `{!Allocator H}.

Definition status (r : option env_result) : option (H * bmem * task_group_s * env_outcome) :=
  '(h, m, g, ret) ← r; Some (h, m, g, Status ret).

(** A task reads the string that [getenv] returns at once. *)
Definition env_exec (h : H) (m : bmem) (g : task_group_s) (c : env_call) : option (H * bmem * task_group_s * env_outcome) :=
  match c with
  | Getenv a =>
      '(p, _) ← getenv m g a;
      if p =? 0 then Some (h, m, g, Value None)
      else n ← strlen m p; bs ← load_bytes m p (Z.to_nat n); Some (h, m, g, Value (Some bs))
  | Setenv a b overwrite => status (setenv h m g a b overwrite)
  | Unsetenv a => status (unsetenv h m g a)
  | Putenv a => status (putenv h m g a)
  | Clearenv => status (Some (clearenv h m g))
  end.

Fixpoint env_run (h : H) (m : bmem) (g : task_group_s) (cs : list env_call) : option (H * bmem * task_group_s * list env_outcome) :=
  match cs with
  | [] => Some (h, m, g, [])
  | c :: cs =>
      '(h, m, g, o) ← env_exec h m g c;
      '(h, m, g, os) ← env_run h m g cs;
      Some (h, m, g, o :: os)
  end.

Lemma status_refines h m g l k step r (q : env_request) :
  implements h m g l k step r -> (forall E E' ret, step E E' ret -> env_step E q E' (Status ret)) ->
  exists h' m' g' l' k' o, status r = Some (h', m', g', o) /\ env_inv h' m' g' l' k' /\ apart_kept h m g k h' m' g' k' /\
    env_step (to_map l) q (to_map l') o.
Proof.
  intros (h' & m' & g' & l' & k' & ret & -> & Hi & Hk & Hs) Hstep. exists h', m', g', l', k', (Status ret).
  split_and!; [done|done|done|]. by apply Hstep.
Qed.

Lemma env_exec_refines h m g l k c q :
  env_inv h m g l k -> call_args m (tg_envp g) k c q ->
  exists h' m' g' l' k' o, env_exec h m g c = Some (h', m', g', o) /\ env_inv h' m' g' l' k' /\ apart_kept h m g k h' m' g' k' /\
    env_step (to_map l) q (to_map l') o.
Proof.
  intros Hi Hc. destruct Hc as [a nm Ha Heq|a nm b v ow Ha Heq Hb|a nm Ha Heq|a s Ha|]; simpl.
  - exists h, m, g, l, k. destruct (getenv_spec h m g l k a nm Hi Ha Heq) as [(v & p & Hin & -> & [Hb Hv] & Hp) | [Hn ->]]; cbn [mbind option_bind].
    + exists (Value (Some v)). assert (0 < p) as Hp0 by (destruct Hi as [_ [(? & _) | (? & _)]]; lia).
      rewrite (proj2 (Z.eqb_neq p 0)) by lia. rewrite (strlen_spec m p v) by done. cbn [mbind option_bind]. rewrite Nat2Z.id.
      apply bytes_at_app in Hb as [Hb _]. rewrite (load_bytes_at _ _ _ Hb). split_and!; [done|done|apply apart_kept_refl|].
      rewrite <- (to_map_found l nm v (proj1 Hi) Hin). constructor.
    + exists (Value None). split_and!; [done|done|apply apart_kept_refl|]. rewrite <- (to_map_absent l nm Hn). constructor.
  - eapply status_refines; [by eapply setenv_implements|by constructor].
  - eapply status_refines; [by eapply unsetenv_implements|by constructor].
  - eapply status_refines; [by eapply putenv_implements|by constructor].
  - destruct (clearenv_spec h m g l k Hi) as (h' & m' & -> & Hi' & Hk). exists h', m', (mk_group 0 0), [], 0, (Status (OK, OK)).
    split_and!; [done|done|done|]. constructor.
Qed.

Lemma env_run_refines h m g l k cs qs :
  env_inv h m g l k -> Forall2 (call_args m (tg_envp g) k) cs qs ->
  exists h' m' g' l' k' os, env_run h m g cs = Some (h', m', g', os) /\ env_inv h' m' g' l' k' /\
    apart_kept h m g k h' m' g' k' /\ env_steps (to_map l) qs (to_map l') os.
Proof.
  intros Hi Hcs. revert h m g l k Hi Hcs. revert qs. induction cs as [|c cs IH]; intros qs h m g l k Hi Hcs.
  - apply Forall2_nil_inv_l in Hcs as ->. exists h, m, g, l, k, []. split_and!; [done|done|apply apart_kept_refl|constructor].
  - apply Forall2_cons_inv_l in Hcs as (q & qs' & Hc & Hcs & ->).
    destruct (env_exec_refines h m g l k c q Hi Hc) as (h1 & m1 & g1 & l1 & k1 & o & E1 & Hi1 & [Hk1 Ho1] & Hs1).
    destruct (IH qs' h1 m1 g1 l1 k1 Hi1) as (h2 & m2 & g2 & l2 & k2 & os & E2 & Hi2 & [Hk2 Ho2] & Hs2).
    { eapply Forall2_impl; [exact Hcs|]. intros. by eapply kept_args. }
    simpl. rewrite E1. cbn [mbind option_bind]. rewrite E2. exists h2, m2, g2, l2, k2, (o :: os). split_and!; [done|done| |by econstructor].
    split; [by eapply kept_trans|]. intros r j Hr Hne Hown. destruct (Ho1 r j Hr Hne Hown). by apply Ho2.
Qed.

(** C16: the environment of a task group is a map from names to values.  For
    every allocator that keeps its contract, any sequence of calls of [getenv],
    [setenv], [unsetenv], [putenv] and [clearenv] whose arguments satisfy
    [call_args] (they are not null, they are strings that lie outside of the
    block of the environment, and the names given to [getenv], [setenv] and
    [unsetenv] have no equals sign) runs to its end without a wild access or a
    failed assertion; each call returns what it may return on the map as the
    calls before left it, where running out of memory loses at most the
    variable that the call is about; the block still holds exactly the map; and
    the memory outside of it and the other allocations of the program are what
    they were.  The result of [getenv] is read at once, before the next call. *)
Theorem environment_is_a_map h m g l k cs qs :
  env_inv h m g l k -> Forall2 (call_args m (tg_envp g) k) cs qs ->
  exists h' m' g' l' k' os, env_run h m g cs = Some (h', m', g', os) /\ env_inv h' m' g' l' k' /\
    apart_kept h m g k h' m' g' k' /\ env_steps (to_map l) qs (to_map l') os.
Proof. apply env_run_refines. Qed.

(** a new task group gets a copy of the environment of its parent that is
    its own.  After [env_dup] whatever the child does to its environment starts
    from the parent's variables, and the parent's environment stays as it is,
    in the same block. *)
Theorem child_environment_private h m parent g l k h1 m1 g1 cs qs :
  env_inv h m parent l k -> l <> [] -> tg_envp g = 0 -> tg_envsize g = 0 -> env_dup h m parent g = Some (h1, m1, g1, (OK, OK)) ->
  Forall2 (call_args m1 (tg_envp g1) (tg_envsize g1)) cs qs ->
  exists h' m' g' l' k' os, env_run h1 m1 g1 cs = Some (h', m', g', os) /\ env_inv h' m' g' l' k' /\
    env_steps (to_map l) qs (to_map l') os /\ env_inv h' m' parent l k.
Proof.
  intros Hi Hl Eg Es Ed Hcs.
  destruct (env_dup_spec h m parent g l k Hi Hl Eg Es) as [(? & ? & E & _) | (h2 & m2 & g2 & E & Hi1 & Hp1 & Hne & Hout)];
    rewrite Ed in E; simplify_eq.
  destruct (env_run_refines _ _ _ _ _ cs qs Hi1 Hcs) as (h' & m' & g' & l' & k' & os & Er & Hi' & [Hk Ho] & Hs).
  exists h', m', g', l', k', os. split_and!; [done|done|done|]. apply (env_inv_move _ _ _ _ _ h' m' Hp1).
  - intros Hp Hown. by apply Ho.
  - intros c b Hc Hm. by apply (Hk c b Hm), Hout.
Qed.
End task.

(** ** Examples

    Strings of a task: A, 1, B, 22, and A=3. *)

Definition demo_mem : bmem := mem_of 16 [65; 0; 49; 0; 66; 0; 50; 50; 0; 65; 61; 51; 0].

Definition demo_calls : list env_call :=
  [Setenv 16 18 true; Setenv 20 22 true; Setenv 16 22 false; Getenv 16; Putenv 25; Getenv 16; Unsetenv 20; Getenv 20; Clearenv; Getenv 16].

Definition demo_requests : list env_request :=
  [SetVar [65] [49] true; SetVar [66] [50; 50] true; SetVar [65] [50; 50] false; GetVar [65]; PutVar [65; 61; 51]; GetVar [65];
   UnsetVar [66]; GetVar [66]; ClearVars; GetVar [65]].

(** The environment of a parent: A=1. *)
Definition demo_parent : task_group_s := mk_group 4 64.
Definition demo_parent_mem : bmem := mem_of 64 [65; 61; 49; 0] ∪ demo_mem.

Lemma demo_arg m a s p k :
  bool_decide (0 < a) && bool_decide (bytes_at m a (s ++ [0])) && bool_decide (Forall char s) &&
  (bool_decide (p + k <= a) || bool_decide (a + len s < p)) = true -> arg m p k a s.
Proof.
  rewrite !andb_true_iff, orb_true_iff, !bool_decide_eq_true. intros [[[Ha Hb] Hc] Hp]. split_and!; [done|done|]. intros c Hlt. unfold outside. lia.
Qed.

Ltac demo_arg := first [apply demo_arg; vm_compute; reflexivity | apply (bool_decide_unpack _); vm_compute; exact I].

Ltac demo_args :=
  repeat first [apply Forall2_nil_2 | apply Forall2_cons_2]; first [apply args_get | apply args_set | apply args_unset | apply args_put | apply args_clear];
  demo_arg.

Lemma environment_is_a_map_witness :
  (exists h' m' g' l' k' os, env_run (mk_bump ∅ 100) demo_mem (mk_group 0 0) demo_calls = Some (h', m', g', os) /\ env_inv h' m' g' l' k' /\
    apart_kept (mk_bump ∅ 100) demo_mem (mk_group 0 0) 0 h' m' g' k' /\ env_steps (to_map []) demo_requests (to_map l') os) /\
  option_map snd (env_run (mk_bump ∅ 100) demo_mem (mk_group 0 0) demo_calls) =
    Some [Status (OK, OK); Status (OK, OK); Status (OK, OK); Value (Some [49]); Status (OK, OK); Value (Some [51]);
          Status (OK, OK); Value None; Status (OK, OK); Value None].
Proof.
  split; [|vm_compute; reflexivity].
  apply (environment_is_a_map (mk_bump ∅ 100) demo_mem (mk_group 0 0) [] 0 demo_calls demo_requests).
  - split; [split; [constructor|apply NoDup_nil_2]|by left].
  - demo_args.
Defined.

Lemma child_environment_private_witness :
  exists h1 m1 g1, env_dup (mk_bump {[64 := 4]} 100) demo_parent_mem demo_parent (mk_group 0 0) = Some (h1, m1, g1, (OK, OK)) /\
  exists h' m' g' l' k' os, env_run h1 m1 g1 [Setenv 16 22 true; Getenv 16] = Some (h', m', g', os) /\ env_inv h' m' g' l' k' /\
    env_steps (to_map [([65], [49])]) [SetVar [65] [50; 50] true; GetVar [65]] (to_map l') os /\ env_inv h' m' demo_parent [([65], [49])] 4.
Proof.
  do 3 eexists. split; [vm_compute; reflexivity|].
  eapply (child_environment_private (mk_bump {[64 := 4]} 100) demo_parent_mem demo_parent (mk_group 0 0) [([65], [49])] 4); [|discriminate|reflexivity|reflexivity|vm_compute; reflexivity|].
  - split; [apply (bool_decide_unpack _); vm_compute; exact I|]. right. split_and!; [done|done|done|done|]. exists []. split; [|done].
    apply (bool_decide_unpack _); vm_compute; exact I.
  - demo_args.
Defined.

(** A name with an equals sign in it: the loop of [env_cmpname] does not stop at
    the NUL where the name is a whole string of the environment, and leaves
    both strings. *)
Example env_cmpname_runs_on : getenv (mem_of 16 [65; 61; 49; 0] ∪ mem_of 64 [65; 61; 49; 0]) demo_parent 16 = None.
Proof. vm_compute. reflexivity. Qed.
