(* ===== verification/Mqueue.v ===== *)
(** * Message queues (os/kernel/mqueue)

    POSIX message queues over the scheduler of [Sched]: the messages are on
    singly linked lists of [Queue], in a queue, in one of the two pools of free
    messages, or in the hands of a task.

    Interrupts are on in parts of the calls, and interrupt handlers may send.
    So a call is split into the pieces that run with interrupts off, and where
    it gives up the processor; an interrupt may come between any two pieces.
    [None] is a failed assertion, a panic or a null dereference.

    Configuration (sidk_s5jt200): CONFIG_PREALLOC_MQ_MSGS = 4,
    CONFIG_MQ_MAXMSGSIZE = 600, signals enabled.  Posting the signal of a
    notification is recorded in [notified]; what signals do to tasks is not part
    of the model. *)

From stdpp Require Import base tactics numbers list.
From S2P Require Import Prelude Queue Sched.

(** ** Data *)

(** [enum mqalloc_e] *)
Inductive mqalloc_e := MQ_ALLOC_FIXED | MQ_ALLOC_DYN | MQ_ALLOC_IRQ.

#[export] Instance mqalloc_eq_dec : EqDecision mqalloc_e.
Proof. solve_decision. Defined.

(** [struct mqueue_msg_s] but for the link. *)
Record mqueue_msg_s := mk_msg { m_type : mqalloc_e; m_priority : Z; m_msglen : Z; mail : list Z }.

(** [struct mqueue_inode_s] *)
Record mqueue_inode_s := mk_msgq {
  msglist : queue;
  maxmsgs : Z;
  nmsgs : Z;
  nwaitnotfull : Z;
  nwaitnotempty : Z;
  maxmsgsize : Z;
  ntmqdes : Z;
  ntpid : Z;
  ntsigno : Z;
  ntvalue : Z
}.

(** [struct mq_des] but for the link. *)
Record mq_des := mk_des { msgq : Z; oflags : Z }.

(** The scheduler, the messages with their links, the queues, the descriptors,
    the field [msgwaitq] of the tasks, the free messages, and the signals
    posted so far: pid, signal number and value. *)
Record mq_state := mk_mq {
  qk : kernel;
  mlinks : links;
  msgs : Z -> mqueue_msg_s;
  msgqs : Z -> mqueue_inode_s;
  descs : Z -> mq_des;
  msgwaitq : Z -> Z;
  g_msgfree : queue;
  g_msgfreeirq : queue;
  notified : list (Z * Z * Z)
}.

Definition set_qk (k : kernel) (s : mq_state) : mq_state :=
  mk_mq k (mlinks s) (msgs s) (msgqs s) (descs s) (msgwaitq s) (g_msgfree s) (g_msgfreeirq s) (notified s).
Definition set_mlinks (L : links) (s : mq_state) : mq_state :=
  mk_mq (qk s) L (msgs s) (msgqs s) (descs s) (msgwaitq s) (g_msgfree s) (g_msgfreeirq s) (notified s).
Definition set_msg (m : Z) (v : mqueue_msg_s) (s : mq_state) : mq_state :=
  mk_mq (qk s) (mlinks s) (upd (msgs s) m v) (msgqs s) (descs s) (msgwaitq s) (g_msgfree s) (g_msgfreeirq s) (notified s).
Definition set_msgq (q : Z) (v : mqueue_inode_s) (s : mq_state) : mq_state :=
  mk_mq (qk s) (mlinks s) (msgs s) (upd (msgqs s) q v) (descs s) (msgwaitq s) (g_msgfree s) (g_msgfreeirq s) (notified s).
Definition set_desc (d : Z) (v : mq_des) (s : mq_state) : mq_state :=
  mk_mq (qk s) (mlinks s) (msgs s) (msgqs s) (upd (descs s) d v) (msgwaitq s) (g_msgfree s) (g_msgfreeirq s) (notified s).
Definition set_msgwaitq (x q : Z) (s : mq_state) : mq_state :=
  mk_mq (qk s) (mlinks s) (msgs s) (msgqs s) (descs s) (upd (msgwaitq s) x q) (g_msgfree s) (g_msgfreeirq s) (notified s).
Definition set_g_msgfree (q : queue) (s : mq_state) : mq_state :=
  mk_mq (qk s) (mlinks s) (msgs s) (msgqs s) (descs s) (msgwaitq s) q (g_msgfreeirq s) (notified s).
Definition set_g_msgfreeirq (q : queue) (s : mq_state) : mq_state :=
  mk_mq (qk s) (mlinks s) (msgs s) (msgqs s) (descs s) (msgwaitq s) (g_msgfree s) q (notified s).
Definition notify (n : Z * Z * Z) (s : mq_state) : mq_state :=
  mk_mq (qk s) (mlinks s) (msgs s) (msgqs s) (descs s) (msgwaitq s) (g_msgfree s) (g_msgfreeirq s) (notified s ++ [n]).

(** [msgq->field = v] *)
Definition set_msglist (l : queue) (v : mqueue_inode_s) : mqueue_inode_s :=
  mk_msgq l (maxmsgs v) (nmsgs v) (nwaitnotfull v) (nwaitnotempty v) (maxmsgsize v) (ntmqdes v) (ntpid v) (ntsigno v) (ntvalue v).
Definition set_nmsgs (n : Z) (v : mqueue_inode_s) : mqueue_inode_s :=
  mk_msgq (msglist v) (maxmsgs v) n (nwaitnotfull v) (nwaitnotempty v) (maxmsgsize v) (ntmqdes v) (ntpid v) (ntsigno v) (ntvalue v).
Definition set_nwaitnotfull (n : Z) (v : mqueue_inode_s) : mqueue_inode_s :=
  mk_msgq (msglist v) (maxmsgs v) (nmsgs v) n (nwaitnotempty v) (maxmsgsize v) (ntmqdes v) (ntpid v) (ntsigno v) (ntvalue v).
Definition set_nwaitnotempty (n : Z) (v : mqueue_inode_s) : mqueue_inode_s :=
  mk_msgq (msglist v) (maxmsgs v) (nmsgs v) (nwaitnotfull v) n (maxmsgsize v) (ntmqdes v) (ntpid v) (ntsigno v) (ntvalue v).
Definition set_notification (d pid signo value : Z) (v : mqueue_inode_s) : mqueue_inode_s :=
  mk_msgq (msglist v) (maxmsgs v) (nmsgs v) (nwaitnotfull v) (nwaitnotempty v) (maxmsgsize v) d pid signo value.

Definition upd_msgq (q : Z) (f : mqueue_inode_s -> mqueue_inode_s) (s : mq_state) : mq_state := set_msgq q (f (msgqs s q)) s.

(** The queue of a descriptor. *)
Definition queue_of (s : mq_state) (mqdes : Z) : Z := msgq (descs s mqdes).

Definition MQ_MAX_BYTES : Z := 600.
Definition MQ_MAX_MSGS : Z := 16.
Definition MQ_PRIO_MAX : Z := 255.
Definition CONFIG_PREALLOC_MQ_MSGS : Z := 4.
Definition NUM_INTERRUPT_MSGS : Z := 8.
Definition O_RDOK : Z := 1.
Definition O_WROK : Z := 2.
Definition O_NONBLOCK : Z := 64.
Definition INVALID_PROCESS_ID : Z := -1.
Definition MAX_SIGNO : Z := 31.
Definition EPERM : Z := 1.
Definition EAGAIN : Z := 11.
Definition EBADF : Z := 9.
Definition EBUSY : Z := 16.
Definition EMSGSIZE : Z := 90.

Definition mq_errno (s : mq_state) (e : Z) : mq_state := set_qk (set_errno (qk s) e) s.

(** ** Messages *)

(** A message as its sender and its receiver see it. *)
Definition body (s : mq_state) (m : Z) : Z * list Z :=
  (m_priority (msgs s m), take (Z.to_nat (m_msglen (msgs s m))) (mail (msgs s m))).

(** In an interrupt handler the message may come from the reserve; a task gets
    a new one from the heap, at [heap], if there is no free one. *)
Definition mq_msgalloc (s : mq_state) (heap : Z) : option (mq_state * Z) :=
  '(mqmsg, (L, q)) ← sq_remfirst (mlinks s) (g_msgfree s);
  let s := set_g_msgfree q (set_mlinks L s) in
  if in_irq (qk s) then
    if mqmsg =? 0 then
      '(mqmsg, (L, q)) ← sq_remfirst (mlinks s) (g_msgfreeirq s);
      Some (set_g_msgfreeirq q (set_mlinks L s), mqmsg)
    else Some (s, mqmsg)
  else if mqmsg =? 0 then
    _ ← assert (negb (heap =? 0));
    let v := msgs s heap in
    Some (set_msg heap (mk_msg MQ_ALLOC_DYN (m_priority v) (m_msglen v) (mail v)) s, heap)
  else Some (s, mqmsg).

(** A message from the heap goes back to it. *)
Definition mq_msgfree (s : mq_state) (mqmsg : Z) : option mq_state :=
  match m_type (msgs s mqmsg) with
  | MQ_ALLOC_FIXED =>
      '(L, q) ← sq_addlast (mlinks s) mqmsg (g_msgfree s);
      Some (set_g_msgfree q (set_mlinks L s))
  | MQ_ALLOC_IRQ =>
      '(L, q) ← sq_addlast (mlinks s) mqmsg (g_msgfreeirq s);
      Some (set_g_msgfreeirq q (set_mlinks L s))
  | MQ_ALLOC_DYN => Some s
  end.

(** ** Sending *)

(** The error, or 0; [None] for [msg] is a null pointer. *)
Definition mq_verifysend (s : mq_state) (mqdes : Z) (msg : option (list Z)) (prio : Z) : Z :=
  match msg with
  | None => EINVAL
  | Some data =>
      if (mqdes =? 0) || (prio <? 0) || (MQ_PRIO_MAX <? prio) then EINVAL
      else if Z.land (oflags (descs s mqdes)) O_WROK =? 0 then EPERM
      else if maxmsgsize (msgqs s (queue_of s mqdes)) <? Z.of_nat (length data) then EMSGSIZE
      else 0
  end.

(** Whether the wait is over, has failed, or has begun. *)
Inductive waited := Ready | Failed | Blocked.

(** [while (msgq->nmsgs >= msgq->maxmsgs)], up to [up_block_task]. *)
Definition waitsend_loop (s : mq_state) (mqdes : Z) : option (mq_state * waited) :=
  let q := queue_of s mqdes in
  if maxmsgs (msgqs s q) <=? nmsgs (msgqs s q) then
    let rtcb := rtr_head (qk s) in
    let s := set_msgwaitq rtcb q s in
    let s := upd_msgq q (fun v => set_nwaitnotfull (i16 (nwaitnotfull v + 1)) v) s in
    let s := mq_errno s 0 in
    k ← up_block_task (qk s) rtcb TSTATE_WAIT_MQNOTFULL;
    Some (set_qk k s, Blocked)
  else Some (s, Ready).

Definition mq_waitsend (s : mq_state) (mqdes : Z) : option (mq_state * waited) :=
  let q := queue_of s mqdes in
  if maxmsgs (msgqs s q) <=? nmsgs (msgqs s q) then
    if Z.land (oflags (descs s mqdes)) O_NONBLOCK =? 0 then waitsend_loop s mqdes
    else Some (mq_errno s EAGAIN, Failed)
  else Some (s, Ready).

(** [mq_waitsend] after [up_block_task]. *)
Definition mq_waitsend_resume (s : mq_state) (mqdes : Z) : option (mq_state * waited) :=
  if get_errno (qk s) =? 0 then waitsend_loop s mqdes else Some (s, Failed).

(** [for (prev = NULL, next = msgq->msglist.head; next && prio <= next->priority;
    prev = next, next = next->next)]; the result is [prev]. *)
Fixpoint find_place (fuel : nat) (s : mq_state) (prio prev next : Z) : option Z :=
  match fuel with
  | O => None
  | S fuel =>
      if (next =? 0) || (m_priority (msgs s next) <? prio) then Some prev
      else find_place fuel s prio next (flink (mlinks s) next)
  end.

(** A queue has as many messages as it counts. *)
Definition msg_fuel (s : mq_state) (q : Z) : nat := S (Z.to_nat (nmsgs (msgqs s q))).

(** [mq_dosend] up to the insertion of the message. *)
Definition mq_dosend_insert (s : mq_state) (mqdes mqmsg : Z) (data : list Z) (prio : Z) : option mq_state :=
  k ← sched_lock (qk s);
  let s := set_qk k s in
  let q := queue_of s mqdes in
  _ ← assert (Z.of_nat (length data) <=? MQ_MAX_BYTES);
  let v := msgs s mqmsg in
  let s := set_msg mqmsg (mk_msg (m_type v) (u8 prio) (u16 (Z.of_nat (length data))) (data ++ drop (length data) (mail v))) s in
  prev ← find_place (msg_fuel s q) s prio 0 (head (msglist (msgqs s q)));
  '(L, l) ←
    (if prev =? 0 then sq_addfirst (mlinks s) mqmsg (msglist (msgqs s q))
     else sq_addafter (mlinks s) prev mqmsg (msglist (msgqs s q)));
  Some (upd_msgq q (fun v => set_nmsgs (i16 (nmsgs v + 1)) (set_msglist l v)) (set_mlinks L s)).

(** The notification, if one is attached. *)
Definition mq_dosend_notify (s : mq_state) (mqdes : Z) : mq_state :=
  let q := queue_of s mqdes in
  let v := msgqs s q in
  if ntmqdes v =? 0 then s
  else notify (ntpid v, ntsigno v, ntvalue v) (upd_msgq q (set_notification 0 INVALID_PROCESS_ID 0 0) s).

(** [for (btcb = list.head; btcb && btcb->msgwaitq != msgq; btcb = btcb->flink)] *)
Fixpoint find_mqwaiter (fuel : nat) (s : mq_state) (q btcb : Z) : option Z :=
  match fuel with
  | O => None
  | S fuel =>
      if btcb =? 0 then Some 0
      else if msgwaitq s btcb =? q then Some btcb
      else find_mqwaiter fuel s q (flink (lk (qk s)) btcb)
  end.

(** Wake the first task of the list that waits for the queue; [dec] counts it
    down. *)
Definition wake_waiter (s : mq_state) (q : Z) (tl : tasklist) (dec : mqueue_inode_s -> mqueue_inode_s) : option mq_state :=
  btcb ← find_mqwaiter list_fuel s q (head (lists (qk s) tl));
  _ ← assert (negb (btcb =? 0));
  let s := upd_msgq q dec (set_msgwaitq btcb 0 s) in
  k ← up_unblock_task (qk s) btcb;
  Some (set_qk k s).

(** The rest of [mq_dosend]: wake a receiver. *)
Definition mq_dosend_wake (s : mq_state) (mqdes : Z) : option mq_state :=
  let q := queue_of s mqdes in
  s ←
    (if 0 <? nwaitnotempty (msgqs s q)
     then wake_waiter s q g_waitingformqnotempty (fun v => set_nwaitnotempty (i16 (nwaitnotempty v - 1)) v)
     else Some s);
  k ← sched_unlock (qk s);
  Some (set_qk k s).

(** ** Receiving *)

(** The error, or 0; [msg] is the address of the buffer. *)
Definition mq_verifyreceive (s : mq_state) (mqdes msg msglen : Z) : Z :=
  if (msg =? 0) || (mqdes =? 0) then EINVAL
  else if Z.land (oflags (descs s mqdes)) O_RDOK =? 0 then EPERM
  else if msglen <? maxmsgsize (msgqs s (queue_of s mqdes)) then EMSGSIZE
  else 0.

(** [mq_waitreceive] up to [up_block_task]; returns the message, or 0. *)
Definition mq_waitreceive (s : mq_state) (mqdes : Z) : option (mq_state * waited * Z) :=
  let q := queue_of s mqdes in
  '(rcvmsg, (L, l)) ← sq_remfirst (mlinks s) (msglist (msgqs s q));
  let s := upd_msgq q (set_msglist l) (set_mlinks L s) in
  if rcvmsg =? 0 then
    if Z.land (oflags (descs s mqdes)) O_NONBLOCK =? 0 then
      let rtcb := rtr_head (qk s) in
      let s := set_msgwaitq rtcb q s in
      let s := upd_msgq q (fun v => set_nwaitnotempty (i16 (nwaitnotempty v + 1)) v) s in
      let s := mq_errno s 0 in
      k ← up_block_task (qk s) rtcb TSTATE_WAIT_MQNOTEMPTY;
      Some (set_qk k s, Blocked, 0)
    else Some (mq_errno s EAGAIN, Failed, 0)
  else Some (upd_msgq q (fun v => set_nmsgs (i16 (nmsgs v - 1)) v) s, Ready, rcvmsg).

(** [mq_waitreceive] after [up_block_task]. *)
Definition mq_waitreceive_resume (s : mq_state) (mqdes : Z) : option (mq_state * waited * Z) :=
  if get_errno (qk s) =? 0 then mq_waitreceive s mqdes else Some (s, Failed, 0).

(** [mq_doreceive] up to [mq_msgfree]: the bytes copied and the priority. *)
Definition mq_doreceive_copy (s : mq_state) (mqmsg : Z) : option (mq_state * (Z * list Z)) :=
  let m := body s mqmsg in
  s ← mq_msgfree s mqmsg;
  Some (s, m).

(** The test of [nwaitnotfull], which is made with interrupts on. *)
Definition mq_doreceive_test (s : mq_state) (mqdes : Z) : bool := 0 <? nwaitnotfull (msgqs s (queue_of s mqdes)).

(** What follows it: wake a sender. *)
Definition mq_doreceive_wake (s : mq_state) (mqdes : Z) : option mq_state :=
  wake_waiter s (queue_of s mqdes) g_waitingformqnotfull (fun v => set_nwaitnotfull (i16 (nwaitnotfull v - 1)) v).

(** ** The end of a wait *)

(** By a signal or a timeout, in the interrupt handler. *)
Definition mq_waitirq (s : mq_state) (wtcb errcode : Z) : option mq_state :=
  w ← get_tcb (qk s) wtcb;
  let cancel (count : mqueue_inode_s -> Z) (set : Z -> mqueue_inode_s -> mqueue_inode_s) :=
    let q := msgwaitq s wtcb in
    _ ← assert (negb (q =? 0));
    let s := set_msgwaitq wtcb 0 s in
    _ ← assert (0 <? count (msgqs s q));
    let s := upd_msgq q (fun v => set (i16 (count v - 1)) v) s in
    k ← upd_tcb (qk s) wtcb (set_pterrno errcode);
    k ← up_unblock_task k wtcb;
    Some (set_qk k s) in
  match task_state w with
  | TSTATE_WAIT_MQNOTEMPTY => cancel nwaitnotempty set_nwaitnotempty
  | TSTATE_WAIT_MQNOTFULL => cancel nwaitnotfull set_nwaitnotfull
  | _ => Some s
  end.

(** The task is being deleted. *)
Definition mq_recover (s : mq_state) (tcb : Z) : option mq_state :=
  t ← get_tcb (qk s) tcb;
  let q := msgwaitq s tcb in
  match task_state t with
  | TSTATE_WAIT_MQNOTEMPTY =>
      _ ← assert (negb (q =? 0) && (0 <? nwaitnotempty (msgqs s q)));
      Some (upd_msgq q (fun v => set_nwaitnotempty (i16 (nwaitnotempty v - 1)) v) s)
  | TSTATE_WAIT_MQNOTFULL =>
      _ ← assert (negb (q =? 0) && (0 <? nwaitnotfull (msgqs s q)));
      Some (upd_msgq q (fun v => set_nwaitnotfull (i16 (nwaitnotfull v - 1)) v) s)
  | _ => Some s
  end.

(** ** The calls, piece by piece *)

(** Where a task is inside [mq_send] or [mq_receive]: blocked or about to
    resume; before the allocation, the insertion, the notification, the wake-up
    of a receiver; with a message in its hands, after it has freed it, or after
    it has seen that a sender waits. *)
Inductive mq_pc :=
  | PcNone
  | PcSendWait (mqdes : Z) (data : list Z) (prio : Z)
  | PcSendAlloc (mqdes : Z) (data : list Z) (prio : Z)
  | PcSendInsert (mqdes mqmsg : Z) (data : list Z) (prio : Z)
  | PcSendNotify (mqdes : Z)
  | PcSendWake (mqdes : Z)
  | PcRcvWait (mqdes : Z)
  | PcRcvGot (mqdes mqmsg : Z)
  | PcRcvFreed (mqdes ret : Z)
  | PcRcvWake (mqdes ret : Z).

(** The call goes on from there, or returns a value. *)
Inductive mq_next := Goes (p : mq_pc) | Returns (ret : Z).

(** What can be seen of a step: a message (priority and bytes) put into a queue,
    taken out of it by a task, and handed to the caller. *)
Inductive mq_obs :=
  | ObsSent (q : Z) (m : Z * list Z)
  | ObsTaken (x q : Z) (m : Z * list Z)
  | ObsReceived (x : Z) (m : Z * list Z).

(** [sched_unlock(); return ret] *)
Definition unlock_return (s : mq_state) (ret : Z) : option (mq_state * mq_next * list mq_obs) :=
  k ← sched_unlock (qk s); Some (set_qk k s, Returns ret, []).

Definition after_waitsend (r : option (mq_state * waited)) (mqdes : Z) (data : list Z) (prio : Z)
  : option (mq_state * mq_next * list mq_obs) :=
  '(s, w) ← r;
  match w with
  | Ready => Some (s, Goes (PcSendAlloc mqdes data prio), [])
  | Blocked => Some (s, Goes (PcSendWait mqdes data prio), [])
  | Failed => unlock_return s ERROR
  end.

Definition mq_send (s : mq_state) (mqdes : Z) (msg : option (list Z)) (prio : Z)
  : option (mq_state * mq_next * list mq_obs) :=
  let e := mq_verifysend s mqdes msg prio in
  if negb (e =? 0) then Some (mq_errno s e, Returns ERROR, [])
  else
    data ← msg;
    k ← sched_lock (qk s);
    let s := set_qk k s in
    let q := queue_of s mqdes in
    if nmsgs (msgqs s q) <? maxmsgs (msgqs s q) then Some (s, Goes (PcSendAlloc mqdes data prio), [])
    else after_waitsend (mq_waitsend s mqdes) mqdes data prio.

Definition after_waitreceive (r : option (mq_state * waited * Z)) (mqdes me : Z) : option (mq_state * mq_next * list mq_obs) :=
  '(s, w, mqmsg) ← r;
  match w with
  | Ready => Some (s, Goes (PcRcvGot mqdes mqmsg), [ObsTaken me (queue_of s mqdes) (body s mqmsg)])
  | Blocked => Some (s, Goes (PcRcvWait mqdes), [])
  | Failed => unlock_return s ERROR
  end.

Definition mq_receive (s : mq_state) (mqdes msg msglen : Z) : option (mq_state * mq_next * list mq_obs) :=
  _ ← assert (negb (in_irq (qk s)));
  let e := mq_verifyreceive s mqdes msg msglen in
  if negb (e =? 0) then Some (mq_errno s e, Returns ERROR, [])
  else
    let me := cpu (qk s) in
    k ← sched_lock (qk s);
    after_waitreceive (mq_waitreceive (set_qk k s) mqdes) mqdes me.

(** The next piece of the call the running task [me] is in. *)
Definition mq_step (s : mq_state) (me : Z) (p : mq_pc) (heap : Z) : option (mq_state * mq_next * list mq_obs) :=
  match p with
  | PcNone => None
  | PcSendWait mqdes data prio => after_waitsend (mq_waitsend_resume s mqdes) mqdes data prio
  | PcSendAlloc mqdes data prio =>
      '(s, mqmsg) ← mq_msgalloc s heap;
      if mqmsg =? 0 then unlock_return s ERROR else Some (s, Goes (PcSendInsert mqdes mqmsg data prio), [])
  | PcSendInsert mqdes mqmsg data prio =>
      s ← mq_dosend_insert s mqdes mqmsg data prio;
      Some (s, Goes (PcSendNotify mqdes), [ObsSent (queue_of s mqdes) (prio, data)])
  | PcSendNotify mqdes => Some (mq_dosend_notify s mqdes, Goes (PcSendWake mqdes), [])
  | PcSendWake mqdes => s ← mq_dosend_wake s mqdes; unlock_return s OK
  | PcRcvWait mqdes => after_waitreceive (mq_waitreceive_resume s mqdes) mqdes me
  | PcRcvGot mqdes mqmsg =>
      '(s, m) ← mq_doreceive_copy s mqmsg;
      Some (s, Goes (PcRcvFreed mqdes (Z.of_nat (length m.2))), [ObsReceived me m])
  | PcRcvFreed mqdes ret =>
      if mq_doreceive_test s mqdes then Some (s, Goes (PcRcvWake mqdes ret), []) else unlock_return s ret
  | PcRcvWake mqdes ret => s ← mq_doreceive_wake s mqdes; unlock_return s ret
  end.

(** [mq_send] in an interrupt handler. *)
Definition mq_send_irq (s : mq_state) (mqdes : Z) (msg : option (list Z)) (prio : Z) : option (mq_state * list mq_obs) :=
  let e := mq_verifysend s mqdes msg prio in
  if negb (e =? 0) then Some (mq_errno s e, [])
  else
    data ← msg;
    k ← sched_lock (qk s);
    '(s, mqmsg) ← mq_msgalloc (set_qk k s) 0;
    '(s, obs) ←
      (if mqmsg =? 0 then Some (s, [])
       else
         s ← mq_dosend_insert s mqdes mqmsg data prio;
         s ← mq_dosend_wake (mq_dosend_notify s mqdes) mqdes;
         Some (s, [ObsSent (queue_of s mqdes) (prio, data)]));
    k ← sched_unlock (qk s);
    Some (set_qk k s, obs).

(** ** Tasks and interrupts *)

Record mq_sys := mk_mqsys { ms : mq_state; mpcs : Z -> mq_pc }.

Inductive mq_event :=
  | MqSend (mqdes : Z) (msg : option (list Z)) (prio : Z)
  | MqReceive (mqdes msg msglen : Z)
  | MqStep (heap : Z)
  | MqLock
  | MqUnlock
  | MqIrqSend (mqdes : Z) (msg : option (list Z)) (prio : Z)
  | MqIrqTimeout (x errcode : Z)
  | MqIrqTick.

Definition set_irq (b : bool) (s : mq_state) : mq_state :=
  set_qk (mk_kernel (lk (qk s)) (tcbs (qk s)) (lists (qk s)) (cpu (qk s)) b (g_irqerrno (qk s)) (g_pidhash (qk s))) s.

Definition mq_handler {R} (f : mq_state -> option (mq_state * R)) (s : mq_state) : option (mq_state * R) :=
  '(s, r) ← f (set_irq true s); Some (set_irq false s, r).

(** The task [me] is where its call goes on. *)
Definition proceed (w : mq_sys) (me : Z) (r : option (mq_state * mq_next * list mq_obs)) : option (mq_sys * list mq_obs) :=
  '(s, n, obs) ← r;
  Some (mk_mqsys s (upd (mpcs w) me (match n with Goes p => p | Returns _ => PcNone end)), obs).

Definition mq_exec (w : mq_sys) (e : mq_event) : option (mq_sys * list mq_obs) :=
  let s := ms w in
  let me := cpu (qk s) in
  match e with
  | MqSend mqdes msg prio => proceed w me (mq_send s mqdes msg prio)
  | MqReceive mqdes msg msglen => proceed w me (mq_receive s mqdes msg msglen)
  | MqStep heap => proceed w me (mq_step s me (mpcs w me) heap)
  | MqLock => k ← sched_lock (qk s); Some (mk_mqsys (set_qk k s) (mpcs w), [])
  | MqUnlock => k ← sched_unlock (qk s); Some (mk_mqsys (set_qk k s) (mpcs w), [])
  | MqIrqSend mqdes msg prio =>
      '(s, obs) ← mq_handler (fun s => mq_send_irq s mqdes msg prio) s; Some (mk_mqsys s (mpcs w), obs)
  | MqIrqTimeout x errcode =>
      '(s, obs) ← mq_handler (fun s => s ← mq_waitirq s x errcode; Some (s, [])) s; Some (mk_mqsys s (mpcs w), obs)
  | MqIrqTick =>
      '(s, obs) ← mq_handler (fun s => k ← sched_process_timeslice (qk s); Some (set_qk k s, [])) s;
      Some (mk_mqsys s (mpcs w), obs)
  end.

Fixpoint mq_run (w : mq_sys) (es : list mq_event) : option (mq_sys * list mq_obs) :=
  match es with
  | [] => Some (w, [])
  | e :: es =>
      '(w, o) ← mq_exec w e;
      '(w, os) ← mq_run w es;
      Some (w, o ++ os)
  end.
