(* ===== verification/MqueueMsgs.v ===== *)
(** * Message queues: where the messages are

    Every message is in one place: a pool of free messages, a queue, or the
    hands of whoever is sending or receiving it.  The pieces of the calls move
    it from one to the other. *)

From stdpp Require Import base tactics numbers sets list sorting.
From S2P Require Import Prelude Queue QueueProps Sched SchedProps Mqueue.

(** ** Places *)

Inductive place := PFree | PIrq | PHand | PQueue (q : Z).

#[export] Instance place_eq_dec : EqDecision place.
Proof. solve_decision. Defined.

Abbreviation ghost := (place -> list Z).

Definition set_place (p : place) (l : list Z) (G : ghost) : ghost := fun p' => if decide (p' = p) then l else G p'.

Lemma set_place_eq p l G : set_place p l G p = l.
Proof. unfold set_place. by rewrite decide_True. Qed.

Lemma set_place_ne p l G p' : p' <> p -> set_place p l G p' = G p'.
Proof. intros. unfold set_place. by rewrite decide_False. Qed.

(** The header of the list of a place. *)
Definition hdr (s : mq_state) (p : place) : option queue :=
  match p with
  | PFree => Some (g_msgfree s)
  | PIrq => Some (g_msgfreeirq s)
  | PHand => None
  | PQueue q => if q =? 0 then None else Some (msglist (msgqs s q))
  end.

Record msg_rep (s : mq_state) (G : ghost) : Prop := {
  mr_list p h : hdr s p = Some h -> sq_rep (mlinks s) h (G p);
  mr_once p1 p2 m : m ∈ G p1 -> m ∈ G p2 -> p1 = p2;
  mr_nodup p : NoDup (G p);
  mr_null p : 0 ∉ G p;
  mr_none : G (PQueue 0) = []
}.

(** Taking the first message of a list into one's hands. *)
Definition grab (p : place) (m : Z) (l : list Z) (G : ghost) : ghost := set_place PHand (m :: G PHand) (set_place p l G).

(** Putting the message in one's hands into a list. *)
Definition put (p : place) (l : list Z) (rest : list Z) (G : ghost) : ghost := set_place PHand rest (set_place p l G).

Lemma grab_in p m l G p' y :
  p <> PHand -> G p = m :: l -> y ∈ grab p m l G p' <-> (p' = PHand /\ y = m) \/ (y ∈ G p' /\ (p' = p -> y ∈ l)).
Proof.
  intros Hp Hg. unfold grab. destruct (decide (p' = PHand)) as [->|Hne].
  - rewrite set_place_eq, elem_of_cons. naive_solver.
  - rewrite set_place_ne by done. destruct (decide (p' = p)) as [->|Hne'].
    + rewrite set_place_eq, Hg. set_solver.
    + rewrite set_place_ne by done. naive_solver.
Qed.

Lemma put_in p m l1 l2 rest G p' y :
  p <> PHand -> G p = l1 ++ l2 -> G PHand = m :: rest -> m ∉ rest ->
  y ∈ put p (l1 ++ m :: l2) rest G p' <-> (p' = p /\ y = m) \/ (y ∈ G p' /\ (p' = PHand -> y <> m)).
Proof.
  intros Hp Hg Hh Hm. unfold put. destruct (decide (p' = PHand)) as [->|Hne].
  - rewrite set_place_eq, Hh. set_solver.
  - rewrite set_place_ne by done. destruct (decide (p' = p)) as [->|Hne'].
    + rewrite set_place_eq, Hg. set_solver.
    + rewrite set_place_ne by done. naive_solver.
Qed.

(** ** Moving a message *)

(** The lists of the other places do not change. *)
Lemma rep_lists s G s' G' p X h :
  msg_rep s G -> hdr s' p = Some h -> sq_rep (mlinks s') h (G' p) -> (forall p', p' <> p -> hdr s' p' = hdr s p') ->
  same_links X (mlinks s) (mlinks s') -> (forall p' m, p' <> p -> p' <> PHand -> m ∈ G p' -> m ∉ X) ->
  (forall p', p' <> p -> p' <> PHand -> G' p' = G p') ->
  forall p' h', hdr s' p' = Some h' -> sq_rep (mlinks s') h' (G' p').
Proof.
  intros Hr Hh Hp Hhd HL HX HG p' h' Hh'. destruct (decide (p' = p)) as [->|Hne]; [congruence|].
  assert (p' <> PHand) as Hnh by (by intros ->). rewrite Hhd in Hh' by done. rewrite HG by done.
  apply (sq_rep_frame X (mlinks s)); [done| |by apply (mr_list _ _ Hr)]. intros x Hx. by apply (HX p').
Qed.

Lemma rep_grab s G s' p m l h :
  msg_rep s G -> p <> PHand -> G p = m :: l -> hdr s' p = Some h -> sq_rep (mlinks s') h l ->
  (forall p', p' <> p -> hdr s' p' = hdr s p') -> same_links (m :: l) (mlinks s) (mlinks s') -> msg_rep s' (grab p m l G).
Proof.
  intros Hr Hp Hg Hh Hl Hhd HL. pose proof Hr as [_ Ho Hn H0 Hz]. pose proof (Hn p) as Hnp. rewrite Hg in Hnp. apply NoDup_cons in Hnp as [Hml Hnl].
  constructor.
  - apply (rep_lists s G s' _ p (m :: l) h Hr Hh); [by unfold grab; rewrite set_place_ne, set_place_eq|done|done| |].
    + intros p' y Hne _ Hy Hin. apply Hne. apply (Ho p' p y Hy). by rewrite Hg.
    + intros p' Hne Hnh. unfold grab. by rewrite !set_place_ne.
  - intros p1 p2 y Hy1 Hy2. apply (grab_in p m l G) in Hy1; [|done|done]. apply (grab_in p m l G) in Hy2; [|done|done].
    assert (forall p', m ∈ G p' -> (p' = p -> m ∈ l) -> False) as Hno.
    { intros p' Hin Hl'. assert (p' = p) as -> by (apply (Ho p' p m Hin); rewrite Hg; set_solver). by apply Hml, Hl'. }
    destruct Hy1 as [[-> ->] | [Hy1 Hl1]], Hy2 as [[-> Ey] | [Hy2 Hl2]]; [done|by destruct (Hno p2)| |by apply (Ho p1 p2 y)].
    subst y. by destruct (Hno p1).
  - intros p'. unfold grab. destruct (decide (p' = PHand)) as [->|Hne].
    + rewrite set_place_eq. constructor; [|apply Hn]. intros Hin. apply Hp. apply (Ho p PHand m); [rewrite Hg; set_solver|done].
    + rewrite set_place_ne by done. destruct (decide (p' = p)) as [->|]; [by rewrite set_place_eq|by rewrite set_place_ne].
  - intros p' Hin. apply (grab_in p m l G) in Hin; [|done|done]. destruct Hin as [[_ <-] | [Hin _]]; [|by apply (H0 p')].
    apply (H0 p). rewrite Hg. set_solver.
  - unfold grab. rewrite set_place_ne by done. destruct (decide (PQueue 0 = p)) as [<-|]; [congruence|]. by rewrite set_place_ne.
Qed.

Lemma rep_put s G s' p m l1 l2 rest h X :
  msg_rep s G -> p <> PHand -> G p = l1 ++ l2 -> G PHand = m :: rest -> hdr s' p = Some h -> sq_rep (mlinks s') h (l1 ++ m :: l2) ->
  (forall p', p' <> p -> hdr s' p' = hdr s p') -> same_links X (mlinks s) (mlinks s') -> (forall y, y ∈ X -> y = m \/ y ∈ l1 ++ l2) ->
  msg_rep s' (put p (l1 ++ m :: l2) rest G).
Proof.
  intros Hr Hp Hg Hhand Hh Hl Hhd HL HX. pose proof Hr as [_ Ho Hn H0 Hz].
  pose proof (Hn PHand) as Hnh. rewrite Hhand in Hnh. apply NoDup_cons in Hnh as [Hmr Hnr].
  assert (m ∈ G PHand) as Hmh by (rewrite Hhand; set_solver). constructor.
  - apply (rep_lists s G s' _ p X h Hr Hh); [by unfold put; rewrite set_place_ne, set_place_eq|done|done| |].
    + intros p' y Hne Hnhand Hy Hin. destruct (HX y Hin) as [-> | Hin']; [by apply Hnhand, (Ho p' PHand m)|].
      apply Hne, (Ho p' p y Hy). by rewrite Hg.
    + intros p' Hne Hnh. unfold put. by rewrite !set_place_ne.
  - intros p1 p2 y Hy1 Hy2. apply (put_in p m l1 l2 rest G) in Hy1; [|done..]. apply (put_in p m l1 l2 rest G) in Hy2; [|done..].
    assert (forall p', m ∈ G p' -> p' = PHand) as Hno by (intros p' Hin; by apply (Ho p' PHand m)).
    destruct Hy1 as [[-> ->] | [Hy1 Hl1]], Hy2 as [[-> Ey] | [Hy2 Hl2]]; [done| | |by apply (Ho p1 p2 y)].
    + by destruct (Hl2 (Hno p2 Hy2)).
    + subst y. by destruct (Hl1 (Hno p1 Hy1)).
  - intros p'. unfold put. destruct (decide (p' = PHand)) as [->|Hne]; [by rewrite set_place_eq|].
    rewrite set_place_ne by done. destruct (decide (p' = p)) as [->|]; [rewrite set_place_eq; by apply (sq_nodup _ _ _ Hl)|by rewrite set_place_ne].
  - intros p' Hin. apply (put_in p m l1 l2 rest G) in Hin; [|done..]. destruct Hin as [[_ <-] | [Hin _]]; [by apply (H0 PHand)|by apply (H0 p')].
  - unfold put. rewrite set_place_ne by done. destruct (decide (PQueue 0 = p)) as [<-|]; [discriminate Hh|]. by rewrite set_place_ne.
Qed.

(** A message that was nowhere appears in one's hands, or disappears from
    them. *)
Lemma rep_new s G s' m :
  msg_rep s G -> m <> 0 -> (forall p, m ∉ G p) -> mlinks s' = mlinks s -> (forall p, hdr s' p = hdr s p) ->
  msg_rep s' (set_place PHand (m :: G PHand) G).
Proof.
  intros [Hl Ho Hn H0 Hz] Hm Hnew HL Hh.
  assert (forall p y, y ∈ set_place PHand (m :: G PHand) G p -> (p = PHand /\ y = m) \/ y ∈ G p) as Hin.
  { intros p y. destruct (decide (p = PHand)) as [->|]; [rewrite set_place_eq, elem_of_cons; naive_solver|rewrite set_place_ne by done; by right]. }
  constructor.
  - intros p h. rewrite Hh, HL. intros Hp. rewrite set_place_ne by (by intros ->). by apply Hl.
  - intros p1 p2 y Hy1%Hin Hy2%Hin. destruct Hy1 as [[-> ->]|Hy1], Hy2 as [[-> Ey]|Hy2]; [done|by destruct (Hnew p2)| |by apply (Ho p1 p2 y)].
    subst y. by destruct (Hnew p1).
  - intros p. destruct (decide (p = PHand)) as [->|]; [rewrite set_place_eq; by constructor|by rewrite set_place_ne].
  - intros p Hy%Hin. destruct Hy as [[_ <-]|Hy]; [done|by apply (H0 p)].
  - by rewrite set_place_ne.
Qed.

Lemma rep_drop s G m rest :
  msg_rep s G -> G PHand = m :: rest -> msg_rep s (set_place PHand rest G).
Proof.
  intros [Hl Ho Hn H0 Hz] Hg.
  assert (forall p y, y ∈ set_place PHand rest G p -> y ∈ G p) as Hin.
  { intros p y. destruct (decide (p = PHand)) as [->|]; [rewrite set_place_eq, Hg; set_solver|by rewrite set_place_ne]. }
  constructor.
  - intros p h Hp. rewrite set_place_ne by (by intros ->). by apply Hl.
  - intros p1 p2 y Hy1%Hin Hy2%Hin. by apply (Ho p1 p2 y).
  - intros p. destruct (decide (p = PHand)) as [->|]; [|by rewrite set_place_ne]. rewrite set_place_eq. pose proof (Hn PHand) as Hh. rewrite Hg in Hh. by apply NoDup_cons in Hh as [_ ?].
  - intros p Hy%Hin. by apply (H0 p).
  - by rewrite set_place_ne.
Qed.

Lemma rep_same s G s' : msg_rep s G -> mlinks s' = mlinks s -> (forall p, hdr s' p = hdr s p) -> msg_rep s' G.
Proof. intros [Hl Ho Hn H0 Hz] HL Hh. constructor; try done. intros p h. rewrite Hh, HL. apply Hl. Qed.

(** * Message queues: the messages of the queues

    The invariant of the messages: the queues are in order of priority and as
    long as they count, the pools hold the messages of their kind, and none of
    the preallocated messages is lost.  What allocation, insertion, removal and
    release do. *)

(** ** Priority queues of messages *)

(** The contents of a queue. *)
Definition contents (s : mq_state) (l : list Z) : list (Z * list Z) := map (body s) l.

Fixpoint pq_insert (m : Z * list Z) (l : list (Z * list Z)) : list (Z * list Z) :=
  match l with
  | [] => [m]
  | m' :: l' => if m.1 <=? m'.1 then m' :: pq_insert m l' else m :: l
  end.

(** The messages before and behind the place of a new one. *)
Fixpoint ahead (f : Z -> Z) (prio : Z) (l : list Z) : list Z :=
  match l with [] => [] | m :: l => if prio <=? f m then m :: ahead f prio l else [] end.
Fixpoint behind (f : Z -> Z) (prio : Z) (l : list Z) : list Z :=
  match l with [] => [] | m :: l' => if prio <=? f m then behind f prio l' else l end.

Lemma ahead_behind f prio l : ahead f prio l ++ behind f prio l = l.
Proof. induction l as [|m l IH]; simpl; [done|]. destruct (prio <=? f m); simpl; [by rewrite IH|done]. Qed.

Definition prios (s : mq_state) (m : Z) : Z := m_priority (msgs s m).

Lemma pq_insert_contents s m l :
  contents s (ahead (prios s) (prios s m) l ++ m :: behind (prios s) (prios s m) l) = pq_insert (body s m) (contents s l).
Proof.
  induction l as [|y l IH]; cbn [ahead behind contents map pq_insert app]; [done|].
  change ((body s m).1 <=? (body s y).1) with (prios s m <=? prios s y). destruct (_ <=? _); [|done]. simpl. f_equal. exact IH.
Qed.

Abbreviation in_order s := (StronglySorted (fun a b => prios s b <= prios s a)).

Lemma in_order_insert s m l : in_order s l -> in_order s (ahead (prios s) (prios s m) l ++ m :: behind (prios s) (prios s m) l).
Proof.
  induction 1 as [|y l Hs IH Hy]; simpl; [repeat constructor|]. rewrite Forall_forall in Hy. destruct (Z.leb_spec (prios s m) (prios s y)).
  - simpl. constructor; [done|]. apply Forall_forall. intros z Hz.
    assert (z = m \/ z ∈ l) as [-> | Hin]; [|done|by apply Hy]. rewrite <- (ahead_behind (prios s) (prios s m) l). set_solver.
  - constructor; [|constructor; [lia|]].
    + constructor; [done|]. by apply Forall_forall.
    + apply Forall_forall. intros z Hz. specialize (Hy z Hz). simpl in Hy. lia.
Qed.

Lemma in_order_ext s s' l : (forall m, m ∈ l -> prios s' m = prios s m) -> in_order s l -> in_order s' l.
Proof.
  intros H Hs. induction Hs as [|y l Hs IH Hy]; constructor.
  - apply IH. set_solver.
  - rewrite Forall_forall in Hy |- *. intros z Hz. rewrite !H by set_solver. by apply Hy.
Qed.

Lemma contents_ext s s' l : (forall m, m ∈ l -> msgs s' m = msgs s m) -> contents s' l = contents s l.
Proof. intros H. unfold contents. apply map_ext_in. intros m Hm. unfold body. rewrite H; [done|]. by apply list_elem_of_In. Qed.

Lemma find_place_spec fuel s prio l0 l :
  seg (flink (mlinks s)) (l0 ++ l) 0 -> 0 ∉ l0 ++ l -> (length l < fuel)%nat ->
  find_place fuel s prio (last_or l0 0) (hd_or l 0) = Some (last_or (l0 ++ ahead (prios s) prio l) 0).
Proof.
  revert l0 l. induction fuel as [|fuel IH]; intros l0 l Hs H0 Hf; [lia|]. simpl. destruct l as [|m l]; simpl in *; [by rewrite app_nil_r|].
  destruct (Z.eqb_spec m 0) as [->|_]; [set_solver|]. simpl. unfold prios at 1. rewrite Z.leb_antisym.
  destruct (m_priority (msgs s m) <? prio); simpl; [by rewrite app_nil_r|].
  pose proof Hs as [_ [Hy _]]%seg_app. rewrite Hy. rewrite (cons_middle m), (assoc_L (++)).
  rewrite <- (last_or_snoc l0 m 0) at 1. apply IH; [by rewrite <- (assoc_L (++))|by rewrite <- (assoc_L (++))|lia].
Qed.

(** ** The invariant *)

Definition is_dyn (s : mq_state) (m : Z) : Prop := m_type (msgs s m) = MQ_ALLOC_DYN.

#[export] Instance is_dyn_dec s m : Decision (is_dyn s m) := decide (m_type (msgs s m) = MQ_ALLOC_DYN).

(** How many messages of a queue come from the heap. *)
Definition dyn (s : mq_state) (l : list Z) : Z := Z.of_nat (length (filter (is_dyn s) l)).

(** [P]: the preallocated messages. *)
Record msg_inv (P : list Z) (s : mq_state) (G : ghost) : Prop := {
  mi_rep : msg_rep s G;
  mi_free m : m ∈ G PFree -> m_type (msgs s m) = MQ_ALLOC_FIXED;
  mi_irq m : m ∈ G PIrq -> m_type (msgs s m) = MQ_ALLOC_IRQ;
  mi_pool p m : m ∈ G p -> ~ is_dyn s m -> m ∈ P;
  mi_kept m : m ∈ P -> ~ is_dyn s m /\ exists p, m ∈ G p;
  mi_count q : q <> 0 -> nmsgs (msgqs s q) = Z.of_nat (length (G (PQueue q)));
  mi_order q : q <> 0 -> in_order s (G (PQueue q))
}.

Lemma dyn_bound P s G q : msg_inv P s G -> Z.of_nat (length (G (PQueue q))) <= dyn s (G (PQueue q)) + Z.of_nat (length P).
Proof.
  intros Hi. unfold dyn. set (l := G (PQueue q)). assert (length l <= length (filter (is_dyn s) l) + length P)%nat; [|lia].
  assert (length l = length (filter (is_dyn s) l) + length (filter (fun m => ~ is_dyn s m) l))%nat as ->.
  { induction l as [|m l IH]; [done|]. destruct (decide (is_dyn s m)).
    - rewrite filter_cons_True, filter_cons_False by tauto. simpl. lia.
    - rewrite filter_cons_False, filter_cons_True by tauto. simpl. lia. }
  apply Nat.add_le_mono_l, submseteq_length, NoDup_submseteq.
  - apply NoDup_filter, (mr_nodup _ _ (mi_rep _ _ _ Hi)).
  - intros m [Hd Hm]%list_elem_of_filter. by apply (mi_pool _ _ _ Hi (PQueue q)).
Qed.

Lemma dyn_ext s s' l : (forall m, m ∈ l -> m_type (msgs s' m) = m_type (msgs s m)) -> dyn s' l = dyn s l.
Proof.
  intros H. unfold dyn. do 2 f_equal. induction l as [|m l IH]; [done|].
  assert (is_dyn s' m <-> is_dyn s m) as Hm by (unfold is_dyn; rewrite H by set_solver; done).
  specialize (IH ltac:(intros x Hx; apply H; set_solver)). destruct (decide (is_dyn s m)).
  - rewrite !filter_cons_True by tauto. by f_equal.
  - by rewrite !filter_cons_False by tauto.
Qed.

Lemma dyn_nonneg s l : 0 <= dyn s l.
Proof. unfold dyn. lia. Qed.

(** ** Changes that keep it *)

(** The invariant only looks at the messages, their lists and the counts. *)
Lemma msg_inv_same P s G s' :
  msg_inv P s G -> mlinks s' = mlinks s -> msgs s' = msgs s -> g_msgfree s' = g_msgfree s -> g_msgfreeirq s' = g_msgfreeirq s ->
  (forall q, q <> 0 -> msglist (msgqs s' q) = msglist (msgqs s q) /\ nmsgs (msgqs s' q) = nmsgs (msgqs s q)) -> msg_inv P s' G.
Proof.
  intros [Hr Hf Hi Hp Hk Hc Ho] EL EM EF EI EQ. unfold is_dyn in *.
  assert (forall p, hdr s' p = hdr s p) as Hh.
  { intros [| | |q]; simpl; [by rewrite EF|by rewrite EI|done|]. destruct (Z.eqb_spec q 0); [done|]. by destruct (EQ q) as [-> _]. }
  constructor; unfold is_dyn; try rewrite EM; try done.
  - by apply (rep_same s).
  - intros q Hq. destruct (EQ q Hq) as [_ ->]. by apply Hc.
  - intros q Hq. apply (in_order_ext s); [|by apply Ho]. intros m _. unfold prios. by rewrite EM.
Qed.

(** Messages move, without changing. *)
Lemma msg_inv_move P s G s' G' :
  msg_inv P s G -> msg_rep s' G' -> msgs s' = msgs s ->
  (forall p y, y ∈ G' p -> exists p', y ∈ G p') -> (forall p y, y ∈ G p -> ~ is_dyn s y -> exists p', y ∈ G' p') ->
  (forall y, y ∈ G' PFree -> m_type (msgs s y) = MQ_ALLOC_FIXED) -> (forall y, y ∈ G' PIrq -> m_type (msgs s y) = MQ_ALLOC_IRQ) ->
  (forall q, q <> 0 -> nmsgs (msgqs s' q) = Z.of_nat (length (G' (PQueue q))) /\ in_order s (G' (PQueue q))) -> msg_inv P s' G'.
Proof.
  intros Hi Hr EM Hsub Hkept HF HI HQ. constructor; unfold is_dyn; rewrite ?EM; try done.
  - intros p y Hy Hd. destruct (Hsub p y Hy) as [p' Hy']. by apply (mi_pool _ _ _ Hi p').
  - intros y Hy. destruct (mi_kept _ _ _ Hi y Hy) as [Hd [p Hp]]. split; [done|]. by apply (Hkept p).
  - intros q Hq. by apply HQ.
  - intros q Hq. apply (in_order_ext s); [|by apply HQ]. intros m _. unfold prios. by rewrite EM.
Qed.

(** A message in one's hands changes. *)
Lemma msg_inv_write P s G m v :
  msg_inv P s G -> m ∈ G PHand -> m_type v = m_type (msgs s m) -> msg_inv P (set_msg m v s) G.
Proof.
  intros [Hr Hf Hi Hp Hk Hc Ho] Hm Ht. assert (forall y, m_type (msgs (set_msg m v s) y) = m_type (msgs s y)) as Hty.
  { intros y. simpl. unfold upd. by destruct (Z.eqb_spec y m) as [->|]. }
  constructor; unfold is_dyn; try (setoid_rewrite Hty); try done.
  - by apply (rep_same s).
  - intros q Hq. apply (in_order_ext s); [|by apply Ho]. intros y Hy. unfold prios. simpl. rewrite upd_ne; [done|]. intros ->.
    discriminate (mr_once _ _ Hr _ _ _ Hm Hy).
Qed.

(** The parts of the state that have nothing to do with messages. *)
Definition untouched (s s' : mq_state) : Prop :=
  qk s' = qk s /\ msgqs s' = msgqs s /\ descs s' = descs s /\ msgwaitq s' = msgwaitq s.

(** ** Allocation *)

Lemma grab_kept p m l G y p' : p <> PHand -> G p = m :: l -> y ∈ G p' -> exists p'', y ∈ grab p m l G p''.
Proof.
  intros Hp Hg Hy. destruct (decide (y = m)) as [->|Hne].
  - exists PHand. apply grab_in; [done|done|by left].
  - exists p'. apply grab_in; [done|done|]. right. split; [done|]. intros ->. rewrite Hg in Hy. set_solver.
Qed.

Lemma grab_sub p m l G y p' : p <> PHand -> G p = m :: l -> y ∈ grab p m l G p' -> exists p'', y ∈ G p''.
Proof.
  intros Hp Hg Hy. apply grab_in in Hy; [|done|done]. destruct Hy as [[_ ->] | [Hy _]]; [exists p; rewrite Hg; set_solver|by exists p'].
Qed.

(** Taking a message from a pool. *)
Lemma msg_inv_take P s G s' p m l h :
  msg_inv P s G -> p = PFree \/ p = PIrq -> G p = m :: l -> hdr s' p = Some h -> sq_rep (mlinks s') h l ->
  (forall p', p' <> p -> hdr s' p' = hdr s p') -> same_links (m :: l) (mlinks s) (mlinks s') -> msgs s' = msgs s -> msgqs s' = msgqs s ->
  msg_inv P s' (grab p m l G).
Proof.
  intros Hi Hp Hg Hh Hl Hhd HL EM EQ. assert (p <> PHand) as Hnh by (by destruct Hp; subst).
  assert (forall q, grab p m l G (PQueue q) = G (PQueue q)) as HQ by (intros q; unfold grab; rewrite !set_place_ne; by destruct Hp; subst).
  apply (msg_inv_move P s G s'); [done| |done| | | | |].
  - by apply (rep_grab s G s' p m l h); try done; apply (mi_rep _ _ _ Hi).
  - intros p' y. by apply grab_sub.
  - intros p' y Hy _. by apply (grab_kept p m l G y p').
  - intros y Hy. apply grab_in in Hy; [|done|done]. destruct Hy as [[? _] | [Hy _]]; [done|]. by apply (mi_free _ _ _ Hi).
  - intros y Hy. apply grab_in in Hy; [|done|done]. destruct Hy as [[? _] | [Hy _]]; [done|]. by apply (mi_irq _ _ _ Hi).
  - intros q Hq. rewrite HQ, EQ. split; [by apply (mi_count _ _ _ Hi)|by apply (mi_order _ _ _ Hi)].
Qed.

(** What allocation has done: the message [m] is in one's hands. *)
Definition allocated (P : list Z) (s : mq_state) (G : ghost) (s' : mq_state) (G' : ghost) (m : Z) : Prop :=
  m <> 0 /\ msg_inv P s' G' /\ G' PHand = m :: G PHand /\ (forall q, G' (PQueue q) = G (PQueue q)) /\ untouched s s' /\
  (forall y, y <> m -> msgs s' y = msgs s y).

Lemma take_allocated P s G s' p m l h :
  msg_inv P s G -> p = PFree \/ p = PIrq -> G p = m :: l -> hdr s' p = Some h -> sq_rep (mlinks s') h l ->
  (forall p', p' <> p -> hdr s' p' = hdr s p') -> same_links (m :: l) (mlinks s) (mlinks s') -> msgs s' = msgs s -> untouched s s' ->
  allocated P s G s' (grab p m l G) m /\ ~ is_dyn s' m.
Proof.
  intros Hi Hp Hg Hh Hl Hhd HL EM Hu. split; [split_and!|].
  - intros ->. apply (mr_null _ _ (mi_rep _ _ _ Hi) p). rewrite Hg. set_solver.
  - eapply (msg_inv_take P s); try done. apply Hu.
  - unfold grab. by rewrite set_place_eq.
  - intros q. unfold grab. rewrite !set_place_ne; by destruct Hp; subst.
  - done.
  - intros y _. by rewrite EM.
  - unfold is_dyn. rewrite EM. destruct Hp as [-> | ->]; [rewrite (mi_free _ _ _ Hi)|rewrite (mi_irq _ _ _ Hi)]; rewrite ?Hg; set_solver.
Qed.

Lemma mq_msgalloc_task P s G heap :
  msg_inv P s G -> in_irq (qk s) = false -> (G PFree = [] -> heap <> 0 /\ forall p, heap ∉ G p) ->
  exists s' m G', mq_msgalloc s heap = Some (s', m) /\ allocated P s G s' G' m.
Proof.
  intros Hi Hirq Hheap. unfold mq_msgalloc. pose proof (mr_list _ _ (mi_rep _ _ _ Hi) PFree _ eq_refl) as Hfree.
  pose proof (sq_remfirst_spec _ _ _ Hfree) as Hrem. destruct (G PFree) as [|m l] eqn:Eg.
  - destruct (Hheap eq_refl) as [Hh Hnew]. rewrite Hrem. cbn [mbind option_bind qk set_g_msgfree set_mlinks]. rewrite Hirq. cbn [Z.eqb]. rewrite (proj2 (Z.eqb_neq heap 0)) by done.
    cbn [negb assert mbind option_bind]. eexists _, heap, (set_place PHand (heap :: G PHand) G). split; [done|]. set (s' := set_msg heap _ _).
    assert (forall y, y <> heap -> msgs s' y = msgs s y) as Hsame by (intros y Hy; simpl; by rewrite upd_ne).
    assert (forall p y, y ∈ G p -> msgs s' y = msgs s y) as Hold by (intros p y Hy; apply Hsame; intros ->; by apply (Hnew p)).
    assert (forall q, set_place PHand (heap :: G PHand) G (PQueue q) = G (PQueue q)) as HQ by (intros q; by rewrite set_place_ne).
    pose proof Hi as [Hr Hf Hirqs Hp Hk Hc Ho]. split_and!; [done| |by rewrite set_place_eq|done|done|done]. constructor; unfold is_dyn.
    + by apply (rep_new s).
    + intros y Hy. rewrite set_place_ne in Hy by done. rewrite (Hold PFree) by done. by apply Hf.
    + intros y Hy. rewrite set_place_ne in Hy by done. rewrite (Hold PIrq) by done. by apply Hirqs.
    + intros p y Hy Hd. destruct (decide (y = heap)) as [->|Hne]; [by destruct Hd; simpl; rewrite upd_eq|]. rewrite Hsame in Hd by done.
      apply (Hp p); [|done]. unfold set_place in Hy. destruct (decide (p = PHand)) as [->|]; [|done]. set_solver.
    + intros y Hy. destruct (Hk y Hy) as [Hd [p Hyp]]. rewrite (Hold p) by done. split; [done|]. exists p. unfold set_place. destruct (decide (p = PHand)) as [->|]; [set_solver|done].
    + intros q Hq. rewrite HQ. by apply Hc.
    + intros q Hq. rewrite HQ. apply (in_order_ext s); [|by apply Ho]. intros y Hy. unfold prios. by rewrite (Hold (PQueue q)).
  - destruct Hrem as (L & q & -> & Hq & HL). cbn [mbind option_bind qk set_g_msgfree set_mlinks]. rewrite Hirq.
    destruct (take_allocated P s G (set_g_msgfree q (set_mlinks L s)) PFree m l q Hi ltac:(by left) Eg) as [Ha _]; try done; [by intros []|].
    rewrite (proj2 (Z.eqb_neq m 0)) by apply Ha. by eexists _, m, _.
Qed.

Lemma mq_msgalloc_irq P s G :
  msg_inv P s G -> in_irq (qk s) = true ->
  exists s' m, mq_msgalloc s 0 = Some (s', m) /\
    (m = 0 /\ msg_inv P s' G /\ untouched s s' /\ msgs s' = msgs s \/
     exists G', allocated P s G s' G' m /\ ~ is_dyn s' m /\ msgs s' = msgs s).
Proof.
  intros Hi Hirq. unfold mq_msgalloc. pose proof (mr_list _ _ (mi_rep _ _ _ Hi) PFree _ eq_refl) as Hfree.
  pose proof (mr_list _ _ (mi_rep _ _ _ Hi) PIrq _ eq_refl) as Hirqs.
  pose proof (sq_remfirst_spec _ _ _ Hfree) as Hrem. destruct (G PFree) as [|m l] eqn:Eg.
  - rewrite Hrem. cbn [mbind option_bind qk set_g_msgfree set_mlinks mlinks g_msgfreeirq]. rewrite Hirq. cbn [Z.eqb].
    pose proof (sq_remfirst_spec _ _ _ Hirqs) as Hrem'. destruct (G PIrq) as [|m l] eqn:Ei.
    + rewrite Hrem'. cbn [mbind option_bind]. eexists _, 0. split; [done|]. left. split_and!; [done| |done|done].
      by apply (msg_inv_same P s).
    + destruct Hrem' as (L & q & -> & Hq & HL). cbn [mbind option_bind]. eexists _, m. split; [done|]. right. exists (grab PIrq m l G).
      destruct (take_allocated P s G (set_g_msgfreeirq q (set_mlinks L (set_g_msgfree (g_msgfree s) (set_mlinks (mlinks s) s)))) PIrq m l q Hi ltac:(by right) Ei) as [Ha Hd]; try done.
      by intros [].
  - destruct Hrem as (L & q & -> & Hq & HL). cbn [mbind option_bind qk set_g_msgfree set_mlinks]. rewrite Hirq.
    destruct (take_allocated P s G (set_g_msgfree q (set_mlinks L s)) PFree m l q Hi ltac:(by left) Eg) as [Ha Hd]; try done; [by intros []|].
    rewrite (proj2 (Z.eqb_neq m 0)) by apply Ha. eexists _, m. split; [done|]. right. by eexists.
Qed.

(** * Message queues: insertion, removal and release of messages

    The three pieces that move a message: into its place in a queue, out of the
    front of it, and back to where it came from. *)

(** ** Putting a message down *)

Lemma put_kept p m l1 l2 rest G y p' :
  p <> PHand -> G p = l1 ++ l2 -> G PHand = m :: rest -> m ∉ rest -> y ∈ G p' -> exists p'', y ∈ put p (l1 ++ m :: l2) rest G p''.
Proof.
  intros Hp Hg Hh Hm Hy. destruct (decide (y = m)) as [->|Hne].
  - exists p. apply put_in; [done..|by left].
  - exists p'. apply put_in; [done..|]. right. by split.
Qed.

Lemma put_sub p m l1 l2 rest G y p' :
  p <> PHand -> G p = l1 ++ l2 -> G PHand = m :: rest -> m ∉ rest -> y ∈ put p (l1 ++ m :: l2) rest G p' -> exists p'', y ∈ G p''.
Proof.
  intros Hp Hg Hh Hm Hy. apply put_in in Hy; [|done..]. destruct Hy as [[_ ->] | [Hy _]]; [exists PHand; rewrite Hh; set_solver|by exists p'].
Qed.

Lemma hand_fresh P s G m rest : msg_inv P s G -> G PHand = m :: rest -> m <> 0 /\ (m ∉ rest) /\ forall p, p <> PHand -> m ∉ G p.
Proof.
  intros Hi Hh. pose proof (mi_rep _ _ _ Hi) as [_ Ho Hn H0 _]. split_and!.
  - intros ->. apply (H0 PHand). rewrite Hh. set_solver.
  - pose proof (Hn PHand) as Hnh. rewrite Hh in Hnh. by apply NoDup_cons in Hnh as [? _].
  - intros p Hp Hin. apply Hp, (Ho p PHand m Hin). rewrite Hh. set_solver.
Qed.

(** A message goes to a list of its kind. *)
Lemma msg_inv_put P s G s' p m l1 l2 rest h X :
  msg_inv P s G -> p <> PHand -> G p = l1 ++ l2 -> G PHand = m :: rest -> hdr s' p = Some h -> sq_rep (mlinks s') h (l1 ++ m :: l2) ->
  (forall p', p' <> p -> hdr s' p' = hdr s p') -> same_links X (mlinks s) (mlinks s') -> (forall y, y ∈ X -> y = m \/ y ∈ l1 ++ l2) ->
  msgs s' = msgs s -> (p = PFree -> m_type (msgs s m) = MQ_ALLOC_FIXED) -> (p = PIrq -> m_type (msgs s m) = MQ_ALLOC_IRQ) ->
  (forall q, q <> 0 -> p = PQueue q -> in_order s (l1 ++ m :: l2)) ->
  (forall q, q <> 0 -> nmsgs (msgqs s' q) = nmsgs (msgqs s q) + (if decide (p = PQueue q) then 1 else 0)) ->
  msg_inv P s' (put p (l1 ++ m :: l2) rest G).
Proof.
  intros Hi Hp Hg Hh Hhd Hl Hoth HL HX EM HF HI Ho Hc. destruct (hand_fresh P s G m rest Hi Hh) as (H0 & Hmr & _).
  apply (msg_inv_move P s G s'); [done| |done| | | | |].
  - eapply (rep_put s G s' p m l1 l2 rest h X); try done. apply (mi_rep _ _ _ Hi).
  - intros p' y. by apply put_sub.
  - intros p' y Hy _. by apply (put_kept p m l1 l2 rest G y p').
  - intros y Hy. apply put_in in Hy; [|done..]. destruct Hy as [[<- ->] | [Hy _]]; [by apply HF|by apply (mi_free _ _ _ Hi)].
  - intros y Hy. apply put_in in Hy; [|done..]. destruct Hy as [[<- ->] | [Hy _]]; [by apply HI|by apply (mi_irq _ _ _ Hi)].
  - intros q Hq. rewrite (Hc q Hq), (mi_count _ _ _ Hi q Hq). unfold put. rewrite set_place_ne by done.
    destruct (decide (p = PQueue q)) as [->|Hne].
    + rewrite set_place_eq, Hg, !length_app. simpl. split; [lia|by apply (Ho q)].
    + rewrite set_place_ne by congruence. split; [lia|by apply (mi_order _ _ _ Hi)].
Qed.

(** ** Insertion into a queue *)

Definition insert_at (s : mq_state) (q m : Z) (l : list Z) : list Z :=
  ahead (prios s) (prios s m) l ++ m :: behind (prios s) (prios s m) l.

(** Placing a message with its header filled in. *)
Definition inserted (s : mq_state) (q m : Z) : option mq_state :=
  prev ← find_place (msg_fuel s q) s (prios s m) 0 (head (msglist (msgqs s q)));
  '(L, l) ←
    (if prev =? 0 then sq_addfirst (mlinks s) m (msglist (msgqs s q)) else sq_addafter (mlinks s) prev m (msglist (msgqs s q)));
  Some (upd_msgq q (fun v => set_nmsgs (i16 (nmsgs v + 1)) (set_msglist l v)) (set_mlinks L s)).

Lemma insert_links s G P q m rest :
  msg_inv P s G -> q <> 0 -> G PHand = m :: rest ->
  exists L l, (prev ← find_place (msg_fuel s q) s (prios s m) 0 (head (msglist (msgqs s q)));
      if prev =? 0 then sq_addfirst (mlinks s) m (msglist (msgqs s q)) else sq_addafter (mlinks s) prev m (msglist (msgqs s q))) = Some (L, l) /\
    sq_rep L l (insert_at s q m (G (PQueue q))) /\ same_links (m :: G (PQueue q)) (mlinks s) L.
Proof.
  intros Hi Hq Hh. destruct (hand_fresh P s G m rest Hi Hh) as (H0 & _ & Hout). specialize (Hout (PQueue q) ltac:(done)).
  assert (hdr s (PQueue q) = Some (msglist (msgqs s q))) as Hhd by (simpl; by rewrite (proj2 (Z.eqb_neq q 0))).
  pose proof (mr_list _ _ (mi_rep _ _ _ Hi) _ _ Hhd) as Hr. unfold insert_at. set (p := prios s m).
  rewrite (sq_head _ _ _ Hr). pose proof (find_place_spec (msg_fuel s q) s p [] (G (PQueue q))) as Ef. change (last_or [] 0) with 0 in Ef.
  rewrite Ef; [clear Ef|apply Hr|apply Hr|unfold msg_fuel; rewrite (mi_count _ _ _ Hi q Hq); lia].
  cbn [mbind option_bind app]. pose proof (ahead_behind (prios s) p (G (PQueue q))) as Eab.
  destruct (ahead (prios s) p (G (PQueue q))) as [|a l _] eqn:Ea using rev_ind.
  - simpl in Eab |- *. rewrite Eab. destruct (sq_addfirst_spec _ _ _ m Hr Hout H0) as (L & l & -> & ? & ?). by exists L, l.
  - rewrite last_or_snoc. rewrite <- (assoc_L (++)) in Eab. simpl in Eab. rewrite <- Eab in Hr, Hout.
    assert (a <> 0) as Ha0 by (intros ->; apply (sq_null _ _ _ Hr); set_solver). rewrite (proj2 (Z.eqb_neq a 0)) by done.
    destruct (sq_addafter_spec _ _ _ _ _ m Hr Hout H0) as (L & l' & -> & Hr' & HL). exists L, l'. rewrite <- (assoc_L (++)). simpl. split_and!; [done|done|].
    by rewrite <- Eab.
Qed.

Lemma inserted_spec s G P q m rest :
  msg_inv P s G -> q <> 0 -> G PHand = m :: rest -> nmsgs (msgqs s q) < 32767 ->
  exists s' l, inserted s q m = Some s' /\ msg_inv P s' (put (PQueue q) (insert_at s q m (G (PQueue q))) rest G) /\ msgs s' = msgs s /\
    s' = upd_msgq q (fun v => set_nmsgs (nmsgs v + 1) (set_msglist l v)) (set_mlinks (mlinks s') s).
Proof.
  intros Hi Hq Hh Hmax. destruct (insert_links s G P q m rest Hi Hq Hh) as (L & l & El & Hr & HL). unfold inserted.
  destruct (find_place _ _ _ _ _) as [prev|]; [|done]. cbn [mbind option_bind] in El |- *. rewrite El. cbn [mbind option_bind].
  pose proof (mi_count _ _ _ Hi q Hq) as Hc. unfold upd_msgq. cbn [msgqs set_mlinks]. rewrite i16_small by lia. eexists _, l. split; [done|]. split; [|done].
  unfold insert_at in *. eapply (msg_inv_put P s G _ (PQueue q) m _ _ rest l); try done.
  - by rewrite ahead_behind.
  - simpl. rewrite (proj2 (Z.eqb_neq q 0)) by done. by rewrite upd_eq.
  - intros [| | |q'] Hne; try done. simpl. destruct (q' =? 0); [done|]. rewrite upd_ne by congruence. done.
  - intros y Hy. rewrite ahead_behind. apply elem_of_cons in Hy. done.
  - intros q' _ _. apply in_order_insert. by apply (mi_order _ _ _ Hi).
  - intros q' Hq'. simpl. unfold upd. destruct (Z.eqb_spec q' q) as [->|Hne].
    + rewrite decide_True by done. done.
    + rewrite decide_False by congruence. lia.
Qed.

(** ** Removal from a queue *)

Lemma removed_spec s G P q m l :
  msg_inv P s G -> q <> 0 -> G (PQueue q) = m :: l ->
  exists L h, sq_remfirst (mlinks s) (msglist (msgqs s q)) = Some (m, (L, h)) /\ m <> 0 /\
    msg_inv P (upd_msgq q (fun v => set_nmsgs (nmsgs v - 1) v) (upd_msgq q (set_msglist h) (set_mlinks L s))) (grab (PQueue q) m l G).
Proof.
  intros Hi Hq Hg. pose proof (mi_rep _ _ _ Hi) as Hr.
  assert (hdr s (PQueue q) = Some (msglist (msgqs s q))) as Hhd by (simpl; by rewrite (proj2 (Z.eqb_neq q 0))).
  pose proof (sq_remfirst_spec _ _ _ (mr_list _ _ Hr _ _ Hhd)) as Hrem. rewrite Hg in Hrem. destruct Hrem as (L & h & -> & Hh & HL).
  exists L, h. split_and!; [done|intros ->; apply (mr_null _ _ Hr (PQueue q)); rewrite Hg; set_solver|].
  pose proof (mi_count _ _ _ Hi) as Hc. pose proof (mi_order _ _ _ Hi) as Ho.
  apply (msg_inv_move P s G); [done| |done| | | | |].
  - eapply (rep_grab s G _ (PQueue q) m l h); try done.
    + simpl. rewrite (proj2 (Z.eqb_neq q 0)) by done. by rewrite !upd_eq.
    + intros [| | |q'] Hne; try done. simpl. destruct (q' =? 0); [done|]. by rewrite !upd_ne by congruence.
  - intros p' y. by apply grab_sub.
  - intros p' y Hy _. by apply (grab_kept (PQueue q) m l G y p').
  - intros y Hy. apply grab_in in Hy; [|done|done]. destruct Hy as [[? _] | [Hy _]]; [done|]. by apply (mi_free _ _ _ Hi).
  - intros y Hy. apply grab_in in Hy; [|done|done]. destruct Hy as [[? _] | [Hy _]]; [done|]. by apply (mi_irq _ _ _ Hi).
  - intros q' Hq'. unfold grab. rewrite set_place_ne by done. simpl. destruct (decide (q' = q)) as [->|Hne].
    + rewrite set_place_eq, !upd_eq. simpl. specialize (Hc q Hq). specialize (Ho q Hq). rewrite Hg in Hc, Ho. simpl in Hc. split; [lia|]. by inversion Ho.
    + rewrite set_place_ne by congruence. rewrite !upd_ne by done. split; [by apply Hc|by apply Ho].
Qed.

(** ** Release *)

Lemma mq_msgfree_spec s G P m rest :
  msg_inv P s G -> G PHand = m :: rest ->
  exists s' G', mq_msgfree s m = Some s' /\ msg_inv P s' G' /\ G' PHand = rest /\ (forall q, G' (PQueue q) = G (PQueue q)) /\
    untouched s s' /\ msgs s' = msgs s /\ same_links (m :: G PFree ++ G PIrq) (mlinks s) (mlinks s') /\
    (forall y, y ∈ G' PFree <-> y ∈ G PFree \/ y = m /\ m_type (msgs s m) = MQ_ALLOC_FIXED) /\
    (forall y, y ∈ G' PIrq <-> y ∈ G PIrq \/ y = m /\ m_type (msgs s m) = MQ_ALLOC_IRQ).
Proof.
  intros Hi Hh. destruct (hand_fresh P s G m rest Hi Hh) as (H0 & Hmr & Hout). unfold mq_msgfree. destruct (m_type (msgs s m)) eqn:Et.
  - pose proof (mr_list _ _ (mi_rep _ _ _ Hi) PFree _ eq_refl) as Hr.
    destruct (sq_addlast_spec _ _ _ m Hr (Hout PFree ltac:(done)) H0) as (L & h & -> & Hr' & HL). cbn [mbind option_bind].
    exists (set_g_msgfree h (set_mlinks L s)), (put PFree (G PFree ++ [m]) rest G). split_and!; [done| |by unfold put; rewrite set_place_eq| |done|done| | |].
    + eapply (msg_inv_put P s G _ PFree m (G PFree) [] rest h); try done; [by rewrite app_nil_r|by intros []| |].
      * intros y Hy. rewrite app_nil_r. apply elem_of_cons in Hy. done.
      * intros q Hq. rewrite decide_False by done. simpl. lia.
    + intros q. unfold put. by rewrite !set_place_ne.
    + intros y Hy. apply HL. set_solver.
    + intros y. unfold put. rewrite set_place_ne, set_place_eq by done. set_solver.
    + intros y. unfold put. rewrite !set_place_ne by done. naive_solver.
  - exists s, (set_place PHand rest G). pose proof (rep_drop s G m rest (mi_rep _ _ _ Hi) Hh) as Hr.
    assert (forall p y, y ∈ set_place PHand rest G p -> y ∈ G p) as Hsub.
    { intros p y. unfold set_place. destruct (decide (p = PHand)) as [->|]; [rewrite Hh; set_solver|done]. }
    split_and!; [done| |by rewrite set_place_eq|intros q; by rewrite set_place_ne|done|done|done|intros y; rewrite set_place_ne by done; naive_solver..].
    apply (msg_inv_move P s G); try done.
    + intros p y Hy%Hsub. by exists p.
    + intros p y Hy Hd. exists p. unfold set_place. destruct (decide (p = PHand)) as [->|]; [|done]. rewrite Hh in Hy.
      apply elem_of_cons in Hy as [-> | Hy]; [by destruct Hd|done].
    + intros y Hy%Hsub. by apply (mi_free _ _ _ Hi).
    + intros y Hy%Hsub. by apply (mi_irq _ _ _ Hi).
    + intros q Hq. rewrite set_place_ne by done. split; [by apply (mi_count _ _ _ Hi)|by apply (mi_order _ _ _ Hi)].
  - pose proof (mr_list _ _ (mi_rep _ _ _ Hi) PIrq _ eq_refl) as Hr.
    destruct (sq_addlast_spec _ _ _ m Hr (Hout PIrq ltac:(done)) H0) as (L & h & -> & Hr' & HL). cbn [mbind option_bind].
    exists (set_g_msgfreeirq h (set_mlinks L s)), (put PIrq (G PIrq ++ [m]) rest G). split_and!; [done| |by unfold put; rewrite set_place_eq| |done|done| | |].
    + eapply (msg_inv_put P s G _ PIrq m (G PIrq) [] rest h); try done; [by rewrite app_nil_r|by intros []| |].
      * intros y Hy. rewrite app_nil_r. apply elem_of_cons in Hy. done.
      * intros q Hq. rewrite decide_False by done. simpl. lia.
    + intros q. unfold put. by rewrite !set_place_ne.
    + intros y Hy. apply HL. set_solver.
    + intros y. unfold put. rewrite !set_place_ne by done. naive_solver.
    + intros y. unfold put. rewrite set_place_ne, set_place_eq by done. set_solver.
Qed.
