(* ===== verification/MqueueInv.v ===== *)
(** * Message queues: counting waits and wake-ups

    The counters of a queue against the tasks that wait for it, and the rule
    that no wake-up is lost: while a receiver waits, there are not more messages
    than tasks that will look for one; while a sender waits, there is not more
    room than tasks that will fill it or pass it on. *)

From stdpp Require Import base tactics numbers sets list sorting.
From S2P Require Import Prelude Queue Sched Sem SemSystem Mqueue QueueProps SchedProps SchedOps SchedKernel SchedPriority SchedTheorems MqueueMsgs.

(** The counters of a queue. *)
Record qcount := mk_count { c_msgs : Z; c_max : Z; c_full : Z; c_empty : Z }.

Definition count_q (v : mqueue_inode_s) : qcount := mk_count (nmsgs v) (maxmsgs v) (nwaitnotfull v) (nwaitnotempty v).

Lemma tally_member f l y : y ∈ l -> f y = true -> 0 < tally f l.
Proof.
  intros Hy Hf. induction l as [|z l IH]; [by apply elem_of_nil in Hy|]. simpl. pose proof (tally_bounds f l).
  apply elem_of_cons in Hy as [->|Hin]; [rewrite Hf; simpl; lia|]. specialize (IH Hin). destruct (f z); simpl; lia.
Qed.

Section books.
Context (D : Z -> Z).

(** ** What a task stands for *)

(** It waits for messages, or for room, in [q]. *)
Definition rwaits (p : mq_pc) (w q : Z) : bool := match p with PcRcvWait _ => w =? q | _ => false end.
Definition swaits (p : mq_pc) (w q : Z) : bool := match p with PcSendWait _ _ _ => w =? q | _ => false end.

Lemma rwaits_0 p q : q <> 0 -> rwaits p 0 q = false.
Proof. destruct p; cbn [rwaits]; try done. intros. apply Z.eqb_neq. congruence. Qed.

Lemma swaits_0 p q : q <> 0 -> swaits p 0 q = false.
Proof. destruct p; cbn [swaits]; try done. intros. apply Z.eqb_neq. congruence. Qed.

(** It has been woken to look for a message in [q], or is about to wake another
    task. *)
Definition rcredit (p : mq_pc) (w e q : Z) : bool :=
  match p with
  | PcRcvWait d => (D d =? q) && (w =? 0) && (e =? 0)
  | PcSendNotify d | PcSendWake d => D d =? q
  | _ => false
  end.

(** It has been woken to look for room, is about to fill it, or to wake
    another task. *)
Definition scredit (p : mq_pc) (w e q : Z) : bool :=
  match p with
  | PcSendWait d _ _ => (D d =? q) && (w =? 0) && (e =? 0)
  | PcSendAlloc d _ _ | PcSendInsert d _ _ _ | PcRcvGot d _ | PcRcvFreed d _ | PcRcvWake d _ => D d =? q
  | _ => false
  end.

(** A task that waits has no error; one that does not wait has none either, or
    the wait has been cancelled. *)
Definition mpc_ok (p : mq_pc) (w e : Z) : Prop :=
  match p with
  | PcRcvWait d | PcSendWait d _ _ => D d <> 0 /\ (w = D d /\ e = 0 \/ w = 0)
  | PcNone => w = 0
  | PcSendAlloc d _ _ | PcSendInsert d _ _ _ | PcSendNotify d | PcSendWake d | PcRcvGot d _ | PcRcvFreed d _ => w = 0 /\ D d <> 0
  | PcRcvWake d _ => w = 0 /\ D d <> 0
  end.

Section tasks.
Context (T : list Z) (HT : NoDup T).

Record mbooks (W E : Z -> Z) (Q : Z -> mq_pc) (C : Z -> qcount) : Prop := {
  mb_empty q : q <> 0 -> c_empty (C q) = tally (fun x => rwaits (Q x) (W x) q) T;
  mb_full q : q <> 0 -> c_full (C q) = tally (fun x => swaits (Q x) (W x) q) T;
  mb_rcredit q : q <> 0 -> 0 < c_empty (C q) -> c_msgs (C q) <= tally (fun x => rcredit (Q x) (W x) (E x) q) T;
  mb_scredit q : q <> 0 -> 0 < c_full (C q) -> c_max (C q) - c_msgs (C q) <= tally (fun x => scredit (Q x) (W x) (E x) q) T;
  mb_pc x : x ∈ T -> mpc_ok (Q x) (W x) (E x)
}.

(** ** One task changes *)

(** What the change of task [x] must do to the counters of [q]. *)
Definition fits (p : mq_pc) (w e : Z) (c : qcount) (p' : mq_pc) (w' e' : Z) (c' : qcount) (q : Z) : Prop :=
  c_empty c' = c_empty c - Z.b2z (rwaits p w q) + Z.b2z (rwaits p' w' q) /\
  c_full c' = c_full c - Z.b2z (swaits p w q) + Z.b2z (swaits p' w' q) /\
  (0 < c_empty c' -> 0 < c_empty c /\ c_msgs c' - c_msgs c <= Z.b2z (rcredit p' w' e' q) - Z.b2z (rcredit p w e q) \/ c_msgs c' <= 0) /\
  (0 < c_full c' ->
     0 < c_full c /\ c_max c' - c_msgs c' - (c_max c - c_msgs c) <= Z.b2z (scredit p' w' e' q) - Z.b2z (scredit p w e q) \/
     c_max c' <= c_msgs c').

Lemma mbooks_change x W E Q C W' E' Q' C' :
  mbooks W E Q C -> x ∈ T -> (forall y, y <> x -> W' y = W y /\ E' y = E y /\ Q' y = Q y) ->
  mpc_ok (Q' x) (W' x) (E' x) ->
  (forall q, q <> 0 -> fits (Q x) (W x) (E x) (C q) (Q' x) (W' x) (E' x) (C' q) q) -> mbooks W' E' Q' C'.
Proof.
  intros [He Hf Hr Hs Hp] Hx Hy Hpc Hfit. constructor.
  - intros q Hq. destruct (Hfit q Hq) as (-> & _). rewrite He by done. rewrite (tally_change (fun x => rwaits (Q x) (W x) q) (fun x => rwaits (Q' x) (W' x) q) T x HT Hx); [lia|].
    intros y Hne. by destruct (Hy y Hne) as (-> & _ & ->).
  - intros q Hq. destruct (Hfit q Hq) as (_ & -> & _). rewrite Hf by done. rewrite (tally_change (fun x => swaits (Q x) (W x) q) (fun x => swaits (Q' x) (W' x) q) T x HT Hx); [lia|].
    intros y Hne. by destruct (Hy y Hne) as (-> & _ & ->).
  - intros q Hq Hpos. destruct (Hfit q Hq) as (_ & _ & Hc & _).
    destruct (Hc Hpos) as [[Hpos0 Hle] | Hle]; [|pose proof (tally_bounds (fun x => rcredit (Q' x) (W' x) (E' x) q) T); lia].
    specialize (Hr q Hq Hpos0). rewrite (tally_change (fun x => rcredit (Q x) (W x) (E x) q) (fun x => rcredit (Q' x) (W' x) (E' x) q) T x HT Hx); [lia|].
    intros y Hne. by destruct (Hy y Hne) as (-> & -> & ->).
  - intros q Hq Hpos. destruct (Hfit q Hq) as (_ & _ & _ & Hc).
    destruct (Hc Hpos) as [[Hpos0 Hle] | Hle]; [|pose proof (tally_bounds (fun x => scredit (Q' x) (W' x) (E' x) q) T); lia].
    specialize (Hs q Hq Hpos0). rewrite (tally_change (fun x => scredit (Q x) (W x) (E x) q) (fun x => scredit (Q' x) (W' x) (E' x) q) T x HT Hx); [lia|].
    intros y Hne. by destruct (Hy y Hne) as (-> & -> & ->).
  - intros y Hyt. destruct (decide (y = x)) as [->|Hne]; [done|]. destruct (Hy y Hne) as (-> & -> & ->). by apply Hp.
Qed.

(** Two tasks change. *)
Lemma tally_change2 f g l x y :
  NoDup l -> x ∈ l -> y ∈ l -> x <> y -> (forall z, z <> x -> z <> y -> g z = f z) ->
  tally g l = tally f l - Z.b2z (f x) - Z.b2z (f y) + Z.b2z (g x) + Z.b2z (g y).
Proof.
  intros Hn Hx Hy Hne Hz. set (h z := if z =? x then g z else f z).
  rewrite (tally_change h g l y Hn Hy), (tally_change f h l x Hn Hx); unfold h.
  - rewrite Z.eqb_refl, (proj2 (Z.eqb_neq y x)) by done. lia.
  - intros z Hzx. by rewrite (proj2 (Z.eqb_neq z x)).
  - intros z Hzy. destruct (Z.eqb_spec z x); [done|by apply Hz].
Qed.

(** A task [x] that was to wake another one hands over to [y]. *)
Lemma mbooks_hand_over x y W E Q C W' Q' C' :
  mbooks W E Q C -> x ∈ T -> y ∈ T -> x <> y ->
  (forall z, z <> y -> W' z = W z) -> (forall z, z <> x -> Q' z = Q z) ->
  mpc_ok (Q' x) (W x) (E x) -> mpc_ok (Q y) (W' y) (E y) ->
  (forall q, q <> 0 -> rwaits (Q x) (W x) q = false /\ swaits (Q x) (W x) q = false /\ rwaits (Q' x) (W x) q = false /\ swaits (Q' x) (W x) q = false) ->
  (forall q, q <> 0 ->
     c_msgs (C' q) = c_msgs (C q) /\ c_max (C' q) = c_max (C q) /\
     c_empty (C' q) = c_empty (C q) - Z.b2z (rwaits (Q y) (W y) q) + Z.b2z (rwaits (Q y) (W' y) q) /\
     c_full (C' q) = c_full (C q) - Z.b2z (swaits (Q y) (W y) q) + Z.b2z (swaits (Q y) (W' y) q) /\
     (0 < c_empty (C' q) -> 0 < c_empty (C q) /\
        Z.b2z (rcredit (Q x) (W x) (E x) q) + Z.b2z (rcredit (Q y) (W y) (E y) q) <=
        Z.b2z (rcredit (Q' x) (W x) (E x) q) + Z.b2z (rcredit (Q y) (W' y) (E y) q)) /\
     (0 < c_full (C' q) -> 0 < c_full (C q) /\
        Z.b2z (scredit (Q x) (W x) (E x) q) + Z.b2z (scredit (Q y) (W y) (E y) q) <=
        Z.b2z (scredit (Q' x) (W x) (E x) q) + Z.b2z (scredit (Q y) (W' y) (E y) q))) ->
  mbooks W' E Q' C'.
Proof.
  intros [He Hf Hr Hs Hp] Hx Hy Hne HW HQ Hpx Hpy Hnw HC.
  assert (W' x = W x) as HWx by (by apply HW). assert (Q' y = Q y) as HQy by (apply HQ; congruence).
  constructor.
  - intros q Hq. destruct (HC q Hq) as (_ & _ & -> & _). destruct (Hnw q Hq) as (E1 & _ & E2 & _). rewrite He by done.
    rewrite (tally_change2 (fun x => rwaits (Q x) (W x) q) (fun x => rwaits (Q' x) (W' x) q) T x y HT Hx Hy Hne), HWx, HQy, E1, E2; [simpl; lia|].
    intros z Hzx Hzy. by rewrite HW, HQ.
  - intros q Hq. destruct (HC q Hq) as (_ & _ & _ & -> & _). destruct (Hnw q Hq) as (_ & E1 & _ & E2). rewrite Hf by done.
    rewrite (tally_change2 (fun x => swaits (Q x) (W x) q) (fun x => swaits (Q' x) (W' x) q) T x y HT Hx Hy Hne), HWx, HQy, E1, E2; [simpl; lia|].
    intros z Hzx Hzy. by rewrite HW, HQ.
  - intros q Hq Hpos. destruct (HC q Hq) as (-> & _ & _ & _ & Hc & _). destruct (Hc Hpos) as [Hpos0 Hle]. specialize (Hr q Hq Hpos0).
    rewrite (tally_change2 (fun x => rcredit (Q x) (W x) (E x) q) (fun x => rcredit (Q' x) (W' x) (E x) q) T x y HT Hx Hy Hne), HWx, HQy; [lia|].
    intros z Hzx Hzy. by rewrite HW, HQ.
  - intros q Hq Hpos. destruct (HC q Hq) as (-> & -> & _ & _ & _ & Hc). destruct (Hc Hpos) as [Hpos0 Hle]. specialize (Hs q Hq Hpos0).
    rewrite (tally_change2 (fun x => scredit (Q x) (W x) (E x) q) (fun x => scredit (Q' x) (W' x) (E x) q) T x y HT Hx Hy Hne), HWx, HQy; [lia|].
    intros z Hzx Hzy. by rewrite HW, HQ.
  - intros z Hz. destruct (decide (z = x)) as [->|Hzx]; [by rewrite HWx|]. rewrite HQ by done.
    destruct (decide (z = y)) as [->|Hzy]; [done|]. rewrite HW by done. by apply Hp.
Qed.

Lemma mbooks_ext W E Q C W' E' Q' C' :
  mbooks W E Q C -> (forall y, y ∈ T -> W' y = W y) -> (forall y, y ∈ T -> E' y = E y) -> (forall y, y ∈ T -> Q' y = Q y) ->
  (forall q, q <> 0 -> C' q = C q) -> mbooks W' E' Q' C'.
Proof.
  intros [He Hf Hr Hs Hp] HW HE HQ HC. constructor; try (intros q Hq; rewrite HC by done).
  - rewrite He by done. apply tally_ext. intros y Hy. by rewrite HW, HQ.
  - rewrite Hf by done. apply tally_ext. intros y Hy. by rewrite HW, HQ.
  - intros Hpos. rewrite (tally_ext (fun x => rcredit (Q x) (W x) (E x) q)); [by apply Hr|]. intros y Hy. by rewrite HW, HE, HQ.
  - intros Hpos. rewrite (tally_ext (fun x => scredit (Q x) (W x) (E x) q)); [by apply Hs|]. intros y Hy. by rewrite HW, HE, HQ.
  - intros y Hy. rewrite HW, HE, HQ by done. by apply Hp.
Qed.
End tasks.
End books.

(** * Message queues: what they need of the scheduler

    The operations of the scheduler as the message queues see them: who waits
    in the lists of blocked tasks, the error numbers and lock counts, and who
    runs. *)

Definition err (k : kernel) (x : Z) : Z := pterrno (tcbs k x).

(** The lists other than those of runnable tasks. *)
Definition waiting (tl : tasklist) : Prop := tl <> g_readytorun /\ tl <> g_pendingtasks.

(** Error numbers, lock counts and the interrupt level are the same. *)
Definition calm (k k' : kernel) : Prop := in_irq k' = in_irq k /\ forall y, err k' y = err k y /\ lock k' y = lock k y.

Lemma calm_refl k : calm k k.
Proof. done. Qed.

Lemma calm_trans k1 k2 k3 : calm k1 k2 -> calm k2 k3 -> calm k1 k3.
Proof. intros [E1 H1] [E2 H2]. split; [congruence|]. intros y. destruct (H1 y), (H2 y). split; congruence. Qed.

Lemma calm_others k k' X :
  others k k' X -> (forall x, x ∈ X -> err k' x = err k x /\ lock k' x = lock k x) -> calm k k'.
Proof.
  intros (E & _ & _ & H) HX. split; [done|]. intros y. destruct (decide (y ∈ X)) as [Hin|Hout]; [by apply HX|].
  unfold err, lock. by rewrite (H y Hout).
Qed.

Section kernel.
Context (T : list Z) (idle : Z).
Abbreviation ok := (sched_ok T idle).

Lemma ready_split A : A g_readytorun <> [] -> exists l, A g_readytorun = running A :: l.
Proof. unfold running. destruct (A g_readytorun) as [|x l]; [done|]. intros _. by exists l. Qed.

Lemma ok_ready k A : ok k A -> exists l, A g_readytorun = running A :: l.
Proof. intros [Hi _ _]. apply ready_split. destruct (si_idle _ _ _ _ Hi) as [l ->]. by destruct l. Qed.

Lemma ok_running_task k A : ok k A -> running A ∈ T /\ running A <> 0 /\ rtr_head k = running A /\ cpu k = running A.
Proof.
  intros [Hi Hc _]. destruct (running_in _ _ _ _ Hi) as [Hin H0]. split_and!; [by apply (si_tasks _ _ _ _ Hi _ _ Hin)|done| |done].
  by apply (rtr_head_running T idle).
Qed.

(** The running task blocks. *)
Lemma block_running k A s tl :
  ok k A -> running A <> idle -> blocked_list s = Some tl ->
  exists k' A', up_block_task k (running A) s = Some k' /\ ok k' A' /\ calm k k' /\
    (forall t y, waiting t -> y ∈ A' t <-> (t = tl /\ y = running A) \/ y ∈ A t) /\ (all_listed T A -> all_listed T A').
Proof.
  intros Hok Hid Hs. destruct (ok_ready k A Hok) as [l Hl]. destruct (blocked_list_spec s tl Hs) as (_ & _ & _ & Hne & Hnp & _).
  destruct (up_block_task_spec T idle k A s tl [] (running A) l Hok Hl Hid Hs) as (k' & Hrun & Hok' & Ho).
  exists k', (block_tasks k A (running A) [] l tl). split_and!; [done|done|apply (calm_others _ _ [] Ho); set_solver| |].
  2:{ intros HA. apply listed_merge, listed_add_blocked. by apply (listed_removed T A g_readytorun []). }
  intros t y [Ht1 Ht2]. unfold block_tasks, merge_all, add_blocked. rewrite !set_tasks_ne with (t := t) by done. unfold set_tasks at 1.
  destruct (decide (t = tl)) as [->|Hnt].
  - rewrite set_tasks_ne by done. destruct (is_prioritized tl); [rewrite prio_insert_in|]; set_solver.
  - rewrite set_tasks_ne by done. naive_solver.
Qed.

(** A blocked task is woken. *)
Lemma unblock_task k A s tl x :
  ok k A -> blocked_list s = Some tl -> x ∈ A tl -> x <> idle ->
  exists k' A', up_unblock_task k x = Some k' /\ ok k' A' /\ calm k k' /\
    (forall t y, waiting t -> (y ∈ A' t <-> y ∈ A t /\ ~ (t = tl /\ y = x))) /\ (0 < lock k (running A) -> running A' = running A) /\
    (all_listed T A -> all_listed T A').
Proof.
  intros Hok Hs Hx Hid. destruct (in_split_list A tl x Hx) as (l1 & l2 & Hl).
  destruct (blocked_list_spec s tl Hs) as (_ & _ & _ & Hne & Hnp & _). pose proof Hok as [Hi _ _].
  destruct (up_unblock_task_spec T idle k A s tl l1 x l2 Hok Hs Hl Hid) as (k' & Hrun & Hok' & Ho & Hxt).
  assert (running (set_tasks A tl (l1 ++ l2)) = running A) as Hr by (by apply running_set_ne).
  exists k', (unblock_tasks k A x tl l1 l2). split_and!; [done|done| | | |intros HA; apply listed_add_ready; by apply (listed_removed T A tl l1)].
  - apply (calm_others _ _ [x] Ho). intros y Hy. apply list_elem_of_singleton in Hy as ->. unfold err, lock. by rewrite Hxt.
  - intros t y [Ht1 Ht2]. unfold unblock_tasks. rewrite add_ready_other by done. unfold set_tasks. destruct (decide (t = tl)) as [->|Hnt]; [|naive_solver].
    pose proof (dq_nodup _ _ _ (kr_list _ _ (si_rep _ _ _ _ Hi) tl)) as Hnd. rewrite Hl in Hnd |- *. apply NoDup_app in Hnd as (_ & Hd & [Hn _]%NoDup_cons).
    specialize (Hd x). set_solver.
  - intros Hlk. unfold unblock_tasks. unfold add_ready, ready_list. destruct (decide (preempts k (set_tasks A tl (l1 ++ l2)) x)) as [|Hn]; [by rewrite running_set_ne|].
    rewrite running_set, hd_prio_insert, set_tasks_ne by done. destruct (decide _) as [E|]; [|done].
    apply (higher_running T idle k A) in E; [|done]. destruct Hn. unfold preempts. rewrite Hr. split; [lia|done].
Qed.

(** ** Preemption lock *)

Lemma lock_task k A :
  ok k A -> in_irq k = false -> lock k (running A) < MAX_LOCK_COUNT ->
  exists k', sched_lock k = Some k' /\ ok k' A /\ in_irq k' = false /\ (forall y, err k' y = err k y) /\
    lock k' (running A) = lock k (running A) + 1 /\ forall y, y <> running A -> lock k' y = lock k y.
Proof.
  intros Hok Hirq Hmax. destruct (sched_lock_spec T idle k A Hok Hirq Hmax) as (k' & -> & Hok' & Hl & ->). eexists. split_and!; [done|done|done| |done|].
  - intros y. unfold err. destruct (decide (y = running A)) as [->|]; [by rewrite put_tcb_eq|by rewrite put_tcb_ne].
  - intros y Hy. unfold lock. by rewrite put_tcb_ne.
Qed.

Lemma lock_irq k : in_irq k = true -> sched_lock k = Some k.
Proof. intros Hirq. unfold sched_lock. rewrite Hirq. by rewrite andb_false_r. Qed.

Lemma unlock_irq k : in_irq k = true -> sched_unlock k = Some k.
Proof. intros Hirq. unfold sched_unlock. rewrite Hirq. by rewrite andb_false_r. Qed.

Lemma unlock_task k A :
  ok k A -> in_irq k = false ->
  exists k' A', sched_unlock k = Some k' /\ ok k' A' /\ in_irq k' = false /\ (forall y, err k' y = err k y) /\
    (forall t y, waiting t -> y ∈ A' t <-> y ∈ A t) /\ lock k' (running A) = Z.max 0 (lock k (running A) - 1) /\
    (forall y, y <> running A -> lock k' y = lock k y) /\ (1 < lock k (running A) -> running A' = running A) /\
    (all_listed T A -> all_listed T A').
Proof.
  intros Hok Hirq. assert (forall k' n, others k k' [running A] -> relocked k k' (running A) n ->
    in_irq k' = false /\ (forall y, err k' y = err k y) /\ forall y, y <> running A -> lock k' y = lock k y) as Hfr.
  { intros k' n (E & _ & _ & Ho) Hr. split_and!; [congruence| |].
    - intros y. unfold err. destruct (decide (y = running A)) as [->|Hy]; [by rewrite Hr|]. by rewrite Ho by set_solver.
    - intros y Hy. unfold lock. by rewrite Ho by set_solver. }
  destruct (Z.le_gt_cases (lock k (running A)) 1) as [Hle | Hgt].
  - destruct (sched_unlock_release T idle k A Hok Hirq Hle) as (k' & Hrun & Hok' & Ho & Hr). destruct (Hfr k' 0 Ho Hr) as (? & ? & ?).
    exists k', (merge_all k A). pose proof (si_lock _ _ _ _ (ok_inv _ _ _ _ Hok) (running A)). pose proof (relocked_lock _ _ _ _ Hr). split_and!; try done; [|lia|lia|by apply listed_merge].
    intros t y [Ht1 Ht2]. unfold merge_all. by rewrite !set_tasks_ne.
  - destruct (sched_unlock_nested T idle k A Hok Hirq Hgt) as (k' & Hrun & Hok' & Ho & Hr). destruct (Hfr k' _ Ho Hr) as (? & ? & ?).
    exists k', A. pose proof (relocked_lock _ _ _ _ Hr). split_and!; try done. lia.
Qed.

(** ** Error numbers and time slices *)

Lemma errno_task k A e :
  ok k A -> in_irq k = false ->
  ok (set_errno k e) A /\ in_irq (set_errno k e) = false /\ (forall y, lock (set_errno k e) y = lock k y) /\
  (forall y, y <> running A -> err (set_errno k e) y = err k y) /\ err (set_errno k e) (running A) = e.
Proof.
  intros Hok Hirq. split; [by apply ok_set_errno|]. destruct (ok_running_task k A Hok) as (_ & H0 & Hh & _).
  unfold set_errno, get_errno_ptr. rewrite Hh, Hirq. rewrite (proj2 (Z.eqb_neq (running A) 0)) by done.
  pose proof Hok as [Hi _ _]. destruct (running_in _ _ _ _ Hi) as [Hin _]. pose proof (si_state _ _ _ _ Hi _ _ Hin) as Hst. simpl in Hst.
  rewrite decide_True in Hst by done. unfold state in Hst. rewrite bool_decide_eq_true_2 by done. simpl. fold (put_tcb (running A) (set_pterrno e) k).
  split_and!; [done| | |].
  - intros y. unfold lock. destruct (decide (y = running A)) as [->|]; [by rewrite put_tcb_eq|by rewrite put_tcb_ne].
  - intros y Hy. unfold err. by rewrite put_tcb_ne.
  - unfold err. by rewrite put_tcb_eq.
Qed.

Lemma errno_read k A : ok k A -> in_irq k = false -> get_errno k = err k (running A).
Proof.
  intros Hok Hirq. destruct (ok_running_task k A Hok) as (_ & H0 & Hh & _).
  unfold get_errno, get_errno_ptr. rewrite Hh, Hirq. rewrite (proj2 (Z.eqb_neq (running A) 0)) by done.
  pose proof Hok as [Hi _ _]. destruct (running_in _ _ _ _ Hi) as [Hin _]. pose proof (si_state _ _ _ _ Hi _ _ Hin) as Hst. simpl in Hst.
  rewrite decide_True in Hst by done. unfold state in Hst. by rewrite bool_decide_eq_true_2.
Qed.

Lemma tick_task k A :
  ok k A ->
  exists k' A', sched_process_timeslice k = Some k' /\ ok k' A' /\ calm k k' /\ (forall t y, waiting t -> y ∈ A' t <-> y ∈ A t) /\
    (0 < lock k (running A) -> running A' = running A) /\ (all_listed T A -> all_listed T A').
Proof.
  intros Hok. destruct (sched_process_timeslice_spec T idle k A Hok) as (k' & A' & Hrun & Hok' & Hsm & (Ei & _ & Hs)). pose proof Hsm as [_ Hm].
  assert (calm k k') as Hc.
  { split; [done|]. intros y. destruct (Hs y) as [v Hv]. unfold err, lock. by rewrite Hv. }
  exists k', A'. split_and!; [done|done|done|intros t y []; by apply Hm| |by apply same_members_listed].
  intros Hl. destruct (ok_running_task k A Hok) as (_ & H0 & Hh & Hcpu). destruct (ok_running_task k' A' Hok') as (_ & _ & _ & <-).
  rewrite <- Hcpu. unfold sched_process_timeslice in Hrun. rewrite Hh in Hrun. rewrite get_tcb_ok in Hrun by done. cbn [mbind option_bind] in Hrun.
  destruct (negb _); [|by injection Hrun as <-]. destruct (_ <=? 1).
  - unfold lock in Hl. rewrite (proj2 (Z.eqb_neq (lockcount (tcbs k (running A))) 0)) in Hrun by lia. by injection Hrun as <-.
  - rewrite upd_tcb_ok in Hrun by done. by injection Hrun as <-.
Qed.
End kernel.

(** * Message queues: the invariant of the system

    What holds between any two pieces of the calls, and how it is kept when the
    running task advances in its call, and when an interrupt handler runs. *)

(** The message a task has in its hands. *)
Definition hand (p : mq_pc) : list Z := match p with PcSendInsert _ m _ _ | PcRcvGot _ m => [m] | _ => [] end.

(** Inside a call, and not waiting. *)
Definition mid (p : mq_pc) : bool := match p with PcNone | PcSendWait _ _ _ | PcRcvWait _ => false | _ => true end.

Definition is_rcv (p : mq_pc) : bool := match p with PcRcvWait _ => true | _ => false end.
Definition is_snd (p : mq_pc) : bool := match p with PcSendWait _ _ _ => true | _ => false end.

(** Tasks inside a call have locked preemption. *)
Definition lock_ok (p : mq_pc) (n : Z) : Prop :=
  match p with
  | PcNone => True
  | PcSendWait _ _ _ | PcSendAlloc _ _ _ | PcSendInsert _ _ _ _ => 1 <= n < MAX_LOCK_COUNT
  | PcSendNotify _ | PcSendWake _ => 2 <= n
  | _ => 1 <= n
  end.

(** The lists of tasks that wait. *)
Definition wait_lists (T : list Z) (A : tasks) (W : Z -> Z) (Q : Z -> mq_pc) : Prop :=
  forall x, x ∈ T ->
    (x ∈ A g_waitingformqnotempty <-> is_rcv (Q x) = true /\ W x <> 0) /\
    (x ∈ A g_waitingformqnotfull <-> is_snd (Q x) = true /\ W x <> 0).

(** The queue of a descriptor. *)
Definition queue_id (DS : Z -> mq_des) (d : Z) : Z := msgq (DS d).

Section inv.
Context (T : list Z) (idle : Z) (P : list Z) (DS : Z -> mq_des) (MX MS : Z -> Z).
Abbreviation D := (queue_id DS).

(** The descriptors and the attributes of the queues do not change. *)
Definition static (s : mq_state) : Prop := descs s = DS /\ forall q, maxmsgs (msgqs s q) = MX q /\ maxmsgsize (msgqs s q) = MS q.

(** What has been verified of a message that is being sent, and of a receiver
    that waits. *)
Definition data_ok (p : mq_pc) : Prop :=
  match p with
  | PcSendWait d data prio | PcSendAlloc d data prio | PcSendInsert d _ data prio =>
      Z.of_nat (length data) <= MS (D d) /\ 0 <= prio <= MQ_PRIO_MAX
  | PcRcvWait d => Z.land (oflags (DS d)) O_NONBLOCK = 0
  | _ => True
  end.

(** What the running task has seen: there was room, or a sender that waits. *)
Definition seen (s : mq_state) (G : ghost) (p : mq_pc) : Prop :=
  match p with
  | PcSendAlloc d _ _ | PcSendInsert d _ _ _ => dyn s (G (PQueue (D d))) + 1 <= MX (D d)
  | PcRcvWake d _ => 0 < nwaitnotfull (msgqs s (D d))
  | _ => True
  end.

Record mq_inv (s : mq_state) (Q : Z -> mq_pc) (A : tasks) (G : ghost) : Prop := {
  qi_ok : sched_ok T idle (qk s) A;
  qi_listed : all_listed T A;
  qi_irq : in_irq (qk s) = false;
  qi_static : static s;
  qi_lists : wait_lists T A (msgwaitq s) Q;
  qi_books : mbooks D T (msgwaitq s) (err (qk s)) Q (fun q => count_q (msgqs s q));
  qi_msgs : msg_inv P s G;
  qi_hand : G PHand = hand (Q (running A));
  qi_mid x : x ∈ T -> mid (Q x) = true -> x = running A;
  qi_lock x : x ∈ T -> lock_ok (Q x) (lock (qk s) x);
  qi_idle x : x ∈ T -> Q x <> PcNone -> x <> idle;
  qi_data x : x ∈ T -> data_ok (Q x);
  qi_room q : q <> 0 -> dyn s (G (PQueue q)) <= Z.max 0 (MX q);
  qi_seen : seen s G (Q (running A))
}.

Lemma mid_locked p n : mid p = true -> lock_ok p n -> 0 < n.
Proof. destruct p; simpl; try done; lia. Qed.

Lemma mid_hand p : mid p = false -> hand p = [].
Proof. by destruct p. Qed.

Lemma mid_seen s G p : mid p = false -> seen s G p.
Proof. by destruct p. Qed.

(** Only the places of tasks matter. *)
Lemma inv_pcs s Q Q' A G : mq_inv s Q A G -> (forall x, Q' x = Q x) -> mq_inv s Q' A G.
Proof.
  intros [H1 H1' H2 H3 H4 H5 H6 H7 H8 H9 H10 H11 H12 H13] HQ. constructor; try done; intros; rewrite ?HQ; auto.
  - intros x Hx. rewrite HQ. by apply H4.
  - by eapply mbooks_ext.
  - apply H8; [done|]. by rewrite <- HQ.
  - apply H10; [done|]. by rewrite <- HQ.
Qed.

(** ** The running task advances *)

Lemma inv_advance s Q A G s' p A' G' :
  mq_inv s Q A G -> let x := running A in
  sched_ok T idle (qk s') A' -> all_listed T A' -> in_irq (qk s') = false -> static s' ->
  (forall t y, waiting t -> y <> x -> (y ∈ A' t <-> y ∈ A t)) ->
  (x ∈ A' g_waitingformqnotempty <-> is_rcv p = true /\ msgwaitq s' x <> 0) ->
  (x ∈ A' g_waitingformqnotfull <-> is_snd p = true /\ msgwaitq s' x <> 0) ->
  (forall y, y <> x -> msgwaitq s' y = msgwaitq s y /\ lock (qk s') y = lock (qk s) y) ->
  lock_ok p (lock (qk s') x) -> (p <> PcNone -> x <> idle) -> data_ok p -> running A' = x \/ mid p = false ->
  msg_inv P s' G' -> G' PHand = hand p -> (forall q, q <> 0 -> dyn s' (G' (PQueue q)) <= Z.max 0 (MX q)) -> seen s' G' p ->
  mbooks D T (msgwaitq s') (err (qk s')) (upd Q x p) (fun q => count_q (msgqs s' q)) ->
  mq_inv s' (upd Q x p) A' G'.
Proof.
  intros Hi x Hok Hlisted Hirq Hst Hl Hle Hlf Hy Hlk Hid Hd Hrun Hm Hh Hroom Hseen Hb.
  assert (forall y, y <> x -> y ∈ T -> mid (Q y) = false) as Hnm.
  { intros y Hne HyT. destruct (mid (Q y)) eqn:E; [|done]. destruct Hne. by apply (qi_mid _ _ _ _ Hi). }
  assert (running A' ∈ T) as HrT by (by apply (ok_running_task T idle (qk s'))).
  assert (running A' <> x -> mid p = false /\ mid (upd Q x p (running A')) = false) as Hother.
  { intros Hne. destruct Hrun as [?|Hp]; [done|]. split; [done|]. rewrite upd_ne by done. by apply Hnm. }
  constructor; try done.
  - intros y HyT. destruct (decide (y = x)) as [->|Hne]; [by rewrite !upd_eq|]. rewrite !upd_ne by done.
    destruct (Hy y Hne) as [-> _]. rewrite !Hl by (done || by split). by apply (qi_lists _ _ _ _ Hi).
  - destruct (decide (running A' = x)) as [->|Hne]; [by rewrite upd_eq|]. destruct (Hother Hne) as [Hp Hq].
    rewrite (mid_hand _ Hq), Hh. by apply mid_hand.
  - intros y HyT. destruct (decide (y = x)) as [->|Hne]; [rewrite upd_eq|rewrite upd_ne by done; by rewrite Hnm].
    intros Hp. destruct Hrun as [?|?]; [done|congruence].
  - intros y HyT. destruct (decide (y = x)) as [->|Hne]; [by rewrite upd_eq|]. rewrite upd_ne by done. destruct (Hy y Hne) as [_ ->]. by apply (qi_lock _ _ _ _ Hi).
  - intros y HyT. destruct (decide (y = x)) as [->|Hne]; [by rewrite upd_eq|]. rewrite upd_ne by done. by apply (qi_idle _ _ _ _ Hi).
  - intros y HyT. destruct (decide (y = x)) as [->|Hne]; [by rewrite upd_eq|]. rewrite upd_ne by done. by apply (qi_data _ _ _ _ Hi).
  - destruct (decide (running A' = x)) as [->|Hne]; [by rewrite upd_eq|]. apply mid_seen. by apply Hother.
Qed.

(** ** An interrupt *)

Lemma inv_interrupt s Q A G s' A' G' :
  mq_inv s Q A G -> sched_ok T idle (qk s') A' -> all_listed T A' -> in_irq (qk s') = false -> static s' -> wait_lists T A' (msgwaitq s') Q ->
  mbooks D T (msgwaitq s') (err (qk s')) Q (fun q => count_q (msgqs s' q)) ->
  (forall y, lock (qk s') y = lock (qk s) y) -> (0 < lock (qk s) (running A) -> running A' = running A) ->
  msg_inv P s' G' -> G' PHand = G PHand -> (forall q, q <> 0 -> dyn s' (G' (PQueue q)) = dyn s (G (PQueue q))) ->
  (forall d r, Q (running A) = PcRcvWake d r -> 0 < nwaitnotfull (msgqs s' (D d))) ->
  mq_inv s' Q A' G'.
Proof.
  intros Hi Hok Hlisted Hirq Hst Hl Hb Hlk Hrun Hm Hh Hdyn Hsn.
  assert (forall y, y ∈ T -> mid (Q y) = true -> running A' = running A /\ y = running A) as Hmid.
  { intros y Hy Hp. pose proof (qi_mid _ _ _ _ Hi y Hy Hp) as ->. split; [|done]. apply Hrun.
    apply (mid_locked _ _ Hp), (qi_lock _ _ _ _ Hi _ Hy). }
  destruct (ok_running_task T idle _ _ (qi_ok _ _ _ _ Hi)) as (HrT & _). destruct (ok_running_task T idle _ _ Hok) as (HrT' & _).
  assert (mid (Q (running A')) = false -> mid (Q (running A)) = false) as Hno.
  { intros Hf. destruct (mid (Q (running A))) eqn:E; [|done]. destruct (Hmid _ HrT E) as [Er _]. by rewrite Er, E in Hf. }
  constructor; try done.
  - rewrite Hh, (qi_hand _ _ _ _ Hi). destruct (mid (Q (running A'))) eqn:E.
    + by destruct (Hmid _ HrT' E) as [_ ->].
    + by rewrite !mid_hand by auto.
  - intros x Hx Hp. destruct (Hmid x Hx Hp) as [-> ->]. done.
  - intros x Hx. rewrite Hlk. by apply (qi_lock _ _ _ _ Hi).
  - apply (qi_idle _ _ _ _ Hi).
  - apply (qi_data _ _ _ _ Hi).
  - intros q Hq. rewrite Hdyn by done. by apply (qi_room _ _ _ _ Hi).
  - destruct (mid (Q (running A'))) eqn:E; [|by apply mid_seen]. destruct (Hmid _ HrT' E) as [_ ->]. pose proof (qi_seen _ _ _ _ Hi) as Hs.
    pose proof (mb_pc _ _ _ _ _ _ Hb (running A) HrT) as Hpc. destruct (Q (running A)) eqn:Eq; simpl in *; try done.
    + rewrite Hdyn by apply Hpc. done.
    + rewrite Hdyn by apply Hpc. done.
    + by eapply Hsn.
Qed.

(** ** Facts every piece starts from *)

Lemma mq_running s Q A G : mq_inv s Q A G ->
  running A ∈ T /\ running A <> 0 /\ rtr_head (qk s) = running A /\ cpu (qk s) = running A /\ msgwaitq s (running A) = 0.
Proof.
  intros Hi. pose proof (qi_ok _ _ _ _ Hi) as Hok. destruct (ok_running_task T idle _ _ Hok) as (HT & H0 & Hh & Hc). split_and!; try done.
  pose proof (mb_pc _ _ _ _ _ _ (qi_books _ _ _ _ Hi) _ HT) as Hpc. destruct (qi_lists _ _ _ _ Hi _ HT) as [Le Lf].
  destruct (running_in _ _ _ _ (ok_inv _ _ _ _ Hok)) as [Hin _].
  assert (forall tl, running A ∈ A tl -> tl = g_readytorun) as Honly by (intros tl Htl; by apply (kr_once _ _ (si_rep _ _ _ _ (ok_inv _ _ _ _ Hok)) _ _ _ Htl)).
  destruct (Z.eq_dec (msgwaitq s (running A)) 0) as [|Hne]; [done|].
  destruct (Q (running A)) eqn:Eq; simpl in *; try tauto; try (by destruct Hpc).
  - discriminate (Honly g_waitingformqnotfull). by apply Lf.
  - discriminate (Honly g_waitingformqnotempty). by apply Le.
Qed.

Lemma inv_bounds s Q A G q : mq_inv s Q A G -> q <> 0 ->
  0 <= nmsgs (msgqs s q) <= Z.max 0 (MX q) + Z.of_nat (length P) /\ 0 <= nwaitnotfull (msgqs s q) <= 16 /\ 0 <= nwaitnotempty (msgqs s q) <= 16.
Proof.
  intros Hi Hq. pose proof (mi_count _ _ _ (qi_msgs _ _ _ _ Hi) q Hq) as Hc. pose proof (dyn_bound _ _ _ q (qi_msgs _ _ _ _ Hi)) as Hd.
  pose proof (qi_room _ _ _ _ Hi q Hq). pose proof (si_size _ _ _ _ (ok_inv _ _ _ _ (qi_ok _ _ _ _ Hi))) as Hsz. change max_tasks with 16%nat in Hsz.
  pose proof (mb_empty _ _ _ _ _ _ (qi_books _ _ _ _ Hi) q Hq) as He. pose proof (mb_full _ _ _ _ _ _ (qi_books _ _ _ _ Hi) q Hq) as Hf. simpl in He, Hf.
  pose proof (tally_bounds (fun x => rwaits (Q x) (msgwaitq s x) q) T). pose proof (tally_bounds (fun x => swaits (Q x) (msgwaitq s x) q) T). lia.
Qed.
End inv.

Arguments qi_ok {T idle P DS MX MS s Q A G} _.
Arguments qi_listed {T idle P DS MX MS s Q A G} _.
Arguments qi_irq {T idle P DS MX MS s Q A G} _.
Arguments qi_static {T idle P DS MX MS s Q A G} _.
Arguments qi_lists {T idle P DS MX MS s Q A G} _.
Arguments qi_books {T idle P DS MX MS s Q A G} _.
Arguments qi_msgs {T idle P DS MX MS s Q A G} _.
Arguments qi_hand {T idle P DS MX MS s Q A G} _.
Arguments qi_mid {T idle P DS MX MS s Q A G} _ _ _ _.
Arguments qi_lock {T idle P DS MX MS s Q A G} _ _ _.
Arguments qi_idle {T idle P DS MX MS s Q A G} _ _ _ _.
Arguments qi_data {T idle P DS MX MS s Q A G} _ _ _.
Arguments qi_room {T idle P DS MX MS s Q A G} _ _ _.
Arguments qi_seen {T idle P DS MX MS s Q A G} _.
Arguments mq_running {T idle P DS MX MS s Q A G} _.
Arguments inv_bounds {T idle P DS MX MS s Q A G} _ _ _.

(** * Message queues: the pieces of the calls

    Each piece of a call runs without a failed assertion, keeps the invariant,
    and does to the contents of the queues what its observations say. *)

(** ** Priority queues *)

(** The contents of the queues, and what the receivers have in their hands. *)
Record pq_state := mk_pq { pq : Z -> list (Z * list Z); taken : Z -> option (Z * list Z) }.

(** A message goes behind those of its priority; the first is taken; a receiver
    gets what it has taken. *)
Inductive pq_step (S : pq_state) : mq_obs -> pq_state -> Prop :=
  | pq_sent q m : pq_step S (ObsSent q m) (mk_pq (upd (pq S) q (pq_insert m (pq S q))) (taken S))
  | pq_taken x q m l : pq S q = m :: l -> taken S x = None ->
      pq_step S (ObsTaken x q m) (mk_pq (upd (pq S) q l) (upd (taken S) x (Some m)))
  | pq_received x m : taken S x = Some m -> pq_step S (ObsReceived x m) (mk_pq (pq S) (upd (taken S) x None)).

Inductive pq_steps : pq_state -> list mq_obs -> pq_state -> Prop :=
  | pq_nil S : pq_steps S [] S
  | pq_cons S S1 S2 o os : pq_step S o S1 -> pq_steps S1 os S2 -> pq_steps S (o :: os) S2.

Lemma pq_steps_app S1 S2 S3 o1 o2 : pq_steps S1 o1 S2 -> pq_steps S2 o2 S3 -> pq_steps S1 (o1 ++ o2) S3.
Proof. induction 1; simpl; [done|]. intros. econstructor; [done|by auto]. Qed.

Lemma pq_one S o S' : pq_step S o S' -> pq_steps S [o] S'.
Proof. intros. econstructor; [done|constructor]. Qed.

Definition taken_by (s : mq_state) (p : mq_pc) : option (Z * list Z) := match p with PcRcvGot _ m => Some (body s m) | _ => None end.

Section steps.
Context (T : list Z) (idle : Z) (P : list Z) (DS : Z -> mq_des) (MX MS : Z -> Z) (HT : NoDup T).
Context (HMX : forall q, Z.max 0 (MX q) + Z.of_nat (length P) < 32767) (HMS : forall q, MS q <= MQ_MAX_BYTES).
Abbreviation D := (queue_id DS).
Abbreviation inv := (mq_inv T idle P DS MX MS).

(** The state implements the priority queues. *)
Definition abs (s : mq_state) (Q : Z -> mq_pc) (G : ghost) (S : pq_state) : Prop :=
  (forall q, q <> 0 -> pq S q = contents s (G (PQueue q))) /\ forall x, x ∈ T -> taken S x = taken_by s (Q x).

(** A step that keeps the invariant and refines what it shows. *)
Definition good (s : mq_state) (Q : Z -> mq_pc) (G : ghost) (r : option (mq_sys * list mq_obs)) : Prop :=
  exists w obs A' G', r = Some (w, obs) /\ inv (ms w) (mpcs w) A' G' /\
    forall S, abs s Q G S -> exists S', pq_steps S obs S' /\ abs (ms w) (mpcs w) G' S'.

(** Nothing to be seen. *)
Lemma good_quiet s Q G s' Q' A' G' :
  inv s' Q' A' G' -> (forall q, q <> 0 -> contents s' (G' (PQueue q)) = contents s (G (PQueue q))) ->
  (forall x, x ∈ T -> taken_by s' (Q' x) = taken_by s (Q x)) -> good s Q G (Some (mk_mqsys s' Q', [])).
Proof.
  intros Hi Hc Ht. exists (mk_mqsys s' Q'), [], A', G'. split_and!; [done|done|]. intros S [Hp Htk]. exists S. split; [constructor|]. split.
  - intros q Hq. simpl. by rewrite Hc, Hp.
  - intros x Hx. simpl. by rewrite Ht, Htk.
Qed.

(** A step from a state that differs from [s] in nothing that can be seen. *)
Lemma good_from s Q G s1 Q1 G1 r :
  good s1 Q1 G1 r -> (forall q, q <> 0 -> contents s1 (G1 (PQueue q)) = contents s (G (PQueue q))) ->
  (forall x, x ∈ T -> taken_by s1 (Q1 x) = taken_by s (Q x)) -> good s Q G r.
Proof.
  intros (w & obs & A' & G' & -> & Hi & Hs) Hc Ht. exists w, obs, A', G'. split_and!; [done|done|]. intros S [Hp Htk]. apply Hs. split.
  - intros q Hq. by rewrite Hc, Hp.
  - intros x Hx. by rewrite Ht, Htk.
Qed.

Lemma taken_msgs s s' p : msgs s' = msgs s -> taken_by s' p = taken_by s p.
Proof. intros E. destruct p; try done. simpl. unfold body. by rewrite E. Qed.

Lemma taken_upd s s' Q x p y : msgs s' = msgs s -> taken_by s p = taken_by s (Q x) -> taken_by s' (upd Q x p y) = taken_by s (Q y).
Proof. intros EM E. rewrite (taken_msgs s) by done. unfold upd. by destruct (Z.eqb_spec y x) as [->|]. Qed.

(** ** Changes of the scheduler's state only *)

Lemma msg_inv_kernel s G k : msg_inv P s G -> msg_inv P (set_qk k s) G.
Proof. intros Hm. by apply (msg_inv_same P s). Qed.

(** The books when only the running task changes, and no counter. *)
Lemma books_running s Q A G p E' :
  inv s Q A G -> let x := running A in
  (forall y, y <> x -> E' y = err (qk s) y) -> mpc_ok D p 0 (E' x) ->
  (forall q, q <> 0 -> 0 < nwaitnotempty (msgqs s q) -> Z.b2z (rcredit D (Q x) 0 (err (qk s) x) q) <= Z.b2z (rcredit D p 0 (E' x) q)) ->
  (forall q, q <> 0 -> 0 < nwaitnotfull (msgqs s q) -> Z.b2z (scredit D (Q x) 0 (err (qk s) x) q) <= Z.b2z (scredit D p 0 (E' x) q)) ->
  mbooks D T (msgwaitq s) E' (upd Q x p) (fun q => count_q (msgqs s q)).
Proof.
  intros Hi x HE Hpc Hr Hs. destruct (mq_running Hi) as (HxT & _ & _ & _ & HW). fold x in HxT, HW.
  apply (mbooks_change D T HT x _ _ _ _ _ _ _ _ (qi_books Hi) HxT).
  - intros y Hy. rewrite upd_ne by done. by rewrite HE.
  - by rewrite upd_eq, HW.
  - intros q Hq. rewrite upd_eq, HW. specialize (Hr q Hq). specialize (Hs q Hq). unfold fits. simpl.
    rewrite !rwaits_0, !swaits_0 by done. simpl. split_and!; [lia|lia| |]; intros Hpos; left; (split; [done|]); [specialize (Hr Hpos)|specialize (Hs Hpos)]; lia.
Qed.

(** The running task changes its place and the scheduler's state. *)
Lemma inv_kernel s Q A G k' A' p :
  inv s Q A G -> let x := running A in
  sched_ok T idle k' A' -> all_listed T A' -> in_irq k' = false -> (forall t y, waiting t -> (y ∈ A' t <-> y ∈ A t)) ->
  (forall y, y <> x -> lock k' y = lock (qk s) y) -> lock_ok p (lock k' x) -> (p <> PcNone -> x <> idle) -> data_ok DS MS p ->
  running A' = x \/ mid p = false -> hand p = hand (Q x) -> seen DS MX s G p ->
  (forall y, y <> x -> err k' y = err (qk s) y) -> mpc_ok D p 0 (err k' x) ->
  (forall q, q <> 0 -> 0 < nwaitnotempty (msgqs s q) -> Z.b2z (rcredit D (Q x) 0 (err (qk s) x) q) <= Z.b2z (rcredit D p 0 (err k' x) q)) ->
  (forall q, q <> 0 -> 0 < nwaitnotfull (msgqs s q) -> Z.b2z (scredit D (Q x) 0 (err (qk s) x) q) <= Z.b2z (scredit D p 0 (err k' x) q)) ->
  inv (set_qk k' s) (upd Q x p) A' G.
Proof.
  intros Hi x Hok Hlisted Hirq Hl Hlk Hlo Hid Hd Hrun Hh Hsn HE Hpc Hr Hs.
  destruct (mq_running Hi) as (HxT & _ & _ & _ & HW). destruct (qi_lists Hi _ HxT) as [Le Lf].
  apply (inv_advance T idle P DS MX MS s Q A G); try done.
  - apply (qi_static Hi).
  - intros t y Ht _. by apply Hl.
  - rewrite Hl by done. simpl. rewrite Le. fold x. fold x in HW. rewrite HW. naive_solver.
  - rewrite Hl by done. simpl. rewrite Lf. fold x. fold x in HW. rewrite HW. naive_solver.
  - intros y Hy. split; [done|by apply Hlk].
  - apply msg_inv_kernel, (qi_msgs Hi).
  - by rewrite Hh, (qi_hand Hi).
  - apply (qi_room Hi).
  - by apply (books_running s Q A G).
Qed.

(** Locking, and the error numbers, outside of the calls. *)
Lemma inv_lock s Q A G :
  inv s Q A G -> Q (running A) = PcNone -> lock (qk s) (running A) < MAX_LOCK_COUNT ->
  exists k', sched_lock (qk s) = Some k' /\ inv (set_qk k' s) Q A G /\ lock k' (running A) = lock (qk s) (running A) + 1.
Proof.
  intros Hi HQ Hmax. destruct (lock_task T idle _ A (qi_ok Hi) (qi_irq Hi) Hmax) as (k' & -> & Hok & Hirq & HE & Hl & Hly).
  exists k'. split_and!; [done| |done].
  apply (inv_pcs T idle P DS MX MS _ (upd Q (running A) PcNone)); [|intros y; unfold upd; by destruct (Z.eqb_spec y (running A)) as [->|]].
  apply (inv_kernel s Q A G k' A); try done; [apply (qi_listed Hi)|by left|by rewrite HQ| |]; intros q Hq _; by rewrite HQ.
Qed.

Lemma inv_errno s Q A G e :
  inv s Q A G -> Q (running A) = PcNone -> inv (mq_errno s e) Q A G /\ forall y, lock (qk (mq_errno s e)) y = lock (qk s) y.
Proof.
  intros Hi HQ. destruct (errno_task T idle _ A e (qi_ok Hi) (qi_irq Hi)) as (Hok & Hirq & Hl & HE & _). split; [|done].
  apply (inv_pcs T idle P DS MX MS _ (upd Q (running A) PcNone)); [|intros y; unfold upd; by destruct (Z.eqb_spec y (running A)) as [->|]].
  apply (inv_kernel s Q A G _ A); try done; [apply (qi_listed Hi)|by left|by rewrite HQ| |]; intros q Hq _; by rewrite HQ.
Qed.

(** ** Returning from a call *)

Lemma inv_unlock s Q A G :
  inv s Q A G -> let x := running A in hand (Q x) = [] ->
  (forall q, q <> 0 -> 0 < nwaitnotempty (msgqs s q) -> rcredit D (Q x) 0 (err (qk s) x) q = false) ->
  (forall q, q <> 0 -> 0 < nwaitnotfull (msgqs s q) -> scredit D (Q x) 0 (err (qk s) x) q = false) ->
  exists k' A', sched_unlock (qk s) = Some k' /\ inv (set_qk k' s) (upd Q x PcNone) A' G /\
    (1 < lock (qk s) x -> running A' = x /\ lock k' x = lock (qk s) x - 1).
Proof.
  intros Hi x Hh Hr Hs. destruct (unlock_task T idle _ A (qi_ok Hi) (qi_irq Hi)) as (k' & A' & E & Hok & Hirq & HE & Hl & Hlx & Hly & Hrun & Hlisted).
  exists k', A'. split_and!; [done| |fold x in Hlx, Hrun; intros Hlt; split; [by apply Hrun|lia]].
  apply (inv_kernel s Q A G k' A'); try done; [by apply Hlisted, (qi_listed Hi)|by right| |].
  - intros q Hq Hpos. fold x. by rewrite (Hr q Hq Hpos).
  - intros q Hq Hpos. fold x. by rewrite (Hs q Hq Hpos).
Qed.

Lemma unlock_good s Q A G w ret :
  inv s Q A G -> let x := running A in (forall y, y <> x -> mpcs w y = Q y) -> hand (Q x) = [] ->
  (forall q, q <> 0 -> 0 < nwaitnotempty (msgqs s q) -> rcredit D (Q x) 0 (err (qk s) x) q = false) ->
  (forall q, q <> 0 -> 0 < nwaitnotfull (msgqs s q) -> scredit D (Q x) 0 (err (qk s) x) q = false) ->
  good s Q G (proceed w x (unlock_return s ret)).
Proof.
  intros Hi x Hw Hh Hr Hs. destruct (inv_unlock s Q A G Hi Hh Hr Hs) as (k' & A' & E & Hi' & _). fold x in Hi'.
  unfold proceed, unlock_return. rewrite E. cbn [mbind option_bind].
  assert (forall y, upd (mpcs w) x PcNone y = upd Q x PcNone y) as HQ.
  { intros y. unfold upd. destruct (Z.eqb_spec y x); [done|by apply Hw]. }
  assert (taken_by s (Q x) = None) as Ht by (by destruct (Q x)).
  apply (good_quiet s Q G _ _ A' G); [by eapply inv_pcs|done|intros y _; rewrite HQ; by apply taken_upd].
Qed.

(** ** Waiting *)

(** The two kinds of waits: the list, the counter of the queue and the place of
    the task. *)
Definition wait_of (snd : bool) : tstate * tasklist :=
  if snd then (TSTATE_WAIT_MQNOTFULL, g_waitingformqnotfull) else (TSTATE_WAIT_MQNOTEMPTY, g_waitingformqnotempty).

Definition count_wait (snd : bool) (n : Z) (v : mqueue_inode_s) : mqueue_inode_s :=
  if snd then set_nwaitnotfull (i16 (nwaitnotfull v + n)) v else set_nwaitnotempty (i16 (nwaitnotempty v + n)) v.

Lemma count_wait_static snd n v :
  maxmsgs (count_wait snd n v) = maxmsgs v /\ maxmsgsize (count_wait snd n v) = maxmsgsize v /\
  msglist (count_wait snd n v) = msglist v /\ nmsgs (count_wait snd n v) = nmsgs v.
Proof. by destruct snd. Qed.

Lemma static_upd s q f :
  static DS MX MS s -> (forall v, maxmsgs (f v) = maxmsgs v) -> (forall v, maxmsgsize (f v) = maxmsgsize v) -> static DS MX MS (upd_msgq q f s).
Proof.
  intros [Hd Hq] H1 H2. split; [done|]. intros q'. simpl. unfold upd. destruct (Z.eqb_spec q' q) as [->|]; [rewrite H1, H2|]; apply Hq.
Qed.

Lemma msg_inv_upd s G q f :
  msg_inv P s G -> (forall v, msglist (f v) = msglist v) -> (forall v, nmsgs (f v) = nmsgs v) -> msg_inv P (upd_msgq q f s) G.
Proof.
  intros Hm H1 H2. apply (msg_inv_same P s); try done. intros q' _. simpl. unfold upd.
  destruct (Z.eqb_spec q' q) as [->|]; [by rewrite H1, H2|done].
Qed.

(** The running task blocks: its place [p] is a wait for the queue [q], which
    has no message, or no room. *)
Lemma inv_block s Q A G (snd : bool) p q :
  inv s Q A G -> let x := running A in
  q <> 0 -> x <> idle -> is_snd p = snd -> is_rcv p = negb snd -> mpc_ok D p q 0 ->
  hand (Q x) = [] -> lock_ok p (lock (qk s) x) -> data_ok DS MS p ->
  (if snd then MX q <= nmsgs (msgqs s q) else nmsgs (msgqs s q) = 0) ->
  (forall t, t <> q -> rcredit D (Q x) 0 (err (qk s) x) t = false) -> (forall t, t <> q -> scredit D (Q x) 0 (err (qk s) x) t = false) ->
  (snd = true -> rcredit D (Q x) 0 (err (qk s) x) q = false) -> (snd = false -> scredit D (Q x) 0 (err (qk s) x) q = false) ->
  let s1 := mq_errno (upd_msgq q (count_wait snd 1) (set_msgwaitq x q s)) 0 in
  exists k' A', up_block_task (qk s1) x (wait_of snd).1 = Some k' /\ inv (set_qk k' s1) (upd Q x p) A' G.
Proof.
  intros Hi x Hq Hid Esnd Ercv Hpc Hh Hlo Hd Hfull Hr Hs Hr' Hs' s1. destruct (mq_running Hi) as (HxT & Hx0 & Hhd & _ & HW). fold x in HxT, Hx0, HW.
  destruct (errno_task T idle (qk s) A 0 (qi_ok Hi) (qi_irq Hi)) as (Hok1 & Hirq1 & Hl1 & HE1 & HEx).
  assert (blocked_list (wait_of snd).1 = Some (wait_of snd).2) as Hbl by (by destruct snd).
  destruct (block_running T idle _ A _ _ Hok1 Hid Hbl) as (k' & A' & Hrun & Hok' & [Hirq' Hcalm] & Hl' & Hlisted). fold x in Hrun, Hl', HEx, HE1.
  assert (forall t, waiting t -> x ∉ A t) as Hout.
  { intros t [Ht _] Hin. destruct (running_in _ _ _ _ (ok_inv _ _ _ _ (qi_ok Hi))) as [Hrin _]. apply Ht.
    by apply (kr_once _ _ (si_rep _ _ _ _ (ok_inv _ _ _ _ (qi_ok Hi))) _ _ x Hin). }
  pose proof (inv_bounds q Hi Hq) as (_ & Hbf & Hbe). destruct (qi_static Hi) as [_ Hstat].
  exists k', A'. split; [exact Hrun|]. apply (inv_advance T idle P DS MX MS s Q A G); try done; fold x.
  - by apply Hlisted, (qi_listed Hi).
  - simpl. congruence.
  - apply (static_upd (set_msgwaitq x q s)); [apply (qi_static Hi)|intros v; apply (count_wait_static snd 1 v)..].
  - intros t y Ht Hy. rewrite (Hl' t y Ht). naive_solver.
  - rewrite Hl' by done. simpl. rewrite upd_eq, Ercv. specialize (Hout g_waitingformqnotempty ltac:(done)). destruct snd; simpl; naive_solver.
  - rewrite Hl' by done. simpl. rewrite upd_eq, Esnd. specialize (Hout g_waitingformqnotfull ltac:(done)). destruct snd; simpl; naive_solver.
  - intros y Hy. simpl. rewrite upd_ne by done. split; [done|]. destruct (Hcalm y) as [_ ->]. apply Hl1.
  - simpl. destruct (Hcalm x) as [_ ->]. by rewrite Hl1.
  - right. by destruct p, snd.
  - apply msg_inv_kernel, msg_inv_kernel, msg_inv_upd; [|intros v; apply (count_wait_static snd 1 v)..]. apply (msg_inv_same P s); try done. apply (qi_msgs Hi).
  - rewrite (qi_hand Hi). fold x. rewrite Hh. by destruct p, snd.
  - apply (qi_room Hi).
  - apply mid_seen. by destruct p, snd.
  - apply (mbooks_change D T HT x _ _ _ _ _ _ _ _ (qi_books Hi) HxT).
    + intros y Hy. simpl. rewrite !upd_ne by done. split_and!; [done| |done]. destruct (Hcalm y) as [-> _]. by apply HE1.
    + simpl. rewrite !upd_eq. destruct (Hcalm x) as [-> _]. by rewrite HEx.
    + intros t Ht. simpl. rewrite !upd_eq, HW. destruct (Hcalm x) as [-> _]. rewrite HEx. unfold fits. rewrite rwaits_0, swaits_0 by done. unfold upd.
      destruct (Z.eqb_spec t q) as [->|Hne].
      * destruct (Hstat q) as [EMX _]. destruct snd; simpl in *.
        -- assert (rwaits p q q = false /\ swaits p q q = true) as [-> ->] by (destruct p; try done; simpl; by rewrite Z.eqb_refl).
           rewrite i16_small, EMX by lia. rewrite Hr' by done. simpl. split_and!; [lia|lia|intros; left; split; [lia|destruct p; simpl; try done; lia]|by right; lia].
        -- assert (rwaits p q q = true /\ swaits p q q = false) as [-> ->] by (destruct p; try done; simpl; by rewrite Z.eqb_refl).
           rewrite i16_small, EMX by lia. rewrite Hs' by done. simpl. split_and!; [lia|lia|by right; lia|intros; left; split; [lia|destruct p; simpl; try done; lia]].
      * assert (rwaits p q t = false /\ swaits p q t = false) as [-> ->] by (destruct p; try done; simpl; split; try done; by apply Z.eqb_neq).
        rewrite Hr, Hs by done. destruct (rcredit D p q 0 t), (scredit D p q 0 t); simpl; (split_and!; [lia|lia|intros; left; split; [done|lia]..]).
Qed.
End steps.

(** * Message queues: waking a task *)

(** The search finds a task of the list that waits for the queue. *)
Lemma find_mqwaiter_loop fuel s q l :
  seg (flink (lk (qk s))) l 0 -> 0 ∉ l -> (length l < fuel)%nat -> (exists y, y ∈ l /\ msgwaitq s y = q) ->
  exists y, find_mqwaiter fuel s q (hd_or l 0) = Some y /\ y ∈ l /\ msgwaitq s y = q.
Proof.
  revert l. induction fuel as [|fuel IH]; intros l Hs H0 Hf (y & Hy & Hq); [lia|]. simpl. destruct l as [|x l]; [by apply elem_of_nil in Hy|]. simpl in *.
  destruct (Z.eqb_spec x 0) as [->|_]; [set_solver|]. destruct (Z.eqb_spec (msgwaitq s x) q) as [Hx|Hx]; [exists x; split_and!; [done|set_solver|done]|].
  destruct Hs as [-> Hs]. destruct (IH l Hs) as (z & Hz & Hin & ?); [set_solver|lia|exists y; set_solver|]. exists z. split_and!; [done|set_solver|done].
Qed.

Lemma find_mqwaiter_spec T idle s A tl q :
  sched_ok T idle (qk s) A -> (exists y, y ∈ A tl /\ msgwaitq s y = q) ->
  exists y, find_mqwaiter list_fuel s q (head (lists (qk s) tl)) = Some y /\ y ∈ A tl /\ msgwaitq s y = q /\ y <> 0.
Proof.
  intros [Hi _ _] Hex. pose proof (kr_list _ _ (si_rep _ _ _ _ Hi) tl) as Hr. rewrite (dq_head _ _ _ Hr).
  destruct (find_mqwaiter_loop list_fuel s q (A tl)) as (y & ? & Hin & ?); [apply Hr|apply Hr| |done|].
  - pose proof (si_length _ _ _ _ tl Hi) as Hlen. change max_tasks with 16%nat in Hlen. change list_fuel with 17%nat. lia.
  - exists y. split_and!; try done. intros ->. by apply (dq_null _ _ _ Hr).
Qed.

Section wake.
Context (T : list Z) (idle : Z) (P : list Z) (DS : Z -> mq_des) (MX MS : Z -> Z) (HT : NoDup T).
Abbreviation D := (queue_id DS).
Abbreviation inv := (mq_inv T idle P DS MX MS).

Definition waiters (snd : bool) (v : mqueue_inode_s) : Z := if snd then nwaitnotfull v else nwaitnotempty v.

(** A counter that is not zero counts somebody. *)
Lemma waiter_exists s Q A G (snd : bool) q :
  inv s Q A G -> q <> 0 -> 0 < waiters snd (msgqs s q) -> exists y, y ∈ A (wait_of snd).2 /\ msgwaitq s y = q.
Proof.
  intros Hi Hq Hpos. destruct snd; simpl in *.
  - pose proof (mb_full _ _ _ _ _ _ (qi_books Hi) q Hq) as Hc. simpl in Hc. rewrite Hc in Hpos. apply tally_pos in Hpos as (y & Hy & Hw).
    exists y. destruct (Q y) eqn:EQ; try done. simpl in Hw. apply Z.eqb_eq in Hw. split; [|done]. apply (qi_lists Hi y Hy). rewrite EQ. simpl. split; [done|congruence].
  - pose proof (mb_empty _ _ _ _ _ _ (qi_books Hi) q Hq) as Hc. simpl in Hc. rewrite Hc in Hpos. apply tally_pos in Hpos as (y & Hy & Hw).
    exists y. destruct (Q y) eqn:EQ; try done. simpl in Hw. apply Z.eqb_eq in Hw. split; [|done]. apply (qi_lists Hi y Hy). rewrite EQ. simpl. split; [done|congruence].
Qed.

(** What is known of a task in the list. *)
Lemma waiter_facts s Q A G (snd : bool) y :
  inv s Q A G -> y ∈ A (wait_of snd).2 ->
  y ∈ T /\ y <> running A /\ y <> idle /\ y <> 0 /\ msgwaitq s y <> 0 /\ err (qk s) y = 0 /\ is_snd (Q y) = snd /\ is_rcv (Q y) = negb snd /\
  (exists d, D d = msgwaitq s y /\ if snd then exists data prio, Q y = PcSendWait d data prio else Q y = PcRcvWait d) /\
  0 < waiters snd (msgqs s (msgwaitq s y)).
Proof.
  intros Hi Hy. pose proof (ok_inv _ _ _ _ (qi_ok Hi)) as Hsi. pose proof (si_tasks _ _ _ _ Hsi _ _ Hy) as HyT.
  assert (y <> running A) as Hne.
  { intros ->. destruct (running_in _ _ _ _ Hsi) as [Hin _]. pose proof (kr_once _ _ (si_rep _ _ _ _ Hsi) _ _ _ Hy Hin). by destruct snd. }
  assert (y <> 0) as H0 by (intros ->; by apply (dq_null _ _ _ (kr_list _ _ (si_rep _ _ _ _ Hsi) (wait_of snd).2))).
  destruct (qi_lists Hi y HyT) as [Le Lf]. pose proof (mb_pc _ _ _ _ _ _ (qi_books Hi) y HyT) as Hpc. pose proof (qi_idle Hi y HyT) as Hid.
  destruct snd; simpl in Hy.
  - apply Lf in Hy as [Hs Hw]. destruct (Q y) as [|d data prio| | | | | | | |] eqn:EQ; try done. simpl in Hpc. destruct Hpc as [HD [[HW HE]|?]]; [|done].
    split_and!; try done; [by apply Hid|exists d; split; [done|by exists data, prio]|]. pose proof (mb_full _ _ _ _ _ _ (qi_books Hi) _ Hw) as Hc. simpl in Hc |- *. rewrite Hc.
    apply (tally_member _ _ y HyT). rewrite EQ. simpl. apply Z.eqb_refl.
  - apply Le in Hy as [Hs Hw]. destruct (Q y) as [| | | | | |d| | |] eqn:EQ; try done. simpl in Hpc. destruct Hpc as [HD [[HW HE]|?]]; [|done].
    split_and!; try done; [by apply Hid|by exists d|]. pose proof (mb_empty _ _ _ _ _ _ (qi_books Hi) _ Hw) as Hc. simpl in Hc |- *. rewrite Hc.
    apply (tally_member _ _ y HyT). rewrite EQ. simpl. apply Z.eqb_refl.
Qed.

(** The lists once [y] is out of its list. *)
Lemma woken_lists s Q A G A' (snd : bool) y :
  inv s Q A G -> y ∈ A (wait_of snd).2 -> (forall t z, waiting t -> (z ∈ A' t <-> z ∈ A t /\ ~ (t = (wait_of snd).2 /\ z = y))) ->
  wait_lists T A' (upd (msgwaitq s) y 0) Q.
Proof.
  intros Hi Hy Hl z HzT. destruct (waiter_facts s Q A G snd y Hi Hy) as (_ & _ & _ & _ & Hw & _ & Es & Er & _). destruct (qi_lists Hi z HzT) as [Le Lf].
  rewrite !Hl by done. rewrite Le, Lf. unfold upd. destruct (Z.eqb_spec z y) as [->|]; [rewrite Es, Er; destruct snd; simpl; naive_solver|naive_solver].
Qed.

Lemma woken_state s Q A G (snd : bool) y k' :
  inv s Q A G -> y ∈ A (wait_of snd).2 -> let q := msgwaitq s y in
  let s1 := set_qk k' (upd_msgq q (count_wait snd (-1)) (set_msgwaitq y 0 s)) in
  static DS MX MS s1 /\ msg_inv P s1 G /\ (forall l, dyn s1 l = dyn s l) /\
  forall t, t <> 0 -> count_q (msgqs s1 t) =
    mk_count (nmsgs (msgqs s t)) (maxmsgs (msgqs s t)) (nwaitnotfull (msgqs s t) - Z.b2z (snd && (t =? q))) (nwaitnotempty (msgqs s t) - Z.b2z (negb snd && (t =? q))).
Proof.
  intros Hi Hy q s1. destruct (waiter_facts s Q A G snd y Hi Hy) as (_ & _ & _ & _ & Hw & _ & _ & _ & _ & Hpos). fold q in Hw, Hpos.
  pose proof (inv_bounds q Hi Hw) as (_ & Hbf & Hbe). split_and!.
  - apply (static_upd DS MX MS (set_msgwaitq y 0 s)); [apply (qi_static Hi)|intros v; apply (count_wait_static snd (-1) v)..].
  - apply msg_inv_kernel, msg_inv_upd; [|intros v; apply (count_wait_static snd (-1) v)..]. apply (msg_inv_same P s); try done. apply (qi_msgs Hi).
  - intros l. by apply dyn_ext.
  - intros t Ht. unfold s1. simpl. unfold upd. destruct (Z.eqb_spec t q) as [->|Hne].
    + destruct snd; simpl; unfold count_q; simpl; rewrite i16_small by lia; f_equal; lia.
    + rewrite !andb_false_r. unfold count_q. simpl. f_equal; lia.
Qed.

(** The running task hands over to [y]. *)
Lemma inv_wake s Q A G (snd : bool) y :
  inv s Q A G -> let x := running A in let q := msgwaitq s y in
  y ∈ A (wait_of snd).2 -> mid (Q x) = true -> hand (Q x) = [] ->
  (forall t, rcredit D (Q x) 0 (err (qk s) x) t = negb snd && (q =? t)) -> (forall t, scredit D (Q x) 0 (err (qk s) x) t = snd && (q =? t)) ->
  let s1 := upd_msgq q (count_wait snd (-1)) (set_msgwaitq y 0 s) in
  exists k' A', up_unblock_task (qk s1) y = Some k' /\ inv (set_qk k' s1) (upd Q x PcNone) A' G /\ running A' = x /\
    lock k' x = lock (qk s) x.
Proof.
  intros Hi x q Hy Hmid Hh Hr Hs s1. destruct (mq_running Hi) as (HxT & Hx0 & _ & _ & HW). fold x in HxT, Hx0, HW.
  destruct (waiter_facts s Q A G snd y Hi Hy) as (HyT & Hne & Hyi & Hy0 & Hw & HE & Es & Er & (d & Hd & Hpc) & Hpos). fold x in Hne. fold q in Hw, Hd, Hpos.
  assert (0 < lock (qk s) x) as Hlk by (apply (mid_locked (Q x)); [done|by apply (qi_lock Hi)]).
  destruct (unblock_task T idle (qk s) A (wait_of snd).1 (wait_of snd).2 y (qi_ok Hi)) as (k' & A' & Hrun & Hok & [Hirq Hcalm] & Hl & Hkeep & Hlisted);
    [by destruct snd|done|done|]. specialize (Hkeep Hlk). exists k', A'.
  destruct (woken_state s Q A G snd y k' Hi Hy) as (Hst & Hm & Hdyn & Hcnt). fold q in Hcnt. fold s1 in Hst, Hm, Hdyn, Hcnt.
  split; [done|]. split; [|split; [done|by destruct (Hcalm x)]].
  assert (forall z, z <> x -> z ∈ T -> mid (Q z) = false) as Hnm.
  { intros z Hz HzT. destruct (mid (Q z)) eqn:E; [|done]. destruct Hz. by apply (qi_mid Hi). }
  assert (running A' = x) as Hkeep' by done. constructor; try done; try (rewrite Hkeep', upd_eq; simpl; done).
  - by apply Hlisted, (qi_listed Hi).
  - by rewrite <- (qi_irq Hi).
  - intros z HzT. destruct (woken_lists s Q A G A' snd y Hi Hy Hl z HzT) as [Le Lf]. simpl. destruct (decide (z = x)) as [->|Hz].
    + rewrite upd_eq, Le, Lf. rewrite upd_ne, HW by congruence. naive_solver.
    + rewrite (upd_ne Q) by done. done.
  - apply (mbooks_ext D T (upd (msgwaitq s) y 0) (err (qk s)) (upd Q x PcNone) (fun t => count_q (msgqs (set_qk k' s1) t))); try done; [|intros z _; by destruct (Hcalm z)].
    apply (mbooks_hand_over D T HT x y (msgwaitq s) (err (qk s)) Q (fun t => count_q (msgqs s t))); try done; [apply (qi_books Hi)|..].
    + intros z Hz. by rewrite upd_ne.
    + intros z Hz. by rewrite upd_ne.
    + by rewrite upd_eq.
    + rewrite upd_eq. destruct snd; [destruct Hpc as (data & prio & ->)|rewrite Hpc]; simpl; (split; [congruence|by right]).
    + intros t Ht. rewrite upd_eq, HW. rewrite !rwaits_0, !swaits_0 by done. done.
    + intros t Ht. rewrite (Hcnt t Ht). simpl. rewrite !upd_eq, HW, Hr, Hs, HE. rewrite rwaits_0, swaits_0 by done. rewrite (Z.eqb_sym t q).
      fold q. destruct snd; [destruct Hpc as (data & prio & ->)|rewrite Hpc]; simpl; rewrite Hd;
        destruct (Z.eqb_spec q t) as [<-|]; simpl; rewrite ?(proj2 (Z.eqb_neq q 0)) by done; simpl; split_and!; try lia.
  - rewrite Hkeep', upd_eq, (qi_hand Hi). done.
  - intros z HzT. destruct (decide (z = x)) as [->|Hz]; [by rewrite upd_eq|]. rewrite upd_ne, Hnm by done. done.
  - intros z HzT. destruct (decide (z = x)) as [->|Hz]; [by rewrite upd_eq|]. rewrite upd_ne by done. simpl. destruct (Hcalm z) as [_ ->]. by apply (qi_lock Hi).
  - intros z HzT. destruct (decide (z = x)) as [->|Hz]; [by rewrite upd_eq|]. rewrite upd_ne by done. by apply (qi_idle Hi).
  - intros z HzT. destruct (decide (z = x)) as [->|Hz]; [by rewrite upd_eq|]. rewrite upd_ne by done. by apply (qi_data Hi).
  - intros t Ht. rewrite Hdyn. by apply (qi_room Hi).
Qed.

(** The piece of code: it finds a task, and hands over to it. *)
Lemma wake_waiter_spec s Q A G (snd : bool) q :
  inv s Q A G -> let x := running A in q <> 0 -> 0 < waiters snd (msgqs s q) -> mid (Q x) = true -> hand (Q x) = [] ->
  (forall t, rcredit D (Q x) 0 (err (qk s) x) t = negb snd && (q =? t)) -> (forall t, scredit D (Q x) 0 (err (qk s) x) t = snd && (q =? t)) ->
  exists s1 A1, wake_waiter s q (wait_of snd).2 (count_wait snd (-1)) = Some s1 /\ inv s1 (upd Q x PcNone) A1 G /\ running A1 = x /\
    lock (qk s1) x = lock (qk s) x /\ msgs s1 = msgs s.
Proof.
  intros Hi x Hq Hpos Hmid Hh Hr Hs.
  destruct (find_mqwaiter_spec T idle s A (wait_of snd).2 q (qi_ok Hi)) as (y & Ef & Hy & <- & Hy0); [by apply (waiter_exists s Q A G)|].
  destruct (inv_wake s Q A G snd y Hi Hy Hmid Hh Hr Hs) as (k' & A' & E & Hi' & Hrun & Hlk).
  unfold wake_waiter. rewrite Ef. cbn [mbind option_bind]. rewrite (proj2 (Z.eqb_neq y 0)) by done. cbn [negb assert mbind option_bind].
  rewrite E. cbn [mbind option_bind]. eexists _, A'. by split_and!.
Qed.
End wake.
