(* ===== verification/MqueueCalls.v ===== *)
(** * Message queues: sending

    The pieces of [mq_send] keep the invariant and refine the priority queue. *)

From stdpp Require Import base tactics numbers sets list sorting.
From S2P Require Import Prelude Queue QueueProps Sched SchedProps SchedOps SchedKernel SchedTheorems SemSystem Mqueue MqueueInv MqueueMsgs.

Section send.
Context (T : list Z) (idle : Z) (P : list Z) (DS : Z -> mq_des) (MX MS : Z -> Z) (HT : NoDup T).
Context (HMX : forall q, Z.max 0 (MX q) + Z.of_nat (length P) < 32767) (HMS : forall q, MS q <= MQ_MAX_BYTES).
Abbreviation D := (queue_id DS).
Abbreviation inv := (mq_inv T idle P DS MX MS).
Abbreviation good := (good T idle P DS MX MS).

Lemma inv_queue s Q A G d : inv s Q A G -> queue_of s d = D d.
Proof. intros Hi. unfold queue_of. by destruct (qi_static Hi) as [-> _]. Qed.

Lemma inv_max s Q A G q : inv s Q A G -> maxmsgs (msgqs s q) = MX q /\ maxmsgsize (msgqs s q) = MS q.
Proof. intros Hi. apply (qi_static Hi). Qed.

Lemma set_qk_same s : set_qk (qk s) s = s.
Proof. by destruct s. Qed.

(** The running task goes on, and nothing else changes. *)
Lemma inv_place s Q A G p :
  inv s Q A G -> let x := running A in
  lock_ok p (lock (qk s) x) -> (p <> PcNone -> x <> idle) -> data_ok DS MS p -> hand p = hand (Q x) -> seen DS MX s G p ->
  mpc_ok D p 0 (err (qk s) x) ->
  (forall q, q <> 0 -> 0 < nwaitnotempty (msgqs s q) -> Z.b2z (rcredit D (Q x) 0 (err (qk s) x) q) <= Z.b2z (rcredit D p 0 (err (qk s) x) q)) ->
  (forall q, q <> 0 -> 0 < nwaitnotfull (msgqs s q) -> Z.b2z (scredit D (Q x) 0 (err (qk s) x) q) <= Z.b2z (scredit D p 0 (err (qk s) x) q)) ->
  inv s (upd Q x p) A G.
Proof.
  intros Hi x Hlo Hid Hd Hh Hsn Hpc Hr Hs. rewrite <- (set_qk_same s).
  apply (inv_kernel T idle P DS MX MS HT s Q A G (qk s) A); try done; [apply (qi_ok Hi)|apply (qi_listed Hi)|apply (qi_irq Hi)|by left].
Qed.

(** Only the running task has a message in its hands. *)
Lemma taken_other s Q A G s' y : inv s Q A G -> y ∈ T -> y <> running A -> taken_by s' (Q y) = None.
Proof. intros Hi Hy Hne. destruct (Q y) eqn:E; try done. destruct Hne. apply (qi_mid Hi y Hy). by rewrite E. Qed.

(** A fresh call, or a task that has been woken. *)
Definition may_send (s : mq_state) (Q : Z -> mq_pc) (x d : Z) (data : list Z) (prio : Z) : Prop :=
  Q x = PcNone \/ Q x = PcSendWait d data prio /\ err (qk s) x = 0.

Lemma ready_send s Q A G w d data prio :
  inv s Q A G -> let x := running A in mpcs w = Q -> may_send s Q x d data prio -> D d <> 0 -> x <> idle ->
  1 <= lock (qk s) x < MAX_LOCK_COUNT -> data_ok DS MS (PcSendWait d data prio) -> nmsgs (msgqs s (D d)) < MX (D d) ->
  good s Q G (proceed w x (Some (s, Goes (PcSendAlloc d data prio), []))).
Proof.
  intros Hi x Hw Hms Hd Hid Hlk Hdt Hroom. unfold proceed. cbn [mbind option_bind]. rewrite Hw.
  destruct (mq_running Hi) as (HxT & _ & _ & _ & HW). fold x in HW, HxT.
  assert (hand (Q x) = [] /\ taken_by s (Q x) = None) as [Hh Ht] by (by destruct Hms as [-> | [-> _]]).
  apply (good_quiet T idle P DS MX MS s Q G s _ A G); [|done|intros y _; by apply taken_upd].
  apply inv_place; try done.
  - simpl. pose proof (mi_count _ _ _ (qi_msgs Hi) (D d) Hd) as Hc. unfold dyn. pose proof (length_filter (is_dyn s) (G (PQueue (D d)))). lia.
  - fold x. destruct Hms as [-> | [-> He]]; [done|]. intros q Hq _. done.
  - fold x. destruct Hms as [-> | [-> He]]; [intros q Hq _; simpl; destruct (_ =? q); done|]. intros q Hq _. rewrite He. simpl.
    rewrite !andb_true_r. done.
Qed.

Lemma waitsend_good s Q A G w d data prio :
  inv s Q A G -> let x := running A in mpcs w = Q -> may_send s Q x d data prio -> D d <> 0 -> x <> idle ->
  1 <= lock (qk s) x < MAX_LOCK_COUNT -> data_ok DS MS (PcSendWait d data prio) ->
  good s Q G (proceed w x (after_waitsend (waitsend_loop s d) d data prio)).
Proof.
  intros Hi x Hw Hms Hd Hid Hlk Hdt. unfold waitsend_loop. rewrite (inv_queue s Q A G d Hi). destruct (inv_max s Q A G (D d) Hi) as [-> _].
  destruct (mq_running Hi) as (HxT & _ & Hhd & _ & HW). fold x in HW, HxT, Hhd. destruct (Z.leb_spec (MX (D d)) (nmsgs (msgqs s (D d)))) as [Hfull | Hroom].
  - rewrite Hhd. assert (hand (Q x) = [] /\ taken_by s (Q x) = None) as [Hh Ht] by (by destruct Hms as [-> | [-> _]]).
    destruct (inv_block T idle P DS MX MS HT s Q A G true (PcSendWait d data prio) (D d)) as (k' & A' & E & Hi'); try done.
    + simpl. split; [done|by left].
    + intros t Ht0. fold x. by destruct Hms as [-> | [-> _]].
    + intros t Ht0. fold x. destruct Hms as [-> | [-> _]]; [done|]. simpl. rewrite (proj2 (Z.eqb_neq (D d) t)); [done|congruence].
    + intros _. fold x. by destruct Hms as [-> | [-> _]].
    + fold x in E, Hi'. simpl in E. unfold mq_errno, upd_msgq. cbn [qk set_qk set_msgq set_msgwaitq]. rewrite E. cbn [mbind option_bind].
      unfold proceed, after_waitsend. cbn [mbind option_bind]. rewrite Hw.
      apply (good_quiet T idle P DS MX MS s Q G _ _ A' G); [exact Hi'|done|intros y _; by apply taken_upd].
  - cbn [after_waitsend mbind option_bind]. by apply ready_send.
Qed.

(** ** The call *)

(** A call that returns with an error before it locks. *)
Lemma error_good w A G e :
  inv (ms w) (mpcs w) A G -> let x := running A in mpcs w x = PcNone ->
  good (ms w) (mpcs w) G (proceed w x (Some (mq_errno (ms w) e, Returns ERROR, []))).
Proof.
  intros Hi x HQ. unfold proceed. cbn [mbind option_bind]. destruct (inv_errno T idle P DS MX MS HT _ _ A G e Hi HQ) as [Hi' _].
  apply (good_quiet T idle P DS MX MS _ _ G _ _ A G); [|done|intros y _; apply taken_upd; [done|by rewrite HQ]].
  apply (inv_pcs T idle P DS MX MS _ (mpcs w)); [done|]. intros y. unfold upd. by destruct (Z.eqb_spec y x) as [->|].
Qed.

Lemma send_good w A G d msg prio :
  inv (ms w) (mpcs w) A G -> let x := running A in mpcs w x = PcNone -> x <> idle -> lock (qk (ms w)) x + 2 <= MAX_LOCK_COUNT ->
  d = 0 \/ D d <> 0 -> good (ms w) (mpcs w) G (proceed w x (mq_send (ms w) d msg prio)).
Proof.
  intros Hi x HQ Hid Hlk Hdd. set (s := ms w) in *. set (Q := mpcs w) in *. unfold mq_send. unfold mq_verifysend. rewrite (inv_queue s Q A G d Hi).
  destruct (mq_running Hi) as (HxT & _ & Hhd & _ & HW). fold x in HW, HxT, Hhd.
  pose proof (fun e => error_good w A G e Hi HQ) as Herr. fold s Q x in Herr.
  destruct msg as [data|]; [|apply Herr].
  destruct ((d =? 0) || (prio <? 0) || (MQ_PRIO_MAX <? prio)) eqn:Ebad; [apply Herr|].
  apply orb_false_iff in Ebad as [[E1%Z.eqb_neq E2%Z.ltb_ge]%orb_false_iff E3%Z.ltb_ge].
  destruct (Z.land _ O_WROK =? 0); [apply Herr|]. destruct (inv_max s Q A G (D d) Hi) as [Emax ->].
  destruct (Z.ltb_spec (MS (D d)) (Z.of_nat (length data))) as [|Hlen]; [apply Herr|]. cbn [Z.eqb negb mbind option_bind].
  destruct (inv_lock T idle P DS MX MS HT s Q A G Hi HQ) as (k' & -> & Hi' & Hl'); [unfold x in Hlk; lia|]. cbn [mbind option_bind]. fold x in Hl'.
  assert (D d <> 0) as HD by (by destruct Hdd). set (s1 := set_qk k' s) in *. rewrite (inv_queue s1 Q A G d Hi').
  assert (1 <= lock (qk s1) x < MAX_LOCK_COUNT) as Hlk1.
  { change (lock (qk s1) x) with (lock k' x). pose proof (si_lock _ _ _ _ (ok_inv _ _ _ _ (qi_ok Hi)) x). lia. }
  assert (data_ok DS MS (PcSendWait d data prio)) as Hdt by (simpl; lia).
  assert (may_send s1 Q x d data prio) as Hms by (by left).
  apply (good_from T idle P DS MX MS s Q G s1 Q G); [|done|done]. destruct (inv_max s1 Q A G (D d) Hi') as [-> _].
  destruct (Z.ltb_spec (nmsgs (msgqs s1 (D d))) (MX (D d))) as [Hroom|Hfull]; [by apply ready_send|].
  unfold mq_waitsend. rewrite (inv_queue s1 Q A G d Hi'). destruct (inv_max s1 Q A G (D d) Hi') as [-> _]. rewrite (proj2 (Z.leb_le _ _)) by done.
  destruct (Z.land _ O_NONBLOCK =? 0); [by apply waitsend_good|]. cbn [after_waitsend mbind option_bind].
  destruct (inv_errno T idle P DS MX MS HT s1 Q A G EAGAIN Hi' HQ) as [Hi2 _].
  apply (good_from T idle P DS MX MS s1 Q G (mq_errno s1 EAGAIN) Q G); [|done|done].
  by apply (unlock_good T idle P DS MX MS HT _ Q A G w ERROR Hi2); fold x; rewrite ?HQ.
Qed.

(** ** After a wait *)

Lemma resume_send_good w A G d data prio :
  inv (ms w) (mpcs w) A G -> let x := running A in mpcs w x = PcSendWait d data prio ->
  good (ms w) (mpcs w) G (proceed w x (after_waitsend (mq_waitsend_resume (ms w) d) d data prio)).
Proof.
  intros Hi x HQ. set (s := ms w) in *. set (Q := mpcs w) in *. destruct (mq_running Hi) as (HxT & _ & _ & _ & HW). fold x in HxT, HW.
  pose proof (mb_pc _ _ _ _ _ _ (qi_books Hi) x HxT) as Hpc. rewrite HQ in Hpc. destruct Hpc as [HD _].
  pose proof (qi_lock Hi x HxT) as Hlk. pose proof (qi_data Hi x HxT) as Hdt. pose proof (qi_idle Hi x HxT) as Hid. rewrite HQ in Hlk, Hdt, Hid.
  unfold mq_waitsend_resume. rewrite (errno_read T idle (qk s) A (qi_ok Hi) (qi_irq Hi)). fold x.
  destruct (Z.eqb_spec (err (qk s) x) 0) as [He|He].
  - apply waitsend_good; try done; [by right|by apply Hid].
  - cbn [after_waitsend mbind option_bind]. apply (unlock_good T idle P DS MX MS HT s Q A G w ERROR Hi); fold x; rewrite ?HQ; try done.
    intros q _ _. simpl. rewrite (proj2 (Z.eqb_neq (err (qk s) x) 0)) by done. by rewrite andb_false_r.
Qed.

(** ** Allocation *)

(** Messages in queues are not those in somebody's hands. *)
Lemma queue_not_hand s G q m y : msg_inv P s G -> m ∈ G PHand -> y ∈ G (PQueue q) -> y <> m.
Proof. intros Hm Hh Hy ->. discriminate (mr_once _ _ (mi_rep _ _ _ Hm) _ _ _ Hh Hy). Qed.

Lemma alloc_good w A G d data prio heap :
  inv (ms w) (mpcs w) A G -> let x := running A in mpcs w x = PcSendAlloc d data prio -> (G PFree = [] -> heap <> 0 /\ forall p, heap ∉ G p) ->
  good (ms w) (mpcs w) G (proceed w x (mq_step (ms w) x (PcSendAlloc d data prio) heap)).
Proof.
  intros Hi x HQ Hnew. set (s := ms w) in *. set (Q := mpcs w) in *. destruct (mq_running Hi) as (HxT & _ & _ & _ & HW). fold x in HxT, HW.
  destruct (mq_msgalloc_task P s G heap (qi_msgs Hi) (qi_irq Hi) Hnew) as (s' & m & G' & E & Hm0 & Hm & Hhand & HGq & (Ek & Eq & Ed & Ew) & Hsame).
  cbn [mq_step]. rewrite E. cbn [mbind option_bind]. rewrite (proj2 (Z.eqb_neq m 0)) by done. unfold proceed. cbn [mbind option_bind]. fold Q.
  assert (forall q y, y ∈ G (PQueue q) -> msgs s' y = msgs s y) as Hq.
  { intros q y Hy. apply Hsame. apply (queue_not_hand s' G' q m y Hm); [rewrite Hhand; set_solver|by rewrite HGq]. }
  pose proof (qi_hand Hi) as Hh. fold x in Hh. rewrite HQ in Hh. simpl in Hh. rewrite Hh in Hhand.
  pose proof (mb_pc _ _ _ _ _ _ (qi_books Hi) x HxT) as Hpc. rewrite HQ in Hpc. pose proof (qi_seen Hi) as Hsn. fold x in Hsn. rewrite HQ in Hsn.
  pose proof (qi_lock Hi x HxT) as Hlk. pose proof (qi_data Hi x HxT) as Hdt. pose proof (qi_idle Hi x HxT) as Hid. rewrite HQ in Hlk, Hdt, Hid.
  assert (forall q, dyn s' (G' (PQueue q)) = dyn s (G (PQueue q))) as Hdyn.
  { intros q. rewrite HGq. apply dyn_ext. intros y Hy. by rewrite (Hq q y Hy). }
  apply (good_quiet T idle P DS MX MS s Q G s' _ A G').
  - destruct (qi_lists Hi x HxT) as [Le Lf]. rewrite HQ in Le, Lf. simpl in Le, Lf.
    apply (inv_advance T idle P DS MX MS s Q A G); fold x; rewrite ?Ek, ?Ew; try done; [apply (qi_ok Hi)|apply (qi_listed Hi)|apply (qi_irq Hi)| |by intros _; apply Hid|by left| | |].
    + split; [by rewrite Ed; apply (qi_static Hi)|]. rewrite Eq. apply (qi_static Hi).
    + intros q Hq0. rewrite Hdyn. by apply (qi_room Hi).
    + simpl. by rewrite Hdyn.
    + rewrite Eq. apply (books_running T idle P DS MX MS HT s Q A G); fold x; try done; [by rewrite HW in Hpc| |]; intros q _ _; by rewrite HQ.
  - intros q _. rewrite HGq. apply contents_ext. apply Hq.
  - intros y Hy. unfold upd. destruct (Z.eqb_spec y x) as [->|Hne]; [by rewrite HQ|]. by rewrite !(taken_other s Q A G) by done.
Qed.

(** ** Insertion *)

Lemma dyn_insert s l1 m l2 : dyn s (l1 ++ m :: l2) <= dyn s (l1 ++ l2) + 1 /\ (~ is_dyn s m -> dyn s (l1 ++ m :: l2) = dyn s (l1 ++ l2)).
Proof.
  unfold dyn. rewrite !filter_app. destruct (decide (is_dyn s m)).
  - rewrite filter_cons_True by done. rewrite !length_app. simpl. split; [lia|done].
  - rewrite filter_cons_False by done. split; [lia|done].
Qed.

(** What insertion does to the messages, from any state of the scheduler. *)
Lemma insert_spec s G k d m data prio rest :
  msg_inv P s G -> static DS MX MS s -> G PHand = m :: rest -> D d <> 0 -> Z.of_nat (length data) <= MS (D d) -> 0 <= prio <= MQ_PRIO_MAX ->
  nmsgs (msgqs s (D d)) < 32767 -> sched_lock (qk s) = Some k ->
  exists s' G' l, mq_dosend_insert s d m data prio = Some s' /\ msg_inv P s' G' /\ G' PHand = rest /\
    qk s' = k /\ descs s' = descs s /\ msgwaitq s' = msgwaitq s /\
    msgqs s' = upd (msgqs s) (D d) (set_nmsgs (nmsgs (msgqs s (D d)) + 1) (set_msglist l (msgqs s (D d)))) /\
    (forall q, q <> D d -> G' (PQueue q) = G (PQueue q)) /\ (forall y, y <> m -> msgs s' y = msgs s y) /\
    m_type (msgs s' m) = m_type (msgs s m) /\
    contents s' (G' (PQueue (D d))) = pq_insert (prio, data) (contents s (G (PQueue (D d)))) /\
    dyn s' (G' (PQueue (D d))) <= dyn s (G (PQueue (D d))) + 1 /\
    (~ is_dyn s m -> dyn s' (G' (PQueue (D d))) = dyn s (G (PQueue (D d)))).
Proof.
  intros Hm [Hds Hstat] Hh HD Hlen Hprio Hmax Hlock. unfold mq_dosend_insert. rewrite Hlock. cbn [mbind option_bind].
  set (s1 := set_qk k s). assert (queue_of s1 d = D d) as Hq by (unfold queue_of; simpl; by rewrite Hds). rewrite Hq.
  pose proof (HMS (D d)) as Hms. unfold MQ_MAX_BYTES in Hms |- *. unfold MQ_PRIO_MAX in *. rewrite (proj2 (Z.leb_le (Z.of_nat (length data)) 600)) by lia.
  cbn [assert mbind option_bind]. assert (u8 prio = prio) as Hu8 by (apply Z.mod_small; lia).
  assert (u16 (Z.of_nat (length data)) = Z.of_nat (length data)) as Hu16 by (apply Z.mod_small; lia). rewrite Hu8, Hu16.
  set (v := mk_msg _ _ _ _). set (s2 := set_msg m v s1).
  assert (msg_inv P s2 G) as Hm2 by (apply msg_inv_write; [by apply msg_inv_kernel|rewrite Hh; set_solver|done]).
  assert (msgs s2 m = v) as Hv by (simpl; by rewrite upd_eq). assert (prios s2 m = prio) as Hpr by (unfold prios; by rewrite Hv).
  destruct (inserted_spec s2 G P (D d) m rest Hm2 HD Hh Hmax) as (s' & l & Hins & Hm' & EM & Es).
  unfold inserted in Hins. rewrite Hpr in Hins. change (msg_fuel s2 (D d)) with (msg_fuel s2 (D d)). rewrite Hins.
  set (G' := put _ _ _ _) in Hm'. exists s', G', l.
  assert (forall q y, y ∈ G (PQueue q) -> msgs s2 y = msgs s y) as Hold.
  { intros q y Hy. simpl. rewrite upd_ne; [done|]. apply (queue_not_hand s G q m y Hm); [rewrite Hh; set_solver|done]. }
  assert (G' (PQueue (D d)) = insert_at s2 (D d) m (G (PQueue (D d)))) as HG by (unfold G', put; by rewrite set_place_ne, set_place_eq).
  assert (dyn s2 (G (PQueue (D d))) = dyn s (G (PQueue (D d)))) as Hdy by (apply dyn_ext; intros y Hy; by rewrite (Hold (D d))).
  assert (is_dyn s2 m <-> is_dyn s m) as Hty by (unfold is_dyn; by rewrite Hv).
  assert (dyn s' (G' (PQueue (D d))) = dyn s2 (insert_at s2 (D d) m (G (PQueue (D d))))) as Hdy'.
  { rewrite HG. apply dyn_ext. intros y _. by rewrite EM. }
  pose proof (dyn_insert s2 (ahead (prios s2) prio (G (PQueue (D d)))) m (behind (prios s2) prio (G (PQueue (D d))))) as [Hd1 Hd2].
  rewrite ahead_behind, Hdy in Hd1, Hd2. rewrite Hdy'. unfold insert_at. rewrite Hpr.
  split_and!; try done.
  - by rewrite Es.
  - by rewrite Es.
  - by rewrite Es.
  - by rewrite Es.
  - intros q Hne. unfold G', put. rewrite !set_place_ne by congruence. done.
  - intros y Hy. rewrite EM. simpl. by rewrite upd_ne.
  - rewrite EM, Hv. done.
  - rewrite HG. unfold contents at 1. rewrite (map_ext (body s') (body s2)) by (intros; unfold body; by rewrite EM).
    fold (contents s2 (insert_at s2 (D d) m (G (PQueue (D d))))). unfold insert_at. rewrite pq_insert_contents.
    rewrite (contents_ext s s2) by (intros y Hy; by apply (Hold (D d))). f_equal. unfold body. rewrite Hv. simpl. f_equal.
    rewrite Nat2Z.id. apply take_app_length.
  - intros Hnd. apply Hd2. by rewrite Hty.
Qed.

Lemma insert_good w A G d m data prio :
  inv (ms w) (mpcs w) A G -> let x := running A in mpcs w x = PcSendInsert d m data prio ->
  good (ms w) (mpcs w) G (proceed w x (mq_step (ms w) x (PcSendInsert d m data prio) 0)).
Proof.
  intros Hi x HQ. set (s := ms w) in *. set (Q := mpcs w) in *. destruct (mq_running Hi) as (HxT & _ & _ & _ & HW). fold x in HxT, HW.
  pose proof (mb_pc _ _ _ _ _ _ (qi_books Hi) x HxT) as Hpc. rewrite HQ in Hpc. destruct Hpc as [_ HD]. pose proof (qi_seen Hi) as Hsn. fold x in Hsn. rewrite HQ in Hsn.
  pose proof (qi_lock Hi x HxT) as Hlk. pose proof (qi_data Hi x HxT) as Hdt. pose proof (qi_idle Hi x HxT) as Hid. rewrite HQ in Hlk, Hdt, Hid. simpl in Hlk.
  destruct Hdt as [Hlen Hprio].
  pose proof (qi_hand Hi) as Hh. fold x in Hh. rewrite HQ in Hh. destruct (inv_bounds (D d) Hi HD) as [Hn _]. pose proof (HMX (D d)) as Hmx.
  destruct (lock_task T idle (qk s) A (qi_ok Hi) (qi_irq Hi)) as (k & Hlock & Hok & Hirq & HE & Hlx & Hly); [fold x; lia|]. fold x in Hlx, Hly.
  destruct (insert_spec s G k d m data prio [] (qi_msgs Hi) (qi_static Hi) Hh HD Hlen Hprio ltac:(lia) Hlock)
    as (s' & G' & l & E & Hm & Hh' & Ek & Ed & Ew & Eq & HGq & Hmsg & _ & Hcont & Hdyn & _).
  cbn [mq_step]. rewrite E. cbn [mbind option_bind]. unfold proceed. cbn [mbind option_bind]. fold Q.
  assert (queue_of s' d = D d) as Hqo by (unfold queue_of; rewrite Ed; by destruct (qi_static Hi) as [-> _]). rewrite Hqo.
  assert (forall q, q <> D d -> contents s' (G' (PQueue q)) = contents s (G (PQueue q)) /\ dyn s' (G' (PQueue q)) = dyn s (G (PQueue q))) as Hoth.
  { intros q Hne. rewrite HGq by done. assert (forall y, y ∈ G (PQueue q) -> msgs s' y = msgs s y) as Hy.
    { intros y Hy. apply Hmsg. apply (queue_not_hand s G q m y (qi_msgs Hi)); [rewrite Hh; simpl; set_solver|done]. }
    split; [by apply contents_ext|]. apply dyn_ext. intros y Hin. by rewrite Hy. }
  eexists _, _, A, G'. split; [done|]. split.
  - destruct (qi_lists Hi x HxT) as [Le Lf]. rewrite HQ in Le, Lf.
    apply (inv_advance T idle P DS MX MS s Q A G); fold x; simpl; rewrite ?Ek, ?Ew; try done;
      [apply (qi_listed Hi)| |intros y Hy; split; [done|by apply Hly]|lia|by intros _; apply Hid|by left| |].
    + split; [by rewrite Ed; apply (qi_static Hi)|]. intros q. rewrite Eq. unfold upd. destruct (Z.eqb_spec q (D d)) as [->|]; apply (qi_static Hi).
    + intros q Hq. destruct (decide (q = D d)) as [->|Hne]; [simpl in Hsn; lia|]. destruct (Hoth q Hne) as [_ ->]. by apply (qi_room Hi).
    + apply (mbooks_change D T HT x _ _ _ _ _ _ _ _ (qi_books Hi) HxT).
      * intros y Hy. rewrite upd_ne by done. by rewrite HE.
      * rewrite upd_eq, HW. done.
      * intros q Hq. rewrite upd_eq, HQ, HW, Eq. unfold fits, upd. simpl. destruct (Z.eqb_spec q (D d)) as [->|Hne].
        -- rewrite Z.eqb_refl. simpl. split_and!; [lia|lia|intros; left; lia|intros; left; lia].
        -- rewrite (proj2 (Z.eqb_neq (D d) q)) by congruence. simpl. split_and!; [lia|lia|intros; left; lia|intros; left; lia].
  - intros S [Hp Ht]. eexists. split; [apply pq_one, pq_sent|]. split.
    + intros q Hq. simpl. unfold upd. destruct (Z.eqb_spec q (D d)) as [->|Hne]; [by rewrite Hp, Hcont|]. rewrite Hp by done. symmetry. by apply Hoth.
    + intros y Hy. simpl. unfold upd. destruct (Z.eqb_spec y x) as [->|Hne]; [rewrite Ht, HQ by done; done|]. by rewrite Ht, !(taken_other s Q A G) by done.
Qed.

(** ** Notification and wake-up *)

(** The notification is all that changes. *)
Lemma notify_spec s G d :
  static DS MX MS s -> msg_inv P s G -> let s' := mq_dosend_notify s d in
  static DS MX MS s' /\ msg_inv P s' G /\ qk s' = qk s /\ msgwaitq s' = msgwaitq s /\ msgs s' = msgs s /\
  forall q, count_q (msgqs s' q) = count_q (msgqs s q).
Proof.
  intros Hst Hm s'. unfold s', mq_dosend_notify. destruct (_ =? 0); [done|]. split_and!; try done.
  - by apply (static_upd DS MX MS s).
  - apply (msg_inv_same P (upd_msgq (queue_of s d) (set_notification 0 INVALID_PROCESS_ID 0 0) s)); try done. by apply msg_inv_upd.
  - intros q. simpl. unfold upd. by destruct (Z.eqb_spec q (queue_of s d)) as [->|].
Qed.

Lemma notify_good w A G d :
  inv (ms w) (mpcs w) A G -> let x := running A in mpcs w x = PcSendNotify d ->
  good (ms w) (mpcs w) G (proceed w x (mq_step (ms w) x (PcSendNotify d) 0)).
Proof.
  intros Hi x HQ. set (s := ms w) in *. set (Q := mpcs w) in *. destruct (mq_running Hi) as (HxT & _ & _ & _ & HW). fold x in HxT, HW.
  pose proof (mb_pc _ _ _ _ _ _ (qi_books Hi) x HxT) as Hpc. rewrite HQ in Hpc. pose proof (qi_lock Hi x HxT) as Hlk. pose proof (qi_idle Hi x HxT) as Hid. rewrite HQ in Hlk, Hid.
  pose proof (qi_hand Hi) as Hh. fold x in Hh. rewrite HQ in Hh. unfold proceed. cbn [mq_step mbind option_bind]. fold Q.
  destruct (notify_spec s G d (qi_static Hi) (qi_msgs Hi)) as (Hst & Hm & Ek & Ew & EM & Hcnt).
  apply (good_quiet T idle P DS MX MS s Q G _ _ A G).
  - destruct (qi_lists Hi x HxT) as [Le Lf]. rewrite HQ in Le, Lf.
    apply (inv_advance T idle P DS MX MS s Q A G); fold x; simpl; rewrite ?Ek, ?Ew; try done; [apply (qi_ok Hi)|apply (qi_listed Hi)|apply (qi_irq Hi)|by intros _; apply Hid|by left| |].
    + intros q Hq. rewrite (dyn_ext s) by (intros y _; by rewrite EM). by apply (qi_room Hi).
    + apply (mbooks_ext D T (msgwaitq s) (err (qk s)) (upd Q x (PcSendWake d)) (fun q => count_q (msgqs s q))); try done.
      apply (books_running T idle P DS MX MS HT s Q A G); fold x; try done; [by rewrite HW in Hpc| |]; intros q _ _; by rewrite HQ.
  - intros q _. apply contents_ext. intros y _. by rewrite EM.
  - intros y _. apply taken_upd; [done|by rewrite HQ].
Qed.

Lemma wake_send_good w A G d :
  inv (ms w) (mpcs w) A G -> let x := running A in mpcs w x = PcSendWake d ->
  good (ms w) (mpcs w) G (proceed w x (mq_step (ms w) x (PcSendWake d) 0)).
Proof.
  intros Hi x HQ. set (s := ms w) in *. set (Q := mpcs w) in *. destruct (mq_running Hi) as (HxT & _ & _ & _ & HW). fold x in HxT, HW.
  pose proof (mb_pc _ _ _ _ _ _ (qi_books Hi) x HxT) as Hpc. rewrite HQ in Hpc. destruct Hpc as [_ HD]. pose proof (qi_lock Hi x HxT) as Hlk. rewrite HQ in Hlk. simpl in Hlk.
  cbn [mq_step]. unfold mq_dosend_wake. rewrite (inv_queue s Q A G d Hi).
  assert (exists s1 Q1 A1,
    (if 0 <? nwaitnotempty (msgqs s (D d)) then wake_waiter s (D d) g_waitingformqnotempty (count_wait false (-1)) else Some s) = Some s1 /\
     inv s1 Q1 A1 G /\ running A1 = x /\ 2 <= lock (qk s1) x /\ msgs s1 = msgs s /\ (forall y, y <> x -> Q1 y = Q y) /\
     hand (Q1 x) = [] /\ taken_by s (Q1 x) = None /\
     (forall q, q <> 0 -> 0 < nwaitnotempty (msgqs s1 q) -> rcredit D (Q1 x) 0 (err (qk s1) x) q = false) /\
     (forall q, q <> 0 -> 0 < nwaitnotfull (msgqs s1 q) -> scredit D (Q1 x) 0 (err (qk s1) x) q = false))
    as (s1 & Q1 & A1 & E & Hi1 & Hr1 & Hl1 & EM & HQ1 & Hh1 & Ht1 & Hc1 & Hc2).
  { destruct (Z.ltb_spec 0 (nwaitnotempty (msgqs s (D d)))) as [Hpos|Hno].
    - destruct (wake_waiter_spec T idle P DS MX MS HT s Q A G false (D d) Hi HD Hpos) as (s1 & A1 & E & Hi1 & Hr1 & Hl1 & EM); fold x; rewrite ?HQ; try done.
      fold x in Hi1, Hl1. exists s1, (upd Q x PcNone), A1. rewrite upd_eq. split_and!; try done; [lia|]. intros z Hz. by rewrite upd_ne.
    - exists s, Q, A. rewrite HQ. split_and!; try done. intros q Hq Hpos. simpl. apply Z.eqb_neq. intros <-. lia. }
  change (fun v => set_nwaitnotempty (i16 (nwaitnotempty v - 1)) v) with (count_wait false (-1)). rewrite E.
  cbn [mbind option_bind]. destruct (inv_unlock T idle P DS MX MS HT s1 Q1 A1 G Hi1) as (k2 & A2 & -> & Hi2 & Hl2); rewrite ?Hr1; try done.
  rewrite Hr1 in Hl2, Hi2. destruct Hl2 as [Hr2 Hl2]; [lia|]. cbn [mbind option_bind].
  apply (good_from T idle P DS MX MS s Q G (set_qk k2 s1) (upd Q1 x PcNone) G).
  - pose proof (unlock_good T idle P DS MX MS HT _ _ A2 G w OK Hi2) as Hu. cbn zeta in Hu. rewrite Hr2, upd_eq in Hu. apply Hu; try done.
    intros y Hy. rewrite upd_ne by done. symmetry. by apply HQ1.
  - intros q _. apply contents_ext. intros y _. simpl. by rewrite EM.
  - intros y Hy. rewrite (taken_msgs s) by (simpl; by rewrite EM). unfold upd. destruct (Z.eqb_spec y x) as [->|Hne]; [by rewrite HQ|]. by rewrite HQ1.
Qed.
End send.

(** * Message queues: receiving

    The pieces of [mq_receive] keep the invariant and refine the priority queue. *)

Section receive.
Context (T : list Z) (idle : Z) (P : list Z) (DS : Z -> mq_des) (MX MS : Z -> Z) (HT : NoDup T).
Context (HMX : forall q, Z.max 0 (MX q) + Z.of_nat (length P) < 32767).
Abbreviation D := (queue_id DS).
Abbreviation inv := (mq_inv T idle P DS MX MS).
Abbreviation good := (good T idle P DS MX MS).
Abbreviation inv_queue := (inv_queue T idle P DS MX MS).

(** The invariant does not tell queues with equal fields apart. *)
Lemma mq_inv_ext s Q A G s' :
  inv s Q A G -> qk s' = qk s -> descs s' = descs s -> msgwaitq s' = msgwaitq s -> msgs s' = msgs s -> mlinks s' = mlinks s ->
  g_msgfree s' = g_msgfree s -> g_msgfreeirq s' = g_msgfreeirq s -> (forall q, msgqs s' q = msgqs s q) -> inv s' Q A G.
Proof.
  intros Hi Ek Ed Ew EM EL EF EI EQ. apply (inv_interrupt T idle P DS MX MS s Q A G); rewrite ?Ek, ?Ew; try done; try apply Hi.
  - split; [rewrite Ed; apply (qi_static Hi)|]. intros q. rewrite EQ. apply (qi_static Hi).
  - apply (mbooks_ext D T (msgwaitq s) (err (qk s)) Q (fun q => count_q (msgqs s q))); try done; [apply (qi_books Hi)|]. intros q _. by rewrite EQ.
  - apply (msg_inv_same P s); try done; [apply (qi_msgs Hi)|]. intros q _. by rewrite EQ.
  - intros q _. apply dyn_ext. intros y _. by rewrite EM.
  - intros d r HQ. rewrite EQ. pose proof (qi_seen Hi) as Hs. by rewrite HQ in Hs.
Qed.

(** A fresh call, or a task that has been woken. *)
Definition may_receive (s : mq_state) (Q : Z -> mq_pc) (x d : Z) : Prop :=
  Q x = PcNone \/ Q x = PcRcvWait d /\ err (qk s) x = 0.

Lemma may_receive_facts s Q A G d : inv s Q A G -> let x := running A in may_receive s Q x d ->
  hand (Q x) = [] /\ taken_by s (Q x) = None /\ (forall q, scredit D (Q x) 0 (err (qk s) x) q = false) /\
  (forall q, q <> D d -> rcredit D (Q x) 0 (err (qk s) x) q = false) /\
  (Z.land (oflags (DS d)) O_NONBLOCK <> 0 -> Q x = PcNone).
Proof.
  intros Hi x Hm. destruct (mq_running Hi) as (HxT & _). fold x in HxT. pose proof (qi_data Hi x HxT) as Hd.
  destruct Hm as [-> | [HQ _]]; [done|]. rewrite HQ in Hd |- *. split_and!; try done. intros q Hq. simpl. rewrite (proj2 (Z.eqb_neq (D d) q)); [done|congruence].
Qed.

(** ** Taking a message *)

Lemma dyn_tail s m l : dyn s l <= dyn s (m :: l).
Proof. unfold dyn. rewrite filter_cons. destruct (decide _); simpl; lia. Qed.

Lemma taken_good s Q A G w d m l L h :
  inv s Q A G -> let x := running A in mpcs w = Q -> may_receive s Q x d -> D d <> 0 -> x <> idle -> 1 <= lock (qk s) x ->
  G (PQueue (D d)) = m :: l ->
  let s' := upd_msgq (D d) (fun v => set_nmsgs (nmsgs v - 1) v) (upd_msgq (D d) (set_msglist h) (set_mlinks L s)) in
  msg_inv P s' (grab (PQueue (D d)) m l G) ->
  good s Q G (Some (mk_mqsys s' (upd Q x (PcRcvGot d m)), [ObsTaken x (D d) (body s m)])).
Proof.
  intros Hi x Hw Hmr HD Hid Hlk HG s' Hm. destruct (may_receive_facts s Q A G d Hi Hmr) as (Hh & Ht & Hsc & Hrc & _). fold x in Hh, Ht, Hsc, Hrc.
  destruct (mq_running Hi) as (HxT & _ & _ & _ & HW). fold x in HxT, HW. set (q := D d) in *. set (G' := grab _ _ _ _) in *.
  assert (G' (PQueue q) = l) as HGq by (unfold G', grab; by rewrite set_place_ne, set_place_eq).
  assert (forall t, t <> q -> G' (PQueue t) = G (PQueue t)) as HGo by (intros t Hne; unfold G', grab; by rewrite !set_place_ne by congruence).
  eexists _, _, A, G'. split; [done|]. split.
  - destruct (qi_lists Hi x HxT) as [Le Lf]. rewrite HW in Le, Lf.
    apply (inv_advance T idle P DS MX MS s Q A G); fold x; try done; [apply (qi_ok Hi)|apply (qi_listed Hi)|apply (qi_irq Hi)|..].
    + unfold s'. apply (static_upd DS MX MS (upd_msgq q (set_msglist h) (set_mlinks L s))); [|done..]. by apply (static_upd DS MX MS (set_mlinks L s)); [apply (qi_static Hi)|..].
    + rewrite Le. naive_solver.
    + rewrite Lf. naive_solver.
    + by left.
    + unfold G', grab. rewrite set_place_eq, (qi_hand Hi). fold x. by rewrite Hh.
    + intros t Ht0. rewrite (dyn_ext s) by done. destruct (decide (t = q)) as [->|Hne]; [|rewrite HGo by done; by apply (qi_room Hi)].
      rewrite HGq. pose proof (qi_room Hi q HD) as Hroom. rewrite HG in Hroom. pose proof (dyn_tail s m l). lia.
    + apply (mbooks_change D T HT x _ _ _ _ _ _ _ _ (qi_books Hi) HxT).
      * intros y Hy. by rewrite upd_ne.
      * rewrite upd_eq. simpl. by rewrite HW.
      * intros t Ht0. rewrite upd_eq. change (msgwaitq s' x) with (msgwaitq s x). rewrite HW. unfold fits. rewrite !rwaits_0, !swaits_0, Hsc by done. unfold s'. simpl. fold q. rewrite upd_eq. unfold upd.
        destruct (Z.eqb_spec t q) as [->|Hne]; [rewrite Z.eqb_refl|rewrite (proj2 (Z.eqb_neq q t)) by congruence]; simpl.
        -- split_and!; [lia|lia| |intros; left; lia]. intros; left. destruct (rcredit _ _ _ _ _); simpl; lia.
        -- rewrite Hrc by done. simpl. split_and!; [lia|lia|intros; left; lia|intros; left; lia].
  - intros S [Hp Htk]. eexists. split; [apply pq_one, (pq_taken _ _ _ (body s m) (contents s l)); [by rewrite Hp, HG|by rewrite Htk]|]. split.
    + intros t Ht0. simpl. unfold upd. destruct (Z.eqb_spec t q) as [->|Hne]; [by rewrite HGq|]. rewrite Hp, HGo by done. done.
    + intros y Hy. simpl. unfold upd. destruct (Z.eqb_spec y x) as [->|Hne]; [done|]. rewrite Htk by done.
      by rewrite !(taken_other T idle P DS MX MS s Q A G) by done.
Qed.

Lemma waitreceive_good s Q A G w d :
  inv s Q A G -> let x := running A in mpcs w = Q -> may_receive s Q x d -> D d <> 0 -> x <> idle -> 1 <= lock (qk s) x ->
  good s Q G (proceed w x (after_waitreceive (mq_waitreceive s d) d x)).
Proof.
  intros Hi x Hw Hmr HD Hid Hlk. destruct (may_receive_facts s Q A G d Hi Hmr) as (Hh & Ht & Hsc & Hrc & Hnb). fold x in Hh, Ht, Hsc, Hrc, Hnb.
  unfold mq_waitreceive. rewrite (inv_queue s Q A G d Hi). destruct (G (PQueue (D d))) as [|m l] eqn:EG.
  - assert (hdr s (PQueue (D d)) = Some (msglist (msgqs s (D d)))) as Hhd by (simpl; by rewrite (proj2 (Z.eqb_neq (D d) 0))).
    pose proof (sq_remfirst_spec _ _ _ (mr_list _ _ (mi_rep _ _ _ (qi_msgs Hi)) _ _ Hhd)) as Hrem. rewrite EG in Hrem. rewrite Hrem. cbn [mbind option_bind Z.eqb].
    set (s0 := upd_msgq _ _ _).
    assert (inv s0 Q A G) as Hi0.
    { apply (mq_inv_ext s); try done. intros q. unfold s0. simpl. unfold upd. destruct (Z.eqb_spec q (D d)) as [->|]; [|done]. by destruct (msgqs s (D d)). }
    apply (good_from T idle P DS MX MS s Q G s0 Q G); [|done|done]. change (descs s0) with (descs s). destruct (qi_static Hi) as [-> _].
    destruct (Z.eqb_spec (Z.land (oflags (DS d)) O_NONBLOCK) 0) as [Hb|Hb].
    + destruct (mq_running Hi0) as (_ & _ & -> & _). fold x. pose proof (mi_count _ _ _ (qi_msgs Hi0) (D d) HD) as Hc. rewrite EG in Hc.
      destruct (inv_block T idle P DS MX MS HT s0 Q A G false (PcRcvWait d) (D d)) as (k' & A' & E & Hi'); try done.
      * simpl. split; [done|by left].
      * fold x in E, Hi'. change (up_block_task (set_errno (qk s0) 0) x TSTATE_WAIT_MQNOTEMPTY = Some k') in E.
        match goal with |- context [up_block_task ?k x _] => change k with (set_errno (qk s0) 0) end. rewrite E. cbn [mbind option_bind].
        unfold proceed, after_waitreceive. cbn [mbind option_bind]. rewrite Hw.
        apply (good_quiet T idle P DS MX MS s0 Q G _ _ A' G); [exact Hi'|done|intros y _; by apply taken_upd].
    + specialize (Hnb Hb). cbn [after_waitreceive mbind option_bind].
      destruct (inv_errno T idle P DS MX MS HT s0 Q A G EAGAIN Hi0 Hnb) as [Hi2 _].
      apply (good_from T idle P DS MX MS s0 Q G (mq_errno s0 EAGAIN) Q G); [|done|done].
      apply (unlock_good T idle P DS MX MS HT _ Q A G w ERROR Hi2); fold x; rewrite ?Hnb; try done. intros y _. by rewrite Hw.
  - destruct (removed_spec s G P (D d) m l (qi_msgs Hi) HD EG) as (L & h & -> & Hm0 & Hm). cbn [mbind option_bind].
    rewrite (proj2 (Z.eqb_neq m 0)) by done. pose proof (inv_bounds (D d) Hi HD) as [Hn _]. pose proof (mi_count _ _ _ (qi_msgs Hi) (D d) HD) as Hc.
    rewrite EG in Hc. simpl in Hc. pose proof (HMX (D d)) as Hmx.
    assert (upd_msgq (D d) (fun v => set_nmsgs (i16 (nmsgs v - 1)) v) (upd_msgq (D d) (set_msglist h) (set_mlinks L s)) =
      upd_msgq (D d) (fun v => set_nmsgs (nmsgs v - 1) v) (upd_msgq (D d) (set_msglist h) (set_mlinks L s))) as ->.
    { unfold upd_msgq. simpl. rewrite upd_eq. simpl. rewrite i16_small by lia. done. }
    unfold proceed, after_waitreceive. cbn [mbind option_bind]. rewrite Hw.
    match goal with |- context [queue_of ?s0 d] => change (queue_of s0 d) with (queue_of s d) end. rewrite (inv_queue s Q A G d Hi).
    by apply (taken_good s Q A G w d m l L h).
Qed.

(** ** The call *)

Lemma receive_good w A G d msg msglen :
  inv (ms w) (mpcs w) A G -> let x := running A in mpcs w x = PcNone -> x <> idle -> lock (qk (ms w)) x + 2 <= MAX_LOCK_COUNT ->
  d = 0 \/ D d <> 0 -> good (ms w) (mpcs w) G (proceed w x (mq_receive (ms w) d msg msglen)).
Proof.
  intros Hi x HQ Hid Hlk Hdd. set (s := ms w) in *. set (Q := mpcs w) in *. unfold mq_receive, mq_verifyreceive.
  rewrite (inv_queue s Q A G d Hi), (qi_irq Hi). cbn [negb assert mbind option_bind].
  destruct (mq_running Hi) as (HxT & _ & Hhd & Hcpu & HW). fold x in HW, HxT, Hhd, Hcpu.
  pose proof (fun e => error_good T idle P DS MX MS HT w A G e Hi HQ) as Herr. fold s Q x in Herr.
  destruct ((msg =? 0) || (d =? 0)) eqn:Ebad; [apply Herr|]. apply orb_false_iff in Ebad as [_ E1%Z.eqb_neq].
  destruct (Z.land _ O_RDOK =? 0); [apply Herr|]. destruct (msglen <? _); [apply Herr|]. cbn [Z.eqb negb].
  destruct (inv_lock T idle P DS MX MS HT s Q A G Hi HQ) as (k' & -> & Hi' & Hl'); [unfold x in Hlk; lia|]. cbn [mbind option_bind]. fold x in Hl'.
  assert (D d <> 0) as HD by (by destruct Hdd). rewrite Hcpu.
  apply (good_from T idle P DS MX MS s Q G (set_qk k' s) Q G); [|done|done]. apply waitreceive_good; try done; [by left|].
  simpl. pose proof (si_lock _ _ _ _ (ok_inv _ _ _ _ (qi_ok Hi)) x). fold x. lia.
Qed.

Lemma resume_receive_good w A G d :
  inv (ms w) (mpcs w) A G -> let x := running A in mpcs w x = PcRcvWait d ->
  good (ms w) (mpcs w) G (proceed w x (after_waitreceive (mq_waitreceive_resume (ms w) d) d x)).
Proof.
  intros Hi x HQ. set (s := ms w) in *. set (Q := mpcs w) in *. destruct (mq_running Hi) as (HxT & _ & _ & _ & HW). fold x in HxT, HW.
  pose proof (mb_pc _ _ _ _ _ _ (qi_books Hi) x HxT) as Hpc. rewrite HQ in Hpc. destruct Hpc as [HD _].
  pose proof (qi_lock Hi x HxT) as Hlk. pose proof (qi_idle Hi x HxT) as Hid. rewrite HQ in Hlk, Hid.
  unfold mq_waitreceive_resume. rewrite (errno_read T idle (qk s) A (qi_ok Hi) (qi_irq Hi)). fold x.
  destruct (Z.eqb_spec (err (qk s) x) 0) as [He|He].
  - apply waitreceive_good; try done; [by right|by apply Hid].
  - cbn [after_waitreceive mbind option_bind]. apply (unlock_good T idle P DS MX MS HT s Q A G w ERROR Hi); fold x; rewrite ?HQ; try done.
    intros q _ _. simpl. rewrite (proj2 (Z.eqb_neq (err (qk s) x) 0)) by done. by rewrite andb_false_r.
Qed.

(** ** What follows *)

(** The message is copied and freed. *)
Lemma got_good w A G d m :
  inv (ms w) (mpcs w) A G -> let x := running A in mpcs w x = PcRcvGot d m ->
  good (ms w) (mpcs w) G (proceed w x (mq_step (ms w) x (PcRcvGot d m) 0)).
Proof.
  intros Hi x HQ. set (s := ms w) in *. set (Q := mpcs w) in *. destruct (mq_running Hi) as (HxT & _ & _ & _ & HW). fold x in HxT, HW.
  pose proof (mb_pc _ _ _ _ _ _ (qi_books Hi) x HxT) as Hpc. pose proof (qi_lock Hi x HxT) as Hlk. pose proof (qi_idle Hi x HxT) as Hid.
  pose proof (qi_hand Hi) as Hh. fold x in Hh. rewrite HQ in Hpc, Hlk, Hid, Hh.
  destruct (mq_msgfree_spec s G P m [] (qi_msgs Hi) Hh) as (s' & G' & E & Hm & Hh' & HGq & (Ek & Eq & Ed & Ew) & EM & _).
  cbn [mq_step]. unfold mq_doreceive_copy. rewrite E. cbn [mbind option_bind]. unfold proceed. cbn [mbind option_bind]. fold Q.
  eexists _, _, A, G'. split; [done|]. split.
  - destruct (qi_lists Hi x HxT) as [Le Lf]. rewrite HQ in Le, Lf.
    apply (inv_advance T idle P DS MX MS s Q A G); fold x; simpl; rewrite ?Ek, ?Ew; try done; [apply (qi_ok Hi)|apply (qi_listed Hi)|apply (qi_irq Hi)| |by intros _; apply Hid|by left| |].
    + split; [by rewrite Ed; apply (qi_static Hi)|]. rewrite Eq. apply (qi_static Hi).
    + intros q Hq. rewrite HGq, (dyn_ext s) by (intros y _; by rewrite EM). by apply (qi_room Hi).
    + rewrite Eq. apply (books_running T idle P DS MX MS HT s Q A G); fold x; try done; [by rewrite HW in Hpc| |]; intros q _ _; by rewrite HQ.
  - intros S [Hp Ht]. eexists. split; [apply pq_one, pq_received; by rewrite Ht, HQ|]. split.
    + intros q Hq. simpl. rewrite Hp, HGq by done. symmetry. apply contents_ext. intros y _. by rewrite EM.
    + intros y Hy. simpl. unfold upd. destruct (Z.eqb_spec y x) as [->|Hne]; [done|]. rewrite Ht by done.
      by rewrite !(taken_other T idle P DS MX MS s Q A G) by done.
Qed.

(** A sender that waits has been seen, or nobody waits. *)
Lemma freed_good w A G d ret :
  inv (ms w) (mpcs w) A G -> let x := running A in mpcs w x = PcRcvFreed d ret ->
  good (ms w) (mpcs w) G (proceed w x (mq_step (ms w) x (PcRcvFreed d ret) 0)).
Proof.
  intros Hi x HQ. set (s := ms w) in *. set (Q := mpcs w) in *. destruct (mq_running Hi) as (HxT & _ & _ & _ & HW). fold x in HxT, HW.
  pose proof (mb_pc _ _ _ _ _ _ (qi_books Hi) x HxT) as Hpc. pose proof (qi_lock Hi x HxT) as Hlk. pose proof (qi_idle Hi x HxT) as Hid. rewrite HQ in Hpc, Hlk, Hid.
  cbn [mq_step]. unfold mq_doreceive_test. rewrite (inv_queue s Q A G d Hi).
  destruct (Z.ltb_spec 0 (nwaitnotfull (msgqs s (D d)))) as [Hpos|Hno].
  - unfold proceed. cbn [mbind option_bind]. fold Q. apply (good_quiet T idle P DS MX MS s Q G _ _ A G); [|done|intros y _; apply taken_upd; [done|by rewrite HQ]].
    apply inv_place; fold x; rewrite ?HQ; try done; [by intros _; apply Hid|by rewrite HW in Hpc].
  - apply (unlock_good T idle P DS MX MS HT s Q A G w ret Hi); fold x; rewrite ?HQ; try done.
    intros q Hq Hpos. simpl. apply Z.eqb_neq. intros <-. lia.
Qed.

(** The sender is woken. *)
Lemma wake_receive_good w A G d ret :
  inv (ms w) (mpcs w) A G -> let x := running A in mpcs w x = PcRcvWake d ret ->
  good (ms w) (mpcs w) G (proceed w x (mq_step (ms w) x (PcRcvWake d ret) 0)).
Proof.
  intros Hi x HQ. set (s := ms w) in *. set (Q := mpcs w) in *. destruct (mq_running Hi) as (HxT & _ & _ & _ & HW). fold x in HxT, HW.
  pose proof (mb_pc _ _ _ _ _ _ (qi_books Hi) x HxT) as Hpc. rewrite HQ in Hpc. destruct Hpc as [_ HD]. pose proof (qi_seen Hi) as Hsn. fold x in Hsn. rewrite HQ in Hsn.
  cbn [mq_step]. unfold mq_doreceive_wake. rewrite (inv_queue s Q A G d Hi).
  change (fun v => set_nwaitnotfull (i16 (nwaitnotfull v - 1)) v) with (count_wait true (-1)). change g_waitingformqnotfull with (wait_of true).2.
  destruct (wake_waiter_spec T idle P DS MX MS HT s Q A G true (D d) Hi HD Hsn) as (s1 & A1 & -> & Hi1 & Hr1 & Hl1 & EM); fold x; rewrite ?HQ; try done.
  fold x in Hi1. cbn [mbind option_bind]. apply (good_from T idle P DS MX MS s Q G s1 (upd Q x PcNone) G).
  - pose proof (unlock_good T idle P DS MX MS HT _ _ A1 G w ret Hi1) as Hu. cbn zeta in Hu. rewrite Hr1 in Hu. fold x in Hu. rewrite upd_eq in Hu. apply Hu; try done.
    intros y Hy. by rewrite upd_ne.
  - intros q _. apply contents_ext. intros y _. by rewrite EM.
  - intros y _. apply taken_upd; [done|by rewrite HQ].
Qed.
End receive.

(** * Message queues: interrupt handlers

    Sending from a handler, the end of a wait by a timeout or a signal, and the
    time slice, which may come between any two pieces of the calls. *)

(** [x] is the last sender that waits for the queue in which the running task has
    just seen one, and which it is about to wake. *)
Definition last_sender (w : mq_sys) (x : Z) : bool :=
  let s := ms w in
  match mpcs w (cpu (qk s)) with
  | PcRcvWake d _ => is_snd (mpcs w x) && (msgwaitq s x =? queue_of s d) && (nwaitnotfull (msgqs s (queue_of s d)) =? 1)
  | _ => false
  end.

Section irq.
Context (T : list Z) (idle : Z) (P : list Z) (DS : Z -> mq_des) (MX MS : Z -> Z) (HT : NoDup T).
Context (HMX : forall q, Z.max 0 (MX q) + Z.of_nat (length P) < 32767) (HMS : forall q, MS q <= MQ_MAX_BYTES).
Abbreviation D := (queue_id DS).
Abbreviation inv := (mq_inv T idle P DS MX MS).
Abbreviation good := (good T idle P DS MX MS).
Abbreviation abs := (abs T).

Lemma ok_irq k A b e :
  sched_ok T idle k A -> sched_ok T idle (mk_kernel (lk k) (tcbs k) (lists k) (cpu k) b e (g_pidhash k)) A.
Proof. intros [Hi Hc Hp]. constructor; [by apply (SchedOps.inv_ext T idle k)|done|done]. Qed.

(** What a handler must do between [s] and [s']. *)
Record handled (s : mq_state) (Q : Z -> mq_pc) (A : tasks) (G : ghost) (s' : mq_state) (A' : tasks) (G' : ghost) : Prop := {
  ha_ok : sched_ok T idle (qk s') A';
  ha_listed : all_listed T A';
  ha_static : static DS MX MS s';
  ha_lists : wait_lists T A' (msgwaitq s') Q;
  ha_books : mbooks D T (msgwaitq s') (err (qk s')) Q (fun q => count_q (msgqs s' q));
  ha_lock y : lock (qk s') y = lock (qk s) y;
  ha_run : 0 < lock (qk s) (running A) -> running A' = running A;
  ha_msgs : msg_inv P s' G';
  ha_hand : G' PHand = G PHand;
  ha_dyn q : q <> 0 -> dyn s' (G' (PQueue q)) = dyn s (G (PQueue q))
}.

Lemma handled_good w A G s' A' G' obs :
  inv (ms w) (mpcs w) A G -> handled (ms w) (mpcs w) A G s' A' G' ->
  (forall d r, mpcs w (running A) = PcRcvWake d r -> 0 < nwaitnotfull (msgqs s' (D d))) ->
  (forall S, abs (ms w) (mpcs w) G S -> exists S', pq_steps S obs S' /\ abs s' (mpcs w) G' S') ->
  good (ms w) (mpcs w) G (Some (mk_mqsys (set_irq false s') (mpcs w), obs)).
Proof.
  intros Hi [Hok Hlisted Hst Hl Hb Hlk Hrun Hm Hh Hdyn] Hsn Habs. eexists _, obs, A', G'. split; [done|]. split; [|exact Habs].
  apply (inv_interrupt T idle P DS MX MS (ms w) (mpcs w) A G); try done; [by apply ok_irq|by apply msg_inv_kernel].
Qed.

(** A handler that does nothing to see. *)
Lemma abs_quiet s s' Q G G' :
  (forall q, q <> 0 -> contents s' (G' (PQueue q)) = contents s (G (PQueue q))) -> (forall x, x ∈ T -> taken_by s' (Q x) = taken_by s (Q x)) ->
  forall S, abs s Q G S -> exists S', pq_steps S [] S' /\ abs s' Q G' S'.
Proof.
  intros Hc Ht S [Hp Htk]. exists S. split; [constructor|]. split; [intros q Hq; by rewrite Hc, Hp|intros x Hx; by rewrite Ht, Htk].
Qed.

Lemma seen_wake s Q A G d r : inv s Q A G -> Q (running A) = PcRcvWake d r -> 0 < nwaitnotfull (msgqs s (D d)).
Proof. intros Hi HQ. pose proof (qi_seen Hi) as Hs. by rewrite HQ in Hs. Qed.

(** Only the scheduler's state has changed. *)
Lemma handled_kernel s Q A G k' A' :
  inv s Q A G -> sched_ok T idle k' A' -> all_listed T A' -> (forall t y, waiting t -> (y ∈ A' t <-> y ∈ A t)) ->
  (forall y, err k' y = err (qk s) y /\ lock k' y = lock (qk s) y) -> (0 < lock (qk s) (running A) -> running A' = running A) ->
  handled s Q A G (set_qk k' s) A' G.
Proof.
  intros Hi Hok Hlisted Hl HE Hrun. constructor; try done.
  - apply (qi_static Hi).
  - intros y Hy. rewrite !Hl by done. by apply (qi_lists Hi).
  - apply (mbooks_ext D T (msgwaitq s) (err (qk s)) Q (fun q => count_q (msgqs s q))); try done; [apply (qi_books Hi)|]. intros y _. apply HE.
  - intros y. apply HE.
  - apply msg_inv_kernel, (qi_msgs Hi).
Qed.

(** ** Time slices *)

Lemma tick_good w A G : inv (ms w) (mpcs w) A G -> good (ms w) (mpcs w) G (mq_exec w MqIrqTick).
Proof.
  intros Hi. cbn [mq_exec]. unfold mq_handler.
  destruct (tick_task T idle (qk (set_irq true (ms w))) A) as (k' & A' & -> & Hok & [_ Hcalm] & Hl & Hrun & Hlisted); [by apply ok_irq, (qi_ok Hi)|].
  cbn [mbind option_bind]. apply (handled_good w A G (set_qk k' (ms w)) A' G []); [done| | |by apply abs_quiet].
  - apply handled_kernel; try done. by apply Hlisted, (qi_listed Hi).
  - intros d r HQ. by apply (seen_wake (ms w) (mpcs w) A G d r).
Qed.

(** ** The end of a wait *)

(** The task of a wait list is taken off it, with the error. *)
Lemma waitirq_waiting s Q A G (snd : bool) x errcode :
  inv s Q A G -> x ∈ A (wait_of snd).2 -> errcode <> 0 -> let q := msgwaitq s x in
  exists k' A', mq_waitirq (set_irq true s) x errcode = Some (set_qk k' (upd_msgq q (count_wait snd (-1)) (set_msgwaitq x 0 s))) /\
    handled s Q A G (set_qk k' (upd_msgq q (count_wait snd (-1)) (set_msgwaitq x 0 s))) A' G.
Proof.
  intros Hi Hx He q. destruct (waiter_facts T idle P DS MX MS s Q A G snd x Hi Hx) as (HxT & Hne & Hxi & Hx0 & Hw & HE & Es & Er & (d & Hd & Hpc) & Hpos).
  fold q in Hw, Hd, Hpos. set (k1 := put_tcb x (set_pterrno errcode) (qk (set_irq true s))).
  assert (sched_ok T idle k1 A) as Hok1 by (apply ok_put; try done; by apply ok_irq, (qi_ok Hi)).
  destruct (unblock_task T idle k1 A (wait_of snd).1 (wait_of snd).2 x Hok1) as (k' & A' & Hrun & Hok & [Hirq Hcalm] & Hl & Hkeep & Hlisted); [by destruct snd|done|done|].
  exists k', A'. destruct (woken_state T idle P DS MX MS s Q A G snd x k' Hi Hx) as (Hst & Hm & Hdyn & Hcnt). fold q in Hst, Hm, Hdyn, Hcnt.
  assert (err k' x = errcode /\ (forall y, y <> x -> err k' y = err (qk s) y) /\ forall y, lock k' y = lock (qk s) y) as (HEx & HEy & Hlk).
  { split_and!.
    - destruct (Hcalm x) as [-> _]. unfold err, k1. by rewrite put_tcb_eq.
    - intros y Hy. destruct (Hcalm y) as [-> _]. unfold err, k1. by rewrite put_tcb_ne.
    - intros y. destruct (Hcalm y) as [_ ->]. unfold lock, k1. destruct (decide (y = x)) as [->|]; [by rewrite put_tcb_eq|by rewrite put_tcb_ne]. }
  split.
  - pose proof (si_state _ _ _ _ (ok_inv _ _ _ _ (qi_ok Hi)) _ _ Hx) as Hstate. unfold state in Hstate. unfold mq_waitirq. rewrite get_tcb_ok by done. cbn [mbind option_bind].
    change (tcbs (qk (set_irq true s)) x) with (tcbs (qk s) x). rewrite Hstate. change (msgwaitq (set_irq true s) x) with q. rewrite (proj2 (Z.eqb_neq q 0)) by done.
    destruct snd; cbn [wait_of Datatypes.snd expected negb assert mbind option_bind] in *.
    + change (nwaitnotfull (msgqs (set_msgwaitq x 0 (set_irq true s)) q)) with (nwaitnotfull (msgqs s q)). rewrite (proj2 (Z.ltb_lt 0 (nwaitnotfull (msgqs s q)))) by done. cbn [assert mbind option_bind].
      rewrite upd_tcb_ok by done. cbn [mbind option_bind]. fold k1. change (qk (upd_msgq q _ (set_msgwaitq x 0 (set_irq true s)))) with (qk (set_irq true s)). fold k1. by rewrite Hrun.
    + change (nwaitnotempty (msgqs (set_msgwaitq x 0 (set_irq true s)) q)) with (nwaitnotempty (msgqs s q)). rewrite (proj2 (Z.ltb_lt 0 (nwaitnotempty (msgqs s q)))) by done. cbn [assert mbind option_bind].
      rewrite upd_tcb_ok by done. cbn [mbind option_bind]. change (qk (upd_msgq q _ (set_msgwaitq x 0 (set_irq true s)))) with (qk (set_irq true s)). fold k1. by rewrite Hrun.
  - constructor; try done; [by apply Hlisted, (qi_listed Hi)|by apply (woken_lists T idle P DS MX MS s Q A G A' snd x)| |].
    + apply (mbooks_change D T HT x _ _ _ _ _ _ _ _ (qi_books Hi) HxT).
      * intros y Hy. simpl. rewrite upd_ne by done. split_and!; [done|by apply HEy|done].
      * simpl. rewrite upd_eq, HEx. destruct snd; [destruct Hpc as (data & prio & ->)|rewrite Hpc]; simpl; (split; [congruence|by right]).
      * intros t Ht. rewrite (Hcnt t Ht). simpl. rewrite upd_eq, HEx. unfold fits. rewrite rwaits_0, swaits_0 by done. rewrite (Z.eqb_sym t q). fold q. rewrite HE.
        destruct snd; [destruct Hpc as (data & prio & ->)|rewrite Hpc]; simpl; rewrite Hd, (proj2 (Z.eqb_neq errcode 0)) by done;
          rewrite (proj2 (Z.eqb_neq q 0)) by done; rewrite ?andb_false_r; simpl; destruct (q =? t); simpl; (split_and!; [lia|lia|intros; left; lia..]).
    + intros Hlk0. apply Hkeep. unfold k1, lock. rewrite put_tcb_ne by congruence. exact Hlk0.
Qed.

(** Any other task is left alone. *)
Lemma waitirq_late s Q A G x errcode :
  inv s Q A G -> x ∈ T -> (forall snd, x ∉ A (wait_of snd).2) -> mq_waitirq (set_irq true s) x errcode = Some (set_irq true s).
Proof.
  intros Hi Hx Hout. destruct (qi_listed Hi x Hx) as [tl Htl]. pose proof (ok_inv _ _ _ _ (qi_ok Hi)) as Hsi.
  assert (x <> 0) as Hx0 by (intros ->; by apply (dq_null _ _ _ (kr_list _ _ (si_rep _ _ _ _ Hsi) tl))).
  pose proof (si_state _ _ _ _ Hsi _ _ Htl) as Hstate. unfold state in Hstate. unfold mq_waitirq. rewrite get_tcb_ok by done. cbn [mbind option_bind].
  change (tcbs (qk (set_irq true s)) x) with (tcbs (qk s) x). rewrite Hstate.
  destruct tl; try done; [simpl; by destruct (decide _)|by destruct (Hout false)|by destruct (Hout true)].
Qed.

Lemma waiting_or_not (A : tasks) (x : Z) : (exists snd, x ∈ A (wait_of snd).2) \/ forall snd : bool, x ∉ A (wait_of snd).2.
Proof.
  destruct (decide (x ∈ A (wait_of true).2)) as [|Ht]; [left; by exists true|]. destruct (decide (x ∈ A (wait_of false).2)) as [|Hf]; [left; by exists false|].
  right. by intros [].
Qed.

(** What a receiver has seen is still there. *)
Lemma still_seen w A G (snd : bool) x d r k' :
  inv (ms w) (mpcs w) A G -> x ∈ A (wait_of snd).2 -> last_sender w x = false -> mpcs w (running A) = PcRcvWake d r ->
  0 < nwaitnotfull (msgqs (set_qk k' (upd_msgq (msgwaitq (ms w) x) (count_wait snd (-1)) (set_msgwaitq x 0 (ms w)))) (D d)).
Proof.
  intros Hi Hx Hls HQ. destruct (mq_running Hi) as (HrT & _ & _ & Hcpu & _). pose proof (mb_pc _ _ _ _ _ _ (qi_books Hi) _ HrT) as Hpc. rewrite HQ in Hpc. destruct Hpc as [_ HD].
  pose proof (seen_wake _ _ A G d r Hi HQ) as Hpos. unfold last_sender in Hls. rewrite Hcpu, HQ, (inv_queue T idle P DS MX MS _ _ A G d Hi) in Hls.
  destruct (waiter_facts T idle P DS MX MS _ _ A G snd x Hi Hx) as (_ & _ & _ & _ & _ & _ & Es & _). rewrite Es in Hls.
  destruct (woken_state T idle P DS MX MS _ _ A G snd x k' Hi Hx) as (_ & _ & _ & Hcnt). specialize (Hcnt (D d) HD). apply (f_equal c_full) in Hcnt. simpl in Hcnt |- *. rewrite Hcnt.
  destruct snd; simpl in Hls |- *; [|lia]. rewrite (Z.eqb_sym (D d)). destruct (Z.eqb_spec (msgwaitq (ms w) x) (D d)); simpl in Hls |- *; [|lia]. apply Z.eqb_neq in Hls. lia.
Qed.

Lemma timeout_good w A G x errcode :
  inv (ms w) (mpcs w) A G -> x ∈ T -> errcode <> 0 -> last_sender w x = false -> good (ms w) (mpcs w) G (mq_exec w (MqIrqTimeout x errcode)).
Proof.
  intros Hi Hx He Hls. cbn [mq_exec]. unfold mq_handler. destruct (waiting_or_not A x) as [[snd Hin]|Hout].
  - destruct (waitirq_waiting _ _ A G snd x errcode Hi Hin He) as (k' & A' & -> & Hh). cbn [mbind option_bind].
    apply (handled_good w A G _ A' G []); [done|done| |by apply abs_quiet]. intros d r HQ. by apply (still_seen w A G snd x d r).
  - rewrite (waitirq_late _ _ A G) by done. cbn [mbind option_bind].
    apply (handled_good w A G (ms w) A G []); [done| | |by apply abs_quiet].
    + rewrite <- (set_qk_same (ms w)) at 2. apply handled_kernel; try done; [apply (qi_ok Hi)|apply (qi_listed Hi)].
    + intros d r HQ. by apply (seen_wake (ms w) (mpcs w) A G d r).
Qed.

(** ** Sending *)

(** A message has been put into a queue, or none was to be had. *)
Record sent (s : mq_state) (G : ghost) (s' : mq_state) (G' : ghost) (n q : Z) : Prop := {
  st_static : static DS MX MS s';
  st_kernel : qk s' = qk s;
  st_wait : msgwaitq s' = msgwaitq s;
  st_msgs : msg_inv P s' G';
  st_hand : G' PHand = G PHand;
  st_count t : count_q (msgqs s' t) = let c := count_q (msgqs s t) in mk_count (c_msgs c + if t =? q then n else 0) (c_max c) (c_full c) (c_empty c);
  st_dyn t : dyn s' (G' (PQueue t)) = dyn s (G (PQueue t));
  st_other t : t <> q -> contents s' (G' (PQueue t)) = contents s (G (PQueue t));
  st_held y : y ∈ G PHand -> msgs s' y = msgs s y
}.

Lemma irq_insert s G d m data prio s1 G1 :
  msg_inv P s G -> static DS MX MS s -> in_irq (qk s) = true -> D d <> 0 -> Z.of_nat (length data) <= MS (D d) -> 0 <= prio <= MQ_PRIO_MAX ->
  nmsgs (msgqs s (D d)) < 32767 -> allocated P s G s1 G1 m -> ~ is_dyn s1 m -> msgs s1 = msgs s ->
  exists s2 G2, mq_dosend_insert s1 d m data prio = Some s2 /\ sent s G (mq_dosend_notify s2 d) G2 1 (D d) /\ queue_of s2 d = D d /\
    contents (mq_dosend_notify s2 d) (G2 (PQueue (D d))) = pq_insert (prio, data) (contents s (G (PQueue (D d)))).
Proof.
  intros Hm Hst Hirq HD Hlen Hprio Hmax (Hm0 & Hm1 & Hh1 & HG1 & (Ek1 & Eq1 & Ed1 & Ew1) & _) Hnd EM1.
  assert (static DS MX MS s1) as Hst1 by (destruct Hst as [? ?]; split; [by rewrite Ed1|by rewrite Eq1]).
  destruct (hand_fresh P s1 G1 m (G PHand) Hm1 Hh1) as (_ & Hmh & Hmo).
  destruct (insert_spec T P DS MX MS HT HMX HMS s1 G1 (qk s1) d m data prio (G PHand) Hm1 Hst1 Hh1 HD Hlen Hprio) as
    (s2 & G2 & l & E & Hm2 & Hh2 & Ek2 & Ed2 & Ew2 & Eq2 & HG2 & Hmsg & Hty & Hcont & _ & Hdyn); [by rewrite Eq1|by apply lock_irq; rewrite Ek1|].
  assert (static DS MX MS s2) as Hst2.
  { destruct Hst1 as [Hd1 Hq1]. split; [by rewrite Ed2|]. intros t. rewrite Eq2. unfold upd. destruct (Z.eqb_spec t (D d)) as [->|]; apply Hq1. }
  destruct (notify_spec P DS MX MS s2 G2 d Hst2 Hm2) as (Hst3 & Hm3 & Ek3 & Ew3 & EM3 & Hc3).
  assert (forall t y, y ∈ G (PQueue t) -> msgs s2 y = msgs s y) as Hold.
  { intros t y Hy. rewrite Hmsg, EM1; [done|]. intros ->. apply (Hmo (PQueue t)); [done|]. by rewrite HG1. }
  exists s2, G2. split; [done|]. split; [|split].
  - constructor; try done.
    + congruence.
    + congruence.
    + intros t. rewrite Hc3, Eq2, Eq1. unfold upd. destruct (Z.eqb_spec t (D d)) as [->|]; unfold count_q; simpl; f_equal; lia.
    + intros t. rewrite (dyn_ext s2) by (intros y _; by rewrite EM3). destruct (decide (t = D d)) as [->|Hne].
      * rewrite Hdyn, HG1 by done. apply dyn_ext. intros y _. by rewrite EM1.
      * rewrite HG2, HG1 by done. apply dyn_ext. intros y Hy. by rewrite (Hold t).
    + intros t Hne. rewrite HG2, HG1 by done. apply contents_ext. intros y Hy. rewrite EM3. by apply (Hold t).
    + intros y Hy. rewrite EM3, Hmsg, EM1; [done|]. intros ->. done.
  - unfold queue_of. destruct Hst2 as [-> _]. done.
  - rewrite (contents_ext s2) by (intros y _; by rewrite EM3). rewrite Hcont, HG1. f_equal. apply contents_ext. intros y _. by rewrite EM1.
Qed.

(** Nobody waits for a message: there is nothing more to do. *)
Lemma sent_handled s Q A G s2 G2 n q :
  inv s Q A G -> sent (set_irq true s) G s2 G2 n q -> 0 <= n -> n = 0 \/ nwaitnotempty (msgqs s q) <= 0 -> handled s Q A G s2 A G2.
Proof.
  intros Hi [Hst Ek Ew Hm Hh Hcnt Hdyn _ _] Hn Hno. destruct (mq_running Hi) as (HxT & _).
  constructor; rewrite ?Ek, ?Ew; try done; [by apply ok_irq, (qi_ok Hi)|apply (qi_listed Hi)|apply (qi_lists Hi)|].
  apply (mbooks_change D T HT (running A) _ _ _ _ _ _ _ _ (qi_books Hi) HxT); [done|by apply (mb_pc _ _ _ _ _ _ (qi_books Hi))|].
  intros t Ht. rewrite Hcnt. unfold fits. change (err (qk (set_irq true s))) with (err (qk s)). simpl. destruct (Z.eqb_spec t q) as [->|]; (split_and!; [lia|lia|intros; left; split; [done|]; lia|intros; left; split; [done|]; lia]).
Qed.

(** A receiver is woken. *)
Lemma sent_wake s Q A G s2 G2 q :
  inv s Q A G -> q <> 0 -> sent (set_irq true s) G s2 G2 1 q -> 0 < nwaitnotempty (msgqs s q) ->
  exists s3 A', wake_waiter s2 q g_waitingformqnotempty (count_wait false (-1)) = Some s3 /\ handled s Q A G s3 A' G2 /\
    in_irq (qk s3) = true /\ msgs s3 = msgs s2 /\ descs s3 = descs s2 /\ forall t, nwaitnotfull (msgqs s3 t) = nwaitnotfull (msgqs s2 t).
Proof.
  intros Hi Hq [Hst Ek Ew Hm Hh Hcnt Hdyn _ _] Hpos. assert (sched_ok T idle (qk s2) A) as Hok2 by (rewrite Ek; by apply ok_irq, (qi_ok Hi)).
  destruct (find_mqwaiter_spec T idle s2 A g_waitingformqnotempty q Hok2) as (y & Ef & Hy & Eq & Hy0).
  { rewrite Ew. by apply (waiter_exists T idle P DS MX MS s Q A G false). }
  rewrite Ew in Eq. change (msgwaitq (set_irq true s) y) with (msgwaitq s y) in Eq. change g_waitingformqnotempty with (wait_of false).2 in Hy.
  destruct (waiter_facts T idle P DS MX MS s Q A G false y Hi Hy) as (HyT & Hne & Hyi & _ & Hw & HE & Es & Er & (d & Hd & Hpc) & _).
  destruct (unblock_task T idle (qk s2) A TSTATE_WAIT_MQNOTEMPTY g_waitingformqnotempty y Hok2 eq_refl Hy Hyi) as (k' & A' & Hrun & Hok & [Hirq Hcalm] & Hl & Hkeep & Hlisted).
  unfold wake_waiter. rewrite Ef. cbn [mbind option_bind]. rewrite (proj2 (Z.eqb_neq y 0)) by done. cbn [negb assert mbind option_bind].
  change (qk (upd_msgq q (count_wait false (-1)) (set_msgwaitq y 0 s2))) with (qk s2). rewrite Hrun. cbn [mbind option_bind].
  rewrite Ek in Hirq, Hcalm, Hkeep. eexists _, A'. split; [done|].
  assert (forall t, nwaitnotfull (msgqs (set_qk k' (upd_msgq q (count_wait false (-1)) (set_msgwaitq y 0 s2))) t) = nwaitnotfull (msgqs s2 t)) as Hnf.
  { intros t. simpl. unfold upd. by destruct (Z.eqb_spec t q) as [->|]. }
  split; [|by split_and!]. constructor; try done.
  - by apply Hlisted, (qi_listed Hi).
  - by apply (static_upd DS MX MS (set_msgwaitq y 0 s2)).
  - simpl. rewrite Ew. by apply (woken_lists T idle P DS MX MS s Q A G A' false y).
  - apply (mbooks_change D T HT y _ _ _ _ _ _ _ _ (qi_books Hi) HyT).
    + intros z Hz. simpl. rewrite upd_ne, Ew by done. split_and!; [done|by destruct (Hcalm z)|done].
    + simpl. rewrite upd_eq, Hpc. simpl. split; [congruence|by right].
    + pose proof (inv_bounds q Hi Hq) as (_ & _ & Hbe).
      intros t Ht. cbn [msgwaitq set_qk upd_msgq set_msgq set_msgwaitq qk msgqs]. rewrite upd_eq, Hpc. destruct (Hcalm y) as [-> _]. change (err (qk (set_irq true s)) y) with (err (qk s) y). rewrite HE, Eq.
      specialize (Hcnt t). unfold fits, upd, count_q. cbn [c_msgs c_max c_full c_empty rwaits swaits rcredit scredit]. rewrite Hd, Eq, (proj2 (Z.eqb_neq q 0)), andb_false_r by done. unfold count_q in Hcnt. simpl in Hcnt. injection Hcnt as C1 C2 C3 C4.
      destruct (Z.eqb_spec t q) as [Et|Hnt].
      * subst t. rewrite Z.eqb_refl, (proj2 (Z.eqb_neq 0 q)) by congruence. unfold count_q. simpl. rewrite C1, C2, C3, C4, i16_small by lia. simpl. split_and!; [lia|lia|intros; left; lia|intros; left; lia].
      * rewrite !(proj2 (Z.eqb_neq _ t)) by congruence. simpl. rewrite C1, C2, C3, C4. split_and!; [lia|lia|intros; left; lia|intros; left; lia].
  - intros z. simpl. by destruct (Hcalm z).
  - apply msg_inv_kernel, msg_inv_upd; [|done|done]. by apply (msg_inv_same P s2).
  - intros t _. rewrite (dyn_ext s2) by done. apply Hdyn.
Qed.

Lemma irq_wake s Q A G s2 G2 d :
  inv s Q A G -> D d <> 0 -> sent (set_irq true s) G s2 G2 1 (D d) -> queue_of s2 d = D d ->
  exists s3 A', mq_dosend_wake s2 d = Some s3 /\ handled s Q A G s3 A' G2 /\ in_irq (qk s3) = true /\ msgs s3 = msgs s2 /\
    queue_of s3 d = D d /\ forall t, nwaitnotfull (msgqs s3 t) = nwaitnotfull (msgqs s t).
Proof.
  intros Hi HD Hs Hq. pose proof (st_count _ _ _ _ _ _ Hs) as Hcnt. unfold mq_dosend_wake. rewrite Hq.
  assert (forall t, nwaitnotempty (msgqs s2 t) = nwaitnotempty (msgqs s t) /\ nwaitnotfull (msgqs s2 t) = nwaitnotfull (msgqs s t)) as Hn.
  { intros t. specialize (Hcnt t). unfold count_q in Hcnt. simpl in Hcnt. by injection Hcnt as _ _ -> ->. }
  destruct (Hn (D d)) as [-> _]. destruct (Z.ltb_spec 0 (nwaitnotempty (msgqs s (D d)))) as [Hpos|Hno].
  - change (fun v => set_nwaitnotempty (i16 (nwaitnotempty v - 1)) v) with (count_wait false (-1)).
    destruct (sent_wake s Q A G s2 G2 (D d) Hi HD Hs Hpos) as (s3 & A' & -> & Hh & Hirq & EM & Ed & Hnf). cbn [mbind option_bind]. rewrite (unlock_irq _ Hirq).
    cbn [mbind option_bind]. rewrite set_qk_same. exists s3, A'. split_and!; try done; [unfold queue_of in *; by rewrite Ed|]. intros t. rewrite Hnf. apply Hn.
  - cbn [mbind option_bind]. assert (in_irq (qk s2) = true) as Hirq by (by rewrite (st_kernel _ _ _ _ _ _ Hs)). rewrite (unlock_irq _ Hirq).
    cbn [mbind option_bind]. rewrite set_qk_same. exists s2, A. split_and!; try done; [|intros t; apply Hn]. apply (sent_handled s Q A G s2 G2 1 (D d)); [done|done|lia|by right].
Qed.

(** What the handler's message does to the priority queues. *)
Lemma sent_abs s Q A G s2 G2 s3 d m :
  inv s Q A G -> D d <> 0 -> sent (set_irq true s) G s2 G2 1 (D d) -> msgs s3 = msgs s2 ->
  contents s2 (G2 (PQueue (D d))) = pq_insert m (contents s (G (PQueue (D d)))) ->
  forall S, abs s Q G S -> exists S', pq_steps S [ObsSent (D d) m] S' /\ abs s3 Q G2 S'.
Proof.
  intros Hi HD Hs EM Hc S [Hp Ht]. eexists. split; [apply pq_one, pq_sent|]. split.
  - intros t Ht0. rewrite (contents_ext s2) by (intros y _; by rewrite EM). simpl. unfold upd. destruct (Z.eqb_spec t (D d)) as [->|Hne]; [by rewrite Hp, Hc|].
    rewrite Hp, (st_other _ _ _ _ _ _ Hs) by done. done.
  - intros y Hy. simpl. rewrite Ht by done. destruct (decide (y = running A)) as [->|Hne]; [|by rewrite !(taken_other T idle P DS MX MS s Q A G) by done].
    pose proof (qi_hand Hi) as Hh. destruct (Q (running A)) eqn:EQ; try done. simpl in Hh |- *. unfold body.
    rewrite EM, (st_held _ _ _ _ _ _ Hs) by (rewrite Hh; set_solver). done.
Qed.

Lemma irq_send_good w A G d msg prio :
  inv (ms w) (mpcs w) A G -> d = 0 \/ D d <> 0 -> good (ms w) (mpcs w) G (mq_exec w (MqIrqSend d msg prio)).
Proof.
  intros Hi Hdd. set (s := ms w) in *. set (Q := mpcs w) in *. cbn [mq_exec]. unfold mq_handler. fold s Q. set (s0 := set_irq true s).
  assert (static DS MX MS s0) as Hst0 by apply (qi_static Hi). assert (msg_inv P s0 G) as Hm0 by (apply msg_inv_kernel, (qi_msgs Hi)).
  assert (forall d r, Q (running A) = PcRcvWake d r -> 0 < nwaitnotfull (msgqs s (D d))) as Hsn by (intros ? ? ?; by eapply seen_wake).
  assert (queue_of s0 d = D d) as Hq0 by (unfold queue_of; by destruct Hst0 as [-> _]). unfold mq_send_irq, mq_verifysend. rewrite Hq0.
  assert (forall e, good s Q G ('(s, obs) ← ('(s, r) ← Some (mq_errno s0 e, []); Some (set_irq false s, r)); Some (mk_mqsys s Q, obs))) as Herr.
  { intros e. cbn [mbind option_bind]. apply (handled_good w A G (mq_errno s0 e) A G []); [done| |by apply Hsn|by apply abs_quiet].
    apply (handled_kernel s Q A G (set_errno (qk s0) e) A); try done; [by apply ok_set_errno, ok_irq, (qi_ok Hi)|apply (qi_listed Hi)]. }
  destruct msg as [data|]; [|apply Herr]. destruct ((d =? 0) || (prio <? 0) || (MQ_PRIO_MAX <? prio)) eqn:Ebad; [apply Herr|].
  apply orb_false_iff in Ebad as [[E1%Z.eqb_neq E2%Z.ltb_ge]%orb_false_iff E3%Z.ltb_ge]. destruct (Z.land _ O_WROK =? 0); [apply Herr|].
  destruct (proj2 Hst0 (D d)) as [_ ->]. destruct (Z.ltb_spec (MS (D d)) (Z.of_nat (length data))) as [|Hlen]; [apply Herr|]. clear Herr.
  assert (D d <> 0) as HD by (by destruct Hdd). cbn [Z.eqb negb mbind option_bind]. rewrite (lock_irq (qk s0)) by done. cbn [mbind option_bind]. rewrite set_qk_same.
  destruct (mq_msgalloc_irq P s0 G Hm0 eq_refl) as (s1 & m & -> & [(-> & Hm1 & (Ek & Eq & Ed & Ew) & EM) | (G1 & Ha & Hnd & EM)]).
  - cbn [mbind option_bind Z.eqb]. rewrite unlock_irq by (by rewrite Ek). cbn [mbind option_bind]. rewrite set_qk_same.
    apply (handled_good w A G s1 A G []); [done| |intros d' r HQ; rewrite Eq; by eapply Hsn|].
    + apply (sent_handled s Q A G s1 G 0 0); [done| |lia|by left]. constructor; try done.
      * destruct Hst0 as [? ?]. split; [by rewrite Ed|by rewrite Eq].
      * intros t. rewrite Eq. unfold count_q. simpl. f_equal. destruct (t =? 0); lia.
      * intros t. apply dyn_ext. intros y _. by rewrite EM.
      * intros t _. apply contents_ext. intros y _. by rewrite EM.
      * intros y _. by rewrite EM.
    + apply abs_quiet; [intros t _; apply contents_ext; intros y _; by rewrite EM|]. intros y _. apply taken_msgs. by rewrite EM.
  - cbn [mbind option_bind]. destruct Ha as [Hm Ha']. rewrite (proj2 (Z.eqb_neq m 0)) by done. pose proof (inv_bounds (D d) Hi HD) as [Hn _]. pose proof (HMX (D d)) as Hmx.
    destruct (irq_insert s0 G d m data prio s1 G1) as (s2 & G2 & -> & Hs & Hq2 & Hc2); try done; [simpl; lia|]. cbn [mbind option_bind].
    destruct (irq_wake s Q A G (mq_dosend_notify s2 d) G2 d Hi HD Hs) as (s3 & A' & -> & Hh & Hirq & EM3 & Hq3 & Hnf).
    { unfold queue_of. by destruct (st_static _ _ _ _ _ _ Hs) as [-> _]. }
    cbn [mbind option_bind]. rewrite unlock_irq by done. cbn [mbind option_bind]. rewrite set_qk_same, Hq3.
    apply (handled_good w A G s3 A' G2); [done|done|intros d' r HQ; rewrite Hnf; by eapply Hsn|]. by apply (sent_abs s Q A G (mq_dosend_notify s2 d) G2 s3 d (prio, data)).
Qed.
End irq.

(** * Message queues: runs of the system

    Any sequence of calls, pieces of calls and interrupts keeps the invariant,
    never fails an assertion, and does to the queues what a sequence of
    operations on priority queues does. *)

(** The messages of a list, by its links. *)
Fixpoint walk (fuel : nat) (L : links) (m : Z) : list Z :=
  match fuel with
  | O => []
  | S fuel => if m =? 0 then [] else m :: walk fuel L (flink L m)
  end.

(** What is in a queue: priorities and bytes, in the order they will be received. *)
Definition queue_contents (s : mq_state) (q : Z) : list (Z * list Z) :=
  contents s (walk (Z.to_nat (nmsgs (msgqs s q))) (mlinks s) (head (msglist (msgqs s q)))).

(** The queues and the messages that receivers have taken but not yet returned. *)
Definition view (w : mq_sys) : pq_state := mk_pq (queue_contents (ms w)) (fun x => taken_by (ms w) (mpcs w x)).

Lemma walk_seg L l : seg (flink L) l 0 -> 0 ∉ l -> walk (length l) L (hd_or l 0) = l.
Proof.
  induction l as [|m l IH]; intros Hs H0; [done|]. simpl. destruct (Z.eqb_spec m 0) as [->|_]; [set_solver|]. destruct Hs as [-> Hs].
  rewrite IH; [done|done|set_solver].
Qed.

Lemma queue_contents_rep P s G q : msg_inv P s G -> q <> 0 -> queue_contents s q = contents s (G (PQueue q)).
Proof.
  intros Hm Hq. assert (hdr s (PQueue q) = Some (msglist (msgqs s q))) as Hhd by (simpl; by rewrite (proj2 (Z.eqb_neq q 0))).
  pose proof (mr_list _ _ (mi_rep _ _ _ Hm) _ _ Hhd) as Hr. unfold queue_contents.
  rewrite (mi_count _ _ _ Hm q Hq), Nat2Z.id, (sq_head _ _ _ Hr), walk_seg; [done|apply Hr|apply Hr].
Qed.

(** Memory that kmm_malloc may return when there is no free message: in no list
    of messages, and in nobody's hands. *)
Definition fresh (w : mq_sys) (heap : Z) : Prop :=
  heap <> 0 /\ forall G, msg_rep (ms w) G -> G PHand = hand (mpcs w (cpu (qk (ms w)))) -> forall p, heap ∉ G p.

Section system.
Context (T : list Z) (idle : Z) (P : list Z) (DS : Z -> mq_des) (MX MS : Z -> Z).

(** The queues count at most 32766 messages, and a message fits in [mail]. *)
Definition sizes_ok : Prop := (forall q, Z.max 0 (MX q) + Z.of_nat (length P) < 32767) /\ forall q, MS q <= MQ_MAX_BYTES.

Definition mq_ok (w : mq_sys) : Prop := NoDup T /\ sizes_ok /\ exists A G, mq_inv T idle P DS MX MS (ms w) (mpcs w) A G.

(** The duties of the callers: a task other than the idle one that is not in a
    call may start one, with an open descriptor and the lock count not at its
    limit; a task in a call goes on; an interrupt may come at any time. *)
Definition mq_duties (w : mq_sys) (e : mq_event) : Prop :=
  let s := ms w in
  let me := cpu (qk s) in
  match e with
  | MqSend d _ _ | MqReceive d _ _ =>
      mpcs w me = PcNone /\ me <> idle /\ lock (qk s) me + 2 <= MAX_LOCK_COUNT /\ (d = 0 \/ queue_of s d <> 0)
  | MqStep heap =>
      match mpcs w me with
      | PcNone => False
      | PcSendAlloc _ _ _ => head (g_msgfree s) = 0 -> fresh w heap
      | _ => True
      end
  | MqLock => mpcs w me = PcNone /\ lock (qk s) me < MAX_LOCK_COUNT
  | MqUnlock => mpcs w me = PcNone
  | MqIrqSend d _ _ => d = 0 \/ queue_of s d <> 0
  | MqIrqTimeout x errcode => x ∈ T /\ errcode <> 0
  | MqIrqTick => True
  end.

(** The event ends the wait of the last sender that a receiver is about to
    wake. *)
Definition races (w : mq_sys) (e : mq_event) : bool :=
  match e with MqIrqTimeout x _ => last_sender w x | _ => false end.

(** The events that do not race. *)
Definition mq_event_valid (w : mq_sys) (e : mq_event) : Prop := mq_duties w e /\ races w e = false.

(** In every state of the run the callers do their duties. *)
Fixpoint mq_dutiful (w : mq_sys) (es : list mq_event) : Prop :=
  match es with
  | [] => True
  | e :: es => mq_duties w e /\ forall w' obs, mq_exec w e = Some (w', obs) -> mq_dutiful w' es
  end.

(** And no event races. *)
Fixpoint mq_valid (w : mq_sys) (es : list mq_event) : Prop :=
  match es with
  | [] => True
  | e :: es => mq_event_valid w e /\ forall w' obs, mq_exec w e = Some (w', obs) -> mq_valid w' es
  end.

Abbreviation D := (queue_id DS).
Abbreviation inv := (mq_inv T idle P DS MX MS).
Abbreviation good := (good T idle P DS MX MS).

(** ** One event *)

Lemma step_good w A G heap :
  NoDup T -> sizes_ok -> inv (ms w) (mpcs w) A G -> mpcs w (running A) <> PcNone ->
  (forall d data prio, mpcs w (running A) = PcSendAlloc d data prio -> G PFree = [] -> heap <> 0 /\ forall p, heap ∉ G p) ->
  good (ms w) (mpcs w) G (proceed w (running A) (mq_step (ms w) (running A) (mpcs w (running A)) heap)).
Proof.
  intros HT [HMX HMS] Hi Hpc Hnew. destruct (mpcs w (running A)) eqn:EQ; [done|..].
  - by apply (resume_send_good T idle P DS MX MS HT).
  - apply (alloc_good T idle P DS MX MS HT); try done. by apply (Hnew mqdes data prio).
  - by apply (insert_good T idle P DS MX MS HT HMX HMS).
  - by apply (notify_good T idle P DS MX MS HT).
  - by apply (wake_send_good T idle P DS MX MS HT).
  - by apply (resume_receive_good T idle P DS MX MS HT HMX).
  - by apply (got_good T idle P DS MX MS HT).
  - by apply (freed_good T idle P DS MX MS HT).
  - by apply (wake_receive_good T idle P DS MX MS HT).
Qed.

Lemma lock_good w A G :
  NoDup T -> inv (ms w) (mpcs w) A G -> mpcs w (running A) = PcNone -> lock (qk (ms w)) (running A) < MAX_LOCK_COUNT ->
  good (ms w) (mpcs w) G (mq_exec w MqLock).
Proof.
  intros HT Hi HQ Hl. cbn [mq_exec]. destruct (inv_lock T idle P DS MX MS HT _ _ A G Hi HQ Hl) as (k' & -> & Hi' & _). cbn [mbind option_bind].
  by apply (good_quiet T idle P DS MX MS _ _ G _ _ A G).
Qed.

Lemma unlocked_good w A G :
  NoDup T -> inv (ms w) (mpcs w) A G -> mpcs w (running A) = PcNone -> good (ms w) (mpcs w) G (mq_exec w MqUnlock).
Proof.
  intros HT Hi HQ. cbn [mq_exec]. destruct (inv_unlock T idle P DS MX MS HT _ _ A G Hi) as (k' & A' & -> & Hi' & _); rewrite ?HQ; try done.
  cbn [mbind option_bind]. apply (good_quiet T idle P DS MX MS _ _ G _ _ A' G); [|done|done].
  apply (inv_pcs T idle P DS MX MS _ (upd (mpcs w) (running A) PcNone)); [done|]. intros y. unfold upd. by destruct (Z.eqb_spec y (running A)) as [->|].
Qed.

Lemma exec_good w A G e :
  NoDup T -> sizes_ok -> inv (ms w) (mpcs w) A G -> mq_event_valid w e -> good (ms w) (mpcs w) G (mq_exec w e).
Proof.
  intros HT Hsz Hi [Hv Hrace]. pose proof Hsz as [HMX HMS]. destruct (mq_running Hi) as (_ & _ & _ & Hcpu & _).
  pose proof (inv_queue T idle P DS MX MS (ms w) (mpcs w) A G) as Hq. unfold mq_duties in Hv. rewrite Hcpu in Hv. destruct e as [d msg prio|d msg len|heap| | |d msg prio|x e|].
  - cbn [mq_exec]. rewrite Hcpu. destruct Hv as (H1 & H2 & H3 & H4). rewrite (Hq d Hi) in H4. by apply (send_good T idle P DS MX MS HT).
  - cbn [mq_exec]. rewrite Hcpu. destruct Hv as (H1 & H2 & H3 & H4). rewrite (Hq d Hi) in H4. by apply (receive_good T idle P DS MX MS HT HMX).
  - cbn [mq_exec]. rewrite Hcpu. apply step_good; try done; [by destruct (mpcs w (running A))|]. intros d data prio EQ Hf. rewrite EQ in Hv.
    pose proof (mr_list _ _ (mi_rep _ _ _ (qi_msgs Hi)) PFree _ eq_refl) as Hr. rewrite Hf in Hr.
    destruct Hv as [Hh Hnew]; [by rewrite (sq_head _ _ _ Hr)|]. split; [done|]. apply (Hnew G); [apply (qi_msgs Hi)|]. rewrite Hcpu. apply (qi_hand Hi).
  - destruct Hv. by apply (lock_good w A G).
  - by apply (unlocked_good w A G).
  - rewrite (Hq d Hi) in Hv. by apply (irq_send_good T idle P DS MX MS HT HMX HMS w A G).
  - destruct Hv as (H1 & H2). by apply (timeout_good T idle P DS MX MS HT w A G).
  - by apply (tick_good T idle P DS MX MS w A G).
Qed.

(** ** Runs *)

Lemma run_good es w A G :
  NoDup T -> sizes_ok -> inv (ms w) (mpcs w) A G -> mq_valid w es -> good (ms w) (mpcs w) G (mq_run w es).
Proof.
  intros HT Hsz. revert w A G. induction es as [|e es IH]; intros w A G Hi Hv; cbn [mq_run].
  - exists w, [], A, G. split_and!; [done|done|]. intros S HS. exists S. split; [constructor|done].
  - destruct Hv as [He Hes]. destruct (exec_good w A G e HT Hsz Hi He) as (w1 & o1 & A1 & G1 & E1 & Hi1 & Hs1). rewrite E1. cbn [mbind option_bind].
    destruct (IH w1 A1 G1 Hi1 (Hes w1 o1 E1)) as (w2 & o2 & A2 & G2 & E2 & Hi2 & Hs2). rewrite E2. cbn [mbind option_bind].
    exists w2, (o1 ++ o2), A2, G2. split_and!; [done|done|]. intros S HS. destruct (Hs1 S HS) as (S1 & Hp1 & HS1). destruct (Hs2 S1 HS1) as (S2 & Hp2 & HS2).
    exists S2. split; [by eapply pq_steps_app|done].
Qed.

Lemma view_abs w A G : inv (ms w) (mpcs w) A G -> abs T (ms w) (mpcs w) G (view w).
Proof. intros Hi. split; [|done]. intros q Hq. apply (queue_contents_rep P); [apply (qi_msgs Hi)|done]. Qed.

Lemma abs_view w A G S : inv (ms w) (mpcs w) A G -> abs T (ms w) (mpcs w) G S ->
  (forall q, q <> 0 -> pq S q = queue_contents (ms w) q) /\ forall x, x ∈ T -> taken S x = taken_by (ms w) (mpcs w x).
Proof. intros Hi [Hp Ht]. split; [|done]. intros q Hq. rewrite (queue_contents_rep P _ G) by (done || apply (qi_msgs Hi)). by apply Hp. Qed.

Lemma mq_run_ok w es :
  mq_ok w -> mq_valid w es ->
  exists w' obs S, mq_run w es = Some (w', obs) /\ mq_ok w' /\ pq_steps (view w) obs S /\
    (forall q, q <> 0 -> pq S q = queue_contents (ms w') q) /\ (forall x, x ∈ T -> taken S x = taken_by (ms w') (mpcs w' x)).
Proof.
  intros (HT & Hsz & A & G & Hi) Hv. destruct (run_good es w A G HT Hsz Hi Hv) as (w' & obs & A' & G' & E & Hi' & Hs).
  destruct (Hs _ (view_abs w A G Hi)) as (S & Hp & HS). exists w', obs, S. destruct (abs_view w' A' G' S Hi' HS). split_and!; try done. split_and!; try done. by exists A', G'.
Qed.

(** A run in which the callers do their duties goes on until an event races. *)
Lemma dutiful_until_race es w :
  mq_dutiful w es ->
  mq_valid w es \/
  exists es1 x errcode es2, es = es1 ++ MqIrqTimeout x errcode :: es2 /\ mq_valid w es1 /\
    forall w1 obs, mq_run w es1 = Some (w1, obs) -> last_sender w1 x = true.
Proof.
  revert w. induction es as [|e es IH]; intros w; [by left|]. intros [He Hes]. destruct (races w e) eqn:Hr.
  - right. destruct e as [| | | | | |x errcode|]; try done. exists [], x, errcode, es. split_and!; [done|done|]. by intros w1 obs [= <- <-].
  - destruct (mq_exec w e) as [[w1 o1]|] eqn:E; [|left; split; [done|intros w' obs E'; congruence]].
    destruct (IH w1 (Hes w1 o1 eq_refl)) as [Hv|(es1 & x & errcode & es2 & -> & Hv & Hl)].
    + left. split; [done|]. intros w' obs E'. rewrite E in E'. by injection E' as <- <-.
    + right. exists (e :: es1), x, errcode, es2. split_and!; [done| |].
      * split; [done|]. intros w' obs E'. rewrite E in E'. by injection E' as <- <-.
      * intros w2 obs Hrun. cbn [mq_run] in Hrun. rewrite E in Hrun. cbn [mbind option_bind] in Hrun.
        apply bind_Some in Hrun as ([w3 o3] & Hrun & [= <- <-]). by eapply Hl.
Qed.
End system.
