(* ===== verification/MqueueInit.v ===== *)
(** * Message queues: initialisation, queues and notifications

    The pools of messages that [mq_initialize] fills, the queues that
    [mq_msgqalloc] makes, and [mq_notify]; the system starts in a state that has
    the invariant. *)

From stdpp Require Import base tactics numbers sets list sorting.
From S2P Require Import Prelude Queue QueueProps Sched SchedProps SchedOps SchedKernel SchedTheorems Sem SemSystem Mqueue MqueueInv MqueueMsgs MqueueCalls.

(** ** The model *)

(** [sizeof(struct mqueue_msg_s)]: link, type, priority, length and 600 bytes. *)
Definition SIZEOF_MQUEUE_MSG : Z := 608.

(** Which list: [g_msgfree], or [g_msgfreeirq]. *)
Definition set_free (irq : bool) (q : queue) (s : mq_state) : mq_state := if irq then set_g_msgfreeirq q s else set_g_msgfree q s.
Definition get_free (irq : bool) (s : mq_state) : queue := if irq then g_msgfreeirq s else g_msgfree s.

Definition set_m_type (ty : mqalloc_e) (v : mqueue_msg_s) : mqueue_msg_s := mk_msg ty (m_priority v) (m_msglen v) (mail v).

(** [for (i = 0; i < nmsgs; i++)] *)
Fixpoint msgblock_loop (nmsgs : nat) (s : mq_state) (irq : bool) (ty : mqalloc_e) (mqmsg : Z) : option mq_state :=
  match nmsgs with
  | O => Some s
  | S n =>
      let s := set_msg mqmsg (set_m_type ty (msgs s mqmsg)) s in
      '(L, q) ← sq_addlast (mlinks s) mqmsg (get_free irq s);
      msgblock_loop n (set_free irq q (set_mlinks L s)) irq ty (mqmsg + SIZEOF_MQUEUE_MSG)
  end.

(** [mqmsgblock]: what kmm_malloc returned. *)
Definition mq_msgblockalloc (s : mq_state) (irq : bool) (nmsgs : Z) (ty : mqalloc_e) (mqmsgblock : Z) : option mq_state :=
  if mqmsgblock =? 0 then Some s else msgblock_loop (Z.to_nat nmsgs) s irq ty mqmsgblock.

(** [mq_initialize] but for the descriptors. *)
Definition mq_initialize_msgs (s : mq_state) (msgalloc msgfreeirqalloc : Z) : option mq_state :=
  let s := set_g_msgfreeirq (mk_queue 0 0) (set_g_msgfree (mk_queue 0 0) s) in
  s ← mq_msgblockalloc s false CONFIG_PREALLOC_MQ_MSGS MQ_ALLOC_FIXED msgalloc;
  mq_msgblockalloc s true NUM_INTERRUPT_MSGS MQ_ALLOC_IRQ msgfreeirqalloc.

(** The attributes [mq_maxmsg] and [mq_msgsize], unless [attr] is null; the
    result is what goes to the address that kmm_zalloc returns. *)
Definition mq_msgqalloc (attr : option (Z * Z)) : option mqueue_inode_s :=
  let new maxmsgs maxmsgsize := mk_msgq (mk_queue 0 0) maxmsgs 0 0 0 maxmsgsize 0 INVALID_PROCESS_ID 0 0 in
  match attr with
  | Some (maxmsg, msgsize) => if MQ_MAX_BYTES <? msgsize then None else Some (new (i16 maxmsg) (u16 (i16 msgsize)))
  | None => Some (new MQ_MAX_MSGS MQ_MAX_BYTES)
  end.

(** [notification]: [sigev_signo] and [sigev_value], unless it is null. *)
Definition mq_notify (s : mq_state) (mqdes : Z) (notification : option (Z * Z)) : option (mq_state * Z) :=
  let errout (s : mq_state) (errval : Z) :=
    k ← sched_unlock (qk (mq_errno s errval));
    Some (set_qk k s, ERROR) in
  if mqdes =? 0 then errout s EBADF
  else
    k ← sched_lock (qk s);
    let s := set_qk k s in
    let q := queue_of s mqdes in
    rtcb ← get_tcb (qk s) (rtr_head (qk s));
    let finish (s : mq_state) := k ← sched_unlock (qk s); Some (set_qk k s, OK) in
    let v := msgqs s q in
    match ntmqdes v =? 0, notification with
    | true, Some (signo, value) =>
        if MAX_SIGNO <? u32 signo then errout s EINVAL
        else finish (upd_msgq q (set_notification mqdes (pid rtcb) signo value) s)
    | true, None => finish s
    | false, _ =>
        if negb (ntpid v =? pid rtcb) || bool_decide (notification <> None) then errout s EBUSY
        else finish (upd_msgq q (set_notification 0 INVALID_PROCESS_ID 0 0) s)
    end.

(** ** The pools *)

(** The messages of a block. *)
Fixpoint block (n : nat) (b : Z) : list Z :=
  match n with O => [] | S n => b :: block n (b + SIZEOF_MQUEUE_MSG) end.

Lemma msgblock_spec n s irq ty b l :
  sq_rep (mlinks s) (get_free irq s) l -> NoDup (l ++ block n b) -> 0 ∉ block n b ->
  exists s', msgblock_loop n s irq ty b = Some s' /\ sq_rep (mlinks s') (get_free irq s') (l ++ block n b) /\
    same_links (l ++ block n b) (mlinks s) (mlinks s') /\ get_free (negb irq) s' = get_free (negb irq) s /\
    (forall y, y ∈ block n b -> m_type (msgs s' y) = ty) /\ (forall y, y ∉ block n b -> msgs s' y = msgs s y) /\ untouched s s'.
Proof.
  revert s b l. induction n as [|n IH]; intros s b l Hr Hnd H0; cbn [msgblock_loop block] in *.
  - rewrite app_nil_r. exists s. split_and!; try done. intros y Hy. set_solver.
  - assert (b ∉ l) as Hb by (apply NoDup_app in Hnd as (_ & Hd & _); intros Hin; apply (Hd b Hin); set_solver). assert (b <> 0) as Hb0 by set_solver.
    set (s1 := set_msg b _ s). destruct (sq_addlast_spec (mlinks s1) (get_free irq s1) l b) as (L & q & -> & Hr' & HL); [by destruct irq|done|done|]. cbn [mbind option_bind].
    set (s2 := set_free irq q (set_mlinks L s1)). rewrite (cons_middle b l), (assoc_L (++)) in Hnd |- *.
    assert (mlinks s2 = L /\ get_free irq s2 = q /\ get_free (negb irq) s2 = get_free (negb irq) s /\ msgs s2 = msgs s1 /\ untouched s s2) as (E1 & E2 & E3 & E4 & E5) by (by destruct irq).
    destruct (IH s2 (b + SIZEOF_MQUEUE_MSG) (l ++ [b])) as (s' & E & Hr2 & HL2 & Hf & Hty & Hsame & (U1 & U2 & U3 & U4)); [by rewrite E1, E2|done|set_solver|].
    apply NoDup_app in Hnd as (_ & Hd & _). assert (b ∉ block n (b + SIZEOF_MQUEUE_MSG)) as Hbn by (apply Hd; set_solver).
    exists s'. destruct E5 as (V1 & V2 & V3 & V4). split_and!; [done|done| |congruence| | |split_and!; congruence].
    + rewrite E1 in HL2. intros y Hy. destruct (HL2 y Hy) as [-> ->]. apply HL. set_solver.
    + intros y Hy. apply elem_of_cons in Hy as [->|Hy]; [|by apply Hty]. rewrite Hsame, E4 by done. simpl. by rewrite upd_eq.
    + intros y Hy. rewrite Hsame, E4 by set_solver. simpl. rewrite upd_ne; [done|set_solver].
Qed.

Abbreviation pools b1 b2 := (block (Z.to_nat CONFIG_PREALLOC_MQ_MSGS) b1 ++ block (Z.to_nat NUM_INTERRUPT_MSGS) b2).

(** The two free lists, and nothing else. *)
Definition initial_places (b1 b2 : Z) (p : place) : list Z :=
  match p with
  | PFree => block (Z.to_nat CONFIG_PREALLOC_MQ_MSGS) b1
  | PIrq => block (Z.to_nat NUM_INTERRUPT_MSGS) b2
  | _ => []
  end.

Lemma initialize_msgs_spec s b1 b2 :
  NoDup (pools b1 b2) -> 0 ∉ pools b1 b2 -> (forall q, q <> 0 -> msglist (msgqs s q) = mk_queue 0 0 /\ nmsgs (msgqs s q) = 0) ->
  exists s', mq_initialize_msgs s b1 b2 = Some s' /\ msg_inv (pools b1 b2) s' (initial_places b1 b2) /\ untouched s s'.
Proof.
  intros Hnd H0 HQ. apply not_elem_of_app in H0 as [H01 H02]. pose proof Hnd as (Hn1 & Hd & Hn2)%NoDup_app. unfold mq_initialize_msgs. set (s0 := set_g_msgfreeirq _ _).
  assert (forall n b, 0 ∉ block (S n) b -> (b =? 0) = false) as Hb0 by (intros n b Hb; apply Z.eqb_neq; simpl in Hb; set_solver).
  unfold mq_msgblockalloc. rewrite (Hb0 3%nat b1 H01), (Hb0 7%nat b2 H02).
  destruct (msgblock_spec (Z.to_nat CONFIG_PREALLOC_MQ_MSGS) s0 false MQ_ALLOC_FIXED b1 []) as (s1 & -> & Hr1 & HL1 & Hf1 & Ht1 & Hs1 & (U1 & U2 & U3 & U4)); [apply sq_rep_empty|done|done|].
  cbn [mbind option_bind]. assert (get_free true s1 = mk_queue 0 0) as Ef by (exact Hf1).
  destruct (msgblock_spec (Z.to_nat NUM_INTERRUPT_MSGS) s1 true MQ_ALLOC_IRQ b2 []) as (s2 & -> & Hr2 & HL2 & Hf2 & Ht2 & Hs2 & (V1 & V2 & V3 & V4)); [rewrite Ef; apply sq_rep_empty|done|done|].
  change (qk s0) with (qk s) in U1. change (msgqs s0) with (msgqs s) in U2. change (descs s0) with (descs s) in U3. change (msgwaitq s0) with (msgwaitq s) in U4.
  cbn [negb get_free app] in *. exists s2. split; [done|]. split; [|split_and!; congruence].
  assert (forall m, m ∈ block (Z.to_nat CONFIG_PREALLOC_MQ_MSGS) b1 -> m_type (msgs s2 m) = MQ_ALLOC_FIXED) as Hty1 by (intros m Hm; rewrite Hs2; [by apply Ht1|by apply Hd]).
  constructor; unfold is_dyn; try done.
  - constructor.
    + intros [| | |q] h Hh; simpl in *; simplify_eq; [|done|].
      * rewrite Hf2. by apply (sq_rep_frame _ _ _ _ _ HL2); [apply Hd|].
      * destruct (Z.eqb_spec q 0); [done|]. injection Hh as <-. rewrite V2, U2. destruct (HQ q) as [E _]; [done|]. simpl. rewrite E. apply sq_rep_empty.
    + intros [| | |] [| | |] m Hm1 Hm2; simpl in *; try done; try (by apply elem_of_nil in Hm1); try (by apply elem_of_nil in Hm2); exfalso; by eapply Hd.
    + intros [| | |]; simpl; try done; constructor.
    + intros [| | |]; simpl; try done; apply not_elem_of_nil.
    + done.
  - intros [| | |] m Hm _; simpl in Hm; try (by apply elem_of_nil in Hm); apply elem_of_app; auto.
  - intros m [Hm|Hm]%elem_of_app; [rewrite Hty1 by done; split; [done|by exists PFree]|rewrite Ht2 by done; split; [done|by exists PIrq]].
  - intros q Hq. rewrite V2, U2. by apply HQ.
  - intros q _. constructor.
Qed.

(** ** The start *)

(** The attributes a queue may be created with. *)
Definition attr_ok (attr : option (Z * Z)) : Prop :=
  match attr with Some (maxmsg, msgsize) => 0 <= maxmsg < 32755 /\ 0 <= msgsize | None => True end.

Lemma msgqalloc_spec attr v :
  mq_msgqalloc attr = Some v -> attr_ok attr ->
  msglist v = mk_queue 0 0 /\ count_q v = mk_count 0 (maxmsgs v) 0 0 /\ 0 <= maxmsgs v < 32755 /\ 0 <= maxmsgsize v <= MQ_MAX_BYTES.
Proof.
  destruct attr as [[mx sz]|]; cbn [mq_msgqalloc attr_ok].
  - destruct (Z.ltb_spec MQ_MAX_BYTES sz) as [|Hsz]; [done|]. intros E [Hmx Hsz0]. injection E as <-. unfold MQ_MAX_BYTES in *. cbn [msglist maxmsgs maxmsgsize]. unfold count_q. simpl.
    rewrite !i16_small by lia. unfold u16. rewrite Z.mod_small by lia. split_and!; try done; lia.
  - intros E _. injection E as <-. split_and!; try done; unfold MQ_MAX_MSGS, MQ_MAX_BYTES; simpl; lia.
Qed.

Lemma start_ok T idle A s attrs b1 b2 :
  NoDup T -> sched_ok T idle (qk s) A -> all_listed T A -> in_irq (qk s) = false ->
  (forall x, x ∈ T -> (x ∉ A g_waitingformqnotempty) /\ (x ∉ A g_waitingformqnotfull) /\ msgwaitq s x = 0) ->
  (forall q, attr_ok (attrs q) /\ mq_msgqalloc (attrs q) = Some (msgqs s q)) -> NoDup (pools b1 b2) -> 0 ∉ pools b1 b2 ->
  exists s', mq_initialize_msgs s b1 b2 = Some s' /\ untouched s s' /\
    mq_ok T idle (pools b1 b2) (descs s') (fun q => maxmsgs (msgqs s' q)) (fun q => maxmsgsize (msgqs s' q)) (mk_mqsys s' (fun _ => PcNone)).
Proof.
  intros HT Hok Hlisted Hirq Hidle HQ Hnd H0.
  assert (forall q, msglist (msgqs s q) = mk_queue 0 0 /\ count_q (msgqs s q) = mk_count 0 (maxmsgs (msgqs s q)) 0 0 /\ 0 <= maxmsgs (msgqs s q) < 32755 /\ 0 <= maxmsgsize (msgqs s q) <= MQ_MAX_BYTES) as HV.
  { intros q. destruct (HQ q) as [Ha Hm]. by apply (msgqalloc_spec (attrs q)). }
  destruct (initialize_msgs_spec s b1 b2 Hnd H0) as (s' & E & Hm & Hu).
  { intros q _. destruct (HV q) as (-> & Hc & _). split; [done|]. by apply (f_equal c_msgs) in Hc. }
  exists s'. split; [done|]. split; [done|]. destruct Hu as (Ek & Eq & Ed & Ew). split; [done|]. split.
  { split; intros q; rewrite Eq; destruct (HV q) as (_ & _ & ? & ?); [change (Z.of_nat (length (pools b1 b2))) with 12; lia|lia]. }
  exists A, (initial_places b1 b2). constructor; cbn [ms mpcs]; rewrite ?Ek; try done.
  - intros x Hx. rewrite Ew. destruct (Hidle x Hx) as (? & ? & ->). simpl. naive_solver.
  - rewrite Eq. assert (tally (fun _ => false) T = 0) as Htal by (clear; induction T as [|x l IH]; simpl; lia).
    constructor; try (intros q Hq; destruct (HV q) as (_ & -> & _); simpl); rewrite ?Htal; try done; try lia.
    intros x Hx. simpl. rewrite Ew. by apply Hidle.
  - intros q Hq. unfold dyn. simpl. lia.
Qed.

(** * Message queues: descriptors and the end of a queue

    The descriptors of the task groups, on the free list or on the list of one
    group; [mq_initialize] with them; and [mq_msgqfree], which returns the
    messages of a queue to where they came from. *)

(** ** The model *)

(** The lists of descriptors: [tg_msgdesq] by task group. *)
Record des_lists := mk_des_lists { dlinks : links; g_desfree : queue; g_desalloc : queue; tg_msgdesq : Z -> queue }.

(** [sizeof(sq_entry_t)] and [sizeof(struct mq_des)] *)
Definition SIZEOF_SQ_ENTRY : Z := 4.
Definition SIZEOF_MQ_DES : Z := 12.
Definition NUM_MSG_DESCRIPTORS : Z := 24.

(** [for (i = 0; i < NUM_MSG_DESCRIPTORS; i++)] *)
Fixpoint desblock_loop (n : nat) (L : links) (q : queue) (mqdes : Z) : option (links * queue) :=
  match n with
  | O => Some (L, q)
  | S n =>
      '(L, q) ← sq_addlast L mqdes q;
      desblock_loop n L q (mqdes + SIZEOF_MQ_DES)
  end.

(** [mqdesblock]: what kmm_malloc returned. *)
Definition mq_desblockalloc (dl : des_lists) (mqdesblock : Z) : option des_lists :=
  if mqdesblock =? 0 then Some dl
  else
    '(L, a) ← sq_addlast (dlinks dl) mqdesblock (g_desalloc dl);
    '(L, f) ← desblock_loop (Z.to_nat NUM_MSG_DESCRIPTORS) L (g_desfree dl) (mqdesblock + SIZEOF_SQ_ENTRY);
    Some (mk_des_lists L f a (tg_msgdesq dl)).

Definition mq_initialize (s : mq_state) (dl : des_lists) (msgalloc msgfreeirqalloc mqdesblock : Z) : option (mq_state * des_lists) :=
  s ← mq_initialize_msgs s msgalloc msgfreeirqalloc;
  dl ← mq_desblockalloc (mk_des_lists (dlinks dl) (g_desfree dl) empty_queue (tg_msgdesq dl)) mqdesblock;
  Some (s, dl).

Definition mq_desalloc (dl : des_lists) (mqdesblock : Z) : option (des_lists * Z) :=
  '(mqdes, (L, f)) ← sq_remfirst (dlinks dl) (g_desfree dl);
  let dl := mk_des_lists L f (g_desalloc dl) (tg_msgdesq dl) in
  if mqdes =? 0 then
    dl ← mq_desblockalloc dl mqdesblock;
    '(mqdes, (L, f)) ← sq_remfirst (dlinks dl) (g_desfree dl);
    Some (mk_des_lists L f (g_desalloc dl) (tg_msgdesq dl), mqdes)
  else Some (dl, mqdes).

(** [group]: the field of that name of the tasks; [mtcb] is 0 for the running
    task. *)
Definition mq_descreate (group : Z -> Z) (s : mq_state) (dl : des_lists) (mtcb q flags mqdesblock : Z)
  : option (mq_state * des_lists * Z) :=
  let mtcb := if mtcb =? 0 then rtr_head (qk s) else mtcb in
  _ ← assert (negb (group mtcb =? 0));
  '(dl, mqdes) ← mq_desalloc dl mqdesblock;
  if mqdes =? 0 then Some (s, dl, 0)
  else
    '(L, l) ← sq_addlast (dlinks dl) mqdes (tg_msgdesq dl (group mtcb));
    Some (set_desc mqdes (mk_des q flags) s,
          mk_des_lists L (g_desfree dl) (g_desalloc dl) (upd (tg_msgdesq dl) (group mtcb) l), mqdes).

(** [fuel] bounds the search for the descriptor in the list of the group. *)
Definition mq_desclose (fuel : nat) (group : Z -> Z) (s : mq_state) (dl : des_lists) (mqdes : Z) : option (mq_state * des_lists) :=
  let g := group (rtr_head (qk s)) in
  _ ← assert (negb (mqdes =? 0) && negb (g =? 0));
  '(L, l) ← sq_rem fuel (dlinks dl) mqdes (tg_msgdesq dl g);
  let q := queue_of s mqdes in
  let s := if ntmqdes (msgqs s q) =? mqdes then upd_msgq q (set_notification 0 INVALID_PROCESS_ID 0 0) s else s in
  '(L, f) ← sq_addlast L mqdes (g_desfree dl);
  Some (s, mk_des_lists L f (g_desalloc dl) (upd (tg_msgdesq dl) g l)).

(** [while (curr)]; the link is read before the message is freed. *)
Fixpoint msgqfree_loop (fuel : nat) (s : mq_state) (curr : Z) : option mq_state :=
  match fuel with
  | O => None
  | S fuel =>
      if curr =? 0 then Some s
      else
        let next := flink (mlinks s) curr in
        s ← mq_msgfree s curr;
        msgqfree_loop fuel s next
  end.

(** The memory of the queue goes back to the heap. *)
Definition mq_msgqfree (s : mq_state) (q : Z) : option mq_state := msgqfree_loop (msg_fuel s q) s (head (msglist (msgqs s q))).

(** ** The end of a queue *)

(** The queue without its messages. *)
Definition emptied (q : Z) (s : mq_state) : mq_state := upd_msgq q (fun v => set_nmsgs 0 (set_msglist empty_queue v)) s.

Lemma msgfree_emptied s q m : mq_msgfree (emptied q s) m = emptied q <$> mq_msgfree s m.
Proof.
  unfold mq_msgfree. change (msgs (emptied q s) m) with (msgs s m). change (mlinks (emptied q s)) with (mlinks s).
  change (g_msgfree (emptied q s)) with (g_msgfree s). change (g_msgfreeirq (emptied q s)) with (g_msgfreeirq s).
  destruct (m_type (msgs s m)); [destruct (sq_addlast _ _ _) as [[L h]|]|..|destruct (sq_addlast _ _ _) as [[L h]|]]; done.
Qed.

Lemma msgqfree_emptied q fuel s c : msgqfree_loop fuel (emptied q s) c = emptied q <$> msgqfree_loop fuel s c.
Proof.
  revert s c. induction fuel as [|fuel IH]; intros s c; [done|]. cbn [msgqfree_loop]. destruct (c =? 0); [done|]. rewrite msgfree_emptied.
  change (mlinks (emptied q s)) with (mlinks s). destruct (mq_msgfree s c) as [s'|]; [|done]. apply IH.
Qed.

(** The messages of the list go to the pools they are of. *)
Lemma msgqfree_loop_spec P l fuel s G :
  msg_inv P s G -> G PHand = l -> seg (flink (mlinks s)) l 0 -> (length l < fuel)%nat ->
  exists s' G', msgqfree_loop fuel s (hd_or l 0) = Some s' /\ msg_inv P s' G' /\ G' PHand = [] /\ (forall q, G' (PQueue q) = G (PQueue q)) /\
    untouched s s' /\ msgs s' = msgs s /\
    (forall y, y ∈ G' PFree <-> y ∈ G PFree \/ y ∈ l /\ m_type (msgs s y) = MQ_ALLOC_FIXED) /\
    (forall y, y ∈ G' PIrq <-> y ∈ G PIrq \/ y ∈ l /\ m_type (msgs s y) = MQ_ALLOC_IRQ).
Proof.
  revert fuel s G. induction l as [|m l IH]; intros fuel s G Hi Hh Hs Hf; (destruct fuel as [|fuel]; [simpl in Hf; lia|]).
  - exists s, G. split_and!; try done; intros y; set_solver.
  - cbn [msgqfree_loop hd_or]. destruct (hand_fresh P s G m l Hi Hh) as (Hm0 & Hml & Hout). rewrite (proj2 (Z.eqb_neq m 0)) by done. destruct Hs as [Hnext Hs]. rewrite Hnext.
    destruct (mq_msgfree_spec s G P m l Hi Hh) as (s1 & G1 & -> & Hi1 & Hh1 & HQ1 & (U1 & U2 & U3 & U4) & EM & HL & HF & HI). cbn [mbind option_bind].
    destruct (IH fuel s1 G1) as (s2 & G2 & E & Hi2 & Hh2 & HQ2 & (V1 & V2 & V3 & V4) & EM2 & HF2 & HI2); [done|done| |simpl in Hf; lia|].
    { revert Hs. apply seg_ext. intros y Hy. apply HL. intros [->|Hin]%elem_of_cons; [done|].
      assert (y ∈ G PHand) as Hyh by (rewrite Hh; set_solver).
      apply elem_of_app in Hin as [Hin|Hin]; discriminate (mr_once _ _ (mi_rep _ _ _ Hi) _ _ _ Hyh Hin). }
    exists s2, G2. split; [done|]. split; [done|]. split; [done|]. split; [intros q; by rewrite HQ2|]. split; [split_and!; congruence|]. split; [congruence|]. split.
    + intros y. rewrite HF2, HF, EM. set_solver.
    + intros y. rewrite HI2, HI, EM. set_solver.
Qed.

(** The messages of the queue in one's hands. *)
Lemma emptied_inv P s G q :
  msg_inv P s G -> q <> 0 -> G PHand = [] -> msg_inv P (emptied q s) (set_place PHand (G (PQueue q)) (set_place (PQueue q) [] G)).
Proof.
  intros Hi Hq Hh. set (G' := set_place _ _ _). pose proof (mi_rep _ _ _ Hi) as [Hl Ho Hn H0 Hz].
  assert (G' PHand = G (PQueue q)) as E1 by (unfold G'; by rewrite set_place_eq).
  assert (G' (PQueue q) = []) as E2 by (unfold G'; by rewrite set_place_ne, set_place_eq).
  assert (forall p, p <> PHand -> p <> PQueue q -> G' p = G p) as E3 by (intros p ? ?; unfold G'; by rewrite !set_place_ne).
  assert (forall p y, y ∈ G' p <-> p = PHand /\ y ∈ G (PQueue q) \/ p <> PHand /\ p <> PQueue q /\ y ∈ G p) as Hin.
  { intros p y. destruct (decide (p = PHand)) as [->|]; [rewrite E1; naive_solver|]. destruct (decide (p = PQueue q)) as [->|]; [rewrite E2; set_solver|]. rewrite E3 by done. naive_solver. }
  apply (msg_inv_move P s G); try done.
  - constructor.
    + intros p h Hp. destruct (decide (p = PHand)) as [->|]; [done|]. destruct (decide (p = PQueue q)) as [->|Hpq].
      * rewrite E2. simpl in Hp. rewrite (proj2 (Z.eqb_neq q 0)), upd_eq in Hp by done. injection Hp as <-. apply sq_rep_empty.
      * rewrite E3 by done. apply Hl. rewrite <- Hp. destruct p as [| | |q']; try done. simpl. destruct (q' =? 0); [done|]. rewrite upd_ne; [done|congruence].
    + intros p1 p2 m H1%Hin H2%Hin. destruct H1 as [[-> H1]|(N1 & N1' & H1)], H2 as [[-> H2]|(N2 & N2' & H2)]; try done; by pose proof (Ho _ _ _ H1 H2).
    + intros p. destruct (decide (p = PHand)) as [->|]; [by rewrite E1|]. destruct (decide (p = PQueue q)) as [->|]; [rewrite E2; constructor|]. by rewrite E3.
    + intros p H1%Hin. destruct H1 as [[_ H1]|(_ & _ & H1)]; by apply H0 in H1.
    + destruct (decide (q = 0)) as [->|]; [done|]. rewrite E3; [done|done|congruence].
  - intros p y H1%Hin. destruct H1 as [[_ H1]|(_ & _ & H1)]; by eexists.
  - intros p y Hy _. destruct (decide (p = PQueue q)) as [->|]; [exists PHand; by rewrite E1|]. exists p. apply Hin. right. split_and!; try done. intros ->. rewrite Hh in Hy. by apply elem_of_nil in Hy.
  - intros y Hy. rewrite E3 in Hy by done. by apply (mi_free _ _ _ Hi).
  - intros y Hy. rewrite E3 in Hy by done. by apply (mi_irq _ _ _ Hi).
  - intros q' Hq'. simpl. destruct (decide (q' = q)) as [->|Hne]; [rewrite E2, upd_eq; split; [done|constructor]|].
    rewrite E3, upd_ne by congruence. split; [by apply (mi_count _ _ _ Hi)|by apply (mi_order _ _ _ Hi)].
Qed.

(** ** Descriptors *)

(** The free descriptors [F], the blocks [B] and those open in each group [O], no
    two of which share an entry. *)
Record des_rep (dl : des_lists) (F B : list Z) (O : Z -> list Z) : Prop := {
  dr_free : sq_rep (dlinks dl) (g_desfree dl) F;
  dr_blocks : sq_rep (dlinks dl) (g_desalloc dl) B;
  dr_open g : sq_rep (dlinks dl) (tg_msgdesq dl g) (O g);
  dr_free_open d g : d ∈ F -> d ∉ O g;
  dr_open_once d g1 g2 : d ∈ O g1 -> d ∈ O g2 -> g1 = g2;
  dr_block d : d ∈ B -> (d ∉ F) /\ forall g, d ∉ O g
}.

(** The first free descriptor is opened for a group. *)
Lemma descreate_spec group s dl F B O mtcb q flags heap d :
  des_rep dl (d :: F) B O -> let t := if mtcb =? 0 then rtr_head (qk s) else mtcb in group t <> 0 ->
  exists dl', mq_descreate group s dl mtcb q flags heap = Some (set_desc d (mk_des q flags) s, dl', d) /\
    des_rep dl' F B (upd O (group t) (O (group t) ++ [d])).
Proof.
  intros [Hf Hb Ho Hfo Hoo Hbl] t Ht. unfold mq_descreate. fold t. rewrite (proj2 (Z.eqb_neq _ 0)) by done. cbn [negb assert mbind option_bind]. unfold mq_desalloc.
  destruct (sq_remfirst_spec _ _ _ Hf) as (L1 & f & -> & Hf1 & HL1). cbn [mbind option_bind].
  assert (d <> 0) as Hd0 by (intros ->; apply (sq_null _ _ _ Hf); set_solver). assert (d ∉ F) as HdF by (pose proof (sq_nodup _ _ _ Hf) as Hn; by apply NoDup_cons in Hn as [? _]).
  rewrite (proj2 (Z.eqb_neq d 0)) by done. cbn [mbind option_bind tg_msgdesq dlinks]. rewrite (proj2 (Z.eqb_neq d 0)) by done.
  assert (forall g, sq_rep L1 (tg_msgdesq dl g) (O g)) as Ho1.
  { intros g. apply (sq_rep_frame _ _ _ _ _ HL1); [|done]. intros x Hx Hin. by apply (Hfo x g). }
  destruct (sq_addlast_spec L1 (tg_msgdesq dl (group t)) (O (group t)) d) as (L2 & l & -> & Hl & HL2); [done|apply Hfo; set_solver|done|].
  cbn [mbind option_bind]. eexists. split; [done|].
  assert (forall x, x ∈ F -> x ∉ d :: O (group t)) as HF by (intros x Hx [->|Hin]%elem_of_cons; [done|]; apply (Hfo x (group t)); set_solver).
  assert (forall x, x ∈ B -> (x ∉ d :: F) /\ (x ∉ d :: O (group t))) as HB.
  { intros x Hx. destruct (Hbl x Hx) as [H1 H2]. split; [done|]. intros [->|Hin]%elem_of_cons; [set_solver|by apply (H2 (group t))]. }
  constructor; cbn [dlinks g_desfree g_desalloc tg_msgdesq].
  - by apply (sq_rep_frame _ _ _ _ _ HL2).
  - apply (sq_rep_frame _ _ _ _ _ HL2); [intros x Hx; by apply HB|]. apply (sq_rep_frame _ _ _ _ _ HL1); [intros x Hx; by apply HB|done].
  - intros g. unfold upd. destruct (Z.eqb_spec g (group t)) as [->|Hne]; [done|]. apply (sq_rep_frame _ _ _ _ _ HL2); [|done].
    intros x Hx [->|Hin]%elem_of_cons; [by apply (Hfo d g); [set_solver|]|]. by destruct Hne; apply (Hoo x).
  - intros x g Hx. unfold upd. destruct (Z.eqb_spec g (group t)) as [->|Hne]; [|by apply Hfo; set_solver].
    intros [Hin|Hin]%elem_of_app; [by apply (Hfo x (group t)); [set_solver|]|]. apply list_elem_of_singleton in Hin as ->. done.
  - intros x g1 g2. unfold upd. destruct (Z.eqb_spec g1 (group t)) as [->|], (Z.eqb_spec g2 (group t)) as [->|]; try done; try by apply Hoo.
    + intros [Hin|Hin]%elem_of_app Hx; [by apply (Hoo x)|]. apply list_elem_of_singleton in Hin as ->. destruct (Hfo d g2); [set_solver|done].
    + intros Hx [Hin|Hin]%elem_of_app; [by apply (Hoo x)|]. apply list_elem_of_singleton in Hin as ->. destruct (Hfo d g1); [set_solver|done].
  - intros x Hx. destruct (Hbl x Hx) as [H1 H2]. split; [set_solver|]. intros g. unfold upd. destruct (Z.eqb_spec g (group t)) as [->|]; [|by apply H2].
    intros [Hin|Hin]%elem_of_app; [by apply (H2 (group t))|]. apply list_elem_of_singleton in Hin as ->. set_solver.
Qed.

(** A descriptor of the running task's group is closed. *)
Lemma desclose_spec fuel group s dl F B O l1 d l2 :
  des_rep dl F B O -> let g := group (rtr_head (qk s)) in g <> 0 -> O g = l1 ++ d :: l2 -> (length l1 < fuel)%nat ->
  exists s' dl', mq_desclose fuel group s dl d = Some (s', dl') /\ des_rep dl' (F ++ [d]) B (upd O g (l1 ++ l2)) /\
    s' = if ntmqdes (msgqs s (queue_of s d)) =? d then upd_msgq (queue_of s d) (set_notification 0 INVALID_PROCESS_ID 0 0) s else s.
Proof.
  intros [Hf Hb Ho Hfo Hoo Hbl] g Hg Hl Hfuel. pose proof (Ho g) as Hog. rewrite Hl in Hog.
  assert (d <> 0) as Hd0 by (intros ->; apply (sq_null _ _ _ Hog); set_solver). assert (d ∈ O g) as Hdin by (rewrite Hl; set_solver).
  unfold mq_desclose. fold g. clearbody g. rewrite (proj2 (Z.eqb_neq d 0)), (proj2 (Z.eqb_neq g 0)) by done. cbn [negb andb assert mbind option_bind].
  destruct (sq_rem_spec fuel _ _ l1 d l2 Hog Hfuel) as (L1 & l & -> & Hl1 & HL1). cbn [mbind option_bind]. rewrite <- Hl in HL1.
  assert (sq_rep L1 (g_desfree dl) F) as Hf1 by (apply (sq_rep_frame _ _ _ _ _ HL1); [|done]; intros x Hx; by apply Hfo).
  assert (d ∉ F) as HdF by (intros Hin; by apply (Hfo d g)).
  destruct (sq_addlast_spec L1 (g_desfree dl) F d Hf1 HdF Hd0) as (L2 & f & -> & Hf2 & HL2). cbn [mbind option_bind]. eexists _, _. split; [done|]. split; [|done].
  assert (d ∉ l1 ++ l2) as Hdl by (pose proof (sq_nodup _ _ _ Hog) as Hn; rewrite <- Permutation_middle in Hn; by apply NoDup_cons in Hn as [? _]).
  assert (forall x, x ∈ l1 ++ l2 -> x ∈ O g) as Hsub by (intros x Hx; rewrite Hl; set_solver).
  constructor; cbn [dlinks g_desfree g_desalloc tg_msgdesq].
  - done.
  - apply (sq_rep_frame _ _ _ _ _ HL2); [|apply (sq_rep_frame _ _ _ _ _ HL1); [intros x Hx; by apply Hbl|done]].
    intros x Hx [->|Hin]%elem_of_cons; [by destruct (Hbl d Hx) as [_ H2]; apply (H2 g)|]. by destruct (Hbl x Hx).
  - intros g'. unfold upd. destruct (Z.eqb_spec g' g) as [->|Hne].
    + apply (sq_rep_frame _ _ _ _ _ HL2); [|done]. intros x Hx [->|Hin]%elem_of_cons; [done|]. apply (Hfo x g Hin). by apply Hsub.
    + apply (sq_rep_frame _ _ _ _ _ HL2); [|apply (sq_rep_frame _ _ _ _ _ HL1); [|done]].
      * intros x Hx [->|Hin]%elem_of_cons; [by destruct Hne; apply (Hoo d)|]. by apply (Hfo x g').
      * intros x Hx Hin. destruct Hne. by apply (Hoo x).
  - intros x g' [Hx|Hx]%elem_of_app Hin; unfold upd in Hin; destruct (Z.eqb_spec g' g) as [Eg|Hne].
    + subst g'. apply (Hfo x g Hx). by apply Hsub.
    + by apply (Hfo x g' Hx).
    + apply list_elem_of_singleton in Hx as ->. done.
    + apply list_elem_of_singleton in Hx as ->. destruct Hne. by apply (Hoo d).
  - intros x g1 g2 H1 H2. apply (Hoo x); unfold upd in *; [destruct (Z.eqb_spec g1 g)|destruct (Z.eqb_spec g2 g)]; subst; auto.
  - intros x Hx. destruct (Hbl x Hx) as [H1 H2]. split.
    + intros [Hin|Hin]%elem_of_app; [done|]. apply list_elem_of_singleton in Hin as ->. by apply (H2 g).
    + intros g' Hin. unfold upd in Hin. destruct (Z.eqb_spec g' g); [by apply (H2 g), Hsub|by apply (H2 g')].
Qed.

(** The descriptors of a block. *)
Fixpoint des_block (n : nat) (d : Z) : list Z := match n with O => [] | S n => d :: des_block n (d + SIZEOF_MQ_DES) end.

Lemma desblock_spec n L q d l :
  sq_rep L q l -> NoDup (l ++ des_block n d) -> 0 ∉ des_block n d ->
  exists L' q', desblock_loop n L q d = Some (L', q') /\ sq_rep L' q' (l ++ des_block n d) /\ same_links (l ++ des_block n d) L L'.
Proof.
  revert L q d l. induction n as [|n IH]; intros L q d l Hr Hnd H0; cbn [desblock_loop des_block] in *.
  - rewrite app_nil_r. by exists L, q.
  - assert (d ∉ l) as Hd by (apply NoDup_app in Hnd as (_ & Hd & _); intros Hin; apply (Hd d Hin); set_solver).
    destruct (sq_addlast_spec L q l d Hr Hd) as (L1 & q1 & -> & Hr1 & HL1); [set_solver|]. cbn [mbind option_bind]. rewrite (cons_middle d l), (assoc_L (++)) in Hnd |- *.
    destruct (IH L1 q1 (d + SIZEOF_MQ_DES) (l ++ [d]) Hr1 Hnd) as (L2 & q2 & -> & Hr2 & HL2); [set_solver|]. exists L2, q2. split_and!; [done|done|].
    intros y Hy. destruct (HL2 y Hy) as [-> ->]. apply HL1. set_solver.
Qed.

Abbreviation new_des b := (des_block (Z.to_nat NUM_MSG_DESCRIPTORS) (b + SIZEOF_SQ_ENTRY)).

(** A block of new descriptors. *)
Lemma desblockalloc_spec dl F B O b :
  des_rep dl F B O -> NoDup (b :: F ++ new_des b) -> 0 ∉ b :: new_des b -> (forall x, x ∈ b :: new_des b -> (x ∉ B) /\ forall g, x ∉ O g) ->
  exists dl', mq_desblockalloc dl b = Some dl' /\ des_rep dl' (F ++ new_des b) (B ++ [b]) O.
Proof.
  intros [Hf Hb Ho Hfo Hoo Hbl] Hnd H0 Hnew. unfold mq_desblockalloc. pose proof (desblock_spec (Z.to_nat NUM_MSG_DESCRIPTORS)) as Hloop.
  set (N := new_des b) in *. assert (new_des b = N) as EN by done. clearbody N.
  apply NoDup_cons in Hnd as [HbF HndF]. apply not_elem_of_cons in H0 as [Hb0 H0]. apply not_elem_of_app in HbF as [HbF HbN].
  destruct (Hnew b) as [HbB HbO]; [apply elem_of_cons; by left|]. assert (forall x, x ∈ N -> (x ∉ B) /\ forall g, x ∉ O g) as HN by (intros x Hx; apply Hnew, elem_of_cons; by right).
  clear Hnew. rewrite (proj2 (Z.eqb_neq b 0)) by congruence.
  destruct (sq_addlast_spec _ _ _ b Hb HbB) as (L1 & a & -> & Ha & HL1); [congruence|]. cbn [mbind option_bind].
  assert (forall x, x ∈ F -> x ∉ b :: B) as HFB by (intros x Hx [->|Hin]%elem_of_cons; [done|by destruct (Hbl x Hin)]).
  assert (sq_rep L1 (g_desfree dl) F) as Hf1 by (by apply (sq_rep_frame _ _ _ _ _ HL1)).
  specialize (Hloop L1 (g_desfree dl) (b + SIZEOF_SQ_ENTRY) F Hf1). rewrite EN in Hloop. destruct Hloop as (L2 & f & -> & Hf2 & HL2); [done|done|].
  cbn [mbind option_bind]. eexists. split; [done|]. constructor; cbn [dlinks g_desfree g_desalloc tg_msgdesq].
  - done.
  - apply (sq_rep_frame _ _ _ _ _ HL2); [|done]. intros x [Hx|Hx%list_elem_of_singleton]%elem_of_app [Hin|Hin]%elem_of_app; subst; try done.
    + by destruct (Hbl x Hx).
    + by destruct (HN x Hin).
  - intros g. apply (sq_rep_frame _ _ _ _ _ HL2); [|apply (sq_rep_frame _ _ _ _ _ HL1); [|done]].
    + intros x Hx [Hin|Hin]%elem_of_app; [by apply (Hfo x g)|]. destruct (HN x Hin) as [_ Hn]. by apply (Hn g).
    + intros x Hx [->|Hin]%elem_of_cons; [by apply (HbO g)|]. destruct (Hbl x Hin) as [_ Hn]. by apply (Hn g).
  - intros x g [Hx|Hx]%elem_of_app; [by apply Hfo|by apply HN].
  - done.
  - intros x [Hx|Hx%list_elem_of_singleton]%elem_of_app.
    + destruct (Hbl x Hx) as [H1 H2]. split; [|done]. intros [Hin|Hin]%elem_of_app; [done|by destruct (HN x Hin)].
    + subst x. split; [|done]. by intros [?|?]%elem_of_app.
Qed.
