(* ===== verification/MqueueTheorems.v ===== *)
(** * Message queues: the results *)

From stdpp Require Import base tactics numbers sets list sorting.
From S2P Require Import Prelude Queue QueueProps Sched SchedProps SchedOps SchedKernel SchedTheorems Sem SemSystem.
From S2P Require Import Mqueue MqueueMsgs MqueueInv MqueueCalls MqueueInit.

(** ** What a run has done *)

(** The messages sent to a queue, those taken from it, those a task has taken, and
    those its calls have returned. *)
Definition sent_to (q : Z) (obs : list mq_obs) : list (Z * list Z) :=
  omap (fun o => match o with ObsSent q' m => if q' =? q then Some m else None | _ => None end) obs.
Definition taken_from (q : Z) (obs : list mq_obs) : list (Z * list Z) :=
  omap (fun o => match o with ObsTaken _ q' m => if q' =? q then Some m else None | _ => None end) obs.
Definition taken_for (x : Z) (obs : list mq_obs) : list (Z * list Z) :=
  omap (fun o => match o with ObsTaken x' _ m => if x' =? x then Some m else None | _ => None end) obs.
Definition received_by (x : Z) (obs : list mq_obs) : list (Z * list Z) :=
  omap (fun o => match o with ObsReceived x' m => if x' =? x then Some m else None | _ => None end) obs.

(** The messages of one priority. *)
Definition of_prio (p : Z) (l : list (Z * list Z)) : list (Z * list Z) := filter (fun m => m.1 = p) l.

(** Highest priorities first. *)
Abbreviation by_prio := (StronglySorted (fun m m' : Z * list Z => m'.1 <= m.1)).

Lemma by_prio_insert m l : by_prio l -> by_prio (pq_insert m l).
Proof.
  induction 1 as [|m' l Hs IH Hm']; simpl; [repeat constructor|]. rewrite Forall_forall in Hm'. destruct (Z.leb_spec m.1 m'.1).
  - constructor; [done|]. apply Forall_forall. intros y Hy. assert (y = m \/ y ∈ l) as [->|Hin]; [|done|by apply Hm'].
    clear -Hy. induction l as [|z l IH]; simpl in Hy; [set_solver|]. destruct (_ <=? _); set_solver.
  - constructor; [constructor; [done|by apply Forall_forall]|]. constructor; [lia|]. apply Forall_forall. intros y Hy. specialize (Hm' y Hy). simpl in Hm'. lia.
Qed.

(** A message goes behind those of its priority. *)
Lemma of_prio_insert p m l : by_prio l -> of_prio p (pq_insert m l) = of_prio p l ++ of_prio p [m].
Proof.
  unfold of_prio. induction 1 as [|m' l Hs IH Hm']; [done|]. cbn [pq_insert]. destruct (Z.leb_spec m.1 m'.1) as [Hle|Hlt].
  - rewrite !filter_cons. destruct (decide (m'.1 = p)); rewrite IH; by rewrite filter_cons.
  - destruct (decide (m.1 = p)) as [Hp|Hp]; [|rewrite (filter_cons_False _ m), (filter_cons_False _ m) by done; by rewrite app_nil_r].
    assert (filter (fun m => m.1 = p) (m' :: l) = []) as E.
    { apply elem_of_nil_inv. intros y [Hyp Hy]%list_elem_of_filter. rewrite Forall_forall in Hm'. apply elem_of_cons in Hy as [->|Hy]; [lia|]. specialize (Hm' y Hy). simpl in Hm'. lia. }
    rewrite (filter_cons_True _ m), E by done. by rewrite filter_cons_True.
Qed.

(** What the steps of priority queues conserve. *)
Lemma pq_steps_conserve S obs S' q :
  pq_steps S obs S' -> by_prio (pq S q) ->
  by_prio (pq S' q) /\ (forall p, of_prio p (pq S q) ++ of_prio p (sent_to q obs) = of_prio p (taken_from q obs) ++ of_prio p (pq S' q)).
Proof.
  induction 1 as [S|S S1 S2 o os Ho Hos IH]; intros Hs; [split; [done|]; intros p; by rewrite app_nil_r|].
  assert (by_prio (pq S1 q) /\ forall p, of_prio p (pq S q) ++ of_prio p (sent_to q [o]) = of_prio p (taken_from q [o]) ++ of_prio p (pq S1 q)) as [Hs1 H1].
  { destruct Ho as [q' m|x q' m l El _|x m _]; cbn [pq sent_to taken_from omap list_omap]; unfold upd.
    - destruct (Z.eqb_spec q' q) as [->|Hne]; [rewrite Z.eqb_refl; split; [by apply by_prio_insert|intros p; by rewrite of_prio_insert]|].
      rewrite (proj2 (Z.eqb_neq q q')) by congruence. split; [done|]. intros p. by rewrite app_nil_r.
    - destruct (Z.eqb_spec q' q) as [->|Hne]; [rewrite Z.eqb_refl, El; rewrite El in Hs; split; [by inversion Hs|]|].
      + intros p. rewrite app_nil_r. unfold of_prio. rewrite <- filter_app. done.
      + rewrite (proj2 (Z.eqb_neq q q')) by congruence. split; [done|]. intros p. by rewrite app_nil_r.
    - split; [done|]. intros p. by rewrite app_nil_r. }
  destruct (IH Hs1) as [Hs2 H2]. split; [done|]. intros p. unfold sent_to, taken_from in *. change (o :: os) with ([o] ++ os). rewrite !omap_app.
  unfold of_prio in *. rewrite !filter_app, (assoc_L (++)), H1, <- (assoc_L (++)), H2, (assoc_L (++)). done.
Qed.

Lemma pq_steps_hands S obs S' x :
  pq_steps S obs S' -> option_list (taken S x) ++ taken_for x obs = received_by x obs ++ option_list (taken S' x).
Proof.
  induction 1 as [S|S S1 S2 o os Ho Hos IH]; [by rewrite app_nil_r|]. unfold taken_for, received_by in *.
  destruct Ho as [q m|y q m l El Ht|y m Ht]; cbn [omap list_omap taken] in *; unfold upd in IH.
  - exact IH.
  - destruct (Z.eqb_spec y x) as [->|Hne]; [rewrite Z.eqb_refl in IH; rewrite Ht; exact IH|]. rewrite (proj2 (Z.eqb_neq x y)) in IH by congruence. exact IH.
  - destruct (Z.eqb_spec y x) as [->|Hne]; [rewrite Z.eqb_refl in IH; rewrite Ht; simpl; f_equal; exact IH|]. rewrite (proj2 (Z.eqb_neq x y)) in IH by congruence. exact IH.
Qed.

(** ** Consequences of the invariant *)

Lemma contents_sorted P s G q : msg_inv P s G -> q <> 0 -> by_prio (queue_contents s q).
Proof.
  intros Hm Hq. rewrite (queue_contents_rep P s G q Hm Hq). pose proof (mi_order _ _ _ Hm q Hq) as Ho. unfold contents.
  induction Ho as [|m l Hs IH Hl]; simpl; constructor; [done|]. rewrite Forall_forall in Hl. apply Forall_forall. intros y Hy.
  apply list_elem_of_In, in_map_iff in Hy as (z & <- & Hz%list_elem_of_In). by apply Hl.
Qed.

Lemma ok_sorted T idle P DS MX MS w q : mq_ok T idle P DS MX MS w -> q <> 0 -> by_prio (queue_contents (ms w) q).
Proof. intros (_ & _ & A & G & Hi) Hq. by apply (contents_sorted P _ G); [apply (qi_msgs Hi)|]. Qed.

(** The runs that may happen, from a state that is ok. *)
Lemma run_to_ok T idle P DS MX MS w es w' obs :
  mq_ok T idle P DS MX MS w -> mq_valid T idle w es -> mq_run w es = Some (w', obs) -> mq_ok T idle P DS MX MS w'.
Proof. intros Hok Hv E. destruct (mq_run_ok T idle P DS MX MS w es Hok Hv) as (w1 & o1 & S & E1 & Hok1 & _). congruence. Qed.

Lemma rcredit_ext D D' p w e q : (forall d, D d = D' d) -> rcredit D p w e q = rcredit D' p w e q.
Proof. intros HD. destruct p; simpl; by rewrite ?HD. Qed.

Lemma scredit_ext D D' p w e q : (forall d, D d = D' d) -> scredit D p w e q = scredit D' p w e q.
Proof. intros HD. destruct p; simpl; by rewrite ?HD. Qed.

(** ** Theorems *)

(** The state reached and the messages seen are those of priority queues. *)
Definition runs_as_queues (T : list Z) (idle : Z) (P : list Z) (DS : Z -> mq_des) (MX MS : Z -> Z)
    (w : mq_sys) (es : list mq_event) (w' : mq_sys) (obs : list mq_obs) : Prop :=
  mq_run w es = Some (w', obs) /\ mq_ok T idle P DS MX MS w' /\
  exists S, pq_steps (view w) obs S /\
    (forall q, q <> 0 -> pq S q = queue_contents (ms w') q) /\ (forall x, x ∈ T -> taken S x = taken_by (ms w') (mpcs w' x)).

(** C8: The message queues implement priority queues, up to one race.  From a
    state that satisfies the invariant, take any sequence of calls of mq_send
    and mq_receive, of the pieces of these calls that different tasks run in
    turn, and of interrupts that send, end waits or end time slices, in which
    the callers do their duties (open descriptors, lock counts in range, fresh
    memory from the heap).  It runs without a failed assertion or a null
    dereference, keeps the invariant, and what it shows (messages put into
    queues, taken out of them, and returned to callers) is a run of priority
    queues: a message goes behind the messages of its priority, the first
    message is taken, and the caller gets what its task has taken.  The one
    exception: this holds only up to the point, if there is one, at which a
    timeout or a signal ends the wait of the last sender waiting for a queue
    after a receiver has seen it and before the receiver wakes it, which is
    the race of [mq_receive_races_timeout]. *)
Theorem mqueues_refine_priority_queues T idle P DS MX MS w es :
  mq_ok T idle P DS MX MS w -> mq_dutiful T idle w es ->
  (exists w' obs, runs_as_queues T idle P DS MX MS w es w' obs) \/
  (exists es1 x errcode es2 w1 obs, es = es1 ++ MqIrqTimeout x errcode :: es2 /\
     runs_as_queues T idle P DS MX MS w es1 w1 obs /\ last_sender w1 x = true).
Proof.
  intros Hok Hd. destruct (dutiful_until_race T idle es w Hd) as [Hv|(es1 & x & errcode & es2 & -> & Hv & Hl)].
  - left. destruct (mq_run_ok T idle P DS MX MS w es Hok Hv) as (w' & obs & S & ? & ? & ? & ? & ?). exists w', obs. split_and!; [done|done|by exists S].
  - right. destruct (mq_run_ok T idle P DS MX MS w es1 Hok Hv) as (w1 & obs & S & Hrun & ? & ? & ? & ?).
    exists es1, x, errcode, es2, w1, obs. split; [done|]. split; [split_and!; [done|done|by exists S]|by apply (Hl w1 obs)].
Qed.

(** C9: No message is lost, duplicated or overtaken by one of its own priority:
    over any run, the messages of a priority that were in a queue or have
    been sent to it are, in this order, those taken from it followed by those
    still in it; the queue holds higher priorities first; and a task's calls
    return the messages the task has taken, in the order it took them. *)
Theorem messages_fifo_by_priority T idle P DS MX MS w es w' obs :
  mq_ok T idle P DS MX MS w -> mq_valid T idle w es -> mq_run w es = Some (w', obs) ->
  (forall q, q <> 0 -> by_prio (queue_contents (ms w') q) /\
     forall p, of_prio p (queue_contents (ms w) q) ++ of_prio p (sent_to q obs) = of_prio p (taken_from q obs) ++ of_prio p (queue_contents (ms w') q)) /\
  (forall x, x ∈ T -> option_list (taken_by (ms w) (mpcs w x)) ++ taken_for x obs = received_by x obs ++ option_list (taken_by (ms w') (mpcs w' x))).
Proof.
  intros Hok Hv E. destruct (mq_run_ok T idle P DS MX MS w es Hok Hv) as (w1 & o1 & S & E1 & Hok1 & Hs & HS & Ht). rewrite E in E1. injection E1 as <- <-. split.
  - intros q Hq. destruct (pq_steps_conserve _ _ _ q Hs) as [H1 H2]; [by apply (ok_sorted T idle P DS MX MS)|]. rewrite HS in H1, H2 by done. done.
  - intros x Hx. rewrite <- Ht by done. apply (pq_steps_hands _ _ _ x Hs).
Qed.

(** C10: No wake-up is lost: in every state of a run the counters of a queue are
    the numbers of tasks that wait for it, and if one of them waits for a
    message while there is one, or for room while there is some, then some
    task has been woken and will look, or is about to wake another one. *)
Theorem mq_wakeups_not_lost T idle P DS MX MS w es w' obs q :
  mq_ok T idle P DS MX MS w -> mq_valid T idle w es -> mq_run w es = Some (w', obs) -> q <> 0 ->
  let s := ms w' in
  let Q := mpcs w' in
  nwaitnotempty (msgqs s q) = tally (fun x => rwaits (Q x) (msgwaitq s x) q) T /\
  nwaitnotfull (msgqs s q) = tally (fun x => swaits (Q x) (msgwaitq s x) q) T /\
  (forall x, x ∈ T -> rwaits (Q x) (msgwaitq s x) q = true -> queue_contents s q <> [] ->
     exists y, y ∈ T /\ rcredit (queue_of s) (Q y) (msgwaitq s y) (err (qk s) y) q = true) /\
  (forall x, x ∈ T -> swaits (Q x) (msgwaitq s x) q = true -> Z.of_nat (length (queue_contents s q)) < maxmsgs (msgqs s q) ->
     exists y, y ∈ T /\ scredit (queue_of s) (Q y) (msgwaitq s y) (err (qk s) y) q = true).
Proof.
  intros Hok Hv E Hq s Q. destruct (run_to_ok T idle P DS MX MS w es w' obs Hok Hv E) as (_ & _ & A & G & Hi). fold s Q in Hi.
  pose proof (inv_queue T idle P DS MX MS s Q A G) as HD. destruct (qi_books Hi) as [He Hf Hr Hs _]. specialize (He q Hq). specialize (Hf q Hq). specialize (Hr q Hq). specialize (Hs q Hq). simpl in *.
  pose proof (mi_count _ _ _ (qi_msgs Hi) q Hq) as Hc. rewrite (queue_contents_rep P s G q (qi_msgs Hi) Hq). unfold contents. rewrite length_map, <- Hc. split_and!; [done|done| |].
  - intros x Hx Hw Hne. assert (0 < nwaitnotempty (msgqs s q)) as Hpos by (rewrite He; by apply (tally_member _ _ x)). specialize (Hr Hpos).
    assert (0 < nmsgs (msgqs s q)) as Hn by (rewrite Hc; destruct (G (PQueue q)); [done|simpl; lia]).
    destruct (tally_pos (fun x => rcredit (queue_id DS) (Q x) (msgwaitq s x) (err (qk s) x) q) T) as (y & Hy & Hcr); [lia|].
    exists y. split; [done|]. rewrite <- Hcr. apply rcredit_ext. intros d. by apply HD.
  - intros x Hx Hw Hroom. assert (0 < nwaitnotfull (msgqs s q)) as Hpos by (rewrite Hf; by apply (tally_member _ _ x)). specialize (Hs Hpos).
    destruct (tally_pos (fun x => scredit (queue_id DS) (Q x) (msgwaitq s x) (err (qk s) x) q) T) as (y & Hy & Hcr); [lia|].
    exists y. split; [done|]. rewrite <- Hcr. apply scredit_ext. intros d. by apply HD.
Qed.

(** C37: The 16-bit counters never wrap around: in every state of a run a queue
    counts the messages it has, of which there are at most as many as it may
    hold and twelve more (the preallocated messages that interrupt handlers
    may add to a full queue); at most sixteen tasks wait for it. *)
Theorem mq_counters_bounded T idle P DS MX MS w es w' obs q :
  mq_ok T idle P DS MX MS w -> length P = 12%nat -> mq_valid T idle w es -> mq_run w es = Some (w', obs) -> q <> 0 ->
  let v := msgqs (ms w') q in
  nmsgs v = Z.of_nat (length (queue_contents (ms w') q)) /\ nmsgs v <= Z.max 0 (maxmsgs v) + 12 < 32767 /\
  0 <= nwaitnotempty v <= 16 /\ 0 <= nwaitnotfull v <= 16.
Proof.
  intros Hok HP Hv E Hq v. destruct (run_to_ok T idle P DS MX MS w es w' obs Hok Hv E) as (_ & [HMX _] & A & G & Hi).
  pose proof (inv_bounds q Hi Hq) as (Hn & Hf & He). destruct (qi_static Hi) as [_ Hst]. destruct (Hst q) as [EMX _]. specialize (HMX q). fold v in Hn, Hf, He, EMX. rewrite HP in *.
  rewrite (queue_contents_rep P _ G q (qi_msgs Hi) Hq). unfold contents. rewrite length_map, <- (mi_count _ _ _ (qi_msgs Hi) q Hq). fold v. rewrite EMX. split_and!; [done|lia..].
Qed.

(** ** The start and the end *)

(** C38: mq_initialize, on a system whose tasks do not wait for queues and whose
    queues are as mq_msgqalloc makes them, returns with the invariant of the
    runs: the pools hold the four general and the eight reserved messages, and
    the 24 descriptors of the block are free. *)
Theorem mq_initialize_ready T idle A s dl attrs b1 b2 b3 :
  NoDup T -> sched_ok T idle (qk s) A -> all_listed T A -> in_irq (qk s) = false ->
  (forall x, x ∈ T -> (x ∉ A g_waitingformqnotempty) /\ (x ∉ A g_waitingformqnotfull) /\ msgwaitq s x = 0) ->
  (forall q, attr_ok (attrs q) /\ mq_msgqalloc (attrs q) = Some (msgqs s q)) ->
  NoDup (pools b1 b2) -> 0 ∉ pools b1 b2 -> g_desfree dl = empty_queue -> (forall g, tg_msgdesq dl g = empty_queue) ->
  NoDup (b3 :: new_des b3) -> 0 ∉ b3 :: new_des b3 ->
  exists s' dl', mq_initialize s dl b1 b2 b3 = Some (s', dl') /\ des_rep dl' (new_des b3) [b3] (fun _ => []) /\
    mq_ok T idle (pools b1 b2) (descs s') (fun q => maxmsgs (msgqs s' q)) (fun q => maxmsgsize (msgqs s' q)) (mk_mqsys s' (fun _ => PcNone)).
Proof.
  intros HT Hok Hl Hirq Hidle HQ Hnd H0 Hf Ho Hnd3 H03. destruct (start_ok T idle A s attrs b1 b2) as (s' & E & _ & Hmq); try done.
  destruct (desblockalloc_spec (mk_des_lists (dlinks dl) (g_desfree dl) empty_queue (tg_msgdesq dl)) [] [] (fun _ => []) b3) as (dl' & E' & Hd); [|done|done| |].
  - constructor; cbn [dlinks g_desfree g_desalloc tg_msgdesq]; try (intros; by apply not_elem_of_nil); [rewrite Hf; apply sq_rep_empty|apply sq_rep_empty|intros g; rewrite Ho; apply sq_rep_empty| |].
    + intros d g1 g2 Hin. by apply elem_of_nil in Hin.
    + intros d Hin. by apply elem_of_nil in Hin.
  - intros x _. split; [apply not_elem_of_nil|intros g; apply not_elem_of_nil].
  - exists s', dl'. split; [|done]. unfold mq_initialize. rewrite E. cbn [mbind option_bind]. by rewrite E'.
Qed.

(** mq_msgqfree gives the messages of a queue back: the preallocated ones are
    in the pool of their kind again, whatever their order in the queue, no
    other queue changes, and no preallocated message is lost. *)
Theorem mq_msgqfree_returns_messages P s G q :
  msg_inv P s G -> G PHand = [] -> q <> 0 ->
  exists s' G', mq_msgqfree s q = Some s' /\ msg_inv P (emptied q s') G' /\ G' (PQueue q) = [] /\ G' PHand = [] /\
    (forall q', q' <> q -> q' <> 0 -> G' (PQueue q') = G (PQueue q') /\ queue_contents s' q' = queue_contents s q') /\
    (forall m, m ∈ G' PFree <-> m ∈ G PFree \/ m ∈ G (PQueue q) /\ m_type (msgs s m) = MQ_ALLOC_FIXED) /\
    (forall m, m ∈ G' PIrq <-> m ∈ G PIrq \/ m ∈ G (PQueue q) /\ m_type (msgs s m) = MQ_ALLOC_IRQ).
Proof.
  intros Hi Hh Hq. pose proof (emptied_inv P s G q Hi Hq Hh) as Hi1. set (G1 := set_place _ _ _) in Hi1.
  assert (hdr s (PQueue q) = Some (msglist (msgqs s q))) as Hhd by (simpl; by rewrite (proj2 (Z.eqb_neq q 0))).
  pose proof (mr_list _ _ (mi_rep _ _ _ Hi) _ _ Hhd) as Hr. pose proof (mi_count _ _ _ Hi q Hq) as Hc.
  destruct (msgqfree_loop_spec P (G (PQueue q)) (msg_fuel s q) (emptied q s) G1 Hi1) as (s2 & G2 & E & Hi2 & Hh2 & HQ2 & (U1 & U2 & U3 & U4) & EM & HF & HI).
  { unfold G1. by rewrite set_place_eq. }
  { apply Hr. }
  { unfold msg_fuel. rewrite Hc. lia. }
  rewrite msgqfree_emptied in E. destruct (msgqfree_loop (msg_fuel s q) s (hd_or (G (PQueue q)) 0)) as [s'|] eqn:E'; [|done]. injection E as <-.
  exists s', G2. unfold mq_msgqfree. rewrite (sq_head _ _ _ Hr). split; [done|]. split; [done|]. split; [rewrite HQ2; unfold G1; by rewrite set_place_ne, set_place_eq|]. split; [done|]. split.
  - intros q' Hne Hq'. assert (G2 (PQueue q') = G (PQueue q')) as EG by (rewrite HQ2; unfold G1; by rewrite !set_place_ne by congruence). split; [done|].
    rewrite (queue_contents_rep P s G q' Hi Hq'), <- EG. transitivity (queue_contents (emptied q s') q').
    + unfold queue_contents, emptied. simpl. by rewrite !upd_ne by done.
    + rewrite (queue_contents_rep P _ G2 q' Hi2 Hq'). apply contents_ext. intros y _. by rewrite EM.
  - split; intros m; [rewrite HF|rewrite HI]; unfold G1; by rewrite !set_place_ne.
Qed.

(** Opening a descriptor for the running task and closing it again gives it
    back: it is the last of the free ones, the lists of the groups are as
    before, and a notification that was attached through it is gone. *)
Theorem mq_descriptor_roundtrip fuel group s dl F B O q flags heap d :
  des_rep dl (d :: F) B O -> let g := group (rtr_head (qk s)) in g <> 0 -> (length (O g) < fuel)%nat ->
  exists s1 dl1 s2 dl2, mq_descreate group s dl 0 q flags heap = Some (s1, dl1, d) /\ queue_of s1 d = q /\ oflags (descs s1 d) = flags /\
    mq_desclose fuel group s1 dl1 d = Some (s2, dl2) /\ ntmqdes (msgqs s2 q) <> d /\
    exists O', des_rep dl2 (F ++ [d]) B O' /\ forall g', O' g' = O g'.
Proof.
  intros Hd g Hg Hfuel. destruct (descreate_spec group s dl F B O 0 q flags heap d Hd) as (dl1 & E1 & Hd1); [done|]. cbn [Z.eqb] in Hd1. fold g in Hd1.
  set (s1 := set_desc d (mk_des q flags) s) in *. assert (queue_of s1 d = q) as Eq by (unfold queue_of; simpl; by rewrite upd_eq).
  destruct (desclose_spec fuel group s1 dl1 F B _ (O g) d [] Hd1) as (s2 & dl2 & E2 & Hd2 & Es); [done|simpl; fold g; by rewrite upd_eq|done|].
  assert (d <> 0) as Hd0 by (intros ->; apply (sq_null _ _ _ (dr_free _ _ _ _ Hd)), elem_of_cons; by left).
  exists s1, dl1, s2, dl2. split; [done|]. split; [done|]. split; [simpl; by rewrite upd_eq|]. split; [done|]. split.
  - rewrite Es, Eq. destruct (Z.eqb_spec (ntmqdes (msgqs s1 q)) d) as [|Hne]; [|done]. simpl. rewrite upd_eq. simpl. congruence.
  - eexists. split; [done|]. intros g'. simpl. fold g. rewrite app_nil_r. unfold upd. destruct (Z.eqb_spec g' g) as [Eg|]; [by rewrite Eg|done].
Qed.

(** ** The race between a receiver and a timeout *)

Lemma find_mqwaiter_none fuel s q l :
  seg (flink (lk (qk s))) l 0 -> 0 ∉ l -> (length l < fuel)%nat -> (forall y, y ∈ l -> msgwaitq s y <> q) -> find_mqwaiter fuel s q (hd_or l 0) = Some 0.
Proof.
  revert l. induction fuel as [|fuel IH]; intros l Hs H0 Hf Hn; [lia|]. simpl. destruct l as [|x l]; [done|]. simpl in *.
  destruct (Z.eqb_spec x 0) as [->|_]; [set_solver|]. destruct (Z.eqb_spec (msgwaitq s x) q) as [Hx|_]; [by destruct (Hn x ltac:(set_solver))|].
  destruct Hs as [-> Hs]. apply IH; [done|set_solver|lia|]. intros y Hy. apply Hn. set_solver.
Qed.

(** Nobody waits for room in a queue whose counter is zero. *)
Lemma no_sender T idle P DS MX MS s Q A G s' A' G' q :
  handled T idle P DS MX MS s Q A G s' A' G' -> q <> 0 -> nwaitnotfull (msgqs s' q) = 0 ->
  forall dec, wake_waiter s' q g_waitingformqnotfull dec = None.
Proof.
  intros Hh Hq Hz dec. pose proof (ok_inv _ _ _ _ (ha_ok _ _ _ _ _ _ _ _ _ _ _ _ _ Hh)) as Hsi. pose proof (kr_list _ _ (si_rep _ _ _ _ Hsi) g_waitingformqnotfull) as Hr.
  unfold wake_waiter. rewrite (dq_head _ _ _ Hr), (find_mqwaiter_none list_fuel s' q (A' g_waitingformqnotfull)); [done|apply Hr|apply Hr| |].
  - pose proof (si_length _ _ _ _ g_waitingformqnotfull Hsi) as Hlen. change max_tasks with 16%nat in Hlen. change list_fuel with 17%nat. lia.
  - intros y Hy Ew. pose proof (si_tasks _ _ _ _ Hsi _ _ Hy) as HyT. apply (ha_lists _ _ _ _ _ _ _ _ _ _ _ _ _ Hh y HyT) in Hy as [Hsnd _].
    pose proof (mb_full _ _ _ _ _ _ (ha_books _ _ _ _ _ _ _ _ _ _ _ _ _ Hh) q Hq) as Hc. simpl in Hc. rewrite Hz in Hc.
    pose proof (tally_member (fun x => swaits (Q x) (msgwaitq s' x) q) T y HyT) as Ht. cbn beta in Ht. rewrite <- Hc in Ht.
    assert (0 < 0); [|lia]. apply Ht. rewrite Ew. destruct (Q y); try done. simpl. apply Z.eqb_refl.
Qed.

(** C33: mq_doreceive tests for waiting senders with interrupts on and searches for
    one later: if in between the wait of the last one ends by a timeout or a
    signal, the search finds nobody and the assertion in mq_doreceive fails. *)
Theorem mq_receive_races_timeout T idle P DS MX MS w x errcode :
  mq_ok T idle P DS MX MS w -> x ∈ T -> errcode <> 0 -> last_sender w x = true ->
  exists w', mq_exec w (MqIrqTimeout x errcode) = Some (w', []) /\ forall heap, mq_exec w' (MqStep heap) = None.
Proof.
  intros (HT & Hsz & A & G & Hi) HxT He Hls. destruct (mq_running Hi) as (HrT & _ & _ & Hcpu & _). unfold last_sender in Hls. rewrite Hcpu in Hls.
  destruct (mpcs w (running A)) as [| | | | | | | | |d r] eqn:EQ; try done. rewrite (inv_queue T idle P DS MX MS _ _ A G d Hi) in Hls.
  apply andb_true_iff in Hls as [[Hsnd Hw%Z.eqb_eq]%andb_true_iff Hone%Z.eqb_eq].
  pose proof (mb_pc _ _ _ _ _ _ (qi_books Hi) _ HrT) as Hpc. rewrite EQ in Hpc. destruct Hpc as [_ HD]. pose proof (qi_lock Hi _ HrT) as Hlk. rewrite EQ in Hlk. simpl in Hlk.
  assert (x ∈ A (wait_of true).2) as Hin by (apply (qi_lists Hi x HxT); split; [done|congruence]).
  destruct (waitirq_waiting T idle P DS MX MS HT _ _ A G true x errcode Hi Hin He) as (k' & A' & E & Hh). rewrite Hw in E, Hh.
  destruct (woken_state T idle P DS MX MS _ _ A G true x k' Hi Hin) as (_ & _ & _ & Hcnt). rewrite Hw in Hcnt. specialize (Hcnt _ HD).
  apply (f_equal c_full) in Hcnt. set (s' := set_qk k' _) in *. cbn [c_full count_q] in Hcnt. rewrite Hone, Z.eqb_refl in Hcnt.
  cbn [mq_exec]. unfold mq_handler. rewrite E. cbn [mbind option_bind]. eexists. split; [done|]. intros heap. cbn [mq_exec ms mpcs].
  assert (cpu (qk (set_irq false s')) = running A) as ->.
  { change (cpu (qk s') = running A). rewrite (ok_cpu _ _ _ _ (ha_ok _ _ _ _ _ _ _ _ _ _ _ _ _ Hh)). apply (ha_run _ _ _ _ _ _ _ _ _ _ _ _ _ Hh). lia. }
  rewrite EQ. cbn [mq_step]. unfold mq_doreceive_wake.
  assert (queue_of (set_irq false s') d = queue_id DS d) as -> by (unfold queue_of; simpl; by destruct (qi_static Hi) as [-> _]).
  assert (handled T idle P DS MX MS (ms w) (mpcs w) A G (set_irq false s') A' G) as Hh'.
  { destruct Hh. constructor; try done; [by apply ok_irq|by apply msg_inv_kernel]. }
  by rewrite (no_sender T idle P DS MX MS _ _ A G _ A' G _ Hh').
Qed.

(** mq_notify with a null descriptor returns EBADF, and releases one level of
    the caller's preemption lock, which it has not taken. *)
Lemma mq_notify_null_unlocks T idle s A n :
  sched_ok T idle (qk s) A -> in_irq (qk s) = false ->
  exists s', mq_notify s 0 n = Some (s', ERROR) /\ err (qk s') (running A) = EBADF /\ lock (qk s') (running A) = Z.max 0 (lock (qk s) (running A) - 1).
Proof.
  intros Hok Hirq. unfold mq_notify. cbn [Z.eqb]. destruct (errno_task T idle (qk s) A EBADF Hok Hirq) as (Hok1 & Hirq1 & Hl1 & _ & He1).
  destruct (unlock_task T idle (qk (mq_errno s EBADF)) A Hok1 Hirq1) as (k' & A' & -> & _ & _ & HE & _ & Hl & _). cbn [mbind option_bind]. eexists. split; [done|].
  simpl. rewrite HE, Hl. simpl. by rewrite He1, Hl1.
Qed.

(** ** A small system

    The tasks of [demo_kernel]; the queue 100 holds one message, and is open for
    reading and writing as descriptor 1. *)

(** A sufficient test for the events that may happen. *)
Definition event_validb (T : list Z) (idle : Z) (w : mq_sys) (e : mq_event) : bool :=
  let s := ms w in
  let me := cpu (qk s) in
  let free := match mpcs w me with PcNone => true | _ => false end in
  match e with
  | MqSend d _ _ | MqReceive d _ _ => free && negb (me =? idle) && (lock (qk s) me + 2 <=? MAX_LOCK_COUNT) && ((d =? 0) || negb (queue_of s d =? 0))
  | MqStep _ => match mpcs w me with PcNone => false | PcSendAlloc _ _ _ => negb (head (g_msgfree s) =? 0) | _ => true end
  | MqLock => free && (lock (qk s) me <? MAX_LOCK_COUNT)
  | MqUnlock => free
  | MqIrqSend d _ _ => (d =? 0) || negb (queue_of s d =? 0)
  | MqIrqTimeout x errcode => bool_decide (x ∈ T) && negb (errcode =? 0) && negb (last_sender w x)
  | MqIrqTick => true
  end.

Fixpoint run_validb (T : list Z) (idle : Z) (w : mq_sys) (es : list mq_event) : bool :=
  match es with
  | [] => true
  | e :: es => event_validb T idle w e && match mq_exec w e with Some (w', _) => run_validb T idle w' es | None => false end
  end.

Lemma event_validb_valid T idle w e : event_validb T idle w e = true -> mq_event_valid T idle w e.
Proof.
  unfold event_validb, mq_event_valid, mq_duties, races. destruct e; destruct (mpcs w (cpu (qk (ms w)))); cbn [andb]; intros H; try done;
    rewrite ?andb_true_iff, ?orb_true_iff, ?negb_true_iff, ?Z.eqb_eq, ?Z.eqb_neq, ?Z.leb_le, ?Z.ltb_lt, ?bool_decide_eq_true in H; tauto.
Qed.

Lemma run_validb_valid T idle es w : run_validb T idle w es = true -> mq_valid T idle w es.
Proof.
  revert w. induction es as [|e es IH]; intros w; [done|]. cbn [run_validb mq_valid]. intros [He Hes]%andb_true_iff. split; [by apply event_validb_valid|].
  intros w' obs E. rewrite E in Hes. by apply IH.
Qed.

Lemma valid_dutiful T idle es w : mq_valid T idle w es -> mq_dutiful T idle w es.
Proof. revert w. induction es as [|e es IH]; intros w; [done|]. intros [[He _] Hes]. split; [done|]. intros w' obs E. by eapply IH, Hes. Qed.

Definition demo_attr (_ : Z) : option (Z * Z) := Some (1, 16).

Definition demo_mq_start : mq_state :=
  mk_mq demo_kernel (mk_links (fun _ => 0) (fun _ => 0)) (fun _ => mk_msg MQ_ALLOC_DYN 0 0 [])
    (fun _ => mk_msgq (mk_queue 0 0) 1 0 0 0 16 0 INVALID_PROCESS_ID 0 0) (fun d => if d =? 1 then mk_des 100 3 else mk_des 0 0) (fun _ => 0)
    (mk_queue 0 0) (mk_queue 0 0) [].

Definition demo_mq : mq_state := default demo_mq_start (mq_initialize_msgs demo_mq_start 10000 20000).
Definition demo_w : mq_sys := mk_mqsys demo_mq (fun _ => PcNone).

Abbreviation demo_mq_ok := (mq_ok demo_T 8 (pools 10000 20000) (descs demo_mq) (fun q => maxmsgs (msgqs demo_mq q)) (fun q => maxmsgsize (msgqs demo_mq q))).

Lemma demo_starts : demo_mq_ok demo_w.
Proof.
  destruct (start_ok demo_T 8 demo_tasks demo_mq_start demo_attr 10000 20000) as (s' & E & _ & Hok).
  - apply (bool_decide_unpack _). vm_compute. exact I.
  - apply demo_ok.
  - intros x Hx. unfold demo_T in Hx. demo_elem Hx; first [by exists g_readytorun; simpl; set_solver | by exists g_waitingforsemaphore; simpl; set_solver].
  - done.
  - intros x _. split_and!; [apply not_elem_of_nil..|done].
  - intros q. split; [simpl; lia|done].
  - apply (bool_decide_unpack _). vm_compute. exact I.
  - apply (bool_decide_unpack _). vm_compute. exact I.
  - unfold demo_w, demo_mq. rewrite E. exact Hok.
Qed.

(** Task 16 fills the queue and blocks with a second message, of a higher
    priority; task 24 takes the first message and sees that a sender waits. *)
Definition demo_events : list mq_event :=
  [MqSend 1 (Some [72; 105]) 5; MqStep 0; MqStep 0; MqStep 0; MqStep 0; MqSend 1 (Some [33]) 9; MqReceive 1 4 16; MqStep 0; MqStep 0].

Definition demo_reached : mq_sys := default demo_w (fst <$> mq_run demo_w demo_events).
Definition demo_obs : list mq_obs := default [] (snd <$> mq_run demo_w demo_events).

Lemma demo_valid : mq_valid demo_T 8 demo_w demo_events.
Proof. apply run_validb_valid. vm_compute. reflexivity. Qed.

Lemma demo_run : mq_run demo_w demo_events = Some (demo_reached, demo_obs).
Proof.
  unfold demo_reached, demo_obs. destruct (mq_run_ok _ _ _ _ _ _ demo_w demo_events demo_starts demo_valid) as (w' & obs & S & -> & _). done.
Qed.

Lemma mqueues_refine_priority_queues_witness :
  exists w' obs, runs_as_queues demo_T 8 (pools 10000 20000) (descs demo_mq) (fun q => maxmsgs (msgqs demo_mq q)) (fun q => maxmsgsize (msgqs demo_mq q))
    demo_w demo_events w' obs.
Proof.
  destruct (mqueues_refine_priority_queues demo_T 8 (pools 10000 20000) (descs demo_mq) (fun q => maxmsgs (msgqs demo_mq q)) (fun q => maxmsgsize (msgqs demo_mq q))
    demo_w demo_events demo_starts) as [H|(es1 & x & errcode & es2 & w1 & obs & E & _)].
  - apply valid_dutiful, demo_valid.
  - exact H.
  - exfalso. assert (H : MqIrqTimeout x errcode ∈ demo_events) by (rewrite E; apply elem_of_app; right; by left).
    unfold demo_events in H. repeat (apply elem_of_cons in H as [H|H]; [discriminate H|]). by apply elem_of_nil in H.
Defined.

Lemma messages_fifo_by_priority_witness :
  sent_to 100 demo_obs = [(5, [72; 105])] /\ taken_from 100 demo_obs = [(5, [72; 105])] /\ received_by 24 demo_obs = [(5, [72; 105])] /\
  by_prio (queue_contents (ms demo_reached) 100).
Proof.
  split_and!; [vm_compute; reflexivity..|].
  destruct (messages_fifo_by_priority _ _ _ _ _ _ demo_w demo_events demo_reached demo_obs demo_starts demo_valid demo_run) as [H _]. by apply (H 100).
Defined.

Lemma mq_wakeups_not_lost_witness : swaits (mpcs demo_reached 16) (msgwaitq (ms demo_reached) 16) 100 = true /\
  exists y, y ∈ demo_T /\ scredit (queue_of (ms demo_reached)) (mpcs demo_reached y) (msgwaitq (ms demo_reached) y) (err (qk (ms demo_reached)) y) 100 = true.
Proof.
  split; [vm_compute; reflexivity|].
  destruct (mq_wakeups_not_lost _ _ _ _ _ _ demo_w demo_events demo_reached demo_obs 100 demo_starts demo_valid demo_run) as (_ & _ & _ & H); [done|].
  apply (H 16); [apply (bool_decide_unpack _); vm_compute; exact I|vm_compute; reflexivity..].
Defined.

Lemma mq_counters_bounded_witness : nmsgs (msgqs (ms demo_reached) 100) <= 13.
Proof.
  destruct (mq_counters_bounded _ _ _ _ _ _ demo_w demo_events demo_reached demo_obs 100 demo_starts eq_refl demo_valid demo_run) as (_ & [H _] & _); [done|].
  assert (maxmsgs (msgqs (ms demo_reached) 100) = 1) as E by (vm_compute; reflexivity). rewrite E in H. exact H.
Defined.

Lemma mq_receive_races_timeout_witness :
  exists w', mq_exec demo_reached (MqIrqTimeout 16 ETIMEDOUT) = Some (w', []) /\ forall heap, mq_exec w' (MqStep heap) = None.
Proof.
  apply (mq_receive_races_timeout demo_T 8 (pools 10000 20000) (descs demo_mq) (fun q => maxmsgs (msgqs demo_mq q)) (fun q => maxmsgsize (msgqs demo_mq q))).
  - apply (run_to_ok _ _ _ _ _ _ demo_w demo_events demo_reached demo_obs demo_starts demo_valid demo_run).
  - apply (bool_decide_unpack _). vm_compute. exact I.
  - done.
  - vm_compute. reflexivity.
Defined.

Definition demo_dl : des_lists := mk_des_lists (mk_links (fun _ => 0) (fun _ => 0)) empty_queue empty_queue (fun _ => empty_queue).

Lemma mq_initialize_ready_witness :
  exists s' dl', mq_initialize demo_mq_start demo_dl 10000 20000 30000 = Some (s', dl') /\ des_rep dl' (new_des 30000) [30000] (fun _ => []).
Proof.
  destruct (mq_initialize_ready demo_T 8 demo_tasks demo_mq_start demo_dl demo_attr 10000 20000 30000) as (s' & dl' & E & Hd & _).
  - apply (bool_decide_unpack _). vm_compute. exact I.
  - apply demo_ok.
  - intros x Hx. unfold demo_T in Hx. demo_elem Hx; first [by exists g_readytorun; simpl; set_solver | by exists g_waitingforsemaphore; simpl; set_solver].
  - done.
  - intros x _. split_and!; [apply not_elem_of_nil..|done].
  - intros q. split; [simpl; lia|done].
  - apply (bool_decide_unpack _). vm_compute. exact I.
  - apply (bool_decide_unpack _). vm_compute. exact I.
  - done.
  - done.
  - apply (bool_decide_unpack _). vm_compute. exact I.
  - apply (bool_decide_unpack _). vm_compute. exact I.
  - exists s', dl'. split; [exact E|exact Hd].
Defined.

(** After the first call of [demo_events] the queue holds a message of the
    general pool. *)
Definition demo_sent : mq_sys := default demo_w (fst <$> mq_run demo_w (take 5 demo_events)).

Lemma mq_msgqfree_returns_messages_witness :
  exists (G : ghost) s' (G' : ghost), G (PQueue 100) <> [] /\ mq_msgqfree (ms demo_sent) 100 = Some s' /\ msg_inv (pools 10000 20000) (emptied 100 s') G' /\ 10000 ∈ G' PFree.
Proof.
  destruct (mq_run_ok _ _ _ _ _ _ demo_w (take 5 demo_events) demo_starts) as (w & obs & S & E & (_ & _ & A & G & Hi) & _); [apply run_validb_valid; vm_compute; reflexivity|].
  assert (w = demo_sent) as -> by (unfold demo_sent; by rewrite E). pose proof (qi_msgs Hi) as Hm.
  assert (G PHand = []) as Hh.
  { rewrite (qi_hand Hi). destruct (mq_running Hi) as (_ & _ & _ & <- & _). vm_compute. reflexivity. }
  assert (G (PQueue 100) = [10000]) as Hq.
  { pose proof (mr_list _ _ (mi_rep _ _ _ Hm) (PQueue 100) _ eq_refl) as Hr. pose proof (mi_count _ _ _ Hm 100 ltac:(done)) as Hc.
    assert (nmsgs (msgqs (ms demo_sent) 100) = 1) as E1 by (vm_compute; reflexivity). assert (head (msglist (msgqs (ms demo_sent) 100)) = 10000) as E2 by (vm_compute; reflexivity).
    rewrite E1 in Hc. pose proof (sq_head _ _ _ Hr) as Hhd. rewrite E2 in Hhd. clear -Hhd Hc. destruct (G (PQueue 100)) as [|m [|m' l]]; simpl in *; [lia| |lia]. by rewrite Hhd. }
  destruct (mq_msgqfree_returns_messages (pools 10000 20000) (ms demo_sent) G 100 Hm Hh) as (s' & G' & E' & Hi' & _ & _ & _ & HF & _); [done|].
  exists G, s', G'. split; [rewrite Hq; discriminate|]. split; [exact E'|]. split; [exact Hi'|]. apply HF. right. rewrite Hq. split; [apply elem_of_cons; by left|vm_compute; reflexivity].
Defined.

(** Two free descriptors of a block, and the group 7 of every task. *)
Definition demo_des : des_lists :=
  mk_des_lists (mk_links (fun d => if d =? 30004 then 30016 else 0) (fun _ => 0)) (mk_queue 30004 30016) (mk_queue 30000 30000) (fun _ => empty_queue).

Lemma demo_des_rep : des_rep demo_des [30004; 30016] [30000] (fun _ => []).
Proof.
  constructor; cbn [demo_des dlinks g_desfree g_desalloc tg_msgdesq].
  - constructor; simpl; try done; apply (bool_decide_unpack _); vm_compute; exact I.
  - constructor; simpl; try done; apply (bool_decide_unpack _); vm_compute; exact I.
  - intros g. apply sq_rep_empty.
  - intros d g _. apply not_elem_of_nil.
  - intros d g1 g2 Hin. by apply elem_of_nil in Hin.
  - intros d Hd. apply list_elem_of_singleton in Hd as ->. split; [apply (bool_decide_unpack _); vm_compute; exact I|intros g; apply not_elem_of_nil].
Qed.

Lemma mq_descriptor_roundtrip_witness :
  exists s1 dl1 s2 dl2, mq_descreate (fun _ => 7) demo_mq_start demo_des 0 100 3 0 = Some (s1, dl1, 30004) /\ mq_desclose 1 (fun _ => 7) s1 dl1 30004 = Some (s2, dl2) /\
    exists O', des_rep dl2 ([30016] ++ [30004]) [30000] O'.
Proof.
  destruct (mq_descriptor_roundtrip 1 (fun _ => 7) demo_mq_start demo_des [30016] [30000] (fun _ => []) 100 3 0 30004 demo_des_rep) as (s1 & dl1 & s2 & dl2 & E1 & _ & _ & E2 & _ & O' & H & _); [done|simpl; lia|].
  exists s1, dl1, s2, dl2. split; [exact E1|]. split; [exact E2|]. exists O'. exact H.
Defined.
