(* ===== verification/Pthread.v ===== *)
(** * POSIX threads: mutexes, condition variables and barriers

    The functions of [os/kernel/pthread] that synchronise threads, as clients
    of the semaphores.  A function is a program over the steps it takes: the
    calls of the scheduler and of the semaphores, and the accesses to the
    structures in memory.  Threads run their programs one step at a time, and
    other threads and interrupts may come between any two steps. *)

From stdpp Require Import base tactics numbers list.
From S2P Require Import Prelude Queue Sched Sem SemSystem.

Module Pthread.

Definition EPERM : Z := 1.
Definition EBUSY : Z := 16.
Definition EDEADLK : Z := 35.

Definition PTHREAD_MUTEX_NORMAL : Z := 0.
Definition PTHREAD_MUTEX_RECURSIVE : Z := 2.
Definition PTHREAD_MUTEX_DEFAULT : Z := PTHREAD_MUTEX_NORMAL.
Definition PTHREAD_BARRIER_SERIAL_THREAD : Z := 4096.

(** ** Data *)

(** A mutex without its semaphore, which is one of the semaphores of [Sem]:
    the one at [&mutex->sem]. *)
Record pthread_mutex_t := mk_mutex { mpid : Z; mtype : Z; nlocks : Z }.

Definition set_mpid (v : Z) (m : pthread_mutex_t) : pthread_mutex_t := mk_mutex v (mtype m) (nlocks m).
Definition set_nlocks (v : Z) (m : pthread_mutex_t) : pthread_mutex_t := mk_mutex (mpid m) (mtype m) v.

Definition mutex_sem (mutex : Z) : Z := mutex + 4.

(** The semaphores of a condition variable and of a barrier come first. *)
Definition cond_sem (cond : Z) : Z := cond.
Definition barrier_sem (barrier : Z) : Z := barrier.

(** ** Programs *)

Inductive prog :=
  | Ret (ret : Z)
  | SchedLock (k : prog)
  | SchedUnlock (k : prog)
  | GetPid (k : Z -> prog)
  | ReadMutex (mutex : Z) (k : pthread_mutex_t -> prog)
  | ModMutex (mutex : Z) (f : pthread_mutex_t -> pthread_mutex_t) (k : prog)
  | ReadCount (barrier : Z) (k : Z -> prog)
  | SetErrno (e : Z) (k : prog)
  | SemTryWait (sem : Z) (k : Z -> Z -> prog)
  (** [sem_getvalue] of a semaphore that is not null, which does not fail. *)
  | SemGetValue (sem : Z) (k : Z -> prog)
  | SemDestroy (sem : Z) (k : Z -> prog)
  | SemPost (sem : Z) (k : Z -> prog)
  (** [while (sem_wait(sem) != OK) { if (get_errno() != EINTR) break; }]; the
      program goes on with 0 or with the error number. *)
  | WaitLoop (sem : Z) (k : Z -> prog)
  (** [while (semcount < 0) { sem_post(sem); sem_getvalue(sem, &semcount); }] *)
  | PostLoop (sem semcount : Z) (k : prog).

(** *** Semaphores of threads *)

Definition pthread_takesemaphore (sem : Z) (k : Z -> prog) : prog :=
  if negb (sem =? 0) then
    WaitLoop sem (fun e => if e =? 0 then k OK else SetErrno EINVAL (k ERROR))
  else SetErrno EINVAL (k ERROR).

Definition pthread_givesemaphore (sem : Z) (k : Z -> prog) : prog :=
  if negb (sem =? 0) then
    SemPost sem (fun ret => if ret =? OK then k OK else SetErrno EINVAL (k ERROR))
  else SetErrno EINVAL (k ERROR).

(** *** Mutexes *)

Definition pthread_mutex_lock (mutex : Z) : prog :=
  GetPid (fun mypid =>
  if mutex =? 0 then Ret EINVAL
  else
    SchedLock (ReadMutex mutex (fun v =>
    if mpid v =? mypid then
      if mtype v =? PTHREAD_MUTEX_RECURSIVE then
        ModMutex mutex (fun v => set_nlocks (i32 (nlocks v + 1)) v) (SchedUnlock (Ret OK))
      else SchedUnlock (Ret EDEADLK)
    else
      pthread_takesemaphore (mutex_sem mutex) (fun ret =>
      if ret =? OK then
        ModMutex mutex (set_mpid mypid) (ModMutex mutex (set_nlocks 1) (SchedUnlock (Ret ret)))
      else SchedUnlock (Ret ret))))).

Definition pthread_mutex_unlock (mutex : Z) : prog :=
  if mutex =? 0 then Ret EINVAL
  else
    SchedLock (ReadMutex mutex (fun v => GetPid (fun mypid =>
    if negb (mpid v =? mypid) then SchedUnlock (Ret EPERM)
    else if (mtype v =? PTHREAD_MUTEX_RECURSIVE) && (1 <? nlocks v) then
      ModMutex mutex (fun v => set_nlocks (i32 (nlocks v - 1)) v) (SchedUnlock (Ret OK))
    else
      ModMutex mutex (set_mpid (-1)) (ModMutex mutex (set_nlocks 0)
      (pthread_givesemaphore (mutex_sem mutex) (fun ret => SchedUnlock (Ret ret))))))).

Definition pthread_mutex_trylock (mutex : Z) : prog :=
  if mutex =? 0 then Ret EINVAL
  else
    GetPid (fun mypid =>
    SchedLock (SemTryWait (mutex_sem mutex) (fun ret errno =>
    if ret =? OK then
      ModMutex mutex (set_mpid mypid) (ReadMutex mutex (fun v =>
      if mtype v =? PTHREAD_MUTEX_RECURSIVE then ModMutex mutex (set_nlocks 1) (SchedUnlock (Ret OK))
      else SchedUnlock (Ret OK)))
    else if errno =? EAGAIN then
      ReadMutex mutex (fun v =>
      if (mtype v =? PTHREAD_MUTEX_RECURSIVE) && (mpid v =? mypid) then
        ModMutex mutex (fun v => set_nlocks (i32 (nlocks v + 1)) v) (SchedUnlock (Ret OK))
      else SchedUnlock (Ret EBUSY))
    else SchedUnlock (Ret EINVAL)))).

Definition pthread_mutex_destroy (mutex : Z) : prog :=
  if mutex =? 0 then Ret EINVAL
  else
    SchedLock (ReadMutex mutex (fun v =>
    if negb (mpid v =? 0) then SchedUnlock (Ret EBUSY)
    else
      SemDestroy (mutex_sem mutex) (fun status =>
      SchedUnlock (Ret (if negb (status =? OK) then EINVAL else OK))))).

(** *** Condition variables *)

Definition pthread_cond_wait (cond mutex : Z) : prog :=
  if (cond =? 0) || (mutex =? 0) then Ret EINVAL
  else
    ReadMutex mutex (fun v => GetPid (fun mypid =>
    if negb (mpid v =? mypid) then Ret EPERM
    else
      SchedLock (ModMutex mutex (set_mpid 0)
      (pthread_givesemaphore (mutex_sem mutex) (fun ret1 =>
      pthread_takesemaphore (cond_sem cond) (fun ret2 =>
      SchedUnlock (
      pthread_takesemaphore (mutex_sem mutex) (fun ret3 =>
      let ret := Z.lor (Z.lor ret1 ret2) ret3 in
      if ret =? 0 then GetPid (fun mypid => ModMutex mutex (set_mpid mypid) (Ret ret))
      else Ret ret)))))))).

Definition pthread_cond_signal (cond : Z) : prog :=
  if cond =? 0 then Ret EINVAL
  else
    SemGetValue (cond_sem cond) (fun sval =>
    if sval <? 0 then pthread_givesemaphore (cond_sem cond) (fun ret => Ret ret) else Ret OK).

(** [n] more turns of the loop of [pthread_cond_broadcast]. *)
Fixpoint broadcast_loop (n : nat) (cond ret : Z) : prog :=
  match n with
  | O => SchedUnlock (Ret ret)
  | S n => pthread_givesemaphore (cond_sem cond) (fun ret => broadcast_loop n cond ret)
  end.

Definition pthread_cond_broadcast (cond : Z) : prog :=
  if cond =? 0 then Ret EINVAL
  else
    SchedLock (SemGetValue (cond_sem cond) (fun sval => broadcast_loop (Z.to_nat (- sval)) cond OK)).

Definition pthread_cond_destroy (cond : Z) : prog :=
  if cond =? 0 then Ret EINVAL
  else SemDestroy (cond_sem cond) (fun status => Ret (if negb (status =? OK) then EINVAL else OK)).

(** *** Barriers *)

Definition pthread_barrier_wait (barrier : Z) : prog :=
  if barrier =? 0 then Ret EINVAL
  else
    SchedLock (SemGetValue (barrier_sem barrier) (fun semcount => ReadCount barrier (fun count =>
    if i32 count <=? 1 - semcount then
      PostLoop (barrier_sem barrier) semcount (SchedUnlock (Ret PTHREAD_BARRIER_SERIAL_THREAD))
    else
      WaitLoop (barrier_sem barrier) (fun e => SchedUnlock (Ret e))))).

(** ** Threads *)

Inductive call :=
  | MutexLock (mutex : Z)
  | MutexTryLock (mutex : Z)
  | MutexUnlock (mutex : Z)
  | MutexDestroy (mutex : Z)
  | CondWait (cond mutex : Z)
  | CondSignal (cond : Z)
  | CondBroadcast (cond : Z)
  | CondDestroy (cond : Z)
  | BarrierWait (barrier : Z).

Definition body (c : call) : prog :=
  match c with
  | MutexLock m => pthread_mutex_lock m
  | MutexTryLock m => pthread_mutex_trylock m
  | MutexUnlock m => pthread_mutex_unlock m
  | MutexDestroy m => pthread_mutex_destroy m
  | CondWait c m => pthread_cond_wait c m
  | CondSignal c => pthread_cond_signal c
  | CondBroadcast c => pthread_cond_broadcast c
  | CondDestroy c => pthread_cond_destroy c
  | BarrierWait b => pthread_barrier_wait b
  end.

(** A thread is in code of its own, in a call with this program ahead, or in
    a [sem_post] of a call in which it gave up the processor. *)
Inductive thread :=
  | User
  | Calling (c : call) (p : prog)
  | Posting (c : call) (p : prog).

Record pt_state := mk_pt { sy : sys; mx : Z -> pthread_mutex_t; bcount : Z -> Z; th : Z -> thread }.

Definition me (s : pt_state) : Z := cpu (kn (ss (sy s))).
Definition with_th (x : Z) (t : thread) (s : pt_state) : pt_state := mk_pt (sy s) (mx s) (bcount s) (upd (th s) x t).
Definition with_sy (y : sys) (s : pt_state) : pt_state := mk_pt y (mx s) (bcount s) (th s).
Definition with_mx (m : Z) (v : pthread_mutex_t) (s : pt_state) : pt_state := mk_pt (sy s) (upd (mx s) m v) (bcount s) (th s).

(** A call that returned: the thread, the call and the value. *)
Abbreviation returned := (option (Z * call * Z)).

(** The error number is private to the thread, so it is read together with
    the result of the wait. *)
Definition errno_of (y : sys) (x : Z) : Z := pterrno (tcbs (kn (ss y)) x).

(** The thread goes on after one event of the semaphores. *)
Definition sem_then (s : pt_state) (e : sem_event) (k : sys -> finished -> thread) : option (pt_state * returned) :=
  '(y, f) ← sem_exec (sy s) e;
  Some (with_th (me s) (k y f) (with_sy y s), None).

(** The next step of the running thread. *)
Definition pt_go (s : pt_state) : option (pt_state * returned) :=
  let x := me s in
  match th s x with
  | User => None
  | Posting c p => sem_then s EvResume (fun _ _ => Calling c p)
  | Calling c p =>
      let go p s := Some (with_th x (Calling c p) s, None) in
      let posts sem p :=
        sem_then s (EvPost sem) (fun y _ => match pcs y x with PcUser => Calling c p | _ => Posting c p end) in
      match p with
      | Ret ret => Some (with_th x User s, Some (x, c, ret))
      | SchedLock k => sem_then s EvLock (fun _ _ => Calling c k)
      | SchedUnlock k => sem_then s EvUnlock (fun _ _ => Calling c k)
      | GetPid k => go (k (pid (tcbs (kn (ss (sy s))) x))) s
      | ReadMutex m k => go (k (mx s m)) s
      | ModMutex m f k => go k (with_mx m (f (mx s m)) s)
      | ReadCount b k => go (k (bcount s b)) s
      | SetErrno e k => go k (with_sy (mk_sys (with_errno (ss (sy s)) e) (pcs (sy s))) s)
      | SemTryWait sem k =>
          sem_then s (EvTryWait sem) (fun y f =>
            match f with Some (_, ret) => Calling c (k ret (errno_of y x)) | None => Calling c p end)
      | SemGetValue sem k => go (k (count_of (ss (sy s)) sem)) s
      | SemDestroy sem k =>
          '(t, status) ← sem_destroy (ss (sy s)) sem;
          go (k status) (with_sy (mk_sys t (pcs (sy s))) s)
      | SemPost sem k => posts sem (k (if sem =? 0 then ERROR else OK))
      | WaitLoop sem k =>
          sem_then s (match pcs (sy s) x with PcUser => EvWait sem | _ => EvResume end) (fun y f =>
            match f with
            | None => Calling c p
            | Some (_, ret) =>
                if ret =? OK then Calling c (k 0)
                else if errno_of y x =? EINTR then Calling c p
                else Calling c (k (errno_of y x))
            end)
      | PostLoop sem semcount k =>
          if semcount <? 0 then posts sem (SemGetValue sem (fun n => PostLoop sem n k)) else go k s
      end
  end.

(** Events: the running thread makes a call, takes the next step of a call,
    or uses a semaphore of its own; an interrupt. *)
Inductive pt_event :=
  | Call (c : call)
  | Go
  | Own (e : sem_event)
  | Irq (e : sem_event).

Definition pt_exec (s : pt_state) (e : pt_event) : option (pt_state * returned) :=
  match e with
  | Call c => match th s (me s) with User => Some (with_th (me s) (Calling c (body c)) s, None) | _ => None end
  | Go => pt_go s
  | Own e => match th s (me s) with User => '(y, _) ← sem_exec (sy s) e; Some (with_sy y s, None) | _ => None end
  | Irq e => '(y, _) ← sem_exec (sy s) e; Some (with_sy y s, None)
  end.

(** ** Initialisation *)

(** The attributes, if there are any: [pshared] and [type]. *)
Definition pthread_mutex_init (s : pt_state) (mutex : Z) (attr : option (Z * Z)) : pt_state * Z :=
  if mutex =? 0 then (s, EINVAL)
  else
    let '(pshared, type) := default (0, PTHREAD_MUTEX_DEFAULT) attr in
    let s := with_mx mutex (set_mpid (-1) (mx s mutex)) s in
    let '(t, status) := sem_init (ss (sy s)) (mutex_sem mutex) pshared 1 in
    let s := with_sy (mk_sys t (pcs (sy s))) s in
    (with_mx mutex (mk_mutex (mpid (mx s mutex)) type 0) s, if negb (status =? OK) then EINVAL else OK).

Definition pthread_cond_init (s : pt_state) (cond : Z) : pt_state * Z :=
  if cond =? 0 then (s, EINVAL)
  else
    let '(t, status) := sem_init (ss (sy s)) (cond_sem cond) 0 0 in
    (with_sy (mk_sys t (pcs (sy s))) s, if negb (status =? OK) then EINVAL else OK).

Definition pthread_barrier_init (s : pt_state) (barrier count : Z) : pt_state * Z :=
  if (barrier =? 0) || (count =? 0) then (s, EINVAL)
  else
    let '(t, _) := sem_init (ss (sy s)) (barrier_sem barrier) 0 0 in
    (mk_pt (mk_sys t (pcs (sy s))) (mx s) (upd (bcount s) barrier count) (th s), OK).

Definition pthread_barrier_destroy (s : pt_state) (barrier : Z) : option (pt_state * Z) :=
  if barrier =? 0 then Some (s, EINVAL)
  else
    '(t, _) ← sem_destroy (ss (sy s)) (barrier_sem barrier);
    Some (mk_pt (mk_sys t (pcs (sy s))) (mx s) (upd (bcount s) barrier 0) (th s), OK).
End Pthread.
