(* ===== verification/PthreadSem.v ===== *)
(** * POSIX threads: what the semaphores promise them

    One event of the semaphores as a thread sees it: what becomes available,
    which threads it touches, and how its waits, tries and posts can end. *)

From stdpp Require Import base tactics numbers sets list sorting.
From S2P Require Import Prelude Queue QueueProps Sched SchedProps SchedOps SchedKernel SchedPriority SchedTheorems.
From S2P Require Import Sem SemHolder SemPrio SemOps SemCalls SemSystem SemSteps SemIds Pthread.
Import Pthread.

Section events.
Context (T : list Z) (idle : Z) (P : list Z) (B : Z -> Z) (HT : NoDup T).

Definition sem_ok (y : sys) : Prop := exists A G, sem_inv T idle P B y A G.

Abbreviation valid := (sem_event_valid T idle).
Abbreviation running_of y := (cpu (kn (ss y))).

Lemma sem_ok_running y : sem_ok y -> running_of y ∈ T.
Proof. intros (A & G & Hi). by destruct (inv_running _ _ _ _ _ _ _ Hi) as (_ & -> & ? & _). Qed.

(** What every event of the semaphores leaves behind. *)
Record stepped (y : sys) (e : sem_event) (y' : sys) (f : finished) : Prop := {
  sp_ok : sem_ok y';
  sp_available sem : sem <> 0 -> sys_available T y' sem + acquired f sem = sys_available T y sem + posted e sem;
  sp_steady : steady y e (waits (ss y')) (errnos (ss y'));
  sp_pid x : pid (tcbs (kn (ss y')) x) = pid (tcbs (kn (ss y)) x);
  sp_other x : x <> running_of y -> pcs y' x = pcs y x
}.

Lemma exec_other y e y' f x : sem_exec y e = Some (y', f) -> x <> running_of y -> pcs y' x = pcs y x.
Proof.
  intros H Hx. destruct e; cbn [sem_exec] in H; unfold after_wait in H;
    repeat match goal with
    | H : mbind _ _ = Some _ |- _ => apply bind_Some in H as (? & ? & H)
    | H : context [match ?r with _ => _ end] |- _ => destruct r
    end; simplify_eq; cbn [pcs]; rewrite ?upd_ne by done; done.
Qed.

(** The waits that an event can finish. *)
Lemma exec_finished y e y' t ret :
  sem_exec y e = Some (y', Some (t, ret)) ->
  e = EvWait t \/ e = EvWaitIsr t \/ e = EvTryWait t \/ (e = EvResume /\ exists isr, pcs y (running_of y) = PcWait t isr).
Proof.
  intros H. destruct e; cbn [sem_exec] in H; unfold after_wait in H;
    repeat match goal with
    | H : mbind _ _ = Some _ |- _ => apply bind_Some in H as (? & ? & H)
    | H : context [match ?r with _ => _ end] |- _ => destruct r eqn:?
    end; simplify_eq; eauto 10.
Qed.

(** The running task is inside a wait only if it was, or has begun one. *)
Lemma exec_waits y e y' f sem isr :
  sem_exec y e = Some (y', f) -> pcs y' (running_of y) = PcWait sem isr ->
  pcs y (running_of y) = PcWait sem isr \/ e = EvWait sem \/ e = EvWaitIsr sem.
Proof.
  intros H Hpc. destruct e; cbn [sem_exec] in H; unfold after_wait in H;
    repeat match goal with
    | H : mbind _ _ = Some _ |- _ => apply bind_Some in H as (? & ? & H)
    | H : context [match ?r with _ => _ end] |- _ => destruct r eqn:?
    end; simplify_eq; cbn [pcs] in Hpc; rewrite ?upd_eq in Hpc; simplify_eq; auto.
Qed.

Lemma sem_exec_stepped y e :
  sem_ok y -> valid y e -> (is_wait e = true -> nest_room T y) -> exists y' f, sem_exec y e = Some (y', f) /\ stepped y e y' f.
Proof.
  intros (A & G & Hi) Hv Hroom. destruct (sem_exec_balanced T idle P B HT y A G e Hi Hv Hroom) as (y' & f & Hrun & Hi' & Ha & Hst).
  exists y', f. split; [done|]. destruct (ids_exec _ _ _ _ Hrun) as [Hp _]. constructor; try done. intros x Hx. by eapply exec_other.
Qed.

Lemma available_nonneg y sem : 0 <= sys_available T y sem.
Proof. unfold sys_available, available. pose proof (tally_bounds (is_granted (waits (ss y)) (errnos (ss y)) (pcs y) sem) T). lia. Qed.

(** A wait takes a count at once, or the thread blocks without an error. *)
Lemma wait_outcome y sem y' f :
  sem_ok y -> valid y (EvWait sem) -> nest_room T y -> sem_exec y (EvWait sem) = Some (y', f) ->
  (f = Some (sem, OK) /\ pcs y' (running_of y) = PcUser) \/
  (f = None /\ pcs y' (running_of y) = PcWait sem false /\ errnos (ss y') (running_of y) = 0).
Proof.
  intros (A & G & Hi) (HQ & Hid & Hs & Hl) Hroom Hrun. destruct (inv_running _ _ _ _ _ _ _ Hi) as (Hh & Hcpu & Hr & Hw). rewrite Hcpu in *.
  pose proof (in_core _ _ _ _ _ _ _ Hi) as Hc. pose proof (in_views _ _ _ _ _ _ _ Hi) as Hv. pose proof (in_task _ _ _ _ _ _ _ Hi) as Hirq.
  cbn [sem_exec] in Hrun. unfold after_wait in Hrun. destruct (Z_lt_le_dec 0 (count_of (ss y) sem)) as [Hpos|Hneg].
  - destruct (sem_wait_now T idle P B (ss y) A G sem _ _ _ Hc Hv Hirq) as (t & G' & E & _); try done.
    rewrite E in Hrun. injection Hrun as <- <-. by left.
  - destruct (sem_wait_blocks T idle P B (ss y) A G sem _ _ _ Hc Hv Hirq) as (t & A' & E & _ & _ & _ & Hv' & _); try done.
    { intros p Hp. apply Hroom. by apply (hb_task _ _ _ (co_hold _ _ _ _ _ _ Hc) sem). }
    rewrite E in Hrun. injection Hrun as <- <-. right. rewrite Hcpu. cbn [pcs ss]. rewrite upd_eq. split_and!; try done.
    unfold errnos. rewrite (vw_errno _ _ _ _ _ Hv'). by rewrite upd_eq.
Qed.

(** A thread that waited comes back with its count, or with the error of the
    interrupt that woke it. *)
Lemma resume_wait_outcome y sem y' f :
  sem_ok y -> pcs y (running_of y) = PcWait sem false -> sem_exec y EvResume = Some (y', f) ->
  exists ret, f = Some (sem, ret) /\ pcs y' (running_of y) = PcUser /\ errnos (ss y') (running_of y) = errnos (ss y) (running_of y) /\
    ret = wait_result (errnos (ss y) (running_of y)).
Proof.
  intros (A & G & Hi) HQ Hrun. destruct (inv_running _ _ _ _ _ _ _ Hi) as (Hh & Hcpu & Hr & Hw). rewrite Hcpu in *.
  pose proof (in_core _ _ _ _ _ _ _ Hi) as Hc. pose proof (in_views _ _ _ _ _ _ _ Hi) as Hv. pose proof (in_task _ _ _ _ _ _ _ Hi) as Hirq.
  cbn [sem_exec] in Hrun. rewrite Hcpu, HQ in Hrun.
  destruct (sem_wait_resume_spec T idle P B (ss y) A G _ _ _ Hc Hv Hirq) as (t & A' & E & _ & _ & Hv' & _).
  rewrite E in Hrun. injection Hrun as <- <-. eexists. split; [done|]. cbn [pcs ss]. rewrite upd_eq. split; [done|]. split; [|done].
  unfold errnos at 1. by rewrite (vw_errno _ _ _ _ _ Hv').
Qed.

(** A try takes a count, or fails with [EAGAIN]. *)
Lemma trywait_outcome y sem y' f :
  sem_ok y -> valid y (EvTryWait sem) -> sem_exec y (EvTryWait sem) = Some (y', f) ->
  pcs y' = pcs y /\ (f = Some (sem, OK) \/ (f = Some (sem, ERROR) /\ errnos (ss y') (running_of y) = EAGAIN)).
Proof.
  intros (A & G & Hi) (HQ & Hid & Hs) Hrun. destruct (inv_running _ _ _ _ _ _ _ Hi) as (Hh & Hcpu & Hr & Hw). rewrite Hcpu in *.
  pose proof (in_core _ _ _ _ _ _ _ Hi) as Hc. pose proof (in_views _ _ _ _ _ _ _ Hi) as Hv. pose proof (in_task _ _ _ _ _ _ _ Hi) as Hirq.
  cbn [sem_exec] in Hrun. destruct (sem_trywait_spec T idle P B (ss y) A G sem _ _ _ Hc Hv Hirq) as (t & G' & E & _ & _ & Hv'); try done.
  rewrite E in Hrun. injection Hrun as <- <-. split; [done|]. destruct (Z.ltb_spec 0 (count_of (ss y) sem)); [by left|right]. split; [done|].
  cbn [ss]. unfold errnos. rewrite (vw_errno _ _ _ _ _ Hv'). by rewrite upd_eq.
Qed.

Lemma post_outcome y sem y' f :
  sem_exec y (EvPost sem) = Some (y', f) -> pcs y (running_of y) = PcUser ->
  f = None /\ (pcs y' (running_of y) = PcUser \/ exists r, pcs y' (running_of y) = PcPost sem r).
Proof.
  intros H HQ. cbn [sem_exec] in H. apply bind_Some in H as ([[t []] r] & _ & [= <- <-]); (split; [done|]); cbn [pcs]; [by left|right].
  exists r. by rewrite upd_eq.
Qed.

Lemma resume_post_outcome y sem r y' f :
  pcs y (running_of y) = PcPost sem r -> sem_exec y EvResume = Some (y', f) -> f = None /\ pcs y' (running_of y) = PcUser.
Proof.
  intros HQ H. cbn [sem_exec] in H. rewrite HQ in H. apply bind_Some in H as ([t z] & _ & [= <- <-]). cbn [pcs]. by rewrite upd_eq.
Qed.

Lemma lock_outcome y e y' f : e = EvLock \/ e = EvUnlock -> sem_exec y e = Some (y', f) -> f = None /\ pcs y' = pcs y.
Proof. intros [-> | ->] H; cbn [sem_exec] in H; apply bind_Some in H as (k & _ & [= <- <-]); done. Qed.
End events.
