(* ===== verification/PthreadMutex.v ===== *)
(** * POSIX threads: ownership of mutexes

    A logic for the programs of [Pthread].  A thread knows the contents of the
    mutexes whose semaphore it has taken and not given back, and of every
    other mutex that it is not marked as its own.  [wp] says what a program
    does to this view whatever other threads do between its steps. *)

From stdpp Require Import base tactics numbers sets list sorting.
From S2P Require Import Prelude Queue QueueProps Sched Sem SemSystem Pthread.
Import Pthread.

(** ** Calls of a thread, from its side *)

(** How often a thread has locked each mutex, after one more call. *)
Definition bump (c : call) (ret : Z) (d : Z -> Z) (m : Z) : Z :=
  match c with
  | MutexLock m' | MutexTryLock m' => if (m =? m') && (ret =? OK) then d m + 1 else d m
  | MutexUnlock m' => if (m =? m') && (ret =? OK) then d m - 1 else d m
  | _ => d m
  end.

(** The calls that give a mutex away, if only for a while. *)
Definition releases (c : call) (m : Z) : bool :=
  match c with MutexUnlock m' | CondWait _ m' => m' =? m | _ => false end.

(** The value a call has to return, to a thread that has locked each mutex
    so often.  Only a try may find the mutex in the hands of another. *)
Definition result_ok (recursive : Z -> bool) (c : call) (d : Z -> Z) (ret : Z) : Prop :=
  match c with
  | MutexLock m =>
      ret = if m =? 0 then EINVAL else if (0 <? d m) && negb (recursive m) then EDEADLK else OK
  | MutexTryLock m =>
      if m =? 0 then ret = EINVAL
      else if 0 <? d m then ret = (if recursive m then OK else EBUSY)
      else ret = OK \/ ret = EBUSY
  | MutexUnlock m => ret = if m =? 0 then EINVAL else if 0 <? d m then OK else EPERM
  | CondWait c m => ret = if (c =? 0) || (m =? 0) then EINVAL else if 0 <? d m then OK else EPERM
  | CondSignal c | CondBroadcast c => ret = if c =? 0 then EINVAL else OK
  | BarrierWait b => ret = (if b =? 0 then EINVAL else OK) \/ (b <> 0 /\ ret = PTHREAD_BARRIER_SERIAL_THREAD)
  | MutexDestroy _ | CondDestroy _ => True
  end.

Section logic.
Context (M : list Z) (types : Z -> Z) (pids : Z -> Z).

Definition recursive (m : Z) : bool := types m =? PTHREAD_MUTEX_RECURSIVE.

(** The mutex a semaphore belongs to. *)
Definition mutex_at (sem : Z) : option Z := if bool_decide (sem - 4 ∈ M) then Some (sem - 4) else None.

Lemma mutex_at_sem m : m ∈ M -> mutex_at (mutex_sem m) = Some m.
Proof. intros Hm. unfold mutex_at, mutex_sem. replace (m + 4 - 4) with m by lia. by rewrite bool_decide_eq_true_2. Qed.

Lemma mutex_at_Some sem m : mutex_at sem = Some m -> m ∈ M /\ sem = mutex_sem m.
Proof. unfold mutex_at, mutex_sem. destruct (bool_decide_reflect (sem - 4 ∈ M)); [|done]. intros [= <-]. split; [done|lia]. Qed.

Lemma mutex_at_None sem m : mutex_at sem = None -> m ∈ M -> sem <> mutex_sem m.
Proof. intros H Hm ->. by rewrite mutex_at_sem in H. Qed.

Abbreviation view := (Z -> option pthread_mutex_t).

(** The contents of a mutex whose semaphore has just been taken. *)
Definition fresh (m : Z) (v : pthread_mutex_t) : Prop := mpid v <= 0 /\ mtype v = types m.

(** ** Weakest preconditions *)

Section wp.
Context (x : Z) (rel : Z -> bool).

Fixpoint wp (V : view) (p : prog) (Q : view -> Z -> Prop) : Prop :=
  match p with
  | Ret ret => Q V ret
  | SchedLock k | SchedUnlock k => wp V k Q
  | GetPid k => wp V (k (pids x)) Q
  | ReadMutex m k =>
      m ∈ M /\
      match V m with
      | Some v => wp V (k v) Q
      | None => forall v, mpid v <> pids x -> mtype v = types m -> wp V (k v) Q
      end
  | ModMutex m f k =>
      m ∈ M /\ exists v, V m = Some v /\ mtype (f v) = types m /\ (mpid (f v) = pids x \/ mpid (f v) <= 0) /\
      wp (upd V m (Some (f v))) k Q
  | ReadCount _ k | SemGetValue _ k => forall n, wp V (k n) Q
  | SetErrno _ _ | SemDestroy _ _ => False
  | SemTryWait sem k =>
      sem <> 0 /\ wp V (k ERROR EAGAIN) Q /\
      match mutex_at sem with
      | Some m => V m = None -> forall v e, fresh m v -> wp (upd V m (Some v)) (k OK e) Q
      | None => forall e, wp V (k OK e) Q
      end
  | SemPost sem k =>
      sem <> 0 /\
      match mutex_at sem with
      | Some m => rel m = true /\ (exists v, V m = Some v /\ mpid v <= 0) /\ wp (upd V m None) (k OK) Q
      | None => wp V (k OK) Q
      end
  | WaitLoop sem k =>
      sem <> 0 /\
      match mutex_at sem with
      | Some m => V m = None /\ forall v, fresh m v -> wp (upd V m (Some v)) (k 0) Q
      | None => wp V (k 0) Q
      end
  | PostLoop sem _ k => sem <> 0 /\ mutex_at sem = None /\ wp V k Q
  end.

Definition same_view (V V' : view) : Prop := forall m, V m = V' m.

#[local] Instance same_view_equiv : Equivalence same_view.
Proof. split; [done| |]; [intros V V' H m; by rewrite H|intros V1 V2 V3 H1 H2 m; by rewrite H1]. Qed.

Lemma same_view_upd V V' m o : same_view V V' -> same_view (upd V m o) (upd V' m o).
Proof. intros H m'. unfold upd. by destruct (m' =? m). Qed.

(** Views count pointwise, and a weaker condition may replace the last one. *)
Lemma wp_mono V V' p (Q Q' : view -> Z -> Prop) :
  same_view V V' -> (forall V V' ret, same_view V V' -> Q V ret -> Q' V' ret) -> wp V p Q -> wp V' p Q'.
Proof.
  intros HV HQ. revert V V' HV. induction p; cbn [wp]; intros V V' HV.
  - by apply HQ.
  - by apply IHp.
  - by apply IHp.
  - by apply H.
  - intros [Hm Hk]. split; [done|]. destruct (V mutex) eqn:E; rewrite <- (HV mutex), E; [by apply (H _ V)|]. intros v H1 H2. by apply (H _ V), Hk.
  - intros (Hm & v & Hv & Ht & Hp & Hk). split; [done|]. exists v. rewrite <- (HV mutex). split_and!; try done. by eapply IHp, Hk; apply same_view_upd.
  - intros Hk n. by apply (H _ V).
  - done.
  - intros (Hs & Hf & Hk). split; [done|]. split; [by apply (H _ _ V)|]. destruct (mutex_at sem) as [m|].
    + rewrite <- (HV m). intros Hn v e Hv. eapply H, Hk; [by apply same_view_upd|done..].
    + intros e. by apply (H _ _ V).
  - intros Hk n. by apply (H _ V).
  - done.
  - intros (Hs & Hk). split; [done|]. destruct (mutex_at sem) as [m|]; [|by apply (H _ V)]. destruct Hk as (Hr & Hv & Hk).
    rewrite <- (HV m). split_and!; try done. eapply H, Hk. by apply same_view_upd.
  - intros (Hs & Hk). split; [done|]. destruct (mutex_at sem) as [m|]; [|by apply (H _ V)]. destruct Hk as (Hn & Hk).
    rewrite <- (HV m). split; [done|]. intros v Hv. eapply H, Hk; [by apply same_view_upd|done].
  - intros (Hs & Hm & Hk). split_and!; try done. by apply (IHp V).
Qed.
End wp.

(** ** The calls *)

Definition INT_MAX : Z := 2147483647.

(** What a thread in code of its own knows: it owns the mutexes it has
    locked, and a recursive mutex counts how often. *)
Definition user_ok (x : Z) (d : Z -> Z) (V : view) : Prop :=
  forall m, m ∈ M ->
    match V m with
    | None => d m = 0
    | Some v => mpid v = pids x /\ mtype v = types m /\ if recursive m then nlocks v = d m /\ 1 <= d m <= INT_MAX else d m = 1
    end.

Definition call_post (x : Z) (c : call) (d : Z -> Z) (V : view) (ret : Z) : Prop :=
  user_ok x (bump c ret d) V /\ result_ok recursive c d ret.

(** The mutexes of a call are among [M] or null, the condition variables and
    barriers are not parts of them, and no lock count overflows. *)
Definition call_ok (c : call) (V : view) : Prop :=
  match c with
  | MutexLock m | MutexTryLock m => m = 0 \/ (m ∈ M /\ forall v, V m = Some v -> nlocks v < INT_MAX)
  | MutexUnlock m | MutexDestroy m => m = 0 \/ m ∈ M
  | CondWait c m => mutex_at c = None /\ (m = 0 \/ m ∈ M)
  | CondSignal c | CondBroadcast c | CondDestroy c => mutex_at c = None
  | BarrierWait b => mutex_at b = None
  end.

(** The calls the logic leaves out: a wait for a condition with a recursive
    mutex, which forgets how often the mutex is locked, and destroying. *)
Definition left_out (c : call) : bool :=
  match c with
  | CondWait _ m => negb (m =? 0) && recursive m
  | MutexDestroy _ | CondDestroy _ => true
  | _ => false
  end.

Context (HM : forall m, m ∈ M -> 0 < m).

Lemma user_ok_ext x d d' V V' : same_view V V' -> (forall m, m ∈ M -> d' m = d m) -> user_ok x d V -> user_ok x d' V'.
Proof. intros HV Hd H m Hm. rewrite <- HV, Hd by done. by apply H. Qed.

(** The thread changes its view of one mutex. *)
Lemma user_ok_upd x d d' V m o :
  user_ok x d V -> (forall m', m' <> m -> d' m' = d m') ->
  match o with
  | None => d' m = 0
  | Some v => mpid v = pids x /\ mtype v = types m /\ if recursive m then nlocks v = d' m /\ 1 <= d' m <= INT_MAX else d' m = 1
  end -> user_ok x d' (upd V m o).
Proof.
  intros H Hd Ho m' Hm'. unfold upd. destruct (Z.eqb_spec m' m) as [->|Hne]; [done|]. rewrite Hd by done. by apply H.
Qed.

Lemma sem_nonzero m : m ∈ M -> mutex_sem m <> 0.
Proof. intros Hm. specialize (HM m Hm). unfold mutex_sem. lia. Qed.

Lemma bump_failed c ret d m : ret <> OK -> bump c ret d m = d m.
Proof. intros Hr. apply Z.eqb_neq in Hr. unfold bump. rewrite Hr. destruct c; by rewrite ?andb_false_r. Qed.

Lemma bump_other c ret d m m' :
  match c with MutexLock t | MutexTryLock t | MutexUnlock t => t = m | _ => True end -> m' <> m -> bump c ret d m' = d m'.
Proof. intros Ht Hne. unfold bump. destruct c; subst; try done; by destruct (Z.eqb_spec m' m). Qed.

Section calls.
Context (x : Z) (d : Z -> Z) (V : view) (HV : user_ok x d V).

(** A call that fails leaves everything as it is. *)
Lemma failed_post c ret : ret <> OK -> result_ok recursive c d ret -> call_post x c d V ret.
Proof. intros Hr Hres. split; [|done]. apply (user_ok_ext x d _ V); [done| |done]. intros m _. by apply bump_failed. Qed.

(** A call that succeeds leaves the thread with this view of its mutex. *)
Lemma lock_post c ret V' m v :
  (c = MutexLock m \/ c = MutexTryLock m) -> ret = OK -> result_ok recursive c d ret -> same_view (upd V m (Some v)) V' ->
  mpid v = pids x -> mtype v = types m -> (if recursive m then nlocks v = d m + 1 /\ 0 <= d m < INT_MAX else d m = 0) -> call_post x c d V' ret.
Proof.
  intros Hc -> Hres HV' Hp Ht Hn. split; [|done]. apply (user_ok_ext x (bump c OK d) _ _ _ HV'); [done|]. apply (user_ok_upd x d _ V m (Some v) HV).
  - intros m' Hne. apply bump_other with m; [|done]. by destruct Hc as [->| ->].
  - split_and!; try done. assert (bump c OK d m = d m + 1) as -> by (destruct Hc as [->| ->]; simpl; by rewrite Z.eqb_refl).
    destruct (recursive m); lia.
Qed.

Lemma lock_wp m : call_ok (MutexLock m) V -> wp x (releases (MutexLock m)) V (pthread_mutex_lock m) (call_post x (MutexLock m) d).
Proof.
  intros Hc. unfold pthread_mutex_lock. cbn [wp]. destruct Hc as [->|[Hm Hov]]; [by apply failed_post|].
  pose proof (HM m Hm) as H0. destruct (Z.eqb_spec m 0) as [?|Hm0]; [lia|]. cbn [wp]. split; [done|]. pose proof (HV m Hm) as HVm.
  assert (Hres : forall ret, ret = (if (0 <? d m) && negb (recursive m) then EDEADLK else OK) -> result_ok recursive (MutexLock m) d ret).
  { intros ret ->. simpl. by destruct (Z.eqb_spec m 0). }
  destruct (V m) as [v|] eqn:EV.
  - destruct HVm as (Hp & Ht & Hr). rewrite Hp, Z.eqb_refl, Ht. fold (recursive m). specialize (Hov v eq_refl).
    destruct (recursive m) eqn:Er; cbn [wp].
    + split; [done|]. exists v. split; [done|]. split; [done|]. split; [by left|].
      apply (lock_post _ _ _ m (set_nlocks (i32 (nlocks v + 1)) v)); try done; [by left|apply Hres; by rewrite andb_false_r|].
      rewrite Er. simpl. rewrite i32_small by (unfold INT_MAX in *; lia). lia.
    + apply failed_post; [done|]. apply Hres. by rewrite Hr.
  - intros v Hp Ht. destruct (Z.eqb_spec (mpid v) (pids x)) as [?|_]; [done|]. unfold pthread_takesemaphore.
    pose proof (sem_nonzero m Hm) as Hs. destruct (Z.eqb_spec (mutex_sem m) 0) as [?|_]; [done|]. cbn [negb wp]. split; [done|].
    rewrite mutex_at_sem by done. split; [done|]. intros w [Hw1 Hw2]. cbn [Z.eqb OK wp]. split; [done|]. exists w. rewrite upd_eq.
    split; [done|]. split; [done|]. split; [by left|]. split; [done|]. exists (set_mpid (pids x) w). rewrite upd_eq. split; [done|]. split; [done|]. split; [by left|].
    apply (lock_post _ _ _ m (set_nlocks 1 (set_mpid (pids x) w))); try done; [by left|apply Hres; by rewrite HVm| |destruct (recursive m); simpl; unfold INT_MAX; lia].
    intros m'. unfold upd. by destruct (m' =? m).
Qed.

Lemma trylock_wp m : call_ok (MutexTryLock m) V -> wp x (releases (MutexTryLock m)) V (pthread_mutex_trylock m) (call_post x (MutexTryLock m) d).
Proof.
  intros Hc. unfold pthread_mutex_trylock. destruct Hc as [->|[Hm Hov]]; [by apply failed_post|].
  pose proof (HM m Hm) as H0. destruct (Z.eqb_spec m 0) as [?|Hm0]; [lia|]. cbn [wp]. split; [by apply sem_nonzero|]. pose proof (HV m Hm) as HVm.
  assert (Hres : forall ret, (if 0 <? d m then ret = (if recursive m then OK else EBUSY) else ret = OK \/ ret = EBUSY) -> result_ok recursive (MutexTryLock m) d ret).
  { intros ret. simpl. by destruct (Z.eqb_spec m 0). }
  rewrite mutex_at_sem by done. split.
  - cbn [Z.eqb OK ERROR EAGAIN wp]. change (11 =? 11) with true. cbn [wp]. split; [done|]. destruct (V m) as [v|] eqn:EV.
    + destruct HVm as (Hp & Ht & Hr). rewrite Hp, Z.eqb_refl, Ht. fold (recursive m). specialize (Hov v eq_refl).
      destruct (recursive m) eqn:Er; cbn [andb wp].
      * split; [done|]. exists v. split; [done|]. split; [done|]. split; [by left|].
        apply (lock_post _ _ _ m (set_nlocks (i32 (nlocks v + 1)) v)); try done; [by right|apply Hres; destruct (0 <? d m); by auto|].
        rewrite Er. simpl. rewrite i32_small by (unfold INT_MAX in *; lia). lia.
      * apply failed_post; [done|]. apply Hres. by rewrite Hr.
    + intros v Hp Ht. destruct (Z.eqb_spec (mpid v) (pids x)) as [?|_]; [done|]. rewrite andb_false_r. cbn [wp].
      apply failed_post; [done|]. apply Hres. rewrite HVm. by right.
  - intros EV w e [Hw1 Hw2]. rewrite EV in HVm. cbn [Z.eqb OK wp]. split; [done|]. exists w. rewrite upd_eq. split; [done|]. split; [done|]. split; [by left|].
    split; [done|]. rewrite upd_eq. cbn [set_mpid mtype]. rewrite Hw2. fold (recursive m).
    assert (Hok : result_ok recursive (MutexTryLock m) d OK) by (apply Hres; rewrite HVm; by left). destruct (recursive m) eqn:Er; cbn [wp].
    + split; [done|]. exists (set_mpid (pids x) w). rewrite upd_eq. split; [done|]. split; [done|]. split; [by left|].
      apply (lock_post _ _ _ m (set_nlocks 1 (set_mpid (pids x) w))); try done; [by right| |rewrite Er; simpl; unfold INT_MAX; lia].
      intros m'. unfold upd. by destruct (m' =? m).
    + apply (lock_post _ _ _ m (set_mpid (pids x) w)); try done; [by right| |by rewrite Er].
      intros m'. unfold upd. by destruct (m' =? m).
Qed.

Lemma unlock_wp m : call_ok (MutexUnlock m) V -> wp x (releases (MutexUnlock m)) V (pthread_mutex_unlock m) (call_post x (MutexUnlock m) d).
Proof.
  intros Hc. unfold pthread_mutex_unlock. destruct Hc as [->|Hm]; [by apply failed_post|].
  pose proof (HM m Hm) as H0. destruct (Z.eqb_spec m 0) as [?|Hm0]; [lia|]. cbn [wp]. split; [done|]. pose proof (HV m Hm) as HVm.
  assert (Hres : forall ret, ret = (if 0 <? d m then OK else EPERM) -> result_ok recursive (MutexUnlock m) d ret).
  { intros ret ->. simpl. by destruct (Z.eqb_spec m 0). }
  assert (Hb : bump (MutexUnlock m) OK d m = d m - 1) by (simpl; by rewrite Z.eqb_refl).
  assert (Hbo : forall m', m' <> m -> bump (MutexUnlock m) OK d m' = d m') by (intros m' Hne; by apply bump_other with m).
  destruct (V m) as [v|] eqn:EV.
  - destruct HVm as (Hp & Ht & Hr). rewrite Hp, Z.eqb_refl, Ht. fold (recursive m). cbn [negb].
    assert (Hd : (0 <? d m) = true) by (destruct (recursive m); apply Z.ltb_lt; lia). destruct (recursive m && (1 <? nlocks v)) eqn:Er; cbn [wp].
    + apply andb_true_iff in Er as [Er Hn]. apply Z.ltb_lt in Hn. split; [done|]. exists v. split; [done|]. split; [done|]. split; [by left|].
      split; [|apply Hres; by rewrite Hd]. apply (user_ok_upd x d _ V m _ HV); [done|]. rewrite Er in *. rewrite Hb. split; [done|]. split; [done|]. split; [|lia].
      simpl. destruct Hr as [-> Hb']. apply i32_small. unfold INT_MAX in Hb'. lia.
    + split; [done|]. exists v. split; [done|]. split; [done|]. split; [right; simpl; lia|]. split; [done|]. exists (set_mpid (-1) v).
      rewrite upd_eq. split; [done|]. split; [done|]. split; [right; simpl; lia|]. unfold pthread_givesemaphore.
      pose proof (sem_nonzero m Hm) as Hs. destruct (Z.eqb_spec (mutex_sem m) 0) as [?|_]; [done|]. cbn [negb wp]. split; [done|].
      rewrite mutex_at_sem by done. split; [simpl; by rewrite Z.eqb_refl|]. split; [eexists; rewrite upd_eq; split; [done|simpl; lia]|].
      cbn [Z.eqb OK wp]. split; [|apply Hres; by rewrite Hd].
      apply (user_ok_ext x (bump (MutexUnlock m) OK d) _ (upd V m None)); [intros m'; unfold upd; by destruct (m' =? m)|done|].
      apply (user_ok_upd x d _ V m None HV); [done|]. rewrite Hb. destruct (recursive m); [|lia]. cbn [andb] in Er. apply Z.ltb_ge in Er. lia.
  - intros v Hp Ht. destruct (Z.eqb_spec (mpid v) (pids x)) as [?|_]; [done|]. cbn [negb wp]. apply failed_post; [done|]. apply Hres. by rewrite HVm.
Qed.

(** A semaphore that belongs to no mutex is taken and given without effect on
    the view. *)
Lemma take_wp rel W sem k Q : sem <> 0 -> mutex_at sem = None -> wp x rel W (k OK) Q -> wp x rel W (pthread_takesemaphore sem k) Q.
Proof. intros Hs Hm Hk. unfold pthread_takesemaphore. destruct (Z.eqb_spec sem 0); [done|]. cbn [negb wp]. by rewrite Hm. Qed.

Lemma give_wp rel W sem k Q : sem <> 0 -> mutex_at sem = None -> wp x rel W (k OK) Q -> wp x rel W (pthread_givesemaphore sem k) Q.
Proof. intros Hs Hm Hk. unfold pthread_givesemaphore. destruct (Z.eqb_spec sem 0); [done|]. cbn [negb wp]. by rewrite Hm. Qed.

(** The semaphore of a mutex. *)
Lemma take_mutex_wp rel W m k Q :
  m ∈ M -> W m = None -> (forall v, fresh m v -> wp x rel (upd W m (Some v)) (k OK) Q) -> wp x rel W (pthread_takesemaphore (mutex_sem m) k) Q.
Proof.
  intros Hm HW Hk. unfold pthread_takesemaphore. pose proof (sem_nonzero m Hm) as Hs. destruct (Z.eqb_spec (mutex_sem m) 0); [done|]. cbn [negb wp].
  by rewrite mutex_at_sem.
Qed.

Lemma give_mutex_wp (rel : Z -> bool) W m v k Q :
  m ∈ M -> W m = Some v -> mpid v <= 0 -> rel m = true -> wp x rel (upd W m None) (k OK) Q -> wp x rel W (pthread_givesemaphore (mutex_sem m) k) Q.
Proof.
  intros Hm HW Hp Hr Hk. unfold pthread_givesemaphore. pose proof (sem_nonzero m Hm) as Hs. destruct (Z.eqb_spec (mutex_sem m) 0); [done|]. cbn [negb wp].
  rewrite mutex_at_sem by done. split; [done|]. split; [done|]. split; [by exists v|done].
Qed.

(** A call that does not count locks. *)
Lemma other_post c V' ret :
  (forall m, bump c ret d m = d m) -> same_view V V' -> result_ok recursive c d ret -> call_post x c d V' ret.
Proof. intros Hb HV' Hres. split; [|done]. by apply (user_ok_ext x d _ V). Qed.

Lemma cond_wait_wp c m :
  call_ok (CondWait c m) V -> left_out (CondWait c m) = false -> wp x (releases (CondWait c m)) V (pthread_cond_wait c m) (call_post x (CondWait c m) d).
Proof.
  intros [Hc Hcm] Hout. unfold pthread_cond_wait. destruct (Z.eqb_spec c 0) as [Hc0|Hc0].
  { cbn [orb wp]. apply other_post; [done..|]. simpl. by destruct (Z.eqb_spec c 0). }
  destruct Hcm as [->|Hm]; [cbn [orb Z.eqb wp]; apply other_post; [done..|]; simpl; by rewrite orb_true_r|].
  pose proof (HM m Hm) as H0. destruct (Z.eqb_spec m 0) as [?|Hm0]; [lia|]. cbn [orb wp]. split; [done|]. pose proof (HV m Hm) as HVm.
  assert (Er : recursive m = false) by (cbn [left_out] in Hout; by destruct (Z.eqb_spec m 0)).
  assert (Hres : forall ret, ret = (if 0 <? d m then OK else EPERM) -> result_ok recursive (CondWait c m) d ret).
  { intros ret ->. simpl. destruct (Z.eqb_spec c 0); [done|]. by destruct (Z.eqb_spec m 0). }
  destruct (V m) as [v|] eqn:EV.
  - destruct HVm as (Hp & Ht & Hr). rewrite Er in Hr. rewrite Hp, Z.eqb_refl. cbn [negb wp]. split; [done|]. exists v. split; [done|]. split; [done|].
    split; [right; simpl; lia|]. apply (give_mutex_wp _ _ _ (set_mpid 0 v)); [done|by rewrite upd_eq|simpl; lia|simpl; by rewrite Z.eqb_refl|].
    apply take_wp; [done..|]. cbn [wp]. apply take_mutex_wp; [done|by rewrite upd_eq|]. intros w [Hw1 Hw2]. change (Z.lor (Z.lor OK OK) OK =? 0) with true.
    cbn [wp]. split; [done|]. exists w. rewrite upd_eq. split; [done|]. split; [done|]. split; [by left|].
    split; [|apply Hres; by rewrite Hr]. apply (user_ok_ext x d _ (upd V m (Some (set_mpid (pids x) w)))); [intros m'; unfold upd; by destruct (m' =? m)|done|].
    apply (user_ok_upd x d _ V m _ HV); [done|]. by rewrite Er.
  - intros v Hp Ht. destruct (Z.eqb_spec (mpid v) (pids x)) as [?|_]; [done|]. cbn [negb wp]. apply other_post; [done..|]. apply Hres. by rewrite HVm.
Qed.

Lemma signal_wp c : call_ok (CondSignal c) V -> wp x (releases (CondSignal c)) V (pthread_cond_signal c) (call_post x (CondSignal c) d).
Proof.
  intros Hc. unfold pthread_cond_signal. destruct (Z.eqb_spec c 0) as [->|Hc0]; [by apply other_post|]. cbn [wp]. intros sval.
  assert (call_post x (CondSignal c) d V OK) by (apply other_post; [done..|]; simpl; by destruct (Z.eqb_spec c 0)).
  destruct (sval <? 0); [by apply give_wp|done].
Qed.

Lemma broadcast_wp c :
  call_ok (CondBroadcast c) V -> wp x (releases (CondBroadcast c)) V (pthread_cond_broadcast c) (call_post x (CondBroadcast c) d).
Proof.
  intros Hc. unfold pthread_cond_broadcast. destruct (Z.eqb_spec c 0) as [->|Hc0]; [by apply other_post|]. cbn [wp]. intros sval.
  assert (call_post x (CondBroadcast c) d V OK) by (apply other_post; [done..|]; simpl; by destruct (Z.eqb_spec c 0)).
  induction (Z.to_nat (- sval)) as [|n IH]; [done|]. by apply give_wp.
Qed.

Lemma barrier_wp b : call_ok (BarrierWait b) V -> wp x (releases (BarrierWait b)) V (pthread_barrier_wait b) (call_post x (BarrierWait b) d).
Proof.
  intros Hb. unfold pthread_barrier_wait. destruct (Z.eqb_spec b 0) as [->|Hb0]; [apply other_post; [done..|by left]|]. cbn [wp]. intros n count.
  destruct (_ <=? _); cbn [wp].
  - split_and!; try done. apply other_post; [done..|]. by right.
  - split; [done|]. unfold call_ok in Hb. unfold barrier_sem. rewrite Hb. apply other_post; [done..|]. left. by destruct (Z.eqb_spec b 0).
Qed.

(** Every call does what it promises. *)
Lemma body_wp c : call_ok c V -> left_out c = false -> wp x (releases c) V (body c) (call_post x c d).
Proof.
  destruct c; cbn [body]; intros Hc Hout; [by apply lock_wp|by apply trylock_wp|by apply unlock_wp|done|by apply cond_wait_wp|
    by apply signal_wp|by apply broadcast_wp|done|by apply barrier_wp].
Qed.
End calls.
End logic.
