(* ===== verification/PthreadSystem.v ===== *)
(** * POSIX threads: all threads together

    The invariant of a system of threads that share mutexes: the semaphore of
    a mutex is available or has exactly one owner, and every thread is where
    its view of the mutexes allows it to be.  Every event keeps it. *)

From stdpp Require Import base tactics numbers sets list sorting.
From S2P Require Import Prelude Queue QueueProps Sched SchedProps SchedOps SchedKernel SchedPriority SchedTheorems.
From S2P Require Import Sem SemHolder SemPrio SemOps SemCalls SemSystem SemSteps SemIds Pthread PthreadSem PthreadMutex.
Import Pthread.

(** ** Traces: the calls that returned, latest first *)

Abbreviation trace := (list (Z * call * Z)).

(** How often thread [x] has locked each mutex. *)
Fixpoint depth (tr : trace) (x : Z) : Z -> Z :=
  match tr with
  | [] => fun _ => 0
  | (y, c, ret) :: tr => if y =? x then bump c ret (depth tr x) else depth tr x
  end.

(** Every call has returned what it has to. *)
Fixpoint results_ok (recursive : Z -> bool) (tr : trace) : Prop :=
  match tr with
  | [] => True
  | (x, c, ret) :: tr => result_ok recursive c (depth tr x) ret /\ results_ok recursive tr
  end.

Definition record (r : returned) (tr : trace) : trace := match r with Some entry => entry :: tr | None => tr end.

(** The call that thread [t] is in, if any, gives mutex [m] away. *)
Definition releasing (t : thread) (m : Z) : bool :=
  match t with User => false | Calling c _ | Posting c _ => releases c m end.

(** The events of interrupts. *)
Definition is_irq (e : sem_event) : bool :=
  match e with EvIrqPost _ | EvIrqPostIsr _ | EvIrqTimeout _ _ | EvIrqTick => true | _ => false end.

(** They leave every thread where it is. *)
Lemma irq_pcs y e y' f :
  is_irq e = true -> sem_exec y e = Some (y', f) -> pcs y' = pcs y.
Proof. destruct e; try done; intros _ H; cbn [sem_exec] in H; apply bind_Some in H as (t & _ & [= <- <-]); done. Qed.

Section system.
Context (T : list Z) (idle : Z) (P : list Z) (B : Z -> Z) (HT : NoDup T).
Context (M : list Z) (types pids : Z -> Z).
Context (HM : forall m, m ∈ M -> 0 < m) (Hpid : forall x, x ∈ T -> x <> idle -> 0 < pids x).
Context (Hinj : forall x y, x ∈ T -> y ∈ T -> x <> idle -> y <> idle -> pids x = pids y -> x = y).

Abbreviation sem_ok := (sem_ok T idle P B).
Abbreviation stepped := (stepped T idle P B).
Abbreviation wp := (wp M types pids).
Abbreviation user_ok := (user_ok M types pids).
Abbreviation call_post := (call_post M types pids).
Abbreviation recursive := (recursive types).

(** ** The duties of the callers *)

(** An event that does not touch the semaphores of the mutexes. *)
Definition foreign (s : pt_state) (e : sem_event) : Prop :=
  match e with
  | EvWait sem | EvWaitIsr sem | EvTryWait sem | EvPost sem | EvIrqPost sem | EvIrqPostIsr sem => mutex_at M sem = None
  | EvIrqTimeout x errcode => errcode = EINTR \/ th s x = User
  | _ => True
  end.

(** The semaphore the running thread is about to post, or the null pointer. *)
Definition posting (s : pt_state) : Z :=
  match th s (me s) with Calling _ (SemPost sem _) | Calling _ (PostLoop sem _ _) => sem | _ => 0 end.

(** Threads other than the idle task make the calls; counts and locks stay in
    range; other users and interrupts leave the semaphores of the mutexes
    alone, and a signal, not a timeout, is what interrupts a wait of these
    functions. *)
Definition pt_valid (s : pt_state) (e : pt_event) : Prop :=
  let k := kn (ss (sy s)) in
  match e with
  | Call c => th s (me s) = User /\ pcs (sy s) (me s) = PcUser /\ me s <> idle /\ call_ok M c (fun m => Some (mx s m))
  | Go =>
      th s (me s) <> User /\ lock k (me s) < MAX_LOCK_COUNT /\
      (posting s <> 0 -> count_of (ss (sy s)) (posting s) < SEM_VALUE_MAX)
  | Own e => th s (me s) = User /\ is_irq e = false /\ foreign s e /\ sem_event_valid T idle (sy s) e
  | Irq e => is_irq e = true /\ foreign s e /\ sem_event_valid T idle (sy s) e
  end.

(** The event may be a [sem_wait]. *)
Definition may_wait (e : pt_event) : bool :=
  match e with Go => true | Own e => is_wait e | _ => false end.

(** ** The invariant *)

(** [O m] owns mutex [m]; 0 is nobody. *)
Definition mutexes_ok (y : sys) (X : Z -> pthread_mutex_t) (O : Z -> Z) : Prop :=
  forall m, m ∈ M ->
    (O m = 0 \/ (O m ∈ T /\ O m <> idle)) /\
    sys_available T y (mutex_sem m) = (if O m =? 0 then 1 else 0) /\
    mtype (X m) = types m /\ (mpid (X m) <= 0 \/ (O m <> 0 /\ mpid (X m) = pids (O m))).

Definition view_of (O : Z -> Z) (X : Z -> pthread_mutex_t) (x m : Z) : option pthread_mutex_t :=
  if O m =? x then Some (X m) else None.

(** Only a wait loses the processor half way, and only a signal ends it early. *)
Definition at_rest (y : sys) (x : Z) (p : prog) : Prop :=
  match pcs y x with
  | PcUser => True
  | PcWait sem isr => isr = false /\ (exists k, p = WaitLoop sem k) /\ (errnos (ss y) x = 0 \/ errnos (ss y) x = EINTR)
  | PcPost _ _ => False
  end.

Definition in_call (O : Z -> Z) (X : Z -> pthread_mutex_t) (d : Z -> Z) (x : Z) (c : call) (p : prog) : Prop :=
  x <> idle /\ wp x (releases c) (view_of O X x) p (call_post x c d) /\
  forall m, m ∈ M -> 0 < d m -> releases c m = false -> O m = x.

Definition thread_ok (y : sys) (O : Z -> Z) (X : Z -> pthread_mutex_t) (d : Z -> Z) (x : Z) (t : thread) : Prop :=
  match t with
  | User => user_ok x d (view_of O X x) /\ forall sem isr, pcs y x = PcWait sem isr -> mutex_at M sem = None
  | Calling c p => in_call O X d x c p /\ at_rest y x p
  | Posting c p => in_call O X d x c p /\ exists sem r, pcs y x = PcPost sem r
  end.

Record pt_inv (s : pt_state) (tr : trace) (O : Z -> Z) : Prop := {
  pi_sem : sem_ok (sy s);
  pi_pid x : x ∈ T -> pid (tcbs (kn (ss (sy s))) x) = pids x;
  pi_mutex : mutexes_ok (sy s) (mx s) O;
  pi_thread x : x ∈ T -> thread_ok (sy s) O (mx s) (depth tr x) x (th s x);
  pi_result : results_ok recursive tr
}.

(** ** One thread moves *)

Lemma sem_ok_nonzero y x : sem_ok y -> x ∈ T -> x <> 0.
Proof.
  intros (A & G & Hi) Hx. pose proof (in_core _ _ _ _ _ _ _ Hi) as Hc. destruct (co_listed _ _ _ _ _ _ Hc x Hx) as [tl Htl].
  exact (listed_nonnull T idle _ A x tl (co_ok _ _ _ _ _ _ Hc) Htl).
Qed.

(** What a step of thread [x], or of nobody, does to the others. *)
Record moved (s : pt_state) (x : Z) (y' : sys) : Prop := {
  mv_ok : sem_ok y';
  mv_pid z : pid (tcbs (kn (ss y')) z) = pid (tcbs (kn (ss (sy s))) z);
  mv_pc z : z <> x -> pcs y' z = pcs (sy s) z;
  mv_errno z sem isr : z <> x -> pcs (sy s) z = PcWait sem isr -> th s z <> User ->
    errnos (ss y') z = errnos (ss (sy s)) z \/ errnos (ss y') z = EINTR
}.

Lemma moved_refl s x : sem_ok (sy s) -> moved s x (sy s).
Proof. intros H. constructor; try done. intros. by left. Qed.

Lemma stepped_moved s e y' f : foreign s e \/ is_irq e = false -> stepped (sy s) e y' f -> moved s (me s) y'.
Proof.
  intros Hf [H1 H2 H3 H4 H5]. constructor; try done. intros z sem isr Hz Hpc Ht. destruct (H3 z sem isr Hpc) as [[->|E] _]; [by left|right].
  rewrite E in Hf. simpl in Hf. by destruct Hf as [[?|?]|?].
Qed.

(** Threads that keep their view stay as they are. *)
Lemma thread_frame s O O' X' d x z y' :
  moved s x y' -> z <> x -> same_view (view_of O (mx s) z) (view_of O' X' z) -> (forall m, O m = z -> O' m = z) ->
  thread_ok (sy s) O (mx s) d z (th s z) -> thread_ok y' O' X' d z (th s z).
Proof.
  intros Hmv Hz HV HO. pose proof (mv_pc _ _ _ Hmv z Hz) as Hpc. pose proof (mv_errno _ _ _ Hmv z) as He.
  assert (Hcall : forall c p, in_call O (mx s) d z c p -> in_call O' X' d z c p).
  { intros c p (Hid & Hw & Hk). split; [done|]. split; [|intros m Hm Hd Hr; by apply HO, Hk].
    eapply (wp_mono M types pids z _ _ _ _ _ _ HV); [|exact Hw]. intros V V' ret HV' [Hu Hr]. split; [|done]. by eapply user_ok_ext. }
  destruct (th s z) as [|c p|c p] eqn:Et; simpl; rewrite ?Hpc.
  - intros [Hu Hs]. split; [|done]. by eapply user_ok_ext.
  - intros [Hc Hr]. split; [by apply Hcall|]. unfold at_rest in *. rewrite Hpc. destruct (pcs (sy s) z) as [|sem isr|]; try done.
    destruct Hr as (Hi & Hk & He'). split_and!; try done. destruct (He sem isr Hz eq_refl ltac:(done)) as [->| ->]; [done|by right].
  - intros [Hc Hr]. split; [by apply Hcall|done].
Qed.

(** The running thread moves on; [t] is where it is then. *)
Lemma thread_moves s tr O x y' X' O' t :
  pt_inv s tr O -> moved s x y' -> mutexes_ok y' X' O' ->
  (forall z m, z <> x -> z ∈ T -> (O' m = z <-> O m = z) /\ (O m = z -> X' m = mx s m)) ->
  (x ∈ T -> thread_ok y' O' X' (depth tr x) x t) ->
  pt_inv (mk_pt y' X' (bcount s) (upd (th s) x t)) tr O'.
Proof.
  intros [Hs Hp Hm Ht Hr] Hmv Hm' Ho Hx. constructor; simpl; try done.
  - apply (mv_ok _ _ _ Hmv).
  - intros z Hz. rewrite (mv_pid _ _ _ Hmv). by apply Hp.
  - intros z Hz. destruct (decide (z = x)) as [->|Hne]; [rewrite upd_eq; by apply Hx|]. rewrite upd_ne by done.
    eapply thread_frame; [done|done| | |by apply Ht].
    + intros m. destruct (Ho z m Hne Hz) as [Hi He]. unfold view_of. destruct (Z.eqb_spec (O m) z), (Z.eqb_spec (O' m) z); try tauto. by rewrite He.
    + intros m. by apply Ho.
Qed.

(** ** What happens to the mutexes *)

Lemma mutexes_same y e y' f X O :
  mutexes_ok y X O -> stepped y e y' f -> (forall m, m ∈ M -> acquired f (mutex_sem m) = 0 /\ posted e (mutex_sem m) = 0) -> mutexes_ok y' X O.
Proof.
  intros Hm Hs Hf m Hin. destruct (Hm m Hin) as (H1 & H2 & H3). split; [done|]. split; [|done]. destruct (Hf m Hin) as [Hf1 Hf2].
  pose proof (sp_available _ _ _ _ _ _ _ _ Hs (mutex_sem m) (sem_nonzero M HM m Hin)). lia.
Qed.

Lemma acquired_other t ret m : t <> mutex_sem m -> acquired (Some (t, ret)) (mutex_sem m) = 0.
Proof. intros Hne. simpl. by destruct (Z.eqb_spec t (mutex_sem m)). Qed.

Lemma sem_other m m' : m <> m' -> mutex_sem m <> mutex_sem m'.
Proof. unfold mutex_sem. lia. Qed.

(** A thread takes the semaphore of [m]: nobody owned it. *)
Lemma mutexes_acquire y e y' X O m x :
  mutexes_ok y X O -> m ∈ M -> x ∈ T -> x <> idle -> x <> 0 -> stepped y e y' (Some (mutex_sem m, OK)) ->
  (forall m, m ∈ M -> posted e (mutex_sem m) = 0) ->
  O m = 0 /\ fresh types m (X m) /\ mutexes_ok y' X (upd O m x).
Proof.
  intros Hm Hin Hx Hid Hx0 Hs Hp. destruct (Hm m Hin) as (H1 & H2 & H3 & H4).
  pose proof (sp_available _ _ _ _ _ _ _ _ Hs (mutex_sem m) (sem_nonzero M HM m Hin)) as Ha. rewrite (Hp m Hin) in Ha.
  unfold acquired in Ha. rewrite Z.eqb_refl in Ha. simpl in Ha. pose proof (available_nonneg T y' (mutex_sem m)) as Hn.
  destruct (Z.eqb_spec (O m) 0) as [E|]; [|lia]. split; [done|]. split; [split; [|done]; destruct H4 as [?|[? _]]; [done|done]|].
  intros m' Hin'. unfold upd. destruct (Z.eqb_spec m' m) as [->|Hne].
  - split; [by right|]. split; [destruct (Z.eqb_spec x 0); [done|lia]|]. split; [done|]. left. destruct H4 as [?|[? _]]; [done|done].
  - destruct (Hm m' Hin') as (G1 & G2 & G3). split; [done|]. split; [|done].
    pose proof (sp_available _ _ _ _ _ _ _ _ Hs (mutex_sem m') (sem_nonzero M HM m' Hin')) as Ha'.
    rewrite (Hp m' Hin'), (acquired_other (mutex_sem m) OK m' (sem_other m m' ltac:(congruence))) in Ha'. lia.
Qed.

(** The owner gives the semaphore of [m] back. *)
Lemma mutexes_release y y' X O m :
  mutexes_ok y X O -> m ∈ M -> O m <> 0 -> mpid (X m) <= 0 -> stepped y (EvPost (mutex_sem m)) y' None -> mutexes_ok y' X (upd O m 0).
Proof.
  intros Hm Hin Ho Hp Hs m' Hin'. destruct (Hm m' Hin') as (G1 & G2 & G3 & G4).
  pose proof (sp_available _ _ _ _ _ _ _ _ Hs (mutex_sem m') (sem_nonzero M HM m' Hin')) as Ha. unfold upd. destruct (Z.eqb_spec m' m) as [->|Hne].
  - split; [by left|]. split; [|split; [done|by left]]. simpl in Ha. rewrite Z.eqb_refl in Ha. destruct (Z.eqb_spec (O m) 0); [done|]. simpl in *. lia.
  - split; [done|]. split; [|done]. simpl in Ha. destruct (Z.eqb_spec (mutex_sem m) (mutex_sem m')) as [E|_]; [|simpl in Ha; lia].
    unfold mutex_sem in E. lia.
Qed.

(** The owner writes to [m]. *)
Lemma mutexes_write y X O m v :
  mutexes_ok y X O -> m ∈ M -> O m <> 0 -> mtype v = types m -> (mpid v = pids (O m) \/ mpid v <= 0) -> mutexes_ok y (upd X m v) O.
Proof.
  intros Hm Hin Ho Ht Hp m' Hin'. destruct (Hm m' Hin') as (G1 & G2 & G3 & G4). split; [done|]. split; [done|]. unfold upd.
  destruct (Z.eqb_spec m' m) as [->|]; [|done]. split; [done|]. destruct Hp; [by right|by left].
Qed.

(** The same, as the thread sees it. *)
Lemma view_acquire O X m x : same_view (upd (view_of O X x) m (Some (X m))) (view_of (upd O m x) X x).
Proof. intros m'. unfold view_of, upd. destruct (Z.eqb_spec m' m) as [->|]; [by rewrite Z.eqb_refl|done]. Qed.

Lemma view_release O X m x : x <> 0 -> same_view (upd (view_of O X x) m None) (view_of (upd O m 0) X x).
Proof. intros Hx m'. unfold view_of, upd. destruct (Z.eqb_spec m' m) as [->|]; [|done]. by destruct (Z.eqb_spec 0 x). Qed.

Lemma view_write O X m v x : O m = x -> same_view (upd (view_of O X x) m (Some v)) (view_of O (upd X m v) x).
Proof. intros <- m'. unfold view_of, upd. destruct (Z.eqb_spec m' m) as [->|]; [by rewrite Z.eqb_refl|done]. Qed.

Lemma view_Some O X x m v : view_of O X x m = Some v -> O m = x /\ v = X m.
Proof. unfold view_of. destruct (Z.eqb_spec (O m) x); [|done]. by intros [= <-]. Qed.

Lemma view_None O X x m : view_of O X x m = None -> O m <> x.
Proof. unfold view_of. by destruct (Z.eqb_spec (O m) x). Qed.

(** ** Steps of the running thread *)

Definition advances (tr : trace) (r : option (pt_state * returned)) : Prop :=
  exists s' ret O', r = Some (s', ret) /\ pt_inv s' (record ret tr) O'.

Lemma in_call_next O X O' X' d x c p V' p' :
  in_call O X d x c p -> wp x (releases c) V' p' (call_post x c d) -> same_view V' (view_of O' X' x) ->
  (forall m, m ∈ M -> releases c m = false -> O m = x -> O' m = x) -> in_call O' X' d x c p'.
Proof.
  intros (Hid & _ & Hk) Hw HV HO. split; [done|]. split; [|intros m Hm Hd Hr; apply HO; by auto].
  eapply (wp_mono M types pids x _ _ _ _ _ _ HV); [|exact Hw]. intros V1 V2 ret HV' [Hu Hr]. split; [|done]. by eapply user_ok_ext.
Qed.

Section running.
Context (s : pt_state) (tr : trace) (O : Z -> Z) (Hi : pt_inv s tr O) (Hv : pt_valid s Go) (Hroom : nest_room T (sy s)).
Abbreviation x := (me s).
Abbreviation d := (depth tr x).

Lemma me_in : x ∈ T.
Proof. exact (sem_ok_running T idle P B _ (pi_sem _ _ _ Hi)). Qed.

Lemma me_nonzero : x <> 0.
Proof. exact (sem_ok_nonzero _ _ (pi_sem _ _ _ Hi) me_in). Qed.

(** A step on memory alone. *)
Lemma advance_local X' c p' :
  mutexes_ok (sy s) X' O -> (forall m, O m <> x -> X' m = mx s m) -> in_call O X' d x c p' -> pcs (sy s) x = PcUser ->
  pt_inv (mk_pt (sy s) X' (bcount s) (upd (th s) x (Calling c p'))) tr O.
Proof.
  intros Hm HX Hc Hpc. apply (thread_moves s tr O); [done|apply moved_refl, Hi|done| |].
  - intros z m Hz Hzt. split; [done|]. intros <-. by apply HX.
  - intros _. split; [done|]. unfold at_rest. by rewrite Hpc.
Qed.

(** A step of the semaphores. *)
Lemma advance_sem e y' f O' t :
  stepped (sy s) e y' f -> is_irq e = false -> mutexes_ok y' (mx s) O' ->
  (forall z m, z <> x -> z <> 0 -> O' m = z <-> O m = z) -> thread_ok y' O' (mx s) d x t ->
  pt_inv (mk_pt y' (mx s) (bcount s) (upd (th s) x t)) tr O'.
Proof.
  intros Hs He Hm Ho Ht. apply (thread_moves s tr O); [done|apply (stepped_moved s e y' f); [by right|done]|done| |done].
  intros z m Hz Hzt. split; [|done]. apply Ho; [done|]. exact (sem_ok_nonzero _ _ (pi_sem _ _ _ Hi) Hzt).
Qed.

(** The semaphores do their event. *)
Lemma sem_then_runs e k :
  sem_event_valid T idle (sy s) e ->
  (forall y' f, sem_exec (sy s) e = Some (y', f) -> stepped (sy s) e y' f ->
     exists O', pt_inv (mk_pt y' (mx s) (bcount s) (upd (th s) x (k y' f))) tr O') ->
  advances tr (sem_then s e k).
Proof.
  intros He Hk. destruct (sem_exec_stepped T idle P B HT (sy s) e (pi_sem _ _ _ Hi) He (fun _ => Hroom)) as (y' & f & Hrun & Hst).
  destruct (Hk y' f Hrun Hst) as [O' HO]. unfold sem_then. rewrite Hrun. cbn [mbind option_bind]. by eexists _, None, O'.
Qed.

Section calling.
Context (c : call) (p : prog) (Hth : th s x = Calling c p).

Lemma calling_ok : in_call O (mx s) d x c p /\ at_rest (sy s) x p.
Proof. pose proof (pi_thread _ _ _ Hi x me_in) as H. by rewrite Hth in H. Qed.

Lemma not_waiting : (forall sem k, p <> WaitLoop sem k) -> pcs (sy s) x = PcUser.
Proof.
  intros Hp. destruct calling_ok as [_ Hr]. unfold at_rest in Hr. destruct (pcs (sy s) x) as [|sem isr|]; [done| |done].
  destruct Hr as (_ & [k ->] & _). by destruct (Hp sem k).
Qed.

(** A step that only reads. *)
Lemma reads_go p' :
  (forall sem k, p <> WaitLoop sem k) -> wp x (releases c) (view_of O (mx s) x) p' (call_post x c d) ->
  advances tr (Some (with_th x (Calling c p') s, None)).
Proof.
  intros Hp Hw. eexists _, None, O. split; [done|]. apply advance_local; [apply Hi|done| |by apply not_waiting].
  by apply (in_call_next O (mx s) _ _ _ _ _ p _ _ (proj1 calling_ok) Hw).
Qed.

Lemma ret_go ret : p = Ret ret -> advances tr (Some (with_th x User s, Some (x, c, ret))).
Proof.
  intros Ep. destruct calling_ok as [(Hid & Hw & Hk) _]. rewrite Ep in Hw. destruct Hw as [Hu Hr]. eexists _, (Some (x, c, ret)), O. split; [done|].
  pose proof (not_waiting ltac:(by rewrite Ep)) as Hpc. destruct Hi as [H1 H2 H3 H4 H5]. constructor; simpl; try done.
  intros z Hz. destruct (Z.eqb_spec x z) as [<-|Hne].
  - rewrite upd_eq. split; [done|]. intros sem isr. by rewrite Hpc.
  - rewrite upd_ne by congruence. by apply H4.
Qed.

Lemma mod_go m f k : p = ModMutex m f k -> advances tr (Some (with_th x (Calling c k) (with_mx m (f (mx s m)) s), None)).
Proof.
  intros Ep. destruct calling_ok as [Hc _]. pose proof Hc as (Hid & Hw & _). rewrite Ep in Hw. cbn [PthreadMutex.wp] in Hw. destruct Hw as (Hm & v & HV & Ht & Hp & Hw).
  apply view_Some in HV as [Ho ->]. eexists _, None, O. split; [done|]. pose proof me_nonzero as H0. apply advance_local; [| | |apply not_waiting; by rewrite Ep].
  - apply mutexes_write; [apply Hi|done|congruence|done|by rewrite Ho].
  - intros m' Hm'. apply upd_ne. by intros ->.
  - apply (in_call_next O (mx s) _ _ _ _ _ _ _ _ Hc Hw); [by apply view_write|done].
Qed.

Lemma lock_go e k :
  (e = EvLock /\ p = SchedLock k) \/ (e = EvUnlock /\ p = SchedUnlock k) -> advances tr (sem_then s e (fun _ _ => Calling c k)).
Proof.
  intros Hp. destruct Hv as (_ & Hl & _). assert (Hpc : pcs (sy s) x = PcUser) by (apply not_waiting; by destruct Hp as [[_ E]|[_ E]]; rewrite E).
  assert (He : e = EvLock \/ e = EvUnlock) by tauto. apply sem_then_runs; [by destruct He as [->| ->]|]. intros y' f Hrun Hst.
  destruct (lock_outcome _ _ _ _ He Hrun) as [-> Hpc']. exists O. destruct calling_ok as [Hc _]. eapply advance_sem; [done|by destruct He as [->| ->]| |done|].
  - eapply mutexes_same; [apply Hi|done|]. intros m _. by destruct He as [->| ->].
  - split; [|unfold at_rest; by rewrite Hpc', Hpc]. eapply (in_call_next O (mx s) _ _ _ _ _ _ _ _ Hc); [|done|done].
    destruct Hc as (_ & Hw & _). by destruct Hp as [[_ E]|[_ E]]; rewrite E in Hw.
Qed.

(** [sem_post], of the semaphore of a mutex or of another one. *)
Lemma post_go sem p' :
  (forall t k, p <> WaitLoop t k) -> sem <> 0 -> posting s = sem ->
  match mutex_at M sem with
  | Some m =>
      releases c m = true /\ (exists v, view_of O (mx s) x m = Some v /\ mpid v <= 0) /\
      wp x (releases c) (upd (view_of O (mx s) x) m None) p' (call_post x c d)
  | None => wp x (releases c) (view_of O (mx s) x) p' (call_post x c d)
  end ->
  advances tr (sem_then s (EvPost sem) (fun y _ => match pcs y x with PcUser => Calling c p' | _ => Posting c p' end)).
Proof.
  intros Hp Hs Hsem Hw. destruct Hv as (_ & Hl & Hmax). rewrite Hsem in Hmax. specialize (Hmax Hs). pose proof (not_waiting Hp) as Hpc. destruct calling_ok as [Hc _].
  apply sem_then_runs; [by split_and!|]. intros y' f Hrun Hst. destruct (post_outcome _ _ _ _ Hrun Hpc) as [-> Hpc'].
  assert (Ht : forall O', in_call O' (mx s) d x c p' -> thread_ok y' O' (mx s) d x (match pcs y' x with PcUser => Calling c p' | _ => Posting c p' end)).
  { intros O' Hc'. fold x in Hpc'. destruct Hpc' as [E|[r E]]; rewrite E; (split; [done|]); [unfold at_rest; by rewrite E|by eexists _, _]. }
  destruct (mutex_at M sem) as [m|] eqn:Em.
  - apply mutex_at_Some in Em as [Hm ->]. destruct Hw as (Hr & (v & HV & Hp0) & Hw). apply view_Some in HV as [Ho ->]. pose proof me_nonzero as H0.
    exists (upd O m 0). eapply advance_sem; [done|done| | |apply Ht].
    + apply (mutexes_release (sy s)); [apply Hi|done|congruence|done|done].
    + intros z m' Hz Hz0. unfold upd. destruct (Z.eqb_spec m' m) as [->|]; [|done]. split; congruence.
    + apply (in_call_next O (mx s) _ _ _ _ _ _ _ _ Hc Hw); [by apply view_release|]. intros m' _ Hr' Ho'. rewrite upd_ne; [done|]. congruence.
  - exists O. eapply advance_sem; [done|done| |done|apply Ht; by apply (in_call_next O (mx s) _ _ _ _ _ _ _ _ Hc Hw)].
    eapply mutexes_same; [apply Hi|done|]. intros m Hm. split; [done|]. simpl. by destruct (Z.eqb_spec sem (mutex_sem m)) as [->|]; [rewrite mutex_at_sem in Em|].
Qed.

(** The thread has got a count of [sem] by an event that is not a post. *)
Lemma got_sem e y' sem p' :
  stepped (sy s) e y' (Some (sem, OK)) -> is_irq e = false -> (forall u, posted e u = 0) -> pcs y' x = PcUser ->
  match mutex_at M sem with
  | Some m => forall v, fresh types m v -> view_of O (mx s) x m = None -> wp x (releases c) (upd (view_of O (mx s) x) m (Some v)) p' (call_post x c d)
  | None => wp x (releases c) (view_of O (mx s) x) p' (call_post x c d)
  end ->
  exists O', pt_inv (mk_pt y' (mx s) (bcount s) (upd (th s) x (Calling c p'))) tr O'.
Proof.
  intros Hst He Hpost Hpc Hw. destruct calling_ok as [Hc _]. pose proof me_nonzero as H0. destruct (mutex_at M sem) as [m|] eqn:Em.
  - apply mutex_at_Some in Em as [Hm ->].
    destruct (mutexes_acquire (sy s) e y' (mx s) O m x (pi_mutex _ _ _ Hi) Hm me_in ltac:(apply Hc) H0 Hst ltac:(done)) as (Ho & Hf & Hm').
    exists (upd O m x). eapply advance_sem; [done|done|done| |].
    + intros z m' Hz Hz0. unfold upd. destruct (Z.eqb_spec m' m) as [->|]; [|done]. split; congruence.
    + split; [|unfold at_rest; by rewrite Hpc]. eapply (in_call_next O (mx s) _ _ _ _ _ _ _ _ Hc); [apply Hw; [exact Hf|]|apply view_acquire|].
      * unfold view_of. rewrite Ho. by destruct (Z.eqb_spec 0 x).
      * intros m' _ _ Ho'. unfold upd. by destruct (Z.eqb_spec m' m).
  - exists O. eapply advance_sem; [done|done| |done|].
    + eapply mutexes_same; [apply Hi|done|]. intros m Hm. split; [|done]. apply acquired_other. by eapply mutex_at_None.
    + split; [|unfold at_rest; by rewrite Hpc]. by apply (in_call_next O (mx s) _ _ _ _ _ _ _ _ Hc Hw).
Qed.

(** The event gave the thread nothing, and it goes on with [p']. *)
Lemma got_nothing e y' f p' :
  stepped (sy s) e y' f -> is_irq e = false -> (forall u, posted e u = 0) -> (forall u, acquired f u = 0) ->
  wp x (releases c) (view_of O (mx s) x) p' (call_post x c d) -> at_rest y' x p' ->
  exists O', pt_inv (mk_pt y' (mx s) (bcount s) (upd (th s) x (Calling c p'))) tr O'.
Proof.
  intros Hst He Hpost Hacq Hw Hr. destruct calling_ok as [Hc _]. exists O. eapply advance_sem; [done|done| |done|].
  - eapply mutexes_same; [apply Hi|done|]. done.
  - split; [|done]. by apply (in_call_next O (mx s) _ _ _ _ _ _ _ _ Hc Hw).
Qed.

Lemma trywait_go sem k :
  p = SemTryWait sem k ->
  advances tr (sem_then s (EvTryWait sem) (fun y f =>
    match f with Some (_, ret) => Calling c (k ret (errno_of y x)) | None => Calling c p end)).
Proof.
  intros Ep. pose proof (not_waiting ltac:(by rewrite Ep)) as Hpc. destruct calling_ok as [(Hid & Hw & _) _]. rewrite Ep in Hw. cbn [PthreadMutex.wp] in Hw.
  destruct Hw as (Hs & Hfail & Hok). assert (He : sem_event_valid T idle (sy s) (EvTryWait sem)) by by split_and!.
  apply sem_then_runs; [done|]. intros y' f Hrun Hst. destruct (trywait_outcome T idle P B (sy s) sem y' f (pi_sem _ _ _ Hi) He Hrun) as [Hpc' Hf].
  assert (Hpcx : pcs y' x = PcUser) by by rewrite Hpc'. destruct Hf as [->|[-> Herr]].
  - apply (got_sem (EvTryWait sem) y' sem); try done. destruct (mutex_at M sem); [|done]. intros v Hv1 Hv2. by apply Hok.
  - assert (errno_of y' x = EAGAIN) as -> by exact Herr.
    apply (got_nothing (EvTryWait sem) y' (Some (sem, ERROR))); try done; [intros u; simpl; by rewrite andb_false_r|]. unfold at_rest. by rewrite Hpcx.
Qed.

(** The loop around [sem_wait]: an interrupted wait is taken up again. *)
Lemma wait_go sem k :
  p = WaitLoop sem k ->
  advances tr (sem_then s (match pcs (sy s) x with PcUser => EvWait sem | _ => EvResume end) (fun y f =>
    match f with
    | None => Calling c p
    | Some (_, ret) =>
        if ret =? OK then Calling c (k 0)
        else if errno_of y x =? EINTR then Calling c p else Calling c (k (errno_of y x))
    end)).
Proof.
  intros Ep. destruct calling_ok as [(Hid & Hw & _) Hr]. pose proof Hw as Hw0. rewrite Ep in Hw. cbn [PthreadMutex.wp] in Hw. destruct Hw as [Hs Hk].
  destruct Hv as (_ & Hl & _).
  assert (Hgot : match mutex_at M sem with
    | Some m => forall v, fresh types m v -> view_of O (mx s) x m = None -> wp x (releases c) (upd (view_of O (mx s) x) m (Some v)) (k 0) (call_post x c d)
    | None => wp x (releases c) (view_of O (mx s) x) (k 0) (call_post x c d) end).
  { destruct (mutex_at M sem); [|done]. intros v Hv1 _. by apply Hk. }
  unfold at_rest in Hr. destruct (pcs (sy s) x) as [|sem' isr|] eqn:Hpc; [| |done].
  - assert (He : sem_event_valid T idle (sy s) (EvWait sem)) by by split_and!. apply sem_then_runs; [done|]. intros y' f Hrun Hst.
    destruct (wait_outcome T idle P B (sy s) sem y' f (pi_sem _ _ _ Hi) He Hroom Hrun) as [[-> Hpc']|(-> & Hpc' & Herr)].
    + by apply (got_sem (EvWait sem) y' sem).
    + apply (got_nothing (EvWait sem) y' None); try done. unfold at_rest. change (cpu (kn (ss (sy s)))) with x in Hpc'. rewrite Hpc'.
      split; [done|]. split; [by exists k|]. by left.
  - destruct Hr as (-> & [k' E] & Herr). rewrite Ep in E. injection E as <- <-.
    apply sem_then_runs; [intros E; change (pcs (sy s) x = PcUser) in E; congruence|]. intros y' f Hrun Hst.
    destruct (resume_wait_outcome T idle P B (sy s) sem y' f (pi_sem _ _ _ Hi) Hpc Hrun) as (ret & -> & Hpc' & Herr' & ->).
    change (cpu (kn (ss (sy s)))) with x in *. destruct Herr as [Herr|Herr]; rewrite Herr in Hst |- *.
    + by apply (got_sem EvResume y' sem).
    + assert (errno_of y' x = EINTR) as -> by (rewrite <- Herr; exact Herr'). apply (got_nothing EvResume y' (Some (sem, ERROR))); try done.
      * intros u. simpl. by rewrite andb_false_r.
      * unfold at_rest. by rewrite Hpc'.
Qed.

Lemma calling_go : advances tr (pt_go s).
Proof.
  unfold pt_go. rewrite Hth. destruct calling_ok as [(Hid & Hw & _) _]. pose proof wait_go as Hwait. pose proof trywait_go as Htry.
  pose proof mod_go as Hmod. pose proof reads_go as Hread. pose proof post_go as Hpost. pose proof ret_go as Hret. pose proof lock_go as Hlock.
  destruct p as [ret|k|k|k|m k|m f k|b k|e k|sem k|sem k|sem k|sem k|sem k|sem n k] eqn:Ep; cbn [PthreadMutex.wp] in Hw; try done.
  - by apply Hret.
  - apply Hlock. by left.
  - apply Hlock. by right.
  - rewrite (pi_pid _ _ _ Hi x me_in). by apply Hread.
  - destruct Hw as [Hm Hw]. apply Hread; [done|]. destruct (view_of O (mx s) x m) as [v|] eqn:EV.
    + by apply view_Some in EV as [_ ->].
    + apply view_None in EV. destruct (pi_mutex _ _ _ Hi m Hm) as (_ & _ & Ht & Hp). apply Hw; [|done]. pose proof (Hpid x me_in Hid) as Hx.
      destruct Hp as [?|[H0 ->]]; [lia|]. destruct (pi_mutex _ _ _ Hi m Hm) as ([?|[HO HOi]] & _); [done|]. intros E. apply EV, Hinj; try done. exact me_in.
  - by apply Hmod.
  - by apply Hread.
  - by apply Htry.
  - by apply Hread.
  - destruct Hw as [Hs Hw]. destruct (Z.eqb_spec sem 0) as [?|_]; [done|]. apply Hpost; try done. unfold posting. by rewrite Hth.
  - by apply Hwait.
  - destruct Hw as (Hs & Hm & Hw). destruct (n <? 0); [|by apply Hread]. apply Hpost; [done|done|unfold posting; by rewrite Hth|]. rewrite Hm. cbn [PthreadMutex.wp]. intros n'. done.
Qed.
End calling.

(** The thread comes back from a post in which it lost the processor. *)
Lemma posting_go c p : th s x = Posting c p -> advances tr (pt_go s).
Proof.
  intros Hth. unfold pt_go. rewrite Hth. pose proof (pi_thread _ _ _ Hi x me_in) as Ht. rewrite Hth in Ht. destruct Ht as [Hc (sem & r & Hpc)].
  apply sem_then_runs; [intros E; change (pcs (sy s) x = PcUser) in E; congruence|]. intros y' f Hrun Hst.
  destruct (resume_post_outcome (sy s) sem r y' f Hpc Hrun) as [-> Hpc']. exists O. eapply advance_sem; [done|done| |done|].
  - eapply mutexes_same; [apply Hi|done|]. done.
  - split; [done|]. unfold at_rest. change (cpu (kn (ss (sy s)))) with x in Hpc'. by rewrite Hpc'.
Qed.

Lemma go_step : advances tr (pt_exec s Go).
Proof.
  destruct (th s x) as [|c p|c p] eqn:Hth; [by destruct Hv as [? _]|by apply (calling_go c p)|by apply (posting_go c p)].
Qed.
End running.

(** ** The other events *)

Lemma call_step s tr O c : pt_inv s tr O -> pt_valid s (Call c) -> left_out types c = false -> advances tr (pt_exec s (Call c)).
Proof.
  intros Hi (Hth & Hpc & Hid & Hc) Hout. pose proof (me_in s tr O Hi) as Hin. simpl. rewrite Hth. eexists _, None, O. split; [done|].
  pose proof (pi_thread _ _ _ Hi (me s) Hin) as Hu. rewrite Hth in Hu. destruct Hu as [Hu _].
  apply (advance_local s tr O Hi); [apply Hi|done| |done]. split; [done|]. split.
  - apply body_wp; [done|done| |done]. destruct c; simpl in *; try done; destruct Hc as [?|[Hm Hov]]; try (by left); right; (split; [done|]);
      intros v HV; apply view_Some in HV as [_ ->]; by apply Hov.
  - intros m Hm Hd _. specialize (Hu m Hm). unfold view_of in Hu. destruct (Z.eqb_spec (O m) (me s)); [done|]. lia.
Qed.

(** Who uses other semaphores leaves the mutexes as they are. *)
Lemma foreign_mutexes s tr O e y' f :
  pt_inv s tr O -> foreign s e -> th s (me s) = User \/ is_irq e = true -> sem_exec (sy s) e = Some (y', f) -> stepped (sy s) e y' f -> mutexes_ok y' (mx s) O.
Proof.
  intros Hi Hf Ht Hrun Hst. eapply mutexes_same; [apply Hi|done|]. intros m Hm. pose proof (me_in s tr O Hi) as Hin.
  assert (Hne : forall sem, mutex_at M sem = None -> (sem =? mutex_sem m) = false) by (intros sem Hs; apply Z.eqb_neq; by eapply mutex_at_None).
  split.
  - destruct f as [[t ret]|]; [|done]. simpl. destruct (exec_finished _ _ _ _ _ Hrun) as [->|[->|[->|[-> [isr Hpc]]]]]; try by rewrite Hne.
    destruct Ht as [Ht|?]; [|done]. pose proof (pi_thread _ _ _ Hi (me s) Hin) as Hu. rewrite Ht in Hu. destruct Hu as [_ Hu]. by rewrite Hne by (by eapply Hu).
  - destruct e; simpl in *; try done; by rewrite Hne.
Qed.

Lemma own_step s tr O e :
  pt_inv s tr O -> pt_valid s (Own e) -> (is_wait e = true -> nest_room T (sy s)) -> advances tr (pt_exec s (Own e)).
Proof.
  intros Hi (Hth & Hirq & Hf & He) Hroom. simpl. rewrite Hth.
  destruct (sem_exec_stepped T idle P B HT (sy s) e (pi_sem _ _ _ Hi) He Hroom) as (y' & f & Hrun & Hst). rewrite Hrun. cbn [mbind option_bind].
  eexists _, None, O. split; [done|]. pose proof (foreign_mutexes s tr O e y' f Hi Hf ltac:(by left) Hrun Hst) as Hm.
  pose proof (stepped_moved s e y' f ltac:(by left) Hst) as Hmv. destruct Hi as [H1 H2 H3 H4 H5]. constructor; simpl; try done; [apply Hst| |].
  - intros z Hz. rewrite (mv_pid _ _ _ Hmv). by apply H2.
  - intros z Hz. destruct (decide (z = me s)) as [->|Hne]; [|by eapply thread_frame, H4].
    specialize (H4 (me s) Hz). rewrite Hth in *. destruct H4 as [Hu Hs]. split; [done|]. intros sem isr Hpc.
    destruct (exec_waits _ _ _ _ _ _ Hrun Hpc) as [E|[->| ->]]; [by eapply Hs|done..].
Qed.

Lemma irq_step s tr O e : pt_inv s tr O -> pt_valid s (Irq e) -> advances tr (pt_exec s (Irq e)).
Proof.
  intros Hi (Hirq & Hf & He). simpl.
  destruct (sem_exec_stepped T idle P B HT (sy s) e (pi_sem _ _ _ Hi) He ltac:(by destruct e)) as (y' & f & Hrun & Hst). rewrite Hrun. cbn [mbind option_bind].
  eexists _, None, O. split; [done|]. pose proof (foreign_mutexes s tr O e y' f Hi Hf ltac:(by right) Hrun Hst) as Hm.
  assert (Hmv : moved s 0 y').
  { destruct Hst as [G1 G2 G3 G4 G5]. constructor; try done.
    - intros z _. by rewrite (irq_pcs _ _ _ _ Hirq Hrun).
    - intros z sem isr _ Hpc Ht. destruct (G3 z sem isr Hpc) as [[->|E] _]; [by left|right]. rewrite E in Hf. by destruct Hf. }
  pose proof (pi_sem _ _ _ Hi) as H0. destruct Hi as [H1 H2 H3 H4 H5]. constructor; simpl; try done; [apply Hst| |].
  - intros z Hz. rewrite (mv_pid _ _ _ Hmv). by apply H2.
  - intros z Hz. eapply thread_frame, H4; try done. exact (sem_ok_nonzero _ _ H0 Hz).
Qed.

(** ** Any event *)

Lemma pt_step s tr O e :
  pt_inv s tr O -> pt_valid s e -> (forall c, e = Call c -> left_out types c = false) -> (may_wait e = true -> nest_room T (sy s)) ->
  advances tr (pt_exec s e).
Proof.
  destruct e; intros Hi Hv Hout Hroom; [apply (call_step s tr O)|apply (go_step s tr O)|apply (own_step s tr O)|apply (irq_step s tr O)]; auto.
Qed.
End system.
