(* ===== verification/PthreadTheorems.v ===== *)
(** * POSIX threads: theorems

    Mutual exclusion and the results of the calls in every run of a system of
    threads, and runs in which recursive mutexes, condition variables and
    barriers do not do what they should. *)

From stdpp Require Import base tactics numbers sets list sorting.
From S2P Require Import Prelude Queue QueueProps Sched SchedProps SchedOps SchedKernel SchedPriority SchedTheorems.
From S2P Require Import Sem SemHolder SemPrio SemOps SemCalls SemSystem SemSteps SemTheorems SemIds.
From S2P Require Import Pthread PthreadSem PthreadMutex PthreadSystem.
Import Pthread.

(** ** Runs *)

Definition type_of (s : pt_state) (m : Z) : Z := mtype (mx s m).
Definition pid_of (s : pt_state) (x : Z) : Z := pid (tcbs (kn (ss (sy s))) x).

(** A state to start from: the scheduler and the semaphores are in order, no
    thread is inside a call, every thread but the idle one has a positive pid,
    and the mutexes are as [pthread_mutex_init] or the static initialiser
    leaves them. *)
Record starts (T : list Z) (idle : Z) (P M : list Z) (s : pt_state) : Prop := {
  st_sem : sem_good T idle P (bases (sy s)) (sy s);
  st_user x : x ∈ T -> th s x = User /\ pcs (sy s) x = PcUser;
  st_pid x : x ∈ T -> x <> idle -> 0 < pid_of s x;
  st_mutex m : m ∈ M -> 0 < m /\ mpid (mx s m) <= 0 /\ count_of (ss (sy s)) (mutex_sem m) = 1
}.

(** States reached by events, with the calls that returned.  No thread
    destroys a mutex or a condition variable or waits for a condition with a
    recursive mutex, and where a thread may call [sem_wait], there is room for
    the priorities it notes. *)
Inductive pt_run (T : list Z) (idle : Z) (M : list Z) (s0 : pt_state) : pt_state -> trace -> Prop :=
  | pt_start : pt_run T idle M s0 s0 []
  | pt_next s tr e s' r :
      pt_run T idle M s0 s tr -> pt_valid T idle M s e ->
      (forall c, e = Call c -> left_out (type_of s0) c = false) -> (may_wait e = true -> nest_room T (sy s)) ->
      pt_exec s e = Some (s', r) ->
      pt_run T idle M s0 s' (record r tr).

(** Thread [x] has locked [m] more often than it has unlocked it, and is not
    about to give it away. *)
Definition holds (s : pt_state) (tr : trace) (x m : Z) : Prop := 0 < depth tr x m /\ releasing (th s x) m = false.

Section runs.
Context (T : list Z) (idle : Z) (P M : list Z) (s0 : pt_state) (Hs : starts T idle P M s0).
Abbreviation inv := (pt_inv T idle P (bases (sy s0)) M (type_of s0) (pid_of s0)).

Lemma start_inv : inv s0 [] (fun _ => 0).
Proof.
  destruct Hs as [[HT Hg] Hu Hp Hm]. constructor; try done.
  - intros m Hin. destruct (Hm m Hin) as (H0 & Hpid & Hc). split; [by left|]. split; [|split; [done|by left]].
    rewrite (available_user T (sy s0)); [|intros x Hx; by apply Hu]. rewrite Hc. done.
  - intros x Hx. destruct (Hu x Hx) as [-> Hpc]. split; [|intros sem isr; by rewrite Hpc]. intros m Hin. unfold view_of.
    destruct (Z.eqb_spec 0 x) as [<-|]; [|done]. by destruct (sem_ok_nonzero T idle P (bases (sy s0)) (sy s0) 0).
Qed.

(** Pids tell the threads apart. *)
Lemma pids_distinct x y : x ∈ T -> y ∈ T -> x <> idle -> y <> idle -> pid_of s0 x = pid_of s0 y -> x = y.
Proof.
  intros Hx Hy Hxi Hyi E. destruct (st_sem _ _ _ _ _ Hs) as (_ & A & G & Hi). pose proof (co_hash _ _ _ _ _ _ (in_core _ _ _ _ _ _ _ Hi)) as Hh.
  rewrite <- (Hh x (conj Hx Hxi)), <- (Hh y (conj Hy Hyi)). unfold pid_of in E. by rewrite E.
Qed.

Lemma step_inv s tr O e :
  inv s tr O -> pt_valid T idle M s e ->
  (forall c, e = Call c -> left_out (type_of s0) c = false) -> (may_wait e = true -> nest_room T (sy s)) ->
  advances T idle P (bases (sy s0)) M (type_of s0) (pid_of s0) tr (pt_exec s e).
Proof.
  apply pt_step; [apply Hs|intros m Hm; by apply (st_mutex _ _ _ _ _ Hs)|apply Hs|apply pids_distinct].
Qed.

Lemma run_inv s tr : pt_run T idle M s0 s tr -> exists O, inv s tr O.
Proof.
  induction 1 as [|s tr e s' r _ [O IH] Hv Hout Hroom Hrun]; [exists (fun _ => 0); apply start_inv|].
  destruct (step_inv s tr O e IH Hv Hout Hroom) as (s1 & r1 & O' & Hrun' & Hi). rewrite Hrun in Hrun'. injection Hrun' as <- <-. by exists O'.
Qed.

Lemma holds_owner s tr O x m : inv s tr O -> x ∈ T -> m ∈ M -> holds s tr x m -> O m = x.
Proof.
  intros Hi Hx Hm [Hd Hr]. pose proof (pi_thread _ _ _ _ _ _ _ _ _ _ Hi x Hx) as Ht. destruct (th s x) as [|c p|c p].
  - destruct Ht as [Hu _]. specialize (Hu m Hm). unfold view_of in Hu. destruct (Z.eqb_spec (O m) x); [done|lia].
  - destruct Ht as [(_ & _ & Hk) _]. by apply Hk.
  - destruct Ht as [(_ & _ & Hk) _]. by apply Hk.
Qed.
End runs.

(** [pthread_mutex_init] makes a mutex to start with. *)
Lemma pthread_mutex_init_spec s m attr s' ret :
  0 < m -> pthread_mutex_init s m attr = (s', ret) ->
  ret = OK /\ mpid (mx s' m) = -1 /\ nlocks (mx s' m) = 0 /\ mtype (mx s' m) = default PTHREAD_MUTEX_DEFAULT (snd <$> attr) /\
  count_of (ss (sy s')) (mutex_sem m) = 1 /\ kn (ss (sy s')) = kn (ss (sy s)) /\ forall m', m' <> m -> mx s' m' = mx s m'.
Proof.
  intros Hm. unfold pthread_mutex_init, sem_init, mutex_sem. destruct (Z.eqb_spec m 0); [lia|]. destruct (Z.eqb_spec (m + 4) 0); [lia|].
  destruct attr as [[pshared type]|]; intros [= <- <-]; simpl; rewrite !upd_eq; unfold count_of; simpl; rewrite upd_eq;
    split_and!; try done; intros m' Hne; by rewrite !upd_ne.
Qed.

(** ** A small system *)

(** Steps of the running thread's call, where it does its duties. *)
Definition go_check (T : list Z) (s : pt_state) : bool :=
  let k := kn (ss (sy s)) in
  match th s (me s) with User => false | _ => true end && (lock k (me s) <? MAX_LOCK_COUNT) &&
  forallb (fun x => npend_reprio (tcbs k x) <? CONFIG_SEM_NNESTPRIO) T && (count_of (ss (sy s)) (posting s) <? SEM_VALUE_MAX).

Fixpoint goes (T : list Z) (n : nat) (s : pt_state) (tr : trace) : option (pt_state * trace) :=
  match n with
  | O => Some (s, tr)
  | S n => if go_check T s then '(s, r) ← pt_exec s Go; goes T n s (record r tr) else None
  end.

Lemma go_check_valid T idle M s : go_check T s = true -> pt_valid T idle M s Go /\ nest_room T (sy s).
Proof.
  unfold go_check. intros H. apply andb_true_iff in H as [H H4]. apply andb_true_iff in H as [H H3]. apply andb_true_iff in H as [H1 H2].
  apply Z.ltb_lt in H2, H4. split; [split; [by intros E; rewrite E in H1|done]|]. intros x Hx.
  apply Is_true_true, forallb_True in H3. rewrite Forall_forall in H3. specialize (H3 x Hx). apply Is_true_true in H3. by apply Z.ltb_lt.
Qed.

Lemma goes_run T idle M s0 n s tr s' tr' :
  pt_run T idle M s0 s tr -> goes T n s tr = Some (s', tr') -> pt_run T idle M s0 s' tr'.
Proof.
  revert s tr. induction n as [|n IH]; intros s tr Hrun; cbn [goes]; [by intros [= <- <-]|]. destruct (go_check T s) eqn:Hc; [|done].
  intros H. apply bind_Some in H as ([s1 r] & Hx & H). eapply IH; [|exact H]. apply (go_check_valid T idle M) in Hc as [Hv Hroom].
  by eapply (pt_next T idle M s0 s tr Go).
Qed.

(** The tasks and semaphores of [sys_start]; a mutex at 4092, whose semaphore
    is the one at 4096, of the given type; barriers for two threads. *)
Definition pt_demo (type : Z) : pt_state := mk_pt sys_start (fun _ => mk_mutex (-1) type 0) (fun _ => 2) (fun _ => User).

Lemma pt_demo_starts type : starts sys_T 8 sys_P [4092] (pt_demo type).
Proof.
  constructor.
  - exact sys_start_good.
  - done.
  - intros x Hx Hne. unfold demo_T in Hx. demo_elem Hx; try done; vm_compute; reflexivity.
  - intros m Hm. apply list_elem_of_singleton in Hm as ->. split; [done|]. split; [done|]. vm_compute. reflexivity.
Qed.

(** Thread 32 tries the mutex. *)
Definition pt_called : pt_state := with_th 32 (Calling (MutexTryLock 4092) (body (MutexTryLock 4092))) (pt_demo 0).
Definition pt_tried : pt_state * trace := default (pt_demo 0, []) (goes sys_T 7 pt_called []).

Lemma pt_called_run : pt_run sys_T 8 [4092] (pt_demo 0) pt_called [].
Proof.
  apply (pt_next _ _ _ _ (pt_demo 0) [] (Call (MutexTryLock 4092)) pt_called None); [constructor| |by intros c [= <-]|done|reflexivity].
  split; [done|]. split; [done|]. split; [done|]. right. split; [by apply list_elem_of_singleton|]. by intros v [= <-].
Qed.

Lemma pt_tried_goes : goes sys_T 7 pt_called [] = Some pt_tried.
Proof.
  unfold pt_tried. enough (H : match goes sys_T 7 pt_called [] with Some _ => true | None => false end = true).
  - revert H. generalize (goes sys_T 7 pt_called []). intros [r|]; [reflexivity|discriminate].
  - vm_compute. reflexivity.
Qed.

Lemma pt_tried_run : pt_run sys_T 8 [4092] (pt_demo 0) pt_tried.1 pt_tried.2.
Proof. apply (goes_run _ _ _ _ 7 pt_called []); [exact pt_called_run|]. rewrite pt_tried_goes. by destruct pt_tried. Qed.

(** ** Mutual exclusion *)

(** C11: Mutexes exclude.  In every run of threads that lock, try, unlock and
    wait for conditions and barriers, with other users of semaphores and
    interrupts, signals included, between any two steps: no two threads hold
    the same mutex; a thread in its own code holds a mutex exactly if the
    mutex carries its pid, and a recursive mutex counts its locks; and every
    further event executes, so no assertion of the kernel fails.  Left out of
    the runs are the calls that destroy a mutex or a condition variable and
    [pthread_cond_wait] with a recursive mutex, for which
    [cond_wait_forgets_locks] shows two holders; and where a thread may call
    [sem_wait], every task has fewer than CONFIG_SEM_NNESTPRIO = 16 priorities
    noted. *)
Theorem mutexes_exclude T idle P M s0 s tr :
  starts T idle P M s0 -> pt_run T idle M s0 s tr ->
  (forall m x y, m ∈ M -> x ∈ T -> y ∈ T -> holds s tr x m -> holds s tr y m -> x = y) /\
  (forall m x, m ∈ M -> x ∈ T -> x <> idle -> th s x = User ->
     0 <= depth tr x m /\ (mpid (mx s m) = pid_of s0 x <-> 0 < depth tr x m) /\
     (0 < depth tr x m -> if type_of s0 m =? PTHREAD_MUTEX_RECURSIVE then nlocks (mx s m) = depth tr x m else depth tr x m = 1)) /\
  (forall e, pt_valid T idle M s e -> (forall c, e = Call c -> left_out (type_of s0) c = false) ->
     (may_wait e = true -> nest_room T (sy s)) -> is_Some (pt_exec s e)).
Proof.
  intros Hs Hrun. destruct (run_inv T idle P M s0 Hs s tr Hrun) as [O Hi]. split; [|split].
  - intros m x y Hm Hx Hy H1 H2. apply (holds_owner T idle P M s0 s tr O) in H1, H2; try done. congruence.
  - intros m x Hm Hx Hid Ht. pose proof (pi_thread _ _ _ _ _ _ _ _ _ _ Hi x Hx) as Hu. rewrite Ht in Hu. destruct Hu as [Hu _]. specialize (Hu m Hm).
    pose proof (st_pid _ _ _ _ _ Hs x Hx Hid) as Hp. destruct (pi_mutex _ _ _ _ _ _ _ _ _ _ Hi m Hm) as (HO & _ & _ & Hpm). unfold view_of in Hu.
    destruct (Z.eqb_spec (O m) x) as [E|E].
    + destruct Hu as (Hpid & _ & Hn). unfold recursive in Hn. destruct (_ =? _); [|lia]. split; [lia|]. split; [lia|]. tauto.
    + rewrite Hu. split; [done|]. split; [|lia]. split; [|lia]. intros Hpid. destruct Hpm as [?|[H0 E']]; [lia|].
      destruct HO as [?|[HO1 HO2]]; [done|]. exfalso. apply E, (pids_distinct T idle P M s0 Hs); try done. congruence.
  - intros e Hv Hout Hroom. destruct (step_inv T idle P M s0 Hs s tr O e Hi Hv Hout Hroom) as (s' & r & O' & -> & _). done.
Qed.

Lemma mutexes_exclude_witness :
  pt_tried.2 = [(32, MutexTryLock 4092, OK)] /\
  forall y, y ∈ sys_T -> holds pt_tried.1 pt_tried.2 y 4092 -> y = 32.
Proof.
  split; [vm_compute; reflexivity|]. intros y Hy Hh.
  destruct (mutexes_exclude sys_T 8 sys_P [4092] (pt_demo 0) pt_tried.1 pt_tried.2 (pt_demo_starts 0) pt_tried_run) as [H _].
  apply (H 4092); [by apply list_elem_of_singleton|exact Hy| |exact Hh|]; [apply (bool_decide_unpack _); vm_compute; exact I|]. split; vm_compute; reflexivity.
Defined.

(** C12: Calls on mutexes return what they have to, in every run.  Locking
    succeeds, but fails with EDEADLK for a mutex the thread has locked and
    that is not recursive; trying such a mutex gives EBUSY; unlocking and
    waiting for a condition succeed exactly for the owner, and fail with
    EPERM for everyone else; signalling and broadcasting succeed; null
    arguments give EINVAL.  The runs are those of [pt_run]: no thread destroys
    a mutex or a condition variable or waits for a condition with a recursive
    mutex, and where a thread may call [sem_wait], every task has fewer than
    CONFIG_SEM_NNESTPRIO = 16 priorities noted. *)
Theorem mutex_calls_return T idle P M s0 s tr :
  starts T idle P M s0 -> pt_run T idle M s0 s tr ->
  forall l x c ret rest, tr = l ++ (x, c, ret) :: rest ->
    result_ok (fun m => type_of s0 m =? PTHREAD_MUTEX_RECURSIVE) c (depth rest x) ret.
Proof.
  intros Hs Hrun l x c ret rest E. destruct (run_inv T idle P M s0 Hs s tr Hrun) as [O Hi]. pose proof (pi_result _ _ _ _ _ _ _ _ _ _ Hi) as Hr.
  rewrite E in Hr. clear - Hr. induction l as [|[[y c'] r'] l IH]; [apply Hr|]. apply IH, Hr.
Qed.

Lemma mutex_calls_return_witness :
  result_ok (fun m => type_of (pt_demo 0) m =? PTHREAD_MUTEX_RECURSIVE) (MutexTryLock 4092) (depth [] 32) OK.
Proof.
  apply (mutex_calls_return sys_T 8 sys_P [4092] (pt_demo 0) pt_tried.1 pt_tried.2 (pt_demo_starts 0) pt_tried_run []). vm_compute. reflexivity.
Defined.

(** ** Where they fail *)

(** The calls of the running threads go on until one is in its own code. *)
Fixpoint settle (n : nat) (s : pt_state) (tr : trace) : option (pt_state * trace) :=
  match n with
  | O => None
  | S n =>
      match th s (me s) with
      | User => Some (s, tr)
      | _ => '(s, r) ← pt_exec s Go; settle n s (record r tr)
      end
  end.

(** Each event happens when the running thread is in its own code. *)
Definition script (s : pt_state) (tr : trace) (l : list pt_event) : option (pt_state * trace) :=
  foldl (fun r e => '(s, tr) ← r; '(s, r) ← pt_exec s e; settle 50 s (record r tr)) (Some (s, tr)) l.

(** C35: [pthread_cond_wait] forgets how often a recursive mutex is locked.
    Thread 32 locks the recursive mutex and waits for a condition; thread 24
    locks it, signals and unlocks, and 32 returns with the mutex.  Then 32
    locks and unlocks the mutex once more, which gives it away although the
    first lock still stands: thread 24 locks it too, and both hold it. *)
Theorem cond_wait_forgets_locks :
  exists s tr,
    script (pt_demo PTHREAD_MUTEX_RECURSIVE) []
      [Call (MutexLock 4092); Call (CondWait 5000 4092); Call (MutexLock 4092); Call (CondSignal 5000); Call (MutexUnlock 4092);
       Call (MutexLock 4092); Call (MutexUnlock 4092); Own (EvWait 6000); Call (MutexLock 4092)] = Some (s, tr) /\
    holds s tr 32 4092 /\ holds s tr 24 4092 /\ th s 32 = User /\ th s 24 = User.
Proof.
  assert (H : option_map (fun r => (depth r.2 32 4092, depth r.2 24 4092, th r.1 32, th r.1 24)) (script (pt_demo PTHREAD_MUTEX_RECURSIVE) []
      [Call (MutexLock 4092); Call (CondWait 5000 4092); Call (MutexLock 4092); Call (CondSignal 5000); Call (MutexUnlock 4092);
       Call (MutexLock 4092); Call (MutexUnlock 4092); Own (EvWait 6000); Call (MutexLock 4092)]) = Some (1, 1, User, User)) by (vm_compute; reflexivity).
  destruct (script _ _ _) as [[s tr]|]; [|discriminate H]. simpl in H. injection H as H1 H2 H3 H4.
  exists s, tr. unfold holds. rewrite H1, H2, H3, H4. split_and!; done.
Qed.

(** C36: A signal can make a barrier for two threads stop both for good.
    Thread 24 waits at the barrier; a signal interrupts its wait while thread
    32, of higher priority, runs; 32 arrives, counts no waiting thread and
    waits; 24 waits again.  Both threads have arrived and wait, neither has
    returned, and the processor runs a third thread. *)
Theorem barrier_stops_all :
  exists s,
    script (pt_demo 0) []
      [Own (EvWait 6000); Call (BarrierWait 5000); Irq (EvIrqPost 6000); Own EvResume; Irq (EvIrqTimeout 24 EINTR); Call (BarrierWait 5000)] = Some (s, []) /\
    bcount s 5000 = 2 /\ count_of (ss (sy s)) 5000 = -2 /\ waits (ss (sy s)) 24 = 5000 /\ waits (ss (sy s)) 32 = 5000 /\ me s = 16.
Proof.
  assert (H : option_map (fun r => (r.2, bcount r.1 5000, count_of (ss (sy r.1)) 5000, waits (ss (sy r.1)) 24, waits (ss (sy r.1)) 32, me r.1)) (script (pt_demo 0) []
      [Own (EvWait 6000); Call (BarrierWait 5000); Irq (EvIrqPost 6000); Own EvResume; Irq (EvIrqTimeout 24 EINTR); Call (BarrierWait 5000)])
    = Some ([], 2, -2, 5000, 5000, 16)) by (vm_compute; reflexivity).
  destruct (script _ _ _) as [[s tr]|]; [|discriminate H]. simpl in H. injection H as -> H1 H2 H3 H4 H5. exists s. split_and!; done.
Qed.

(** A signal to a thread that waits for a condition can lose the wake-up: 32
    locks the mutex and signals the condition for which 24 waits, between the
    signal that interrupts the wait of 24 and its next wait. *)
Lemma cond_signal_lost :
  exists s tr,
    script (pt_demo 0) []
      [Own (EvWait 6000); Call (MutexLock 4092); Call (CondWait 5000 4092); Irq (EvIrqPost 6000); Own EvResume; Irq (EvIrqTimeout 24 EINTR);
       Call (MutexLock 4092); Call (CondSignal 5000); Call (MutexUnlock 4092); Own (EvWait 6000)] = Some (s, tr) /\
    tr !! 0%nat = Some (32, MutexUnlock 4092, OK) /\ waits (ss (sy s)) 24 = 5000 /\ mpid (mx s 4092) = -1.
Proof.
  assert (H : option_map (fun r => (r.2 !! 0%nat, waits (ss (sy r.1)) 24, mpid (mx r.1 4092))) (script (pt_demo 0) []
      [Own (EvWait 6000); Call (MutexLock 4092); Call (CondWait 5000 4092); Irq (EvIrqPost 6000); Own EvResume; Irq (EvIrqTimeout 24 EINTR);
       Call (MutexLock 4092); Call (CondSignal 5000); Call (MutexUnlock 4092); Own (EvWait 6000)])
    = Some (Some (32, MutexUnlock 4092, OK), 5000, -1)) by (vm_compute; reflexivity).
  destruct (script _ _ _) as [[s tr]|]; [|discriminate H]. simpl in H. injection H as H1 H2 H3. exists s, tr. split_and!; done.
Qed.

(** A mutex that has been initialised, or unlocked, cannot be destroyed. *)
Lemma destroy_free_mutex_busy :
  option_map snd (script (pthread_mutex_init (pt_demo 0) 4092 None).1 [] [Call (MutexDestroy 4092)]) = Some [(32, MutexDestroy 4092, EBUSY)].
Proof. vm_compute. reflexivity. Qed.
