(* ===== verification/Signal.v ===== *)
(** * Signals (os/kernel/signal, lib/libc/signal)

    Signal sets, the masks, actions and pending signals of tasks, sending,
    waiting, and the delivery to handlers, over the scheduler and the
    semaphores.  The structures are on singly linked lists of [Queue]: free
    lists, the lists of a task, and the pending signals of its group.

    [None] is a failed assertion, a null dereference or a list that is longer
    than [sig_fuel].  A signal handler is a parameter: any function on the
    state.  Saved registers are left out, so [up_schedule_sigaction] only notes
    that the trampoline [up_sigdeliver] is to run.

    Configuration (sidk_s5jt200): CONFIG_SCHED_HAVE_PARENT, no child status, so
    a signal goes to the task with the pid (no group members). *)

From stdpp Require Import base tactics numbers list.
From S2P Require Import Prelude Queue Sched Sem Mqueue SemSystem SemTimed.

(** ** Signal sets: lib/libc/signal *)

Definition NULL_SIGNAL_SET : Z := 0.
Definition ALL_SIGNAL_SET : Z := 4294967295.
Definition MIN_SIGNO : Z := 0.
Definition GOOD_SIGNO (s : Z) : bool := u32 s <=? MAX_SIGNO.
Definition SIGNO2SET (s : Z) : Z := Z.shiftl 1 s.

(** [~set] of a [sigset_t] *)
Definition set_not (set : Z) : Z := Z.lxor set ALL_SIGNAL_SET.

Definition sigaddset (set signo : Z) : Z * Z :=
  if GOOD_SIGNO signo then (Z.lor set (SIGNO2SET signo), OK) else (set, ERROR).
Definition sigdelset (set signo : Z) : Z * Z :=
  if GOOD_SIGNO signo then (Z.land set (set_not (SIGNO2SET signo)), OK) else (set, ERROR).
Definition sigemptyset : Z * Z := (NULL_SIGNAL_SET, OK).
Definition sigfillset : Z * Z := (ALL_SIGNAL_SET, OK).
Definition sigismember (set signo : Z) : Z :=
  if GOOD_SIGNO signo then Z.b2z (negb (Z.land set (SIGNO2SET signo) =? 0)) else ERROR.

(** [if (sigismember(&set, signo))] *)
Definition is_in (set signo : Z) : bool := negb (sigismember set signo =? 0).

(** The loop of [sig_lowest] from [signo], [n] turns. *)
Fixpoint lowest_from (n : nat) (set signo : Z) : Z :=
  match n with
  | O => ERROR
  | S n => if is_in set signo then signo else lowest_from n set (signo + 1)
  end.

Definition sig_lowest (set : Z) : Z := lowest_from (Z.to_nat (MAX_SIGNO - MIN_SIGNO + 1)) set MIN_SIGNO.

(** ** Data *)

Inductive sigalloc_e := SIG_ALLOC_FIXED | SIG_ALLOC_DYN | SIG_ALLOC_IRQ.

Record siginfo := mk_info { si_signo : Z; si_code : Z; si_value : Z; si_pid : Z; si_status : Z }.

(** [struct sigaction]; the handler 0 is [SIG_IGN]. *)
Record sigaction_t := mk_sigaction { sa_handler : Z; sa_mask : Z; sa_flags : Z }.

(** [struct sigactq], [struct sigpendq] and [struct sigq_s] but for the links. *)
Record sigactq := mk_sigactq { act : sigaction_t; signo : Z }.
Record sigpendq := mk_sigpendq { pinfo : siginfo; ptype : sigalloc_e }.
Record sigq_s := mk_sigq { sighandler : Z; qmask : Z; qinfo : siginfo; qtype : sigalloc_e }.

(** The fields of a TCB that belong to signals; [sigdeliver] is [xcp.sigdeliver]. *)
Record tcb_sig := mk_tsig { sigprocmask_ : Z; sigwaitmask : Z; sigunbinfo : siginfo; sigdeliver : bool; group : Z }.

(** The headers of the lists: the five free lists, those of a TCB and that of
    a group. *)
Inductive qid :=
  | g_sigfreeaction | g_sigpendingaction | g_sigpendingirqaction | g_sigpendingsignal | g_sigpendingirqsignal
  | sigactionq (x : Z) | sigpendactionq (x : Z) | sigpostedq (x : Z) | sigpendingq (g : Z).

#[export] Instance qid_eq_dec : EqDecision qid.
Proof. solve_decision. Defined.

(** The scheduler and the semaphores, the message queues (but for their copy
    of the scheduler), the lists and their elements, the tasks, what the next
    calls of [kmm_malloc] return, and the calls of handlers so far. *)
Record sig_state := mk_sig {
  sg : sem_state;
  mqs : mq_state;
  slinks : links;
  qs : qid -> queue;
  acts : Z -> sigactq;
  pends : Z -> sigpendq;
  sigqs : Z -> sigq_s;
  tsig : Z -> tcb_sig;
  kheap : list Z;
  calls : list (Z * siginfo)
}.

Definition skn (s : sig_state) : kernel := kn (sg s).
Definition set_sg (v : sem_state) (s : sig_state) : sig_state :=
  mk_sig v (mqs s) (slinks s) (qs s) (acts s) (pends s) (sigqs s) (tsig s) (kheap s) (calls s).
Definition set_skn (k : kernel) (s : sig_state) : sig_state := set_sg (set_kn k (sg s)) s.
Definition set_mqs (v : mq_state) (s : sig_state) : sig_state :=
  mk_sig (sg s) v (slinks s) (qs s) (acts s) (pends s) (sigqs s) (tsig s) (kheap s) (calls s).
Definition set_slist (i : qid) (r : links * queue) (s : sig_state) : sig_state :=
  mk_sig (sg s) (mqs s) r.1 (fun j => if decide (j = i) then r.2 else qs s j) (acts s) (pends s) (sigqs s) (tsig s) (kheap s) (calls s).
Definition set_act (p : Z) (v : sigactq) (s : sig_state) : sig_state :=
  mk_sig (sg s) (mqs s) (slinks s) (qs s) (upd (acts s) p v) (pends s) (sigqs s) (tsig s) (kheap s) (calls s).
Definition set_sigpend (p : Z) (v : sigpendq) (s : sig_state) : sig_state :=
  mk_sig (sg s) (mqs s) (slinks s) (qs s) (acts s) (upd (pends s) p v) (sigqs s) (tsig s) (kheap s) (calls s).
Definition set_sigq (p : Z) (v : sigq_s) (s : sig_state) : sig_state :=
  mk_sig (sg s) (mqs s) (slinks s) (qs s) (acts s) (pends s) (upd (sigqs s) p v) (tsig s) (kheap s) (calls s).
Definition set_tsig (x : Z) (v : tcb_sig) (s : sig_state) : sig_state :=
  mk_sig (sg s) (mqs s) (slinks s) (qs s) (acts s) (pends s) (sigqs s) (upd (tsig s) x v) (kheap s) (calls s).
Definition set_kheap (h : list Z) (s : sig_state) : sig_state :=
  mk_sig (sg s) (mqs s) (slinks s) (qs s) (acts s) (pends s) (sigqs s) (tsig s) h (calls s).
Definition log_call (c : Z * siginfo) (s : sig_state) : sig_state :=
  mk_sig (sg s) (mqs s) (slinks s) (qs s) (acts s) (pends s) (sigqs s) (tsig s) (kheap s) (calls s ++ [c]).

(** [tcb->field = v] *)
Definition set_mask (x m : Z) (s : sig_state) : sig_state :=
  let t := tsig s x in set_tsig x (mk_tsig m (sigwaitmask t) (sigunbinfo t) (sigdeliver t) (group t)) s.
Definition set_waitmask (x m : Z) (s : sig_state) : sig_state :=
  let t := tsig s x in set_tsig x (mk_tsig (sigprocmask_ t) m (sigunbinfo t) (sigdeliver t) (group t)) s.
Definition set_unbinfo (x : Z) (i : siginfo) (s : sig_state) : sig_state :=
  let t := tsig s x in set_tsig x (mk_tsig (sigprocmask_ t) (sigwaitmask t) i (sigdeliver t) (group t)) s.
Definition set_sigdeliver (x : Z) (b : bool) (s : sig_state) : sig_state :=
  let t := tsig s x in set_tsig x (mk_tsig (sigprocmask_ t) (sigwaitmask t) (sigunbinfo t) b (group t)) s.

(** Calls of other components. *)
Definition on_kernel (f : kernel -> option kernel) (s : sig_state) : option sig_state := k ← f (skn s); Some (set_skn k s).
Definition sig_errno (e : Z) (s : sig_state) : sig_state := set_skn (set_errno (skn s) e) s.

(** Lists of signals have at most one element per signal number; the others
    may be longer. *)
Definition sig_fuel : nat := 64.

Definition add_last (i : qid) (x : Z) (s : sig_state) : option sig_state :=
  r ← sq_addlast (slinks s) x (qs s i); Some (set_slist i r s).
Definition rem_first (i : qid) (s : sig_state) : option (sig_state * Z) :=
  '(x, r) ← sq_remfirst (slinks s) (qs s i); Some (set_slist i r s, x).
Definition rem_after (i : qid) (x : Z) (s : sig_state) : option sig_state :=
  '(_, r) ← sq_remafter (slinks s) x (qs s i); Some (set_slist i r s).
Definition rem (i : qid) (x : Z) (s : sig_state) : option sig_state :=
  r ← sq_rem sig_fuel (slinks s) x (qs s i); Some (set_slist i r s).

(** [kmm_malloc]; 0 is a failure. *)
Definition malloc (s : sig_state) : sig_state * Z :=
  match kheap s with [] => (s, 0) | p :: h => (set_kheap h s, p) end.

(** ** Pools *)

Definition alloc_from (fixed irq : qid) (mark : Z -> sig_state -> sig_state) (s : sig_state) : option (sig_state * Z) :=
  '(s, p) ← rem_first fixed s;
  if in_irq (skn s) then if p =? 0 then rem_first irq s else Some (s, p)
  else if p =? 0 then
    let '(s, p) := malloc s in Some (if p =? 0 then s else mark p s, p)
  else Some (s, p).

Definition sig_allocatependingsigaction (s : sig_state) : option (sig_state * Z) :=
  alloc_from g_sigpendingaction g_sigpendingirqaction
    (fun p s => let v := sigqs s p in set_sigq p (mk_sigq (sighandler v) (qmask v) (qinfo v) SIG_ALLOC_DYN) s) s.

Definition sig_allocatependingsignal (s : sig_state) : option (sig_state * Z) :=
  alloc_from g_sigpendingsignal g_sigpendingirqsignal (fun p s => set_sigpend p (mk_sigpendq (pinfo (pends s p)) SIG_ALLOC_DYN) s) s.

(** A structure from the heap goes back to it. *)
Definition sig_releasependingsigaction (sigq : Z) (s : sig_state) : option sig_state :=
  match qtype (sigqs s sigq) with
  | SIG_ALLOC_FIXED => add_last g_sigpendingaction sigq s
  | SIG_ALLOC_IRQ => add_last g_sigpendingirqaction sigq s
  | SIG_ALLOC_DYN => Some s
  end.

Definition sig_releasependingsignal (sigpend : Z) (s : sig_state) : option sig_state :=
  match ptype (pends s sigpend) with
  | SIG_ALLOC_FIXED => add_last g_sigpendingsignal sigpend s
  | SIG_ALLOC_IRQ => add_last g_sigpendingirqsignal sigpend s
  | SIG_ALLOC_DYN => Some s
  end.

(** ** Actions *)

(** [for (; sigact && sigact->signo != signo; sigact = sigact->flink)] *)
Fixpoint find_act (fuel : nat) (s : sig_state) (signo_ sigact : Z) : option Z :=
  match fuel with
  | O => None
  | S fuel => if (sigact =? 0) || (signo (acts s sigact) =? signo_) then Some sigact else find_act fuel s signo_ (flink (slinks s) sigact)
  end.

Definition sig_findaction (s : sig_state) (stcb signo : Z) : option (sig_state * Z) :=
  if stcb =? 0 then Some (s, 0)
  else
    s ← on_kernel sched_lock s;
    sigact ← find_act sig_fuel s signo (head (qs s (sigactionq stcb)));
    s ← on_kernel sched_unlock s;
    Some (s, sigact).

(** The loops that put [n] structures of [size] bytes from [p] on a list. *)
Fixpoint add_block (n : nat) (i : qid) (size p : Z) (mark : Z -> sig_state -> sig_state) (s : sig_state) : option sig_state :=
  match n with
  | O => Some s
  | S n => s ← add_last i p (mark p s); add_block n i size (p + size) mark s
  end.

Definition NUM_SIGNAL_ACTIONS : Z := 16.
Definition NUM_PENDING_ACTIONS : Z := 16.
Definition NUM_PENDING_INT_ACTIONS : Z := 8.
Definition NUM_SIGNALS_PENDING : Z := 16.
Definition NUM_INT_SIGNALS_PENDING : Z := 8.

(** The sizes of the structures, in bytes. *)
Definition SIZEOF_SIGACTQ : Z := 20.
Definition SIZEOF_SIGPENDQ : Z := 24.
Definition SIZEOF_SIGQ : Z := 32.

Definition sig_allocateactionblock (s : sig_state) : option sig_state :=
  let '(s, p) := malloc s in add_block (Z.to_nat NUM_SIGNAL_ACTIONS) g_sigfreeaction SIZEOF_SIGACTQ p (fun _ s => s) s.

Definition sig_allocateaction (s : sig_state) : option (sig_state * Z) :=
  '(s, sigact) ← rem_first g_sigfreeaction s;
  if sigact =? 0 then
    s ← sig_allocateactionblock s;
    '(s, sigact) ← rem_first g_sigfreeaction s;
    _ ← assert (negb (sigact =? 0));
    Some (s, sigact)
  else Some (s, sigact).

Definition sig_releaseaction (sigact : Z) (s : sig_state) : option sig_state := add_last g_sigfreeaction sigact s.

(** [act] is the new action, if any; the old one is what [oact] gets. *)
Definition sigaction (s : sig_state) (signo_ : Z) (new : option sigaction_t) : option (sig_state * Z * option sigaction_t) :=
  let rtcb := rtr_head (skn s) in
  if negb (GOOD_SIGNO signo_) then Some (sig_errno EINVAL s, ERROR, None)
  else
    '(s, sigact) ← sig_findaction s rtcb signo_;
    let old := if negb (sigact =? 0) then act (acts s sigact) else mk_sigaction 0 NULL_SIGNAL_SET 0 in
    match new with
    | None => Some (s, OK, Some old)
    | Some a =>
        if sa_handler a =? 0 then
          s ← (if negb (sigact =? 0) then s ← rem (sigactionq rtcb) sigact s; sig_releaseaction sigact s else Some s);
          Some (s, OK, Some old)
        else
          '(s, sigact) ←
            (if sigact =? 0 then
               '(s, sigact) ← sig_allocateaction s;
               if sigact =? 0 then Some (s, 0)
               else
                 let s := set_act sigact (mk_sigactq (act (acts s sigact)) (u8 signo_)) s in
                 s ← add_last (sigactionq rtcb) sigact s;
                 Some (s, sigact)
             else Some (s, sigact));
          if sigact =? 0 then Some (sig_errno ENOMEM s, ERROR, Some old)
          else Some (set_act sigact (mk_sigactq a (signo (acts s sigact))) s, OK, Some old)
    end.

(** ** Pending signals *)

(** [for (; sigpend; sigpend = sigpend->flink) sigaddset(&sigpendset, sigpend->info.si_signo);] *)
Fixpoint pending_from (fuel : nat) (s : sig_state) (sigpend set : Z) : option Z :=
  match fuel with
  | O => None
  | S fuel =>
      if sigpend =? 0 then Some set
      else pending_from fuel s (flink (slinks s) sigpend) (sigaddset set (si_signo (pinfo (pends s sigpend)))).1
  end.

Definition sig_pendingset (s : sig_state) (stcb : Z) : option Z :=
  pending_from sig_fuel s (head (qs s (sigpendingq (group (tsig s stcb))))) NULL_SIGNAL_SET.

Definition sigpending (s : sig_state) : option Z := sig_pendingset s (rtr_head (skn s)).

Fixpoint find_pend (fuel : nat) (s : sig_state) (signo sigpend : Z) : option Z :=
  match fuel with
  | O => None
  | S fuel =>
      if (sigpend =? 0) || (si_signo (pinfo (pends s sigpend)) =? signo) then Some sigpend
      else find_pend fuel s signo (flink (slinks s) sigpend)
  end.

Definition sig_findpendingsignal (s : sig_state) (g signo : Z) : option Z := find_pend sig_fuel s signo (head (qs s (sigpendingq g))).

(** The structure gets the information. *)
Definition write_pend (p : Z) (info : siginfo) (s : sig_state) : sig_state := set_sigpend p (mk_sigpendq info (ptype (pends s p))) s.

(** What [sig_addpendingsignal] does after the search, which may be some time
    later: an interrupt can come in between. *)
Definition addpending_found (s : sig_state) (stcb : Z) (info : siginfo) (sigpend : Z) : option (sig_state * Z) :=
  if negb (sigpend =? 0) then Some (write_pend sigpend info s, sigpend)
  else
    '(s, sigpend) ← sig_allocatependingsignal s;
    if negb (sigpend =? 0) then
      s ← add_last (sigpendingq (group (tsig s stcb))) sigpend (write_pend sigpend info s);
      Some (s, sigpend)
    else Some (s, sigpend).

Definition sig_addpendingsignal (s : sig_state) (stcb : Z) (info : siginfo) : option (sig_state * Z) :=
  sigpend ← sig_findpendingsignal s (group (tsig s stcb)) (si_signo info);
  addpending_found s stcb info sigpend.

(** The loop of [sig_removependingsignal]; returns [prevsig] and [currsig]. *)
Fixpoint find_prev (fuel : nat) (s : sig_state) (signo prevsig currsig : Z) : option (Z * Z) :=
  match fuel with
  | O => None
  | S fuel =>
      if (currsig =? 0) || (si_signo (pinfo (pends s currsig)) =? signo) then Some (prevsig, currsig)
      else find_prev fuel s signo currsig (flink (slinks s) currsig)
  end.

Definition sig_removependingsignal (s : sig_state) (stcb signo : Z) : option (sig_state * Z) :=
  let q := sigpendingq (group (tsig s stcb)) in
  '(prevsig, currsig) ← find_prev sig_fuel s signo 0 (head (qs s q));
  s ← (if negb (currsig =? 0) then
         if negb (prevsig =? 0) then rem_after q prevsig s else '(s, _) ← rem_first q s; Some s
       else Some s);
  Some (s, currsig).

(** ** Dispatching *)

Definition sig_queueaction (s : sig_state) (stcb : Z) (info : siginfo) : option (sig_state * Z) :=
  s ← on_kernel sched_lock s;
  '(s, sigact) ← sig_findaction s stcb (si_signo info);
  '(s, ret) ←
    (if negb (sigact =? 0) && negb (sa_handler (act (acts s sigact)) =? 0) then
       '(s, sigq) ← sig_allocatependingsigaction s;
       if sigq =? 0 then Some (s, - ENOMEM)
       else
         let a := act (acts s sigact) in
         let s := set_sigq sigq (mk_sigq (sa_handler a) (sa_mask a) info (qtype (sigqs s sigq))) s in
         s ← add_last (sigpendactionq stcb) sigq s;
         Some (s, OK)
     else Some (s, OK));
  s ← on_kernel sched_unlock s;
  Some (s, ret).

(** [up_unblock_task] of a task that waits for a signal, with the information. *)
Definition wake_waiter (s : sig_state) (stcb : Z) (info : siginfo) : option sig_state :=
  on_kernel (fun k => up_unblock_task k stcb) (set_waitmask stcb NULL_SIGNAL_SET (set_unbinfo stcb info s)).

(** [sem_waitirq] and [mq_waitirq] of a task that waits for something else. *)
Definition wake_other (s : sig_state) (stcb : Z) : option sig_state :=
  t ← get_tcb (skn s) stcb;
  s ← (if bool_decide (task_state t = TSTATE_WAIT_SEM) then v ← sem_waitirq (sg s) stcb EINTR; Some (set_sg v s) else Some s);
  t ← get_tcb (skn s) stcb;
  if bool_decide (task_state t = TSTATE_WAIT_MQNOTEMPTY \/ task_state t = TSTATE_WAIT_MQNOTFULL) then
    q ← mq_waitirq (set_qk (skn s) (mqs s)) stcb EINTR; Some (set_skn (qk q) (set_mqs q s))
  else Some s.

Section delivery.
(** The signal handler at an address, called with the information. *)
Context (handler : Z -> siginfo -> sig_state -> option sig_state).

Section nested.
(** [sig_deliver], which a task that signals itself calls at once. *)
Context (deliver : sig_state -> Z -> option sig_state).

Definition up_schedule_sigaction (s : sig_state) (tcb : Z) : option sig_state :=
  if sigdeliver (tsig s tcb) then Some s
  else if (tcb =? rtr_head (skn s)) && negb (in_irq (skn s)) then deliver s tcb
  else Some (set_sigdeliver tcb true s).

Definition sig_tcbdispatch (s : sig_state) (stcb : Z) (info : siginfo) : option (sig_state * Z) :=
  t ← get_tcb (skn s) stcb;
  if is_in (sigprocmask_ (tsig s stcb)) (si_signo info) then
    if bool_decide (task_state t = TSTATE_WAIT_SIG) && is_in (sigwaitmask (tsig s stcb)) (si_signo info) then
      s ← wake_waiter s stcb info; Some (s, OK)
    else
      '(s, sigpend) ← sig_addpendingsignal s stcb info;
      _ ← assert (negb (sigpend =? 0));
      Some (s, OK)
  else
    '(s, ret) ← sig_queueaction s stcb info;
    s ← up_schedule_sigaction s stcb;
    t ← get_tcb (skn s) stcb;
    s ← (if bool_decide (task_state t = TSTATE_WAIT_SIG) then wake_waiter s stcb info else Some s);
    s ← wake_other s stcb;
    Some (s, ret).

(** The loop of [sig_unmaskpendingsignal]. *)
Fixpoint unmask_loop (fuel : nat) (s : sig_state) (rtcb unmaskedset : Z) : option sig_state :=
  match fuel with
  | O => None
  | S fuel =>
      if unmaskedset =? NULL_SIGNAL_SET then Some s
      else
        let signo := sig_lowest unmaskedset in
        if negb (signo =? ERROR) then
          let unmaskedset := (sigdelset unmaskedset signo).1 in
          '(s, pendingsig) ← sig_removependingsignal s rtcb signo;
          s ← (if negb (pendingsig =? 0) then
                 '(s, _) ← sig_tcbdispatch s rtcb (pinfo (pends s pendingsig));
                 sig_releasependingsignal pendingsig s
               else Some s);
          unmask_loop fuel s rtcb unmaskedset
        else unmask_loop fuel s rtcb unmaskedset
  end.

Definition sig_unmaskpendingsignal (s : sig_state) : option sig_state :=
  let rtcb := rtr_head (skn s) in
  s ← on_kernel sched_lock s;
  pending ← sig_pendingset s rtcb;
  s ← unmask_loop sig_fuel s rtcb (Z.land (set_not (sigprocmask_ (tsig s rtcb))) pending);
  on_kernel sched_unlock s.

(** One turn of the loop of [sig_deliver], for [sigq]; returns [next]. *)
Definition deliver_one (s : sig_state) (stcb sigq : Z) : option (sig_state * Z) :=
  let next := flink (slinks s) sigq in
  s ← rem (sigpendactionq stcb) sigq s;
  s ← add_last (sigpostedq stcb) sigq s;
  let savesigprocmask := sigprocmask_ (tsig s stcb) in
  let v := sigqs s sigq in
  let s := set_mask stcb (Z.lor (Z.lor savesigprocmask (qmask v)) (SIGNO2SET (si_signo (qinfo v)))) s in
  s ← handler (sighandler v) (qinfo v) (log_call (sighandler v, qinfo v) s);
  let s := set_mask stcb savesigprocmask s in
  s ← sig_unmaskpendingsignal s;
  s ← rem (sigpostedq stcb) sigq s;
  s ← sig_releasependingsigaction sigq s;
  Some (s, next).

Fixpoint deliver_loop (fuel : nat) (s : sig_state) (stcb sigq : Z) : option sig_state :=
  match fuel with
  | O => None
  | S fuel => if sigq =? 0 then Some s else '(s, next) ← deliver_one s stcb sigq; deliver_loop fuel s stcb next
  end.
End nested.

(** [fuel] bounds how deep deliveries are nested. *)
Fixpoint sig_deliver (fuel : nat) (s : sig_state) (stcb : Z) : option sig_state :=
  match fuel with
  | O => None
  | S fuel =>
      s ← on_kernel sched_lock s;
      let saved_errno := pterrno (tcbs (skn s) stcb) in
      s ← deliver_loop (sig_deliver fuel) sig_fuel s stcb (head (qs s (sigpendactionq stcb)));
      s ← on_kernel (fun k => upd_tcb k stcb (set_pterrno saved_errno)) s;
      on_kernel sched_unlock s
  end.

Abbreviation deliver := (sig_deliver sig_fuel).

(** The trampoline, in the task that was signalled. *)
Definition up_sigdeliver (s : sig_state) : option sig_state :=
  let rtcb := rtr_head (skn s) in
  let saved_errno := pterrno (tcbs (skn s) rtcb) in
  _ ← assert (sigdeliver (tsig s rtcb));
  s ← deliver (set_sigdeliver rtcb false s) rtcb;
  on_kernel (fun k => upd_tcb k rtcb (set_pterrno saved_errno)) s.

(** ** Calls *)

Definition SI_USER : Z := 0.
Definition SI_QUEUE : Z := 1.
Definition SI_TIMER : Z := 2.
Definition SI_MESGQ : Z := 4.
Definition ENOSYS : Z := 38.
Definition SIG_BLOCK : Z := 1.
Definition SIG_UNBLOCK : Z := 2.
Definition SIG_SETMASK : Z := 3.

Definition sig_dispatch (s : sig_state) (pid_ : Z) (info : siginfo) : option (sig_state * Z) :=
  let stcb := sched_gettcb (skn s) pid_ in
  if stcb =? 0 then Some (s, - ESRCH) else sig_tcbdispatch deliver s stcb info.

(** The common end of [kill] and [sigqueue]. *)
Definition sig_return (r : sig_state * Z) : sig_state * Z := if r.2 <? 0 then (sig_errno (- r.2) r.1, ERROR) else (r.1, OK).

Definition kill (s : sig_state) (pid_ signo : Z) : option (sig_state * Z) :=
  let rtcb := rtr_head (skn s) in
  if pid_ <=? 0 then Some (sig_return (s, - ENOSYS))
  else if negb (GOOD_SIGNO signo) then Some (sig_return (s, - EINVAL))
  else
    s ← on_kernel sched_lock s;
    '(s, ret) ← sig_dispatch s pid_ (mk_info signo SI_USER 0 (pid (tcbs (skn s) rtcb)) OK);
    s ← on_kernel sched_unlock s;
    Some (sig_return (s, ret)).

Definition sigqueue (s : sig_state) (pid_ signo value : Z) : option (sig_state * Z) :=
  let rtcb := rtr_head (skn s) in
  if negb (GOOD_SIGNO signo) then Some (sig_return (s, - EINVAL))
  else
    let info := mk_info signo SI_QUEUE value (pid (tcbs (skn s) rtcb)) OK in
    s ← on_kernel sched_lock s;
    '(s, ret) ← sig_dispatch s pid_ info;
    s ← on_kernel sched_unlock s;
    Some (sig_return (s, ret)).

Definition sig_mqnotempty (s : sig_state) (pid_ signo value : Z) : option (sig_state * Z) :=
  let rtcb := rtr_head (skn s) in
  if negb (GOOD_SIGNO signo) then Some (s, - EINVAL)
  else
    let info := mk_info signo SI_MESGQ value (pid (tcbs (skn s) rtcb)) OK in
    s ← on_kernel sched_lock s;
    '(s, ret) ← sig_dispatch s pid_ info;
    s ← on_kernel sched_unlock s;
    Some (s, ret).

(** [set], if any, changes the mask as [how] says; the old mask is what [oset] gets. *)
Definition sigprocmask (s : sig_state) (how : Z) (set : option Z) : option (sig_state * Z * Z) :=
  let rtcb := rtr_head (skn s) in
  s ← on_kernel sched_lock s;
  let old := sigprocmask_ (tsig s rtcb) in
  match set with
  | None => s ← on_kernel sched_unlock s; Some (s, OK, old)
  | Some set =>
      let '(mask, ret) :=
        if how =? SIG_BLOCK then (Z.lor old set, OK)
        else if how =? SIG_UNBLOCK then (Z.land old (set_not set), OK)
        else if how =? SIG_SETMASK then (set, OK)
        else (old, ERROR) in
      s ← sig_unmaskpendingsignal deliver (set_mask rtcb mask s);
      s ← on_kernel sched_unlock s;
      Some (s, ret, old)
  end.

Definition sighold (s : sig_state) (signo : Z) : option (sig_state * Z) :=
  let '(set, ret) := sigaddset sigemptyset.1 signo in
  if ret =? OK then '(s, ret, _) ← sigprocmask s SIG_BLOCK (Some set); Some (s, ret) else Some (s, ret).

Definition sigrelse (s : sig_state) (signo : Z) : option (sig_state * Z) :=
  let '(set, ret) := sigaddset sigemptyset.1 signo in
  if ret =? OK then '(s, ret, _) ← sigprocmask s SIG_UNBLOCK (Some set); Some (s, ret) else Some (s, ret).

(** *** Waiting *)

Definition SIG_WAIT_TIMEOUT : Z := 255.

(** [sigtimedwait] without a timeout ([sigwaitinfo]) until it returns the
    number and the information of a pending signal, or blocks.  The structure
    of the signal is released before its number is read from it. *)
Definition sigwaitinfo (s : sig_state) (set : Z) : option (sig_state * option (Z * siginfo)) :=
  let rtcb := rtr_head (skn s) in
  s ← on_kernel sched_lock s;
  pending ← sig_pendingset s rtcb;
  let intersection := Z.land set pending in
  if negb (intersection =? NULL_SIGNAL_SET) then
    '(s, sigpend) ← sig_removependingsignal s rtcb (sig_lowest intersection);
    _ ← assert (negb (sigpend =? 0));
    let info := pinfo (pends s sigpend) in
    s ← sig_releasependingsignal sigpend s;
    let ret := si_signo (pinfo (pends s sigpend)) in
    s ← on_kernel sched_unlock s;
    Some (s, Some (ret, info))
  else
    s ← on_kernel (fun k => up_block_task k rtcb TSTATE_WAIT_SIG) (set_waitmask rtcb set s);
    Some (s, None).

(** The rest of [sigtimedwait], when the task runs again. *)
Definition sigwait_resume (s : sig_state) (set : Z) : option (sig_state * Z * siginfo) :=
  let rtcb := rtr_head (skn s) in
  let s := set_waitmask rtcb NULL_SIGNAL_SET s in
  let info := sigunbinfo (tsig s rtcb) in
  '(s, ret) ←
    (if GOOD_SIGNO (si_signo info) then
       Some (if is_in set (si_signo info) then (s, si_signo info) else (sig_errno EINTR s, ERROR))
     else
       _ ← assert (si_signo info =? SIG_WAIT_TIMEOUT);
       Some (sig_errno EAGAIN s, ERROR));
  s ← on_kernel sched_unlock s;
  Some (s, ret, info).

(** The function of the watchdog that [sigtimedwait] starts. *)
Definition sig_timeout (s : sig_state) (wtcb : Z) : option sig_state :=
  w ← get_tcb (skn s) wtcb;
  if bool_decide (task_state w = TSTATE_WAIT_SIG) then
    on_kernel (fun k => up_unblock_task k wtcb) (set_unbinfo wtcb (mk_info SIG_WAIT_TIMEOUT SI_TIMER 0 0 OK) s)
  else Some s.

(** [sigsuspend], until it returns or blocks. *)
Definition sigsuspend (s : sig_state) (set : Z) : option (sig_state * bool) :=
  let rtcb := rtr_head (skn s) in
  s ← on_kernel sched_lock s;
  pending ← sig_pendingset s rtcb;
  let intersection := Z.land (set_not set) pending in
  if negb (intersection =? NULL_SIGNAL_SET) then
    '(s, sigpend) ← sig_removependingsignal s rtcb (sig_lowest intersection);
    _ ← assert (negb (sigpend =? 0));
    s ← sig_releasependingsignal sigpend s;
    s ← on_kernel sched_unlock s;
    Some (s, true)
  else
    let s := set_waitmask rtcb NULL_SIGNAL_SET (set_mask rtcb set s) in
    s ← on_kernel (fun k => up_block_task k rtcb TSTATE_WAIT_SIG) s;
    Some (s, false).

(** The rest of [sigsuspend], with the mask it saved. *)
Definition sigsuspend_resume (s : sig_state) (saved_sigprocmask : Z) : option (sig_state * Z) :=
  let rtcb := rtr_head (skn s) in
  s ← sig_unmaskpendingsignal deliver (set_mask rtcb saved_sigprocmask s);
  s ← on_kernel sched_unlock s;
  Some (s, ERROR).

Definition pause (s : sig_state) : option (sig_state * option (Z * siginfo)) := sigwaitinfo s sigemptyset.1.
End delivery.

(** ** Initialisation and clean-up *)

Definition sig_allocateblock (i : qid) (nsigs : Z) (type : sigalloc_e) (s : sig_state) : option (sig_state * Z) :=
  let '(s, p) := malloc s in
  s ← add_block (Z.to_nat nsigs) i SIZEOF_SIGQ p
        (fun p s => let v := sigqs s p in set_sigq p (mk_sigq (sighandler v) (qmask v) (qinfo v) type) s) s;
  Some (s, p).

Definition sig_allocatependingsignalblock (i : qid) (nsigs : Z) (type : sigalloc_e) (s : sig_state) : option (sig_state * Z) :=
  let '(s, p) := malloc s in
  s ← add_block (Z.to_nat nsigs) i SIZEOF_SIGPENDQ p (fun p s => set_sigpend p (mk_sigpendq (pinfo (pends s p)) type) s) s;
  Some (s, p).

(** [sq_init] *)
Definition init_list (i : qid) (s : sig_state) : sig_state := set_slist i (slinks s, empty_queue) s.

Definition sig_initialize (s : sig_state) : option sig_state :=
  let s := init_list g_sigfreeaction s in
  let s := init_list g_sigpendingaction s in
  let s := init_list g_sigpendingirqaction s in
  let s := init_list g_sigpendingsignal s in
  let s := init_list g_sigpendingirqsignal s in
  '(s, _) ← sig_allocateblock g_sigpendingaction NUM_PENDING_ACTIONS SIG_ALLOC_FIXED s;
  '(s, _) ← sig_allocateblock g_sigpendingirqaction NUM_PENDING_INT_ACTIONS SIG_ALLOC_IRQ s;
  s ← sig_allocateactionblock s;
  '(s, _) ← sig_allocatependingsignalblock g_sigpendingsignal NUM_SIGNALS_PENDING SIG_ALLOC_FIXED s;
  '(s, _) ← sig_allocatependingsignalblock g_sigpendingirqsignal NUM_INT_SIGNALS_PENDING SIG_ALLOC_IRQ s;
  Some s.

(** [while ((p = sq_remfirst(list)) != NULL) release(p);] *)
Fixpoint release_all (fuel : nat) (i : qid) (release : Z -> sig_state -> option sig_state) (s : sig_state) : option sig_state :=
  match fuel with
  | O => None
  | S fuel =>
      '(s, p) ← rem_first i s;
      if p =? 0 then Some s else s ← release p s; release_all fuel i release s
  end.

Definition sig_cleanup (s : sig_state) (stcb : Z) : option sig_state :=
  s ← release_all sig_fuel (sigactionq stcb) sig_releaseaction s;
  s ← release_all sig_fuel (sigpendactionq stcb) sig_releasependingsigaction s;
  s ← release_all sig_fuel (sigpostedq stcb) sig_releasependingsigaction s;
  Some (set_waitmask stcb NULL_SIGNAL_SET (set_mask stcb ALL_SIGNAL_SET s)).

Definition sig_release (s : sig_state) (g : Z) : option sig_state := release_all sig_fuel (sigpendingq g) sig_releasependingsignal s.
