(* ===== verification/SignalLists.v ===== *)
(** * Signals: sets and lists

    Signal sets as sets of numbers; the lists of signal structures, of which
    each structure is on one at most; and the pending signals of a group. *)

From stdpp Require Import base tactics numbers sets list.
From S2P Require Import Prelude Queue QueueProps Sched Sem Mqueue Signal.

(** ** Sets *)

Definition good (n : Z) : Prop := 0 <= n <= 31.

Lemma GOOD_SIGNO_good n : good n -> GOOD_SIGNO n = true.
Proof. unfold good, GOOD_SIGNO, MAX_SIGNO, u32. intros H. rewrite Z.mod_small by lia. apply Z.leb_le. lia. Qed.

Lemma is_in_testbit set n : good n -> is_in set n = Z.testbit set n.
Proof.
  intros Hn. unfold is_in, sigismember. rewrite GOOD_SIGNO_good by done. unfold SIGNO2SET.
  rewrite Z.shiftl_1_l. destruct (Z.eqb_spec (Z.land set (2 ^ n)) 0) as [E|E]; simpl.
  - apply (f_equal (fun z => Z.testbit z n)) in E. rewrite Z.land_spec, Z.pow2_bits_true, andb_true_r, Z.testbit_0_l in E by (unfold good in Hn; lia). by rewrite E.
  - destruct (Z.testbit set n) eqn:Eb; [done|]. exfalso. apply E, Z.bits_inj. intros k. rewrite Z.land_spec, Z.testbit_0_l.
    destruct (Z.eq_dec k n) as [->|Hne]; [by rewrite Eb|]. rewrite (Z.pow2_bits_false n k) by congruence. apply andb_false_r.
Qed.

Lemma add_testbit set n k : good n -> Z.testbit (sigaddset set n).1 k = Z.testbit set k || bool_decide (k = n).
Proof.
  intros Hn. unfold sigaddset. rewrite GOOD_SIGNO_good by done. simpl. unfold SIGNO2SET. rewrite Z.shiftl_1_l, Z.lor_spec. f_equal.
  case_bool_decide as E; [subst; apply Z.pow2_bits_true; unfold good in Hn; lia|]. apply Z.pow2_bits_false. congruence.
Qed.

Lemma not_testbit set k : 0 <= k -> Z.testbit (set_not set) k = if k <? 32 then negb (Z.testbit set k) else Z.testbit set k.
Proof.
  intros Hk. unfold set_not, ALL_SIGNAL_SET. rewrite Z.lxor_spec. change 4294967295 with (Z.ones 32).
  destruct (Z.ltb_spec k 32); [rewrite Z.ones_spec_low by lia; apply xorb_true_r|]. rewrite Z.ones_spec_high by lia. apply xorb_false_r.
Qed.

Lemma del_testbit set n k : good n -> good k -> Z.testbit (sigdelset set n).1 k = Z.testbit set k && bool_decide (k <> n).
Proof.
  intros Hn Hk. unfold sigdelset. rewrite GOOD_SIGNO_good by done. simpl. rewrite Z.land_spec, not_testbit by (unfold good in Hk; lia).
  destruct (Z.ltb_spec k 32); [|unfold good in Hk; lia]. f_equal. unfold SIGNO2SET. rewrite Z.shiftl_1_l.
  case_bool_decide as E; [by rewrite Z.pow2_bits_false|]. rewrite E. rewrite Z.pow2_bits_true; [done|]. unfold good in Hn. lia.
Qed.

(** A set of 32 bits with no member is empty. *)
Definition is_set (set : Z) : Prop := 0 <= set < 2 ^ 32.

Lemma set_bits set k : is_set set -> 32 <= k -> Z.testbit set k = false.
Proof. intros Hs Hk. destruct (Z.eq_dec set 0) as [->|]; [apply Z.testbit_0_l|]. apply Z.bits_above_log2; [apply Hs|].
  apply Z.lt_le_trans with 32; [|done]. apply Z.log2_lt_pow2; [|apply Hs]. destruct Hs. lia. Qed.

Lemma set_empty set : is_set set -> (forall n, good n -> Z.testbit set n = false) -> set = 0.
Proof.
  intros Hs H. apply Z.bits_inj. intros k. rewrite Z.testbit_0_l. destruct (Z_lt_le_dec k 0); [by rewrite Z.testbit_neg_r|].
  destruct (Z_lt_le_dec k 32); [apply H; unfold good; lia|by apply set_bits].
Qed.

Lemma set_of_bits set : 0 <= set -> (forall k, 32 <= k -> Z.testbit set k = false) -> is_set set.
Proof.
  intros H0 Hb. split; [done|]. destruct (Z.eq_dec set 0) as [->|Hne]; [done|]. apply Z.log2_lt_pow2; [lia|].
  destruct (Z_lt_le_dec (Z.log2 set) 32); [done|]. specialize (Hb (Z.log2 set) ltac:(done)). rewrite Z.bit_log2 in Hb by lia. done.
Qed.

Lemma is_set_land a b : is_set a -> is_set b -> is_set (Z.land a b).
Proof.
  intros Ha Hb. apply set_of_bits; [apply Z.land_nonneg; left; apply Ha|]. intros k Hk. rewrite Z.land_spec, (set_bits a) by done. done.
Qed.

Lemma is_set_not a : is_set a -> is_set (set_not a).
Proof.
  intros Ha. apply set_of_bits; [apply Z.lxor_nonneg; unfold ALL_SIGNAL_SET; destruct Ha; lia|]. intros k Hk. rewrite not_testbit by lia.
  destruct (Z.ltb_spec k 32); [lia|by apply set_bits].
Qed.

Lemma is_set_del a n : good n -> is_set a -> is_set (sigdelset a n).1.
Proof.
  intros Hn Ha. unfold sigdelset. rewrite GOOD_SIGNO_good by done. apply is_set_land; [done|]. apply is_set_not. unfold SIGNO2SET. rewrite Z.shiftl_1_l.
  unfold good in Hn. split; [apply Z.pow_nonneg; lia|apply Z.pow_lt_mono_r; lia].
Qed.

Lemma lowest_from_spec n set k :
  0 <= k -> k + Z.of_nat n <= 32 ->
  (exists m, lowest_from n set k = m /\ k <= m < k + Z.of_nat n /\ Z.testbit set m = true /\ forall j, k <= j < m -> Z.testbit set j = false) \/
  (lowest_from n set k = ERROR /\ forall j, k <= j < k + Z.of_nat n -> Z.testbit set j = false).
Proof.
  revert k. induction n as [|n IH]; intros k Hk Hn; cbn [lowest_from]; [right; split; [done|lia]|].
  rewrite is_in_testbit by (unfold good; lia). destruct (Z.testbit set k) eqn:E.
  - left. exists k. split_and!; try done; lia.
  - destruct (IH (k + 1)) as [(m & Hm & Hr & Hb & Hl)|[Hm Hl]]; [lia|lia| |].
    + left. exists m. split; [done|]. split; [lia|]. split; [done|]. intros j Hj. destruct (Z.eq_dec j k) as [->|]; [done|]. apply Hl. lia.
    + right. split; [done|]. intros j Hj. destruct (Z.eq_dec j k) as [->|]; [done|]. apply Hl. lia.
Qed.

(** [sig_lowest] finds the lowest member of a set that has one. *)
Lemma sig_lowest_spec set :
  is_set set -> set <> 0 ->
  good (sig_lowest set) /\ Z.testbit set (sig_lowest set) = true /\ forall j, good j -> Z.testbit set j = true -> sig_lowest set <= j.
Proof.
  intros Hs Hne. unfold sig_lowest. change (Z.to_nat (MAX_SIGNO - MIN_SIGNO + 1)) with 32%nat. change MIN_SIGNO with 0.
  destruct (lowest_from_spec 32 set 0) as [(m & -> & Hr & Hb & Hl)|[_ Hl]]; [lia|lia| |].
  - split; [unfold good; lia|]. split; [done|]. intros j Hj Hbj. destruct (Z_lt_le_dec j m); [|done]. rewrite Hl in Hbj; [done|]. unfold good in Hj. lia.
  - destruct Hne. apply set_empty; [done|]. intros n Hn. apply Hl. unfold good in Hn. lia.
Qed.

(** ** Lists *)

Abbreviation ghost := (qid -> list Z).

Definition set_q (i : qid) (l : list Z) (G : ghost) : ghost := fun j => if decide (j = i) then l else G j.

Lemma set_q_eq i l G : set_q i l G i = l.
Proof. unfold set_q. by rewrite decide_True. Qed.

Lemma set_q_ne i l G j : j <> i -> set_q i l G j = G j.
Proof. intros. unfold set_q. by rewrite decide_False. Qed.

(** [G i] is the list [i]; no structure is on two lists. *)
Record lists_ok (s : sig_state) (G : ghost) : Prop := {
  lo_rep i : sq_rep (slinks s) (qs s i) (G i);
  lo_once i j p : p ∈ G i -> p ∈ G j -> i = j
}.

(** A structure that is on no list. *)
Definition off (G : ghost) (p : Z) : Prop := forall i, p ∉ G i.

(** Nothing but the lists has changed. *)
Record only_lists (s s' : sig_state) : Prop := {
  ol_sg : sg s' = sg s;
  ol_mqs : mqs s' = mqs s;
  ol_acts : acts s' = acts s;
  ol_pends : pends s' = pends s;
  ol_sigqs : sigqs s' = sigqs s;
  ol_tsig : tsig s' = tsig s;
  ol_kheap : kheap s' = kheap s;
  ol_calls : calls s' = calls s
}.

#[export] Instance only_lists_preorder : PreOrder only_lists.
Proof. split; [by constructor|]. intros s1 s2 s3 [] []. constructor; congruence. Qed.

Lemma only_lists_set i r s : only_lists s (set_slist i r s).
Proof. by constructor. Qed.

(** One list changes; the links of the others do not. *)
Lemma lists_change s G i r l X :
  lists_ok s G -> sq_rep r.1 r.2 l -> same_links X (slinks s) r.1 -> (forall p, p ∈ X -> p ∈ G i \/ off G p) ->
  (forall p, p ∈ l -> p ∈ G i \/ off G p) -> lists_ok (set_slist i r s) (set_q i l G).
Proof.
  intros [Hr Ho] Hl HL HX Hin. constructor.
  - intros j. simpl. unfold set_q. destruct (decide (j = i)) as [->|Hne]; [done|].
    apply (sq_rep_frame X (slinks s)); [done| |apply Hr]. intros p Hp Hpx. destruct (HX p Hpx) as [Hi|Hoff]; [|by apply (Hoff j)].
    by apply Hne, (Ho j i p).
  - intros j1 j2 p. unfold set_q. destruct (decide (j1 = i)) as [->|H1], (decide (j2 = i)) as [->|H2]; [done| | |by apply Ho].
    + intros Hp Hp2. destruct (Hin p Hp) as [Hi|Hoff]; [by apply (Ho i j2 p)|by destruct (Hoff j2)].
    + intros Hp1 Hp. destruct (Hin p Hp) as [Hi|Hoff]; [by apply (Ho j1 i p)|by destruct (Hoff j1)].
Qed.

Lemma add_last_spec s G i p :
  lists_ok s G -> p <> 0 -> off G p ->
  exists s', add_last i p s = Some s' /\ only_lists s s' /\ lists_ok s' (set_q i (G i ++ [p]) G).
Proof.
  intros Hl Hp Ho. destruct (sq_addlast_spec _ _ _ p (lo_rep _ _ Hl i) (Ho i) Hp) as (L' & q' & Hrun & Hr & HL).
  unfold add_last. rewrite Hrun. cbn [mbind option_bind]. eexists. split; [done|]. split; [apply only_lists_set|].
  apply (lists_change s G i (L', q') _ (p :: G i)); try done; intros y; rewrite ?elem_of_app, ?list_elem_of_singleton, ?elem_of_cons; intros [H|H]; subst; by auto.
Qed.

Lemma rem_first_spec s G i :
  lists_ok s G ->
  match G i with
  | [] => exists s', rem_first i s = Some (s', 0) /\ only_lists s s' /\ lists_ok s' G
  | p :: l => exists s', rem_first i s = Some (s', p) /\ only_lists s s' /\ lists_ok s' (set_q i l G) /\ p <> 0 /\ off (set_q i l G) p
  end.
Proof.
  intros Hl. pose proof (sq_remfirst_spec _ _ _ (lo_rep _ _ Hl i)) as Hf. unfold rem_first. destruct (G i) as [|p l] eqn:E.
  - rewrite Hf. cbn [mbind option_bind]. eexists. split; [done|]. split; [apply only_lists_set|]. destruct Hl as [Hr Ho]. constructor; [|done].
    intros j. simpl. destruct (decide (j = i)) as [->|]; [simpl; apply Hr|apply Hr].
  - destruct Hf as (L' & q' & -> & Hr & HL). cbn [mbind option_bind]. pose proof (lo_rep _ _ Hl i) as Hri. rewrite E in Hri.
    pose proof (sq_nodup _ _ _ Hri) as Hnd. apply NoDup_cons in Hnd as [Hpl Hnd]. pose proof (sq_null _ _ _ Hri) as H0.
    eexists. split; [done|]. split; [apply only_lists_set|]. split; [|split; [set_solver|]].
    + apply (lists_change s G i (L', q') _ (p :: l)); try done; rewrite E; intros y Hy; left; set_solver.
    + intros j. unfold set_q. destruct (decide (j = i)) as [->|Hne]; [done|]. intros Hj. apply Hne, (lo_once _ _ Hl j i p); [done|]. rewrite E. set_solver.
Qed.

(** Taking a structure out of the middle leaves it on no list. *)
Lemma removed_off s G i l1 p l2 : lists_ok s G -> G i = l1 ++ p :: l2 -> p <> 0 /\ off (set_q i (l1 ++ l2) G) p.
Proof.
  intros Hl E. pose proof (lo_rep _ _ Hl i) as Hr. rewrite E in Hr. pose proof (sq_null _ _ _ Hr). pose proof (sq_nodup _ _ _ Hr) as Hnd.
  apply NoDup_remove' in Hnd as [_ Hnd]. split; [set_solver|]. intros j. unfold set_q. destruct (decide (j = i)) as [->|Hne]; [done|].
  intros Hj. apply Hne, (lo_once _ _ Hl j i p); [done|]. rewrite E. set_solver.
Qed.

Lemma rem_spec s G i l1 p l2 :
  lists_ok s G -> G i = l1 ++ p :: l2 -> (length l1 < sig_fuel)%nat ->
  exists s', rem i p s = Some s' /\ only_lists s s' /\ lists_ok s' (set_q i (l1 ++ l2) G).
Proof.
  intros Hl E Hf. pose proof (lo_rep _ _ Hl i) as Hr. rewrite E in Hr. destruct (sq_rem_spec sig_fuel _ _ _ _ _ Hr Hf) as (L' & q' & Hrun & Hr' & HL).
  unfold rem. rewrite Hrun. cbn [mbind option_bind]. eexists. split; [done|]. split; [apply only_lists_set|].
  apply (lists_change s G i (L', q') _ (l1 ++ p :: l2)); try done; rewrite E; intros y Hy; left; set_solver.
Qed.

Lemma rem_after_spec s G i l1 q p l2 :
  lists_ok s G -> G i = l1 ++ q :: p :: l2 ->
  exists s', rem_after i q s = Some s' /\ only_lists s s' /\ lists_ok s' (set_q i (l1 ++ q :: l2) G).
Proof.
  intros Hl E. pose proof (lo_rep _ _ Hl i) as Hr. rewrite E in Hr. destruct (sq_remafter_spec _ _ _ _ _ _ Hr) as (L' & q' & Hrun & Hr' & HL).
  unfold rem_after. rewrite Hrun. cbn [mbind option_bind]. eexists. split; [done|]. split; [apply only_lists_set|].
  apply (lists_change s G i (L', q') _ (l1 ++ q :: p :: l2)); try done; rewrite E; intros y Hy; left; set_solver.
Qed.

(** The lists do not depend on anything else. *)
Lemma lists_same s s' G : slinks s' = slinks s -> qs s' = qs s -> lists_ok s G -> lists_ok s' G.
Proof. intros EL EQ [Hr Ho]. constructor; [|done]. intros i. rewrite EL, EQ. apply Hr. Qed.

Lemma lists_ext s G G' : (forall i, G' i = G i) -> lists_ok s G -> lists_ok s G'.
Proof. intros E [Hr Ho]. constructor; [intros i; rewrite E; apply Hr|]. intros i j p. rewrite !E. apply Ho. Qed.

(** ** Pending signals *)

Definition num (s : sig_state) (p : Z) : Z := si_signo (pinfo (pends s p)).

(** The information of the pending signals of group [g], oldest first. *)
Definition pending (s : sig_state) (G : ghost) (g : Z) : list siginfo := map (fun p => pinfo (pends s p)) (G (sigpendingq g)).

(** A group has at most one pending signal of each number. *)
Definition pending_ok (s : sig_state) (G : ghost) (g : Z) : Prop :=
  NoDup (map (num s) (G (sigpendingq g))) /\ Forall good (map (num s) (G (sigpendingq g))).

Lemma good_count l : NoDup l -> Forall good l -> (length l <= 32)%nat.
Proof.
  intros Hn Hg. assert (Hs : l ⊆ seqZ 0 32).
  { intros x Hx. rewrite Forall_forall in Hg. specialize (Hg x Hx). apply elem_of_seqZ. unfold good in Hg. lia. }
  pose proof (submseteq_length _ _ (NoDup_submseteq _ _ Hn Hs)) as H. by rewrite length_seqZ in H.
Qed.

Lemma pending_length s G g : pending_ok s G g -> (length (G (sigpendingq g)) < sig_fuel)%nat.
Proof. intros [Hn Hg]. pose proof (good_count _ Hn Hg) as H. rewrite length_map in H. unfold sig_fuel. lia. Qed.

(** The numbers found along a list. *)
Lemma pending_from_spec fuel s l0 l set :
  seg (flink (slinks s)) (l0 ++ l) 0 -> 0 ∉ l -> (length l < fuel)%nat -> Forall good (map (num s) l) -> is_set set ->
  exists set', pending_from fuel s (hd_or l 0) set = Some set' /\ is_set set' /\
    forall n, Z.testbit set' n = Z.testbit set n || bool_decide (n ∈ map (num s) l).
Proof.
  revert l0 l set. induction fuel as [|fuel IH]; intros l0 l set Hs H0 Hf Hg Hset; [lia|]. destruct l as [|p l]; cbn [pending_from hd_or].
  - exists set. split_and!; try done. intros n. rewrite bool_decide_eq_false_2; [by rewrite orb_false_r|]. apply not_elem_of_nil.
  - destruct (Z.eqb_spec p 0) as [->|_]; [by destruct H0; left|]. apply seg_app in Hs as [_ Hs]. destruct Hs as [Hp Hs]. rewrite Hp.
    simpl in Hg. apply Forall_cons in Hg as [Hgp Hg]. fold (num s p). destruct (IH [] l (sigaddset set (num s p)).1) as (set' & Hrun & Hs' & Hb); try done; [set_solver|simpl in Hf; lia| |].
    { apply set_of_bits.
      - unfold sigaddset. rewrite GOOD_SIGNO_good by done. apply Z.lor_nonneg. split; [apply Hset|]. unfold SIGNO2SET. rewrite Z.shiftl_1_l. apply Z.pow_nonneg. lia.
      - intros k Hk. rewrite add_testbit, (set_bits set), bool_decide_eq_false_2 by (done || (unfold good in Hgp; lia)). done. }
    exists set'. split; [done|]. split; [done|]. intros n. rewrite Hb, add_testbit by done. simpl. rewrite <- orb_assoc. f_equal.
    rewrite <- bool_decide_or. apply bool_decide_ext. rewrite elem_of_cons. done.
Qed.

Lemma sig_pendingset_spec s G x :
  lists_ok s G -> pending_ok s G (group (tsig s x)) ->
  exists set, sig_pendingset s x = Some set /\ is_set set /\
    forall n, Z.testbit set n = bool_decide (n ∈ map (num s) (G (sigpendingq (group (tsig s x))))).
Proof.
  intros Hl Hp. pose proof (lo_rep _ _ Hl (sigpendingq (group (tsig s x)))) as [_ H0 Hh _ Hn]. unfold sig_pendingset. rewrite Hh.
  destruct (pending_from_spec sig_fuel s [] _ NULL_SIGNAL_SET Hn H0 (pending_length s G _ Hp) ltac:(apply Hp)) as (set & Hrun & Hs & Hb); [done|].
  exists set. split_and!; try done. intros n. rewrite Hb. unfold NULL_SIGNAL_SET. by rewrite Z.testbit_0_l.
Qed.

(** Where the signal [n] is, if it is pending. *)
Lemma find_prevsig_spec fuel s l0 l n :
  seg (flink (slinks s)) (l0 ++ l) 0 -> 0 ∉ l -> (length l < fuel)%nat ->
  ((n ∉ map (num s) l) /\ exists q, find_prev fuel s n (last_or l0 0) (hd_or l 0) = Some (q, 0)) \/
  (exists l1 p l2, l = l1 ++ p :: l2 /\ num s p = n /\ (n ∉ map (num s) l1) /\
     find_prev fuel s n (last_or l0 0) (hd_or l 0) = Some (last_or (l0 ++ l1) 0, p)).
Proof.
  revert l0 l. induction fuel as [|fuel IH]; intros l0 l Hs H0 Hf; [lia|]. destruct l as [|p l]; cbn [find_prev hd_or].
  - left. split; [apply not_elem_of_nil|]. by eexists.
  - destruct (Z.eqb_spec p 0) as [->|_]; [by destruct H0; left|]. fold (num s p). cbn [orb]. destruct (Z.eqb_spec (num s p) n) as [E|E].
    + right. exists [], p, l. rewrite app_nil_r. split_and!; try done. apply not_elem_of_nil.
    + pose proof Hs as Hs'. apply seg_app in Hs' as [_ [Hp _]]. rewrite Hp.
      destruct (IH (l0 ++ [p]) l) as [[Hn [q Hq]]|(l1 & p' & l2 & -> & Hp' & Hl1 & Hrun)]; [by rewrite <- app_assoc|set_solver|simpl in Hf; lia| |].
      * left. rewrite last_or_snoc in Hq. split; [simpl; rewrite elem_of_cons; intros [?|?]; congruence|]. by eexists.
      * right. exists (p :: l1), p', l2. rewrite last_or_snoc, <- app_assoc in Hrun. split_and!; try done. simpl. rewrite elem_of_cons. intros [?|?]; congruence.
Qed.

(** [sig_removependingsignal] takes the signal off the list, if it is there. *)
Lemma sig_removependingsignal_spec s G x n :
  lists_ok s G -> pending_ok s G (group (tsig s x)) ->
  let q := sigpendingq (group (tsig s x)) in
  ((n ∉ map (num s) (G q)) /\ exists s', sig_removependingsignal s x n = Some (s', 0) /\ only_lists s s' /\ lists_ok s' G) \/
  (exists s' l1 p l2, G q = l1 ++ p :: l2 /\ num s p = n /\ sig_removependingsignal s x n = Some (s', p) /\
     only_lists s s' /\ lists_ok s' (set_q q (l1 ++ l2) G) /\ p <> 0 /\ off (set_q q (l1 ++ l2) G) p).
Proof.
  intros Hl Hp q. pose proof (lo_rep _ _ Hl q) as [Hnd H0 Hh _ Hn]. unfold sig_removependingsignal. fold q. rewrite Hh.
  destruct (find_prevsig_spec sig_fuel s [] (G q) n Hn H0 (pending_length s G _ Hp)) as [[Hno [r Hr]]|(l1 & p & l2 & E & Hpn & Hl1 & Hr)]; change (last_or [] 0) with 0 in Hr; rewrite Hr; cbn [mbind option_bind].
  - left. split; [done|]. exists s. split; [done|]. split; [reflexivity|done].
  - right. destruct (removed_off s G q l1 p l2 Hl E) as [Hp0 Hoff]. destruct (Z.eqb_spec p 0) as [?|_]; [done|]. cbn [negb].
    destruct l1 as [|y l1 _] using rev_ind.
    + change (last_or ([] ++ []) 0) with 0. cbn [app Z.eqb negb]. pose proof (rem_first_spec s G q Hl) as Hf. rewrite E in Hf. destruct Hf as (s' & Hrun & Ho & Hl' & _). rewrite Hrun. cbn [mbind option_bind].
      exists s', [], p, l2. split_and!; try done.
    + rewrite app_nil_l, last_or_snoc. destruct (Z.eqb_spec y 0) as [->|_]; [destruct H0; rewrite E; apply elem_of_app; left; apply elem_of_app; right; by apply list_elem_of_singleton|]. cbn [negb].
      rewrite <- app_assoc in E. destruct (rem_after_spec s G q l1 y p l2 Hl E) as (s' & Hrun & Ho & Hl'). rewrite Hrun. cbn [mbind option_bind].
      rewrite <- app_assoc in Hoff. exists s', (l1 ++ [y]), p, l2. rewrite <- !app_assoc. split_and!; done.
Qed.

Lemma find_pend_spec fuel s l0 l n :
  seg (flink (slinks s)) (l0 ++ l) 0 -> 0 ∉ l -> (length l < fuel)%nat ->
  ((n ∉ map (num s) l) /\ find_pend fuel s n (hd_or l 0) = Some 0) \/
  (exists p, p ∈ l /\ num s p = n /\ find_pend fuel s n (hd_or l 0) = Some p).
Proof.
  revert l0 l. induction fuel as [|fuel IH]; intros l0 l Hs H0 Hf; [lia|]. destruct l as [|p l]; cbn [find_pend hd_or].
  - left. split; [apply not_elem_of_nil|done].
  - destruct (Z.eqb_spec p 0) as [->|_]; [by destruct H0; left|]. fold (num s p). cbn [orb]. destruct (Z.eqb_spec (num s p) n) as [E|E].
    + right. exists p. split; [set_solver|done].
    + apply seg_app in Hs as [_ [Hp Hs]]. rewrite Hp. destruct (IH [] l) as [[Hn Hr]|(p' & Hin & Hp' & Hr)]; [done|set_solver|simpl in Hf; lia| |].
      * left. split; [|done]. simpl. rewrite elem_of_cons. intros [?|?]; congruence.
      * right. exists p'. split_and!; try done. set_solver.
Qed.

(** ** The invariant of the structures *)

Definition act_nums (s : sig_state) (l : list Z) : list Z := map (fun p => signo (acts s p)) l.

(** The free lists hold structures of their kind, what [kmm_malloc] returns is
    new, pending signals and actions have different numbers, and an action
    has a handler. *)
Record sig_inv (s : sig_state) (G : ghost) : Prop := {
  sv_lists : lists_ok s G;
  sv_heap : NoDup (kheap s);
  sv_new p : p ∈ kheap s -> p <> 0 /\ off G p;
  sv_fixed p : p ∈ G g_sigpendingsignal -> ptype (pends s p) = SIG_ALLOC_FIXED;
  sv_irq p : p ∈ G g_sigpendingirqsignal -> ptype (pends s p) = SIG_ALLOC_IRQ;
  sv_fixedact p : p ∈ G g_sigpendingaction -> qtype (sigqs s p) = SIG_ALLOC_FIXED;
  sv_irqact p : p ∈ G g_sigpendingirqaction -> qtype (sigqs s p) = SIG_ALLOC_IRQ;
  sv_pend g : pending_ok s G g;
  sv_acts x : NoDup (act_nums s (G (sigactionq x))) /\ Forall good (act_nums s (G (sigactionq x)));
  sv_handler x p : p ∈ G (sigactionq x) -> sa_handler (act (acts s p)) <> 0
}.

(** The type that a structure on list [i] has to have. *)
Definition type_ok (s : sig_state) (i : qid) (p : Z) : Prop :=
  match i with
  | g_sigpendingsignal => ptype (pends s p) = SIG_ALLOC_FIXED
  | g_sigpendingirqsignal => ptype (pends s p) = SIG_ALLOC_IRQ
  | g_sigpendingaction => qtype (sigqs s p) = SIG_ALLOC_FIXED
  | g_sigpendingirqaction => qtype (sigqs s p) = SIG_ALLOC_IRQ
  | _ => True
  end.

(** What the invariant says of the contents of the structures depends only on
    those that are on lists. *)
Lemma sig_inv_change s G s' G' :
  sig_inv s G -> lists_ok s' G' -> kheap s' = kheap s -> (forall p, off G p -> p ∈ kheap s -> off G' p) ->
  (forall i p, p ∈ G' i -> type_ok s' i p) ->
  (forall g, pending_ok s' G' g) -> acts s' = acts s -> (forall x, G' (sigactionq x) = G (sigactionq x)) -> sig_inv s' G'.
Proof.
  intros [Hl Hh Hn _ _ _ _ _ Ha Hk] Hl' Eh Hoff Ht Hp Ea Eq. constructor; try done.
  - by rewrite Eh.
  - intros p. rewrite Eh. intros Hp'. destruct (Hn p Hp') as [H0 Ho]. split; [done|by apply Hoff].
  - intros p. apply (Ht g_sigpendingsignal).
  - intros p. apply (Ht g_sigpendingirqsignal).
  - intros p. apply (Ht g_sigpendingaction).
  - intros p. apply (Ht g_sigpendingirqaction).
  - intros x. unfold act_nums. rewrite Ea, Eq. apply Ha.
  - intros x p. rewrite Ea, Eq. apply Hk.
Qed.

(** The types of the structures on the free lists. *)
Lemma inv_types s G i p : sig_inv s G -> p ∈ G i -> type_ok s i p.
Proof. intros Hi. destruct i; intros Hp; try done; by apply Hi. Qed.

(** A structure is taken off a list, or put on one. *)
Lemma off_less G i l p : (forall y, y ∈ l -> y ∈ G i) -> off G p -> off (set_q i l G) p.
Proof. intros Hl Ho j. unfold set_q. destruct (decide (j = i)) as [->|]; [|apply Ho]. intros Hp. by apply (Ho i), Hl. Qed.

Lemma sig_inv_less s G s' i l :
  sig_inv s G -> only_lists s s' -> lists_ok s' (set_q i l G) -> (forall x, i <> sigactionq x) -> l `sublist_of` G i -> sig_inv s' (set_q i l G).
Proof.
  intros Hi Ho Hl Hna Hs. assert (Hin : forall y, y ∈ l -> y ∈ G i) by (intros y Hy; by eapply elem_of_sublist).
  apply (sig_inv_change s G); try done; [apply Ho|intros p Hp _; by apply off_less| | |apply Ho|].
  - intros j p Hp. unfold type_ok. rewrite (ol_pends _ _ Ho), (ol_sigqs _ _ Ho). apply (inv_types s G); [done|]. unfold set_q in Hp. destruct (decide (j = i)) as [->|]; [by apply Hin|done].
  - intros g. unfold pending_ok, num. rewrite (ol_pends _ _ Ho). unfold set_q. destruct (decide (sigpendingq g = i)) as [<-|]; [|apply (sv_pend _ _ Hi)].
    destruct (sv_pend _ _ Hi g) as [Hn Hg]. assert (Hs' : map (num s) l `sublist_of` map (num s) (G (sigpendingq g))) by (clear - Hs; induction Hs; simpl; by constructor). split; [by eapply sublist_NoDup|].
    rewrite Forall_forall in Hg |- *. intros n Hn'. apply Hg. by eapply elem_of_sublist.
  - intros x. by rewrite set_q_ne.
Qed.

Lemma sig_inv_more s G s' i p :
  sig_inv s G -> only_lists s s' -> lists_ok s' (set_q i (G i ++ [p]) G) -> (forall x, i <> sigactionq x) -> (forall g, i <> sigpendingq g) ->
  p ∉ kheap s -> type_ok s i p -> sig_inv s' (set_q i (G i ++ [p]) G).
Proof.
  intros Hi Ho Hl Hna Hnp Hh Ht. assert (Et : forall j y, type_ok s j y -> type_ok s' j y).
  { intros j y. unfold type_ok. by rewrite (ol_pends _ _ Ho), (ol_sigqs _ _ Ho). }
  apply (sig_inv_change s G); try done; [apply Ho| | | |apply Ho|].
  - intros y Hy Hyh j. unfold set_q. destruct (decide (j = i)) as [->|]; [|apply Hy]. rewrite elem_of_app, list_elem_of_singleton. intros [Hin| ->]; [by apply (Hy i)|done].
  - intros j y. unfold set_q. destruct (decide (j = i)) as [->|]; [|intros; by apply Et, inv_types with G].
    rewrite elem_of_app, list_elem_of_singleton. intros [Hin| ->]; [by apply Et, inv_types with G|by apply Et].
  - intros g. unfold pending_ok, num. rewrite (ol_pends _ _ Ho), set_q_ne by (intros E; by apply (Hnp g)). apply (sv_pend _ _ Hi).
  - intros y. apply set_q_ne. intros E. by apply (Hna y).
Qed.
