(* ===== verification/SignalDeliver.v ===== *)
(** * Signals: dispatching to the running task

    What a task does when signals are unmasked for it, or when it signals
    itself: handlers run at once, nested in each other.  The handlers here
    return with the signals as they found them ([handlers_ok]). *)

From stdpp Require Import base tactics numbers sets list.
From S2P Require Import Prelude Queue QueueProps Sched SchedProps SchedOps SchedKernel SchedTheorems Sem Mqueue SemTimed Signal SignalLists.

(** ** The kernel: preemption locks *)

Section kernel.
Context (T : list Z) (idle : Z).

(** Task [x] runs, outside of interrupts, with preemption locked [n] times and
    the error number [e], and nothing waits for it to unlock. *)
Record at_task (k : kernel) (x n e : Z) : Prop := {
  at_ok : exists A, sched_ok T idle k A /\ running A = x /\ A g_pendingtasks = [];
  at_irq : in_irq k = false;
  at_lock : lock k x = n;
  at_errno : pterrno (tcbs k x) = e
}.

Lemma at_task_head k x n e : at_task k x n e -> rtr_head k = x /\ x <> 0 /\ state k x = TSTATE_TASK_RUNNING.
Proof.
  intros [(A & Hok & <- & _) _ _ _]. pose proof (ok_inv _ _ _ _ Hok) as Hi. destruct (running_in _ _ _ _ Hi) as [Hin H0].
  split; [by apply (rtr_head_running T idle)|]. split; [done|]. rewrite (si_state _ _ _ _ Hi _ _ Hin). simpl. by rewrite decide_True.
Qed.

Lemma at_task_lock k x n e : at_task k x n e -> n < MAX_LOCK_COUNT -> exists k', sched_lock k = Some k' /\ at_task k' x (n + 1) e.
Proof.
  intros [(A & Hok & <- & Hp) Hirq Hl He] Hn. destruct (sched_lock_spec T idle k A Hok Hirq) as (k' & -> & Hok' & Hl' & ->); [by rewrite Hl|].
  eexists. split; [done|]. constructor; [by exists A|done|by rewrite Hl', Hl|by rewrite put_tcb_eq].
Qed.

Lemma at_task_unlock k x n e : at_task k x (n + 1) e -> 0 <= n -> exists k', sched_unlock k = Some k' /\ at_task k' x n e.
Proof.
  intros [(A & Hok & <- & Hp) Hirq Hl He] Hn. destruct (decide (n = 0)) as [->|Hne].
  - destruct (sched_unlock_release T idle k A Hok Hirq) as (k' & -> & Hok' & Ho & Hr); [lia|]. eexists. split; [done|]. constructor.
    + exists (merge_all k A). split; [done|]. unfold merge_all. rewrite Hp. split; [|by rewrite set_tasks_eq].
      unfold running. rewrite set_tasks_ne, set_tasks_eq by done. done.
    + destruct Ho as (-> & _). done.
    + by apply relocked_lock in Hr.
    + unfold relocked in Hr. by rewrite Hr.
  - destruct (sched_unlock_nested T idle k A Hok Hirq) as (k' & -> & Hok' & Ho & Hr); [lia|]. eexists. split; [done|]. constructor; [by exists A| | |].
    + destruct Ho as (-> & _). done.
    + apply relocked_lock in Hr. lia.
    + unfold relocked in Hr. by rewrite Hr.
Qed.

Lemma at_task_errno k x n e e' :
  at_task k x n e -> exists k', upd_tcb k x (set_pterrno e') = Some k' /\ at_task k' x n e'.
Proof.
  intros Ha. destruct (at_task_head _ _ _ _ Ha) as (_ & H0 & _). destruct Ha as [(A & Hok & Hr & Hp) Hirq Hl He].
  rewrite upd_tcb_ok by done. eexists. split; [done|]. constructor; [|done| |by rewrite put_tcb_eq].
  - exists A. split; [by apply ok_put|done].
  - unfold lock in *. by rewrite put_tcb_eq.
Qed.
End kernel.

(** ** Actions *)

(** The action for signal [n] among those of a list. *)
Fixpoint lookup_act (a : Z -> sigactq) (l : list Z) (n : Z) : option sigaction_t :=
  match l with
  | [] => None
  | p :: l => if signo (a p) =? n then Some (act (a p)) else lookup_act a l n
  end.

Definition action_of (s : sig_state) (G : ghost) (x n : Z) : option sigaction_t := lookup_act (acts s) (G (sigactionq x)) n.

Lemma find_act_spec fuel s l0 l n :
  seg (flink (slinks s)) (l0 ++ l) 0 -> 0 ∉ l -> (length l < fuel)%nat ->
  exists p, find_act fuel s n (hd_or l 0) = Some p /\
    ((p = 0 /\ lookup_act (acts s) l n = None) \/ (p ∈ l /\ lookup_act (acts s) l n = Some (act (acts s p)) /\ signo (acts s p) = n)).
Proof.
  revert l0 l. induction fuel as [|fuel IH]; intros l0 l Hs H0 Hf; [lia|]. destruct l as [|p l]; cbn [find_act hd_or lookup_act].
  - exists 0. split; [done|]. by left.
  - destruct (Z.eqb_spec p 0) as [->|_]; [by destruct H0; left|]. cbn [orb]. destruct (Z.eqb_spec (signo (acts s p)) n) as [E|E].
    + exists p. split; [done|]. right. split; [by left|]. by split.
    + apply seg_app in Hs as [_ [Hp Hs]]. rewrite Hp. destruct (IH [] l) as (q & Hq & Hc); [done|by intros ?; destruct H0; right|simpl in Hf; lia|].
      exists q. split; [done|]. destruct Hc as [?|[? ?]]; [by left|right]. split; [by right|done].
Qed.

(** ** Structures in use *)

Inductive kind := Act | Pend | Sigq.

#[export] Instance kind_eq_dec : EqDecision kind.
Proof. solve_decision. Defined.

Definition kind_of (i : qid) : kind :=
  match i with
  | g_sigfreeaction | sigactionq _ => Act
  | g_sigpendingsignal | g_sigpendingirqsignal | sigpendingq _ => Pend
  | _ => Sigq
  end.

Definition is_free (i : qid) : bool :=
  match i with g_sigfreeaction | g_sigpendingaction | g_sigpendingirqaction | g_sigpendingsignal | g_sigpendingirqsignal => true | _ => false end.

(** [H] are the structures in hand: off all lists, for an operation that has
    not finished. *)
Abbreviation hand := (list (kind * Z)).

Record owned (s : sig_state) (G : ghost) (H : hand) : Prop := {
  ow_inv : sig_inv s G;
  ow_hand k p : (k, p) ∈ H -> p <> 0 /\ off G p /\ p ∉ kheap s;
  ow_nodup : NoDup H.*2
}.

Definition has (G : ghost) (H : hand) (k : kind) (p : Z) : Prop := (exists i, kind_of i = k /\ p ∈ G i) \/ (k, p) ∈ H.

(** A structure that came from the heap. *)
Definition dyn (s : sig_state) (k : kind) (p : Z) : Prop :=
  match k with Act => False | Pend => ptype (pends s p) = SIG_ALLOC_DYN | Sigq => qtype (sigqs s p) = SIG_ALLOC_DYN end.

(** What operations leave alone, and that they lose no structure but those
    that go back to the heap. *)
Record ran (s : sig_state) (G : ghost) (H : hand) (s' : sig_state) (G' : ghost) (H' : hand) : Prop := {
  rn_owned : owned s' G' H';
  rn_pends : pends s' = pends s;
  rn_acts : acts s' = acts s;
  rn_qtype p : p ∉ kheap s -> qtype (sigqs s' p) = qtype (sigqs s p);
  rn_heap p : p ∈ kheap s' -> p ∈ kheap s;
  rn_kept k p : has G H k p -> has G' H' k p \/ dyn s k p
}.

Lemma has_old s G H k p : owned s G H -> has G H k p -> p ∉ kheap s.
Proof.
  intros [Hi Hh _] [(i & _ & Hp)|Hp]; [|by apply (Hh k)]. intros Hin. destruct (sv_new _ _ Hi p Hin) as [_ Ho]. by apply (Ho i).
Qed.

Lemma ran_trans s G H s1 G1 H1 s2 G2 H2 : owned s G H -> ran s G H s1 G1 H1 -> ran s1 G1 H1 s2 G2 H2 -> ran s G H s2 G2 H2.
Proof.
  intros Ho [_ P1 A1 Q1 K1 E1] [O2 P2 A2 Q2 K2 E2]. constructor; [done|congruence|congruence| |by auto|].
  - intros p Hp. rewrite Q2 by (by intros ?; apply Hp, K1). by apply Q1.
  - intros k p Hp. destruct (E1 k p Hp) as [Hp1|]; [|by right]. destruct (E2 k p Hp1) as [|Hd]; [by left|right].
    destruct k; simpl in *; [done|by rewrite <- P1|]. rewrite <- Q1; [done|]. by apply (has_old s G H Sigq).
Qed.

(** The state changes where neither the lists nor the structures are. *)
Lemma ran_same s G H s' :
  owned s G H -> slinks s' = slinks s -> qs s' = qs s -> acts s' = acts s -> pends s' = pends s -> sigqs s' = sigqs s -> kheap s' = kheap s ->
  ran s G H s' G H.
Proof.
  intros [Hi Hh Hn] E1 E2 E3 E4 E5 E6. constructor; rewrite ?E5, ?E6; try done; [|by left]. constructor; [|by rewrite E6|done].
  apply (sig_inv_change s G); try done; [by apply (lists_same s), Hi| |].
  - intros i p Hp. unfold type_ok. rewrite E4, E5. by apply (inv_types s G).
  - intros g. unfold pending_ok, num. rewrite E4. apply (sv_pend _ _ Hi).
Qed.

Lemma ran_lists s G H s' : owned s G H -> only_lists s s' -> lists_ok s' G -> ran s G H s' G H.
Proof.
  intros [Hi Hh Hn] Ho Hl. constructor; rewrite ?(ol_pends _ _ Ho), ?(ol_acts _ _ Ho), ?(ol_sigqs _ _ Ho), ?(ol_kheap _ _ Ho); try done; [|by left].
  constructor; [|by rewrite (ol_kheap _ _ Ho)|done]. apply (sig_inv_change s G); try done; try apply Ho.
  - intros i p Hp. unfold type_ok. rewrite (ol_pends _ _ Ho), (ol_sigqs _ _ Ho). by apply (inv_types s G).
  - intros g. unfold pending_ok, num. rewrite (ol_pends _ _ Ho). apply (sv_pend _ _ Hi).
Qed.

(** Taking a structure off a list, and putting it on one. *)
Lemma ran_take s G H s' i l1 p l2 :
  owned s G H -> G i = l1 ++ p :: l2 -> (forall y, i <> sigactionq y) -> only_lists s s' -> lists_ok s' (set_q i (l1 ++ l2) G) ->
  ran s G H s' (set_q i (l1 ++ l2) G) ((kind_of i, p) :: H).
Proof.
  intros [Hi Hh Hn] E Hna Ho Hl. destruct (removed_off s G i l1 p l2 (sv_lists _ _ Hi) E) as [Hp0 Hoff].
  assert (Hpi : p ∈ G i) by (rewrite E; apply elem_of_app; right; by left).
  assert (Hsub : l1 ++ l2 `sublist_of` G i) by (rewrite E; by apply sublist_app, sublist_cons).
  constructor; rewrite ?(ol_pends _ _ Ho), ?(ol_acts _ _ Ho), ?(ol_sigqs _ _ Ho), ?(ol_kheap _ _ Ho); try done.
  - constructor; [by apply (sig_inv_less s)| |].
    + intros k y. rewrite elem_of_cons, (ol_kheap _ _ Ho). intros [[= -> ->]|Hy].
      * split; [done|]. split; [done|]. intros Hk. by apply (proj2 (sv_new _ _ Hi p Hk) i).
      * destruct (Hh k y Hy) as (? & ? & ?). split_and!; try done. apply off_less; [|done]. intros z Hz. by eapply elem_of_sublist.
    + simpl. apply NoDup_cons. split; [|done]. intros ((k & y) & Ey & Hy)%list_elem_of_fmap. simpl in Ey. subst y. by apply (proj1 (proj2 (Hh k p Hy)) i).
  - intros k y [(j & Hj & Hy)|Hy]; left; [|right; by right]. destruct (decide (y = p)) as [->|Hne].
    + right. rewrite (lo_once _ _ (sv_lists _ _ Hi) i j p Hpi Hy), Hj. by left.
    + left. exists j. split; [done|]. unfold set_q. destruct (decide (j = i)) as [->|]; [|done]. rewrite E in Hy.
      apply elem_of_app in Hy as [?|[?|?]%elem_of_cons]; apply elem_of_app; [by left|done|by right].
Qed.

Lemma ran_put s G H s' i p :
  owned s G ((kind_of i, p) :: H) -> (forall y, i <> sigactionq y) -> (forall g, i <> sigpendingq g) -> type_ok s i p -> only_lists s s' ->
  lists_ok s' (set_q i (G i ++ [p]) G) -> ran s G ((kind_of i, p) :: H) s' (set_q i (G i ++ [p]) G) H.
Proof.
  intros [Hi Hh Hn] Hna Hnp Ht Ho Hl. destruct (Hh (kind_of i) p ltac:(by left)) as (Hp0 & Hoff & Hpk). simpl in Hn. apply NoDup_cons in Hn as [Hpn Hn].
  constructor; rewrite ?(ol_pends _ _ Ho), ?(ol_acts _ _ Ho), ?(ol_sigqs _ _ Ho), ?(ol_kheap _ _ Ho); try done.
  - constructor; [by apply (sig_inv_more s)| |done]. intros k y Hy. rewrite (ol_kheap _ _ Ho). destruct (Hh k y ltac:(by right)) as (? & Hyo & ?). split_and!; try done.
    intros j. unfold set_q. destruct (decide (j = i)) as [->|]; [|apply Hyo]. rewrite elem_of_app, list_elem_of_singleton. intros [Hin| ->]; [by apply (Hyo i)|].
    apply Hpn. apply list_elem_of_fmap. by exists (k, p).
  - intros k y [(j & Hj & Hy)|Hy]; left.
    + left. exists j. split; [done|]. unfold set_q. destruct (decide (j = i)) as [->|]; [|done]. apply elem_of_app. by left.
    + apply elem_of_cons in Hy as [[= -> ->]|Hy]; [left|by right]. exists i. split; [done|]. rewrite set_q_eq. apply elem_of_app. right. by left.
Qed.

(** A structure from the heap is given up. *)
Lemma ran_free s G H k p : owned s G ((k, p) :: H) -> dyn s k p -> ran s G ((k, p) :: H) s G H.
Proof.
  intros [Hi Hh Hn] Hd. constructor; try done.
  - constructor; [done|intros k' y Hy; apply (Hh k'); by right|]. simpl in Hn. by apply NoDup_cons in Hn as [_ ?].
  - intros k' y [?|[[= -> ->]|?]%elem_of_cons]; [left; by left|by right|left; by right].
Qed.

(** ** Pools *)

(** Only free lists have changed. *)
Definition same_used (G G' : ghost) : Prop := forall i, is_free i = false -> G' i = G i.

(** Nothing but structures and lists has changed. *)
Record same_rest (s s' : sig_state) : Prop := {
  sr_sg : sg s' = sg s;
  sr_mqs : mqs s' = mqs s;
  sr_tsig : tsig s' = tsig s;
  sr_calls : calls s' = calls s
}.

Lemma only_lists_rest s s' : only_lists s s' -> same_rest s s'.
Proof. intros []. by constructor. Qed.

Lemma set_q_used i l G : is_free i = true -> same_used G (set_q i l G).
Proof. intros Hi j Hj. apply set_q_ne. congruence. Qed.

(** Putting a structure on the free list for its type. *)
Lemma put_free s G H i p :
  owned s G ((kind_of i, p) :: H) -> is_free i = true -> type_ok s i p ->
  exists s' G', add_last i p s = Some s' /\ ran s G ((kind_of i, p) :: H) s' G' H /\ same_used G G' /\ same_rest s s' /\
    kheap s' = kheap s /\ sigqs s' = sigqs s /\ forall j, j <> i -> G' j = G j.
Proof.
  intros Hw Hf Ht. destruct (ow_hand _ _ _ Hw (kind_of i) p ltac:(by left)) as (H0 & Ho & _).
  destruct (add_last_spec s G i p (sv_lists _ _ (ow_inv _ _ _ Hw)) H0 Ho) as (s' & Hrun & Hol & Hl'). exists s'. eexists. split; [done|].
  split; [apply ran_put; try done; intros y ->; done|]. split; [by apply set_q_used|]. split; [by apply only_lists_rest|].
  split; [apply Hol|]. split; [apply Hol|]. intros j Hj. by apply set_q_ne.
Qed.

(** How many more structures for handlers a task can allocate. *)
Definition avail (s : sig_state) (G : ghost) : nat := length (G g_sigpendingaction) + length (kheap s).

Lemma release_action s G H q :
  owned s G ((Sigq, q) :: H) ->
  exists s' G', sig_releasependingsigaction q s = Some s' /\ ran s G ((Sigq, q) :: H) s' G' H /\ same_used G G' /\ same_rest s s' /\
    sigqs s' = sigqs s.
Proof.
  intros Hw. unfold sig_releasependingsigaction. destruct (qtype (sigqs s q)) eqn:E.
  - destruct (put_free s G H g_sigpendingaction q) as (s' & G' & ? & ? & ? & ? & _ & ? & _); try done. by exists s', G'.
  - exists s, G. split; [done|]. by split; [apply ran_free|].
  - destruct (put_free s G H g_sigpendingirqaction q) as (s' & G' & ? & ? & ? & ? & _ & ? & _); try done. by exists s', G'.
Qed.

Lemma release_signal s G H p :
  owned s G ((Pend, p) :: H) ->
  exists s' G', sig_releasependingsignal p s = Some s' /\ ran s G ((Pend, p) :: H) s' G' H /\ same_used G G' /\ same_rest s s' /\
    avail s' G' = avail s G /\ sigqs s' = sigqs s.
Proof.
  intros Hw. unfold sig_releasependingsignal. destruct (ptype (pends s p)) eqn:E.
  - destruct (put_free s G H g_sigpendingsignal p) as (s' & G' & ? & ? & ? & ? & Ek & ? & EG); try done. exists s', G'. split_and!; try done.
    unfold avail. by rewrite Ek, EG.
  - exists s, G. split; [done|]. by split; [apply ran_free|].
  - destruct (put_free s G H g_sigpendingirqsignal p) as (s' & G' & ? & ? & ? & ? & Ek & ? & EG); try done. exists s', G'. split_and!; try done.
    unfold avail. by rewrite Ek, EG.
Qed.

(** A new structure from the heap is in hand; its fields are arbitrary. *)
Lemma ran_new s G H s' p h v :
  owned s G H -> kheap s = p :: h -> slinks s' = slinks s -> qs s' = qs s -> acts s' = acts s -> pends s' = pends s ->
  sigqs s' = upd (sigqs s) p v -> kheap s' = h -> ran s G H s' G ((Sigq, p) :: H).
Proof.
  intros [Hi Hh Hn] Eh E1 E2 E3 E4 E5 E6. destruct (sv_new _ _ Hi p ltac:(rewrite Eh; by left)) as [H0 Hoff].
  pose proof (sv_heap _ _ Hi) as Hnd. rewrite Eh in Hnd. apply NoDup_cons in Hnd as [Hph Hnd].
  assert (Hold : forall y, y ∈ h -> y ∈ kheap s) by (intros; rewrite Eh; by right).
  assert (Eq : forall i y, y ∈ G i -> sigqs s' y = sigqs s y) by (intros i y Hy; rewrite E5; apply upd_ne; intros ->; by apply (Hoff i)).
  constructor; try done.
  - constructor.
    + destruct Hi as [Hl _ Hnew F1 F2 F3 F4 Hp Ha Hk]. constructor; rewrite ?E3, ?E4, ?E6; try done; [by apply (lists_same s)| | | | |].
      * intros y Hy. by apply Hnew, Hold.
      * intros y Hy. rewrite (Eq _ _ Hy). by apply F3.
      * intros y Hy. rewrite (Eq _ _ Hy). by apply F4.
      * intros g. unfold pending_ok, num. rewrite E4. apply Hp.
      * intros y. unfold act_nums. rewrite E3. apply Ha.
    + intros k y. rewrite E6, elem_of_cons. intros [[= -> ->]|Hy]; [done|]. destruct (Hh k y Hy) as (? & ? & Hyk). split_and!; try done. intros ?. by apply Hyk, Hold.
    + simpl. apply NoDup_cons. split; [|done]. intros ((k & y) & Ey & Hy)%list_elem_of_fmap. simpl in Ey. subst y.
      apply (proj2 (proj2 (Hh k p Hy))). rewrite Eh. by left.
  - intros y Hy. rewrite E5, upd_ne; [done|]. intros ->. apply Hy. rewrite Eh. by left.
  - rewrite E6. exact Hold.
  - intros k y [?|?]; left; [by left|right; by right].
Qed.

Lemma alloc_action s G H :
  owned s G H -> in_irq (skn s) = false -> (0 < avail s G)%nat ->
  exists s' G' q, sig_allocatependingsigaction s = Some (s', q) /\ ran s G H s' G' ((Sigq, q) :: H) /\ same_used G G' /\ same_rest s s' /\
    avail s G = S (avail s' G') /\ forall y, y <> q -> sigqs s' y = sigqs s y.
Proof.
  intros Hw Hirq Hav. pose proof (rem_first_spec s G g_sigpendingaction (sv_lists _ _ (ow_inv _ _ _ Hw))) as Hf.
  unfold sig_allocatependingsigaction, alloc_from, avail in *. destruct (G g_sigpendingaction) as [|q l] eqn:E.
  - destruct Hf as (s1 & -> & Ho & Hl1). cbn [mbind option_bind]. pose proof (ran_lists s G H s1 Hw Ho Hl1) as Hr.
    unfold skn in *. rewrite (ol_sg _ _ Ho), Hirq. change (0 =? 0) with true. cbn [mbind option_bind]. unfold malloc. rewrite (ol_kheap _ _ Ho).
    destruct (kheap s) as [|q h] eqn:Eh; [simpl in Hav; lia|]. destruct (sv_new _ _ (ow_inv _ _ _ Hw) q ltac:(rewrite Eh; by left)) as [Hq0 _].
    destruct (Z.eqb_spec q 0) as [?|_]; [done|]. eexists _, G, q. split; [done|]. split.
    + eapply ran_trans; [done|exact Hr|]. eapply (ran_new s1 G H _ q h); [apply Hr|by rewrite (ol_kheap _ _ Ho)|done..].
    + split; [done|]. split; [destruct Ho; by constructor|]. split; [by rewrite E|]. intros y Hy. simpl. rewrite upd_ne by done. by rewrite (ol_sigqs _ _ Ho).
  - destruct Hf as (s1 & -> & Ho & Hl1 & Hq0 & _). cbn [mbind option_bind]. unfold skn in *. rewrite (ol_sg _ _ Ho), Hirq.
    destruct (Z.eqb_spec q 0) as [?|_]; [done|]. exists s1, (set_q g_sigpendingaction l G), q. split; [done|]. split; [|split; [by apply set_q_used|]].
    + by apply (ran_take s G H s1 g_sigpendingaction [] q l).
    + split; [by apply only_lists_rest|]. rewrite set_q_eq, (ol_kheap _ _ Ho), (ol_sigqs _ _ Ho). done.
Qed.

(** Fields of a structure in hand, but for its type. *)
Lemma ran_write s G H q v :
  owned s G ((Sigq, q) :: H) -> qtype v = qtype (sigqs s q) -> ran s G ((Sigq, q) :: H) (set_sigq q v s) G ((Sigq, q) :: H).
Proof.
  intros [Hi Hh Hn] Hv. destruct (Hh Sigq q ltac:(by left)) as (_ & Hoff & _).
  assert (Eq : forall y, qtype (upd (sigqs s) q v y) = qtype (sigqs s y)).
  { intros y. destruct (decide (y = q)) as [->|]; [by rewrite upd_eq|by rewrite upd_ne]. }
  constructor; try done; [|intros y _; apply Eq|by left]. constructor; try done. apply (sig_inv_change s G); try done; [by apply (lists_same s), Hi| |].
  - intros i p Hp. unfold type_ok. simpl. rewrite Eq. by apply (inv_types s G).
  - intros g. apply (sv_pend _ _ Hi).
Qed.

Section task.
Context (T : list Z) (idle : Z) (x : Z).
Abbreviation at_task s n e := (at_task T idle (skn s) x n e).

(** ** Calls of the scheduler *)

Lemma on_lock s n e : at_task s n e -> n < MAX_LOCK_COUNT -> exists k, on_kernel sched_lock s = Some (set_skn k s) /\ at_task (set_skn k s) (n + 1) e.
Proof. intros Ha Hn. destruct (at_task_lock _ _ _ _ _ _ Ha Hn) as (k & Hrun & Hk). exists k. unfold on_kernel. by rewrite Hrun. Qed.

Lemma on_unlock s n e : at_task s (n + 1) e -> 0 <= n -> exists k, on_kernel sched_unlock s = Some (set_skn k s) /\ at_task (set_skn k s) n e.
Proof. intros Ha Hn. destruct (at_task_unlock _ _ _ _ _ _ Ha Hn) as (k & Hrun & Hk). exists k. unfold on_kernel. by rewrite Hrun. Qed.

Lemma acts_length s G y : sig_inv s G -> (length (G (sigactionq y)) < sig_fuel)%nat.
Proof.
  intros Hi. destruct (sv_acts _ _ Hi y) as [Hn Hg]. pose proof (good_count _ Hn Hg) as H. unfold act_nums in H. rewrite length_map in H.
  unfold sig_fuel. lia.
Qed.

Lemma sig_findaction_spec s G n e y m :
  sig_inv s G -> at_task s n e -> 0 <= n < MAX_LOCK_COUNT -> y <> 0 ->
  exists k p, sig_findaction s y m = Some (set_skn k s, p) /\ at_task (set_skn k s) n e /\
    ((p = 0 /\ action_of s G y m = None) \/ (p ∈ G (sigactionq y) /\ action_of s G y m = Some (act (acts s p)) /\ signo (acts s p) = m)).
Proof.
  intros Hi Ha Hn Hy. unfold sig_findaction. destruct (Z.eqb_spec y 0) as [?|_]; [done|].
  destruct (on_lock s n e Ha ltac:(lia)) as (k1 & Hl & Ha1). rewrite Hl. cbn [mbind option_bind].
  pose proof (lo_rep _ _ (sv_lists _ _ Hi) (sigactionq y)) as [_ H0 Hh _ Hs].
  destruct (find_act_spec sig_fuel (set_skn k1 s) [] (G (sigactionq y)) m Hs H0 (acts_length s G y Hi)) as (p & Hp & Hc).
  change (qs (set_skn k1 s)) with (qs s). rewrite Hh, Hp. cbn [mbind option_bind].
  destruct (on_unlock _ _ _ Ha1 ltac:(lia)) as (k2 & Hu & Ha2). rewrite Hu. cbn [mbind option_bind]. exists k2, p. split; [done|]. split; [done|].
  exact Hc.
Qed.

(** [sig_queueaction] for the running task: nothing where the signal has no
    handler; else the call is queued. *)
Lemma sig_queueaction_spec s G H n e info :
  owned s G H -> at_task s n e -> 0 <= n -> n + 2 <= MAX_LOCK_COUNT ->
  match action_of s G x (si_signo info) with
  | None => exists k, sig_queueaction s x info = Some (set_skn k s, OK) /\ at_task (set_skn k s) n e
  | Some a =>
      (0 < avail s G)%nat -> exists s' G' q, sig_queueaction s x info = Some (s', OK) /\ at_task s' n e /\ ran s G H s' G' H /\
        G' (sigpendactionq x) = G (sigpendactionq x) ++ [q] /\ (forall i, is_free i = false -> i <> sigpendactionq x -> G' i = G i) /\
        sighandler (sigqs s' q) = sa_handler a /\ qmask (sigqs s' q) = sa_mask a /\ qinfo (sigqs s' q) = info /\
        avail s G = S (avail s' G') /\ tsig s' = tsig s /\ calls s' = calls s /\ forall p, p <> q -> sigqs s' p = sigqs s p
  end.
Proof.
  intros Hw Ha Hn Hm. pose proof (ow_inv _ _ _ Hw) as Hi. destruct (at_task_head _ _ _ _ _ _ Ha) as (_ & Hx & _). unfold sig_queueaction.
  destruct (on_lock s n e Ha ltac:(lia)) as (k1 & -> & Ha1). cbn [mbind option_bind].
  pose proof (ran_same s G H (set_skn k1 s) Hw eq_refl eq_refl eq_refl eq_refl eq_refl eq_refl) as Hr1.
  destruct (sig_findaction_spec _ G (n + 1) e x (si_signo info) (ow_inv _ _ _ (rn_owned _ _ _ _ _ _ Hr1)) Ha1 ltac:(lia) Hx) as (k2 & p & -> & Ha2 & Hc).
  change (action_of (set_skn k1 s) G) with (action_of s G) in Hc. change (set_skn k2 (set_skn k1 s)) with (set_skn k2 s) in *. cbn [mbind option_bind].
  destruct Hc as [[-> ->]|(Hp & -> & _)].
  { change (negb (0 =? 0)) with false. cbn [andb mbind option_bind]. destruct (on_unlock _ _ _ Ha2 Hn) as (k3 & -> & Ha3). by exists k3. }
  intros Hav. assert (Hp0 : p <> 0) by (intros ->; by apply (sq_null _ _ _ (lo_rep _ _ (sv_lists _ _ Hi) (sigactionq x)))).
  destruct (Z.eqb_spec p 0) as [?|_]; [done|]. change (acts (set_skn k2 s)) with (acts s) in *. destruct (Z.eqb_spec (sa_handler (act (acts s p))) 0) as [E|_]; [by destruct (sv_handler _ _ Hi x p Hp)|].
  cbn [negb andb]. set (s2 := set_skn k2 s) in *. pose proof (ran_same s G H s2 Hw eq_refl eq_refl eq_refl eq_refl eq_refl eq_refl) as Hr2.
  destruct (alloc_action s2 G H (rn_owned _ _ _ _ _ _ Hr2) (at_irq _ _ _ _ _ _ Ha2) Hav) as (s3 & G3 & q & -> & Hr3 & Hu3 & Hs3 & Hv3 & Hq3). cbn [mbind option_bind].
  pose proof (rn_owned _ _ _ _ _ _ Hr3) as Hw3. destruct (ow_hand _ _ _ Hw3 Sigq q ltac:(by left)) as (Hq0 & Hqo & _). destruct (Z.eqb_spec q 0) as [?|_]; [done|].
  rewrite (rn_acts _ _ _ _ _ _ Hr3). change (acts s2) with (acts s).
  set (v := mk_sigq _ _ _ _). pose proof (ran_write s3 G3 H q v Hw3 eq_refl) as Hr4. set (s4 := set_sigq q v s3) in *. pose proof (rn_owned _ _ _ _ _ _ Hr4) as Hw4.
  destruct (add_last_spec s4 G3 (sigpendactionq x) q (sv_lists _ _ (ow_inv _ _ _ Hw4)) Hq0 Hqo) as (s5 & -> & Ho5 & Hl5). cbn [mbind option_bind].
  assert (Hr5 : ran s4 G3 ((Sigq, q) :: H) s5 (set_q (sigpendactionq x) (G3 (sigpendactionq x) ++ [q]) G3) H) by (by apply (ran_put s4 G3 H s5 (sigpendactionq x))).
  assert (Ha5 : at_task s5 (n + 1) e) by (unfold skn; rewrite (ol_sg _ _ Ho5); change (sg s4) with (sg s3); by rewrite (sr_sg _ _ Hs3)).
  destruct (on_unlock _ _ _ Ha5 Hn) as (k6 & -> & Ha6). cbn [mbind option_bind]. eexists _, _, q. split; [done|]. split; [exact Ha6|]. split.
  - eapply ran_trans; [done|exact Hr2|]. eapply ran_trans; [apply Hr2|exact Hr3|]. eapply ran_trans; [done|exact Hr4|]. eapply ran_trans; [done|exact Hr5|].
    apply ran_same; try done. apply Hr5.
  - change (sigqs (set_skn k6 s5)) with (sigqs s5). rewrite set_q_eq, (Hu3 (sigpendactionq x) eq_refl), (ol_sigqs _ _ Ho5). simpl (sigqs s4). rewrite upd_eq. split; [done|]. split.
    { intros i Hif Hine. rewrite set_q_ne by done. by apply Hu3. }
    split_and!; try done.
    + change (avail s G) with (avail s2 G). rewrite Hv3. unfold avail. rewrite set_q_ne by done. change (kheap (set_skn k6 s5)) with (kheap s5). by rewrite (ol_kheap _ _ Ho5).
    + simpl. rewrite (ol_tsig _ _ Ho5). simpl. by rewrite (sr_tsig _ _ Hs3).
    + simpl. rewrite (ol_calls _ _ Ho5). simpl. by rewrite (sr_calls _ _ Hs3).
    + intros y Hy. simpl. rewrite upd_ne by done. by apply Hq3.
Qed.
End task.

(** * Signals: unmasking

    Pending signals that a task no longer masks go to their handlers, in the
    order of their numbers, each handler nested in the one before. *)

(** ** What has to be delivered *)

(** The information of the pending signal [n] on a list. *)
Fixpoint info_of (pn : Z -> sigpendq) (l : list Z) (n : Z) : option siginfo :=
  match l with
  | [] => None
  | p :: l => if si_signo (pinfo (pn p)) =? n then Some (pinfo (pn p)) else info_of pn l n
  end.

(** The call that signal [n] is due, with the mask [m], the pending signals
    [pl] and the actions [al]. *)
Definition due (m : Z) (pn : Z -> sigpendq) (ac : Z -> sigactq) (pl al : list Z) (n : Z) : option (Z * siginfo) :=
  if Z.testbit m n then None else i ← info_of pn pl n; a ← lookup_act ac al n; Some (sa_handler a, i).

(** In the order of the numbers *)
Definition deliveries (m : Z) (pn : Z -> sigpendq) (ac : Z -> sigactq) (pl al : list Z) : list (Z * siginfo) :=
  omap (due m pn ac pl al) (seqZ 0 32).

(** The pending signals that are masked, and those that are not. *)
Definition held (m : Z) (pn : Z -> sigpendq) (pl : list Z) : list Z := filter (fun p => Z.testbit m (si_signo (pinfo (pn p))) = true) pl.
Definition opens (m : Z) (pn : Z -> sigpendq) (pl : list Z) : list Z := filter (fun p => Z.testbit m (si_signo (pinfo (pn p))) = false) pl.

Section due.
Context (m : Z) (pn : Z -> sigpendq) (ac : Z -> sigactq).
Abbreviation num p := (si_signo (pinfo (pn p))).
Abbreviation nums l := (map (fun p => num p) l).

Lemma info_of_none l n : n ∉ nums l -> info_of pn l n = None.
Proof.
  induction l as [|p l IH]; [done|]. simpl. rewrite not_elem_of_cons. intros [Hn Hl]. destruct (Z.eqb_spec (num p) n); [congruence|]. by apply IH.
Qed.

Lemma info_of_middle l1 p l2 n :
  NoDup (nums (l1 ++ p :: l2)) -> info_of pn (l1 ++ p :: l2) n = if n =? num p then Some (pinfo (pn p)) else info_of pn (l1 ++ l2) n.
Proof.
  induction l1 as [|q l1 IH]; simpl; [intros _; rewrite (Z.eqb_sym n); done|]. intros [Hq Hn]%NoDup_cons. destruct (Z.eqb_spec (num q) n) as [E|E]; [|by apply IH].
  destruct (Z.eqb_spec n (num p)) as [E'|]; [|done]. destruct Hq. rewrite E, E', map_app. apply elem_of_app. right. by left.
Qed.

Lemma in_opens l p : p ∈ opens m pn l <-> Z.testbit m (num p) = false /\ p ∈ l.
Proof. unfold opens. by rewrite list_elem_of_filter. Qed.

Lemma opens_nil l : opens m pn l = [] -> held m pn l = l.
Proof.
  unfold opens, held. induction l as [|p l IH]; [done|]. rewrite !filter_cons. destruct (decide (Z.testbit m (num p) = false)) as [E|E]; [done|].
  apply not_false_iff_true in E. rewrite decide_True by done. intros H. f_equal. by apply IH.
Qed.

Lemma opens_held l : opens m pn (held m pn l) = [].
Proof.
  unfold opens, held. induction l as [|p l IH]; [done|]. rewrite filter_cons. destruct (decide (Z.testbit m (num p) = true)) as [E|E]; [|done].
  by rewrite filter_cons, decide_False by congruence.
Qed.

Lemma held_held l : held m pn (held m pn l) = held m pn l.
Proof. apply opens_nil, opens_held. Qed.

Lemma opens_middle l1 p l2 : Z.testbit m (num p) = false -> length (opens m pn (l1 ++ p :: l2)) = S (length (opens m pn (l1 ++ l2))).
Proof. intros Hp. unfold opens. rewrite !filter_app, filter_cons, decide_True, !length_app by done. simpl. lia. Qed.

Lemma held_middle l1 p l2 : Z.testbit m (num p) = false -> held m pn (l1 ++ p :: l2) = held m pn (l1 ++ l2).
Proof. intros Hp. unfold held. rewrite !filter_app, filter_cons, decide_False by congruence. done. Qed.

(** Nothing is due for a number that no signal to be delivered has. *)
Lemma due_none pl al n : (forall p, p ∈ opens m pn pl -> num p <> n) -> due m pn ac pl al n = None.
Proof.
  intros H. unfold due. destruct (Z.testbit m n) eqn:E; [done|]. rewrite info_of_none; [done|]. intros (p & Ep & Hp)%list_elem_of_fmap.
  apply (H p); [|done]. apply in_opens. by rewrite <- Ep.
Qed.

Lemma deliveries_nil pl al : opens m pn pl = [] -> deliveries m pn ac pl al = [].
Proof.
  intros H. unfold deliveries. induction (seqZ 0 32) as [|n l IH]; [done|]. simpl. rewrite due_none; [done|]. rewrite H. intros p Hp. by apply not_elem_of_nil in Hp.
Qed.

Lemma omap_first (f g : Z -> option (Z * siginfo)) n :
  good n -> (forall j, j < n -> f j = None) -> (forall j, j <= n -> g j = None) -> (forall j, n < j -> f j = g j) ->
  omap f (seqZ 0 32) = option_list (f n) ++ omap g (seqZ 0 32).
Proof.
  intros Hn Hf Hg He. assert (Hs : seqZ 0 32 = seqZ 0 n ++ n :: seqZ (n + 1) (31 - n)).
  { unfold good in Hn. replace 32 with (n + (32 - n)) at 1 by lia. rewrite seqZ_app, (seqZ_cons (0 + n)) by lia. do 2 f_equal; f_equal; lia. }
  assert (Hnil : forall h : Z -> option (Z * siginfo), (forall j, j < n -> h j = None) -> omap h (seqZ 0 n) = []).
  { intros h Hh. assert (Hl : Forall (fun j => j < n) (seqZ 0 n)) by (apply Forall_forall; intros j Hj%elem_of_seqZ; lia).
    clear Hs. induction Hl as [|j l Hj _ IH]; [done|]. simpl. rewrite (Hh j Hj). exact IH. }
  rewrite Hs, !omap_app, (Hnil f), (Hnil g) by (done || (intros; apply Hg; lia)). simpl. rewrite (Hg n) by lia.
  assert (E : omap f (seqZ (n + 1) (31 - n)) = omap g (seqZ (n + 1) (31 - n))).
  { apply list_omap_ext. apply Forall_Forall2_diag, Forall_forall. intros j Hj%elem_of_seqZ. apply He. lia. }
  unfold omap in E. rewrite E. by destruct (f n).
Qed.

(** The first call is that of the lowest signal. *)
Lemma deliveries_first l1 p l2 al :
  NoDup (nums (l1 ++ p :: l2)) -> good (num p) -> Z.testbit m (num p) = false ->
  (forall q, q ∈ opens m pn (l1 ++ p :: l2) -> num p <= num q) ->
  deliveries m pn ac (l1 ++ p :: l2) al =
    option_list (a ← lookup_act ac al (num p); Some (sa_handler a, pinfo (pn p))) ++ deliveries m pn ac (l1 ++ l2) al.
Proof.
  intros Hn Hg Hm Hlow. assert (Hin : forall q, q ∈ opens m pn (l1 ++ l2) -> q ∈ opens m pn (l1 ++ p :: l2) /\ num q <> num p).
  { intros q [Hq Hql]%in_opens. split; [apply in_opens; split; [done|]; rewrite elem_of_app, elem_of_cons; apply elem_of_app in Hql as [?|?]; auto|].
    rewrite map_app in Hn. apply NoDup_remove' in Hn as [_ Hn]. intros E. apply Hn. rewrite <- map_app, <- E. apply list_elem_of_fmap. by exists q. }
  unfold deliveries. rewrite (omap_first _ (due m pn ac (l1 ++ l2) al) (num p)); [|done| | |].
  - f_equal. f_equal. unfold due. rewrite Hm, info_of_middle, Z.eqb_refl by done. done.
  - intros j Hj. apply due_none. intros q Hq E. specialize (Hlow q Hq). lia.
  - intros j Hj. apply due_none. intros q Hq E. destruct (Hin q Hq) as [Hq' Hne]. specialize (Hlow q Hq'). lia.
  - intros j Hj. unfold due. rewrite info_of_middle by done. destruct (Z.eqb_spec j (num p)); [lia|done].
Qed.

Lemma deliveries_due pl al : deliveries m pn ac pl al = omap (due m pn ac pl al) (seqZ 0 32).
Proof. reflexivity. Qed.
End due.

#[global] Opaque deliveries.

(** A bind whose first part is known, without reducing the rest. *)
Lemma some_bind {A B} (a : A) (f : A -> option B) : Some a ≫= f = f a.
Proof. reflexivity. Qed.

(** ** The running task *)

(** What task [x] relies on in its handlers: called while [x] runs, a handler
    returns with [x] running and preemption locked as often as before.  It may
    use the scheduler, the semaphores and the message queues, change the error
    number and the mask of [x], but it sends no signals, takes none that are
    pending, and sets no actions. *)
Definition handler_ok (T : list Z) (idle x : Z) (h : sig_state -> option sig_state) : Prop :=
  forall s n e, at_task T idle (skn s) x n e ->
    exists v q m e', h s = Some (set_mask x m (set_mqs q (set_sg v s))) /\ at_task T idle (kn v) x n e'.

Definition handlers_ok (T : list Z) (idle x : Z) (handler : Z -> siginfo -> sig_state -> option sig_state) : Prop :=
  forall a i, handler_ok T idle x (handler a i).

Section unmask.
Context (T : list Z) (idle : Z) (x : Z).
Context (handler : Z -> siginfo -> sig_state -> option sig_state).

Abbreviation at_task s n e := (at_task T idle (skn s) x n e).
Abbreviation mask s := (sigprocmask_ (tsig s x)).
Abbreviation pq s := (sigpendingq (group (tsig s x))).
Abbreviation dels s G := (deliveries (mask s) (pends s) (acts s) (G (pq s)) (G (sigactionq x))).
Abbreviation open s G := (opens (mask s) (pends s) (G (pq s))).
Abbreviation kept s G := (held (mask s) (pends s) (G (pq s))).

(** No action is queued for the task; [m] pending signals are to be delivered
    and there is memory for that. *)
Record ready (s : sig_state) (G : ghost) (H : hand) (m : nat) (n e : Z) : Prop := {
  rd_owned : owned s G H;
  rd_at : at_task s n e;
  rd_lock : 0 <= n;
  rd_none : sigdeliver (tsig s x) = false;
  rd_queue : G (sigpendactionq x) = [];
  rd_count : length (open s G) = m;
  rd_avail : (m <= avail s G)%nat
}.

(** The state after signals were delivered: as before, but for the pending
    signals of the task and the free lists. *)
Record served (s : sig_state) (G : ghost) (H : hand) (s' : sig_state) (G' : ghost) (n e : Z) : Prop := {
  se_ran : ran s G H s' G' H;
  se_at : at_task s' n e;
  se_tsig y : tsig s' y = tsig s y;
  se_lists i : is_free i = false -> i <> pq s -> G' i = G i
}.

Lemma served_trans s G H s1 G1 s2 G2 n e n' e' :
  owned s G H -> served s G H s1 G1 n e -> served s1 G1 H s2 G2 n' e' -> served s G H s2 G2 n' e'.
Proof.
  intros Hw [R1 A1 T1 L1] [R2 A2 T2 L2]. constructor; [by eapply ran_trans|done|intros y; by rewrite T2|].
  intros i Hf Hi. rewrite L2; [by apply L1|done|by rewrite T1].
Qed.

(** Only the kernel has changed. *)
Lemma served_kernel s G H k n e :
  owned s G H -> at_task (set_skn k s) n e ->
  exists s', s' = set_skn k s /\ served s G H s' G n e /\ calls s' = calls s /\ kheap s' = kheap s /\ sigqs s' = sigqs s /\ tsig s' = tsig s.
Proof. intros Hw Ha. exists (set_skn k s). split; [done|]. split; [|done]. constructor; try done. by apply ran_same. Qed.

Lemma lock_served s G H n e :
  owned s G H -> at_task s n e -> n < MAX_LOCK_COUNT ->
  exists s', on_kernel sched_lock s = Some s' /\ served s G H s' G (n + 1) e /\ calls s' = calls s /\ kheap s' = kheap s /\ sigqs s' = sigqs s /\ tsig s' = tsig s.
Proof.
  intros Hw Ha Hn. destruct (on_lock T idle x s n e Ha Hn) as (k & -> & Hk). destruct (served_kernel s G H k (n + 1) e Hw Hk) as (s' & <- & ?). by exists s'.
Qed.

Lemma unlock_served s G H n e :
  owned s G H -> at_task s (n + 1) e -> 0 <= n ->
  exists s', on_kernel sched_unlock s = Some s' /\ served s G H s' G n e /\ calls s' = calls s /\ kheap s' = kheap s /\ sigqs s' = sigqs s /\ tsig s' = tsig s.
Proof.
  intros Hw Ha Hn. destruct (on_unlock T idle x s n e Ha Hn) as (k & -> & Hk). destruct (served_kernel s G H k n e Hw Hk) as (s' & <- & ?). by exists s'.
Qed.

(** What the delivery of a signal to a state with [m] more to deliver does. *)
Definition dispatches (deliver : sig_state -> Z -> option sig_state) (M : nat) : Prop :=
  forall s G H m n e info,
  ready s G H m n e -> (m < M)%nat -> good (si_signo info) -> Z.testbit (mask s) (si_signo info) = false ->
  n + 2 * Z.of_nat m + 4 <= MAX_LOCK_COUNT -> (length (G (sigpostedq x)) + m + 1 < sig_fuel)%nat -> (m < avail s G)%nat ->
  exists s' G', sig_tcbdispatch deliver s x info = Some (s', OK) /\ served s G H s' G' n e /\
    calls s' ++ dels s G' = calls s ++ option_list (a ← action_of s G x (si_signo info); Some (sa_handler a, info)) ++ dels s G /\
    kept s G' = kept s G /\ (forall q, q ∈ open s G' -> q ∈ open s G) /\ (length (open s G') <= m)%nat /\ (length (open s G') <= avail s' G')%nat.

(** A pending signal is in hand while it is dispatched, then released. *)
Lemma served_signal s G H s1 l p s2 G2 n e :
  owned s G H -> ran s G H s1 (set_q (pq s) l G) ((Pend, p) :: H) -> tsig s1 = tsig s ->
  served s1 (set_q (pq s) l G) ((Pend, p) :: H) s2 G2 n e ->
  exists s3 G3, sig_releasependingsignal p s2 = Some s3 /\ served s G H s3 G3 n e /\ G3 (pq s) = G2 (pq s) /\
    calls s3 = calls s2 /\ avail s3 G3 = avail s2 G2.
Proof.
  intros Hw Hr1 Et Hs. destruct (release_signal s2 G2 H p (rn_owned _ _ _ _ _ _ (se_ran _ _ _ _ _ _ _ Hs))) as (s3 & G3 & Hrun & Hr3 & Hu & Hs3 & Hv & _).
  exists s3, G3. split; [done|]. split; [|split; [by apply Hu|split; [apply Hs3|done]]]. destruct Hs as [R2 A2 T2 L2]. constructor.
  - eapply ran_trans; [done|exact Hr1|]. by eapply ran_trans; [apply Hr1|exact R2|].
  - unfold skn. by rewrite (sr_sg _ _ Hs3).
  - intros y. by rewrite (sr_tsig _ _ Hs3), T2, Et.
  - intros i Hf Hi. rewrite Hu, L2 by (done || by rewrite Et). by apply set_q_ne.
Qed.

(** One turn of the loop: the lowest signal. *)
Lemma unmask_turn deliver M s G H m n e l1 p l2 s1 :
  dispatches deliver M -> ready s G H m n e -> (m <= M)%nat -> n + 2 * Z.of_nat m + 2 <= MAX_LOCK_COUNT ->
  (length (G (sigpostedq x)) + m < sig_fuel)%nat ->
  G (pq s) = l1 ++ p :: l2 -> Z.testbit (mask s) (num s p) = false -> (forall q, q ∈ open s G -> num s p <= num s q) ->
  only_lists s s1 -> lists_ok s1 (set_q (pq s) (l1 ++ l2) G) ->
  exists s2 s3 G3 m3, sig_tcbdispatch deliver s1 x (pinfo (pends s1 p)) = Some (s2, OK) /\ sig_releasependingsignal p s2 = Some s3 /\
    served s G H s3 G3 n e /\ ready s3 G3 H m3 n e /\ (m3 < m)%nat /\
    calls s3 ++ dels s3 G3 = calls s ++ dels s G /\ kept s3 G3 = kept s G /\
    (forall q, q ∈ open s3 G3 -> q ∈ open s G /\ num s q <> num s p).
Proof.
  intros Hd [Hw Ha Hn Hsd Hq Hc Hav] HM Hlk Hpo E Hm Hlow Ho Hl1. pose proof (sv_pend _ _ (ow_inv _ _ _ Hw) (group (tsig s x))) as [Hnd Hg]. rewrite E in Hnd, Hg.
  assert (Hgp : good (num s p)) by (rewrite Forall_forall in Hg; apply Hg, list_elem_of_fmap; exists p; split; [done|]; rewrite elem_of_app, elem_of_cons; auto).
  pose proof (ran_take s G H s1 (pq s) l1 p l2 Hw E ltac:(done) Ho Hl1) as Hr1. set (G1 := set_q (pq s) (l1 ++ l2) G) in *. simpl in Hr1.
  rewrite E, opens_middle in Hc by done. destruct m as [|m]; [done|]. injection Hc as Hc.
  assert (E1 : G1 (pq s) = l1 ++ l2) by apply set_q_eq. assert (Et : tsig s1 = tsig s) by apply Ho.
  assert (Hrd : ready s1 G1 ((Pend, p) :: H) m n e).
  { constructor; rewrite ?Et, ?(ol_pends _ _ Ho), ?E1; try done; [apply Hr1|unfold skn; by rewrite (ol_sg _ _ Ho)|].
    unfold avail in *. rewrite (ol_kheap _ _ Ho). unfold G1. rewrite set_q_ne by done. lia. }
  assert (Hav1 : (m < avail s1 G1)%nat) by (unfold avail in *; rewrite (ol_kheap _ _ Ho); unfold G1; rewrite set_q_ne by done; lia).
  destruct (Hd s1 G1 _ m n e (pinfo (pends s1 p)) Hrd) as (s2 & G2 & Hrun & Hs2 & Hcalls & Hkept & Hin & Hlen & Hlen'); [lia|by rewrite (ol_pends _ _ Ho)|by rewrite (ol_pends _ _ Ho), Et|lia| |done|].
  { unfold G1. rewrite set_q_ne by done. lia. }
  destruct (served_signal s G H s1 _ p s2 G2 n e Hw Hr1 Et Hs2) as (s3 & G3 & Hrel & Hs3 & E3 & Ec3 & Ev3).
  assert (Hp3 : pends s3 = pends s) by apply Hs3. assert (Ha3 : acts s3 = acts s) by apply Hs3. pose proof (se_tsig _ _ _ _ _ _ _ Hs3 x) as Ht3.
  assert (Hl3 : G3 (sigactionq x) = G (sigactionq x)) by (by apply Hs3).
  rewrite ?Et, ?(ol_pends _ _ Ho), ?(ol_acts _ _ Ho), ?(ol_calls _ _ Ho), ?E1 in *.
  assert (Ea1 : G1 (sigactionq x) = G (sigactionq x)) by (by apply set_q_ne).
  assert (Ea2 : G2 (sigactionq x) = G (sigactionq x)) by (rewrite (se_lists _ _ _ _ _ _ _ Hs2); done).
  unfold action_of in Hcalls. rewrite (ol_acts _ _ Ho), Ea1, Ea2 in Hcalls.
  exists s2, s3, G3, (length (open s G2)). split; [done|]. split; [done|]. split; [done|]. rewrite Hp3, Ha3, Ht3, E3, Hl3, E. split_and!; [|lia| | |].
  - constructor; rewrite ?Hp3, ?Ht3, ?E3; try done; [apply Hs3|apply Hs3| |by rewrite Ev3]. rewrite (se_lists _ _ _ _ _ _ _ Hs3); done.
  - rewrite Ec3, Hcalls. f_equal. rewrite <- deliveries_first; [done|done|done|done|]. intros q Hqo. apply Hlow. by rewrite E.
  - by rewrite Hkept, held_middle.
  - intros q Hqo. apply Hin, in_opens in Hqo as [Hqm Hqo]. rewrite in_opens. split; [split; [done|]; rewrite elem_of_app, elem_of_cons; apply elem_of_app in Hqo as [?|?]; auto|].
    rewrite map_app in Hnd. apply NoDup_remove' in Hnd as [_ Hnd]. intros Eq. apply Hnd. rewrite <- map_app, <- Eq. apply list_elem_of_fmap. by exists q.
Qed.

(** The loop, for a set that has the numbers of all signals to be delivered. *)
Lemma unmask_loop_spec deliver M fuel s G H m n e set :
  dispatches deliver M -> ready s G H m n e -> (m <= M)%nat -> n + 2 * Z.of_nat m + 2 <= MAX_LOCK_COUNT ->
  (length (G (sigpostedq x)) + m < sig_fuel)%nat -> is_set set -> (forall p, p ∈ open s G -> Z.testbit set (num s p) = true) ->
  (forall k, good k -> Z.testbit set k = true -> Z.testbit (mask s) k = false /\ 33 - k <= Z.of_nat fuel) -> (0 < fuel)%nat ->
  exists s' G', unmask_loop deliver fuel s x set = Some s' /\ served s G H s' G' n e /\
    calls s' = calls s ++ dels s G /\ G' (pq s) = kept s G.
Proof.
  intros Hd. revert s G m set. induction fuel as [|fuel IH]; intros s G m set Hrd HM Hlk Hpo Hset Hopen Hbits Hf; [lia|]. clear Hf. cbn [unmask_loop].
  destruct (Z.eqb_spec set NULL_SIGNAL_SET) as [->|Hne].
  { assert (Eo : open s G = []).
    { destruct (open s G) as [|p l] eqn:E; [done|]. specialize (Hopen p ltac:(by left)). unfold NULL_SIGNAL_SET in Hopen. by rewrite Z.testbit_0_l in Hopen. }
    exists s, G. split; [done|]. rewrite deliveries_nil, opens_nil, app_nil_r by done. split; [|done]. constructor; try done; [|apply Hrd].
    apply ran_same; try done. apply Hrd. }
  destruct (sig_lowest_spec set Hset Hne) as (Hgood & Hlow & Hleast). set (j := sig_lowest set) in *. destruct (Z.eqb_spec j ERROR) as [E|_]; [unfold good, ERROR in *; lia|].
  cbn [negb]. pose proof (rd_owned _ _ _ _ _ _ Hrd) as Hw. pose proof (ow_inv _ _ _ Hw) as Hi. destruct (Hbits j Hgood Hlow) as [Hmj Hfj]. assert (Hj : 0 <= j <= 31) by done.
  assert (Hset' : is_set (sigdelset set j).1) by (by apply is_set_del).
  assert (Hbits' : forall k, good k -> Z.testbit (sigdelset set j).1 k = true -> Z.testbit (mask s) k = false /\ 33 - k <= Z.of_nat fuel).
  { intros k Hk. rewrite del_testbit by done. intros [Hb Hkj]%andb_true_iff. apply bool_decide_eq_true in Hkj. split; [by apply Hbits|]. specialize (Hleast k Hk Hb). lia. }
  assert (Hnum : forall p, p ∈ open s G -> good (num s p)).
  { intros p [_ Hp]%in_opens. destruct (sv_pend _ _ Hi (group (tsig s x))) as [_ Hg]. rewrite Forall_forall in Hg. apply Hg, list_elem_of_fmap. by exists p. }
  assert (Hcont : forall s3 G3 m3, served s G H s3 G3 n e -> ready s3 G3 H m3 n e -> (m3 <= m)%nat -> calls s3 ++ dels s3 G3 = calls s ++ dels s G ->
    kept s3 G3 = kept s G -> (forall q, q ∈ open s3 G3 -> q ∈ open s G /\ num s q <> j) ->
    exists s' G', unmask_loop deliver fuel s3 x (sigdelset set j).1 = Some s' /\ served s G H s' G' n e /\ calls s' = calls s ++ dels s G /\ G' (pq s) = kept s G).
  { clear Hrd. intros s3 G3 m3 Hs3 Hrd3 Hm3 Hc3 Hk3 Ho3. pose proof (se_tsig _ _ _ _ _ _ _ Hs3 x) as Et. assert (Ep : pends s3 = pends s) by apply Hs3.
    destruct (IH s3 G3 m3 (sigdelset set j).1 Hrd3) as (s4 & G4 & Hrun & Hs4 & Hc4 & Hk4); [lia|lia| |done| |by rewrite Et|lia|].
    - rewrite (se_lists _ _ _ _ _ _ _ Hs3) by done. lia.
    - intros p Hp. destruct (Ho3 p Hp) as [Hps Hpj]. unfold num. rewrite Ep. fold (num s p). rewrite (del_testbit set j (num s p) Hgood (Hnum p Hps)).
      by rewrite (Hopen p Hps), bool_decide_eq_true_2.
    - exists s4, G4. split; [done|]. split; [by eapply served_trans|]. split; [by rewrite Hc4, Hc3|]. by rewrite <- Hk3, <- Hk4, Et. }
  destruct (sig_removependingsignal_spec s G x j (sv_lists _ _ Hi) (sv_pend _ _ Hi _)) as [(Hno & s1 & -> & Ho & Hl1)|(s1 & l1 & p & l2 & E & Hp & -> & Ho & Hl1 & Hp0 & _)]; cbn [mbind option_bind].
  - pose proof (ran_lists s G H s1 Hw Ho Hl1) as Hr1. assert (Et : tsig s1 = tsig s) by apply Ho. change (negb (0 =? 0)) with false. cbn [mbind option_bind].
    assert (Ha1 : at_task s1 n e) by (unfold skn; rewrite (ol_sg _ _ Ho); apply Hrd).
    apply (Hcont s1 G m); rewrite ?Et, ?(ol_pends _ _ Ho), ?(ol_acts _ _ Ho), ?(ol_calls _ _ Ho); try done.
    + constructor; try done. intros y. by rewrite Et.
    + destruct Hrd. constructor; rewrite ?Et, ?(ol_pends _ _ Ho); try done; [apply Hr1|]. unfold avail. by rewrite (ol_kheap _ _ Ho).
    + intros q Hq. split; [done|]. intros Eq. apply Hno. rewrite <- Eq. apply list_elem_of_fmap. exists q. split; [done|]. by apply in_opens in Hq as [_ ?].
  - destruct (Z.eqb_spec p 0) as [?|_]; [done|]. cbn [negb].
    destruct (unmask_turn deliver M s G H m n e l1 p l2 s1) as (s2 & s3 & G3 & m3 & -> & Hrel & Hs3 & Hrd3 & Hm3 & Hc3 & Hk3 & Ho3); try done; [by rewrite Hp| |].
    { intros q Hq. rewrite Hp. apply Hleast; [by apply Hnum|by apply Hopen]. }
    cbn [mbind option_bind]. rewrite Hrel. cbn [mbind option_bind]. rewrite Hp in Ho3. apply (Hcont s3 G3 m3); try done. lia.
Qed.

Lemma sig_unmask_spec deliver M s G H m n e :
  dispatches deliver M -> ready s G H m n e -> (m <= M)%nat -> n + 2 * Z.of_nat m + 3 <= MAX_LOCK_COUNT ->
  (length (G (sigpostedq x)) + m < sig_fuel)%nat ->
  exists s' G', sig_unmaskpendingsignal deliver s = Some s' /\ served s G H s' G' n e /\ calls s' = calls s ++ dels s G /\ G' (pq s) = kept s G.
Proof.
  intros Hd Hrd HM Hlk Hpo. pose proof (rd_owned _ _ _ _ _ _ Hrd) as Hw. pose proof (ow_inv _ _ _ Hw) as Hi. pose proof (rd_lock _ _ _ _ _ _ Hrd) as Hn.
  unfold sig_unmaskpendingsignal. destruct (at_task_head _ _ _ _ _ _ (rd_at _ _ _ _ _ _ Hrd)) as (-> & _ & _).
  destruct (lock_served s G H n e Hw (rd_at _ _ _ _ _ _ Hrd) ltac:(lia)) as (s1 & -> & Hs1 & Ec & Ek & _ & Et). rewrite some_bind.
  pose proof (rn_owned _ _ _ _ _ _ (se_ran _ _ _ _ _ _ _ Hs1)) as Hw1. pose proof (ow_inv _ _ _ Hw1) as Hi1. assert (Ep : pends s1 = pends s) by apply Hs1.
  assert (Ea : acts s1 = acts s) by apply Hs1.
  destruct (sig_pendingset_spec s1 G x (sv_lists _ _ Hi1) (sv_pend _ _ Hi1 _)) as (set & -> & Hset & Hb). rewrite some_bind.
  assert (Hrd1 : ready s1 G H m (n + 1) e).
  { destruct Hrd. constructor; rewrite ?Et, ?Ep; try done; [apply Hs1|lia|]. unfold avail in *. by rewrite Ek. }
  rewrite Et in Hb |- *. assert (Hset' : is_set (Z.land (set_not (mask s)) set)).
  { apply set_of_bits; [apply Z.land_nonneg; right; apply Hset|]. intros k Hk. rewrite Z.land_spec, (set_bits set) by done. apply andb_false_r. }
  assert (Hbit : forall k, good k -> Z.testbit (Z.land (set_not (mask s)) set) k = negb (Z.testbit (mask s) k) && bool_decide (k ∈ map (num s1) (G (pq s)))).
  { intros k Hk. unfold good in Hk. rewrite Z.land_spec, Hb, not_testbit by lia. destruct (Z.ltb_spec k 32); [done|lia]. }
  destruct (unmask_loop_spec deliver M sig_fuel s1 G H m (n + 1) e _ Hd Hrd1 HM ltac:(lia) Hpo Hset') as (s2 & G2 & -> & Hs2 & Hc2 & Hk2); rewrite ?Et in *.
  - intros p [Hm Hp]%in_opens. rewrite Hbit.
    + unfold num. rewrite Hm, bool_decide_eq_true_2; [done|]. apply list_elem_of_fmap. by exists p.
    + destruct (sv_pend _ _ Hi1 (group (tsig s x))) as [_ Hg]. rewrite Forall_forall in Hg. apply Hg, list_elem_of_fmap. by exists p.
  - intros k Hk. rewrite Hbit by done. intros [Hm _]%andb_true_iff. apply negb_true_iff in Hm. split; [done|]. unfold good in Hk. unfold sig_fuel. lia.
  - unfold sig_fuel. lia.
  - rewrite some_bind. destruct (unlock_served s2 G2 H n e (rn_owned _ _ _ _ _ _ (se_ran _ _ _ _ _ _ _ Hs2)) (se_at _ _ _ _ _ _ _ Hs2) Hn) as (s3 & -> & Hs3 & Ec3 & _).
    exists s3, G2. split; [done|]. rewrite Ec3, Hc2, Ec, Hk2, Ep, Ea. split; [|split; reflexivity]. eapply served_trans; [done|exact Hs1|]. by eapply served_trans.
Qed.

(** ** Delivery *)

(** A queued action goes to the list of posted ones. *)
Lemma post_action s G H q l :
  owned s G H -> G (sigpendactionq x) = q :: l ->
  exists s1 s2 G2, rem (sigpendactionq x) q s = Some s1 /\ add_last (sigpostedq x) q s1 = Some s2 /\ ran s G H s2 G2 H /\ only_lists s s2 /\
    G2 = set_q (sigpostedq x) (G (sigpostedq x) ++ [q]) (set_q (sigpendactionq x) l G).
Proof.
  intros Hw E. pose proof (ow_inv _ _ _ Hw) as Hi.
  destruct (rem_spec s G (sigpendactionq x) [] q l (sv_lists _ _ Hi) E) as (s1 & Hrun1 & Ho1 & Hl1); [unfold sig_fuel; simpl; lia|].
  pose proof (ran_take s G H s1 (sigpendactionq x) [] q l Hw E ltac:(done) Ho1 Hl1) as Hr1. simpl in Hr1, Hl1. pose proof (rn_owned _ _ _ _ _ _ Hr1) as Hw1.
  destruct (ow_hand _ _ _ Hw1 Sigq q ltac:(by left)) as (H0 & Hoff & _).
  destruct (add_last_spec s1 _ (sigpostedq x) q Hl1 H0 Hoff) as (s2 & Hrun2 & Ho2 & Hl2). exists s1, s2. eexists. split; [done|]. split; [done|].
  pose proof (ran_put s1 _ H s2 (sigpostedq x) q Hw1 ltac:(done) ltac:(done) I Ho2 Hl2) as Hr2. rewrite (set_q_ne (sigpendactionq x)) in Hr2 by done.
  split; [by eapply ran_trans|]. split; [by etransitivity|done].
Qed.

(** The state after delivery: as before, but for the pending signals, the free
    lists and the queued action. *)
Record delivered (s : sig_state) (G : ghost) (H : hand) (s' : sig_state) (G' : ghost) (n e : Z) : Prop := {
  de_ran : ran s G H s' G' H;
  de_at : at_task s' n e;
  de_tsig y : tsig s' y = tsig s y;
  de_queue : G' (sigpendactionq x) = [];
  de_lists i : is_free i = false -> i <> pq s -> i <> sigpendactionq x -> G' i = G i
}.

(** The masks that the handler runs with and leaves are only there while it
    runs. *)
Lemma tsig_restore s m m' c v q y :
  tsig (set_mask x (mask s) (set_mask x m' (set_mqs q (set_sg v (log_call c (set_mask x m s)))))) y = tsig s y.
Proof.
  unfold set_mask. simpl. destruct (decide (y = x)) as [->|Hne]; [|by rewrite !upd_ne].
  rewrite !upd_eq. simpl. by destruct (tsig s x).
Qed.

(** [deliver_one] up to the call of [sig_unmaskpendingsignal]. *)
Lemma handler_ran s G H q l n e :
  handler_ok T idle x (handler (sighandler (sigqs s q)) (qinfo (sigqs s q))) -> owned s G H -> at_task s n e -> G (sigpendactionq x) = q :: l ->
  exists s1 s2 s3 s4 G3 e', rem (sigpendactionq x) q s = Some s1 /\ add_last (sigpostedq x) q s1 = Some s2 /\
    (let v := sigqs s2 q in
     handler (sighandler v) (qinfo v)
       (log_call (sighandler v, qinfo v) (set_mask x (Z.lor (Z.lor (mask s2) (qmask v)) (SIGNO2SET (si_signo (qinfo v)))) s2)) = Some s4) /\
    s3 = set_mask x (mask s2) s4 /\ at_task s3 n e' /\ ran s G H s3 G3 H /\ (forall y, tsig s3 y = tsig s y) /\
    calls s3 = calls s ++ [(sighandler (sigqs s q), qinfo (sigqs s q))] /\ kheap s3 = kheap s /\ sigqs s3 = sigqs s /\
    G3 = set_q (sigpostedq x) (G (sigpostedq x) ++ [q]) (set_q (sigpendactionq x) l G).
Proof.
  intros Hhandler Hw Ha Hq. destruct (post_action s G H q l Hw Hq) as (s1 & s2 & G2 & H1 & H2 & Hr & Ho & EG). rewrite <- (ol_sigqs _ _ Ho) in Hhandler.
  cbv zeta. set (v := sigqs s2 q) in *. set (m' := Z.lor (Z.lor (mask s2) (qmask v)) (SIGNO2SET (si_signo (qinfo v)))). set (c := (sighandler v, qinfo v)).
  assert (Ha2 : at_task (log_call c (set_mask x m' s2)) n e) by (change (at_task s2 n e); unfold skn; by rewrite (ol_sg _ _ Ho)).
  destruct (Hhandler _ n e Ha2) as (v3 & q3 & m3 & e' & Hh & Ha3). set (s3 := set_mask x (mask s2) (set_mask x m3 (set_mqs q3 (set_sg v3 (log_call c (set_mask x m' s2)))))).
  exists s1, s2, s3. eexists _, G2, e'. split; [done|]. split; [done|]. split; [exact Hh|]. split; [reflexivity|]. split; [exact Ha3|].
  split; [eapply ran_trans; [done|exact Hr|]; apply ran_same; try done; apply Hr|]. split; [|split; [|split; [apply Ho|split; [apply Ho|done]]]].
  - intros y. rewrite <- (ol_tsig _ _ Ho). apply tsig_restore.
  - change (calls s3) with (calls s2 ++ [c]). unfold c, v. by rewrite (ol_calls _ _ Ho), (ol_sigqs _ _ Ho).
Qed.

(** What follows it: the action leaves the list of posted ones. *)
Lemma action_done s G H q l :
  owned s G H -> G (sigpostedq x) = l ++ [q] -> (length l < sig_fuel)%nat ->
  exists s1 s2 G2, rem (sigpostedq x) q s = Some s1 /\ sig_releasependingsigaction q s1 = Some s2 /\ ran s G H s2 G2 H /\ same_rest s s2 /\
    G2 (sigpostedq x) = l /\ (forall i, is_free i = false -> i <> sigpostedq x -> G2 i = G i) /\ sigqs s2 = sigqs s.
Proof.
  intros Hw E Hf. destruct (rem_spec s G (sigpostedq x) l q [] (sv_lists _ _ (ow_inv _ _ _ Hw)) E Hf) as (s1 & Hrun1 & Ho1 & Hl1).
  pose proof (ran_take s G H s1 (sigpostedq x) l q [] Hw E ltac:(done) Ho1 Hl1) as Hr1. rewrite app_nil_r in Hr1.
  destruct (release_action s1 _ H q (rn_owned _ _ _ _ _ _ Hr1)) as (s2 & G2 & Hrun2 & Hr2 & Hu & Hs & Hqs). exists s1, s2, G2.
  split; [done|]. split; [done|]. split; [by eapply ran_trans|]. split; [|split; [by rewrite Hu, set_q_eq|split]].
  - destruct Hs. destruct Ho1. constructor; congruence.
  - intros i Hi Hne. by rewrite Hu, set_q_ne.
  - by rewrite Hqs, (ol_sigqs _ _ Ho1).
Qed.

Section handlers.
Hypothesis Hhandler : handlers_ok T idle x handler.

Lemma deliver_one_spec deliver M s G H q m n e :
  dispatches deliver M -> owned s G H -> at_task s n e -> 0 <= n -> sigdeliver (tsig s x) = false -> G (sigpendactionq x) = [q] ->
  length (open s G) = m -> (m <= avail s G)%nat -> (m <= M)%nat -> n + 2 * Z.of_nat m + 3 <= MAX_LOCK_COUNT ->
  (length (G (sigpostedq x)) + m + 1 < sig_fuel)%nat ->
  exists s' G' e', deliver_one handler deliver s x q = Some (s', 0) /\ delivered s G H s' G' n e' /\
    calls s' = calls s ++ (sighandler (sigqs s q), qinfo (sigqs s q)) :: dels s G /\ G' (pq s) = kept s G.
Proof.
  intros Hd Hw Ha Hn Hsd Hq Hc Hav HM Hlk Hpo.
  destruct (handler_ran s G H q [] n e (Hhandler _ _) Hw Ha Hq) as (s1 & s2 & s3 & sh & G3 & e' & H1 & H2 & Hh & E3 & Ha3 & Hr3 & Et3 & Hc3 & Ek3 & _ & EG3).
  assert (Hp3 : G3 (sigpostedq x) = G (sigpostedq x) ++ [q]) by (rewrite EG3; apply set_q_eq).
  assert (Hi3 : forall i, i <> sigpostedq x -> i <> sigpendactionq x -> G3 i = G i) by (intros i ? ?; rewrite EG3, !set_q_ne; done).
  assert (Hrd : ready s3 G3 H m n e').
  { constructor; rewrite ?Et3, ?(rn_pends _ _ _ _ _ _ Hr3), ?(Hi3 (pq s)) by done; try done; [apply Hr3|by rewrite EG3, set_q_ne, set_q_eq by done|].
    unfold avail in *. by rewrite Ek3, Hi3. }
  destruct (sig_unmask_spec deliver M s3 G3 H m n e' Hd Hrd HM Hlk) as (s4 & G4 & H4 & Hs4 & Hc4 & Hk4); [rewrite Hp3, length_app; simpl; lia|].
  rewrite Et3 in Hc4, Hk4. rewrite (rn_pends _ _ _ _ _ _ Hr3) in Hc4, Hk4. rewrite (rn_acts _ _ _ _ _ _ Hr3) in Hc4. rewrite (Hi3 (pq s)) in Hc4, Hk4 by done. rewrite (Hi3 (sigactionq x)) in Hc4 by done.
  destruct Hs4 as [R4 A4 T4 L4]. rewrite Et3 in L4. destruct (action_done s4 G4 H q (G (sigpostedq x)) (rn_owned _ _ _ _ _ _ R4)) as (s5 & s6 & G6 & H5 & H6 & R6 & S6 & P6 & I6 & _); [by rewrite L4|lia|].
  exists s6, G6, e'. split; [|split; [constructor|split]].
  - unfold deliver_one. pose proof (lo_rep _ _ (sv_lists _ _ (ow_inv _ _ _ Hw)) (sigpendactionq x)) as [_ _ _ _ Hseg]. rewrite Hq in Hseg. destruct Hseg as [-> _]. cbv zeta.
    cbv zeta in Hh. rewrite H1, some_bind, H2, some_bind, Hh, some_bind, <- E3, H4, some_bind, H5, some_bind, H6, some_bind. done.
  - eapply ran_trans; [done|exact Hr3|]. eapply ran_trans; [apply Hr3|exact R4|exact R6].
  - unfold skn. by rewrite (sr_sg _ _ S6).
  - intros y. by rewrite (sr_tsig _ _ S6), T4, Et3.
  - rewrite I6, L4, EG3, set_q_ne, set_q_eq by done. done.
  - intros i Hf Hi Hi'. destruct (decide (i = sigpostedq x)) as [->|Hne]; [done|]. by rewrite I6, L4, Hi3.
  - by rewrite (sr_calls _ _ S6), Hc4, Hc3, <- app_assoc.
  - by rewrite I6, Hk4.
Qed.

(** The loop of [sig_deliver] with one action, or none. *)
Lemma deliver_loop_none deliver fuel s : (0 < fuel)%nat -> deliver_loop handler deliver fuel s x 0 = Some s.
Proof. destruct fuel; [lia|done]. Qed.

Lemma deliver_loop_single deliver fuel s q s' :
  (1 < fuel)%nat -> q <> 0 -> deliver_one handler deliver s x q = Some (s', 0) -> deliver_loop handler deliver fuel s x q = Some s'.
Proof.
  intros Hf Hq H. destruct fuel as [|fuel]; [lia|]. cbn [deliver_loop]. destruct (Z.eqb_spec q 0); [done|]. rewrite H, some_bind.
  apply deliver_loop_none. lia.
Qed.

(** The task gets its error number back and preemption is allowed again. *)
Lemma restore_errno s G H n e e' :
  owned s G H -> at_task s (n + 1) e' -> 0 <= n ->
  exists s1 s2, on_kernel (fun k => upd_tcb k x (set_pterrno e)) s = Some s1 /\ on_kernel sched_unlock s1 = Some s2 /\ served s G H s2 G n e /\
    calls s2 = calls s /\ kheap s2 = kheap s /\ sigqs s2 = sigqs s.
Proof.
  intros Hw Ha Hn. destruct (at_task_errno _ _ _ _ _ _ e Ha) as (k & Hk & Ha1). destruct (served_kernel s G H k (n + 1) e Hw Ha1) as (s1 & E1 & Hs1 & C1 & K1 & Q1 & _).
  destruct (unlock_served s1 G H n e (rn_owned _ _ _ _ _ _ (se_ran _ _ _ _ _ _ _ Hs1)) (se_at _ _ _ _ _ _ _ Hs1) Hn) as (s2 & H2 & Hs2 & C2 & K2 & Q2 & _).
  exists s1, s2. split; [unfold on_kernel; by rewrite Hk, E1|]. split; [done|]. split; [by eapply served_trans|]. by rewrite C2, C1, K2, K1, Q2, Q1.
Qed.

Lemma delivered_served s G H s' G' s'' G'' n e n' e' :
  owned s G H -> delivered s G H s' G' n e -> served s' G' H s'' G'' n' e' -> G'' (sigpendactionq x) = [] -> delivered s G H s'' G'' n' e'.
Proof.
  intros Hw [R1 A1 T1 Q1 L1] [R2 A2 T2 L2] Hq. constructor; [by eapply ran_trans|done|intros y; by rewrite T2|done|].
  intros i Hf Hi Hi'. rewrite L2; [by apply L1|done|by rewrite T1].
Qed.

Lemma served_delivered s G H s1 s2 G2 n e n' e' :
  owned s G H -> served s G H s1 G n e -> delivered s1 G H s2 G2 n' e' -> delivered s G H s2 G2 n' e'.
Proof.
  intros Hw [R1 A1 T1 L1] [R2 A2 T2 Q2 L2]. constructor; [by eapply ran_trans|done|intros y; by rewrite T2|done|].
  intros i Hf Hi Hi'. apply L2; [done|by rewrite T1|done].
Qed.

Lemma sig_deliver_spec fuel s G H q m n e :
  dispatches (sig_deliver handler fuel) fuel -> owned s G H -> at_task s n e -> 0 <= n -> sigdeliver (tsig s x) = false -> G (sigpendactionq x) = [q] ->
  length (open s G) = m -> (m <= avail s G)%nat -> (m <= fuel)%nat -> n + 2 * Z.of_nat m + 4 <= MAX_LOCK_COUNT ->
  (length (G (sigpostedq x)) + m + 1 < sig_fuel)%nat ->
  exists s' G', sig_deliver handler (S fuel) s x = Some s' /\ delivered s G H s' G' n e /\
    calls s' = calls s ++ (sighandler (sigqs s q), qinfo (sigqs s q)) :: dels s G /\ G' (pq s) = kept s G.
Proof.
  intros Hd Hw Ha Hn Hsd Hq Hc Hav HM Hlk Hpo. cbn [sig_deliver].
  destruct (lock_served s G H n e Hw Ha ltac:(lia)) as (s1 & -> & Hs1 & C1 & K1 & Q1 & T1). rewrite some_bind. pose proof (se_ran _ _ _ _ _ _ _ Hs1) as R1.
  pose proof (rn_owned _ _ _ _ _ _ R1) as Hw1. assert (P1 : pends s1 = pends s) by apply R1. assert (A1 : acts s1 = acts s) by apply R1.
  destruct (deliver_one_spec (sig_deliver handler fuel) fuel s1 G H q m (n + 1) e) as (s2 & G2 & e2 & H2 & Hs2 & C2 & K2); rewrite ?T1, ?P1; try done; [apply Hs1|lia| |lia|].
  { unfold avail in *. by rewrite K1. }
  rewrite T1, P1, Q1 in *. rewrite A1 in C2. pose proof (lo_rep _ _ (sv_lists _ _ (ow_inv _ _ _ Hw1)) (sigpendactionq x)) as [_ H0 Hh _ _]. rewrite Hq in Hh, H0. simpl in Hh. rewrite Hh.
  rewrite (deliver_loop_single _ sig_fuel s1 q s2), some_bind; [|unfold sig_fuel; lia|intros ->; apply H0; by left|done].
  rewrite (at_errno _ _ _ _ _ _ (se_at _ _ _ _ _ _ _ Hs1)).
  destruct (restore_errno s2 G2 H n e e2 (rn_owned _ _ _ _ _ _ (de_ran _ _ _ _ _ _ _ Hs2)) (de_at _ _ _ _ _ _ _ Hs2) Hn) as (s3 & s4 & -> & H4 & Hs4 & C4 & _).
  rewrite some_bind, H4. exists s4, G2. split; [done|]. split; [|split; [by rewrite C4, C2, C1|done]].
  eapply served_delivered; [done|exact Hs1|]. eapply delivered_served; [done|exact Hs2|exact Hs4|apply Hs2].
Qed.

(** With no action there is nothing to do. *)
Lemma sig_deliver_nothing fuel s G H n e :
  owned s G H -> at_task s n e -> 0 <= n -> n < MAX_LOCK_COUNT -> G (sigpendactionq x) = [] ->
  exists s', sig_deliver handler (S fuel) s x = Some s' /\ served s G H s' G n e /\ calls s' = calls s /\ kheap s' = kheap s.
Proof.
  intros Hw Ha Hn Hlk Hq. cbn [sig_deliver]. destruct (lock_served s G H n e Hw Ha ltac:(lia)) as (s1 & -> & Hs1 & C1 & K1 & _). rewrite some_bind.
  pose proof (rn_owned _ _ _ _ _ _ (se_ran _ _ _ _ _ _ _ Hs1)) as Hw1. pose proof (lo_rep _ _ (sv_lists _ _ (ow_inv _ _ _ Hw1)) (sigpendactionq x)) as [_ _ Hh _ _].
  rewrite Hq in Hh. simpl in Hh. rewrite Hh, deliver_loop_none, some_bind by (unfold sig_fuel; lia). rewrite (at_errno _ _ _ _ _ _ (se_at _ _ _ _ _ _ _ Hs1)).
  destruct (restore_errno s1 G H n e e Hw1 (se_at _ _ _ _ _ _ _ Hs1) Hn) as (s3 & s4 & -> & H4 & Hs4 & C4 & K4 & _). rewrite some_bind, H4.
  exists s4. split; [done|]. split; [by eapply served_trans|]. by rewrite C4, C1, K4, K1.
Qed.

(** A task that runs waits for nothing. *)
Lemma wake_none s n e : at_task s n e -> wake_other s x = Some s /\ exists t, get_tcb (skn s) x = Some t /\ task_state t <> TSTATE_WAIT_SIG.
Proof.
  intros Ha. destruct (at_task_head _ _ _ _ _ _ Ha) as (_ & Hx & Hst). unfold wake_other. rewrite get_tcb_ok by done. rewrite !some_bind. unfold state in Hst. rewrite Hst.
  rewrite bool_decide_eq_false_2 by done. rewrite some_bind, get_tcb_ok, some_bind, Hst, bool_decide_eq_false_2 by (done || by intros [|]).
  split; [done|]. eexists. split; [done|]. by rewrite Hst.
Qed.

(** What [sig_tcbdispatch] does after the handler was queued. *)
Lemma dispatch_unmasked deliver s info s1 s2 n e :
  at_task s n e -> good (si_signo info) -> Z.testbit (mask s) (si_signo info) = false -> sig_queueaction s x info = Some (s1, OK) ->
  sigdeliver (tsig s1 x) = false -> at_task s1 n e -> deliver s1 x = Some s2 -> at_task s2 n e ->
  sig_tcbdispatch deliver s x info = Some (s2, OK).
Proof.
  intros Ha Hg Hm Hq Hsd Ha1 Hdl Ha2. destruct (at_task_head _ _ _ _ _ _ Ha) as (_ & Hx & _). destruct (at_task_head _ _ _ _ _ _ Ha1) as (Hh & _ & _).
  unfold sig_tcbdispatch. rewrite get_tcb_ok, some_bind, is_in_testbit, Hm, Hq, some_bind by done. unfold up_schedule_sigaction.
  rewrite Hsd, Hh, Z.eqb_refl, (at_irq _ _ _ _ _ _ Ha1). cbn [negb andb]. rewrite Hdl, some_bind.
  destruct (wake_none s2 n e Ha2) as [Hw (t & -> & Ht)]. rewrite some_bind, bool_decide_eq_false_2, some_bind, Hw by done. done.
Qed.

(** Signals that a task no longer masks, at any depth of nesting. *)
Lemma dispatch_spec fuel : dispatches (sig_deliver handler fuel) fuel.
Proof.
  induction fuel as [|fuel IH]; intros s G H m n e info Hrd Hm Hg Hmask Hlk Hpo Hav; [lia|]. destruct Hrd as [Hw Ha Hn Hsd Hq Hc _].
  pose proof (sig_queueaction_spec T idle x s G H n e info Hw Ha Hn ltac:(lia)) as HQ. destruct (action_of s G x (si_signo info)) as [a|].
  - destruct (HQ ltac:(lia)) as (s1 & G1 & q & Hrun & Ha1 & R1 & Eq & L1 & Eh & _ & Ei & Ev & Et & Ec & _). clear HQ. rewrite Hq in Eq. simpl in Eq.
    pose proof (rn_owned _ _ _ _ _ _ R1) as Hw1. assert (P1 : pends s1 = pends s) by apply R1. assert (A1 : acts s1 = acts s) by apply R1.
    destruct (sig_deliver_spec fuel s1 G1 H q m n e IH Hw1 Ha1 Hn) as (s2 & G2 & H2 & Hs2 & C2 & K2); rewrite ?Et, ?P1, ?L1 by done; try done; [lia|lia|].
    exists s2, G2. rewrite Et, P1 in *. rewrite A1, Eh, Ei, Ec, (L1 (pq s)), (L1 (sigactionq x)) in C2 by done. rewrite (L1 (pq s)) in K2 by done.
    split; [eapply dispatch_unmasked; try done; [by rewrite Et|apply Hs2]|]. destruct Hs2 as [R2 A2 T2 Q2 L2]. split; [|].
    { constructor; [by eapply ran_trans|done|intros y; by rewrite T2, Et|]. intros i Hf Hi. destruct (decide (i = sigpendactionq x)) as [->|Hne]; [by rewrite Q2|].
      rewrite L2, L1; try done. by rewrite Et. }
    rewrite K2, opens_held, C2, (deliveries_nil _ _ _ (kept s G)) by apply opens_held. rewrite app_nil_r. split; [done|]. split; [|split; [|simpl; lia]].
    + apply held_held.
    + intros y Hy. by apply not_elem_of_nil in Hy.
  - destruct HQ as (k & Hrun & Ha1). destruct (served_kernel s G H k n e Hw Ha1) as (s1 & E1 & Hs1 & C1 & K1 & Q1 & T1). rewrite <- E1 in *.
    destruct (sig_deliver_nothing fuel s1 G H n e (rn_owned _ _ _ _ _ _ (se_ran _ _ _ _ _ _ _ Hs1)) Ha1 Hn ltac:(lia) Hq) as (s2 & H2 & Hs2 & C2 & K2).
    exists s2, G. split; [eapply dispatch_unmasked; try done; [by rewrite T1|apply Hs2]|]. split; [by eapply served_trans|].
    rewrite C2, C1. split; [reflexivity|]. split; [done|]. split; [done|]. unfold avail in *. rewrite K2, K1. lia.
Qed.

(** ** sigprocmask *)

(** The mask of the running task is changed. *)
Lemma set_mask_ran s G H m : owned s G H -> ran s G H (set_mask x m s) G H.
Proof. intros Hw. by apply ran_same. Qed.

Lemma procmask_spec s G m n e mask' :
  let pl := G (pq s) in
  owned s G [] -> at_task s n e -> 0 <= n -> n + 68 <= MAX_LOCK_COUNT -> sigdeliver (tsig s x) = false -> G (sigpendactionq x) = [] ->
  (length (G (sigpostedq x)) <= 30)%nat -> length (opens mask' (pends s) pl) = m -> (m <= avail s G)%nat ->
  exists s1 s2 s3 G3, on_kernel sched_lock s = Some s1 /\ tsig s1 = tsig s /\
    sig_unmaskpendingsignal (sig_deliver handler sig_fuel) (set_mask x mask' s1) = Some s2 /\ on_kernel sched_unlock s2 = Some s3 /\
    ran s G [] s3 G3 [] /\ at_task s3 n e /\ (forall y, tsig s3 y = tsig (set_mask x mask' s) y) /\
    calls s3 = calls s ++ deliveries mask' (pends s) (acts s) pl (G (sigactionq x)) /\ G3 (pq s) = held mask' (pends s) pl /\
    (forall i, is_free i = false -> i <> pq s -> G3 i = G i).
Proof.
  intros pl Hw Ha Hn Hlk Hsd Hq Hpo Hm Hav. destruct (lock_served s G [] n e Hw Ha ltac:(lia)) as (s1 & H1 & Hs1 & C1 & K1 & _ & T1).
  pose proof (se_ran _ _ _ _ _ _ _ Hs1) as R1. pose proof (rn_owned _ _ _ _ _ _ R1) as Hw1. set (s1' := set_mask x mask' s1).
  pose proof (set_mask_ran s1 G [] mask' Hw1) as R1'. fold s1' in R1'. assert (P1 : pends s1' = pends s) by (rewrite (rn_pends _ _ _ _ _ _ R1'); apply R1).
  assert (A1 : acts s1' = acts s) by (rewrite (rn_acts _ _ _ _ _ _ R1'); apply R1).
  assert (Tx : tsig s1' x = mk_tsig mask' (sigwaitmask (tsig s x)) (sigunbinfo (tsig s x)) (sigdeliver (tsig s x)) (group (tsig s x))).
  { unfold s1', set_mask. simpl. by rewrite upd_eq, T1. }
  assert (Hlen : (length pl <= 32)%nat).
  { destruct (sv_pend _ _ (ow_inv _ _ _ Hw) (group (tsig s x))) as [Hnd Hg]. pose proof (good_count _ Hnd Hg) as Hc. by rewrite length_map in Hc. }
  assert (Hm32 : (m <= 32)%nat) by (rewrite <- Hm; etransitivity; [apply length_filter|done]).
  assert (Hrd : ready s1' G [] m (n + 1) e).
  { constructor; rewrite ?Tx, ?P1; try done; [apply R1'|apply Hs1|lia|]. unfold avail in *. change (kheap s1') with (kheap s1). by rewrite K1. }
  destruct (sig_unmask_spec (sig_deliver handler sig_fuel) sig_fuel s1' G [] m (n + 1) e (dispatch_spec sig_fuel) Hrd) as (s2 & G2 & H2 & Hs2 & C2 & K2); [unfold sig_fuel; lia|lia|unfold sig_fuel; lia|].
  rewrite Tx, P1 in *. rewrite A1 in C2. pose proof (se_ran _ _ _ _ _ _ _ Hs2) as R2.
  destruct (unlock_served s2 G2 [] n e (rn_owned _ _ _ _ _ _ R2) (se_at _ _ _ _ _ _ _ Hs2) Hn) as (s3 & H3 & Hs3 & C3 & _ & _ & T3).
  exists s1, s2, s3, G2. split_and!; try done.
  - eapply ran_trans; [done|exact R1|]. eapply ran_trans; [done|exact R1'|]. eapply ran_trans; [apply R1'|exact R2|apply Hs3].
  - apply Hs3.
  - intros y. rewrite T3, (se_tsig _ _ _ _ _ _ _ Hs2). unfold s1', set_mask. simpl. by rewrite T1.
  - rewrite C3, C2. change (calls s1') with (calls s1). by rewrite C1.
  - intros i Hf Hi. rewrite (se_lists _ _ _ _ _ _ _ Hs2); [done|done|by rewrite Tx].
Qed.
End handlers.

(** ** A queue of several actions

    With no pending signal to be delivered, [sig_deliver] takes the actions in
    turn. *)

Abbreviation call_of s q := (sighandler (sigqs s q), qinfo (sigqs s q)).
Abbreviation queued_ok s q := (handler_ok T idle x (handler (sighandler (sigqs s q)) (qinfo (sigqs s q)))).

(** Actions were taken from the queue, which is now [l]; the pending signals
    are as before. *)
Record handled (s : sig_state) (G : ghost) (H : hand) (s' : sig_state) (G' : ghost) (l : list Z) (n e : Z) : Prop := {
  ha_ran : ran s G H s' G' H;
  ha_at : at_task s' n e;
  ha_tsig y : tsig s' y = tsig s y;
  ha_queue : G' (sigpendactionq x) = l;
  ha_lists i : is_free i = false -> i <> sigpendactionq x -> G' i = G i;
  ha_sigqs : sigqs s' = sigqs s
}.

Lemma handled_open s G H s' G' l n e : handled s G H s' G' l n e -> open s' G' = open s G.
Proof. intros [R _ Ht _ L _]. by rewrite (rn_pends _ _ _ _ _ _ R), Ht, L. Qed.

Lemma handled_trans s G H s1 G1 l1 s2 G2 l2 n e n' e' :
  owned s G H -> handled s G H s1 G1 l1 n e -> handled s1 G1 H s2 G2 l2 n' e' -> handled s G H s2 G2 l2 n' e'.
Proof.
  intros Hw [R1 A1 T1 Q1 L1 S1] [R2 A2 T2 Q2 L2 S2]. constructor; [by eapply ran_trans|done|intros y; by rewrite T2|done| |congruence].
  intros i Hf Hi. rewrite L2; [by apply L1|done|done].
Qed.

(** The calls of the scheduler do nothing to the queue. *)
Lemma served_handled s G H s' n e : served s G H s' G n e -> sigqs s' = sigqs s -> handled s G H s' G (G (sigpendactionq x)) n e.
Proof. intros [R A Ht L] E. by constructor. Qed.

Lemma handled_again s G H s' G' l n e : owned s G H -> at_task s n e -> s' = s -> G' = G -> G (sigpendactionq x) = l -> handled s G H s' G' l n e.
Proof. intros Hw Ha -> -> Hl. constructor; try done. by apply ran_same. Qed.

(** The set that [sig_unmaskpendingsignal] computes. *)
Lemma open_set s G set :
  is_set set -> (forall j, Z.testbit set j = bool_decide (j ∈ map (num s) (G (pq s)))) ->
  is_set (Z.land (set_not (mask s)) set) /\
  forall k, good k -> Z.testbit (Z.land (set_not (mask s)) set) k = negb (Z.testbit (mask s) k) && bool_decide (k ∈ map (num s) (G (pq s))).
Proof.
  intros Hset Hb. split.
  - apply set_of_bits; [apply Z.land_nonneg; right; apply Hset|]. intros k Hk. rewrite Z.land_spec, (set_bits set) by done. apply andb_false_r.
  - intros k Hk. unfold good in Hk. rewrite Z.land_spec, Hb, not_testbit by lia. destruct (Z.ltb_spec k 32); [done|lia].
Qed.

Lemma unmask_loop_empty deliver fuel s : (0 < fuel)%nat -> unmask_loop deliver fuel s x 0 = Some s.
Proof. destruct fuel; [lia|done]. Qed.

Lemma unmask_nothing deliver s G H n e :
  owned s G H -> at_task s n e -> 0 <= n < MAX_LOCK_COUNT -> open s G = [] ->
  exists s', sig_unmaskpendingsignal deliver s = Some s' /\ handled s G H s' G (G (sigpendactionq x)) n e /\ calls s' = calls s.
Proof.
  intros Hw Ha Hn Ho. unfold sig_unmaskpendingsignal. destruct (at_task_head _ _ _ _ _ _ Ha) as (-> & _ & _).
  destruct (lock_served s G H n e Hw Ha ltac:(lia)) as (s1 & -> & Hs1 & C1 & _ & Q1 & T1). rewrite some_bind.
  pose proof (rn_owned _ _ _ _ _ _ (se_ran _ _ _ _ _ _ _ Hs1)) as Hw1. pose proof (ow_inv _ _ _ Hw1) as Hi1. assert (Ep : pends s1 = pends s) by apply Hs1.
  destruct (sig_pendingset_spec s1 G x (sv_lists _ _ Hi1) (sv_pend _ _ Hi1 _)) as (set & -> & Hset & Hb). rewrite some_bind.
  destruct (open_set s1 G set Hset Hb) as [Hs' Hb']. replace (Z.land _ set) with 0; [|symmetry; apply set_empty; [done|]].
  - rewrite unmask_loop_empty, some_bind by (unfold sig_fuel; lia). destruct (unlock_served s1 G H n e Hw1 (se_at _ _ _ _ _ _ _ Hs1) ltac:(lia)) as (s2 & -> & Hs2 & C2 & _ & Q2 & _).
    exists s2. split; [done|]. split; [|congruence]. apply served_handled; [by eapply served_trans|congruence].
  - intros k Hk. rewrite Hb' by done. apply andb_false_iff. destruct (Z.testbit (mask s1) k) eqn:Em; [by left|right].
    apply bool_decide_eq_false. intros (p & -> & Hp)%list_elem_of_fmap. rewrite T1 in Em, Hp. unfold num in Em. rewrite Ep in Em.
    apply (not_elem_of_nil p). rewrite <- Ho. by apply in_opens.
Qed.

Lemma deliver_one_alone deliver s G H q l n e :
  queued_ok s q -> owned s G H -> at_task s n e -> 0 <= n < MAX_LOCK_COUNT -> G (sigpendactionq x) = q :: l -> open s G = [] ->
  (length (G (sigpostedq x)) < sig_fuel)%nat ->
  exists s' G' e', deliver_one handler deliver s x q = Some (s', hd_or l 0) /\ handled s G H s' G' l n e' /\ calls s' = calls s ++ [call_of s q].
Proof.
  intros Hh Hw Ha Hn Hq Ho Hpo. destruct (handler_ran s G H q l n e Hh Hw Ha Hq) as (s1 & s2 & s3 & sh & G3 & e' & H1 & H2 & Hrun & E3 & Ha3 & R3 & T3 & C3 & _ & Q3 & EG3).
  assert (Hp3 : G3 (sigpostedq x) = G (sigpostedq x) ++ [q]) by (rewrite EG3; apply set_q_eq).
  assert (Hi3 : forall i, i <> sigpostedq x -> i <> sigpendactionq x -> G3 i = G i) by (intros i ? ?; rewrite EG3, !set_q_ne; done).
  assert (Hl3 : G3 (sigpendactionq x) = l) by (by rewrite EG3, set_q_ne, set_q_eq by done).
  destruct (unmask_nothing deliver s3 G3 H n e' (rn_owned _ _ _ _ _ _ R3) Ha3 Hn) as (s4 & H4 & [R4 A4 T4 _ _ S4] & C4).
  { by rewrite T3, (rn_pends _ _ _ _ _ _ R3), (Hi3 (pq s)) by done. }
  destruct (action_done s4 G3 H q (G (sigpostedq x)) (rn_owned _ _ _ _ _ _ R4) Hp3 Hpo) as (s5 & s6 & G6 & H5 & H6 & R6 & S6 & P6 & I6 & Q6).
  exists s6, G6, e'. split; [|split; [constructor|]].
  - unfold deliver_one. pose proof (lo_rep _ _ (sv_lists _ _ (ow_inv _ _ _ Hw)) (sigpendactionq x)) as [_ _ _ _ Hseg]. rewrite Hq in Hseg. destruct Hseg as [Hnext _]. cbv zeta.
    cbv zeta in Hrun. rewrite Hnext, H1, some_bind, H2, some_bind, Hrun, some_bind, <- E3, H4, some_bind, H5, some_bind, H6, some_bind. by destruct l.
  - eapply ran_trans; [done|exact R3|]. eapply ran_trans; [apply R3|exact R4|exact R6].
  - unfold skn. by rewrite (sr_sg _ _ S6).
  - intros y. by rewrite (sr_tsig _ _ S6), T4, T3.
  - by rewrite I6.
  - intros i Hf Hi. destruct (decide (i = sigpostedq x)) as [->|Hne]; [done|]. by rewrite I6, Hi3.
  - congruence.
  - by rewrite (sr_calls _ _ S6), C4, C3.
Qed.

Lemma deliver_loop_all deliver fuel l s G H n e :
  (forall q, q ∈ l -> queued_ok s q) -> owned s G H -> at_task s n e -> 0 <= n < MAX_LOCK_COUNT -> G (sigpendactionq x) = l -> open s G = [] ->
  (length (G (sigpostedq x)) < sig_fuel)%nat -> (length l < fuel)%nat ->
  exists s' G' e', deliver_loop handler deliver fuel s x (hd_or l 0) = Some s' /\ handled s G H s' G' [] n e' /\ calls s' = calls s ++ map (fun q => call_of s q) l.
Proof.
  revert fuel s G e. induction l as [|q l IH]; intros fuel s G e Hh Hw Ha Hn Hq Ho Hpo Hf.
  - exists s, G, e. rewrite deliver_loop_none, app_nil_r by lia. split; [done|]. split; [by apply handled_again|done].
  - destruct fuel as [|fuel]; [simpl in Hf; lia|]. cbn [hd_or deliver_loop].
    pose proof (lo_rep _ _ (sv_lists _ _ (ow_inv _ _ _ Hw)) (sigpendactionq x)) as [_ H0 _ _ _]. rewrite Hq in H0.
    destruct (Z.eqb_spec q 0) as [->|_]; [by destruct H0; left|].
    destruct (deliver_one_alone deliver s G H q l n e) as (s1 & G1 & e1 & -> & Hd1 & C1); try done; [apply Hh; by left|]. rewrite some_bind.
    assert (Eq : sigqs s1 = sigqs s) by apply Hd1.
    destruct (IH fuel s1 G1 e1) as (s2 & G2 & e2 & Hrun & Hd2 & C2); try done; [|apply Hd1|apply Hd1|apply Hd1|by rewrite (handled_open _ _ _ _ _ _ _ _ Hd1)| |simpl in Hf; lia|].
    + intros y Hy. rewrite Eq. apply Hh. by right.
    + by rewrite (ha_lists _ _ _ _ _ _ _ _ Hd1).
    + exists s2, G2, e2. split; [done|]. split; [by eapply handled_trans|]. rewrite C2, C1, Eq, <- app_assoc. done.
Qed.

Lemma sig_deliver_all fuel l s G H n e :
  (forall q, q ∈ l -> queued_ok s q) -> owned s G H -> at_task s n e -> 0 <= n -> n + 2 <= MAX_LOCK_COUNT -> G (sigpendactionq x) = l -> open s G = [] ->
  (length (G (sigpostedq x)) < sig_fuel)%nat -> (length l < sig_fuel)%nat ->
  exists s' G', sig_deliver handler (S fuel) s x = Some s' /\ handled s G H s' G' [] n e /\ calls s' = calls s ++ map (fun q => call_of s q) l.
Proof.
  intros Hh Hw Ha Hn Hlk Hq Ho Hpo Hf. cbn [sig_deliver]. destruct (lock_served s G H n e Hw Ha ltac:(lia)) as (s1 & -> & Hs1 & C1 & _ & Q1 & T1). rewrite some_bind.
  pose proof (served_handled _ _ _ _ _ _ Hs1 Q1) as Hd1. pose proof (rn_owned _ _ _ _ _ _ (se_ran _ _ _ _ _ _ _ Hs1)) as Hw1.
  pose proof (lo_rep _ _ (sv_lists _ _ (ow_inv _ _ _ Hw1)) (sigpendactionq x)) as [_ _ Hhd _ _]. rewrite Hq in Hhd. rewrite Hhd.
  destruct (deliver_loop_all (sig_deliver handler fuel) sig_fuel l s1 G H (n + 1) e) as (s2 & G2 & e2 & -> & Hd2 & C2); try done; [by rewrite Q1|apply Hs1|lia|by rewrite (handled_open _ _ _ _ _ _ _ _ Hd1)|].
  rewrite some_bind, (at_errno _ _ _ _ _ _ (se_at _ _ _ _ _ _ _ Hs1)).
  destruct (restore_errno s2 G2 H n e e2 (rn_owned _ _ _ _ _ _ (ha_ran _ _ _ _ _ _ _ _ Hd2)) (ha_at _ _ _ _ _ _ _ _ Hd2) Hn) as (s3 & s4 & -> & H4 & Hs4 & C4 & _ & Q4).
  rewrite some_bind, H4. exists s4, G2. split; [done|]. split; [|by rewrite C4, C2, C1, Q1].
  eapply handled_trans; [done|exact Hd1|]. eapply handled_trans; [done|exact Hd2|]. pose proof (served_handled _ _ _ _ _ _ Hs4 Q4) as Hd4. by rewrite (ha_queue _ _ _ _ _ _ _ _ Hd2) in Hd4.
Qed.

(** ** A pending signal next to queued actions

    One more signal is unmasked while actions are queued: the delivery nested
    in its dispatch takes the whole queue. *)

(** All actions of the queue [l] and then the call [c] were made. *)
Record flushed (s : sig_state) (G : ghost) (H : hand) (l : list Z) (c : Z * siginfo) (s' : sig_state) (G' : ghost) (n e : Z) : Prop := {
  fl_ran : ran s G H s' G' H;
  fl_at : at_task s' n e;
  fl_tsig y : tsig s' y = tsig s y;
  fl_queue : G' (sigpendactionq x) = [];
  fl_lists i : is_free i = false -> i <> sigpendactionq x -> i <> pq s -> G' i = G i;
  fl_calls : calls s' = calls s ++ map (fun q => call_of s q) l ++ [c];
  fl_sigqs q : q ∈ l -> sigqs s' q = sigqs s q
}.

Lemma dispatch_flushes fuel s G H l n e info a :
  action_of s G x (si_signo info) = Some a -> handler_ok T idle x (handler (sa_handler a) info) -> (forall q, q ∈ l -> queued_ok s q) ->
  owned s G H -> at_task s n e -> 0 <= n -> n + 2 <= MAX_LOCK_COUNT -> good (si_signo info) -> Z.testbit (mask s) (si_signo info) = false ->
  sigdeliver (tsig s x) = false -> G (sigpendactionq x) = l -> open s G = [] -> (length (G (sigpostedq x)) < sig_fuel)%nat -> (length l + 1 < sig_fuel)%nat ->
  (0 < avail s G)%nat ->
  exists s' G', sig_tcbdispatch (sig_deliver handler (S fuel)) s x info = Some (s', OK) /\ flushed s G H l (sa_handler a, info) s' G' n e /\ G' (pq s) = G (pq s).
Proof.
  intros Hact Hha Hh Hw Ha Hn Hlk Hg Hm Hsd Hq Ho Hpo Hf Hav. pose proof (sig_queueaction_spec T idle x s G H n e info Hw Ha Hn ltac:(lia)) as HQ. rewrite Hact in HQ.
  destruct (HQ Hav) as (s1 & G1 & q & Hrun & Ha1 & R1 & Eq & L1 & Eh & _ & Ei & _ & Et & Ec & Es). clear HQ. rewrite Hq in Eq.
  pose proof (rn_owned _ _ _ _ _ _ R1) as Hw1. pose proof (lo_rep _ _ (sv_lists _ _ (ow_inv _ _ _ Hw1)) (sigpendactionq x)) as [Hnd _ _ _ _]. rewrite Eq in Hnd.
  assert (Es' : forall y, y ∈ l -> sigqs s1 y = sigqs s y).
  { intros y Hy. apply Es. intros ->. apply NoDup_app in Hnd as (_ & Hnd & _). apply (Hnd q Hy). by left. }
  destruct (sig_deliver_all fuel (l ++ [q]) s1 G1 H n e) as (s2 & G2 & H2 & [R2 A2 T2 Q2 L2 S2] & C2); try done.
  - intros y [Hy|Hy]%elem_of_app; [rewrite (Es' y Hy); by apply Hh|]. apply list_elem_of_singleton in Hy as ->. by rewrite Eh, Ei.
  - by rewrite Et, (rn_pends _ _ _ _ _ _ R1), L1.
  - by rewrite L1.
  - rewrite length_app. simpl. lia.
  - exists s2, G2. split; [eapply dispatch_unmasked; try done; by rewrite Et|]. split; [|by rewrite L2, L1]. constructor; try done.
    + by eapply ran_trans.
    + intros y. by rewrite T2, Et.
    + intros i Hif Hi _. by rewrite L2, L1.
    + rewrite C2, Ec, map_app. cbn [map]. rewrite Eh, Ei. f_equal. f_equal. apply map_ext_in. intros y Hy%list_elem_of_In. by rewrite (Es' y Hy).
    + intros y Hy. by rewrite S2, Es'.
Qed.

(** [p] is the only pending signal that is not masked. *)
Definition only_open (s : sig_state) (G : ghost) (p : Z) : Prop :=
  p ∈ G (pq s) /\ Z.testbit (mask s) (num s p) = false /\ forall y, y ∈ G (pq s) -> Z.testbit (mask s) (num s y) = false -> y = p.

Lemma only_open_set s G p set :
  sig_inv s G -> only_open s G p -> is_set set -> (forall j, Z.testbit set j = bool_decide (j ∈ map (num s) (G (pq s)))) ->
  let u := Z.land (set_not (mask s)) set in is_set u /\ good (num s p) /\ u <> 0 /\ sig_lowest u = num s p /\ (sigdelset u (num s p)).1 = 0.
Proof.
  intros Hi (Hp & Hm & Hone) Hset Hb u. destruct (open_set s G set Hset Hb) as [Hu Hbit]. fold u in Hu, Hbit.
  assert (Hg : good (num s p)).
  { destruct (sv_pend _ _ Hi (group (tsig s x))) as [_ Hg]. rewrite Forall_forall in Hg. apply Hg, list_elem_of_fmap. by exists p. }
  assert (Hk : forall k, good k -> Z.testbit u k = true -> k = num s p).
  { intros k Hgk. rewrite Hbit by done. intros [Hmk (y & -> & Hy)%bool_decide_eq_true%list_elem_of_fmap]%andb_true_iff.
    apply negb_true_iff in Hmk. by rewrite (Hone y Hy Hmk). }
  assert (Hup : Z.testbit u (num s p) = true).
  { rewrite Hbit, Hm by done. cbn [negb andb]. apply bool_decide_eq_true_2, list_elem_of_fmap. by exists p. }
  assert (Hu0 : u <> 0) by (intros E; rewrite E, Z.testbit_0_l in Hup; done).
  destruct (sig_lowest_spec u Hu Hu0) as (Hlg & Hlb & _). split_and!; try done; [by apply Hk|].
  apply set_empty; [by apply is_set_del|]. intros k Hgk. rewrite del_testbit by done. destruct (Z.testbit u k) eqn:E; [|done].
  rewrite (Hk k Hgk E). apply bool_decide_eq_false_2. intros Hne. by apply Hne.
Qed.

Lemma unmask_once deliver fuel s u s1 p s2 s3 :
  (1 < fuel)%nat -> u <> 0 -> good (sig_lowest u) -> (sigdelset u (sig_lowest u)).1 = 0 -> sig_removependingsignal s x (sig_lowest u) = Some (s1, p) -> p <> 0 ->
  sig_tcbdispatch deliver s1 x (pinfo (pends s1 p)) = Some (s2, OK) -> sig_releasependingsignal p s2 = Some s3 -> unmask_loop deliver fuel s x u = Some s3.
Proof.
  intros Hf Hu Hg Hdel Hrem Hp Hd Hrel. destruct fuel as [|fuel]; [lia|]. cbn [unmask_loop]. destruct (Z.eqb_spec u NULL_SIGNAL_SET); [done|].
  destruct (Z.eqb_spec (sig_lowest u) ERROR) as [E|_]; [unfold good, ERROR in *; lia|]. cbn [negb].
  rewrite Hrem, some_bind. destruct (Z.eqb_spec p 0); [done|]. cbn [negb]. rewrite Hd, some_bind, Hrel, some_bind, Hdel. apply unmask_loop_empty. lia.
Qed.

(** Taking the only signal to be delivered leaves none. *)
Lemma only_open_taken s G p l1 l2 : sig_inv s G -> only_open s G p -> G (pq s) = l1 ++ p :: l2 -> opens (mask s) (pends s) (l1 ++ l2) = [].
Proof.
  intros Hi (_ & _ & Hone) E. apply elem_of_nil_inv. intros y [Hm Hy]%in_opens.
  assert (Hyl : y ∈ G (pq s)) by (rewrite E, elem_of_app, elem_of_cons; apply elem_of_app in Hy as [?|?]; auto). rewrite (Hone y Hyl Hm) in Hy.
  pose proof (lo_rep _ _ (sv_lists _ _ Hi) (pq s)) as [Hnd _ _ _ _]. rewrite E in Hnd. apply NoDup_remove' in Hnd as [_ Hnd]. done.
Qed.

Lemma unmask_flushes fuel s G H l p n e a :
  only_open s G p -> action_of s G x (num s p) = Some a -> handler_ok T idle x (handler (sa_handler a) (pinfo (pends s p))) -> (forall q, q ∈ l -> queued_ok s q) ->
  owned s G H -> at_task s n e -> 0 <= n -> n + 3 <= MAX_LOCK_COUNT -> sigdeliver (tsig s x) = false -> G (sigpendactionq x) = l ->
  (length (G (sigpostedq x)) < sig_fuel)%nat -> (length l + 1 < sig_fuel)%nat -> (0 < avail s G)%nat ->
  exists s' G', sig_unmaskpendingsignal (sig_deliver handler (S fuel)) s = Some s' /\ flushed s G H l (sa_handler a, pinfo (pends s p)) s' G' n e.
Proof.
  intros Hop Hact Hha Hh Hw Ha Hn Hlk Hsd Hq Hpo Hf Hav. unfold sig_unmaskpendingsignal. destruct (at_task_head _ _ _ _ _ _ Ha) as (-> & _ & _).
  destruct (lock_served s G H n e Hw Ha ltac:(lia)) as (s1 & -> & Hs1 & C1 & K1 & Q1 & T1). rewrite some_bind.
  pose proof (se_ran _ _ _ _ _ _ _ Hs1) as R1. pose proof (rn_owned _ _ _ _ _ _ R1) as Hw1. pose proof (ow_inv _ _ _ Hw1) as Hi1.
  assert (Ep : pends s1 = pends s) by apply R1. assert (Ea : acts s1 = acts s) by apply R1.
  assert (Hop1 : only_open s1 G p) by (unfold only_open, num; rewrite T1, Ep; exact Hop).
  destruct (sig_pendingset_spec s1 G x (sv_lists _ _ Hi1) (sv_pend _ _ Hi1 _)) as (set & -> & Hset & Hb). rewrite some_bind.
  destruct (only_open_set s1 G p set Hi1 Hop1 Hset Hb) as (Hu & Hg & Hu0 & Hlow & Hdel). set (u := Z.land _ set) in *.
  destruct (sig_removependingsignal_spec s1 G x (num s1 p) (sv_lists _ _ Hi1) (sv_pend _ _ Hi1 _)) as [(Hno & _)|(s2 & l1 & p' & l2 & E & Hp & Hrem & Ho2 & Hl2 & Hp0 & _)].
  { destruct Hno. apply list_elem_of_fmap. exists p. split; [done|apply Hop1]. }
  assert (p' = p) as -> by (apply Hop1; [rewrite E; apply elem_of_app; right; by left|rewrite Hp; apply Hop1]).
  pose proof (ran_take s1 G H s2 _ l1 p l2 Hw1 E ltac:(done) Ho2 Hl2) as R2. set (G2 := set_q (pq s1) (l1 ++ l2) G) in *. simpl in R2.
  assert (T2 : tsig s2 = tsig s) by (by rewrite (ol_tsig _ _ Ho2)). assert (P2 : pends s2 = pends s) by (by rewrite (ol_pends _ _ Ho2)).
  assert (L2 : forall i, i <> pq s -> G2 i = G i) by (intros i Hi; apply set_q_ne; by rewrite T1).
  destruct (dispatch_flushes fuel s2 G2 ((Pend, p) :: H) l (n + 1) e (pinfo (pends s2 p)) a) as (s3 & G3 & Hd & [R3 A3 T3 Q3 L3 C3 S3] & E3); rewrite ?T2, ?P2, ?L2 by done; try done.
  - unfold action_of. rewrite (ol_acts _ _ Ho2), Ea, L2 by done. exact Hact.
  - intros q Hql. rewrite (ol_sigqs _ _ Ho2), Q1. by apply Hh.
  - apply R2.
  - unfold skn. rewrite (ol_sg _ _ Ho2). apply Hs1.
  - lia.
  - lia.
  - unfold num in Hg. by rewrite Ep in Hg.
  - apply Hop.
  - unfold G2. rewrite T1, set_q_eq, <- T1, <- Ep. by apply (only_open_taken s1 G p).
  - unfold avail in *. by rewrite (ol_kheap _ _ Ho2), K1, L2.
  - destruct (release_signal s3 G3 H p (rn_owned _ _ _ _ _ _ R3)) as (s4 & G4 & Hrel & R4 & U4 & Rest4 & _ & Q4).
    rewrite (unmask_once _ sig_fuel s1 u s2 p s3 s4); rewrite ?Hlow; try done; [|unfold sig_fuel; lia]. rewrite some_bind.
    assert (A4 : at_task s4 (n + 1) e) by (unfold skn; by rewrite (sr_sg _ _ Rest4)).
    destruct (unlock_served s4 G4 H n e (rn_owned _ _ _ _ _ _ R4) A4 Hn) as (s5 & -> & Hs5 & C5 & _ & Q5 & T5). exists s5, G4. split; [done|].
    rewrite T2 in L3. constructor.
    + eapply ran_trans; [done|exact R1|]. eapply ran_trans; [done|exact R2|]. eapply ran_trans; [apply R2|exact R3|]. eapply ran_trans; [apply R3|exact R4|apply Hs5].
    + apply Hs5.
    + intros y. by rewrite T5, (sr_tsig _ _ Rest4), T3, T2.
    + by rewrite U4.
    + intros i Hif Hi Hi'. by rewrite U4, L3, L2.
    + rewrite C5, (sr_calls _ _ Rest4), C3, (ol_calls _ _ Ho2), C1, P2. f_equal. f_equal. apply map_ext. intros q. by rewrite (ol_sigqs _ _ Ho2), Q1.
    + intros q Hql. by rewrite Q5, Q4, S3, (ol_sigqs _ _ Ho2), Q1.
Qed.
End unmask.
