(* ===== verification/SignalCalls.v ===== *)
(** * Signals: calls

    Sending a signal that is masked, waiting for pending signals, installing
    actions, and initialisation. *)

From stdpp Require Import base tactics numbers sets list.
From S2P Require Import Prelude Queue QueueProps Sched SchedProps SchedOps SchedKernel SchedPriority SchedTheorems Sem Mqueue SemTimed Signal SignalLists.
From S2P Require Import SignalDeliver.

(** ** Writing pending signals *)

(** A structure that is written is on no list, or it keeps the number that it
    has on a list of pending signals. *)
Lemma sig_inv_pend s G p v :
  sig_inv s G -> (forall i, p ∈ G i -> (exists g, i = sigpendingq g) /\ si_signo (pinfo v) = num s p) -> sig_inv (set_sigpend p v s) G.
Proof.
  intros Hi Hp. assert (En : forall i y, y ∈ G i -> num (set_sigpend p v s) y = num s y).
  { intros i y Hy. unfold num. simpl. destruct (decide (y = p)) as [->|]; [|by rewrite upd_ne]. rewrite upd_eq. by apply (Hp i). }
  apply (sig_inv_change s G); try done; [apply (lists_same s); try done; apply Hi| |].
  - intros i y Hy. pose proof (inv_types s G i y Hi Hy) as Ht. destruct (decide (y = p)) as [->|Hne].
    + destruct (Hp i Hy) as [[g ->] _]. done.
    + unfold type_ok in *. simpl. by rewrite upd_ne.
  - intros g. unfold pending_ok. assert (E : map (num (set_sigpend p v s)) (G (sigpendingq g)) = map (num s) (G (sigpendingq g))).
    { apply map_ext_in. intros y Hy. apply (En (sigpendingq g)). by apply list_elem_of_In. }
    rewrite E. apply (sv_pend _ _ Hi).
Qed.

(** A new pending signal, of a number that was not pending. *)
Lemma sig_inv_append s G s' g p :
  sig_inv s G -> only_lists s s' -> lists_ok s' (set_q (sigpendingq g) (G (sigpendingq g) ++ [p]) G) -> p ∉ kheap s ->
  good (num s p) -> num s p ∉ map (num s) (G (sigpendingq g)) -> sig_inv s' (set_q (sigpendingq g) (G (sigpendingq g) ++ [p]) G).
Proof.
  intros Hi Ho Hl Hh Hg Hn. assert (Et : forall j y, type_ok s j y -> type_ok s' j y).
  { intros j y. unfold type_ok. by rewrite (ol_pends _ _ Ho), (ol_sigqs _ _ Ho). }
  apply (sig_inv_change s G); try done; [apply Ho| | | |apply Ho].
  - intros y Hy Hyh j. unfold set_q. destruct (decide (j = sigpendingq g)) as [->|]; [|apply Hy]. rewrite elem_of_app, list_elem_of_singleton. intros [Hin| ->]; [by apply (Hy (sigpendingq g))|done].
  - intros j y. unfold set_q. destruct (decide (j = sigpendingq g)) as [->|]; [done|]. intros Hy. by apply Et, inv_types with G.
  - intros g'. unfold pending_ok, num. rewrite (ol_pends _ _ Ho). fold (num s). unfold set_q. destruct (decide (sigpendingq g' = sigpendingq g)) as [[= ->]|]; [|apply (sv_pend _ _ Hi)].
    destruct (sv_pend _ _ Hi g) as [Hnd Hgs]. rewrite map_app. split; [|apply Forall_app; split; [done|by constructor]].
    apply NoDup_app. split; [done|]. split; [|by apply NoDup_singleton]. intros y Hy Hy'. apply list_elem_of_singleton in Hy' as ->. done.
Qed.

(** The pending signals of a list depend on its structures only. *)
Lemma info_of_ext pn pn' l n : (forall p, p ∈ l -> pn' p = pn p) -> info_of pn' l n = info_of pn l n.
Proof.
  intros H. induction l as [|p l IH]; [done|]. simpl. rewrite (H p) by (by left). rewrite IH; [done|]. intros q Hq. apply H. by right.
Qed.

Lemma info_of_app pn l p n :
  info_of pn (l ++ [p]) n = match info_of pn l n with Some i => Some i | None => if si_signo (pinfo (pn p)) =? n then Some (pinfo (pn p)) else None end.
Proof. induction l as [|q l IH]; [done|]. simpl. destruct (si_signo (pinfo (pn q)) =? n); [done|apply IH]. Qed.

(** Writing the information of a pending signal, which keeps its number. *)
Lemma info_of_write pn l p v n :
  NoDup (map (fun p => si_signo (pinfo (pn p))) l) -> p ∈ l -> si_signo (pinfo v) = si_signo (pinfo (pn p)) ->
  info_of (upd pn p v) l n = if n =? si_signo (pinfo v) then Some (pinfo v) else info_of pn l n.
Proof.
  induction l as [|q l IH]; [by intros _ ?%not_elem_of_nil|]. simpl. intros [Hq Hn]%NoDup_cons Hp Hv. destruct (decide (q = p)) as [->|Hne].
  - rewrite upd_eq, <- Hv, (Z.eqb_sym n). destruct (Z.eqb_spec (si_signo (pinfo v)) n); [done|]. apply info_of_ext. intros y Hy.
    apply upd_ne. intros ->. apply Hq. apply list_elem_of_fmap. by exists p.
  - rewrite upd_ne by done. apply elem_of_cons in Hp as [?|Hp]; [congruence|]. rewrite IH by done.
    destruct (Z.eqb_spec (si_signo (pinfo (pn q))) n) as [E|], (Z.eqb_spec n (si_signo (pinfo v))) as [E'|]; try done.
    destruct Hq. rewrite E, E', Hv. apply list_elem_of_fmap. by exists p.
Qed.

(** ** Allocating pending signals *)

(** There is a structure for another pending signal. *)
Definition pend_avail (s : sig_state) (G : ghost) : Prop :=
  G g_sigpendingsignal <> [] \/ (if in_irq (skn s) then G g_sigpendingirqsignal <> [] else kheap s <> []).

Lemma owned_nil s G : sig_inv s G -> owned s G [].
Proof. intros Hi. constructor; [done|intros k p Hp; by apply not_elem_of_nil in Hp|apply NoDup_nil_2]. Qed.

Lemma take_first s G i p l :
  sig_inv s G -> (forall y, i <> sigactionq y) -> G i = p :: l ->
  exists s', rem_first i s = Some (s', p) /\ only_lists s s' /\ sig_inv s' (set_q i l G) /\ p <> 0 /\ off (set_q i l G) p /\ p ∉ kheap s.
Proof.
  intros Hi Hna E. pose proof (rem_first_spec s G i (sv_lists _ _ Hi)) as Hf. rewrite E in Hf. destruct Hf as (s' & Hrun & Ho & Hl & H0 & Hoff).
  exists s'. split_and!; try done.
  - apply (sig_inv_less s G); try done. rewrite E. by apply sublist_cons.
  - intros Hh. apply (proj2 (sv_new _ _ Hi p Hh) i). rewrite E. by left.
Qed.

Lemma take_none s G i : sig_inv s G -> G i = [] -> exists s', rem_first i s = Some (s', 0) /\ only_lists s s' /\ sig_inv s' G.
Proof.
  intros Hi E. pose proof (rem_first_spec s G i (sv_lists _ _ Hi)) as Hf. rewrite E in Hf. destruct Hf as (s' & Hrun & Ho & Hl).
  exists s'. split; [done|]. split; [done|]. apply (ran_lists s G [] s' (owned_nil s G Hi) Ho Hl).
Qed.

Lemma inv_malloc s G p h : sig_inv s G -> kheap s = p :: h -> sig_inv (set_kheap h s) G /\ p <> 0 /\ off G p /\ p ∉ h.
Proof.
  intros Hi Eh. destruct (sv_new _ _ Hi p ltac:(rewrite Eh; by left)) as [H0 Hoff]. pose proof (sv_heap _ _ Hi) as Hnd. rewrite Eh in Hnd.
  apply NoDup_cons in Hnd as [Hph Hnd]. split; [|done]. destruct Hi as [Hl _ Hnew F1 F2 F3 F4 Hp Ha Hk]. constructor; try done.
  - by apply (lists_same s).
  - intros y Hy. apply Hnew. rewrite Eh. by right.
Qed.

(** What an allocation promises. *)
Record allocated (s : sig_state) (G : ghost) (s' : sig_state) (G' : ghost) (p : Z) : Prop := {
  al_inv : sig_inv s' G';
  al_null : p <> 0;
  al_off : off G' p;
  al_new : p ∉ kheap s';
  al_used : same_used G G';
  al_kind i : kind_of i <> Pend -> G' i = G i;
  al_free : (length (G g_sigpendingsignal) <= S (length (G' g_sigpendingsignal)))%nat;
  al_rest : same_rest s s';
  al_acts : acts s' = acts s;
  al_sigqs : sigqs s' = sigqs s;
  al_pends y : y <> p -> pends s' y = pends s y
}.

Lemma allocated_first s G i p l s' :
  is_free i = true -> kind_of i = Pend -> G i = p :: l -> only_lists s s' -> sig_inv s' (set_q i l G) -> p <> 0 -> off (set_q i l G) p -> p ∉ kheap s ->
  allocated s G s' (set_q i l G) p.
Proof.
  intros Hf Hk E Ho Hi H0 Hoff Hh. constructor; try done; [by rewrite (ol_kheap _ _ Ho)|by apply set_q_used|intros j Hj; apply set_q_ne; congruence| |by apply only_lists_rest|apply Ho|apply Ho|].
  - unfold set_q. destruct (decide (g_sigpendingsignal = i)) as [<-|]; [rewrite E; done|lia].
  - intros y _. by rewrite (ol_pends _ _ Ho).
Qed.

Lemma allocated_none s G s1 s' G' p : only_lists s s1 -> allocated s1 G s' G' p -> allocated s G s' G' p.
Proof.
  intros Ho [H1 H2 H3 H4 H5 H6 H10 [R1 R2 R3 R4] H7 H8 H9]. constructor; try done.
  - destruct Ho. constructor; congruence.
  - by rewrite H7, (ol_acts _ _ Ho).
  - by rewrite H8, (ol_sigqs _ _ Ho).
  - intros y Hy. by rewrite (H9 y Hy), (ol_pends _ _ Ho).
Qed.

Lemma alloc_signal s G :
  sig_inv s G -> pend_avail s G -> exists s' G' p, sig_allocatependingsignal s = Some (s', p) /\ allocated s G s' G' p.
Proof.
  intros Hi Hav. unfold sig_allocatependingsignal, alloc_from. destruct (G g_sigpendingsignal) as [|p l] eqn:E.
  - destruct (take_none s G g_sigpendingsignal Hi E) as (s1 & -> & Ho & Hi1). cbn [mbind option_bind]. unfold pend_avail in Hav. rewrite E in Hav.
    destruct Hav as [?|Hav]; [done|]. unfold skn in *. rewrite (ol_sg _ _ Ho). destruct (in_irq (kn (sg s))); cbn [Z.eqb].
    + destruct (G g_sigpendingirqsignal) as [|p l] eqn:E'; [done|]. destruct (take_first s1 G g_sigpendingirqsignal p l Hi1 ltac:(done) E') as (s2 & -> & Ho2 & Hi2 & H0 & Hoff & Hh).
      eexists _, _, p. split; [done|]. apply (allocated_none s G s1); [done|]. by apply (allocated_first s1 G g_sigpendingirqsignal p l).
    + unfold malloc. rewrite (ol_kheap _ _ Ho). destruct (kheap s) as [|p h] eqn:Eh; [done|]. rewrite <- (ol_kheap _ _ Ho) in Eh.
      destruct (inv_malloc s1 G p h Hi1 Eh) as (Hi2 & H0 & Hoff & Hph). destruct (Z.eqb_spec p 0) as [?|_]; [done|].
      eexists _, G, p. split; [done|]. apply (allocated_none s G s1); [done|]. constructor; try done.
      * apply sig_inv_pend; [done|]. intros i Hp. by destruct (Hoff i).
      * lia.
      * intros y Hy. simpl. by rewrite upd_ne.
  - destruct (take_first s G g_sigpendingsignal p l Hi ltac:(done) E) as (s1 & -> & Ho & Hi1 & H0 & Hoff & Hh). cbn [mbind option_bind].
    destruct (Z.eqb_spec p 0) as [?|_]; [done|]. exists s1, (set_q g_sigpendingsignal l G), p. split; [by destruct (in_irq (skn s1))|]. by apply (allocated_first s G g_sigpendingsignal p l).
Qed.

(** ** Pending signals as a map *)

(** [sig_addpendingsignal] enters a signal in the map of pending signals of a
    task; the rest of the system stays as it is. *)
Record pended (s : sig_state) (G : ghost) (x : Z) (info : siginfo) (s' : sig_state) (G' : ghost) : Prop := {
  pd_inv : sig_inv s' G';
  pd_map n : info_of (pends s') (G' (sigpendingq (group (tsig s x)))) n =
    if n =? si_signo info then Some info else info_of (pends s) (G (sigpendingq (group (tsig s x)))) n;
  pd_other g n : g <> group (tsig s x) -> info_of (pends s') (G' (sigpendingq g)) n = info_of (pends s) (G (sigpendingq g)) n;
  pd_kind i : kind_of i <> Pend -> G' i = G i;
  pd_free : (length (G g_sigpendingsignal) <= S (length (G' g_sigpendingsignal)))%nat;
  pd_lists i : is_free i = false -> i <> sigpendingq (group (tsig s x)) -> G' i = G i;
  pd_tsig : tsig s' = tsig s;
  pd_calls : calls s' = calls s;
  pd_acts : acts s' = acts s;
  pd_sigqs : sigqs s' = sigqs s
}.

Lemma sig_addpendingsignal_spec s G x info :
  sig_inv s G -> good (si_signo info) -> (info_of (pends s) (G (sigpendingq (group (tsig s x)))) (si_signo info) = None -> pend_avail s G) ->
  exists s' G' p, sig_addpendingsignal s x info = Some (s', p) /\ p <> 0 /\ same_rest s s' /\ pended s G x info s' G'.
Proof.
  intros Hi Hg Hav. set (q := sigpendingq (group (tsig s x))) in *. pose proof (lo_rep _ _ (sv_lists _ _ Hi) q) as [_ H0 Hh _ Hs].
  unfold sig_addpendingsignal, sig_findpendingsignal. fold q. rewrite Hh.
  destruct (find_pend_spec sig_fuel s [] (G q) (si_signo info) Hs H0 (pending_length s G _ (sv_pend _ _ Hi _))) as [[Hno ->]|(p & Hp & Hn & ->)]; rewrite some_bind; unfold addpending_found.
  - change (negb (0 =? 0)) with false. cbv iota. specialize (Hav (info_of_none _ _ _ Hno)). destruct (alloc_signal s G Hi Hav) as (s1 & G1 & p & -> & Ha). rewrite some_bind.
    destruct (Z.eqb_spec p 0) as [?|_]; [by destruct (al_null _ _ _ _ _ Ha)|]. cbn [negb]. destruct Ha as [Hi1 Hp0 Hoff Hnew Hu Hk Hfree Hr Ea Eq Ep]. rewrite (sr_tsig _ _ Hr).
    set (s2 := write_pend p info s1). assert (Hi2 : sig_inv s2 G1) by (apply sig_inv_pend; [done|]; intros i Hpi; by destruct (Hoff i)).
    destruct (add_last_spec s2 G1 q p (sv_lists _ _ Hi2) Hp0 Hoff) as (s3 & H3 & Ho3 & Hl3). fold q. fold s2. rewrite H3, some_bind.
    assert (Eq1 : G1 q = G q) by (by apply Hu).
    assert (Hpl : forall y, y ∈ G q -> pends s2 y = pends s y).
    { intros y Hy. simpl. assert (y <> p) by (intros ->; apply (Hoff q); by rewrite Eq1). rewrite upd_ne by done. by apply Ep. }
    assert (Ep2 : num s2 p = si_signo info) by (unfold num; simpl; by rewrite upd_eq).
    exists s3, (set_q q (G1 q ++ [p]) G1), p. split; [done|]. split; [done|].
    split; [destruct Hr, (only_lists_rest _ _ Ho3); constructor; simpl in *; congruence|]. constructor.
    + apply (sig_inv_append s2); try done; [by rewrite Ep2|]. fold q. rewrite Ep2, Eq1. intros Hin. apply Hno. erewrite map_ext_in; [exact Hin|].
      intros y Hy. apply list_elem_of_In in Hy. unfold num. by rewrite (Hpl y Hy).
    + intros n. rewrite (ol_pends _ _ Ho3), set_q_eq, Eq1, info_of_app, (info_of_ext (pends s)) by done. fold (num s2 p). rewrite Ep2, (Z.eqb_sym n).
      destruct (Z.eqb_spec (si_signo info) n) as [<-|]; [|by destruct (info_of _ _ n)]. rewrite info_of_none by done. simpl. by rewrite upd_eq.
    + intros g n Hne. rewrite (ol_pends _ _ Ho3), set_q_ne, (Hu (sigpendingq g) eq_refl) by (unfold q; congruence). apply info_of_ext. intros y Hy. simpl.
      assert (y <> p) by (intros ->; apply (Hoff (sigpendingq g)); by rewrite (Hu (sigpendingq g) eq_refl)). rewrite upd_ne by done. by apply Ep.
    + intros i Hki. rewrite set_q_ne by (by intros ->). by apply Hk.
    + by rewrite set_q_ne.
    + intros i Hf Hne. rewrite set_q_ne by done. by apply Hu.
    + rewrite (ol_tsig _ _ Ho3). apply Hr.
    + rewrite (ol_calls _ _ Ho3). apply Hr.
    + rewrite (ol_acts _ _ Ho3). done.
    + rewrite (ol_sigqs _ _ Ho3). done.
  - assert (Hp0 : p <> 0) by congruence. destruct (Z.eqb_spec p 0) as [?|_]; [done|]. cbn [negb]. exists (write_pend p info s), G, p. split; [done|]. split; [done|]. split; [done|].
    constructor; try done; [| | |lia].
    + apply sig_inv_pend; [done|]. intros i Hpi. split; [|done]. exists (group (tsig s x)). by apply (lo_once _ _ (sv_lists _ _ Hi) i q p).
    + intros n. simpl. rewrite info_of_write; try done. apply (sv_pend _ _ Hi).
    + intros g n Hne. apply info_of_ext. intros y Hy. simpl. apply upd_ne. intros ->.
      pose proof (lo_once _ _ (sv_lists _ _ Hi) (sigpendingq g) q p Hy Hp) as E. unfold q in E. by injection E.
Qed.

(** Room for the signal of [info] among the pending signals of [x]. *)
Definition room (s : sig_state) (G : ghost) (x : Z) (info : siginfo) : Prop :=
  info_of (pends s) (G (sigpendingq (group (tsig s x)))) (si_signo info) = None -> pend_avail s G.

(** A masked signal becomes pending if its task does not wait for it. *)
Lemma dispatch_pends deliver s G x info :
  sig_inv s G -> x <> 0 -> good (si_signo info) -> Z.testbit (sigprocmask_ (tsig s x)) (si_signo info) = true -> room s G x info ->
  (state (skn s) x = TSTATE_WAIT_SIG -> Z.testbit (sigwaitmask (tsig s x)) (si_signo info) = false) ->
  exists s' G', sig_tcbdispatch deliver s x info = Some (s', OK) /\ same_rest s s' /\ pended s G x info s' G'.
Proof.
  intros Hi Hx Hg Hm Hav Hw. destruct (sig_addpendingsignal_spec s G x info Hi Hg Hav) as (s' & G' & p & Hrun & Hp & Ek & Hpd).
  exists s', G'. split; [|done]. unfold sig_tcbdispatch. rewrite get_tcb_ok, some_bind, !is_in_testbit, Hm by done.
  assert (E : bool_decide (task_state (tcbs (skn s) x) = TSTATE_WAIT_SIG) && Z.testbit (sigwaitmask (tsig s x)) (si_signo info) = false).
  { case_bool_decide as E; [|done]. by rewrite (Hw E). }
  rewrite E, Hrun, some_bind. destruct (Z.eqb_spec p 0); [done|]. done.
Qed.

(** A masked signal that its task waits for wakes it. *)
Lemma dispatch_wakes T idle deliver s A l1 x l2 info :
  sched_ok T idle (skn s) A -> A g_waitingforsignal = l1 ++ x :: l2 -> x <> idle -> good (si_signo info) ->
  Z.testbit (sigprocmask_ (tsig s x)) (si_signo info) = true -> Z.testbit (sigwaitmask (tsig s x)) (si_signo info) = true ->
  exists k', sig_tcbdispatch deliver s x info = Some (set_skn k' (set_waitmask x NULL_SIGNAL_SET (set_unbinfo x info s)), OK) /\
    sched_ok T idle k' (unblock_tasks (skn s) A x g_waitingforsignal l1 l2).
Proof.
  intros Hok HA Hid Hg Hm Hw. destruct (up_unblock_task_spec T idle (skn s) A TSTATE_WAIT_SIG g_waitingforsignal l1 x l2 Hok eq_refl HA Hid) as (k' & Hrun & Hok' & _).
  pose proof (ok_inv _ _ _ _ Hok) as Hinv. assert (Hin : x ∈ A g_waitingforsignal) by (rewrite HA; apply elem_of_app; right; by left).
  assert (Hst : task_state (tcbs (skn s) x) = TSTATE_WAIT_SIG) by exact (si_state _ _ _ _ Hinv _ _ Hin).
  assert (Hx : x <> 0) by (intros E; rewrite E in Hin; exact (dq_null _ _ _ (kr_list _ _ (si_rep _ _ _ _ Hinv) g_waitingforsignal) Hin)).
  exists k'. split; [|done]. unfold sig_tcbdispatch. rewrite get_tcb_ok, some_bind, !is_in_testbit, Hm, Hw, bool_decide_eq_true_2 by done. cbn [andb].
  unfold wake_waiter, on_kernel. change (skn (set_waitmask _ _ _)) with (skn s). rewrite Hrun. done.
Qed.

(** ** Actions *)

(** Only actions have changed, and the lists of their structures. *)
Lemma sig_inv_actions s G s' G' :
  sig_inv s G -> lists_ok s' G' -> kheap s' = kheap s -> pends s' = pends s -> sigqs s' = sigqs s ->
  (forall i, kind_of i <> Act -> G' i = G i) -> (forall i p, kind_of i = Act -> p ∈ G' i -> p ∉ kheap s) ->
  (forall y, NoDup (act_nums s' (G' (sigactionq y))) /\ Forall good (act_nums s' (G' (sigactionq y)))) ->
  (forall y p, p ∈ G' (sigactionq y) -> sa_handler (act (acts s' p)) <> 0) -> sig_inv s' G'.
Proof.
  intros [Hl Hh Hn F1 F2 F3 F4 Hp Ha Hk] Hl' Eh Ep Eq HG Hnew Ha' Hk'. constructor; rewrite ?Eh, ?Ep, ?Eq; try done.
  - intros p Hpk. destruct (Hn p Hpk) as [H0 Ho]. split; [done|]. intros i Hi. destruct (decide (kind_of i = Act)) as [E|E]; [by apply (Hnew i p)|].
    apply (Ho i). by rewrite <- HG.
  - rewrite HG by done. apply F1.
  - rewrite HG by done. apply F2.
  - rewrite HG by done. apply F3.
  - rewrite HG by done. apply F4.
  - intros g. unfold pending_ok, num. rewrite Ep, HG by done. apply Hp.
Qed.

(** The structures of a block of memory. *)
Fixpoint block (n : nat) (size p : Z) : list Z := match n with O => [] | S n => p :: block n size (p + size) end.

(** [add_block] adds them to a list; [mark] writes to a structure only. *)
Section block.
Context (mark : Z -> sig_state -> sig_state).
Hypothesis mark_lists : forall p s, slinks (mark p s) = slinks s /\ qs (mark p s) = qs s.
Hypothesis mark_only : forall p s s', only_lists s s' -> only_lists (mark p s) (mark p s').

Lemma mark_fold l s s' : only_lists s s' -> only_lists (foldl (fun s p => mark p s) s l) (foldl (fun s p => mark p s) s' l).
Proof. revert s s'. induction l as [|p l IH]; intros s s' H; [done|]. simpl. by apply IH, mark_only. Qed.

Lemma add_block_spec n i size p s G :
  lists_ok s G -> NoDup (block n size p) -> (forall y, y ∈ block n size p -> y <> 0 /\ off G y) ->
  exists s' G', add_block n i size p mark s = Some s' /\ only_lists (foldl (fun s p => mark p s) s (block n size p)) s' /\ lists_ok s' G' /\
    (forall j, G' j = set_q i (G i ++ block n size p) G j).
Proof.
  revert p s G. induction n as [|n IH]; intros p s G Hl Hnd Hoff; cbn [add_block block foldl].
  - exists s, G. split; [done|]. split; [reflexivity|]. split; [done|]. intros j. unfold set_q. destruct (decide (j = i)) as [->|]; [by rewrite app_nil_r|done].
  - cbn [block] in Hnd, Hoff. apply NoDup_cons in Hnd as [Hp Hnd]. destruct (Hoff p ltac:(by left)) as [Hp0 Hpo]. destruct (mark_lists p s) as [E1 E2].
    destruct (add_last_spec (mark p s) G i p (lists_same s _ G E1 E2 Hl) Hp0 Hpo) as (s1 & -> & Ho & Hl1). rewrite some_bind.
    destruct (IH (p + size) s1 _ Hl1 Hnd) as (s2 & G2 & Hrun & Ho2 & Hl2 & HG).
    { intros y Hy. destruct (Hoff y ltac:(by right)) as [Hy0 Hyo]. split; [done|]. intros j. unfold set_q. destruct (decide (j = i)) as [->|]; [|apply Hyo].
      rewrite elem_of_app, list_elem_of_singleton. intros [?| ->]; [by apply (Hyo i)|done]. }
    exists s2, G2. split; [done|]. split; [|split; [done|]].
    + etransitivity; [by apply mark_fold|exact Ho2].
    + intros j. rewrite HG. unfold set_q. destruct (decide (j = i)) as [->|]; [|done]. rewrite decide_True by done. by rewrite <- app_assoc.
Qed.
End block.

(** There is a free structure for an action, or memory for a block of them. *)
Definition action_room (s : sig_state) (G : ghost) : Prop :=
  G g_sigfreeaction <> [] \/
  exists p h, kheap s = p :: h /\ let B := block 16 SIZEOF_SIGACTQ p in NoDup B /\ forall y, y ∈ B -> y <> 0 /\ off G y /\ y ∉ h.

(** A block of free structures for actions. *)
Lemma action_block s G p h :
  sig_inv s G -> kheap s = p :: h -> NoDup (block 16 SIZEOF_SIGACTQ p) ->
  (forall y, y ∈ block 16 SIZEOF_SIGACTQ p -> y <> 0 /\ off G y /\ y ∉ h) ->
  exists s' G', sig_allocateactionblock s = Some s' /\ sig_inv s' G' /\ G' g_sigfreeaction = G g_sigfreeaction ++ block 16 SIZEOF_SIGACTQ p /\
    same_used G G' /\ (forall i, kind_of i <> Act -> G' i = G i) /\ only_lists (set_kheap h s) s'.
Proof.
  intros Hi Eh Hnd HB. destruct (inv_malloc s G p h Hi Eh) as (Hi1 & _). unfold sig_allocateactionblock, malloc. rewrite Eh.
  destruct (add_block_spec (fun _ s => s) ltac:(done) ltac:(done) 16 g_sigfreeaction SIZEOF_SIGACTQ p (set_kheap h s) G (sv_lists _ _ Hi1) Hnd) as (s' & G' & Hrun & Ho & Hl & HG).
  { intros y Hy. destruct (HB y Hy) as (? & ? & ?). done. }
  assert (Ho' : only_lists (set_kheap h s) s') by (etransitivity; [|exact Ho]; by generalize (block 16 SIZEOF_SIGACTQ p) as l; induction l). clear Ho.
  exists s', G'. split; [done|]. split; [|split; [rewrite HG; apply set_q_eq|split; [|split; [|done]]]].
  - apply (sig_inv_actions (set_kheap h s) G); try done; try apply Ho'.
    + intros i Hk. rewrite HG. apply set_q_ne. by intros ->.
    + intros i y Hk. rewrite HG. unfold set_q. destruct (decide (i = g_sigfreeaction)) as [->|].
      * rewrite elem_of_app. intros [Hy|Hy]; [|by apply HB]. intros Hin. by apply (proj2 (sv_new _ _ Hi1 y Hin) g_sigfreeaction).
      * intros Hy Hin. by apply (proj2 (sv_new _ _ Hi1 y Hin) i).
    + intros y. unfold act_nums. rewrite HG, set_q_ne, (ol_acts _ _ Ho') by done. apply (sv_acts _ _ Hi).
    + intros y q. rewrite HG, set_q_ne, (ol_acts _ _ Ho') by done. apply (sv_handler _ _ Hi).
  - intros j Hj. rewrite HG. apply set_q_ne. by intros ->.
  - intros j Hj. rewrite HG. apply set_q_ne. by intros ->.
Qed.

Lemma alloc_action_struct s G :
  sig_inv s G -> action_room s G ->
  exists s' G' p, sig_allocateaction s = Some (s', p) /\ sig_inv s' G' /\ p <> 0 /\ off G' p /\ (p ∉ kheap s') /\ same_used G G' /\ same_rest s s' /\
    (forall i, kind_of i <> Act -> G' i = G i) /\ (length (G g_sigfreeaction) <= S (length (G' g_sigfreeaction)))%nat /\ acts s' = acts s /\ pends s' = pends s /\ sigqs s' = sigqs s.
Proof.
  intros Hi Hav. unfold sig_allocateaction. destruct (G g_sigfreeaction) as [|p l] eqn:E.
  - destruct Hav as [?|(b & h & Eh & Hnd & HB)]; [done|]. destruct (take_none s G g_sigfreeaction Hi E) as (s1 & -> & Ho1 & Hi1). rewrite some_bind. change (0 =? 0) with true. cbv iota.
    rewrite <- (ol_kheap _ _ Ho1) in Eh. destruct (action_block s1 G b h Hi1 Eh Hnd HB) as (s2 & G2 & -> & Hi2 & EG & Hu & Hk & Ho2). rewrite some_bind.
    rewrite E in EG. cbn [block app] in EG.
    destruct (take_first s2 G2 g_sigfreeaction b _ Hi2 ltac:(done) EG) as (s3 & -> & Ho3 & Hi3 & H0 & Hoff & Hnew). rewrite some_bind.
    destruct (Z.eqb_spec b 0) as [?|_]; [done|]. unfold assert. cbn [negb]. rewrite some_bind. eexists s3, _, b. split; [done|]. split; [exact Hi3|].
    split; [done|]. split; [done|]. split; [by rewrite (ol_kheap _ _ Ho3)|]. split; [intros j Hj; rewrite set_q_ne by (by intros ->); by apply Hu|].
    destruct Ho1, Ho2, Ho3. simpl in *. split; [constructor; congruence|]. split; [intros i Hi'; rewrite set_q_ne by (by intros ->); by apply Hk|]. split; [simpl; lia|]. split_and!; congruence.
  - destruct (take_first s G g_sigfreeaction p l Hi ltac:(done) E) as (s1 & -> & Ho & Hi1 & H0 & Hoff & Hh). rewrite some_bind.
    destruct (Z.eqb_spec p 0) as [?|_]; [done|]. eexists s1, _, p. split; [done|]. split; [exact Hi1|]. split; [done|]. split; [done|].
    split; [by rewrite (ol_kheap _ _ Ho)|]. split; [by apply set_q_used|]. split; [by apply only_lists_rest|].
    split; [intros i Hi'; by apply set_q_ne; intros ->|]. split; [by rewrite set_q_eq|]. split_and!; apply Ho.
Qed.

Section calls.
Context (T : list Z) (idle : Z) (x : Z).
Abbreviation at_task s n e := (at_task T idle (skn s) x n e).
Abbreviation mask s := (sigprocmask_ (tsig s x)).
Abbreviation pq s := (sigpendingq (group (tsig s x))).

(** The pending signals of the task, by number. *)
Definition pendings (s : sig_state) (G : ghost) (n : Z) : option siginfo := info_of (pends s) (G (pq s)) n.

(** Scheduler calls keep all that belongs to signals. *)
Lemma pended_kernel s G y info s' G' k k' : pended (set_skn k s) G y info s' G' -> pended s G y info (set_skn k' s') G'.
Proof. intros [H1 H2 H3 H4 H5 H6 H7 H8 H9 H10]. constructor; try done. apply (rn_owned _ _ _ _ _ _ (ran_same s' G' [] (set_skn k' s') (owned_nil _ _ H1) eq_refl eq_refl eq_refl eq_refl eq_refl eq_refl)). Qed.

Lemma sig_inv_skn s G k : sig_inv s G -> sig_inv (set_skn k s) G.
Proof. intros Hi. exact (ow_inv _ _ _ (rn_owned _ _ _ _ _ _ (ran_same s G [] (set_skn k s) (owned_nil _ _ Hi) eq_refl eq_refl eq_refl eq_refl eq_refl eq_refl))). Qed.

(** ** kill *)

(** The information that [kill] sends. *)
Definition kill_info (s : sig_state) (n : Z) : siginfo := mk_info n SI_USER 0 (pid (tcbs (skn s) x)) OK.

(** [sched_lock] and [sched_unlock] change a counter. *)
Lemma lock_exact s n e :
  at_task s n e -> n < MAX_LOCK_COUNT ->
  exists k, on_kernel sched_lock s = Some (set_skn k s) /\ at_task (set_skn k s) (n + 1) e /\
    k = put_tcb x (fun t => set_lockcount (lockcount t + 1) t) (skn s).
Proof.
  intros Ha Hn. destruct (on_lock T idle x s n e Ha Hn) as (k & Hrun & Hk). exists k. split; [done|]. split; [done|].
  destruct Ha as [(A & Hok & Hr & Hp) Hirq Hl He]. rewrite <- Hr in Hl. destruct (sched_lock_spec T idle (skn s) A Hok Hirq) as (k' & Hrun' & _ & _ & Ek); [by rewrite Hl|].
  unfold on_kernel in Hrun. rewrite Hrun', some_bind in Hrun. injection Hrun as Hkk. subst k.
  by rewrite Ek, Hr.
Qed.

Lemma unlock_exact k n e :
  SignalDeliver.at_task T idle k x (n + 1) e -> 0 <= n ->
  exists k', sched_unlock k = Some k' /\ k' = set_tcbs (tcbs k') k /\
    forall y, tcbs k' y = if decide (y = x) then set_lockcount n (tcbs k x) else tcbs k y.
Proof.
  intros Ha Hn. destruct (at_task_head _ _ _ _ _ _ Ha) as (Hh & Hx & _). destruct Ha as [(A & Hok & Hr & Hp) Hirq Hl _]. unfold lock in Hl.
  unfold sched_unlock. rewrite Hh, Hirq. destruct (Z.eqb_spec x 0); [done|]. cbn [negb andb]. rewrite upd_tcb_ok, some_bind, put_tcb_eq by done.
  set (f := fun t => if lockcount t =? 0 then t else set_lockcount (lockcount t - 1) t).
  assert (Ef : f (tcbs k x) = set_lockcount n (tcbs k x)).
  { unfold f. rewrite Hl. destruct (Z.eqb_spec (n + 1) 0); [lia|]. f_equal. lia. }
  assert (Et : forall y, tcbs (put_tcb x f k) y = if decide (y = x) then set_lockcount n (tcbs k x) else tcbs k y).
  { intros y. destruct (decide (y = x)) as [->|]; [by rewrite put_tcb_eq|by rewrite put_tcb_ne]. }
  change (if lockcount (tcbs k x) =? 0 then tcbs k x else set_lockcount (lockcount (tcbs k x) - 1) (tcbs k x)) with (f (tcbs k x)).
  rewrite Ef. destruct (Z.leb_spec (lockcount (set_lockcount n (tcbs k x))) 0) as [H0|H0]; [|eexists; split; [done|]; split; [done|exact Et]].
  simpl in H0. assert (n = 0) as -> by lia. rewrite upd_tcb_ok, some_bind by done. set (k1 := put_tcb x (set_lockcount 0) (put_tcb x f k)).
  assert (Eh : head (lists k1 g_pendingtasks) = 0).
  { pose proof (kr_list _ _ (si_rep _ _ _ _ (ok_inv _ _ _ _ Hok)) g_pendingtasks) as [_ _ E _ _]. rewrite Hp in E. exact E. }
  rewrite Eh. change (0 =? 0) with true. cbv iota. rewrite some_bind. unfold sched_unlock_slice. rewrite get_tcb_ok, some_bind by done.
  change (rtr_head k1) with (rtr_head k). rewrite Hh, Z.eqb_refl, andb_false_r. exists k1. split; [done|]. split; [done|].
  intros y. unfold k1. destruct (decide (y = x)) as [->|]; [|by rewrite put_tcb_ne, Et, decide_False].
  rewrite put_tcb_eq, Et, decide_True by done. done.
Qed.

(** The same kernel: every field and every task control block. *)
Definition same_kernel (k k' : kernel) : Prop := k' = set_tcbs (tcbs k') k /\ forall y, tcbs k' y = tcbs k y.

(** Preemption is locked and unlocked again. *)
Lemma lock_unlock k n e k1 :
  SignalDeliver.at_task T idle k x n e -> 0 <= n -> k1 = put_tcb x (fun t => set_lockcount (lockcount t + 1) t) k ->
  SignalDeliver.at_task T idle k1 x (n + 1) e -> exists k2, sched_unlock k1 = Some k2 /\ same_kernel k k2.
Proof.
  intros Ha Hn -> Ha1. destruct (unlock_exact _ n e Ha1 Hn) as (k2 & Hrun & E & Et). exists k2. split; [done|]. split; [exact E|].
  intros y. rewrite Et. destruct (decide (y = x)) as [->|]; [|by rewrite put_tcb_ne]. rewrite put_tcb_eq.
  pose proof (at_lock _ _ _ _ _ _ Ha) as Hl. unfold lock in Hl. rewrite <- Hl. by destruct (tcbs k x).
Qed.

(** [kill] of a signal that its task masks and does not wait for. *)
Lemma kill_spec handler s G n e pid_ y signo :
  sig_inv s G -> at_task s n e -> 0 <= n < MAX_LOCK_COUNT -> 0 < pid_ -> good signo -> sched_gettcb (skn s) pid_ = y -> y <> 0 ->
  Z.testbit (sigprocmask_ (tsig s y)) signo = true -> room s G y (kill_info s signo) ->
  (state (skn s) y = TSTATE_WAIT_SIG -> Z.testbit (sigwaitmask (tsig s y)) signo = false) ->
  exists s' G', kill handler s pid_ signo = Some (s', OK) /\ at_task s' n e /\ pended s G y (kill_info s signo) s' G' /\
    same_kernel (skn s) (skn s') /\ sg s' = set_kn (skn s') (sg s) /\ mqs s' = mqs s.
Proof.
  intros Hi Ha Hn Hpid Hg Hy Hy0 Hm Hroom Hwait. destruct (at_task_head _ _ _ _ _ _ Ha) as (Hh & _ & _).
  destruct (lock_exact s n e Ha ltac:(lia)) as (k & Hl & Ha1 & Ek1).
  assert (Eh : g_pidhash k = g_pidhash (skn s)) by by rewrite Ek1.
  assert (Epid : pid (tcbs k x) = pid (tcbs (skn s) x)) by by rewrite Ek1, put_tcb_eq.
  assert (Est : forall y, state k y = state (skn s) y).
  { intros z. unfold state. rewrite Ek1. destruct (decide (z = x)) as [->|]; [by rewrite put_tcb_eq|by rewrite put_tcb_ne]. }
  unfold kill. destruct (Z.leb_spec pid_ 0); [lia|].
  rewrite GOOD_SIGNO_good by done. cbn [negb]. rewrite Hh, Hl, some_bind. change (skn (set_skn k s)) with k. rewrite Epid. fold (kill_info s signo).
  set (s1 := set_skn k s) in *. destruct (dispatch_pends (sig_deliver handler sig_fuel) s1 G y (kill_info s signo) (sig_inv_skn _ _ _ Hi) Hy0 Hg Hm) as (s2 & G2 & Hd & Hrest & Hpd).
  - unfold room, pend_avail in *. change (skn s1) with k. rewrite Ek1. exact Hroom.
  - change (skn s1) with k. rewrite Est. exact Hwait.
  - unfold sig_dispatch. replace (sched_gettcb (skn s1) pid_) with y by (unfold sched_gettcb in *; change (skn s1) with k; by rewrite Eh).
    destruct (Z.eqb_spec y 0); [done|]. rewrite Hd, some_bind.
    assert (Ek : skn s2 = k) by (unfold skn; by rewrite (sr_sg _ _ Hrest)). assert (Ha2 : at_task s2 (n + 1) e) by (by rewrite Ek).
    destruct (on_unlock T idle x s2 n e Ha2 ltac:(lia)) as (k3 & H3 & Ha3). destruct (lock_unlock (skn s) n e k Ha ltac:(lia) Ek1 Ha1) as (k4 & H4 & Hsame).
    rewrite H3, some_bind. unfold on_kernel in H3. rewrite Ek, H4, some_bind in H3. injection H3 as H3.
    exists (set_skn k3 s2), G2. split; [done|]. split; [done|]. split; [by apply (pended_kernel s G y _ s2 G2 k)|].
    change (skn (set_skn k3 s2)) with k3. rewrite <- H3. split; [done|]. split; [|exact (sr_mqs _ _ Hrest)].
    simpl. by rewrite (sr_sg _ _ Hrest).
Qed.

(** ** Waiting *)

Lemma info_of_removed pn l1 p l2 n :
  NoDup (map (fun p => si_signo (pinfo (pn p))) (l1 ++ p :: l2)) ->
  info_of pn (l1 ++ l2) n = if n =? si_signo (pinfo (pn p)) then None else info_of pn (l1 ++ p :: l2) n.
Proof.
  intros Hn. rewrite info_of_middle by done. destruct (Z.eqb_spec n (si_signo (pinfo (pn p)))) as [->|]; [|done]. apply info_of_none.
  rewrite map_app in *. apply NoDup_remove' in Hn. simpl in Hn. apply Hn.
Qed.

Lemma info_of_in pn l n : is_Some (info_of pn l n) <-> n ∈ map (fun p => si_signo (pinfo (pn p))) l.
Proof.
  induction l as [|p l IH]; simpl; [split; [by intros []|by intros ?%not_elem_of_nil]|]. rewrite elem_of_cons. destruct (Z.eqb_spec (si_signo (pinfo (pn p))) n) as [<-|Hne].
  - split; [by left|by eexists].
  - rewrite IH. split; [by right|intros [?|?]; [congruence|done]].
Qed.

(** The lowest signal of [set] that is pending for the task, if there is one. *)
Definition lowest_pending (s : sig_state) (G : ghost) (set m : Z) : Prop :=
  good m /\ Z.testbit set m = true /\ is_Some (pendings s G m) /\
  forall j, good j -> Z.testbit set j = true -> is_Some (pendings s G j) -> m <= j.

Definition none_pending (s : sig_state) (G : ghost) (set : Z) : Prop := forall j, good j -> Z.testbit set j = true -> pendings s G j = None.

(** What the head of [sigtimedwait] finds. *)
Lemma intersection_spec s G set :
  sig_inv s G -> exists p, sig_pendingset s x = Some p /\
    ((Z.land set p = NULL_SIGNAL_SET /\ none_pending s G set) \/
     (Z.land set p <> NULL_SIGNAL_SET /\ lowest_pending s G set (sig_lowest (Z.land set p)))).
Proof.
  intros Hi. destruct (sig_pendingset_spec s G x (sv_lists _ _ Hi) (sv_pend _ _ Hi _)) as (p & Hrun & Hp & Hb). exists p. split; [done|].
  assert (Hin : forall j, Z.testbit (Z.land set p) j = Z.testbit set j && bool_decide (is_Some (pendings s G j))).
  { intros j. rewrite Z.land_spec, Hb. f_equal. apply bool_decide_ext. unfold pendings. symmetry. apply info_of_in. }
  assert (Hset : is_set (Z.land set p)).
  { apply set_of_bits; [apply Z.land_nonneg; right; apply Hp|]. intros k Hk. rewrite Z.land_spec, (set_bits p) by done. apply andb_false_r. }
  destruct (decide (Z.land set p = NULL_SIGNAL_SET)) as [E|E]; [left|right]; (split; [done|]).
  - intros j Hj Hs. specialize (Hin j). rewrite E, Hs in Hin. unfold NULL_SIGNAL_SET in Hin. rewrite Z.testbit_0_l in Hin. symmetry in Hin. simpl in Hin.
    apply bool_decide_eq_false in Hin. by apply eq_None_not_Some.
  - destruct (sig_lowest_spec _ Hset E) as (Hg & Hbit & Hlow). rewrite Hin in Hbit. apply andb_true_iff in Hbit as [Hs Hsome]. apply bool_decide_eq_true in Hsome.
    split; [done|]. split; [done|]. split; [done|]. intros j Hj Hsj Hpj. apply Hlow; [done|]. rewrite Hin, Hsj. by apply bool_decide_eq_true.
Qed.

(** [sigwaitinfo] takes the lowest pending signal of the set. *)
Lemma sigwaitinfo_takes s G n e set m :
  sig_inv s G -> at_task s n e -> 0 <= n < MAX_LOCK_COUNT -> lowest_pending s G set m ->
  exists s' G' info, sigwaitinfo s set = Some (s', Some (m, info)) /\ pendings s G m = Some info /\ at_task s' n e /\ sig_inv s' G' /\
    (forall j, pendings s' G' j = if j =? m then None else pendings s G j) /\ tsig s' = tsig s /\ calls s' = calls s /\
    (forall i, is_free i = false -> i <> pq s -> G' i = G i).
Proof.
  intros Hi Ha Hn (Hgm & Hbm & Hpm & Hlow). destruct (at_task_head _ _ _ _ _ _ Ha) as (Hh & _ & _). unfold sigwaitinfo. rewrite Hh.
  destruct (lock_served T idle x s G [] n e (owned_nil _ _ Hi) Ha ltac:(lia)) as (s1 & -> & Hs1 & C1 & _ & _ & T1). rewrite some_bind.
  pose proof (se_ran _ _ _ _ _ _ _ _ _ _ Hs1) as R1. pose proof (ow_inv _ _ _ (rn_owned _ _ _ _ _ _ R1)) as Hi1. assert (P1 : pends s1 = pends s) by apply R1.
  assert (Epend : forall j, pendings s1 G j = pendings s G j) by (intros j; unfold pendings; by rewrite P1, T1).
  destruct (intersection_spec s1 G set Hi1) as (p & -> & [[E Hno]|[E (Hg & Hb & Hp & Hl)]]); rewrite some_bind.
  { specialize (Hno m Hgm Hbm). rewrite Epend in Hno. rewrite Hno in Hpm. by destruct Hpm. }
  set (m' := sig_lowest (Z.land set p)) in *. assert (Em : m' = m).
  { apply Z.le_antisymm; [apply Hl; [done|done|by rewrite Epend]|apply Hlow; [done|done|by rewrite <- Epend]]. }
  destruct (Z.eqb_spec (Z.land set p) NULL_SIGNAL_SET) as [?|_]; [done|]. cbn [negb]. rewrite Em.
  destruct (sig_removependingsignal_spec s1 G x m (sv_lists _ _ Hi1) (sv_pend _ _ Hi1 _)) as [(Hno & _)|(s2 & l1 & q & l2 & EG & Hq & -> & Ho & Hl2 & Hq0 & _)].
  { destruct Hno. apply (info_of_in (pends s1)). by rewrite <- Em. }
  rewrite some_bind. destruct (Z.eqb_spec q 0) as [?|_]; [done|]. cbn [negb]. unfold assert. rewrite some_bind.
  pose proof (ran_take s1 G [] s2 (pq s1) l1 q l2 (rn_owned _ _ _ _ _ _ R1) EG ltac:(done) Ho Hl2) as R2. simpl in R2. rewrite T1 in *.
  destruct (release_signal s2 _ [] q (rn_owned _ _ _ _ _ _ R2)) as (s3 & G3 & -> & R3 & U3 & S3 & _). rewrite some_bind.
  assert (P3 : pends s3 = pends s) by (by rewrite (rn_pends _ _ _ _ _ _ R3), (rn_pends _ _ _ _ _ _ R2)).
  assert (Ha3 : at_task s3 (n + 1) e) by (unfold skn; rewrite (sr_sg _ _ S3), (ol_sg _ _ Ho); apply Hs1).
  destruct (unlock_served T idle x s3 G3 [] n e (rn_owned _ _ _ _ _ _ R3) Ha3 ltac:(lia)) as (s4 & -> & Hs4 & C4 & _ & _ & T4). rewrite some_bind.
  pose proof (se_ran _ _ _ _ _ _ _ _ _ _ Hs4) as R4. assert (P2 : pends s2 = pends s) by (rewrite (rn_pends _ _ _ _ _ _ R2); done).
  assert (T3 : tsig s3 = tsig s) by (rewrite (sr_tsig _ _ S3), (ol_tsig _ _ Ho); done). rewrite P3, P2. unfold num in Hq. rewrite P1 in Hq. rewrite Hq.
  pose proof (sv_pend _ _ Hi (group (tsig s x))) as [Hnd _]. rewrite EG in Hnd. exists s4, G3, (pinfo (pends s q)). split; [done|].
  unfold pendings. rewrite EG, T4, T3, (rn_pends _ _ _ _ _ _ R4), P3, U3, set_q_eq by done. split_and!.
  - rewrite info_of_middle, Hq, Z.eqb_refl by done. done.
  - apply Hs4.
  - apply R4.
  - intros j. rewrite (info_of_removed (pends s) l1 q l2 j) by done. by rewrite Hq.
  - done.
  - by rewrite C4, (sr_calls _ _ S3), (ol_calls _ _ Ho).
  - intros i Hf Hne. by rewrite U3, set_q_ne.
Qed.

(** It blocks if there is none. *)
Lemma sigwaitinfo_blocks s G n e set :
  sig_inv s G -> at_task s n e -> 0 <= n < MAX_LOCK_COUNT -> x <> idle -> none_pending s G set ->
  exists k' A', sigwaitinfo s set = Some (set_skn k' (set_waitmask x set s), None) /\ sched_ok T idle k' A' /\ x ∈ A' g_waitingforsignal /\
    state k' x = TSTATE_WAIT_SIG /\ sig_inv (set_skn k' (set_waitmask x set s)) G.
Proof.
  intros Hi Ha Hn Hid Hno. destruct (at_task_head _ _ _ _ _ _ Ha) as (Hh & _ & _). unfold sigwaitinfo. rewrite Hh.
  destruct (on_lock T idle x s n e Ha ltac:(lia)) as (k1 & -> & Ha1). rewrite some_bind. set (s1 := set_skn k1 s) in *.
  destruct (intersection_spec s1 G set (sig_inv_skn s G k1 Hi)) as (p & -> & [[E _]|[E (Hg & Hb & Hp & _)]]); rewrite some_bind.
  2: { specialize (Hno _ Hg Hb). change (pendings s1 G) with (pendings s G) in Hp. rewrite Hno in Hp. by destruct Hp. }
  rewrite E. change (negb (NULL_SIGNAL_SET =? NULL_SIGNAL_SET)) with false. cbv iota. destruct Ha1 as [(A & Hok & Hr & HpA) _ _ _].
  pose proof (ok_inv _ _ _ _ Hok) as Hinv. destruct (si_idle _ _ _ _ Hinv) as [l Hl]. assert (Hrt : exists l2, A g_readytorun = x :: l2).
  { unfold running in Hr. rewrite Hl in *. destruct l; simpl in *; subst; by eexists. }
  destruct Hrt as [l2 Hl2]. destruct (up_block_task_spec T idle (skn s1) A TSTATE_WAIT_SIG g_waitingforsignal [] x l2 Hok Hl2 Hid eq_refl) as (k' & Hrun & Hok' & _).
  assert (Hin : x ∈ block_tasks (skn s1) A x [] l2 g_waitingforsignal g_waitingforsignal).
  { unfold block_tasks, add_blocked. rewrite merge_all_other, set_tasks_eq by done. apply elem_of_app. right. by left. }
  eexists k', _. split; [unfold on_kernel; change (skn (set_waitmask x set s1)) with (skn s1); rewrite Hrun; done|]. split; [exact Hok'|]. split; [done|].
  split; [exact (si_state _ _ _ _ (ok_inv _ _ _ _ Hok') _ _ Hin)|]. apply sig_inv_skn.
  apply (ow_inv _ _ _ (rn_owned _ _ _ _ _ _ (ran_same s G [] (set_waitmask x set s) (owned_nil _ _ Hi) eq_refl eq_refl eq_refl eq_refl eq_refl eq_refl))).
Qed.

Lemma at_sig_errno s n e e' : at_task s n e -> at_task (sig_errno e' s) n e'.
Proof.
  intros Ha. destruct (at_task_head _ _ _ _ _ _ Ha) as (Hh & Hx & Hst). destruct Ha as [(A & Hok & Hr & Hp) Hirq Hl He].
  unfold sig_errno. change (skn (set_skn ?k s)) with k. assert (E : set_errno (skn s) e' = put_tcb x (set_pterrno e') (skn s)).
  { unfold set_errno, get_errno_ptr. rewrite Hh, Hirq. destruct (Z.eqb_spec x 0); [done|]. unfold state in Hst. by rewrite Hst. }
  constructor; rewrite E; [|done|unfold lock in *; by rewrite put_tcb_eq|by rewrite put_tcb_eq]. exists A. split; [by apply ok_put|done].
Qed.

(** What [sigtimedwait] returns when the task has been woken: the signal, or
    an error if it is not one of [set] or the time is over. *)
Lemma sigwait_resume_spec s n e set :
  let info := sigunbinfo (tsig s x) in
  at_task s (n + 1) e -> 0 <= n ->
  (good (si_signo info) -> Z.testbit set (si_signo info) = true ->
     exists s', sigwait_resume s set = Some (s', si_signo info, info) /\ at_task s' n e) /\
  (good (si_signo info) -> Z.testbit set (si_signo info) = false ->
     exists s', sigwait_resume s set = Some (s', ERROR, info) /\ at_task s' n EINTR) /\
  (si_signo info = SIG_WAIT_TIMEOUT -> exists s', sigwait_resume s set = Some (s', ERROR, info) /\ at_task s' n EAGAIN).
Proof.
  intros info Ha Hn. destruct (at_task_head _ _ _ _ _ _ Ha) as (Hh & _ & _). set (s1 := set_waitmask x NULL_SIGNAL_SET s).
  assert (Ha1 : at_task s1 (n + 1) e) by done. assert (Ei : sigunbinfo (tsig s1 x) = info) by (unfold s1, set_waitmask; simpl; by rewrite upd_eq).
  unfold sigwait_resume. rewrite Hh. cbv zeta. fold s1. rewrite Ei. split_and!.
  - intros Hg Hb. rewrite GOOD_SIGNO_good, is_in_testbit, Hb, some_bind by done. destruct (on_unlock T idle x s1 n e Ha1 Hn) as (k & -> & Hk). by eexists.
  - intros Hg Hb. rewrite GOOD_SIGNO_good, is_in_testbit, Hb, some_bind by done.
    destruct (on_unlock T idle x _ n EINTR (at_sig_errno s1 (n + 1) e EINTR Ha1) Hn) as (k & -> & Hk). by eexists.
  - intros ->. change (GOOD_SIGNO SIG_WAIT_TIMEOUT) with false. cbn [assert]. rewrite Z.eqb_refl. unfold assert. rewrite !some_bind.
    destruct (on_unlock T idle x _ n EAGAIN (at_sig_errno s1 (n + 1) e EAGAIN Ha1) Hn) as (k & -> & Hk). by eexists.
Qed.

(** ** sigaction *)

(** The list of actions of the task changes; the structure [p] is new. *)
Lemma lookup_act_ext a a' l n : (forall p, p ∈ l -> a' p = a p) -> lookup_act a' l n = lookup_act a l n.
Proof.
  intros H. induction l as [|p l IH]; [done|]. simpl. rewrite (H p) by (by left). rewrite IH; [done|]. intros q Hq. apply H. by right.
Qed.

Lemma lookup_act_none a l n : n ∉ map (fun p => signo (a p)) l -> lookup_act a l n = None.
Proof. induction l as [|p l IH]; [done|]. simpl. rewrite not_elem_of_cons. intros [Hn Hl]. destruct (Z.eqb_spec (signo (a p)) n); [congruence|by apply IH]. Qed.

Lemma lookup_act_app a l p n :
  lookup_act a (l ++ [p]) n = match lookup_act a l n with Some v => Some v | None => if signo (a p) =? n then Some (act (a p)) else None end.
Proof. induction l as [|q l IH]; [done|]. simpl. destruct (signo (a q) =? n); [done|apply IH]. Qed.

Lemma lookup_act_write a l p v n :
  NoDup (map (fun p => signo (a p)) l) -> p ∈ l -> signo v = signo (a p) ->
  lookup_act (upd a p v) l n = if n =? signo v then Some (act v) else lookup_act a l n.
Proof.
  induction l as [|q l IH]; [by intros _ ?%not_elem_of_nil|]. simpl. intros [Hq Hn]%NoDup_cons Hp Hv. destruct (decide (q = p)) as [->|Hne].
  - rewrite upd_eq, <- Hv, (Z.eqb_sym n). destruct (Z.eqb_spec (signo v) n); [done|]. apply lookup_act_ext. intros y Hy.
    apply upd_ne. intros ->. apply Hq. apply list_elem_of_fmap. by exists p.
  - rewrite upd_ne by done. apply elem_of_cons in Hp as [?|Hp]; [congruence|]. rewrite IH by done.
    destruct (Z.eqb_spec (signo (a q)) n) as [E|], (Z.eqb_spec n (signo v)) as [E'|]; try done.
    destruct Hq. rewrite E, E', Hv. apply list_elem_of_fmap. by exists p.
Qed.

Lemma lookup_act_remove a l1 p l2 n :
  NoDup (map (fun p => signo (a p)) (l1 ++ p :: l2)) ->
  lookup_act a (l1 ++ l2) n = if n =? signo (a p) then None else lookup_act a (l1 ++ p :: l2) n.
Proof.
  induction l1 as [|q l1 IH]; simpl; intros [Hq Hn]%NoDup_cons.
  - rewrite (Z.eqb_sym n). destruct (Z.eqb_spec (signo (a p)) n) as [<-|]; [by apply lookup_act_none|done].
  - rewrite IH by done. destruct (Z.eqb_spec (signo (a q)) n) as [E|]; [|done]. destruct (Z.eqb_spec n (signo (a p))) as [E'|]; [|done].
    destruct Hq. rewrite E, E', map_app. apply elem_of_app. right. by left.
Qed.

Definition no_action : sigaction_t := mk_sigaction 0 NULL_SIGNAL_SET 0.

(** The actions of the task after [sigaction] of [m]. *)
Definition acted (s : sig_state) (G : ghost) (m : Z) (new : option sigaction_t) (j : Z) : option sigaction_t :=
  match new with
  | Some a => if j =? m then (if sa_handler a =? 0 then None else Some a) else action_of s G x j
  | None => action_of s G x j
  end.

Record action_set (s : sig_state) (G : ghost) (m : Z) (new : option sigaction_t) (s' : sig_state) (G' : ghost) : Prop := {
  as_inv : sig_inv s' G';
  as_map j : action_of s' G' x j = acted s G m new j;
  as_kind i : kind_of i <> Act -> G' i = G i;
  as_free : (length (G g_sigfreeaction) <= S (length (G' g_sigfreeaction)))%nat;
  as_lists i : is_free i = false -> i <> sigactionq x -> G' i = G i;
  as_kernel : skn s' = skn s;
  as_tsig : tsig s' = tsig s;
  as_calls : calls s' = calls s;
  as_pends : pends s' = pends s
}.

(** The structure of an action goes back to the free list. *)
Lemma action_removed s G p l1 l2 a :
  sig_inv s G -> G (sigactionq x) = l1 ++ p :: l2 -> sa_handler a = 0 ->
  exists s1 s2 G2, rem (sigactionq x) p s = Some s1 /\ sig_releaseaction p s1 = Some s2 /\ action_set s G (signo (acts s p)) (Some a) s2 G2.
Proof.
  intros Hi E Ha. pose proof (sv_lists _ _ Hi) as Hl. destruct (removed_off s G _ l1 p l2 Hl E) as [H0 Hoff].
  assert (Hin : forall y, y ∈ l1 ++ l2 -> y ∈ G (sigactionq x)) by (intros y; rewrite E, !elem_of_app, elem_of_cons; tauto).
  assert (Hp : p ∈ G (sigactionq x)) by (rewrite E; apply elem_of_app; right; by left).
  pose proof (acts_length s G x Hi) as Hlen. rewrite E, length_app in Hlen. destruct (rem_spec s G _ l1 p l2 Hl E ltac:(lia)) as (s1 & Hr1 & Ho1 & Hl1).
  destruct (add_last_spec s1 _ g_sigfreeaction p Hl1 H0 Hoff) as (s2 & Hr2 & Ho2 & Hl2). rewrite (set_q_ne (sigactionq x)) in Hl2 by done.
  assert (Ho : only_lists s s2) by (by etransitivity).
  set (G2 := set_q g_sigfreeaction _ _) in *. exists s1, s2, G2. split; [done|]. split; [done|]. assert (EGx : G2 (sigactionq x) = l1 ++ l2) by (unfold G2; by rewrite set_q_ne, set_q_eq).
  assert (EGo : forall i, i <> sigactionq x -> i <> g_sigfreeaction -> G2 i = G i) by (intros i ? ?; unfold G2; by rewrite !set_q_ne).
  destruct (sv_acts _ _ Hi x) as [Hnd Hgd]. pose proof Hnd as Hnd'. unfold act_nums in Hnd, Hgd. rewrite E in Hnd, Hgd.
  constructor.
  - apply (sig_inv_actions s G); try done; try apply Ho.
    + intros i Hk. apply EGo; by intros ->.
    + intros i y Hk Hy Hh. destruct (sv_new _ _ Hi y Hh) as [_ Hyo]. destruct (decide (i = sigactionq x)) as [->|]; [rewrite EGx in Hy; by apply (Hyo (sigactionq x)), Hin|].
      destruct (decide (i = g_sigfreeaction)) as [->|]; [|rewrite EGo in Hy by done; by apply (Hyo i)].
      unfold G2 in Hy. rewrite set_q_eq, elem_of_app, list_elem_of_singleton in Hy. destruct Hy as [Hy| ->]; [by apply (Hyo g_sigfreeaction)|by apply (Hyo (sigactionq x))].
    + intros y. unfold act_nums. rewrite (ol_acts _ _ Ho). destruct (decide (y = x)) as [->|]; [|rewrite EGo by congruence; apply (sv_acts _ _ Hi)].
      rewrite EGx. rewrite !map_app in *. simpl in *. split; [by apply NoDup_remove' in Hnd as [? _]|]. apply Forall_app in Hgd as [? [_ ?]%Forall_cons]. by apply Forall_app.
    + intros y q. rewrite (ol_acts _ _ Ho). destruct (decide (y = x)) as [->|]; [|rewrite EGo by congruence; apply (sv_handler _ _ Hi)].
      rewrite EGx. intros Hq. by apply (sv_handler _ _ Hi x), Hin.
  - intros j. unfold action_of, acted. rewrite (ol_acts _ _ Ho), EGx, Ha, Z.eqb_refl. unfold action_of. rewrite E. by apply lookup_act_remove.
  - intros i Hk. apply EGo; by intros ->.
  - unfold G2. rewrite set_q_eq, length_app. simpl. lia.
  - intros i Hf Hi'. apply EGo; [done|by intros ->].
  - unfold skn. by rewrite (ol_sg _ _ Ho).
  - apply Ho.
  - apply Ho.
  - apply Ho.
Qed.

(** A structure in use gets a new action. *)
Lemma action_replaced s G p a :
  sig_inv s G -> p ∈ G (sigactionq x) -> sa_handler a <> 0 ->
  action_set s G (signo (acts s p)) (Some a) (set_act p (mk_sigactq a (signo (acts s p))) s) G.
Proof.
  intros Hi Hp Ha. set (v := mk_sigactq a (signo (acts s p))). assert (Es : forall y, signo (upd (acts s) p v y) = signo (acts s y)).
  { intros y. destruct (decide (y = p)) as [->|]; [by rewrite upd_eq|by rewrite upd_ne]. }
  constructor; try done.
  - apply (sig_inv_actions s G); try done; [apply (lists_same s); try done; apply Hi| | |].
    + intros i y _ Hy Hh. by apply (proj2 (sv_new _ _ Hi y Hh) i).
    + intros y. unfold act_nums. simpl. rewrite (map_ext _ _ Es). apply (sv_acts _ _ Hi).
    + intros y q Hq. simpl. destruct (decide (q = p)) as [->|]; [by rewrite upd_eq|rewrite upd_ne by done; by apply (sv_handler _ _ Hi y)].
  - intros j. unfold action_of, acted. simpl. rewrite lookup_act_write by (done || apply (sv_acts _ _ Hi)). simpl. destruct (Z.eqb_spec (sa_handler a) 0); [done|]. done.
  - lia.
Qed.

(** A new action for a signal that has none. *)
Lemma action_added s G p m a :
  sig_inv s G -> p <> 0 -> off G p -> p ∉ kheap s -> good m -> action_of s G x m = None -> sa_handler a <> 0 ->
  exists s1 G1, add_last (sigactionq x) p (set_act p (mk_sigactq (act (acts s p)) (u8 m)) s) = Some s1 /\
    action_set s G m (Some a) (set_act p (mk_sigactq a (signo (acts s1 p))) s1) G1 /\ G1 g_sigfreeaction = G g_sigfreeaction.
Proof.
  intros Hi H0 Hoff Hh Hg Hno Ha. assert (Em : u8 m = m) by (unfold u8; apply Z.mod_small; unfold good in Hg; lia). rewrite Em.
  set (s0 := set_act p _ s). assert (Hl0 : lists_ok s0 G) by (apply (lists_same s); try done; apply Hi).
  destruct (add_last_spec s0 G (sigactionq x) p Hl0 H0 Hoff) as (s1 & Hrun & Ho & Hl1). set (G1 := set_q _ _ G) in *. exists s1, G1. split; [done|].
  assert (Ep : signo (acts s1 p) = m) by (rewrite (ol_acts _ _ Ho); simpl; by rewrite upd_eq). rewrite Ep. set (v := mk_sigactq a m). set (s2 := set_act p v s1).
  assert (Ea : forall i y, y ∈ G i -> acts s2 y = acts s y).
  { intros i y Hy. assert (y <> p) by (intros ->; by apply (Hoff i)). simpl. rewrite upd_ne, (ol_acts _ _ Ho) by done. simpl. by rewrite upd_ne. }
  assert (Ev : acts s2 p = v) by (simpl; by rewrite upd_eq).
  assert (EGo : forall i, i <> sigactionq x -> G1 i = G i) by (intros i Hne; unfold G1; by rewrite set_q_ne).
  assert (EGx : G1 (sigactionq x) = G (sigactionq x) ++ [p]) by apply set_q_eq.
  assert (En : forall y, act_nums s2 (G (sigactionq y)) = act_nums s (G (sigactionq y))).
  { intros y. apply map_ext_in. intros q Hq. apply list_elem_of_In in Hq. by rewrite (Ea _ _ Hq). }
  assert (Hm : m ∉ act_nums s (G (sigactionq x))).
  { intros (q & Eq & Hq)%list_elem_of_fmap. unfold action_of in Hno. revert Hno. clear -Eq Hq. induction (G (sigactionq x)) as [|r l IH]; [by apply not_elem_of_nil in Hq|]. simpl.
    destruct (Z.eqb_spec (signo (acts s r)) m); [done|]. apply elem_of_cons in Hq as [->|Hq]; [congruence|by apply IH]. }
  split; [|by apply EGo]. constructor.
  - apply (sig_inv_actions s G); try done; try apply Ho; [by apply (lists_same s1)|by intros i Hk; apply EGo; intros ->| | |].
    + intros i y _ Hy Hk. destruct (sv_new _ _ Hi y Hk) as [_ Hyo]. destruct (decide (i = sigactionq x)) as [->|]; [|rewrite EGo in Hy by done; by apply (Hyo i)].
      rewrite EGx, elem_of_app, list_elem_of_singleton in Hy. destruct Hy as [Hy| ->]; [by apply (Hyo (sigactionq x))|done].
    + intros y. destruct (decide (y = x)) as [->|]; [|rewrite EGo, En by congruence; apply (sv_acts _ _ Hi)]. rewrite EGx. unfold act_nums. rewrite map_app.
      fold (act_nums s2 (G (sigactionq x))). rewrite En. cbn [map]. rewrite Ev. destruct (sv_acts _ _ Hi x) as [Hnd Hgd]. split; [|apply Forall_app; split; [done|by constructor]].
      apply NoDup_app. split; [done|]. split; [|apply NoDup_singleton]. intros z Hz Hz'. apply list_elem_of_singleton in Hz' as ->. done.
    + intros y q. destruct (decide (y = x)) as [->|]; [|rewrite EGo by congruence; intros Hq; rewrite (Ea _ _ Hq); by apply (sv_handler _ _ Hi y)].
      rewrite EGx, elem_of_app, list_elem_of_singleton. intros [Hq| ->]; [rewrite (Ea _ _ Hq); by apply (sv_handler _ _ Hi x)|by rewrite Ev].
  - intros j. unfold action_of, acted. rewrite EGx, lookup_act_app, (lookup_act_ext (acts s)) by (intros q Hq; by apply (Ea (sigactionq x))). rewrite Ev.
    destruct (Z.eqb_spec (sa_handler a) 0); [done|]. simpl. rewrite (Z.eqb_sym j). unfold action_of in *. destruct (Z.eqb_spec m j) as [<-|]; [by rewrite Hno|by destruct (lookup_act _ _ j)].
  - intros i Hk. apply EGo. by intros ->.
  - rewrite EGo by done. lia.
  - intros i Hf Hne. by apply EGo.
  - change (skn s2) with (skn s1). unfold skn. by rewrite (ol_sg _ _ Ho).
  - apply Ho.
  - apply Ho.
  - apply Ho.
Qed.

Lemma sigaction_bad s m new : GOOD_SIGNO m = false -> sigaction s m new = Some (sig_errno EINVAL s, ERROR, None).
Proof. intros H. unfold sigaction. by rewrite H. Qed.

(** The action of a signal becomes the new one, and the old one is returned. *)
Lemma sigaction_spec s G n e m new :
  sig_inv s G -> at_task s n e -> 0 <= n < MAX_LOCK_COUNT -> good m ->
  (action_of s G x m = None -> action_room s G) ->
  exists k s' G', sigaction s m new = Some (s', OK, Some (default no_action (action_of s G x m))) /\ at_task s' n e /\
    action_set (set_skn k s) G m new s' G'.
Proof.
  intros Hi Ha Hn Hg Hroom. destruct (at_task_head _ _ _ _ _ _ Ha) as (Hh & Hx & _). unfold sigaction. rewrite GOOD_SIGNO_good by done. cbn [negb]. rewrite Hh.
  destruct (sig_findaction_spec T idle x s G n e x m Hi Ha Hn Hx) as (k & p & -> & Ha1 & Hc). rewrite some_bind. set (s1 := set_skn k s) in *.
  pose proof (sig_inv_skn s G k Hi) as Hi1. fold s1 in Hi1. change (acts s) with (acts s1) in Hc. change (action_of s G x m) with (action_of s1 G x m) in *.
  assert (Hroom1 : action_of s1 G x m = None -> action_room s1 G) by exact Hroom. clear Hroom. exists k. fold s1.
  assert (Hset : forall s' G' a, action_set s1 G m new s' G' -> Some (s', OK, Some a) = Some (s', OK, Some (default no_action (action_of s1 G x m))) ->
    exists s'' G'', Some (s', OK, Some a) = Some (s'', OK, Some (default no_action (action_of s1 G x m))) /\ at_task s'' n e /\ action_set s1 G m new s'' G'').
  { intros s' G' a Hs E. exists s', G'. split; [done|]. split; [|done]. rewrite (as_kernel _ _ _ _ _ _ Hs). exact Ha1. }
  destruct Hc as [[-> Hno]|(Hp & Hsome & Hsm)].
  - change (negb (0 =? 0)) with false. change (0 =? 0) with true. cbv iota. destruct new as [a|]; [destruct (Z.eqb_spec (sa_handler a) 0) as [Ea|Ea]|].
    + rewrite some_bind. apply (Hset s1 G); [|by rewrite Hno]. constructor; (done || lia || idtac). intros j. unfold acted. destruct (Z.eqb_spec j m) as [->|]; [|done]. by rewrite Hno, Ea.
    + destruct (alloc_action_struct s1 G Hi1 (Hroom1 Hno)) as (s2 & G2 & p & -> & Hi2 & Hp0 & Hoff & Hnew & Hu & Hr & Hki & Hfr & Eac & Epe & _). rewrite some_bind.
      destruct (Z.eqb_spec p 0) as [?|_]; [done|]. assert (Ea2 : forall j, action_of s2 G2 x j = action_of s1 G x j) by (intros j; unfold action_of; by rewrite Eac, Hu).
      destruct (action_added s2 G2 p m a Hi2 Hp0 Hoff Hnew Hg ltac:(by rewrite Ea2) Ea) as (s3 & G3 & -> & [S1 S2 S8 S9 S3 S4 S5 S6 S7] & EF). rewrite !some_bind. destruct (Z.eqb_spec p 0) as [?|_]; [done|].
      apply (Hset _ G3); [|by rewrite Hno]. constructor; try done.
      * intros j. rewrite S2. unfold acted. by rewrite Ea2.
      * intros i Hk'. by rewrite S8, Hki.
      * by rewrite EF.
      * intros i Hf Hne. rewrite S3, Hu; done.
      * unfold skn in *. by rewrite S4, (sr_sg _ _ Hr).
      * by rewrite S5, (sr_tsig _ _ Hr).
      * by rewrite S6, (sr_calls _ _ Hr).
      * by rewrite S7, Epe.
    + apply (Hset s1 G); [|by rewrite Hno]. constructor; (done || lia).
  - assert (Hp0 : p <> 0) by (intros E0; rewrite E0 in Hp; by apply (sq_null _ _ _ (lo_rep _ _ (sv_lists _ _ Hi1) (sigactionq x)))).
    destruct (Z.eqb_spec p 0) as [?|_]; [done|]. cbn [negb]. cbv iota. destruct new as [a|]; [destruct (Z.eqb_spec (sa_handler a) 0) as [Ea|Ea]|].
    + apply list_elem_of_split in Hp as (l1 & l2 & El). destruct (action_removed s1 G p l1 l2 a Hi1 El Ea) as (s2 & s3 & G3 & -> & H3 & Hs). rewrite some_bind, H3, some_bind.
      rewrite Hsm in Hs. apply (Hset s3 G3); [done|]. by rewrite Hsome.
    + rewrite some_bind. destruct (Z.eqb_spec p 0) as [?|_]; [done|]. pose proof (action_replaced s1 G p a Hi1 Hp Ea) as Hs. rewrite Hsm in *. apply (Hset _ G); [done|by rewrite Hsome].
    + apply (Hset s1 G); [|by rewrite Hsome]. constructor; (done || lia).
Qed.
End calls.

(** * Signals: initialisation

    [sig_initialize] establishes the invariant of the structures. *)

(** What a call that fills list [i] with the structures [B] does, where [U] are
    the structures on lists before. *)
Record filled (s : sig_state) (G : ghost) (U : list Z) (i : qid) (B h : list Z) (s' : sig_state) (G' : ghost) : Prop := {
  fl_lists : lists_ok s' G';
  fl_new : G' i = B;
  fl_old j : j <> i -> G' j = G j;
  fl_used j y : y ∈ G' j -> y ∈ U ++ B;
  fl_heap : kheap s' = h;
  fl_acts : acts s' = acts s;
  fl_rest : same_rest s s';
  fl_pends y : y ∉ B -> pends s' y = pends s y;
  fl_sigqs y : y ∉ B -> sigqs s' y = sigqs s y
}.

(** A change of the contents of structures of [B] only. *)
Record writes (B : list Z) (s s' : sig_state) : Prop := {
  wr_sg : sg s' = sg s;
  wr_mqs : mqs s' = mqs s;
  wr_acts : acts s' = acts s;
  wr_tsig : tsig s' = tsig s;
  wr_heap : kheap s' = kheap s;
  wr_calls : calls s' = calls s;
  wr_pends y : y ∉ B -> pends s' y = pends s y;
  wr_sigqs y : y ∉ B -> sigqs s' y = sigqs s y
}.

Lemma writes_fold mark B l s :
  (forall p s, p ∈ B -> writes B s (mark p s)) -> (forall p, p ∈ l -> p ∈ B) -> writes B s (foldl (fun s p => mark p s) s l).
Proof.
  intros Hm. revert s. induction l as [|p l IH]; intros s Hl; [by constructor|]. simpl.
  destruct (IH (mark p s)) as [A1 A2 A3 A4 A5 A6 A7 A8]; [intros q Hq; apply Hl; by right|]. destruct (Hm p s (Hl p ltac:(by left))) as [D1 D2 D3 D4 D5 D6 D7 D8].
  constructor; try congruence; intros y Hy; [rewrite A7, D7|rewrite A8, D8]; done.
Qed.

Section fill.
Context (mark : Z -> sig_state -> sig_state).
Hypothesis mark_lists : forall p s, slinks (mark p s) = slinks s /\ qs (mark p s) = qs s.
Hypothesis mark_only : forall p s s', only_lists s s' -> only_lists (mark p s) (mark p s').
Hypothesis mark_writes : forall B p s, p ∈ B -> writes B s (mark p s).

Lemma fill_spec n i size b s G U h :
  let B := block n size b in
  lists_ok s G -> G i = [] -> (forall j y, y ∈ G j -> y ∈ U) -> NoDup (U ++ B) -> 0 ∉ B -> kheap s = b :: h ->
  exists s', add_block n i size b mark (set_kheap h s) = Some s' /\ only_lists (foldl (fun s p => mark p s) (set_kheap h s) B) s' /\
    exists G', filled s G U i B h s' G'.
Proof.
  intros B Hl Hi HU Hnd H0 Hh. apply NoDup_app in Hnd as (_ & HUB & Hnd).
  destruct (add_block_spec mark mark_lists mark_only n i size b (set_kheap h s) G (lists_same s (set_kheap h s) G eq_refl eq_refl Hl) Hnd) as (s' & G' & Hrun & Ho & Hl' & HG).
  { intros y Hy. split; [by intros ->|]. intros j Hj. by apply (HUB y (HU j y Hj)). }
  exists s'. split; [done|]. split; [done|]. exists G'. fold B in Ho, HG.
  destruct (writes_fold mark B B (set_kheap h s) (mark_writes B) ltac:(done)) as [A1 A2 A3 A4 A5 A6 A7 A8]. constructor; try done.
  - by rewrite HG, set_q_eq, Hi.
  - intros j Hj. by rewrite HG, set_q_ne.
  - intros j y. rewrite HG. unfold set_q. rewrite elem_of_app. destruct (decide (j = i)) as [->|]; [rewrite Hi; by right|left; by apply (HU j)].
  - by rewrite (ol_kheap _ _ Ho), A5.
  - by rewrite (ol_acts _ _ Ho), A3.
  - destruct Ho. constructor; simpl in *; congruence.
  - intros y Hy. by rewrite (ol_pends _ _ Ho), A7.
  - intros y Hy. by rewrite (ol_sigqs _ _ Ho), A8.
Qed.
End fill.

(** The structures for handlers, for pending signals, and for actions. *)
Definition mark_sigq (type : sigalloc_e) (p : Z) (s : sig_state) : sig_state :=
  let v := sigqs s p in set_sigq p (mk_sigq (sighandler v) (qmask v) (qinfo v) type) s.
Definition mark_pend (type : sigalloc_e) (p : Z) (s : sig_state) : sig_state := set_sigpend p (mk_sigpendq (pinfo (pends s p)) type) s.

Lemma mark_sigq_only type p s s' : only_lists s s' -> only_lists (mark_sigq type p s) (mark_sigq type p s').
Proof. intros []. constructor; simpl; congruence. Qed.

Lemma mark_pend_only type p s s' : only_lists s s' -> only_lists (mark_pend type p s) (mark_pend type p s').
Proof. intros []. constructor; simpl; congruence. Qed.

Lemma mark_sigq_writes type B p s : p ∈ B -> writes B s (mark_sigq type p s).
Proof. intros Hp. constructor; try done. intros y Hy. simpl. apply upd_ne. by intros ->. Qed.

Lemma mark_pend_writes type B p s : p ∈ B -> writes B s (mark_pend type p s).
Proof. intros Hp. constructor; try done. intros y Hy. simpl. apply upd_ne. by intros ->. Qed.

Lemma mark_sigq_type type l s y : y ∈ l \/ qtype (sigqs s y) = type -> qtype (sigqs (foldl (fun s p => mark_sigq type p s) s l) y) = type.
Proof.
  revert s. induction l as [|p l IH]; intros s Hy; [by destruct Hy as [?%not_elem_of_nil|]|]. simpl. apply IH. simpl.
  destruct (decide (y = p)) as [->|]; [right; by rewrite upd_eq|]. rewrite upd_ne by done. destruct Hy as [[?|?]%elem_of_cons|?]; auto. done.
Qed.

Lemma mark_pend_type type l s y : y ∈ l \/ ptype (pends s y) = type -> ptype (pends (foldl (fun s p => mark_pend type p s) s l) y) = type.
Proof.
  revert s. induction l as [|p l IH]; intros s Hy; [by destruct Hy as [?%not_elem_of_nil|]|]. simpl. apply IH. simpl.
  destruct (decide (y = p)) as [->|]; [right; by rewrite upd_eq|]. rewrite upd_ne by done. destruct Hy as [[?|?]%elem_of_cons|?]; auto. done.
Qed.

Section blocks.
Context (s : sig_state) (G : ghost) (U h : list Z) (b : Z) (i : qid) (n : Z).
Hypothesis lists : lists_ok s G.
Hypothesis empty : G i = [].
Hypothesis used : forall j y, y ∈ G j -> y ∈ U.
Hypothesis heap : kheap s = b :: h.

Lemma sigq_block type :
  let B := block (Z.to_nat n) SIZEOF_SIGQ b in
  NoDup (U ++ B) -> 0 ∉ B ->
  exists s' G', sig_allocateblock i n type s = Some (s', b) /\ filled s G U i B h s' G' /\ forall y, y ∈ B -> qtype (sigqs s' y) = type.
Proof.
  intros B Hnd H0. destruct (fill_spec (mark_sigq type) ltac:(done) (mark_sigq_only type) (mark_sigq_writes type) (Z.to_nat n) i SIZEOF_SIGQ b s G U h lists empty used Hnd H0 heap)
    as (s' & Hrun & Ho & G' & Hf). exists s', G'. unfold sig_allocateblock, malloc. rewrite heap. unfold mark_sigq in Hrun. rewrite Hrun. split; [done|]. split; [done|].
  intros y Hy. rewrite (ol_sigqs _ _ Ho). apply mark_sigq_type. by left.
Qed.

Lemma pend_block type :
  let B := block (Z.to_nat n) SIZEOF_SIGPENDQ b in
  NoDup (U ++ B) -> 0 ∉ B ->
  exists s' G', sig_allocatependingsignalblock i n type s = Some (s', b) /\ filled s G U i B h s' G' /\ forall y, y ∈ B -> ptype (pends s' y) = type.
Proof.
  intros B Hnd H0. destruct (fill_spec (mark_pend type) ltac:(done) (mark_pend_only type) (mark_pend_writes type) (Z.to_nat n) i SIZEOF_SIGPENDQ b s G U h lists empty used Hnd H0 heap)
    as (s' & Hrun & Ho & G' & Hf). exists s', G'. unfold sig_allocatependingsignalblock, malloc. rewrite heap. unfold mark_pend in Hrun. rewrite Hrun. split; [done|]. split; [done|].
  intros y Hy. rewrite (ol_pends _ _ Ho). apply mark_pend_type. by left.
Qed.
End blocks.

Lemma act_block s G U h b :
  let B := block 16 SIZEOF_SIGACTQ b in
  lists_ok s G -> G g_sigfreeaction = [] -> (forall j y, y ∈ G j -> y ∈ U) -> kheap s = b :: h -> NoDup (U ++ B) -> 0 ∉ B ->
  exists s' G', sig_allocateactionblock s = Some s' /\ filled s G U g_sigfreeaction B h s' G'.
Proof.
  intros B Hl He HU Hh Hnd H0. destruct (fill_spec (fun _ s => s) ltac:(done) ltac:(done) ltac:(by constructor) 16 g_sigfreeaction SIZEOF_SIGACTQ b s G U h Hl He HU Hnd H0 Hh)
    as (s' & Hrun & _ & G' & Hf). exists s', G'. unfold sig_allocateactionblock, malloc. by rewrite Hh.
Qed.

Lemma init_lists_ok s :
  (forall i, is_free i = false -> qs s i = empty_queue) ->
  lists_ok (init_list g_sigpendingirqsignal (init_list g_sigpendingsignal (init_list g_sigpendingirqaction (init_list g_sigpendingaction (init_list g_sigfreeaction s)))))
    (fun _ => []).
Proof.
  intros H. constructor; [|intros i j p Hp; by apply not_elem_of_nil in Hp]. intros i. simpl.
  destruct i; simpl; try apply sq_rep_empty; rewrite H by done; apply sq_rep_empty.
Qed.

(** The free lists after initialisation. *)
Definition init_ghost (b1 b2 b3 b4 b5 : Z) : ghost := fun i =>
  match i with
  | g_sigpendingaction => block 16 SIZEOF_SIGQ b1
  | g_sigpendingirqaction => block 8 SIZEOF_SIGQ b2
  | g_sigfreeaction => block 16 SIZEOF_SIGACTQ b3
  | g_sigpendingsignal => block 16 SIZEOF_SIGPENDQ b4
  | g_sigpendingirqsignal => block 8 SIZEOF_SIGPENDQ b5
  | _ => []
  end.

(** All structures that [sig_initialize] makes. *)
Definition init_structs (b1 b2 b3 b4 b5 : Z) : list Z :=
  block 16 SIZEOF_SIGQ b1 ++ block 8 SIZEOF_SIGQ b2 ++ block 16 SIZEOF_SIGACTQ b3 ++ block 16 SIZEOF_SIGPENDQ b4 ++ block 8 SIZEOF_SIGPENDQ b5.

(** The invariant when no list but the free ones is in use. *)
Lemma sig_inv_fresh s G :
  lists_ok s G -> (forall i, is_free i = false -> G i = []) -> NoDup (kheap s) -> (forall p, p ∈ kheap s -> p <> 0 /\ off G p) ->
  (forall i p, p ∈ G i -> type_ok s i p) -> sig_inv s G.
Proof.
  intros Hl He Hn Hnew Ht. constructor; try done.
  - intros p. apply (Ht g_sigpendingsignal).
  - intros p. apply (Ht g_sigpendingirqsignal).
  - intros p. apply (Ht g_sigpendingaction).
  - intros p. apply (Ht g_sigpendingirqaction).
  - intros g. unfold pending_ok. rewrite He by done. split; constructor.
  - intros y. rewrite He by done. split; constructor.
  - intros y p. rewrite He by done. by intros ?%not_elem_of_nil.
Qed.

Lemma sig_initialize_spec s b1 b2 b3 b4 b5 h :
  kheap s = b1 :: b2 :: b3 :: b4 :: b5 :: h -> NoDup (init_structs b1 b2 b3 b4 b5 ++ h) -> 0 ∉ init_structs b1 b2 b3 b4 b5 ++ h ->
  (forall i, is_free i = false -> qs s i = empty_queue) ->
  exists s', sig_initialize s = Some s' /\ sig_inv s' (init_ghost b1 b2 b3 b4 b5) /\ same_rest s s' /\ kheap s' = h.
Proof.
  intros Hh Hnd H0 Hq. unfold init_structs in *. rewrite !app_assoc in Hnd. rewrite !not_elem_of_app in H0. destruct H0 as [(Z1 & Z2 & Z3 & Z4 & Z5) Zh].
  pose proof (init_lists_ok s Hq) as Hl0. set (s0 := init_list g_sigpendingirqsignal _) in Hl0.
  pose proof Hnd as (N5 & D5 & Nh)%NoDup_app. pose proof N5 as (N4 & D4 & _)%NoDup_app. pose proof N4 as (N3 & D3 & _)%NoDup_app. pose proof N3 as (N2 & D2 & _)%NoDup_app.
  pose proof N2 as (N1 & D1 & _)%NoDup_app.
  unfold sig_initialize. fold s0.
  destruct (sigq_block s0 _ [] (b2 :: b3 :: b4 :: b5 :: h) b1 g_sigpendingaction NUM_PENDING_ACTIONS Hl0 eq_refl ltac:(done) Hh SIG_ALLOC_FIXED N1 Z1) as (s1 & G1 & E1 & F1 & T1).
  destruct (sigq_block s1 G1 _ (b3 :: b4 :: b5 :: h) b2 g_sigpendingirqaction NUM_PENDING_INT_ACTIONS (fl_lists _ _ _ _ _ _ _ _ F1) ltac:(by rewrite (fl_old _ _ _ _ _ _ _ _ F1))
    (fl_used _ _ _ _ _ _ _ _ F1) (fl_heap _ _ _ _ _ _ _ _ F1) SIG_ALLOC_IRQ N2 Z2) as (s2 & G2 & E2 & F2 & T2).
  destruct (act_block s2 G2 _ (b4 :: b5 :: h) b3 (fl_lists _ _ _ _ _ _ _ _ F2) ltac:(by rewrite (fl_old _ _ _ _ _ _ _ _ F2), (fl_old _ _ _ _ _ _ _ _ F1))
    (fl_used _ _ _ _ _ _ _ _ F2) (fl_heap _ _ _ _ _ _ _ _ F2) N3 Z3) as (s3 & G3 & E3 & F3).
  destruct (pend_block s3 G3 _ (b5 :: h) b4 g_sigpendingsignal NUM_SIGNALS_PENDING (fl_lists _ _ _ _ _ _ _ _ F3)
    ltac:(by rewrite (fl_old _ _ _ _ _ _ _ _ F3), (fl_old _ _ _ _ _ _ _ _ F2), (fl_old _ _ _ _ _ _ _ _ F1))
    (fl_used _ _ _ _ _ _ _ _ F3) (fl_heap _ _ _ _ _ _ _ _ F3) SIG_ALLOC_FIXED N4 Z4) as (s4 & G4 & E4 & F4 & T4).
  destruct (pend_block s4 G4 _ h b5 g_sigpendingirqsignal NUM_INT_SIGNALS_PENDING (fl_lists _ _ _ _ _ _ _ _ F4)
    ltac:(by rewrite (fl_old _ _ _ _ _ _ _ _ F4), (fl_old _ _ _ _ _ _ _ _ F3), (fl_old _ _ _ _ _ _ _ _ F2), (fl_old _ _ _ _ _ _ _ _ F1))
    (fl_used _ _ _ _ _ _ _ _ F4) (fl_heap _ _ _ _ _ _ _ _ F4) SIG_ALLOC_IRQ N5 Z5) as (s5 & G5 & E5 & F5 & T5).
  exists s5. split; [by rewrite E1, some_bind, E2, some_bind, E3, some_bind, E4, some_bind, E5|].
  assert (EG : forall i, init_ghost b1 b2 b3 b4 b5 i = G5 i).
  { intros i. destruct i; cbn [init_ghost]; symmetry;
      repeat first [apply F5|apply F4|apply F3|apply F2|apply F1|rewrite (fl_old _ _ _ _ _ _ _ _ F5) by done|rewrite (fl_old _ _ _ _ _ _ _ _ F4) by done
        |rewrite (fl_old _ _ _ _ _ _ _ _ F3) by done|rewrite (fl_old _ _ _ _ _ _ _ _ F2) by done|rewrite (fl_old _ _ _ _ _ _ _ _ F1) by done]; done. }
  assert (Hr : same_rest s s5).
  { destruct (fl_rest _ _ _ _ _ _ _ _ F1), (fl_rest _ _ _ _ _ _ _ _ F2), (fl_rest _ _ _ _ _ _ _ _ F3), (fl_rest _ _ _ _ _ _ _ _ F4), (fl_rest _ _ _ _ _ _ _ _ F5).
    constructor; simpl in *; congruence. }
  split; [|split; [done|apply F5]]. apply sig_inv_fresh.
  - apply (lists_ext _ G5); [done|apply F5].
  - by intros [].
  - by rewrite (fl_heap _ _ _ _ _ _ _ _ F5).
  - intros p. rewrite (fl_heap _ _ _ _ _ _ _ _ F5). intros Hp. split; [by intros ->|]. intros i Hi. rewrite EG in Hi. apply (fl_used _ _ _ _ _ _ _ _ F5) in Hi.
    by apply (D5 p).
  - intros i p Hp. destruct i; cbn [init_ghost type_ok] in *; try done.
    + rewrite (fl_sigqs _ _ _ _ _ _ _ _ F5), (fl_sigqs _ _ _ _ _ _ _ _ F4), (fl_sigqs _ _ _ _ _ _ _ _ F3), (fl_sigqs _ _ _ _ _ _ _ _ F2); [by apply T1|..].
      * by apply D1.
      * apply D2, elem_of_app. by left.
      * apply D3. rewrite !elem_of_app. by auto.
      * apply D4. rewrite !elem_of_app. by auto.
    + rewrite (fl_sigqs _ _ _ _ _ _ _ _ F5), (fl_sigqs _ _ _ _ _ _ _ _ F4), (fl_sigqs _ _ _ _ _ _ _ _ F3); [by apply T2|..].
      * apply D2, elem_of_app. by right.
      * apply D3. rewrite !elem_of_app. by auto.
      * apply D4. rewrite !elem_of_app. by auto.
    + rewrite (fl_pends _ _ _ _ _ _ _ _ F5); [by apply T4|]. apply D4. rewrite !elem_of_app. by auto.
    + by apply T5.
Qed.
