(* ===== verification/SignalTheorems.v ===== *)
(** * Signals: theorems

    What the calls promise, examples that meet the hypotheses of the theorems,
    and a run in which delivery goes wrong. *)

From stdpp Require Import base tactics numbers sets list.
From S2P Require Import Prelude Queue QueueProps Sched SchedProps SchedOps SchedKernel SchedPriority SchedTheorems.
From S2P Require Import Sem SemSystem SemTheorems Mqueue SemTimed Signal SignalLists SignalDeliver SignalCalls.

(** ** Masks *)

(** The mask that [sigprocmask] sets. *)
Definition new_mask (how old set : Z) : option Z :=
  if how =? SIG_BLOCK then Some (Z.lor old set)
  else if how =? SIG_UNBLOCK then Some (Z.land old (set_not set))
  else if how =? SIG_SETMASK then Some set
  else None.

(** The call of a handler that signal [n] is due when it is not in [mask]. *)
Definition due_call (s : sig_state) (G : ghost) (x mask n : Z) : option (Z * siginfo) :=
  if Z.testbit mask n then None
  else i ← pendings x s G n; a ← action_of s G x n; Some (sa_handler a, i).

Lemma held_info m pn l n : info_of pn (held m pn l) n = if Z.testbit m n then info_of pn l n else None.
Proof.
  induction l as [|p l IH]; [by destruct (Z.testbit m n)|]. unfold held in *. rewrite filter_cons.
  destruct (decide (Z.testbit m (si_signo (pinfo (pn p))) = true)) as [E|E]; simpl; rewrite IH; destruct (Z.eqb_spec (si_signo (pinfo (pn p))) n) as [<-|]; try done.
  - by rewrite E.
  - apply not_true_is_false in E. by rewrite E.
Qed.

(** C13: [sigprocmask] unmasks signals.  Let the handlers of the calling task
    satisfy [handlers_ok]: they return with the task running and preemption
    locked as before, and send no signals, take no pending ones and set no
    actions, whatever else they do ([sig_deliver_repeats] shows what happens
    otherwise).  Let no actions be queued for the task, and let there be
    enough structures and locks in reserve.  Then [sigprocmask] sets the mask,
    and every signal that is pending and no longer masked goes to its handler
    at once, exactly once, in the order of the signal numbers, also where the
    delivery of one is nested in that of another.  The masked signals stay
    pending, preemption and the error number are as before, and no structure
    is lost. *)
Theorem sigprocmask_delivers T idle x handler s G n e how set mask :
  handlers_ok T idle x handler -> sig_inv s G -> at_task T idle (skn s) x n e -> 0 <= n -> n + 68 <= MAX_LOCK_COUNT ->
  sigdeliver (tsig s x) = false -> G (sigpendactionq x) = [] -> (length (G (sigpostedq x)) <= 30)%nat ->
  new_mask how (sigprocmask_ (tsig s x)) set = Some mask ->
  (length (opens mask (pends s) (G (sigpendingq (group (tsig s x))))) <= avail s G)%nat ->
  exists s' G', sigprocmask handler s how (Some set) = Some (s', OK, sigprocmask_ (tsig s x)) /\ sigprocmask_ (tsig s' x) = mask /\
    calls s' = calls s ++ omap (due_call s G x mask) (seqZ 0 32) /\
    (forall j, pendings x s' G' j = if Z.testbit mask j then pendings x s G j else None) /\
    at_task T idle (skn s') x n e /\ sig_inv s' G' /\ forall k p, has G [] k p -> has G' [] k p \/ dyn s k p.
Proof.
  intros Hhandler Hi Ha Hn Hlk Hsd Hq Hpo Hmask Hav. destruct (at_task_head _ _ _ _ _ _ Ha) as (Hh & _ & _).
  destruct (procmask_spec T idle x handler Hhandler s G _ n e mask (owned_nil _ _ Hi) Ha Hn Hlk Hsd Hq Hpo eq_refl Hav) as (s1 & s2 & s3 & G3 & H1 & T1 & H2 & H3 & R3 & A3 & T3 & C3 & K3 & L3).
  assert (Tx : tsig s3 x = mk_tsig mask (sigwaitmask (tsig s x)) (sigunbinfo (tsig s x)) (sigdeliver (tsig s x)) (group (tsig s x))).
  { rewrite T3. unfold set_mask. simpl. by rewrite upd_eq. }
  assert (EC : calls s3 = calls s ++ omap (due_call s G x mask) (seqZ 0 32)).
  { rewrite C3, deliveries_due. apply (f_equal (fun f => calls s ++ omap f (seqZ 0 32))). reflexivity. }
  exists s3, G3. split; [|split; [by rewrite Tx|split; [exact EC|split; [|split; [exact A3|split; [exact (ow_inv _ _ _ (rn_owned _ _ _ _ _ _ R3))|exact (rn_kept _ _ _ _ _ _ R3)]]]]]].
  - unfold sigprocmask. rewrite Hh, H1, some_bind, T1. unfold new_mask in Hmask.
    destruct (how =? SIG_BLOCK); [|destruct (how =? SIG_UNBLOCK); [|destruct (how =? SIG_SETMASK); [|done]]]; injection Hmask as Hmask; rewrite Hmask, H2, some_bind, H3; done.
  - intros j. unfold pendings. rewrite Tx. simpl. rewrite K3, (rn_pends _ _ _ _ _ _ R3). apply held_info.
Qed.

(** ** Sending and waiting *)

(** C15: [kill] of a signal that the target masks, and that the target is not
    blocked waiting for, makes it pending and does nothing else.  The pending
    signals of the target are those of before with the information of this
    one, which replaces that of an earlier signal of the same number.  The
    pending signals of other groups, the actions and the queued actions of all
    tasks, masks, the calls of handlers, the scheduler with every task control
    block, the semaphores and the message queues are as they were. *)
Theorem kill_masked_pends T idle x handler s G n e pid_ y signo :
  sig_inv s G -> at_task T idle (skn s) x n e -> 0 <= n < MAX_LOCK_COUNT -> 0 < pid_ -> good signo -> sched_gettcb (skn s) pid_ = y -> y <> 0 ->
  Z.testbit (sigprocmask_ (tsig s y)) signo = true -> room s G y (kill_info x s signo) ->
  (state (skn s) y = TSTATE_WAIT_SIG -> Z.testbit (sigwaitmask (tsig s y)) signo = false) ->
  exists s' G', kill handler s pid_ signo = Some (s', OK) /\
    (forall j, pendings y s' G' j = if j =? signo then Some (mk_info signo SI_USER 0 (pid (tcbs (skn s) x)) OK) else pendings y s G j) /\
    (forall z j, group (tsig s z) <> group (tsig s y) -> pendings z s' G' j = pendings z s G j) /\
    (forall z j, action_of s' G' z j = action_of s G z j) /\
    (forall z, G' (sigpendactionq z) = G (sigpendactionq z) /\ G' (sigpostedq z) = G (sigpostedq z)) /\ sigqs s' = sigqs s /\
    at_task T idle (skn s') x n e /\ sig_inv s' G' /\ calls s' = calls s /\ tsig s' = tsig s /\
    same_kernel (skn s) (skn s') /\ sg s' = set_kn (skn s') (sg s) /\ mqs s' = mqs s.
Proof.
  intros Hi Ha Hn Hpid Hg Hy Hy0 Hm Hr Hw. destruct (kill_spec T idle x handler s G n e pid_ y signo Hi Ha Hn Hpid Hg Hy Hy0 Hm Hr Hw) as (s' & G' & Hrun & Ha' & [D1 D2 DO D3 _ D4 D5 D6 D7 D8] & Hk & Hsg & Hmq).
  exists s', G'. split; [done|]. split; [|split; [|split; [|split; [|split_and!; try done]]]].
  - intros j. unfold pendings. rewrite D5. apply D2.
  - intros z j Hz. unfold pendings. rewrite D5. by apply DO.
  - intros z j. unfold action_of. by rewrite D7, D3.
  - intros z. split; by apply D3.
Qed.

(** [sigwaitinfo] with signals of the set pending returns the lowest of
    them with its information, and that signal alone is no longer pending. *)
Theorem sigwaitinfo_lowest T idle x s G n e set m :
  sig_inv s G -> at_task T idle (skn s) x n e -> 0 <= n < MAX_LOCK_COUNT -> lowest_pending x s G set m ->
  exists s' G' info, sigwaitinfo s set = Some (s', Some (m, info)) /\ pendings x s G m = Some info /\
    (forall j, pendings x s' G' j = if j =? m then None else pendings x s G j) /\ at_task T idle (skn s') x n e /\ sig_inv s' G'.
Proof.
  intros Hi Ha Hn Hl. destruct (sigwaitinfo_takes T idle x s G n e set m Hi Ha Hn Hl) as (s' & G' & info & Hrun & Hp & Ha' & Hi' & Hm & _).
  by exists s', G', info.
Qed.

(** C14: [sigwaitinfo] with no signal of the set pending blocks the task.  A
    masked signal of the set that is then sent to it makes it runnable again,
    and when it runs the call returns this signal with its information. *)
Theorem sigwaitinfo_wakes T idle x s G n e set :
  sig_inv s G -> at_task T idle (skn s) x n e -> 0 <= n < MAX_LOCK_COUNT -> x <> idle -> none_pending x s G set ->
  exists s1 A1, sigwaitinfo s set = Some (s1, None) /\ sched_ok T idle (skn s1) A1 /\ x ∈ A1 g_waitingforsignal /\ sig_inv s1 G /\
    forall deliver s2 A2 info, sched_ok T idle (skn s2) A2 -> x ∈ A2 g_waitingforsignal -> tsig s2 x = tsig s1 x -> good (si_signo info) ->
      Z.testbit (sigprocmask_ (tsig s x)) (si_signo info) = true -> Z.testbit set (si_signo info) = true ->
      exists s3 A3, sig_tcbdispatch deliver s2 x info = Some (s3, OK) /\ sched_ok T idle (skn s3) A3 /\ runnable A3 x /\
        forall s4 e4, at_task T idle (skn s4) x (n + 1) e4 -> tsig s4 x = tsig s3 x ->
          exists s5, sigwait_resume s4 set = Some (s5, si_signo info, info) /\ at_task T idle (skn s5) x n e4.
Proof.
  intros Hi Ha Hn Hid Hno. destruct (sigwaitinfo_blocks T idle x s G n e set Hi Ha Hn Hid Hno) as (k1 & A1 & Hrun & Hok & Hin & _ & Hi1).
  eexists _, A1. split; [done|]. split; [done|]. split; [done|]. split; [done|]. intros deliver s2 A2 info Hok2 Hin2 Et Hg Hm Hs. simpl in Et. rewrite upd_eq in Et.
  apply list_elem_of_split in Hin2 as (l1 & l2 & El).
  destruct (dispatch_wakes T idle deliver s2 A2 l1 x l2 info Hok2 El Hid Hg) as (k3 & Hd & Hok3); [by rewrite Et|by rewrite Et|].
  eexists _, _. split; [done|]. split; [exact Hok3|]. split; [apply add_ready_runnable; by left|]. intros s4 e4 Ha4 Et4. simpl in Et4. rewrite !upd_eq in Et4.
  destruct (sigwait_resume_spec T idle x s4 n e4 set Ha4 ltac:(lia)) as (Hget & _ & _). rewrite Et4 in Hget. simpl in Hget. by apply Hget.
Qed.

(** C26: [sigaction] returns the action that a signal had, and asked again it
    returns the action that was set; the actions of other signals, pending
    signals and masks are as before. *)
Theorem sigaction_roundtrip T idle x s G n e m a :
  sig_inv s G -> at_task T idle (skn s) x n e -> 0 <= n < MAX_LOCK_COUNT -> good m -> action_room s G -> sa_handler a <> 0 ->
  exists s1 G1 s2 G2, sigaction s m (Some a) = Some (s1, OK, Some (default no_action (action_of s G x m))) /\
    sigaction s1 m None = Some (s2, OK, Some a) /\
    (forall j, action_of s2 G2 x j = if j =? m then Some a else action_of s G x j) /\ action_of s1 G1 x m = Some a /\
    (forall j, pendings x s2 G2 j = pendings x s G j) /\ tsig s2 = tsig s /\ calls s2 = calls s /\ at_task T idle (skn s2) x n e /\ sig_inv s2 G2.
Proof.
  intros Hi Ha Hn Hg Hroom Hh. destruct (sigaction_spec T idle x s G n e m (Some a) Hi Ha Hn Hg ltac:(done)) as (k1 & s1 & G1 & H1 & Ha1 & [I1 M1 K1 _ L1 _ T1 C1 P1]).
  assert (Em : action_of s1 G1 x m = Some a) by (rewrite M1; unfold acted; rewrite Z.eqb_refl; by destruct (Z.eqb_spec (sa_handler a) 0)).
  destruct (sigaction_spec T idle x s1 G1 n e m None I1 Ha1 Hn Hg ltac:(by rewrite Em)) as (k2 & s2 & G2 & H2 & Ha2 & [I2 M2 K2 _ L2 _ T2 C2 P2]).
  rewrite Em in H2. simpl in T1, T2, C1, C2, P1, P2. exists s1, G1, s2, G2. split; [done|]. split; [done|]. split; [|split; [done|split; [|split_and!; congruence || done]]].
  - intros j. rewrite M2. unfold acted. change (action_of s1 G1 x j = if j =? m then Some a else action_of s G x j). rewrite M1. unfold acted. by destruct (Z.eqb_spec (sa_handler a) 0).
  - intros j. unfold pendings. by rewrite P2, P1, T2, T1, K2, K1.
Qed.

(** ** An example

    Task 32 of the demo system runs and masks signals 1 and 2, which have been
    sent to it, 2 first; their handlers are at 1001 and 1002. *)

Definition no_info : siginfo := mk_info 0 0 0 0 0.

Definition sig_demo_mq : mq_state :=
  mk_mq sys_kernel (mk_links (fun _ => 0) (fun _ => 0)) (fun _ => mk_msg MQ_ALLOC_FIXED 0 0 []) (fun _ => mk_msgq empty_queue 0 0 0 0 0 0 0 0 0)
    (fun _ => mk_des 0 0) (fun _ => 0) empty_queue empty_queue [].

Definition sig_demo : sig_state :=
  mk_sig sys_before sig_demo_mq (mk_links (fun _ => 0) (fun _ => 0)) (fun _ => empty_queue) (fun _ => mk_sigactq (mk_sigaction 0 0 0) 0)
    (fun _ => mk_sigpendq no_info SIG_ALLOC_FIXED) (fun _ => mk_sigq 0 0 no_info SIG_ALLOC_FIXED)
    (fun _ => mk_tsig 6 0 no_info false 900) [10000; 20000; 30000; 40000; 50000; 60000] [].

Definition sig_demo_ghost : ghost := init_ghost 10000 20000 30000 40000 50000.

Lemma sig_demo_at : at_task sys_T 8 (skn sig_demo) 32 0 0.
Proof. constructor; try reflexivity. exists sys_tasks. split; [apply sys_kernel_ok|]. by split. Qed.

(** The system after [sig_initialize]. *)
Lemma sig_demo_init : exists s, sig_initialize sig_demo = Some s /\ sig_inv s sig_demo_ghost /\ same_rest sig_demo s /\ kheap s = [60000].
Proof.
  apply sig_initialize_spec; [done| | |done].
  - apply (bool_decide_unpack _). vm_compute. exact I.
  - apply (bool_decide_unpack _). vm_compute. exact I.
Qed.

Definition demo_sig (n : Z) : siginfo := mk_info n SI_USER 0 2 OK.
Definition demo_act (n : Z) : sigaction_t := mk_sigaction (1000 + n) 0 0.

(** What is known of the state with the two signals and their actions. *)
Record demo_state (s : sig_state) (G : ghost) : Prop := {
  dm_inv : sig_inv s G;
  dm_at : at_task sys_T 8 (skn s) 32 0 0;
  dm_tsig : tsig s 32 = mk_tsig 6 0 no_info false 900;
  dm_calls : calls s = [];
  dm_queue : G (sigpendactionq 32) = [];
  dm_posted : G (sigpostedq 32) = [];
  dm_avail : (16 <= avail s G)%nat;
  dm_pend j : pendings 32 s G j = if j =? 1 then Some (demo_sig 1) else if j =? 2 then Some (demo_sig 2) else None;
  dm_act j : action_of s G 32 j = if j =? 2 then Some (demo_act 2) else if j =? 1 then Some (demo_act 1) else None
}.

Lemma demo_reached : exists s G, demo_state s G.
Proof.
  destruct sig_demo_init as (s0 & _ & Hi0 & [E0 _ T0 C0] & _). assert (K0 : skn s0 = sys_kernel) by (unfold skn; by rewrite E0).
  assert (Hm : forall n, good n -> n = 1 \/ n = 2 -> Z.testbit (sigprocmask_ (tsig s0 32)) n = true) by (intros n _ [->| ->]; by rewrite T0).
  destruct (dispatch_pends (fun _ _ => None) s0 sig_demo_ghost 32 (demo_sig 2) Hi0) as (s1 & G1 & _ & R1 & [I1 M1 _ D1 F1 _ T1 C1 A1 _]); [done|unfold good; simpl; lia|apply Hm; unfold good; simpl; auto; lia| | |].
  { intros _. left. done. }
  { rewrite K0. by intros. }
  destruct (dispatch_pends (fun _ _ => None) s1 G1 32 (demo_sig 1) I1) as (s2 & G2 & _ & R2 & [I2 M2 _ D2 F2 _ T2 C2 A2 _]); [done|unfold good; simpl; lia|rewrite T1; apply Hm; unfold good; simpl; auto; lia| | |].
  { intros _. left. intros E. rewrite E in F1. simpl in F1. lia. }
  { unfold skn. rewrite (sr_sg _ _ R1). fold (skn s0). rewrite K0. by intros. }
  assert (Ha2 : at_task sys_T 8 (skn s2) 32 0 0) by (unfold skn; rewrite (sr_sg _ _ R2), (sr_sg _ _ R1); fold (skn s0); rewrite K0; apply sig_demo_at).
  assert (F0 : (14 <= length (sig_demo_ghost g_sigfreeaction))%nat) by (vm_compute; lia).
  rewrite <- (D1 g_sigfreeaction), <- (D2 g_sigfreeaction) in F0 by done.
  destruct (sigaction_spec sys_T 8 32 s2 G2 0 0 1 (Some (demo_act 1)) I2 Ha2) as (k3 & s3 & G3 & _ & Ha3 & [I3 M3 D3 F3 _ _ T3 C3 P3]); [done|unfold good; lia| |].
  { intros _. left. intros E. rewrite E in F0. simpl in F0. lia. }
  destruct (sigaction_spec sys_T 8 32 s3 G3 0 0 2 (Some (demo_act 2)) I3 Ha3) as (k4 & s4 & G4 & _ & Ha4 & [I4 M4 D4 _ _ _ T4 C4 P4]); [done|unfold good; lia| |].
  { intros _. left. intros E. rewrite E in F3. simpl in F3. lia. }
  simpl in T3, T4, C3, C4, P3, P4. assert (T : tsig s4 = tsig sig_demo) by congruence.
  assert (HQ : forall i, kind_of i = Sigq -> G4 i = sig_demo_ghost i) by (intros i Hk; by rewrite D4, D3, D2, D1 by (by rewrite Hk)).
  assert (A0 : forall j, action_of s2 G2 32 j = None) by (intros j; unfold action_of; by rewrite D2, D1 by done).
  exists s4, G4. constructor; try done; rewrite ?HQ by done; try done.
  - by rewrite T.
  - by rewrite C4, C3, C2, C1, C0.
  - unfold avail. rewrite HQ by done. apply Nat.le_add_r.
  - intros j. unfold pendings. rewrite T, P4, P3, D4, D3 by done. rewrite T1, T0 in M2. rewrite T0 in M1. simpl in M1, M2. cbn [group tsig sig_demo].
    rewrite M2, M1. simpl. by destruct (j =? 1), (j =? 2).
  - intros j. rewrite M4. unfold acted. simpl. change (action_of (set_skn k4 s3) G3 32 j) with (action_of s3 G3 32 j). rewrite M3. unfold acted. simpl.
    change (action_of (set_skn k3 s2) G2 32 j) with (action_of s2 G2 32 j). by rewrite A0.
Qed.

Lemma demo_due s G n :
  demo_state s G ->
  due_call s G 32 0 n = if n =? 1 then Some (1001, demo_sig 1) else if n =? 2 then Some (1002, demo_sig 2) else None.
Proof.
  intros Hd. unfold due_call. rewrite Z.testbit_0_l, (dm_pend _ _ Hd), (dm_act _ _ Hd).
  destruct (Z.eqb_spec n 1) as [->|]; [done|]. by destruct (Z.eqb_spec n 2).
Qed.

Lemma demo_calls_due s G : demo_state s G -> omap (due_call s G 32 0) (seqZ 0 32) = [(1001, demo_sig 1); (1002, demo_sig 2)].
Proof.
  intros Hd. transitivity (omap (fun n => if n =? 1 then Some (1001, demo_sig 1) else if n =? 2 then Some (1002, demo_sig 2) else None) (seqZ 0 32)); [|reflexivity].
  apply list_omap_ext, Forall_Forall2_diag, Forall_forall. intros n _. by apply demo_due.
Qed.

Lemma demo_few s G : demo_state s G -> (length (G (sigpendingq 900)) <= 2)%nat.
Proof.
  intros Hd. destruct (sv_pend _ _ (dm_inv _ _ Hd) 900) as [Hnd _]. rewrite <- (length_map (num s)). apply (submseteq_length _ [1; 2]), NoDup_submseteq; [done|].
  intros n Hn. apply (info_of_in (pends s)) in Hn. pose proof (dm_pend _ _ Hd n) as Hp. unfold pendings in Hp. rewrite (dm_tsig _ _ Hd) in Hp. simpl in Hp. rewrite Hp in Hn.
  clear Hp. destruct (Z.eqb_spec n 1) as [E|E]; [rewrite E; by left|]. destruct (Z.eqb_spec n 2) as [E2|E2]; [rewrite E2; right; by left|by destruct Hn].
Qed.

(** A handler that changes the error number and its mask. *)
Definition demo_handler (a : Z) (i : siginfo) (s : sig_state) : option sig_state := Some (set_mask 32 0 (sig_errno EAGAIN s)).

Lemma demo_handler_ok : handlers_ok sys_T 8 32 demo_handler.
Proof.
  intros a i s n e Ha. exists (set_kn (set_errno (skn s) EAGAIN) (sg s)), (mqs s), 0, EAGAIN. split; [by destruct s|].
  exact (at_sig_errno sys_T 8 32 s n e EAGAIN Ha).
Qed.

(** Unmasking both signals calls the two handlers, that of 1 first. *)
Lemma sigprocmask_delivers_witness :
  exists s G s', demo_state s G /\ sigprocmask demo_handler s SIG_UNBLOCK (Some 6) = Some (s', OK, 6) /\
    sigprocmask_ (tsig s' 32) = 0 /\ calls s' = [(1001, demo_sig 1); (1002, demo_sig 2)].
Proof.
  destruct demo_reached as (s & G & Hd). pose proof (dm_tsig _ _ Hd) as Ht. exists s, G.
  destruct (sigprocmask_delivers sys_T 8 32 demo_handler s G 0 0 SIG_UNBLOCK 6 0) as (s' & G' & H1 & H2 & H3 & _).
  - exact demo_handler_ok.
  - apply Hd.
  - apply Hd.
  - lia.
  - unfold MAX_LOCK_COUNT. lia.
  - by rewrite Ht.
  - apply Hd.
  - rewrite (dm_posted _ _ Hd). simpl. lia.
  - by rewrite Ht.
  - rewrite Ht. simpl. pose proof (demo_few s G Hd) as Hl. pose proof (dm_avail _ _ Hd) as Ha. unfold opens. rewrite length_filter. lia.
  - exists s'. split; [exact Hd|]. rewrite Ht in H1. split; [exact H1|]. split; [exact H2|]. rewrite H3, (dm_calls _ _ Hd), (demo_calls_due s G Hd). reflexivity.
Defined.

(** A second signal 1 replaces the information of the first. *)
Lemma kill_masked_pends_witness :
  exists s G, sig_initialize sig_demo = Some s /\ exists s' G', kill (fun _ _ s => Some s) s 3 1 = Some (s', OK) /\
    pendings 32 s G 1 = None /\ pendings 32 s' G' 1 = Some (mk_info 1 SI_USER 0 3 OK).
Proof.
  destruct sig_demo_init as (s & Hrun & Hi & [E _ T _] & _). assert (K : skn s = sys_kernel) by (unfold skn; by rewrite E). exists s, sig_demo_ghost. split; [exact Hrun|].
  destruct (kill_masked_pends sys_T 8 32 (fun _ _ s => Some s) s sig_demo_ghost 0 0 3 32 1 Hi) as (s' & G' & H1 & H2 & _).
  - rewrite K. apply sig_demo_at.
  - unfold MAX_LOCK_COUNT. lia.
  - lia.
  - unfold good. lia.
  - by rewrite K.
  - done.
  - by rewrite T.
  - intros _. by left.
  - rewrite K. by intros.
  - exists s', G'. split; [exact H1|]. split; [reflexivity|]. rewrite H2, K. reflexivity.
Defined.

Lemma sigwaitinfo_lowest_witness :
  exists s G s', demo_state s G /\ sigwaitinfo s 6 = Some (s', Some (1, demo_sig 1)).
Proof.
  destruct demo_reached as (s & G & Hd). destruct (sigwaitinfo_lowest sys_T 8 32 s G 0 0 6 1 (dm_inv _ _ Hd) (dm_at _ _ Hd)) as (s' & G' & info & H1 & H2 & _).
  - unfold MAX_LOCK_COUNT. lia.
  - split; [unfold good; lia|]. split; [done|]. rewrite (dm_pend _ _ Hd). split; [by eexists|]. intros j Hj. rewrite (dm_pend _ _ Hd).
    destruct (Z.eqb_spec j 1); [lia|]. destruct (Z.eqb_spec j 2); [lia|]. by intros _ [].
  - exists s, G, s'. split; [exact Hd|]. rewrite (dm_pend _ _ Hd) in H2. injection H2 as <-. exact H1.
Defined.

(** Task 32 waits for signal 2, which an interrupt sends. *)
Lemma sigwaitinfo_wakes_witness :
  exists s s1 s3 A3, sig_initialize sig_demo = Some s /\ sigwaitinfo s 4 = Some (s1, None) /\
    sig_tcbdispatch (fun _ _ => None) s1 32 (demo_sig 2) = Some (s3, OK) /\ sched_ok sys_T 8 (skn s3) A3 /\ runnable A3 32.
Proof.
  destruct sig_demo_init as (s & Hrun & Hi & [E _ T _] & _). assert (K : skn s = sys_kernel) by (unfold skn; by rewrite E).
  destruct (sigwaitinfo_wakes sys_T 8 32 s sig_demo_ghost 0 0 4 Hi) as (s1 & A1 & H1 & H2 & H3 & _ & H4).
  - rewrite K. apply sig_demo_at.
  - unfold MAX_LOCK_COUNT. lia.
  - done.
  - intros j _ _. reflexivity.
  - destruct (H4 (fun _ _ => None) s1 A1 (demo_sig 2) H2 H3 eq_refl) as (s3 & A3 & H5 & H6 & H7 & _).
    + unfold good. simpl. lia.
    + by rewrite T.
    + done.
    + exists s, s1, s3, A3. exact (conj Hrun (conj H1 (conj H5 (conj H6 H7)))).
Defined.

Lemma sigaction_roundtrip_witness :
  exists s s1 s2, sig_initialize sig_demo = Some s /\ sigaction s 5 (Some (demo_act 5)) = Some (s1, OK, Some no_action) /\
    sigaction s1 5 None = Some (s2, OK, Some (demo_act 5)).
Proof.
  destruct sig_demo_init as (s & Hrun & Hi & [E _ T _] & _). assert (K : skn s = sys_kernel) by (unfold skn; by rewrite E).
  destruct (sigaction_roundtrip sys_T 8 32 s sig_demo_ghost 0 0 5 (demo_act 5) Hi) as (s1 & G1 & s2 & G2 & H1 & H2 & _).
  - rewrite K. apply sig_demo_at.
  - unfold MAX_LOCK_COUNT. lia.
  - unfold good. lia.
  - by left.
  - done.
  - exists s, s1, s2. exact (conj Hrun (conj H1 H2)).
Defined.

(** ** Where delivery goes wrong

    [sig_deliver] reads the next queued action before it calls a handler.  When
    the handler is done, a signal that came meanwhile is delivered by a nested
    call, which also takes the rest of the queue; the outer loop then goes on
    with an action that has been delivered and released. *)

Section repeat.
Context (T : list Z) (idle x : Z) (handler handler' : Z -> siginfo -> sig_state -> option sig_state).

Lemma NoDup_map_inj {A} (f : A -> Z) (l : list A) y z : NoDup (map f l) -> y ∈ l -> z ∈ l -> f y = f z -> y = z.
Proof.
  intros Hn Hy Hz E. apply list_elem_of_split in Hz as (l1 & l2 & ->). rewrite map_app in Hn. apply NoDup_remove' in Hn as [_ Hn].
  rewrite <- map_app in Hn. apply elem_of_app in Hy as [Hy|[->|Hy]%elem_of_cons]; [|done|]; destruct Hn; rewrite <- E; apply list_elem_of_fmap; exists y; set_solver.
Qed.

Lemma info_of_some pn l j i : info_of pn l j = Some i -> exists p, p ∈ l /\ pinfo (pn p) = i /\ si_signo i = j.
Proof.
  induction l as [|p l IH]; [done|]. simpl. destruct (Z.eqb_spec (si_signo (pinfo (pn p))) j) as [E|_].
  - intros [= <-]. exists p. split; [by left|done].
  - intros H. destruct (IH H) as (q & ? & ?). exists q. split; [by right|done].
Qed.

(** The signal that the handler sent is the only one to be delivered. *)
Lemma pended_only s G i s' G' :
  sig_inv s' G' -> (forall j, info_of (pends s') (G' (sigpendingq (group (tsig s' x)))) j =
    if j =? si_signo i then Some i else info_of (pends s) (G (sigpendingq (group (tsig s' x)))) j) ->
  opens (sigprocmask_ (tsig s' x)) (pends s) (G (sigpendingq (group (tsig s' x)))) = [] -> Z.testbit (sigprocmask_ (tsig s' x)) (si_signo i) = false ->
  exists p, only_open x s' G' p /\ pinfo (pends s' p) = i.
Proof.
  intros Hi Hmap Hop Hm. pose proof (Hmap (si_signo i)) as Hp. rewrite Z.eqb_refl in Hp. destruct (info_of_some _ _ _ _ Hp) as (p & Hpl & Ep & _).
  exists p. split; [|done]. assert (En : num s' p = si_signo i) by (unfold num; by rewrite Ep). split; [done|]. split; [by rewrite En|]. intros y Hy Hmy.
  destruct (sv_pend _ _ Hi (group (tsig s' x))) as [Hnd _]. apply (NoDup_map_inj (num s') _ _ _ Hnd); [done|done|]. rewrite En.
  assert (Hs : is_Some (info_of (pends s') (G' (sigpendingq (group (tsig s' x)))) (num s' y))) by (apply info_of_in, list_elem_of_fmap; by exists y).
  rewrite Hmap in Hs. destruct (Z.eqb_spec (num s' y) (si_signo i)) as [|_]; [done|]. destruct Hs as [i' Hs]. destruct (info_of_some _ _ _ _ Hs) as (z & Hz & Ez & Ei).
  exfalso. apply (not_elem_of_nil z). rewrite <- Hop. apply in_opens. split; [|done]. by rewrite Ez, Ei.
Qed.

(** The task runs with the actions [q :: rest] queued and no pending signal to
    be delivered; the handler of [q] sends the signal [k], which [q] masks, to
    its own task. *)
Section turn.
Context (s : sig_state) (G : ghost) (q : Z) (rest : list Z) (n e k pid_ : Z) (a : sigaction_t).
Context (Hi : sig_inv s G) (Ha : at_task T idle (skn s) x n e) (Hn : 0 <= n) (Hlk : n + 3 <= MAX_LOCK_COUNT) (Hsd : sigdeliver (tsig s x) = false).
Context (Hq : G (sigpendactionq x) = q :: rest) (Hlen : (length rest + 1 < sig_fuel)%nat) (Hpo : (length (G (sigpostedq x)) + 1 < sig_fuel)%nat).
Context (Hop : opens (sigprocmask_ (tsig s x)) (pends s) (G (sigpendingq (group (tsig s x)))) = []) (Hfree : G g_sigpendingaction <> []).
Context (Hg : good k) (Hmk : Z.testbit (qmask (sigqs s q)) k = true) (Hk : Z.testbit (sigprocmask_ (tsig s x)) k = false) (Hact : action_of s G x k = Some a).
Context (Hpid : 0 < pid_) (Htcb : sched_gettcb (skn s) pid_ = x) (Hroom : room s G x (kill_info x s k)).
Context (Hfirst : forall t, handler (sighandler (sigqs s q)) (qinfo (sigqs s q)) t = (r ← kill handler' t pid_ k; Some r.1)).

(** The state when its handler is done and the mask restored. *)
Record sent (s1 : sig_state) (G1 : ghost) (p : Z) : Prop := {
  sn_inv : sig_inv s1 G1;
  sn_at : at_task T idle (skn s1) x n e;
  sn_tsig y : tsig s1 y = tsig s y;
  sn_sigqs : sigqs s1 = sigqs s;
  sn_acts : acts s1 = acts s;
  sn_calls : calls s1 = calls s ++ [(sighandler (sigqs s q), qinfo (sigqs s q))];
  sn_queue : G1 (sigpendactionq x) = rest;
  sn_posted : G1 (sigpostedq x) = G (sigpostedq x) ++ [q];
  sn_lists i : kind_of i <> Pend -> i <> sigpendactionq x -> i <> sigpostedq x -> G1 i = G i;
  sn_open : only_open x s1 G1 p;
  sn_info : pinfo (pends s1 p) = kill_info x s k
}.

Lemma handler_sends :
  exists s1 s2 s3 s4 G4 p, rem (sigpendactionq x) q s = Some s1 /\ add_last (sigpostedq x) q s1 = Some s2 /\
    (let v := sigqs s2 q in
     handler (sighandler v) (qinfo v)
       (log_call (sighandler v, qinfo v) (set_mask x (Z.lor (Z.lor (sigprocmask_ (tsig s2 x)) (qmask v)) (SIGNO2SET (si_signo (qinfo v)))) s2)) = Some s3) /\
    s4 = set_mask x (sigprocmask_ (tsig s2 x)) s3 /\ sent s4 G4 p.
Proof.
  destruct (at_task_head _ _ _ _ _ _ Ha) as (_ & Hx0 & Hst).
  destruct (post_action x s G [] q rest (owned_nil _ _ Hi) Hq) as (s1 & s2 & G2 & H1 & H2 & R2 & Ho & EG).
  assert (L2 : forall i, i <> sigpostedq x -> i <> sigpendactionq x -> G2 i = G i) by (intros i ? ?; rewrite EG, !set_q_ne; done).
  set (v := sigqs s2 q). assert (Ev : v = sigqs s q) by (unfold v; by rewrite (ol_sigqs _ _ Ho)).
  set (m' := Z.lor (Z.lor (sigprocmask_ (tsig s2 x)) (qmask v)) (SIGNO2SET (si_signo (qinfo v)))).
  set (t := log_call (sighandler v, qinfo v) (set_mask x m' s2)).
  assert (Kt : skn t = skn s) by (unfold t, skn; simpl; by rewrite (ol_sg _ _ Ho)).
  assert (Et : tsig t x = mk_tsig m' (sigwaitmask (tsig s x)) (sigunbinfo (tsig s x)) (sigdeliver (tsig s x)) (group (tsig s x))).
  { unfold t, set_mask. simpl. by rewrite upd_eq, (ol_tsig _ _ Ho). }
  assert (Ek : kill_info x t k = kill_info x s k) by (unfold kill_info; by rewrite Kt).
  assert (Hit : sig_inv t G2) by exact (ow_inv _ _ _ (rn_owned _ _ _ _ _ _ (ran_same s2 G2 [] t (rn_owned _ _ _ _ _ _ R2) eq_refl eq_refl eq_refl eq_refl eq_refl eq_refl))).
  destruct (kill_spec T idle x handler' t G2 n e pid_ x k Hit) as (s3 & G4 & Hkill & Ha3 & Hpd & _); rewrite ?Kt; try done; [lia| | | |].
  { rewrite Et. simpl. unfold m'. rewrite !Z.lor_spec, Ev, Hmk. by rewrite orb_true_r. }
  { unfold room, pend_avail in *. rewrite Ek, Et, Kt. simpl. change (pends t) with (pends s2). change (kheap t) with (kheap s2).
    rewrite (ol_pends _ _ Ho), (ol_kheap _ _ Ho), !L2 by done. exact Hroom. }
  { rewrite Hst. done. }
  destruct Hpd as [I4 M4 _ D4 _ _ T4 C4 A4 Q4]. rewrite Ek, Et in M4. simpl in M4. change (pends t) with (pends s2) in M4. rewrite (ol_pends _ _ Ho), L2 in M4 by done.
  set (s4 := set_mask x (sigprocmask_ (tsig s2 x)) s3).
  assert (T5 : forall y, tsig s4 y = tsig s y).
  { intros y. unfold s4, set_mask. simpl. rewrite T4, Et. destruct (decide (y = x)) as [->|Hne].
    - rewrite upd_eq. simpl. rewrite (ol_tsig _ _ Ho). by destruct (tsig s x).
    - rewrite upd_ne by done. unfold t, set_mask. simpl. by rewrite upd_ne, (ol_tsig _ _ Ho) by done. }
  assert (I5 : sig_inv s4 G4) by exact (ow_inv _ _ _ (rn_owned _ _ _ _ _ _ (set_mask_ran x s3 G4 [] _ (owned_nil _ _ I4)))).
  destruct (pended_only s G (kill_info x s k) s4 G4 I5) as (p & Hp & Ep); rewrite ?T5; try done.
  exists s1, s2, s3, s4, G4, p. split; [done|]. split; [done|]. split; [cbv zeta; fold v m' t; by rewrite Ev, Hfirst, Hkill|]. split; [done|]. constructor; try done.
  - change (sigqs s4) with (sigqs s3). rewrite Q4. apply Ho.
  - change (acts s4) with (acts s3). rewrite A4. apply Ho.
  - change (calls s4) with (calls s3). rewrite C4. unfold t. simpl. by rewrite (ol_calls _ _ Ho), Ev.
  - by rewrite D4, EG, set_q_ne, set_q_eq by done.
  - by rewrite D4, EG, set_q_eq by done.
  - intros i ? ? ?. by rewrite D4, L2.
Qed.
Context (Hrest : forall y, y ∈ rest -> handler_ok T idle x (handler (sighandler (sigqs s y)) (qinfo (sigqs s y)))).
Context (Hlast : handler_ok T idle x (handler (sa_handler a) (kill_info x s k))).

(** After the turn all queued actions and the new signal have been delivered,
    and the actions are free. *)
Lemma turn_flushes fuel :
  exists s' G', deliver_one handler (sig_deliver handler (S fuel)) s x q = Some (s', hd_or rest 0) /\ sig_inv s' G' /\ G' (sigpendactionq x) = [] /\
    calls s' = calls s ++ map (fun y => (sighandler (sigqs s y), qinfo (sigqs s y))) (q :: rest) ++ [(sa_handler a, kill_info x s k)] /\
    forall y, y ∈ rest -> sigqs s' y = sigqs s y /\ (y ∈ G' g_sigpendingaction \/ y ∈ G' g_sigpendingirqaction \/ qtype (sigqs s y) = SIG_ALLOC_DYN).
Proof.
  destruct handler_sends as (s1 & s2 & s3 & s4 & G4 & p & H1 & H2 & H3 & E4 & [I4 A4 T4 S4 AC4 C4 Q4 P4 L4 O4 N4]).
  assert (Ep : num s4 p = k) by (unfold num; by rewrite N4).
  destruct (unmask_flushes T idle x handler fuel s4 G4 [] rest p n e a) as (s5 & G5 & H5 & [R5 A5 T5 Q5 L5 C5 S5]); rewrite ?T4, ?S4, ?N4; try done.
  - unfold action_of. by rewrite AC4, L4, Ep.
  - by apply owned_nil.
  - rewrite P4, length_app. simpl. lia.
  - unfold avail. rewrite L4 by done. destruct (G g_sigpendingaction); [done|simpl; lia].
  - destruct (action_done x s5 G5 [] q (G (sigpostedq x)) (rn_owned _ _ _ _ _ _ R5)) as (s6 & s7 & G7 & H6 & H7 & R7 & Rest7 & P7 & L7 & S7); [by rewrite L5|lia|].
    exists s7, G7. split; [|split; [apply R7|split; [by rewrite L7|split]]].
    + unfold deliver_one. pose proof (lo_rep _ _ (sv_lists _ _ Hi) (sigpendactionq x)) as [_ _ _ _ Hseg]. rewrite Hq in Hseg. destruct Hseg as [Hnext _]. cbv zeta in H3 |- *.
      rewrite Hnext, H1, some_bind, H2, some_bind, H3, some_bind, <- E4, H5, some_bind, H6, some_bind, H7, some_bind. by destruct rest.
    + rewrite (sr_calls _ _ Rest7), C5, C4, S4, N4, <- app_assoc. done.
    + intros y Hy. split; [by rewrite S7, S5, S4|]. assert (Hyq : y ∈ G4 (sigpendactionq x)) by by rewrite Q4.
      assert (Hhas : has G4 [] Sigq y) by (left; by exists (sigpendactionq x)).
      destruct (rn_kept _ _ _ _ _ _ (ran_trans _ _ _ _ _ _ _ _ _ (owned_nil _ _ I4) R5 R7) Sigq y Hhas) as [[(i & Hi7 & Hy7)|Hno]|Hd]; [|by apply not_elem_of_nil in Hno|right; right; simpl in Hd; by rewrite S4 in Hd].
      assert (Hin : is_free i = false -> i <> sigpendactionq x -> y ∈ G4 i).
      { intros Hf Hne. destruct (decide (i = sigpostedq x)) as [->|Hne']; [rewrite P4, P7 in *; apply elem_of_app; by left|].
        rewrite L7, L5 in Hy7 by (done || by destruct i). done. }
      destruct (is_free i) eqn:Hf; [destruct i; try done; auto|]. destruct (decide (i = sigpendactionq x)) as [->|Hne]; [rewrite L7, Q5 in Hy7 by done; by apply not_elem_of_nil in Hy7|].
      by destruct (Hne (lo_once _ _ (sv_lists _ _ I4) i (sigpendactionq x) y (Hin eq_refl Hne) Hyq)).
Qed.
End turn.

End repeat.

(** An action that is on no queue is delivered all the same. *)
Lemma stale_call x handler deliver s G y :
  sig_inv s G -> G (sigpendactionq x) = [] -> y <> 0 ->
  let v := sigqs s y in
  exists t, calls t = calls s ++ [(sighandler v, qinfo v)] /\
    deliver_one handler deliver s x y =
      (u ← handler (sighandler v) (qinfo v) t;
       u ← sig_unmaskpendingsignal deliver (set_mask x (sigprocmask_ (tsig s x)) u);
       u ← rem (sigpostedq x) y u;
       u ← sig_releasependingsigaction y u;
       Some (u, flink (slinks s) y)).
Proof.
  intros Hi Hq Hy v. pose proof (lo_rep _ _ (sv_lists _ _ Hi) (sigpendactionq x)) as [_ _ Hh _ _]. rewrite Hq in Hh. simpl in Hh.
  pose proof (lo_rep _ _ (sv_lists _ _ Hi) (sigpostedq x)) as [_ H0 Hhd Htl _].
  assert (Hrem : exists s1, rem (sigpendactionq x) y s = Some s1 /\ tsig s1 = tsig s /\ sigqs s1 = sigqs s /\ calls s1 = calls s /\
            slinks s1 = slinks s /\ qs s1 (sigpostedq x) = qs s (sigpostedq x)).
  { unfold rem, sq_rem. rewrite Hh. cbn [Z.eqb orb]. rewrite some_bind. by eexists. }
  destruct Hrem as (s1 & H1 & T1 & S1 & C1 & K1 & Q1).
  assert (Hadd : exists s2, add_last (sigpostedq x) y s1 = Some s2 /\ tsig s2 = tsig s /\ sigqs s2 = sigqs s /\ calls s2 = calls s).
  { unfold add_last, sq_addlast. rewrite Q1, Hhd, Htl. unfold set_flink. destruct (Z.eqb_spec y 0); [done|]. rewrite some_bind.
    destruct (Z.eqb_spec (hd_or (G (sigpostedq x)) 0) 0) as [|Hne]; [rewrite some_bind; by eexists|].
    destruct (Z.eqb_spec (last_or (G (sigpostedq x)) 0) 0) as [El|_]; [|rewrite !some_bind; by eexists].
    destruct (G (sigpostedq x)) as [|z l _] using rev_ind; [done|]. rewrite last_or_app in El. unfold last_or in El. simpl in El. destruct H0. set_solver. }
  destruct Hadd as (s2 & H2 & T2 & S2 & C2). unfold deliver_one. rewrite H1, some_bind, H2, some_bind, T2, S2. fold v. eexists. split; [|reflexivity]. simpl. by rewrite C2.
Qed.

(** C34: an action can be delivered twice.  Let the actions [q1 :: q2 :: l] be
    queued for the running task [x], none of its pending signals be unmasked,
    and the handler of [q1] send the task, with [kill], a signal [k] that has
    an action, that the task does not mask and that the [sa_mask] of [q1]
    masks.  (The other handlers keep the contract [handler_ok]; there is a free
    action structure and room for the pending signal.)  Then
    [sig_unmaskpendingsignal], after that handler, dispatches [k], and the
    delivery nested in it calls the handlers of the whole rest of the queue,
    and that of [k]; when the turn of [q1] ends ([s']), no action is queued and
    [q2] has been released: it is on a free list, or its memory was freed.  But
    the loop of [sig_deliver] goes on with the [next] that it read before the
    handler ran, which is [q2]: the handler of [q2] is called for the second
    time ([calls t] is the log of the calls until then), and after it
    [sig_releasependingsigaction] is called for [q2] once more. *)
Theorem sig_deliver_repeats T idle x handler handler' fuel s G q1 q2 l n e k pid_ a :
  sig_inv s G -> at_task T idle (skn s) x n e -> 0 <= n -> n + 4 <= MAX_LOCK_COUNT -> sigdeliver (tsig s x) = false ->
  G (sigpendactionq x) = q1 :: q2 :: l -> (length l + 2 < sig_fuel)%nat -> (length (G (sigpostedq x)) + 1 < sig_fuel)%nat ->
  opens (sigprocmask_ (tsig s x)) (pends s) (G (sigpendingq (group (tsig s x)))) = [] -> G g_sigpendingaction <> [] ->
  good k -> Z.testbit (qmask (sigqs s q1)) k = true -> Z.testbit (sigprocmask_ (tsig s x)) k = false -> action_of s G x k = Some a ->
  0 < pid_ -> sched_gettcb (skn s) pid_ = x -> room s G x (kill_info x s k) ->
  (forall t, handler (sighandler (sigqs s q1)) (qinfo (sigqs s q1)) t = (r ← kill handler' t pid_ k; Some r.1)) ->
  (forall y, y ∈ q2 :: l -> handler_ok T idle x (handler (sighandler (sigqs s y)) (qinfo (sigqs s y)))) ->
  handler_ok T idle x (handler (sa_handler a) (kill_info x s k)) ->
  let call y := (sighandler (sigqs s y), qinfo (sigqs s y)) in
  exists s' G' t,
    (sig_inv s' G' /\ G' (sigpendactionq x) = [] /\
     (q2 ∈ G' g_sigpendingaction \/ q2 ∈ G' g_sigpendingirqaction \/ qtype (sigqs s q2) = SIG_ALLOC_DYN) /\
     calls s' = calls s ++ map call (q1 :: q2 :: l) ++ [(sa_handler a, kill_info x s k)]) /\
    calls t = calls s' ++ [call q2] /\
    sig_deliver handler (S (S fuel)) s x =
      (u ← handler (sighandler (sigqs s q2)) (qinfo (sigqs s q2)) t;
       u ← sig_unmaskpendingsignal (sig_deliver handler (S fuel)) (set_mask x (sigprocmask_ (tsig s' x)) u);
       u ← rem (sigpostedq x) q2 u;
       u ← sig_releasependingsigaction q2 u;
       u ← deliver_loop handler (sig_deliver handler (S fuel)) (sig_fuel - 2) u x (flink (slinks s') q2);
       u ← on_kernel (fun k => upd_tcb k x (set_pterrno (pterrno (tcbs (skn s) x)))) u;
       on_kernel sched_unlock u).
Proof.
  intros Hi Ha Hn Hlk Hsd Hq Hlen Hpo Hop Hfree Hg Hmk Hk Hact Hpid Htcb Hroom Hfirst Hrest Hlast call.
  destruct (lock_exact T idle x s n e Ha ltac:(lia)) as (k1 & Hl & Ha1 & Ek). set (s1 := set_skn k1 s).
  assert (Ep : kill_info x s1 k = kill_info x s k) by (unfold kill_info, s1, skn; simpl; by rewrite Ek, put_tcb_eq).
  destruct (turn_flushes T idle x handler handler' s1 G q1 (q2 :: l) (n + 1) e k pid_ a) with (fuel := fuel) as (s' & G' & H1 & I' & Q' & C' & Rel); rewrite ?Ep; try done.
  { by apply sig_inv_skn. }
  { lia. }
  { lia. }
  { simpl. lia. }
  { rewrite <- Htcb. unfold sched_gettcb, s1, skn. simpl. by rewrite Ek. }
  { unfold room, pend_avail, s1, skn in *. rewrite Ek. exact Hroom. }
  destruct (Rel q2 ltac:(by left)) as [S2 F2]. rewrite Ep in C'. change (sigqs s1) with (sigqs s) in C', S2, F2. change (calls s1) with (calls s) in C'.
  pose proof (lo_rep _ _ (sv_lists _ _ Hi) (sigpendactionq x)) as [_ H0 Hhd _ _]. rewrite Hq in H0, Hhd. simpl in Hhd.
  destruct (stale_call x handler (sig_deliver handler (S fuel)) s' G' q2 I' Q') as (t & Ct & H2); [set_solver|]. rewrite S2 in Ct, H2.
  exists s', G', t. split; [exact (conj I' (conj Q' (conj F2 C')))|]. split; [exact Ct|].
  change (sig_deliver handler (S (S fuel)) s x) with (u ← on_kernel sched_lock s; let saved_errno := pterrno (tcbs (skn u) x) in
    u ← deliver_loop handler (sig_deliver handler (S fuel)) sig_fuel u x (head (qs u (sigpendactionq x)));
    u ← on_kernel (fun k => upd_tcb k x (set_pterrno saved_errno)) u; on_kernel sched_unlock u).
  rewrite Hl, some_bind. cbv zeta. change (qs (set_skn k1 s)) with (qs s). rewrite Hhd.
  assert (Ee : pterrno (tcbs (skn (set_skn k1 s)) x) = pterrno (tcbs (skn s) x)) by (unfold skn; simpl; by rewrite Ek, put_tcb_eq). rewrite Ee.
  change sig_fuel with (S (S (sig_fuel - 2))) at 1. cbn [deliver_loop]. destruct (Z.eqb_spec q1 0) as [->|_]; [destruct H0; by left|].
  fold s1. rewrite H1, some_bind. cbn [hd_or]. destruct (Z.eqb_spec q2 0) as [->|_]; [destruct H0; right; by left|].
  rewrite H2. destruct (handler _ _ t) as [u1|]; [rewrite !some_bind|reflexivity]. destruct (sig_unmaskpendingsignal _ _) as [u2|]; [rewrite !some_bind|reflexivity].
  destruct (rem _ _ _) as [u3|]; [rewrite !some_bind|reflexivity]. destruct (sig_releasependingsigaction _ _) as [u4|]; [rewrite !some_bind|]; reflexivity.
Qed.

(** With the actions of 4 and 5 queued, the handler of 4 sends 3. *)
Definition repeat_act (n : Z) : sigaction_t := mk_sigaction (1000 + n) (SIGNO2SET 3) 0.
Definition repeat_handler (a : Z) (i : siginfo) (s : sig_state) : option sig_state :=
  if a =? 1004 then r ← kill (fun _ _ s => Some s) s 3 3; Some r.1 else demo_handler a i s.

Record repeat_state (s : sig_state) (G : ghost) (q1 q2 : Z) : Prop := {
  rs_inv : sig_inv s G;
  rs_kernel : skn s = sys_kernel;
  rs_tsig : tsig s 32 = mk_tsig 6 0 no_info false 900;
  rs_calls : calls s = [];
  rs_queue : G (sigpendactionq 32) = [q1; q2];
  rs_first : sighandler (sigqs s q1) = 1004 /\ qmask (sigqs s q1) = SIGNO2SET 3 /\ qinfo (sigqs s q1) = demo_sig 4;
  rs_second : sighandler (sigqs s q2) = 1005 /\ qinfo (sigqs s q2) = demo_sig 5;
  rs_posted : G (sigpostedq 32) = [];
  rs_pend : G (sigpendingq 900) = [];
  rs_free : G g_sigpendingaction <> [];
  rs_room : G g_sigpendingsignal <> [];
  rs_act : action_of s G 32 3 = Some (repeat_act 3)
}.

(** The heap is used up. *)
Lemma sig_inv_used_up s G : sig_inv s G -> sig_inv (set_kheap [] s) G.
Proof. intros [Hl _ _ F1 F2 F3 F4 P A Ha]. constructor; try done; [by destruct Hl; constructor|apply NoDup_nil_2|by intros p Hp%not_elem_of_nil]. Qed.

(** The actions of the signals 3, 4 and 5 are set. *)
Lemma repeat_actions :
  exists s G, sig_inv s G /\ at_task sys_T 8 (skn s) 32 0 0 /\ tsig s = tsig sig_demo /\ calls s = [] /\ kheap s = [] /\
    (forall i, kind_of i <> Act -> G i = sig_demo_ghost i) /\ forall j, 3 <= j <= 5 -> action_of s G 32 j = Some (repeat_act j).
Proof.
  destruct sig_demo_init as (s0 & _ & Hi0 & [E0 _ T0 C0] & _).
  assert (Ha0 : at_task sys_T 8 (skn s0) 32 0 0) by (unfold skn; rewrite E0; apply sig_demo_at).
  assert (F0 : (14 <= length (sig_demo_ghost g_sigfreeaction))%nat) by (vm_compute; lia).
  destruct (sigaction_spec sys_T 8 32 s0 sig_demo_ghost 0 0 3 (Some (repeat_act 3)) Hi0 Ha0) as (k1 & s1 & G1 & _ & Ha1 & [I1 M1 D1 F1 _ _ T1 C1 _]); [done|unfold good; lia| |].
  { intros _. left. intros E. rewrite E in F0. simpl in F0. lia. }
  destruct (sigaction_spec sys_T 8 32 s1 G1 0 0 4 (Some (repeat_act 4)) I1 Ha1) as (k2 & s2 & G2 & _ & Ha2 & [I2 M2 D2 F2 _ _ T2 C2 _]); [done|unfold good; lia| |].
  { intros _. left. intros E. rewrite E in F1. simpl in F1. lia. }
  destruct (sigaction_spec sys_T 8 32 s2 G2 0 0 5 (Some (repeat_act 5)) I2 Ha2) as (k3 & s3 & G3 & _ & Ha3 & [I3 M3 D3 _ _ _ T3 C3 _]); [done|unfold good; lia| |].
  { intros _. left. intros E. rewrite E in F2. simpl in F2. lia. }
  simpl in T1, T2, T3, C1, C2, C3. exists (set_kheap [] s3), G3. split_and!; [by apply sig_inv_used_up|done|change (tsig s3 = tsig sig_demo); congruence|simpl; by rewrite C3, C2, C1, C0|done| |].
  - intros i Hk. by rewrite D3, D2, D1.
  - intros j Hj. change (action_of (set_kheap [] s3) G3 32 j) with (action_of s3 G3 32 j). rewrite M3. unfold acted. cbn [sa_handler repeat_act].
    change (action_of (set_skn k3 s2) G2 32 j) with (action_of s2 G2 32 j). rewrite M2. unfold acted.
    change (action_of (set_skn k2 s1) G1 32 j) with (action_of s1 G1 32 j). rewrite M1. unfold acted.
    assert (Hc : j = 3 \/ j = 4 \/ j = 5) by lia. by destruct Hc as [->|[->| ->]].
Qed.

(** Pending signal structures stay on their free list. *)
Lemma fixed_stays s G s' G' :
  ran s G [] s' G' [] -> sig_inv s G -> G g_sigpendingsignal <> [] -> (forall g, G' (sigpendingq g) = []) -> G' g_sigpendingsignal <> [].
Proof.
  intros R Hi Hne Hno E. destruct (G g_sigpendingsignal) as [|p l] eqn:EG; [done|]. assert (Hp : p ∈ G g_sigpendingsignal) by (rewrite EG; by left).
  pose proof (sv_fixed _ _ Hi p Hp) as Hf. destruct (rn_kept _ _ _ _ _ _ R Pend p) as [[(i & Hk & Hin)|Hin]|Hd]; [left; by exists g_sigpendingsignal| | |].
  - destruct i; try done; [by rewrite E in Hin; apply not_elem_of_nil in Hin| |by rewrite Hno in Hin; apply not_elem_of_nil in Hin].
    pose proof (sv_irq _ _ (ow_inv _ _ _ (rn_owned _ _ _ _ _ _ R)) p Hin) as Hq. rewrite (rn_pends _ _ _ _ _ _ R), Hf in Hq. done.
  - by apply not_elem_of_nil in Hin.
  - simpl in Hd. by rewrite Hf in Hd.
Qed.

Lemma repeat_reached : exists s G q1 q2, repeat_state s G q1 q2.
Proof.
  destruct repeat_actions as (s0 & G0 & I0 & Ha0 & T0 & C0 & K0 & D0 & A0).
  assert (F0 : (14 <= avail s0 G0)%nat) by (unfold avail; rewrite D0 by done; etransitivity; [|apply Nat.le_add_r]; vm_compute; lia).
  pose proof (sig_queueaction_spec sys_T 8 32 s0 G0 [] 0 0 (demo_sig 4) (owned_nil _ _ I0) Ha0 ltac:(lia) ltac:(unfold MAX_LOCK_COUNT; lia)) as H1.
  rewrite A0 in H1 by (simpl; lia). destruct H1 as (s1 & G1 & q1 & _ & Ha1 & R1 & Q1 & L1 & S1 & M1 & N1 & V1 & T1 & C1 & E1); [lia|].
  assert (A1 : action_of s1 G1 32 5 = Some (repeat_act 5)) by (unfold action_of; rewrite (rn_acts _ _ _ _ _ _ R1), L1 by done; apply A0; lia).
  pose proof (sig_queueaction_spec sys_T 8 32 s1 G1 [] 0 0 (demo_sig 5) (rn_owned _ _ _ _ _ _ R1) Ha1 ltac:(lia) ltac:(unfold MAX_LOCK_COUNT; lia)) as H2.
  cbn [si_signo demo_sig] in H2. rewrite A1 in H2. destruct H2 as (s2 & G2 & q2 & _ & _ & R2 & Q2 & L2 & S2 & _ & N2 & V2 & T2 & C2 & E2); [lia|].
  rewrite Q1, D0 in Q2 by done. simpl in Q2. pose proof (ow_inv _ _ _ (rn_owned _ _ _ _ _ _ R2)) as I2.
  assert (Hne : q1 <> q2) by (pose proof (sq_nodup _ _ _ (lo_rep _ _ (sv_lists _ _ I2) (sigpendactionq 32))) as Hnd; rewrite Q2 in Hnd; apply NoDup_cons in Hnd as [Hnd _]; set_solver).
  assert (K2 : kheap s2 = []).
  { destruct (kheap s2) as [|p h] eqn:E; [done|]. destruct (not_elem_of_nil p). rewrite <- K0. apply (rn_heap _ _ _ _ _ _ R1), (rn_heap _ _ _ _ _ _ R2). rewrite E. by left. }
  exists (set_skn sys_kernel s2), G2, q1, q2. constructor; try done.
  - by apply sig_inv_skn.
  - change (tsig s2 32 = mk_tsig 6 0 no_info false 900). by rewrite T2, T1, T0.
  - change (calls s2 = []). by rewrite C2, C1.
  - change (sigqs (set_skn sys_kernel s2)) with (sigqs s2). by rewrite E2.
  - by rewrite L2, L1, D0.
  - by rewrite L2, L1, D0.
  - intros E. unfold avail in *. rewrite E, K2 in V2. simpl in V2. lia.
  - by apply (fixed_stays s0 G0 s2 G2 (ran_trans _ _ _ _ _ _ _ _ _ (owned_nil _ _ I0) R1 R2)); [|rewrite D0|intros g; rewrite L2, L1, D0].
  - change (action_of s2 G2 32 3 = Some (repeat_act 3)). unfold action_of. rewrite (rn_acts _ _ _ _ _ _ R2), (rn_acts _ _ _ _ _ _ R1), L2, L1 by done. apply A0. lia.
Qed.

(** The handler of 5 is called before and after that of 3. *)
Lemma sig_deliver_repeats_witness :
  exists s G q1 q2 t, repeat_state s G q1 q2 /\
    calls t = [(1004, demo_sig 4); (1005, demo_sig 5); (1003, mk_info 3 SI_USER 0 3 OK); (1005, demo_sig 5)] /\
    exists f, sig_deliver repeat_handler 2 s 32 = (u ← repeat_handler 1005 (demo_sig 5) t; f u).
Proof.
  destruct repeat_reached as (s & G & q1 & q2 & [I K Ht C Q (F1 & F2 & F3) (S1 & S2) P PE FR RO A]).
  assert (Hok : forall a i, a <> 1004 -> handler_ok sys_T 8 32 (repeat_handler a i)).
  { intros a i Hne. unfold repeat_handler. destruct (Z.eqb_spec a 1004); [done|]. apply demo_handler_ok. }
  assert (Ki : kill_info 32 s 3 = mk_info 3 SI_USER 0 3 OK) by (unfold kill_info; by rewrite K).
  destruct (sig_deliver_repeats sys_T 8 32 repeat_handler (fun _ _ s => Some s) 0 s G q1 q2 [] 0 0 3 3 (repeat_act 3)) as (s' & G' & t & (_ & _ & _ & C') & Ct & Hrun).
  - exact I.
  - rewrite K. apply sig_demo_at.
  - lia.
  - unfold MAX_LOCK_COUNT. lia.
  - by rewrite Ht.
  - exact Q.
  - vm_compute. lia.
  - rewrite P. vm_compute. lia.
  - rewrite Ht. cbn [group]. by rewrite PE.
  - exact FR.
  - unfold good. lia.
  - by rewrite F2.
  - by rewrite Ht.
  - exact A.
  - lia.
  - by rewrite K.
  - intros _. left. exact RO.
  - intros u. by rewrite F1.
  - intros y [->|Hy%not_elem_of_nil]%elem_of_cons; [|done]. apply Hok. by rewrite S1.
  - by apply Hok.
  - exists s, G, q1, q2, t. split; [by constructor|]. rewrite C', C in Ct. cbn [map app] in Ct. rewrite F1, F3, S1, S2, Ki in Ct. split; [exact Ct|].
    rewrite S1, S2 in Hrun. eexists. exact Hrun.
Defined.

(** An action that finds no free structure and no memory is not an error
    return: a null pointer is put on the free list. *)
Lemma sigaction_no_memory s G x n e m a :
  sig_inv s G -> at_task sys_T 8 (skn s) x n e -> 0 <= n < MAX_LOCK_COUNT -> good m -> action_of s G x m = None -> sa_handler a <> 0 ->
  G g_sigfreeaction = [] -> kheap s = [] -> sigaction s m (Some a) = None.
Proof.
  intros Hi Ha Hn Hg Hno Hh Hf Hk. destruct (at_task_head _ _ _ _ _ _ Ha) as (Hhd & Hx & _). unfold sigaction. rewrite GOOD_SIGNO_good by done. cbn [negb]. rewrite Hhd.
  destruct (sig_findaction_spec sys_T 8 x s G n e x m Hi Ha Hn Hx) as (k & p & -> & _ & [[-> _]|(_ & Hs & _)]); [|congruence]. rewrite some_bind.
  change (negb (0 =? 0)) with false. change (0 =? 0) with true. cbv iota. destruct (Z.eqb_spec (sa_handler a) 0); [done|].
  unfold sig_allocateaction. destruct (take_none (set_skn k s) G g_sigfreeaction (sig_inv_skn s G k Hi) Hf) as (s1 & -> & Ho & _). rewrite some_bind. change (0 =? 0) with true. cbv iota.
  unfold sig_allocateactionblock, malloc. rewrite (ol_kheap _ _ Ho). change (kheap (set_skn k s)) with (kheap s). rewrite Hk. reflexivity.
Qed.
